(* ===== verification/_CoqProject ===== *)
-Q . S2P
Prelude.v
Bytes.v
Buffer.v
LibMem.v
LibString.v
Printf.v
CryptoInternal.v
MerkleDamgard.v
Md5.v
Sha.v
ChaCha20.v
CryptoRng.v
CryptoSelftest.v
Pmm.v
PmmInit.v
PageAlloc.v
PmmSpec.v
Paging.v
PagingSpec.v
Heap.v
HeapRep.v
HeapSpec.v
Tss.v
Sched.v
SchedInv.v
SchedSpec.v
SchedMem.v
SchedRun.v
SchedDemo.v
NetBuf.v
Ethernet.v
Arp.v
Ipv4.v
Ipv4Spec.v
Ipv6.v
Ipv6Spec.v
Dhcp.v
DhcpSpec.v
Tcp.v
TcpSpec.v
DiskDrivers.v
Blockdev.v
SectorDev.v
Fat32.v
Fat32Chain.v
Fat32Data.v
Fat32Dir.v
Fat32Unlink.v
Fat32Append.v
Fat32Mount.v
Fat32Demo.v
Vfs.v
Devfs.v
DevfsSpec.v
VfsSpec.v
FatVfs.v
FatVfsSpec.v
Exfat.v
ExfatData.v
ExfatDir.v
ExfatCreate.v
ExfatMount.v
ExfatDemo.v
Partition.v
PartitionSpec.v
Fb.v
FbSpec.v
Fbfont.v
FbText.v
Ktime.v
KtimeSpec.v
Kbd.v
Multiboot.v
MultibootSpec.v
Aml.v
AmlSpec.v
Errlist.v
Terminal.v
TerminalSpec.v
Shell.v
