(* ===== verification/Prelude.v ===== *)
(** 64OS kernel: a verification library.

    64OS is a monolithic x86-64 kernel written in C.  The library translates the parts of
    it that carry its own logic into executable definitions and proves what they promise.

    * The program and the files that model it

    - Library routines.  libk/string.c is [LibMem] (memory routines with their word loops,
      on a byte-addressed memory [mem]) and [LibString] (string routines, number texts).
      libk/vsnprintf.c is [Printf], on the same memory, with two formatters on lists: what the
      code prints and, where the two agree, what the C standard asks for.
    - Cryptography.  include/crypto/internal.h is [CryptoInternal]; the streaming code that
      crypto/hash/md5.c, sha1.c and sha256.c share is [MerkleDamgard], over the class
      [HashAlgo] that [Md5] and [Sha] (SHA-1 and SHA-256) instantiate; crypto/cipher/chacha20.c is
      [ChaCha20], crypto/random.c [CryptoRng], crypto/selftest.c [CryptoSelftest].
    - Memory management.  kernel/mm/pmm.c, a bitmap of pages, is [Pmm], its boot [PmmInit],
      its properties [PmmSpec].  kernel/paging.c, four-level tables in physical memory, is
      [Paging], related to the page walk of the processor in [PagingSpec].  kernel/mm/heap.c,
      a doubly linked list of blocks with headers in memory, is [Heap]; [HeapRep] relates
      the list in memory to a list of blocks, [HeapSpec] states what callers may rely on.
      [PageAlloc] holds the classes through which the heap sees the two layers below.
    - Scheduling.  kernel/tss.c is [Tss].  kernel/sched.c is [Sched]: task structures in a
      store keyed by address, the ring and the zombie list by their [next] pointers, memory
      and address spaces through the class [TaskMem].  [SchedInv] has the invariant,
      [SchedSpec] the operations, [SchedRun] runs and fairness; [SchedMem] shows that the
      heap over the page tables is an instance of [TaskMem]; [SchedDemo] is a concrete
      kernel on which the theorems are applied.
    - Network.  kernel/net/net.c is [NetBuf], ethernet.c [Ethernet], arp.c [Arp], ipv4.c with
      icmp.c and udp.c [Ipv4], with its properties in [Ipv4Spec]; tcp.c, a client that opens
      and closes connections, is [Tcp], with its properties in [TcpSpec].  ipv6.c is [Ipv6] with
      [Ipv6Spec], dhcp.c, over the random generator, [Dhcp] with [DhcpSpec].  A buffer is the
      bytes of its block and offsets into it; an access outside the block is an error of the
      model.
    - Storage.  The transfer loops of drivers/disk/ide.c and ahci.c are [DiskDrivers], over
      the class [SectorIo] of a drive that reads and writes single sectors; they are an
      instance of the class [DiskHw], whose laws speak of the transfers a driver performs as
      asked: up to 256 sectors for IDE, one for AHCI, which takes the count for bytes.
      drivers/disk/blockdev.c is [Blockdev], over [DiskHw]; kernel/partition.c is [Partition],
      with its properties in [PartitionSpec].
    - File systems.  What a file system relies on of a device is the class [SectorDev]
      ([SectorDev.v] shows that the devices of [Blockdev] are an instance).  fs/fat32.c is
      [Fat32], the whole driver; [Fat32Chain] has the cluster table, [Fat32Data] reading and
      writing, [Fat32Dir] lookup and creation, [Fat32Unlink] deletion, [Fat32Append] the
      writes that need a new cluster, [Fat32Mount] formatting and mounting, and [Fat32Demo]
      a small volume on which the theorems are applied.  fs/exfat.c is [Exfat], the whole
      driver, with [ExfatData] for reading and writing, [ExfatDir] for listing, [ExfatCreate]
      for creation, deletion and renaming, [ExfatMount] for formatting, mounting and
      unmounting, and [ExfatDemo], a small volume.  fs/vfs.c is [Vfs]: inodes, open files
      and mounts in stores keyed by address, over the class [FsTable] that gives the two
      operation tables behind an inode.  fs/devfs (devfs.c, std.c, blk.c) is [Devfs], an
      instance, with its directories in [DevfsSpec]; [FatVfs] puts the operations of [Fat32]
      behind the tables, the second instance.  [VfsSpec] has the path walk, over the class
      [FreshFs] that states what a driver owes it, [FatVfsSpec] shows that FAT32 keeps it and
      applies the theorems.  [Bytes] holds the little-endian
      fields that packets, sectors and directory entries share, [Buffer] the checked
      accesses to a block of bytes.
    - Screen, keyboard, clock and boot information.  drivers/fb/fbbase.c and fbprim.c are
      [Fb], whose primitives write pixels to a framebuffer in memory, with its properties in
      [FbSpec]; the glyphs of include/fbfont are [Fbfont] and fbtextrender.c is [FbText].
      kernel/time is [Ktime] with [KtimeSpec]: calendar, real-time clock,
      ticks and sleeping.  drivers/ps2kbd/ps2kbd.c and the translation of
      drivers/usb/hid_keyboard.c are [Kbd].  boot/mb2p, the walk over the boot tags and the
      command line, is [Multiboot] with [MultibootSpec].  drivers/acpi/aml.c, the parser and
      interpreter of ACPI tables, is [Aml] with [AmlSpec].
    - Terminal.  kernel/errlist.c is [Errlist]; kernel/terminal.c, and what the error list
      prints, is [Terminal] with [TerminalSpec]; kernel/cmd.c, the prompt, is [Shell].
      The lines are a linked list in a store; the calls of the frame buffer are
      collected as a list, which [run_draws] carries out on [Fb] and [FbText].

    * Conventions

    A w-bit integer is a [Z]; the result of an operation that C truncates is wrapped with
    [wrap w] ([u8] to [u64]) or [swrap w].  A routine returns an [outcome]: [Ret] for a
    return, [Panic] for a call of panic(), [Crash] for an access outside the object it is
    meant for or a loop that does not end.  Addresses are [Z] with 0 for NULL.  Where the
    code calls into a layer that is modelled apart, or into hardware, the layer is a class
    with its operations and the laws the caller relies on, and an instance shows that the
    laws can hold.  Outside of the terminal and the error list, printing is left out.

    * What the theorems show

    - Memory: every sequence of [malloc] and [free] on the block list implements an
      abstract allocator, with the functional behaviour of each operation; on tables
      without large pages, mapping gives one page its frame and flags, unmapping takes them
      away, and no other page changes; the page counter and
      the bitmap agree along every run, and allocation takes the first free run.
    - Scheduling: along every interleaving of interrupts and of calls that respect [allowed]
      (no stop of process id 0, stacks of 192 bytes or more) the ring, the zombies,
      the process ids and the ownership of memory stay well formed; a runnable task runs
      within one round; the interrupt saves and restores contexts exactly; creation, stop,
      exit and the killing of all tasks do what they say.
    - Libraries and cryptography: the optimised routines equal reference definitions, the
      streaming hashes equal the one-pass construction for the lengths whose padding fits,
      encryption round trips, the formatter prints what the standard asks for outside the
      cases that [honoured] excludes; a request for random bytes reseeds when it is due and
      delivers the key stream.
    - Network: the textual addresses round trip, route lookup is the minimum over the
      matching routes, the checksum detects a changed byte, input accepts what output
      writes, the ARP cache is a bounded map; an emitted TCP segment carries a valid checksum,
      and no sequence of calls and segments reaches the established state.  IPv6 texts are
      read back exactly when the longest run of zeros is in front; a DHCP message is read back
      by the scan of its options, and no run of the client configures its caller.
    - Storage: a write through a partition that the driver serves stays inside it and reads back; the boot sector
      operations change one entry.
    - File systems: a read returns the bytes of the cluster chain, a write inside a file
      replaces just those bytes, creation and deletion change what one name means and no
      other, the allocator hands out fresh chains, freeing ends on every table, and a
      formatted volume is mounted as it was laid out.  For exFAT a read and a write inside a
      file are exact, a listing has one entry per entry set, creation and renaming change
      what one name means, and unmounting and mounting give the volume back; an append
      replaces the file, a deleted file keeps its clusters, and a long name overruns the
      buffer of entries.  A path walk neither loses nor
      leaks a reference, what is written through an open file is read back, and a device node
      is listed and found under its name.
    - Screen, keyboard, clock, boot: a line is the reference line clipped to the screen, a
      rectangle changes its own pixels only, a character shows its glyph; dates and seconds
      round trip; the keyboard buffer refines a bounded queue; the tag walk visits every
      well-formed tag once and the memory sum is that of the available regions.  The
      interpreter of ACPI byte code computes the value of an expression whose operands come
      before the operators, over the class [ObjAlloc] of what it needs of the heap; in the
      order of ACPI tables it computes nothing.
    - Terminal: the linked list of lines is a bounded queue, over the class [LineAlloc] of
      what it needs of the heap; printing appends the lines of a text and draws the last rows of
      the queue; wrapping loses nothing; clearing frees every line; the prompt implements a line
      editor; removal in place from the error list is a filter.
    - The corner cases that the code gets wrong are theorems as well: overruns of padding
      and packet buffers, wrapped bounds checks, a checksum test that rejects valid
      headers, an endless walk of boot records.

    * Fuel

    A loop that is not structural takes a number of steps and is [Crash] when they run
    out.  For walks over strings the theorems ask for more steps than the string has
    characters; for the ring, the zombie list and the heap the number is computed from the
    state ([fuel_of], the number of tasks or blocks), and the theorems show that it is
    enough; page-table loops take the number of pages of the range.  A device stands on at
    most one other, so two steps are enough for [blockdev_read].  The walk of extended boot
    records has no bound in the code, and a theorem shows that no fuel is enough.
    Walks over a chain of clusters take the length of the table, which is enough for a
    chain without repetition; for freeing it is enough on every table.  The
    scan of an exFAT cluster takes its number of entries plus one, its read loop the number of
    clusters of the range plus two.  The climb to the root in [vfs_build_path] takes a bound that is enough when it exceeds the
    ranks of [FreshFs].
    A line takes the longer of its two sides plus one, a sleep the ticks it waits for, and
    the walk over the boot tags an eighth of the total size plus one; theorems show that
    these are enough, and that on a tag of size zero none is.  Reading an IPv6 text takes 20
    steps, printing one 8, and the scan of DHCP options 300, one for each byte it may look at.
    The loops over ACPI tables and byte code take their fuel as an argument; theorems give
    what is enough for an expression, and show tables and code that no fuel ends.  The walks
    over the lines of the terminal take one more than the lines in the store, which is enough
    for a list without a cycle.

    * Not modelled

    Device drivers below the interfaces above (the command protocol of the disk
    controllers, network cards, USB,
    ACPI tables other than AML, APIC, PCI, sound, the calibration of the timers): their
    behaviour is that of hardware registers.  Assembly stubs, the interrupt tables and the
    order of the boot sequence.  The commands of the shell other than those of the terminal
    itself are an argument of the prompt.  The process file system is not modelled. *)

From Stdlib Require Export ZArith Lia Bool ZifyNat ZifyBool.
From stdpp Require Export base list numbers tactics relations gmap.
#[global] Open Scope Z_scope.
#[export] Set Warnings "-clear-no-such-hyp".

(** * Machine integers

    A C integer of width [w] is a [Z]; every operation of the source whose
    result the C type truncates is followed by [wrap w]. *)

Definition wrap (w z : Z) : Z := z mod 2 ^ w.

Abbreviation u8 := (wrap 8).
Abbreviation u16 := (wrap 16).
Abbreviation u32 := (wrap 32).
Abbreviation u64 := (wrap 64).

(** Two's complement reading of the low [w] bits. *)
Definition swrap (w z : Z) : Z :=
  let r := z mod 2 ^ w in if r <? 2 ^ (w - 1) then r else r - 2 ^ w.

Abbreviation i8 := (swrap 8).
Abbreviation i32 := (swrap 32).
Abbreviation i64 := (swrap 64).

Definition fits (w z : Z) : Prop := 0 <= z < 2 ^ w.

(** Bitwise complement at width [w]. *)
Definition wnot (w z : Z) : Z := wrap w (Z.lnot z).

Definition add32 (x y : Z) : Z := u32 (x + y).
Definition shl32 (x n : Z) : Z := u32 (Z.shiftl x n).
Definition add64 (x y : Z) : Z := u64 (x + y).
Definition sub64 (x y : Z) : Z := u64 (x - y).

Declare Scope w32_scope.
Delimit Scope w32_scope with w32.
Notation "x ⊞ y" := (add32 x y) (at level 50, left associativity) : w32_scope.
Notation "x ⊻ y" := (Z.lxor x y) (at level 48, left associativity) : w32_scope.
Notation "x ⊼ y" := (Z.land x y) (at level 45, left associativity) : w32_scope.
Notation "x ⊽ y" := (Z.lor x y) (at level 49, left associativity) : w32_scope.

(** * The outcome of a kernel routine

    [Ret] is a normal return, [Panic] a call of [panic()] (which never
    returns), [Crash] an access outside the object it is meant for, on which
    the C program has no defined behaviour. *)

Inductive outcome (A : Type) : Type :=
| Ret (a : A)
| Panic
| Crash.
Arguments Ret {A} a.
Arguments Panic {A}.
Arguments Crash {A}.

Definition obind {A B} (x : outcome A) (f : A -> outcome B) : outcome B :=
  match x with
  | Ret a => f a
  | Panic => Panic
  | Crash => Crash
  end.

Definition of_option {A} (x : option A) : outcome A :=
  match x with Some a => Ret a | None => Crash end.

Declare Scope outcome_scope.
Delimit Scope outcome_scope with out.
Notation "'do' x <- c ; k" := (obind c (fun x => k))
  (at level 100, x binder, c at level 99, k at level 200, right associativity,
   format "'[v' 'do'  x  <-  c ; '/' k ']'") : outcome_scope.
Notation "'do' ' p <- c ; k" := (obind c (fun x => match x with p => k end))
  (at level 100, p pattern, c at level 99, k at level 200, right associativity) : outcome_scope.

(** * Loops

    [for_range n s0 body] is [for (i = 0; i < n; i++) s = body i s]. *)

Fixpoint for_from {S} (i : Z) (n : nat) (body : Z -> S -> S) (s : S) : S :=
  match n with
  | O => s
  | Datatypes.S n' => for_from (i + 1) n' body (body i s)
  end.

Definition for_range {S} (n : nat) (body : Z -> S -> S) (s : S) : S :=
  for_from 0 n body s.

(** The same loop with a body that can panic or crash. *)
Fixpoint ofor_from {S} (i : Z) (n : nat) (body : Z -> S -> outcome S) (s : S) : outcome S :=
  match n with
  | O => Ret s
  | Datatypes.S n' => obind (body i s) (ofor_from (i + 1) n' body)
  end.

(** * Arrays

    [get l i] reads element [i] of a C array modelled as a list of integers
    (0 outside, where every use in the models is in range by construction);
    [get_chk] is the checked read and [set_chk] the checked write used where
    the bound is in question. *)

Definition get (l : list Z) (i : Z) : Z := nth (Z.to_nat i) l 0.

Definition set (l : list Z) (i v : Z) : list Z := <[Z.to_nat i := v]> l.

Definition get_chk (l : list Z) (i : Z) : option Z :=
  if (0 <=? i) && (i <? Z.of_nat (length l)) then Some (get l i) else None.

Definition set_chk (l : list Z) (i v : Z) : option (list Z) :=
  if (0 <=? i) && (i <? Z.of_nat (length l)) then Some (set l i v) else None.

(** * Lemmas on machine integers *)

Create HintDb width.

Lemma pow2_pos (w : Z) : 0 <= w -> 0 < 2 ^ w.
Proof. intros. apply Z.pow_pos_nonneg; lia. Qed.

Lemma wrap_fits (w z : Z) : 0 <= w -> fits w (wrap w z).
Proof. intros Hw. apply Z.mod_pos_bound, pow2_pos, Hw. Qed.

Lemma wrap_small (w z : Z) : fits w z -> wrap w z = z.
Proof. apply Z.mod_small. Qed.

Lemma wrap_wrap (w z : Z) : 0 <= w -> wrap w (wrap w z) = wrap w z.
Proof. intros. apply wrap_small, wrap_fits; done. Qed.

Lemma wrap_add_l (w x y : Z) : wrap w (wrap w x + y) = wrap w (x + y).
Proof. apply Zplus_mod_idemp_l. Qed.

Lemma wrap_add_r (w x y : Z) : wrap w (x + wrap w y) = wrap w (x + y).
Proof. apply Zplus_mod_idemp_r. Qed.

Lemma wrap_sub_l (w x y : Z) : wrap w (wrap w x - y) = wrap w (x - y).
Proof. apply Zminus_mod_idemp_l. Qed.

Lemma wrap_land (w z : Z) : 0 <= w -> wrap w z = Z.land z (Z.ones w).
Proof. intros. symmetry. apply Z.land_ones. done. Qed.

Lemma wrap_testbit (w z i : Z) :
  0 <= w -> 0 <= i -> Z.testbit (wrap w z) i = (i <? w) && Z.testbit z i.
Proof.
  intros Hw Hi. unfold wrap. destruct (Z.ltb_spec i w).
  - rewrite Z.mod_pow2_bits_low by lia. done.
  - rewrite Z.mod_pow2_bits_high by lia. done.
Qed.

Lemma fits_testbit (w z i : Z) :
  0 <= w -> fits w z -> w <= i -> Z.testbit z i = false.
Proof.
  intros Hw Hz Hi. rewrite <- (wrap_small w z) by done.
  rewrite wrap_testbit by lia. destruct (Z.ltb_spec i w); [lia | done].
Qed.

(** A non-negative number whose bits from [w] on are 0 fits in [w] bits. *)
Lemma fits_of_testbit (w z : Z) :
  0 <= w -> (forall i, w <= i -> Z.testbit z i = false) -> fits w z.
Proof.
  intros Hw H. cut (wrap w z = z).
  { intros <-. by apply wrap_fits. }
  apply Z.bits_inj'. intros i Hi. rewrite wrap_testbit by lia.
  destruct (Z.ltb_spec i w); [done | by rewrite H].
Qed.

Lemma land_fits_l (w x y : Z) : 0 <= w -> fits w x -> fits w (Z.land x y).
Proof.
  intros Hw Hx. apply fits_of_testbit; [done |]. intros i Hi.
  by rewrite Z.land_spec, (fits_testbit w x).
Qed.

Lemma land_fits_r (w x y : Z) : 0 <= w -> fits w y -> fits w (Z.land x y).
Proof. rewrite Z.land_comm. apply land_fits_l. Qed.

Lemma lor_fits (w x y : Z) : 0 <= w -> fits w x -> fits w y -> fits w (Z.lor x y).
Proof.
  intros Hw Hx Hy. apply fits_of_testbit; [done |]. intros i Hi.
  by rewrite Z.lor_spec, (fits_testbit w x), (fits_testbit w y).
Qed.

Lemma lxor_fits (w x y : Z) : 0 <= w -> fits w x -> fits w y -> fits w (Z.lxor x y).
Proof.
  intros Hw Hx Hy. apply fits_of_testbit; [done |]. intros i Hi.
  by rewrite Z.lxor_spec, (fits_testbit w x), (fits_testbit w y).
Qed.

Lemma shiftr_fits (w x n : Z) : 0 <= w -> 0 <= n -> fits w x -> fits w (Z.shiftr x n).
Proof.
  intros Hw Hn Hx. apply fits_of_testbit; [done |]. intros i Hi.
  rewrite Z.shiftr_spec by lia. apply (fits_testbit w); lia || done.
Qed.

Lemma fits_0 (w : Z) : 0 <= w -> fits w 0.
Proof. intros. split; [lia | by apply pow2_pos]. Qed.

Lemma fits_mono (w w' z : Z) : 0 <= w <= w' -> fits w z -> fits w' z.
Proof.
  intros Hw [H1 H2]. split; [done |]. eapply Z.lt_le_trans; [done |].
  apply Z.pow_le_mono_r; lia.
Qed.

#[export] Hint Resolve wrap_fits land_fits_l lor_fits lxor_fits shiftr_fits fits_0 : width.
#[export] Hint Extern 1 (0 <= _) => lia : width.

(** Decide a closed machine-integer bound. *)
Ltac fits_tac := first [ split; vm_compute; congruence | eauto with width ].

(** Reduce an equation between integers to one between bits. *)
Ltac by_bits i Hi := apply Z.bits_inj'; intros i Hi.

(** Linear arithmetic with division and remainder by constants. *)
Ltac dlia := zify; Z.to_euclidean_division_equations; lia.

(** * Lemmas on outcomes *)

Lemma obind_ret {A B} (x : outcome A) (f : A -> outcome B) (b : B) :
  obind x f = Ret b <-> exists a, x = Ret a /\ f a = Ret b.
Proof.
  destruct x as [a| |]; simpl; (split; [| by intros (? & ? & ?); simplify_eq]);
    [by exists a | done..].
Qed.

Lemma obind_assoc {A B C} (x : outcome A) (f : A -> outcome B) (g : B -> outcome C) :
  obind (obind x f) g = obind x (fun a => obind (f a) g).
Proof. by destruct x. Qed.

(** Split a successful run of a monadic body into its steps. *)
Ltac inv_ret :=
  repeat match goal with
  | H : obind ?x _ = Ret _ |- _ =>
      let a := fresh "a" in let E := fresh "E" in
      apply obind_ret in H as (a & E & H)
  | H : Ret _ = Ret _ |- _ => injection H as H; subst
  end.

(** * Lemmas on loops *)

Lemma for_from_app {S} (i : Z) (n m : nat) (body : Z -> S -> S) (s : S) :
  for_from i (n + m) body s = for_from (i + Z.of_nat n) m body (for_from i n body s).
Proof.
  revert i s. induction n as [|n IH]; intros i s; simpl.
  - f_equal. lia.
  - rewrite IH. f_equal. lia.
Qed.

(** Loop rule: an invariant that holds before the first iteration and is kept
    by each one holds after the last. *)
Lemma for_from_inv {S} (P : Z -> S -> Prop) (i : Z) (n : nat) (body : Z -> S -> S) (s : S) :
  P i s ->
  (forall j s', i <= j < i + Z.of_nat n -> P j s' -> P (j + 1) (body j s')) ->
  P (i + Z.of_nat n) (for_from i n body s).
Proof.
  revert i s. induction n as [|n IH]; intros i s H0 Hs; simpl.
  - by rewrite Z.add_0_r.
  - replace (i + Z.of_nat (Datatypes.S n)) with (i + 1 + Z.of_nat n) by lia.
    apply IH; [apply Hs; [lia | done] |]. intros j s' Hj. apply Hs. lia.
Qed.

Lemma for_range_inv {S} (P : Z -> S -> Prop) (n : nat) (body : Z -> S -> S) (s : S) :
  P 0 s ->
  (forall i s', 0 <= i < Z.of_nat n -> P i s' -> P (i + 1) (body i s')) ->
  P (Z.of_nat n) (for_range n body s).
Proof. intros H0 Hs. by apply (for_from_inv P 0). Qed.

Lemma ofor_from_app {S} (i : Z) (n m : nat) (body : Z -> S -> outcome S) (s : S) :
  ofor_from i (n + m) body s =
  obind (ofor_from i n body s) (ofor_from (i + Z.of_nat n) m body).
Proof.
  revert i s. induction n as [|n IH]; intros i s; simpl.
  - f_equal; lia.
  - rewrite obind_assoc. destruct (body i s) as [s'| |]; simpl; [| done..].
    rewrite IH. do 2 f_equal. lia.
Qed.

(** Loop rule for bodies that can fail: under the invariant no iteration
    fails, so the loop returns, and the invariant holds at the end. *)
Lemma ofor_from_inv {S} (P : Z -> S -> Prop) (i : Z) (n : nat)
    (body : Z -> S -> outcome S) (s : S) :
  P i s ->
  (forall j s', i <= j < i + Z.of_nat n -> P j s' ->
     exists s'', body j s' = Ret s'' /\ P (j + 1) s'') ->
  exists s', ofor_from i n body s = Ret s' /\ P (i + Z.of_nat n) s'.
Proof.
  revert i s. induction n as [|n IH]; intros i s H0 Hs; simpl.
  - exists s. by rewrite Z.add_0_r.
  - destruct (Hs i s ltac:(lia) H0) as (s1 & -> & H1). simpl.
    destruct (IH (i + 1) s1 H1) as (s2 & E & H2).
    { intros j s' Hj. apply Hs. lia. }
    exists s2. split; [done |].
    by replace (i + Z.of_nat (Datatypes.S n)) with (i + 1 + Z.of_nat n) by lia.
Qed.

(** * Lemmas on arrays *)

Lemma get_lookup (l : list Z) (i : Z) :
  0 <= i < Z.of_nat (length l) -> l !! Z.to_nat i = Some (get l i).
Proof. intros Hi. unfold get. rewrite nth_lookup. destruct (lookup_lt_is_Some_2 l (Z.to_nat i)) as [x ->]; [lia | done]. Qed.

Lemma length_set (l : list Z) (i v : Z) : length (set l i v) = length l.
Proof. apply length_insert. Qed.

Lemma get_set_eq (l : list Z) (i v : Z) :
  0 <= i < Z.of_nat (length l) -> get (set l i v) i = v.
Proof.
  intros Hi. unfold get, set. rewrite nth_lookup, list_lookup_insert_eq by lia. done.
Qed.

Lemma get_set_ne (l : list Z) (i j v : Z) :
  0 <= i -> 0 <= j -> i <> j -> get (set l i v) j = get l j.
Proof.
  intros Hi Hj Hij. unfold get, set. rewrite !nth_lookup, list_lookup_insert_ne by lia. done.
Qed.

(** Two arrays of one length with the same elements are the same array. *)
Lemma list_eq_get (l k : list Z) :
  length l = length k ->
  (forall i, 0 <= i < Z.of_nat (length l) -> get l i = get k i) -> l = k.
Proof.
  intros Hlen H. apply list_eq. intros n.
  destruct (decide (n < length l)%nat) as [Hn | Hn].
  - pose proof (H (Z.of_nat n) ltac:(lia)) as E.
    pose proof (get_lookup l (Z.of_nat n) ltac:(lia)) as E1.
    pose proof (get_lookup k (Z.of_nat n) ltac:(lia)) as E2.
    rewrite Nat2Z.id in E1, E2. by rewrite E1, E2, E.
  - rewrite !lookup_ge_None_2 by lia. done.
Qed.

