(* ===== verification/Bytes.v ===== *)
(** Byte lists: little-endian numbers, writing over a part of a list, and the fields of the
    packed structures that packets and disk sectors hold. *)

From S2P Require Import Prelude.

(** * Byte lists *)

Fixpoint le_bytes (n : nat) (v : Z) : list Z :=
  match n with O => [] | S n' => u8 v :: le_bytes n' (Z.shiftr v 8) end.

Fixpoint le_val (bs : list Z) : Z :=
  match bs with [] => 0 | b :: bs' => b + 256 * le_val bs' end.

(** [bs] written over [l] at [i]. *)
Definition splice (l : list Z) (i : Z) (bs : list Z) : list Z :=
  take (Z.to_nat i) l ++ bs ++ drop (Z.to_nat i + length bs) l.

(** A field of [n] bytes at offset [off] of a packed structure. *)
Definition field (l : list Z) (off : Z) (n : nat) : Z := le_val (take n (drop (Z.to_nat off) l)).
Definition set_field (l : list Z) (off : Z) (n : nat) (v : Z) : list Z := splice l off (le_bytes n v).

(** [n] bytes from offset [a]. *)
Definition slice (l : list Z) (a n : Z) : list Z := take (Z.to_nat n) (drop (Z.to_nat a) l).

(** * Lemmas *)

Lemma length_le_bytes (n : nat) (v : Z) : length (le_bytes n v) = n.
Proof. revert v. induction n as [|n IH]; intros v; cbn; [done |]. by rewrite IH. Qed.

Lemma le_bytes_fits (n : nat) (v : Z) : Forall (fits 8) (le_bytes n v).
Proof. revert v. induction n as [|n IH]; intros v; cbn; constructor; [by apply wrap_fits | done]. Qed.

Lemma le_val_bytes (n : nat) (v : Z) : fits (8 * Z.of_nat n) v -> le_val (le_bytes n v) = v.
Proof.
  revert v. induction n as [|n IH]; intros v [H1 H2]; [cbn in *; lia |]. cbn [le_bytes le_val].
  rewrite IH.
  - rewrite Z.shiftr_div_pow2 by lia. unfold wrap. change (2 ^ 8) with 256. dlia.
  - rewrite Z.shiftr_div_pow2 by lia. change (2 ^ 8) with 256. split; [dlia |].
    apply Z.div_lt_upper_bound; [lia |]. change 256 with (2 ^ 8). rewrite <- Z.pow_add_r by lia.
    replace (8 + 8 * Z.of_nat n) with (8 * Z.of_nat (S n)) by lia. done.
Qed.

Lemma length_splice (l : list Z) (i : Z) (bs : list Z) :
  0 <= i -> i + Z.of_nat (length bs) <= Z.of_nat (length l) -> length (splice l i bs) = length l.
Proof. intros H1 H2. unfold splice. rewrite !length_app, length_take, length_drop. lia. Qed.

(** Reading back what was written. *)
Lemma splice_read (l : list Z) (i : Z) (bs : list Z) :
  0 <= i -> i + Z.of_nat (length bs) <= Z.of_nat (length l) ->
  take (length bs) (drop (Z.to_nat i) (splice l i bs)) = bs.
Proof.
  intros H1 H2. unfold splice. rewrite drop_app_ge by (rewrite length_take; lia).
  rewrite length_take. replace (Z.to_nat i - _)%nat with 0%nat by lia.
  rewrite drop_0, take_app_le by lia. by rewrite take_ge by lia.
Qed.

Lemma splice_other (l : list Z) (a : Z) (bs : list Z) (b : Z) (n : nat) :
  0 <= a -> 0 <= b -> a + Z.of_nat (length bs) <= Z.of_nat (length l) ->
  b + Z.of_nat n <= a \/ a + Z.of_nat (length bs) <= b ->
  take n (drop (Z.to_nat b) (splice l a bs)) = take n (drop (Z.to_nat b) l).
Proof.
  intros Ha Hb Hl Hd. unfold splice. destruct Hd as [Hd | Hd].
  - rewrite drop_app_le by (rewrite length_take; lia).
    rewrite take_app_le by (rewrite length_drop, length_take; lia).
    rewrite <- (take_drop (Z.to_nat a) l) at 2. rewrite drop_app_le by (rewrite length_take; lia).
    by rewrite take_app_le by (rewrite length_drop, length_take; lia).
  - rewrite drop_app_ge by (rewrite length_take; lia). rewrite length_take.
    rewrite drop_app_ge by lia. rewrite drop_drop. do 2 f_equal. lia.
Qed.

Lemma length_set_field (l : list Z) (a : Z) (n : nat) (v : Z) :
  0 <= a -> a + Z.of_nat n <= Z.of_nat (length l) -> length (set_field l a n v) = length l.
Proof. intros H1 H2. unfold set_field. apply length_splice; [done |]. by rewrite length_le_bytes. Qed.

Lemma field_set_eq (l : list Z) (a : Z) (n : nat) (v : Z) :
  0 <= a -> a + Z.of_nat n <= Z.of_nat (length l) -> fits (8 * Z.of_nat n) v -> field (set_field l a n v) a n = v.
Proof.
  intros H1 H2 Hv. unfold field, set_field. rewrite <- (length_le_bytes n v) at 1.
  rewrite splice_read by (rewrite ?length_le_bytes; lia). by apply le_val_bytes.
Qed.

Lemma field_set_ne (l : list Z) (a b : Z) (n k : nat) (v : Z) :
  0 <= a -> 0 <= b -> a + Z.of_nat n <= Z.of_nat (length l) ->
  b + Z.of_nat k <= a \/ a + Z.of_nat n <= b -> field (set_field l a n v) b k = field l b k.
Proof.
  intros H1 H2 H3 H4. unfold field, set_field. by rewrite splice_other by (rewrite ?length_le_bytes; lia).
Qed.

Lemma splice_sub (l : list Z) (a : Z) (bs : list Z) (n : nat) :
  0 <= a -> a + Z.of_nat (length bs) <= Z.of_nat n -> (n <= length l)%nat ->
  take n (splice l a bs) = take (Z.to_nat a) l ++ bs ++ drop (Z.to_nat a + length bs) (take n l).
Proof.
  intros H1 H2 H3. unfold splice. rewrite take_app_ge by (rewrite length_take; lia).
  rewrite length_take, take_app_ge by lia. rewrite take_drop_commute.
  do 2 f_equal. f_equal. f_equal. lia.
Qed.

Lemma splice_twice (l : list Z) (a : Z) (bs cs : list Z) :
  0 <= a -> length bs = length cs -> a + Z.of_nat (length bs) <= Z.of_nat (length l) ->
  splice (splice l a bs) a cs = splice l a cs.
Proof.
  intros H1 H2 H3. unfold splice at 1 3. f_equal; [| f_equal].
  - unfold splice. rewrite take_app_le by (rewrite length_take; lia). by rewrite take_take, Nat.min_id.
  - unfold splice. rewrite app_assoc, drop_app_ge; rewrite length_app, length_take; [| lia].
    rewrite drop_drop. f_equal. lia.
Qed.

Lemma splice_all (l bs : list Z) : length bs = length l -> splice l 0 bs = bs.
Proof. intros Hl. unfold splice. cbn [Z.to_nat take app Nat.add]. by rewrite drop_ge, app_nil_r by lia. Qed.

(** Writing into one part of a list that is made of parts. *)
Lemma splice_app_l (l k bs : list Z) (a : Z) :
  0 <= a -> a + Z.of_nat (length bs) <= Z.of_nat (length l) -> splice (l ++ k) a bs = splice l a bs ++ k.
Proof.
  intros H1 H2. unfold splice. rewrite take_app_le, drop_app_le by lia. by rewrite !app_assoc.
Qed.

Lemma splice_app_r (l k bs : list Z) (a : Z) :
  Z.of_nat (length l) <= a -> splice (l ++ k) a bs = l ++ splice k (a - Z.of_nat (length l)) bs.
Proof.
  intros H1. unfold splice. rewrite take_app_ge, drop_app_ge by lia. rewrite <- app_assoc.
  replace (Z.to_nat a - length l)%nat with (Z.to_nat (a - Z.of_nat (length l))) by lia.
  by replace (Z.to_nat a + length bs - length l)%nat with (Z.to_nat (a - Z.of_nat (length l)) + length bs)%nat by lia.
Qed.

(** Bits above [k] and below [k] do not meet. *)
Lemma lor_high_low (k hi lo : Z) : 0 <= k -> fits k lo -> Z.lor lo (Z.shiftl hi k) = hi * 2 ^ k + lo.
Proof.
  intros Hk Hlo. rewrite <- Z.shiftl_mul_pow2 by done.
  cut (Z.land lo (Z.shiftl hi k) = 0). { pose proof (Z.add_lor_land lo (Z.shiftl hi k)). lia. }
  apply Z.bits_inj'. intros j Hj. rewrite Z.land_spec, Z.bits_0.
  destruct (Z.ltb_spec j k).
  - rewrite Z.shiftl_spec_low by lia. apply andb_false_r.
  - by rewrite (fits_testbit k lo) by done.
Qed.

(** Simplify fields of a sector after assignments to others. *)
Ltac in_sector := first [lia | rewrite length_set_field by in_sector; in_sector].
Ltac fields :=
  repeat first [ rewrite field_set_ne by in_sector
               | rewrite field_set_eq by (done || in_sector) ].
