(* ===== verification/Buffer.v ===== *)
(** Buffers of bytes: arrays on the stack, access that is checked against the size of the
    buffer, parts of a buffer, tables of 32-bit numbers, and a sequence of sector writes. *)

From S2P Require Import Prelude Bytes.

(** An array of [n] bytes on the stack. *)
Definition uninit (stk : Z -> Z) (n : Z) : list Z := (fun i => stk (Z.of_nat i)) <$> seq 0 (Z.to_nat n).

(** A field of [n] bytes at [o], and writing [bs] at [o]. *)
Definition fld (blk : list Z) (o : Z) (n : nat) : outcome Z :=
  if (0 <=? o) && (o + Z.of_nat n <=? Z.of_nat (length blk)) then Ret (field blk o n) else Crash.

Definition poke (l : list Z) (o : Z) (bs : list Z) : outcome (list Z) :=
  if (0 <=? o) && (o + Z.of_nat (length bs) <=? Z.of_nat (length l)) then Ret (splice l o bs) else Crash.

(** The bytes of a table of 32-bit numbers, and the numbers in a buffer. *)
Definition fat_bytes (cache : list Z) : list Z := concat (le_bytes 4 <$> cache).

Definition words (l : list Z) (n : Z) : list Z := (fun i => field l (4 * Z.of_nat i) 4) <$> seq 0 (Z.to_nat n).

Lemma length_uninit (stk : Z -> Z) (n : Z) : length (uninit stk n) = Z.to_nat n.
Proof. unfold uninit. by rewrite length_fmap, length_seq. Qed.

(** * Slices *)

Lemma length_slice (l : list Z) (a n : Z) :
  0 <= a -> 0 <= n -> a + n <= Z.of_nat (length l) -> Z.of_nat (length (slice l a n)) = n.
Proof. intros H1 H2 H3. unfold slice. rewrite length_take, length_drop. lia. Qed.

Lemma slice_splice_eq (l bs : list Z) (a : Z) :
  0 <= a -> a + Z.of_nat (length bs) <= Z.of_nat (length l) -> slice (splice l a bs) a (Z.of_nat (length bs)) = bs.
Proof. intros H1 H2. unfold slice. rewrite Nat2Z.id. by apply splice_read. Qed.

Lemma slice_splice_ne (l bs : list Z) (a b n : Z) :
  0 <= a -> 0 <= b -> 0 <= n -> a + Z.of_nat (length bs) <= Z.of_nat (length l) ->
  b + n <= a \/ a + Z.of_nat (length bs) <= b -> slice (splice l a bs) b n = slice l b n.
Proof. intros H1 H2 H3 H4 H5. unfold slice. apply splice_other; lia. Qed.

(** Writing across the boundary of two parts. *)
Lemma splice_app_both (l k b1 b2 : list Z) (a : Z) :
  0 <= a -> a + Z.of_nat (length b1) = Z.of_nat (length l) ->
  splice (l ++ k) a (b1 ++ b2) = splice l a b1 ++ splice k 0 b2.
Proof.
  intros H1 H2. unfold splice. cbn [Z.to_nat take app Nat.add]. rewrite length_app, take_app_le, drop_app_ge by lia.
  rewrite (drop_ge l) by lia. rewrite app_nil_r, <- !app_assoc.
  by replace (Z.to_nat a + (length b1 + length b2) - length l)%nat with (length b2) by lia.
Qed.

Lemma slice_app_r (l k : list Z) (a n : Z) :
  Z.of_nat (length l) <= a -> slice (l ++ k) a n = slice k (a - Z.of_nat (length l)) n.
Proof. intros H1. unfold slice. rewrite drop_app_ge by lia.
  by replace (Z.to_nat a - length l)%nat with (Z.to_nat (a - Z.of_nat (length l))) by lia. Qed.

Lemma slice_app_both (l k : list Z) (a n : Z) :
  0 <= a <= Z.of_nat (length l) -> Z.of_nat (length l) <= a + n ->
  slice (l ++ k) a n = slice l a (Z.of_nat (length l) - a) ++ slice k 0 (n - (Z.of_nat (length l) - a)).
Proof.
  intros H1 H2. unfold slice. rewrite drop_0, drop_app_le by lia. rewrite take_app_ge by (rewrite length_drop; lia).
  rewrite length_drop, (take_ge (drop _ l)) by (rewrite length_drop; lia).
  by replace (Z.to_nat n - (length l - Z.to_nat a))%nat with (Z.to_nat (n - (Z.of_nat (length l) - a))) by lia.
Qed.

Lemma slice_app_l (l k : list Z) (a n : Z) :
  0 <= a -> 0 <= n -> a + n <= Z.of_nat (length l) -> slice (l ++ k) a n = slice l a n.
Proof. intros H1 H2 H3. unfold slice. rewrite drop_app_le by lia. by rewrite take_app_le by (rewrite length_drop; lia). Qed.

Lemma slice_nil (l : list Z) (a : Z) : slice l a 0 = [].
Proof. done. Qed.

Lemma slice_slice (l : list Z) (a n b k : Z) :
  0 <= a -> 0 <= b -> 0 <= k -> b + k <= n -> slice (slice l a n) b k = slice l (a + b) k.
Proof.
  intros Ha Hb Hk Hn. unfold slice. rewrite skipn_firstn_comm, take_take, drop_drop. f_equal; [lia |]. f_equal. lia.
Qed.

Lemma slice_drop (l : list Z) (n : Z) : slice l 0 n ++ drop (Z.to_nat n) l = l.
Proof. unfold slice. rewrite drop_0. apply take_drop. Qed.

Lemma splice_nil (l : list Z) (a : Z) : splice l a [] = l.
Proof. unfold splice. cbn [length app]. rewrite Nat.add_0_r. apply take_drop. Qed.

Lemma splice_length_nat (l bs : list Z) (a : Z) :
  0 <= a -> a + Z.of_nat (length bs) <= Z.of_nat (length l) -> Z.of_nat (length (splice l a bs)) = Z.of_nat (length l).
Proof. intros. by rewrite length_splice. Qed.

(** * Numbers in a buffer *)

Lemma field_app_skip (a l : list Z) (o : Z) (n : nat) :
  Z.of_nat (length a) <= o -> field (a ++ l) o n = field l (o - Z.of_nat (length a)) n.
Proof.
  intros Ho. unfold field. rewrite drop_app_ge by lia.
  by replace (Z.to_nat o - length a)%nat with (Z.to_nat (o - Z.of_nat (length a))) by lia.
Qed.

Lemma field_le_bytes (l : list Z) (n : nat) (v : Z) : fits (8 * Z.of_nat n) v -> field (le_bytes n v ++ l) 0 n = v.
Proof.
  intros Hv. unfold field. change (Z.to_nat 0) with O. rewrite drop_0, take_app_le by (rewrite length_le_bytes; lia).
  rewrite take_ge by (rewrite length_le_bytes; lia). by apply le_val_bytes.
Qed.

(** A table that is written as bytes and read as numbers. *)
Lemma length_fat_bytes (cache : list Z) : Z.of_nat (length (fat_bytes cache)) = 4 * Z.of_nat (length cache).
Proof.
  unfold fat_bytes. induction cache as [|v cache IH]; [done |]. cbn [fmap list_fmap concat length].
  rewrite length_app, length_le_bytes. lia.
Qed.

Lemma words_fat_bytes (cache : list Z) :
  Forall (fits 32) cache -> words (fat_bytes cache) (Z.of_nat (length cache)) = cache.
Proof.
  intros HF. unfold words. rewrite Nat2Z.id. induction HF as [|v cache Hv _ IH]; [done |].
  unfold fat_bytes in *. cbn [length seq fmap list_fmap concat]. f_equal; [by apply field_le_bytes |].
  rewrite <- IH at 2. rewrite <- fmap_S_seq, <- list_fmap_compose. apply list_fmap_ext. intros k i _. cbn [compose].
  rewrite field_app_skip by (rewrite length_le_bytes; lia). rewrite length_le_bytes. f_equal. lia.
Qed.

(** * Fields after other writes *)

Lemma field_set_after (l : list Z) (i v o : Z) (n : nat) :
  0 <= o -> o + Z.of_nat n <= i -> field (set l i v) o n = field l o n.
Proof.
  intros Ho Hi. unfold field, set. f_equal. apply list_eq. intros k. destruct (Nat.ltb_spec k n).
  - rewrite !lookup_take_lt, !lookup_drop, list_lookup_insert_ne by lia. done.
  - by rewrite !lookup_take_ge by lia.
Qed.

Lemma field_splice_in (l bs : list Z) (o : Z) (n : nat) :
  0 <= o -> o + Z.of_nat n <= Z.of_nat (length bs) -> field (splice l 0 bs) o n = field bs o n.
Proof.
  intros Ho Hn. unfold field, splice. change (Z.to_nat 0) with O.
  rewrite take_0, app_nil_l, drop_app_le by lia.
  by rewrite take_app_le by (rewrite length_drop; lia).
Qed.

(** * Several writes *)

(** Each pair is a sector and the bytes written there, the first one first. *)
Definition patch (l : list Z) (ps : list (Z * list Z)) : list Z := fold_left (fun l p => splice l (p.1 * 512) p.2) ps l.

Definition inside (n : Z) (p : Z * list Z) : Prop := 0 <= p.1 /\ p.1 * 512 + Z.of_nat (length p.2) <= n.
Definition apart (a n : Z) (p : Z * list Z) : Prop := a + n <= p.1 * 512 \/ p.1 * 512 + Z.of_nat (length p.2) <= a.

Lemma length_patch (l : list Z) (ps : list (Z * list Z)) :
  Forall (inside (Z.of_nat (length l))) ps -> length (patch l ps) = length l.
Proof.
  unfold patch. revert l. induction ps as [|p ps IH]; intros l HF; [done |]. inversion HF as [|? ? [H1 H2] H3]; subst.
  cbn [fold_left]. assert (E : length (splice l (p.1 * 512) p.2) = length l) by (apply length_splice; lia).
  rewrite IH by (by rewrite E). done.
Qed.

Lemma slice_patch_apart (l : list Z) (ps : list (Z * list Z)) (a n : Z) :
  0 <= a -> 0 <= n -> Forall (inside (Z.of_nat (length l))) ps -> Forall (apart a n) ps -> slice (patch l ps) a n = slice l a n.
Proof.
  intros Ha Hn. unfold patch. revert l. induction ps as [|p ps IH]; intros l HF HA; [done |].
  inversion HF as [|? ? [H1 H2] H3]; subst. inversion HA as [|? ? H4 H5]; subst. cbn [fold_left].
  assert (E : length (splice l (p.1 * 512) p.2) = length l) by (apply length_splice; lia).
  rewrite IH by (rewrite ?E; done). unfold apart in H4. apply slice_splice_ne; nia || lia.
Qed.

(** What was written there last. *)
Lemma slice_patch (l : list Z) (ps qs : list (Z * list Z)) (k : Z) (bs : list Z) :
  Forall (inside (Z.of_nat (length l))) (ps ++ (k, bs) :: qs) -> Forall (apart (k * 512) (Z.of_nat (length bs))) qs ->
  slice (patch l (ps ++ (k, bs) :: qs)) (k * 512) (Z.of_nat (length bs)) = bs.
Proof.
  intros HF HA. apply Forall_app in HF as [H1 H2]. inversion H2 as [|? ? [H3 H4] H5]; subst. cbn in H3, H4.
  unfold patch. rewrite fold_left_app. cbn [fold_left fst snd]. fold (patch l ps). pose proof (length_patch l ps H1) as E1.
  assert (E2 : length (splice (patch l ps) (k * 512) bs) = length l) by (rewrite length_splice; lia).
  fold (patch (splice (patch l ps) (k * 512) bs) qs). rewrite slice_patch_apart by (rewrite ?E2; done || lia).
  apply slice_splice_eq; lia.
Qed.

(** The clusters [k] to [k + n - 1] of a chain that a write of [size] bytes at [offset]
    needs. *)
Lemma needed_range (bpc offset size : Z) (len : nat) :
  0 < bpc -> 0 <= offset -> 0 < size -> offset + size <= bpc * Z.of_nat len -> offset + size < 2 ^ 32 ->
  let k := offset / bpc in
  let n := (offset + size - 1) / bpc - k + 1 in
  0 <= k < 2 ^ 32 /\ 0 <= (offset + size - 1) / bpc < 2 ^ 32 /\ 0 < n < 2 ^ 32 /\ k + n <= Z.of_nat len /\
  offset mod bpc + size <= bpc * n /\ offset = bpc * k + offset mod bpc /\ 0 <= offset mod bpc < bpc.
Proof.
  intros Hb Ho Hs Hl Hlt. cbv zeta.
  pose proof (Z.div_mod offset bpc ltac:(lia)). pose proof (Z.mod_pos_bound offset bpc ltac:(lia)).
  pose proof (Z.div_mod (offset + size - 1) bpc ltac:(lia)). pose proof (Z.mod_pos_bound (offset + size - 1) bpc ltac:(lia)).
  pose proof (Z.div_pos offset bpc ltac:(lia) ltac:(lia)).
  set (k := offset / bpc) in *. set (e := (offset + size - 1) / bpc) in *. clearbody k e.
  assert (k <= e) by nia. assert (e < Z.of_nat len) by nia. assert (e < 2 ^ 32) by nia.
  split_and!; try lia; nia.
Qed.
