(* ===== verification/LibMem.v ===== *)
(** Byte memory and the memory routines of src/libk/string.c: memcpy, memset,
    memcmp, memmove and memmem, with the word-at-a-time loops of the source, and
    their specifications byte by byte. *)

From S2P Require Import Prelude.

(** * Memory

    A byte memory maps addresses to bytes; [ldb] is the byte read.  A multi-byte
    object is little-endian. *)

Definition mem := Z -> Z.

Definition ldb (m : mem) (a : Z) : Z := u8 (m a).

Definition stb (m : mem) (a v : Z) : mem := fun b => if b =? a then u8 v else m b.

Fixpoint load (n : nat) (m : mem) (a : Z) : Z :=
  match n with
  | O => 0
  | S n' => ldb m a + 256 * load n' m (a + 1)
  end.

Definition store (n : nat) (m : mem) (a v : Z) : mem :=
  fun b => if (a <=? b) && (b <? a + Z.of_nat n) then u8 (Z.shiftr v (8 * (b - a))) else m b.

Abbreviation ld32 := (load 4).
Abbreviation ld64 := (load 8).
Abbreviation st32 := (store 4).
Abbreviation st64 := (store 8).

Definition aligned8 (a : Z) : bool := Z.land a 7 =? 0.

(** * memcpy

    On x86-64 the body is [rep movsb]: bytes are copied one at a time in
    increasing address order. *)

Fixpoint movsb (n : nat) (m : mem) (dst src : Z) : mem :=
  match n with
  | O => m
  | S n' => movsb n' (stb m dst (ldb m src)) (dst + 1) (src + 1)
  end.

Definition memcpy (m : mem) (dst src : Z) (n : nat) : mem :=
  if (Z.of_nat n =? 0) || (dst =? src) then m else movsb n m dst src.

(** * memset

    Bytes up to a word boundary, whole words, remaining bytes. *)

Fixpoint memset_head (n : nat) (m : mem) (p val : Z) : nat * mem * Z :=
  match n with
  | O => (O, m, p)
  | S n' => if aligned8 p then (n, m, p) else memset_head n' (stb m p val) (p + 1) val
  end.

(** [word |= word << 8; word |= word << 16; word |= word << 32] *)
Definition memset_word (val : Z) : Z :=
  let word := val in
  let word := Z.lor word (u64 (Z.shiftl word 8)) in
  let word := Z.lor word (u64 (Z.shiftl word 16)) in
  Z.lor word (u64 (Z.shiftl word 32)).

Fixpoint memset_words (n : nat) (m : mem) (pw word : Z) : nat * mem * Z :=
  match n with
  | S (S (S (S (S (S (S (S n'))))))) => memset_words n' (st64 m pw word) (pw + 8) word
  | _ => (n, m, pw)
  end.

Fixpoint memset_tail (n : nat) (m : mem) (p val : Z) : mem :=
  match n with
  | O => m
  | S n' => memset_tail n' (stb m p val) (p + 1) val
  end.

Definition memset (m : mem) (s c : Z) (n : nat) : mem :=
  let val := u8 c in
  let '(n, m, p) := memset_head n m s val in
  let '(n, m, p) := memset_words n m p (memset_word val) in
  memset_tail n m p val.

(** * memcmp *)

Fixpoint memcmp_from (n : nat) (m : mem) (a b : Z) : Z :=
  match n with
  | O => 0
  | S n' => if negb (ldb m a =? ldb m b) then ldb m a - ldb m b
            else memcmp_from n' m (a + 1) (b + 1)
  end.

Definition memcmp (m : mem) (ptr1 ptr2 : Z) (num : nat) : Z := memcmp_from num m ptr1 ptr2.

(** * memmove

    Forward when the destination is below the source, backward otherwise; in each
    direction bytes up to a word boundary of the destination, words, bytes.  Addresses are
    not reduced modulo 2^64: no range of valid memory goes around the end. *)

Fixpoint move_fwd_head (n : nat) (m : mem) (dst src : Z) : nat * mem * Z * Z :=
  match n with
  | O => (O, m, dst, src)
  | S n' => if aligned8 dst then (n, m, dst, src)
            else move_fwd_head n' (stb m dst (ldb m src)) (dst + 1) (src + 1)
  end.

Fixpoint move_fwd_words (n : nat) (m : mem) (dw sw : Z) : nat * mem * Z * Z :=
  match n with
  | S (S (S (S (S (S (S (S n'))))))) =>
      move_fwd_words n' (st64 m dw (ld64 m sw)) (dw + 8) (sw + 8)
  | _ => (n, m, dw, sw)
  end.

(** [dst] and [src] are the ends of the ranges that are still to be copied. *)
Fixpoint move_bwd_head (n : nat) (m : mem) (dst src : Z) : nat * mem * Z * Z :=
  match n with
  | O => (O, m, dst, src)
  | S n' => if aligned8 dst then (n, m, dst, src)
            else move_bwd_head n' (stb m (dst - 1) (ldb m (src - 1))) (dst - 1) (src - 1)
  end.

Fixpoint move_bwd_words (n : nat) (m : mem) (dw sw : Z) : nat * mem * Z * Z :=
  match n with
  | S (S (S (S (S (S (S (S n'))))))) =>
      move_bwd_words n' (st64 m (dw - 8) (ld64 m (sw - 8))) (dw - 8) (sw - 8)
  | _ => (n, m, dw, sw)
  end.

Fixpoint move_bwd_tail (n : nat) (m : mem) (dst src : Z) : mem :=
  match n with
  | O => m
  | S n' => move_bwd_tail n' (stb m (dst - 1) (ldb m (src - 1))) (dst - 1) (src - 1)
  end.

Definition memmove (m : mem) (dst0 src0 : Z) (n : nat) : mem :=
  if (Z.of_nat n =? 0) || (dst0 =? src0) then m
  else if dst0 <? src0 then
    let '(n, m, dst, src) := move_fwd_head n m dst0 src0 in
    let '(n, m, dw, sw) := move_fwd_words n m dst src in
    movsb n m dw sw
  else
    let '(n, m, dst, src) := move_bwd_head n m (dst0 + Z.of_nat n) (src0 + Z.of_nat n) in
    let '(n, m, dw, sw) := move_bwd_words n m dst src in
    move_bwd_tail n m dw sw.

(** * memmem *)

Fixpoint bytes_match (n : nat) (m : mem) (h needle : Z) : bool :=
  match n with
  | O => true
  | S n' => (ldb m h =? ldb m needle) && bytes_match n' m (h + 1) (needle + 1)
  end.

Fixpoint memmem_from (k : nat) (m : mem) (h needle : Z) (needle_len : nat) : option Z :=
  if bytes_match needle_len m h needle then Some h
  else match k with
       | O => None
       | S k' => memmem_from k' m (h + 1) needle needle_len
       end.

Definition memmem (m : mem) (haystack : Z) (haystack_len : nat) (needle : Z) (needle_len : nat)
    : option Z :=
  if (needle_len =? 0)%nat then Some haystack
  else if (haystack_len <? needle_len)%nat then None
  else memmem_from (haystack_len - needle_len) m haystack needle needle_len.

(** * Lemmas on loads and stores *)

Lemma ldb_fits (m : mem) (a : Z) : fits 8 (ldb m a).
Proof. by apply wrap_fits. Qed.

Lemma ldb_stb (m : mem) (a v b : Z) :
  ldb (stb m a v) b = if b =? a then u8 v else ldb m b.
Proof. unfold ldb, stb. destruct (b =? a); [by rewrite wrap_wrap | done]. Qed.

Lemma ldb_store (n : nat) (m : mem) (a v b : Z) :
  ldb (store n m a v) b =
  if (a <=? b) && (b <? a + Z.of_nat n) then u8 (Z.shiftr v (8 * (b - a))) else ldb m b.
Proof. unfold ldb, store. destruct (_ && _); [by rewrite wrap_wrap | done]. Qed.

Lemma load_fits (n : nat) (m : mem) (a : Z) : fits (8 * Z.of_nat n) (load n m a).
Proof.
  revert a. induction n as [|n IH]; intros a; [by split |].
  cbn [load]. destruct (IH (a + 1)) as [H1 H2], (ldb_fits m a) as [H3 H4].
  unfold fits. replace (8 * Z.of_nat (S n)) with (8 + 8 * Z.of_nat n) by lia.
  rewrite Z.pow_add_r by lia. change (2 ^ 8) with 256 in *. nia.
Qed.

(** A load depends only on the bytes it covers. *)
Lemma load_ext (n : nat) (m m' : mem) (a : Z) :
  (forall i, 0 <= i < Z.of_nat n -> ldb m (a + i) = ldb m' (a + i)) ->
  load n m a = load n m' a.
Proof.
  revert a. induction n as [|n IH]; intros a H; [done |]. cbn [load]. f_equal.
  - specialize (H 0 ltac:(lia)). by rewrite Z.add_0_r in H.
  - f_equal. apply IH. intros i Hi. specialize (H (1 + i) ltac:(lia)).
    by rewrite Z.add_assoc in H.
Qed.

Lemma shiftr_8_succ (v i : Z) :
  0 < i -> Z.shiftr v (8 * i) = Z.shiftr (v / 256) (8 * (i - 1)).
Proof.
  intros Hi. change (v / 256) with (v / 2 ^ 8). rewrite <- Z.shiftr_div_pow2 by lia.
  rewrite Z.shiftr_shiftr by lia. f_equal. lia.
Qed.

Lemma load_byte (n : nat) (m : mem) (a i : Z) :
  0 <= i < Z.of_nat n -> u8 (Z.shiftr (load n m a) (8 * i)) = ldb m (a + i).
Proof.
  revert a i. induction n as [|n IH]; intros a i Hi; [lia |]. cbn [load].
  pose proof (ldb_fits m a) as Hb. unfold fits in Hb. change (2 ^ 8) with 256 in Hb.
  destruct (decide (i = 0)) as [-> | Hne].
  - rewrite Z.add_0_r, Z.shiftr_0_r. unfold wrap. change (2 ^ 8) with 256.
    rewrite Z.mul_comm, Z_mod_plus_full. by apply Z.mod_small.
  - rewrite shiftr_8_succ by lia.
    replace ((ldb m a + 256 * load n m (a + 1)) / 256) with (load n m (a + 1)) by dlia.
    rewrite IH by lia. f_equal. lia.
Qed.

Lemma load_store_eq (n : nat) (m : mem) (a v : Z) :
  fits (8 * Z.of_nat n) v -> load n (store n m a v) a = v.
Proof.
  cut (forall k b w, fits (8 * Z.of_nat k) w ->
         (forall i, 0 <= i < Z.of_nat k -> ldb (store n m a v) (b + i) = u8 (Z.shiftr w (8 * i))) ->
         load k (store n m a v) b = w).
  { intros H Hv. apply H; [done |]. intros i Hi. rewrite ldb_store.
    replace ((a <=? a + i) && (a + i <? a + Z.of_nat n)) with true by lia.
    do 3 f_equal. lia. }
  induction k as [|k IH]; intros b w Hw H.
  { destruct Hw. simpl in *. lia. }
  cbn [load]. pose proof (H 0 ltac:(lia)) as H0. rewrite Z.add_0_r, Z.shiftr_0_r in H0.
  rewrite H0, (IH (b + 1) (w / 256)).
  - unfold wrap. change (2 ^ 8) with 256. dlia.
  - destruct Hw as [Hw1 Hw2].
    replace (8 * Z.of_nat (S k)) with (8 * Z.of_nat k + 8) in Hw2 by lia.
    rewrite Z.pow_add_r in Hw2 by lia. change (2 ^ 8) with 256 in Hw2.
    split; [dlia |]. apply Z.div_lt_upper_bound; lia.
  - intros i Hi. replace (b + 1 + i) with (b + (1 + i)) by lia.
    rewrite H, shiftr_8_succ by lia. do 3 f_equal. lia.
Qed.

Lemma load_store_ne (k n : nat) (m : mem) (a b v : Z) :
  a + Z.of_nat n <= b \/ b + Z.of_nat k <= a -> load k (store n m a v) b = load k m b.
Proof.
  intros H. apply load_ext. intros i Hi. rewrite ldb_store.
  by replace ((a <=? b + i) && (b + i <? a + Z.of_nat n)) with false by lia.
Qed.

(** * What the routines do, byte by byte *)

(** [copies m m' d s n]: [m'] is [m] with the [n] bytes at [s] copied to [d]. *)
Definition copies (m m' : mem) (d s n : Z) : Prop :=
  forall b, ldb m' b = if (d <=? b) && (b <? d + n) then ldb m (s + (b - d)) else ldb m b.

(** [filled m m' p n v]: [m'] is [m] with the [n] bytes at [p] set to [v]. *)
Definition filled (m m' : mem) (p n v : Z) : Prop :=
  forall b, ldb m' b = if (p <=? b) && (b <? p + n) then v else ldb m b.

(** Case analysis on the ranges of a byte address. *)
Ltac range_cases :=
  repeat match goal with
  | |- context [if ?c then _ else _] => let E := fresh "E" in destruct c eqn:E
  end; try lia; try (f_equal; lia); try done.

Lemma copies_nil (m : mem) (d s : Z) : copies m m d s 0.
Proof. intros b. range_cases. Qed.

(** Copying a prefix first is safe when the source is not below the destination or
    does not meet it. *)
Lemma copies_fwd (m m1 m2 : mem) (d s k n : Z) :
  0 <= k -> 0 <= n -> d <= s \/ s + k + n <= d ->
  copies m m1 d s k -> copies m1 m2 (d + k) (s + k) n -> copies m m2 d s (k + n).
Proof. intros Hk Hn Hd H1 H2 b. rewrite H2, !H1. range_cases. Qed.

(** Copying a suffix first is safe when the source is not above the destination. *)
Lemma copies_bwd (m m1 m2 : mem) (d s k n : Z) :
  0 <= k -> 0 <= n -> s <= d ->
  copies m m1 (d + n) (s + n) k -> copies m1 m2 d s n -> copies m m2 d s (n + k).
Proof. intros Hk Hn Hd H1 H2 b. rewrite H2, !H1. range_cases. Qed.

Lemma filled_app (m m1 m2 : mem) (p k n v : Z) :
  0 <= k -> 0 <= n -> filled m m1 p k v -> filled m1 m2 (p + k) n v -> filled m m2 p (k + n) v.
Proof. intros Hk Hn H1 H2 b. rewrite H2, !H1. range_cases. Qed.

Lemma stb_copies (m : mem) (d s : Z) : copies m (stb m d (ldb m s)) d s 1.
Proof.
  intros b. rewrite ldb_stb, (wrap_small 8) by apply ldb_fits. range_cases.
Qed.

Lemma st64_copies (m : mem) (d s : Z) : copies m (st64 m d (ld64 m s)) d s 8.
Proof.
  intros b. rewrite ldb_store. change (Z.of_nat 8) with 8. range_cases.
  by rewrite load_byte by lia.
Qed.

Lemma stb_filled (m : mem) (p v : Z) : fits 8 v -> filled m (stb m p v) p 1 v.
Proof. intros Hv b. rewrite ldb_stb, (wrap_small 8) by done. range_cases. Qed.

(** Peel eight constructors off the counter of a word loop. *)
Lemma nat_by_eight (P : nat -> Prop) :
  (forall n, (n < 8)%nat -> P n) ->
  (forall n, P n -> P (S (S (S (S (S (S (S (S n))))))))) -> forall n, P n.
Proof.
  intros H0 H1 n. induction n as [n IH] using lt_wf_ind.
  destruct (decide (n < 8)%nat) as [Hlt | Hge]; [by apply H0 |].
  do 8 (destruct n as [|n]; [lia |]). apply H1, IH. lia.
Qed.

Ltac few n := do 8 (try (destruct n as [|n]; [done |])); lia.

Lemma movsb_copies (n : nat) (m : mem) (d s : Z) :
  d <= s \/ s + Z.of_nat n <= d -> copies m (movsb n m d s) d s (Z.of_nat n).
Proof.
  revert m d s. induction n as [|n IH]; intros m d s H; [apply copies_nil |].
  replace (Z.of_nat (S n)) with (1 + Z.of_nat n) by lia.
  eapply copies_fwd; [lia | lia | lia | apply stb_copies | apply IH; lia].
Qed.

Lemma move_fwd_head_copies (n : nat) (m : mem) (d s : Z) :
  d <= s ->
  let '(n', m', d', s') := move_fwd_head n m d s in
  let k := Z.of_nat n - Z.of_nat n' in
  0 <= k /\ d' = d + k /\ s' = s + k /\ copies m m' d s k.
Proof.
  revert m d s. induction n as [|n IH]; intros m d s H; cbn [move_fwd_head].
  { split_and!; try lia. apply copies_nil. }
  destruct (aligned8 d).
  { replace (Z.of_nat (S n) - Z.of_nat (S n)) with 0 by lia.
    split_and!; try lia. apply copies_nil. }
  specialize (IH (stb m d (ldb m s)) (d + 1) (s + 1) ltac:(lia)).
  destruct (move_fwd_head n _ _ _) as [[[n' m'] d'] s'] eqn:E.
  destruct IH as (H1 & H2 & H3 & H4).
  replace (Z.of_nat (S n) - Z.of_nat n') with (1 + (Z.of_nat n - Z.of_nat n')) by lia.
  split_and!; try lia.
  eapply copies_fwd; [lia | lia | lia | apply stb_copies | exact H4].
Qed.

Lemma move_fwd_words_copies (n : nat) : forall (m : mem) (d s : Z),
  d <= s ->
  let '(n', m', d', s') := move_fwd_words n m d s in
  let k := Z.of_nat n - Z.of_nat n' in
  0 <= k /\ d' = d + k /\ s' = s + k /\ copies m m' d s k.
Proof.
  induction n as [n Hn | n IH] using nat_by_eight; intros m d s H.
  { replace (move_fwd_words n m d s) with (n, m, d, s) by few n. cbv zeta.
    replace (Z.of_nat n - Z.of_nat n) with 0 by lia.
    split_and!; try lia. apply copies_nil. }
  cbn [move_fwd_words].
  specialize (IH (st64 m d (ld64 m s)) (d + 8) (s + 8) ltac:(lia)).
  destruct (move_fwd_words n _ _ _) as [[[n' m'] d'] s'] eqn:E.
  destruct IH as (H1 & H2 & H3 & H4). cbv zeta.
  match goal with |- context [copies _ _ _ _ ?k] =>
    replace k with (8 + (Z.of_nat n - Z.of_nat n')) by lia end.
  split_and!; try lia.
  eapply copies_fwd; [lia | lia | lia | apply st64_copies | exact H4].
Qed.

Lemma move_bwd_head_copies (n : nat) (m : mem) (d s : Z) :
  s <= d ->
  let '(n', m', d', s') := move_bwd_head n m d s in
  let k := Z.of_nat n - Z.of_nat n' in
  0 <= k /\ d' = d - k /\ s' = s - k /\ copies m m' d' s' k.
Proof.
  revert m d s. induction n as [|n IH]; intros m d s H; cbn [move_bwd_head].
  { split_and!; try lia. apply copies_nil. }
  destruct (aligned8 d).
  { replace (Z.of_nat (S n) - Z.of_nat (S n)) with 0 by lia.
    split_and!; try lia. apply copies_nil. }
  specialize (IH (stb m (d - 1) (ldb m (s - 1))) (d - 1) (s - 1) ltac:(lia)).
  destruct (move_bwd_head n _ _ _) as [[[n' m'] d'] s'] eqn:E.
  destruct IH as (H1 & H2 & H3 & H4).
  replace (Z.of_nat (S n) - Z.of_nat n') with (Z.of_nat n - Z.of_nat n' + 1) by lia.
  split_and!; try lia.
  eapply copies_bwd; [lia | lia | lia | | exact H4].
  replace (d' + (Z.of_nat n - Z.of_nat n')) with (d - 1) by lia.
  replace (s' + (Z.of_nat n - Z.of_nat n')) with (s - 1) by lia. apply stb_copies.
Qed.

Lemma move_bwd_words_copies (n : nat) : forall (m : mem) (d s : Z),
  s <= d ->
  let '(n', m', d', s') := move_bwd_words n m d s in
  let k := Z.of_nat n - Z.of_nat n' in
  0 <= k /\ d' = d - k /\ s' = s - k /\ copies m m' d' s' k.
Proof.
  induction n as [n Hn | n IH] using nat_by_eight; intros m d s H.
  { replace (move_bwd_words n m d s) with (n, m, d, s) by few n. cbv zeta.
    replace (Z.of_nat n - Z.of_nat n) with 0 by lia.
    split_and!; try lia. apply copies_nil. }
  cbn [move_bwd_words].
  specialize (IH (st64 m (d - 8) (ld64 m (s - 8))) (d - 8) (s - 8) ltac:(lia)).
  destruct (move_bwd_words n _ _ _) as [[[n' m'] d'] s'] eqn:E.
  destruct IH as (H1 & H2 & H3 & H4). cbv zeta.
  match goal with |- context [copies _ _ _ _ ?k] =>
    replace k with (Z.of_nat n - Z.of_nat n' + 8) by lia end.
  split_and!; try lia.
  eapply copies_bwd; [lia | lia | lia | | exact H4].
  replace (d' + (Z.of_nat n - Z.of_nat n')) with (d - 8) by lia.
  replace (s' + (Z.of_nat n - Z.of_nat n')) with (s - 8) by lia. apply st64_copies.
Qed.

Lemma move_bwd_tail_copies (n : nat) (m : mem) (d s : Z) :
  s <= d ->
  copies m (move_bwd_tail n m d s) (d - Z.of_nat n) (s - Z.of_nat n) (Z.of_nat n).
Proof.
  revert m d s. induction n as [|n IH]; intros m d s H; [apply copies_nil |].
  replace (Z.of_nat (S n)) with (Z.of_nat n + 1) at 3 by lia.
  eapply (copies_bwd _ (stb m (d - 1) (ldb m (s - 1)))); [lia | lia | lia | |].
  - replace (d - Z.of_nat (S n) + Z.of_nat n) with (d - 1) by lia.
    replace (s - Z.of_nat (S n) + Z.of_nat n) with (s - 1) by lia. apply stb_copies.
  - specialize (IH (stb m (d - 1) (ldb m (s - 1))) (d - 1) (s - 1) ltac:(lia)).
    by replace (d - Z.of_nat (S n)) with (d - 1 - Z.of_nat n) by lia;
      replace (s - Z.of_nat (S n)) with (s - 1 - Z.of_nat n) by lia.
Qed.

Lemma memset_head_filled (n : nat) (m : mem) (p v : Z) :
  fits 8 v ->
  let '(n', m', p') := memset_head n m p v in
  let k := Z.of_nat n - Z.of_nat n' in 0 <= k /\ p' = p + k /\ filled m m' p k v.
Proof.
  intros Hv. revert m p. induction n as [|n IH]; intros m p; cbn [memset_head].
  { split_and!; try lia. intros b. range_cases. }
  destruct (aligned8 p).
  { split_and!; try lia. intros b. range_cases. }
  specialize (IH (stb m p v) (p + 1)).
  destruct (memset_head n _ _ _) as [[n' m'] p']. destruct IH as (H1 & H2 & H3).
  replace (Z.of_nat (S n) - Z.of_nat n') with (1 + (Z.of_nat n - Z.of_nat n')) by lia.
  split_and!; try lia. eapply filled_app; [lia | lia | by apply stb_filled | exact H3].
Qed.

(** Every byte of the word that [memset] builds is the fill byte. *)
Lemma memset_word_byte (v i : Z) :
  fits 8 v -> 0 <= i < 8 -> u8 (Z.shiftr (memset_word v) (8 * i)) = v.
Proof.
  intros Hv Hi. by_bits j Hj. unfold memset_word.
  rewrite wrap_testbit, Z.shiftr_spec by lia.
  destruct (Z.ltb_spec j 8) as [Hlt | Hge]; [| by rewrite (fits_testbit 8 v) by (lia || done)].
  assert (Hneg : forall q, q < 0 -> Z.testbit v q = false) by (intros; by apply Z.testbit_neg_r).
  assert (Hhi : forall q, 8 <= q -> Z.testbit v q = false)
    by (intros; by apply (fits_testbit 8)).
  assert (Hor : forall w n q, 0 <= n -> 0 <= q < 64 ->
            Z.testbit (Z.lor w (u64 (Z.shiftl w n))) q = Z.testbit w q || Z.testbit w (q - n)).
  { intros w n q Hn Hq. rewrite Z.lor_spec, wrap_testbit, Z.shiftl_spec by lia.
    replace (q <? 64) with true by lia. done. }
  cbn [andb]. assert (Hi' : i = 0 \/ i = 1 \/ i = 2 \/ i = 3 \/ i = 4 \/ i = 5 \/ i = 6 \/ i = 7)
    by lia.
  assert (Hneg2 : forall w q, q < 0 -> Z.testbit w q = false) by (intros; by apply Z.testbit_neg_r).
  assert (Hor' : forall w n q, 0 <= n -> q < 64 ->
            Z.testbit (Z.lor w (u64 (Z.shiftl w n))) q = Z.testbit w q || Z.testbit w (q - n)).
  { intros w n q Hn Hq. destruct (Z.lt_ge_cases q 0).
    - rewrite !Hneg2 by lia. done.
    - apply Hor; lia. }
  rewrite !Hor' by lia.
  assert (Hz : forall q, q <> j -> (q - j) mod 8 = 0 -> Z.testbit v q = false).
  { intros q Hq Hm. destruct (Z.lt_ge_cases q 0); [by apply Hneg |]. apply Hhi. dlia. }
  destruct_or! Hi'; subst i;
  repeat match goal with
  | |- context [Z.testbit v ?q] =>
      lazymatch q with j => fail | _ =>
      first [ replace q with j by lia | rewrite (Hz q) by dlia ] end
  end; rewrite ?orb_false_r, ?orb_false_l; done.
Qed.

Lemma st64_filled (m : mem) (p v : Z) :
  fits 8 v -> filled m (st64 m p (memset_word v)) p 8 v.
Proof.
  intros Hv b. rewrite ldb_store. change (Z.of_nat 8) with 8. range_cases.
  by apply memset_word_byte; [| lia].
Qed.

Lemma memset_words_filled (v : Z) (n : nat) : fits 8 v -> forall (m : mem) (p : Z),
  let '(n', m', p') := memset_words n m p (memset_word v) in
  let k := Z.of_nat n - Z.of_nat n' in 0 <= k /\ p' = p + k /\ filled m m' p k v.
Proof.
  intros Hv. induction n as [n Hn | n IH] using nat_by_eight; intros m p.
  { replace (memset_words n m p (memset_word v)) with (n, m, p) by few n. cbv zeta.
    split_and!; try lia. intros b. range_cases. }
  cbn [memset_words]. specialize (IH (st64 m p (memset_word v)) (p + 8)).
  destruct (memset_words n _ _ _) as [[n' m'] p']. destruct IH as (H1 & H2 & H3). cbv zeta.
  match goal with |- context [filled _ _ _ ?k _] =>
    replace k with (8 + (Z.of_nat n - Z.of_nat n')) by lia end.
  split_and!; try lia. eapply filled_app; [lia | lia | by apply st64_filled | exact H3].
Qed.

Lemma memset_tail_filled (n : nat) (m : mem) (p v : Z) :
  fits 8 v -> filled m (memset_tail n m p v) p (Z.of_nat n) v.
Proof.
  intros Hv. revert m p. induction n as [|n IH]; intros m p; [intros b; range_cases |].
  replace (Z.of_nat (S n)) with (1 + Z.of_nat n) by lia.
  eapply filled_app; [lia | lia | by apply stb_filled | apply IH].
Qed.

Lemma memset_filled (m : mem) (s c : Z) (n : nat) :
  filled m (memset m s c n) s (Z.of_nat n) (u8 c).
Proof.
  assert (Hv : fits 8 (u8 c)) by (by apply wrap_fits). unfold memset.
  pose proof (memset_head_filled n m s (u8 c) Hv) as H1.
  destruct (memset_head n m s (u8 c)) as [[n1 m1] p1]. destruct H1 as (K1 & -> & H1).
  pose proof (memset_words_filled (u8 c) n1 Hv m1 (s + (Z.of_nat n - Z.of_nat n1))) as H2.
  destruct (memset_words n1 _ _ _) as [[n2 m2] p2]. destruct H2 as (K2 & -> & H2).
  pose proof (memset_tail_filled n2 m2 (s + (Z.of_nat n - Z.of_nat n1) + (Z.of_nat n1 - Z.of_nat n2))
                (u8 c) Hv) as H3.
  replace (Z.of_nat n) with ((Z.of_nat n - Z.of_nat n1) + ((Z.of_nat n1 - Z.of_nat n2) + Z.of_nat n2))
    at 2 by lia.
  eapply filled_app; [lia | lia | exact H1 |].
  eapply filled_app; [lia | lia | exact H2 | exact H3].
Qed.

Lemma memcpy_copies (m : mem) (d s : Z) (n : nat) :
  d <= s \/ s + Z.of_nat n <= d -> copies m (memcpy m d s n) d s (Z.of_nat n).
Proof.
  intros H. unfold memcpy. destruct (_ || _) eqn:E; [| by apply movsb_copies].
  intros b. range_cases.
Qed.

Lemma memmove_copies (m : mem) (d s : Z) (n : nat) :
  copies m (memmove m d s n) d s (Z.of_nat n).
Proof.
  unfold memmove. destruct (_ || _) eqn:E; [intros b; range_cases |].
  destruct (Z.ltb_spec d s) as [Hlt | Hge].
  - pose proof (move_fwd_head_copies n m d s ltac:(lia)) as H1.
    destruct (move_fwd_head n m d s) as [[[n1 m1] d1] s1]. destruct H1 as (K1 & -> & -> & H1).
    set (k1 := Z.of_nat n - Z.of_nat n1) in *.
    pose proof (move_fwd_words_copies n1 m1 (d + k1) (s + k1) ltac:(lia)) as H2.
    destruct (move_fwd_words n1 _ _ _) as [[[n2 m2] d2] s2]. destruct H2 as (K2 & -> & -> & H2).
    replace (Z.of_nat n) with (k1 + (Z.of_nat n1 - Z.of_nat n2 + Z.of_nat n2)) by lia.
    eapply copies_fwd; [lia | lia | lia | exact H1 |].
    eapply copies_fwd; [lia | lia | lia | exact H2 |]. apply movsb_copies. lia.
  - pose proof (move_bwd_head_copies n m (d + Z.of_nat n) (s + Z.of_nat n) ltac:(lia)) as H1.
    destruct (move_bwd_head n m _ _) as [[[n1 m1] d1] s1]. destruct H1 as (K1 & -> & -> & H1).
    replace (d + Z.of_nat n - (Z.of_nat n - Z.of_nat n1)) with (d + Z.of_nat n1) in * by lia.
    replace (s + Z.of_nat n - (Z.of_nat n - Z.of_nat n1)) with (s + Z.of_nat n1) in * by lia.
    pose proof (move_bwd_words_copies n1 m1 (d + Z.of_nat n1) (s + Z.of_nat n1) ltac:(lia)) as H2.
    destruct (move_bwd_words n1 _ _ _) as [[[n2 m2] d2] s2]. destruct H2 as (K2 & -> & -> & H2).
    replace (d + Z.of_nat n1 - (Z.of_nat n1 - Z.of_nat n2)) with (d + Z.of_nat n2) in * by lia.
    replace (s + Z.of_nat n1 - (Z.of_nat n1 - Z.of_nat n2)) with (s + Z.of_nat n2) in * by lia.
    pose proof (move_bwd_tail_copies n2 m2 (d + Z.of_nat n2) (s + Z.of_nat n2) ltac:(lia)) as H3.
    replace (d + Z.of_nat n2 - Z.of_nat n2) with d in H3 by lia.
    replace (s + Z.of_nat n2 - Z.of_nat n2) with s in H3 by lia.
    replace (Z.of_nat n) with (Z.of_nat n2 + (Z.of_nat n1 - Z.of_nat n2) + (Z.of_nat n - Z.of_nat n1))
      by lia.
    eapply copies_bwd; [lia | lia | lia | |].
    2: { eapply copies_bwd; [lia | lia | lia | exact H2 | exact H3]. }
    by replace (Z.of_nat n2 + (Z.of_nat n1 - Z.of_nat n2)) with (Z.of_nat n1) by lia.
Qed.

Lemma bytes_match_spec (n : nat) (m : mem) (h d : Z) :
  bytes_match n m h d = true <->
  forall i, 0 <= i < Z.of_nat n -> ldb m (h + i) = ldb m (d + i).
Proof.
  revert h d. induction n as [|n IH]; intros h d; cbn [bytes_match]; [split; [lia | done] |].
  rewrite andb_true_iff, Z.eqb_eq, IH. split.
  - intros [H1 H2] i Hi. destruct (decide (i = 0)) as [-> |]; [by rewrite !Z.add_0_r |].
    specialize (H2 (i - 1) ltac:(lia)).
    replace (h + 1 + (i - 1)) with (h + i) in H2 by lia.
    by replace (d + 1 + (i - 1)) with (d + i) in H2 by lia.
  - intros H. split.
    + specialize (H 0 ltac:(lia)). by rewrite !Z.add_0_r in H.
    + intros i Hi. specialize (H (1 + i) ltac:(lia)). by rewrite !Z.add_assoc in H.
Qed.

Lemma memmem_from_spec (k : nat) (m : mem) (h d : Z) (nl : nat) :
  match memmem_from k m h d nl with
  | Some r => h <= r <= h + Z.of_nat k /\ bytes_match nl m r d = true /\
              forall q, h <= q < r -> bytes_match nl m q d = false
  | None => forall q, h <= q <= h + Z.of_nat k -> bytes_match nl m q d = false
  end.
Proof.
  revert h. induction k as [|k IH]; intros h; cbn [memmem_from];
    (destruct (bytes_match nl m h d) eqn:E; [split_and!; [lia | lia | done | lia] |]).
  { intros q Hq. by replace q with h by lia. }
  specialize (IH (h + 1)). destruct (memmem_from k m (h + 1) d nl) as [r |].
  - destruct IH as (H1 & H2 & H3). split_and!; [lia | lia | done |].
    intros q Hq. destruct (decide (q = h)) as [-> |]; [done | apply H3; lia].
  - intros q Hq. destruct (decide (q = h)) as [-> |]; [done | apply IH; lia].
Qed.

(** * Properties *)

(** C39: [memmove] is correct for every overlap of the two ranges and every alignment,
    through its byte and word loops in both directions: the destination holds what the
    source held before the call, and no other byte changes. *)
Theorem memmove_correct (m : mem) (dst src : Z) (n : nat) (b : Z) :
  ldb (memmove m dst src n) b =
  if (dst <=? b) && (b <? dst + Z.of_nat n) then ldb m (src + (b - dst)) else ldb m b.
Proof. apply memmove_copies. Qed.

(** [memset], through its alignment loop, its word loop and its tail, sets exactly
    the [n] bytes at [s] to the low byte of [c]. *)
Theorem memset_correct (m : mem) (s c : Z) (n : nat) (b : Z) :
  ldb (memset m s c n) b = if (s <=? b) && (b <? s + Z.of_nat n) then u8 c else ldb m b.
Proof. apply memset_filled. Qed.

(** [memcmp] returns 0 exactly on equal ranges, and otherwise the difference of the
    first two bytes that differ. *)
Theorem memcmp_spec (m : mem) (p q : Z) (n : nat) :
  (memcmp m p q n = 0 /\ forall i, 0 <= i < Z.of_nat n -> ldb m (p + i) = ldb m (q + i)) \/
  (exists i, 0 <= i < Z.of_nat n /\
     (forall j, 0 <= j < i -> ldb m (p + j) = ldb m (q + j)) /\
     ldb m (p + i) <> ldb m (q + i) /\
     memcmp m p q n = ldb m (p + i) - ldb m (q + i)).
Proof.
  unfold memcmp. revert p q. induction n as [|n IH]; intros p q; cbn [memcmp_from].
  { left. split; [done | lia]. }
  destruct (Z.eqb_spec (ldb m p) (ldb m q)) as [He | Hne]; cbn [negb].
  - destruct (IH (p + 1) (q + 1)) as [[H1 H2] | (i & Hi & H1 & H2 & H3)].
    + left. split; [done |]. intros i Hi.
      destruct (decide (i = 0)) as [-> |]; [by rewrite !Z.add_0_r |].
      specialize (H2 (i - 1) ltac:(lia)).
      by replace (p + i) with (p + 1 + (i - 1)) by lia; replace (q + i) with (q + 1 + (i - 1)) by lia.
    + right. exists (i + 1).
      replace (p + (i + 1)) with (p + 1 + i) by lia. replace (q + (i + 1)) with (q + 1 + i) by lia.
      split_and!; [lia | lia | | done | done]. intros j Hj.
      destruct (decide (j = 0)) as [-> |]; [by rewrite !Z.add_0_r |].
      specialize (H1 (j - 1) ltac:(lia)).
      by replace (p + j) with (p + 1 + (j - 1)) by lia; replace (q + j) with (q + 1 + (j - 1)) by lia.
  - right. exists 0. rewrite !Z.add_0_r. split_and!; [lia | lia | lia | done | done].
Qed.

(** [memmem] returns the lowest offset at which the needle occurs inside the
    haystack, and NULL exactly when it occurs nowhere (the subtraction of the lengths
    never underflows). *)
Theorem memmem_spec (m : mem) (h d : Z) (hl nl : nat) :
  let occurs q := forall i, 0 <= i < Z.of_nat nl -> ldb m (q + i) = ldb m (d + i) in
  match memmem m h hl d nl with
  | Some r => h <= r /\ r + Z.of_nat nl <= h + Z.max (Z.of_nat hl) (Z.of_nat nl) /\ occurs r /\
              forall q, h <= q < r -> ~ occurs q
  | None => forall q, h <= q -> q + Z.of_nat nl <= h + Z.of_nat hl -> ~ occurs q
  end.
Proof.
  intros occurs. unfold memmem.
  destruct (Nat.eqb_spec nl 0) as [-> | Hnl]; [split_and!; try lia; unfold occurs; lia |].
  destruct (Nat.ltb_spec hl nl) as [Hlt | Hge]; [intros; lia |].
  pose proof (memmem_from_spec (hl - nl) m h d nl) as H.
  destruct (memmem_from (hl - nl) m h d nl) as [r |].
  - destruct H as (H1 & H2 & H3). split_and!; [lia | lia | exact (proj1 (bytes_match_spec nl m r d) H2) |].
    intros q Hq Ho. apply (bytes_match_spec nl m q d) in Ho. rewrite H3 in Ho by lia. done.
  - intros q Hq1 Hq2 Ho. apply (bytes_match_spec nl m q d) in Ho. rewrite H in Ho by lia. done.
Qed.
