(* ===== verification/LibString.v ===== *)
(** The string routines of src/libk/string.c on the byte memory of LibMem.v.  A loop
    that runs to the terminator takes a bound on its steps: a walk that exhausts it is a
    walk over memory without a terminator ([Crash]).  The theorems give the bound from
    the length of the string. *)

From S2P Require Import Prelude LibMem.

(** * The routines *)

Fixpoint str_end (fuel : nat) (m : mem) (p : Z) : outcome Z :=
  match fuel with
  | O => Crash
  | S fuel' => if ldb m p =? 0 then Ret p else str_end fuel' m (p + 1)
  end.

Definition strlen (fuel : nat) (m : mem) (s : Z) : outcome Z :=
  (do p <- str_end fuel m s; Ret (p - s))%out.

(** Copy up to and including the terminator. *)
Fixpoint copy_str (fuel : nat) (m : mem) (d src : Z) : outcome mem :=
  match fuel with
  | O => Crash
  | S fuel' =>
      let c := ldb m src in
      let m := stb m d c in
      if c =? 0 then Ret m else copy_str fuel' m (d + 1) (src + 1)
  end.

Definition strcpy (fuel : nat) (m : mem) (dst src : Z) : outcome mem := copy_str fuel m dst src.

Definition strcat (fuel : nat) (m : mem) (dst src : Z) : outcome mem :=
  (do d <- str_end fuel m dst; copy_str fuel m d src)%out.

(** The two loops of [strncpy]; [n] counts the bytes left. *)
Fixpoint strncpy_zero (n : nat) (m : mem) (dst : Z) : mem :=
  match n with
  | O => m
  | S n' => strncpy_zero n' (stb m dst 0) (dst + 1)
  end.

Fixpoint strncpy (n : nat) (m : mem) (dst src : Z) : mem :=
  match n with
  | O => m
  | S n' => if ldb m src =? 0 then strncpy_zero n m dst
            else strncpy n' (stb m dst (ldb m src)) (dst + 1) (src + 1)
  end.

Fixpoint strcmp (fuel : nat) (m : mem) (a b : Z) : outcome Z :=
  match fuel with
  | O => Crash
  | S fuel' =>
      if (ldb m a =? ldb m b) && negb (ldb m a =? 0) then strcmp fuel' m (a + 1) (b + 1)
      else Ret (ldb m a - ldb m b)
  end.

Fixpoint strncmp (n : nat) (m : mem) (a b : Z) : Z :=
  match n with
  | O => 0
  | S n' => if negb (ldb m a =? ldb m b) then ldb m a - ldb m b
            else if ldb m a =? 0 then 0 else strncmp n' m (a + 1) (b + 1)
  end.

Fixpoint strchr (fuel : nat) (m : mem) (s c : Z) : outcome Z :=
  match fuel with
  | O => Crash
  | S fuel' =>
      if ldb m s =? 0 then Ret (if u8 c =? 0 then s else 0)
      else if ldb m s =? u8 c then Ret s
      else strchr fuel' m (s + 1) c
  end.

Fixpoint strrchr_from (fuel : nat) (m : mem) (s c last : Z) : outcome Z :=
  match fuel with
  | O => Crash
  | S fuel' =>
      if ldb m s =? 0 then Ret (if u8 c =? 0 then s else last)
      else strrchr_from fuel' m (s + 1) c (if ldb m s =? u8 c then s else last)
  end.

Definition strrchr (fuel : nat) (m : mem) (s c : Z) : outcome Z := strrchr_from fuel m s c 0.

Fixpoint strncat_copy (n : nat) (m : mem) (d src : Z) : mem :=
  match n with
  | O => stb m d 0
  | S n' => if ldb m src =? 0 then stb m d 0
            else strncat_copy n' (stb m d (ldb m src)) (d + 1) (src + 1)
  end.

Definition strncat (fuel : nat) (m : mem) (dest src : Z) (n : nat) : outcome mem :=
  (do d <- str_end fuel m dest; Ret (strncat_copy n m d src))%out.

(** The two scans of [strtok_r]: over delimiters, and up to a delimiter. *)
Fixpoint skip_while (fuel dfuel : nat) (m : mem) (p delim : Z) (isdelim : bool) : outcome Z :=
  (match fuel with
   | O => Crash
   | S fuel' =>
       if ldb m p =? 0 then Ret p
       else
         do r <- strchr dfuel m delim (ldb m p);
         if Bool.eqb (negb (r =? 0)) isdelim then skip_while fuel' dfuel m (p + 1) delim isdelim
         else Ret p
   end)%out.

(** The token, the memory and the new save pointer; 0 is NULL. *)
Definition strtok_r (fuel dfuel : nat) (m : mem) (str delim saveptr : Z) : outcome (Z * mem * Z) :=
  (let saveptr := if str =? 0 then saveptr else str in
   if saveptr =? 0 then Ret (0, m, saveptr)
   else
     do start <- skip_while fuel dfuel m saveptr delim true;
     if ldb m start =? 0 then Ret (0, m, 0)
     else
       do p <- skip_while fuel dfuel m start delim false;
       if negb (ldb m p =? 0) then Ret (start, stb m p 0, p + 1)
       else Ret (start, m, 0))%out.

Fixpoint nameeq (n : nat) (m : mem) (a b : Z) : bool :=
  match n with
  | O => true
  | S n' => if (ldb m a =? 0) && (ldb m b =? 0) then true
            else if negb (ldb m a =? ldb m b) then false
            else nameeq n' m (a + 1) (b + 1)
  end.

(** "0123456789abcdefghijklmnopqrstuvwxyz" *)
Definition DIGIT (d : Z) : Z := if d <? 10 then 48 + d else 87 + d.

Fixpoint utoa_digits (fuel : nat) (m : mem) (ptr value base : Z) : outcome (mem * Z) :=
  match fuel with
  | O => Crash
  | S fuel' =>
      let tmp_value := value in
      let value := value / base in
      let m := stb m ptr (DIGIT (tmp_value - value * base)) in
      if value =? 0 then Ret (m, ptr + 1) else utoa_digits fuel' m (ptr + 1) value base
  end.

Fixpoint utoa_reverse (fuel : nat) (m : mem) (ptr1 ptr : Z) : outcome mem :=
  if negb (ptr1 <? ptr) then Ret m
  else match fuel with
       | O => Crash
       | S fuel' =>
           let tmp_char := ldb m ptr in
           let m := stb m ptr (ldb m ptr1) in
           let m := stb m ptr1 tmp_char in
           utoa_reverse fuel' m (ptr1 + 1) (ptr - 1)
       end.

(** A 32-bit value has at most 32 digits. *)
Definition utoa (m : mem) (value str base : Z) : outcome mem :=
  (if (base <? 2) || (36 <? base) then Ret (stb m str 0)
   else
     do '(m, ptr) <- utoa_digits 32 m str value base;
     let m := stb m ptr 0 in
     utoa_reverse 16 m str (ptr - 1))%out.

Fixpoint match_rest (n : nat) (m : mem) (h d : Z) : bool :=
  match n with
  | O => true
  | S n' => if negb (ldb m h =? ldb m d) then false else match_rest n' m (h + 1) (d + 1)
  end.

Fixpoint strstr_from (k : nat) (m : mem) (h needle needle_len : Z) : Z :=
  let found := (ldb m h =? ldb m needle) && match_rest (Z.to_nat (needle_len - 1)) m (h + 1) (needle + 1) in
  if found then h
  else match k with
       | O => 0
       | S k' => strstr_from k' m (h + 1) needle needle_len
       end.

Definition strstr (fuel : nat) (m : mem) (haystack needle : Z) : outcome Z :=
  (if (haystack =? 0) || (needle =? 0) then Ret 0
   else if ldb m needle =? 0 then Ret haystack
   else
     do needle_len <- strlen fuel m needle;
     do haystack_len <- strlen fuel m haystack;
     if haystack_len <? needle_len then Ret 0
     else Ret (strstr_from (Z.to_nat (haystack_len - needle_len)) m haystack needle needle_len))%out.

(** [atoi] and [atol] have the same text at 32 and 64 bits; overflow is undefined in C
    and wraps here. *)
Fixpoint skip_spaces (fuel : nat) (m : mem) (p : Z) : outcome Z :=
  match fuel with
  | O => Crash
  | S fuel' => if (ldb m p =? 32) || (ldb m p =? 9) then skip_spaces fuel' m (p + 1) else Ret p
  end.

Fixpoint read_digits (w : Z) (fuel : nat) (m : mem) (p result : Z) : outcome Z :=
  match fuel with
  | O => Crash
  | S fuel' =>
      if (48 <=? ldb m p) && (ldb m p <=? 57)
      then read_digits w fuel' m (p + 1) (swrap w (result * 10 + (ldb m p - 48)))
      else Ret result
  end.

Definition ato (w : Z) (fuel : nat) (m : mem) (str : Z) : outcome Z :=
  (if str =? 0 then Ret 0
   else
     do p <- skip_spaces fuel m str;
     let sign := if ldb m p =? 45 then -1 else 1 in
     let p := if (ldb m p =? 45) || (ldb m p =? 43) then p + 1 else p in
     do r <- read_digits w fuel m p 0;
     Ret (swrap w (r * sign)))%out.

Definition atoi := ato 32.
Definition atol := ato 64.

(** * Strings in memory *)

(** The characters [cs], none of them 0, and a terminator at [a]. *)
Fixpoint cstr (m : mem) (a : Z) (cs : list Z) : Prop :=
  match cs with
  | [] => ldb m a = 0
  | c :: cs' => 0 < c < 256 /\ ldb m a = c /\ cstr m (a + 1) cs'
  end.

Lemma cstr_ext (m m' : mem) (a : Z) (cs : list Z) :
  (forall i, a <= i <= a + Z.of_nat (length cs) -> ldb m' i = ldb m i) -> cstr m a cs -> cstr m' a cs.
Proof.
  revert a. induction cs as [|c cs IH]; intros a Hf Hc; cbn [length] in Hf.
  - cbn in *. rewrite Hf by lia. done.
  - destruct Hc as (H0 & H1 & H2). split; [done |]. split; [rewrite Hf by lia; done |].
    apply IH; [| done]. intros i Hi. apply Hf. lia.
Qed.

Lemma str_end_spec (cs : list Z) (m : mem) (a : Z) (fuel : nat) :
  cstr m a cs -> (length cs < fuel)%nat -> str_end fuel m a = Ret (a + Z.of_nat (length cs)).
Proof.
  revert a fuel. induction cs as [|c cs IH]; intros a [|fuel] Hc Hf; cbn [length] in *; try lia; cbn [str_end].
  - cbn in Hc. rewrite Hc. cbn. f_equal. lia.
  - destruct Hc as (H0 & H1 & H2). rewrite H1. replace (c =? 0) with false by lia.
    rewrite IH by (done || lia). f_equal. lia.
Qed.

Lemma strlen_ok (cs : list Z) (m : mem) (a : Z) (fuel : nat) :
  cstr m a cs -> (length cs < fuel)%nat -> strlen fuel m a = Ret (Z.of_nat (length cs)).
Proof. intros Hc Hf. unfold strlen. rewrite (str_end_spec cs) by done. cbn. f_equal. lia. Qed.

Lemma cstr_unique (m : mem) (a : Z) (cs ds : list Z) : cstr m a cs -> cstr m a ds -> cs = ds.
Proof.
  revert a ds. induction cs as [|c cs IH]; intros a [|d ds] Hc Hd; [done | | |].
  - destruct Hd as (? & ? & _). cbn in Hc. lia.
  - destruct Hc as (? & ? & _). cbn in Hd. lia.
  - destruct Hc as (? & <- & Hc), Hd as (? & <- & Hd). f_equal. by eapply IH.
Qed.

(** Copying a string to a place that does not overlap it. *)
Lemma copy_str_spec (cs : list Z) (m : mem) (d s : Z) (fuel : nat) :
  cstr m s cs -> (length cs < fuel)%nat ->
  d + Z.of_nat (length cs) < s \/ s + Z.of_nat (length cs) < d ->
  exists m', copy_str fuel m d s = Ret m' /\ cstr m' d cs /\
    forall i, i < d \/ d + Z.of_nat (length cs) < i -> ldb m' i = ldb m i.
Proof.
  revert m d s fuel. induction cs as [|c cs IH]; intros m d s [|fuel] Hc Hf Hd; cbn [length] in *; try lia; cbn [copy_str].
  - cbn in Hc. rewrite Hc. cbn [Z.eqb]. eexists. split; [reflexivity |]. split.
    + cbn. rewrite ldb_stb, Z.eqb_refl. done.
    + intros i Hi. rewrite ldb_stb. by replace (i =? d) with false by lia.
  - destruct Hc as (H0 & H1 & H2). rewrite H1. replace (c =? 0) with false by lia.
    destruct (IH (stb m d c) (d + 1) (s + 1) fuel) as (m' & E & Hc' & Hk); [| lia | lia |].
    { eapply cstr_ext; [| exact H2]. intros i Hi. rewrite ldb_stb. by replace (i =? d) with false by lia. }
    exists m'. split; [done |]. split.
    + split; [done |]. split; [| done]. rewrite Hk by lia. rewrite ldb_stb, Z.eqb_refl. apply wrap_small. split; lia.
    + intros i Hi. rewrite Hk by lia. rewrite ldb_stb. by replace (i =? d) with false by lia.
Qed.

Lemma cstr_app (m : mem) (a : Z) (cs ds : list Z) :
  (forall i c, cs !! i = Some c -> 0 < c < 256 /\ ldb m (a + Z.of_nat i) = c) ->
  cstr m (a + Z.of_nat (length cs)) ds -> cstr m a (cs ++ ds).
Proof.
  revert a. induction cs as [|c cs IH]; intros a Hc Hd.
  - cbn [length app] in *. by replace a with (a + Z.of_nat 0) by lia.
  - cbn [app cstr]. destruct (Hc 0%nat c eq_refl) as [H0 H1]. split; [done |]. split; [by rewrite <- H1; f_equal; lia |].
    apply IH.
    + intros i x Hi. replace (a + 1 + Z.of_nat i) with (a + Z.of_nat (S i)) by lia. by apply Hc.
    + cbn [length] in Hd. by replace (a + 1 + Z.of_nat (length cs)) with (a + Z.of_nat (S (length cs))) by lia.
Qed.

Lemma cstr_lookup (m : mem) (a : Z) (cs : list Z) :
  cstr m a cs -> forall i c, cs !! i = Some c -> 0 < c < 256 /\ ldb m (a + Z.of_nat i) = c.
Proof.
  revert a. induction cs as [|d cs IH]; intros a Hc [|i] c Hi; try done.
  - injection Hi as <-. destruct Hc as (H0 & H1 & _). split; [done |]. by replace (a + Z.of_nat 0) with a by lia.
  - destruct Hc as (_ & _ & Hc). replace (a + Z.of_nat (S i)) with (a + 1 + Z.of_nat i) by lia. by apply IH.
Qed.

Lemma cstr_end (m : mem) (a : Z) (cs : list Z) : cstr m a cs -> ldb m (a + Z.of_nat (length cs)) = 0.
Proof.
  revert a. induction cs as [|d cs IH]; intros a Hc; cbn [length].
  - by replace (a + Z.of_nat 0) with a by lia.
  - destruct Hc as (_ & _ & Hc). replace (a + Z.of_nat (S (length cs))) with (a + 1 + Z.of_nat (length cs)) by lia. by apply IH.
Qed.

(** * Concatenation and comparison *)

(** [strcat] appends: the destination holds the concatenation and nothing outside the
    appended bytes changes. *)
Theorem strcat_spec (m : mem) (d s : Z) (cs ds : list Z) (fuel : nat) :
  cstr m d cs -> cstr m s ds -> (length cs < fuel)%nat -> (length ds < fuel)%nat ->
  d + Z.of_nat (length cs + length ds) < s \/ s + Z.of_nat (length ds) < d ->
  exists m', strcat fuel m d s = Ret m' /\ cstr m' d (cs ++ ds) /\
    forall i, i < d + Z.of_nat (length cs) \/ d + Z.of_nat (length cs + length ds) < i -> ldb m' i = ldb m i.
Proof.
  intros Hc Hd Hf1 Hf2 Hdis. unfold strcat. rewrite (str_end_spec cs) by done. cbn [obind].
  destruct (copy_str_spec ds m (d + Z.of_nat (length cs)) s fuel Hd Hf2 ltac:(lia)) as (m' & E & Hc' & Hk).
  exists m'. split; [done |]. split.
  - apply cstr_app; [| done]. intros i c Hi. destruct (cstr_lookup m d cs Hc i c Hi) as [H0 H1].
    split; [done |]. rewrite Hk; [done |]. apply lookup_lt_Some in Hi. lia.
  - intros i Hi. apply Hk. lia.
Qed.

(** Lexicographic order of byte strings, with the terminator below every character. *)
Fixpoint lex (cs ds : list Z) : comparison :=
  match cs, ds with
  | [], [] => Eq
  | [], _ :: _ => Lt
  | _ :: _, [] => Gt
  | c :: cs', d :: ds' => match c ?= d with Eq => lex cs' ds' | r => r end
  end.

Lemma lex_eq (cs ds : list Z) : lex cs ds = Eq <-> cs = ds.
Proof.
  revert ds. induction cs as [|c cs IH]; intros [|d ds]; cbn; try done.
  destruct (Z.compare_spec c d) as [-> | Hlt | Hlt].
  - rewrite IH. split; [by intros -> | by intros [= ->]].
  - split; [done |]. intros [= ? _]. lia.
  - split; [done |]. intros [= ? _]. lia.
Qed.

(** [strcmp] decides the lexicographic order: its sign is the order of the strings. *)
Theorem strcmp_spec (m : mem) (a b : Z) (cs ds : list Z) (fuel : nat) :
  cstr m a cs -> cstr m b ds -> (length cs < fuel)%nat ->
  exists r, strcmp fuel m a b = Ret r /\ (r ?= 0) = lex cs ds.
Proof.
  revert a b ds fuel. induction cs as [|c cs IH]; intros a b ds [|fuel] Hc Hd Hf; cbn [length] in Hf; try lia; cbn [strcmp].
  - cbn in Hc. rewrite Hc. cbn [Z.eqb]. rewrite andb_false_r. eexists. split; [reflexivity |].
    destruct ds as [|d ds]; cbn in Hd; [by rewrite Hd |]. destruct Hd as (H0 & -> & _). cbn [lex].
    apply Z.compare_lt_iff. lia.
  - destruct Hc as (H0 & -> & Hc). replace (c =? 0) with false by lia. cbn [negb]. rewrite andb_true_r.
    destruct ds as [|d ds]; [cbn in Hd | destruct Hd as (H1 & -> & Hd)].
    + rewrite Hd. replace (c =? 0) with false by lia. eexists. split; [reflexivity |].
      cbn [lex]. apply Z.compare_gt_iff. lia.
    + cbn [lex]. destruct (Z.eqb_spec c d) as [-> | Hne].
      * rewrite Z.compare_refl. by apply (IH (a + 1) (b + 1)); [| | lia].
      * eexists. split; [reflexivity |]. destruct (Z.compare_spec c d) as [| Hlt | Hlt]; [done | |].
        -- apply Z.compare_lt_iff. lia.
        -- apply Z.compare_gt_iff. lia.
Qed.

(** * Numbers *)

Definition digits_value (base : Z) (ds : list Z) : Z := fold_left (fun r d => r * base + d) ds 0.

(** The digits as [utoa] first writes them, lowest first. *)
Lemma utoa_digits_spec (fuel : nat) (m : mem) (p v base : Z) :
  2 <= base <= 36 -> 0 <= v < base ^ Z.of_nat fuel -> (0 < fuel)%nat ->
  exists ds m', utoa_digits fuel m p v base = Ret (m', p + Z.of_nat (length ds)) /\
    (0 < length ds <= fuel)%nat /\ Forall (fun d => 0 <= d < base) ds /\
    foldr (fun d r => d + base * r) 0 ds = v /\ (v = 0 -> ds = [0]) /\ (forall d, v <> 0 -> last ds = Some d -> d <> 0) /\
    (forall i d, ds !! i = Some d -> ldb m' (p + Z.of_nat i) = DIGIT d) /\
    (forall i, i < p \/ p + Z.of_nat (length ds) <= i -> ldb m' i = ldb m i).
Proof.
  revert m p v. induction fuel as [|fuel IH]; intros m p v Hb Hv Hf; [lia |]. cbn [utoa_digits].
  set (d := v - v / base * base). set (m1 := stb m p (DIGIT d)).
  assert (Hd : 0 <= d < base) by (unfold d; pose proof (Z.mod_pos_bound v base ltac:(lia)); rewrite Z.mod_eq in * by lia; lia).
  assert (Hdig : fits 8 (DIGIT d)) by (unfold DIGIT; destruct (d <? 10) eqn:E; split; lia).
  assert (Hm1 : ldb m1 p = DIGIT d) by (unfold m1; rewrite ldb_stb, Z.eqb_refl; by apply wrap_small).
  destruct (Z.eqb_spec (v / base) 0) as [E | E].
  - assert (d = v) as Ed by (unfold d; rewrite E; lia). exists [d], m1. cbn [length]. split_and!; try done; try lia.
    + by apply Forall_singleton.
    + cbn. lia.
    + intros Hv0. f_equal. lia.
    + intros x Hx [= <-]. lia.
    + intros [|i] x Hx; [| done]. injection Hx as <-. by replace (p + Z.of_nat 0) with p by lia.
    + intros i Hi. unfold m1. rewrite ldb_stb. by replace (i =? p) with false by lia.
  - assert (Hfp : (0 < fuel)%nat).
    { destruct fuel; [| lia]. exfalso. apply E. apply Z.div_small. cbn in Hv. lia. }
    assert (Hq : 0 <= v / base < base ^ Z.of_nat fuel).
    { split; [apply Z.div_pos; lia |]. apply Z.div_lt_upper_bound; [lia |].
      rewrite Nat2Z.inj_succ, Z.pow_succ_r in Hv by lia. lia. }
    destruct (IH m1 (p + 1) (v / base) Hb Hq Hfp) as (ds & m' & E1 & Hl & HF & Hval & _ & Hlast & Hdg & Hk).
    exists (d :: ds), m'. cbn [length]. split_and!; try lia.
    + rewrite E1. do 2 f_equal. lia.
    + by constructor.
    + cbn [foldr]. rewrite Hval. unfold d. lia.
    + intros x _. destruct ds as [|y ds]; [cbn [length] in Hl; lia |]. rewrite last_cons_cons. by apply Hlast.
    + intros [|i] x Hx.
      * injection Hx as <-. rewrite Hk by lia. by replace (p + Z.of_nat 0) with p by lia.
      * replace (p + Z.of_nat (S i)) with (p + 1 + Z.of_nat i) by lia. by apply Hdg.
    + intros i Hi. rewrite Hk by lia. unfold m1. rewrite ldb_stb. by replace (i =? p) with false by lia.
Qed.

(** In-place reversal of the bytes in [a, b]. *)
Lemma utoa_reverse_spec (fuel : nat) (m : mem) (a b : Z) :
  b - a < 2 * Z.of_nat fuel + 1 ->
  exists m', utoa_reverse fuel m a b = Ret m' /\
    (forall i, a <= i <= b -> ldb m' i = ldb m (a + b - i)) /\
    (forall i, i < a \/ b < i -> ldb m' i = ldb m i).
Proof.
  revert m a b. induction fuel as [|fuel IH]; intros m a b Hf; cbn [utoa_reverse].
  - replace (a <? b) with false by lia. exists m. split; [done |]. split; [| done].
    intros i Hi. f_equal. lia.
  - destruct (Z.ltb_spec a b) as [Hlt | Hge]; cbn [negb].
    2: { exists m. split; [done |]. split; [| done]. intros i Hi. f_equal. lia. }
    set (m1 := stb (stb m b (ldb m a)) a (ldb m b)).
    assert (Hm1 : forall i, ldb m1 i = if i =? a then ldb m b else if i =? b then ldb m a else ldb m i).
    { intros i. unfold m1. rewrite !ldb_stb. rewrite !(wrap_small 8) by apply ldb_fits. done. }
    destruct (IH m1 (a + 1) (b - 1) ltac:(lia)) as (m' & E & Hr & Hk).
    exists m'. split; [exact E |]. split.
    + intros i Hi. destruct (decide (i = a)) as [-> | Ha]; [| destruct (decide (i = b)) as [-> | Hb]].
      * rewrite Hk, Hm1, Z.eqb_refl by lia. f_equal. lia.
      * rewrite Hk, Hm1 by lia. replace (b =? a) with false by lia. rewrite Z.eqb_refl. f_equal. lia.
      * rewrite Hr, Hm1 by lia. replace (a + 1 + (b - 1) - i) with (a + b - i) by lia.
        replace (a + b - i =? a) with false by lia. by replace (a + b - i =? b) with false by lia.
    + intros i Hi. rewrite Hk, Hm1 by lia. replace (i =? a) with false by lia. by replace (i =? b) with false by lia.
Qed.

Lemma foldr_value (base : Z) (ds : list Z) :
  foldr (fun d r => d + base * r) 0 ds = digits_value base (reverse ds).
Proof.
  unfold digits_value. induction ds as [|d ds IH]; [done |]. rewrite reverse_cons, fold_left_app. cbn [foldr fold_left].
  rewrite IH. lia.
Qed.

Lemma utoa_ok (m : mem) (v a base : Z) :
  fits 32 v -> 2 <= base <= 36 ->
  exists m' ds, utoa m v a base = Ret m' /\ cstr m' a (map DIGIT ds) /\
    digits_value base ds = v /\ Forall (fun d => 0 <= d < base) ds /\ (0 < length ds <= 32)%nat /\
    (v = 0 -> ds = [0]) /\ (forall d, v <> 0 -> head ds = Some d -> d <> 0) /\
    (forall i, i < a \/ a + Z.of_nat (length ds) < i -> ldb m' i = ldb m i).
Proof.
  intros Hv Hb. unfold utoa. replace ((base <? 2) || (36 <? base)) with false by lia.
  assert (Hpow : 0 <= v < base ^ Z.of_nat 32).
  { destruct Hv. split; [done |]. eapply Z.lt_le_trans; [eassumption |]. apply (Z.pow_le_mono_l 2 base 32). lia. }
  destruct (utoa_digits_spec 32 m a v base Hb Hpow ltac:(lia)) as (ds & m1 & E & Hl & HF & Hval & Hz & Hlast & Hdg & Hk).
  rewrite E. cbn [obind]. set (n := Z.of_nat (length ds)) in *. assert (Hn : n = Z.of_nat (length ds)) by done.
  set (m2 := stb m1 (a + n) 0).
  destruct (utoa_reverse_spec 16 m2 a (a + n - 1) ltac:(lia)) as (m' & Er & Hrev & Hk2).
  assert (Hm2 : forall i, ldb m2 i = if i =? a + n then 0 else ldb m1 i) by (intros i; apply ldb_stb).
  exists m', (reverse ds). split; [exact Er |]. rewrite length_reverse. fold n. split_and!; try lia.
  - rewrite <- (app_nil_r (map DIGIT _)). apply cstr_app.
    + intros i c Hi. rewrite list_lookup_fmap in Hi.
      destruct (reverse ds !! i) as [d |] eqn:Ed; [| done]. injection Hi as <-.
      pose proof (lookup_lt_Some _ _ _ Ed) as Hi. rewrite length_reverse in Hi.
      rewrite reverse_lookup in Ed by done. pose proof (Forall_lookup_1 _ _ _ _ HF Ed) as Hd. cbn beta in Hd.
      split; [unfold DIGIT; destruct (d <? 10) eqn:Ex; lia |].
      rewrite Hrev, Hm2 by lia. replace (a + (a + n - 1) - (a + Z.of_nat i) =? a + n) with false by lia.
      rewrite <- (Hdg _ _ Ed). f_equal. lia.
    + rewrite length_map, length_reverse. cbn [cstr]. fold n. rewrite Hk2, Hm2 by lia. by rewrite Z.eqb_refl.
  - rewrite <- foldr_value. done.
  - by apply Forall_reverse.
  - intros Hv0. by rewrite (Hz Hv0).
  - intros d Hv0 Hd. apply (Hlast d Hv0). by rewrite <- head_reverse.
  - intros i Hi. rewrite Hk2, Hm2 by lia. replace (i =? a + n) with false by lia. apply Hk. lia.
Qed.

Lemma fold_digits_ge (ds : list Z) (r : Z) :
  0 <= r -> Forall (fun d => 0 <= d < 10) ds -> r <= fold_left (fun r d => r * 10 + d) ds r.
Proof.
  revert r. induction ds as [|d ds IH]; intros r Hr HF; [done |]. apply Forall_cons in HF as [Hd HF].
  cbn [fold_left]. specialize (IH (r * 10 + d) ltac:(lia) HF). lia.
Qed.

Lemma swrap_small (w z : Z) : 0 < w -> 0 <= z < 2 ^ (w - 1) -> swrap w z = z.
Proof.
  intros Hw Hz. unfold swrap.
  assert (2 ^ w = 2 * 2 ^ (w - 1)) by (rewrite <- Z.pow_succ_r by lia; f_equal; lia).
  rewrite Z.mod_small by lia. destruct (Z.ltb_spec z (2 ^ (w - 1))); [done | lia].
Qed.

Lemma read_digits_spec (w : Z) (ds : list Z) (m : mem) (a r : Z) (fuel : nat) :
  0 < w -> cstr m a (map DIGIT ds) -> Forall (fun d => 0 <= d < 10) ds -> (length ds < fuel)%nat -> 0 <= r ->
  fold_left (fun r d => r * 10 + d) ds r < 2 ^ (w - 1) ->
  read_digits w fuel m a r = Ret (fold_left (fun r d => r * 10 + d) ds r).
Proof.
  intros Hw. revert a r fuel. induction ds as [|d ds IH]; intros a r [|fuel] Hc HF Hf Hr Hlt;
    cbn [length map fold_left] in *; try lia; cbn [read_digits].
  - cbn in Hc. by rewrite Hc.
  - destruct Hc as (_ & E & Hc). apply Forall_cons in HF as [Hd HF]. rewrite E. unfold DIGIT.
    replace (d <? 10) with true by lia. replace ((48 <=? 48 + d) && (48 + d <=? 57)) with true by lia.
    pose proof (fold_digits_ge ds (r * 10 + d) ltac:(lia) HF).
    replace (r * 10 + (48 + d - 48)) with (r * 10 + d) by lia.
    rewrite swrap_small by lia. by apply IH; [| | lia | lia |].
Qed.

(** Printing and reading numbers: [utoa] in base 10 writes a terminated string of
    decimal digits without leading zeros, touching only the bytes of that string, from
    which [atoi] reads back every value below 2^31 and [atol] every 32-bit value. *)
Theorem utoa_atoi_roundtrip (m : mem) (v a : Z) :
  fits 32 v -> 0 < a ->
  exists m' ds, utoa m v a 10 = Ret m' /\ cstr m' a (map DIGIT ds) /\
    (v = 0 -> ds = [0]) /\ (forall d, v <> 0 -> head ds = Some d -> d <> 0) /\
    (forall i, i < a \/ a + Z.of_nat (length ds) < i -> ldb m' i = ldb m i) /\
    (v < 2 ^ 31 -> atoi 33 m' a = Ret v) /\ atol 33 m' a = Ret v.
Proof.
  intros Hv Ha. destruct (utoa_ok m v a 10 Hv ltac:(lia)) as (m' & ds & E & Hc & Hval & HF & Hl & Hz & Hh & Hk).
  exists m', ds. split_and!; try done.
  all: assert (Hato : forall w, 32 <= w -> v < 2 ^ (w - 1) -> ato w 33 m' a = Ret v).
  1, 3: intros w Hw Hlt; unfold ato; replace (a =? 0) with false by lia;
    destruct ds as [|d ds]; [cbn [length] in Hl; lia |];
    pose proof HF as [Hd _]%Forall_cons; pose proof Hc as (_ & Ed & _);
    unfold DIGIT in Ed; replace (d <? 10) with true in Ed by lia;
    cbn [skip_spaces]; rewrite Ed; replace ((48 + d =? 32) || (48 + d =? 9)) with false by lia; cbn [obind]; rewrite Ed;
    replace (48 + d =? 45) with false by lia; replace (48 + d =? 43) with false by lia; cbn [orb];
    rewrite (read_digits_spec w (d :: ds)) by (done || lia || (unfold digits_value in Hval; lia));
    cbn [obind]; change (fold_left _ _ 0) with (digits_value 10 (d :: ds)); rewrite Hval, Z.mul_1_r;
    destruct Hv; rewrite swrap_small by lia; done.
  - intros Hlt. apply Hato; lia.
  - apply Hato; [lia |]. destruct Hv. lia.
Qed.

Lemma utoa_atoi_roundtrip_witness :
  exists m', utoa (fun _ => 7) 1048576 100 10 = Ret m' /\ atoi 33 m' 100 = Ret 1048576 /\ ldb m' 99 = 7.
Proof.
  destruct (utoa_atoi_roundtrip (fun _ => 7) 1048576 100 ltac:(split; lia) ltac:(lia))
    as (m' & ds & E & _ & _ & _ & Hk & Hr & _).
  exists m'. split; [exact E |]. split; [apply Hr; lia |]. rewrite Hk by lia. reflexivity.
Defined.

(** * Substring search *)

Lemma match_rest_spec (ds hs : list Z) (m : mem) (h d : Z) :
  cstr m h hs -> cstr m d ds -> match_rest (length ds) m h d = true <-> ds `prefix_of` hs.
Proof.
  revert h d hs. induction ds as [|x ds IH]; intros h d hs Hh Hd; cbn [length match_rest].
  - split; [intros _; apply prefix_nil | done].
  - destruct Hd as (H0 & -> & Hd). destruct hs as [|y hs]; [cbn in Hh | destruct Hh as (H1 & -> & Hh)].
    + rewrite Hh. replace (0 =? x) with false by lia. cbn. split; [done |]. by intros ?%prefix_nil_not.
    + destruct (Z.eqb_spec y x) as [-> | Hne]; cbn [negb].
      * rewrite (IH _ _ hs Hh Hd). split; [by apply prefix_cons | by apply prefix_cons_inv_2].
      * split; [done |]. intros Hp. by apply prefix_cons_inv_1 in Hp.
Qed.

Lemma cstr_drop (m : mem) (a : Z) (cs : list Z) (i : nat) :
  cstr m a cs -> (i <= length cs)%nat -> cstr m (a + Z.of_nat i) (drop i cs).
Proof.
  revert a cs. induction i as [|i IH]; intros a cs Hc Hi.
  - rewrite drop_0. by replace (a + Z.of_nat 0) with a by lia.
  - destruct cs as [|c cs]; cbn [length] in Hi; [lia |]. destruct Hc as (_ & _ & Hc). cbn [drop].
    replace (a + Z.of_nat (S i)) with (a + 1 + Z.of_nat i) by lia. apply IH; [done | lia].
Qed.

Lemma strstr_from_spec (k i : nat) (m : mem) (h d : Z) (hs ds : list Z) :
  cstr m h hs -> cstr m d ds -> ds <> [] -> (i + k + length ds = length hs)%nat -> 0 < h ->
  let r := strstr_from k m (h + Z.of_nat i) d (Z.of_nat (length ds)) in
  (r = 0 /\ forall j, (i <= j <= i + k)%nat -> ~ ds `prefix_of` drop j hs) \/
  (exists j, (i <= j <= i + k)%nat /\ r = h + Z.of_nat j /\ ds `prefix_of` drop j hs /\
     forall j', (i <= j' < j)%nat -> ~ ds `prefix_of` drop j' hs).
Proof.
  revert i. induction k as [|k IH]; intros i Hh Hd Hne Hlen Hpos r; subst r; cbn [strstr_from];
    pose proof (cstr_drop m h hs i Hh ltac:(lia)) as Hi;
    pose proof (match_rest_spec ds (drop i hs) m (h + Z.of_nat i) d Hi Hd) as Hm;
    destruct ds as [|x ds]; try done; cbn [length] in *; cbn [match_rest] in Hm;
    replace (Z.to_nat (Z.of_nat (S (length ds)) - 1)) with (length ds) by lia;
    assert (Hb : (ldb m (h + Z.of_nat i) =? ldb m d) && match_rest (length ds) m (h + Z.of_nat i + 1) (d + 1) = true
                 <-> x :: ds `prefix_of` drop i hs) by (rewrite <- Hm; by destruct (_ =? _));
    destruct (_ && _) eqn:E.
  - right. exists i. split_and!; [lia | lia | done | by apply Hb | intros; lia].
  - left. split; [done |]. intros j Hj Hp. assert (j = i) as -> by lia. by apply Hb in Hp.
  - right. exists i. split_and!; [lia | lia | done | by apply Hb | intros; lia].
  - replace (h + Z.of_nat i + 1) with (h + Z.of_nat (S i)) by lia.
    destruct (IH (S i) Hh Hd ltac:(done) ltac:(cbn [length]; lia) Hpos) as [[Hr Hno] | (j & Hj & Hr & Hp & Hno)];
      cbn [length] in *; rewrite Hr.
    + left. split; [done |]. intros j Hj Hp. destruct (decide (j = i)) as [-> |]; [by apply Hb in Hp |].
      apply (Hno j); [lia | done].
    + right. exists j. split_and!; [lia | lia | done | done |]. intros j' Hj' Hp'.
      destruct (decide (j' = i)) as [-> |]; [by apply Hb in Hp' |]. apply (Hno j'); [lia | done].
Qed.

(** [strstr] returns the leftmost occurrence of the needle, and NULL exactly when
    there is none; the empty needle occurs at the start. *)
Theorem strstr_spec (m : mem) (h d : Z) (hs ds : list Z) (fuel : nat) :
  cstr m h hs -> cstr m d ds -> 0 < h -> 0 < d -> (length hs < fuel)%nat -> (length ds < fuel)%nat ->
  exists r, strstr fuel m h d = Ret r /\
    ((r = 0 /\ forall j, (j <= length hs)%nat -> ~ ds `prefix_of` drop j hs) \/
     (exists j, (j <= length hs)%nat /\ r = h + Z.of_nat j /\ ds `prefix_of` drop j hs /\
        forall j', (j' < j)%nat -> ~ ds `prefix_of` drop j' hs)).
Proof.
  intros Hh Hd Hph Hpd Hf1 Hf2. unfold strstr. replace ((h =? 0) || (d =? 0)) with false by lia.
  destruct ds as [|x ds].
  { cbn in Hd. rewrite Hd. cbn [Z.eqb]. exists h. split; [done |]. right. exists 0%nat.
    split_and!; [lia | lia | apply prefix_nil | lia]. }
  pose proof Hd as (Hx & Ex & _). rewrite Ex. replace (x =? 0) with false by lia.
  rewrite (strlen_ok (x :: ds)), (strlen_ok hs) by done. cbn [obind].
  destruct (Z.ltb_spec (Z.of_nat (length hs)) (Z.of_nat (length (x :: ds)))) as [Hlt | Hge].
  - exists 0. split; [done |]. left. split; [done |]. intros j Hj Hp. apply prefix_length in Hp.
    rewrite length_drop in Hp. lia.
  - eexists. split; [reflexivity |].
    pose proof (strstr_from_spec (length hs - length (x :: ds)) 0 m h (d) hs (x :: ds) Hh Hd ltac:(done) ltac:(lia) Hph) as Hs.
    cbv zeta in Hs. replace (h + Z.of_nat 0) with h in Hs by lia.
    replace (Z.to_nat (Z.of_nat (length hs) - Z.of_nat (length (x :: ds)))) with (length hs - length (x :: ds))%nat by lia.
    destruct Hs as [[Hr Hno] | (j & Hj & Hr & Hp & Hno)].
    + left. split; [done |]. intros j Hj Hp.
      destruct (decide (j <= length hs - length (x :: ds))%nat); [by apply (Hno j); [lia |] |].
      apply prefix_length in Hp. rewrite length_drop in Hp. lia.
    + right. exists j. split_and!; [lia | done | done |]. intros j' Hj'. apply Hno. lia.
Qed.

Lemma strstr_spec_witness :
  let m := fun a => if a =? 100 then 97 else if a =? 101 then 98 else if a =? 200 then 98 else 0 in
  exists r, strstr 5 m 100 200 = Ret r /\ r = 101.
Proof.
  intros m. destruct (strstr_spec m 100 200 [97; 98] [98] 5) as (r & E & Hr);
    [repeat split; reflexivity | repeat split; reflexivity | reflexivity | reflexivity | cbn; lia | cbn; lia |].
  exists r. split; [exact E |]. vm_compute in E. injection E as <-. reflexivity.
Defined.

(** * Tokens *)

Fixpoint take_while (f : Z -> bool) (cs : list Z) : list Z :=
  match cs with [] => [] | c :: cs' => if f c then c :: take_while f cs' else [] end.

Fixpoint drop_while (f : Z -> bool) (cs : list Z) : list Z :=
  match cs with [] => [] | c :: cs' => if f c then drop_while f cs' else cs end.

Lemma take_drop_while (f : Z -> bool) (cs : list Z) : take_while f cs ++ drop_while f cs = cs.
Proof. induction cs as [|c cs IH]; [done |]. cbn. destruct (f c); [by cbn; f_equal | done]. Qed.

Definition is_delim (D : list Z) (c : Z) : bool := bool_decide (c ∈ D).

(** The maximal runs of characters that are not delimiters. *)
Fixpoint tokens (fuel : nat) (D cs : list Z) : list (list Z) :=
  match fuel with
  | O => []
  | S fuel' =>
      match drop_while (is_delim D) cs with
      | [] => []
      | rest => take_while (fun c => negb (is_delim D c)) rest ::
                  tokens fuel' D (tail (drop_while (fun c => negb (is_delim D c)) rest))
      end
  end.

Lemma strchr_member (D : list Z) (m : mem) (s c : Z) (fuel : nat) :
  cstr m s D -> 0 < s -> 0 < c < 256 -> (length D < fuel)%nat ->
  exists r, strchr fuel m s c = Ret r /\ negb (r =? 0) = is_delim D c.
Proof.
  intros Hc Hs Hr. revert s fuel Hc Hs. induction D as [|d D IH]; intros s [|fuel] Hc Hs Hf; cbn [length] in Hf; try lia;
    cbn [strchr]; rewrite (wrap_small 8) by (split; lia).
  - cbn in Hc. rewrite Hc. cbn [Z.eqb]. replace (c =? 0) with false by lia. by exists 0.
  - destruct Hc as (H0 & -> & Hc). replace (d =? 0) with false by lia. unfold is_delim.
    destruct (Z.eqb_spec d c) as [-> | Hne].
    + exists s. split; [done |]. rewrite bool_decide_true by set_solver. lia.
    + destruct (IH (s + 1) fuel Hc ltac:(lia) ltac:(lia)) as (r & E & Hr'). exists r. split; [done |].
      rewrite Hr'. unfold is_delim. apply bool_decide_ext. set_solver.
Qed.

Lemma skip_while_spec (D cs : list Z) (m : mem) (p delim : Z) (fuel dfuel : nat) (b : bool) :
  cstr m p cs -> cstr m delim D -> 0 < delim -> (length cs < fuel)%nat -> (length D < dfuel)%nat ->
  skip_while fuel dfuel m p delim b =
  Ret (p + Z.of_nat (length (take_while (fun c => Bool.eqb (is_delim D c) b) cs))).
Proof.
  intros Hc HD Hd Hf1 Hf2. revert p fuel Hc Hf1.
  induction cs as [|c cs IH]; intros p [|fuel] Hc Hf1; cbn [length] in Hf1; try lia; cbn [skip_while take_while].
  - cbn in Hc. rewrite Hc. cbn. f_equal. lia.
  - destruct Hc as (H0 & -> & Hc). replace (c =? 0) with false by lia.
    destruct (strchr_member D m delim c dfuel HD Hd H0 Hf2) as (r & -> & Hr). cbn [obind]. rewrite Hr.
    destruct (Bool.eqb (is_delim D c) b).
    + rewrite IH by (done || lia). cbn [length]. f_equal. lia.
    + cbn [length]. f_equal. lia.
Qed.

Lemma take_while_ext (f g : Z -> bool) (cs : list Z) :
  (forall c, f c = g c) -> take_while f cs = take_while g cs.
Proof. intros Hf. induction cs as [|c cs IH]; [done |]. cbn. by rewrite Hf, IH. Qed.

Lemma cstr_take (m : mem) (a : Z) (cs : list Z) (n : nat) :
  cstr m a cs -> (n <= length cs)%nat -> cstr (stb m (a + Z.of_nat n) 0) a (take n cs).
Proof.
  intros Hc Hn. rewrite <- (app_nil_r (take n cs)). apply cstr_app.
  - intros i c Hi. apply lookup_take_Some in Hi as [Hi Hlt]. destruct (cstr_lookup m a cs Hc i c Hi) as [H0 H1].
    split; [done |]. rewrite ldb_stb. by replace (a + Z.of_nat i =? a + Z.of_nat n) with false by lia.
  - rewrite length_take, Nat.min_l by lia. cbn. by rewrite ldb_stb, Z.eqb_refl.
Qed.

(** One call of [strtok_r] on the rest of the string. *)
Lemma strtok_step (D cs : list Z) (m : mem) (p delim : Z) (fuel dfuel : nat) :
  cstr m p cs -> cstr m delim D -> 0 < p -> 0 < delim -> (length cs < fuel)%nat -> (length D < dfuel)%nat ->
  match drop_while (is_delim D) cs with
  | [] => strtok_r fuel dfuel m 0 delim p = Ret (0, m, 0)
  | rest => exists start m' save, strtok_r fuel dfuel m 0 delim p = Ret (start, m', save) /\
      let tok := take_while (fun c => negb (is_delim D c)) rest in
      let left := drop_while (fun c => negb (is_delim D c)) rest in
      start = p + Z.of_nat (length cs - length rest) /\ cstr m' start tok /\
      (forall i, i <> start + Z.of_nat (length tok) -> ldb m' i = ldb m i) /\
      (left = [] -> save = 0 /\ m' = m) /\
      (left <> [] -> save = start + Z.of_nat (length tok) + 1 /\ cstr m' save (tail left))
  end.
Proof.
  intros Hc HD Hp Hd Hf1 Hf2.
  assert (Hs1 : skip_while fuel dfuel m p delim true = Ret (p + Z.of_nat (length (take_while (is_delim D) cs)))).
  { rewrite (skip_while_spec D cs) by done. rewrite (take_while_ext _ (is_delim D)); [done |]. intros c. by destruct (is_delim D c). }
  pose proof (take_drop_while (is_delim D) cs) as Hsplit.
  set (lead := take_while (is_delim D) cs) in *. set (rest := drop_while (is_delim D) cs) in *.
  assert (Hlen : (length cs = length lead + length rest)%nat) by (rewrite <- Hsplit, length_app; lia).
  set (start := p + Z.of_nat (length lead)) in *.
  assert (Hrest : cstr m start rest).
  { rewrite <- (drop_app_length lead rest), Hsplit. apply cstr_drop; [done | lia]. }
  unfold strtok_r. cbn [Z.eqb]. replace (p =? 0) with false by lia. rewrite Hs1. cbn [obind].
  clearbody rest. destruct rest as [|c rest0]; [cbn in Hrest; by rewrite Hrest |].
  pose proof Hrest as (H0 & E0 & _). remember (c :: rest0) as rest eqn:Er. clear Er.
  rewrite E0. replace (c =? 0) with false by lia.
  assert (Hs2 : skip_while fuel dfuel m start delim false =
            Ret (start + Z.of_nat (length (take_while (fun c => negb (is_delim D c)) rest)))).
  { rewrite (skip_while_spec D rest) by (done || lia).
    rewrite (take_while_ext _ (fun c => negb (is_delim D c))); [done |]. intros x. by destruct (is_delim D x). }
  rewrite Hs2. cbn [obind].
  pose proof (take_drop_while (fun c => negb (is_delim D c)) rest) as Hsp2.
  set (tok := take_while (fun c => negb (is_delim D c)) rest) in *.
  set (left := drop_while (fun c => negb (is_delim D c)) rest) in *.
  assert (Hlen2 : (length rest = length tok + length left)%nat) by (rewrite <- Hsp2, length_app; lia).
  assert (Hleft : cstr m (start + Z.of_nat (length tok)) left).
  { rewrite <- (drop_app_length tok left), Hsp2. apply cstr_drop; [done | lia]. }
  assert (Hst : start = p + Z.of_nat (length cs - length rest)) by lia.
  clearbody left tok. destruct left as [|x left'].
  - cbn in Hleft. rewrite Hleft. cbn [Z.eqb negb]. exists start, m, 0. split; [done |]. split_and!; try done.
    rewrite app_nil_r in Hsp2. by rewrite Hsp2.
  - pose proof Hleft as (Hx & Ex & Hleft'). rewrite Ex. replace (x =? 0) with false by lia. cbn [negb].
    eexists start, _, _. split; [reflexivity |]. split_and!; try done.
    + pose proof (cstr_take m start rest (length tok) Hrest ltac:(lia)) as Ht.
      rewrite <- Hsp2, take_app_length in Ht. exact Ht.
    + intros i Hi. rewrite ldb_stb. by replace (i =? start + Z.of_nat (length tok)) with false by lia.
    + intros _. split; [done |]. cbn [tail]. eapply cstr_ext; [| exact Hleft'].
      intros i Hi. rewrite ldb_stb. by replace (i =? start + Z.of_nat (length tok)) with false by lia.
Qed.

(** The loop of a caller: the first call passes the string, the others NULL. *)
Fixpoint strtok_all (n fuel dfuel : nat) (m : mem) (str delim save : Z) : outcome (list Z * mem) :=
  (match n with
   | O => Crash
   | S n' =>
       do '(tok, m, save) <- strtok_r fuel dfuel m str delim save;
       if tok =? 0 then Ret ([], m)
       else do '(l, m) <- strtok_all n' fuel dfuel m 0 delim save; Ret (tok :: l, m)
   end)%out.

Lemma strtok_all_ok (n : nat) (D cs : list Z) (m : mem) (p delim : Z) (fuel dfuel : nat) :
  cstr m p cs -> cstr m delim D -> 0 < p -> 0 < delim -> (length cs < fuel)%nat -> (length D < dfuel)%nat ->
  delim + Z.of_nat (length D) < p \/ p + Z.of_nat (length cs) < delim -> (length cs < n)%nat ->
  exists l m', strtok_all n fuel dfuel m 0 delim p = Ret (l, m') /\ Forall2 (cstr m') l (tokens n D cs) /\
    forall i, i < p \/ p + Z.of_nat (length cs) < i -> ldb m' i = ldb m i.
Proof.
  revert m p cs. induction n as [|n IH]; intros m p cs Hc HD Hp Hd Hf1 Hf2 Hdis Hn; [lia |].
  cbn [strtok_all tokens]. pose proof (strtok_step D cs m p delim fuel dfuel Hc HD Hp Hd Hf1 Hf2) as Hs.
  pose proof (take_drop_while (is_delim D) cs) as Hsplit.
  set (rest := drop_while (is_delim D) cs) in *. clearbody rest.
  destruct rest as [|c rest0]; [rewrite Hs; exists [], m; by split_and! |].
  destruct Hs as (start & m1 & save & E & Hst & Htok & Hk & Hleft0 & Hleft1). rewrite E. cbn [obind].
  pose proof (take_drop_while (fun c => negb (is_delim D c)) (c :: rest0)) as Hsp2.
  assert (Hlen : (length (c :: rest0) <= length cs)%nat) by (rewrite <- Hsplit, length_app; lia).
  set (tok := take_while _ (c :: rest0)) in *. set (left := drop_while _ (c :: rest0)) in *.
  assert (Hlen2 : (length (c :: rest0) = length tok + length left)%nat) by (rewrite <- Hsp2, length_app; lia).
  clearbody tok left. replace (start =? 0) with false by lia.
  destruct left as [|x left].
  - destruct (Hleft0 eq_refl) as [-> ->]. destruct n as [|n]; [cbn [length] in Hlen, Hn; lia |].
    cbn [strtok_all strtok_r Z.eqb obind tokens drop_while]. exists [start], m. split_and!; [done | | done].
    by apply Forall2_cons.
  - destruct (Hleft1 ltac:(done)) as [-> Hc']. cbn [tail length] in *.
    assert (HD1 : cstr m1 delim D).
    { eapply cstr_ext; [| exact HD]. intros i Hi. apply Hk. lia. }
    destruct (IH m1 _ left Hc' HD1 ltac:(lia) Hd ltac:(lia) Hf2 ltac:(lia) ltac:(lia)) as (l & m' & E' & HF & Hk').
    rewrite E'. cbn [obind]. exists (start :: l), m'. split; [done |]. split.
    + apply Forall2_cons. split; [| done]. eapply cstr_ext; [| exact Htok]. intros i Hi. apply Hk'. lia.
    + intros i Hi. rewrite Hk' by lia. apply Hk. lia.
Qed.

(** Calling [strtok_r] until it returns NULL terminates and yields, in order, exactly
    the maximal runs of non-delimiter characters, each as a terminated string that stays
    intact to the end; nothing outside the string is written. *)
Theorem strtok_r_tokens (D cs : list Z) (m : mem) (a delim : Z) (fuel dfuel : nat) :
  cstr m a cs -> cstr m delim D -> 0 < a -> 0 < delim -> (length cs < fuel)%nat -> (length D < dfuel)%nat ->
  delim + Z.of_nat (length D) < a \/ a + Z.of_nat (length cs) < delim ->
  exists l m', strtok_all fuel fuel dfuel m a delim 0 = Ret (l, m') /\
    Forall2 (cstr m') l (tokens fuel D cs) /\
    forall i, i < a \/ a + Z.of_nat (length cs) < i -> ldb m' i = ldb m i.
Proof.
  intros Hc HD Ha Hd Hf1 Hf2 Hdis.
  destruct (strtok_all_ok fuel D cs m a delim fuel dfuel Hc HD Ha Hd Hf1 Hf2 Hdis Hf1) as (l & m' & E & H').
  exists l, m'. split; [| done]. rewrite <- E. destruct fuel as [|fuel]; [done |]. cbn [strtok_all].
  assert (Er : strtok_r (S fuel) dfuel m a delim 0 = strtok_r (S fuel) dfuel m 0 delim a).
  { unfold strtok_r. cbn [Z.eqb]. rewrite (proj2 (Z.eqb_neq a 0)) by lia. cbv zeta.
    by rewrite (proj2 (Z.eqb_neq a 0)) by lia. }
  by rewrite Er.
Qed.

(** The string "a//b" with the delimiter "/". *)
Lemma strtok_r_tokens_witness :
  let m := fun a => if a =? 100 then 97 else if (a =? 101) || (a =? 102) then 47 else if a =? 103 then 98
                    else if a =? 200 then 47 else 0 in
  exists l m', strtok_all 9 9 9 m 100 200 0 = Ret (l, m') /\ l = [100; 103] /\ Forall2 (cstr m') l [[97]; [98]].
Proof.
  intros m. destruct (strtok_r_tokens [47] [97; 47; 47; 98] m 100 200 9 9) as (l & m' & E & HF & _);
    [repeat split; reflexivity | repeat split; reflexivity | reflexivity | reflexivity | cbn; lia | cbn; lia | cbn; lia |].
  exists l, m'. split; [exact E |]. split; [| exact HF]. vm_compute in E. injection E as <- _. reflexivity.
Defined.
