(* ===== verification/Printf.v ===== *)
(** The formatter of src/libk/vsnprintf.c.  The first part translates the code: an
    output cursor that counts every character and stores those that fit, a parser of
    conversion specifications, and one branch per conversion.  The second part is a
    reference formatter on lists of characters, and the theorems that the code computes
    it, truncated to the buffer, and touches nothing but the buffer. *)

From Stdlib Require Import SpecFloat.
From S2P Require Import Prelude LibMem LibString.

(** * The code *)

(** [printf_state_t], with the memory it writes to. *)
Record printf_state := mk_ps {
  ps_mem : mem;
  ps_str : Z;
  ps_size : Z;
  written : Z
}.

Definition out_char (st : printf_state) (c : Z) : printf_state :=
  mk_ps (if written st <? ps_size st then stb (ps_mem st) (ps_str st + written st) c else ps_mem st)
    (ps_str st) (ps_size st) (u64 (written st + 1)).

(** [out_string] with [len = -1]: to the terminator.  The source string is read from the
    memory that is being written. *)
Fixpoint out_cstring (fuel : nat) (st : printf_state) (s : Z) : outcome printf_state :=
  match fuel with
  | O => Crash
  | S fuel' => if ldb (ps_mem st) s =? 0 then Ret st
               else out_cstring fuel' (out_char st (ldb (ps_mem st) s)) (s + 1)
  end.

(** [out_string] with a length, from a local array or a literal [a]. *)
Fixpoint out_string (n : nat) (st : printf_state) (a : mem) (s : Z) : printf_state :=
  match n with
  | O => st
  | S n' => out_string n' (out_char st (ldb a s)) a (s + 1)
  end.

(** [for (i = 0; i < n; i++) out_char(c)] *)
Fixpoint out_fill (n : nat) (st : printf_state) (c : Z) : printf_state :=
  match n with
  | O => st
  | S n' => out_fill n' (out_char st c) c
  end.

(** [for (i = 0; i < n && written < size; i++) out_char(c)] *)
Fixpoint out_pad (n : nat) (st : printf_state) (c : Z) : printf_state :=
  match n with
  | O => st
  | S n' => if written st <? ps_size st then out_pad n' (out_char st c) c else st
  end.

(** [digits_lower] and [digits_upper] *)
Definition hex_digit (upper : bool) (d : Z) : Z :=
  if d <? 10 then 48 + d else if upper then 55 + d else 87 + d.

Fixpoint itoa_digits (fuel : nat) (b : mem) (p num base : Z) (upper : bool) : outcome (mem * Z) :=
  match fuel with
  | O => Crash
  | S fuel' =>
      if 0 <? num
      then itoa_digits fuel' (stb b p (hex_digit upper (num mod base))) (p + 1) (num / base) base upper
      else Ret (b, p)
  end.

Fixpoint out_reverse (fuel : nat) (b : mem) (start end_ : Z) : outcome mem :=
  if negb (start <? end_) then Ret b
  else match fuel with
       | O => Crash
       | S fuel' =>
           let tmp := ldb b start in
           let b := stb b start (ldb b end_) in
           let b := stb b end_ tmp in
           out_reverse fuel' b (start + 1) (end_ - 1)
       end.

(** [itoa_base] on the caller's local array, a memory of its own at address 0: a 64-bit
    number has at most 64 digits. *)
Definition itoa_base (num base : Z) (upper : bool) : outcome mem :=
  (let buf : mem := fun _ => 0 in
   do '(b, p) <- (if num =? 0 then Ret (stb buf 0 48, 1) else itoa_digits 65 buf 0 num base upper);
   let b := stb b p 0 in
   out_reverse 33 b 0 (p - 1))%out.

Definition out_num (st : printf_state) (num base width : Z) (zero_pad upper negative : bool)
    : outcome printf_state :=
  (do b <- itoa_base num base upper;
   do num_len <- strlen 66 b 0;
   let sign_len := if negative then 1 else 0 in
   let total_len := num_len + sign_len in
   let pad := if total_len <? width then width - total_len else 0 in
   let st := if negative then out_char st 45 else st in
   let st := out_fill (Z.to_nat pad) st (if zero_pad then 48 else 32) in
   Ret (out_string (Z.to_nat num_len) st b 0))%out.

(** A variadic argument: an integer or pointer in a 64-bit slot, or a double.  Reading one
    as the other, or past the last, is undefined. *)
Inductive va := VInt (z : Z) | VDouble (f : spec_float).

Definition va_int (args : list va) : outcome (Z * list va) :=
  match args with VInt z :: args' => Ret (z, args') | _ => Crash end.

Definition va_double (args : list va) : outcome (spec_float * list va) :=
  match args with VDouble f :: args' => Ret (f, args') | _ => Crash end.

(** The length modifiers; at most one of the source's four flags is set. *)
Inductive modifier := NoMod | IsLong | IsLongLong | IsShort | IsChar.

Record spec := mk_spec {
  left_align : bool; zero_pad : bool; width : Z; precision : Z; length_mod : modifier
}.

Fixpoint parse_number (fuel : nat) (m : mem) (fmt v : Z) : outcome (Z * Z) :=
  match fuel with
  | O => Crash
  | S fuel' =>
      if (48 <=? ldb m fmt) && (ldb m fmt <=? 57)
      then parse_number fuel' m (fmt + 1) (i32 (v * 10 + (ldb m fmt - 48)))
      else Ret (v, fmt)
  end.

Definition parse_modifier (m : mem) (fmt : Z) : modifier * Z :=
  if ldb m fmt =? 104 then
    if ldb m (fmt + 1) =? 104 then (IsChar, fmt + 2) else (IsShort, fmt + 1)
  else if ldb m fmt =? 108 then
    if ldb m (fmt + 1) =? 108 then (IsLongLong, fmt + 2) else (IsLong, fmt + 1)
  else if ldb m fmt =? 122 then (IsLong, fmt + 1)
  else (NoMod, fmt).

(** Flags, width, precision and length, from the character after the percent sign. *)
Definition parse_spec (fuel : nat) (m : mem) (fmt : Z) : outcome (spec * Z) :=
  (let left := ldb m fmt =? 45 in
   let fmt := if left then fmt + 1 else fmt in
   let zero := ldb m fmt =? 48 in
   let fmt := if zero then fmt + 1 else fmt in
   do '(w, fmt) <- parse_number fuel m fmt 0;
   do '(prec, fmt) <- (if ldb m fmt =? 46 then parse_number fuel m (fmt + 1) 0 else Ret (-1, fmt));
   let '(md, fmt) := parse_modifier m fmt in
   Ret (mk_spec left zero w prec md, fmt))%out.

(** The value a signed and an unsigned conversion read from a slot. *)
Definition signed_arg (md : modifier) (z : Z) : Z :=
  match md with
  | IsLong | IsLongLong => i64 z
  | IsShort => swrap 16 z
  | IsChar => i8 z
  | NoMod => i32 z
  end.

Definition unsigned_arg (md : modifier) (z : Z) : Z :=
  match md with
  | IsLong | IsLongLong => u64 z
  | IsShort => u16 z
  | IsChar => u8 z
  | NoMod => u32 z
  end.

(** Doubles: IEEE binary64.  The conversion to [int] truncates; out of range it is
    undefined. *)
Definition dprec : Z := 53.
Definition demax : Z := 1024.
Definition d_of_Z (z : Z) : spec_float := binary_normalize dprec demax z 0 false.
Definition d_half : spec_float := SFdiv dprec demax (d_of_Z 1) (d_of_Z 2).

Definition d_trunc (f : spec_float) : option Z :=
  match f with
  | S754_zero _ => Some 0
  | S754_finite s mt e =>
      let a := if 0 <=? e then Z.pos mt * 2 ^ e else Z.pos mt / 2 ^ (- e) in
      Some (if s then - a else a)
  | _ => None
  end.

Definition d_to_int (f : spec_float) : outcome Z :=
  match d_trunc f with
  | Some z => if (- 2 ^ 31 <=? z) && (z <? 2 ^ 31) then Ret z else Crash
  | None => Crash
  end.

Definition d_multiplier (prec : Z) : spec_float :=
  for_range (Z.to_nat prec) (fun _ x => SFmul dprec demax x (d_of_Z 10)) (d_of_Z 1).

(** The integer part, the digits of the fraction and their number, of a [%f]. *)
Definition split_double (n : spec_float) (prec : Z) : outcome (Z * Z) :=
  (do int_part <- d_to_int n;
   let frac := SFsub dprec demax n (d_of_Z int_part) in
   let frac := if SFltb frac (S754_zero false) then SFopp frac else frac in
   let multiplier := d_multiplier prec in
   do frac_part <- d_to_int (SFadd dprec demax (SFmul dprec demax frac multiplier) d_half);
   do im <- d_to_int multiplier;
   if im <=? frac_part then Ret (i32 (int_part + 1), 0) else Ret (int_part, frac_part))%out.

Definition print_double (st : printf_state) (n : spec_float) (precision : Z) : outcome printf_state :=
  (let prec := if precision <? 0 then 2 else precision in
   do '(int_part, frac_part) <- split_double n prec;
   do int_str <- itoa_base (u64 (if int_part <? 0 then i32 (- int_part) else int_part)) 10 false;
   do int_len <- strlen 66 int_str 0;
   let st := if int_part <? 0 then out_char st 45 else st in
   let st := out_string (Z.to_nat int_len) st int_str 0 in
   let st := out_char st 46 in
   do frac_str <- itoa_base (u64 frac_part) 10 false;
   do frac_len <- strlen 66 frac_str 0;
   let st := out_fill (Z.to_nat (prec - frac_len)) st 48 in
   Ret (out_string (Z.to_nat frac_len) st frac_str 0))%out.

(** The literal "(null)" and "0x", as arrays of their own. *)
Definition literal (cs : list Z) : mem := fun a => get cs a.
Definition NULL_TEXT : list Z := [40; 110; 117; 108; 108; 41].

(** [%s] *)
Definition print_string (fuel : nat) (st : printf_state) (sp : spec) (s : Z) : outcome printf_state :=
  (do len <- (if s =? 0 then Ret 6 else strlen fuel (ps_mem st) s);
   let n := Z.to_nat (width sp - len) in
   let st := if left_align sp then st else out_pad n st 32 in
   do st <- (if s =? 0 then Ret (out_string 6 st (literal NULL_TEXT) 0) else out_cstring fuel st s);
   Ret (if left_align sp then out_pad n st 32 else st))%out.

(** [%c] *)
Definition print_char (st : printf_state) (sp : spec) (c : Z) : printf_state :=
  let n := Z.to_nat (width sp - 1) in
  let st := if left_align sp then st else out_pad n st 32 in
  let st := out_char st (u8 c) in
  if left_align sp then out_pad n st 32 else st.

(** [%d]: the magnitude is computed in unsigned arithmetic; the width is reduced by one
    for the sign here, and [out_num] reduces it again. *)
Definition print_signed (st : printf_state) (sp : spec) (z : Z) : outcome printf_state :=
  let n := signed_arg (length_mod sp) z in
  let negative := n <? 0 in
  let un := if negative then u64 (- u64 n) else u64 n in
  let width := if negative then i32 (width sp - 1) else width sp in
  out_num st un 10 width (zero_pad sp) false negative.

Definition print_unsigned (st : printf_state) (sp : spec) (z base : Z) (upper : bool) : outcome printf_state :=
  out_num st (unsigned_arg (length_mod sp) z) base (width sp) (zero_pad sp) upper false.

(** One conversion: the character at [fmt] selects the branch. *)
Definition convert (fuel : nat) (st : printf_state) (sp : spec) (fmt : Z) (args : list va)
    : outcome (printf_state * Z * list va) :=
  (let c := ldb (ps_mem st) fmt in
   if c =? 115 then
     do '(s, args) <- va_int args; do st <- print_string fuel st sp (u64 s); Ret (st, fmt + 1, args)
   else if c =? 99 then
     do '(z, args) <- va_int args; Ret (print_char st sp z, fmt + 1, args)
   else if (c =? 100) || (c =? 105) then
     do '(z, args) <- va_int args; do st <- print_signed st sp z; Ret (st, fmt + 1, args)
   else if c =? 102 then
     do '(f, args) <- va_double args; do st <- print_double st f (precision sp); Ret (st, fmt + 1, args)
   else if c =? 117 then
     do '(z, args) <- va_int args; do st <- print_unsigned st sp z 10 false; Ret (st, fmt + 1, args)
   else if (c =? 120) || (c =? 88) then
     do '(z, args) <- va_int args; do st <- print_unsigned st sp z 16 (c =? 88); Ret (st, fmt + 1, args)
   else if c =? 112 then
     do '(z, args) <- va_int args;
     let st := out_string 2 st (literal [48; 120]) 0 in
     do st <- out_num st (u64 z) 16 16 true false false; Ret (st, fmt + 1, args)
   else if c =? 37 then Ret (out_char st 37, fmt + 1, args)
   else
     let st := out_char st 37 in
     if c =? 0 then Ret (st, fmt, args)
     else Ret (out_char st (ldb (ps_mem st) fmt), fmt + 1, args))%out.

(** The loop over the format. *)
Fixpoint format_loop (n fuel : nat) (st : printf_state) (fmt : Z) (args : list va)
    : outcome printf_state :=
  (match n with
   | O => Crash
   | S n' =>
       let c := ldb (ps_mem st) fmt in
       if (c =? 0) || negb (written st <? ps_size st) then Ret st
       else if negb (c =? 37) then format_loop n' fuel (out_char st c) (fmt + 1) args
       else
         do '(sp, fmt) <- parse_spec fuel (ps_mem st) (fmt + 1);
         do '(st, fmt, args) <- convert fuel st sp fmt args;
         format_loop n' fuel st fmt args
   end)%out.

Definition vsnprintf (fuel : nat) (m : mem) (str size fmt : Z) (args : list va) : outcome (Z * mem) :=
  (if size =? 0 then Ret (0, m)
   else
     do st <- format_loop fuel fuel (mk_ps m str size 0) fmt args;
     let m := if written st <? size then stb (ps_mem st) (str + written st) 0
              else stb (ps_mem st) (str + (size - 1)) 0 in
     Ret (i32 (written st), m))%out.

Definition snprintf := vsnprintf.
Definition sprintf (fuel : nat) (m : mem) (str fmt : Z) (args : list va) : outcome (Z * mem) :=
  vsnprintf fuel m str 0x7FFFFFFF fmt args.

(** * A reference formatter on lists of characters *)

(** The digits of [n], highest first. *)
Fixpoint digits_of (fuel : nat) (base n : Z) : list Z :=
  match fuel with
  | O => []
  | S fuel' => if n <? base then [n] else digits_of fuel' base (n / base) ++ [n mod base]
  end.

Definition number_text (base n : Z) (upper : bool) : list Z :=
  hex_digit upper <$> digits_of 64 base n.

Definition fill (n : Z) (c : Z) : list Z := replicate (Z.to_nat n) c.

(** What [out_num] prints: sign, padding, digits. *)
Definition number_field (n base width : Z) (zero upper negative : bool) : list Z :=
  let ds := number_text base n upper in
  let sign := if negative then [45] else [] in
  sign ++ fill (width - Z.of_nat (length (sign ++ ds))) (if zero then 48 else 32) ++ ds.

(** A text padded to a width, on the right with the flag [-]. *)
Definition text_field (sp : spec) (cs : list Z) : list Z :=
  let pad := fill (width sp - Z.of_nat (length cs)) 32 in
  if left_align sp then cs ++ pad else pad ++ cs.

(** What [%d] prints; the width of a negative number is one less than asked for. *)
Definition signed_field (sp : spec) (z : Z) : list Z :=
  let n := signed_arg (length_mod sp) z in
  if n <? 0 then number_field (- n) 10 (i32 (width sp - 1)) (zero_pad sp) false true
  else number_field n 10 (width sp) (zero_pad sp) false false.

Definition unsigned_field (sp : spec) (z base : Z) (upper : bool) : list Z :=
  number_field (unsigned_arg (length_mod sp) z) base (width sp) (zero_pad sp) upper false.

Definition double_text (f : spec_float) (precision : Z) : option (list Z) :=
  let prec := if precision <? 0 then 2 else precision in
  match split_double f prec with
  | Ret (i, fr) =>
      let it := number_text 10 (u64 (if i <? 0 then i32 (- i) else i)) false in
      let ft := number_text 10 (u64 fr) false in
      Some ((if i <? 0 then [45] else []) ++ it ++ [46] ++ fill (prec - Z.of_nat (length ft)) 48 ++ ft)
  | _ => None
  end.

Fixpoint take_number (cs : list Z) (v : Z) : Z * list Z :=
  match cs with
  | c :: cs' => if (48 <=? c) && (c <=? 57) then take_number cs' (i32 (v * 10 + (c - 48))) else (v, cs)
  | [] => (v, [])
  end.

Definition take_flag (c : Z) (cs : list Z) : bool * list Z :=
  match cs with
  | d :: cs' => if d =? c then (true, cs') else (false, cs)
  | [] => (false, [])
  end.

(** [x] and, when it is doubled, [xx]. *)
Definition take_modifier (cs : list Z) : modifier * list Z :=
  let '(h, cs1) := take_flag 104 cs in
  let '(hh, cs2) := take_flag 104 cs1 in
  let '(l, cs3) := take_flag 108 cs in
  let '(ll, cs4) := take_flag 108 cs3 in
  let '(z, cs5) := take_flag 122 cs in
  if h then (if hh then (IsChar, cs2) else (IsShort, cs1))
  else if l then (if ll then (IsLongLong, cs4) else (IsLong, cs3))
  else if z then (IsLong, cs5) else (NoMod, cs).

Definition take_spec (cs : list Z) : spec * list Z :=
  let '(la, cs) := take_flag 45 cs in
  let '(zero, cs) := take_flag 48 cs in
  let '(w, cs) := take_number cs 0 in
  let '(dot, cs) := take_flag 46 cs in
  let '(prec, cs) := if dot then take_number cs 0 else (-1, cs) in
  let '(md, cs) := take_modifier cs in
  (mk_spec la zero w prec md, cs).

Section reference.
(** The strings that pointer arguments denote. *)
Context (strs : Z -> option (list Z)).

(** The text of the conversion named by a character, and the arguments left. *)
Definition conversion (sp : spec) (c : Z) (args : list va) : option (list Z * list va) :=
  let int_conv (text : Z -> option (list Z)) :=
    match args with
    | VInt z :: args' => match text z with Some x => Some (x, args') | None => None end
    | _ => None
    end in
  if c =? 115 then
    int_conv (fun s => if u64 s =? 0 then Some (text_field sp NULL_TEXT)
                       else match strs (u64 s) with Some cs => Some (text_field sp cs) | None => None end)
  else if c =? 99 then int_conv (fun z => Some (text_field sp [u8 z]))
  else if (c =? 100) || (c =? 105) then int_conv (fun z => Some (signed_field sp z))
  else if c =? 102 then
    match args with
    | VDouble f :: args' =>
        match double_text f (precision sp) with Some x => Some (x, args') | None => None end
    | _ => None
    end
  else if c =? 117 then int_conv (fun z => Some (unsigned_field sp z 10 false))
  else if (c =? 120) || (c =? 88) then int_conv (fun z => Some (unsigned_field sp z 16 (c =? 88)))
  else if c =? 112 then int_conv (fun z => Some ([48; 120] ++ number_field (u64 z) 16 16 true false false))
  else if c =? 37 then Some ([37], args)
  else Some ([37; c], args).

(** A number as the C standard asks for it: padded on the right with the flag [-], else
    with zeros between the sign and the digits with the flag [0], else on the left. *)
Definition c_number (sp : spec) (n base : Z) (upper negative : bool) : list Z :=
  let ds := number_text base n upper in
  let sign := if negative then [45] else [] in
  let pad := width sp - Z.of_nat (length (sign ++ ds)) in
  if left_align sp then sign ++ ds ++ fill pad 32
  else if zero_pad sp then sign ++ fill pad 48 ++ ds
  else fill pad 32 ++ sign ++ ds.

(** Where the code keeps to it: no precision, and either nothing to pad or a number that is
    not negative, without the flag [-]. *)
Definition honoured (sp : spec) (n base : Z) (upper negative : bool) : bool :=
  let len := Z.of_nat (length ((if negative then [45] else []) ++ number_text base n upper)) in
  (precision sp <? 0) && (0 <=? width sp) && ((width sp <=? len) || negb (left_align sp) && negb negative).

Definition c_number_field (sp : spec) (n base : Z) (upper negative : bool) : option (list Z) :=
  if honoured sp n base upper negative then Some (c_number sp n base upper negative) else None.

Definition not_negative (f : spec_float) : bool :=
  match f with S754_zero false | S754_finite false _ _ => true | _ => false end.

(** The text of a conversion by the C standard, for the conversions of the code; undefined
    where the code departs from it. *)
Definition c_conversion (sp : spec) (c : Z) (args : list va) : option (list Z * list va) :=
  let number (text : Z -> option (list Z)) :=
    match args with
    | VInt z :: args' => match text z with Some x => Some (x, args') | None => None end
    | _ => None
    end in
  let unsigned base upper :=
    number (fun z => c_number_field sp (unsigned_arg (length_mod sp) z) base upper false) in
  if (c =? 115) || (c =? 99) then if precision sp <? 0 then conversion sp c args else None
  else if (c =? 100) || (c =? 105) then
    number (fun z => let n := signed_arg (length_mod sp) z in c_number_field sp (Z.abs n) 10 false (n <? 0))
  else if c =? 102 then
    match args with
    | VDouble f :: _ => if (width sp =? 0) && not_negative f then conversion sp c args else None
    | _ => None
    end
  else if c =? 117 then unsigned 10 false
  else if (c =? 120) || (c =? 88) then unsigned 16 (c =? 88)
  else conversion sp c args.

(** The text of a format, given that of a conversion.  Every step consumes a character, so
    the length of the format bounds the steps. *)
Fixpoint format_with (conv : spec -> Z -> list va -> option (list Z * list va)) (n : nat) (cs : list Z) (args : list va)
    : option (list Z) :=
  match n, cs with
  | _, [] => Some []
  | O, _ => None
  | S n', c :: cs' =>
      if negb (c =? 37) then cons c <$> format_with conv n' cs' args
      else match take_spec cs' with
           | (_, []) => Some [37]
           | (sp, d :: rest) =>
               match conv sp d args with
               | Some (x, args') => app x <$> format_with conv n' rest args'
               | None => None
               end
           end
  end.

(** What the code prints, and what the standard asks for. *)
Definition format (cs : list Z) (args : list va) : option (list Z) := format_with conversion (length cs) cs args.
Definition c_format (cs : list Z) (args : list va) : option (list Z) := format_with c_conversion (length cs) cs args.

End reference.

(** * Digits *)

Lemma hex_digit_fits (upper : bool) (d : Z) : 0 <= d < 16 -> 0 < hex_digit upper d < 256.
Proof. intros Hd. unfold hex_digit. destruct (Z.ltb_spec d 10), upper; lia. Qed.

Lemma digits_of_bound (fuel : nat) (base n : Z) :
  2 <= base -> 0 <= n -> Forall (fun d => 0 <= d < base) (digits_of fuel base n).
Proof.
  intros Hb. revert n. induction fuel as [|fuel IH]; intros n Hn; cbn [digits_of]; [constructor |].
  destruct (Z.ltb_spec n base) as [H | H]; [by apply Forall_singleton |].
  apply Forall_app. split; [apply IH, Z.div_pos; lia |].
  apply Forall_singleton, Z.mod_pos_bound. lia.
Qed.

Lemma digits_of_length (fuel : nat) (base n : Z) : (length (digits_of fuel base n) <= fuel)%nat.
Proof.
  revert n. induction fuel as [|fuel IH]; intros n; cbn [digits_of]; [done |].
  destruct (n <? base); cbn [length]; [lia |]. rewrite length_app. cbn. specialize (IH (n / base)). lia.
Qed.

(** The digits denote the number. *)
Lemma digits_of_value (fuel : nat) (base n : Z) :
  2 <= base -> 0 <= n < base ^ Z.of_nat fuel -> digits_value base (digits_of fuel base n) = n.
Proof.
  intros Hb. revert n. induction fuel as [|fuel IH]; intros n Hn; cbn [digits_of].
  { cbn in Hn. cbn. lia. }
  destruct (Z.ltb_spec n base) as [H | H]; [cbn; lia |].
  unfold digits_value in *. rewrite fold_left_app. cbn [fold_left]. rewrite IH.
  - pose proof (Z.div_mod n base ltac:(lia)). lia.
  - split; [apply Z.div_pos; lia |]. apply Z.div_lt_upper_bound; [lia |].
    rewrite Nat2Z.inj_succ, Z.pow_succ_r in Hn by lia. lia.
Qed.

Lemma number_text_length (base n : Z) (upper : bool) : (length (number_text base n upper) <= 64)%nat.
Proof. unfold number_text. rewrite length_fmap. apply digits_of_length. Qed.

(** Where it is defined, the standard's text is what the code prints. *)
Lemma c_number_printed (sp : spec) (n base : Z) (upper negative : bool) :
  honoured sp n base upper negative = true ->
  c_number sp n base upper negative = number_field n base (width sp) (zero_pad sp) upper negative.
Proof.
  unfold honoured, c_number, number_field. set (ds := number_text base n upper). cbv zeta. rewrite !andb_true_iff, orb_true_iff, andb_true_iff, !negb_true_iff.
  intros [[_ _] [Hw | [-> ->]]].
  - apply Z.leb_le in Hw. unfold fill. rewrite (Z2Nat.nonpos (width sp - _)) by (revert Hw; generalize (length ((if negative then [45] else []) ++ ds)); lia). cbn [replicate]. rewrite !app_nil_r, !app_nil_l. by destruct (left_align sp), (zero_pad sp).
  - by destruct (zero_pad sp).
Qed.

Lemma c_number_signed (sp : spec) (z : Z) :
  let n := signed_arg (length_mod sp) z in
  honoured sp (Z.abs n) 10 false (n <? 0) = true -> c_number sp (Z.abs n) 10 false (n <? 0) = signed_field sp z.
Proof.
  intros n Hh. rewrite c_number_printed by done. unfold signed_field. fold n.
  destruct (Z.ltb_spec n 0) as [Hn | Hn]; [| by rewrite Z.abs_eq by done]. rewrite Z.abs_neq by lia.
  unfold number_field, honoured in *. rewrite Z.abs_neq in Hh by lia. pose proof (number_text_length 10 (- n) false) as Hd.
  set (ds := number_text 10 (- n) false) in *. rewrite !andb_true_iff, orb_true_iff, andb_true_iff in Hh.
  destruct Hh as [[_ Hp] [Hl | [_ [=]]]]. rewrite length_app in *. cbn [length] in *.
  assert (Hi : i32 (width sp - 1) = width sp - 1).
  { destruct (decide (width sp = 0)) as [-> | Hw]; [done | apply swrap_small; lia]. }
  rewrite Hi. unfold fill. by replace (Z.to_nat (width sp - _)) with (Z.to_nat (width sp - 1 - Z.of_nat (1 + length ds))) by lia.
Qed.

Lemma c_conversion_printed (strs : Z -> option (list Z)) (sp : spec) (c : Z) (args : list va) r :
  c_conversion strs sp c args = Some r -> conversion strs sp c args = Some r.
Proof.
  intros E. unfold c_conversion, c_number_field in E. unfold conversion in *.
  destruct (c =? 115); cbn [orb] in *; [by destruct (precision sp <? 0) |].
  destruct (c =? 99); [by destruct (precision sp <? 0) |].
  destruct ((c =? 100) || (c =? 105)).
  { destruct args as [|[z|] args]; try done. cbv zeta in E. destruct (honoured _ _ _ _ _) eqn:Eh; [| done]. by rewrite c_number_signed in E. }
  destruct (c =? 102); [destruct args as [|[z|g] args]; try done; by destruct ((width sp =? 0) && not_negative g) |].
  destruct (c =? 117).
  { destruct args as [|[z|] args]; try done. destruct (honoured _ _ _ _ _) eqn:Eh; [| done]. by rewrite c_number_printed in E. }
  destruct ((c =? 120) || (c =? 88)); [| done].
  destruct args as [|[z|] args]; try done. destruct (honoured _ _ _ _ _) eqn:Eh; [| done]. by rewrite c_number_printed in E.
Qed.

Lemma c_format_printed (strs : Z -> option (list Z)) (cs : list Z) (args : list va) (out : list Z) :
  c_format strs cs args = Some out -> format strs cs args = Some out.
Proof.
  unfold c_format, format. generalize (length cs) as n. intros n. revert cs args out.
  induction n as [|n IH]; intros [|c cs] args out E; try done. cbn [format_with] in *. destruct (negb (c =? 37)).
  { apply fmap_Some in E as (y & Hy & ->). by rewrite (IH _ _ _ Hy). }
  destruct (take_spec cs) as [sp [|d rest]]; [done |]. destruct (c_conversion strs sp d args) as [[x args'] |] eqn:Ec; [| done].
  rewrite (c_conversion_printed _ _ _ _ _ Ec). apply fmap_Some in E as (y & Hy & ->). by rewrite (IH _ _ _ Hy).
Qed.

Lemma number_text_fits (base n : Z) (upper : bool) :
  2 <= base <= 16 -> 0 <= n -> Forall (fun c => 0 < c < 256) (number_text base n upper).
Proof.
  intros Hb Hn. unfold number_text. apply Forall_fmap.
  eapply Forall_impl; [apply digits_of_bound; lia |]. intros d Hd. cbn beta in Hd. apply hex_digit_fits. lia.
Qed.

(** The loop of [itoa_base] stores the digits lowest first. *)
Lemma itoa_digits_spec (fuel : nat) (b : mem) (p n base : Z) (upper : bool) :
  2 <= base <= 16 -> 0 < n < base ^ Z.of_nat fuel ->
  let ds := digits_of fuel base n in
  exists b', itoa_digits (S fuel) b p n base upper = Ret (b', p + Z.of_nat (length ds)) /\
    (forall i d, reverse ds !! i = Some d -> ldb b' (p + Z.of_nat i) = hex_digit upper d) /\
    (forall i, i < p -> ldb b' i = ldb b i).
Proof.
  intros Hb. revert b p n. induction fuel as [|fuel IH]; intros b p n Hn; [cbn in Hn; lia |].
  cbn zeta. set (b1 := stb b p (hex_digit upper (n mod base))).
  assert (Hm : 0 <= n mod base < base) by (apply Z.mod_pos_bound; lia).
  assert (Hb1 : ldb b1 p = hex_digit upper (n mod base)).
  { unfold b1. rewrite ldb_stb, Z.eqb_refl. apply wrap_small.
    pose proof (hex_digit_fits upper (n mod base) ltac:(lia)). split; lia. }
  assert (Hb1' : forall i, i < p -> ldb b1 i = ldb b i).
  { intros i Hi. unfold b1. rewrite ldb_stb. by replace (i =? p) with false by lia. }
  change (itoa_digits (S (S fuel)) b p n base upper)
    with (if 0 <? n then itoa_digits (S fuel) b1 (p + 1) (n / base) base upper else Ret (b, p)).
  replace (0 <? n) with true by lia. cbn [digits_of].
  destruct (Z.ltb_spec n base) as [H | H].
  - rewrite Z.div_small by lia. exists b1. split; [cbn; do 2 f_equal; lia |]. split; [| done].
    intros [|i] d Hd; [| done]. injection Hd as <-. rewrite Z.mod_small in Hb1 by lia.
    by replace (p + Z.of_nat 0) with p by lia.
  - destruct (IH b1 (p + 1) (n / base)) as (b' & E & Hd & Hk).
    { split; [apply Z.div_str_pos; lia |]. apply Z.div_lt_upper_bound; [lia |].
      rewrite Nat2Z.inj_succ, Z.pow_succ_r in Hn by lia. lia. }
    exists b'. rewrite length_app, reverse_app. cbn [length]. split; [rewrite E; do 2 f_equal; lia |]. split.
    + intros [|i] d Hi.
      * injection Hi as <-. rewrite Z.add_0_r. rewrite Hk by lia. done.
      * replace (p + Z.of_nat (S i)) with (p + 1 + Z.of_nat i) by lia. by apply Hd.
    + intros i Hi. rewrite Hk by lia. apply Hb1'. lia.
Qed.

Lemma out_reverse_spec (fuel : nat) (b : mem) (s e : Z) :
  e - s < 2 * Z.of_nat fuel + 1 ->
  exists b', out_reverse fuel b s e = Ret b' /\
    (forall i, s <= i <= e -> ldb b' i = ldb b (s + e - i)) /\
    (forall i, i < s \/ e < i -> ldb b' i = ldb b i).
Proof.
  revert b s e. induction fuel as [|fuel IH]; intros b s e Hf; cbn [out_reverse].
  - replace (s <? e) with false by lia. exists b. split; [done |]. split; [| done]. intros i Hi. f_equal. lia.
  - destruct (Z.ltb_spec s e) as [Hlt | Hge]; cbn [negb].
    2: { exists b. split; [done |]. split; [| done]. intros i Hi. f_equal. lia. }
    set (b1 := stb (stb b s (ldb b e)) e (ldb b s)).
    assert (Hb1 : forall i, ldb b1 i = if i =? e then ldb b s else if i =? s then ldb b e else ldb b i).
    { intros i. unfold b1. by rewrite !ldb_stb, !(wrap_small 8) by apply ldb_fits. }
    destruct (IH b1 (s + 1) (e - 1) ltac:(lia)) as (b' & E & Hr & Hk).
    exists b'. split; [exact E |]. split.
    + intros i Hi. destruct (decide (i = s \/ i = e)) as [Hse | Hn].
      * rewrite Hk, Hb1 by lia. destruct Hse as [-> | ->]; range_cases; f_equal; lia.
      * rewrite Hr, Hb1 by lia. replace (s + 1 + (e - 1) - i) with (s + e - i) by lia. range_cases.
    + intros i Hi. rewrite Hk, Hb1 by lia. range_cases.
Qed.

Lemma cstr_of_lookup (m : mem) (a : Z) (cs : list Z) :
  (forall i c, cs !! i = Some c -> 0 < c < 256 /\ ldb m (a + Z.of_nat i) = c) ->
  ldb m (a + Z.of_nat (length cs)) = 0 -> cstr m a cs.
Proof. intros H1 H2. rewrite <- (app_nil_r cs). apply cstr_app; done. Qed.

Lemma itoa_base_ok (n base : Z) (upper : bool) :
  2 <= base <= 16 -> 0 <= n < 2 ^ 64 ->
  exists b, itoa_base n base upper = Ret b /\ cstr b 0 (number_text base n upper).
Proof.
  intros Hb Hn. unfold itoa_base. set (buf := (fun _ : Z => 0) : mem). set (ds := digits_of 64 base n).
  assert (exists b', (if n =? 0 then Ret (stb buf 0 48, 1) else itoa_digits 65 buf 0 n base upper)
            = Ret (b', Z.of_nat (length ds)) /\
          forall i d, reverse ds !! i = Some d -> ldb b' (Z.of_nat i) = hex_digit upper d) as (b1 & -> & Hd).
  { destruct (Z.eqb_spec n 0) as [-> | Hne].
    - assert (ds = [0]) as -> by (unfold ds; cbn [digits_of]; by replace (0 <? base) with true by lia).
      eexists. split; [reflexivity |]. intros [|i] d Hi; [| done]. by injection Hi as <-.
    - destruct (itoa_digits_spec 64 buf 0 n base upper Hb) as (b' & E & Hd & _).
      { split; [lia |]. eapply Z.lt_le_trans; [apply Hn |]. apply Z.pow_le_mono_l. lia. }
      exists b'. split; [exact E |]. exact Hd. }
  cbn [obind]. set (k := Z.of_nat (length ds)) in *.
  assert (Hk : 0 <= k <= 64) by (unfold k; pose proof (digits_of_length 64 base n); unfold ds; lia).
  destruct (out_reverse_spec 33 (stb b1 k 0) 0 (k - 1) ltac:(lia)) as (b & E & Hr & Ho).
  exists b. split; [exact E |]. apply cstr_of_lookup.
  - intros i c Hi. pose proof (Forall_lookup_1 _ _ _ _ (number_text_fits base n upper Hb (proj1 Hn)) Hi) as Hc.
    split; [exact Hc |]. unfold number_text in Hi. rewrite list_lookup_fmap in Hi. apply fmap_Some in Hi as (d & Hdi & ->).
    pose proof (lookup_lt_Some _ _ _ Hdi) as Hlt. fold ds in Hdi, Hlt.
    rewrite Z.add_0_l, Hr, ldb_stb by lia. replace (0 + (k - 1) - Z.of_nat i =? k) with false by lia.
    replace (0 + (k - 1) - Z.of_nat i) with (Z.of_nat (length ds - 1 - i)) by lia.
    apply Hd. rewrite reverse_lookup by lia. rewrite <- Hdi. f_equal. lia.
  - unfold number_text. rewrite length_fmap. fold ds. rewrite Z.add_0_l. fold k.
    rewrite Ho, ldb_stb, Z.eqb_refl by lia. done.
Qed.

(** * Parsing *)

(** A cursor moved forward inside one string. *)
Definition advance (m : mem) (p : Z) (cs : list Z) (p' : Z) (cs' : list Z) : Prop :=
  cstr m p' cs' /\ p' + Z.of_nat (length cs') = p + Z.of_nat (length cs) /\ (length cs' <= length cs)%nat.

Lemma advance_refl (m : mem) (p : Z) (cs : list Z) : cstr m p cs -> advance m p cs p cs.
Proof. by repeat split. Qed.

Lemma advance_trans (m : mem) (p1 p2 p3 : Z) (c1 c2 c3 : list Z) :
  advance m p1 c1 p2 c2 -> advance m p2 c2 p3 c3 -> advance m p1 c1 p3 c3.
Proof. intros (_ & ? & ?) (? & ? & ?). split; [done | lia]. Qed.

Lemma advance_cons (m : mem) (p c : Z) (cs : list Z) : cstr m p (c :: cs) -> advance m p (c :: cs) (p + 1) cs.
Proof. intros (_ & _ & H). split; [done | cbn [length]; lia]. Qed.

Lemma take_flag_spec (m : mem) (p c : Z) (cs : list Z) :
  c <> 0 -> cstr m p cs ->
  (ldb m p =? c) = (take_flag c cs).1 /\
  advance m p cs (if ldb m p =? c then p + 1 else p) (take_flag c cs).2.
Proof.
  intros Hc Hs. destruct cs as [|d cs]; cbn [take_flag].
  - cbn in Hs. rewrite Hs. replace (0 =? c) with false by lia. split; [done |]. by apply advance_refl.
  - pose proof (advance_cons m p d cs Hs) as Ha. destruct Hs as (H0 & E & Hs). rewrite E.
    destruct (d =? c); (split; [done |]); [done |]. apply advance_refl. exact (conj H0 (conj E Hs)).
Qed.

Lemma take_number_spec (cs : list Z) (fuel : nat) (m : mem) (p v : Z) :
  cstr m p cs -> (length cs < fuel)%nat ->
  exists p', parse_number fuel m p v = Ret ((take_number cs v).1, p') /\ advance m p cs p' (take_number cs v).2.
Proof.
  revert fuel p v. induction cs as [|c cs IH]; intros [|fuel] p v Hs Hf; cbn [length] in Hf; try lia;
    cbn [parse_number take_number].
  - exists p. cbn in Hs. rewrite Hs. cbn [Z.leb Z.compare andb]. split; [done |]. by apply advance_refl.
  - pose proof (advance_cons m p c cs Hs) as Ha. destruct Hs as (H0 & E & Hs). rewrite E.
    destruct (_ && _); [| exists p; split; [done |]; apply advance_refl; exact (conj H0 (conj E Hs))].
    destruct (IH fuel (p + 1) (i32 (v * 10 + (c - 48))) Hs ltac:(lia)) as (p' & E' & Ha').
    exists p'. split; [done |]. by eapply advance_trans.
Qed.

Lemma take_modifier_spec (m : mem) (p : Z) (cs : list Z) :
  cstr m p cs ->
  exists p', parse_modifier m p = ((take_modifier cs).1, p') /\ advance m p cs p' (take_modifier cs).2.
Proof.
  intros Hs. unfold parse_modifier, take_modifier.
  destruct (take_flag_spec m p 104 cs ltac:(lia) Hs) as [E1 A1].
  destruct (take_flag_spec m p 108 cs ltac:(lia) Hs) as [E2 A2].
  destruct (take_flag_spec m p 122 cs ltac:(lia) Hs) as [E3 A3].
  destruct (take_flag 104 cs) as [h c1], (take_flag 108 cs) as [l c3], (take_flag 122 cs) as [z c5].
  cbn [fst snd] in *. rewrite E1, E2, E3 in *.
  destruct (take_flag 104 c1) as [hh c2] eqn:F1, (take_flag 108 c3) as [ll c4] eqn:F2.
  destruct h; [| destruct l; [| destruct z]].
  - destruct (take_flag_spec m (p + 1) 104 c1 ltac:(lia) (proj1 A1)) as [E4 A4]. rewrite F1 in E4, A4. cbn [fst snd] in *.
    rewrite E4 in *. replace (p + 1 + 1) with (p + 2) in A4 by lia.
    destruct hh; (eexists; split; [reflexivity |]); [exact (advance_trans _ _ _ _ _ _ _ A1 A4) | exact A1].
  - destruct (take_flag_spec m (p + 1) 108 c3 ltac:(lia) (proj1 A2)) as [E4 A4]. rewrite F2 in E4, A4. cbn [fst snd] in *.
    rewrite E4 in *. replace (p + 1 + 1) with (p + 2) in A4 by lia.
    destruct ll; (eexists; split; [reflexivity |]); [exact (advance_trans _ _ _ _ _ _ _ A2 A4) | exact A2].
  - eexists; split; [reflexivity |]. done.
  - eexists; split; [reflexivity |]. by apply advance_refl.
Qed.

Lemma take_spec_ok (m : mem) (p : Z) (cs : list Z) (fuel : nat) :
  cstr m p cs -> (length cs < fuel)%nat ->
  exists p', parse_spec fuel m p = Ret ((take_spec cs).1, p') /\ advance m p cs p' (take_spec cs).2.
Proof.
  intros Hs Hf. unfold parse_spec, take_spec.
  destruct (take_flag_spec m p 45 cs ltac:(lia) Hs) as [E1 A1].
  destruct (take_flag 45 cs) as [la c1]. cbn [fst snd] in *. rewrite E1 in *. set (p1 := if la then p + 1 else p) in *.
  destruct (take_flag_spec m p1 48 c1 ltac:(lia) (proj1 A1)) as [E2 A2].
  destruct (take_flag 48 c1) as [ze c2]. cbn [fst snd] in *. rewrite E2 in *. set (p2 := if ze then p1 + 1 else p1) in *.
  pose proof (advance_trans _ _ _ _ _ _ _ A1 A2) as B2.
  destruct (take_number_spec c2 fuel m p2 0 (proj1 A2)) as (p3 & -> & A3); [destruct B2; lia |]. cbn [obind].
  destruct (take_number c2 0) as [w c3]. cbn [fst snd] in *.
  pose proof (advance_trans _ _ _ _ _ _ _ B2 A3) as B3.
  destruct (take_flag_spec m p3 46 c3 ltac:(lia) (proj1 A3)) as [E4 A4].
  destruct (take_flag 46 c3) as [dot c4]. cbn [fst snd] in *. rewrite E4 in *.
  pose proof (advance_trans _ _ _ _ _ _ _ B3 A4) as B4.
  assert (exists p5, (if dot then parse_number fuel m (p3 + 1) 0 else Ret (-1, p3))
            = Ret ((if dot then take_number c4 0 else (-1, c4)).1, p5) /\
          advance m p cs p5 (if dot then take_number c4 0 else (-1, c4)).2) as (p5 & -> & B5).
  { destruct dot; [| by exists p3].
    destruct (take_number_spec c4 fuel m (p3 + 1) 0 (proj1 A4)) as (p5 & -> & A5); [destruct B4; lia |].
    exists p5. split; [done |]. exact (advance_trans _ _ _ _ _ _ _ B4 A5). }
  cbn [obind]. destruct (if dot then take_number c4 0 else (-1, c4)) as [prec c5]. cbn [fst snd] in *.
  destruct (take_modifier_spec m p5 c5 (proj1 B5)) as (p6 & -> & A6).
  destruct (take_modifier c5) as [md c6]. cbn [fst snd] in *.
  exists p6. split; [done |]. exact (advance_trans _ _ _ _ _ _ _ B5 A6).
Qed.

#[local] Opaque itoa_base digits_of.

(** * The output cursor *)

Section output.
Context (m0 : mem) (str size : Z) (Hsize : 0 < size).

(** The state after the characters [out] from memory [m0]: those that fit are in the
    buffer, and no other byte has changed. *)
Definition at_state (st : printf_state) (out : list Z) : Prop :=
  ps_str st = str /\ ps_size st = size /\ written st = Z.of_nat (length out) /\
  forall b, ldb (ps_mem st) b =
    if (str <=? b) && (b <? str + Z.min size (Z.of_nat (length out))) then get out (b - str) else ldb m0 b.

(** The same up to characters that do not fit: padding and the main loop stop when the
    buffer is full. *)
Definition shows (st : printf_state) (out : list Z) : Prop :=
  exists ex, at_state st ex /\ (length ex <= length out)%nat /\
    (ex = out \/ (size <= Z.of_nat (length ex) /\ take (Z.to_nat size) ex = take (Z.to_nat size) out)).

Lemma get_app_l (l k : list Z) (i : Z) : 0 <= i < Z.of_nat (length l) -> get (l ++ k) i = get l i.
Proof. intros Hi. unfold get. apply app_nth1. lia. Qed.

Lemma out_char_at (st : printf_state) (ex : list Z) (c : Z) :
  fits 8 c -> Z.of_nat (length ex) < 2 ^ 32 -> at_state st ex -> at_state (out_char st c) (ex ++ [c]).
Proof.
  intros Hc Hl (Hs & Hz & Hw & Hm). unfold out_char. rewrite Hs, Hz, Hw.
  split_and!; cbn [ps_str ps_size written ps_mem]; [done | done | |].
  { rewrite length_app. cbn [length]. rewrite wrap_small; [lia | split; lia]. }
  intros b. rewrite length_app. cbn [length].
  destruct (Z.ltb_spec (Z.of_nat (length ex)) size) as [Hlt | Hge].
  - rewrite ldb_stb, Hm, (wrap_small 8) by done.
    destruct (Z.eqb_spec b (str + Z.of_nat (length ex))) as [-> | Hne].
    + replace ((str <=? _) && _) with true by lia. unfold get.
      replace (Z.to_nat _) with (length ex) by lia. by rewrite nth_middle.
    + destruct (_ && _) eqn:E1.
      * replace ((str <=? b) && _) with true by lia. by rewrite get_app_l by lia.
      * by replace ((str <=? b) && _) with false by lia.
  - rewrite Hm. destruct (_ && _) eqn:E1.
    + replace ((str <=? b) && _) with true by lia. by rewrite get_app_l by lia.
    + by replace ((str <=? b) && _) with false by lia.
Qed.

Lemma take_full (ex x : list Z) :
  size <= Z.of_nat (length ex) -> take (Z.to_nat size) (ex ++ x) = take (Z.to_nat size) ex.
Proof. intros H. apply take_app_le. lia. Qed.

Lemma full_length (ex out : list Z) :
  size <= Z.of_nat (length ex) -> take (Z.to_nat size) ex = take (Z.to_nat size) out ->
  size <= Z.of_nat (length out).
Proof. intros H E. apply (f_equal length) in E. rewrite !length_take in E. lia. Qed.

Lemma shows_char (st : printf_state) (out : list Z) (c : Z) :
  fits 8 c -> Z.of_nat (length out) < 2 ^ 32 -> shows st out -> shows (out_char st c) (out ++ [c]).
Proof.
  intros Hc Hl (ex & Hat & Hle & Hor). exists (ex ++ [c]).
  split; [apply out_char_at; (done || lia) |]. rewrite !length_app. cbn [length]. split; [lia |].
  destruct Hor as [-> | [Hfull E]]; [by left | right].
  split; [lia |]. pose proof (full_length ex out Hfull E). by rewrite !take_full by lia.
Qed.

(** Once the buffer is full, characters can be left out. *)
Lemma shows_full (st : printf_state) (out x : list Z) :
  size <= written st -> shows st out -> shows st (out ++ x).
Proof.
  intros Hf (ex & Hat & Hle & Hor). exists ex. split; [done |]. rewrite length_app. split; [lia |].
  destruct Hat as (_ & _ & Hw & _). right. split; [lia |].
  destruct Hor as [-> | [Hfull E]]; [by rewrite take_full by lia |].
  rewrite E. pose proof (full_length ex out Hfull E). by rewrite take_full by lia.
Qed.

Lemma shows_string (cs out : list Z) (st : printf_state) (a : mem) (s : Z) :
  (forall i c, cs !! i = Some c -> ldb a (s + Z.of_nat i) = c) ->
  Z.of_nat (length (out ++ cs)) < 2 ^ 32 ->
  shows st out -> shows (out_string (length cs) st a s) (out ++ cs).
Proof.
  revert out st s. induction cs as [|c cs IH]; intros out st s Hc Hl Hs; cbn [out_string length].
  { by rewrite app_nil_r. }
  pose proof (Hc 0%nat c eq_refl) as E0. replace (s + Z.of_nat 0) with s in E0 by lia.
  rewrite E0. replace (out ++ c :: cs) with ((out ++ [c]) ++ cs) in * by by rewrite <- app_assoc.
  apply IH; [| done |].
  - intros i d Hi. replace (s + 1 + Z.of_nat i) with (s + Z.of_nat (S i)) by lia. by apply Hc.
  - apply shows_char; [subst c; apply ldb_fits | rewrite !length_app in Hl; cbn in Hl; lia | done].
Qed.

Lemma shows_fill (n : nat) (out : list Z) (st : printf_state) (c : Z) :
  fits 8 c -> Z.of_nat (length out + n) < 2 ^ 32 ->
  shows st out -> shows (out_fill n st c) (out ++ replicate n c).
Proof.
  intros Hc. revert out st. induction n as [|n IH]; intros out st Hl Hs; cbn [out_fill replicate].
  { by rewrite app_nil_r. }
  replace (out ++ c :: replicate n c) with ((out ++ [c]) ++ replicate n c) by by rewrite <- app_assoc.
  apply IH; [rewrite length_app; cbn; lia | apply shows_char; (done || lia)].
Qed.

Lemma shows_size (st : printf_state) (out : list Z) : shows st out -> ps_size st = size.
Proof. by intros (ex & (_ & H & _) & _). Qed.

Lemma shows_pad (n : nat) (out : list Z) (st : printf_state) (c : Z) :
  fits 8 c -> Z.of_nat (length out + n) < 2 ^ 32 ->
  shows st out -> shows (out_pad n st c) (out ++ replicate n c).
Proof.
  intros Hc. revert out st. induction n as [|n IH]; intros out st Hl Hs; cbn [out_pad replicate].
  { by rewrite app_nil_r. }
  rewrite (shows_size st out Hs). destruct (Z.ltb_spec (written st) size) as [Hlt | Hge].
  - replace (out ++ c :: replicate n c) with ((out ++ [c]) ++ replicate n c) by by rewrite <- app_assoc.
    apply IH; [rewrite length_app; cbn; lia | apply shows_char; (done || lia)].
  - by apply shows_full.
Qed.

(** Bytes outside the buffer have not changed. *)
Lemma shows_outside (st : printf_state) (out : list Z) (b : Z) :
  shows st out -> b < str \/ str + size <= b -> ldb (ps_mem st) b = ldb m0 b.
Proof.
  intros (ex & (_ & _ & _ & Hm) & _) Hb. rewrite Hm. by replace ((str <=? b) && _) with false by lia.
Qed.

(** A string away from the buffer. *)
Definition away (p : Z) (cs : list Z) : Prop :=
  cstr m0 p cs /\ (p + Z.of_nat (length cs) < str \/ str + size <= p).

Lemma away_kept (st : printf_state) (out : list Z) (p : Z) (cs : list Z) :
  shows st out -> away p cs -> cstr (ps_mem st) p cs.
Proof.
  intros Hs [Hc Hd]. eapply cstr_ext; [| exact Hc]. intros i Hi. eapply shows_outside; [done | lia].
Qed.

Lemma away_tail (p c : Z) (cs : list Z) : away p (c :: cs) -> away (p + 1) cs.
Proof. intros [(_ & _ & Hc) Hd]. cbn [length] in Hd. split; [done | lia]. Qed.

Lemma shows_cstring (cs out : list Z) (fuel : nat) (st : printf_state) (p : Z) :
  away p cs -> (length cs < fuel)%nat -> Z.of_nat (length (out ++ cs)) < 2 ^ 32 ->
  shows st out -> exists st', out_cstring fuel st p = Ret st' /\ shows st' (out ++ cs).
Proof.
  revert out fuel st p. induction cs as [|c cs IH]; intros out [|fuel] st p Ha Hf Hl Hs; cbn [length] in Hf; try lia;
    pose proof (away_kept st out p _ Hs Ha) as Hc; cbn [out_cstring].
  - cbn in Hc. rewrite Hc. cbn. exists st. by rewrite app_nil_r.
  - destruct Hc as (H0 & -> & _). replace (c =? 0) with false by lia.
    replace (out ++ c :: cs) with ((out ++ [c]) ++ cs) in * by by rewrite <- app_assoc.
    apply IH; [by eapply away_tail | lia | done |].
    apply shows_char; [split; lia | rewrite !length_app in Hl; cbn in Hl; lia | done].
Qed.

Lemma out_num_ok (st : printf_state) (out : list Z) (n base w : Z) (zero upper negative : bool) :
  2 <= base <= 16 -> 0 <= n < 2 ^ 64 -> shows st out ->
  Z.of_nat (length (out ++ number_field n base w zero upper negative)) < 2 ^ 32 ->
  exists st', out_num st n base w zero upper negative = Ret st' /\
    shows st' (out ++ number_field n base w zero upper negative).
Proof.
  intros Hb Hn Hs Hl. unfold out_num. destruct (itoa_base_ok n base upper Hb Hn) as (b & -> & Hc). cbn [obind].
  set (ds := number_text base n upper) in *. pose proof (number_text_length base n upper) as Hd. fold ds in Hd.
  rewrite (strlen_ok ds b 0 66 Hc ltac:(lia)). cbn [obind]. eexists. split; [reflexivity |].
  unfold number_field in *. fold ds in Hl |- *. unfold fill in *.
  set (sign := if negative then [45] else []) in *.
  set (k := Z.to_nat (w - Z.of_nat (length (sign ++ ds)))) in *.
  set (ch := if zero then 48 else 32) in *.
  assert (Hch : fits 8 ch) by (unfold ch; destruct zero; by split).
  replace (Z.to_nat (if _ <? w then _ else 0)) with k.
  2: { unfold k. rewrite length_app. unfold sign. destruct negative; cbn [length]; destruct (_ <? w) eqn:E; lia. }
  rewrite Nat2Z.id, !app_assoc in *. rewrite !length_app, length_replicate in Hl.
  apply shows_string; [| rewrite !length_app, length_replicate; lia |].
  { intros i c Hi. exact (proj2 (cstr_lookup b 0 ds Hc i c Hi)). }
  apply shows_fill; [done | rewrite length_app; lia |]. unfold sign in *.
  destruct negative; [| by rewrite app_nil_r]. apply shows_char; [by split | cbn in Hl; lia | done].
Qed.

(** * Conversions *)

(** A text field, given how its text is emitted. *)
Lemma shows_field (sp : spec) (cs out : list Z) (st : printf_state)
    (emit : printf_state -> outcome printf_state) :
  (forall s o, shows s o -> Z.of_nat (length (o ++ cs)) < 2 ^ 32 ->
     exists s', emit s = Ret s' /\ shows s' (o ++ cs)) ->
  Z.of_nat (length (out ++ text_field sp cs)) < 2 ^ 32 -> shows st out ->
  exists st', (let n := Z.to_nat (width sp - Z.of_nat (length cs)) in
               let st := if left_align sp then st else out_pad n st 32 in
               obind (emit st) (fun st => Ret (if left_align sp then out_pad n st 32 else st))) = Ret st' /\
    shows st' (out ++ text_field sp cs).
Proof.
  intros He Hl Hs. unfold text_field, fill in *. cbn zeta. set (n := Z.to_nat _) in *.
  assert (H32 : fits 8 32) by by split.
  destruct (left_align sp).
  - rewrite app_assoc, !length_app, length_replicate in Hl.
    destruct (He st out Hs) as (s1 & -> & H1); [rewrite length_app; lia |]. cbn [obind].
    eexists. split; [reflexivity |]. rewrite app_assoc. apply shows_pad; [done | rewrite length_app; lia | done].
  - rewrite app_assoc, !length_app, length_replicate in Hl.
    destruct (He (out_pad n st 32) (out ++ replicate n 32)) as (s1 & -> & H1).
    + apply shows_pad; [done | lia | done].
    + rewrite !length_app, length_replicate. lia.
    + cbn [obind]. eexists. split; [reflexivity |]. by rewrite app_assoc.
Qed.

Lemma print_char_ok (sp : spec) (z : Z) (st : printf_state) (out : list Z) :
  Z.of_nat (length (out ++ text_field sp [u8 z])) < 2 ^ 32 -> shows st out ->
  shows (print_char st sp z) (out ++ text_field sp [u8 z]).
Proof.
  intros Hl Hs.
  destruct (shows_field sp [u8 z] out st (fun st => Ret (out_char st (u8 z)))) as (st' & E & H); [| done | done |].
  - intros s o Ho Hlo. eexists. split; [done |]. apply shows_char; [by apply wrap_fits | | done].
    rewrite length_app in Hlo. lia.
  - cbn in E. injection E as <-. exact H.
Qed.

Lemma print_string_ok (sp : spec) (s : Z) (cs : list Z) (fuel : nat) (st : printf_state) (out : list Z) :
  (s = 0 /\ cs = NULL_TEXT) \/ (s <> 0 /\ away s cs /\ (length cs < fuel)%nat) ->
  Z.of_nat (length (out ++ text_field sp cs)) < 2 ^ 32 -> shows st out ->
  exists st', print_string fuel st sp s = Ret st' /\ shows st' (out ++ text_field sp cs).
Proof.
  intros Hor Hl Hs. unfold print_string.
  assert ((if s =? 0 then Ret 6 else strlen fuel (ps_mem st) s) = Ret (Z.of_nat (length cs))) as ->.
  { destruct Hor as [[-> ->] | (H0 & Ha & Hf)]; [done |]. replace (s =? 0) with false by lia.
    apply strlen_ok; [by eapply away_kept | done]. }
  cbn [obind].
  apply (shows_field sp cs out st (fun st => if s =? 0 then Ret (out_string 6 st (literal NULL_TEXT) 0)
                                            else out_cstring fuel st s)); [| done | done].
  intros s1 o Ho Hlo. destruct Hor as [[-> ->] | (H0 & Ha & Hf)]; cbn [Z.eqb].
  - eexists. split; [reflexivity |]. change 6%nat with (length NULL_TEXT).
    apply shows_string; [| done | done]. intros i c Hi. unfold literal, ldb, get.
    rewrite Z.add_0_l, Nat2Z.id, nth_lookup, Hi. cbn.
    do 6 (destruct i as [|i]; [by injection Hi as <- |]). done.
  - replace (s =? 0) with false by lia. by apply shows_cstring.
Qed.

Lemma swrap_bound (w z : Z) : 0 < w -> - 2 ^ (w - 1) <= swrap w z < 2 ^ (w - 1).
Proof.
  intros Hw. unfold swrap. pose proof (Z.mod_pos_bound z (2 ^ w) (pow2_pos w ltac:(lia))) as Hm.
  assert (2 ^ w = 2 * 2 ^ (w - 1)) as E by (rewrite <- Z.pow_succ_r by lia; f_equal; lia).
  destruct (Z.ltb_spec (z mod 2 ^ w) (2 ^ (w - 1))); lia.
Qed.

Lemma signed_arg_bound (md : modifier) (z : Z) : - 2 ^ 63 <= signed_arg md z < 2 ^ 63.
Proof.
  destruct md; cbn [signed_arg];
    first [ apply (swrap_bound 64); lia
          | match goal with |- context [swrap ?w z] => pose proof (swrap_bound w z ltac:(lia)) end; lia ].
Qed.

Lemma unsigned_arg_bound (md : modifier) (z : Z) : 0 <= unsigned_arg md z < 2 ^ 64.
Proof.
  destruct md; cbn [unsigned_arg];
    match goal with |- context [wrap ?w z] => pose proof (wrap_fits w z ltac:(lia)) as H end;
    unfold fits in H; lia.
Qed.

Lemma print_signed_ok (sp : spec) (z : Z) (st : printf_state) (out : list Z) :
  Z.of_nat (length (out ++ signed_field sp z)) < 2 ^ 32 -> shows st out ->
  exists st', print_signed st sp z = Ret st' /\ shows st' (out ++ signed_field sp z).
Proof.
  intros Hl Hs. unfold print_signed, signed_field in *. set (n := signed_arg (length_mod sp) z) in *.
  pose proof (signed_arg_bound (length_mod sp) z) as Hn. fold n in Hn.
  destruct (Z.ltb_spec n 0) as [Hneg | Hpos].
  - replace (u64 (- u64 n)) with (- n); [apply out_num_ok; (done || lia) |].
    unfold wrap. rewrite <- (Z_mod_plus_full n 1 (2 ^ 64)), (Z.mod_small (n + 1 * 2 ^ 64)) by lia.
    rewrite <- (Z_mod_plus_full _ 1 (2 ^ 64)), Z.mod_small; lia.
  - rewrite wrap_small by (unfold fits; lia). apply out_num_ok; (done || lia).
Qed.

Lemma print_double_ok (f : SpecFloat.spec_float) (prec : Z) (x : list Z) (st : printf_state) (out : list Z) :
  double_text f prec = Some x -> Z.of_nat (length (out ++ x)) < 2 ^ 32 -> shows st out ->
  exists st', print_double st f prec = Ret st' /\ shows st' (out ++ x).
Proof.
  intros Hx Hl Hs. unfold print_double, double_text in *. set (p := if prec <? 0 then 2 else prec) in *.
  destruct (split_double f p) as [[i fr]| |]; [| done | done]. apply (inj Some) in Hx. subst x. cbn [obind].
  assert (Hu : forall z, 0 <= u64 z < 2 ^ 64) by (intros z; by apply (wrap_fits 64)).
  destruct (itoa_base_ok (u64 (if i <? 0 then i32 (- i) else i)) 10 false ltac:(lia) (Hu _)) as (b1 & -> & Hc1).
  cbn [obind]. set (it := number_text _ _ _) in *.
  assert ((length it <= 64)%nat) as Hit by apply number_text_length.
  rewrite (strlen_ok it b1 0 66 Hc1 ltac:(lia)). cbn [obind].
  destruct (itoa_base_ok (u64 fr) 10 false ltac:(lia) (Hu _)) as (b2 & -> & Hc2). cbn [obind].
  set (ft := number_text 10 (u64 fr) false) in *.
  assert ((length ft <= 64)%nat) as Hft by apply number_text_length.
  rewrite (strlen_ok ft b2 0 66 Hc2 ltac:(lia)). cbn [obind]. rewrite !Nat2Z.id.
  eexists. split; [reflexivity |]. unfold fill in *.
  set (sign := if i <? 0 then [45] else []) in *. set (k := Z.to_nat _) in *.
  rewrite !app_assoc in Hl |- *. rewrite !length_app, length_replicate in Hl. cbn [length] in Hl.
  apply shows_string; [by intros j c Hj; exact (proj2 (cstr_lookup b2 0 ft Hc2 j c Hj)) | rewrite !length_app, length_replicate; cbn [length]; lia |].
  apply shows_fill; [by split | rewrite !length_app; cbn [length]; lia |].
  apply shows_char; [by split | rewrite !length_app; lia |].
  apply shows_string; [by intros j c Hj; exact (proj2 (cstr_lookup b1 0 it Hc1 j c Hj)) | rewrite !length_app; lia |].
  unfold sign in *. destruct (i <? 0); [| by rewrite app_nil_r]. apply shows_char; [by split | cbn in Hl; lia | done].
Qed.

Context (strs : Z -> option (list Z)) (fuel : nat).

(** What the arguments and the format point to is away from the buffer, and the bound on
    the steps of one walk covers it. *)
Definition strings_away : Prop :=
  forall p cs, strs p = Some cs -> away p cs /\ (length cs < fuel)%nat.

Lemma literal_lookup (cs : list Z) (i : nat) (c : Z) :
  Forall (fits 8) cs -> cs !! i = Some c -> ldb (literal cs) (0 + Z.of_nat i) = c.
Proof.
  intros HF Hi. unfold ldb, literal, get. rewrite Z.add_0_l, Nat2Z.id, nth_lookup, Hi. cbn.
  apply wrap_small. exact (Forall_lookup_1 _ _ _ _ HF Hi).
Qed.

Lemma convert_ok (st : printf_state) (out : list Z) (sp : spec) (p c : Z) (args args' : list va) (x : list Z) :
  strings_away -> ldb (ps_mem st) p = c -> 0 < c < 256 -> (p < str \/ str + size <= p) ->
  conversion strs sp c args = Some (x, args') ->
  Z.of_nat (length (out ++ x)) < 2 ^ 32 -> shows st out ->
  exists st', convert fuel st sp p args = Ret (st', p + 1, args') /\ shows st' (out ++ x).
Proof.
  intros Hstr Hp Hc Haway Hx Hl Hs. unfold convert. rewrite Hp. unfold conversion in Hx.
  assert (H37 : forall o s, Z.of_nat (length o) < 2 ^ 32 -> shows s o -> shows (out_char s 37) (o ++ [37])).
  { intros o s Ho. by apply shows_char. }
  destruct (c =? 115).
  { destruct args as [|[z|?] args]; try done. cbn [va_int obind].
    assert (exists cs, x = text_field sp cs /\ args = args' /\
      ((u64 z = 0 /\ cs = NULL_TEXT) \/ (u64 z <> 0 /\ away (u64 z) cs /\ (length cs < fuel)%nat)))
      as (cs & -> & -> & Hor).
    { destruct (Z.eqb_spec (u64 z) 0) as [E | E].
      - exists NULL_TEXT. by simplify_eq; auto.
      - destruct (strs (u64 z)) as [cs|] eqn:Ec; [| done]. exists cs. specialize (Hstr _ _ Ec). simplify_eq. auto. }
    destruct (print_string_ok sp (u64 z) cs fuel st out Hor Hl Hs) as (st' & -> & H). by exists st'. }
  destruct (c =? 99).
  { destruct args as [|[z|?] args]; try done; apply (inj Some), (inj2 pair) in Hx as [<- <-]. cbn [va_int obind].
    eexists. split; [reflexivity |]. by apply print_char_ok. }
  destruct (_ || _).
  { destruct args as [|[z|?] args]; try done; apply (inj Some), (inj2 pair) in Hx as [<- <-]. cbn [va_int obind].
    destruct (print_signed_ok sp z st out Hl Hs) as (st' & -> & H). by exists st'. }
  destruct (c =? 102).
  { destruct args as [|[?|f] args]; try done. destruct (double_text f (precision sp)) as [cs|] eqn:Ed; [| done].
    injection Hx as -> ->. cbn [va_double obind].
    destruct (print_double_ok f _ x st out Ed Hl Hs) as (st' & -> & H). by exists st'. }
  destruct (c =? 117).
  { destruct args as [|[z|?] args]; try done; apply (inj Some), (inj2 pair) in Hx as [<- <-]. cbn [va_int obind]. unfold print_unsigned.
    destruct (out_num_ok st out (unsigned_arg (length_mod sp) z) 10 (width sp) (zero_pad sp) false false
                ltac:(lia) (unsigned_arg_bound _ _) Hs Hl) as (st' & -> & H). by exists st'. }
  destruct (_ || _).
  { destruct args as [|[z|?] args]; try done; apply (inj Some), (inj2 pair) in Hx as [<- <-]. cbn [va_int obind]. unfold print_unsigned.
    destruct (out_num_ok st out (unsigned_arg (length_mod sp) z) 16 (width sp) (zero_pad sp) (c =? 88) false
                ltac:(lia) (unsigned_arg_bound _ _) Hs Hl) as (st' & -> & H). by exists st'. }
  destruct (c =? 112).
  { destruct args as [|[z|?] args]; try done. apply (inj Some), (inj2 pair) in Hx as [<- <-].
    cbn [va_int obind]. rewrite app_assoc in Hl |- *.
    destruct (out_num_ok (out_string 2 st (literal [48; 120]) 0) (out ++ [48; 120]) (u64 z) 16 16 true false false)
      as (st' & -> & H); [lia | by apply (wrap_fits 64) | | done | by exists st'].
    apply (shows_string [48; 120]); [| rewrite length_app in Hl; lia | done].
    intros i d Hi. apply literal_lookup; [| done]. by repeat constructor. }
  destruct (c =? 37).
  { injection Hx as <- <-. eexists. split; [reflexivity |]. apply H37; [| done]. rewrite length_app in Hl. lia. }
  injection Hx as <- <-. rewrite length_app in Hl. cbn [length] in Hl. replace (c =? 0) with false by lia.
  assert (Hs1 : shows (out_char st 37) (out ++ [37])) by (apply H37; [lia | done]).
  rewrite (shows_outside _ _ _ Hs1 Haway), <- (shows_outside _ _ _ Hs Haway), Hp.
  eexists. split; [reflexivity |]. replace (out ++ [37; c]) with ((out ++ [37]) ++ [c]) by by rewrite <- app_assoc.
  apply shows_char; [split; lia | rewrite length_app; cbn; lia | done].
Qed.

Lemma format_loop_ok (n k : nat) (cs : list Z) (st : printf_state) (p : Z) (args : list va) (out x : list Z) :
  strings_away -> (n < k)%nat -> away p cs -> (length cs < fuel)%nat ->
  format_with (conversion strs) n cs args = Some x -> Z.of_nat (length (out ++ x)) < 2 ^ 32 -> shows st out ->
  exists st', format_loop k fuel st p args = Ret st' /\ shows st' (out ++ x).
Proof.
  intros Hstr. revert k cs st p args out x.
  induction n as [|n IH]; intros [|k] cs st p args out x Hk Ha Hf Hx Hl Hs; try lia;
    pose proof (away_kept st out p cs Hs Ha) as Hc.
  { destruct cs; [| done]. cbn in Hc. injection Hx as <-. cbn [format_loop]. rewrite Hc. cbn.
    exists st. by rewrite app_nil_r. }
  destruct cs as [|c cs].
  { cbn in Hc. injection Hx as <-. cbn [format_loop]. rewrite Hc. cbn. exists st. by rewrite app_nil_r. }
  cbn [length] in Hf. pose proof (away_tail p c cs Ha) as Ht.
  destruct Hc as (H0 & Hp & Hc). cbn [format_loop format_with] in Hx |- *. rewrite Hp.
  replace (c =? 0) with false by lia. rewrite (shows_size _ _ Hs). cbn [orb].
  destruct (Z.ltb_spec (written st) size) as [Hlt | Hge]; cbn [negb].
  2: { exists st. split; [done |]. by apply shows_full. }
  destruct (Z.eqb_spec c 37) as [-> | Hne]; cbn [negb] in Hx |- *.
  2: { apply fmap_Some in Hx as (y & Hy & ->).
       replace (out ++ c :: y) with ((out ++ [c]) ++ y) in * by by rewrite <- app_assoc.
       apply (IH k cs); [lia | done | lia | done | done |].
       apply shows_char; [split; lia | rewrite !length_app in Hl; lia | done]. }
  destruct (take_spec_ok (ps_mem st) (p + 1) cs fuel Hc ltac:(lia)) as (p' & -> & Hc' & Hend & Hle). cbn [obind].
  destruct (take_spec cs) as [sp rest]. cbn [fst snd] in *.
  assert (Ha' : away p' rest).
  { destruct Ha as [Hm Hd]. cbn [length] in Hd. split; [| lia].
    eapply cstr_ext; [| exact Hc']. intros i Hi. symmetry. eapply shows_outside; [done | lia]. }
  destruct rest as [|d rest].
  - injection Hx as <-. unfold convert. cbn in Hc'. rewrite Hc'. cbn [Z.eqb orb obind].
    assert (Hs1 : shows (out_char st 37) (out ++ [37])).
    { apply shows_char; [by split | rewrite length_app in Hl; lia | done]. }
    destruct k as [|k]; [lia |]. cbn [format_loop]. rewrite (away_kept _ _ _ _ Hs1 Ha'). cbn. by eexists.
  - destruct (conversion strs sp d args) as [[y args']|] eqn:Ec; [| done].
    apply fmap_Some in Hx as (z & Hz & ->). rewrite app_assoc in Hl |- *. destruct Hc' as (Hd0 & Hd & _).
    destruct (convert_ok st out sp p' d args args' y) as (st' & -> & Hs'); try done.
    + destruct Ha as [_ Hd']. cbn [length] in *. lia.
    + rewrite length_app in Hl. lia.
    + cbn [obind]. apply (IH k rest); [lia | by eapply away_tail | cbn [length] in *; lia | done | done | done].
Qed.

End output.

Lemma vsnprintf_ok (fuel : nat) (m : mem) (str size fmt : Z) (cs : list Z) (args : list va)
    (strs : Z -> option (list Z)) (out : list Z) :
  0 < size < 2 ^ 31 -> away m str size fmt cs -> (length cs < fuel)%nat ->
  strings_away m str size strs fuel ->
  format strs cs args = Some out -> Z.of_nat (length out) < 2 ^ 31 ->
  let k := Z.min (Z.of_nat (length out)) (size - 1) in
  exists r m', vsnprintf fuel m str size fmt args = Ret (r, m') /\
    (forall i, 0 <= i < k -> ldb m' (str + i) = get out i) /\ ldb m' (str + k) = 0 /\
    (forall b, b < str \/ str + size <= b -> ldb m' b = ldb m b) /\
    (if Z.of_nat (length out) <? size then r = Z.of_nat (length out)
     else size <= r <= Z.of_nat (length out)).
Proof.
  intros Hsz Ha Hf Hstr Hx Hl k. unfold vsnprintf. replace (size =? 0) with false by lia.
  destruct (format_loop_ok m str size ltac:(lia) strs fuel (length cs) fuel cs (mk_ps m str size 0) fmt args [] out)
    as (st & -> & ex & (_ & _ & Hw & Hm) & Hle & Hor); try done.
  { rewrite app_nil_l. lia. }
  { exists []. split; [| by auto]. split; [done |]. split; [done |]. split; [done |]. intros b. cbn [length].
    by replace ((str <=? b) && _) with false by lia. }
  cbn [obind]. rewrite Hw. do 2 eexists. split; [reflexivity |]. rewrite app_nil_l in *.
  rewrite swrap_small by lia.
  assert (Hget : forall i, 0 <= i < Z.min size (Z.of_nat (length ex)) -> get ex i = get out i).
  { intros i Hi. destruct Hor as [-> | [_ E]]; [done |]. unfold get. rewrite !nth_lookup. f_equal.
    rewrite <- (lookup_take_lt ex (Z.to_nat size)), <- (lookup_take_lt out (Z.to_nat size)) by lia. by rewrite E. }
  assert (Hk : k = Z.min (Z.of_nat (length ex)) (size - 1)) by (unfold k; destruct Hor as [-> | []]; lia).
  replace (if _ <? size then _ else _) with (stb (ps_mem st) (str + k) 0)
    by (destruct (Z.ltb_spec (Z.of_nat (length ex)) size); do 2 f_equal; lia).
  split_and!.
  - intros i Hi. rewrite ldb_stb, Hm. replace (str + i =? str + k) with false by lia.
    replace ((str <=? str + i) && _) with true by lia. replace (str + i - str) with i by lia. apply Hget. lia.
  - by rewrite ldb_stb, Z.eqb_refl.
  - intros b Hb. rewrite ldb_stb, Hm. replace (b =? str + k) with false by lia.
    by replace ((str <=? b) && _) with false by lia.
  - destruct Hor as [-> | [Hfull _]]; destruct (Z.ltb_spec (Z.of_nat (length out)) size); lia.
Qed.


(** A memory with the format at 1000 and the string "disk" at 2000. *)
Definition demo_fmt : list Z :=
  [37; 115; 58; 32; 37; 48; 52; 120; 32; 37; 100; 37; 37; 32; 37; 46; 50; 102].
Definition demo_str : list Z := [100; 105; 115; 107].
Definition demo_mem : mem := fun a =>
  if a <? 2000 then get demo_fmt (a - 1000) else get demo_str (a - 2000).
Definition demo_args : list va := [VInt 2000; VInt 255; VInt (-7); VDouble (SFdiv dprec demax (d_of_Z 22) (d_of_Z 7))].
Definition demo_strs (p : Z) : option (list Z) := if p =? 2000 then Some demo_str else None.


(** The decimal and hexadecimal text of a number denotes it: the digits are below the
    base and their positional value is the number. *)
Theorem number_text_value (base n : Z) (upper : bool) :
  2 <= base <= 16 -> 0 <= n < 2 ^ 64 ->
  exists ds, number_text base n upper = hex_digit upper <$> ds /\
    Forall (fun d => 0 <= d < base) ds /\ digits_value base ds = n.
Proof.
  intros Hb Hn. exists (digits_of 64 base n). split; [done |]. split; [apply digits_of_bound; lia |].
  apply digits_of_value; [lia |]. split; [lia |]. eapply Z.lt_le_trans; [apply Hn |]. apply Z.pow_le_mono_l. lia.
Qed.

Lemma number_text_value_witness :
  exists ds, number_text 16 48879 true = hex_digit true <$> ds /\ digits_value 16 ds = 48879.
Proof.
  destruct (number_text_value 16 48879 true) as (ds & E & _ & Hv); [lia | lia |]. by exists ds.
Defined.

(** The flag [-] is ignored for numbers: the conversion prints what it prints without it. *)
Theorem number_left_ignored (fuel : nat) (st : printf_state) (zero : bool) (w prec : Z) (md : modifier) (fmt : Z) (args : list va) :
  In (ldb (ps_mem st) fmt) [100; 105; 117; 120; 88] ->
  convert fuel st (mk_spec true zero w prec md) fmt args = convert fuel st (mk_spec false zero w prec md) fmt args.
Proof.
  intros Hc. unfold convert. set (c := ldb (ps_mem st) fmt) in *. cbn [In] in Hc.
  by destruct Hc as [<- | [<- | [<- | [<- | [<- | []]]]]].
Qed.

(** "%-4d" of 7 is "   7". *)
Lemma number_left_ignored_witness :
  convert 5 (mk_ps (fun a => if a =? 3 then 100 else 0) 16 8 0) (mk_spec true false 4 (-1) NoMod) 3 [VInt 7] =
    convert 5 (mk_ps (fun a => if a =? 3 then 100 else 0) 16 8 0) (mk_spec false false 4 (-1) NoMod) 3 [VInt 7] /\
  signed_field (mk_spec true false 4 (-1) NoMod) 7 = [32; 32; 32; 55].
Proof. split; [apply number_left_ignored; left; vm_compute; reflexivity | vm_compute; reflexivity]. Defined.

(** A negative number in a field of a given width comes out one character short, with
    its sign before the padding: the width is reduced for the sign both by the caller and
    in [out_num]. *)
Theorem signed_field_short (la : bool) (w z : Z) :
  z = signed_arg NoMod z -> z < 0 -> 0 < w < 2 ^ 31 ->
  let d := Z.of_nat (length (number_text 10 (- z) false)) in
  let text := signed_field (mk_spec la false w (-1) NoMod) z in
  head text = Some 45 /\ Z.of_nat (length text) = Z.max (d + 1) (w - 1).
Proof.
  intros Hz Hneg Hw d text. unfold text, signed_field. cbn [length_mod width zero_pad]. rewrite <- Hz.
  replace (z <? 0) with true by lia. rewrite swrap_small by lia. unfold number_field, fill. cbn [app head length].
  split; [done |]. rewrite length_app, length_replicate. fold d. lia.
Qed.

(** "%5d" of -42 is "- 42". *)
Lemma signed_field_short_witness :
  head (signed_field (mk_spec false false 5 (-1) NoMod) (-42)) = Some 45 /\
  signed_field (mk_spec false false 5 (-1) NoMod) (-42) = [45; 32; 52; 50].
Proof.
  split; [| vm_compute; reflexivity].
  apply (signed_field_short false 5 (-42)); [vm_compute; reflexivity | lia | lia].
Defined.

(** A number between -1 and 0 is printed by %f without its sign: -0.5 is "0.5". *)
Theorem double_sign_lost : double_text (SFopp d_half) 1 = Some [48; 46; 53].
Proof. vm_compute. reflexivity. Qed.
