(* ===== verification/CryptoInternal.v ===== *)
(** The word operations of src/include/crypto/internal.h: rotations and byte
    swaps, with their bit-level characterisation. *)

From S2P Require Import Prelude.

(** [CRYPTO_ROTL32(x, n)]. *)
Definition rotl32 (x n : Z) : Z := Z.lor (shl32 x n) (Z.shiftr x (32 - n)).

(** [CRYPTO_ROTR32(x, n)]. *)
Definition rotr32 (x n : Z) : Z := Z.lor (Z.shiftr x n) (shl32 x (32 - n)).

(** The x86 [bswap] on a 32-bit register, used by [crypto_cpu_to_be32] and
    [crypto_be32_to_cpu]. *)
Definition bswap32 (x : Z) : Z :=
  Z.lor (Z.lor (Z.shiftl (Z.land x 0xFF) 24) (Z.shiftl (Z.land (Z.shiftr x 8) 0xFF) 16))
        (Z.lor (Z.shiftl (Z.land (Z.shiftr x 16) 0xFF) 8) (Z.land (Z.shiftr x 24) 0xFF)).

(** Little-endian and big-endian loads of four bytes of an array. *)
Definition load_le32 (b : list Z) (i : Z) : Z :=
  Z.lor (Z.lor (Z.lor (get b i) (shl32 (get b (i + 1)) 8))
               (shl32 (get b (i + 2)) 16)) (shl32 (get b (i + 3)) 24).

Definition load_be32 (b : list Z) (i : Z) : Z :=
  Z.lor (Z.lor (Z.lor (shl32 (get b i) 24) (shl32 (get b (i + 1)) 16))
               (shl32 (get b (i + 2)) 8)) (get b (i + 3)).

(** * Lemmas *)

Lemma shl32_testbit (x n i : Z) :
  0 <= n -> 0 <= i -> Z.testbit (shl32 x n) i = (i <? 32) && Z.testbit x (i - n).
Proof. intros. unfold shl32. rewrite wrap_testbit, Z.shiftl_spec by lia. done. Qed.

Lemma shl32_fits (x n : Z) : fits 32 (shl32 x n).
Proof. apply wrap_fits. lia. Qed.

Lemma rotl32_fits (x n : Z) : 0 <= n <= 32 -> fits 32 x -> fits 32 (rotl32 x n).
Proof.
  intros Hn Hx. apply lor_fits; [lia | apply shl32_fits |]. apply shiftr_fits; lia || done.
Qed.

(** Bit [i] of a left rotation is bit [(i - n) mod 32] of the operand. *)
Lemma rotl32_testbit (x n i : Z) :
  0 <= n < 32 -> fits 32 x -> 0 <= i < 32 ->
  Z.testbit (rotl32 x n) i = Z.testbit x ((i - n) mod 32).
Proof.
  intros Hn Hx Hi. unfold rotl32.
  rewrite Z.lor_spec, shl32_testbit, Z.shiftr_spec by lia.
  replace (i <? 32) with true by lia. rewrite andb_true_l.
  destruct (Z.ltb_spec i n).
  - rewrite (Z.testbit_neg_r x (i - n)) by lia. rewrite orb_false_l. f_equal. dlia.
  - rewrite (fits_testbit 32 x (i + (32 - n))) by (done || lia).
    rewrite orb_false_r. f_equal. dlia.
Qed.

Lemma rotr32_rotl32 (x n : Z) : rotr32 x n = rotl32 x (32 - n).
Proof.
  unfold rotr32, rotl32. rewrite Z.lor_comm. f_equal. f_equal. lia.
Qed.

(** A right rotation undoes a left rotation. *)
Lemma rotr32_of_rotl32 (x n : Z) :
  0 < n < 32 -> fits 32 x -> rotr32 (rotl32 x n) n = x.
Proof.
  intros Hn Hx. rewrite rotr32_rotl32. by_bits i Hi.
  destruct (Z.ltb_spec i 32) as [Hi' | Hi'].
  - rewrite rotl32_testbit by (try apply rotl32_fits; done || lia).
    rewrite rotl32_testbit by (try done; try apply Z.mod_pos_bound; lia).
    f_equal. dlia.
  - rewrite (fits_testbit 32 x) by (done || lia).
    apply (fits_testbit 32); [lia | | done].
    apply rotl32_fits; [lia |]. by apply rotl32_fits; [lia |].
Qed.
