(* ===== verification/MerkleDamgard.v ===== *)
(** The streaming part shared by the kernel's three hash functions
    (src/crypto/hash/md5.c, sha1.c, sha256.c): the context with its 64-byte
    buffer, [update], [final] and the one-shot function.

    The class [HashAlgo] is the interface between that streaming code and the
    compression functions: an algorithm gives its initial words, its transform
    and the byte order it uses.  The generic code is written once against the
    class; Md5.v and Sha.v give the instances. *)

From S2P Require Import Prelude.

(** What a hash function of the kernel supplies to the streaming code. *)
Class HashAlgo := {
  algo_init : list Z;                        (* MD5_INIT, SHA1_INIT, SHA256_INIT *)
  algo_transform : list Z -> list Z -> list Z; (* state, 64-byte block -> state *)
  algo_len_shift : Z -> Z;                   (* shift of byte i of the bit length *)
  algo_out_shift : Z -> Z;                   (* shift of byte j of an output word *)
  algo_words : nat                           (* words of the state *)
}.

(** [crypto_md5_ctx_t], [crypto_sha1_ctx_t], [crypto_sha256_ctx_t]. *)
Record hash_ctx := mk_ctx {
  ctx_state : list Z;
  ctx_count : Z;      (* u64 *)
  ctx_buffer : list Z (* u8[64] *)
}.

Section Streaming.
Context {A : HashAlgo}.

(** [crypto_*_init]: the buffer is left as it was. *)
Definition hash_init (ctx : hash_ctx) : hash_ctx :=
  mk_ctx algo_init 0 (ctx_buffer ctx).

(** One iteration of the loop of [crypto_*_update]. *)
Definition hash_update_byte (ctx : hash_ctx) (b : Z) : hash_ctx :=
  let buffer := set (ctx_buffer ctx) (ctx_count ctx mod 64) b in
  let count := add64 (ctx_count ctx) 1 in
  if count mod 64 =? 0
  then mk_ctx (algo_transform (ctx_state ctx) buffer) count buffer
  else mk_ctx (ctx_state ctx) count buffer.

Definition hash_update (ctx : hash_ctx) (data : list Z) : hash_ctx :=
  fold_left hash_update_byte data ctx.

(** [pad_len] as [crypto_*_final] computes it. *)
Definition hash_pad_len (count : Z) : Z :=
  let pad_len := u32 (64 - count mod 64) in
  if pad_len <? 9 then u32 (pad_len + 64) else pad_len.

(** A write to the local array [u8 padding[64]]. *)
Definition pad_write (padding : list Z) (i v : Z) : outcome (list Z) :=
  of_option (set_chk padding i v).

(** The three stores of [crypto_*_final] into [padding]: the 0x80 marker, the
    zeros up to [pad_len], the eight bytes of the bit length.  [padding0] is the
    content of the uninitialised local array. *)
Definition hash_padding (padding0 : list Z) (count : Z) : outcome (list Z) :=
  let bit_len := u64 (count * 8) in
  let pad_len := hash_pad_len count in
  (do p <- pad_write padding0 0 0x80;
   do p <- ofor_from 1 (Z.to_nat (pad_len - 1)) (fun i p => pad_write p i 0) p;
   ofor_from 0 8 (fun i p =>
     pad_write p (pad_len - 8 + i)
       (Z.land (Z.shiftr bit_len (algo_len_shift i)) 0xFF)) p)%out.

(** The output loop: byte [j] of word [i]. *)
Definition hash_out (state : list Z) : list Z :=
  flat_map (fun i =>
    map (fun j => Z.land (Z.shiftr (get state i) (algo_out_shift j)) 0xFF) [0; 1; 2; 3])
    (map Z.of_nat (seq 0 algo_words)).

(** [crypto_*_final]: the digest and the context after the call. *)
Definition hash_final (padding0 : list Z) (ctx : hash_ctx) : outcome (list Z * hash_ctx) :=
  (do padding <- hash_padding padding0 (ctx_count ctx);
   let ctx := hash_update ctx (take (Z.to_nat (hash_pad_len (ctx_count ctx))) padding) in
   Ret (hash_out (ctx_state ctx), ctx))%out.

(** [crypto_md5], [crypto_sha1], [crypto_sha256]: [ctx0] and [padding0] are the
    contents of the two uninitialised locals. *)
Definition hash_oneshot (ctx0 : hash_ctx) (padding0 data : list Z) : outcome (list Z) :=
  (do r <- hash_final padding0 (hash_update (hash_init ctx0) data);
   Ret (fst r))%out.

(** * The reference: pad the whole message, then compress block by block *)

Definition block (msg : list Z) (n : nat) : list Z := take 64 (drop (64 * n) msg).

Fixpoint compress (msg : list Z) (n : nat) : list Z :=
  match n with
  | O => algo_init
  | S n' => algo_transform (compress msg n') (block msg n')
  end.

(** The eight bytes of the bit length of a [len]-byte message. *)
Definition len_bytes (len : Z) : list Z :=
  map (fun i => Z.land (Z.shiftr (u64 (len * 8)) (algo_len_shift i)) 0xFF)
    [0; 1; 2; 3; 4; 5; 6; 7].

(** Padding of FIPS 180-4 and RFC 1321: a 1 bit, the fewest 0 bits that make
    the length congruent to 448 modulo 512 bits, the length. *)
Definition md_pad (msg : list Z) : list Z :=
  let len := Z.of_nat (length msg) in
  msg ++ [0x80] ++ replicate (Z.to_nat ((55 - len) mod 64)) 0 ++ len_bytes len.

Definition hash_spec (msg : list Z) : list Z :=
  let m := md_pad msg in hash_out (compress m (length m / 64)).

(** * The context after absorbing a message *)

(** The abstraction relation: [ctx] is what the streaming code holds once it
    has been fed exactly [msg]. *)
Record absorbed (ctx : hash_ctx) (msg : list Z) : Prop := {
  abs_count : ctx_count ctx = Z.of_nat (length msg);
  abs_buflen : length (ctx_buffer ctx) = 64%nat;
  abs_state : ctx_state ctx = compress msg (length msg / 64);
  abs_buffer : take (length msg mod 64) (ctx_buffer ctx) = drop (64 * (length msg / 64)) msg
}.

Lemma block_app (msg rest : list Z) (n : nat) :
  (64 * n + 64 <= length msg)%nat -> block (msg ++ rest) n = block msg n.
Proof.
  intros Hn. unfold block. rewrite drop_app_le by lia.
  rewrite take_app_le; [done |]. rewrite length_drop. lia.
Qed.

Lemma compress_app (msg rest : list Z) (n : nat) :
  (64 * n <= length msg)%nat -> compress (msg ++ rest) n = compress msg n.
Proof.
  induction n as [|n IH]; intros Hn; [done |]. simpl.
  rewrite IH by lia. rewrite block_app by lia. done.
Qed.

Lemma absorbed_init (ctx : hash_ctx) :
  length (ctx_buffer ctx) = 64%nat -> absorbed (hash_init ctx) [].
Proof. intros H. by split. Qed.

(** Feeding one more byte. *)
Lemma absorbed_byte (ctx : hash_ctx) (msg : list Z) (b : Z) :
  Z.of_nat (length msg) + 1 < 2 ^ 64 ->
  absorbed ctx msg -> absorbed (hash_update_byte ctx b) (msg ++ [b]).
Proof.
  intros Hlt [Hc Hl Hs Hb].
  pose proof (Nat.div_mod_eq (length msg) 64) as Hdm.
  pose proof (Nat.mod_upper_bound (length msg) 64 ltac:(lia)) as Hr.
  assert (Hadd : add64 (ctx_count ctx) 1 = Z.of_nat (length (msg ++ [b]))).
  { rewrite Hc, length_app. simpl. unfold add64. rewrite wrap_small; [lia |]. split; lia. }
  assert (Hidx : Z.to_nat (ctx_count ctx mod 64) = (length msg mod 64)%nat).
  { rewrite Hc. change 64 with (Z.of_nat 64). rewrite <- Nat2Z.inj_mod. lia. }
  assert (Htk : take (S (length msg mod 64)) (set (ctx_buffer ctx) (ctx_count ctx mod 64) b)
                = drop (64 * (length msg / 64)) (msg ++ [b])).
  { unfold set. rewrite Hidx, (take_S_r _ _ b) by (apply list_lookup_insert_eq; lia).
    rewrite take_insert_ge by lia. rewrite Hb, drop_app_le by lia. done. }
  assert (Hc64 : (add64 (ctx_count ctx) 1 mod 64 =? 0) =
                 Nat.eqb (S (length msg mod 64)) 64).
  { rewrite Hadd, length_app. apply eq_true_iff_eq. rewrite Z.eqb_eq, Nat.eqb_eq.
    cbn [length]. clear -Hr. dlia. }
  assert (Hlen' : length (set (ctx_buffer ctx) (ctx_count ctx mod 64) b) = 64%nat)
    by (by rewrite length_set).
  unfold hash_update_byte. rewrite Hc64.
  destruct (Nat.eqb_spec (S (length msg mod 64)) 64) as [E | E].
  - rewrite E, take_ge in Htk by lia.
    assert (Hq : (length (msg ++ [b]) / 64 = S (length msg / 64))%nat)
      by (rewrite length_app; cbn [length]; dlia).
    assert (Hm : (length (msg ++ [b]) mod 64 = 0)%nat) by (rewrite length_app; cbn [length]; dlia).
    split; cbn [ctx_state ctx_count ctx_buffer]; [done..| |].
    + rewrite Hq. cbn [compress]. rewrite compress_app by lia. rewrite Hs. f_equal.
      unfold block. rewrite <- Htk, take_ge by lia. done.
    + rewrite Hm, Hq, drop_ge; [done |]. rewrite length_app. cbn [length]. lia.
  - assert (Hq : (length (msg ++ [b]) / 64 = length msg / 64)%nat)
      by (rewrite length_app; cbn [length]; dlia).
    assert (Hm : (length (msg ++ [b]) mod 64 = S (length msg mod 64))%nat)
      by (rewrite length_app; cbn [length]; dlia).
    split; cbn [ctx_state ctx_count ctx_buffer]; [done..| |].
    + rewrite Hq, compress_app by lia. done.
    + by rewrite Hm, Hq.
Qed.

Lemma absorbed_update (data : list Z) (ctx : hash_ctx) (msg : list Z) :
  Z.of_nat (length msg + length data) < 2 ^ 64 ->
  absorbed ctx msg -> absorbed (hash_update ctx data) (msg ++ data).
Proof.
  revert ctx msg. induction data as [|b data IH]; intros ctx msg Hlt Habs; simpl.
  - by rewrite app_nil_r.
  - replace (msg ++ b :: data) with ((msg ++ [b]) ++ data) by (by rewrite <- app_assoc).
    simpl in Hlt. apply IH; [rewrite length_app; simpl; lia |].
    apply absorbed_byte; [lia | done].
Qed.

(** Any sequence of updates absorbs the concatenation. *)
Lemma absorbed_fold (chunks : list (list Z)) (ctx : hash_ctx) (msg : list Z) :
  Z.of_nat (length msg + length (concat chunks)) < 2 ^ 64 ->
  absorbed ctx msg -> absorbed (fold_left hash_update chunks ctx) (msg ++ concat chunks).
Proof.
  revert ctx msg. induction chunks as [|c chunks IH]; intros ctx msg Hlt Habs; simpl.
  - by rewrite app_nil_r.
  - simpl in Hlt. rewrite length_app in Hlt.
    rewrite app_assoc. apply IH; [rewrite length_app; lia |].
    apply absorbed_update; [lia | done].
Qed.

Lemma absorbed_updates (chunks : list (list Z)) (ctx : hash_ctx) :
  length (ctx_buffer ctx) = 64%nat -> Z.of_nat (length (concat chunks)) < 2 ^ 64 ->
  absorbed (fold_left hash_update chunks (hash_init ctx)) (concat chunks).
Proof.
  intros Hb Hlt. change (concat chunks) with ([] ++ concat chunks).
  apply absorbed_fold; [simpl; lia |]. by apply absorbed_init.
Qed.

(** * Padding *)

Lemma pad_write_ok (p : list Z) (i v : Z) :
  0 <= i < Z.of_nat (length p) -> pad_write p i v = Ret (set p i v).
Proof.
  intros Hi. unfold pad_write, set_chk.
  destruct (Z.leb_spec 0 i), (Z.ltb_spec i (Z.of_nat (length p))); simpl; (lia || done).
Qed.

Lemma pad_write_oob (p : list Z) (i v : Z) :
  Z.of_nat (length p) <= i -> pad_write p i v = Crash.
Proof.
  intros Hi. unfold pad_write, set_chk.
  destruct (Z.leb_spec 0 i), (Z.ltb_spec i (Z.of_nat (length p))); simpl; (lia || done).
Qed.

(** A loop of in-range writes fills a segment and touches nothing else. *)
Lemma pad_fill (f : Z -> Z) (off i : Z) (n : nat) (p0 : list Z) :
  0 <= off + i -> off + i + Z.of_nat n <= Z.of_nat (length p0) ->
  exists p, ofor_from i n (fun j p => pad_write p (off + j) (f j)) p0 = Ret p /\
    length p = length p0 /\
    forall k, 0 <= k < Z.of_nat (length p0) ->
      get p k = if (off + i <=? k) && (k <? off + i + Z.of_nat n)
                then f (k - off) else get p0 k.
Proof.
  intros H1 H2.
  destruct (ofor_from_inv
    (fun j p => length p = length p0 /\ forall k, 0 <= k < Z.of_nat (length p0) ->
      get p k = if (off + i <=? k) && (k <? off + j) then f (k - off) else get p0 k)
    i n (fun j p => pad_write p (off + j) (f j)) p0) as (p & E & Hlen & Hk).
  - split; [done |]. intros k Hk. destruct ((off + i <=? k) && (k <? off + i)) eqn:E; [lia | done].
  - intros j p Hj [Hlen Hk]. eexists. split; [apply pad_write_ok; lia |].
    split; [by rewrite length_set |]. intros k Hk'.
    destruct (Z.eq_dec k (off + j)) as [-> | Hne].
    + rewrite get_set_eq by lia.
      replace ((off + i <=? off + j) && (off + j <? off + (j + 1))) with true by lia.
      f_equal. lia.
    + rewrite get_set_ne, Hk by lia.
      replace (k <? off + (j + 1)) with (k <? off + j) by lia. done.
  - exists p. repeat split; [done..|]. intros k Hk'. rewrite Hk by done.
    by replace (off + (i + Z.of_nat n)) with (off + i + Z.of_nat n) by lia.
Qed.

(** A loop of writes that runs past the end of the array crashes. *)
Lemma pad_fill_crash (f : Z -> Z) (off i : Z) (n : nat) (p0 : list Z) :
  0 <= off + i <= Z.of_nat (length p0) -> Z.of_nat (length p0) < off + i + Z.of_nat n ->
  ofor_from i n (fun j p => pad_write p (off + j) (f j)) p0 = Crash.
Proof.
  intros H1 H2.
  set (k := Z.to_nat (Z.of_nat (length p0) - (off + i))).
  replace n with (k + S (n - k - 1))%nat by lia. rewrite ofor_from_app.
  destruct (pad_fill f off i k p0) as (p & -> & Hlen & _); [lia.. |]. simpl.
  rewrite pad_write_oob by lia. done.
Qed.

Lemma hash_pad_len_eq (count : Z) :
  0 <= count ->
  hash_pad_len count = if count mod 64 <? 56 then 64 - count mod 64 else 128 - count mod 64.
Proof.
  intros Hc. pose proof (Z.mod_pos_bound count 64 ltac:(lia)).
  unfold hash_pad_len. rewrite (wrap_small 32 (64 - count mod 64)) by (split; lia).
  destruct (Z.ltb_spec (64 - count mod 64) 9), (Z.ltb_spec (count mod 64) 56); try lia.
  rewrite wrap_small by (split; lia). lia.
Qed.

(** What the three stores leave in [padding] when they fit in it. *)
Lemma hash_padding_ok (padding0 : list Z) (count : Z) :
  length padding0 = 64%nat -> 0 <= count -> count mod 64 < 56 ->
  exists p, hash_padding padding0 count = Ret p /\ length p = 64%nat /\
    take (Z.to_nat (64 - count mod 64)) p =
      [0x80] ++ replicate (Z.to_nat (55 - count mod 64)) 0 ++ len_bytes count.
Proof.
  intros Hlen Hc Hr. pose proof (Z.mod_pos_bound count 64 ltac:(lia)) as Hm.
  unfold hash_padding. rewrite hash_pad_len_eq by done.
  replace (count mod 64 <? 56) with true by lia.
  set (r := count mod 64) in *. rewrite pad_write_ok by lia. cbn [obind].
  destruct (pad_fill (fun _ => 0) 0 1 (Z.to_nat (64 - r - 1)) (set padding0 0 128))
    as (p1 & E1 & L1 & G1); [lia | rewrite length_set; lia |].
  change (fun (j : Z) (p : list Z) => pad_write p (0 + j) 0)
    with (fun (j : Z) (p : list Z) => pad_write p j 0) in E1.
  rewrite E1. cbn [obind]. rewrite length_set in L1, G1.
  destruct (pad_fill (fun i => Z.land (Z.shiftr (u64 (count * 8)) (algo_len_shift i)) 255)
              (64 - r - 8) 0 8 p1) as (p2 & E2 & L2 & G2); [lia.. |].
  rewrite E2. exists p2. split; [done |]. split; [lia |].
  apply list_eq_get.
  { rewrite length_take, !length_app, length_replicate. simpl. lia. }
  intros k Hk. rewrite length_take in Hk.
  assert (Hg : get (take (Z.to_nat (64 - r)) p2) k = get p2 k).
  { unfold get. rewrite !nth_lookup, lookup_take by lia.
    by rewrite decide_True by lia. }
  rewrite Hg, G2 by lia. clear Hg E1 E2.
  destruct (Z.eq_dec k 0) as [-> | Hk0].
  { replace ((64 - r - 8 + 0 <=? 0) && _) with false by lia.
    rewrite G1, get_set_eq by lia. done. }
  assert (Hc0 : forall l, get (128 :: l) k = get l (k - 1)).
  { intros l. unfold get. replace (Z.to_nat k) with (S (Z.to_nat (k - 1))) by lia. done. }
  cbn [app]. rewrite Hc0. unfold get at 2. rewrite nth_lookup.
  destruct (Z.ltb_spec k (64 - r - 8)).
  - rewrite lookup_app_l by (rewrite length_replicate; lia).
    rewrite lookup_replicate_2 by lia.
    replace ((64 - r - 8 + 0 <=? k) && _) with false by lia.
    rewrite G1 by lia. by replace ((0 + 1 <=? k) && _) with true by lia.
  - rewrite lookup_app_r by (rewrite length_replicate; lia). rewrite length_replicate.
    replace ((64 - r - 8 + 0 <=? k) && _) with true by lia.
    set (j := k - (64 - r - 8)).
    replace (Z.to_nat (k - 1) - Z.to_nat (55 - r))%nat with (Z.to_nat j) by lia.
    assert (j = 0 \/ j = 1 \/ j = 2 \/ j = 3 \/ j = 4 \/ j = 5 \/ j = 6 \/ j = 7) as Hj by lia.
    by destruct Hj as [-> | [-> | [-> | [-> | [-> | [-> | [-> | ->]]]]]]].
Qed.

(** When the last block holds 56 bytes or more, the padding is longer than the
    array it is built in. *)
Lemma hash_padding_crash (padding0 : list Z) (count : Z) :
  length padding0 = 64%nat -> 0 <= count -> 56 <= count mod 64 ->
  hash_padding padding0 count = Crash.
Proof.
  intros Hlen Hc Hr. pose proof (Z.mod_pos_bound count 64 ltac:(lia)) as Hm.
  unfold hash_padding. rewrite hash_pad_len_eq by done.
  replace (count mod 64 <? 56) with false by lia.
  rewrite pad_write_ok by lia. cbn [obind].
  change (fun (j : Z) (p : list Z) => pad_write p j 0)
    with (fun (j : Z) (p : list Z) => pad_write p (0 + j) 0).
  rewrite (pad_fill_crash (fun _ => 0)); [done | rewrite length_set; lia..].
Qed.

(** * Correctness of the streaming code *)

Lemma md_pad_length (msg : list Z) :
  (length (md_pad msg) mod 64 = 0)%nat.
Proof.
  unfold md_pad. rewrite !length_app, length_replicate. cbn [length map len_bytes]. dlia.
Qed.

(** [final] on a context that has absorbed [msg] gives the digest of the padded
    message, whatever the uninitialised array held. *)
Lemma hash_final_ok (padding0 : list Z) (ctx : hash_ctx) (msg : list Z) :
  length padding0 = 64%nat -> absorbed ctx msg ->
  Z.of_nat (length msg) mod 64 < 56 -> Z.of_nat (length msg) + 64 < 2 ^ 64 ->
  exists ctx', hash_final padding0 ctx = Ret (hash_spec msg, ctx').
Proof.
  intros Hp Habs Hr Hlt. unfold hash_final. rewrite (abs_count _ _ Habs).
  destruct (hash_padding_ok padding0 (Z.of_nat (length msg))) as (p & -> & Hl & Htk);
    [done | lia | done |].
  cbn [obind]. rewrite hash_pad_len_eq by lia.
  replace (Z.of_nat (length msg) mod 64 <? 56) with true by lia.
  rewrite Htk. eexists. f_equal. f_equal. unfold hash_spec.
  assert (Hpad : msg ++ [128] ++ replicate (Z.to_nat (55 - Z.of_nat (length msg) mod 64)) 0
                   ++ len_bytes (Z.of_nat (length msg)) = md_pad msg).
  { unfold md_pad. do 4 f_equal. dlia. }
  assert (Habs' := absorbed_update
    ([128] ++ replicate (Z.to_nat (55 - Z.of_nat (length msg) mod 64)) 0
       ++ len_bytes (Z.of_nat (length msg))) ctx msg).
  rewrite Hpad in Habs'. f_equal. apply abs_state, Habs'; [| done].
  rewrite !length_app, length_replicate. cbn [length map len_bytes].
  pose proof (Z.mod_pos_bound (Z.of_nat (length msg)) 64). lia.
Qed.

Lemma hash_final_crash (padding0 : list Z) (ctx : hash_ctx) (msg : list Z) :
  length padding0 = 64%nat -> absorbed ctx msg ->
  56 <= Z.of_nat (length msg) mod 64 ->
  hash_final padding0 ctx = Crash.
Proof.
  intros Hp Habs Hr. unfold hash_final. rewrite (abs_count _ _ Habs).
  rewrite hash_padding_crash by (done || lia). done.
Qed.

Lemma hash_oneshot_ok (ctx0 : hash_ctx) (padding0 data : list Z) :
  length (ctx_buffer ctx0) = 64%nat -> length padding0 = 64%nat ->
  Z.of_nat (length data) < 2 ^ 32 -> Z.of_nat (length data) mod 64 < 56 ->
  hash_oneshot ctx0 padding0 data = Ret (hash_spec data).
Proof.
  intros Hb Hp Hlt Hr. unfold hash_oneshot.
  destruct (hash_final_ok padding0 (hash_update (hash_init ctx0) data) data)
    as (ctx' & ->); [done | | done | lia | done].
  change data with ([] ++ data) at 2. apply absorbed_update; [simpl; lia |].
  by apply absorbed_init.
Qed.

Lemma hash_oneshot_crash (ctx0 : hash_ctx) (padding0 data : list Z) :
  length (ctx_buffer ctx0) = 64%nat -> length padding0 = 64%nat ->
  Z.of_nat (length data) < 2 ^ 32 -> 56 <= Z.of_nat (length data) mod 64 ->
  hash_oneshot ctx0 padding0 data = Crash.
Proof.
  intros Hb Hp Hlt Hr. unfold hash_oneshot.
  rewrite (hash_final_crash padding0 _ data); [done | done | | done].
  change data with ([] ++ data) at 2. apply absorbed_update; [simpl; lia |].
  by apply absorbed_init.
Qed.

End Streaming.
