(* ===== verification/Md5.v ===== *)
(** MD5 (src/crypto/hash/md5.c): the unrolled compression function and the
    public functions, an instance of the streaming code of MerkleDamgard.v, and
    the proof that the 64 unrolled steps are the loop of RFC 1321. *)

From S2P Require Import Prelude CryptoInternal MerkleDamgard.

Definition MD5_INIT : list Z :=
  [0x67452301; 0xefcdab89; 0x98badcfe; 0x10325476].

Definition MD5_K : list Z :=
  [0xd76aa478; 0xe8c7b756; 0x242070db; 0xc1bdceee;
    0xf57c0faf; 0x4787c62a; 0xa8304613; 0xfd469501;
    0x698098d8; 0x8b44f7af; 0xffff5bb1; 0x895cd7be;
    0x6b901122; 0xfd987193; 0xa679438e; 0x49b40821;
    0xf61e2562; 0xc040b340; 0x265e5a51; 0xe9b6c7aa;
    0xd62f105d; 0x02441453; 0xd8a1e681; 0xe7d3fbc8;
    0x21e1cde6; 0xc33707d6; 0xf4d50d87; 0x455a14ed;
    0xa9e3e905; 0xfcefa3f8; 0x676f02d9; 0x8d2a4c8a;
    0xfffa3942; 0x8771f681; 0x6d9d6122; 0xfde5380c;
    0xa4beea44; 0x4bdecfa9; 0xf6bb4b60; 0xbebfbc70;
    0x289b7ec6; 0xeaa127fa; 0xd4ef3085; 0x04881d05;
    0xd9d4d039; 0xe6db99e5; 0x1fa27cf8; 0xc4ac5665;
    0xf4292244; 0x432aff97; 0xab9423a7; 0xfc93a039;
    0x655b59c3; 0x8f0ccc92; 0xffeff47d; 0x85845dd1;
    0x6fa87e4f; 0xfe2ce6e0; 0xa3014314; 0x4e0811a1;
    0xf7537e82; 0xbd3af235; 0x2ad7d2bb; 0xeb86d391].

Definition MD5_S : list Z :=
  [7; 12; 17; 22;  7; 12; 17; 22;  7; 12; 17; 22;  7; 12; 17; 22;
    5;  9; 14; 20;  5;  9; 14; 20;  5;  9; 14; 20;  5;  9; 14; 20;
    4; 11; 16; 23;  4; 11; 16; 23;  4; 11; 16; 23;  4; 11; 16; 23;
    6; 10; 15; 21;  6; 10; 15; 21;  6; 10; 15; 21;  6; 10; 15; 21].

Section Functions.
#[local] Open Scope w32_scope.

Definition MD5_F (x y z : Z) : Z := (x ⊼ y) ⊽ (wnot 32 x ⊼ z).
Definition MD5_G (x y z : Z) : Z := (x ⊼ z) ⊽ (y ⊼ wnot 32 z).
Definition MD5_H (x y z : Z) : Z := x ⊻ y ⊻ z.
Definition MD5_I (x y z : Z) : Z := y ⊻ (x ⊽ wnot 32 z).

(** The three assignments to [a] of each step macro; the value is the new [a]. *)
Definition MD5_FF (a b c d k s i : Z) : Z := rotl32 (a ⊞ (MD5_F b c d ⊞ k ⊞ i)) s ⊞ b.
Definition MD5_GG (a b c d k s i : Z) : Z := rotl32 (a ⊞ (MD5_G b c d ⊞ k ⊞ i)) s ⊞ b.
Definition MD5_HH (a b c d k s i : Z) : Z := rotl32 (a ⊞ (MD5_H b c d ⊞ k ⊞ i)) s ⊞ b.
Definition MD5_II (a b c d k s i : Z) : Z := rotl32 (a ⊞ (MD5_I b c d ⊞ k ⊞ i)) s ⊞ b.

(** Unpacking the block into sixteen little-endian words. *)
Definition md5_unpack (block : list Z) : list Z :=
  for_range 16 (fun i x => set x i (load_le32 block (i * 4))) (replicate 16 0).

(** The four local variables, and the four argument orders in which the macros
    are called: (a,b,c,d), (d,a,b,c), (c,d,a,b) and (b,c,d,a). *)
Record md5_vars := mk_md5 { ma : Z; mb : Z; mc : Z; md : Z }.

Definition on_a (op : Z -> Z -> Z -> Z -> Z -> Z -> Z -> Z) (k s i : Z) (v : md5_vars) : md5_vars :=
  let 'mk_md5 a b c d := v in mk_md5 (op a b c d k s i) b c d.
Definition on_d (op : Z -> Z -> Z -> Z -> Z -> Z -> Z -> Z) (k s i : Z) (v : md5_vars) : md5_vars :=
  let 'mk_md5 a b c d := v in mk_md5 a b c (op d a b c k s i).
Definition on_c (op : Z -> Z -> Z -> Z -> Z -> Z -> Z -> Z) (k s i : Z) (v : md5_vars) : md5_vars :=
  let 'mk_md5 a b c d := v in mk_md5 a b (op c d a b k s i) d.
Definition on_b (op : Z -> Z -> Z -> Z -> Z -> Z -> Z -> Z) (k s i : Z) (v : md5_vars) : md5_vars :=
  let 'mk_md5 a b c d := v in mk_md5 a (op b c d a k s i) c d.

(** The 64 statements of the four rounds, in order. *)
Definition md5_steps (x : list Z) : list (md5_vars -> md5_vars) :=
  [on_a MD5_FF (get x 0) (get MD5_S 0) (get MD5_K 0);
   on_d MD5_FF (get x 1) (get MD5_S 1) (get MD5_K 1);
   on_c MD5_FF (get x 2) (get MD5_S 2) (get MD5_K 2);
   on_b MD5_FF (get x 3) (get MD5_S 3) (get MD5_K 3);
   on_a MD5_FF (get x 4) (get MD5_S 4) (get MD5_K 4);
   on_d MD5_FF (get x 5) (get MD5_S 5) (get MD5_K 5);
   on_c MD5_FF (get x 6) (get MD5_S 6) (get MD5_K 6);
   on_b MD5_FF (get x 7) (get MD5_S 7) (get MD5_K 7);
   on_a MD5_FF (get x 8) (get MD5_S 8) (get MD5_K 8);
   on_d MD5_FF (get x 9) (get MD5_S 9) (get MD5_K 9);
   on_c MD5_FF (get x 10) (get MD5_S 10) (get MD5_K 10);
   on_b MD5_FF (get x 11) (get MD5_S 11) (get MD5_K 11);
   on_a MD5_FF (get x 12) (get MD5_S 12) (get MD5_K 12);
   on_d MD5_FF (get x 13) (get MD5_S 13) (get MD5_K 13);
   on_c MD5_FF (get x 14) (get MD5_S 14) (get MD5_K 14);
   on_b MD5_FF (get x 15) (get MD5_S 15) (get MD5_K 15);
   on_a MD5_GG (get x 1) (get MD5_S 16) (get MD5_K 16);
   on_d MD5_GG (get x 6) (get MD5_S 17) (get MD5_K 17);
   on_c MD5_GG (get x 11) (get MD5_S 18) (get MD5_K 18);
   on_b MD5_GG (get x 0) (get MD5_S 19) (get MD5_K 19);
   on_a MD5_GG (get x 5) (get MD5_S 20) (get MD5_K 20);
   on_d MD5_GG (get x 10) (get MD5_S 21) (get MD5_K 21);
   on_c MD5_GG (get x 15) (get MD5_S 22) (get MD5_K 22);
   on_b MD5_GG (get x 4) (get MD5_S 23) (get MD5_K 23);
   on_a MD5_GG (get x 9) (get MD5_S 24) (get MD5_K 24);
   on_d MD5_GG (get x 14) (get MD5_S 25) (get MD5_K 25);
   on_c MD5_GG (get x 3) (get MD5_S 26) (get MD5_K 26);
   on_b MD5_GG (get x 8) (get MD5_S 27) (get MD5_K 27);
   on_a MD5_GG (get x 13) (get MD5_S 28) (get MD5_K 28);
   on_d MD5_GG (get x 2) (get MD5_S 29) (get MD5_K 29);
   on_c MD5_GG (get x 7) (get MD5_S 30) (get MD5_K 30);
   on_b MD5_GG (get x 12) (get MD5_S 31) (get MD5_K 31);
   on_a MD5_HH (get x 5) (get MD5_S 32) (get MD5_K 32);
   on_d MD5_HH (get x 8) (get MD5_S 33) (get MD5_K 33);
   on_c MD5_HH (get x 11) (get MD5_S 34) (get MD5_K 34);
   on_b MD5_HH (get x 14) (get MD5_S 35) (get MD5_K 35);
   on_a MD5_HH (get x 1) (get MD5_S 36) (get MD5_K 36);
   on_d MD5_HH (get x 4) (get MD5_S 37) (get MD5_K 37);
   on_c MD5_HH (get x 7) (get MD5_S 38) (get MD5_K 38);
   on_b MD5_HH (get x 10) (get MD5_S 39) (get MD5_K 39);
   on_a MD5_HH (get x 13) (get MD5_S 40) (get MD5_K 40);
   on_d MD5_HH (get x 0) (get MD5_S 41) (get MD5_K 41);
   on_c MD5_HH (get x 3) (get MD5_S 42) (get MD5_K 42);
   on_b MD5_HH (get x 6) (get MD5_S 43) (get MD5_K 43);
   on_a MD5_HH (get x 9) (get MD5_S 44) (get MD5_K 44);
   on_d MD5_HH (get x 12) (get MD5_S 45) (get MD5_K 45);
   on_c MD5_HH (get x 15) (get MD5_S 46) (get MD5_K 46);
   on_b MD5_HH (get x 2) (get MD5_S 47) (get MD5_K 47);
   on_a MD5_II (get x 0) (get MD5_S 48) (get MD5_K 48);
   on_d MD5_II (get x 7) (get MD5_S 49) (get MD5_K 49);
   on_c MD5_II (get x 14) (get MD5_S 50) (get MD5_K 50);
   on_b MD5_II (get x 5) (get MD5_S 51) (get MD5_K 51);
   on_a MD5_II (get x 12) (get MD5_S 52) (get MD5_K 52);
   on_d MD5_II (get x 3) (get MD5_S 53) (get MD5_K 53);
   on_c MD5_II (get x 10) (get MD5_S 54) (get MD5_K 54);
   on_b MD5_II (get x 1) (get MD5_S 55) (get MD5_K 55);
   on_a MD5_II (get x 8) (get MD5_S 56) (get MD5_K 56);
   on_d MD5_II (get x 15) (get MD5_S 57) (get MD5_K 57);
   on_c MD5_II (get x 6) (get MD5_S 58) (get MD5_K 58);
   on_b MD5_II (get x 13) (get MD5_S 59) (get MD5_K 59);
   on_a MD5_II (get x 4) (get MD5_S 60) (get MD5_K 60);
   on_d MD5_II (get x 11) (get MD5_S 61) (get MD5_K 61);
   on_c MD5_II (get x 2) (get MD5_S 62) (get MD5_K 62);
   on_b MD5_II (get x 9) (get MD5_S 63) (get MD5_K 63)].

Definition md5_transform (state block : list Z) : list Z :=
  let x := md5_unpack block in
  let v := mk_md5 (get state 0) (get state 1) (get state 2) (get state 3) in
  let v := fold_left (fun v step => step v) (md5_steps x) v in
  [get state 0 ⊞ ma v; get state 1 ⊞ mb v; get state 2 ⊞ mc v; get state 3 ⊞ md v].

End Functions.

#[export] Instance md5_algo : HashAlgo := {
  algo_init := MD5_INIT;
  algo_transform := md5_transform;
  algo_len_shift i := i * 8;
  algo_out_shift j := j * 8;
  algo_words := 4
}.

Definition crypto_md5_init : hash_ctx -> hash_ctx := hash_init (A := md5_algo).

Definition crypto_md5_update : hash_ctx -> list Z -> hash_ctx :=
  hash_update (A := md5_algo).

Definition crypto_md5_final : list Z -> hash_ctx -> outcome (list Z * hash_ctx) :=
  hash_final (A := md5_algo).

Definition crypto_md5 : hash_ctx -> list Z -> list Z -> outcome (list Z) :=
  hash_oneshot (A := md5_algo).

(** * The loop form of RFC 1321 *)

Section Reference.
#[local] Open Scope w32_scope.

(** The round function and the word index of step [i]. *)
Definition md5_ref_fun (i : Z) (b c d : Z) : Z :=
  if i <? 16 then MD5_F b c d else if i <? 32 then MD5_G b c d
  else if i <? 48 then MD5_H b c d else MD5_I b c d.

Definition md5_ref_index (i : Z) : Z :=
  if i <? 16 then i else if i <? 32 then (5 * i + 1) mod 16
  else if i <? 48 then (3 * i + 5) mod 16 else (7 * i) mod 16.

(** One step: compute a word, then rename the four variables. *)
Definition md5_ref_step (x : list Z) (i : Z) (v : Z * Z * Z * Z) : Z * Z * Z * Z :=
  let '(a, b, c, d) := v in
  (d, rotl32 (a ⊞ (md5_ref_fun i b c d ⊞ get x (md5_ref_index i) ⊞ get MD5_K i)) (get MD5_S i) ⊞ b,
   b, c).

Definition md5_ref (x : list Z) (v : Z * Z * Z * Z) : Z * Z * Z * Z :=
  for_range 64 (md5_ref_step x) v.

Definition quad_vars (v : Z * Z * Z * Z) : md5_vars :=
  let '(a, b, c, d) := v in mk_md5 a b c d.

End Reference.

Lemma md5_step_eq (st : md5_vars -> md5_vars) (r : list (md5_vars -> md5_vars))
    (v v' : md5_vars) (x : list Z) (i j : Z) (n : nat) (w w' : Z * Z * Z * Z) :
  st v = v' -> md5_ref_step x i w = w' -> i + 1 = j ->
  fold_left (fun v step => step v) r v' = quad_vars (for_from j n (md5_ref_step x) w') ->
  fold_left (fun v step => step v) (st :: r) v =
  quad_vars (for_from i (S n) (md5_ref_step x) w).
Proof. by intros <- <- <-. Qed.

(** Take one statement of the code and one iteration of the loop; they compute
    the same new word, which then becomes an opaque variable. *)
Ltac md5_step :=
  match goal with
  | |- fold_left ?F (?st :: ?r) ?v = quad_vars (for_from ?i (S ?n) (md5_ref_step ?x) ?w) =>
      let v' := eval cbv beta iota zeta delta [on_a on_b on_c on_d] in (st v) in
      let j := eval vm_compute in (i + 1) in
      let w' := eval cbv beta iota zeta delta [md5_ref_step] in (md5_ref_step x i w) in
      match w' with
      | (?d, ?m, ?b, ?c) =>
          match v' with
          | context [?op ?p ?q ?t ?u ?k ?s ?z] =>
              apply (md5_step_eq st r v v' x i j n w (d, op p q t u k s z, b, c)
                       eq_refl eq_refl eq_refl);
              let y := fresh "y" in
              generalize (op p q t u k s z); intros y; clear p
          end
      end
  end.

(** The unrolled code computes the reference loop: the code renames variables
    where the loop moves values. *)
Lemma md5_steps_ref (x : list Z) (a b c d : Z) :
  fold_left (fun v step => step v) (md5_steps x) (mk_md5 a b c d) =
  quad_vars (md5_ref x (a, b, c, d)).
Proof.
  unfold md5_ref, for_range, md5_steps. do 64 md5_step. reflexivity.
Qed.

(** The unrolled compression function of MD5 is the 64-step loop of RFC 1321
    (round functions F, G, H, I and word order i, 5i+1, 3i+5, 7i mod 16), for every
    state and every block. *)
Theorem md5_transform_rfc1321 (state block : list Z) :
  md5_transform state block =
  let '(a, b, c, d) := md5_ref (md5_unpack block)
        (get state 0, get state 1, get state 2, get state 3) in
  [add32 (get state 0) a; add32 (get state 1) b; add32 (get state 2) c; add32 (get state 3) d].
Proof.
  unfold md5_transform. rewrite md5_steps_ref.
  by destruct (md5_ref _ _) as [[[a b] c] d].
Qed.
