(* ===== verification/Sha.v ===== *)
(** SHA-1 (src/crypto/hash/sha1.c) and SHA-256 (src/crypto/hash/sha256.c): the compression
    functions and the public functions, instances of the streaming code of
    MerkleDamgard.v. *)

From S2P Require Import Prelude CryptoInternal MerkleDamgard.

(** * SHA-1 *)

Definition SHA1_INIT : list Z :=
  [0x67452301; 0xefcdab89; 0x98badcfe; 0x10325476; 0xc3d2e1f0].

Definition SHA1_K0 : Z := 0x5a827999.
Definition SHA1_K1 : Z := 0x6ed9eba1.
Definition SHA1_K2 : Z := 0x8f1bbcdc.
Definition SHA1_K3 : Z := 0xca62c1d6.

Section Functions.
#[local] Open Scope w32_scope.

Definition SHA1_F0 (x y z : Z) : Z := (x ⊼ y) ⊽ (wnot 32 x ⊼ z).
Definition SHA1_F1 (x y z : Z) : Z := x ⊻ y ⊻ z.
Definition SHA1_F2 (x y z : Z) : Z := (x ⊼ y) ⊽ (x ⊼ z) ⊽ (y ⊼ z).
Definition SHA1_F3 (x y z : Z) : Z := x ⊻ y ⊻ z.

(** The message schedule [w[80]]. *)
Definition sha1_schedule (block : list Z) : list Z :=
  let w := for_range 16 (fun i w => set w i (load_be32 block (i * 4))) (replicate 80 0) in
  for_from 16 64 (fun i w =>
    set w i (rotl32 (get w (i - 3) ⊻ get w (i - 8) ⊻ get w (i - 14) ⊻ get w (i - 16)) 1)) w.

Record sha1_vars := mk_vars1 { sa : Z; sb : Z; sc : Z; sd : Z; se : Z }.

(** One iteration of the main loop. *)
Definition sha1_round (w : list Z) (i : Z) (v : sha1_vars) : sha1_vars :=
  let temp :=
    if i <? 20 then
      rotl32 (sa v) 5 ⊞ SHA1_F0 (sb v) (sc v) (sd v) ⊞ se v ⊞ get w i ⊞ SHA1_K0
    else if i <? 40 then
      rotl32 (sa v) 5 ⊞ SHA1_F1 (sb v) (sc v) (sd v) ⊞ se v ⊞ get w i ⊞ SHA1_K1
    else if i <? 60 then
      rotl32 (sa v) 5 ⊞ SHA1_F2 (sb v) (sc v) (sd v) ⊞ se v ⊞ get w i ⊞ SHA1_K2
    else
      rotl32 (sa v) 5 ⊞ SHA1_F3 (sb v) (sc v) (sd v) ⊞ se v ⊞ get w i ⊞ SHA1_K3 in
  mk_vars1 temp (sa v) (rotl32 (sb v) 30) (sc v) (sd v).

Definition sha1_transform (state block : list Z) : list Z :=
  let w := sha1_schedule block in
  let v := mk_vars1 (get state 0) (get state 1) (get state 2) (get state 3) (get state 4) in
  let v := for_range 80 (sha1_round w) v in
  [get state 0 ⊞ sa v; get state 1 ⊞ sb v; get state 2 ⊞ sc v;
   get state 3 ⊞ sd v; get state 4 ⊞ se v].

End Functions.

#[export] Instance sha1_algo : HashAlgo := {
  algo_init := SHA1_INIT;
  algo_transform := sha1_transform;
  algo_len_shift i := 56 - i * 8;
  algo_out_shift j := 24 - j * 8;
  algo_words := 5
}.

Definition crypto_sha1_init : hash_ctx -> hash_ctx := hash_init (A := sha1_algo).

Definition crypto_sha1_update : hash_ctx -> list Z -> hash_ctx :=
  hash_update (A := sha1_algo).

Definition crypto_sha1_final : list Z -> hash_ctx -> outcome (list Z * hash_ctx) :=
  hash_final (A := sha1_algo).

Definition crypto_sha1 : hash_ctx -> list Z -> list Z -> outcome (list Z) :=
  hash_oneshot (A := sha1_algo).

(** * SHA-256 *)

Definition SHA256_INIT : list Z :=
  [0x6a09e667; 0xbb67ae85; 0x3c6ef372; 0xa54ff53a;
   0x510e527f; 0x9b05688c; 0x1f83d9ab; 0x5be0cd19].

Definition SHA256_K : list Z :=
  [0x428A2F98; 0x71374491; 0xB5C0FBCF; 0xE9B5DBA5;
   0x3956C25B; 0x59F111F1; 0x923F82A4; 0xAB1C5ED5;
   0xD807AA98; 0x12835B01; 0x243185BE; 0x550C7DC3;
   0x72BE5D74; 0x80DEB1FE; 0x9BDC06A7; 0xC19BF174;
   0xE49B69C1; 0xEFBE4786; 0x0FC19DC6; 0x240CA1CC;
   0x2DE92C6F; 0x4A7484AA; 0x5CB0A9DC; 0x76F988DA;
   0x983E5152; 0xA831C66D; 0xB00327C8; 0xBF597FC7;
   0xC6E00BF3; 0xD5A79147; 0x06CA6351; 0x14292967;
   0x27B70A85; 0x2E1B2138; 0x4D2C6DFC; 0x53380D13;
   0x650A7354; 0x766A0ABB; 0x81C2C92E; 0x92722C85;
   0xA2BFE8A1; 0xA81A664B; 0xC24B8B70; 0xC76C51A3;
   0xD192E819; 0xD6990624; 0xF40E3585; 0x106AA070;
   0x19A4C116; 0x1E376C08; 0x2748774C; 0x34B0BCB5;
   0x391C0CB3; 0x4ED8AA4A; 0x5B9CCA4F; 0x682E6FF3;
   0x748F82EE; 0x78A5636F; 0x84C87814; 0x8CC70208;
   0x90BEFFFA; 0xA4506CEB; 0xBEF9A3F7; 0xC67178F2].

Section Functions.
#[local] Open Scope w32_scope.

Definition SHA256_Ch (x y z : Z) : Z := (x ⊼ y) ⊻ (wnot 32 x ⊼ z).
Definition SHA256_Maj (x y z : Z) : Z := (x ⊼ y) ⊻ (x ⊼ z) ⊻ (y ⊼ z).
Definition SHA256_Sigma0 (x : Z) : Z := rotr32 x 2 ⊻ rotr32 x 13 ⊻ rotr32 x 22.
Definition SHA256_Sigma1 (x : Z) : Z := rotr32 x 6 ⊻ rotr32 x 11 ⊻ rotr32 x 25.
Definition SHA256_sigma0 (x : Z) : Z := rotr32 x 7 ⊻ rotr32 x 18 ⊻ Z.shiftr x 3.
Definition SHA256_sigma1 (x : Z) : Z := rotr32 x 17 ⊻ rotr32 x 19 ⊻ Z.shiftr x 10.

(** The message schedule [w[64]]: the two loops that fill it. *)
Definition sha256_schedule (block : list Z) : list Z :=
  let w := for_range 16 (fun i w => set w i (load_be32 block (i * 4))) (replicate 64 0) in
  for_from 16 48 (fun i w =>
    set w i (SHA256_sigma1 (get w (i - 2)) ⊞ get w (i - 7) ⊞
             SHA256_sigma0 (get w (i - 15)) ⊞ get w (i - 16))) w.

(** The eight working variables. *)
Record sha256_vars := mk_vars { va : Z; vb : Z; vc : Z; vd : Z; ve : Z; vf : Z; vg : Z; vh : Z }.

(** One iteration of the main loop. *)
Definition sha256_round (w : list Z) (i : Z) (v : sha256_vars) : sha256_vars :=
  let t1 := vh v ⊞ SHA256_Sigma1 (ve v) ⊞ SHA256_Ch (ve v) (vf v) (vg v)
              ⊞ get SHA256_K i ⊞ get w i in
  let t2 := SHA256_Sigma0 (va v) ⊞ SHA256_Maj (va v) (vb v) (vc v) in
  mk_vars (t1 ⊞ t2) (va v) (vb v) (vc v) (vd v ⊞ t1) (ve v) (vf v) (vg v).

Definition sha256_transform (state block : list Z) : list Z :=
  let w := sha256_schedule block in
  let v := mk_vars (get state 0) (get state 1) (get state 2) (get state 3)
                   (get state 4) (get state 5) (get state 6) (get state 7) in
  let v := for_range 64 (sha256_round w) v in
  [get state 0 ⊞ va v; get state 1 ⊞ vb v; get state 2 ⊞ vc v; get state 3 ⊞ vd v;
   get state 4 ⊞ ve v; get state 5 ⊞ vf v; get state 6 ⊞ vg v; get state 7 ⊞ vh v].

End Functions.

#[export] Instance sha256_algo : HashAlgo := {
  algo_init := SHA256_INIT;
  algo_transform := sha256_transform;
  algo_len_shift i := 56 - i * 8;
  algo_out_shift j := 24 - j * 8;
  algo_words := 8
}.

Definition crypto_sha256_init : hash_ctx -> hash_ctx := hash_init (A := sha256_algo).

Definition crypto_sha256_update : hash_ctx -> list Z -> hash_ctx :=
  hash_update (A := sha256_algo).

Definition crypto_sha256_final : list Z -> hash_ctx -> outcome (list Z * hash_ctx) :=
  hash_final (A := sha256_algo).

Definition crypto_sha256 : hash_ctx -> list Z -> list Z -> outcome (list Z) :=
  hash_oneshot (A := sha256_algo).

(** * Properties *)

Lemma sha256_schedule_words (block : list Z) :
  let w := for_range 16 (fun i w => set w i (load_be32 block (i * 4))) (replicate 64 0) in
  length w = 64%nat /\ forall t, 0 <= t < 16 -> get w t = load_be32 block (t * 4).
Proof.
  cbv zeta.
  apply (for_range_inv (fun i w => length w = 64%nat /\
    forall t, 0 <= t < i -> get w t = load_be32 block (t * 4)) 16).
  - split; [done | lia].
  - intros i w Hi [Hl Hw]. split; [by rewrite length_set |]. intros t Ht.
    destruct (Z.eq_dec t i) as [-> | Hne]; [by rewrite get_set_eq by lia |].
    rewrite get_set_ne by lia. apply Hw. lia.
Qed.

(** The two loops that fill [w[64]] compute the message schedule of FIPS 180-4:
    the first sixteen words are the big-endian words of the block, and every later
    word satisfies the schedule's recurrence over the finished array. *)
Theorem sha256_schedule_spec (block : list Z) :
  let w := sha256_schedule block in
  length w = 64%nat /\
  (forall t, 0 <= t < 16 -> get w t = load_be32 block (t * 4)) /\
  (forall t, 16 <= t < 64 ->
     get w t = u32 (SHA256_sigma1 (get w (t - 2)) + get w (t - 7)
                    + SHA256_sigma0 (get w (t - 15)) + get w (t - 16))).
Proof.
  cbv zeta. unfold sha256_schedule.
  destruct (sha256_schedule_words block) as [Hl Hw]. revert Hl Hw.
  generalize (for_range 16 (fun i w => set w i (load_be32 block (i * 4))) (replicate 64 0)).
  intros w0 Hl Hw.
  apply (for_from_inv (fun i w => length w = 64%nat /\
    (forall t, 0 <= t < 16 -> get w t = load_be32 block (t * 4)) /\
    (forall t, 16 <= t < i ->
       get w t = u32 (SHA256_sigma1 (get w (t - 2)) + get w (t - 7)
                      + SHA256_sigma0 (get w (t - 15)) + get w (t - 16)))) 16 48).
  { repeat split; [done | done | lia]. }
  intros j w Hj (Hl' & Hw' & Hr). split; [by rewrite length_set |]. split.
  - intros t Ht. rewrite get_set_ne by lia. by apply Hw'.
  - intros t Ht. rewrite (get_set_ne w j (t - 2)), (get_set_ne w j (t - 7)),
      (get_set_ne w j (t - 15)), (get_set_ne w j (t - 16)) by lia.
    destruct (Z.eq_dec t j) as [-> | Hne]; [| rewrite get_set_ne by lia; apply Hr; lia].
    rewrite get_set_eq by lia. unfold add32.
    rewrite wrap_add_l, <- !Z.add_assoc, wrap_add_l. f_equal. lia.
Qed.

(** The two logical functions of SHA-256 are, bit by bit, the choice and the
    majority of their arguments. *)
Theorem sha256_ch_maj_bits (x y z i : Z) :
  0 <= i < 32 ->
  Z.testbit (SHA256_Ch x y z) i = (if Z.testbit x i then Z.testbit y i else Z.testbit z i) /\
  Z.testbit (SHA256_Maj x y z) i =
    (2 <=? Z.b2z (Z.testbit x i) + Z.b2z (Z.testbit y i) + Z.b2z (Z.testbit z i)).
Proof.
  intros Hi. unfold SHA256_Ch, SHA256_Maj, wnot.
  rewrite !Z.lxor_spec, !Z.land_spec, wrap_testbit, Z.lnot_spec by lia.
  replace (i <? 32) with true by lia.
  by destruct (Z.testbit x i), (Z.testbit y i), (Z.testbit z i).
Qed.

Lemma sha256_ch_maj_bits_witness :
  Z.testbit (SHA256_Ch 1 1 0) 0 = true /\ Z.testbit (SHA256_Maj 1 1 0) 0 = true.
Proof. apply (sha256_ch_maj_bits 1 1 0 0). lia. Defined.
