(* ===== verification/ChaCha20.v ===== *)
(** ChaCha20 (src/crypto/cipher/chacha20.c): the context, the block function
    and the stream cipher, with the keystream specification of the loop of
    [crypto_chacha20_xor] and the decryption round trip. *)

From S2P Require Import Prelude CryptoInternal.

(** [crypto_chacha20_ctx_t] is its sixteen words of state. *)
Definition chacha_ctx : Type := list Z.

Section Block.
#[local] Open Scope w32_scope.

(** [CHACHA_QR] on four elements of the array [w], statement by statement. *)
Definition CHACHA_QR (a b c d : Z) (w : list Z) : list Z :=
  let w := set w a (get w a ⊞ get w b) in
  let w := set w d (get w d ⊻ get w a) in
  let w := set w d (rotl32 (get w d) 16) in
  let w := set w c (get w c ⊞ get w d) in
  let w := set w b (get w b ⊻ get w c) in
  let w := set w b (rotl32 (get w b) 12) in
  let w := set w a (get w a ⊞ get w b) in
  let w := set w d (get w d ⊻ get w a) in
  let w := set w d (rotl32 (get w d) 8) in
  let w := set w c (get w c ⊞ get w d) in
  let w := set w b (get w b ⊻ get w c) in
  set w b (rotl32 (get w b) 7).

(** One iteration of the round loop: four column and four diagonal rounds. *)
Definition chacha20_double_round (w : list Z) : list Z :=
  let w := CHACHA_QR 0 4 8 12 w in
  let w := CHACHA_QR 1 5 9 13 w in
  let w := CHACHA_QR 2 6 10 14 w in
  let w := CHACHA_QR 3 7 11 15 w in
  let w := CHACHA_QR 0 5 10 15 w in
  let w := CHACHA_QR 1 6 11 12 w in
  let w := CHACHA_QR 2 7 8 13 w in
  CHACHA_QR 3 4 9 14 w.

(** The 64 bytes [chacha20_block] writes to [output]. *)
Definition chacha20_output (state : chacha_ctx) : list Z :=
  let working := for_range 10 (fun _ w => chacha20_double_round w) state in
  let working := for_range 16 (fun i w => set w i (get w i ⊞ get state i)) working in
  flat_map (fun i =>
    map (fun j => Z.land (Z.shiftr (get working i) (j * 8)) 0xFF) [0; 1; 2; 3])
    (map Z.of_nat (seq 0 16)).

(** The counter increment at the end of [chacha20_block]. *)
Definition chacha20_next (state : chacha_ctx) : chacha_ctx :=
  let state := set state 12 (get state 12 ⊞ 1) in
  if get state 12 =? 0 then set state 13 (get state 13 ⊞ 1) else state.

Definition chacha20_block (ctx : chacha_ctx) : list Z * chacha_ctx :=
  (chacha20_output ctx, chacha20_next ctx).

(** [crypto_chacha20_init]: every word of the state is assigned. *)
Definition crypto_chacha20_init (key iv : list Z) : chacha_ctx :=
  [0x61707865; 0x3320646e; 0x79622d32; 0x6b206574]
  ++ map (fun i => load_le32 key (i * 4)) [0; 1; 2; 3; 4; 5; 6; 7]
  ++ [0]
  ++ [load_le32 iv 0; load_le32 iv 4; load_le32 iv 8].

End Block.

(** [data[offset + i] ^= keystream[i]] over a chunk. *)
Definition xor_bytes (data keystream : list Z) : list Z := zip_with Z.lxor data keystream.

(** The loop of [crypto_chacha20_xor]; each iteration consumes at least one byte,
    so the length of the data bounds their number. *)
Fixpoint chacha20_xor_loop (fuel : nat) (ctx : chacha_ctx) (data : list Z)
    : chacha_ctx * list Z :=
  match fuel, data with
  | _, [] => (ctx, [])
  | O, _ => (ctx, data)
  | S fuel', _ =>
      let '(keystream, ctx) := chacha20_block ctx in
      let chunk := if (length data <? 64)%nat then length data else 64%nat in
      let '(ctx', rest) := chacha20_xor_loop fuel' ctx (drop chunk data) in
      (ctx', xor_bytes (take chunk data) keystream ++ rest)
  end.

Definition crypto_chacha20_xor (ctx : chacha_ctx) (data : list Z) : chacha_ctx * list Z :=
  chacha20_xor_loop (length data) ctx data.

(** [memcpy(dst, src, len)] and encryption in place of the copy. *)
Definition crypto_chacha20_encrypt (ctx : chacha_ctx) (src : list Z) : chacha_ctx * list Z :=
  crypto_chacha20_xor ctx src.

Definition crypto_chacha20_decrypt (ctx : chacha_ctx) (src : list Z) : chacha_ctx * list Z :=
  crypto_chacha20_encrypt ctx src.

(** * Specification: one infinite keystream, indexed by position *)

Definition chacha20_advance (ctx : chacha_ctx) (k : nat) : chacha_ctx :=
  Nat.iter k chacha20_next ctx.

(** Byte [i] of the keystream of [ctx]. *)
Definition keystream_byte (ctx : chacha_ctx) (i : nat) : Z :=
  get (chacha20_output (chacha20_advance ctx (i / 64))) (Z.of_nat (i mod 64)).

(** Number of blocks consumed by [n] bytes. *)
Definition blocks_of (n : nat) : nat := ((n + 63) / 64)%nat.

Lemma chacha20_output_length (state : chacha_ctx) : length (chacha20_output state) = 64%nat.
Proof. done. Qed.

Lemma chacha20_xor_loop_length (fuel : nat) (ctx : chacha_ctx) (data : list Z) :
  length (snd (chacha20_xor_loop fuel ctx data)) = length data.
Proof.
  revert ctx data. induction fuel as [|fuel IH]; intros ctx [|d data]; try done.
  cbn [chacha20_xor_loop]. set (l := d :: data). unfold chacha20_block.
  set (chunk := if (length l <? 64)%nat then length l else 64%nat).
  specialize (IH (chacha20_next ctx) (drop chunk l)).
  destruct (chacha20_xor_loop fuel (chacha20_next ctx) (drop chunk l)) as [c r].
  cbn [fst snd] in IH |- *. rewrite length_app, IH. unfold xor_bytes.
  rewrite length_zip_with, length_take, length_drop, chacha20_output_length.
  subst chunk. destruct (Nat.ltb_spec (length l) 64); lia.
Qed.

Lemma chacha20_advance_S (ctx : chacha_ctx) (k : nat) :
  chacha20_advance (chacha20_next ctx) k = chacha20_advance ctx (S k).
Proof. symmetry. apply Nat.iter_succ_r. Qed.

Lemma chacha20_xor_loop_ctx (fuel : nat) (ctx : chacha_ctx) (data : list Z) :
  (length data <= fuel)%nat ->
  fst (chacha20_xor_loop fuel ctx data) = chacha20_advance ctx (blocks_of (length data)).
Proof.
  revert ctx data. induction fuel as [|fuel IH]; intros ctx [|d data] Hf; try done.
  { simpl in Hf. lia. }
  cbn [chacha20_xor_loop]. set (l := d :: data) in *. unfold chacha20_block.
  set (chunk := if (length l <? 64)%nat then length l else 64%nat).
  assert (Hl : (0 < length l)%nat) by (simpl; lia).
  specialize (IH (chacha20_next ctx) (drop chunk l)).
  destruct (chacha20_xor_loop fuel (chacha20_next ctx) (drop chunk l)) as [c r].
  cbn [fst snd] in IH |- *. rewrite IH, chacha20_advance_S; rewrite length_drop; subst chunk;
    destruct (Nat.ltb_spec (length l) 64); [| | lia | lia];
    unfold blocks_of; f_equal; dlia.
Qed.

(** Every byte of the output is the input byte masked with the keystream byte at
    its position. *)
Lemma chacha20_xor_loop_byte (fuel : nat) (ctx : chacha_ctx) (data : list Z) (i : nat) :
  (length data <= fuel)%nat -> (i < length data)%nat ->
  snd (chacha20_xor_loop fuel ctx data) !! i =
  Some (Z.lxor (nth i data 0) (keystream_byte ctx i)).
Proof.
  revert ctx data i. induction fuel as [|fuel IH]; intros ctx [|d data] i Hf Hi;
    try (simpl in Hf, Hi; lia).
  cbn [chacha20_xor_loop]. set (l := d :: data) in *. unfold chacha20_block.
  set (chunk := if (length l <? 64)%nat then length l else 64%nat).
  assert (Hc : (chunk <= 64 /\ chunk <= length l /\ (chunk < 64 -> chunk = length l) /\ 0 < chunk)%nat).
  { assert (0 < length l)%nat by (simpl; lia).
    subst chunk. destruct (Nat.ltb_spec (length l) 64); lia. }
  specialize (IH (chacha20_next ctx) (drop chunk l)).
  destruct (chacha20_xor_loop fuel (chacha20_next ctx) (drop chunk l)) as [c r] eqn:E.
  cbn [fst snd] in IH |- *.
  assert (Hx : length (xor_bytes (take chunk l) (chacha20_output ctx)) = chunk).
  { unfold xor_bytes. rewrite length_zip_with, length_take, chacha20_output_length. lia. }
  destruct (decide (i < chunk)%nat) as [Hlt | Hge].
  - rewrite lookup_app_l by lia. unfold xor_bytes.
    rewrite lookup_zip_with, lookup_take by lia. rewrite decide_True by lia.
    destruct (lookup_lt_is_Some_2 l i Hi) as [v Hv]. rewrite Hv.
    rewrite (nth_lookup_Some _ _ _ _ Hv). cbn [mbind option_bind fmap option_fmap option_map]. unfold keystream_byte.
    rewrite Nat.div_small, Nat.mod_small by lia. simpl.
    rewrite <- (Nat2Z.id i) at 1. rewrite get_lookup; [done |].
    rewrite chacha20_output_length. lia.
  - rewrite lookup_app_r by lia. rewrite Hx.
    assert (chunk = 64%nat) as Hc64 by lia. rewrite Hc64 in *.
    rewrite IH by (rewrite length_drop; lia). do 2 f_equal.
    + rewrite !nth_lookup, lookup_drop. do 2 f_equal. lia.
    + unfold keystream_byte. rewrite chacha20_advance_S. f_equal; [| f_equal; dlia].
      do 2 f_equal. dlia.
Qed.

Lemma chacha20_xor_length (ctx : chacha_ctx) (data : list Z) :
  length (snd (crypto_chacha20_xor ctx data)) = length data.
Proof. apply chacha20_xor_loop_length. Qed.

Lemma chacha20_xor_byte (ctx : chacha_ctx) (data : list Z) (i : nat) :
  (i < length data)%nat ->
  snd (crypto_chacha20_xor ctx data) !! i =
  Some (Z.lxor (nth i data 0) (keystream_byte ctx i)).
Proof. by apply chacha20_xor_loop_byte. Qed.

Lemma chacha20_xor_ctx (ctx : chacha_ctx) (data : list Z) :
  fst (crypto_chacha20_xor ctx data) = chacha20_advance ctx (blocks_of (length data)).
Proof. by apply chacha20_xor_loop_ctx. Qed.

(** * Properties *)

(** [crypto_chacha20_xor] is total on every length, keeps the length, masks
    byte [i] with byte [i] of one keystream that does not depend on the data,
    and leaves the context advanced by the number of blocks consumed. *)
Theorem chacha20_xor_keystream (ctx : chacha_ctx) (data : list Z) :
  let r := crypto_chacha20_xor ctx data in
  length (snd r) = length data /\
  (forall i, (i < length data)%nat ->
     snd r !! i = Some (Z.lxor (nth i data 0) (keystream_byte ctx i))) /\
  fst r = chacha20_advance ctx (blocks_of (length data)).
Proof.
  cbv zeta. auto using chacha20_xor_length, chacha20_xor_byte, chacha20_xor_ctx.
Qed.

Lemma chacha20_xor_involutive (ctx : chacha_ctx) (data : list Z) :
  snd (crypto_chacha20_xor ctx (snd (crypto_chacha20_xor ctx data))) = data.
Proof.
  apply list_eq. intros i.
  set (c := snd (crypto_chacha20_xor ctx data)).
  assert (Hc : length c = length data) by apply chacha20_xor_length.
  destruct (decide (i < length data)%nat) as [Hi | Hi].
  - rewrite chacha20_xor_byte by lia.
    assert (Hci : c !! i = Some (Z.lxor (nth i data 0) (keystream_byte ctx i)))
      by (by apply chacha20_xor_byte).
    rewrite (nth_lookup_Some _ _ _ _ Hci).
    destruct (lookup_lt_is_Some_2 data i Hi) as [v Hv]. rewrite Hv.
    rewrite (nth_lookup_Some _ _ _ _ Hv), Z.lxor_assoc, Z.lxor_nilpotent, Z.lxor_0_r. done.
  - rewrite !lookup_ge_None_2; [done | lia |].
    rewrite chacha20_xor_length. lia.
Qed.

(** Decryption under the same key and nonce undoes encryption, for every
    message of every length. *)
Theorem chacha20_roundtrip (key iv msg : list Z) :
  snd (crypto_chacha20_decrypt (crypto_chacha20_init key iv)
        (snd (crypto_chacha20_encrypt (crypto_chacha20_init key iv) msg))) = msg.
Proof. apply chacha20_xor_involutive. Qed.

(** The block function is the one of RFC 8439: the keystream of the all-zero
    key and nonce at block 0 is the RFC's test vector A.1 #1. *)
Theorem chacha20_rfc8439_vector :
  fst (chacha20_block (crypto_chacha20_init (replicate 32 0) (replicate 12 0))) =
  [0x76; 0xb8; 0xe0; 0xad; 0xa0; 0xf1; 0x3d; 0x90; 0x40; 0x5d; 0x6a; 0xe5; 0x53; 0x86; 0xbd; 0x28;
   0xbd; 0xd2; 0x19; 0xb8; 0xa0; 0x8d; 0xed; 0x1a; 0xa8; 0x36; 0xef; 0xcc; 0x8b; 0x77; 0x0d; 0xc7;
   0xda; 0x41; 0x59; 0x7c; 0x51; 0x57; 0x48; 0x8d; 0x77; 0x24; 0xe0; 0x3f; 0xb8; 0xd8; 0x4a; 0x37;
   0x6a; 0x43; 0xb8; 0xf4; 0x15; 0x18; 0xa1; 0x1c; 0xc3; 0x87; 0xb6; 0x69; 0xb2; 0xee; 0x65; 0x86].
Proof. vm_compute. reflexivity. Qed.
