(* ===== verification/CryptoRng.v ===== *)
(** The random number generator (src/crypto/random.c): the entropy pool, the
    ChaCha20 generator over it, reseeding, and [crypto_get_random_bytes].

    What the CPU supplies (the time stamp counter, RDRAND, the stack pointer and
    the flags) is an input of the model: one [hw_sample] per call of
    [collect_entropy]. *)

From S2P Require Import Prelude CryptoInternal ChaCha20.

(** The readings of one [collect_entropy].  [hw_rdrand] lists the outcomes of the
    RDRAND attempts in order: [Some v] for carry set, [None] for carry clear. *)
Record hw_sample := mk_hw {
  hw_tsc : Z;
  hw_rdrand : list (option Z);
  hw_rsp : Z;
  hw_flags : Z
}.

(** [g_rng]. *)
Record rng := mk_rng {
  rng_ctx : chacha_ctx;
  rng_pool : list Z;        (* u8[256] *)
  rng_pool_idx : Z;         (* u32 *)
  rng_reseed_counter : Z;   (* u64 *)
  rng_initialized : bool;
  rng_rdrand_available : bool
}.

Definition CRYPTO_OK : Z := 0.
Definition CRYPTO_ERR_INVALID_PARAM : Z := -1.
Definition CRYPTO_ERR_HARDWARE_FAIL : Z := -4.

(** [rdrand_available]: bit 30 of ECX of CPUID leaf 1. *)
Definition rdrand_available (ecx : Z) : bool := negb (Z.land ecx (Z.shiftl 1 30) =? 0).

(** [rdrand64]: at most [retry] attempts, 0 when none succeeds. *)
Fixpoint rdrand64_loop (retry : nat) (attempts : list (option Z)) : Z :=
  match retry, attempts with
  | S retry', Some v :: _ => v
  | S retry', None :: rest => rdrand64_loop retry' rest
  | _, _ => 0
  end.

Definition rdrand64 (attempts : list (option Z)) : Z := rdrand64_loop 10 attempts.

(** The eight bytes of a u64 in memory. *)
Definition le64_bytes (x : Z) : list Z :=
  map (fun j => Z.land (Z.shiftr x (j * 8)) 0xFF) [0; 1; 2; 3; 4; 5; 6; 7].

Definition add_entropy_byte (r : rng) (b : Z) : rng :=
  mk_rng (rng_ctx r)
    (set (rng_pool r) (rng_pool_idx r) (Z.lxor (get (rng_pool r) (rng_pool_idx r)) b))
    ((rng_pool_idx r + 1) mod 256)
    (rng_reseed_counter r) (rng_initialized r) (rng_rdrand_available r).

Definition add_entropy (r : rng) (data : list Z) : rng := fold_left add_entropy_byte data r.

Definition collect_entropy (h : hw_sample) (r : rng) : rng :=
  let entropy := Z.lxor 0 (hw_tsc h) in
  let r := add_entropy r (le64_bytes entropy) in
  let entropy' :=
    if rng_rdrand_available r then Z.lxor entropy (rdrand64 (hw_rdrand h)) else entropy in
  let r := if rng_rdrand_available r then add_entropy r (le64_bytes entropy') else r in
  let entropy := Z.lxor entropy' (hw_rsp h) in
  let r := add_entropy r (le64_bytes entropy) in
  let entropy := Z.lxor entropy (hw_flags h) in
  add_entropy r (le64_bytes entropy).

Definition with_ctx (r : rng) (c : chacha_ctx) : rng :=
  mk_rng c (rng_pool r) (rng_pool_idx r) (rng_reseed_counter r)
    (rng_initialized r) (rng_rdrand_available r).

Definition with_counter (r : rng) (n : Z) : rng :=
  mk_rng (rng_ctx r) (rng_pool r) (rng_pool_idx r) n
    (rng_initialized r) (rng_rdrand_available r).

(** [crypto_rng_reseed]; [key0] is the content of the uninitialised [new_key[32]],
    which the first call of [crypto_chacha20_xor] masks. *)
Definition crypto_rng_reseed (key0 : list Z) (h : hw_sample) (r : rng) : rng :=
  if negb (rng_initialized r) then r
  else
    let '(ctx, new_key) := crypto_chacha20_xor (rng_ctx r) key0 in
    let r := collect_entropy h (with_ctx r ctx) in
    let new_key := xor_bytes new_key (take 32 (rng_pool r)) in
    let r := with_ctx r (crypto_chacha20_init new_key (take 12 (rng_pool r))) in
    with_counter r (add64 (rng_reseed_counter r) 1).

(** [crypto_rng_init]: [samples i] is the reading of iteration [i] of its loop. *)
Definition crypto_rng_init (ecx : Z) (samples : Z -> hw_sample) (key0 : list Z)
    (h : hw_sample) : rng :=
  let r := mk_rng (replicate 16 0) (replicate 256 0) 0 0 false (rdrand_available ecx) in
  let r := for_range 32 (fun i r => collect_entropy (samples i) r) r in
  let iv := xor_bytes (take 12 (rng_pool r)) (take 12 (drop 32 (rng_pool r))) in
  let r := mk_rng (crypto_chacha20_init (rng_pool r) iv) (rng_pool r) (rng_pool_idx r)
             (rng_reseed_counter r) true (rng_rdrand_available r) in
  crypto_rng_reseed key0 h r.

(** [crypto_get_random_bytes]; [buf] is [None] for a null pointer, else the old
    content of the buffer, which the keystream is xored into. *)
Definition crypto_get_random_bytes (key0 : list Z) (h : hw_sample) (buf : option (list Z)) (r : rng)
    : Z * rng * list Z :=
  match buf with
  | None => (CRYPTO_ERR_INVALID_PARAM, r, [])
  | Some b =>
      if (length b =? 0)%nat then (CRYPTO_ERR_INVALID_PARAM, r, b)
      else if negb (rng_initialized r) then (CRYPTO_ERR_HARDWARE_FAIL, r, b)
      else
        let r := if 1024 * 1024 / 64 <? rng_reseed_counter r
                 then crypto_rng_reseed key0 h r else r in
        let '(ctx, out) := crypto_chacha20_xor (rng_ctx r) b in
        let r := with_ctx r ctx in
        (CRYPTO_OK, with_counter r (add64 (rng_reseed_counter r) (Z.of_nat (length b))), out)
  end.

(** * Invariant *)

(** What the generator's code relies on: sixteen words of cipher state, 256 bytes of pool,
    and an index inside the pool. *)
Record rng_inv (r : rng) : Prop := {
  inv_ctx : length (rng_ctx r) = 16%nat;
  inv_words : Forall (fits 32) (rng_ctx r);
  inv_pool : length (rng_pool r) = 256%nat;
  inv_bytes : Forall (fits 8) (rng_pool r);
  inv_idx : 0 <= rng_pool_idx r < 256;
  inv_counter : fits 64 (rng_reseed_counter r)
}.

(** The contents of an uninitialised [u8 new_key[32]]. *)
Definition key_array (key0 : list Z) : Prop := length key0 = 32%nat /\ Forall (fits 8) key0.

Lemma get_fits (w : Z) (l : list Z) (i : Z) : 0 <= w -> Forall (fits w) l -> fits w (get l i).
Proof.
  intros Hw Hl. unfold get. rewrite nth_lookup. destruct (l !! Z.to_nat i) as [v |] eqn:E; [| by apply fits_0].
  exact (Forall_lookup_1 _ _ _ _ Hl E).
Qed.

Lemma set_fits (w : Z) (l : list Z) (i v : Z) : Forall (fits w) l -> fits w v -> Forall (fits w) (set l i v).
Proof. intros Hl Hv. unfold set. by apply Forall_insert. Qed.

Lemma load_le32_fits (b : list Z) (i : Z) : Forall (fits 8) b -> fits 32 (load_le32 b i).
Proof.
  intros Hb. unfold load_le32. assert (fits 32 (get b i)) by (apply (fits_mono 8); [lia | by apply (get_fits 8); [lia |]]).
  repeat (apply lor_fits; [lia | | apply shl32_fits]). done.
Qed.

Lemma chacha20_init_length (key iv : list Z) : length (crypto_chacha20_init key iv) = 16%nat.
Proof. done. Qed.

Lemma chacha20_init_fits (key iv : list Z) :
  Forall (fits 8) key -> Forall (fits 8) iv -> Forall (fits 32) (crypto_chacha20_init key iv).
Proof.
  intros Hk Hi. unfold crypto_chacha20_init. rewrite !Forall_app. split; [by repeat constructor |].
  split; [apply Forall_map, Forall_forall; intros k _; by apply load_le32_fits |].
  split; [by repeat constructor |]. repeat constructor; by apply load_le32_fits.
Qed.

Lemma chacha20_advance_ok (ctx : chacha_ctx) (k : nat) :
  Forall (fits 32) ctx -> length (chacha20_advance ctx k) = length ctx /\ Forall (fits 32) (chacha20_advance ctx k).
Proof.
  intros Hc. induction k as [|k [IH1 IH2]]; [done |].
  change (chacha20_advance ctx (S k)) with (chacha20_next (chacha20_advance ctx k)). unfold chacha20_next.
  assert (H32 : forall x, fits 32 (add32 x 1)) by (intros x; apply wrap_fits; lia).
  destruct (_ =? 0); rewrite ?length_set; (split; [done |]); auto using set_fits.
Qed.

Lemma chacha20_output_fits (ctx : chacha_ctx) : Forall (fits 8) (chacha20_output ctx).
Proof.
  unfold chacha20_output. apply Forall_forall. intros b Hb. apply list_elem_of_In, in_flat_map in Hb as (i & _ & Hb).
  apply in_map_iff in Hb as (j & <- & _). apply land_fits_r; [lia | by split].
Qed.

Lemma keystream_fits (ctx : chacha_ctx) (i : nat) : fits 8 (keystream_byte ctx i).
Proof. apply get_fits; [lia | apply chacha20_output_fits]. Qed.

Lemma chacha20_xor_fits (ctx : chacha_ctx) (data : list Z) :
  Forall (fits 8) data -> Forall (fits 8) (snd (crypto_chacha20_xor ctx data)).
Proof.
  intros Hd. apply Forall_lookup_2. intros i v Hv. pose proof (lookup_lt_Some _ _ _ Hv) as Hi. rewrite chacha20_xor_length in Hi.
  rewrite chacha20_xor_byte in Hv by done. injection Hv as <-. apply lxor_fits; [lia | | apply keystream_fits].
  pose proof (get_fits 8 data (Z.of_nat i) ltac:(lia) Hd) as Hg. unfold get in Hg. by rewrite Nat2Z.id in Hg.
Qed.

Lemma xor_bytes_fits (l k : list Z) : Forall (fits 8) l -> Forall (fits 8) k -> Forall (fits 8) (xor_bytes l k).
Proof.
  intros Hl Hk. unfold xor_bytes. apply Forall_lookup_2. intros i v Hv. apply lookup_zip_with_Some in Hv as (a & b & -> & Ha & Hb).
  apply lxor_fits; [lia | exact (Forall_lookup_1 _ _ _ _ Hl Ha) | exact (Forall_lookup_1 _ _ _ _ Hk Hb)].
Qed.

#[local] Opaque crypto_chacha20_init crypto_chacha20_xor xor_bytes.

(** * Entropy *)

(** The bytes that one [collect_entropy] feeds to the pool: the time stamp, and then the
    running combination with what RDRAND, the stack pointer and the flags give. *)
Definition entropy_bytes (rdrand : bool) (h : hw_sample) : list Z :=
  let e1 := hw_tsc h in
  let e2 := if rdrand then Z.lxor e1 (rdrand64 (hw_rdrand h)) else e1 in
  let e3 := Z.lxor e2 (hw_rsp h) in
  le64_bytes e1 ++ (if rdrand then le64_bytes e2 else []) ++ le64_bytes e3 ++ le64_bytes (Z.lxor e3 (hw_flags h)).

(** Byte [j] of the pool after [data] was mixed in from index [idx] on, around the end. *)
Definition stirred (pool : list Z) (idx : Z) (data : list Z) (j : Z) : Z :=
  let k := (j - idx) mod 256 in
  if k <? Z.of_nat (length data) then Z.lxor (get pool j) (get data k) else get pool j.

Lemma le64_bytes_fits (x : Z) : Forall (fits 8) (le64_bytes x).
Proof. apply Forall_map, Forall_forall. intros j _. apply land_fits_r; [lia | by split]. Qed.

Lemma entropy_bytes_fits (rdrand : bool) (h : hw_sample) : Forall (fits 8) (entropy_bytes rdrand h).
Proof. unfold entropy_bytes. destruct rdrand; rewrite !Forall_app; auto using le64_bytes_fits, Forall_nil_2. Qed.

Lemma entropy_bytes_length (rdrand : bool) (h : hw_sample) : (length (entropy_bytes rdrand h) <= 256)%nat.
Proof. unfold entropy_bytes. destruct rdrand; rewrite !length_app; cbn; lia. Qed.

(** The entropy code changes only the pool and its index. *)
Record only_pool (r r' : rng) : Prop := {
  op_ctx : rng_ctx r' = rng_ctx r;
  op_counter : rng_reseed_counter r' = rng_reseed_counter r;
  op_init : rng_initialized r' = rng_initialized r;
  op_rdrand : rng_rdrand_available r' = rng_rdrand_available r
}.

Lemma only_pool_trans (r1 r2 r3 : rng) : only_pool r1 r2 -> only_pool r2 r3 -> only_pool r1 r3.
Proof. intros [] []. split; congruence. Qed.

Lemma add_entropy_only (data : list Z) (r : rng) : only_pool r (add_entropy r data).
Proof.
  unfold add_entropy. revert r. induction data as [|b data IH]; intros r; [by split |].
  simpl. eapply only_pool_trans; [| apply IH]. by split.
Qed.

Lemma add_entropy_app (r : rng) (l k : list Z) : add_entropy r (l ++ k) = add_entropy (add_entropy r l) k.
Proof. apply fold_left_app. Qed.

Lemma collect_entropy_bytes (h : hw_sample) (r : rng) :
  collect_entropy h r = add_entropy r (entropy_bytes (rng_rdrand_available r) h).
Proof.
  unfold collect_entropy, entropy_bytes. rewrite Z.lxor_0_l, (op_rdrand _ _ (add_entropy_only (le64_bytes (hw_tsc h)) r)).
  destruct (rng_rdrand_available r); by rewrite !add_entropy_app.
Qed.

Lemma add_entropy_inv (data : list Z) (r : rng) : Forall (fits 8) data -> rng_inv r -> rng_inv (add_entropy r data).
Proof.
  intros Hd. unfold add_entropy. revert r. induction Hd as [|b data Hb Hd IH]; intros r Hr; [done |].
  simpl. apply IH. destruct Hr as [H1 H2 H3 H4 H5 H6].
  split; cbn [add_entropy_byte rng_ctx rng_pool rng_pool_idx rng_reseed_counter]; [done | done | by rewrite length_set | | | done].
  - apply set_fits; [done |]. apply lxor_fits; [lia | by apply get_fits | done].
  - apply Z.mod_pos_bound. lia.
Qed.

Lemma collect_entropy_inv (h : hw_sample) (r : rng) : rng_inv r -> rng_inv (collect_entropy h r).
Proof. rewrite collect_entropy_bytes. apply add_entropy_inv, entropy_bytes_fits. Qed.

Lemma collect_entropy_only (h : hw_sample) (r : rng) : only_pool r (collect_entropy h r).
Proof. rewrite collect_entropy_bytes. apply add_entropy_only. Qed.

(** One byte moves the index by one; the rest of the data goes behind it. *)
Lemma stirred_cons (pool : list Z) (idx b j : Z) (data : list Z) :
  length pool = 256%nat -> 0 <= idx < 256 -> 0 <= j < 256 -> (length (b :: data) <= 256)%nat ->
  stirred (set pool idx (Z.lxor (get pool idx) b)) ((idx + 1) mod 256) data j = stirred pool idx (b :: data) j.
Proof.
  intros Hp Hi Hj Hl. cbn [length] in Hl. unfold stirred. cbv zeta. rewrite Zminus_mod_idemp_r. cbn [length].
  destruct (decide (j = idx)) as [-> | Hne].
  - replace (idx - (idx + 1)) with (-1) by lia. rewrite Z.sub_diag. change (-1 mod 256) with 255. change (0 mod 256) with 0.
    replace (255 <? Z.of_nat (length data)) with false by lia. replace (0 <? Z.of_nat (S (length data))) with true by lia.
    rewrite get_set_eq by lia. done.
  - rewrite get_set_ne by lia.
    assert (Hk : (j - idx) mod 256 = (j - (idx + 1)) mod 256 + 1 /\ 0 <= (j - (idx + 1)) mod 256).
    { destruct (decide (idx < j)); [rewrite !Z.mod_small by lia; lia |].
      rewrite <- (Z_mod_plus_full (j - idx) 1), <- (Z_mod_plus_full (j - (idx + 1)) 1), !Z.mod_small by lia. lia. }
    destruct Hk as [-> Hk]. revert Hk. generalize ((j - (idx + 1)) mod 256). intros k Hk.
    replace (k + 1 <? Z.of_nat (S (length data))) with (k <? Z.of_nat (length data)) by lia.
    unfold get. by replace (Z.to_nat (k + 1)) with (S (Z.to_nat k)) by lia.
Qed.

Lemma add_entropy_pool (data : list Z) (r : rng) :
  length (rng_pool r) = 256%nat -> 0 <= rng_pool_idx r < 256 -> (length data <= 256)%nat ->
  rng_pool_idx (add_entropy r data) = (rng_pool_idx r + Z.of_nat (length data)) mod 256 /\
  forall j, 0 <= j < 256 -> get (rng_pool (add_entropy r data)) j = stirred (rng_pool r) (rng_pool_idx r) data j.
Proof.
  unfold add_entropy. revert r. induction data as [|b data IH]; intros r Hp Hi Hl.
  - cbn [fold_left length]. rewrite Z.add_0_r, Z.mod_small by lia. split; [done |]. intros j Hj. unfold stirred. cbv zeta.
    pose proof (Z.mod_pos_bound (j - rng_pool_idx r) 256 ltac:(lia)). by replace (_ <? Z.of_nat (length [])) with false by (cbn [length]; lia).
  - cbn [fold_left]. destruct (IH (add_entropy_byte r b)) as [E1 E2]; cbn [add_entropy_byte rng_pool rng_pool_idx];
      [by rewrite length_set | apply Z.mod_pos_bound; lia | cbn [length] in Hl; lia |].
    cbn [add_entropy_byte rng_pool rng_pool_idx] in E1, E2. split.
    + rewrite E1, Zplus_mod_idemp_l. cbn [length]. f_equal. lia.
    + intros j Hj. rewrite E2 by done. by apply stirred_cons.
Qed.

#[local] Opaque collect_entropy.

(** * Reseeding *)

(** What a reseed does: the sample is mixed into the pool, and the cipher starts again with
    the old key stream combined with the first 32 bytes of the pool as its key and the first
    12 bytes as its nonce. *)
Record reseeded (key0 : list Z) (h : hw_sample) (r r1 : rng) : Prop := {
  rs_pool j : 0 <= j < 256 ->
    get (rng_pool r1) j = stirred (rng_pool r) (rng_pool_idx r) (entropy_bytes (rng_rdrand_available r) h) j;
  rs_idx : rng_pool_idx r1 = (rng_pool_idx r + Z.of_nat (length (entropy_bytes (rng_rdrand_available r) h))) mod 256;
  rs_ctx : exists key, length key = 32%nat /\ rng_ctx r1 = crypto_chacha20_init key (take 12 (rng_pool r1)) /\
    forall i, (i < 32)%nat ->
      key !! i = Some (Z.lxor (Z.lxor (nth i key0 0) (keystream_byte (rng_ctx r) i)) (get (rng_pool r1) (Z.of_nat i)));
  rs_counter : rng_reseed_counter r1 = add64 (rng_reseed_counter r) 1;
  rs_init : rng_initialized r1 = true
}.

Lemma crypto_rng_reseed_ok (key0 : list Z) (h : hw_sample) (r : rng) :
  rng_inv r -> rng_initialized r = true -> length key0 = 32%nat -> reseeded key0 h r (crypto_rng_reseed key0 h r).
Proof.
  intros Hr Hi Hk. unfold crypto_rng_reseed. rewrite Hi. cbn [negb].
  pose proof (chacha20_xor_length (rng_ctx r) key0) as Hn. pose proof (chacha20_xor_byte (rng_ctx r) key0) as Hb.
  destruct (crypto_chacha20_xor (rng_ctx r) key0) as [ctx nk]. cbn [snd] in Hn, Hb.
  destruct Hr as [_ _ Hp _ Hx _]. destruct (add_entropy_pool (entropy_bytes (rng_rdrand_available r) h) (with_ctx r ctx) Hp Hx (entropy_bytes_length _ _)) as [E1 E2].
  pose proof (collect_entropy_only h (with_ctx r ctx)) as [_ O2 O3 _].
  rewrite collect_entropy_bytes in *. cbn [with_ctx rng_rdrand_available rng_pool rng_pool_idx rng_reseed_counter rng_initialized] in *.
  assert (Hl : length (rng_pool (add_entropy (with_ctx r ctx) (entropy_bytes (rng_rdrand_available r) h))) = 256%nat).
  { clear -Hp. revert Hp. generalize (entropy_bytes (rng_rdrand_available r) h). intros l.
    change (rng_pool r) with (rng_pool (with_ctx r ctx)). generalize (with_ctx r ctx). unfold add_entropy.
    induction l as [|b l IH]; intros q Hq; [done |]. cbn [fold_left]. apply IH. cbn. by rewrite length_set. }
  revert E1 E2 O2 O3 Hl. generalize (add_entropy (with_ctx r ctx) (entropy_bytes (rng_rdrand_available r) h)). intros q E1 E2 O2 O3 Hl.
  split; cbn [with_ctx with_counter rng_ctx rng_pool rng_pool_idx rng_reseed_counter rng_initialized]; [done | done | | by rewrite O2 | by rewrite O3].
  exists (xor_bytes nk (take 32 (rng_pool q))). split; [| split; [done |]].
  - with_strategy transparent [xor_bytes] unfold xor_bytes. rewrite length_zip_with, length_take. lia.
  - intros i Hi'. with_strategy transparent [xor_bytes] unfold xor_bytes. apply lookup_zip_with_Some.
    eexists _, _. split; [reflexivity |]. split; [apply Hb; lia |]. rewrite lookup_take_lt by lia. unfold get. rewrite Nat2Z.id.
    destruct (lookup_lt_is_Some_2 (rng_pool q) i ltac:(lia)) as [v Hv]. by rewrite nth_lookup, Hv.
Qed.

Lemma crypto_rng_reseed_inv (key0 : list Z) (h : hw_sample) (r : rng) :
  key_array key0 -> rng_inv r -> rng_inv (crypto_rng_reseed key0 h r).
Proof.
  intros [_ Hk] Hr. unfold crypto_rng_reseed. destruct (negb _); [done |].
  pose proof (chacha20_xor_fits (rng_ctx r) key0 Hk) as Hn. pose proof (chacha20_xor_ctx (rng_ctx r) key0) as Hc.
  destruct (crypto_chacha20_xor (rng_ctx r) key0) as [ctx new_key]. cbn [fst snd] in *.
  destruct (chacha20_advance_ok (rng_ctx r) (blocks_of (length key0)) (inv_words _ Hr)) as [A1 A2]. rewrite <- Hc in A1, A2.
  assert (Hq : rng_inv (collect_entropy h (with_ctx r ctx))).
  { apply collect_entropy_inv. destruct Hr as [H1 H2 H3 H4 H5 H6]. split; [| done..]. cbn [with_ctx rng_ctx]. lia. }
  revert Hq. generalize (collect_entropy h (with_ctx r ctx)). intros q [_ _ H3 H4 H5 _].
  split; cbn [rng_ctx rng_pool rng_pool_idx rng_reseed_counter with_counter with_ctx]; [apply chacha20_init_length | | done | done | done | apply wrap_fits; lia].
  apply chacha20_init_fits; [apply xor_bytes_fits; [done |] |]; by apply Forall_take.
Qed.

Lemma crypto_rng_reseed_counter (key0 : list Z) (h : hw_sample) (r : rng) :
  rng_initialized r = true ->
  rng_reseed_counter (crypto_rng_reseed key0 h r) = add64 (rng_reseed_counter r) 1.
Proof.
  intros Hi. unfold crypto_rng_reseed. rewrite Hi. cbn [negb].
  destruct (crypto_chacha20_xor (rng_ctx r) key0) as [ctx new_key].
  pose proof (op_counter _ _ (collect_entropy_only h (with_ctx r ctx))) as Hc. revert Hc.
  generalize (collect_entropy h (with_ctx r ctx)). intros r0 Hc.
  cbn [rng_reseed_counter with_counter with_ctx] in Hc |- *. by rewrite Hc.
Qed.

Lemma crypto_rng_reseed_init (key0 : list Z) (h : hw_sample) (r : rng) :
  rng_initialized (crypto_rng_reseed key0 h r) = rng_initialized r.
Proof.
  unfold crypto_rng_reseed. destruct (rng_initialized r) eqn:Hi; [| done]. cbn [negb].
  destruct (crypto_chacha20_xor (rng_ctx r) key0) as [ctx new_key].
  pose proof (op_init _ _ (collect_entropy_only h (with_ctx r ctx))) as Hc. revert Hc.
  generalize (collect_entropy h (with_ctx r ctx)). intros r0 Hc. cbn [rng_initialized with_counter with_ctx] in Hc |- *. by rewrite Hc.
Qed.

Lemma crypto_rng_init_inv (ecx : Z) (samples : Z -> hw_sample) (key0 : list Z) (h : hw_sample) :
  key_array key0 -> rng_inv (crypto_rng_init ecx samples key0 h) /\ rng_initialized (crypto_rng_init ecx samples key0 h) = true.
Proof.
  intros Hk. unfold crypto_rng_init. split; [apply crypto_rng_reseed_inv; [done |] | by rewrite crypto_rng_reseed_init].
  set (r0 := mk_rng _ _ _ _ false _).
  assert (H : rng_inv (for_range 32 (fun i r => collect_entropy (samples i) r) r0)).
  { apply (for_range_inv (fun _ => rng_inv)); [| auto using collect_entropy_inv].
    split; [reflexivity | | reflexivity | | simpl; lia | apply fits_0; lia]; apply Forall_replicate, fits_0; lia. }
  revert H. generalize (for_range 32 (fun i r => collect_entropy (samples i) r) r0). intros r1 [_ _ H2 H3 H4 H5].
  split; cbn [rng_ctx rng_pool rng_pool_idx rng_reseed_counter]; [apply chacha20_init_length | | done..].
  apply chacha20_init_fits; [done |]. apply xor_bytes_fits; apply Forall_take; [done | by apply Forall_drop].
Qed.

(** * Requests *)

(** A request, once the parameters are checked: the reseed that is due, the key stream over
    the buffer, and the length counted. *)
Lemma request_ok (key0 : list Z) (h : hw_sample) (b : list Z) (r : rng) :
  rng_initialized r = true -> b <> [] ->
  let r1 := if 16384 <? rng_reseed_counter r then crypto_rng_reseed key0 h r else r in
  crypto_get_random_bytes key0 h (Some b) r =
    (CRYPTO_OK, with_counter (with_ctx r1 (chacha20_advance (rng_ctx r1) (blocks_of (length b)))) (add64 (rng_reseed_counter r1) (Z.of_nat (length b))),
     snd (crypto_chacha20_xor (rng_ctx r1) b)).
Proof.
  intros Hi Hb. unfold crypto_get_random_bytes. replace (length b =? 0)%nat with false by (destruct b; done). rewrite Hi. cbn [negb].
  change (1024 * 1024 / 64) with 16384. cbv zeta.
  generalize (if 16384 <? rng_reseed_counter r then crypto_rng_reseed key0 h r else r). intros r1.
  pose proof (chacha20_xor_ctx (rng_ctx r1) b) as Hc. destruct (crypto_chacha20_xor (rng_ctx r1) b) as [ctx out]. cbn [fst snd] in *. by rewrite Hc.
Qed.

Lemma crypto_get_random_bytes_inv (key0 : list Z) (h : hw_sample) (buf : option (list Z)) (r : rng) :
  key_array key0 -> rng_inv r -> rng_initialized r = true ->
  let r' := snd (fst (crypto_get_random_bytes key0 h buf r)) in rng_inv r' /\ rng_initialized r' = true.
Proof.
  intros Hk Hr Hi. destruct buf as [[|c b]|]; [done | | done]. rewrite request_ok by done. cbn [fst snd].
  set (r1 := if 16384 <? rng_reseed_counter r then crypto_rng_reseed key0 h r else r).
  assert (H1 : rng_inv r1 /\ rng_initialized r1 = true).
  { unfold r1. destruct (_ <? _); [| done]. split; [by apply crypto_rng_reseed_inv | by rewrite crypto_rng_reseed_init]. }
  clearbody r1. destruct H1 as [[A1 A2 A3 A4 A5 A6] A7]. destruct (chacha20_advance_ok (rng_ctx r1) (blocks_of (length (c :: b))) A2) as [B1 B2].
  split; [| done]. split; cbn [rng_ctx rng_pool rng_pool_idx rng_reseed_counter with_counter with_ctx]; [by rewrite B1 | done.. | apply wrap_fits; lia].
Qed.

(** * Properties *)

(** A run of the generator: initialisation, then any sequence of requests. *)
Inductive rng_reachable : rng -> Prop :=
| reach_init ecx samples key0 h : key_array key0 -> rng_reachable (crypto_rng_init ecx samples key0 h)
| reach_get r key0 h buf :
    key_array key0 -> rng_reachable r -> rng_reachable (snd (fst (crypto_get_random_bytes key0 h buf r)))
| reach_reseed r key0 h :
    key_array key0 -> rng_reachable r -> rng_reachable (crypto_rng_reseed key0 h r).

Lemma rng_reachable_ok (r : rng) : rng_reachable r -> rng_inv r /\ rng_initialized r = true.
Proof.
  induction 1 as [| ? ? ? ? ? ? [] | ? ? ? ? ? []]; [by apply crypto_rng_init_inv | by apply crypto_get_random_bytes_inv |].
  split; [by apply crypto_rng_reseed_inv | by rewrite crypto_rng_reseed_init].
Qed.

(** C40: In every state that initialisation, requests and reseeds reach, whatever the
    hardware returned, a request for at least one byte succeeds.  When more than 16384 has
    been counted it first reseeds: the sample is mixed byte by byte into the pool behind the
    last one, and the cipher starts again with the old key stream combined with the first
    32 bytes of the pool as key and the first 12 as nonce; otherwise pool and key stay.  The
    buffer is then combined with the key stream from its first byte, the context moves on by
    the blocks that were used, the length is counted, and pool, words and index stay in
    range. *)
Theorem crypto_get_random_bytes_spec (key0 : list Z) (h : hw_sample) (b : list Z) (r : rng) :
  rng_reachable r -> key_array key0 -> b <> [] ->
  exists r1 out, let r' := with_counter (with_ctx r1 (chacha20_advance (rng_ctx r1) (blocks_of (length b))))
                             (add64 (rng_reseed_counter r1) (Z.of_nat (length b))) in
    crypto_get_random_bytes key0 h (Some b) r = (CRYPTO_OK, r', out) /\
    (if 16384 <? rng_reseed_counter r then reseeded key0 h r r1 else r1 = r) /\
    length out = length b /\
    (forall i, (i < length b)%nat -> out !! i = Some (Z.lxor (nth i b 0) (keystream_byte (rng_ctx r1) i))) /\
    rng_inv r'.
Proof.
  intros [Hr Hi]%rng_reachable_ok Hk Hb. set (r1 := if 16384 <? rng_reseed_counter r then crypto_rng_reseed key0 h r else r).
  exists r1, (snd (crypto_chacha20_xor (rng_ctx r1) b)). cbv zeta. pose proof (request_ok key0 h b r Hi Hb) as E. cbv zeta in E. fold r1 in E.
  pose proof (crypto_get_random_bytes_inv key0 h (Some b) r Hk Hr Hi) as [Hinv _]. rewrite E in Hinv. split; [done |]. split.
  { unfold r1. destruct (_ <? _); [| done]. apply crypto_rng_reseed_ok; [done | done | apply Hk]. }
  split; [apply chacha20_xor_length |]. split; [| exact Hinv]. intros i Hi'. by apply chacha20_xor_byte.
Qed.

(** The second request of a run, after one of 20000 bytes, reseeds. *)
Definition demo_hw : hw_sample := mk_hw 0x1122334455667788 [Some 6] 0x7FFF0 0x246.
Definition demo_rng : rng := crypto_rng_init (2 ^ 30) (fun i => mk_hw i [None; Some 6] 7 8) (replicate 32 0) demo_hw.

Lemma demo_key_array : key_array (replicate 32 0).
Proof. split; [reflexivity |]. apply Forall_replicate. by split. Qed.

Lemma crypto_get_random_bytes_spec_witness :
  let r := snd (fst (crypto_get_random_bytes (replicate 32 0) demo_hw (Some (replicate (Z.to_nat 20000) 0)) demo_rng)) in
  exists r1 out, reseeded (replicate 32 0) demo_hw r r1 /\ length out = 2%nat /\
    out !! 1%nat = Some (Z.lxor 5 (keystream_byte (rng_ctx r1) 1)).
Proof.
  intros r. destruct (crypto_get_random_bytes_spec (replicate 32 0) demo_hw [4; 5] r) as (r1 & out & _ & Hs & Hl & Ho & _).
  - apply reach_get, reach_init; exact demo_key_array.
  - exact demo_key_array.
  - discriminate.
  - assert (Hc : 16384 < rng_reseed_counter r).
    { unfold r. rewrite request_ok; [| vm_compute; reflexivity | intros E; apply (f_equal length) in E; rewrite length_replicate in E; cbn [length] in E; lia].
      assert (E1 : rng_reseed_counter demo_rng = 1) by (vm_compute; reflexivity). rewrite E1. change (16384 <? 1) with false. cbn iota.
      cbn [fst snd with_counter with_ctx rng_reseed_counter]. rewrite E1, length_replicate, Z2Nat.id by lia. vm_compute. reflexivity. }
    replace (16384 <? rng_reseed_counter r) with true in Hs by (symmetry; by apply Z.ltb_lt).
    exists r1, out. split; [exact Hs |]. split; [exact Hl |]. by apply Ho; cbn; lia.
Defined.

(** The reseed counter is never reset: once it has passed the threshold of
    16384, every later request reseeds again, as long as the 64-bit counter does
    not wrap.  (The comment in the source promises a reseed every megabyte.) *)
Theorem rng_reseeds_forever (key0 : list Z) (h : hw_sample) (b : list Z) (r : rng) :
  rng_initialized r = true -> b <> [] ->
  16384 < rng_reseed_counter r -> rng_reseed_counter r + Z.of_nat (length b) + 1 < 2 ^ 64 ->
  let r' := snd (fst (crypto_get_random_bytes key0 h (Some b) r)) in
  rng_reseed_counter r' = rng_reseed_counter r + 1 + Z.of_nat (length b) /\
  16384 < rng_reseed_counter r'.
Proof.
  intros Hi Hb Hc Hlt. unfold crypto_get_random_bytes. rewrite Hi.
  replace (length b =? 0)%nat with false by (destruct b; done). cbn [negb].
  replace (1024 * 1024 / 64 <? rng_reseed_counter r) with true
    by (symmetry; apply Z.ltb_lt; exact Hc).
  pose proof (crypto_rng_reseed_counter key0 h r Hi) as Hr. revert Hr.
  generalize (crypto_rng_reseed key0 h r). intros r1 Hr.
  destruct (crypto_chacha20_xor _ b) as [ctx out].
  cbn [fst snd rng_reseed_counter with_counter with_ctx]. rewrite Hr. unfold add64.
  rewrite wrap_add_l, wrap_small by (split; lia). lia.
Qed.

Lemma rng_reseeds_forever_witness :
  16384 < rng_reseed_counter (snd (fst (crypto_get_random_bytes [] (mk_hw 1 [] 2 3) (Some [0; 0])
    (with_counter (crypto_rng_init 0 (fun i => mk_hw i [] 7 8) [] (mk_hw 1 [] 2 3)) 20000)))).
Proof.
  apply (rng_reseeds_forever [] (mk_hw 1 [] 2 3) [0; 0]
           (with_counter (crypto_rng_init 0 (fun i => mk_hw i [] 7 8) [] (mk_hw 1 [] 2 3)) 20000));
    [reflexivity | discriminate | reflexivity | reflexivity].
Defined.
