(* ===== verification/CryptoSelftest.v ===== *)
(** The crypto self-test (src/crypto/selftest.c) and the properties of the hash
    functions it exercises.

    Uninitialised locals (contexts, padding arrays, digest and random buffers) are
    arguments, so that the theorems hold for whatever the stack held. *)

From S2P Require Import Prelude CryptoInternal MerkleDamgard Md5 Sha ChaCha20 CryptoRng.

(** [memcmp(a, b, n) == 0] on two arrays of that length. *)
Definition bytes_eqb (a b : list Z) : bool := bool_decide (a = b).

(** The comparison every hash test ends with. *)
Definition check_digest (digest : outcome (list Z)) (expected : list Z) : outcome Z :=
  (do d <- digest;
   Ret (if bytes_eqb d expected then CRYPTO_OK else CRYPTO_ERR_HARDWARE_FAIL))%out.

(** The bytes of the string literal, without the terminator. *)
Definition abc : list Z := [97; 98; 99].

Definition crypto_test_md5 (ctx0 : hash_ctx) (pad0 : list Z) : outcome Z :=
  check_digest (crypto_md5 ctx0 pad0 abc)
    [0x90; 0x01; 0x50; 0x98; 0x3c; 0xd2; 0x4f; 0xb0;
     0xd6; 0x96; 0x3f; 0x7d; 0x28; 0xe1; 0x7f; 0x72].

Definition crypto_test_sha1 (ctx0 : hash_ctx) (pad0 : list Z) : outcome Z :=
  check_digest (crypto_sha1 ctx0 pad0 abc)
    [0xa9; 0x99; 0x3e; 0x36; 0x47; 0x06; 0x81; 0x6a; 0xba; 0x3e;
     0x25; 0x71; 0x78; 0x50; 0xc2; 0x6c; 0x9c; 0xd0; 0xd8; 0x9d].

Definition crypto_test_sha256 (ctx0 : hash_ctx) (pad0 : list Z) : outcome Z :=
  check_digest (crypto_sha256 ctx0 pad0 abc)
    [0xba; 0x78; 0x16; 0xbf; 0x8f; 0x01; 0xcf; 0xea;
     0x41; 0x41; 0x40; 0xde; 0x5d; 0xae; 0x22; 0x23;
     0xb0; 0x03; 0x61; 0xa3; 0x96; 0x17; 0x7a; 0x9c;
     0xb4; 0x10; 0xff; 0x61; 0xf2; 0x00; 0x15; 0xad].

Definition crypto_test_chacha20 : outcome Z :=
  let key := replicate 32 0 in
  let iv := replicate 12 0 in
  let plaintext := map Z.of_nat (seq 0 64) in
  let ciphertext := snd (crypto_chacha20_encrypt (crypto_chacha20_init key iv) plaintext) in
  let decrypted := snd (crypto_chacha20_decrypt (crypto_chacha20_init key iv) ciphertext) in
  Ret (if bytes_eqb decrypted plaintext then CRYPTO_OK else CRYPTO_ERR_HARDWARE_FAIL).

(** [crypto_test_rng] ignores the result code of [crypto_get_random_bytes]. *)
Definition crypto_test_rng (key0 : list Z) (h : hw_sample) (buf0 : list Z) (r : rng)
    : outcome Z * rng :=
  let '(_, r', buf) := crypto_get_random_bytes key0 h (Some buf0) r in
  let non_zero := length (filter (fun x => x <> 0) buf) in
  (Ret (if (0 <? non_zero)%nat then CRYPTO_OK else CRYPTO_ERR_HARDWARE_FAIL), r').

(** [crypto_self_test]: the table of tests, run in order; the count of failures
    decides the result. *)
Definition count_failed (results : list Z) : nat :=
  length (filter (fun x => x <> CRYPTO_OK) results).

Definition crypto_self_test (ctx1 ctx2 ctx3 : hash_ctx) (pad1 pad2 pad3 : list Z)
    (key0 : list Z) (h : hw_sample) (buf0 : list Z) (r : rng) : outcome (Z * rng) :=
  (do t1 <- crypto_test_md5 ctx1 pad1;
   do t2 <- crypto_test_sha1 ctx2 pad2;
   do t3 <- crypto_test_sha256 ctx3 pad3;
   do t4 <- crypto_test_chacha20;
   let '(t5, r') := crypto_test_rng key0 h buf0 r in
   do t5 <- t5;
   Ret (if (count_failed [t1; t2; t3; t4; t5] =? 0)%nat
        then CRYPTO_OK else CRYPTO_ERR_HARDWARE_FAIL, r'))%out.

(** * Lemmas *)

Lemma nonzero_filter (buf : list Z) :
  (0 <? length (filter (fun x => x <> 0%Z) buf))%nat =
  if decide (Exists (fun x => x <> 0) buf) then true else false.
Proof.
  destruct (decide _) as [H | H].
  - apply Exists_exists in H as (x & Hin & Hx).
    assert (Hf : x ∈ filter (fun x => x <> 0) buf) by (by apply list_elem_of_filter).
    destruct (filter _ buf); [by apply elem_of_nil in Hf | done].
  - destruct (filter (fun x => x <> 0) buf) as [|x l] eqn:E; [done |].
    exfalso. apply H. apply Exists_exists. exists x.
    assert (Hf : x ∈ filter (fun x => x <> 0) buf) by (rewrite E; left).
    apply list_elem_of_filter in Hf as [? ?]. done.
Qed.

(** * Properties *)

(** C38: streaming correctness of MD5, SHA-1 and SHA-256: however the message is
    cut into calls of [update], and whatever the uninitialised locals held,
    [final] returns the digest of the padded message of FIPS 180-4 / RFC 1321 when the
    message length modulo 64 is below 56; for the other lengths it writes past the end
    of its 64-byte [padding] array. *)
Theorem hash_streaming_correct {A : HashAlgo} (ctx0 : hash_ctx) (padding0 : list Z)
    (chunks : list (list Z)) :
  length (ctx_buffer ctx0) = 64%nat -> length padding0 = 64%nat ->
  Z.of_nat (length (concat chunks)) + 64 < 2 ^ 64 ->
  let result := hash_final padding0 (fold_left hash_update chunks (hash_init ctx0)) in
  if Z.of_nat (length (concat chunks)) mod 64 <? 56
  then exists ctx', result = Ret (hash_spec (concat chunks), ctx')
  else result = Crash.
Proof.
  intros Hb Hp Hlt. cbv zeta. destruct (Z.ltb_spec (Z.of_nat (length (concat chunks)) mod 64) 56) as [Hr | Hr].
  - apply hash_final_ok; [done | | done | done]. apply absorbed_updates; [done | lia].
  - apply (hash_final_crash _ _ (concat chunks)); [done | | done]. apply absorbed_updates; [done | lia].
Qed.

Lemma hash_streaming_correct_witness :
  exists ctx', hash_final (A := sha256_algo) (replicate 64 1)
    (fold_left hash_update [[97]; [98; 99]] (hash_init (mk_ctx [] 5 (replicate 64 9)))) =
    Ret (hash_spec [97; 98; 99], ctx').
Proof. apply (hash_streaming_correct (A := sha256_algo) _ _ [[97]; [98; 99]]); reflexivity. Defined.

(** When the message ends in the last eight bytes of a block, [final] of all
    three hash functions writes past the end of its 64-byte [padding] array. *)
Theorem hash_final_overflow {A : HashAlgo} (ctx0 : hash_ctx) (padding0 : list Z)
    (chunks : list (list Z)) :
  length (ctx_buffer ctx0) = 64%nat -> length padding0 = 64%nat ->
  Z.of_nat (length (concat chunks)) < 2 ^ 64 ->
  56 <= Z.of_nat (length (concat chunks)) mod 64 ->
  hash_final padding0 (fold_left hash_update chunks (hash_init ctx0)) = Crash.
Proof.
  intros Hb Hp Hlt Hr. apply (hash_final_crash _ _ (concat chunks)); [done | | done].
  apply absorbed_updates; [done | lia].
Qed.

Lemma hash_final_overflow_witness :
  hash_final (A := sha256_algo) (replicate 64 1)
    (fold_left hash_update [replicate 60 97] (hash_init (mk_ctx [] 5 (replicate 64 9)))) = Crash.
Proof.
  apply (hash_final_overflow (A := sha256_algo) _ _ [replicate 60 97]);
    [reflexivity | reflexivity | reflexivity | discriminate].
Defined.

Lemma Forall3_inv {T} (P : T -> Prop) (x y z : T) : Forall P [x; y; z] -> P x /\ P y /\ P z.
Proof. intros H. by decompose_Forall. Qed.

Lemma hash_test_ok {A : HashAlgo} (ctx0 : hash_ctx) (pad0 expected : list Z) :
  length (ctx_buffer ctx0) = 64%nat -> length pad0 = 64%nat -> hash_spec abc = expected ->
  check_digest (hash_oneshot ctx0 pad0 abc) expected = Ret CRYPTO_OK.
Proof.
  intros Hb Hp <-. rewrite hash_oneshot_ok by (done || reflexivity).
  unfold check_digest. simpl. unfold bytes_eqb. by rewrite bool_decide_eq_true_2.
Qed.

Lemma chacha20_test_ok : crypto_test_chacha20 = Ret CRYPTO_OK.
Proof. vm_compute. reflexivity. Qed.

(** The MD5, SHA-1, SHA-256 and ChaCha20 self-tests pass for every content of
    the stack, so the whole self-test reports success exactly when the buffer the
    RNG test inspects holds a non-zero byte. *)
Theorem crypto_self_test_spec (ctx1 ctx2 ctx3 : hash_ctx) (pad1 pad2 pad3 : list Z)
    (key0 : list Z) (h : hw_sample) (buf0 : list Z) (r : rng) :
  Forall (fun c => length (ctx_buffer c) = 64%nat) [ctx1; ctx2; ctx3] ->
  Forall (fun p => length p = 64%nat) [pad1; pad2; pad3] ->
  exists r', crypto_self_test ctx1 ctx2 ctx3 pad1 pad2 pad3 key0 h buf0 r =
    Ret (if decide (Exists (fun x => x <> 0) (snd (crypto_get_random_bytes key0 h (Some buf0) r)))
         then CRYPTO_OK else CRYPTO_ERR_HARDWARE_FAIL, r').
Proof.
  intros (? & ? & ?)%Forall3_inv (? & ? & ?)%Forall3_inv.
  unfold crypto_self_test, crypto_test_rng.
  destruct (crypto_get_random_bytes key0 h (Some buf0) r) as [[res r'] buf].
  unfold crypto_test_md5, crypto_test_sha1, crypto_test_sha256, crypto_md5, crypto_sha1, crypto_sha256.
  rewrite !hash_test_ok, chacha20_test_ok by (done || (vm_compute; reflexivity)).
  cbn [obind snd]. exists r'. do 2 f_equal. rewrite nonzero_filter.
  destruct (decide (Exists (fun x => x <> 0) buf)); reflexivity.
Qed.

Lemma crypto_self_test_spec_witness :
  exists r', crypto_self_test (mk_ctx [] 0 (replicate 64 3)) (mk_ctx [] 0 (replicate 64 3))
    (mk_ctx [] 0 (replicate 64 3)) (replicate 64 4) (replicate 64 4) (replicate 64 4)
    [] (mk_hw 1 [] 2 3) (replicate 4 0) (crypto_rng_init 0 (fun i => mk_hw i [] i i) [] (mk_hw 1 [] 2 3)) =
    Ret (CRYPTO_OK, r').
Proof.
  destruct (crypto_self_test_spec (mk_ctx [] 0 (replicate 64 3)) (mk_ctx [] 0 (replicate 64 3))
    (mk_ctx [] 0 (replicate 64 3)) (replicate 64 4) (replicate 64 4) (replicate 64 4)
    [] (mk_hw 1 [] 2 3) (replicate 4 0)
    (crypto_rng_init 0 (fun i => mk_hw i [] i i) [] (mk_hw 1 [] 2 3))) as [r' Hr'];
    [repeat constructor | repeat constructor |].
  exists r'. rewrite Hr'. vm_compute. reflexivity.
Defined.

(** The RNG test cannot see a generator that failed: on an uninitialised
    generator it reports success whenever the uninitialised stack buffer it hands
    over already holds a non-zero byte. *)
Theorem crypto_test_rng_blind (key0 : list Z) (h : hw_sample) (buf0 : list Z) (r : rng) :
  rng_initialized r = false -> Exists (fun x => x <> 0) buf0 ->
  crypto_test_rng key0 h buf0 r = (Ret CRYPTO_OK, r).
Proof.
  intros Hi Hb. unfold crypto_test_rng, crypto_get_random_bytes. rewrite Hi.
  destruct buf0 as [|x b]; [by inversion Hb |]. cbn [negb length Nat.eqb].
  pose proof (nonzero_filter (x :: b)) as Hf.
  destruct (decide _); [by rewrite Hf | done].
Qed.

Lemma crypto_test_rng_blind_witness :
  crypto_test_rng [] (mk_hw 0 [] 0 0) [0; 7] (mk_rng [] [] 0 0 false false) =
  (Ret CRYPTO_OK, mk_rng [] [] 0 0 false false).
Proof.
  apply crypto_test_rng_blind; [reflexivity |]. apply Exists_cons_tl, Exists_cons_hd. lia.
Defined.
