(* ===== verification/Pmm.v ===== *)
(** The physical page allocator (src/kernel/mm/pmm.c, src/include/mm/pmm.h): a
    bitmap of pages with a counter of used pages.

    The bitmap is the list of its bytes; a page is used when its bit is set.  The
    pointer tests on [pmm] and [pmm->bitmap] are left out: both are addresses of
    static objects.  Zeroing an allocated range ([memset]) is reported as the byte
    count next to the address, since the pages themselves are not part of this
    state. *)

From S2P Require Import Prelude.

Definition PAGE_SIZE : Z := 4096.

(** [(u32)-1], the failure value of [pmm_find_continuous_pages]. *)
Definition NO_PAGE : Z := 0xFFFFFFFF.

Record pmm := mk_pmm {
  bitmap : list Z;      (* u8[] *)
  base_addr : Z;        (* u64 *)
  total_pages : Z;      (* u32 *)
  used_pages : Z        (* u32 *)
}.

Definition with_bitmap (p : pmm) (b : list Z) : pmm :=
  mk_pmm b (base_addr p) (total_pages p) (used_pages p).

Definition with_used (p : pmm) (u : Z) : pmm :=
  mk_pmm (bitmap p) (base_addr p) (total_pages p) u.

Definition bitmap_bytes (p : pmm) : Z := u32 (total_pages p + 7) / 8.

(** [bitmap[page_idx / 8] & (1 << (page_idx % 8))]. *)
Definition page_used (p : pmm) (page_idx : Z) : bool :=
  negb (Z.land (get (bitmap p) (page_idx / 8)) (Z.shiftl 1 (page_idx mod 8)) =? 0).

(** [bitmap[byte_idx] |= (1 << bit)] and [bitmap[byte_idx] &= ~(1 << bit)]. *)
Definition set_page (p : pmm) (page_idx : Z) : pmm :=
  with_bitmap p (set (bitmap p) (page_idx / 8)
    (u8 (Z.lor (get (bitmap p) (page_idx / 8)) (Z.shiftl 1 (page_idx mod 8))))).

Definition clear_page (p : pmm) (page_idx : Z) : pmm :=
  with_bitmap p (set (bitmap p) (page_idx / 8)
    (u8 (Z.land (get (bitmap p) (page_idx / 8)) (Z.lnot (Z.shiftl 1 (page_idx mod 8)))))).

Definition used_incr (p : pmm) : pmm := with_used p (u32 (used_pages p + 1)).
Definition used_decr (p : pmm) : pmm := with_used p (u32 (used_pages p - 1)).

(** [pmm->base_addr + (page_idx * PAGE_SIZE)]: the product is of type u32. *)
Definition page_addr (p : pmm) (page_idx : Z) : Z :=
  u64 (base_addr p + u32 (page_idx * PAGE_SIZE)).

(** * Single pages *)

(** The bit loop of [pmm_alloc_page] on byte [byte_idx], from [bit] on; [inl] is
    the early return with the page index. *)
Fixpoint alloc_bits (p : pmm) (byte_idx bit : Z) (n : nat) : (pmm * Z) + pmm :=
  match n with
  | O => inr p
  | S n' =>
      let page_idx := byte_idx * 8 + bit in
      if page_used p page_idx then alloc_bits p byte_idx (bit + 1) n'
      else
        let p := set_page p page_idx in
        if page_idx <? total_pages p then inl (used_incr p, page_idx)
        else alloc_bits p byte_idx (bit + 1) n'
  end.

(** One iteration of the byte loop. *)
Definition alloc_byte (p : pmm) (byte_idx : Z) : (pmm * Z) + pmm :=
  let zero := get (bitmap p) byte_idx =? 0 in
  let p' := if zero then with_bitmap p (set (bitmap p) byte_idx 1) else p in
  if zero && (byte_idx * 8 <? total_pages p) then inl (used_incr p', byte_idx * 8)
  else if get (bitmap p') byte_idx =? 0xFF then inr p'
  else alloc_bits p' byte_idx 0 8.

Fixpoint alloc_bytes (p : pmm) (byte_idx : Z) (n : nat) : (pmm * Z) + pmm :=
  match n with
  | O => inr p
  | S n' =>
      match alloc_byte p byte_idx with
      | inl r => inl r
      | inr p => alloc_bytes p (byte_idx + 1) n'
      end
  end.

(** [pmm_alloc_page]: the address of the page, or [None] for NULL. *)
Definition pmm_alloc_page (p : pmm) : option Z * pmm :=
  match alloc_bytes p 0 (Z.to_nat (bitmap_bytes p)) with
  | inl (p', page_idx) => (Some (page_addr p' page_idx), p')
  | inr p' => (None, p')
  end.

(** [addr & ~(PAGE_SIZE - 1)] on a u64. *)
Definition page_align_down (addr : Z) : Z := Z.land addr (wnot 64 (PAGE_SIZE - 1)).

Definition pmm_free_page (p : pmm) (addr : Z) : pmm :=
  if addr =? 0 then p
  else
    let pa := page_align_down addr in
    if pa <? base_addr p then p
    else
      let page_idx := u32 ((pa - base_addr p) / PAGE_SIZE) in
      if total_pages p <=? page_idx then p
      else if page_used p page_idx then used_decr (clear_page p page_idx)
      else p.

(** * Ranges *)

(** The two locals [continuous] and [start_page] of the search. *)
Record scan := mk_scan { continuous : Z; start_page : Z }.

(** The body of the bit loop of [pmm_find_continuous_pages]; [inl] is the early
    return. *)
Definition scan_page (p : pmm) (count page_idx : Z) (s : scan) : Z + scan :=
  if page_used p page_idx then inr (mk_scan 0 (start_page s))
  else
    let start := if continuous s =? 0 then page_idx else start_page s in
    let cont := u32 (continuous s + 1) in
    if cont =? count then inl start else inr (mk_scan cont start).

Fixpoint scan_bits (p : pmm) (count byte_idx bit : Z) (n : nat) (s : scan) : Z + scan :=
  match n with
  | O => inr s
  | S n' =>
      let page_idx := byte_idx * 8 + bit in
      if total_pages p <=? page_idx then inr s
      else
        match scan_page p count page_idx s with
        | inl r => inl r
        | inr s => scan_bits p count byte_idx (bit + 1) n' s
        end
  end.

Fixpoint scan_bytes (p : pmm) (count byte_idx : Z) (n : nat) (s : scan) : Z + scan :=
  match n with
  | O => inr s
  | S n' =>
      let r := if get (bitmap p) byte_idx =? 0xFF then inr (mk_scan 0 (start_page s))
               else scan_bits p count byte_idx 0 8 s in
      match r with
      | inl r => inl r
      | inr s => scan_bytes p count (byte_idx + 1) n' s
      end
  end.

Definition pmm_find_continuous_pages (p : pmm) (count : Z) : Z :=
  if (count =? 0) || (total_pages p <? count) then NO_PAGE
  else
    match scan_bytes p count 0 (Z.to_nat (bitmap_bytes p)) (mk_scan 0 0) with
    | inl start => start
    | inr _ => NO_PAGE
    end.

(** The loop of [pmm_mark_range] from iteration [i] on. *)
Fixpoint mark_from (p : pmm) (start i : Z) (n : nat) (used : bool) : pmm :=
  match n with
  | O => p
  | S n' =>
      let page_idx := u32 (start + i) in
      if total_pages p <=? page_idx then p
      else
        let p :=
          if used then
            if page_used p page_idx then p else used_incr (set_page p page_idx)
          else
            if page_used p page_idx then used_decr (clear_page p page_idx) else p in
        mark_from p start (i + 1) n' used
  end.

Definition pmm_mark_range (p : pmm) (start count : Z) (used : bool) : pmm :=
  mark_from p start 0 (Z.to_nat count) used.

(** [pmm_alloc_range]: the address and the number of bytes zeroed there. *)
Definition pmm_alloc_range (p : pmm) (page_count : Z) : option (Z * Z) * pmm :=
  if page_count =? 0 then (None, p)
  else
    let start := pmm_find_continuous_pages p page_count in
    if start =? NO_PAGE then (None, p)
    else
      let p' := pmm_mark_range p start page_count true in
      (Some (page_addr p' start, u32 (page_count * PAGE_SIZE)), p').

(** [pmm_free_range]; the loop that warns about pages already free changes no
    state. *)
Definition pmm_free_range (p : pmm) (addr page_count : Z) : pmm :=
  if (addr =? 0) || (page_count =? 0) then p
  else
    let pa := page_align_down addr in
    if pa <? base_addr p then p
    else
      let start := u32 ((pa - base_addr p) / PAGE_SIZE) in
      if total_pages p <=? start then p
      else pmm_mark_range p start page_count false.

(** The locals of [pmm_alloc_aligned_range]. *)
Record ascan := mk_ascan { a_continuous : Z; a_start : Z; in_aligned : bool }.

Definition ascan_page (p : pmm) (count align page_idx : Z) (s : ascan) : Z + ascan :=
  if negb (in_aligned s) && negb (page_idx mod align =? 0) then inr s
  else if page_used p page_idx then inr (mk_ascan 0 (a_start s) false)
  else
    let first := a_continuous s =? 0 in
    let start := if first then page_idx else a_start s in
    let ina := if first then true else in_aligned s in
    let cont := u32 (a_continuous s + 1) in
    if cont =? count then inl start else inr (mk_ascan cont start ina).

Fixpoint ascan_bits (p : pmm) (count align byte_idx bit : Z) (n : nat) (s : ascan) : Z + ascan :=
  match n with
  | O => inr s
  | S n' =>
      let page_idx := byte_idx * 8 + bit in
      if total_pages p <=? page_idx then inr s
      else
        match ascan_page p count align page_idx s with
        | inl r => inl r
        | inr s => ascan_bits p count align byte_idx (bit + 1) n' s
        end
  end.

Fixpoint ascan_bytes (p : pmm) (count align byte_idx : Z) (n : nat) (s : ascan) : Z + ascan :=
  match n with
  | O => inr s
  | S n' =>
      let r := if get (bitmap p) byte_idx =? 0xFF then inr (mk_ascan 0 (a_start s) false)
               else ascan_bits p count align byte_idx 0 8 s in
      match r with
      | inl r => inl r
      | inr s => ascan_bytes p count align (byte_idx + 1) n' s
      end
  end.

Definition pmm_alloc_aligned_range (p : pmm) (page_count alignment_pages : Z)
    : option (Z * Z) * pmm :=
  if (page_count =? 0) || (alignment_pages =? 0) then (None, p)
  else if negb (Z.land alignment_pages (u32 (alignment_pages - 1)) =? 0) then (None, p)
  else
    match ascan_bytes p page_count alignment_pages 0 (Z.to_nat (bitmap_bytes p))
            (mk_ascan 0 0 false) with
    | inl start =>
        let p' := pmm_mark_range p start page_count true in
        (Some (page_addr p' start, u32 (page_count * PAGE_SIZE)), p')
    | inr _ => (None, p)
    end.

(** [pmm_get_free_pages] and [pmm_get_used_pages]. *)
Definition pmm_get_free_pages (p : pmm) : Z := u32 (total_pages p - used_pages p).
Definition pmm_get_used_pages (p : pmm) : Z := used_pages p.

(** * Initialisation *)

Record region := mk_region { r_base : Z; r_length : Z; r_available : bool }.

(** [(addr + PAGE_SIZE - 1) & ~(PAGE_SIZE - 1)]. *)
Definition page_align_up (addr : Z) : Z := page_align_down (u64 (addr + PAGE_SIZE - 1)).

(** The first loop of [pmm_init]. *)
Definition region_bounds (rs : list region) : Z * Z :=
  fold_left (fun '(lo, hi) r =>
    if r_available r then
      (if r_base r <? lo then r_base r else lo,
       let re := u64 (r_base r + r_length r) in if hi <? re then re else hi)
    else (lo, hi)) rs (0xFFFFFFFFFFFFFFFF, 0).

(** The pages of [addr, addr + n * PAGE_SIZE) that lie in the managed range, with
    the body [f] applied to each in order. *)
Fixpoint for_pages (lo hi addr : Z) (n : nat) (f : Z -> pmm -> pmm) (p : pmm) : pmm :=
  match n with
  | O => p
  | S n' =>
      let p :=
        if (lo <=? addr) && (addr <? hi) then
          let page_idx := u32 ((addr - base_addr p) / PAGE_SIZE) in
          if page_idx <? total_pages p then f page_idx p else p
        else p in
      for_pages lo hi (addr + PAGE_SIZE) n' f p
  end.

(** Iterations of [for (addr = start; addr < end; addr += PAGE_SIZE)]. *)
Definition page_steps (start fin : Z) : nat := Z.to_nat ((fin - start + PAGE_SIZE - 1) / PAGE_SIZE).

Definition init_free (page_idx : Z) (p : pmm) : pmm := used_decr (clear_page p page_idx).

Definition init_reserve (page_idx : Z) (p : pmm) : pmm :=
  if page_used p page_idx then p else used_incr (set_page p page_idx).

(** [lowest_addr] and [highest_addr] after the alignment steps. *)
Definition lowest_addr (rs : list region) : Z :=
  let lo := fst (region_bounds rs) in
  if Z.land lo (PAGE_SIZE - 1) =? 0 then lo else page_align_up lo.

Definition highest_addr (rs : list region) : Z :=
  let hi := snd (region_bounds rs) in
  if Z.land hi (PAGE_SIZE - 1) =? 0 then hi else page_align_down hi.

(** The pages of an available region: its start rounded up, its end down. *)
Definition region_start (r : region) : Z := page_align_up (r_base r).
Definition region_end (r : region) : Z := page_align_down (u64 (r_base r + r_length r)).

(** Step 7: free the pages of one region. *)
Definition init_region (lo hi : Z) (p : pmm) (r : region) : pmm :=
  if r_available r then
    for_pages lo hi (region_start r) (page_steps (region_start r) (region_end r)) init_free p
  else p.

(** The size of the static array [pmm_bitmap]. *)
Definition PMM_BITMAP_SIZE : Z := 64 * 1024 * 1024.

(** [pmm_init]: [rs] is what the boot loader reported, [mb2_size] the first word
    of the boot information, [bitmap_at] the address of the static bitmap and [old]
    its content.  The [memset] of step 5 does not look at the size of the array: more
    than 2^29 pages write past its end. *)
Definition pmm_init (old : list Z) (rs : list region) (mb2_addr mb2_size kernel_start kernel_end
    bitmap_at : Z) : outcome pmm :=
  let lo := lowest_addr rs in
  let hi := highest_addr rs in
  let total := u32 (u64 (hi - lo) / PAGE_SIZE) in
  let bytes := u32 (total + 7) / 8 in
  if PMM_BITMAP_SIZE <? bytes then Crash
  else
    let p := mk_pmm (replicate (Z.to_nat bytes) 0xFF ++ drop (Z.to_nat bytes) old) lo total total in
    let p := fold_left (init_region lo hi) rs p in
    let p := for_pages lo hi 0 (page_steps 0 0x100000) init_reserve p in
    let p := for_pages lo hi kernel_start (page_steps kernel_start kernel_end) init_reserve p in
    let mb2_start := page_align_down mb2_addr in
    let mb2_end := page_align_up (u64 (mb2_addr + mb2_size)) in
    let p := for_pages lo hi mb2_start (page_steps mb2_start mb2_end) init_reserve p in
    Ret (for_pages lo hi bitmap_at (page_steps bitmap_at (u64 (bitmap_at + bytes))) init_reserve p).

(** * Bit-level lemmas *)

Lemma land_pow2_testbit (x n : Z) :
  0 <= n -> negb (Z.land x (Z.shiftl 1 n) =? 0) = Z.testbit x n.
Proof.
  intros Hn. rewrite Z.shiftl_1_l.
  destruct (Z.testbit x n) eqn:E.
  - apply negb_true_iff, Z.eqb_neq. intros H0.
    assert (H1 : Z.testbit (Z.land x (2 ^ n)) n = true)
      by (by rewrite Z.land_spec, E, Z.pow2_bits_true by lia).
    by rewrite H0, Z.bits_0 in H1.
  - apply negb_false_iff, Z.eqb_eq. by_bits i Hi.
    rewrite Z.land_spec, Z.bits_0. destruct (Z.eq_dec i n) as [-> | Hne].
    + by rewrite E.
    + by rewrite Z.pow2_bits_false, andb_false_r by done.
Qed.

Lemma page_used_testbit (p : pmm) (i : Z) :
  page_used p i = Z.testbit (get (bitmap p) (i / 8)) (i mod 8).
Proof. apply land_pow2_testbit. apply Z.mod_pos_bound. lia. Qed.

(** The bytes of the bitmap are bytes. *)
Definition bytes_ok (p : pmm) : Prop := forall i, fits 8 (get (bitmap p) i).

Definition in_bitmap (p : pmm) (i : Z) : Prop := 0 <= i < 8 * Z.of_nat (length (bitmap p)).

Lemma in_bitmap_byte (p : pmm) (i : Z) :
  in_bitmap p i -> 0 <= i / 8 < Z.of_nat (length (bitmap p)).
Proof. unfold in_bitmap. intros. dlia. Qed.

Lemma page_bit_eq (i j : Z) : i / 8 = j / 8 -> i mod 8 = j mod 8 -> i = j.
Proof. intros. dlia. Qed.

Lemma page_used_set_page (p : pmm) (i j : Z) :
  in_bitmap p i -> 0 <= j -> page_used (set_page p i) j = (i =? j) || page_used p j.
Proof.
  intros Hi Hj. apply in_bitmap_byte in Hi as Hb. rewrite !page_used_testbit. simpl.
  assert (0 <= i mod 8 < 8) by (apply Z.mod_pos_bound; lia).
  assert (0 <= j mod 8 < 8) by (apply Z.mod_pos_bound; lia).
  destruct (Z.eq_dec (i / 8) (j / 8)) as [E | E].
  - rewrite <- E, get_set_eq, wrap_testbit, Z.lor_spec, Z.shiftl_1_l by lia.
    rewrite Z.pow2_bits_eqb by lia. replace (j mod 8 <? 8) with true by lia.
    destruct (Z.eqb_spec (i mod 8) (j mod 8)), (Z.eqb_spec i j);
      try (by subst); try (by destruct (Z.testbit _ _)).
    exfalso. by apply n, page_bit_eq.
  - rewrite get_set_ne by dlia. destruct (Z.eqb_spec i j); [by subst | done].
Qed.

Lemma page_used_clear_page (p : pmm) (i j : Z) :
  in_bitmap p i -> 0 <= j ->
  page_used (clear_page p i) j = negb (i =? j) && page_used p j.
Proof.
  intros Hi Hj. apply in_bitmap_byte in Hi as Hb. rewrite !page_used_testbit. simpl.
  assert (0 <= i mod 8 < 8) by (apply Z.mod_pos_bound; lia).
  assert (0 <= j mod 8 < 8) by (apply Z.mod_pos_bound; lia).
  destruct (Z.eq_dec (i / 8) (j / 8)) as [E | E].
  - rewrite <- E, get_set_eq, wrap_testbit, Z.land_spec, Z.lnot_spec, Z.shiftl_1_l by lia.
    rewrite Z.pow2_bits_eqb by lia. replace (j mod 8 <? 8) with true by lia.
    destruct (Z.eqb_spec (i mod 8) (j mod 8)), (Z.eqb_spec i j);
      try (by subst); try (by destruct (Z.testbit _ _)).
    exfalso. by apply n, page_bit_eq.
  - rewrite get_set_ne by dlia. destruct (Z.eqb_spec i j); [by subst | done].
Qed.

Lemma get_out (l : list Z) (i : Z) : Z.of_nat (length l) <= i -> get l i = 0.
Proof. intros Hi. unfold get. apply nth_overflow. lia. Qed.

Lemma bytes_ok_set (p : pmm) (i v : Z) :
  0 <= i -> fits 8 v -> bytes_ok p -> bytes_ok (with_bitmap p (set (bitmap p) i v)).
Proof.
  intros Hi Hv Hp k. simpl.
  destruct (decide (Z.to_nat k = Z.to_nat i)) as [E | E].
  - assert (get (set (bitmap p) i v) k = get (set (bitmap p) i v) i) as ->
      by (unfold get; by rewrite E).
    destruct (Z.ltb_spec i (Z.of_nat (length (bitmap p)))).
    + by rewrite get_set_eq by lia.
    + rewrite get_out by (rewrite length_set; lia). apply fits_0. lia.
  - assert (get (set (bitmap p) i v) k = get (bitmap p) k) as ->; [| apply Hp].
    unfold get, set. rewrite !nth_lookup, list_lookup_insert_ne by lia. done.
Qed.

(** * Equivalence of allocator states

    Two states are equivalent when they agree on everything the interface can
    observe: the bits of the last byte beyond [total_pages] are free to differ. *)

Record pmm_equiv (p q : pmm) : Prop := {
  eqv_base : base_addr p = base_addr q;
  eqv_total : total_pages p = total_pages q;
  eqv_used : used_pages p = used_pages q;
  eqv_len : length (bitmap p) = length (bitmap q);
  eqv_pages : forall i, 0 <= i < total_pages p -> page_used p i = page_used q i
}.

#[export] Instance pmm_equiv_equiv : Equivalence pmm_equiv.
Proof.
  split.
  - by split.
  - intros p q [H1 H2 H3 H4 H5]. split; try congruence.
    intros i Hi. symmetry. apply H5. lia.
  - intros p q r [] []. split; try congruence.
    intros i Hi. rewrite eqv_pages0 by done. apply eqv_pages1. lia.
Qed.

#[export] Instance page_addr_proper (i : Z) : Proper (pmm_equiv ==> eq) (fun p => page_addr p i).
Proof. intros p q []. unfold page_addr. congruence. Qed.

#[export] Instance used_incr_proper : Proper (pmm_equiv ==> pmm_equiv) used_incr.
Proof.
  intros p q [H1 H2 H3 H4 H5]. split; simpl; [done.. | by rewrite H3 | done | done].
Qed.

(** * The invariant *)

(** Number of [i < n] with [f i]. *)
Fixpoint count_upto (f : Z -> bool) (n : nat) : Z :=
  match n with
  | O => 0
  | S n' => count_upto f n' + (if f (Z.of_nat n') then 1 else 0)
  end.

Lemma count_upto_ext (f g : Z -> bool) (n : nat) :
  (forall i, 0 <= i < Z.of_nat n -> f i = g i) -> count_upto f n = count_upto g n.
Proof.
  induction n as [|n IH]; intros H; [done |]. simpl.
  rewrite IH, H by (intros; try apply H; lia). done.
Qed.

Lemma count_upto_bound (f : Z -> bool) (n : nat) : 0 <= count_upto f n <= Z.of_nat n.
Proof. induction n as [|n IH]; simpl; [lia |]. destruct (f _); lia. Qed.

(** Turning one page from free to used adds one. *)
Lemma count_upto_flip (f g : Z -> bool) (i : Z) (n : nat) :
  0 <= i < Z.of_nat n -> f i = false -> g i = true ->
  (forall j, 0 <= j < Z.of_nat n -> j <> i -> f j = g j) ->
  count_upto g n = count_upto f n + 1.
Proof.
  induction n as [|n IH]; intros Hi Hf Hg H; [lia |]. simpl.
  destruct (Z.eq_dec i (Z.of_nat n)) as [-> | Hne].
  - rewrite Hf, Hg. rewrite (count_upto_ext f g); [lia |]. intros j Hj. apply H; lia.
  - rewrite IH by (try done; intros; try apply H; lia).
    rewrite (H (Z.of_nat n)) by lia. lia.
Qed.

Lemma count_upto_all (f : Z -> bool) (n : nat) :
  count_upto f n = Z.of_nat n -> forall i, 0 <= i < Z.of_nat n -> f i = true.
Proof.
  induction n as [|n IH]; intros Hc i Hi; [lia |]. simpl in Hc.
  pose proof (count_upto_bound f n).
  destruct (f (Z.of_nat n)) eqn:E; [| lia].
  destruct (Z.eq_dec i (Z.of_nat n)) as [-> | Hne]; [done |]. apply IH; lia.
Qed.

Lemma count_upto_full (f : Z -> bool) (n : nat) :
  (forall i, 0 <= i < Z.of_nat n -> f i = true) -> count_upto f n = Z.of_nat n.
Proof.
  induction n as [|n IH]; intros H; [done |]. cbn [count_upto].
  rewrite IH, H by (intros; try apply H; lia). lia.
Qed.

Definition used_count (p : pmm) : Z := count_upto (page_used p) (Z.to_nat (total_pages p)).

(** The allocator's invariant: the bitmap covers every managed page, its bytes are
    bytes, and the counter is the number of used pages. *)
Record pmm_inv (p : pmm) : Prop := {
  inv_total : 0 <= total_pages p < 2 ^ 32 - 7;
  inv_len : total_pages p <= 8 * Z.of_nat (length (bitmap p));
  inv_bytes : bytes_ok p;
  inv_used : used_pages p = used_count p
}.

Lemma inv_in_bitmap (p : pmm) (i : Z) : pmm_inv p -> 0 <= i < total_pages p -> in_bitmap p i.
Proof. intros [_ Hl _ _] Hi. unfold in_bitmap. lia. Qed.

Lemma inv_used_bound (p : pmm) : pmm_inv p -> 0 <= used_pages p <= total_pages p.
Proof.
  intros [Ht _ _ ->]. unfold used_count.
  pose proof (count_upto_bound (page_used p) (Z.to_nat (total_pages p))). lia.
Qed.

Lemma inv_bitmap_bytes (p : pmm) : pmm_inv p -> bitmap_bytes p = (total_pages p + 7) / 8.
Proof. intros [Ht _ _ _]. unfold bitmap_bytes. rewrite wrap_small by (split; lia). done. Qed.

Lemma pmm_inv_equiv (p q : pmm) : pmm_equiv p q -> bytes_ok q -> pmm_inv p -> pmm_inv q.
Proof.
  intros [H1 H2 H3 H4 H5] Hq [I1 I2 I3 I4]. split; [lia | lia | done |].
  rewrite <- H3, I4. unfold used_count. rewrite <- H2.
  apply count_upto_ext. intros i Hi. apply H5. lia.
Qed.

(** What a state change that marks exactly page [i] looks like. *)
Record takes_page (p p' : pmm) (i : Z) : Prop := {
  tk_base : base_addr p' = base_addr p;
  tk_total : total_pages p' = total_pages p;
  tk_used : used_pages p' = used_pages p + 1;
  tk_page : page_used p' i = true;
  tk_other : forall j, 0 <= j < total_pages p -> j <> i -> page_used p' j = page_used p j
}.

Lemma set_page_bytes_ok (p : pmm) (i : Z) : 0 <= i -> bytes_ok p -> bytes_ok (set_page p i).
Proof. intros Hi Hp. apply bytes_ok_set; [dlia | apply wrap_fits; lia | done]. Qed.

Lemma clear_page_bytes_ok (p : pmm) (i : Z) : 0 <= i -> bytes_ok p -> bytes_ok (clear_page p i).
Proof. intros Hi Hp. apply bytes_ok_set; [dlia | apply wrap_fits; lia | done]. Qed.

(** Marking a free page keeps the invariant and takes exactly that page. *)
Lemma mark_free_page (p : pmm) (i : Z) :
  pmm_inv p -> 0 <= i < total_pages p -> page_used p i = false ->
  let p' := used_incr (set_page p i) in pmm_inv p' /\ takes_page p p' i.
Proof.
  intros Hinv Hi Hf. cbv zeta. pose proof (inv_in_bitmap p i Hinv Hi) as Hb.
  pose proof Hinv as [I1 I2 I3 I4].
  assert (Hpg : forall j, 0 <= j -> page_used (used_incr (set_page p i)) j = (i =? j) || page_used p j)
    by (intros j Hj; by apply page_used_set_page).
  assert (Hc : used_count (used_incr (set_page p i)) = used_count p + 1).
  { unfold used_count. simpl. apply (count_upto_flip _ _ i); [lia | done | |].
    - rewrite Hpg, Z.eqb_refl by lia. done.
    - intros j Hj Hne. rewrite Hpg by lia. by replace (i =? j) with false by lia. }
  assert (Hu : used_pages (used_incr (set_page p i)) = used_pages p + 1).
  { simpl. pose proof (inv_used_bound p Hinv). apply wrap_small. split; lia. }
  split; split; simpl in *; try done.
  - by rewrite length_set.
  - apply (set_page_bytes_ok p i); [lia | done].
  - rewrite Hu, I4. symmetry. apply Hc.
  - rewrite Hpg, Z.eqb_refl by lia. done.
  - intros j Hj Hne. rewrite Hpg by lia. by replace (i =? j) with false by lia.
Qed.

(** Clearing a used page keeps the invariant and gives back exactly that page. *)
Lemma clear_used_page (p : pmm) (i : Z) :
  pmm_inv p -> 0 <= i < total_pages p -> page_used p i = true ->
  let p' := used_decr (clear_page p i) in pmm_inv p' /\ takes_page p' p i.
Proof.
  intros Hinv Hi Hf. cbv zeta. pose proof (inv_in_bitmap p i Hinv Hi) as Hb.
  pose proof Hinv as [I1 I2 I3 I4].
  assert (Hpg : forall j, 0 <= j ->
      page_used (used_decr (clear_page p i)) j = negb (i =? j) && page_used p j)
    by (intros j Hj; by apply page_used_clear_page).
  assert (Hc : used_count p = used_count (used_decr (clear_page p i)) + 1).
  { unfold used_count. simpl. apply (count_upto_flip _ _ i); [lia | | done |].
    - rewrite Hpg, Z.eqb_refl by lia. done.
    - intros j Hj Hne. rewrite Hpg by lia. by replace (i =? j) with false by lia. }
  assert (Hu : used_pages (used_decr (clear_page p i)) = used_pages p - 1).
  { simpl. pose proof (inv_used_bound p Hinv).
    pose proof (count_upto_bound (page_used (used_decr (clear_page p i))) (Z.to_nat (total_pages p))).
    unfold used_count in Hc, I4. simpl in Hc. apply wrap_small. split; lia. }
  split; split; simpl in *; try done; try lia.
  - by rewrite length_set.
  - apply (clear_page_bytes_ok p i); [lia | done].
  - intros j Hj Hne. rewrite Hpg by lia. by replace (i =? j) with false by lia.
Qed.

(** * Allocation of one page *)

Definition first_free_from (p : pmm) (lo i : Z) : Prop :=
  lo <= i < total_pages p /\ page_used p i = false /\
  forall j, lo <= j < i -> page_used p j = true.

(** Setting a bit beyond the last page is invisible. *)
Lemma set_tail_equiv (p : pmm) (i : Z) :
  in_bitmap p i -> total_pages p <= i -> pmm_equiv p (set_page p i).
Proof.
  intros Hb Hi. split; simpl; [done.. | by rewrite length_set |].
  intros j Hj. rewrite page_used_set_page by (done || lia).
  by replace (i =? j) with false by lia.
Qed.

(** A search step over pages [lo, hi): either the first free page is taken, or
    there is none and the state is unchanged up to equivalence. *)
Definition alloc_step_spec (p : pmm) (lo hi : Z) (r : (pmm * Z) + pmm) : Prop :=
  match r with
  | inl (p', i) => first_free_from p lo i /\ i < hi /\ pmm_inv p' /\ takes_page p p' i /\
                   length (bitmap p') = length (bitmap p)
  | inr p' => (forall j, lo <= j < hi -> j < total_pages p -> page_used p j = true) /\
              pmm_equiv p p' /\ pmm_inv p'
  end.

(** The two halves of a search compose. *)
Lemma alloc_step_seq (p p1 : pmm) (lo mid hi : Z) (r : (pmm * Z) + pmm) :
  0 <= lo <= mid -> mid <= hi ->
  alloc_step_spec p lo mid (inr p1) -> alloc_step_spec p1 mid hi r -> alloc_step_spec p lo hi r.
Proof.
  intros Hlo Hhi (Hall & Heq & Hinv1) H2. pose proof Heq as [E1 E2 E3 E4 E5].
  destruct r as [[p' i] | p'].
  - destruct H2 as ((Hi & Hf & Hb) & Hlt & Hinv & [T1 T2 T3 T4 T5] & Hlen).
    split; [split; [lia | split] |].
    + rewrite E5 by lia. done.
    + intros j Hj. destruct (Z.ltb_spec j mid); [apply Hall; lia |].
      rewrite E5 by lia. apply Hb. lia.
    + split; [done |]. split; [done |]. split; [| congruence].
      split; [congruence.. | lia | done |].
      intros j Hj Hne. rewrite E5 by lia. apply T5; lia.
  - destruct H2 as (Hall2 & Heq2 & Hinv2). split; [| split; [by transitivity p1 | done]].
    intros j Hj Ht. destruct (Z.ltb_spec j mid); [apply Hall; lia |].
    rewrite E5 by lia. apply Hall2; lia.
Qed.

Lemma alloc_bits_spec (p : pmm) (byte_idx bit : Z) (n : nat) :
  pmm_inv p -> 0 <= byte_idx < Z.of_nat (length (bitmap p)) -> 0 <= bit ->
  bit + Z.of_nat n = 8 ->
  alloc_step_spec p (byte_idx * 8 + bit) (byte_idx * 8 + 8) (alloc_bits p byte_idx bit n).
Proof.
  revert p bit. induction n as [|n IH]; intros p bit Hinv Hb Hbit Hn.
  { simpl. split; [intros; lia |]. done. }
  cbn [alloc_bits]. set (i := byte_idx * 8 + bit).
  destruct (page_used p i) eqn:Hu.
  { apply (alloc_step_seq p p i (i + 1)); [lia.. | |].
    - split; [| done]. intros j Hj _. by replace j with i by lia.
    - subst i. rewrite <- Z.add_assoc. apply IH; (done || lia). }
  change (total_pages (set_page p i)) with (total_pages p).
  destruct (Z.ltb_spec i (total_pages p)).
  - destruct (mark_free_page p i) as [Hi' Ht]; [done | lia | done |].
    split; [| split; [lia | split; [done | split; [done |]]]].
    + split; [lia | split; [done | lia]].
    + simpl. by rewrite length_set.
  - assert (Hin : in_bitmap p i) by (unfold in_bitmap; lia).
    pose proof (set_tail_equiv p i Hin ltac:(lia)) as Heq.
    assert (Hinv' : pmm_inv (set_page p i)).
    { apply (pmm_inv_equiv p); [done | apply set_page_bytes_ok; [lia | apply Hinv] | done]. }
    apply (alloc_step_seq p (set_page p i) i (i + 1)); [lia.. | |].
    + split; [| done]. intros j Hj Hlt. lia.
    + subst i. rewrite <- Z.add_assoc. apply IH; try done; try lia.
      simpl. rewrite length_set. lia.
Qed.

Lemma byte_page (byte_idx bit : Z) :
  0 <= bit < 8 -> (byte_idx * 8 + bit) / 8 = byte_idx /\ (byte_idx * 8 + bit) mod 8 = bit.
Proof. intros. split; dlia. Qed.

(** Every page of a byte 0xFF is used. *)
Lemma full_byte_used (p : pmm) (byte_idx j : Z) :
  get (bitmap p) byte_idx = 0xFF -> byte_idx * 8 <= j < byte_idx * 8 + 8 -> page_used p j = true.
Proof.
  intros Hff Hj. rewrite page_used_testbit.
  destruct (byte_page byte_idx (j - byte_idx * 8)) as [E1 E2]; [lia |].
  rewrite Zplus_minus in E1, E2. rewrite E1, E2, Hff.
  change 255 with (Z.ones 8). apply Z.ones_spec_low. lia.
Qed.

(** [bitmap[byte_idx] = 0x01] on a zero byte marks its first page. *)
Lemma zero_byte_set (p : pmm) (byte_idx : Z) :
  get (bitmap p) byte_idx = 0 ->
  with_bitmap p (set (bitmap p) byte_idx 1) = set_page p (byte_idx * 8) /\
  page_used p (byte_idx * 8) = false.
Proof.
  intros H0. destruct (byte_page byte_idx 0) as [E1 E2]; [lia |].
  rewrite Z.add_0_r in E1, E2. rewrite page_used_testbit. unfold set_page.
  rewrite E1, E2, H0. done.
Qed.

Lemma alloc_byte_spec (p : pmm) (byte_idx : Z) :
  pmm_inv p -> 0 <= byte_idx < bitmap_bytes p ->
  alloc_step_spec p (byte_idx * 8) (byte_idx * 8 + 8) (alloc_byte p byte_idx).
Proof.
  intros Hinv Hb. rewrite inv_bitmap_bytes in Hb by done.
  pose proof Hinv as [I1 I2 I3 I4].
  assert (Hin : 0 <= byte_idx < Z.of_nat (length (bitmap p))) by dlia.
  assert (Ht : byte_idx * 8 < total_pages p) by dlia.
  unfold alloc_byte. destruct (Z.eqb_spec (get (bitmap p) byte_idx) 0) as [E0 | E0].
  - replace (byte_idx * 8 <? total_pages p) with true by lia. cbn [andb].
    destruct (zero_byte_set p byte_idx E0) as [-> Hf].
    destruct (mark_free_page p (byte_idx * 8)) as [Hi' Htk]; [done | lia | done |].
    split; [split; [lia | split; [done | lia]] |]. split; [lia |].
    split; [done | split; [done |]]. simpl. by rewrite length_set.
  - cbn [andb]. destruct (Z.eqb_spec (get (bitmap p) byte_idx) 255) as [E1 | E1].
    + split; [| done]. intros j Hj _. by apply (full_byte_used p byte_idx).
    + rewrite <- (Z.add_0_r (byte_idx * 8)) at 1. apply alloc_bits_spec; (done || lia).
Qed.

Lemma alloc_bytes_spec (p : pmm) (byte_idx : Z) (n : nat) :
  pmm_inv p -> 0 <= byte_idx -> byte_idx + Z.of_nat n = bitmap_bytes p ->
  alloc_step_spec p (byte_idx * 8) (8 * bitmap_bytes p) (alloc_bytes p byte_idx n).
Proof.
  revert p byte_idx. induction n as [|n IH]; intros p byte_idx Hinv Hb Hn; cbn [alloc_bytes].
  { split; [intros; lia | done]. }
  pose proof (alloc_byte_spec p byte_idx Hinv ltac:(lia)) as H1.
  destruct (alloc_byte p byte_idx) as [[p' i] | p'].
  - destruct H1 as (H1 & H2 & H3). split; [done |]. split; [lia | done].
  - pose proof H1 as (_ & Heq & Hinv').
    assert (Hbb : bitmap_bytes p = bitmap_bytes p')
      by (unfold bitmap_bytes; by rewrite (eqv_total _ _ Heq)).
    apply (alloc_step_seq p p' _ (byte_idx * 8 + 8)); [lia | lia | done |].
    replace (byte_idx * 8 + 8) with ((byte_idx + 1) * 8) by lia. rewrite Hbb in *.
    apply IH; [done | lia | lia].
Qed.

(** The search of [pmm_alloc_page] as a whole. *)
Lemma pmm_alloc_page_cases (p : pmm) :
  pmm_inv p ->
  (exists i p', first_free_from p 0 i /\ pmm_inv p' /\ takes_page p p' i /\
     length (bitmap p') = length (bitmap p) /\
     pmm_alloc_page p = (Some (page_addr p i), p')) \/
  (exists p', (forall j, 0 <= j < total_pages p -> page_used p j = true) /\
     pmm_equiv p p' /\ pmm_inv p' /\ pmm_alloc_page p = (None, p')).
Proof.
  intros Hinv. unfold pmm_alloc_page.
  assert (Hbb : 0 <= bitmap_bytes p) by (rewrite inv_bitmap_bytes by done; pose proof (inv_total p Hinv); dlia).
  pose proof (alloc_bytes_spec p 0 (Z.to_nat (bitmap_bytes p)) Hinv ltac:(lia) ltac:(lia)) as H.
  destruct (alloc_bytes p 0 (Z.to_nat (bitmap_bytes p))) as [[p' i] | p'].
  - left. destruct H as (H1 & H2 & H3 & H4 & H5). exists i, p'. repeat split; try apply H1; try done; try apply H3; try apply H4.
    unfold page_addr. by rewrite (tk_base _ _ _ H4).
  - right. destruct H as (H1 & H2 & H3). exists p'. split; [| done].
    intros j Hj. apply H1; [| lia]. rewrite inv_bitmap_bytes by done. dlia.
Qed.

(** * Search for a run of free pages *)

Definition free_run (p : pmm) (s n : Z) : Prop :=
  0 <= s /\ s + n <= total_pages p /\ forall j, s <= j < s + n -> page_used p j = false.

(** Loop invariant of the search before page [i]: the last [continuous] pages are
    free and start at [start_page], and no run starts before them. *)
Record scan_inv (p : pmm) (count i : Z) (s : scan) : Prop := {
  si_cont : 0 <= continuous s < count;
  si_le : continuous s <= i;
  si_free : forall j, i - continuous s <= j < i -> page_used p j = false;
  si_start : continuous s = 0 \/ start_page s = i - continuous s;
  si_none : forall s', 0 <= s' < i - continuous s -> ~ free_run p s' count
}.

(** What a search step over pages [lo, hi) gives. *)
Definition scan_step_spec (p : pmm) (count hi : Z) (r : Z + scan) : Prop :=
  match r with
  | inl s => free_run p s count /\ forall s', 0 <= s' < s -> ~ free_run p s' count
  | inr s => scan_inv p count hi s
  end.

Lemma scan_inv_skip (p : pmm) (count i k : Z) (s : scan) :
  scan_inv p count i s -> 0 <= i < k ->
  (forall j, i <= j < k -> page_used p j = true) ->
  scan_inv p count k (mk_scan 0 (start_page s)).
Proof.
  intros [H1 H2 H3 H4 H5] Hk Hu. split; simpl; [lia | lia | lia | by left |].
  intros s' Hs' Hrun. destruct (Z.ltb_spec s' (i - continuous s)) as [Hlt | Hge].
  - apply (H5 s'); [lia | done].
  - destruct Hrun as (_ & _ & Hfree).
    set (j := Z.max i s').
    assert (Hj : page_used p j = true) by (apply Hu; lia).
    rewrite Hfree in Hj by lia. done.
Qed.

Lemma scan_page_spec (p : pmm) (count i : Z) (s : scan) :
  0 < count < 2 ^ 32 -> 0 <= i < total_pages p -> scan_inv p count i s ->
  scan_step_spec p count (i + 1) (scan_page p count i s).
Proof.
  intros Hc Hi Hs. unfold scan_page. destruct (page_used p i) eqn:Hu.
  { apply (scan_inv_skip p count i); [done | lia |]. intros j Hj. by replace j with i by lia. }
  destruct Hs as [H1 H2 H3 H4 H5]. rewrite wrap_small by (split; lia).
  set (start := if continuous s =? 0 then i else start_page s).
  assert (Hst : start = i - continuous s).
  { subst start. destruct (Z.eqb_spec (continuous s) 0); lia. }
  assert (Hfree : forall j, start <= j < i + 1 -> page_used p j = false).
  { intros j Hj. destruct (Z.eq_dec j i) as [-> |]; [done |]. apply H3. lia. }
  destruct (Z.eqb_spec (continuous s + 1) count) as [E | E].
  - split; [| rewrite Hst; exact H5]. split; [lia |]. split; [lia |].
    intros j Hj. apply Hfree. lia.
  - split; simpl; [lia | lia | | right; lia |].
    + intros j Hj. apply Hfree. lia.
    + intros s' Hs'. apply H5. lia.
Qed.

Lemma scan_bits_spec (p : pmm) (count byte_idx bit : Z) (n : nat) (s : scan) :
  0 < count < 2 ^ 32 -> 0 <= byte_idx -> 0 <= bit -> bit + Z.of_nat n = 8 ->
  byte_idx * 8 + bit <= total_pages p ->
  scan_inv p count (byte_idx * 8 + bit) s ->
  scan_step_spec p count (Z.min (byte_idx * 8 + 8) (total_pages p))
    (scan_bits p count byte_idx bit n s).
Proof.
  revert bit s. induction n as [|n IH]; intros bit s Hc Hb Hbit Hn Hle Hs; cbn [scan_bits].
  { replace (Z.min _ _) with (byte_idx * 8 + bit) by lia. done. }
  destruct (Z.leb_spec (total_pages p) (byte_idx * 8 + bit)).
  { replace (Z.min _ _) with (byte_idx * 8 + bit) by lia. done. }
  pose proof (scan_page_spec p count (byte_idx * 8 + bit) s Hc ltac:(lia) Hs) as H1.
  destruct (scan_page p count (byte_idx * 8 + bit) s) as [r | s1]; [done |].
  apply IH; try done; try lia. by rewrite Z.add_assoc.
Qed.

Lemma scan_bytes_spec (p : pmm) (count byte_idx : Z) (n : nat) (s : scan) :
  pmm_inv p -> 0 < count < 2 ^ 32 -> 0 <= byte_idx ->
  byte_idx + Z.of_nat n = bitmap_bytes p ->
  scan_inv p count (Z.min (byte_idx * 8) (total_pages p)) s ->
  scan_step_spec p count (total_pages p) (scan_bytes p count byte_idx n s).
Proof.
  revert byte_idx s. induction n as [|n IH]; intros byte_idx s Hinv Hc Hb Hn Hs; cbn [scan_bytes].
  { rewrite inv_bitmap_bytes in Hn by done.
    replace (Z.min _ _) with (total_pages p) in Hs by dlia. done. }
  assert (Ht : byte_idx * 8 < total_pages p) by (rewrite inv_bitmap_bytes in Hn by done; dlia).
  rewrite Z.min_l in Hs by lia.
  assert (H1 : scan_step_spec p count (Z.min (byte_idx * 8 + 8) (total_pages p))
    (if get (bitmap p) byte_idx =? 255 then inr (mk_scan 0 (start_page s))
     else scan_bits p count byte_idx 0 8 s)).
  { destruct (Z.eqb_spec (get (bitmap p) byte_idx) 255) as [E | E].
    - apply (scan_inv_skip p count (byte_idx * 8)); [done | lia |].
      intros j Hj. apply (full_byte_used p byte_idx); [done | lia].
    - apply scan_bits_spec; rewrite ?Z.add_0_r; (done || lia). }
  destruct (if get (bitmap p) byte_idx =? 255 then _ else _) as [r | s1]; [done |].
  apply IH; try done; try lia.
  by replace ((byte_idx + 1) * 8) with (byte_idx * 8 + 8) by lia.
Qed.

Lemma scan_init (p : pmm) (count : Z) :
  0 < count -> 0 <= total_pages p -> scan_inv p count (Z.min (0 * 8) (total_pages p)) (mk_scan 0 0).
Proof. intros. split; simpl; (lia || by left). Qed.

(** The search returns the first run of [count] free pages, and [NO_PAGE] only
    when there is none. *)
Lemma find_continuous_spec (p : pmm) (count : Z) :
  pmm_inv p -> 0 <= count < 2 ^ 32 ->
  let s := pmm_find_continuous_pages p count in
  (s <> NO_PAGE /\ 0 < count /\ free_run p s count /\
     forall s', 0 <= s' < s -> ~ free_run p s' count) \/
  (s = NO_PAGE /\ (count = 0 \/ forall s', ~ free_run p s' count)).
Proof.
  intros Hinv Hc. cbv zeta. unfold pmm_find_continuous_pages. pose proof (inv_total p Hinv) as Ht.
  destruct (Z.eqb_spec count 0) as [E0 | E0]; [by right; split; [| left] |].
  destruct (Z.ltb_spec (total_pages p) count) as [E1 | E1]; cbn [orb].
  { right. split; [done |]. right. intros s' (H1 & H2 & _). lia. }
  assert (Hbb : 0 <= bitmap_bytes p) by (rewrite inv_bitmap_bytes by done; dlia).
  pose proof (scan_bytes_spec p count 0 (Z.to_nat (bitmap_bytes p)) (mk_scan 0 0) Hinv
    ltac:(lia) ltac:(lia) ltac:(lia) (scan_init p count ltac:(lia) ltac:(lia))) as H.
  destruct (scan_bytes p count 0 (Z.to_nat (bitmap_bytes p)) (mk_scan 0 0)) as [s | s].
  - left. destruct H as (Hrun & Hfirst). pose proof Hrun as (R1 & R2 & _).
    split; [unfold NO_PAGE; lia |]. split; [lia |]. done.
  - right. split; [done |]. right. intros s' Hrun. pose proof Hrun as (R1 & R2 & _).
    destruct H as [H1 H2 _ _ H5]. apply (H5 s'); [lia | done].
Qed.

(** * Marking a range *)

(** The state of every page after marking [start, start + n). *)
Definition marks (p p' : pmm) (s n : Z) (used : bool) : Prop :=
  base_addr p' = base_addr p /\ total_pages p' = total_pages p /\
  length (bitmap p') = length (bitmap p) /\
  forall j, 0 <= j < total_pages p ->
    page_used p' j = if (s <=? j) && (j <? s + n) then used else page_used p j.

Lemma mark_one (p : pmm) (i : Z) (used : bool) :
  pmm_inv p -> 0 <= i < total_pages p ->
  let p' := if used then if page_used p i then p else used_incr (set_page p i)
            else if page_used p i then used_decr (clear_page p i) else p in
  pmm_inv p' /\ marks p p' i 1 used.
Proof.
  intros Hinv Hi. cbv zeta. unfold marks.
  assert (Hone : forall j, (i <=? j) && (j <? i + 1) = (j =? i)) by lia.
  setoid_rewrite Hone.
  destruct used, (page_used p i) eqn:Hu.
  - split; [done |]. repeat split. intros j Hj. destruct (Z.eqb_spec j i); by subst.
  - destruct (mark_free_page p i Hinv Hi Hu) as [H1 [T1 T2 T3 T4 T5]]. split; [done |].
    split; [done |]. split; [done |]. split; [simpl; by rewrite length_set |].
    intros j Hj. destruct (Z.eqb_spec j i) as [-> |]; [done | by apply T5].
  - destruct (clear_used_page p i Hinv Hi Hu) as [H1 [T1 T2 T3 T4 T5]]. split; [done |].
    split; [done |]. split; [done |]. split; [simpl; by rewrite length_set |].
    intros j Hj. destruct (Z.eqb_spec j i) as [-> |].
    + change (page_used (clear_page p i) i = false).
      rewrite page_used_clear_page by (try lia; by apply inv_in_bitmap).
      by rewrite Z.eqb_refl.
    + symmetry. apply T5; [simpl; lia | done].
  - split; [done |]. repeat split. intros j Hj. destruct (Z.eqb_spec j i); by subst.
Qed.

Lemma mark_from_spec (p : pmm) (s i : Z) (n : nat) (used : bool) :
  pmm_inv p -> 0 <= s -> 0 <= i -> s + i + Z.of_nat n < 2 ^ 32 ->
  let p' := mark_from p s i n used in pmm_inv p' /\ marks p p' (s + i) (Z.of_nat n) used.
Proof.
  revert p i. induction n as [|n IH]; intros p i Hinv Hs Hi Hlt; cbn [mark_from].
  { split; [done |]. repeat split. intros j Hj.
    by replace ((s + i <=? j) && (j <? s + i + Z.of_nat 0)) with false by lia. }
  rewrite wrap_small by (split; lia).
  destruct (Z.leb_spec (total_pages p) (s + i)).
  { split; [done |]. repeat split. intros j Hj.
    by replace ((s + i <=? j) && (j <? s + i + Z.of_nat (S n))) with false by lia. }
  destruct (mark_one p (s + i) used Hinv ltac:(lia)) as [Hinv1 M1]. revert Hinv1 M1.
  generalize (if used then if page_used p (s + i) then p else used_incr (set_page p (s + i))
              else if page_used p (s + i) then used_decr (clear_page p (s + i)) else p).
  intros p1 Hinv1 (M1 & M2 & M3 & M4).
  destruct (IH p1 (i + 1) Hinv1 Hs ltac:(lia) ltac:(lia)) as [Hinv2 (N1 & N2 & N3 & N4)].
  split; [done |]. split; [congruence |]. split; [congruence |]. split; [congruence |].
  intros j Hj. rewrite N4, M4 by lia.
  destruct ((s + (i + 1) <=? j) && (j <? s + (i + 1) + Z.of_nat n)) eqn:E1,
    ((s + i <=? j) && (j <? s + i + 1)) eqn:E2,
    ((s + i <=? j) && (j <? s + i + Z.of_nat (S n))) eqn:E3; (done || lia).
Qed.

Lemma mark_range_spec (p : pmm) (s n : Z) (used : bool) :
  pmm_inv p -> 0 <= s -> 0 <= n -> s + n < 2 ^ 32 ->
  let p' := pmm_mark_range p s n used in pmm_inv p' /\ marks p p' s n used.
Proof.
  intros Hinv Hs Hn Hlt. unfold pmm_mark_range.
  pose proof (mark_from_spec p s 0 (Z.to_nat n) used Hinv Hs ltac:(lia) ltac:(lia)) as H.
  by rewrite Z2Nat.id, Z.add_0_r in H by lia.
Qed.

(** * Aligned runs *)

Record ascan_inv (p : pmm) (count align i : Z) (s : ascan) : Prop := {
  ai_cont : 0 <= a_continuous s < count;
  ai_le : a_continuous s <= i;
  ai_free : forall j, i - a_continuous s <= j < i -> page_used p j = false;
  ai_flag : in_aligned s = negb (a_continuous s =? 0);
  ai_start : a_continuous s = 0 \/
    (a_start s = i - a_continuous s /\ (i - a_continuous s) mod align = 0);
  ai_none : forall s', 0 <= s' < i - a_continuous s -> s' mod align = 0 -> ~ free_run p s' count
}.

Definition ascan_step_spec (p : pmm) (count align hi : Z) (r : Z + ascan) : Prop :=
  match r with
  | inl s => free_run p s count /\ s mod align = 0 /\
             forall s', 0 <= s' < s -> s' mod align = 0 -> ~ free_run p s' count
  | inr s => ascan_inv p count align hi s
  end.

Lemma ascan_inv_skip (p : pmm) (count align i k : Z) (s : ascan) :
  ascan_inv p count align i s -> 0 <= i < k ->
  (forall j, i <= j < k -> page_used p j = true) ->
  ascan_inv p count align k (mk_ascan 0 (a_start s) false).
Proof.
  intros [H1 H2 H3 H4 H5 H6] Hk Hu. split; simpl; [lia | lia | lia | done | by left |].
  intros s' Hs' Hal Hrun. destruct (Z.ltb_spec s' (i - a_continuous s)) as [Hlt | Hge].
  - apply (H6 s'); [lia | done | done].
  - destruct Hrun as (_ & _ & Hfree).
    set (j := Z.max i s').
    assert (Hj : page_used p j = true) by (apply Hu; lia).
    rewrite Hfree in Hj by lia. done.
Qed.

Lemma ascan_page_spec (p : pmm) (count align i : Z) (s : ascan) :
  0 < count < 2 ^ 32 -> 0 <= i < total_pages p -> ascan_inv p count align i s ->
  ascan_step_spec p count align (i + 1) (ascan_page p count align i s).
Proof.
  intros Hc Hi Hs. unfold ascan_page.
  destruct (negb (in_aligned s) && negb (i mod align =? 0)) eqn:Hskip.
  { apply andb_true_iff in Hskip as [Hna Hmis].
    destruct Hs as [H1 H2 H3 H4 H5 H6]. rewrite H4 in Hna.
    assert (E0 : a_continuous s = 0) by lia.
    split; rewrite ?E0; try lia; try (by left); try (by rewrite H4, E0).
    intros s' Hs' Hal. destruct (Z.eq_dec s' i) as [-> | Hne]; [lia |]. apply H6; [lia | done]. }
  destruct (page_used p i) eqn:Hu.
  { apply (ascan_inv_skip p count align i); [done | lia |]. intros j Hj. by replace j with i by lia. }
  destruct Hs as [H1 H2 H3 H4 H5 H6]. rewrite wrap_small by (split; lia).
  set (start := if a_continuous s =? 0 then i else a_start s).
  assert (Hst : start = i - a_continuous s /\ start mod align = 0).
  { subst start. rewrite H4 in Hskip. destruct (Z.eqb_spec (a_continuous s) 0) as [E | E].
    - split; [lia |]. simpl in Hskip. apply negb_false_iff, Z.eqb_eq in Hskip. done.
    - destruct H5 as [H5 | [-> H5]]; [lia | done]. }
  destruct Hst as [Hst Hal].
  assert (Hfree : forall j, start <= j < i + 1 -> page_used p j = false).
  { intros j Hj. destruct (Z.eq_dec j i) as [-> |]; [done |]. apply H3. lia. }
  destruct (Z.eqb_spec (a_continuous s + 1) count) as [E | E].
  - split; [| split; [done | rewrite Hst; exact H6]]. split; [lia |]. split; [lia |].
    intros j Hj. apply Hfree. lia.
  - split; simpl; [lia | lia | | | right |].
    + intros j Hj. apply Hfree. lia.
    + rewrite H4. replace (a_continuous s + 1 =? 0) with false by lia.
      by destruct (a_continuous s =? 0).
    + replace (i + 1 - (a_continuous s + 1)) with start by lia. done.
    + intros s' Hs'. apply H6. lia.
Qed.

Lemma ascan_bits_spec (p : pmm) (count align byte_idx bit : Z) (n : nat) (s : ascan) :
  0 < count < 2 ^ 32 -> 0 <= byte_idx -> 0 <= bit -> bit + Z.of_nat n = 8 ->
  byte_idx * 8 + bit <= total_pages p ->
  ascan_inv p count align (byte_idx * 8 + bit) s ->
  ascan_step_spec p count align (Z.min (byte_idx * 8 + 8) (total_pages p))
    (ascan_bits p count align byte_idx bit n s).
Proof.
  revert bit s. induction n as [|n IH]; intros bit s Hc Hb Hbit Hn Hle Hs; cbn [ascan_bits].
  { replace (Z.min _ _) with (byte_idx * 8 + bit) by lia. done. }
  destruct (Z.leb_spec (total_pages p) (byte_idx * 8 + bit)).
  { replace (Z.min _ _) with (byte_idx * 8 + bit) by lia. done. }
  pose proof (ascan_page_spec p count align (byte_idx * 8 + bit) s Hc ltac:(lia) Hs) as H1.
  destruct (ascan_page p count align (byte_idx * 8 + bit) s) as [r | s1]; [done |].
  apply IH; try done; try lia. by rewrite Z.add_assoc.
Qed.

Lemma ascan_bytes_spec (p : pmm) (count align byte_idx : Z) (n : nat) (s : ascan) :
  pmm_inv p -> 0 < count < 2 ^ 32 -> 0 <= byte_idx ->
  byte_idx + Z.of_nat n = bitmap_bytes p ->
  ascan_inv p count align (Z.min (byte_idx * 8) (total_pages p)) s ->
  ascan_step_spec p count align (total_pages p) (ascan_bytes p count align byte_idx n s).
Proof.
  revert byte_idx s. induction n as [|n IH]; intros byte_idx s Hinv Hc Hb Hn Hs; cbn [ascan_bytes].
  { rewrite inv_bitmap_bytes in Hn by done.
    replace (Z.min _ _) with (total_pages p) in Hs by dlia. done. }
  assert (Ht : byte_idx * 8 < total_pages p) by (rewrite inv_bitmap_bytes in Hn by done; dlia).
  rewrite Z.min_l in Hs by lia.
  assert (H1 : ascan_step_spec p count align (Z.min (byte_idx * 8 + 8) (total_pages p))
    (if get (bitmap p) byte_idx =? 255 then inr (mk_ascan 0 (a_start s) false)
     else ascan_bits p count align byte_idx 0 8 s)).
  { destruct (Z.eqb_spec (get (bitmap p) byte_idx) 255) as [E | E].
    - apply (ascan_inv_skip p count align (byte_idx * 8)); [done | lia |].
      intros j Hj. apply (full_byte_used p byte_idx); [done | lia].
    - apply ascan_bits_spec; rewrite ?Z.add_0_r; (done || lia). }
  destruct (if get (bitmap p) byte_idx =? 255 then _ else _) as [r | s1]; [done |].
  apply IH; try done; try lia.
  by replace ((byte_idx + 1) * 8) with (byte_idx * 8 + 8) by lia.
Qed.

(** * Addresses *)

(** Below 4 GiB of managed memory the page address is what it should be. *)
Lemma page_addr_exact (p : pmm) (i : Z) :
  0 <= i < 2 ^ 20 -> 0 <= base_addr p -> base_addr p + i * PAGE_SIZE < 2 ^ 64 ->
  page_addr p i = base_addr p + i * PAGE_SIZE.
Proof.
  unfold PAGE_SIZE. intros Hi Hb Hlt. unfold page_addr, PAGE_SIZE.
  rewrite (wrap_small 32) by (split; lia). rewrite wrap_small by (split; lia). done.
Qed.

Lemma page_align_down_eq (a : Z) : fits 64 a -> page_align_down a = a - a mod PAGE_SIZE.
Proof.
  intros Ha. unfold page_align_down, wnot, PAGE_SIZE.
  assert (H : Z.land a (u64 (Z.lnot (4096 - 1))) = Z.ldiff a (Z.ones 12)).
  { by_bits i Hi. rewrite Z.land_spec, wrap_testbit, Z.lnot_spec, Z.ldiff_spec by lia.
    change (4096 - 1) with (Z.ones 12). destruct (Z.ltb_spec i 64); [done |].
    by rewrite (fits_testbit 64 a) by (done || lia). }
  rewrite H, Z.ldiff_ones_r by lia. rewrite Z.shiftr_div_pow2, Z.shiftl_mul_pow2 by lia.
  change (2 ^ 12) with 4096. pose proof (Z.div_mod a 4096). lia.
Qed.

(** [pmm_free_page] finds the page of an address it handed out. *)
Lemma page_index_of_addr (p : pmm) (i : Z) :
  0 <= i < 2 ^ 20 -> 0 <= base_addr p -> base_addr p mod PAGE_SIZE = 0 ->
  base_addr p + i * PAGE_SIZE < 2 ^ 64 ->
  let pa := page_align_down (page_addr p i) in
  base_addr p <= pa /\ u32 ((pa - base_addr p) / PAGE_SIZE) = i.
Proof.
  intros Hi Hb Hal Hlt. cbv zeta. rewrite page_addr_exact by done.
  rewrite page_align_down_eq by (unfold PAGE_SIZE in *; split; lia).
  replace ((base_addr p + i * PAGE_SIZE) mod PAGE_SIZE) with 0
    by (rewrite Z_mod_plus_full; lia).
  split; [unfold PAGE_SIZE; lia |].
  replace (base_addr p + i * PAGE_SIZE - 0 - base_addr p) with (i * PAGE_SIZE) by lia.
  rewrite Z.div_mul by (unfold PAGE_SIZE; lia). apply wrap_small. split; lia.
Qed.
