(* ===== verification/PmmInit.v ===== *)
(** The state [pmm_init] leaves behind: exactly the pages of available regions that
    are in none of the four reserved areas are free, and, when the boot loader's
    available regions do not overlap, the allocator's invariant holds. *)

From S2P Require Import Prelude Pmm.

(** The loop [for (addr = start; ...; addr += PAGE_SIZE)] of [n] iterations reaches
    page [j] of the range that starts at [lo]. *)
Definition visits (lo hi start : Z) (n : nat) (j : Z) : Prop :=
  exists k, 0 <= k < Z.of_nat n /\ lo <= start + k * PAGE_SIZE < hi /\
    (start + k * PAGE_SIZE - lo) / PAGE_SIZE = j.

(** The part of the invariant that does not involve the counter. *)
Definition shape (lo total : Z) (p : pmm) : Prop :=
  base_addr p = lo /\ total_pages p = total /\ 0 <= total < 2 ^ 32 - 7 /\
  total <= 8 * Z.of_nat (length (bitmap p)) /\ bytes_ok p.

Lemma visits_S (lo hi start : Z) (n : nat) (j : Z) :
  visits lo hi start (S n) j <->
  (lo <= start < hi /\ (start - lo) / PAGE_SIZE = j) \/ visits lo hi (start + PAGE_SIZE) n j.
Proof.
  unfold visits, PAGE_SIZE. split.
  - intros (k & Hk & Hr & Hj). destruct (Z.eq_dec k 0) as [-> | Hne].
    + left. rewrite Z.mul_0_l, Z.add_0_r in Hr, Hj. done.
    + right. exists (k - 1). split; [lia |].
      replace (start + 4096 + (k - 1) * 4096) with (start + k * 4096) by lia. done.
  - intros [[Hr Hj] | (k & Hk & Hr & Hj)].
    + exists 0. rewrite Z.mul_0_l, Z.add_0_r. split; [lia | done].
    + exists (k + 1). split; [lia |].
      replace (start + (k + 1) * 4096) with (start + 4096 + k * 4096) by lia. done.
Qed.

(** A later iteration never returns to the page of this one. *)
Lemma visits_later (lo hi start : Z) (n : nat) (j : Z) :
  lo <= start -> visits lo hi (start + PAGE_SIZE) n j -> (start - lo) / PAGE_SIZE < j.
Proof. unfold PAGE_SIZE. intros Hlo (k & Hk & Hr & <-). unfold PAGE_SIZE. dlia. Qed.

Lemma visits_dec (lo hi start : Z) (n : nat) (j : Z) :
  visits lo hi start n j \/ ~ visits lo hi start n j.
Proof.
  revert start. induction n as [|n IH]; intros start.
  - right. intros (k & Hk & _). lia.
  - rewrite visits_S. destruct (IH (start + PAGE_SIZE)) as [H | H]; [auto |].
    destruct (Z_le_dec lo start), (Z_lt_dec start hi), (Z.eq_dec ((start - lo) / PAGE_SIZE) j);
      (left; left; lia) || (right; intros [[? ?] | ?]; [lia | done]).
Qed.

(** What a loop body does to the page it is given. *)
Definition body_sets (f : Z -> pmm -> pmm) (v : bool) : Prop :=
  forall lo total i p, shape lo total p -> 0 <= i < total ->
    shape lo total (f i p) /\
    forall j, 0 <= j < total -> page_used (f i p) j = if i =? j then v else page_used p j.

Lemma shape_in_bitmap (lo total i : Z) (p : pmm) :
  shape lo total p -> 0 <= i < total -> in_bitmap p i.
Proof. intros (_ & _ & _ & H & _) Hi. unfold in_bitmap. lia. Qed.

Lemma init_free_sets : body_sets init_free false.
Proof.
  intros lo total i p Hs Hi. pose proof (shape_in_bitmap _ _ _ _ Hs Hi) as Hb.
  destruct Hs as (H1 & H2 & H3 & H4 & H5). split.
  - split; [done |]. split; [done |]. split; [done |]. simpl. rewrite length_set.
    split; [done |]. apply (clear_page_bytes_ok p i); [lia | done].
  - intros j Hj. change (page_used (init_free i p) j) with (page_used (clear_page p i) j).
    rewrite page_used_clear_page by (done || lia). by destruct (i =? j).
Qed.

Lemma init_reserve_sets : body_sets init_reserve true.
Proof.
  intros lo total i p Hs Hi. pose proof (shape_in_bitmap _ _ _ _ Hs Hi) as Hb.
  unfold init_reserve. destruct (page_used p i) eqn:Hu.
  { split; [done |]. intros j Hj. destruct (Z.eqb_spec i j); by subst. }
  destruct Hs as (H1 & H2 & H3 & H4 & H5). split.
  - split; [done |]. split; [done |]. split; [done |]. simpl. rewrite length_set.
    split; [done |]. apply (set_page_bytes_ok p i); [lia | done].
  - intros j Hj. change (page_used (used_incr (set_page p i)) j) with (page_used (set_page p i) j).
    rewrite page_used_set_page by (done || lia). by destruct (i =? j).
Qed.

Section Pages.
Variables (lo total : Z) (f : Z -> pmm -> pmm) (v : bool).
Hypothesis f_sets : body_sets f v.
Let hi := lo + total * PAGE_SIZE.

(** The page of an address of the managed range, as the code computes it. *)
Lemma page_idx_in (addr : Z) (p : pmm) :
  shape lo total p -> lo <= addr < hi ->
  u32 ((addr - base_addr p) / PAGE_SIZE) = (addr - lo) / PAGE_SIZE /\
  0 <= (addr - lo) / PAGE_SIZE < total.
Proof.
  intros (H1 & H2 & H3 & _) Ha. subst hi. unfold PAGE_SIZE in *.
  assert (0 <= (addr - lo) / 4096 < total) by dlia.
  split; [| done]. rewrite H1. apply wrap_small. split; lia.
Qed.

(** Functional specification of the page loops: the pages they reach get the value
    [v], all others keep theirs. *)
Lemma for_pages_bits (addr : Z) (n : nat) (p : pmm) :
  shape lo total p ->
  let p' := for_pages lo hi addr n f p in
  shape lo total p' /\
  forall j, 0 <= j < total ->
    (visits lo hi addr n j -> page_used p' j = v) /\
    (~ visits lo hi addr n j -> page_used p' j = page_used p j).
Proof.
  revert addr p. induction n as [|n IH]; intros addr p Hs; cbn [for_pages].
  { split; [done |]. intros j Hj. split; [| done]. intros (k & Hk & _). lia. }
  destruct ((lo <=? addr) && (addr <? hi)) eqn:E.
  2: { destruct (IH (addr + PAGE_SIZE) p Hs) as [Hs' Hb]. split; [done |]. intros j Hj.
       destruct (Hb j Hj) as [Hb1 Hb2]. rewrite visits_S. split.
       - intros [[Hr _] | Hv]; [lia | auto].
       - intros Hno. apply Hb2. auto. }
  destruct (page_idx_in addr p Hs ltac:(lia)) as [E1 E2]. rewrite E1.
  set (i := (addr - lo) / PAGE_SIZE) in *.
  replace (i <? total_pages p) with true by (destruct Hs as (_ & -> & _); lia).
  destruct (f_sets lo total i p Hs E2) as [Hs1 Hb1].
  destruct (IH (addr + PAGE_SIZE) (f i p) Hs1) as [Hs' Hb]. split; [done |].
  intros j Hj. destruct (Hb j Hj) as [B1 B2]. specialize (Hb1 j Hj). rewrite visits_S.
  assert (Hdec : visits lo hi (addr + PAGE_SIZE) n j \/ ~ visits lo hi (addr + PAGE_SIZE) n j)
    by apply visits_dec.
  split.
  - intros [[_ Hij] | Hv]; [| auto]. fold i in Hij. destruct Hdec as [Hv | Hnv]; [auto |].
    rewrite B2, Hb1 by done. by replace (i =? j) with true by lia.
  - intros Hno. rewrite B2 by auto. rewrite Hb1.
    destruct (Z.eqb_spec i j) as [Hij |]; [| done]. exfalso. apply Hno. left. split; [lia | done].
Qed.

End Pages.

(** * The counter *)

Lemma for_pages_reserve_inv (lo total addr : Z) (n : nat) (p : pmm) :
  shape lo total p -> pmm_inv p ->
  pmm_inv (for_pages lo (lo + total * PAGE_SIZE) addr n init_reserve p).
Proof.
  revert addr p. induction n as [|n IH]; intros addr p Hs Hinv; cbn [for_pages]; [done |].
  destruct ((lo <=? addr) && (addr <? lo + total * PAGE_SIZE)) eqn:E; [| auto].
  destruct (page_idx_in lo total addr p Hs ltac:(lia)) as [E1 E2]. rewrite E1.
  set (i := (addr - lo) / PAGE_SIZE) in *.
  replace (i <? total_pages p) with true by (destruct Hs as (_ & -> & _); lia).
  apply IH; [by apply init_reserve_sets |].
  destruct (mark_one p i true Hinv) as [H _]; [destruct Hs as (_ & -> & _); lia | done].
Qed.

(** Freeing pages that are all used keeps the counter right; the decrement of the
    code is unconditional, so this needs the pages to be used. *)
Lemma for_pages_free_inv (lo total addr : Z) (n : nat) (p : pmm) :
  shape lo total p -> pmm_inv p ->
  (forall j, 0 <= j < total -> visits lo (lo + total * PAGE_SIZE) addr n j -> page_used p j = true) ->
  pmm_inv (for_pages lo (lo + total * PAGE_SIZE) addr n init_free p).
Proof.
  revert addr p. induction n as [|n IH]; intros addr p Hs Hinv Hused; cbn [for_pages]; [done |].
  destruct ((lo <=? addr) && (addr <? lo + total * PAGE_SIZE)) eqn:E.
  2: { apply IH; [done | done |]. intros j Hj Hv. apply Hused; [done |]. apply visits_S. auto. }
  destruct (page_idx_in lo total addr p Hs ltac:(lia)) as [E1 E2]. rewrite E1.
  set (i := (addr - lo) / PAGE_SIZE) in *.
  pose proof Hs as (_ & Ht & _).
  replace (i <? total_pages p) with true by (rewrite Ht; lia).
  assert (Hi : page_used p i = true).
  { apply Hused; [done |]. apply visits_S. left. split; [lia | done]. }
  destruct (init_free_sets lo total i p Hs E2) as [Hs1 Hb1].
  apply IH; [done | apply clear_used_page; [done | lia | done] |].
  intros j Hj Hv. rewrite Hb1 by done.
  pose proof (visits_later lo _ addr n j ltac:(lia) Hv). fold i in H.
  replace (i =? j) with false by lia. apply Hused; [done |]. apply visits_S. auto.
Qed.

(** * Alignment *)

Lemma page_align_up_eq (a : Z) :
  0 <= a -> a + PAGE_SIZE - 1 < 2 ^ 64 ->
  a <= page_align_up a < a + PAGE_SIZE /\ page_align_up a mod PAGE_SIZE = 0.
Proof.
  unfold PAGE_SIZE. intros H0 H1. unfold page_align_up, PAGE_SIZE.
  rewrite wrap_small by (split; lia). rewrite page_align_down_eq by (split; lia).
  unfold PAGE_SIZE. dlia.
Qed.

Lemma page_align_down_prop (a : Z) :
  fits 64 a ->
  a - PAGE_SIZE < page_align_down a <= a /\ page_align_down a mod PAGE_SIZE = 0.
Proof.
  intros Ha. rewrite page_align_down_eq by done. unfold PAGE_SIZE. dlia.
Qed.

Lemma land_page_mask (a : Z) : Z.land a (PAGE_SIZE - 1) = a mod PAGE_SIZE.
Proof. change (PAGE_SIZE - 1) with (Z.ones 12). rewrite Z.land_ones by lia. done. Qed.

(** An available region as the boot loader reports it. *)
Definition region_ok (r : region) : Prop :=
  0 <= r_base r /\ 0 <= r_length r /\ r_base r + r_length r + PAGE_SIZE <= 2 ^ 64.

(** Page [j] lies entirely inside region [r]. *)
Definition region_has (lo : Z) (r : region) (j : Z) : Prop :=
  r_base r <= lo + j * PAGE_SIZE /\ lo + (j + 1) * PAGE_SIZE <= r_base r + r_length r.

(** The loop over a region reaches exactly the pages inside it. *)
Lemma region_visits (lo total j : Z) (r : region) :
  lo mod PAGE_SIZE = 0 -> region_ok r -> 0 <= j < total ->
  visits lo (lo + total * PAGE_SIZE) (region_start r)
    (page_steps (region_start r) (region_end r)) j <-> region_has lo r j.
Proof.
  intros Hlo (R1 & R2 & R3) Hj.
  unfold region_start, region_end, visits, page_steps, region_has, PAGE_SIZE in *.
  destruct (page_align_up_eq (r_base r)) as [U1 U2]; [lia | unfold PAGE_SIZE; lia |].
  rewrite wrap_small by (split; lia).
  destruct (page_align_down_prop (r_base r + r_length r)) as [D1 D2]; [split; lia |].
  unfold PAGE_SIZE in *. revert U1 U2 D1 D2.
  generalize (page_align_up (r_base r)) (page_align_down (r_base r + r_length r)).
  intros s e U1 U2 D1 D2. split.
  - intros (k & Hk & Hr & Hq). dlia.
  - intros [H1 H2]. exists ((lo + j * 4096 - s) / 4096). dlia.
Qed.

(** * The regions loop *)

Definition avail_has (lo : Z) (rs : list region) (j : Z) : Prop :=
  exists r, r ∈ rs /\ r_available r = true /\ region_has lo r j.

(** Available regions do not overlap. *)
Fixpoint regions_disjoint (rs : list region) : Prop :=
  match rs with
  | [] => True
  | r :: rs =>
      (forall r', r' ∈ rs -> r_available r = true -> r_available r' = true ->
         r_base r + r_length r <= r_base r' \/ r_base r' + r_length r' <= r_base r) /\
      regions_disjoint rs
  end.

Lemma avail_has_cons (lo j : Z) (r : region) (rs : list region) :
  avail_has lo (r :: rs) j <->
  (r_available r = true /\ region_has lo r j) \/ avail_has lo rs j.
Proof.
  unfold avail_has. setoid_rewrite elem_of_cons. naive_solver.
Qed.

Lemma region_has_dec (lo : Z) (r : region) (j : Z) : region_has lo r j \/ ~ region_has lo r j.
Proof. unfold region_has. lia. Qed.

Lemma avail_has_dec (lo : Z) (rs : list region) (j : Z) :
  avail_has lo rs j \/ ~ avail_has lo rs j.
Proof.
  induction rs as [|r rs IH]; [right; by intros (r & ?%elem_of_nil & _) |].
  rewrite avail_has_cons. destruct (region_has_dec lo r j), (r_available r); naive_solver.
Qed.

Lemma init_regions (lo total : Z) (rs : list region) (p : pmm) :
  lo mod PAGE_SIZE = 0 -> Forall region_ok rs -> regions_disjoint rs ->
  shape lo total p -> pmm_inv p ->
  (forall j, 0 <= j < total -> avail_has lo rs j -> page_used p j = true) ->
  let p' := fold_left (init_region lo (lo + total * PAGE_SIZE)) rs p in
  shape lo total p' /\ pmm_inv p' /\
  forall j, 0 <= j < total ->
    page_used p' j = false <-> (avail_has lo rs j \/ page_used p j = false).
Proof.
  intros Hlo. revert p. induction rs as [|r rs IH]; intros p Hok Hdis Hs Hinv Hused; cbn [fold_left].
  { split; [done |]. split; [done |]. intros j Hj. split; [auto |].
    intros [(r & Hr & _) | ?]; [by apply elem_of_nil in Hr | done]. }
  apply Forall_cons in Hok as [Hr Hok]. destruct Hdis as [Hdis1 Hdis2].
  setoid_rewrite avail_has_cons. setoid_rewrite avail_has_cons in Hused.
  unfold init_region at 2 4 6. destruct (r_available r) eqn:Ha.
  2: { destruct (IH p Hok Hdis2 Hs Hinv) as (S1 & S2 & S3); [naive_solver |].
       split; [done |]. split; [done |]. intros j Hj. rewrite S3 by done. naive_solver. }
  destruct (for_pages_bits lo total init_free false init_free_sets (region_start r)
    (page_steps (region_start r) (region_end r)) p Hs) as [Hs1 Hb1].
  assert (Hinv1 := for_pages_free_inv lo total (region_start r)
    (page_steps (region_start r) (region_end r)) p Hs Hinv).
  revert Hs1 Hb1 Hinv1. generalize (for_pages lo (lo + total * PAGE_SIZE) (region_start r)
    (page_steps (region_start r) (region_end r)) init_free p). intros p1 Hs1 Hb1 Hinv1.
  assert (Hb1' : forall j, 0 <= j < total ->
      (region_has lo r j -> page_used p1 j = false) /\
      (~ region_has lo r j -> page_used p1 j = page_used p j)).
  { intros j Hj. rewrite <- (region_visits lo total j r) by done. by apply Hb1. }
  destruct (IH p1 Hok Hdis2 Hs1) as (S1 & S2 & S3).
  - apply Hinv1. intros j Hj Hv. apply region_visits in Hv; [| done..]. apply Hused; auto.
  - intros j Hj Hav. destruct (Hb1' j Hj) as [_ ->]; [apply Hused; auto |].
    destruct Hav as (r' & Hin & Ha' & Hr'). destruct (Hdis1 r' Hin eq_refl Ha');
      unfold region_has, PAGE_SIZE in *; lia.
  - split; [done |]. split; [done |]. intros j Hj. rewrite S3 by done.
    destruct (Hb1' j Hj) as [B1 B2]. destruct (region_has_dec lo r j) as [H | H].
    + rewrite B1 by done. naive_solver.
    + rewrite B2 by done. naive_solver.
Qed.

(** The bytes and counter of the state before step 7. *)
Lemma all_used_byte (n : nat) (old : list Z) (i : Z) :
  (Z.to_nat i < n)%nat -> get (replicate n 0xFF ++ old) i = 0xFF.
Proof.
  intros Hi. unfold get. rewrite nth_lookup, lookup_app_l by (rewrite length_replicate; lia).
  by rewrite lookup_replicate_2 by lia.
Qed.

Lemma all_used (lo total : Z) (old : list Z) :
  0 <= total < 2 ^ 32 - 7 -> Forall (fits 8) old ->
  let bytes := Z.to_nat ((total + 7) / 8) in
  let p := mk_pmm (replicate bytes 0xFF ++ drop bytes old) lo total total in
  shape lo total p /\ pmm_inv p /\ forall j, 0 <= j < total -> page_used p j = true.
Proof.
  intros Ht Hold. cbv zeta. set (bytes := Z.to_nat ((total + 7) / 8)).
  set (p := mk_pmm _ _ _ _).
  assert (Hok : bytes_ok p).
  { intros i. destruct (decide (Z.to_nat i < bytes)%nat).
    - simpl. rewrite all_used_byte by lia. split; lia.
    - simpl. unfold get. rewrite nth_lookup, lookup_app_r by (rewrite length_replicate; lia).
      rewrite length_replicate, lookup_drop.
      destruct (old !! _) as [x|] eqn:E; simpl; [| split; lia].
      by eapply Forall_lookup_1 in E. }
  assert (Hall : forall j, 0 <= j < total -> page_used p j = true).
  { intros j Hj. apply (full_byte_used p (j / 8)); [| dlia].
    simpl. apply all_used_byte. unfold bytes. dlia. }
  assert (Hlen : total <= 8 * Z.of_nat (length (bitmap p))).
  { simpl. rewrite length_app, length_replicate. unfold bytes. dlia. }
  split; [done |]. split; [| done]. split; [done | done | done |].
  unfold used_count. simpl. rewrite count_upto_full; [lia |]. intros i Hi. apply Hall. lia.
Qed.

(** * The result of [pmm_init] *)

Lemma lowest_addr_aligned (rs : list region) :
  0 <= fst (region_bounds rs) -> fst (region_bounds rs) + PAGE_SIZE <= 2 ^ 64 ->
  lowest_addr rs mod PAGE_SIZE = 0 /\ 0 <= lowest_addr rs.
Proof.
  intros H0 H1. unfold lowest_addr. rewrite land_page_mask.
  destruct (Z.eqb_spec (fst (region_bounds rs) mod PAGE_SIZE) 0); [done |].
  destruct (page_align_up_eq (fst (region_bounds rs))) as [U1 U2]; [done | lia |]. split; [done | lia].
Qed.

Lemma highest_addr_aligned (rs : list region) :
  fits 64 (snd (region_bounds rs)) ->
  highest_addr rs mod PAGE_SIZE = 0 /\ highest_addr rs < 2 ^ 64.
Proof.
  intros H0. unfold highest_addr. rewrite land_page_mask.
  destruct (Z.eqb_spec (snd (region_bounds rs) mod PAGE_SIZE) 0); [split; [done | apply H0] |].
  destruct (page_align_down_prop (snd (region_bounds rs))) as [U1 U2]; [done |].
  split; [done |]. destruct H0. lia.
Qed.

(** Page [j] and the addresses from [a] up to [b] have a byte in common. *)
Definition page_touches (lo a b j : Z) : Prop :=
  lo + j * PAGE_SIZE < b /\ a < lo + (j + 1) * PAGE_SIZE.

(** The areas that must not be handed out: the first megabyte, the kernel image, the boot
    information and the bitmap. *)
Definition reserved (lo mb2_addr mb2_size kernel_start kernel_end bitmap_at bytes j : Z) : Prop :=
  page_touches lo 0 0x100000 j \/
  page_touches lo kernel_start kernel_end j \/
  page_touches lo mb2_addr (mb2_addr + mb2_size) j \/
  page_touches lo bitmap_at (bitmap_at + bytes) j.

(** A loop that starts at a page boundary reaches the pages its range touches; any other
    reaches only such pages. *)
Lemma visits_touches (lo total a b j : Z) :
  visits lo (lo + total * PAGE_SIZE) a (page_steps a b) j -> page_touches lo a b j.
Proof. unfold visits, page_touches, page_steps, PAGE_SIZE. intros (k & Hk & Hr & <-). dlia. Qed.

Lemma visits_aligned (lo total a b j : Z) :
  lo mod PAGE_SIZE = 0 -> a mod PAGE_SIZE = 0 -> 0 <= j < total ->
  visits lo (lo + total * PAGE_SIZE) a (page_steps a b) j <-> page_touches lo a b j.
Proof.
  intros Hlo Ha Hj. split; [apply visits_touches |].
  unfold visits, page_touches, page_steps, PAGE_SIZE in *. intros [H1 H2].
  exists ((lo + j * 4096 - a) / 4096). dlia.
Qed.

(** Rounding a range to page boundaries does not change the pages it touches. *)
Lemma touches_rounded (lo a n j : Z) :
  lo mod PAGE_SIZE = 0 -> 0 <= a -> 0 < n -> a + n + PAGE_SIZE <= 2 ^ 64 ->
  page_touches lo (page_align_down a) (page_align_up (u64 (a + n))) j <-> page_touches lo a (a + n) j.
Proof.
  intros Hlo Ha Hn Hend. rewrite wrap_small by (unfold PAGE_SIZE in Hend; split; lia).
  destruct (page_align_up_eq (a + n)) as [U1 U2]; [lia | lia |].
  destruct (page_align_down_prop a) as [D1 D2]; [unfold PAGE_SIZE in Hend; split; lia |].
  unfold page_touches, PAGE_SIZE in *. revert U1 U2 D1 D2.
  generalize (page_align_up (a + n)) (page_align_down a). intros e s U1 U2 D1 D2. dlia.
Qed.

(** One reservation loop: the invariant is kept, and a page is free afterwards when
    it was free and is not reached. *)
Lemma reserve_step (lo total addr : Z) (n : nat) (p : pmm) :
  shape lo total p -> pmm_inv p ->
  let p' := for_pages lo (lo + total * PAGE_SIZE) addr n init_reserve p in
  shape lo total p' /\ pmm_inv p' /\
  forall j, 0 <= j < total ->
    page_used p' j = false <-> page_used p j = false /\ ~ visits lo (lo + total * PAGE_SIZE) addr n j.
Proof.
  intros Hs Hinv. destruct (for_pages_bits lo total init_reserve true init_reserve_sets addr n p Hs)
    as [Hs' Hb]. split; [done |]. split; [by apply for_pages_reserve_inv |].
  intros j Hj. destruct (Hb j Hj) as [B1 B2].
  destruct (visits_dec lo (lo + total * PAGE_SIZE) addr n j) as [Hv | Hv].
  - rewrite B1 by done. naive_solver.
  - rewrite B2 by done. naive_solver.
Qed.

Lemma bitmap_capacity (total : Z) :
  PMM_BITMAP_SIZE < (total + 7) / 8 <-> 8 * PMM_BITMAP_SIZE < total.
Proof. unfold PMM_BITMAP_SIZE. dlia. Qed.


(** A machine with two available regions: low memory and 3 MiB above 1 MiB. *)
Definition demo_regions : list region :=
  [mk_region 0 0x9FC00 true; mk_region 0x9FC00 0x60400 false; mk_region 0x100000 0x300000 true].

