(* ===== verification/PageAlloc.v ===== *)
(** The contracts between the kernel heap and the memory managers below it: what a
    caller of [pmm_alloc_range] may rely on (PmmSpec.v has the instance for the
    bitmap allocator), and what the heap needs of [paging_map_page]. *)

From S2P Require Import Prelude.

Definition FRAME_SIZE : Z := 4096.

(** Page table entry flags of include/kernel/paging.h. *)
Definition PTE_PRESENT : Z := 1.
Definition PTE_WRITABLE : Z := 2.
Definition PTE_USER : Z := 4.
Definition PTE_HUGE : Z := 128.

(** Operations and laws of an allocator of runs of page frames.  [pa_free s a] says
    that the frame at physical address [a] is free in state [s]. *)
Class PageAllocator (S : Type) := {
  pa_inv : S -> Prop;
  pa_free : S -> Z -> Prop;
  pa_alloc_range : S -> Z -> option Z * S;
  pa_alloc_inv s n : pa_inv s -> 0 <= n < 2 ^ 32 -> pa_inv (snd (pa_alloc_range s n));
  (** a failed request changes nothing *)
  pa_alloc_fail s n : pa_inv s -> 0 <= n < 2 ^ 32 ->
    fst (pa_alloc_range s n) = None -> snd (pa_alloc_range s n) = s;
  (** a successful one takes [n] consecutive frames that were free, and no other *)
  pa_alloc_fresh s n a : pa_inv s -> 0 <= n < 2 ^ 32 ->
    fst (pa_alloc_range s n) = Some a ->
    0 < n /\
    (forall k, 0 <= k < n -> pa_free s (a + k * FRAME_SIZE)) /\
    (forall f, pa_free (snd (pa_alloc_range s n)) f <->
       pa_free s f /\ ~ (exists k, 0 <= k < n /\ f = a + k * FRAME_SIZE))
}.

(** The memory manager the heap expands into: a frame allocator together with the
    kernel's page tables.  Mapping a page may take frames for page tables, so it
    keeps the allocator's invariant and frees nothing; it panics when no frame is
    left. *)
Class KernelVm (S : Type) `{PageAllocator S} := {
  vm_map_page : S -> Z -> Z -> Z -> outcome S;
  vm_map_inv s va pa flags s' :
    pa_inv s -> vm_map_page s va pa flags = Ret s' -> pa_inv s';
  vm_map_frees s va pa flags s' f :
    pa_inv s -> vm_map_page s va pa flags = Ret s' -> pa_free s' f -> pa_free s f
}.
