(* ===== verification/PmmSpec.v ===== *)
(** Properties of the physical page allocator of Pmm.v: functional specifications
    of every operation, the invariant along all runs, the initial state, and the
    allocator as an instance of the contract of PageAlloc.v. *)

From S2P Require Import Prelude Pmm PageAlloc.

(** * Operations *)

(** [pmm_alloc_page] hands out the lowest free page and nothing else: that page
    becomes used, every other page keeps its state, the counter grows by one, and
    the invariant holds; it returns NULL exactly when every page is used. *)
Theorem pmm_alloc_page_spec (p : pmm) :
  pmm_inv p ->
  let '(r, p') := pmm_alloc_page p in
  pmm_inv p' /\
  match r with
  | Some a => exists i, first_free_from p 0 i /\ a = page_addr p i /\ takes_page p p' i
  | None => (forall j, 0 <= j < total_pages p -> page_used p j = true) /\ pmm_equiv p p'
  end.
Proof.
  intros Hinv. destruct (pmm_alloc_page_cases p Hinv)
    as [(i & p' & H1 & H2 & H3 & _ & ->) | (p' & H1 & H2 & H3 & ->)]; eauto.
Qed.

Lemma pmm_alloc_page_spec_witness :
  let p := mk_pmm [0xFF; 0x0B] 0x100000 12 11 in
  pmm_inv p /\ fst (pmm_alloc_page p) = Some 0x10A000 /\ pmm_inv (snd (pmm_alloc_page p)).
Proof.
  cbv zeta.
  assert (H : pmm_inv (mk_pmm [0xFF; 0x0B] 0x100000 12 11)).
  { split; [simpl; lia | simpl; lia | | reflexivity].
    intros i. unfold get. destruct (Z.to_nat i) as [|[|[|n]]]; simpl; split; lia. }
  split; [exact H |]. split; [reflexivity |].
  pose proof (pmm_alloc_page_spec _ H) as H2.
  destruct (pmm_alloc_page (mk_pmm [0xFF; 0x0B] 0x100000 12 11)) as [r p'].
  exact (proj1 H2).
Defined.

(** The product [page_idx * PAGE_SIZE] is computed in 32 bits: when the lowest
    free page is beyond the first 4 GiB of managed memory, [pmm_alloc_page] returns
    the address of a page 4 GiB lower, which is in use. *)
Theorem pmm_alloc_page_4g_alias (p : pmm) (i : Z) :
  pmm_inv p -> first_free_from p 0 i -> 2 ^ 20 <= i ->
  fst (pmm_alloc_page p) = Some (page_addr p (i - 2 ^ 20)) /\
  page_used p (i - 2 ^ 20) = true.
Proof.
  intros Hinv (Hi & Hf & Hb) Hge. split; [| apply Hb; lia].
  destruct (pmm_alloc_page_cases p Hinv)
    as [(k & p' & (K1 & K2 & K3) & _ & _ & _ & ->) | (p' & H1 & _)].
  - assert (k = i) as ->.
    { destruct (Z.lt_trichotomy k i) as [Hlt | [Heq | Hgt]]; [| done |].
      - rewrite Hb in K2 by lia. done.
      - rewrite K3 in Hf by lia. done. }
    simpl. f_equal. unfold page_addr. do 2 f_equal. unfold wrap, PAGE_SIZE.
    change (2 ^ 32) with 4294967296. replace ((i - 2 ^ 20) * 4096) with (i * 4096 + (-1) * 4294967296) by lia.
    by rewrite Z_mod_plus_full.
  - rewrite H1 in Hf by lia. done.
Qed.

(** A machine with 4 GiB and one page of managed memory, all but the last page used. *)
Definition big_pmm : pmm :=
  mk_pmm (replicate (Z.to_nat 131072) 0xFF ++ [0]) 0 (2 ^ 20 + 1) (2 ^ 20).

Lemma big_pmm_byte (i : Z) :
  get (bitmap big_pmm) i = if Z.of_nat (Z.to_nat i) <? 131072 then 0xFF else 0.
Proof.
  unfold get, big_pmm. cbn [bitmap]. rewrite nth_lookup.
  destruct (Z.ltb_spec (Z.of_nat (Z.to_nat i)) 131072) as [Hlt | Hge].
  - rewrite lookup_app_l by (rewrite length_replicate; lia).
    by rewrite lookup_replicate_2 by lia.
  - rewrite lookup_app_r by (rewrite length_replicate; lia). rewrite length_replicate.
    by destruct (Z.to_nat i - Z.to_nat 131072)%nat as [|[|k]].
Qed.

Lemma big_pmm_used (j : Z) : 0 <= j < 2 ^ 20 -> page_used big_pmm j = true.
Proof.
  intros Hj. rewrite page_used_testbit, big_pmm_byte.
  replace (Z.of_nat (Z.to_nat (j / 8)) <? 131072) with true by dlia.
  change 255 with (Z.ones 8). apply Z.ones_spec_low. dlia.
Qed.

Lemma big_pmm_last : page_used big_pmm (2 ^ 20) = false.
Proof. rewrite page_used_testbit, big_pmm_byte. reflexivity. Qed.

Lemma count_upto_all_but_last (f : Z -> bool) (n : nat) :
  (forall i, 0 <= i < Z.of_nat n -> f i = true) -> f (Z.of_nat n) = false ->
  count_upto f (S n) = Z.of_nat n.
Proof. intros H1 H2. cbn [count_upto]. rewrite count_upto_full, H2 by done. lia. Qed.

Lemma big_pmm_inv : pmm_inv big_pmm.
Proof.
  split.
  - cbn [big_pmm total_pages]. lia.
  - unfold big_pmm. cbn [bitmap total_pages]. rewrite length_app, length_replicate.
    cbn [length]. lia.
  - intros i. rewrite big_pmm_byte. destruct (_ <? _); split; lia.
  - unfold used_count. assert (Et : total_pages big_pmm = 2 ^ 20 + 1) by reflexivity.
    rewrite Et, Z2Nat.inj_add, Nat.add_1_r by lia.
    rewrite count_upto_all_but_last; rewrite Z2Nat.id by lia;
      [reflexivity | exact big_pmm_used | exact big_pmm_last].
Qed.

Lemma pmm_alloc_page_4g_alias_witness :
  fst (pmm_alloc_page big_pmm) = Some (page_addr big_pmm (2 ^ 20 - 2 ^ 20)) /\
  page_used big_pmm (2 ^ 20 - 2 ^ 20) = true.
Proof.
  apply (pmm_alloc_page_4g_alias big_pmm (2 ^ 20)).
  - exact big_pmm_inv.
  - split; [cbn [total_pages big_pmm]; lia |]. split; [exact big_pmm_last |].
    intros j Hj. apply big_pmm_used. exact Hj.
  - apply Z.le_refl.
Defined.

(** Freeing a page just allocated restores the allocator, for up to 4 GiB of
    page-aligned memory: same pages, same counter. *)
Theorem pmm_alloc_free_roundtrip (p : pmm) (a : Z) :
  pmm_inv p -> 0 < base_addr p -> base_addr p mod PAGE_SIZE = 0 ->
  total_pages p <= 2 ^ 20 -> base_addr p + 2 ^ 32 <= 2 ^ 64 ->
  fst (pmm_alloc_page p) = Some a ->
  pmm_equiv (pmm_free_page (snd (pmm_alloc_page p)) a) p.
Proof.
  intros Hinv Hb Hal Ht Hlt Ha.
  destruct (pmm_alloc_page_cases p Hinv)
    as [(i & p' & (Hi & Hf & _) & Hinv' & Htk & Hlen & E) | (p' & _ & _ & _ & E)];
    rewrite E in Ha |- *; simpl in Ha |- *; [| done].
  injection Ha as <-. pose proof Htk as [T1 T2 T3 T4 T5].
  assert (Hpa : page_addr p i = page_addr p' i) by (unfold page_addr; by rewrite T1).
  rewrite Hpa. unfold pmm_free_page.
  destruct (page_index_of_addr p' i) as [P1 P2];
    [lia | lia | by rewrite T1 | unfold PAGE_SIZE; lia |].
  rewrite page_addr_exact in P1, P2 |- * by (rewrite ?T1; unfold PAGE_SIZE; lia).
  replace (base_addr p' + i * PAGE_SIZE =? 0) with false by (unfold PAGE_SIZE; lia).
  cbv zeta. replace (_ <? base_addr p') with false by lia. rewrite P2.
  replace (total_pages p' <=? i) with false by lia. rewrite T4.
  destruct (clear_used_page p' i Hinv' ltac:(lia) T4) as [C1 [D1 D2 D3 D4 D5]].
  split; simpl; simpl in D1, D2, D3; [congruence | congruence | lia | by rewrite length_set |].
  intros j Hj. destruct (Z.eq_dec j i) as [-> | Hne].
  - change (page_used (clear_page p' i) i = page_used p i).
    rewrite page_used_clear_page by (try lia; apply inv_in_bitmap; (done || lia)).
    by rewrite Z.eqb_refl, Hf.
  - rewrite <- T5 by (done || lia). symmetry. apply D5; [simpl; lia | done].
Qed.

Lemma pmm_alloc_free_roundtrip_witness :
  let p := mk_pmm [0xFF; 0x0B] 0x100000 12 11 in
  pmm_equiv (pmm_free_page (snd (pmm_alloc_page p)) 0x10A000) p.
Proof.
  cbv zeta. apply pmm_alloc_free_roundtrip; try reflexivity; try discriminate.
  split; [simpl; lia | simpl; lia | | reflexivity].
  intros i. unfold get. destruct (Z.to_nat i) as [|[|[|n]]]; simpl; split; lia.
Defined.

(** * Ranges *)

Lemma count_upto_range (f g : Z -> bool) (s n : Z) (N : nat) :
  0 <= s -> 0 <= n ->
  (forall j, 0 <= j < Z.of_nat N -> g j = if (s <=? j) && (j <? s + n) then true else f j) ->
  (forall j, s <= j < s + n -> j < Z.of_nat N -> f j = false) ->
  count_upto g N = count_upto f N + Z.max 0 (Z.min (Z.of_nat N) (s + n) - s).
Proof.
  intros Hs Hn. induction N as [|N IH]; intros Hg Hf; cbn [count_upto]; [lia |].
  rewrite IH, Hg by (intros; try apply Hg; try apply Hf; lia).
  destruct ((s <=? Z.of_nat N) && (Z.of_nat N <? s + n)) eqn:E.
  - rewrite Hf by lia. lia.
  - destruct (f (Z.of_nat N)); lia.
Qed.

(** Marking a free run keeps the invariant and adds its length to the counter. *)
Lemma mark_run (p : pmm) (s n : Z) :
  pmm_inv p -> 0 < n -> free_run p s n ->
  let p' := pmm_mark_range p s n true in
  pmm_inv p' /\ marks p p' s n true /\ used_pages p' = used_pages p + n.
Proof.
  intros Hinv Hn (R1 & R2 & R3). pose proof (inv_total p Hinv) as Ht.
  destruct (mark_range_spec p s n true Hinv R1 ltac:(lia) ltac:(lia)) as [Hi Hm].
  split; [done |]. split; [done |]. destruct Hm as (M1 & M2 & M3 & M4).
  rewrite (inv_used _ Hi), (inv_used _ Hinv). unfold used_count. rewrite M2.
  rewrite (count_upto_range (page_used p) _ s n).
  - lia.
  - done.
  - lia.
  - intros j Hj. apply M4. lia.
  - intros j Hj _. by apply R3.
Qed.

(** The cases of [pmm_alloc_range]. *)
Lemma alloc_range_cases (p : pmm) (n : Z) :
  pmm_inv p -> 0 <= n < 2 ^ 32 ->
  match pmm_alloc_range p n with
  | (Some (a, _), p') =>
      exists s, 0 < n /\ free_run p s n /\ (forall s', 0 <= s' < s -> ~ free_run p s' n) /\
        a = page_addr p s /\ pmm_inv p' /\ marks p p' s n true /\
        used_pages p' = used_pages p + n
  | (None, p') => p' = p /\ (n = 0 \/ forall s', ~ free_run p s' n)
  end.
Proof.
  intros Hinv Hn. unfold pmm_alloc_range.
  destruct (Z.eqb_spec n 0) as [-> | Hn0]; [by split; [| left] |].
  destruct (find_continuous_spec p n Hinv Hn) as [(H1 & H2 & H3 & H4) | (H1 & H2)].
  - apply Z.eqb_neq in H1. rewrite H1.
    destruct (mark_run p (pmm_find_continuous_pages p n) n Hinv ltac:(lia) H3) as (M1 & M2 & M3).
    exists (pmm_find_continuous_pages p n). pose proof M2 as (B1 & _).
    unfold page_addr. rewrite B1. auto 12.
  - rewrite H1. simpl. split; [done |]. destruct H2; [lia | by right].
Qed.

(** C30: [pmm_alloc_range] takes the first run of [n] free pages: all [n] pages were
    free, exactly they become used, the counter grows by [n]; it fails, leaving the
    state untouched, exactly when [n] is 0 or no such run exists. *)
Theorem pmm_alloc_range_spec (p : pmm) (n : Z) :
  pmm_inv p -> 0 <= n < 2 ^ 32 ->
  match pmm_alloc_range p n with
  | (Some (a, _), p') =>
      exists s, 0 < n /\ free_run p s n /\ (forall s', 0 <= s' < s -> ~ free_run p s' n) /\
        a = page_addr p s /\ pmm_inv p' /\ marks p p' s n true /\
        used_pages p' = used_pages p + n
  | (None, p') => p' = p /\ (n = 0 \/ forall s', ~ free_run p s' n)
  end.
Proof. apply alloc_range_cases. Qed.

Lemma pmm_alloc_range_spec_witness :
  let p := mk_pmm [0xF6; 0x01] 0x100000 14 7 in
  fst (pmm_alloc_range p 3) = Some (0x109000, 0x3000) /\
  exists s, 0 < 3 /\ free_run p s 3 /\ (forall s', 0 <= s' < s -> ~ free_run p s' 3) /\
    0x109000 = page_addr p s.
Proof.
  cbv zeta. split; [reflexivity |].
  assert (Hinv : pmm_inv (mk_pmm [0xF6; 0x01] 0x100000 14 7)).
  { split; [simpl; lia | simpl; lia | | reflexivity].
    intros i. unfold get. destruct (Z.to_nat i) as [|[|[|n]]]; simpl; split; lia. }
  pose proof (pmm_alloc_range_spec _ 3 Hinv ltac:(lia)) as H.
  change (pmm_alloc_range (mk_pmm [0xF6; 0x01] 0x100000 14 7) 3)
    with (Some (0x109000, 0x3000), mk_pmm [0xF6; 0x0F] 0x100000 14 10) in H.
  destruct H as (s & H1 & H2 & H3 & H4 & _). exists s. auto 12.
Defined.

(** Freeing a range just allocated restores every page and the counter, for up
    to 4 GiB of page-aligned memory. *)
Theorem pmm_range_roundtrip (p : pmm) (n a b : Z) :
  pmm_inv p -> 0 <= n < 2 ^ 32 -> 0 < base_addr p -> base_addr p mod PAGE_SIZE = 0 ->
  total_pages p <= 2 ^ 20 -> base_addr p + 2 ^ 32 <= 2 ^ 64 ->
  fst (pmm_alloc_range p n) = Some (a, b) ->
  pmm_equiv (pmm_free_range (snd (pmm_alloc_range p n)) a n) p.
Proof.
  intros Hinv Hn Hb Hal Ht Hlt Ha. pose proof (inv_total p Hinv) as Htp.
  pose proof (alloc_range_cases p n Hinv Hn) as H.
  destruct (pmm_alloc_range p n) as [[[a' b']|] p'] eqn:E; simpl in Ha |- *; [| done].
  injection Ha as <- <-.
  destruct H as (s & H1 & (R1 & R2 & R3) & _ & -> & Hinv' & (M1 & M2 & M3 & M4) & _).
  destruct (page_index_of_addr p s) as [P1 P2]; [lia | lia | done | unfold PAGE_SIZE; lia |].
  unfold pmm_free_range. rewrite M1.
  replace (page_addr p s =? 0) with false
    by (rewrite page_addr_exact by (unfold PAGE_SIZE; lia); unfold PAGE_SIZE; lia).
  replace (n =? 0) with false by lia. cbn [orb]. cbv zeta.
  replace (_ <? base_addr p) with false by lia. rewrite P2, M2.
  replace (total_pages p <=? s) with false by lia.
  destruct (mark_range_spec p' s n false Hinv' R1 ltac:(lia) ltac:(lia)) as [Hi (N1 & N2 & N3 & N4)].
  assert (Hpg : forall i, 0 <= i < total_pages p ->
      page_used (pmm_mark_range p' s n false) i = page_used p i).
  { intros i Hi'. rewrite N4, M4 by lia.
    destruct ((s <=? i) && (i <? s + n)) eqn:Er; [| done]. symmetry. apply R3. lia. }
  split; [congruence | congruence | | congruence |].
  - rewrite (inv_used _ Hi), (inv_used _ Hinv). unfold used_count. rewrite N2, M2.
    apply count_upto_ext. intros i Hi'. apply Hpg. lia.
  - intros i Hi'. apply Hpg. lia.
Qed.

Lemma pmm_range_roundtrip_witness :
  let p := mk_pmm [0xF6; 0x01] 0x100000 14 7 in
  pmm_equiv (pmm_free_range (snd (pmm_alloc_range p 3)) 0x109000 3) p.
Proof.
  cbv zeta. apply (pmm_range_roundtrip _ 3 0x109000 0x3000); try reflexivity; try discriminate; try lia.
  split; [simpl; lia | simpl; lia | | reflexivity].
  intros i. unfold get. destruct (Z.to_nat i) as [|[|[|n]]]; simpl; split; lia.
Defined.

(** The cases of [pmm_alloc_aligned_range]. *)
Lemma aligned_range_cases (p : pmm) (n k : Z) :
  pmm_inv p -> 0 < n < 2 ^ 32 -> 0 <= k < 32 ->
  match pmm_alloc_aligned_range p n (2 ^ k) with
  | (Some (a, _), p') =>
      exists s, free_run p s n /\ s mod 2 ^ k = 0 /\
        (forall s', 0 <= s' < s -> s' mod 2 ^ k = 0 -> ~ free_run p s' n) /\
        a = page_addr p s /\ pmm_inv p' /\ marks p p' s n true /\
        used_pages p' = used_pages p + n
  | (None, p') => p' = p /\ forall s', s' mod 2 ^ k = 0 -> ~ free_run p s' n
  end.
Proof.
  intros Hinv Hn Hk. unfold pmm_alloc_aligned_range.
  assert (Hp : 0 < 2 ^ k < 2 ^ 32) by (split; [lia | apply Z.pow_lt_mono_r; lia]).
  replace (n =? 0) with false by lia. replace (2 ^ k =? 0) with false by lia. cbn [orb].
  rewrite (wrap_small 32) by (split; lia).
  replace (Z.land (2 ^ k) (2 ^ k - 1)) with 0.
  2: { rewrite Z.sub_1_r, <- Z.ones_equiv, Z.land_ones by lia. symmetry. apply Z_mod_same_full. }
  cbn [Z.eqb negb].
  assert (Hbb : 0 <= bitmap_bytes p)
    by (rewrite inv_bitmap_bytes by done; pose proof (inv_total p Hinv); dlia).
  assert (H0 : ascan_inv p n (2 ^ k) (Z.min (0 * 8) (total_pages p)) (mk_ascan 0 0 false)).
  { pose proof (inv_total p Hinv). split; simpl; (lia || done || by left). }
  pose proof (ascan_bytes_spec p n (2 ^ k) 0 (Z.to_nat (bitmap_bytes p)) (mk_ascan 0 0 false)
    Hinv Hn ltac:(lia) ltac:(lia) H0) as H.
  destruct (ascan_bytes _ _ _ _ _ _) as [s | s].
  - destruct H as (H1 & H2 & H3).
    destruct (mark_run p s n Hinv ltac:(lia) H1) as (M1 & M2 & M3).
    exists s. pose proof M2 as (B1 & _). unfold page_addr. rewrite B1. auto 12.
  - split; [done |]. intros s' Hal Hrun. pose proof Hrun as (R1 & R2 & _).
    destruct H as [A1 A2 _ _ _ A6]. apply (A6 s'); [lia | done | done].
Qed.

(** [pmm_alloc_aligned_range] takes the first run of [n] free pages whose first
    page index is a multiple of the requested power of two, and fails, leaving the
    state untouched, exactly when there is none. *)
Theorem pmm_alloc_aligned_range_spec (p : pmm) (n k : Z) :
  pmm_inv p -> 0 < n < 2 ^ 32 -> 0 <= k < 32 ->
  match pmm_alloc_aligned_range p n (2 ^ k) with
  | (Some (a, _), p') =>
      exists s, free_run p s n /\ s mod 2 ^ k = 0 /\
        (forall s', 0 <= s' < s -> s' mod 2 ^ k = 0 -> ~ free_run p s' n) /\
        a = page_addr p s /\ pmm_inv p' /\ marks p p' s n true /\
        used_pages p' = used_pages p + n
  | (None, p') => p' = p /\ forall s', s' mod 2 ^ k = 0 -> ~ free_run p s' n
  end.
Proof. apply aligned_range_cases. Qed.

Lemma pmm_alloc_aligned_range_spec_witness :
  let p := mk_pmm [0xE0; 0x01] 0x100000 16 4 in
  fst (pmm_alloc_aligned_range p 4 (2 ^ 2)) = Some (0x100000, 0x4000) /\
  exists s, free_run p s 4 /\ s mod 2 ^ 2 = 0 /\ 0x100000 = page_addr p s.
Proof.
  cbv zeta. split; [reflexivity |].
  assert (Hinv : pmm_inv (mk_pmm [0xE0; 0x01] 0x100000 16 4)).
  { split; [simpl; lia | simpl; lia | | reflexivity].
    intros i. unfold get. destruct (Z.to_nat i) as [|[|[|n]]]; simpl; split; lia. }
  pose proof (pmm_alloc_aligned_range_spec _ 4 2 Hinv ltac:(lia) ltac:(lia)) as H.
  change (pmm_alloc_aligned_range (mk_pmm [0xE0; 0x01] 0x100000 16 4) 4 (2 ^ 2))
    with (Some (0x100000, 0x4000), mk_pmm [0xEF; 0x01] 0x100000 16 8) in H.
  destruct H as (s & H1 & H2 & _ & H4 & _). exists s. auto 12.
Defined.

(** * All runs of the allocator *)

(** One call of the interface. *)
Inductive pmm_step : pmm -> pmm -> Prop :=
| step_alloc p : pmm_step p (snd (pmm_alloc_page p))
| step_free p addr : 0 <= addr < 2 ^ 64 -> pmm_step p (pmm_free_page p addr)
| step_alloc_range p n : 0 <= n < 2 ^ 32 -> pmm_step p (snd (pmm_alloc_range p n))
| step_free_range p addr n : 0 <= addr < 2 ^ 64 -> 0 <= n < 2 ^ 32 - total_pages p ->
    pmm_step p (pmm_free_range p addr n)
| step_alloc_aligned p n k : 0 < n < 2 ^ 32 -> 0 <= k < 32 ->
    pmm_step p (snd (pmm_alloc_aligned_range p n (2 ^ k))).

Lemma pmm_step_inv (p p' : pmm) : pmm_step p p' -> pmm_inv p -> pmm_inv p'.
Proof.
  intros Hs Hinv. pose proof (inv_total p Hinv) as Ht. destruct Hs as [p | p a Ha | p n Hn | p a n Ha Hn | p n k Hn Hk].
  - destruct (pmm_alloc_page_cases p Hinv)
      as [(i & p' & _ & Hi & _ & _ & ->) | (p' & _ & _ & Hi & ->)]; done.
  - unfold pmm_free_page. destruct (a =? 0); [done |].
    set (pa := page_align_down a). set (i := u32 ((pa - base_addr p) / PAGE_SIZE)).
    destruct (pa <? base_addr p); [done |].
    destruct (Z.leb_spec (total_pages p) i); [done |].
    destruct (page_used p i) eqn:Hu; [| done].
    apply clear_used_page; [done | | done].
    split; [apply wrap_fits; lia | done].
  - pose proof (alloc_range_cases p n Hinv Hn) as H.
    destruct (pmm_alloc_range p n) as [[[a b]|] p']; [| by destruct H as [-> _]].
    by destruct H as (s & _ & _ & _ & _ & H & _).
  - unfold pmm_free_range. destruct (_ || _); [done |].
    set (pa := page_align_down a). set (i := u32 ((pa - base_addr p) / PAGE_SIZE)).
    destruct (pa <? base_addr p); [done |].
    destruct (Z.leb_spec (total_pages p) i); [done |].
    assert (0 <= i) by (apply wrap_fits; lia).
    apply mark_range_spec; (done || lia).
  - pose proof (aligned_range_cases p n k Hinv Hn Hk) as H.
    destruct (pmm_alloc_aligned_range p n (2 ^ k)) as [[[a b]|] p']; [| by destruct H as [-> _]].
    by destruct H as (s & _ & _ & _ & _ & H & _).
Qed.

(** C8: along every sequence of calls the counter [used_pages] is exactly the number
    of used pages, and the bitmap keeps covering all managed pages. *)
Theorem pmm_reachable_inv (p p' : pmm) :
  pmm_inv p -> rtc pmm_step p p' ->
  pmm_inv p' /\ pmm_get_used_pages p' = used_count p' /\
  pmm_get_free_pages p' = total_pages p' - used_count p'.
Proof.
  intros Hinv Hr. assert (H : pmm_inv p') by (induction Hr; eauto using pmm_step_inv).
  split; [done |]. split; [apply H |].
  unfold pmm_get_free_pages. rewrite (inv_used _ H). apply wrap_small.
  pose proof (inv_used_bound p' H). pose proof (inv_total p' H).
  rewrite <- (inv_used _ H). split; lia.
Qed.

Lemma pmm_reachable_inv_witness :
  let p := mk_pmm [0xE0; 0x01] 0x100000 16 4 in
  pmm_get_used_pages (snd (pmm_alloc_range p 3)) = used_count (snd (pmm_alloc_range p 3)).
Proof.
  cbv zeta.
  apply (pmm_reachable_inv (mk_pmm [0xE0; 0x01] 0x100000 16 4)
           (snd (pmm_alloc_range (mk_pmm [0xE0; 0x01] 0x100000 16 4) 3))).
  - split; [simpl; lia | simpl; lia | | reflexivity].
    intros i. unfold get. destruct (Z.to_nat i) as [|[|[|n]]]; simpl; split; lia.
  - apply rtc_once, step_alloc_range. lia.
Defined.

(** * The contract of PageAlloc.v *)

Definition frame_free (p : pmm) (f : Z) : Prop :=
  exists i, 0 <= i < total_pages p /\ page_used p i = false /\ f = base_addr p + i * FRAME_SIZE.

Definition pmm_inv_4g (p : pmm) : Prop :=
  pmm_inv p /\ 0 <= base_addr p /\ total_pages p <= 2 ^ 20 /\
  base_addr p + total_pages p * FRAME_SIZE < 2 ^ 64.

Definition alloc_range_addr (p : pmm) (n : Z) : option Z * pmm :=
  let '(r, p') := pmm_alloc_range p n in (fst <$> r, p').

Lemma alloc_range_inv_4g (p : pmm) (n : Z) :
  pmm_inv_4g p -> 0 <= n < 2 ^ 32 -> pmm_inv_4g (snd (alloc_range_addr p n)).
Proof.
  intros (Hinv & Hb & Ht & Hlt) Hn. pose proof (alloc_range_cases p n Hinv Hn) as H.
  unfold alloc_range_addr. destruct (pmm_alloc_range p n) as [[[a b]|] p']; simpl.
  - destruct H as (s & _ & _ & _ & _ & Hi & (M1 & M2 & _) & _).
    split; [done |]. by rewrite M1, M2.
  - destruct H as [-> _]. unfold pmm_inv_4g. auto.
Qed.

Lemma alloc_range_fail (p : pmm) (n : Z) :
  pmm_inv_4g p -> 0 <= n < 2 ^ 32 ->
  fst (alloc_range_addr p n) = None -> snd (alloc_range_addr p n) = p.
Proof.
  intros (Hinv & _) Hn. pose proof (alloc_range_cases p n Hinv Hn) as H.
  unfold alloc_range_addr. destruct (pmm_alloc_range p n) as [[[a b]|] p']; simpl; [done |].
  by destruct H as [-> _].
Qed.

Lemma alloc_range_fresh (p : pmm) (n a : Z) :
  pmm_inv_4g p -> 0 <= n < 2 ^ 32 -> fst (alloc_range_addr p n) = Some a ->
  0 < n /\ (forall k, 0 <= k < n -> frame_free p (a + k * FRAME_SIZE)) /\
  (forall f, frame_free (snd (alloc_range_addr p n)) f <->
     frame_free p f /\ ~ (exists k, 0 <= k < n /\ f = a + k * FRAME_SIZE)).
Proof.
  unfold FRAME_SIZE.
  intros (Hinv & Hb & Ht & Hlt) Hn. pose proof (alloc_range_cases p n Hinv Hn) as H.
  unfold alloc_range_addr. destruct (pmm_alloc_range p n) as [[[a' b]|] p']; simpl; [| done].
  intros [= ->].
  destruct H as (s & Hn0 & (R1 & R2 & R3) & _ & -> & _ & (M1 & M2 & _ & M4) & _).
  unfold FRAME_SIZE in Hlt. rewrite page_addr_exact by (unfold PAGE_SIZE; lia). unfold PAGE_SIZE.
  split; [done |]. split.
  - intros k Hk. exists (s + k). unfold FRAME_SIZE. split; [lia |]. split; [apply R3; lia | lia].
  - intros f. unfold frame_free. rewrite M1, M2. split.
    + intros (i & Hi & Hu & Hf). rewrite M4 in Hu by lia.
      destruct ((s <=? i) && (i <? s + n)) eqn:E; [done |].
      split; [by exists i |]. intros (k & Hk & Hk'). unfold FRAME_SIZE in Hf. lia.
    + intros ((i & Hi & Hu & Hf) & Hno). exists i. split; [done |]. split; [| done].
      rewrite M4 by lia. destruct ((s <=? i) && (i <? s + n)) eqn:E; [| done].
      exfalso. apply Hno. exists (i - s). unfold FRAME_SIZE in Hf. lia.
Qed.

(** The allocator fulfils the contract its clients are verified against. *)
#[export] Instance pmm_page_allocator : PageAllocator pmm := {
  pa_inv := pmm_inv_4g;
  pa_free := frame_free;
  pa_alloc_range := alloc_range_addr;
  pa_alloc_inv := alloc_range_inv_4g;
  pa_alloc_fail := alloc_range_fail;
  pa_alloc_fresh := alloc_range_fresh
}.
