(* ===== verification/Paging.v ===== *)
(** The page tables, src/kernel/paging.c: four levels of 512-entry tables in
    physical memory (identity mapped, include/kernel/paging.h), with tables taken
    from and given back to the frame allocator of Pmm.v.  This file holds the
    operations; PagingSpec.v relates them to the processor's page walk. *)

From S2P Require Import Prelude LibMem Pmm PageAlloc.

Definition PML4_SHIFT : Z := 39.
Definition PDPT_SHIFT : Z := 30.
Definition PD_SHIFT : Z := 21.
Definition PT_SHIFT : Z := 12.

Definition PML4_INDEX (va : Z) : Z := Z.land (Z.shiftr va PML4_SHIFT) 0x1FF.
Definition PDPT_INDEX (va : Z) : Z := Z.land (Z.shiftr va PDPT_SHIFT) 0x1FF.
Definition PD_INDEX (va : Z) : Z := Z.land (Z.shiftr va PD_SHIFT) 0x1FF.
Definition PT_INDEX (va : Z) : Z := Z.land (Z.shiftr va PT_SHIFT) 0x1FF.

Definition PTE_NO_EXEC : Z := 2 ^ 63.
Definition PAGE_MASK : Z := 0xFFFFFFFFF000.
Definition HUGE_PAGE_MASK : Z := 0xFFFFFFFFFFE00000.

(** The file's globals with the memory, the frame allocator and the CR3 register. *)
Record machine := mk_machine {
  pmem : mem;
  frames : pmm;
  kernel_pml4 : Z;
  total_phys_pages : Z;
  paging_initialized : bool;
  cr3 : Z
}.

Definition with_pmem (s : machine) (m : mem) : machine :=
  mk_machine m (frames s) (kernel_pml4 s) (total_phys_pages s) (paging_initialized s) (cr3 s).
Definition with_frames (s : machine) (f : pmm) : machine :=
  mk_machine (pmem s) f (kernel_pml4 s) (total_phys_pages s) (paging_initialized s) (cr3 s).

(** [table[index]] *)
Definition entry (m : mem) (table index : Z) : Z := ld64 m (table + 8 * index).
Definition set_entry (m : mem) (table index v : Z) : mem := st64 m (table + 8 * index) v.

Definition present (e : Z) : bool := negb (Z.land e PTE_PRESENT =? 0).
Definition huge (e : Z) : bool := negb (Z.land e PTE_HUGE =? 0).

(** [pmm_alloc_page]; a frame at address 0 is NULL to the callers. *)
Definition alloc_frame (s : machine) : Z * machine :=
  let '(r, f) := pmm_alloc_page (frames s) in
  (match r with Some a => a | None => 0 end, with_frames s f).

(** [get_next_level]; 0 is NULL. *)
Definition get_next_level (s : machine) (table index flags : Z) (allocate : bool)
    : outcome (Z * machine) :=
  let e := entry (pmem s) table index in
  if negb (present e) then
    if negb allocate then Ret (0, s)
    else
      let '(new_table, s) := alloc_frame s in
      if new_table =? 0 then Panic
      else
        let m := memset (pmem s) new_table 0 (Z.to_nat PAGE_SIZE) in
        let m := set_entry m table index
                   (Z.lor (Z.lor (Z.lor new_table flags) PTE_PRESENT) PTE_WRITABLE) in
        Ret (new_table, with_pmem s m)
  else Ret (Z.land e PAGE_MASK, s).

Definition paging_init (s : machine) (total_phys_mem : Z) : machine :=
  if paging_initialized s then s
  else mk_machine (pmem s) (frames s) (Z.land (cr3 s) PAGE_MASK) (total_phys_mem / PAGE_SIZE) true (cr3 s).

Definition paging_get_kernel_cr3 (s : machine) : Z := kernel_pml4 s.

Definition paging_switch (s : machine) (pml4 : Z) : machine :=
  if pml4 =? 0 then s
  else mk_machine (pmem s) (frames s) (kernel_pml4 s) (total_phys_pages s) (paging_initialized s) pml4.

Definition paging_map_page (s : machine) (pml4 virt_addr phys_addr flags : Z)
    : outcome (Z * machine) :=
  (if pml4 =? 0 then Ret (-1, s)
   else
     let flags := Z.lor flags (Z.lor PTE_PRESENT PTE_WRITABLE) in
     do '(pdpt, s) <- get_next_level s pml4 (PML4_INDEX virt_addr) flags true;
     if pdpt =? 0 then Ret (-1, s)
     else
       do '(pdir, s) <- get_next_level s pdpt (PDPT_INDEX virt_addr) flags true;
       if pdir =? 0 then Ret (-1, s)
       else
         do '(ptbl, s) <- get_next_level s pdir (PD_INDEX virt_addr) flags true;
         if ptbl =? 0 then Ret (-1, s)
         else Ret (0, with_pmem s (set_entry (pmem s) ptbl (PT_INDEX virt_addr)
                                     (Z.lor (Z.land phys_addr PAGE_MASK) flags))))%out.

(** The loops of the range operations: [virt < end] with 64-bit increments.  The fuel
    is the number of pages in the range, so it runs out only when [virt] wraps
    around below [end] and the loop does not end. *)
Fixpoint map_loop (fuel : nat) (s : machine) (pml4 virt phys fin flags : Z)
    : outcome (Z * machine) :=
  (if negb (virt <? fin) then Ret (0, s)
   else match fuel with
        | O => Crash
        | S fuel' =>
            do '(r, s) <- paging_map_page s pml4 virt phys flags;
            if negb (r =? 0) then Ret (-1, s)
            else map_loop fuel' s pml4 (add64 virt PAGE_SIZE) (add64 phys PAGE_SIZE) fin flags
        end)%out.

Definition range_fuel (virt fin : Z) : nat := Z.to_nat ((fin - virt + PAGE_SIZE - 1) / PAGE_SIZE).

Definition paging_map_range (s : machine) (pml4 virt_start phys_start size flags : Z)
    : outcome (Z * machine) :=
  if (pml4 =? 0) || (size =? 0) then Ret (-1, s)
  else
    let virt := page_align_down virt_start in
    let phys := page_align_down phys_start in
    let fin := add64 virt_start size in
    map_loop (range_fuel virt fin) s pml4 virt phys fin flags.

Definition paging_unmap_page (s : machine) (pml4 virt_addr : Z) : outcome machine :=
  (if pml4 =? 0 then Ret s
   else
     do '(pdpt, s) <- get_next_level s pml4 (PML4_INDEX virt_addr) 0 false;
     if pdpt =? 0 then Ret s
     else
       do '(pdir, s) <- get_next_level s pdpt (PDPT_INDEX virt_addr) 0 false;
       if pdir =? 0 then Ret s
       else
         do '(ptbl, s) <- get_next_level s pdir (PD_INDEX virt_addr) 0 false;
         if ptbl =? 0 then Ret s
         else Ret (with_pmem s (set_entry (pmem s) ptbl (PT_INDEX virt_addr) 0)))%out.

Fixpoint unmap_loop (fuel : nat) (s : machine) (pml4 virt fin : Z) : outcome machine :=
  (if negb (virt <? fin) then Ret s
   else match fuel with
        | O => Crash
        | S fuel' =>
            do s <- paging_unmap_page s pml4 virt;
            unmap_loop fuel' s pml4 (add64 virt PAGE_SIZE) fin
        end)%out.

Definition paging_unmap_range (s : machine) (pml4 virt_start size : Z) : outcome machine :=
  if (pml4 =? 0) || (size =? 0) then Ret s
  else
    let virt := page_align_down virt_start in
    let fin := add64 virt_start size in
    unmap_loop (range_fuel virt fin) s pml4 virt fin.

(** [paging_destroy_user_task]: the four nested loops; each level frees the frames
    below it and then its own table. *)
Definition free_frame (s : machine) (a : Z) : machine :=
  with_frames s (pmm_free_page (frames s) a).

Definition destroy_pt (s : machine) (ptbl : Z) : machine :=
  let s := for_range 512 (fun l s =>
    if present (entry (pmem s) ptbl l) then free_frame s (Z.land (entry (pmem s) ptbl l) PAGE_MASK)
    else s) s in
  free_frame s ptbl.

Definition destroy_pd (s : machine) (pdir : Z) : machine :=
  let s := for_range 512 (fun k s =>
    let e := entry (pmem s) pdir k in
    if present e && negb (huge e) then destroy_pt s (Z.land e PAGE_MASK)
    else if present e && huge e then free_frame s (Z.land e HUGE_PAGE_MASK)
    else s) s in
  free_frame s pdir.

Definition destroy_pdpt (s : machine) (pdpt : Z) : machine :=
  let s := for_range 512 (fun j s =>
    let e := entry (pmem s) pdpt j in
    if present e then destroy_pd s (Z.land e PAGE_MASK) else s) s in
  free_frame s pdpt.

Definition paging_destroy_user_task (s : machine) (pml4 : Z) : machine :=
  if pml4 =? 0 then s
  else
    let s := for_range 256 (fun i s =>
      let e := entry (pmem s) pml4 i in
      if present e then destroy_pdpt s (Z.land e PAGE_MASK) else s) s in
    free_frame s pml4.

(** [paging_create_user_task]; 0 is NULL. *)
Definition copy_kernel_half (m : mem) (kpml4 upml4 : Z) : mem :=
  for_from 256 256 (fun i m =>
    let kernel_entry := entry m kpml4 i in
    if present kernel_entry then set_entry m upml4 i kernel_entry else m) m.

Definition paging_create_user_task (s : machine) (user_mem user_size : Z) : outcome (Z * machine) :=
  (if kernel_pml4 s =? 0 then Ret (0, s)
   else
     let '(user_pml4, s) := alloc_frame s in
     if user_pml4 =? 0 then Ret (0, s)
     else
       let m := memset (pmem s) user_pml4 0 (Z.to_nat PAGE_SIZE) in
       let s := with_pmem s (copy_kernel_half m (kernel_pml4 s) user_pml4) in
       if negb (user_mem =? 0) && (0 <? user_size) then
         do '(r, s) <- paging_map_range s user_pml4 user_mem user_mem user_size
                         (Z.lor PTE_USER PTE_WRITABLE);
         if negb (r =? 0) then Ret (0, paging_destroy_user_task s user_pml4)
         else Ret (user_pml4, s)
       else Ret (user_pml4, s))%out.

Definition paging_map_user_region (s : machine) (pml4 addr size : Z) : outcome (Z * machine) :=
  paging_map_range s pml4 addr addr size (Z.lor PTE_USER PTE_WRITABLE).

Definition paging_unmap_user_region (s : machine) (pml4 addr size : Z) : outcome machine :=
  paging_unmap_range s pml4 addr size.
