(* ===== verification/PagingSpec.v ===== *)
(** The page tables of Paging.v against the processor's page walk: mapping a page
    changes the translation of that page and of no other, for tables without large
    pages; over a 2 MiB page the routine overwrites data instead.  The machine is an
    instance of the contract the kernel heap is verified against. *)

From S2P Require Import Prelude LibMem Pmm PageAlloc PmmSpec Paging.

(** * The page walk of the processor

    [walk l m t va] translates [va] starting from the table [t] of level [l]
    (4: PML4, 3: PDPT, 2: PD, 1: PT), to the physical address and the flags that govern
    the access.  A present entry of level 2 or 3 with the PS bit maps a 2 MiB or 1 GiB
    page.  The flags are those of the entry that maps the page, without WRITABLE or USER
    where a table above does not grant it, and with NX where a table above sets it. *)

Definition shift (l : nat) : Z := 3 + 9 * Z.of_nat l.

Definition idx (l : nat) (va : Z) : Z := (va / 2 ^ shift l) mod 512.

Definition flag_bits (e : Z) : Z := Z.ldiff e PAGE_MASK.

Definition restrict (e f : Z) : Z :=
  Z.lor (Z.land f (Z.lor e (Z.lnot (Z.lor PTE_WRITABLE PTE_USER)))) (Z.land e PTE_NO_EXEC).

Fixpoint walk (l : nat) (m : mem) (t va : Z) : option (Z * Z) :=
  match l with
  | O => None
  | S l' =>
      let e := entry m t (idx l va) in
      if negb (present e) then None
      else if (l =? 1)%nat then Some (Z.land e PAGE_MASK + va mod 4096, flag_bits e)
      else if huge e && (l <=? 3)%nat then
        Some (Z.land e PAGE_MASK / 2 ^ shift l * 2 ^ shift l + va mod 2 ^ shift l, flag_bits e)
      else prod_map id (restrict e) <$> walk l' m (Z.land e PAGE_MASK) va
  end.

Definition translate (m : mem) (pml4 va : Z) : option (Z * Z) := walk 4 m pml4 va.

(** The present entries of the upper tables on the way to the page of [va]. *)
Fixpoint upper_entries (l : nat) (m : mem) (t va : Z) : list Z :=
  match l with
  | S (S _ as l') =>
      let e := entry m t (idx l va) in
      if present e then e :: upper_entries l' m (Z.land e PAGE_MASK) va else []
  | _ => []
  end.

(** The part of an address above the index of level [l]. *)
Definition prefix (l : nat) (va : Z) : Z := (va mod 2 ^ 48) / 2 ^ shift (S l).

(** * Bits of entries *)

Lemma PAGE_MASK_testbit (i : Z) :
  0 <= i -> Z.testbit PAGE_MASK i = (12 <=? i) && (i <? 48).
Proof.
  intros Hi. change PAGE_MASK with (Z.shiftl (Z.ones 36) 12).
  rewrite Z.shiftl_spec by done. destruct (Z.leb_spec 12 i).
  - destruct (Z.ltb_spec i 48); [rewrite Z.ones_spec_low by lia | rewrite Z.ones_spec_high by lia]; done.
  - by rewrite Z.testbit_neg_r by lia.
Qed.

Lemma aligned_testbit (n i : Z) : n mod 4096 = 0 -> 0 <= i < 12 -> Z.testbit n i = false.
Proof.
  intros Hn Hi. rewrite (Z.div_mod n 4096), Hn, Z.add_0_r by lia.
  change 4096 with (2 ^ 12). rewrite Z.mul_comm, <- Z.shiftl_mul_pow2 by lia.
  rewrite Z.shiftl_spec_low by lia. done.
Qed.

Lemma land_mask_aligned (n : Z) : n mod 4096 = 0 -> 0 <= n < 2 ^ 48 -> Z.land n PAGE_MASK = n.
Proof.
  intros Ha Hn. by_bits i Hi. rewrite Z.land_spec, PAGE_MASK_testbit by done.
  destruct (Z.lt_ge_cases i 12); [by rewrite aligned_testbit by (done || lia) |].
  destruct (Z.ltb_spec i 48).
  - replace (12 <=? i) with true by lia. by rewrite andb_true_r.
  - by rewrite (fits_testbit 48 n) by (done || lia).
Qed.

Lemma present_testbit (e : Z) : present e = Z.testbit e 0.
Proof. apply (land_pow2_testbit e 0). lia. Qed.

Lemma huge_testbit (e : Z) : huge e = Z.testbit e 7.
Proof. apply (land_pow2_testbit e 7). lia. Qed.

(** Flags that stay clear of the address bits and of the PS bit. *)
Definition flags_ok (f : Z) : Prop :=
  fits 64 f /\ Z.land f PAGE_MASK = 0 /\ huge f = false.

Definition new_entry (n flags : Z) : Z :=
  Z.lor (Z.lor (Z.lor n flags) PTE_PRESENT) PTE_WRITABLE.

Lemma new_entry_bits (n flags : Z) :
  n mod 4096 = 0 -> 0 <= n < 2 ^ 48 -> flags_ok flags ->
  fits 64 (new_entry n flags) /\ present (new_entry n flags) = true /\
  huge (new_entry n flags) = false /\ Z.land (new_entry n flags) PAGE_MASK = n.
Proof.
  intros Ha Hn (Hf & Hm & Hh). unfold new_entry. rewrite huge_testbit in Hh. split_and!.
  - repeat apply lor_fits; try lia; [split; lia | done | fits_tac | fits_tac].
  - rewrite present_testbit, !Z.lor_spec. cbn. by rewrite orb_true_r.
  - rewrite huge_testbit, !Z.lor_spec, Hh, (aligned_testbit n 7) by (done || lia). done.
  - rewrite !Z.land_lor_distr_l, Hm, land_mask_aligned by done. cbn. by rewrite !Z.lor_0_r.
Qed.

(** A table made for the flags [f] does not restrict them. *)
Lemma restrict_new (n f : Z) :
  0 <= n < 2 ^ 48 -> fits 64 f -> restrict (new_entry n f) f = f.
Proof.
  intros Hn Hf. unfold restrict, new_entry. by_bits i Hi.
  rewrite !Z.lor_spec, !Z.land_spec, !Z.lor_spec, Z.lnot_spec by done.
  change PTE_NO_EXEC with (2 ^ 63). rewrite Z.pow2_bits_eqb by lia.
  destruct (Z.eqb_spec 63 i) as [<- | Hne].
  - rewrite (fits_testbit 48 n 63) by (done || lia).
    change (Z.testbit PTE_PRESENT 63) with false. change (Z.testbit PTE_WRITABLE 63) with false.
    change (Z.testbit PTE_USER 63) with false. by destruct (Z.testbit f 63).
  - rewrite andb_false_r, orb_false_r. destruct (Z.testbit f i); [| done]. cbn [andb].
    by rewrite orb_true_r.
Qed.

(** * Entries as memory *)

Definition table_addr (t : Z) : Prop := t mod 4096 = 0 /\ 0 < t < 2 ^ 48.

Lemma entry_set_eq (m : mem) (t i v : Z) : fits 64 v -> entry (set_entry m t i v) t i = v.
Proof. intros Hv. by apply (load_store_eq 8). Qed.

Lemma entry_set_ne (m : mem) (t i v t' i' : Z) :
  table_addr t -> table_addr t' -> 0 <= i < 512 -> 0 <= i' < 512 -> t <> t' \/ i <> i' ->
  entry (set_entry m t i v) t' i' = entry m t' i'.
Proof.
  intros [Ht _] [Ht' _] Hi Hi' Hne. apply load_store_ne. dlia.
Qed.

Lemma entry_memset_ne (m : mem) (n t i : Z) :
  table_addr n -> table_addr t -> n <> t -> 0 <= i < 512 ->
  entry (memset m n 0 (Z.to_nat PAGE_SIZE)) t i = entry m t i.
Proof.
  intros [Hn _] [Ht _] Hne Hi. apply load_ext. intros j Hj.
  rewrite memset_filled. unfold PAGE_SIZE. rewrite Z2Nat.id by lia.
  replace ((n <=? t + 8 * i + j) && (t + 8 * i + j <? n + 4096)) with false by dlia. done.
Qed.

Lemma entry_memset_eq (m : mem) (n i : Z) :
  0 <= i < 512 -> entry (memset m n 0 (Z.to_nat PAGE_SIZE)) n i = 0.
Proof.
  intros Hi. transitivity (ld64 (fun _ => 0) (n + 8 * i)); [| done].
  apply load_ext. intros j Hj. rewrite memset_filled. unfold PAGE_SIZE. rewrite Z2Nat.id by lia.
  replace ((n <=? n + 8 * i + j) && (n + 8 * i + j <? n + 4096)) with true by lia. done.
Qed.

(** * Indices *)

Lemma idx_bound (l : nat) (va : Z) : 0 <= idx l va < 512.
Proof. apply Z.mod_pos_bound. lia. Qed.

Lemma index_eq (va s : Z) : 0 <= s -> Z.land (Z.shiftr va s) 0x1FF = (va / 2 ^ s) mod 512.
Proof. intros Hs. change 0x1FF with (Z.ones 9). by rewrite Z.land_ones, Z.shiftr_div_pow2. Qed.

Lemma PML4_INDEX_idx (va : Z) : PML4_INDEX va = idx 4 va.
Proof. by apply index_eq. Qed.
Lemma PDPT_INDEX_idx (va : Z) : PDPT_INDEX va = idx 3 va.
Proof. by apply index_eq. Qed.
Lemma PD_INDEX_idx (va : Z) : PD_INDEX va = idx 2 va.
Proof. by apply index_eq. Qed.
Lemma PT_INDEX_idx (va : Z) : PT_INDEX va = idx 1 va.
Proof. by apply index_eq. Qed.

Lemma prefix_4 (va : Z) : prefix 4 va = 0.
Proof. unfold prefix, shift. cbn. apply Z.div_small, Z.mod_pos_bound. lia. Qed.

(** The prefix of the next level down is the prefix followed by the index. *)
Lemma prefix_child (l : nat) (va : Z) :
  (l <= 3)%nat -> prefix l va = prefix (S l) va * 512 + idx (S l) va.
Proof.
  intros Hl. unfold prefix, idx, shift.
  assert (Hc : l = 0%nat \/ l = 1%nat \/ l = 2%nat \/ l = 3%nat) by lia.
  destruct_or! Hc; subst l; cbn -[Z.mul Z.add Z.div Z.modulo]; dlia.
Qed.

(** * Well-formed table trees

    The ghost map [own] gives each table its level and the address prefix it
    serves; an entry of an upper table is absent or leads to the table that serves
    its prefix.  Tables are frames the allocator does not consider free. *)

Record tables_wf (s : machine) (root : Z) (own : gmap Z (nat * Z)) : Prop := {
  tw_root : own !! root = Some (4%nat, 0);
  tw_tab : forall t l pre, own !! t = Some (l, pre) -> table_addr t /\ (1 <= l <= 4)%nat;
  tw_child : forall t l pre i, own !! t = Some (S l, pre) -> (1 <= l)%nat -> 0 <= i < 512 ->
    present (entry (pmem s) t i) = true ->
    huge (entry (pmem s) t i) = false /\
    own !! Z.land (entry (pmem s) t i) PAGE_MASK = Some (l, pre * 512 + i);
  tw_used : forall t v, own !! t = Some v -> ~ frame_free (frames s) t;
  tw_inv : pmm_inv_4g (frames s);
  tw_base : base_addr (frames s) mod 4096 = 0;
  tw_top : base_addr (frames s) + total_pages (frames s) * PAGE_SIZE <= 2 ^ 48
}.

(** The frame [alloc_frame] takes. *)
Lemma alloc_frame_cases (s : machine) :
  pmm_inv_4g (frames s) ->
  let '(a, s') := alloc_frame s in
  s' = with_frames s (frames s') /\ pmm_inv_4g (frames s') /\
  base_addr (frames s') = base_addr (frames s) /\ total_pages (frames s') = total_pages (frames s) /\
  (forall f, frame_free (frames s') f -> frame_free (frames s) f) /\
  (a <> 0 -> frame_free (frames s) a /\ ~ frame_free (frames s') a) /\
  used_pages (frames s') <= used_pages (frames s) + 1 /\
  (a = 0 -> base_addr (frames s) = 0 \/ total_pages (frames s) <= used_pages (frames s)).
Proof.
  intros (Hinv & Hb & Ht & Hlt). unfold alloc_frame, FRAME_SIZE in *.
  destruct (pmm_alloc_page_cases _ Hinv)
    as [(i & p' & (Hi1 & Hi2 & Hi3) & Hinv' & [T1 T2 T3 T4 T5] & _ & ->) | (p' & Hall & [E1 E2 E3 E4 E5] & Hinv' & ->)];
    cbn [frames with_frames].
  - rewrite page_addr_exact by (unfold PAGE_SIZE; lia). unfold PAGE_SIZE.
    split_and!; try done.
    + unfold pmm_inv_4g, FRAME_SIZE. rewrite T1, T2. done.
    + intros f (j & Hj & Hu & Hf). rewrite T2 in Hj. exists j. rewrite <- T1.
      destruct (decide (j = i)) as [-> |]; [by rewrite T4 in Hu |].
      rewrite T5 in Hu by lia. done.
    + intros _. split; [exists i; unfold FRAME_SIZE; split_and!; (done || lia) |].
      intros (j & Hj & Hu & Hf). unfold FRAME_SIZE in Hf. rewrite T1 in Hf.
      replace j with i in Hu by lia. by rewrite T4 in Hu.
    + lia.
    + lia.
  - split_and!; try done.
    + unfold pmm_inv_4g, FRAME_SIZE. rewrite <- E1, <- E2. done.
    + intros f (j & Hj & Hu & Hf). rewrite <- E2 in Hj. rewrite <- E5, Hall in Hu by lia. done.
    + lia.
    + intros _. right. rewrite (inv_used _ Hinv). unfold used_count.
      rewrite count_upto_full; [pose proof (inv_total _ Hinv); lia |].
      intros j Hj. apply Hall. lia.
Qed.

Lemma frame_table_addr (s : machine) (root : Z) own (a : Z) :
  tables_wf s root own -> frame_free (frames s) a -> a <> 0 -> table_addr a.
Proof.
  intros Hw (i & Hi & _ & ->) Hne. pose proof (tw_base _ _ _ Hw). pose proof (tw_top _ _ _ Hw).
  destruct (tw_inv _ _ _ Hw) as (_ & Hb & _ & _). unfold FRAME_SIZE, PAGE_SIZE in *. split; [| lia].
  dlia.
Qed.

(** * One level down *)

Lemma walk_absent (l : nat) (m : mem) (t va : Z) :
  entry m t (idx (S l) va) = 0 -> walk (S l) m t va = None.
Proof. intros E. cbn [walk]. by rewrite E. Qed.

(** Hanging a zeroed table into an empty slot changes no translation. *)
Lemma walk_new_table (s : machine) (root : Z) own (t0 i0 pre0 n flags : Z) (l0 : nat) :
  tables_wf s root own -> own !! t0 = Some (S l0, pre0) -> (1 <= l0)%nat -> 0 <= i0 < 512 ->
  present (entry (pmem s) t0 i0) = false -> table_addr n -> own !! n = None -> flags_ok flags ->
  let m' := set_entry (memset (pmem s) n 0 (Z.to_nat PAGE_SIZE)) t0 i0 (new_entry n flags) in
  entry m' t0 i0 = new_entry n flags /\
  (forall i, 0 <= i < 512 -> entry m' n i = 0) /\
  (forall t v i, own !! t = Some v -> 0 <= i < 512 -> t <> t0 \/ i <> i0 ->
     entry m' t i = entry (pmem s) t i) /\
  (forall l t pre va, own !! t = Some (l, pre) -> walk l m' t va = walk l (pmem s) t va).
Proof.
  intros Hw H0 Hl0 Hi0 Hp Hn Hfresh Hf m'.
  destruct (new_entry_bits n flags ltac:(apply Hn) ltac:(destruct Hn; lia) Hf) as (B1 & B2 & B3 & B4).
  destruct (tw_tab _ _ _ Hw _ _ _ H0) as [Ht0 _].
  assert (Hne0 : n <> t0) by (intros ->; congruence).
  assert (E0 : entry m' t0 i0 = new_entry n flags) by (by apply entry_set_eq).
  assert (En : forall i, 0 <= i < 512 -> entry m' n i = 0).
  { intros i Hi. unfold m'. rewrite entry_set_ne by (done || lia || auto). by apply entry_memset_eq. }
  assert (Eo : forall t v i, own !! t = Some v -> 0 <= i < 512 -> t <> t0 \/ i <> i0 ->
    entry m' t i = entry (pmem s) t i).
  { intros t [l pre] i Ht Hi Hne. destruct (tw_tab _ _ _ Hw _ _ _ Ht) as [Hta _].
    unfold m'. rewrite entry_set_ne by (done || naive_solver).
    apply entry_memset_ne; try done. intros ->. congruence. }
  split_and!; try done.
  induction l as [|l IH]; intros t pre va Ht; [done |]. pose proof (idx_bound (S l) va) as Hi.
  destruct (decide (t = t0 /\ idx (S l) va = i0)) as [[-> Ei] | Hne].
  - assert (l = l0) as -> by congruence. cbn [walk]. rewrite Ei, E0, Hp, B2, B3, B4. cbn [negb andb].
    replace (S l0 =? 1)%nat with false by lia. destruct l0 as [|l0]; [lia |].
    by rewrite walk_absent by apply En, idx_bound.
  - assert (Ee : entry m' t (idx (S l) va) = entry (pmem s) t (idx (S l) va)).
    { eapply Eo; [done | done |]. destruct (decide (t = t0)); [right | by left]. naive_solver. }
    cbn [walk]. rewrite Ee. destruct (present (entry (pmem s) t (idx (S l) va))) eqn:Ep; [| done].
    cbn [negb]. destruct (S l =? 1)%nat eqn:El; [done |].
    destruct (tw_child _ _ _ Hw t l pre _ Ht ltac:(lia) Hi Ep) as [Hh Hc]. rewrite Hh. cbn [andb].
    f_equal. by eapply IH.
Qed.

Lemma next_level_spec (s : machine) (root : Z) own (t i pre flags : Z) (l : nat) :
  tables_wf s root own -> own !! t = Some (S l, pre) -> (1 <= l)%nat -> 0 <= i < 512 -> flags_ok flags ->
  (get_next_level s t i flags true = Panic /\
     (base_addr (frames s) = 0 \/ total_pages (frames s) <= used_pages (frames s))) \/
  (exists t' s' own', get_next_level s t i flags true = Ret (t', s') /\ t' <> 0 /\
     tables_wf s' root own' /\ own ⊆ own' /\ own' !! t' = Some (l, pre * 512 + i) /\
     present (entry (pmem s') t i) = true /\ Z.land (entry (pmem s') t i) PAGE_MASK = t' /\
     (forall u v j, own !! u = Some v -> 0 <= j < 512 -> present (entry (pmem s) u j) = true ->
        entry (pmem s') u j = entry (pmem s) u j) /\
     (forall va, translate (pmem s') root va = translate (pmem s) root va) /\
     base_addr (frames s') = base_addr (frames s) /\ total_pages (frames s') = total_pages (frames s) /\
     used_pages (frames s') <= used_pages (frames s) + 1 /\
     (if present (entry (pmem s) t i) then s' = s
      else entry (pmem s') t i = new_entry t' flags /\ forall j, 0 <= j < 512 -> entry (pmem s') t' j = 0)).
Proof.
  intros Hw Ht Hl Hi Hf. unfold get_next_level.
  destruct (present (entry (pmem s) t i)) eqn:Ep; cbn [negb].
  { right. destruct (tw_child _ _ _ Hw t l pre i Ht Hl Hi Ep) as [Hh Hc].
    destruct (tw_tab _ _ _ Hw _ _ _ Hc) as [[_ Hta] _].
    exists (Z.land (entry (pmem s) t i) PAGE_MASK), s, own. split_and!; (done || lia). }
  pose proof (alloc_frame_cases s (tw_inv _ _ _ Hw)) as Ha.
  destruct (alloc_frame s) as [n s1]. destruct Ha as (Es & Hi1 & Eb & Et & Hmono & Hfr & Hu & Hz).
  destruct (Z.eqb_spec n 0) as [Hn0 | Hn0]; [left; auto |]. right.
  destruct (Hfr Hn0) as [Hfree Hused]. pose proof (frame_table_addr s root own n Hw Hfree Hn0) as Hta.
  assert (Hfresh : own !! n = None).
  { destruct (own !! n) eqn:En; [| done]. by destruct (tw_used _ _ _ Hw _ _ En). }
  assert (Em : pmem s1 = pmem s) by (by rewrite Es).
  destruct (new_entry_bits n flags ltac:(apply Hta) ltac:(destruct Hta; lia) Hf) as (_ & B2 & B3 & B4).
  fold (new_entry n flags). rewrite Em.
  destruct (walk_new_table s root own t i pre n flags l Hw Ht Hl Hi Ep Hta Hfresh Hf)
    as (E0 & En & Eo & Ew).
  set (m' := set_entry _ t i _) in *. clearbody m'.
  assert (Hnt : forall u v, own !! u = Some v -> u <> n) by (intros u v Hu' ->; congruence).
  exists n, (with_pmem s1 m'), (<[n := (l, pre * 512 + i)]> own).
  cbn [pmem frames with_pmem].
  split_and!; try done; try (by apply insert_subseteq); try (by rewrite lookup_insert_eq); try (by rewrite E0).
  - split; cbn [pmem frames with_pmem]; [| | | | done | rewrite Eb; apply Hw | rewrite Eb, Et; apply Hw].
    + rewrite lookup_insert_ne; [apply Hw |]. intros <-. by rewrite (tw_root _ _ _ Hw) in Hfresh.
    + intros u lu pu. rewrite lookup_insert. case_decide; [| apply Hw].
      intros [= <- <-]. subst u. split; [done |].
      destruct (tw_tab _ _ _ Hw _ _ _ Ht). lia.
    + intros u lu pu j. rewrite lookup_insert. case_decide as Hun.
      { intros _ _ Hj. subst u. by rewrite (En j Hj). }
      intros Hou Hlu Hj. destruct (decide (u = t /\ j = i)) as [[-> ->] | Hne].
      * rewrite E0, B3, B4, lookup_insert_eq. intros _. assert (lu = l /\ pu = pre) as [-> ->] by naive_solver.
        done.
      * rewrite (Eo u _ j Hou Hj) by (destruct (decide (u = t)); [right | left]; naive_solver).
        intros Hpj. destruct (tw_child _ _ _ Hw u lu pu j Hou Hlu Hj Hpj) as [Hh Hc].
        split; [done |]. rewrite lookup_insert_ne; [done |]. intros E. by eapply (Hnt _ _ Hc).
    + intros u v. rewrite lookup_insert. case_decide; [by intros _; subst u |].
      intros Hou Hfu. by eapply (tw_used _ _ _ Hw), Hmono.
  - intros u v j Hou Hj Hpj. eapply Eo; [done | done |].
    destruct (decide (u = t)) as [-> |]; [right | by left]. intros ->. congruence.
  - intros va. eapply Ew. apply Hw.
Qed.

(** * The leaf entry *)

(** Following a present entry of an upper table. *)
Lemma walk_step (s : machine) (root : Z) own (t pre va : Z) (l : nat) :
  tables_wf s root own -> own !! t = Some (S l, pre) -> (1 <= l)%nat ->
  present (entry (pmem s) t (idx (S l) va)) = true ->
  walk (S l) (pmem s) t va =
    prod_map id (restrict (entry (pmem s) t (idx (S l) va))) <$>
      walk l (pmem s) (Z.land (entry (pmem s) t (idx (S l) va)) PAGE_MASK) va.
Proof.
  intros Hw Ht Hl Hp. destruct (tw_child _ _ _ Hw t l pre _ Ht Hl (idx_bound _ _) Hp) as [Hh _].
  cbn [walk]. rewrite Hp, Hh. replace (S l =? 1)%nat with false by lia. done.
Qed.

(** Writing the leaf entry of the page of [va] leaves every other page alone. *)
Lemma walk_leaf_other (s : machine) (root : Z) own (pt va v : Z) :
  tables_wf s root own -> own !! pt = Some (1%nat, prefix 1 va) ->
  let m' := set_entry (pmem s) pt (idx 1 va) v in
  tables_wf (with_pmem s m') root own /\
  (forall l t va', prefix 0 va' <> prefix 0 va -> own !! t = Some (l, prefix l va') ->
     walk l m' t va' = walk l (pmem s) t va').
Proof.
  intros Hw Hpt m'. destruct (tw_tab _ _ _ Hw _ _ _ Hpt) as [Hpta _].
  assert (Eu : forall t l pre i, own !! t = Some (S l, pre) -> (1 <= l)%nat -> 0 <= i < 512 ->
    entry m' t i = entry (pmem s) t i).
  { intros t l pre i Ht Hl Hi. destruct (tw_tab _ _ _ Hw _ _ _ Ht) as [Hta _].
    apply entry_set_ne; try done; [apply idx_bound |]. left. intros ->. rewrite Ht in Hpt. injection Hpt. lia. }
  split.
  - destruct Hw as [W1 W2 W3 W4 W5 W6 W7]. split; try done.
    cbn [pmem with_pmem]. intros t l pre i Ht Hl Hi. rewrite (Eu t l pre i Ht Hl Hi). by apply W3.
  - induction l as [|l IH]; intros t va' Hne Ht; [done |].
    pose proof (idx_bound (S l) va') as Hi. destruct (decide (l = 0)%nat) as [-> | Hl].
    + cbn [walk Nat.eqb]. destruct (tw_tab _ _ _ Hw _ _ _ Ht) as [Hta _].
      unfold m'. rewrite entry_set_ne; try done; [apply idx_bound |].
      destruct (decide (pt = t)) as [-> |]; [right | by left]. intros Ei. apply Hne.
      rewrite (prefix_child 0 va'), (prefix_child 0 va) by lia. rewrite Ei. congruence.
    + cbn [walk]. rewrite (Eu t l _ _ Ht ltac:(lia) Hi).
      destruct (present (entry (pmem s) t (idx (S l) va'))) eqn:Ep; [| done]. cbn [negb].
      replace (S l =? 1)%nat with false by lia.
      destruct (tw_child _ _ _ Hw t l _ _ Ht ltac:(lia) Hi Ep) as [Hh Hc]. rewrite Hh. cbn [andb].
      f_equal. apply IH; [done |]. rewrite Hc.
      replace (prefix (S l) va' * 512 + idx (S l) va') with (prefix l va'); [done |].
      destruct (tw_tab _ _ _ Hw _ _ _ Ht). apply prefix_child. lia.
Qed.

(** A leaf entry translates its page. *)
Lemma walk_leaf (m : mem) (pt va pa flags : Z) :
  flags_ok flags ->
  walk 1 (set_entry m pt (idx 1 va) (Z.lor (Z.land pa PAGE_MASK) (Z.lor flags (Z.lor PTE_PRESENT PTE_WRITABLE)))) pt va
  = Some (Z.land pa PAGE_MASK + va mod 4096, Z.lor flags (Z.lor PTE_PRESENT PTE_WRITABLE)).
Proof.
  intros (Hf & Hm & _). cbn [walk Nat.eqb]. rewrite entry_set_eq.
  - rewrite present_testbit, !Z.lor_spec. cbn [Z.testbit PTE_PRESENT orb].
    rewrite !orb_true_r. cbn [negb]. do 2 f_equal.
    + f_equal. rewrite !Z.land_lor_distr_l, Hm. rewrite <- Z.land_assoc, Z.land_diag. cbn. by rewrite Z.lor_0_r.
    + set (F := Z.lor flags _). assert (HF : Z.land F PAGE_MASK = 0) by (unfold F; by rewrite Z.land_lor_distr_l, Hm).
      unfold flag_bits. by_bits i Hi. rewrite Z.ldiff_spec, Z.lor_spec, Z.land_spec.
      assert (Hb : Z.testbit (Z.land F PAGE_MASK) i = false) by (by rewrite HF, Z.bits_0).
      rewrite Z.land_spec in Hb. destruct (Z.testbit F i), (Z.testbit PAGE_MASK i), (Z.testbit pa i); done.
  - repeat apply lor_fits; try lia; [| done | fits_tac | fits_tac].
    apply land_fits_r; [lia | fits_tac].
Qed.

Lemma flags_ok_pw (flags : Z) : flags_ok flags -> flags_ok (Z.lor flags (Z.lor PTE_PRESENT PTE_WRITABLE)).
Proof.
  intros (Hf & Hm & Hh). split_and!.
  - apply lor_fits; [lia | done | fits_tac].
  - rewrite Z.land_lor_distr_l, Hm. done.
  - rewrite huge_testbit in *. by rewrite Z.lor_spec, Hh.
Qed.

(** The three descents of [paging_map_page] end at the table that holds the leaf
    entry of [va], and change no translation on the way. *)
Lemma map_page_cases (s : machine) (root : Z) own (va pa flags : Z) :
  tables_wf s root own -> flags_ok flags ->
  let leaf := Z.lor (Z.land pa PAGE_MASK) (Z.lor flags (Z.lor PTE_PRESENT PTE_WRITABLE)) in
  (paging_map_page s root va pa flags = Panic /\
     (base_addr (frames s) = 0 \/ total_pages (frames s) <= used_pages (frames s) + 2)) \/
  (exists s' own' pt es, tables_wf s' root own' /\ own' !! pt = Some (1%nat, prefix 1 va) /\
     paging_map_page s root va pa flags =
       Ret (0, with_pmem s' (set_entry (pmem s') pt (idx 1 va) leaf)) /\
     (forall m, (forall t v i, own' !! t = Some v -> t <> pt -> 0 <= i < 512 ->
                  entry m t i = entry (pmem s') t i) ->
        translate m root va =
          prod_map id (fun f => foldr restrict f es) <$> walk 1 m pt va) /\
     foldr restrict (Z.lor flags (Z.lor PTE_PRESENT PTE_WRITABLE)) es =
       foldr restrict (Z.lor flags (Z.lor PTE_PRESENT PTE_WRITABLE)) (upper_entries 4 (pmem s) root va) /\
     (forall va', translate (pmem s') root va' = translate (pmem s) root va')).
Proof.
  intros Hw Hf leaf. pose proof (flags_ok_pw _ Hf) as Hf'.
  pose proof (tw_root _ _ _ Hw) as Hr0. destruct (tw_tab _ _ _ Hw _ _ _ Hr0) as [[_ Hroot] _].
  unfold paging_map_page. replace (root =? 0) with false by lia.
  rewrite PML4_INDEX_idx, PDPT_INDEX_idx, PD_INDEX_idx, PT_INDEX_idx.
  destruct (next_level_spec s root own root (idx 4 va) 0 _ 3 Hw Hr0 ltac:(lia) (idx_bound _ _) Hf')
    as [[-> Hp] | (t1 & s1 & o1 & -> & N1 & W1 & S1 & L1 & P1 & M1 & _ & T1 & B1 & C1 & U1 & F1)].
  { left. split; [done | lia]. }
  cbn [obind]. replace (t1 =? 0) with false by lia.
  destruct (next_level_spec s1 root o1 t1 (idx 3 va) _ _ 2 W1 L1 ltac:(lia) (idx_bound _ _) Hf')
    as [[-> Hp] | (t2 & s2 & o2 & -> & N2 & W2 & S2 & L2 & P2 & M2 & K2 & T2 & B2 & C2 & U2 & F2)].
  { left. split; [done |]. rewrite B1, C1 in Hp. lia. }
  cbn [obind]. replace (t2 =? 0) with false by lia.
  destruct (next_level_spec s2 root o2 t2 (idx 2 va) _ _ 1 W2 L2 ltac:(lia) (idx_bound _ _) Hf')
    as [[-> Hp] | (t3 & s3 & o3 & -> & N3 & W3 & S3 & L3 & P3 & M3 & K3 & T3 & B3 & C3 & U3 & F3)].
  { left. split; [done |]. rewrite B2, C2, B1, C1 in Hp. lia. }
  cbn [obind]. replace (t3 =? 0) with false by lia. right.
  set (e1 := entry (pmem s1) root (idx 4 va)) in *. set (e2 := entry (pmem s2) t1 (idx 3 va)) in *.
  set (e3 := entry (pmem s3) t2 (idx 2 va)) in *. exists s3, o3, t3, [e1; e2; e3].
  assert (R1 : o1 !! root = Some (4%nat, 0)) by apply W1.
  assert (E1 : entry (pmem s3) root (idx 4 va) = entry (pmem s1) root (idx 4 va)).
  { rewrite (K3 root (4%nat, 0)); [| apply W2 | apply idx_bound |];
      rewrite (K2 root (4%nat, 0)); done || apply idx_bound. }
  assert (E2 : entry (pmem s3) t1 (idx 3 va) = entry (pmem s2) t1 (idx 3 va)).
  { eapply K3; [by eapply lookup_weaken, S2 | apply idx_bound | done]. }
  assert (O1 : o3 !! t1 = Some (3%nat, prefix 3 va)).
  { eapply lookup_weaken; [| exact S3]. eapply lookup_weaken; [| exact S2]. rewrite L1.
    rewrite <- (prefix_4 va). by rewrite <- (prefix_child 3 va) by lia. }
  assert (O2 : o3 !! t2 = Some (2%nat, prefix 2 va)).
  { eapply lookup_weaken; [| exact S3]. rewrite L2. rewrite <- (prefix_4 va).
    rewrite <- (prefix_child 3 va) by lia. by rewrite <- (prefix_child 2 va) by lia. }
  assert (O3 : o3 !! t3 = Some (1%nat, prefix 1 va)).
  { rewrite L3. rewrite <- (prefix_4 va). rewrite <- (prefix_child 3 va) by lia.
    rewrite <- (prefix_child 2 va) by lia. by rewrite <- (prefix_child 1 va) by lia. }
  split_and!; [done | done | done | | | intros va'; by rewrite T3, T2, T1]; cycle 1.
  { destruct (tw_tab _ _ _ W1 _ _ _ L1) as [[_ A1] _]. destruct (tw_tab _ _ _ W2 _ _ _ L2) as [[_ A2] _].
    destruct (tw_tab _ _ _ W3 _ _ _ L3) as [[_ A3] _]. destruct Hf' as [Hff _].
    set (F := Z.lor flags (Z.lor PTE_PRESENT PTE_WRITABLE)) in *. cbn [upper_entries foldr].
    destruct (present (entry (pmem s) root (idx 4 va))).
    - subst s1. fold e1. rewrite M1. cbn [foldr]. apply f_equal.
      destruct (present (entry (pmem s) t1 (idx 3 va))).
      + subst s2. fold e2. rewrite M2. cbn [foldr]. apply f_equal.
        destruct (present (entry (pmem s) t2 (idx 2 va))); [by subst s3 |].
        destruct F3 as [F3 _]. fold e3 in F3. rewrite F3. apply restrict_new; [lia | done].
      + destruct F2 as [F2 Z2]. fold e2 in F2. rewrite (Z2 _ (idx_bound 2 va)) in F3. cbn [present] in F3.
        destruct F3 as [F3 _]. fold e3 in F3. by rewrite F2, F3, !restrict_new by (lia || done).
    - destruct F1 as [F1 Z1]. fold e1 in F1. rewrite (Z1 _ (idx_bound 3 va)) in F2. cbn [present] in F2.
      destruct F2 as [F2 Z2]. fold e2 in F2. rewrite (Z2 _ (idx_bound 2 va)) in F3. cbn [present] in F3.
      destruct F3 as [F3 _]. fold e3 in F3. by rewrite F1, F2, F3, !restrict_new by (lia || done). }
  intros m Hm. unfold translate. unfold e1, e2, e3 in *.
  pose proof (idx_bound 4 va). pose proof (idx_bound 3 va). pose proof (idx_bound 2 va).
  assert (Hn : root <> t3 /\ t1 <> t3 /\ t2 <> t3).
  { pose proof (tw_root _ _ _ W3). split_and!; intros ->; naive_solver. }
  destruct Hn as (Hn0 & Hn1 & Hn2).
  assert (H4 : entry m root (idx 4 va) = entry (pmem s1) root (idx 4 va)).
  { rewrite <- E1. eapply Hm; [apply W3 | done | done]. }
  assert (H3 : entry m t1 (idx 3 va) = entry (pmem s2) t1 (idx 3 va)).
  { rewrite <- E2. by eapply Hm. }
  assert (H2 : entry m t2 (idx 2 va) = entry (pmem s3) t2 (idx 2 va)) by (by eapply Hm).
  destruct (tw_child _ _ _ W1 root 3 _ _ R1 ltac:(lia) (idx_bound 4 va) P1) as [Q1 _].
  destruct (tw_child _ _ _ W2 t1 2 _ _ ltac:(by eapply lookup_weaken, S2) ltac:(lia) (idx_bound 3 va) P2) as [Q2 _].
  destruct (tw_child _ _ _ W3 t2 1 _ _ O2 ltac:(lia) (idx_bound 2 va) P3) as [Q3 _].
  cbn [walk Nat.eqb Nat.leb]. rewrite H4, P1, Q1, M1. cbn [negb andb].
  rewrite H3, P2, Q2, M2. cbn [negb andb]. rewrite H2, P3, Q3, M3. cbn [negb andb].
  by rewrite <- !option_fmap_compose.
Qed.

(** * Properties *)

Lemma map_page_installs (s : machine) (root : Z) own (va pa flags : Z) :
  tables_wf s root own -> flags_ok flags ->
  match paging_map_page s root va pa flags with
  | Ret (r, s') =>
      r = 0 /\ (exists own', tables_wf s' root own') /\
      translate (pmem s') root va =
        Some (Z.land pa PAGE_MASK + va mod 4096,
              foldr restrict (Z.lor flags (Z.lor PTE_PRESENT PTE_WRITABLE)) (upper_entries 4 (pmem s) root va)) /\
      forall va', prefix 0 va' <> prefix 0 va ->
        translate (pmem s') root va' = translate (pmem s) root va'
  | Panic => base_addr (frames s) = 0 \/ total_pages (frames s) <= used_pages (frames s) + 2
  | Crash => False
  end.
Proof.
  intros Hw Hf. destruct (map_page_cases s root own va pa flags Hw Hf)
    as [[-> Hp] | (s' & own' & pt & es & W & L & -> & Hpath & Hes & Hsame)]; [done |].
  destruct (walk_leaf_other s' root own' pt va
    (Z.lor (Z.land pa PAGE_MASK) (Z.lor flags (Z.lor PTE_PRESENT PTE_WRITABLE))) W L) as [W' Ho].
  destruct (tw_tab _ _ _ W _ _ _ L) as [Hpt _]. cbn [pmem with_pmem].
  split_and!; [done | by exists own' | |].
  - rewrite Hpath; [rewrite walk_leaf by done; rewrite <- Hes; done |].
    intros t [l pre] i Ht Hne Hi.
    destruct (tw_tab _ _ _ W _ _ _ Ht) as [Hta _].
    apply entry_set_ne; try done; [apply idx_bound | by left].
  - intros va' Hne. rewrite <- Hsame. unfold translate. apply Ho; [done |].
    rewrite prefix_4. apply W.
Qed.


(** A machine with 64 KiB of managed frames from 1 MiB on (the first in use) and an
    empty PML4 in that first frame. *)
Definition demo_machine : machine :=
  mk_machine (fun _ => 0) (mk_pmm [0x01; 0x00] 0x100000 16 1) 0x100000 16 true 0x100000.

Lemma demo_machine_wf : tables_wf demo_machine 0x100000 {[0x100000 := (4%nat, 0)]}.
Proof.
  assert (Hinv : pmm_inv (frames demo_machine)).
  { split; [simpl; lia | simpl; lia | | reflexivity].
    intros i. unfold get. cbn [frames demo_machine bitmap]. destruct (Z.to_nat i) as [|[|[|n]]]; simpl; split; lia. }
  split.
  - apply lookup_singleton_eq.
  - intros t l pre Ht. apply lookup_singleton_Some in Ht as [<- [= <- <-]]. split; [split; [done | lia] | lia].
  - intros t l pre i Ht Hl Hi. assert (E : entry (pmem demo_machine) t i = 0) by done. by rewrite E.
  - intros t v Ht. apply lookup_singleton_Some in Ht as [<- _]. intros (i & Hi & Hu & E).
    cbn [frames demo_machine base_addr total_pages] in *. unfold FRAME_SIZE in E.
    by replace i with 0 in Hu by lia.
  - split; [exact Hinv |]. cbn. unfold FRAME_SIZE. lia.
  - done.
  - cbn. unfold PAGE_SIZE. lia.
Qed.

Lemma kernel_flags_ok : flags_ok 3.
Proof. split; [split; lia | done]. Qed.

Lemma user_flags_ok : flags_ok PTE_USER.
Proof. split; [split; [done | by vm_compute] | done]. Qed.


(** Writing into a large page taken for a page table changes no translation. *)
Lemma large_page_untouched (m : mem) (root pdpt pdir frame va v : Z) :
  table_addr root -> table_addr pdpt -> table_addr pdir -> table_addr frame ->
  frame <> root -> frame <> pdpt -> frame <> pdir ->
  present (entry m root (idx 4 va)) = true -> Z.land (entry m root (idx 4 va)) PAGE_MASK = pdpt ->
  present (entry m pdpt (idx 3 va)) = true -> Z.land (entry m pdpt (idx 3 va)) PAGE_MASK = pdir ->
  present (entry m pdir (idx 2 va)) = true -> huge (entry m pdir (idx 2 va)) = true ->
  translate (set_entry m frame (idx 1 va) v) root va = translate m root va.
Proof.
  intros T1 T2 T3 T4 N1 N2 N3 P1 M1 P2 M2 P3 H3.
  assert (Hent : forall t i, table_addr t -> frame <> t -> 0 <= i < 512 ->
    entry (set_entry m frame (idx 1 va) v) t i = entry m t i).
  { intros t i Ht Hne Hi. apply entry_set_ne; try done; [apply idx_bound | by left]. }
  unfold translate. cbn [walk Nat.eqb Nat.leb]. rewrite !Hent by (done || apply idx_bound).
  rewrite P1, M1. cbn [negb]. rewrite andb_false_r. rewrite !Hent by (done || apply idx_bound).
  rewrite P2, M2. cbn [negb]. destruct (huge (entry m pdpt (idx 3 va))); [done |].
  cbn [andb]. rewrite !Hent by (done || apply idx_bound). by rewrite P3, H3.
Qed.

(** Where the page directory maps a 2 MiB page (as the boot tables do for the whole
    identity map), [paging_map_page] takes the large page for a page table: it reports
    success, the translation of the address does not change, and eight bytes of the
    data in the large page are overwritten with the new entry. *)
Theorem paging_map_page_over_large (s : machine) (root pdpt pdir frame va pa flags : Z) :
  table_addr root -> table_addr pdpt -> table_addr pdir -> table_addr frame ->
  frame <> root -> frame <> pdpt -> frame <> pdir -> flags_ok flags ->
  present (entry (pmem s) root (idx 4 va)) = true ->
  Z.land (entry (pmem s) root (idx 4 va)) PAGE_MASK = pdpt ->
  present (entry (pmem s) pdpt (idx 3 va)) = true ->
  Z.land (entry (pmem s) pdpt (idx 3 va)) PAGE_MASK = pdir ->
  present (entry (pmem s) pdir (idx 2 va)) = true ->
  huge (entry (pmem s) pdir (idx 2 va)) = true ->
  Z.land (entry (pmem s) pdir (idx 2 va)) PAGE_MASK = frame ->
  exists s', paging_map_page s root va pa flags = Ret (0, s') /\
    translate (pmem s') root va = translate (pmem s) root va /\
    ld64 (pmem s') (frame + 8 * PT_INDEX va) =
      Z.lor (Z.land pa PAGE_MASK) (Z.lor flags (Z.lor PTE_PRESENT PTE_WRITABLE)).
Proof.
  intros T1 T2 T3 T4 N1 N2 N3 Hf P1 M1 P2 M2 P3 H3 M3.
  unfold paging_map_page, get_next_level. rewrite PML4_INDEX_idx, PDPT_INDEX_idx, PD_INDEX_idx, PT_INDEX_idx.
  pose proof T1 as [_ B1]. pose proof T2 as [_ B2]. pose proof T3 as [_ B3]. pose proof T4 as [_ B4].
  replace (root =? 0) with false by lia. rewrite P1, M1. cbn [negb obind].
  replace (pdpt =? 0) with false by lia. rewrite P2, M2. cbn [negb obind].
  replace (pdir =? 0) with false by lia. rewrite P3, M3. cbn [negb obind].
  replace (frame =? 0) with false by lia.
  eexists. split; [reflexivity |]. cbn [pmem with_pmem].
  split.
  - by apply (large_page_untouched (pmem s) root pdpt pdir frame).
  - apply load_store_eq. destruct Hf as (Hf & _ & _). simpl.
    repeat apply lor_fits; try lia; [| done | fits_tac | fits_tac].
    apply land_fits_r; [lia | fits_tac].
Qed.

(** The boot tables: one PML4 entry, one PDPT entry, and 2 MiB pages. *)
Definition boot_mem : mem :=
  set_entry (set_entry (set_entry (fun _ => 0) 0x1000 0 0x2007) 0x2000 0 0x3007) 0x3000 2 0x400083.

Lemma paging_map_page_over_large_witness :
  let s := mk_machine boot_mem (mk_pmm [0x01; 0x00] 0x100000 16 1) 0x1000 16 true 0x1000 in
  exists s', paging_map_page s 0x1000 0x5A7123 0xABC000 3 = Ret (0, s') /\
    translate (pmem s') 0x1000 0x5A7123 = Some (0x5A7123, 0x83) /\
    ld64 (pmem s') (0x400000 + 8 * 0x1A7) = 0xABC003.
Proof.
  intros s.
  destruct (paging_map_page_over_large s 0x1000 0x2000 0x3000 0x400000 0x5A7123 0xABC000 3)
    as (s' & E & H1 & H2); try (split; [reflexivity | lia]); try lia; try reflexivity.
  { exact kernel_flags_ok. }
  exists s'. split; [exact E |]. split; [rewrite H1; reflexivity | exact H2].
Defined.

(** * Unmapping *)

Lemma walk_blocked (l : nat) (m : mem) (t va : Z) :
  present (entry m t (idx (S l) va)) = false -> walk (S l) m t va = None.
Proof. intros E. cbn [walk]. by rewrite E. Qed.

(** One descent without allocation: it stops where the walk stops. *)
Lemma next_level_lookup (s : machine) (root : Z) own (t pre va : Z) (l : nat) :
  tables_wf s root own -> own !! t = Some (S (S l), pre) ->
  (get_next_level s t (idx (S (S l)) va) 0 false = Ret (0, s) /\ walk (S (S l)) (pmem s) t va = None) \/
  (exists t', get_next_level s t (idx (S (S l)) va) 0 false = Ret (t', s) /\ t' <> 0 /\
     own !! t' = Some (S l, pre * 512 + idx (S (S l)) va) /\
     walk (S (S l)) (pmem s) t va =
       prod_map id (restrict (entry (pmem s) t (idx (S (S l)) va))) <$> walk (S l) (pmem s) t' va /\
     present (entry (pmem s) t (idx (S (S l)) va)) = true /\
     Z.land (entry (pmem s) t (idx (S (S l)) va)) PAGE_MASK = t').
Proof.
  intros Hw Ht. unfold get_next_level.
  destruct (present (entry (pmem s) t (idx (S (S l)) va))) eqn:Ep; cbn [negb].
  - right. pose proof (walk_step s root own t pre va (S l) Hw Ht ltac:(lia) Ep) as Hs.
    destruct (tw_child _ _ _ Hw t (S l) pre _ Ht ltac:(lia) (idx_bound _ _) Ep) as [_ Hc].
    destruct (tw_tab _ _ _ Hw _ _ _ Hc) as [[_ Hb] _].
    eexists. split_and!; [done | lia | done | done | done | done].
  - left. split; [done |]. by apply walk_blocked.
Qed.

(** C7: on well-formed tables without large pages, [paging_unmap_page] never fails;
    afterwards the page of [va] has no translation, every other page keeps its own, and
    the tables stay well-formed.  Inside a large page it does not unmap
    ([paging_unmap_page_over_large]). *)
Theorem paging_unmap_page_spec (s : machine) (root : Z) own (va : Z) :
  tables_wf s root own ->
  exists s', paging_unmap_page s root va = Ret s' /\ tables_wf s' root own /\
    translate (pmem s') root va = None /\
    forall va', prefix 0 va' <> prefix 0 va ->
      translate (pmem s') root va' = translate (pmem s) root va'.
Proof.
  intros Hw. pose proof (tw_root _ _ _ Hw) as Hr0. destruct (tw_tab _ _ _ Hw _ _ _ Hr0) as [[_ Hroot] _].
  unfold paging_unmap_page. replace (root =? 0) with false by lia.
  rewrite PML4_INDEX_idx, PDPT_INDEX_idx, PD_INDEX_idx, PT_INDEX_idx.
  destruct (next_level_lookup s root own root 0 va 2 Hw Hr0) as [[-> Hn] | (t1 & -> & N1 & L1 & K1 & P1 & M1)];
    cbn [obind]; [by exists s |]. replace (t1 =? 0) with false by lia.
  destruct (next_level_lookup s root own t1 _ va 1 Hw L1) as [[-> Hn] | (t2 & -> & N2 & L2 & K2 & P2 & M2)];
    cbn [obind]; [exists s; split_and!; try done; unfold translate; by rewrite K1, Hn |].
  replace (t2 =? 0) with false by lia.
  destruct (next_level_lookup s root own t2 _ va 0 Hw L2) as [[-> Hn] | (t3 & -> & N3 & L3 & K3 & P3 & M3)];
    cbn [obind]; [exists s; split_and!; try done; unfold translate; by rewrite K1, K2, Hn |].
  replace (t3 =? 0) with false by lia.
  assert (O3 : own !! t3 = Some (1%nat, prefix 1 va)).
  { rewrite L3. rewrite <- (prefix_4 va). rewrite <- (prefix_child 3 va) by lia.
    rewrite <- (prefix_child 2 va) by lia. by rewrite <- (prefix_child 1 va) by lia. }
  destruct (walk_leaf_other s root own t3 va 0 Hw O3) as [W' Ho].
  set (s' := with_pmem s _) in *. exists s'. split_and!; [done | exact W' | |].
  - assert (Eu : forall t l pre i, own !! t = Some (S l, pre) -> (1 <= l)%nat -> 0 <= i < 512 ->
      entry (pmem s') t i = entry (pmem s) t i).
    { intros t l pre i Ht Hl Hi. destruct (tw_tab _ _ _ Hw _ _ _ Ht) as [Hta _].
      destruct (tw_tab _ _ _ Hw _ _ _ O3) as [Hta3 _].
      apply entry_set_ne; try done; [apply idx_bound |]. left. intros ->. rewrite Ht in O3. injection O3. lia. }
    pose proof (Eu _ _ _ _ Hr0 ltac:(lia) (idx_bound 4 va)) as E1.
    pose proof (Eu _ _ _ _ L1 ltac:(lia) (idx_bound 3 va)) as E2.
    pose proof (Eu _ _ _ _ L2 ltac:(lia) (idx_bound 2 va)) as E3.
    unfold translate.
    rewrite (walk_step _ _ _ _ _ va 3 W' Hr0), E1, M1 by (lia || by rewrite E1).
    rewrite (walk_step _ _ _ _ _ va 2 W' L1), E2, M2 by (lia || by rewrite E2).
    rewrite (walk_step _ _ _ _ _ va 1 W' L2), E3, M3 by (lia || by rewrite E3).
    rewrite walk_absent; [done |]. apply entry_set_eq. by split.
  - intros va' Hne. unfold translate. apply Ho; [done |]. rewrite prefix_4. apply Hw.
Qed.

(** The machine with one page mapped. *)
Definition demo_mapped : machine :=
  match paging_map_page demo_machine 0x100000 0x12345678 0xABC000 PTE_USER with
  | Ret (_, s) => s
  | _ => demo_machine
  end.

Lemma demo_mapped_wf :
  (exists own, tables_wf demo_mapped 0x100000 own) /\
  translate (pmem demo_mapped) 0x100000 0x12345678 = Some (0xABC678, 7).
Proof.
  pose proof (map_page_installs demo_machine 0x100000 _ 0x12345678 0xABC000 PTE_USER
                demo_machine_wf user_flags_ok) as Hk.
  unfold demo_mapped.
  destruct (paging_map_page demo_machine 0x100000 0x12345678 0xABC000 PTE_USER) as [[r s'] | |].
  - destruct Hk as (_ & Hw & Ht & _). split; [exact Hw | exact Ht].
  - cbn in Hk. lia.
  - done.
Qed.

Lemma paging_unmap_page_spec_witness :
  translate (pmem demo_mapped) 0x100000 0x12345678 = Some (0xABC678, 7) /\
  exists s', paging_unmap_page demo_mapped 0x100000 0x12345678 = Ret s' /\
    translate (pmem s') 0x100000 0x12345678 = None.
Proof.
  destruct demo_mapped_wf as [[own Hw] Ht]. split; [exact Ht |].
  destruct (paging_unmap_page_spec demo_mapped 0x100000 own 0x12345678 Hw) as (s' & E & _ & H & _).
  exists s'. split; [exact E | exact H].
Defined.

(** Inside a 2 MiB page [paging_unmap_page] leaves the translation as it is and zeroes
    eight bytes of the data in the page. *)
Theorem paging_unmap_page_over_large (s : machine) (root pdpt pdir frame va : Z) :
  table_addr root -> table_addr pdpt -> table_addr pdir -> table_addr frame ->
  frame <> root -> frame <> pdpt -> frame <> pdir ->
  present (entry (pmem s) root (idx 4 va)) = true ->
  Z.land (entry (pmem s) root (idx 4 va)) PAGE_MASK = pdpt ->
  present (entry (pmem s) pdpt (idx 3 va)) = true ->
  Z.land (entry (pmem s) pdpt (idx 3 va)) PAGE_MASK = pdir ->
  present (entry (pmem s) pdir (idx 2 va)) = true ->
  huge (entry (pmem s) pdir (idx 2 va)) = true ->
  Z.land (entry (pmem s) pdir (idx 2 va)) PAGE_MASK = frame ->
  exists s', paging_unmap_page s root va = Ret s' /\
    translate (pmem s') root va = translate (pmem s) root va /\
    ld64 (pmem s') (frame + 8 * PT_INDEX va) = 0.
Proof.
  intros T1 T2 T3 T4 N1 N2 N3 P1 M1 P2 M2 P3 H3 M3.
  unfold paging_unmap_page, get_next_level. rewrite PML4_INDEX_idx, PDPT_INDEX_idx, PD_INDEX_idx, PT_INDEX_idx.
  pose proof T1 as [_ B1]. pose proof T2 as [_ B2]. pose proof T3 as [_ B3]. pose proof T4 as [_ B4].
  replace (root =? 0) with false by lia. rewrite P1, M1. cbn [negb obind].
  replace (pdpt =? 0) with false by lia. rewrite P2, M2. cbn [negb obind].
  replace (pdir =? 0) with false by lia. rewrite P3, M3. cbn [negb obind].
  replace (frame =? 0) with false by lia.
  eexists. split; [reflexivity |]. cbn [pmem with_pmem]. split.
  - by apply (large_page_untouched (pmem s) root pdpt pdir frame).
  - apply load_store_eq. by split.
Qed.

Lemma paging_unmap_page_over_large_witness :
  let s := mk_machine boot_mem (mk_pmm [0x01; 0x00] 0x100000 16 1) 0x1000 16 true 0x1000 in
  exists s', paging_unmap_page s 0x1000 0x5A7123 = Ret s' /\
    translate (pmem s') 0x1000 0x5A7123 = Some (0x5A7123, 0x83).
Proof.
  intros s.
  destruct (paging_unmap_page_over_large s 0x1000 0x2000 0x3000 0x400000 0x5A7123)
    as (s' & E & H1 & H2); try (split; [reflexivity | lia]); try lia; try reflexivity.
  exists s'. split; [exact E |]. rewrite H1. reflexivity.
Defined.

(** * The machine as the heap's memory manager *)

Lemma next_level_frames (s : machine) (t i flags : Z) (al : bool) (t' : Z) (s' : machine) :
  pmm_inv_4g (frames s) -> get_next_level s t i flags al = Ret (t', s') ->
  pmm_inv_4g (frames s') /\ kernel_pml4 s' = kernel_pml4 s /\
  forall f, frame_free (frames s') f -> frame_free (frames s) f.
Proof.
  intros Hi E. unfold get_next_level in E.
  destruct (negb (present _)); [| by injection E as <- <-].
  destruct al; cbn [negb] in E; [| by injection E as <- <-].
  pose proof (alloc_frame_cases s Hi) as Ha. destruct (alloc_frame s) as [n s1].
  destruct Ha as (Es & Hi1 & _ & _ & Hmono & _). destruct (n =? 0); [done |].
  injection E as <- <-. cbn [frames with_pmem kernel_pml4]. split; [done |]. split; [by rewrite Es | done].
Qed.

Definition map_kernel_page (s : machine) (va pa flags : Z) : outcome machine :=
  (do '(_, s') <- paging_map_page s (paging_get_kernel_cr3 s) va pa flags; Ret s')%out.

Lemma map_kernel_page_frames (s s' : machine) (va pa flags : Z) :
  pmm_inv_4g (frames s) -> map_kernel_page s va pa flags = Ret s' ->
  pmm_inv_4g (frames s') /\ forall f, frame_free (frames s') f -> frame_free (frames s) f.
Proof.
  intros Hi E. unfold map_kernel_page, paging_map_page in E. inv_ret. destruct a as [r s1]. inv_ret.
  destruct (paging_get_kernel_cr3 s =? 0); [by injection E0 as <- <- |].
  inv_ret. destruct a as [t1 s2].
  destruct (next_level_frames _ _ _ _ _ _ _ Hi E) as (Hi2 & _ & Hm2).
  destruct (t1 =? 0); [by injection E0 as <- <- |]. inv_ret. destruct a as [t2 s3].
  destruct (next_level_frames _ _ _ _ _ _ _ Hi2 E1) as (Hi3 & _ & Hm3).
  destruct (t2 =? 0); [injection E0 as <- <-; auto |]. inv_ret. destruct a as [t3 s4].
  destruct (next_level_frames _ _ _ _ _ _ _ Hi3 E2) as (Hi4 & _ & Hm4).
  destruct (t3 =? 0); injection E0 as <- <-; cbn [frames with_pmem]; auto.
Qed.

Definition machine_alloc_range (s : machine) (n : Z) : option Z * machine :=
  let '(r, f) := alloc_range_addr (frames s) n in (r, with_frames s f).

#[export, refine] Instance machine_page_allocator : PageAllocator machine := {
  pa_inv := fun s => pmm_inv_4g (frames s);
  pa_free := fun s => frame_free (frames s);
  pa_alloc_range := machine_alloc_range
}.
Proof.
  - intros s n Hi Hn. unfold machine_alloc_range. pose proof (alloc_range_inv_4g _ n Hi Hn).
    by destruct (alloc_range_addr (frames s) n).
  - intros s n Hi Hn. unfold machine_alloc_range. pose proof (alloc_range_fail _ n Hi Hn) as H.
    destruct (alloc_range_addr (frames s) n) as [r f]. cbn [fst snd] in *. intros E.
    rewrite (H E). by destruct s.
  - intros s n a Hi Hn. unfold machine_alloc_range. pose proof (alloc_range_fresh _ n a Hi Hn) as H.
    by destruct (alloc_range_addr (frames s) n) as [r f].
Defined.

#[export, refine] Instance machine_kernel_vm : KernelVm machine := {
  vm_map_page := map_kernel_page
}.
Proof.
  - intros s va pa flags s' Hi E. by apply (map_kernel_page_frames _ _ _ _ _ Hi E).
  - intros s va pa flags s' f Hi E. by apply (map_kernel_page_frames _ _ _ _ _ Hi E).
Defined.
