(* ===== verification/Heap.v ===== *)
(** The kernel heap, src/kernel/mm/heap.c: a doubly linked list of blocks, each with
    a 40-byte header in front of its payload, in the byte memory of LibMem.v.
    This file holds the operations; HeapRep.v the representation invariant and
    HeapSpec.v the properties. *)

From S2P Require Import Prelude LibMem PageAlloc.

Definition ALIGN : Z := 8.
Definition MAGIC : Z := 0xB16B00B5.
Definition SIZE_MAX : Z := 18446744073709551615.
Definition HEAP_MAX_SIZE : Z := 512 * 1024 * 1024.
Definition NULL : Z := 0.

(** [sizeof(block_header_t)]: u32 at 0, size at 8, int at 16, two pointers at 24
    and 32. *)
Definition HDR : Z := 40.
Definition MIN_SPLIT_SIZE : Z := HDR + ALIGN.

(** * Block headers in memory *)

Record block_header := mk_header {
  magic : Z; size : Z; free_flag : Z; prev : Z; next : Z
}.

Definition rd_hdr (m : mem) (h : Z) : block_header :=
  mk_header (ld32 m h) (ld64 m (h + 8)) (ld32 m (h + 16)) (ld64 m (h + 24)) (ld64 m (h + 32)).

Definition set_magic (m : mem) (h v : Z) : mem := st32 m h v.
Definition set_size (m : mem) (h v : Z) : mem := st64 m (h + 8) v.
Definition set_free (m : mem) (h v : Z) : mem := st32 m (h + 16) v.
Definition set_prev (m : mem) (h v : Z) : mem := st64 m (h + 24) v.
Definition set_next (m : mem) (h v : Z) : mem := st64 m (h + 32) v.

Definition is_free (m : mem) (h : Z) : bool := negb (free_flag (rd_hdr m h) =? 0).

Definition align_up (n : Z) : Z := Z.land (u64 (n + (ALIGN - 1))) (wnot 64 (ALIGN - 1)).

Definition header_to_payload (h : Z) : Z := u64 (h + HDR).
Definition payload_to_header (p : Z) : Z := u64 (p - HDR).

Section heap.
Context {S : Type} `{KernelVm S}.

(** The file's globals, the byte memory, and the memory manager below. *)
Record heap := mk_heap {
  hmem : mem;
  heap_head : Z;
  heap_tail : Z;
  heap_start_virt : Z;
  heap_end_virt : Z;
  heap_current_size : Z;
  vm : S
}.

Definition with_mem (h : heap) (m : mem) : heap :=
  mk_heap m (heap_head h) (heap_tail h) (heap_start_virt h) (heap_end_virt h)
    (heap_current_size h) (vm h).

Definition with_tail (h : heap) (t : Z) : heap :=
  mk_heap (hmem h) (heap_head h) t (heap_start_virt h) (heap_end_virt h)
    (heap_current_size h) (vm h).

(** The loop of [heap_expand] that maps the new pages; the result of
    [paging_map_page] is not looked at. *)
Definition map_new_pages (s : S) (virt phys : Z) (pages : Z) : outcome S :=
  ofor_from 0 (Z.to_nat pages)
    (fun i s => vm_map_page s (add64 virt (i * FRAME_SIZE)) (add64 phys (i * FRAME_SIZE))
                  (Z.lor PTE_PRESENT PTE_WRITABLE)) s.

Definition pages_for (bytes : Z) : Z :=
  let need := align_up (add64 bytes HDR) in
  u64 (need + FRAME_SIZE - 1) / FRAME_SIZE.

(** [heap_expand] *)
Definition heap_expand (h : heap) (bytes : Z) : outcome (bool * heap) :=
  (let pages_needed := pages_for bytes in
   let expand_size := u64 (pages_needed * FRAME_SIZE) in
   if HEAP_MAX_SIZE <? add64 (heap_current_size h) expand_size then Ret (false, h)
   else
     match pa_alloc_range (vm h) (u32 pages_needed) with
     | (None, vm') =>
         Ret (false, mk_heap (hmem h) (heap_head h) (heap_tail h) (heap_start_virt h)
                       (heap_end_virt h) (heap_current_size h) vm')
     | (Some phys, vm') =>
         let virt := heap_end_virt h in
         do vm'' <- map_new_pages vm' virt phys pages_needed;
         let m := set_magic (hmem h) virt MAGIC in
         let m := set_free m virt 1 in
         let m := set_size m virt (sub64 expand_size HDR) in
         let m := set_prev m virt (heap_tail h) in
         let m := set_next m virt NULL in
         let m := if negb (heap_tail h =? NULL) then set_next m (heap_tail h) virt else m in
         let hd := if negb (heap_tail h =? NULL) then heap_head h else virt in
         Ret (true, mk_heap m hd virt (heap_start_virt h) (add64 (heap_end_virt h) expand_size)
                      (add64 (heap_current_size h) expand_size) vm'')
     end)%out.

(** [malloc_init] *)
Definition malloc_init (h : heap) (heap_start heap_size : Z) : Z * heap :=
  if (heap_start =? NULL) || (heap_size <? HDR) then (-1, h)
  else
    let m := set_magic (hmem h) heap_start MAGIC in
    let m := set_size m heap_start (sub64 heap_size HDR) in
    let m := set_free m heap_start 1 in
    let m := set_next m heap_start NULL in
    let m := set_prev m heap_start NULL in
    (0, mk_heap m heap_start heap_start heap_start (add64 heap_start heap_size) heap_size (vm h)).

(** [find_fit]: the walk along [next] runs on fuel; every block takes at least
    [HDR] bytes, so [heap_fuel] bounds the length of a well-formed list, and a walk
    that exhausts it is a walk that need not end ([Crash]). *)
Fixpoint find_from (fuel : nat) (m : mem) (cur sz : Z) : outcome Z :=
  match fuel with
  | O => Crash
  | Datatypes.S fuel' =>
      if cur =? NULL then Ret NULL
      else if is_free m cur && (sz <=? size (rd_hdr m cur)) then Ret cur
      else find_from fuel' m (next (rd_hdr m cur)) sz
  end.

Definition heap_fuel (h : heap) : nat := Z.to_nat (heap_current_size h / HDR + 1).

Definition find_fit (h : heap) (sz : Z) : outcome Z :=
  find_from (heap_fuel h) (hmem h) (heap_head h) sz.

(** [split_block] *)
Definition split_block (hp : heap) (h req_size : Z) : heap :=
  if h =? NULL then hp
  else if size (rd_hdr (hmem hp) h) <? add64 req_size MIN_SPLIT_SIZE then hp
  else
    let m := hmem hp in
    let newh := add64 (header_to_payload h) req_size in
    let m := set_magic m newh MAGIC in
    let m := set_free m newh 1 in
    let m := set_size m newh (sub64 (sub64 (size (rd_hdr m h)) req_size) HDR) in
    let m := set_prev m newh h in
    let m := set_next m newh (next (rd_hdr m h)) in
    let m := if negb (next (rd_hdr m newh) =? NULL)
             then set_prev m (next (rd_hdr m newh)) newh else m in
    let m := set_next m h newh in
    let m := set_size m h req_size in
    let hp := with_mem hp m in
    if heap_tail hp =? h then with_tail hp newh else hp.

(** The two halves of [coalesce]: absorb the next block, and be absorbed by the
    previous one. *)
Definition coalesce_next (hp : heap) (h : Z) : heap :=
  let m := hmem hp in
  let n := next (rd_hdr m h) in
  if negb (n =? NULL) && is_free m n then
    let m := set_size m h (add64 (add64 (size (rd_hdr m h)) HDR) (size (rd_hdr m n))) in
    let m := set_next m h (next (rd_hdr m n)) in
    let m := if negb (next (rd_hdr m n) =? NULL) then set_prev m (next (rd_hdr m n)) h else m in
    let hp := with_mem hp m in
    if heap_tail hp =? n then with_tail hp h else hp
  else hp.

Definition coalesce_prev (hp : heap) (h : Z) : heap :=
  let m := hmem hp in
  let p := prev (rd_hdr m h) in
  if negb (p =? NULL) && is_free m p then
    let m := set_size m p (add64 (add64 (size (rd_hdr m p)) HDR) (size (rd_hdr m h))) in
    let m := set_next m p (next (rd_hdr m h)) in
    let m := if negb (next (rd_hdr m h) =? NULL) then set_prev m (next (rd_hdr m h)) p else m in
    let hp := with_mem hp m in
    if heap_tail hp =? h then with_tail hp p else hp
  else hp.

Definition coalesce (hp : heap) (h : Z) : heap :=
  if h =? NULL then hp else coalesce_prev (coalesce_next hp h) h.

(** The retry loop of [malloc]: [left] expansions may still be tried. *)
Fixpoint malloc_retry (left : nat) (hp : heap) (fit sz : Z) : outcome (Z * heap) :=
  (if negb (fit =? NULL) then Ret (fit, hp)
   else match left with
        | O => Panic
        | Datatypes.S left' =>
            do '(ok, hp') <- heap_expand hp sz;
            if negb ok then Panic
            else do fit' <- find_fit hp' sz; malloc_retry left' hp' fit' sz
        end)%out.

(** [malloc]; NULL is 0. *)
Definition malloc (hp : heap) (sz : Z) : outcome (Z * heap) :=
  (if sz =? 0 then Ret (NULL, hp)
   else
     let sz := align_up sz in
     do fit <- find_fit hp sz;
     do '(fit, hp) <- malloc_retry 10 hp fit sz;
     let hp := split_block hp fit sz in
     let hp := with_mem hp (set_free (hmem hp) fit 0) in
     Ret (header_to_payload fit, hp))%out.

(** [free] *)
Definition free (hp : heap) (ptr : Z) : outcome heap :=
  if ptr =? NULL then Ret hp
  else
    let h := payload_to_header ptr in
    if negb (magic (rd_hdr (hmem hp) h) =? MAGIC) then Panic
    else if is_free (hmem hp) h then Panic
    else Ret (coalesce (with_mem hp (set_free (hmem hp) h 1)) h).

(** [realloc] *)
Definition realloc (hp : heap) (ptr new_size : Z) : outcome (Z * heap) :=
  (if ptr =? NULL then malloc hp new_size
   else if new_size =? 0 then do hp <- free hp ptr; Ret (NULL, hp)
   else
     let h := payload_to_header ptr in
     if negb (magic (rd_hdr (hmem hp) h) =? MAGIC) then Ret (NULL, hp)
     else
       let new_size := align_up new_size in
       if new_size <=? size (rd_hdr (hmem hp) h) then Ret (ptr, split_block hp h new_size)
       else
         do '(newp, hp) <- malloc hp new_size;
         if newp =? NULL then Ret (NULL, hp)
         else
           let m := memcpy (hmem hp) newp ptr (Z.to_nat (size (rd_hdr (hmem hp) h))) in
           do hp <- free (with_mem hp m) ptr;
           Ret (newp, hp))%out.

(** [calloc] *)
Definition calloc (hp : heap) (nmemb sz : Z) : outcome (Z * heap) :=
  (if negb (nmemb =? 0) && (SIZE_MAX / nmemb <? sz) then Ret (NULL, hp)
   else
     let total_size := u64 (nmemb * sz) in
     if total_size =? 0 then Ret (NULL, hp)
     else
       do '(ptr, hp) <- malloc hp total_size;
       if ptr =? NULL then Ret (NULL, hp)
       else Ret (ptr, with_mem hp (memset (hmem hp) ptr 0 (Z.to_nat total_size))))%out.

(** [get_kmalloc_stats] *)
Record kmalloc_stats := mk_stats {
  total_managed : Z; used_payload : Z; free_payload : Z; largest_free : Z;
  num_blocks : Z; num_used : Z; num_free : Z
}.

Definition stats_step (st : kmalloc_stats) (m : mem) (cur : Z) : kmalloc_stats :=
  let s := size (rd_hdr m cur) in
  if is_free m cur then
    mk_stats (u64 (total_managed st + (HDR + s))) (used_payload st) (u64 (free_payload st + s))
      (if largest_free st <? s then s else largest_free st)
      (u64 (num_blocks st + 1)) (num_used st) (u64 (num_free st + 1))
  else
    mk_stats (u64 (total_managed st + (HDR + s))) (u64 (used_payload st + s)) (free_payload st)
      (largest_free st) (u64 (num_blocks st + 1)) (u64 (num_used st + 1)) (num_free st).

Fixpoint stats_from (fuel : nat) (m : mem) (cur : Z) (st : kmalloc_stats) : outcome kmalloc_stats :=
  match fuel with
  | O => Crash
  | Datatypes.S fuel' =>
      if cur =? NULL then Ret st
      else stats_from fuel' m (next (rd_hdr m cur)) (stats_step st m cur)
  end.

Definition get_kmalloc_stats (hp : heap) : outcome kmalloc_stats :=
  stats_from (heap_fuel hp) (hmem hp) (heap_head hp) (mk_stats 0 0 0 0 0 0 0).

(** [malloc_aligned] and [free_aligned]: the original pointer is kept in the word
    before the aligned address. *)
Definition malloc_aligned (hp : heap) (sz alignment : Z) : outcome (Z * heap) :=
  (let alignment := if alignment <? ALIGN then ALIGN else alignment in
   if negb (Z.land alignment (sub64 alignment 1) =? 0) then Ret (NULL, hp)
   else
     let total_size := u64 (u64 (sz + alignment) - 1 + 8) in
     do '(original_ptr, hp) <- malloc hp total_size;
     if original_ptr =? NULL then Ret (NULL, hp)
     else
       let addr := add64 original_ptr 8 in
       let aligned_addr := Z.land (sub64 (add64 addr alignment) 1) (wnot 64 (sub64 alignment 1)) in
       let m := st64 (hmem hp) (sub64 aligned_addr 8) original_ptr in
       Ret (aligned_addr, with_mem hp m))%out.

Definition free_aligned (hp : heap) (ptr : Z) : outcome heap :=
  if ptr =? NULL then Ret hp
  else free hp (ld64 (hmem hp) (sub64 ptr 8)).

End heap.

Arguments heap S : clear implicits.
Arguments mk_heap {S} _ _ _ _ _ _ _.
