(* ===== verification/HeapRep.v ===== *)
(** The representation invariant of the kernel heap (Heap.v): the blocks form a
    doubly linked list in memory that tiles the heap's address range without gap or
    overlap.  Every operation on the linked list is shown to be an operation on the
    abstract list of blocks. *)

From S2P Require Import Prelude LibMem PageAlloc Heap.

(** * Rounding *)

(** Clearing the low [k] bits rounds down to a multiple of [2 ^ k]. *)
Lemma land_wnot_pow2 (x k : Z) :
  0 <= k <= 64 -> fits 64 x -> Z.land x (wnot 64 (2 ^ k - 1)) = x / 2 ^ k * 2 ^ k.
Proof.
  intros Hk Hx. rewrite <- Z.shiftr_div_pow2, <- Z.shiftl_mul_pow2 by lia.
  by_bits i Hi. rewrite Z.land_spec, Z.shiftl_spec by lia. unfold wnot.
  rewrite wrap_testbit, Z.lnot_spec by lia.
  replace (2 ^ k - 1) with (Z.ones k) by (rewrite Z.ones_equiv; lia).
  destruct (Z.lt_ge_cases i k).
  - rewrite Z.ones_spec_low, (Z.testbit_neg_r _ (i - k)) by lia. by rewrite andb_false_r, andb_false_r.
  - rewrite Z.ones_spec_high, Z.shiftr_spec by lia. replace (i - k + k) with i by lia.
    destruct (Z.ltb_spec i 64); [by rewrite andb_true_r |].
    rewrite (fits_testbit 64 x) by (lia || done). done.
Qed.

Lemma align_up_eq (n : Z) : 0 <= n -> n + 7 < 2 ^ 64 -> align_up n = (n + 7) / 8 * 8.
Proof.
  intros H1 H2. unfold align_up, ALIGN. rewrite (wrap_small 64) by (split; lia).
  change (8 - 1) with (2 ^ 3 - 1). rewrite land_wnot_pow2 by (lia || (split; lia)). done.
Qed.

(** * Header reads and writes *)

Definition hdr_with_size (r : block_header) (v : Z) := mk_header (magic r) v (free_flag r) (prev r) (next r).
Definition hdr_with_free (r : block_header) (v : Z) := mk_header (magic r) (size r) v (prev r) (next r).
Definition hdr_with_prev (r : block_header) (v : Z) := mk_header (magic r) (size r) (free_flag r) v (next r).
Definition hdr_with_next (r : block_header) (v : Z) := mk_header (magic r) (size r) (free_flag r) (prev r) v.

Ltac ld_st :=
  repeat first [ rewrite load_store_eq by done | rewrite load_store_ne by lia ].

Lemma rd_set_size (m : mem) (h v : Z) :
  fits 64 v -> rd_hdr (set_size m h v) h = hdr_with_size (rd_hdr m h) v.
Proof. intros Hv. unfold rd_hdr, set_size, hdr_with_size. cbn [magic size free_flag prev next]. ld_st. done. Qed.

Lemma rd_set_free (m : mem) (h v : Z) :
  fits 32 v -> rd_hdr (set_free m h v) h = hdr_with_free (rd_hdr m h) v.
Proof. intros Hv. unfold rd_hdr, set_free, hdr_with_free. cbn [magic size free_flag prev next]. ld_st. done. Qed.

Lemma rd_set_prev (m : mem) (h v : Z) :
  fits 64 v -> rd_hdr (set_prev m h v) h = hdr_with_prev (rd_hdr m h) v.
Proof. intros Hv. unfold rd_hdr, set_prev, hdr_with_prev. cbn [magic size free_flag prev next]. ld_st. done. Qed.

Lemma rd_set_next (m : mem) (h v : Z) :
  fits 64 v -> rd_hdr (set_next m h v) h = hdr_with_next (rd_hdr m h) v.
Proof. intros Hv. unfold rd_hdr, set_next, hdr_with_next. cbn [magic size free_flag prev next]. ld_st. done. Qed.

(** [changes m m' P]: [m'] differs from [m] only at addresses in [P]. *)
Definition changes (m m' : mem) (P : Z -> Prop) : Prop :=
  forall i, ~ P i -> ldb m' i = ldb m i.

Definition in_hdr (h i : Z) : Prop := h <= i < h + HDR.

Lemma changes_refl (m : mem) (P : Z -> Prop) : changes m m P.
Proof. done. Qed.

Lemma changes_trans (m1 m2 m3 : mem) (P : Z -> Prop) :
  changes m1 m2 P -> changes m2 m3 P -> changes m1 m3 P.
Proof. intros H1 H2 i Hi. by rewrite H2, H1. Qed.

Lemma changes_mono (m m' : mem) (P Q : Z -> Prop) :
  (forall i, P i -> Q i) -> changes m m' P -> changes m m' Q.
Proof. intros HPQ H i Hi. apply H. auto. Qed.

Lemma store_changes (n : nat) (m : mem) (a v : Z) (P : Z -> Prop) :
  (forall i, a <= i < a + Z.of_nat n -> P i) -> changes m (store n m a v) P.
Proof.
  intros HP i Hi. rewrite ldb_store.
  destruct (_ && _) eqn:E; [| done]. exfalso. apply Hi, HP. lia.
Qed.

Lemma set_size_changes m h v : changes m (set_size m h v) (in_hdr h).
Proof. apply store_changes. unfold in_hdr, HDR. lia. Qed.
Lemma set_free_changes m h v : changes m (set_free m h v) (in_hdr h).
Proof. apply store_changes. unfold in_hdr, HDR. lia. Qed.
Lemma set_prev_changes m h v : changes m (set_prev m h v) (in_hdr h).
Proof. apply store_changes. unfold in_hdr, HDR. lia. Qed.
Lemma set_next_changes m h v : changes m (set_next m h v) (in_hdr h).
Proof. apply store_changes. unfold in_hdr, HDR. lia. Qed.
Lemma set_magic_changes m h v : changes m (set_magic m h v) (in_hdr h).
Proof. apply store_changes. unfold in_hdr, HDR. lia. Qed.

Create HintDb heap.
#[export] Hint Resolve set_size_changes set_free_changes set_prev_changes set_next_changes
  set_magic_changes : heap.

(** A header is unaffected by changes elsewhere. *)
Lemma rd_hdr_changes (m m' : mem) (P : Z -> Prop) (h : Z) :
  changes m m' P -> (forall i, in_hdr h i -> ~ P i) -> rd_hdr m' h = rd_hdr m h.
Proof.
  intros Hc HP. unfold rd_hdr.
  f_equal; apply load_ext; intros i Hi; apply Hc, HP; unfold in_hdr, HDR; lia.
Qed.

Lemma rd_hdr_far (m m' : mem) (a h : Z) :
  changes m m' (in_hdr a) -> h + HDR <= a \/ a + HDR <= h -> rd_hdr m' h = rd_hdr m h.
Proof. intros Hc Ha. apply (rd_hdr_changes _ _ _ _ Hc). unfold in_hdr in *. lia. Qed.

(** Writing a whole fresh header, field by field, in the order of the sources. *)
Lemma rd_new_hdr (m : mem) (h v p n : Z) :
  fits 64 v -> fits 64 p -> fits 64 n ->
  rd_hdr (set_next (set_prev (set_size (set_free (set_magic m h MAGIC) h 1) h v) h p) h n) h =
  mk_header MAGIC v 1 p n.
Proof.
  intros Hv Hp Hn. rewrite rd_set_next, rd_set_prev, rd_set_size, rd_set_free by (done || fits_tac).
  unfold hdr_with_next, hdr_with_prev, hdr_with_size, hdr_with_free. cbn [magic size free_flag prev next].
  f_equal. unfold rd_hdr, set_magic. cbn [magic]. rewrite load_store_eq; [done | fits_tac].
Qed.

Lemma elem_middle {A} (l1 l2 : list A) (x : A) : x ∈ l1 ++ x :: l2.
Proof. apply elem_of_app. right. by apply elem_of_cons; left. Qed.

(** * The abstract list of blocks *)

Record blk := mk_blk { b_addr : Z; b_size : Z; b_free : bool }.

Definition b_end (b : blk) : Z := b_addr b + HDR + b_size b.

#[export] Instance blk_eq_dec : EqDecision blk.
Proof. solve_decision. Defined.

Definition hd_addr (bs : list blk) (n : Z) : Z :=
  match bs with [] => n | b :: _ => b_addr b end.

Fixpoint last_addr (p : Z) (bs : list blk) : Z :=
  match bs with [] => p | b :: bs' => last_addr (b_addr b) bs' end.

(** A segment of the doubly linked list, entered from [p] and left to [n]. *)
Fixpoint dlseg (m : mem) (p : Z) (bs : list blk) (n : Z) : Prop :=
  match bs with
  | [] => True
  | b :: bs' =>
      rd_hdr m (b_addr b) =
        mk_header MAGIC (b_size b) (if b_free b then 1 else 0) p (hd_addr bs' n) /\
      dlseg m (b_addr b) bs' n
  end.

(** The blocks cover [a, e) one after the other. *)
Fixpoint tile (a : Z) (bs : list blk) (e : Z) : Prop :=
  match bs with
  | [] => a = e
  | b :: bs' => b_addr b = a /\ 0 <= b_size b /\ tile (a + HDR + b_size b) bs' e
  end.

Lemma tile_le (a e : Z) (bs : list blk) : tile a bs e -> a <= e.
Proof.
  revert a. induction bs as [|b bs IH]; intros a; cbn [tile]; [lia |].
  intros (Ha & Hs & H). apply IH in H. unfold HDR in *. lia.
Qed.

Lemma tile_app (a e : Z) (l1 l2 : list blk) :
  tile a (l1 ++ l2) e <-> exists c, tile a l1 c /\ tile c l2 e.
Proof.
  revert a. induction l1 as [|b l1 IH]; intros a; cbn [tile app].
  - split; [by exists a | by intros (c & -> & H)].
  - rewrite IH. naive_solver.
Qed.

Lemma tile_elem (a e : Z) (bs : list blk) (b : blk) :
  tile a bs e -> b ∈ bs -> a <= b_addr b /\ 0 <= b_size b /\ b_end b <= e.
Proof.
  revert a. induction bs as [|b' bs IH]; intros a; cbn [tile]; [by intros _ ?%elem_of_nil |].
  intros (Ha & Hs & H) [-> | Hin]%elem_of_cons.
  - apply tile_le in H. unfold b_end. lia.
  - apply IH in H; [| done]. unfold HDR in *. lia.
Qed.

Lemma tile_length (a e : Z) (bs : list blk) :
  tile a bs e -> HDR * Z.of_nat (length bs) <= e - a.
Proof.
  revert a. induction bs as [|b bs IH]; intros a; cbn [tile length]; [lia |].
  intros (Ha & Hs & H). apply IH in H. unfold HDR in *. lia.
Qed.

Lemma hd_addr_app (l1 l2 : list blk) (n : Z) : hd_addr (l1 ++ l2) n = hd_addr l1 (hd_addr l2 n).
Proof. by destruct l1. Qed.

Lemma last_addr_app (p : Z) (l1 l2 : list blk) :
  last_addr p (l1 ++ l2) = last_addr (last_addr p l1) l2.
Proof. revert p. induction l1 as [|b l1 IH]; intros p; simpl; auto. Qed.

Lemma dlseg_app (m : mem) (p n : Z) (l1 l2 : list blk) :
  dlseg m p (l1 ++ l2) n <-> dlseg m p l1 (hd_addr l2 n) /\ dlseg m (last_addr p l1) l2 n.
Proof.
  revert p. induction l1 as [|b l1 IH]; intros p; simpl; [tauto |].
  rewrite IH, hd_addr_app. tauto.
Qed.

(** [last_addr] is the address of a block of the segment. *)
Lemma last_addr_elem (p : Z) (bs : list blk) :
  bs <> [] -> exists b, b ∈ bs /\ last_addr p bs = b_addr b.
Proof.
  revert p. induction bs as [|b bs IH]; intros p Hne; [done |]. simpl.
  destruct bs as [|b' bs]; [exists b; split; [set_solver | done] |].
  destruct (IH (b_addr b) ltac:(done)) as (c & Hc & E). exists c. set_solver.
Qed.

Lemma dlseg_changes (m m' : mem) (p n a e : Z) (bs : list blk) (P : Z -> Prop) :
  tile a bs e -> changes m m' P ->
  (forall b i, b ∈ bs -> in_hdr (b_addr b) i -> ~ P i) ->
  dlseg m p bs n -> dlseg m' p bs n.
Proof.
  revert p a. induction bs as [|b bs IH]; intros p a; [done |]. cbn [tile dlseg].
  intros (Ha & Hs & Ht) Hc HP (H1 & H2). split.
  - rewrite (rd_hdr_changes m m' P); [done | done |]. intros i. apply HP. set_solver.
  - eapply IH; [done | done | | done]. intros b' i Hb'. apply HP. set_solver.
Qed.

(** Frame for a segment that lies apart from the changed range. *)
Lemma dlseg_far (m m' : mem) (p n a e lo hi : Z) (bs : list blk) :
  tile a bs e -> changes m m' (fun i => lo <= i < hi) -> e <= lo \/ hi <= a ->
  dlseg m p bs n -> dlseg m' p bs n.
Proof.
  intros Ht Hc Hd. eapply dlseg_changes; [done | done |].
  intros b i Hb Hi. pose proof (tile_elem _ _ _ _ Ht Hb). unfold in_hdr, b_end in *. lia.
Qed.

(** The first block of a segment gets a new predecessor. *)
Lemma dlseg_set_prev (m : mem) (p q a e : Z) (bs : list blk) :
  tile a bs e -> 0 < a -> fits 64 q -> dlseg m p bs NULL ->
  let m' := if negb (hd_addr bs NULL =? NULL) then set_prev m (hd_addr bs NULL) q else m in
  dlseg m' q bs NULL /\ changes m m' (fun i => bs <> [] /\ in_hdr a i).
Proof.
  intros Ht Ha Hq Hd. destruct bs as [|b bs]; [done |]. cbn [hd_addr].
  cbn [tile] in Ht. destruct Ht as (Hb & Hs & Ht). cbn [dlseg] in *. destruct Hd as [H1 H2].
  replace (negb (b_addr b =? NULL)) with true by (unfold NULL; lia). split_and!.
  - rewrite rd_set_prev, H1 by done. done.
  - eapply dlseg_far; [exact Ht | apply set_prev_changes | unfold HDR in *; lia | done].
  - eapply changes_mono; [| apply set_prev_changes]. intros i Hi. by rewrite <- Hb.
Qed.

(** The last block of a segment gets a new successor. *)
Lemma dlseg_set_next (m : mem) (p n n' a e : Z) (bs : list blk) :
  tile a bs e -> bs <> [] -> fits 64 n' -> dlseg m p bs n ->
  dlseg (set_next m (last_addr p bs) n') p bs n'.
Proof.
  revert p a. induction bs as [|b bs IH]; intros p a Ht Hne Hn Hd; [done |].
  cbn [tile] in Ht. destruct Ht as (Hb & Hs & Ht). cbn [dlseg last_addr] in *. destruct Hd as [H1 H2].
  destruct bs as [|b' bs].
  - split; [| done]. cbn [last_addr hd_addr] in *. rewrite rd_set_next, H1 by done. done.
  - destruct (last_addr_elem (b_addr b) (b' :: bs) ltac:(done)) as (c & Hc & E).
    pose proof (tile_elem _ _ _ _ Ht Hc) as Hin.
    split; [| by apply (IH _ _ Ht)].
    rewrite E, (rd_hdr_far m _ (b_addr c)); [done | apply set_next_changes | unfold HDR in *; lia].
Qed.

(** * The invariant *)

Section rep.
Context {S : Type} `{KernelVm S}.
Implicit Types (hp : heap S) (bs l : list blk) (b n : blk).

Record heap_rep hp bs : Prop := {
  hr_ne : bs <> [];
  hr_seg : dlseg (hmem hp) NULL bs NULL;
  hr_tile : tile (heap_start_virt hp) bs (heap_end_virt hp);
  hr_head : heap_head hp = heap_start_virt hp;
  hr_tail : heap_tail hp = last_addr NULL bs;
  hr_size : heap_current_size hp = heap_end_virt hp - heap_start_virt hp;
  hr_lo : MIN_SPLIT_SIZE <= heap_start_virt hp;
  hr_max : heap_current_size hp <= HEAP_MAX_SIZE;
  hr_hi : heap_start_virt hp + HEAP_MAX_SIZE < 2 ^ 64
}.

Lemma heap_rep_end hp bs : heap_rep hp bs -> heap_end_virt hp < 2 ^ 64.
Proof.
  intros Hr. pose proof (hr_hi _ _ Hr). pose proof (hr_max _ _ Hr). pose proof (hr_size _ _ Hr). lia.
Qed.

Lemma heap_rep_elem hp bs b :
  heap_rep hp bs -> b ∈ bs ->
  MIN_SPLIT_SIZE <= b_addr b /\ 0 <= b_size b /\ b_end b <= heap_end_virt hp /\ b_end b < 2 ^ 64.
Proof.
  intros Hr Hb. pose proof (tile_elem _ _ _ _ (hr_tile _ _ Hr) Hb).
  pose proof (hr_lo _ _ Hr). pose proof (heap_rep_end _ _ Hr). lia.
Qed.

(** The header of a block in the middle of the list. *)
Lemma heap_rep_hdr hp l1 b l2 :
  heap_rep hp (l1 ++ b :: l2) ->
  rd_hdr (hmem hp) (b_addr b) =
    mk_header MAGIC (b_size b) (if b_free b then 1 else 0) (last_addr NULL l1) (hd_addr l2 NULL).
Proof. intros Hr. by apply (proj2 (proj1 (dlseg_app _ _ _ _ _) (hr_seg _ _ Hr))). Qed.

Lemma heap_rep_hdr_elem hp bs b :
  heap_rep hp bs -> b ∈ bs ->
  magic (rd_hdr (hmem hp) (b_addr b)) = MAGIC /\
  size (rd_hdr (hmem hp) (b_addr b)) = b_size b /\
  is_free (hmem hp) (b_addr b) = b_free b.
Proof.
  intros Hr (l1 & l2 & ->)%list_elem_of_split. unfold is_free.
  rewrite (heap_rep_hdr hp l1 b l2 Hr). cbn. by destruct (b_free b).
Qed.

(** Two different blocks do not overlap. *)
Lemma tile_disjoint (a e : Z) bs b n :
  tile a bs e -> b ∈ bs -> n ∈ bs -> b_addr b <> b_addr n -> b_end b <= b_addr n \/ b_end n <= b_addr b.
Proof.
  revert a. induction bs as [|c bs IH]; intros a; cbn [tile]; [by intros _ ?%elem_of_nil |].
  intros (Ha & Hs & Ht) [-> | Hb]%elem_of_cons [-> | Hn]%elem_of_cons Hne; [done | | |].
  - pose proof (tile_elem _ _ _ _ Ht Hn). unfold b_end in *. lia.
  - pose proof (tile_elem _ _ _ _ Ht Hb). unfold b_end in *. lia.
  - by apply (IH _ Ht).
Qed.

Lemma tile_addr_inj (a e : Z) bs b n :
  tile a bs e -> b ∈ bs -> n ∈ bs -> b_addr b = b_addr n -> b = n.
Proof.
  revert a. induction bs as [|c bs IH]; intros a; cbn [tile]; [by intros _ ?%elem_of_nil |].
  intros (Ha & Hs & Ht) [-> | Hb]%elem_of_cons [-> | Hn]%elem_of_cons He; [done | | |].
  - pose proof (tile_elem _ _ _ _ Ht Hn). unfold b_end, HDR in *. lia.
  - pose proof (tile_elem _ _ _ _ Ht Hb). unfold b_end, HDR in *. lia.
  - by apply (IH _ Ht).
Qed.

(** Addresses inside some header of the list. *)
Definition in_hdrs bs (i : Z) : Prop := exists b, b ∈ bs /\ in_hdr (b_addr b) i.

Definition in_payload b (i : Z) : Prop := b_addr b + HDR <= i < b_end b.

Lemma payload_not_hdr (a e : Z) bs b i :
  tile a bs e -> b ∈ bs -> in_payload b i -> ~ in_hdrs bs i.
Proof.
  intros Ht Hb Hi (c & Hc & Hci). unfold in_payload, in_hdr in *.
  pose proof (tile_elem _ _ _ _ Ht Hc). pose proof (tile_elem _ _ _ _ Ht Hb).
  destruct (decide (b_addr b = b_addr c)) as [E | Hne]; [lia |].
  destruct (tile_disjoint _ _ _ _ _ Ht Hb Hc Hne); unfold b_end in *; lia.
Qed.

(** * First fit *)

Fixpoint a_find (sz : Z) bs : option blk :=
  match bs with
  | [] => None
  | b :: bs' => if b_free b && (sz <=? b_size b) then Some b else a_find sz bs'
  end.

Lemma a_find_some sz bs b :
  a_find sz bs = Some b <->
  exists l1 l2, bs = l1 ++ b :: l2 /\ b_free b = true /\ sz <= b_size b /\
    Forall (fun c => b_free c = true -> b_size c < sz) l1.
Proof.
  induction bs as [|c bs IH]; cbn [a_find].
  { split; [done |]. intros ([|? ?] & ? & ? & _); done. }
  destruct (b_free c && (sz <=? b_size c)) eqn:E.
  - split.
    + intros [= ->]. exists [], bs. split_and!; [done | lia | lia | constructor].
    + intros ([|d l1] & l2 & Heq & _ & _ & HF); [by simplify_eq/= |].
      simplify_eq/=. apply Forall_cons in HF as [HF _]. lia.
  - rewrite IH. split; intros (l1 & l2 & Heq & Hf & Hs & HF).
    + exists (c :: l1), l2. split_and!; [by subst | done | done |]. constructor; [lia | done].
    + destruct l1 as [|d l1]; simplify_eq/=; [lia |].
      apply Forall_cons in HF as [_ HF]. by exists l1, l2.
Qed.

Lemma a_find_none sz bs :
  a_find sz bs = None <-> Forall (fun c => b_free c = true -> b_size c < sz) bs.
Proof.
  induction bs as [|c bs IH]; cbn [a_find]; [by split |]. rewrite Forall_cons.
  destruct (b_free c && (sz <=? b_size c)) eqn:E; [split; [done | lia] |].
  rewrite IH. intuition lia.
Qed.

Lemma find_from_rep (fuel : nat) (m : mem) (p a e sz : Z) bs :
  dlseg m p bs NULL -> tile a bs e -> 0 < a -> (length bs < fuel)%nat ->
  find_from fuel m (hd_addr bs NULL) sz = Ret (from_option b_addr NULL (a_find sz bs)).
Proof.
  revert fuel p a. induction bs as [|b bs IH]; intros [|fuel] p a Hd Ht Ha Hf; cbn [length] in Hf;
    try lia; [done |].
  cbn [dlseg tile] in *. destruct Hd as [H1 H2], Ht as (Hb & Hs & Ht).
  cbn [find_from hd_addr a_find]. unfold is_free. rewrite !H1. cbn [free_flag size next].
  replace (b_addr b =? NULL) with false by (unfold NULL; lia).
  replace (negb ((if b_free b then 1 else 0) =? 0)) with (b_free b) by (by destruct (b_free b)).
  destruct (b_free b && (sz <=? b_size b)); [done |].
  eapply IH; [done | exact Ht | unfold HDR; lia | lia].
Qed.

Lemma heap_rep_head hp bs : heap_rep hp bs -> heap_head hp = hd_addr bs NULL.
Proof.
  intros Hr. rewrite (hr_head _ _ Hr). pose proof (hr_ne _ _ Hr). pose proof (hr_tile _ _ Hr) as Ht.
  destruct bs as [|b bs]; [done |]. cbn [tile] in Ht. destruct Ht as [Hb _]. by cbn [hd_addr].
Qed.

(** The fuel of the walk covers the list. *)
Lemma heap_rep_fuel hp bs : heap_rep hp bs -> (length bs < heap_fuel hp)%nat.
Proof.
  intros Hr. unfold heap_fuel. pose proof (tile_length _ _ _ (hr_tile _ _ Hr)) as Hl.
  rewrite (hr_size _ _ Hr). unfold HDR in *. dlia.
Qed.

Lemma find_fit_rep hp bs (sz : Z) :
  heap_rep hp bs -> find_fit hp sz = Ret (from_option b_addr NULL (a_find sz bs)).
Proof.
  intros Hr. unfold find_fit. rewrite (heap_rep_head _ _ Hr).
  eapply find_from_rep; [apply Hr | apply Hr | | by apply heap_rep_fuel].
  pose proof (hr_lo _ _ Hr). unfold MIN_SPLIT_SIZE, HDR, ALIGN in *. lia.
Qed.

(** * Merging two neighbours

    Both halves of [coalesce] perform this update. *)

Definition merge hp (a c : Z) : heap S :=
  let m := hmem hp in
  let m := set_size m a (add64 (add64 (size (rd_hdr m a)) HDR) (size (rd_hdr m c))) in
  let m := set_next m a (next (rd_hdr m c)) in
  let m := if negb (next (rd_hdr m c) =? NULL) then set_prev m (next (rd_hdr m c)) a else m in
  let hp := with_mem hp m in
  if heap_tail hp =? c then with_tail hp a else hp.

Definition joined b n : blk := mk_blk (b_addr b) (b_size b + HDR + b_size n) (b_free b).

(** Where a block with neighbours sits. *)
Lemma heap_rep_pos hp l1 b l2 :
  heap_rep hp (l1 ++ b :: l2) ->
  tile (heap_start_virt hp) l1 (b_addr b) /\ tile (b_end b) l2 (heap_end_virt hp) /\
  dlseg (hmem hp) NULL l1 (b_addr b) /\ dlseg (hmem hp) (b_addr b) l2 NULL /\
  MIN_SPLIT_SIZE <= b_addr b /\ 0 <= b_size b /\ b_end b <= heap_end_virt hp /\
  heap_end_virt hp < 2 ^ 64.
Proof.
  intros Hr. pose proof (heap_rep_elem hp _ b Hr (elem_middle _ _ _)) as (Hlo & Hs & He & _).
  destruct (proj1 (dlseg_app _ _ _ _ _) (hr_seg _ _ Hr)) as [Hd1 [_ Hd2]].
  destruct (proj1 (tile_app _ _ _ _) (hr_tile _ _ Hr)) as (c & Ht1 & Hc & _ & Ht2).
  pose proof (heap_rep_end _ _ Hr). subst c. auto 10.
Qed.

Lemma last_addr_ne (p a e : Z) (x : Z) l :
  tile a l e -> l <> [] -> x < a -> last_addr p l <> x.
Proof.
  intros Ht Hne Hx. destruct (last_addr_elem p l Hne) as (b & Hb & ->).
  pose proof (tile_elem _ _ _ _ Ht Hb). lia.
Qed.

(** Reassemble the invariant around a changed middle part. *)
Lemma heap_rep_intro hp hp' bs l1 mid l2 (a e : Z) :
  heap_rep hp bs ->
  tile (heap_start_virt hp) l1 a -> tile a mid e -> tile e l2 (heap_end_virt hp) -> mid <> [] ->
  heap_head hp' = heap_head hp -> heap_start_virt hp' = heap_start_virt hp ->
  heap_end_virt hp' = heap_end_virt hp -> heap_current_size hp' = heap_current_size hp ->
  heap_tail hp' = last_addr NULL (l1 ++ mid ++ l2) ->
  dlseg (hmem hp') NULL l1 a ->
  dlseg (hmem hp') (last_addr NULL l1) mid (hd_addr l2 NULL) ->
  dlseg (hmem hp') (last_addr NULL (l1 ++ mid)) l2 NULL ->
  heap_rep hp' (l1 ++ mid ++ l2).
Proof.
  intros Hr Ht1 Ht2 Ht3 Hne Eh Es Ee Ec Et Hd1 Hd2 Hd3.
  assert (Ha : hd_addr (mid ++ l2) NULL = a).
  { destruct mid as [|b mid]; [done |]. cbn [tile] in Ht2. by destruct Ht2 as [Hb _]. }
  split; rewrite ?Eh, ?Es, ?Ee, ?Ec; try done; try apply Hr.
  - by destruct l1, mid.
  - rewrite dlseg_app, Ha. split; [done |]. rewrite dlseg_app. split; [done |].
    by rewrite <- last_addr_app.
  - apply tile_app. exists a. split; [done |]. apply tile_app. by exists e.
Qed.

Lemma merge_rep hp l1 b n l2 :
  heap_rep hp (l1 ++ b :: n :: l2) ->
  heap_rep (merge hp (b_addr b) (b_addr n)) (l1 ++ joined b n :: l2) /\
  changes (hmem hp) (hmem (merge hp (b_addr b) (b_addr n))) (in_hdrs (b :: l2)) /\
  vm (merge hp (b_addr b) (b_addr n)) = vm hp.
Proof.
  intros Hr. pose proof (heap_rep_hdr hp l1 b (n :: l2) Hr) as Eb.
  assert (Hr' : heap_rep hp ((l1 ++ [b]) ++ n :: l2)) by (by rewrite <- app_assoc).
  pose proof (heap_rep_hdr hp (l1 ++ [b]) n l2 Hr') as En.
  destruct (heap_rep_pos hp l1 b _ Hr) as (Ht1 & Ht2 & Hd1 & Hd2 & Hlo & Hs & He & Hhi).
  destruct (heap_rep_pos hp _ n _ Hr') as (_ & Ht3 & _ & Hd3 & _ & Hsn & Hen & _).
  cbn [tile] in Ht2. destruct Ht2 as (Han & _ & _).
  pose proof (hr_tail _ _ Hr) as Etail. rewrite last_addr_app in Etail. cbn [last_addr] in Etail.
  unfold merge, b_end, MIN_SPLIT_SIZE, HDR, ALIGN in *. rewrite !Eb, !En. cbn [size hd_addr].
  set (v := add64 (add64 (b_size b) 40) (b_size n)).
  assert (Hv : v = b_size b + 40 + b_size n).
  { unfold v, add64. rewrite wrap_add_l. apply wrap_small. split; lia. }
  assert (Hvf : fits 64 v) by (rewrite Hv; split; lia).
  set (m1 := set_size (hmem hp) (b_addr b) v).
  assert (En1 : rd_hdr m1 (b_addr n) = rd_hdr (hmem hp) (b_addr n)).
  { apply (rd_hdr_far _ _ (b_addr b)); [apply set_size_changes | unfold HDR; lia]. }
  rewrite En1, En. cbn [next].
  set (m2 := set_next m1 (b_addr b) (hd_addr l2 NULL)).
  assert (Hc2 : changes (hmem hp) m2 (in_hdr (b_addr b))).
  { eapply changes_trans; [apply set_size_changes | apply set_next_changes]. }
  assert (En2 : rd_hdr m2 (b_addr n) = rd_hdr (hmem hp) (b_addr n)).
  { apply (rd_hdr_far _ _ (b_addr b)); [done | unfold HDR; lia]. }
  rewrite En2, En. cbn [next].
  assert (Hnx : fits 64 (hd_addr l2 NULL)).
  { destruct l2 as [|c l2]; [by split |]. cbn [tile] in Ht3. cbn [hd_addr].
    destruct Ht3 as (Hc & Hcs & Hct). apply tile_le in Hct. unfold HDR in *. split; lia. }
  assert (Hd4 : dlseg m2 (b_addr n) l2 NULL).
  { eapply dlseg_far; [exact Ht3 | exact Hc2 | unfold HDR; lia | done]. }
  destruct (dlseg_set_prev m2 (b_addr n) (b_addr b) _ _ l2 Ht3 ltac:(lia) ltac:(split; lia) Hd4)
    as [Hd5 Hc3].
  cbv zeta in Hd5, Hc3. set (m3 := if negb (hd_addr l2 NULL =? NULL)
    then set_prev m2 (hd_addr l2 NULL) (b_addr b) else m2) in *.
  assert (Hc3' : changes m2 m3 (fun i => b_addr n + 40 + b_size n <= i < b_addr n + 40 + b_size n + 40)).
  { eapply changes_mono; [| exact Hc3]. unfold in_hdr, HDR. tauto. }
  assert (Hb2 : rd_hdr m2 (b_addr b) = mk_header MAGIC v (if b_free b then 1 else 0)
                  (last_addr NULL l1) (hd_addr l2 NULL)).
  { unfold m2, m1. rewrite rd_set_next, rd_set_size, Eb by done. done. }
  clearbody m3.
  assert (Em : hmem (if heap_tail (with_mem hp m3) =? b_addr n
    then with_tail (with_mem hp m3) (b_addr b) else with_mem hp m3) = m3) by (by destruct (_ =? _)).
  rewrite Em. split_and!.
  - eapply (heap_rep_intro hp _ _ l1 [joined b n] l2 (b_addr b) (b_addr n + 40 + b_size n)).
    + exact Hr.
    + done.
    + cbn. unfold HDR. lia.
    + done.
    + done.
    + by destruct (_ =? _).
    + by destruct (_ =? _).
    + by destruct (_ =? _).
    + by destruct (_ =? _).
    + rewrite last_addr_app. cbn [last_addr app joined b_addr].
      change (heap_tail (with_mem hp m3)) with (heap_tail hp).
      destruct (decide (l2 = [])) as [-> | Hne].
      * cbn [last_addr] in *. by rewrite Etail, Z.eqb_refl.
      * pose proof (last_addr_ne (b_addr n) _ _ (b_addr n) l2 Ht3 Hne ltac:(lia)).
        destruct (Z.eqb_spec (heap_tail hp) (b_addr n)) as [E |]; [by rewrite E in Etail |].
        cbn [heap_tail with_mem]. rewrite Etail. by destruct l2.
    + rewrite Em. apply (dlseg_far m2 _ _ _ (heap_start_virt hp) (b_addr b) _ _ _ Ht1 Hc3'); [lia |].
      eapply dlseg_far; [exact Ht1 | exact Hc2 | lia | done].
    + rewrite Em. split; [| done]. cbn [joined b_addr b_size b_free hd_addr].
      rewrite (rd_hdr_changes m2 _ _ (b_addr b) Hc3') by (unfold in_hdr, HDR; lia).
      by rewrite Hb2, Hv.
    + rewrite Em, last_addr_app. exact Hd5.
  - eapply changes_trans;
      [ eapply changes_mono; [| exact Hc2]; intros i Hi; exists b; set_solver
      | eapply changes_mono; [| exact Hc3] ].
    intros i [Hne Hi]. destruct l2 as [|c l2']; try done; cbn [tile] in Ht3;
      destruct Ht3 as [Hc _]; exists c; (split; [set_solver | by rewrite Hc]).
  - by destruct (_ =? _).
Qed.

Lemma in_hdrs_mono bs bs' i : bs ⊆ bs' -> in_hdrs bs i -> in_hdrs bs' i.
Proof. intros Hs (b & Hb & Hi). exists b. auto. Qed.

(** * The other list operations *)

Definition with_flag b (f : bool) : blk := mk_blk (b_addr b) (b_size b) f.

Lemma set_free_rep hp l1 b l2 (f : bool) :
  heap_rep hp (l1 ++ b :: l2) ->
  heap_rep (with_mem hp (set_free (hmem hp) (b_addr b) (if f then 1 else 0)))
    (l1 ++ with_flag b f :: l2).
Proof.
  intros Hr. pose proof (heap_rep_hdr hp l1 b l2 Hr) as Eb.
  destruct (heap_rep_pos hp l1 b _ Hr) as (Ht1 & Ht2 & Hd1 & Hd2 & Hlo & Hs & He & Hhi).
  pose proof (set_free_changes (hmem hp) (b_addr b) (if f then 1 else 0)) as Hc.
  eapply (heap_rep_intro hp _ _ l1 [with_flag b f] l2 (b_addr b) (b_end b));
    try exact Hr; try done.
  - cbn [with_mem heap_tail]. rewrite (hr_tail _ _ Hr), !last_addr_app. done.
  - eapply dlseg_far; [exact Ht1 | exact Hc | lia | done].
  - split; [| done]. cbn [with_flag b_addr b_size b_free hd_addr hmem with_mem].
    rewrite rd_set_free, Eb by (destruct f; fits_tac). done.
  - rewrite last_addr_app. cbn [last_addr with_flag b_addr].
    eapply dlseg_far; [exact Ht2 | exact Hc | unfold b_end; lia | done].
Qed.

Definition absorb_next b l : blk * list blk :=
  match l with
  | n :: l' => if b_free n then (joined b n, l') else (b, l)
  | [] => (b, l)
  end.

Definition absorb_prev l b : list blk :=
  match last l with
  | Some p => if b_free p then removelast l ++ [joined p b] else l ++ [b]
  | None => [b]
  end.

Lemma coalesce_next_rep hp l1 b l2 :
  heap_rep hp (l1 ++ b :: l2) ->
  heap_rep (coalesce_next hp (b_addr b)) (l1 ++ (absorb_next b l2).1 :: (absorb_next b l2).2) /\
  changes (hmem hp) (hmem (coalesce_next hp (b_addr b))) (in_hdrs (l1 ++ b :: l2)) /\
  vm (coalesce_next hp (b_addr b)) = vm hp.
Proof.
  intros Hr. pose proof (heap_rep_hdr hp l1 b l2 Hr) as Eb. unfold coalesce_next. rewrite Eb.
  cbn [next]. destruct l2 as [|n l2]; [done |]. cbn [hd_addr absorb_next].
  pose proof (heap_rep_elem hp _ n Hr ltac:(set_solver)) as (Hn & _).
  replace (negb (b_addr n =? NULL)) with true
    by (unfold NULL, MIN_SPLIT_SIZE, HDR, ALIGN in *; lia).
  destruct (heap_rep_hdr_elem hp _ n Hr ltac:(set_solver)) as (_ & _ & ->). cbn [andb].
  destruct (b_free n); [| done]. cbn [fst snd].
  destruct (merge_rep hp l1 b n l2 Hr) as (Hm1 & Hm2 & Hm3). unfold merge in Hm1, Hm2, Hm3.
  rewrite Eb in Hm1, Hm2, Hm3. split_and!; [done | | done].
  eapply changes_mono; [| exact Hm2]. intros i. apply in_hdrs_mono. set_solver.
Qed.

Lemma coalesce_prev_rep hp l1 b l2 :
  heap_rep hp (l1 ++ b :: l2) ->
  heap_rep (coalesce_prev hp (b_addr b)) (absorb_prev l1 b ++ l2) /\
  changes (hmem hp) (hmem (coalesce_prev hp (b_addr b))) (in_hdrs (l1 ++ b :: l2)) /\
  vm (coalesce_prev hp (b_addr b)) = vm hp /\
  rd_hdr (hmem (coalesce_prev hp (b_addr b))) (b_addr b) = rd_hdr (hmem hp) (b_addr b).
Proof.
  intros Hr. pose proof (heap_rep_hdr hp l1 b l2 Hr) as Eb. unfold coalesce_prev, absorb_prev.
  assert (Ep : prev (rd_hdr (hmem hp) (b_addr b)) = last_addr NULL l1) by (by rewrite Eb).
  rewrite Ep. clear Eb Ep. destruct l1 as [|p l1 _] using rev_ind; [done |].
  rewrite last_addr_app, last_snoc, removelast_last. cbn [last_addr].
  rewrite <- app_assoc in Hr. cbn [app] in Hr.
  pose proof (heap_rep_elem hp _ p Hr ltac:(set_solver)) as (Hp & _).
  replace (negb (b_addr p =? NULL)) with true
    by (unfold NULL, MIN_SPLIT_SIZE, HDR, ALIGN in *; lia).
  destruct (heap_rep_hdr_elem hp _ p Hr ltac:(set_solver)) as (_ & _ & ->). cbn [andb].
  rewrite <- !app_assoc. cbn [app].
  destruct (b_free p); rewrite <- ?app_assoc; [| done]. cbn [app].
  destruct (merge_rep hp l1 p b l2 Hr) as (Hm1 & Hm2 & Hm3). unfold merge in Hm1, Hm2, Hm3.
  split_and!; [done | | done |].
  - eapply changes_mono; [| exact Hm2]. intros i. apply in_hdrs_mono. set_solver.
  - apply (rd_hdr_changes _ _ _ _ Hm2). intros i Hi (c & Hc & Hci).
    destruct (heap_rep_pos hp l1 p _ Hr) as (_ & Ht & _ & _ & _ & Hps & _).
    cbn [tile] in Ht. destruct Ht as (Hb & Hbs & Ht). unfold in_hdr, b_end, HDR in *.
    apply elem_of_cons in Hc as [-> | Hc]; [lia |].
    pose proof (tile_elem _ _ _ _ Ht Hc). unfold HDR in *. lia.
Qed.

Lemma absorb_next_addr b l : b_addr (absorb_next b l).1 = b_addr b.
Proof. destruct l as [|n l]; [done |]. cbn. by destruct (b_free n). Qed.

Lemma absorb_next_hdrs l1 b l2 i :
  in_hdrs (l1 ++ (absorb_next b l2).1 :: (absorb_next b l2).2) i -> in_hdrs (l1 ++ b :: l2) i.
Proof.
  intros (c & Hc & Hi). apply elem_of_app in Hc as [Hc | [-> | Hc]%elem_of_cons].
  - exists c. set_solver.
  - exists b. rewrite absorb_next_addr in Hi. set_solver.
  - exists c. split; [| done]. destruct l2 as [|n l2]; [set_solver |]. cbn in Hc.
    destruct (b_free n); set_solver.
Qed.

(** [coalesce] on the list *)
Definition a_coalesce l1 b l2 : list blk :=
  absorb_prev l1 (absorb_next b l2).1 ++ (absorb_next b l2).2.

Lemma coalesce_rep hp l1 b l2 :
  heap_rep hp (l1 ++ b :: l2) ->
  heap_rep (coalesce hp (b_addr b)) (a_coalesce l1 b l2) /\
  changes (hmem hp) (hmem (coalesce hp (b_addr b))) (in_hdrs (l1 ++ b :: l2)) /\
  vm (coalesce hp (b_addr b)) = vm hp /\
  magic (rd_hdr (hmem (coalesce hp (b_addr b))) (b_addr b)) = MAGIC /\
  is_free (hmem (coalesce hp (b_addr b))) (b_addr b) = b_free b.
Proof.
  intros Hr. destruct (coalesce_next_rep hp l1 b l2 Hr) as (H1 & H2 & H3).
  destruct (coalesce_prev_rep _ _ _ _ H1) as (H4 & H5 & H6 & H7).
  destruct (heap_rep_hdr_elem _ _ (absorb_next b l2).1 H1 (elem_middle _ _ _)) as (H8 & _ & H9).
  rewrite absorb_next_addr in *. unfold is_free in *. rewrite <- H7 in H8, H9.
  unfold coalesce. pose proof (heap_rep_elem hp _ b Hr (elem_middle _ _ _)) as (Hb & _).
  replace (b_addr b =? NULL) with false by (unfold NULL, MIN_SPLIT_SIZE, HDR, ALIGN in *; lia).
  split_and!; [done | | congruence | done |].
  - eapply changes_trans; [exact H2 |]. eapply changes_mono; [| exact H5].
    intros i. apply absorb_next_hdrs.
  - rewrite H9. destruct l2 as [|n l2]; [done |]. cbn. by destruct (b_free n).
Qed.

(** [split_block] on a block *)
Definition a_split b (req : Z) : list blk :=
  if b_size b <? req + MIN_SPLIT_SIZE then [b]
  else [mk_blk (b_addr b) req (b_free b);
        mk_blk (b_addr b + HDR + req) (b_size b - req - HDR) true].

(** The memory [split_block] produces when it splits [b] off at [req]. *)
Definition split_mem (m : mem) b (req p nx : Z) : mem :=
  let newh := b_addr b + HDR + req in
  let m := set_next (set_prev (set_size (set_free (set_magic m newh MAGIC) newh 1) newh
             (b_size b - req - HDR)) newh (b_addr b)) newh nx in
  let m := if negb (nx =? NULL) then set_prev m nx newh else m in
  set_size (set_next m (b_addr b) newh) (b_addr b) req.

Lemma new_hdr_changes (m : mem) (h v p nx : Z) :
  changes m (set_next (set_prev (set_size (set_free (set_magic m h MAGIC) h 1) h v) h p) h nx)
    (in_hdr h).
Proof. do 4 (eapply changes_trans; [| solve [eauto with heap]]). eauto with heap. Qed.

Lemma hd_addr_fits hp l1 b l2 : heap_rep hp (l1 ++ b :: l2) -> fits 64 (hd_addr l2 NULL).
Proof.
  intros Hr. destruct l2 as [|c l2]; [by split |]. cbn [hd_addr].
  pose proof (heap_rep_elem hp _ c Hr ltac:(set_solver)) as (H1 & H2 & H3 & H4).
  unfold b_end, MIN_SPLIT_SIZE, HDR, ALIGN in *. split; lia.
Qed.

(** What [split_block] computes: its reads see the original header of the block. *)
Lemma split_block_eq hp l1 b l2 (req : Z) :
  heap_rep hp (l1 ++ b :: l2) -> 0 <= req -> req + MIN_SPLIT_SIZE <= b_size b ->
  let hp' := with_mem hp (split_mem (hmem hp) b req (last_addr NULL l1) (hd_addr l2 NULL)) in
  split_block hp (b_addr b) req =
  if heap_tail hp =? b_addr b then with_tail hp' (b_addr b + HDR + req) else hp'.
Proof.
  intros Hr Hreq Hsz. pose proof (heap_rep_hdr hp l1 b l2 Hr) as Eb.
  pose proof (hd_addr_fits hp l1 b l2 Hr) as Hnx.
  destruct (heap_rep_pos hp l1 b _ Hr) as (_ & _ & _ & _ & Hlo & Hs & He & Hhi).
  unfold split_block, split_mem, b_end, MIN_SPLIT_SIZE, HDR, ALIGN, NULL, header_to_payload in *.
  replace (b_addr b =? 0) with false by lia. rewrite Eb. cbn [size]. unfold add64, HDR.
  rewrite (wrap_small 64 (req + _)) by (split; lia).
  replace (b_size b <? req + (40 + 8)) with false by lia. rewrite wrap_add_l.
  rewrite (wrap_small 64 (b_addr b + 40 + req)) by (split; lia).
  set (newh := b_addr b + 40 + req).
  assert (Hrd : forall m', changes (hmem hp) m' (in_hdr newh) ->
            rd_hdr m' (b_addr b) = rd_hdr (hmem hp) (b_addr b)).
  { intros m' Hc. apply (rd_hdr_far _ _ newh); [done | unfold HDR, newh; lia]. }
  rewrite !(Hrd (set_free _ _ _)), Eb by (eapply changes_trans; eauto with heap).
  cbn [size]. unfold sub64, HDR. rewrite wrap_sub_l.
  rewrite (wrap_small 64 (b_size b - req - 40)) by (split; lia).
  rewrite (Hrd (set_prev _ _ _)), Eb
    by (do 3 (eapply changes_trans; [| solve [eauto with heap]]); eauto with heap).
  cbn [next]. rewrite rd_new_hdr by (done || (split; lia)). done.
Qed.

Lemma split_mem_rep hp l1 b l2 (req : Z) :
  heap_rep hp (l1 ++ b :: l2) -> 0 <= req -> req + MIN_SPLIT_SIZE <= b_size b ->
  let m' := split_mem (hmem hp) b req (last_addr NULL l1) (hd_addr l2 NULL) in
  let nb := mk_blk (b_addr b + HDR + req) (b_size b - req - HDR) true in
  dlseg m' NULL l1 (b_addr b) /\
  dlseg m' (last_addr NULL l1) [mk_blk (b_addr b) req (b_free b); nb] (hd_addr l2 NULL) /\
  dlseg m' (b_addr nb) l2 NULL /\
  changes (hmem hp) m' (fun i => in_hdrs (l1 ++ b :: l2) i \/ in_hdr (b_addr nb) i).
Proof.
  intros Hr Hreq Hsz. cbv zeta. pose proof (heap_rep_hdr hp l1 b l2 Hr) as Eb.
  pose proof (hd_addr_fits hp l1 b l2 Hr) as Hnx.
  destruct (heap_rep_pos hp l1 b _ Hr) as (Ht1 & Ht2 & Hd1 & Hd2 & Hlo & Hs & He & Hhi).
  unfold split_mem, b_end, MIN_SPLIT_SIZE, HDR, ALIGN in *. cbn [b_addr].
  set (newh := b_addr b + 40 + req) in *. assert (Hn : newh = b_addr b + 40 + req) by done.
  clearbody newh.
  pose proof (new_hdr_changes (hmem hp) newh (b_size b - req - 40) (b_addr b) (hd_addr l2 NULL)) as Hc1.
  pose proof (rd_new_hdr (hmem hp) newh (b_size b - req - 40) (b_addr b) (hd_addr l2 NULL)
                ltac:(split; lia) ltac:(split; lia) Hnx) as En1.
  set (m1 := set_next _ newh _) in *. clearbody m1.
  assert (Hd3 : dlseg m1 (b_addr b) l2 NULL).
  { eapply dlseg_far; [exact Ht2 | exact Hc1 | unfold HDR; lia | done]. }
  destruct (dlseg_set_prev m1 (b_addr b) newh _ _ l2 Ht2 ltac:(lia) ltac:(split; lia) Hd3) as [Hd4 Hc2].
  cbv zeta in Hd4, Hc2. set (m2 := if negb _ then _ else _) in *. clearbody m2.
  assert (Hc2' : changes m1 m2 (fun i => b_addr b + 40 + b_size b <= i < b_addr b + 40 + b_size b + 40)).
  { eapply changes_mono; [| exact Hc2]. unfold in_hdr, HDR. tauto. }
  assert (Hc3 : changes m2 (set_size (set_next m2 (b_addr b) newh) (b_addr b) req) (in_hdr (b_addr b)))
    by (eapply changes_trans; [| solve [eauto with heap]]; eauto with heap).
  assert (Hrd : rd_hdr (set_size (set_next m2 (b_addr b) newh) (b_addr b) req) (b_addr b) =
    mk_header MAGIC req (if b_free b then 1 else 0) (last_addr NULL l1) newh).
  { rewrite rd_set_size, rd_set_next by (split; lia).
    rewrite (rd_hdr_changes m1 m2 _ _ Hc2') by (unfold in_hdr, HDR; lia).
    rewrite (rd_hdr_far (hmem hp) m1 newh _ Hc1) by (unfold HDR; lia). by rewrite Eb. }
  set (m3 := set_size _ _ req) in *. clearbody m3. split_and!.
  - eapply dlseg_far; [exact Ht1 | exact Hc3 | lia |].
    eapply dlseg_far; [exact Ht1 | exact Hc2' | lia |].
    eapply dlseg_far; [exact Ht1 | exact Hc1 | lia | done].
  - split; [exact Hrd |]. split; [| done]. cbn [b_addr b_size b_free hd_addr]. rewrite <- En1.
    rewrite (rd_hdr_far m2 m3 _ _ Hc3) by (unfold HDR; lia).
    apply (rd_hdr_changes m1 m2 _ _ Hc2'). unfold in_hdr, HDR. lia.
  - eapply dlseg_far; [exact Ht2 | exact Hc3 | unfold HDR; lia | done].
  - eapply changes_trans; [eapply changes_mono; [| exact Hc1]; auto |].
    eapply changes_trans; [eapply changes_mono; [| exact Hc2] | eapply changes_mono; [| exact Hc3]];
      intros i Hi; left.
    + destruct Hi as [Hne Hi], l2 as [|c l2]; [done |]. cbn [tile] in Ht2. destruct Ht2 as [Hc _].
      exists c. split; [set_solver | by rewrite Hc].
    + exists b. set_solver.
Qed.

Lemma split_block_rep hp l1 b l2 (req : Z) :
  heap_rep hp (l1 ++ b :: l2) -> 0 <= req <= b_size b ->
  heap_rep (split_block hp (b_addr b) req) (l1 ++ a_split b req ++ l2) /\
  changes (hmem hp) (hmem (split_block hp (b_addr b) req))
    (fun i => in_hdrs (l1 ++ b :: l2) i \/ b_addr b + HDR + req <= i < b_end b) /\
  vm (split_block hp (b_addr b) req) = vm hp.
Proof.
  intros Hr Hreq. pose proof (heap_rep_hdr hp l1 b l2 Hr) as Eb.
  destruct (heap_rep_pos hp l1 b _ Hr) as (Ht1 & Ht2 & _ & _ & Hlo & Hs & He & Hhi).
  unfold a_split. destruct (Z.ltb_spec (b_size b) (req + MIN_SPLIT_SIZE)) as [Hlt | Hge].
  { unfold split_block. rewrite Eb. cbn [size]. unfold add64.
    unfold b_end, MIN_SPLIT_SIZE, HDR, ALIGN, NULL in *. rewrite (wrap_small 64) by (split; lia).
    replace (b_addr b =? 0) with false by lia. replace (b_size b <? _) with true by lia. done. }
  rewrite (split_block_eq hp l1 b l2 req Hr ltac:(lia) Hge). cbv zeta.
  destruct (split_mem_rep hp l1 b l2 req Hr ltac:(lia) Hge) as (Hd1 & Hd2 & Hd3 & Hc). cbv zeta in *.
  set (m' := split_mem _ _ _ _ _) in *. clearbody m'. set (nb := mk_blk _ _ true) in *.
  set (hp' := if _ =? _ then _ else _).
  assert (Em : hmem hp' = m') by (unfold hp'; by destruct (_ =? _)).
  rewrite Em. split_and!.
  - eapply (heap_rep_intro hp hp' _ l1 [mk_blk (b_addr b) req (b_free b); nb] l2 (b_addr b) (b_end b));
      rewrite ?Em; try done; try exact Hr; try (unfold hp'; by destruct (_ =? _)).
    + cbn [tile nb b_addr b_size]. unfold b_end, MIN_SPLIT_SIZE, HDR, ALIGN in *. lia.
    + rewrite last_addr_app. cbn [app last_addr]. unfold hp'.
      pose proof (hr_tail _ _ Hr) as Etail. rewrite last_addr_app in Etail. cbn [last_addr] in Etail.
      destruct (decide (l2 = [])) as [-> | Hne].
      * cbn [last_addr] in *. rewrite Etail, Z.eqb_refl. done.
      * pose proof (last_addr_ne (b_addr b) _ _ (b_addr b) l2 Ht2 Hne ltac:(unfold b_end, HDR; lia)).
        destruct (Z.eqb_spec (heap_tail hp) (b_addr b)) as [E |]; [by rewrite E in Etail |].
        cbn [heap_tail with_mem]. rewrite Etail. by destruct l2.
    + rewrite last_addr_app. exact Hd3.
  - eapply changes_mono; [| exact Hc]. intros i [Hi | Hi]; [by left |]. right.
    unfold in_hdr, b_end, MIN_SPLIT_SIZE, HDR, ALIGN in *. cbn [nb b_addr] in Hi. unfold HDR in Hi. lia.
  - unfold hp'. by destruct (_ =? _).
Qed.

(** The block [malloc] carves out of a free block [c]. *)
Definition taken (c : blk) (s : Z) : blk :=
  mk_blk (b_addr c) (if b_size c <? s + MIN_SPLIT_SIZE then b_size c else s) false.

Definition a_take (c : blk) (s : Z) : list blk :=
  taken c s :: (if b_size c <? s + MIN_SPLIT_SIZE then []
                else [mk_blk (b_addr c + HDR + s) (b_size c - s - HDR) true]).

Lemma take_rep hp l1 c l2 (s : Z) :
  heap_rep hp (l1 ++ c :: l2) -> 0 <= s <= b_size c ->
  let hp1 := split_block hp (b_addr c) s in
  let hp2 := with_mem hp1 (set_free (hmem hp1) (b_addr c) 0) in
  heap_rep hp2 (l1 ++ a_take c s ++ l2) /\
  changes (hmem hp) (hmem hp2)
    (fun i => in_hdrs (l1 ++ c :: l2) i \/ b_addr c + HDR + s <= i < b_end c) /\
  vm hp2 = vm hp.
Proof.
  intros Hr Hs hp1 hp2. destruct (split_block_rep hp l1 c l2 s Hr Hs) as (H1 & H2 & H3).
  fold hp1 in H1, H2, H3. unfold a_take, taken. split_and!; [| | exact H3].
  - unfold a_split in H1. destruct (b_size c <? s + MIN_SPLIT_SIZE).
    + apply (set_free_rep hp1 l1 c l2 false H1).
    + apply (set_free_rep hp1 l1 _ (_ :: l2) false H1).
  - eapply changes_trans; [exact H2 |]. eapply changes_mono; [| apply set_free_changes].
    intros i Hi. left. exists c. set_solver.
Qed.

(** * Expansion *)

Definition grow (bytes : Z) : Z := pages_for bytes * FRAME_SIZE.

Lemma grow_bounds (bytes : Z) :
  0 <= bytes < 2 ^ 63 + 8 ->
  bytes + HDR <= grow bytes < bytes + HDR + ALIGN + FRAME_SIZE /\ 0 <= pages_for bytes.
Proof.
  intros Hb. unfold grow, pages_for, add64, HDR, FRAME_SIZE, ALIGN in *.
  rewrite (wrap_small 64 (bytes + 40)) by (split; lia). rewrite align_up_eq by lia.
  rewrite (wrap_small 64) by (split; dlia). dlia.
Qed.

Lemma heap_rep_snoc hp hp' bs (g : Z) :
  heap_rep hp bs -> HDR <= g ->
  heap_current_size hp + g <= HEAP_MAX_SIZE ->
  let e := heap_end_virt hp in
  heap_head hp' = heap_head hp -> heap_tail hp' = e -> heap_start_virt hp' = heap_start_virt hp ->
  heap_end_virt hp' = e + g -> heap_current_size hp' = heap_current_size hp + g ->
  dlseg (hmem hp') NULL bs e ->
  rd_hdr (hmem hp') e = mk_header MAGIC (g - HDR) 1 (last_addr NULL bs) NULL ->
  heap_rep hp' (bs ++ [mk_blk e (g - HDR) true]).
Proof.
  intros Hr Hg Hmax e Eh Et Es Ee Ec Hd Hn. unfold e in *.
  split; rewrite ?Eh, ?Et, ?Es, ?Ee, ?Ec; try apply Hr.
  - by destruct bs.
  - rewrite dlseg_app. cbn [hd_addr b_addr]. split; [done |]. cbn [dlseg b_addr b_size b_free hd_addr]. done.
  - apply tile_app. exists (heap_end_virt hp). split; [apply Hr |]. cbn. lia.
  - by rewrite last_addr_app.
  - rewrite (hr_size _ _ Hr). lia.
  - done.
Qed.

(** The memory of a heap after [heap_expand]. *)
Definition expand_mem (m : mem) (e g t : Z) : mem :=
  set_next (set_next (set_prev (set_size (set_free (set_magic m e MAGIC) e 1) e (g - HDR)) e t) e NULL) t e.

Lemma heap_expand_cases hp bs (bytes : Z) :
  heap_rep hp bs -> 0 <= bytes < 2 ^ 63 + 8 ->
  let e := heap_end_virt hp in
  let g := grow bytes in
  let r := pa_alloc_range (vm hp) (pages_for bytes) in
  heap_expand hp bytes =
    if HEAP_MAX_SIZE <? heap_current_size hp + g then Ret (false, hp)
    else match r.1 with
         | None => Ret (false, mk_heap (hmem hp) (heap_head hp) (heap_tail hp) (heap_start_virt hp)
                                 e (heap_current_size hp) r.2)
         | Some phys =>
             obind (map_new_pages r.2 e phys (pages_for bytes)) (fun vm'' =>
               Ret (true, mk_heap (expand_mem (hmem hp) e g (last_addr NULL bs)) (heap_head hp) e
                            (heap_start_virt hp) (e + g) (heap_current_size hp + g) vm''))
         end.
Proof.
  intros Hr Hb e g r. destruct (grow_bounds bytes Hb) as [Hg Hp].
  pose proof (hr_max _ _ Hr). pose proof (hr_hi _ _ Hr). pose proof (hr_size _ _ Hr) as Esz.
  pose proof (tile_le _ _ _ (hr_tile _ _ Hr)).
  unfold heap_expand. unfold grow, HDR, ALIGN, FRAME_SIZE, HEAP_MAX_SIZE in *.
  rewrite (wrap_small 64 (pages_for bytes * _)) by (split; lia). fold (grow bytes).
  unfold add64. rewrite (wrap_small 64 (heap_current_size hp + _)) by (split; lia).
  fold g. change (pages_for bytes * 4096) with g.
  destruct (Z.ltb_spec (512 * 1024 * 1024) (heap_current_size hp + g)) as [Hlt | Hge]; [done |].
  assert (Hgl : g = pages_for bytes * 4096) by done.
  rewrite (wrap_small 32 (pages_for bytes)) by (split; lia). fold r.
  destruct r as [[phys |] vm'] eqn:Er; cbn [fst snd]; [| done].
  destruct (last_addr_elem NULL bs (hr_ne _ _ Hr)) as (c & Hc & Ec).
  pose proof (heap_rep_elem hp bs c Hr Hc) as (Hclo & _).
  pose proof (hr_tail _ _ Hr) as Et. pose proof (hr_lo _ _ Hr).
  unfold MIN_SPLIT_SIZE, HDR, ALIGN in *.
  replace (heap_tail hp =? NULL) with false by (unfold NULL; lia). cbn [negb].
  unfold sub64. rewrite (wrap_small 64 (g - 40)) by (split; lia).
  rewrite (wrap_small 64 (heap_end_virt hp + g)) by (split; lia).
  unfold expand_mem, HDR. by rewrite Et.
Qed.

Lemma expand_mem_rep hp bs (g : Z) :
  heap_rep hp bs -> HDR <= g -> heap_current_size hp + g <= HEAP_MAX_SIZE ->
  let e := heap_end_virt hp in
  let m' := expand_mem (hmem hp) e g (last_addr NULL bs) in
  dlseg m' NULL bs e /\
  rd_hdr m' e = mk_header MAGIC (g - HDR) 1 (last_addr NULL bs) NULL /\
  changes (hmem hp) m' (fun i => in_hdrs bs i \/ e <= i < e + g).
Proof.
  intros Hr Hg Hmax e m'.
  destruct (last_addr_elem NULL bs (hr_ne _ _ Hr)) as (c & Hc & Ec).
  pose proof (heap_rep_elem hp bs c Hr Hc) as (Hclo & Hcs & Hce & Hhi).
  pose proof (heap_rep_end _ _ Hr). pose proof (hr_lo _ _ Hr). pose proof (hr_hi _ _ Hr).
  pose proof (hr_size _ _ Hr). pose proof (tile_le _ _ _ (hr_tile _ _ Hr)).
  unfold m', expand_mem. set (v := g - HDR). set (t := last_addr NULL bs) in *.
  unfold b_end, MIN_SPLIT_SIZE, HDR, ALIGN, HEAP_MAX_SIZE in *.
  assert (Hf : fits 64 t /\ fits 64 v /\ fits 64 e) by (unfold v, e; split_and!; split; lia).
  destruct Hf as (Hft & Hfv & Hfe).
  pose proof (rd_new_hdr (hmem hp) e v t NULL Hfv Hft ltac:(by split)) as En.
  pose proof (new_hdr_changes (hmem hp) e v t NULL) as Hc1.
  set (m1 := set_next _ e NULL) in *. clearbody m1. clear m'. split_and!.
  - eapply dlseg_set_next; [apply Hr | apply Hr | done |].
    eapply dlseg_far; [apply Hr | exact Hc1 | unfold e; lia | apply Hr].
  - rewrite (rd_hdr_far m1 _ t); [done | apply set_next_changes | unfold HDR, e; lia].
  - eapply changes_trans; [eapply changes_mono; [| exact Hc1] |
      eapply changes_mono; [| apply set_next_changes]].
    + unfold in_hdr, HDR. intros i Hi. right. lia.
    + intros i Hi. left. exists c. split; [done |]. by rewrite <- Ec.
Qed.

(** The loop that maps the pages keeps the frame allocator's invariant. *)
Lemma map_new_pages_inv (s s' : S) (virt phys pages : Z) :
  pa_inv s -> map_new_pages s virt phys pages = Ret s' -> pa_inv s'.
Proof.
  unfold map_new_pages. generalize 0. generalize (Z.to_nat pages). intros k. revert s.
  induction k as [|k IH]; intros s i Hi E; cbn [ofor_from] in E; inv_ret; [done |].
  eapply IH; [| exact E]. by eapply vm_map_inv.
Qed.
End rep.
