(* ===== verification/HeapSpec.v ===== *)
(** Properties of the kernel heap (Heap.v) over the representation of HeapRep.v:
    what malloc, free, realloc, calloc and the aligned pair promise their callers,
    and the invariant along every sequence of calls. *)

From S2P Require Import Prelude LibMem Pmm PageAlloc PmmSpec Paging PagingSpec Heap HeapRep.

(** The blocks in use, and the property of a step of the heap that it leaves
    their contents alone. *)
Definition used (bs : list blk) : list blk := filter (fun b => b_free b = false) bs.

Definition keeps (m m' : mem) (bs : list blk) : Prop :=
  forall b i, b ∈ bs -> in_payload b i -> ldb m' i = ldb m i.

Lemma elem_of_used (bs : list blk) (b : blk) : b ∈ used bs <-> b_free b = false /\ b ∈ bs.
Proof. unfold used. by rewrite list_elem_of_filter. Qed.

Lemma used_app (l1 l2 : list blk) : used (l1 ++ l2) = used l1 ++ used l2.
Proof. apply filter_app. Qed.

Lemma used_cons (b : blk) (l : list blk) :
  used (b :: l) = if b_free b then used l else b :: used l.
Proof. unfold used. rewrite filter_cons. by destruct (b_free b). Qed.

Section spec.
Context {S : Type} `{KernelVm S}.
Implicit Types (hp : heap S) (bs l : list blk) (b c n : blk).

(** * Allocation *)

(** [c] is the block the request is served from: a free block of the heap, or a new
    one behind its end. *)
Definition served_from hp bs l1 c l2 : Prop :=
  bs = l1 ++ c :: l2 \/ (bs = l1 /\ l2 = [] /\ b_addr c = heap_end_virt hp).

Record alloc_result hp bs (s : Z) (p : Z) hp' l1 c l2 : Prop := {
  ar_from : served_from hp bs l1 c l2;
  ar_free : b_free c = true;
  ar_fit : s <= b_size c;
  ar_ptr : p = b_addr c + HDR;
  ar_rep : heap_rep hp' (l1 ++ a_take c s ++ l2);
  ar_changes : changes (hmem hp) (hmem hp') (fun i => in_hdrs bs i \/ b_addr c <= i < b_end c)
}.

Lemma served_used hp bs l1 c l2 (s : Z) :
  served_from hp bs l1 c l2 -> b_free c = true ->
  used (l1 ++ a_take c s ++ l2) ≡ₚ taken c s :: used bs.
Proof.
  intros Hf Hc.
  assert (E : used bs = used l1 ++ used l2).
  { destruct Hf as [-> | (-> & -> & _)].
    - by rewrite used_app, used_cons, Hc.
    - by rewrite app_nil_r. }
  rewrite E, !used_app. unfold a_take. rewrite used_cons. cbn [taken b_free].
  replace (used (if _ <? _ then _ else _)) with (@nil blk) by (by destruct (_ <? _)).
  cbn [app]. by rewrite <- Permutation_middle.
Qed.

Lemma served_keeps hp bs (s p : Z) hp' l1 c l2 :
  heap_rep hp bs -> alloc_result hp bs s p hp' l1 c l2 ->
  keeps (hmem hp) (hmem hp') (used bs).
Proof.
  intros Hr Ha b i [Hb Hin]%elem_of_used Hi. apply (ar_changes _ _ _ _ _ _ _ _ Ha).
  intros [Hh | Hc]; [by apply (payload_not_hdr _ _ _ _ _ (hr_tile _ _ Hr) Hin Hi) |].
  pose proof (tile_elem _ _ _ _ (hr_tile _ _ Hr) Hin) as Hbnd. unfold in_payload in Hi.
  destruct (ar_from _ _ _ _ _ _ _ _ Ha) as [E | (-> & -> & E)]; [| lia].
  assert (Hcin : c ∈ bs) by (rewrite E; set_solver).
  assert (Hne : b_addr b <> b_addr c).
  { intros Ebc. pose proof (tile_addr_inj _ _ _ _ _ (hr_tile _ _ Hr) Hin Hcin Ebc) as ->.
    by rewrite (ar_free _ _ _ _ _ _ _ _ Ha) in Hb. }
  destruct (tile_disjoint _ _ _ _ _ (hr_tile _ _ Hr) Hin Hcin Hne); unfold b_end, HDR in *; lia.
Qed.

(** [malloc] once a block that fits has been found. *)
Lemma malloc_at hp bs (s : Z) c :
  heap_rep hp bs -> a_find s bs = Some c -> 0 <= s ->
  let hp1 := split_block hp (b_addr c) s in
  let hp2 := with_mem hp1 (set_free (hmem hp1) (b_addr c) 0) in
  exists l1 l2, bs = l1 ++ c :: l2 /\
    alloc_result hp bs s (header_to_payload (b_addr c)) hp2 l1 c l2 /\ vm hp2 = vm hp.
Proof.
  intros Hr Hf Hs hp1 hp2. apply a_find_some in Hf as (l1 & l2 & -> & Hc & Hsz & _).
  destruct (take_rep hp l1 c l2 s Hr ltac:(lia)) as (H1 & H2 & H3). exists l1, l2.
  pose proof (heap_rep_elem hp _ c Hr (elem_middle _ _ _)) as (Hlo & Hcs & _ & Hhi).
  split; [done |]. split; [| done]. split; [by left | done | done | | done |].
  - unfold header_to_payload. unfold b_end, MIN_SPLIT_SIZE, HDR, ALIGN in *.
    apply wrap_small. split; lia.
  - eapply changes_mono; [| exact H2]. intros i [Hi | Hi]; [by left | right].
    unfold HDR, b_end in *. lia.
Qed.

(** The block [heap_expand] adds serves the request that caused the expansion. *)
Lemma a_find_snoc (s : Z) bs n :
  a_find s bs = None -> b_free n = true -> s <= b_size n -> a_find s (bs ++ [n]) = Some n.
Proof.
  intros Hf Hn Hs. apply a_find_some. exists bs, []. split_and!; [done | done | done |].
  by apply a_find_none.
Qed.

Lemma malloc_found hp bs (sz : Z) c :
  heap_rep hp bs -> 0 < sz -> a_find (align_up sz) bs = Some c -> 0 <= align_up sz ->
  exists hp' l1 l2, malloc hp sz = Ret (b_addr c + HDR, hp') /\
    alloc_result hp bs (align_up sz) (b_addr c + HDR) hp' l1 c l2 /\ vm hp' = vm hp.
Proof.
  intros Hr Hsz Hf Hs. destruct (malloc_at hp bs _ c Hr Hf Hs) as (l1 & l2 & E & Ha & Hv).
  pose proof (ar_ptr _ _ _ _ _ _ _ _ Ha) as Ep. rewrite Ep in Ha.
  eexists _, l1, l2. split; [| split; [exact Ha | exact Hv]].
  unfold malloc. replace (sz =? 0) with false by lia. rewrite (find_fit_rep hp bs _ Hr), Hf.
  pose proof (heap_rep_elem hp bs c Hr ltac:(rewrite E; set_solver)) as (Hlo & _).
  cbn [obind from_option malloc_retry].
  replace (b_addr c =? NULL) with false by (unfold MIN_SPLIT_SIZE, HDR, ALIGN, NULL in *; lia).
  cbn [negb obind]. by rewrite Ep.
Qed.

Lemma align_up_bounds (sz : Z) : 0 < sz < 2 ^ 63 -> sz <= align_up sz < sz + 8 /\ align_up sz < 2 ^ 63 + 8.
Proof. intros Hsz. rewrite align_up_eq by lia. dlia. Qed.

(** [malloc] when no block fits: one expansion, and then the new block is used. *)
Lemma malloc_expanded hp bs (sz : Z) hp1 :
  heap_rep hp bs -> 0 < sz < 2 ^ 63 -> a_find (align_up sz) bs = None -> pa_inv (vm hp) ->
  heap_expand hp (align_up sz) = Ret (true, hp1) ->
  let c := mk_blk (heap_end_virt hp) (grow (align_up sz) - HDR) true in
  exists hp', malloc hp sz = Ret (b_addr c + HDR, hp') /\
    alloc_result hp bs (align_up sz) (b_addr c + HDR) hp' bs c [] /\ pa_inv (vm hp').
Proof.
  intros Hr Hsz Hf Hpa He c. destruct (align_up_bounds sz Hsz) as [Ha1 Ha2].
  destruct (grow_bounds (align_up sz) ltac:(lia)) as [Hg Hpg].
  pose proof He as He'. rewrite (heap_expand_cases hp bs) in He' by (done || lia). cbv zeta in He'.
  destruct (Z.ltb_spec HEAP_MAX_SIZE (heap_current_size hp + grow (align_up sz))) as [|Hmax]; [done |].
  destruct (pa_alloc_range (vm hp) (pages_for (align_up sz))) as [[phys |] vm1] eqn:Ear;
    cbn [fst snd] in He'; [| done].
  inv_ret. simplify_eq.
  pose proof (hr_size _ _ Hr). pose proof (tile_le _ _ _ (hr_tile _ _ Hr)).
  assert (Hpb : 0 <= pages_for (align_up sz) < 2 ^ 32).
  { unfold grow, FRAME_SIZE, HEAP_MAX_SIZE in *. lia. }
  assert (Hpa1 : pa_inv vm1).
  { pose proof (pa_alloc_inv (vm hp) _ Hpa Hpb) as Hi. by rewrite Ear in Hi. }
  match goal with E : map_new_pages _ _ _ _ = Ret ?v |- _ =>
    pose proof (map_new_pages_inv _ _ _ _ _ Hpa1 E) as Hpa2 end.
  destruct (expand_mem_rep hp bs (grow (align_up sz)) Hr ltac:(unfold HDR in *; lia) Hmax)
    as (Hd & Hh & Hc).
  set (hp1 := mk_heap (expand_mem _ _ _ _) _ _ _ _ _ _) in *.
  assert (Hr1 : heap_rep hp1 (bs ++ [c])).
  { eapply (heap_rep_snoc hp hp1 bs (grow (align_up sz))); (done || unfold HDR in *; lia). }
  pose proof (a_find_snoc _ bs c Hf ltac:(done) ltac:(cbn [c b_size]; lia)) as Hf1.
  destruct (malloc_at hp1 _ _ c Hr1 Hf1 ltac:(lia)) as (l1 & l2 & Els & Har & Hv).
  pose proof (ar_ptr _ _ _ _ _ _ _ _ Har) as Ep. rewrite Ep in Har.
  assert (l1 = bs /\ l2 = []) as [-> ->].
  { destruct (decide (l2 = [])) as [-> | Hne]; [by apply app_inj_tail in Els as [-> _] |].
    destruct l2 as [|d l2 _] using rev_ind; [done |].
    rewrite app_comm_cons, app_assoc in Els. apply app_inj_tail in Els as [Eb Ec].
    apply a_find_none in Hf. rewrite Eb in Hf. apply Forall_app in Hf as [_ [Hc1 _]%Forall_cons].
    specialize (Hc1 ltac:(done)). cbn [c b_size] in Hc1. lia. }
  eexists. split; [| split; [split |]].
  - unfold malloc. replace (sz =? 0) with false by lia. rewrite (find_fit_rep hp bs _ Hr), Hf.
    cbn [obind from_option malloc_retry]. rewrite Z.eqb_refl. cbn [negb].
    rewrite He. cbn [obind negb]. rewrite (find_fit_rep hp1 _ _ Hr1), Hf1. cbn [obind from_option].
    pose proof (heap_rep_elem hp1 _ c Hr1 ltac:(set_solver)) as (Hlo & _).
    cbn [malloc_retry].
    replace (b_addr c =? NULL) with false by (unfold MIN_SPLIT_SIZE, HDR, ALIGN, NULL in *; lia).
    cbn [negb obind]. rewrite Ep. reflexivity.
  - by right.
  - done.
  - cbn [c b_size]. lia.
  - done.
  - apply Har.
  - eapply changes_trans; [eapply changes_mono; [| exact Hc] |
      eapply changes_mono; [| apply (ar_changes _ _ _ _ _ _ _ _ Har)]].
    + intros i [Hi | Hi]; [by left | right]. unfold b_end. cbn [c b_addr b_size]. lia.
    + intros i [(d & [Hd' | ->%list_elem_of_singleton]%elem_of_app & Hi) | Hi]; [left; by exists d | right | by right].
      unfold in_hdr, b_end in *. cbn [c b_addr b_size] in *. unfold HDR in *. lia.
  - rewrite Hv. exact Hpa2.
Qed.

(** Which of the three things [malloc] does. *)
Lemma malloc_cases hp bs (sz : Z) :
  heap_rep hp bs -> pa_inv (vm hp) -> 0 < sz < 2 ^ 63 ->
  (exists hp' l1 c l2, malloc hp sz = Ret (b_addr c + HDR, hp') /\
     alloc_result hp bs (align_up sz) (b_addr c + HDR) hp' l1 c l2 /\ pa_inv (vm hp') /\
     (forall d, a_find (align_up sz) bs = Some d -> d = c /\ vm hp' = vm hp)) \/
  (a_find (align_up sz) bs = None /\
     ((malloc hp sz = Panic /\ (heap_expand hp (align_up sz) = Panic \/
         exists hp1, heap_expand hp (align_up sz) = Ret (false, hp1))) \/
      (malloc hp sz = Crash /\ heap_expand hp (align_up sz) = Crash))).
Proof.
  intros Hr Hpa Hsz. pose proof (align_up_bounds sz Hsz) as [Ha _].
  destruct (a_find (align_up sz) bs) as [c |] eqn:Ef.
  - left. destruct (malloc_found hp bs sz c Hr ltac:(lia) Ef ltac:(lia)) as (hp' & l1 & l2 & E & Har & Hv).
    exists hp', l1, c, l2. split_and!; [done | done | by rewrite Hv | by intros d [= ->]].
  - assert (Hm : malloc hp sz = obind (heap_expand hp (align_up sz)) (fun '(ok, hp') =>
      if negb ok then Panic else obind (find_fit hp' (align_up sz)) (fun fit' =>
        obind (malloc_retry 9 hp' fit' (align_up sz)) (fun '(fit, hp) =>
          let hp := split_block hp fit (align_up sz) in
          let hp := with_mem hp (set_free (hmem hp) fit 0) in
          Ret (header_to_payload fit, hp))))).
    { unfold malloc. replace (sz =? 0) with false by lia. rewrite (find_fit_rep hp bs _ Hr), Ef.
      cbn [obind from_option malloc_retry]. rewrite Z.eqb_refl. cbn [negb]. rewrite obind_assoc.
      destruct (heap_expand hp (align_up sz)) as [[[] hp1] | |]; cbn [obind negb]; [| done..].
      by rewrite obind_assoc. }
    destruct (heap_expand hp (align_up sz)) as [[[] hp1] | |] eqn:Ee; cbn [obind negb] in Hm.
    + left. destruct (malloc_expanded hp bs sz hp1 Hr Hsz Ef Hpa Ee) as (hp' & E & Har & Hi).
      eexists hp', bs, _, []. split_and!; [exact E | exact Har | done | done].
    + right. split; [done |]. left. split; [done |]. right. by exists hp1.
    + right. split; [done |]. left. split; [done |]. by left.
    + right. split; [done |]. by right.
Qed.

(** C4: [malloc] on a well-formed heap returns a block that was not in use before,
    large enough and with less than 48 bytes of slack, first-fit; every block that
    was in use stays in use with its contents untouched, and the heap stays
    well-formed.  It panics only when no free block fits and the heap cannot be
    expanded: one expansion always suffices. *)
Theorem malloc_spec hp bs (sz : Z) :
  heap_rep hp bs -> pa_inv (vm hp) -> 0 < sz < 2 ^ 63 ->
  match malloc hp sz with
  | Ret (p, hp') => exists bs' b,
      heap_rep hp' bs' /\ pa_inv (vm hp') /\
      b ∈ bs' /\ p = b_addr b + HDR /\ sz <= b_size b < sz + ALIGN + MIN_SPLIT_SIZE /\
      used bs' ≡ₚ b :: used bs /\ keeps (hmem hp) (hmem hp') (used bs) /\
      (forall d, a_find (align_up sz) bs = Some d -> b_addr b = b_addr d /\ vm hp' = vm hp)
  | Panic => a_find (align_up sz) bs = None /\
      (heap_expand hp (align_up sz) = Panic \/
       exists hp1, heap_expand hp (align_up sz) = Ret (false, hp1))
  | Crash => a_find (align_up sz) bs = None /\ heap_expand hp (align_up sz) = Crash
  end.
Proof.
  intros Hr Hpa Hsz. pose proof (align_up_bounds sz Hsz) as [Ha _].
  destruct (malloc_cases hp bs sz Hr Hpa Hsz)
    as [(hp' & l1 & c & l2 & -> & Har & Hi & Hff) | [Hn [[-> He] | [-> He]]]]; [| done..].
  exists (l1 ++ a_take c (align_up sz) ++ l2), (taken c (align_up sz)).
  split_and!; [apply Har | done | unfold a_take; set_solver | done | | | | |].
  - unfold taken. cbn [b_size]. pose proof (ar_fit _ _ _ _ _ _ _ _ Har). destruct (_ <? _); lia.
  - unfold taken. cbn [b_size]. pose proof (ar_fit _ _ _ _ _ _ _ _ Har).
    unfold MIN_SPLIT_SIZE, HDR, ALIGN in *.
    destruct (Z.ltb_spec (b_size c) (align_up sz + (40 + 8))); lia.
  - eapply served_used; apply Har.
  - by eapply served_keeps.
  - intros d Hd. by destruct (Hff d Hd) as [-> ?].
Qed.

(** * Release *)

Lemma used_coalesce l1 b l2 :
  b_free b = true -> used (a_coalesce l1 b l2) = used l1 ++ used l2.
Proof.
  intros Hb. unfold a_coalesce.
  assert (Hn : b_free (absorb_next b l2).1 = true /\ used (absorb_next b l2).2 = used l2).
  { destruct l2 as [|n l2]; [done |]. cbn [absorb_next]. rewrite used_cons.
    destruct (b_free n) eqn:En; cbn [fst snd joined b_free]; [done |]. by rewrite used_cons, En. }
  destruct Hn as [H1 H2]. rewrite used_app, H2. f_equal.
  generalize dependent (absorb_next b l2).1. intros b' Hb'. unfold absorb_prev.
  destruct l1 as [|p l1 _] using rev_ind;
    [change (used [b'] = []); by rewrite used_cons, Hb' |].
  rewrite last_snoc, removelast_last. destruct (b_free p) eqn:Ep;
    rewrite !used_app, !used_cons; cbn [joined b_free]; rewrite ?Ep, ?Hb';
    change (used []) with (@nil blk); by rewrite ?app_nil_r.
Qed.

Lemma payload_header hp bs b :
  heap_rep hp bs -> b ∈ bs ->
  payload_to_header (b_addr b + HDR) = b_addr b /\ (b_addr b + HDR =? NULL) = false.
Proof.
  intros Hr Hb. pose proof (heap_rep_elem hp bs b Hr Hb) as (Hlo & Hs & _ & Hhi).
  unfold payload_to_header, b_end, MIN_SPLIT_SIZE, HDR, ALIGN, NULL in *.
  split; [| lia]. rewrite wrap_small by (split; lia). lia.
Qed.

Lemma free_rep hp l1 b l2 :
  heap_rep hp (l1 ++ b :: l2) -> b_free b = false ->
  exists hp', free hp (b_addr b + HDR) = Ret hp' /\
    heap_rep hp' (a_coalesce l1 (with_flag b true) l2) /\
    changes (hmem hp) (hmem hp') (in_hdrs (l1 ++ b :: l2)) /\ vm hp' = vm hp /\
    magic (rd_hdr (hmem hp') (b_addr b)) = MAGIC /\ is_free (hmem hp') (b_addr b) = true.
Proof.
  intros Hr Hb. destruct (payload_header hp _ b Hr (elem_middle _ _ _)) as [E1 E2].
  destruct (heap_rep_hdr_elem hp _ b Hr (elem_middle _ _ _)) as (Hm & _ & Hf).
  pose proof (set_free_rep hp l1 b l2 true Hr) as Hr1.
  destruct (coalesce_rep _ l1 (with_flag b true) l2 Hr1) as (H1 & H2 & H3 & H4 & H5).
  cbn [with_flag b_addr b_free] in *.
  eexists. split; [unfold free; rewrite E2, E1, Hm, Hf, Hb; reflexivity |].
  split_and!; [exact H1 | | exact H3 | exact H4 | exact H5].
  eapply changes_trans; [eapply changes_mono; [| apply set_free_changes] |].
  - intros i Hi. exists b. split; [apply elem_middle | done].
  - eapply changes_mono; [| exact H2]. intros i (c & Hc & Hi).
    apply elem_of_app in Hc as [Hc | [-> | Hc]%elem_of_cons].
    + exists c. set_solver.
    + exists b. split; [apply elem_middle | done].
    + exists c. set_solver.
Qed.

Lemma changes_hdrs_keeps hp bs (m' : mem) :
  heap_rep hp bs -> changes (hmem hp) m' (in_hdrs bs) -> keeps (hmem hp) m' bs.
Proof.
  intros Hr Hc b i Hb Hi. apply Hc. by apply (payload_not_hdr _ _ _ _ _ (hr_tile _ _ Hr) Hb).
Qed.

Lemma keeps_mono (m m' : mem) bs bs' : bs' ⊆ bs -> keeps m m' bs -> keeps m m' bs'.
Proof. intros Hs Hk b i Hb. apply Hk. auto. Qed.

Lemma used_subset bs : used bs ⊆ bs.
Proof. intros b [_ Hb]%elem_of_used. done. Qed.

(** No two neighbouring blocks are both free. *)
Definition separated bs : Prop :=
  forall l1 a c l2, bs = l1 ++ a :: c :: l2 -> b_free a = true -> b_free c = false.

(** What coalescing makes of a free block [b] between [l1] and [l2]: one free block that
    begins with the free block before, if any, and ends with the free block behind. *)
Lemma coalesce_merged (s e : Z) l1 b l2 :
  tile s (l1 ++ b :: l2) e -> b_free b = true ->
  exists k1 f k2, a_coalesce l1 b l2 = k1 ++ f :: k2 /\ b_free f = true /\
    ((k1 = l1 /\ b_addr f = b_addr b /\ forall p, last l1 = Some p -> b_free p = false) \/
     exists p, l1 = k1 ++ [p] /\ b_free p = true /\ b_addr f = b_addr p) /\
    ((k2 = l2 /\ b_end f = b_end b /\ forall n, head l2 = Some n -> b_free n = false) \/
     exists n, l2 = n :: k2 /\ b_free n = true /\ b_end f = b_end n).
Proof.
  intros Ht Hb. apply tile_app in Ht as (x & Ht1 & Ha & Hs & Ht2). unfold a_coalesce.
  set (b' := (absorb_next b l2).1). set (k2 := (absorb_next b l2).2).
  assert (Hn : b_addr b' = b_addr b /\ b_free b' = true /\
    ((k2 = l2 /\ b_end b' = b_end b /\ forall n, head l2 = Some n -> b_free n = false) \/
     exists n, l2 = n :: k2 /\ b_free n = true /\ b_end b' = b_end n)).
  { unfold b', k2. destruct l2 as [|n l2]; cbn [absorb_next fst snd]; [split_and!; [done | done | by left] |].
    destruct (b_free n) eqn:En; cbn [fst snd]; (split_and!; [done | done |]).
    - right. exists n. split_and!; [done | done |]. destruct Ht2 as (Han & _ & _).
      unfold b_end, joined. cbn [b_addr b_size]. unfold HDR in *. lia.
    - left. split_and!; [done | done |]. by intros ? [= <-]. }
  clearbody b' k2. destruct Hn as (Hba & Hbf & Hn). unfold absorb_prev.
  destruct l1 as [|p l1 _] using rev_ind; cbn [last].
  { exists [], b', k2. split_and!; [done | done | by left | done]. }
  rewrite last_snoc, removelast_last. apply tile_app in Ht1 as (y & _ & Hpa & Hps & Hpx). cbn [tile] in Hpx.
  destruct (b_free p) eqn:Ep.
  - exists l1, (joined p b'), k2. rewrite <- app_assoc. split_and!; [done | by cbn | right; by exists p |].
    assert (Ee : b_end (joined p b') = b_end b').
    { unfold b_end, joined. cbn [b_addr b_size]. unfold HDR in *. lia. }
    rewrite Ee. exact Hn.
  - exists (l1 ++ [p]), b', k2. rewrite <- app_assoc. split_and!; [done | done | left | done].
    split_and!; [done | done |]. by intros ? [= <-].
Qed.

(** A block that ends where another begins is the one before it. *)
Lemma tile_before (s e : Z) l1 b l2 c :
  tile s (l1 ++ b :: l2) e -> c ∈ l1 ++ b :: l2 -> b_end c = b_addr b -> last l1 = Some c.
Proof.
  intros Ht Hc He. apply tile_app in Ht as (x & Ht1 & Ha & Hs & Ht2).
  apply elem_of_app in Hc as [Hc | [-> | Hc]%elem_of_cons].
  - destruct l1 as [|p l1 _] using rev_ind; [by apply elem_of_nil in Hc |]. rewrite last_snoc.
    apply elem_of_app in Hc as [Hc | ->%list_elem_of_singleton]; [| done].
    apply tile_app in Ht1 as (y & Ht1 & Hpa & Hps & Hpx). cbn [tile] in Hpx.
    pose proof (tile_elem _ _ _ _ Ht1 Hc). unfold HDR in *. lia.
  - unfold b_end, HDR in He. lia.
  - pose proof (tile_elem _ _ _ _ Ht2 Hc). unfold b_end, HDR in *. lia.
Qed.

Lemma tile_behind (s e : Z) l1 b l2 c :
  tile s (l1 ++ b :: l2) e -> c ∈ l1 ++ b :: l2 -> b_addr c = b_end b -> head l2 = Some c.
Proof.
  intros Ht Hc He. apply tile_app in Ht as (x & Ht1 & Ha & Hs & Ht2).
  apply elem_of_app in Hc as [Hc | [-> | Hc]%elem_of_cons].
  - pose proof (tile_elem _ _ _ _ Ht1 Hc). unfold b_end, HDR in *. lia.
  - unfold b_end, HDR in He. lia.
  - destruct l2 as [|n l2]; [by apply elem_of_nil in Hc |]. cbn [head].
    apply elem_of_cons in Hc as [-> | Hc]; [done |]. destruct Ht2 as (Hna & Hns & Ht2).
    pose proof (tile_elem _ _ _ _ Ht2 Hc). unfold b_end, HDR in *. lia.
Qed.

(** The merged block takes in every free neighbour. *)
Lemma coalesce_covers (s e : Z) l1 b l2 :
  tile s (l1 ++ b :: l2) e -> b_free b = true ->
  exists f, f ∈ a_coalesce l1 b l2 /\ b_free f = true /\ b_addr f <= b_addr b /\ b_end b <= b_end f /\
    forall c, c ∈ l1 ++ b :: l2 -> b_free c = true -> b_end c = b_addr b \/ b_addr c = b_end b ->
      b_addr f <= b_addr c /\ b_end c <= b_end f.
Proof.
  intros Ht Hb. destruct (coalesce_merged s e l1 b l2 Ht Hb) as (k1 & f & k2 & -> & Hf & Hp & Hn).
  assert (Hsz : 0 <= b_size b) by (by eapply (tile_elem s e); [exact Ht | apply elem_middle]).
  assert (H1 : b_addr f <= b_addr b).
  { destruct Hp as [(_ & -> & _) | (p & -> & _ & ->)]; [lia |]. rewrite <- app_assoc in Ht.
    apply tile_app in Ht as (x & _ & Hpa & Hps & Ht). cbn [tile app] in Ht. unfold HDR in *. lia. }
  assert (H2 : b_end b <= b_end f).
  { destruct Hn as [(_ & -> & _) | (n & -> & _ & ->)]; [lia |].
    apply tile_app in Ht as (x & _ & Hba & Hbs & Hna & Hns & _). unfold b_end, HDR in *. lia. }
  exists f. split_and!; [apply elem_middle | done | done | done |]. intros c Hc Hcf [Hce | Hca].
  - pose proof (tile_before s e l1 b l2 c Ht Hc Hce) as Hl.
    destruct Hp as [(_ & _ & Hno) | (p & -> & _ & ->)]; [by rewrite (Hno c Hl) in Hcf |].
    rewrite last_snoc in Hl. injection Hl as ->. split; [lia |]. unfold b_end, HDR in *. lia.
  - pose proof (tile_behind s e l1 b l2 c Ht Hc Hca) as Hl.
    destruct Hn as [(_ & _ & Hno) | (n & -> & _ & ->)]; [by rewrite (Hno c Hl) in Hcf |].
    cbn [head] in Hl. injection Hl as ->. split; [unfold b_end, HDR in *; lia | lia].
Qed.

Lemma separated_app l k :
  separated (l ++ k) <-> separated l /\ separated k /\
    forall a c, last l = Some a -> head k = Some c -> b_free a = true -> b_free c = false.
Proof.
  split.
  - intros Hs. split_and!.
    + intros l1 a c l2 ->. apply (Hs l1 a c (l2 ++ k)). by rewrite <- app_assoc.
    + intros l1 a c l2 ->. apply (Hs (l ++ l1) a c l2). by rewrite <- app_assoc.
    + intros a c Hl Hk. apply last_Some in Hl as (l' & ->). apply head_Some in Hk as (k' & ->).
      apply (Hs l' a c k'). by rewrite <- app_assoc.
  - intros (H1 & H2 & H3) l1 a c l2 E. apply app_eq_app in E as (m & [[-> E] | [-> E]]).
    + destruct m as [|x m]; [| destruct m as [|y m]].
      * apply (H2 [] a c l2). by symmetry.
      * cbn in E. simplify_eq. apply H3; [by rewrite last_snoc | done].
      * cbn in E. simplify_eq. by apply (H1 l1 x y m).
    + apply (H2 m a c l2). done.
Qed.

Lemma separated_coalesce (s e : Z) l1 b l2 :
  tile s (l1 ++ with_flag b true :: l2) e -> separated (l1 ++ b :: l2) ->
  separated (a_coalesce l1 (with_flag b true) l2).
Proof.
  intros Ht (Hs1 & Hsb & _)%separated_app. change (b :: l2) with ([b] ++ l2) in Hsb.
  apply separated_app in Hsb as (_ & Hs2 & _).
  destruct (coalesce_merged s e l1 (with_flag b true) l2 Ht eq_refl) as (k1 & f & k2 & -> & Hf & Hp & Hn).
  assert (Hk1 : separated k1 /\ forall p, last k1 = Some p -> b_free p = false).
  { destruct Hp as [(-> & _ & Hno) | (p & -> & Hpf & _)]; [done |]. apply separated_app in Hs1 as (? & _ & Hl).
    split; [done |]. intros q Hq. destruct (b_free q) eqn:Eq; [| done]. by rewrite (Hl q p Hq eq_refl Eq) in Hpf. }
  assert (Hk2 : separated k2 /\ forall n, head k2 = Some n -> b_free n = false).
  { destruct Hn as [(-> & _ & Hno) | (n & -> & Hnf & _)]; [done |].
    change (n :: k2) with ([n] ++ k2) in Hs2. apply separated_app in Hs2 as (_ & ? & Hl).
    split; [done |]. intros q Hq. by apply (Hl n q eq_refl Hq). }
  change (f :: k2) with ([f] ++ k2). apply separated_app. split_and!; [apply Hk1 | |].
  - apply separated_app. split_and!; [| apply Hk2 |].
    + intros [|x m] a c m2 E; [done |]. cbn in E. injection E as _ E. by destruct m.
    + intros a c _ Hc _. by apply Hk2.
  - intros a c Ha _ Haf. by rewrite (proj2 Hk1 a Ha) in Haf.
Qed.

(** C5: [free] of a block in use never panics: exactly that block leaves the set of
    blocks in use and becomes part of one free block that takes in the free blocks on
    either side of it, so that no two neighbours are free if none were before; the
    contents of the other blocks are untouched, the heap stays well-formed, and a second
    [free] of the same pointer panics. *)
Theorem free_spec hp bs b :
  heap_rep hp bs -> b ∈ used bs ->
  exists hp' bs', free hp (b_addr b + HDR) = Ret hp' /\
    heap_rep hp' bs' /\ used bs ≡ₚ b :: used bs' /\ vm hp' = vm hp /\
    keeps (hmem hp) (hmem hp') (used bs') /\
    (exists f, f ∈ bs' /\ b_free f = true /\ b_addr f <= b_addr b /\ b_end b <= b_end f /\
       forall c, c ∈ bs -> b_free c = true -> b_end c = b_addr b \/ b_addr c = b_end b ->
         b_addr f <= b_addr c /\ b_end c <= b_end f) /\
    (separated bs -> separated bs') /\
    free hp' (b_addr b + HDR) = Panic.
Proof.
  intros Hr [Hb Hin]%elem_of_used. destruct (payload_header hp _ b Hr Hin) as [E1 E2].
  apply list_elem_of_split in Hin as (l1 & l2 & ->).
  destruct (free_rep hp l1 b l2 Hr Hb) as (hp' & E & Hr' & Hc & Hv & Hm & Hf).
  exists hp', (a_coalesce l1 (with_flag b true) l2).
  assert (Hu : used (a_coalesce l1 (with_flag b true) l2) = used l1 ++ used l2)
    by (by apply used_coalesce).
  pose proof (hr_tile _ _ (set_free_rep hp l1 b l2 true Hr)) as Ht.
  split_and!; [done | done | | done | | | |].
  - rewrite Hu, used_app, used_cons, Hb. by rewrite <- Permutation_middle.
  - eapply keeps_mono; [| by apply (changes_hdrs_keeps hp (l1 ++ b :: l2))].
    rewrite Hu. intros c [Hc' | Hc']%elem_of_app; apply elem_of_used in Hc' as [_ Hc']; set_solver.
  - destruct (coalesce_covers _ _ l1 (with_flag b true) l2 Ht eq_refl) as (f & H1 & H2 & H3 & H4 & H5).
    exists f. split_and!; try done. intros c Hcin Hcf. apply H5; [| done].
    assert (c <> b) by (intros ->; congruence). set_solver.
  - by eapply separated_coalesce.
  - unfold free. rewrite E2, E1, Hm, Hf. done.
Qed.

(** [free] panics on a pointer whose header does not carry the magic number and
    on one whose block is marked free, and does nothing for NULL. *)
Theorem free_rejects hp (ptr : Z) :
  free hp NULL = Ret hp /\
  (ptr <> NULL -> magic (rd_hdr (hmem hp) (payload_to_header ptr)) <> MAGIC -> free hp ptr = Panic) /\
  (ptr <> NULL -> is_free (hmem hp) (payload_to_header ptr) = true -> free hp ptr = Panic).
Proof.
  unfold free. split; [done |]. split; intros Hp Hc; rewrite (proj2 (Z.eqb_neq _ _) Hp).
  - by rewrite (proj2 (Z.eqb_neq _ _) Hc).
  - rewrite Hc. by destruct (negb _).
Qed.

(** * Writing to payloads *)

(** Whatever a client writes into the payload of a block, the heap stays well-formed. *)
Lemma heap_rep_write hp bs b (m' : mem) :
  heap_rep hp bs -> b ∈ bs -> changes (hmem hp) m' (in_payload b) -> heap_rep (with_mem hp m') bs.
Proof.
  intros Hr Hb Hc. destruct Hr as [H1 H2 H3 H4 H5 H6 H7 H8 H9]. split; try done.
  cbn [hmem with_mem]. eapply dlseg_changes; [exact H3 | exact Hc | | exact H2].
  intros c i Hc' Hi Hp. apply (payload_not_hdr _ _ _ _ _ H3 Hb Hp). by exists c.
Qed.

(** Other blocks do not notice. *)
Lemma keeps_write hp bs b (m' : mem) l :
  heap_rep hp bs -> b ∈ bs -> l ⊆ bs -> b ∉ l -> changes (hmem hp) m' (in_payload b) ->
  keeps (hmem hp) m' l.
Proof.
  intros Hr Hb Hl Hbl Hc c i Hcl Hi. apply Hc. intros Hp. unfold in_payload in *.
  pose proof (tile_elem _ _ _ _ (hr_tile _ _ Hr) Hb). pose proof (Hl c Hcl) as Hcin.
  pose proof (tile_elem _ _ _ _ (hr_tile _ _ Hr) Hcin).
  destruct (decide (b_addr b = b_addr c)) as [E | Hne].
  - by pose proof (tile_addr_inj _ _ _ _ _ (hr_tile _ _ Hr) Hb Hcin E) as ->.
  - destruct (tile_disjoint _ _ _ _ _ (hr_tile _ _ Hr) Hb Hcin Hne); unfold HDR in *; lia.
Qed.

Lemma tile_NoDup (a e : Z) bs : tile a bs e -> NoDup bs.
Proof.
  revert a. induction bs as [|b bs IH]; intros a Ht; [constructor |]. cbn [tile] in Ht.
  destruct Ht as (Hb & Hs & Ht). constructor; [| by eapply IH].
  intros Hin. pose proof (tile_elem _ _ _ _ Ht Hin). unfold HDR in *. lia.
Qed.

Lemma used_NoDup hp bs : heap_rep hp bs -> NoDup (used bs).
Proof. intros Hr. apply NoDup_filter. apply (tile_NoDup _ _ _ (hr_tile _ _ Hr)). Qed.

Lemma copies_changes (m m' : mem) (d s0 k : Z) (P : Z -> Prop) :
  copies m m' d s0 k -> (forall i, d <= i < d + k -> P i) -> changes m m' P.
Proof.
  intros Hc HP i Hi. rewrite Hc. destruct (_ && _) eqn:E; [| done]. exfalso. apply Hi, HP. lia.
Qed.

Lemma filled_changes (m m' : mem) (d k v : Z) (P : Z -> Prop) :
  filled m m' d k v -> (forall i, d <= i < d + k -> P i) -> changes m m' P.
Proof.
  intros Hc HP i Hi. rewrite Hc. destruct (_ && _) eqn:E; [| done]. exfalso. apply Hi, HP. lia.
Qed.

(** [malloc] as its callers inside this file see it. *)
Lemma malloc_ok hp bs (sz p : Z) hp' :
  heap_rep hp bs -> pa_inv (vm hp) -> 0 < sz < 2 ^ 63 -> malloc hp sz = Ret (p, hp') ->
  exists bs' b, heap_rep hp' bs' /\ pa_inv (vm hp') /\ b ∈ used bs' /\ p = b_addr b + HDR /\
    align_up sz <= b_size b /\ used bs' ≡ₚ b :: used bs /\ keeps (hmem hp) (hmem hp') (used bs).
Proof.
  intros Hr Hpa Hsz E.
  destruct (malloc_cases hp bs sz Hr Hpa Hsz)
    as [(hp1 & l1 & c & l2 & E' & Har & Hi & _) | [_ [[E' _] | [E' _]]]]; rewrite E in E'; [| done..].
  injection E' as -> ->.
  pose proof (served_used _ _ _ _ _ (align_up sz) (ar_from _ _ _ _ _ _ _ _ Har)
                (ar_free _ _ _ _ _ _ _ _ Har)) as Hu.
  exists (l1 ++ a_take c (align_up sz) ++ l2), (taken c (align_up sz)).
  split_and!; [apply Har | done | by rewrite Hu; apply elem_of_cons; left | done | | done |].
  - unfold taken. cbn [b_size]. pose proof (ar_fit _ _ _ _ _ _ _ _ Har). destruct (_ <? _); lia.
  - by eapply served_keeps.
Qed.

(** * calloc *)

Lemma calloc_cases hp bs (nmemb sz : Z) :
  heap_rep hp bs -> pa_inv (vm hp) -> fits 64 nmemb -> fits 64 sz ->
  nmemb * sz < 2 ^ 63 \/ 2 ^ 64 <= nmemb * sz ->
  match calloc hp nmemb sz with
  | Ret (p, hp') =>
      (p = NULL /\ hp' = hp /\ (nmemb * sz = 0 \/ 2 ^ 64 <= nmemb * sz)) \/
      (exists bs' b, 0 < nmemb * sz < 2 ^ 63 /\
         heap_rep hp' bs' /\ pa_inv (vm hp') /\ p = b_addr b + HDR /\ nmemb * sz <= b_size b /\
         used bs' ≡ₚ b :: used bs /\ keeps (hmem hp) (hmem hp') (used bs) /\
         forall i, 0 <= i < nmemb * sz -> ldb (hmem hp') (p + i) = 0)
  | _ => forall r, malloc hp (nmemb * sz) <> Ret r
  end.
Proof.
  intros Hr Hpa [Hn1 Hn2] [Hs1 Hs2] Hprod. unfold calloc.
  assert (Hguard : negb (nmemb =? 0) && (SIZE_MAX / nmemb <? sz) = (2 ^ 64 <=? nmemb * sz)).
  { unfold SIZE_MAX. destruct (Z.eqb_spec nmemb 0) as [-> | Hne]; [lia |]. cbn [negb andb].
    pose proof (Z.mul_succ_div_gt 18446744073709551615 nmemb ltac:(lia)).
    pose proof (Z.mul_div_le 18446744073709551615 nmemb ltac:(lia)).
    destruct (Z.ltb_spec (18446744073709551615 / nmemb) sz); nia. }
  rewrite Hguard. destruct (Z.leb_spec (2 ^ 64) (nmemb * sz)) as [Hbig | Hsmall]; [by left; auto |].
  rewrite (wrap_small 64 (nmemb * sz)) by (split; nia).
  destruct (Z.eqb_spec (nmemb * sz) 0) as [Hz | Hnz]; [by left; auto |].
  set (t := nmemb * sz) in *. assert (Ht : 0 < t < 2 ^ 63) by nia. clearbody t.
  destruct (malloc hp t) as [[p hp'] | |] eqn:E; cbn [obind]; [| done..].
  destruct (malloc_ok hp bs t p hp' Hr Hpa Ht E) as (bs' & b & Hr' & Hpa' & Hb & -> & Hsz & Hu & Hk).
  pose proof (align_up_bounds t Ht) as [Ha _].
  pose proof Hb as [_ Hin]%elem_of_used.
  destruct (payload_header hp' bs' b Hr' Hin) as [_ ->].
  pose proof (memset_filled (hmem hp') (b_addr b + HDR) 0 (Z.to_nat t)) as Hf.
  assert (Hc : changes (hmem hp') (memset (hmem hp') (b_addr b + HDR) 0 (Z.to_nat t)) (in_payload b)).
  { eapply filled_changes; [exact Hf |]. intros i Hi. unfold in_payload, b_end. lia. }
  right. exists bs', b. split_and!; try done; try lia.
  - by eapply heap_rep_write.
  - intros c i Hcu Hi. cbn [hmem with_mem]. rewrite <- (Hk c i Hcu Hi).
    eapply (keeps_write hp' bs' b _ (used bs)); try done.
    + intros d Hd. apply (used_subset bs'). rewrite Hu. by apply elem_of_cons; right.
    + pose proof (used_NoDup hp' bs' Hr') as Hnd. rewrite Hu in Hnd. by apply NoDup_cons in Hnd as [? _].
  - intros i Hi. cbn [hmem with_mem]. rewrite Hf.
    by replace ((_ <=? _) && _) with true by lia.
Qed.

(** [calloc] refuses a product that does not fit in 64 bits and a product of 0, and
    otherwise returns a block as [malloc] does, with every byte of the request 0. *)
Theorem calloc_spec hp bs (nmemb sz : Z) :
  heap_rep hp bs -> pa_inv (vm hp) -> fits 64 nmemb -> fits 64 sz ->
  nmemb * sz < 2 ^ 63 \/ 2 ^ 64 <= nmemb * sz ->
  match calloc hp nmemb sz with
  | Ret (p, hp') =>
      (p = NULL /\ hp' = hp /\ (nmemb * sz = 0 \/ 2 ^ 64 <= nmemb * sz)) \/
      (exists bs' b, 0 < nmemb * sz < 2 ^ 63 /\
         heap_rep hp' bs' /\ pa_inv (vm hp') /\ p = b_addr b + HDR /\ nmemb * sz <= b_size b /\
         used bs' ≡ₚ b :: used bs /\ keeps (hmem hp) (hmem hp') (used bs) /\
         forall i, 0 <= i < nmemb * sz -> ldb (hmem hp') (p + i) = 0)
  | _ => forall r, malloc hp (nmemb * sz) <> Ret r
  end.
Proof. apply calloc_cases. Qed.

(** * realloc *)

Lemma realloc_in_place hp l1 b l2 (s : Z) :
  heap_rep hp (l1 ++ b :: l2) -> b_free b = false -> 0 <= s <= b_size b ->
  exists b' bs', heap_rep (split_block hp (b_addr b) s) bs' /\
    b_addr b' = b_addr b /\ s <= b_size b' /\ used bs' = used l1 ++ b' :: used l2 /\
    keeps (hmem hp) (hmem (split_block hp (b_addr b) s)) (used l1 ++ used l2) /\
    (forall i, 0 <= i < s -> ldb (hmem (split_block hp (b_addr b) s)) (b_addr b + HDR + i) =
                            ldb (hmem hp) (b_addr b + HDR + i)).
Proof.
  intros Hr Hb Hs. destruct (split_block_rep hp l1 b l2 s Hr Hs) as (H1 & H2 & H3).
  exists (if b_size b <? s + MIN_SPLIT_SIZE then b else mk_blk (b_addr b) s (b_free b)),
    (l1 ++ a_split b s ++ l2).
  split_and!; [done | by destruct (_ <? _) | | | |].
  - destruct (_ <? _); cbn [b_size]; lia.
  - rewrite !used_app. f_equal. unfold a_split.
    destruct (b_size b <? s + MIN_SPLIT_SIZE); rewrite !used_cons; cbn [b_free]; by rewrite Hb.
  - intros c i Hc Hi. apply H2. intros [Hh | Hp].
    + assert (Hcin : c ∈ l1 ++ b :: l2).
      { apply elem_of_app in Hc as [Hc | Hc]; apply elem_of_used in Hc as [_ Hc]; set_solver. }
      by apply (payload_not_hdr _ _ _ _ _ (hr_tile _ _ Hr) Hcin Hi).
    + destruct (heap_rep_pos hp l1 b _ Hr) as (Ht1 & Ht2 & _). unfold in_payload in *.
      apply elem_of_app in Hc as [Hc | Hc]; apply elem_of_used in Hc as [_ Hc].
      * pose proof (tile_elem _ _ _ _ Ht1 Hc). unfold HDR in *. lia.
      * pose proof (tile_elem _ _ _ _ Ht2 Hc). unfold HDR in *. lia.
  - intros i Hi. apply H2. intros [Hh | Hp]; [| lia].
    apply (payload_not_hdr _ _ _ b _ (hr_tile _ _ Hr) (elem_middle _ _ _)) in Hh; [done |].
    unfold in_payload, b_end. lia.
Qed.

(** The moving branch: allocate, copy, free. *)
Lemma realloc_move hp bs b (s p : Z) hp1 :
  heap_rep hp bs -> pa_inv (vm hp) -> b ∈ used bs -> 0 < s < 2 ^ 63 -> b_size b < s ->
  malloc hp s = Ret (p, hp1) ->
  let m := memcpy (hmem hp1) p (b_addr b + HDR) (Z.to_nat (b_size b)) in
  exists hp' bs' b' rest, free (with_mem hp1 m) (b_addr b + HDR) = Ret hp' /\
    size (rd_hdr (hmem hp1) (b_addr b)) = b_size b /\
    heap_rep hp' bs' /\ pa_inv (vm hp') /\ p = b_addr b' + HDR /\ (p =? NULL) = false /\ s <= b_size b' /\
    used bs ≡ₚ b :: rest /\ used bs' ≡ₚ b' :: rest /\ keeps (hmem hp) (hmem hp') rest /\
    (forall i, 0 <= i < b_size b -> ldb (hmem hp') (p + i) = ldb (hmem hp) (b_addr b + HDR + i)).
Proof.
  intros Hr Hpa Hb Hs Hsz E m. pose proof (align_up_bounds s Hs) as [Ha _].
  destruct (malloc_ok hp bs s p hp1 Hr Hpa Hs E) as (bs1 & c & Hr1 & Hpa1 & Hc & -> & Hcs & Hu & Hk).
  assert (Hb1 : b ∈ used bs1) by (rewrite Hu; by apply elem_of_cons; right).
  pose proof (used_NoDup hp1 bs1 Hr1) as Hnd. rewrite Hu in Hnd. apply NoDup_cons in Hnd as [Hcu _].
  pose proof Hb1 as [Hbf Hbin]%elem_of_used. pose proof Hc as [_ Hcin]%elem_of_used.
  pose proof (heap_rep_elem hp1 bs1 b Hr1 Hbin) as (_ & Hbs & _).
  assert (Hne : b_addr c <> b_addr b).
  { intros Ebc. by pose proof (tile_addr_inj _ _ _ _ _ (hr_tile _ _ Hr1) Hcin Hbin Ebc) as ->. }
  pose proof (tile_disjoint _ _ _ _ _ (hr_tile _ _ Hr1) Hcin Hbin Hne) as Hdis. unfold b_end in Hdis.
  assert (Hcp : copies (hmem hp1) m (b_addr c + HDR) (b_addr b + HDR) (b_size b)).
  { replace (b_size b) with (Z.of_nat (Z.to_nat (b_size b))) by lia.
    apply memcpy_copies. unfold HDR in *. lia. }
  assert (Hch : changes (hmem hp1) m (in_payload c)).
  { eapply copies_changes; [exact Hcp |]. intros i Hi. unfold in_payload, b_end. lia. }
  pose proof (heap_rep_write hp1 bs1 c m Hr1 Hcin Hch) as Hr2.
  apply list_elem_of_split in Hbin as (l1 & l2 & ->).
  destruct (free_rep _ l1 b l2 Hr2 Hbf) as (hp' & Ef & Hr' & Hc' & Hv & _ & _).
  assert (Huc : used (a_coalesce l1 (with_flag b true) l2) = used l1 ++ used l2)
    by (by apply used_coalesce).
  assert (Hu1 : b :: used l1 ++ used l2 ≡ₚ c :: used bs).
  { rewrite <- Hu, used_app, used_cons, Hbf. apply Permutation_middle. }
  assert (Hcl : c ∈ used l1 ++ used l2).
  { assert (Hcx : c ∈ b :: used l1 ++ used l2) by (rewrite Hu1; by apply elem_of_cons; left).
    by apply elem_of_cons in Hcx as [-> | ?]. }
  apply list_elem_of_split in Hcl as (k1 & k2 & Ek).
  assert (Hrest : used bs ≡ₚ b :: k1 ++ k2).
  { apply (Permutation_cons_inv (a := c)). rewrite <- Hu1, Ek, <- Permutation_middle. apply perm_swap. }
  pose proof (changes_hdrs_keeps _ _ _ Hr2 Hc') as Hk2.
  exists hp', (a_coalesce l1 (with_flag b true) l2), c, (k1 ++ k2).
  split_and!; [done | | done | by rewrite Hv | done | | lia | done | | |].
  - apply (heap_rep_hdr_elem hp1 _ b Hr1). apply elem_middle.
  - by apply (payload_header hp1 _ c Hr1 Hcin).
  - rewrite Huc, Ek. by rewrite <- Permutation_middle.
  - intros d i Hd Hi.
    assert (Hdu : d ∈ used bs) by (rewrite Hrest; by apply elem_of_cons; right).
    assert (Hd1 : d ∈ used (l1 ++ b :: l2)) by (rewrite Hu; by apply elem_of_cons; right).
    rewrite (Hk2 d i) by (done || by apply used_subset).
    rewrite <- (Hk d i Hdu Hi). cbn [hmem with_mem].
    eapply (keeps_write hp1 _ c m (used bs)); try done.
    intros x Hx. apply used_subset. rewrite Hu. by apply elem_of_cons; right.
  - intros i Hi. rewrite (Hk2 c) by (done || unfold in_payload, b_end; lia).
    cbn [hmem with_mem]. rewrite Hcp. replace ((_ <=? _) && _) with true by lia.
    rewrite <- (Hk b) by (done || unfold in_payload, b_end; lia). f_equal. lia.
Qed.

Lemma realloc_cases hp bs b (new_size : Z) :
  heap_rep hp bs -> pa_inv (vm hp) -> b ∈ used bs -> 0 < new_size < 2 ^ 62 ->
  match realloc hp (b_addr b + HDR) new_size with
  | Ret (p, hp') => exists bs' b' rest,
      heap_rep hp' bs' /\ pa_inv (vm hp') /\ p = b_addr b' + HDR /\ new_size <= b_size b' /\
      used bs ≡ₚ b :: rest /\ used bs' ≡ₚ b' :: rest /\ keeps (hmem hp) (hmem hp') rest /\
      forall i, 0 <= i < Z.min (b_size b) new_size ->
        ldb (hmem hp') (p + i) = ldb (hmem hp) (b_addr b + HDR + i)
  | _ => b_size b < align_up new_size /\ forall r, malloc hp (align_up new_size) <> Ret r
  end.
Proof.
  intros Hr Hpa Hb Hsz. pose proof (align_up_bounds new_size ltac:(lia)) as [Ha _].
  pose proof Hb as [Hbf Hin]%elem_of_used. destruct (payload_header hp bs b Hr Hin) as [E1 E2].
  destruct (heap_rep_hdr_elem hp bs b Hr Hin) as (Em & Es & _).
  unfold realloc. rewrite E2, E1, Em, Es, Z.eqb_refl. replace (new_size =? 0) with false by lia.
  cbn [negb]. destruct (Z.leb_spec (align_up new_size) (b_size b)) as [Hle | Hgt].
  - apply list_elem_of_split in Hin as (l1 & l2 & ->).
    destruct (realloc_in_place hp l1 b l2 (align_up new_size) Hr Hbf ltac:(lia))
      as (b' & bs' & H1 & H2 & H3 & H4 & H5 & H6).
    destruct (split_block_rep hp l1 b l2 (align_up new_size) Hr ltac:(lia)) as (_ & _ & Hv).
    exists bs', b', (used l1 ++ used l2). split_and!; [done | by rewrite Hv | by rewrite H2 | lia | | | done |].
    + rewrite used_app, used_cons, Hbf. by rewrite <- Permutation_middle.
    + rewrite H4. by rewrite <- Permutation_middle.
    + intros i Hi. apply H6. lia.
  - destruct (malloc hp (align_up new_size)) as [[p hp1] | |] eqn:E; cbn [obind]; [| done..].
    destruct (realloc_move hp bs b (align_up new_size) p hp1 Hr Hpa Hb ltac:(lia) Hgt E)
      as (hp' & bs' & b' & rest & Ef & Esz & H1 & H2 & H3 & H4 & H5 & H6 & H7 & H8 & H9).
    rewrite H4, Esz, Ef. cbn [obind]. exists bs', b', rest. split_and!; try done; [lia |].
    intros i Hi. apply H9. lia.
Qed.

(** [realloc] of a block in use to a non-zero size keeps the first
    min(old, new) bytes, whether it shrinks in place or moves; the block is replaced
    by one large enough, and every other block in use keeps its place and contents. *)
Theorem realloc_spec hp bs b (new_size : Z) :
  heap_rep hp bs -> pa_inv (vm hp) -> b ∈ used bs -> 0 < new_size < 2 ^ 62 ->
  match realloc hp (b_addr b + HDR) new_size with
  | Ret (p, hp') => exists bs' b' rest,
      heap_rep hp' bs' /\ pa_inv (vm hp') /\ p = b_addr b' + HDR /\ new_size <= b_size b' /\
      used bs ≡ₚ b :: rest /\ used bs' ≡ₚ b' :: rest /\ keeps (hmem hp) (hmem hp') rest /\
      forall i, 0 <= i < Z.min (b_size b) new_size ->
        ldb (hmem hp') (p + i) = ldb (hmem hp) (b_addr b + HDR + i)
  | _ => b_size b < align_up new_size /\ forall r, malloc hp (align_up new_size) <> Ret r
  end.
Proof. apply realloc_cases. Qed.

(** * Aligned allocation *)

Lemma land_pow2_pred (k : Z) : 0 <= k -> Z.land (2 ^ k) (2 ^ k - 1) = 0.
Proof.
  intros Hk. replace (2 ^ k - 1) with (Z.ones k) by (rewrite Z.ones_equiv; lia).
  rewrite Z.land_ones by done. apply Z_mod_same_full.
Qed.

(** [malloc_aligned] with a power of two returns an address that is a multiple of
    it, with [sz] bytes inside a fresh block behind a word that holds the block's own
    address; whatever the client then writes to those bytes, [free_aligned] frees
    exactly that block. *)
Theorem malloc_aligned_spec hp bs (sz k : Z) :
  heap_rep hp bs -> pa_inv (vm hp) -> 0 <= sz < 2 ^ 61 -> 3 <= k < 62 ->
  match malloc_aligned hp sz (2 ^ k) with
  | Ret (p, hp') => exists bs' b,
      heap_rep hp' bs' /\ pa_inv (vm hp') /\ b ∈ used bs' /\
      used bs' ≡ₚ b :: used bs /\ keeps (hmem hp) (hmem hp') (used bs) /\
      p mod 2 ^ k = 0 /\ b_addr b + HDR + 8 <= p /\ p + sz <= b_end b /\
      forall m, changes (hmem hp') m (fun i => p <= i < p + sz) ->
        free_aligned (with_mem hp' m) p = free (with_mem hp' m) (b_addr b + HDR)
  | _ => forall r, malloc hp (sz + 2 ^ k + 7) <> Ret r
  end.
Proof.
  intros Hr Hpa Hsz Hk. assert (Hal : 2 ^ 3 <= 2 ^ k < 2 ^ 62).
  { split; [apply Z.pow_le_mono_r | apply Z.pow_lt_mono_r]; lia. }
  unfold malloc_aligned, ALIGN, sub64, add64. replace (2 ^ k <? 8) with false by lia.
  rewrite (wrap_small 64 (2 ^ k - 1)) by (split; lia). rewrite land_pow2_pred by lia. cbn [Z.eqb negb].
  rewrite (wrap_small 64 (sz + 2 ^ k)) by (split; lia).
  rewrite (wrap_small 64) by (split; lia).
  replace (sz + 2 ^ k - 1 + 8) with (sz + 2 ^ k + 7) by lia.
  destruct (malloc hp (sz + 2 ^ k + 7)) as [[p hp1] | |] eqn:E; cbn [obind]; [| done..].
  destruct (malloc_ok hp bs (sz + 2 ^ k + 7) p hp1 Hr Hpa ltac:(lia) E)
    as (bs' & b & Hr1 & Hpa1 & Hb & -> & Hbs & Hu & Hkp).
  pose proof (align_up_bounds (sz + 2 ^ k + 7) ltac:(lia)) as [Ha _].
  pose proof Hb as [_ Hin]%elem_of_used. destruct (payload_header hp1 bs' b Hr1 Hin) as [_ ->].
  pose proof (heap_rep_elem hp1 bs' b Hr1 Hin) as (Hlo & _ & _ & Hhi).
  unfold b_end, MIN_SPLIT_SIZE, HDR, ALIGN in *.
  rewrite (wrap_small 64 (b_addr b + 40 + 8)) by (split; lia).
  rewrite wrap_sub_l.
  rewrite (wrap_small 64 (b_addr b + 40 + 8 + 2 ^ k - 1)) by (split; lia). rewrite land_wnot_pow2 by (lia || (split; lia)).
  set (x := b_addr b + 40 + 8 + 2 ^ k - 1) in *.
  pose proof (Z.div_mod x (2 ^ k) ltac:(lia)) as Hdm.
  pose proof (Z.mod_pos_bound x (2 ^ k) ltac:(lia)) as Hmb.
  set (q := x / 2 ^ k * 2 ^ k) in *. assert (Hq : b_addr b + 48 <= q <= x) by lia.
  rewrite (wrap_small 64 (q - 8)) by (split; lia).
  assert (Hc : changes (hmem hp1) (st64 (hmem hp1) (q - 8) (b_addr b + 40)) (in_payload b)).
  { apply store_changes. intros i Hi. unfold in_payload, b_end, HDR in *. lia. }
  exists bs', b. split_and!; try done; try lia.
  - by eapply heap_rep_write.
  - intros c i Hcu Hi. cbn [hmem with_mem]. rewrite <- (Hkp c i Hcu Hi).
    eapply (keeps_write hp1 bs' b _ (used bs)); try done.
    + intros d Hd. apply (used_subset bs'). rewrite Hu. by apply elem_of_cons; right.
    + pose proof (used_NoDup hp1 bs' Hr1) as Hnd. rewrite Hu in Hnd. by apply NoDup_cons in Hnd as [? _].
  - unfold q. apply Z_mod_mult.
  - intros m Hm. unfold free_aligned. cbn [hmem with_mem] in *.
    replace (q =? NULL) with false by (unfold NULL; lia). f_equal. unfold sub64.
    rewrite wrap_small by (split; lia).
    transitivity (ld64 (st64 (hmem hp1) (q - 8) (b_addr b + 40)) (q - 8)).
    + apply load_ext. intros i Hi. apply Hm. lia.
    + apply load_store_eq. split; simpl; lia.
Qed.

(** * Initialisation and statistics *)

(** [malloc_init] makes the whole region one free block and establishes the
    invariant; it refuses NULL and a region too small for one header, and then
    changes nothing. *)
Theorem malloc_init_spec hp (start len : Z) :
  fits 64 start -> fits 64 len ->
  (start = NULL \/ len < HDR -> malloc_init hp start len = (-1, hp)) /\
  (MIN_SPLIT_SIZE <= start -> HDR <= len <= HEAP_MAX_SIZE -> start + HEAP_MAX_SIZE < 2 ^ 64 ->
   exists hp', malloc_init hp start len = (0, hp') /\ vm hp' = vm hp /\
     heap_rep hp' [mk_blk start (len - HDR) true]).
Proof.
  intros [Hs1 Hs2] [Hl1 Hl2]. unfold malloc_init, NULL. split.
  { intros Hb. replace ((start =? 0) || (len <? HDR)) with true by lia. done. }
  intros Hlo Hlen Hhi. unfold MIN_SPLIT_SIZE, HDR, ALIGN, HEAP_MAX_SIZE in *.
  replace ((start =? 0) || (len <? 40)) with false by lia.
  eexists. split; [reflexivity |]. split; [done |]. unfold sub64, add64.
  rewrite !(wrap_small 64) by (split; lia).
  split; cbn [heap_start_virt heap_end_virt heap_current_size heap_head heap_tail hmem last_addr b_addr];
    unfold MIN_SPLIT_SIZE, HDR, ALIGN, HEAP_MAX_SIZE; try done; try lia; [| cbn; unfold HDR; lia].
  split; [| done]. cbn [b_addr b_size b_free hd_addr].
  rewrite rd_set_prev, rd_set_next, rd_set_free, rd_set_size by (split; lia).
  unfold hdr_with_prev, hdr_with_next, hdr_with_free, hdr_with_size. cbn [magic size free_flag prev next].
  f_equal. unfold rd_hdr, set_magic. cbn [magic]. apply load_store_eq. split; simpl; unfold MAGIC; lia.
Qed.

Definition avail bs : list blk := filter (fun b => b_free b = true) bs.
Definition total_size bs : Z := foldr (fun b acc => b_size b + acc) 0 bs.
Definition largest bs : Z := foldr (fun b acc => Z.max (b_size b) acc) 0 bs.

Lemma largest_nonneg bs : 0 <= largest bs.
Proof. induction bs as [|b bs IH]; cbn [largest foldr]; [done |]. unfold largest in IH. lia. Qed.

Lemma avail_cons b l : avail (b :: l) = if b_free b then b :: avail l else avail l.
Proof. unfold avail. rewrite filter_cons. by destruct (b_free b). Qed.

(** The walk of [get_kmalloc_stats], from any partial result that leaves room. *)
Lemma stats_from_rep (fuel : nat) (m : mem) (p a e : Z) bs (st : kmalloc_stats) :
  dlseg m p bs NULL -> tile a bs e -> 0 < a -> (length bs < fuel)%nat ->
  0 <= total_managed st -> total_managed st + (e - a) < 2 ^ 64 ->
  0 <= used_payload st <= total_managed st -> 0 <= free_payload st <= total_managed st ->
  0 <= num_used st -> 0 <= num_free st -> 0 <= num_blocks st ->
  num_used st <= total_managed st -> num_free st <= total_managed st -> num_blocks st <= total_managed st ->
  0 <= largest_free st ->
  exists st', stats_from fuel m (hd_addr bs NULL) st = Ret st' /\
    total_managed st' = total_managed st + (e - a) /\
    num_blocks st' = num_blocks st + Z.of_nat (length bs) /\
    num_used st' = num_used st + Z.of_nat (length (used bs)) /\
    num_free st' = num_free st + Z.of_nat (length (avail bs)) /\
    used_payload st' = used_payload st + total_size (used bs) /\
    free_payload st' = free_payload st + total_size (avail bs) /\
    largest_free st' = Z.max (largest_free st) (largest (avail bs)).
Proof.
  revert fuel p a st. induction bs as [|b bs IH]; intros [|fuel] p a st Hd Ht Ha Hf H1 H2 H3 H4 H5 H6 H7 H8 H9 H10 H11;
    cbn [length] in Hf; try lia.
  { cbn [tile] in Ht. exists st. split; [done |]. cbn. split_and!; lia. }
  cbn [dlseg tile] in *. destruct Hd as [Hh Hd], Ht as (Hb & Hs & Ht).
  cbn [stats_from hd_addr]. replace (b_addr b =? NULL) with false by (unfold NULL; lia).
  rewrite Hh. cbn [next].
  assert (Est : stats_step st m (b_addr b) =
    if b_free b then
      mk_stats (total_managed st + (HDR + b_size b)) (used_payload st) (free_payload st + b_size b)
        (Z.max (largest_free st) (b_size b)) (num_blocks st + 1) (num_used st) (num_free st + 1)
    else
      mk_stats (total_managed st + (HDR + b_size b)) (used_payload st + b_size b) (free_payload st)
        (largest_free st) (num_blocks st + 1) (num_used st + 1) (num_free st)).
  { pose proof (tile_le _ _ _ Ht). unfold stats_step, is_free, HDR in *. rewrite Hh. cbn [size free_flag].
    destruct (b_free b); cbn [Z.eqb negb]; rewrite !wrap_small by (split; lia); [| done].
    f_equal. destruct (Z.ltb_spec (largest_free st) (b_size b)); lia. }
  pose proof (tile_le _ _ _ Ht) as Hle.
  rewrite Est, used_cons, avail_cons. set (st1 := if b_free b then _ else _).
  destruct (IH fuel (b_addr b) _ st1 Hd Ht) as (st' & E & R1 & R2 & R3 & R4 & R5 & R6 & R7);
    try (unfold st1, HDR in *; destruct (b_free b);
         cbn [total_managed used_payload free_payload largest_free num_blocks num_used num_free]; lia).
  exists st'. split; [done |]. unfold st1, HDR in *.
  destruct (b_free b); cbn [total_managed used_payload free_payload largest_free num_blocks num_used num_free
    length total_size largest foldr] in *; fold (total_size (used bs)) (total_size (avail bs)) (largest (avail bs)) in *;
    split_and!; lia.
Qed.

(** [get_kmalloc_stats] terminates and reports the heap exactly: the managed bytes
    are the whole heap, and the counts and sums are those of the blocks in use and of
    the free blocks. *)
Theorem kmalloc_stats_spec hp bs :
  heap_rep hp bs ->
  exists st, get_kmalloc_stats hp = Ret st /\
    total_managed st = heap_current_size hp /\
    num_blocks st = Z.of_nat (length bs) /\ num_used st = Z.of_nat (length (used bs)) /\
    num_free st = Z.of_nat (length (avail bs)) /\
    used_payload st = total_size (used bs) /\ free_payload st = total_size (avail bs) /\
    largest_free st = largest (avail bs).
Proof.
  intros Hr. pose proof (heap_rep_end _ _ Hr) as He. pose proof (hr_lo _ _ Hr) as Hlo.
  unfold get_kmalloc_stats. rewrite (heap_rep_head _ _ Hr).
  destruct (stats_from_rep (heap_fuel hp) (hmem hp) NULL (heap_start_virt hp) (heap_end_virt hp) bs
    (mk_stats 0 0 0 0 0 0 0)) as (st & E & H1 & H2 & H3 & H4 & H5 & H6 & H7);
    cbn [total_managed used_payload free_payload largest_free num_blocks num_used num_free] in *;
    try apply Hr; try (unfold MIN_SPLIT_SIZE, HDR, ALIGN in *; lia); try by apply heap_rep_fuel.
  pose proof (largest_nonneg (avail bs)). exists st. rewrite (hr_size _ _ Hr). split_and!; try done; lia.
Qed.

(** [align_up] wraps: for the seven largest sizes [malloc] looks for a block of 0
    bytes and returns the first free block cut down to an empty payload, instead of
    failing. *)
Theorem malloc_size_wraps hp bs (sz : Z) c :
  heap_rep hp bs -> 2 ^ 64 - 8 < sz < 2 ^ 64 -> a_find 0 bs = Some c -> MIN_SPLIT_SIZE <= b_size c ->
  exists hp' bs', malloc hp sz = Ret (b_addr c + HDR, hp') /\ heap_rep hp' bs' /\
    mk_blk (b_addr c) 0 false ∈ bs'.
Proof.
  intros Hr Hsz Hf Hc.
  assert (Ea : align_up sz = 0).
  { unfold align_up, ALIGN. replace (u64 (sz + (8 - 1))) with (sz + 7 - 2 ^ 64).
    - change (8 - 1) with (2 ^ 3 - 1). rewrite land_wnot_pow2 by (lia || (split; lia)).
      rewrite Z.div_small by lia. done.
    - unfold wrap. dlia. }
  destruct (malloc_found hp bs sz c Hr ltac:(lia)) as (hp' & l1 & l2 & E & Har & _);
    rewrite ?Ea; try done; try lia.
  rewrite Ea in Har. exists hp', (l1 ++ a_take c 0 ++ l2). split_and!; [done | apply Har |].
  unfold a_take, taken. replace (b_size c <? 0 + MIN_SPLIT_SIZE) with false by lia.
  cbn [app]. apply elem_middle.
Qed.

(** * The abstract allocator

    Clients see a heap as a set of live ranges.  A client step is a successful call
    with a pointer it owns, or a write inside a live range. *)

Definition live := list (Z * Z).

Definition matches b (r : Z * Z) : Prop := r.1 = b_addr b + HDR /\ 0 < r.2 <= b_size b.

Definition live_rep bs (lv : live) : Prop :=
  exists us, used bs ≡ₚ us /\ Forall2 matches us lv.

Inductive client_step : heap S * live -> heap S * live -> Prop :=
| cs_malloc hp hp' lv sz p :
    0 < sz < 2 ^ 63 -> malloc hp sz = Ret (p, hp') ->
    client_step (hp, lv) (hp', (p, sz) :: lv)
| cs_calloc hp hp' lv k sz p :
    fits 64 k -> fits 64 sz -> k * sz < 2 ^ 63 -> calloc hp k sz = Ret (p, hp') -> p <> NULL ->
    client_step (hp, lv) (hp', (p, k * sz) :: lv)
| cs_free hp hp' lv1 p sz lv2 :
    free hp p = Ret hp' -> client_step (hp, lv1 ++ (p, sz) :: lv2) (hp', lv1 ++ lv2)
| cs_realloc hp hp' lv1 p sz lv2 p' sz' :
    0 < sz' < 2 ^ 62 -> realloc hp p sz' = Ret (p', hp') ->
    client_step (hp, lv1 ++ (p, sz) :: lv2) (hp', (p', sz') :: lv1 ++ lv2)
| cs_write hp lv1 p sz lv2 m :
    changes (hmem hp) m (fun i => p <= i < p + sz) ->
    client_step (hp, lv1 ++ (p, sz) :: lv2) (with_mem hp m, lv1 ++ (p, sz) :: lv2).

(** What every state a client can reach satisfies. *)
Definition client_ok (st : heap S * live) : Prop :=
  exists bs, heap_rep st.1 bs /\ pa_inv (vm st.1) /\ live_rep bs st.2.

(** The block behind a live range. *)
Lemma live_rep_pick bs lv1 p sz lv2 :
  live_rep bs (lv1 ++ (p, sz) :: lv2) ->
  exists b us, matches b (p, sz) /\ b ∈ used bs /\ used bs ≡ₚ b :: us /\ Forall2 matches us (lv1 ++ lv2).
Proof.
  intros (us & Hp & HF). apply Forall2_app_inv_r in HF as (u1 & u2 & H1 & H2 & ->).
  apply Forall2_cons_inv_r in H2 as (b & u2' & Hb & H2 & ->).
  exists b, (u1 ++ u2'). split_and!; [done | | | by apply Forall2_app].
  - rewrite Hp. apply elem_middle.
  - rewrite Hp. by rewrite <- Permutation_middle.
Qed.

Lemma live_rep_add bs bs' b lv r :
  live_rep bs lv -> used bs' ≡ₚ b :: used bs -> matches b r -> live_rep bs' (r :: lv).
Proof.
  intros (us & Hp & HF) Hu Hb. exists (b :: us). split; [by rewrite Hu, Hp | by constructor].
Qed.

Lemma client_step_ok (st st' : heap S * live) : client_step st st' -> client_ok st -> client_ok st'.
Proof.
  intros Hst (bs & Hr & Hpa & Hl). destruct Hst as
    [hp hp' lv sz p Hsz E | hp hp' lv k sz p Hk Hsz Hp E Hne | hp hp' lv1 p sz lv2 E
    | hp hp' lv1 p sz lv2 p' sz' Hsz E | hp lv1 p sz lv2 m Hc]; cbn [fst snd] in *.
  - destruct (malloc_ok hp bs sz p hp' Hr Hpa Hsz E) as (bs' & b & Hr' & Hpa' & _ & -> & Hs & Hu & _).
    pose proof (align_up_bounds sz Hsz). exists bs'. split_and!; [done | done |].
    eapply live_rep_add; [done | done |]. split; cbn; [done | lia].
  - pose proof (calloc_cases hp bs k sz Hr Hpa Hk Hsz ltac:(lia)) as H'. rewrite E in H'.
    destruct H' as [(-> & _) | (bs' & b & Ht & Hr' & Hpa' & -> & Hs & Hu & _)]; [done |].
    exists bs'. split_and!; [done | done |]. eapply live_rep_add; [done | done |]. split; cbn; [done | lia].
  - destruct (live_rep_pick _ _ _ _ _ Hl) as (b & us & [Hb1 Hb2] & Hin & Hu & HF). cbn in Hb1, Hb2. subst p.
    pose proof Hin as [Hbf Hbin]%elem_of_used. apply list_elem_of_split in Hbin as (l1 & l2 & ->).
    destruct (free_rep hp l1 b l2 Hr Hbf) as (hp1 & E' & Hr' & _ & Hv & _).
    rewrite E in E'. injection E' as <-. eexists. cbn [fst snd]. split_and!; [exact Hr' | by rewrite Hv |].
    exists us. split; [| done]. rewrite (used_coalesce l1 (with_flag b true) l2) by done.
    apply (Permutation_cons_inv (a := b)). rewrite <- Hu, used_app, used_cons, Hbf. apply Permutation_middle.
  - destruct (live_rep_pick _ _ _ _ _ Hl) as (b & us & [Hb1 Hb2] & Hin & Hu & HF). cbn in Hb1, Hb2. subst p.
    pose proof (realloc_cases hp bs b sz' Hr Hpa Hin Hsz) as H'. rewrite E in H'.
    destruct H' as (bs' & b' & rest & Hr' & Hpa' & -> & Hs & Hu1 & Hu2 & _).
    exists bs'. split_and!; [done | done |]. exists (b' :: us). split.
    + rewrite Hu2. f_equiv. apply (Permutation_cons_inv (a := b)). by rewrite <- Hu, <- Hu1.
    + constructor; [split; cbn; [done | lia] | done].
  - destruct (live_rep_pick _ _ _ _ _ Hl) as (b & us & [Hb1 Hb2] & Hin & Hu & HF). cbn in Hb1, Hb2. subst p.
    exists bs. split_and!; [| done | done]. apply (heap_rep_write hp bs b); [done | by apply used_subset |].
    eapply changes_mono; [| exact Hc]. intros i Hi. unfold in_payload, b_end, HDR in *. lia.
Qed.

Lemma Forall2_pair_disjoint (a e : Z) bs us lv :
  tile a bs e -> us ⊆ bs -> NoDup us -> Forall2 matches us lv ->
  ForallOrdPairs (fun r r' => r.1 + r.2 <= r'.1 \/ r'.1 + r'.2 <= r.1) lv.
Proof.
  intros Ht. revert lv. induction us as [|b us IH]; intros lv Hsub Hnd HF.
  { apply Forall2_nil_inv_l in HF as ->. constructor. }
  apply Forall2_cons_inv_l in HF as (r & lv' & Hb & HF & ->). apply NoDup_cons in Hnd as [Hnin Hnd].
  constructor; [| apply IH; try done; set_solver].
  apply Forall_forall. intros r' Hr'.
  apply list_elem_of_lookup in Hr' as (i & Hi).
  destruct (Forall2_lookup_r _ _ _ _ _ HF Hi) as (c & Hc & Hm).
  apply list_elem_of_lookup_2 in Hc.
  assert (Hne : b_addr b <> b_addr c).
  { intros Ebc. assert (b = c) as -> by (eapply tile_addr_inj; [exact Ht | set_solver | set_solver | done]). done. }
  pose proof (tile_disjoint _ _ _ b c Ht ltac:(set_solver) ltac:(set_solver) Hne) as Hd.
  destruct Hb as [Hb1 Hb2], Hm as [Hm1 Hm2]. unfold b_end, HDR in *. lia.
Qed.

(** C2: refinement.  After any sequence of malloc, calloc, free and realloc calls on
    pointers the client owns, interleaved with arbitrary writes inside its live ranges,
    the heap is well-formed, the live ranges are pairwise disjoint and inside the heap,
    and freeing any of them succeeds. *)
Theorem heap_refines_allocator hp bs hp' lv :
  heap_rep hp bs -> used bs = [] -> pa_inv (vm hp) ->
  rtc client_step (hp, []) (hp', lv) ->
  (exists bs', heap_rep hp' bs' /\ live_rep bs' lv) /\
  ForallOrdPairs (fun r r' => r.1 + r.2 <= r'.1 \/ r'.1 + r'.2 <= r.1) lv /\
  forall p sz, (p, sz) ∈ lv ->
    heap_start_virt hp' < p /\ p + sz <= heap_end_virt hp' /\ exists hp'', free hp' p = Ret hp''.
Proof.
  intros Hr Hu Hpa Hrun.
  assert (Hok : client_ok (hp', lv)).
  { apply (rtc_ind_r (fun st => client_ok st) (hp, [])) in Hrun; [done | |].
    - exists bs. split_and!; [done | done |]. exists []. by rewrite Hu.
    - intros st st' _ Hs Hst. by eapply client_step_ok. }
  destruct Hok as (bs' & Hr' & Hpa' & Hl). cbn [fst snd] in *. split; [by exists bs' |]. split.
  - destruct Hl as (us & Hp & HF). eapply Forall2_pair_disjoint; [apply (hr_tile _ _ Hr') | | | exact HF].
    + intros b Hb. apply used_subset. by rewrite Hp.
    + rewrite <- Hp. by eapply used_NoDup.
  - intros p sz Hin. apply list_elem_of_split in Hin as (lv1 & lv2 & ->).
    destruct (live_rep_pick _ _ _ _ _ Hl) as (b & us & [Hb1 Hb2] & Hin & Hub & HF). cbn in Hb1, Hb2. subst p.
    pose proof Hin as [Hbf Hbin]%elem_of_used.
    pose proof (tile_elem _ _ _ _ (hr_tile _ _ Hr') Hbin) as (Hlo & _ & Hhi).
    split_and!; [unfold HDR; lia | unfold b_end in Hhi; lia |].
    apply list_elem_of_split in Hbin as (l1 & l2 & ->).
    destruct (free_rep hp' l1 b l2 Hr' Hbf) as (hp1 & E' & _). eauto.
Qed.
End spec.

(** * Instances

    A heap of one page at 2 MiB over the machine of PagingSpec.v, fresh and after one
    allocation of 100 bytes. *)

Definition demo_heap : heap machine :=
  (malloc_init (mk_heap (fun _ => 0) 0 0 0 0 0 demo_machine) 0x200000 4096).2.

Definition demo_heap_used : heap machine :=
  match malloc demo_heap 100 with Ret (_, hp) => hp | _ => demo_heap end.

Definition demo_block : blk := mk_blk 0x200000 104 false.

Lemma demo_heap_rep : heap_rep demo_heap [mk_blk 0x200000 4056 true].
Proof. split; done. Qed.

Lemma demo_heap_used_rep :
  heap_rep demo_heap_used [demo_block; mk_blk 0x200090 3912 true].
Proof.
  split; done.
Qed.

Lemma demo_heap_inv : pa_inv (vm demo_heap).
Proof. apply demo_machine_wf. Qed.

Lemma demo_heap_used_inv : pa_inv (vm demo_heap_used).
Proof. replace (vm demo_heap_used) with demo_machine by (vm_compute; reflexivity). apply demo_machine_wf. Qed.

Lemma demo_block_used : demo_block ∈ used [demo_block; mk_blk 0x200090 3912 true].
Proof. by apply elem_of_cons; left. Qed.

Lemma malloc_spec_witness :
  exists p hp' bs', malloc demo_heap 100 = Ret (p, hp') /\ heap_rep hp' bs' /\ p = 0x200028.
Proof.
  pose proof (malloc_spec demo_heap _ 100 demo_heap_rep demo_heap_inv ltac:(lia)) as H.
  destruct (malloc demo_heap 100) as [[p hp'] | |].
  - destruct H as (bs' & b & Hr & _ & _ & -> & _ & _ & _ & Hd).
    exists (b_addr b + HDR), hp', bs'. split; [reflexivity |]. split; [exact Hr |].
    destruct (Hd (mk_blk 0x200000 4056 true) eq_refl) as [-> _]. reflexivity.
  - destruct H as [H _]. discriminate H.
  - destruct H as [H _]. discriminate H.
Defined.

Lemma free_spec_witness :
  exists hp' bs' f, free demo_heap_used 0x200028 = Ret hp' /\ heap_rep hp' bs' /\ f ∈ bs' /\
    b_addr f <= 0x200000 /\ 0x200090 + HDR + 3912 <= b_end f /\ free hp' 0x200028 = Panic.
Proof.
  destruct (free_spec demo_heap_used _ demo_block demo_heap_used_rep demo_block_used)
    as (hp' & bs' & E & Hr & _ & _ & _ & (f & Hf & _ & Ha & _ & Hc) & _ & Hp).
  exists hp', bs', f. split; [exact E |]. split; [exact Hr |]. split; [exact Hf |]. split; [exact Ha |].
  split; [| exact Hp]. apply (Hc (mk_blk 0x200090 3912 true)); [| reflexivity | right; reflexivity].
  apply elem_of_cons. right. apply list_elem_of_singleton. reflexivity.
Defined.

Lemma free_rejects_witness : free demo_heap 0x200028 = Panic /\ free demo_heap 0x200100 = Panic.
Proof.
  split.
  - apply (proj2 (proj2 (free_rejects demo_heap 0x200028))); [discriminate | reflexivity].
  - apply (proj1 (proj2 (free_rejects demo_heap 0x200100))); [discriminate | vm_compute; discriminate].
Defined.

Lemma calloc_spec_witness :
  exists p hp', calloc demo_heap_used 10 8 = Ret (p, hp') /\
    (p = NULL \/ forall i, 0 <= i < 80 -> ldb (hmem hp') (p + i) = 0).
Proof.
  pose proof (calloc_spec demo_heap_used _ 10 8 demo_heap_used_rep demo_heap_used_inv
                ltac:(split; lia) ltac:(split; lia) ltac:(lia)) as H.
  assert (E : exists r, calloc demo_heap_used 10 8 = Ret r).
  { assert (Hok : match calloc demo_heap_used 10 8 with Ret _ => true | _ => false end = true)
      by (vm_compute; reflexivity).
    destruct (calloc demo_heap_used 10 8); [by eexists | done | done]. }
  destruct E as [[p hp'] E]. rewrite E in H |- *. exists p, hp'. split; [reflexivity |].
  destruct H as [(-> & _) | (bs' & b & _ & _ & _ & _ & _ & _ & _ & Hz)]; [by left | by right].
Defined.

Lemma realloc_spec_witness :
  exists p hp', realloc demo_heap_used 0x200028 1000 = Ret (p, hp') /\
    forall i, 0 <= i < 104 -> ldb (hmem hp') (p + i) = ldb (hmem demo_heap_used) (0x200028 + i).
Proof.
  pose proof (realloc_spec demo_heap_used _ demo_block 1000 demo_heap_used_rep demo_heap_used_inv
                demo_block_used ltac:(lia)) as H.
  change (b_addr demo_block + HDR) with 0x200028 in H.
  assert (E : exists r, realloc demo_heap_used 0x200028 1000 = Ret r).
  { assert (Hok : match realloc demo_heap_used 0x200028 1000 with Ret _ => true | _ => false end = true)
      by (vm_compute; reflexivity).
    destruct (realloc demo_heap_used 0x200028 1000); [by eexists | done | done]. }
  destruct E as [[p hp'] E]. rewrite E in H |- *. exists p, hp'. split; [reflexivity |].
  destruct H as (bs' & b' & rest & _ & _ & _ & _ & _ & _ & _ & Hc). exact Hc.
Defined.

Lemma malloc_aligned_spec_witness :
  exists p hp', malloc_aligned demo_heap 100 256 = Ret (p, hp') /\ p mod 256 = 0.
Proof.
  pose proof (malloc_aligned_spec demo_heap _ 100 8 demo_heap_rep demo_heap_inv
                ltac:(lia) ltac:(lia)) as H.
  change (2 ^ 8) with 256 in H.
  assert (E : exists r, malloc_aligned demo_heap 100 256 = Ret r).
  { assert (Hok : match malloc_aligned demo_heap 100 256 with Ret _ => true | _ => false end = true)
      by (vm_compute; reflexivity).
    destruct (malloc_aligned demo_heap 100 256); [by eexists | done | done]. }
  destruct E as [[p hp'] E]. rewrite E in H |- *. exists p, hp'. split; [reflexivity |].
  destruct H as (bs' & b & _ & _ & _ & _ & _ & Hm & _). exact Hm.
Defined.

Lemma malloc_init_spec_witness :
  exists hp', malloc_init demo_heap 0x300000 8192 = (0, hp') /\
    heap_rep hp' [mk_blk 0x300000 8152 true].
Proof.
  destruct (malloc_init_spec demo_heap 0x300000 8192 ltac:(split; lia) ltac:(split; lia)) as [_ H].
  destruct H as (hp' & E & _ & Hr); [vm_compute; congruence | vm_compute; split; congruence | vm_compute; congruence |].
  exists hp'. split; [exact E | exact Hr].
Defined.

Lemma kmalloc_stats_spec_witness :
  exists st, get_kmalloc_stats demo_heap_used = Ret st /\ num_used st = 1.
Proof.
  destruct (kmalloc_stats_spec demo_heap_used _ demo_heap_used_rep) as (st & E & _ & _ & Hu & _).
  exists st. split; [exact E | exact Hu].
Defined.

Lemma malloc_size_wraps_witness :
  exists hp', malloc demo_heap (2 ^ 64 - 1) = Ret (0x200028, hp').
Proof.
  destruct (malloc_size_wraps demo_heap _ (2 ^ 64 - 1) (mk_blk 0x200000 4056 true) demo_heap_rep)
    as (hp' & bs' & E & _); [lia | reflexivity | vm_compute; congruence |].
  exists hp'. exact E.
Defined.

Lemma heap_refines_allocator_witness :
  ForallOrdPairs (fun r r' => r.1 + r.2 <= r'.1 \/ r'.1 + r'.2 <= r.1) [(0x200028, 100)].
Proof.
  refine (proj1 (proj2 (heap_refines_allocator demo_heap _ demo_heap_used [(0x200028, 100)]
    demo_heap_rep eq_refl demo_heap_inv _))).
  apply rtc_once. apply cs_malloc; [lia |]. unfold demo_heap_used.
  assert (Hp : match malloc demo_heap 100 with Ret (p, _) => p | _ => 0 end = 0x200028)
    by (vm_compute; reflexivity).
  destruct (malloc demo_heap 100) as [[p hp] | |]; [by rewrite Hp | done | done].
Defined.
