(* ===== verification/Tss.v ===== *)
(** The task state segment, src/kernel/tss.c: the descriptor that [tss_init] writes
    into the GDT, against the layout the processor reads. *)

From S2P Require Import Prelude.

(** [sizeof(tss_t)] *)
Definition TSS_SIZE : Z := 104.

(** The two words [tss_init] stores in [gdt[5]] and [gdt[6]]. *)
Definition tss_lower (tss_addr : Z) : Z :=
  let tss_limit := TSS_SIZE - 1 in
  let lower := 0 in
  let lower := Z.lor lower (Z.land tss_limit 0xFFFF) in
  let lower := Z.lor lower (u64 (Z.shiftl (Z.land tss_addr 0xFFFFFF) 16)) in
  let lower := Z.lor lower (u64 (Z.shiftl 0x89 40)) in
  Z.lor lower (u64 (Z.shiftl (Z.land (Z.shiftr tss_addr 24) 0xFFFF) 48)).

Definition tss_upper (tss_addr : Z) : Z := Z.land (Z.shiftr tss_addr 40) 0xFFFFFFFF.

(** The TSS fields that are not zero, and the two GDT words. *)
Record tss_state := mk_tss { rsp0 : Z; iopb_offset : Z; gdt5 : Z; gdt6 : Z }.

(** [tss_init]; [tss_addr] is [_tss_buffer], [stack_end] is [&_stack_end]. *)
Definition tss_init (tss_addr stack_end : Z) : outcome tss_state :=
  if tss_addr =? 0 then Panic
  else if stack_end =? 0 then Panic
  else Ret (mk_tss stack_end TSS_SIZE (tss_lower tss_addr) (tss_upper tss_addr)).

Definition tss_update_rsp0 (t : tss_state) (tss_addr v : Z) : tss_state :=
  if tss_addr =? 0 then t else mk_tss v (iopb_offset t) (gdt5 t) (gdt6 t).

(** How the processor reads a 16-byte system descriptor: base bits 23:0 at 16, bits
    31:24 at 56, bits 63:32 in the upper word; limit bits 15:0 at 0 and 19:16 at 48. *)
Definition desc_base (lower upper : Z) : Z :=
  Z.land (Z.shiftr lower 16) 0xFFFFFF + Z.shiftl (Z.land (Z.shiftr lower 56) 0xFF) 24 +
  Z.shiftl (Z.land upper 0xFFFFFFFF) 32.

Definition desc_limit (lower : Z) : Z :=
  Z.land lower 0xFFFF + Z.shiftl (Z.land (Z.shiftr lower 48) 0xF) 16.

Definition desc_access (lower : Z) : Z := Z.land (Z.shiftr lower 40) 0xFF.

(** * Properties *)

Lemma land_ones_mod (x n : Z) : 0 <= n -> Z.land x (2 ^ n - 1) = x mod 2 ^ n.
Proof. intros Hn. replace (2 ^ n - 1) with (Z.ones n) by (rewrite Z.ones_equiv; lia). by apply Z.land_ones. Qed.

(** The words as sums of disjoint bit fields. *)
Lemma tss_lower_sum (a : Z) :
  0 <= a -> tss_lower a = 103 + (a mod 2 ^ 24) * 2 ^ 16 + 0x89 * 2 ^ 40 + (a / 2 ^ 24 mod 2 ^ 16) * 2 ^ 48.
Proof.
  intros Ha. unfold tss_lower, TSS_SIZE.
  change (Z.land (104 - 1) 0xFFFF) with 103. rewrite Z.lor_0_l.
  change 0xFFFFFF with (2 ^ 24 - 1). change 0xFFFF with (2 ^ 16 - 1).
  rewrite !land_ones_mod, Z.shiftr_div_pow2, !Z.shiftl_mul_pow2 by lia.
  set (x := a mod 2 ^ 24). set (y := a / 2 ^ 24 mod 2 ^ 16).
  assert (Hx : 0 <= x < 2 ^ 24) by (apply Z.mod_pos_bound; lia).
  assert (Hy : 0 <= y < 2 ^ 16) by (apply Z.mod_pos_bound; lia).
  rewrite !wrap_small by (split; lia).
  assert (Hor : forall u v k, 0 <= k -> 0 <= u < 2 ^ k -> Z.lor u (v * 2 ^ k) = u + v * 2 ^ k).
  { intros u v k Hk Hu. rewrite <- Z.lxor_lor, <- Z.add_nocarry_lxor; [done | |];
      (by_bits i Hi; rewrite Z.land_spec, Z.bits_0, <- Z.shiftl_mul_pow2, Z.shiftl_spec by lia;
       destruct (Z.lt_ge_cases i k); [by rewrite (Z.testbit_neg_r v) by lia; rewrite andb_false_r |
         by rewrite (fits_testbit k u) by (lia || (split; lia))]). }
  rewrite (Hor 103 x 16) by lia. rewrite (Hor _ 137 40) by lia. rewrite Hor by lia. done.
Qed.

(** The descriptor has the right type and limit and the processor reads back the
    address of the TSS when that is below 16 MiB; from 16 MiB on it reads back another
    address: the bits from 24 on are put eight places too low. *)
Theorem tss_descriptor_spec (a : Z) :
  0 <= a < 2 ^ 48 ->
  desc_access (tss_lower a) = 0x89 /\
  (desc_base (tss_lower a) (tss_upper a) = a <-> a < 2 ^ 24) /\
  (a < 2 ^ 24 -> desc_limit (tss_lower a) = TSS_SIZE - 1).
Proof.
  intros Ha. unfold desc_access, desc_base, desc_limit, tss_upper, TSS_SIZE.
  rewrite tss_lower_sum by lia.
  change 0xFFFFFFFF with (2 ^ 32 - 1). change 0xFFFFFF with (2 ^ 24 - 1).
  change 0xFFFF with (2 ^ 16 - 1). change 0xFF with (2 ^ 8 - 1). change 0xF with (2 ^ 4 - 1).
  rewrite !land_ones_mod, !Z.shiftr_div_pow2, !Z.shiftl_mul_pow2 by lia. split_and!; dlia.
Qed.

Lemma tss_descriptor_spec_witness :
  desc_base (tss_lower 0x00ABCDEF) (tss_upper 0x00ABCDEF) = 0x00ABCDEF /\
  desc_base (tss_lower 0x01000000) (tss_upper 0x01000000) <> 0x01000000.
Proof.
  destruct (tss_descriptor_spec 0x00ABCDEF ltac:(lia)) as (_ & [_ H1] & _).
  destruct (tss_descriptor_spec 0x01000000 ltac:(lia)) as (_ & [H2 _] & _).
  split; [apply H1; lia | intros E; apply H2 in E; lia].
Defined.
