(* ===== verification/Sched.v ===== *)
(** The scheduler, src/kernel/sched.c: tasks in a circular list entered at its tail,
    a list of zombies for deferred clean-up, round-robin choice of the next task, and
    creation and destruction of kernel and user tasks.  Task structures live in a
    typed store keyed by their address; memory and address spaces come from the
    manager below through [TaskMem].  This file holds the operations; SchedSpec.v the
    properties. *)

From S2P Require Import Prelude LibMem Tss.

(** * The memory manager under the scheduler

    What sched.c uses of mm/heap.h and kernel/paging.h.  [tm_live s p] says that [p]
    was returned by malloc and not freed. *)

Class TaskMem (S : Type) := {
  tm_inv : S -> Prop;
  tm_live : S -> Z -> Prop;
  tm_malloc : S -> Z -> outcome (Z * S);
  tm_free : S -> Z -> outcome S;
  tm_create_user : S -> Z -> Z -> outcome (Z * S);
  tm_destroy_user : S -> Z -> S;
  tm_malloc_fresh s n p s' :
    tm_inv s -> 0 < n < 2 ^ 62 -> tm_malloc s n = Ret (p, s') ->
    tm_inv s' /\ 4096 < p /\ ~ tm_live s p /\ forall q, tm_live s' q <-> q = p \/ tm_live s q;
  tm_malloc_end s n p s' :
    tm_inv s -> 0 < n < 2 ^ 62 -> tm_malloc s n = Ret (p, s') -> p + n < 2 ^ 64;
  tm_free_live s p :
    tm_inv s -> tm_live s p ->
    exists s', tm_free s p = Ret s' /\ tm_inv s' /\ forall q, tm_live s' q <-> tm_live s q /\ q <> p;
  tm_create_ok s a n r s' :
    tm_inv s -> tm_create_user s a n = Ret (r, s') ->
    tm_inv s' /\ forall q, tm_live s' q <-> tm_live s q;
  tm_destroy_ok s r :
    tm_inv s -> tm_inv (tm_destroy_user s r) /\ forall q, tm_live (tm_destroy_user s r) q <-> tm_live s q;
  tm_live_pos s p : tm_inv s -> tm_live s p -> 4096 < p
}.

(** * Data *)

Inductive task_state := TASK_RUNNING | TASK_READY | TASK_BLOCKED | TASK_ZOMBIE.

#[export] Instance task_state_eq_dec : EqDecision task_state.
Proof. solve_decision. Defined.

Record task := mk_task {
  pid : Z;
  state : task_state;
  regs : Z;
  kstack : Z;
  kstack_size : Z;
  exit_code : Z;
  next : Z;
  znext : Z;
  user_mem : Z;
  user_mem_size : Z;
  name : Z;
  page_table : Z;
  program_break : Z;
  heap_start : Z;
  heap_end : Z
}.

Definition zero_task : task := mk_task 0 TASK_RUNNING 0 0 0 0 0 0 0 0 0 0 0 0 0.

Definition with_state (t : task) (v : task_state) : task :=
  mk_task (pid t) v (regs t) (kstack t) (kstack_size t) (exit_code t) (next t) (znext t)
    (user_mem t) (user_mem_size t) (name t) (page_table t) (program_break t) (heap_start t) (heap_end t).
Definition with_regs (t : task) (v : Z) : task :=
  mk_task (pid t) (state t) v (kstack t) (kstack_size t) (exit_code t) (next t) (znext t)
    (user_mem t) (user_mem_size t) (name t) (page_table t) (program_break t) (heap_start t) (heap_end t).
Definition with_kstack (t : task) (a n : Z) : task :=
  mk_task (pid t) (state t) (regs t) a n (exit_code t) (next t) (znext t)
    (user_mem t) (user_mem_size t) (name t) (page_table t) (program_break t) (heap_start t) (heap_end t).
Definition with_exit_code (t : task) (v : Z) : task :=
  mk_task (pid t) (state t) (regs t) (kstack t) (kstack_size t) v (next t) (znext t)
    (user_mem t) (user_mem_size t) (name t) (page_table t) (program_break t) (heap_start t) (heap_end t).
Definition with_next (t : task) (v : Z) : task :=
  mk_task (pid t) (state t) (regs t) (kstack t) (kstack_size t) (exit_code t) v (znext t)
    (user_mem t) (user_mem_size t) (name t) (page_table t) (program_break t) (heap_start t) (heap_end t).
Definition with_znext (t : task) (v : Z) : task :=
  mk_task (pid t) (state t) (regs t) (kstack t) (kstack_size t) (exit_code t) (next t) v
    (user_mem t) (user_mem_size t) (name t) (page_table t) (program_break t) (heap_start t) (heap_end t).

Definition NULL : Z := 0.
Definition KSTACK_SIZE : Z := 8 * 1024.
Definition SIZEOF_TASK : Z := 376.
Definition USER_CS : Z := Z.lor 0x18 3.
Definition USER_SS : Z := Z.lor 0x20 3.

(** The static objects: [&init_task], its name and its stack, outside the kernel heap. *)
Definition INIT_TASK : Z := 8.
Definition INIT_NAME : Z := 400.
Definition INIT_STACK : Z := 512.
Definition INIT_STACK_SIZE : Z := 16 * 1024.

(** * The initial stack frame

    [sp[i] = v] for the 22 words the interrupt return pops.  The stack is the block
    from [kstack] to [kstack_top]; the code writes the frame without knowing where the
    block begins, and a frame that reaches below it is a [Crash]. *)

Definition frame_words (entry kstack_top user_stack_top argc argv_ptr : Z) (user_mode : bool) : list Z :=
  [32; 0; 0; 0; 0; 0; 0; 0; 0; 0; u64 argc; argv_ptr; 0; 0; 0; 0; 0; entry;
   if user_mode then USER_CS else 0x08; 0x202;
   if user_mode then user_stack_top else kstack_top;
   if user_mode then USER_SS else 0x10].

Fixpoint store_words (m : mem) (sp : Z) (ws : list Z) : mem :=
  match ws with
  | [] => m
  | w :: ws' => store_words (st64 m sp w) (sp + 8) ws'
  end.

Definition prepare_initial_stack (m : mem) (kstack entry kstack_top user_stack_top argc argv_ptr : Z)
    (user_mode : bool) : outcome (Z * mem) :=
  let sp := Z.land kstack_top (wnot 64 0xF) in
  let sp := sub64 sp (22 * 8) in
  if (kstack <=? sp) && (sp + 22 * 8 <=? kstack_top)
  then Ret (sp, store_words m sp (frame_words entry kstack_top user_stack_top argc argv_ptr user_mode))
  else Crash.

(** * State *)

Section sched.
Context {M : Type} `{TaskMem M}.

(** The file's globals, the task store, the kernel stacks' memory, the interrupt flag,
    the TSS and CR3 registers the scheduler sets, and the two spin locks (each a static
    local of its function). *)
Record sched := mk_sched {
  tasks : gmap Z task;
  task_ring : Z;
  current : Z;
  next_pid : Z;
  zombie_list : Z;
  need_reschedule : bool;
  g_syscall_kstack_top : Z;
  tss_rsp0 : Z;
  cr3 : Z;
  iflag : bool;
  create_lock : bool;
  utask_lock : bool;
  stacks : mem;
  tmem : M
}.

Definition with_tasks (s : sched) (v : gmap Z task) : sched :=
  mk_sched v (task_ring s) (current s) (next_pid s) (zombie_list s) (need_reschedule s)
    (g_syscall_kstack_top s) (tss_rsp0 s) (cr3 s) (iflag s) (create_lock s) (utask_lock s) (stacks s) (tmem s).
Definition with_ring (s : sched) (v : Z) : sched :=
  mk_sched (tasks s) v (current s) (next_pid s) (zombie_list s) (need_reschedule s)
    (g_syscall_kstack_top s) (tss_rsp0 s) (cr3 s) (iflag s) (create_lock s) (utask_lock s) (stacks s) (tmem s).
Definition with_current (s : sched) (v : Z) : sched :=
  mk_sched (tasks s) (task_ring s) v (next_pid s) (zombie_list s) (need_reschedule s)
    (g_syscall_kstack_top s) (tss_rsp0 s) (cr3 s) (iflag s) (create_lock s) (utask_lock s) (stacks s) (tmem s).
Definition with_next_pid (s : sched) (v : Z) : sched :=
  mk_sched (tasks s) (task_ring s) (current s) v (zombie_list s) (need_reschedule s)
    (g_syscall_kstack_top s) (tss_rsp0 s) (cr3 s) (iflag s) (create_lock s) (utask_lock s) (stacks s) (tmem s).
Definition with_zombies (s : sched) (v : Z) : sched :=
  mk_sched (tasks s) (task_ring s) (current s) (next_pid s) v (need_reschedule s)
    (g_syscall_kstack_top s) (tss_rsp0 s) (cr3 s) (iflag s) (create_lock s) (utask_lock s) (stacks s) (tmem s).
Definition with_resched (s : sched) (v : bool) : sched :=
  mk_sched (tasks s) (task_ring s) (current s) (next_pid s) (zombie_list s) v
    (g_syscall_kstack_top s) (tss_rsp0 s) (cr3 s) (iflag s) (create_lock s) (utask_lock s) (stacks s) (tmem s).
Definition with_kstack_top (s : sched) (v : Z) : sched :=
  mk_sched (tasks s) (task_ring s) (current s) (next_pid s) (zombie_list s) (need_reschedule s)
    v v (cr3 s) (iflag s) (create_lock s) (utask_lock s) (stacks s) (tmem s).
Definition with_rsp0 (s : sched) (v : Z) : sched :=
  mk_sched (tasks s) (task_ring s) (current s) (next_pid s) (zombie_list s) (need_reschedule s)
    (g_syscall_kstack_top s) v (cr3 s) (iflag s) (create_lock s) (utask_lock s) (stacks s) (tmem s).
Definition with_cr3 (s : sched) (v : Z) : sched :=
  mk_sched (tasks s) (task_ring s) (current s) (next_pid s) (zombie_list s) (need_reschedule s)
    (g_syscall_kstack_top s) (tss_rsp0 s) v (iflag s) (create_lock s) (utask_lock s) (stacks s) (tmem s).
Definition with_iflag (s : sched) (v : bool) : sched :=
  mk_sched (tasks s) (task_ring s) (current s) (next_pid s) (zombie_list s) (need_reschedule s)
    (g_syscall_kstack_top s) (tss_rsp0 s) (cr3 s) v (create_lock s) (utask_lock s) (stacks s) (tmem s).
Definition with_locks (s : sched) (c u : bool) : sched :=
  mk_sched (tasks s) (task_ring s) (current s) (next_pid s) (zombie_list s) (need_reschedule s)
    (g_syscall_kstack_top s) (tss_rsp0 s) (cr3 s) (iflag s) c u (stacks s) (tmem s).
Definition with_stacks (s : sched) (v : mem) : sched :=
  mk_sched (tasks s) (task_ring s) (current s) (next_pid s) (zombie_list s) (need_reschedule s)
    (g_syscall_kstack_top s) (tss_rsp0 s) (cr3 s) (iflag s) (create_lock s) (utask_lock s) v (tmem s).
Definition with_tmem (s : sched) (v : M) : sched :=
  mk_sched (tasks s) (task_ring s) (current s) (next_pid s) (zombie_list s) (need_reschedule s)
    (g_syscall_kstack_top s) (tss_rsp0 s) (cr3 s) (iflag s) (create_lock s) (utask_lock s) (stacks s) v.

Definition cli (s : sched) : sched := with_iflag s false.
Definition sti (s : sched) : sched := with_iflag s true.

(** How a call ends: it returns, it stays in the [hlt] loop of a finished task, or it
    spins on a lock that nobody will release. *)
Inductive ending := Returned (v : Z) | Halted | Deadlocked.

(** Dereference of a task pointer, and an update through it. *)
Definition tk (s : sched) (a : Z) : outcome task := of_option (tasks s !! a).

Definition upd (s : sched) (a : Z) (f : task -> task) : outcome sched :=
  (do t <- tk s a; Ret (with_tasks s (<[a := f t]> (tasks s))))%out.

(** [scheduler_init]; [tss_addr] and [stack_end] are the linker symbols that
    [tss_init] uses. *)
Definition scheduler_init (s : sched) (tss_addr stack_end : Z) : outcome sched :=
  (let t := mk_task 0 TASK_RUNNING 0 0 0 0 INIT_TASK 0 0 0 INIT_NAME 0 0 0 0 in
   let s := with_tasks s (<[INIT_TASK := t]> (tasks s)) in
   let s := with_next_pid (with_current (with_ring s INIT_TASK) NULL) 1 in
   do tss <- tss_init tss_addr stack_end;
   Ret (with_rsp0 s (rsp0 tss)))%out.

(** Insert into the ring as a new tail. *)
Definition insert_tail (s : sched) (t : Z) : outcome sched :=
  (if task_ring s =? NULL then upd (with_ring s t) t (fun k => with_next k t)
   else
     do tail <- tk s (task_ring s);
     do s <- upd s t (fun k => with_next k (next tail));
     do s <- upd s (task_ring s) (fun k => with_next k t);
     Ret (with_ring s t))%out.

(** [strdup]: a fresh copy of [n] characters and the terminator; [None] is a NULL
    argument. *)
Definition strdup (s : sched) (nm : option Z) : outcome (Z * sched) :=
  (match nm with
   | None => Ret (NULL, s)
   | Some n => do '(p, m) <- tm_malloc (tmem s) (n + 1); Ret (p, with_tmem s m)
   end)%out.

(** [task_create] *)
Definition task_create (s : sched) (entry stack_size : Z) (nm : option Z) : outcome (ending * sched) :=
  (if entry =? NULL then Panic
   else if create_lock s then Ret (Deadlocked, s)
   else
     let s := with_locks s true (utask_lock s) in
     let stack_size := if stack_size =? 0 then KSTACK_SIZE else stack_size in
     do '(t, m) <- tm_malloc (tmem s) SIZEOF_TASK;
     if t =? NULL then Panic
     else
       do '(ks, m) <- tm_malloc m stack_size;
       if ks =? NULL then Panic
       else
         let s := with_tmem s m in
         let p := next_pid s in
         let s := with_next_pid s (i32 (p + 1)) in
         do '(np, s) <- strdup s nm;
         let kstack_top := add64 ks stack_size in
         do '(sp, st) <- prepare_initial_stack (stacks s) ks entry kstack_top kstack_top 0 0 false;
         let s := with_stacks s st in
         let k := mk_task p TASK_READY sp ks stack_size 0 NULL 0 0 0 np 0 0 0 0 in
         let s := with_tasks s (<[t := k]> (tasks s)) in
         do s <- insert_tail (cli s) t;
         let s := sti s in
         Ret (Returned 0, with_locks s false (utask_lock s)))%out.

(** [utask_create]: the [spinlock_unlock] behind the final [return] is never reached. *)
Definition utask_create (s : sched) (entry stack_size umem umem_size argc argv_ptr : Z)
    (nm : option Z) : outcome (ending * sched) :=
  (if utask_lock s then Ret (Deadlocked, s)
   else
     let s := with_locks s (create_lock s) true in
     if entry =? NULL then Panic
     else if (umem =? NULL) || (umem_size =? 0) then Panic
     else
       let stack_size := if stack_size =? 0 then KSTACK_SIZE else stack_size in
       do '(t, m) <- tm_malloc (tmem s) SIZEOF_TASK;
       if t =? NULL then Ret (Returned 0, with_tmem s m)
       else
         do '(ks, m) <- tm_malloc m stack_size;
         if ks =? NULL then do m <- tm_free m t; Ret (Returned 0, with_tmem s m)
         else
           let s := with_tmem s m in
           let p := next_pid s in
           let s := with_next_pid s (i32 (p + 1)) in
           do '(np, s) <- strdup s nm;
           do '(pt, m) <- tm_create_user (tmem s) umem umem_size;
           let s := with_tmem s m in
           if pt =? NULL then
             do m <- tm_free (tmem s) ks;
             do m <- tm_free m t;
             Ret (Returned 0, with_tmem s m)
           else
             let user_stack_top := add64 umem umem_size in
             let kstack_top := add64 ks stack_size in
             do '(sp, st) <- prepare_initial_stack (stacks s) ks entry kstack_top user_stack_top argc argv_ptr true;
             let s := with_stacks s st in
             let k := mk_task p TASK_READY sp ks stack_size 0 NULL 0 umem umem_size np pt
                        umem umem user_stack_top in
             let s := with_tasks s (<[t := k]> (tasks s)) in
             do s <- insert_tail (cli s) t;
             Ret (Returned p, sti s))%out.

(** * Choice of the next task

    The [do ... while (it != start)] loops run on fuel: one step per task of the store
    suffices on a well-formed ring (SchedSpec.v); a walk that exhausts it need not end. *)

Definition fuel_of (s : sched) : nat := Datatypes.S (size (tasks s)).

Definition runnable (t : task) : bool :=
  match state t with TASK_READY | TASK_RUNNING => true | _ => false end.

Fixpoint pick_from (fuel : nat) (s : sched) (it start : Z) : outcome Z :=
  (match fuel with
   | O => Crash
   | Datatypes.S fuel' =>
       do t <- tk s it;
       if runnable t then Ret it
       else if next t =? start then Ret NULL
       else pick_from fuel' s (next t) start
   end)%out.

Definition pick_next (s : sched) : outcome Z :=
  (if task_ring s =? NULL then Ret NULL
   else
     do t <- (if negb (current s =? NULL) then tk s (current s) else tk s (task_ring s));
     pick_from (fuel_of s) s (next t) (next t))%out.

(** [schedule_from_isr]; the value is what is stored through [out_regs_ptr]. *)
Definition schedule_from_isr (s : sched) (rg : Z) : outcome (Z * sched) :=
  (if rg =? NULL then Panic
   else if current s =? NULL then
     do s <- upd s INIT_TASK
               (fun k => with_state (with_regs (with_kstack k INIT_STACK INIT_STACK_SIZE) rg) TASK_RUNNING);
     let s := with_current s INIT_TASK in
     let s := with_kstack_top s (add64 INIT_STACK INIT_STACK_SIZE) in
     Ret (rg, with_resched s false)
   else
     do s <- upd s (current s) (fun k => with_regs k rg);
     do t <- tk s (current s);
     do s <- (if decide (state t = TASK_RUNNING)
              then upd s (current s) (fun k => with_state k TASK_READY) else Ret s);
     do s <- (if need_reschedule s then
                do n <- pick_next s;
                Ret (with_resched (if negb (n =? NULL) && negb (n =? current s) then with_current s n else s)
                       false)
              else Ret s);
     do s <- upd s (current s) (fun k => with_state k TASK_RUNNING);
     do t <- tk s (current s);
     let s := with_kstack_top s (add64 (kstack t) (kstack_size t)) in
     let s := if page_table t =? NULL then s else with_cr3 s (page_table t) in
     Ret (regs t, s))%out.

(** * Removal *)

Definition add_to_zombie_list (s : sched) (t : Z) : outcome sched :=
  (if t =? NULL then Ret s
   else
     do s <- upd s t (fun k => with_znext k (zombie_list s));
     Ret (with_zombies s t))%out.

Fixpoint unlink_from (fuel : nat) (s : sched) (prev it t : Z) : outcome (Z * sched) :=
  (match fuel with
   | O => Crash
   | Datatypes.S fuel' =>
       do k <- tk s it;
       if it =? t then
         do s <- upd s prev (fun p => with_next p (next k));
         Ret (0, if task_ring s =? it then with_ring s prev else s)
       else
         do tail <- tk s (task_ring s);
         if next k =? next tail then Ret (-1, s)
         else unlink_from fuel' s it (next k) t
   end)%out.

Definition unlink_from_ring (s : sched) (t : Z) : outcome (Z * sched) :=
  (if (task_ring s =? NULL) || (t =? NULL) then Ret (-1, s)
   else
     do tail <- tk s (task_ring s);
     if next tail =? task_ring s then
       if task_ring s =? t then
         if INIT_TASK =? t then Ret (-1, s)
         else
           do s <- upd (with_ring s INIT_TASK) INIT_TASK (fun k => with_next k INIT_TASK);
           Ret (0, s)
       else Ret (-1, s)
     else unlink_from (fuel_of s) s (task_ring s) (next tail) t)%out.

(** Free a pointer unless it is NULL. *)
Definition free_unless_null (s : sched) (p : Z) : outcome sched :=
  (if p =? NULL then Ret s else do m <- tm_free (tmem s) p; Ret (with_tmem s m))%out.

(** [free_task_resources]; the structure itself disappears from the store. *)
Definition free_task_resources (s : sched) (t : Z) : outcome sched :=
  (if (t =? NULL) || (t =? INIT_TASK) then Ret s
   else
     do k <- tk s t;
     do s <- free_unless_null s (kstack k);
     do s <- free_unless_null s (user_mem k);
     do s <- free_unless_null s (name k);
     let s := if page_table k =? NULL then s else with_tmem s (tm_destroy_user (tmem s) (page_table k)) in
     do m <- tm_free (tmem s) t;
     Ret (with_tasks (with_tmem s m) (delete t (tasks s))))%out.

Fixpoint reap_from (fuel : nat) (s : sched) (z : Z) : outcome sched :=
  (if z =? NULL then Ret s
   else match fuel with
        | O => Crash
        | Datatypes.S fuel' =>
            do k <- tk s z;
            do '(_, s) <- unlink_from_ring (cli s) z;
            do s <- free_task_resources (sti s) z;
            reap_from fuel' s (znext k)
        end)%out.

Definition reap_zombies (s : sched) : outcome sched :=
  let z := zombie_list s in
  let s := sti (with_zombies (cli s) NULL) in
  reap_from (fuel_of s) s z.

(** * Queries and termination *)

Record task_info := mk_info { ti_pid : Z; ti_state : task_state; ti_name : Z }.

(** The strings behind the name pointers, for [strdup(it->name)]: their lengths. *)
Fixpoint list_from (fuel : nat) (s : sched) (len : Z -> Z) (it head max : Z) (acc : list task_info)
    : outcome (list task_info * sched) :=
  (match fuel with
   | O => Crash
   | Datatypes.S fuel' =>
       if i32 max <=? Z.of_nat (length acc) then Ret (acc, s)
       else
         do k <- tk s it;
         do '(np, s) <- strdup s (if name k =? NULL then None else Some (len (name k)));
         let acc := acc ++ [mk_info (pid k) (state k) np] in
         if next k =? head then Ret (acc, s)
         else list_from fuel' s len (next k) head max acc
   end)%out.

(** [task_list]: the filled part of [buf]; its length is the result. *)
Definition task_list (s : sched) (len : Z -> Z) (max : Z) : outcome (list task_info * sched) :=
  (let s := cli s in
   if task_ring s =? NULL then Ret ([], sti s)
   else
     do tail <- tk s (task_ring s);
     do '(l, s) <- list_from (fuel_of s) s len (next tail) (next tail) max [];
     Ret (l, sti s))%out.

Fixpoint find_pid (fuel : nat) (s : sched) (it head p : Z) : outcome Z :=
  (match fuel with
   | O => Crash
   | Datatypes.S fuel' =>
       do k <- tk s it;
       if pid k =? p then Ret it
       else if next k =? head then Ret NULL
       else find_pid fuel' s (next k) head p
   end)%out.

Definition task_stop (s : sched) (p : Z) : outcome (ending * sched) :=
  (do s <- reap_zombies s;
   let s := cli s in
   if task_ring s =? NULL then Ret (Returned (-1), sti s)
   else
     do tail <- tk s (task_ring s);
     do found <- find_pid (fuel_of s) s (next tail) (next tail) p;
     if found =? NULL then Ret (Returned (-1), sti s)
     else if found =? current s then
       do s <- upd s (current s) (fun k => with_state k TASK_ZOMBIE);
       do s <- add_to_zombie_list s (current s);
       do '(_, s) <- unlink_from_ring s (current s);
       Ret (Halted, sti s)
     else
       do '(_, s) <- unlink_from_ring s found;
       do s <- free_task_resources (sti s) found;
       Ret (Returned 0, s))%out.

Definition task_exit (s : sched) (code : Z) : outcome (ending * sched) :=
  (do s <- reap_zombies s;
   let s := cli s in
   if (current s =? NULL) || (current s =? INIT_TASK) then Ret (Returned 0, sti s)
   else
     do s <- upd s (current s) (fun k => with_state (with_exit_code k code) TASK_ZOMBIE);
     do s <- add_to_zombie_list s (current s);
     do '(_, s) <- unlink_from_ring s (current s);
     Ret (Halted, sti s))%out.

Definition task_is_alive (s : sched) (p : Z) : outcome (Z * sched) :=
  (if p <? 0 then Ret (0, s)
   else if p =? 0 then Ret (1, s)
   else
     do s <- reap_zombies s;
     let s := cli s in
     if task_ring s =? NULL then Ret (0, sti s)
     else
       do tail <- tk s (task_ring s);
       do found <- find_pid (fuel_of s) s (next tail) (next tail) p;
       if found =? NULL then Ret (0, sti s)
       else
         do k <- tk s found;
         Ret (if decide (state k = TASK_ZOMBIE) then 0 else 1, sti s))%out.

(** The first loop of [kill_all_tasks]. *)
Fixpoint zombify_from (fuel : nat) (s : sched) (it start : Z) : outcome sched :=
  (match fuel with
   | O => Crash
   | Datatypes.S fuel' =>
       do k <- tk s it;
       do s <- (if negb (pid k =? 0) && negb (it =? INIT_TASK) then
                  do s <- upd s it (fun k => with_exit_code (with_state k TASK_ZOMBIE) (-1));
                  add_to_zombie_list s it
                else Ret s);
       if next k =? start then Ret s else zombify_from fuel' s (next k) start
   end)%out.

Definition kill_all_tasks (s : sched) : outcome sched :=
  (let s := cli s in
   if task_ring s =? NULL then Ret (sti s)
   else
     do tail <- tk s (task_ring s);
     do s <- zombify_from (fuel_of s) s (next tail) (next tail);
     do s <- reap_zombies s;
     let s := with_current s INIT_TASK in
     do s <- upd s INIT_TASK (fun k => with_state k TASK_RUNNING);
     do tail <- tk s (task_ring s);
     do s <- (if negb (pid tail =? 0)
              then upd (with_ring s INIT_TASK) INIT_TASK (fun k => with_next k INIT_TASK)
              else Ret s);
     Ret (sti s))%out.

(** The collection loop of [emergency_terminate_all], which stops at 256 tasks. *)
Fixpoint collect_from (fuel : nat) (s : sched) (it start : Z) (acc : list Z) : outcome (list Z) :=
  (match fuel with
   | O => Crash
   | Datatypes.S fuel' =>
       do k <- tk s it;
       let acc := if negb (pid k =? 0) && negb (it =? INIT_TASK) && (Z.of_nat (length acc) <? 256)
                  then acc ++ [it] else acc in
       if negb (next k =? start) && (Z.of_nat (length acc) <? 256)
       then collect_from fuel' s (next k) start acc
       else Ret acc
   end)%out.

Fixpoint unlink_all (s : sched) (l : list Z) : outcome sched :=
  (match l with
   | [] => Ret s
   | t :: l' => do '(_, s) <- unlink_from_ring s t; unlink_all s l'
   end)%out.

Fixpoint free_all (s : sched) (l : list Z) : outcome sched :=
  (match l with
   | [] => Ret s
   | t :: l' => do s <- free_task_resources s t; free_all s l'
   end)%out.

Definition emergency_terminate_all (s : sched) : outcome sched :=
  (let s := cli s in
   if task_ring s =? NULL then Ret (sti s)
   else
     do tail <- tk s (task_ring s);
     do l <- collect_from (fuel_of s) s (next tail) (next tail) [];
     do s <- unlink_all s l;
     do s <- free_all s l;
     do s <- upd (with_ring s INIT_TASK) INIT_TASK (fun k => with_next k INIT_TASK);
     let s := with_current s INIT_TASK in
     do s <- upd s INIT_TASK (fun k => with_state k TASK_RUNNING);
     Ret (sti (with_zombies s NULL)))%out.
End sched.

Arguments sched M : clear implicits.
