(* ===== verification/SchedInv.v ===== *)
(** The representation of the scheduler (Sched.v): the ring and the zombie list as
    lists, the invariant of the task structures and of the memory they own, and what
    walking, leaving the ring and freeing a task do to them.  SchedSpec.v has the
    properties of the scheduler's operations. *)

From S2P Require Import Prelude LibMem Tss Sched.

(** * Rings *)

Definition hd_or (e : Z) (l : list Z) : Z := match l with [] => e | a :: _ => a end.

(** The tasks at [l] are linked one after the other by [next], the last one to [e]. *)
Fixpoint chain (ts : gmap Z task) (l : list Z) (e : Z) : Prop :=
  match l with
  | [] => True
  | a :: l' => (exists t, ts !! a = Some t /\ next t = hd_or e l') /\ chain ts l' e
  end.

(** [l] is the ring in order, starting behind the tail. *)
Definition ring (ts : gmap Z task) (l : list Z) : Prop := l <> [] /\ chain ts l (hd_or NULL l).

Lemma hd_or_app (e : Z) (l k : list Z) : hd_or e (l ++ k) = hd_or (hd_or e k) l.
Proof. by destruct l. Qed.

Lemma chain_app (ts : gmap Z task) (l k : list Z) (e : Z) :
  chain ts (l ++ k) e <-> chain ts l (hd_or e k) /\ chain ts k e.
Proof.
  induction l as [|a l IH]; simpl; [tauto |]. rewrite IH, hd_or_app. tauto.
Qed.

Lemma chain_lookup (ts : gmap Z task) (l : list Z) (e a : Z) :
  chain ts l e -> a ∈ l -> is_Some (ts !! a).
Proof.
  induction l as [|b l IH]; [by intros _ ?%elem_of_nil |]. intros [(t & Ht & _) Hc] [-> | Ha]%elem_of_cons.
  - by exists t.
  - by apply IH.
Qed.

(** A chain only depends on the [next] fields of its own tasks. *)
Lemma chain_ext (ts ts' : gmap Z task) (l : list Z) (e : Z) :
  (forall a t, a ∈ l -> ts !! a = Some t -> exists t', ts' !! a = Some t' /\ next t' = next t) ->
  chain ts l e -> chain ts' l e.
Proof.
  induction l as [|b l IH]; intros Hf; [done |]. intros [(t & Ht & Hn) Hc]. split.
  - destruct (Hf b t ltac:(set_solver) Ht) as (t' & Ht' & Hn'). exists t'. split; congruence.
  - apply IH; [| done]. intros a u Ha. apply Hf. set_solver.
Qed.

Lemma chain_insert_ne (ts : gmap Z task) (l : list Z) (e a : Z) (t : task) :
  a ∉ l -> chain ts l e -> chain (<[a := t]> ts) l e.
Proof.
  intros Ha. apply chain_ext. intros b u Hb Hu. exists u.
  rewrite lookup_insert_ne; [done |]. intros ->. done.
Qed.

Lemma chain_delete_ne (ts : gmap Z task) (l : list Z) (e a : Z) :
  a ∉ l -> chain ts l e -> chain (delete a ts) l e.
Proof.
  intros Ha. apply chain_ext. intros b u Hb Hu. exists u.
  rewrite lookup_delete_ne; [done |]. intros ->. done.
Qed.

(** Updating any field but [next] keeps chains. *)
Lemma chain_upd (ts : gmap Z task) (l : list Z) (e a : Z) (t t' : task) :
  ts !! a = Some t -> next t' = next t -> chain ts l e -> chain (<[a := t']> ts) l e.
Proof.
  intros Ha Hn. apply chain_ext. intros b u Hb Hu. rewrite lookup_insert. case_decide as E.
  - exists t'. subst b. split; [done |]. congruence.
  - by exists u.
Qed.

(** The last task of a chain can be redirected. *)
Lemma chain_redirect (ts : gmap Z task) (l : list Z) (e e' a : Z) (t : task) :
  NoDup (l ++ [a]) -> chain ts (l ++ [a]) e -> ts !! a = Some t ->
  chain (<[a := with_next t e']> ts) (l ++ [a]) e'.
Proof.
  intros Hnd Hc Ha. apply NoDup_app in Hnd as (_ & Hd & _). apply chain_app in Hc as [H1 H2].
  apply chain_app. split.
  - apply chain_insert_ne; [| done]. intros Hin. apply (Hd a Hin). set_solver.
  - split; [| done]. exists (with_next t e'). by rewrite lookup_insert_eq.
Qed.

(** A ring can be read from any of its tasks. *)
Lemma ring_rotate (ts : gmap Z task) (l1 l2 : list Z) (a : Z) :
  ring ts (l1 ++ a :: l2) -> chain ts ((a :: l2) ++ l1) a.
Proof.
  intros [_ Hc]. apply chain_app in Hc as [H1 H2]. apply chain_app.
  destruct l1 as [|b l1]; [done |]. split; [| exact H1]. exact H2.
Qed.

Lemma ring_next (ts : gmap Z task) (l : list Z) (a : Z) (t : task) :
  ring ts l -> a ∈ l -> ts !! a = Some t -> next t ∈ l.
Proof.
  intros Hr (l1 & l2 & ->)%list_elem_of_split Ha.
  destruct (ring_rotate _ _ _ _ Hr) as [(t' & Ht' & Hn) _]. assert (t' = t) as -> by congruence.
  rewrite Hn. destruct l2 as [|b l2]; [| set_solver]. destruct l1 as [|b l1]; set_solver.
Qed.

(** * Walking a ring *)

Section walk.
Context {M : Type} `{TaskMem M}.
Implicit Types (s : sched M).

(** The first runnable task of a list, NULL if there is none. *)
Fixpoint first_runnable (ts : gmap Z task) (l : list Z) : Z :=
  match l with
  | [] => NULL
  | a :: l' => match ts !! a with
               | Some t => if runnable t then a else first_runnable ts l'
               | None => NULL
               end
  end.

Lemma pick_from_spec s (l : list Z) (fuel : nat) (start : Z) :
  l <> [] -> chain (tasks s) l start -> start ∉ tail l -> (length l <= fuel)%nat ->
  pick_from fuel s (hd_or NULL l) start = Ret (first_runnable (tasks s) l).
Proof.
  revert fuel. induction l as [|a l IH]; intros [|fuel] Hne Hc Hs Hf; cbn [length] in Hf; try done; try lia.
  cbn [hd_or pick_from first_runnable]. destruct Hc as [(t & Ht & Hn) Hc].
  unfold tk. rewrite Ht. cbn [of_option obind]. destruct (runnable t); [done |].
  cbn [tail] in Hs. rewrite Hn. destruct l as [|b l]; cbn [hd_or].
  - by rewrite Z.eqb_refl.
  - replace (b =? start) with false by (symmetry; apply Z.eqb_neq; set_solver).
    apply IH; [done | done | set_solver | lia].
Qed.

(** The ring in the order in which [pick_next] looks at it. *)
Definition after (l : list Z) (x : Z) : list Z :=
  match list_find (eq x) l with
  | Some (i, _) => drop i l ++ take i l
  | None => l
  end.

Lemma after_split (l1 l2 : list Z) (x : Z) : x ∉ l1 -> after (l1 ++ x :: l2) x = x :: l2 ++ l1.
Proof.
  intros Hx. unfold after. rewrite (proj2 (list_find_Some _ _ (length l1) x)).
  - rewrite drop_app_length, take_app_length. done.
  - rewrite lookup_app_r, Nat.sub_diag by lia. split; [done |]. split; [done |].
    intros j y Hj Hjl ->. rewrite lookup_app_l in Hj by lia. apply Hx. by eapply list_elem_of_lookup_2.
Qed.

Lemma after_perm (l : list Z) (x : Z) : after l x ≡ₚ l.
Proof.
  unfold after. destruct (list_find (eq x) l) as [[i y] |]; [| done].
  rewrite Permutation_app_comm. by rewrite take_drop.
Qed.

Lemma length_tasks s (l : list Z) (e : Z) :
  NoDup l -> chain (tasks s) l e -> (length l <= fuel_of s)%nat.
Proof.
  intros Hnd Hc. unfold fuel_of. rewrite <- size_dom, <- (size_list_to_set (C := gset Z) l) by done.
  apply le_S, subseteq_size. intros a Ha. apply elem_of_list_to_set in Ha.
  apply elem_of_dom. by eapply chain_lookup.
Qed.

Lemma pick_from_ring s (l : list Z) (x : Z) :
  NoDup l -> ring (tasks s) l -> x ∈ l ->
  pick_from (fuel_of s) s x x = Ret (first_runnable (tasks s) (after l x)).
Proof.
  intros Hnd Hr (l1 & l2 & ->)%list_elem_of_split. pose proof (ring_rotate _ _ _ _ Hr) as Hc.
  apply NoDup_app in Hnd as (Hn1 & Hd & [Hx Hn2]%NoDup_cons).
  rewrite after_split by (intros Hx1; apply (Hd x Hx1); set_solver).
  apply (pick_from_spec s (x :: l2 ++ l1)); [done | exact Hc | |].
  - cbn [tail]. intros [Hx2 | Hx1]%elem_of_app; [done | apply (Hd x Hx1); set_solver].
  - apply (length_tasks s _ x); [| exact Hc]. apply NoDup_cons. split.
    + intros [Hx2 | Hx1]%elem_of_app; [done | apply (Hd x Hx1); set_solver].
    + apply NoDup_app. split_and!; try done. intros y Hy1 Hy2. apply (Hd y Hy2). set_solver.
Qed.

Lemma first_runnable_some (ts : gmap Z task) (l : list Z) :
  (forall a, a ∈ l -> is_Some (ts !! a)) ->
  (exists a t, a ∈ l /\ ts !! a = Some t /\ runnable t = true) ->
  exists l1 l2 t, l = l1 ++ first_runnable ts l :: l2 /\
    ts !! first_runnable ts l = Some t /\ runnable t = true /\
    forall b u, b ∈ l1 -> ts !! b = Some u -> runnable u = false.
Proof.
  intros Hsome (a & t & Ha & Ht & Hrun). induction l as [|b l IH]; [by apply elem_of_nil in Ha |].
  cbn [first_runnable]. destruct (Hsome b ltac:(set_solver)) as [u Hu]. rewrite Hu.
  destruct (runnable u) eqn:Eu.
  - exists [], l, u. split_and!; try done. intros c v Hc. by apply elem_of_nil in Hc.
  - assert (Hal : a ∈ l) by (apply elem_of_cons in Ha as [-> |]; [congruence | done]).
    destruct IH as (l1 & l2 & v & E & Hv & Hvr & Hb); [set_solver | done |].
    exists (b :: l1), l2, v. split_and!; [cbn; by rewrite <- E | done | done |].
    intros c w [-> | Hc]%elem_of_cons Hw; [congruence | by eapply Hb].
Qed.
End walk.

(** * Removal from the ring *)

Section unlink.
Context {M : Type} `{TaskMem M}.
Implicit Types (s : sched M).

Lemma upd_eq s (a : Z) (t : task) (f : task -> task) :
  tasks s !! a = Some t -> upd s a f = Ret (with_tasks s (<[a := f t]> (tasks s))).
Proof. intros Ha. unfold upd, tk. by rewrite Ha. Qed.

Lemma with_tasks_same s : with_tasks s (tasks s) = s.
Proof. by destruct s. Qed.

(** The walk that looks for [t], with [p] the task before the rest of the ring. *)
Lemma unlink_from_spec s (r1 r2 : list Z) (p t h : Z) (tt tp tl : task) (fuel : nat) :
  chain (tasks s) (r1 ++ t :: r2) h -> tasks s !! t = Some tt -> NoDup (r1 ++ t :: r2) ->
  h ∉ tail (r1 ++ t :: r2) ->
  tasks s !! task_ring s = Some tl -> next tl = h -> (length r1 < fuel)%nat ->
  tasks s !! default p (last r1) = Some tp ->
  unlink_from fuel s p (hd_or t r1) t =
  Ret (0, let s' := with_tasks s (<[default p (last r1) := with_next tp (next tt)]> (tasks s)) in
          if task_ring s =? t then with_ring s' (default p (last r1)) else s').
Proof.
  revert p fuel. induction r1 as [|a r1 IH]; intros p [|fuel] Hc Ht Hnd Hh Htl Hn Hf Hp;
    cbn [length] in Hf; try lia; cbn [app hd_or unlink_from].
  - unfold tk. rewrite Ht. cbn [of_option obind]. rewrite Z.eqb_refl. cbn [last default] in Hp.
    rewrite (upd_eq s p tp _ Hp). cbn [obind]. done.
  - cbn [app chain] in Hc. destruct Hc as [(u & Hu & Hun) Hc]. unfold tk. rewrite Hu. cbn [of_option obind].
    cbn [app] in Hnd. apply NoDup_cons in Hnd as [Hna Hnd].
    replace (a =? t) with false by (symmetry; apply Z.eqb_neq; set_solver).
    rewrite Htl. cbn [of_option obind]. rewrite Hun, Hn.
    assert (Hhd : hd_or h (r1 ++ t :: r2) = hd_or t r1) by (by destruct r1).
    cbn [app tail] in Hh.
    assert (Hin : hd_or t r1 ∈ r1 ++ t :: r2) by (destruct r1; set_solver).
    rewrite Hhd. replace (hd_or t r1 =? h) with false by (symmetry; apply Z.eqb_neq; by intros <-).
    assert (Hlast : default p (last (a :: r1)) = default a (last r1))
      by (destruct r1 as [|b r1]; [done |]; rewrite last_cons_cons;
          by destruct (proj2 (last_is_Some (b :: r1)) ltac:(done)) as [x ->]).
    rewrite Hlast in *. apply IH; try done; [| lia].
    destruct r1 as [|b r1]; cbn [app tail] in *; set_solver.
Qed.

(** Tasks whose only change is the [next] field of ring members. *)
Definition relinked (ts ts' : gmap Z task) (l : list Z) (t : Z) : Prop :=
  (forall a, a ∉ l -> ts' !! a = ts !! a) /\ ts' !! t = ts !! t /\
  (forall a u, ts !! a = Some u -> exists u', ts' !! a = Some u' /\ u' = with_next u (next u')) /\
  (forall a, ts !! a = None -> ts' !! a = None).

Lemma relinked_upd (ts : gmap Z task) (l : list Z) (t p v : Z) (tp : task) :
  p ∈ l -> p <> t -> ts !! p = Some tp -> relinked ts (<[p := with_next tp v]> ts) l t.
Proof.
  intros Hp Hne Htp. split_and!.
  - intros a Ha. rewrite lookup_insert_ne; [done |]. intros ->. done.
  - by rewrite lookup_insert_ne.
  - intros a u Hu. rewrite lookup_insert. case_decide as E.
    + subst a. assert (u = tp) as -> by congruence. by exists (with_next tp v).
    + exists u. split; [done |]. by destruct u.
  - intros a Ha. rewrite lookup_insert_ne; [done |]. intros ->. congruence.
Qed.

(** The task before [t] in the ring. *)
Lemma pred_in_ring (l1 l2 : list Z) (t tr : Z) :
  NoDup (l1 ++ t :: l2) -> l1 ++ l2 <> [] -> last (l1 ++ t :: l2) = Some tr ->
  default tr (last l1) ∈ l1 ++ l2 /\ default tr (last l1) <> t.
Proof.
  intros Hnd Hother Hlast. destruct l1 as [|b l1 _] using rev_ind.
  - cbn [last default app] in *. destruct l2 as [|c l2 _] using rev_ind; [done |].
    rewrite app_comm_cons, last_snoc in Hlast. injection Hlast as <-.
    split; [set_solver |]. apply NoDup_cons in Hnd as [Hn _]. set_solver.
  - rewrite last_snoc. change (default tr (Some b)) with b. split; [set_solver |].
    intros ->. apply NoDup_app in Hnd as (_ & Hd & _). apply (Hd t); set_solver.
Qed.

(** Redirecting that task past [t] leaves the ring without [t]. *)
Lemma ring_remove (ts : gmap Z task) (l1 l2 : list Z) (t tr : Z) (tt tp : task) :
  ring ts (l1 ++ t :: l2) -> NoDup (l1 ++ t :: l2) -> l1 ++ l2 <> [] ->
  last (l1 ++ t :: l2) = Some tr -> ts !! t = Some tt -> ts !! default tr (last l1) = Some tp ->
  ring (<[default tr (last l1) := with_next tp (next tt)]> ts) (l1 ++ l2).
Proof.
  intros [Hne Hc] Hnd Hother Hlast Htt Htp. split; [exact Hother |].
  assert (Hnt : next tt = hd_or (hd_or t l1) l2).
  { apply chain_app in Hc as [_ [(u & Hu & Hun) _]].
    assert (u = tt) as -> by congruence. rewrite Hun. by destruct l1. }
  rewrite Hnt. apply chain_app in Hc as [H1 [_ H2]].
  destruct l1 as [|b l1 _] using rev_ind.
  - cbn [app last default hd_or] in *. destruct l2 as [|c l2 _] using rev_ind; [done |].
    rewrite app_comm_cons, last_snoc in Hlast. injection Hlast as ->.
    assert (hd_or t (l2 ++ [tr]) = hd_or NULL (l2 ++ [tr])) as -> by (by destruct l2).
    eapply chain_redirect; [by apply NoDup_cons in Hnd as [_ ?] | exact H2 | done].
  - rewrite last_snoc in *. change (default tr (Some b)) with b in *.
    assert (Hhd : hd_or NULL ((l1 ++ [b]) ++ l2) = hd_or t (l1 ++ [b])) by (by destruct l1).
    assert (Hhd' : hd_or NULL ((l1 ++ [b]) ++ t :: l2) = hd_or t (l1 ++ [b])) by (by destruct l1).
    rewrite Hhd. rewrite Hhd' in H1, H2. apply chain_app. split.
    + eapply chain_redirect; [by apply NoDup_app in Hnd as (? & _) | exact H1 | done].
    + apply chain_insert_ne; [| exact H2]. apply NoDup_app in Hnd as (_ & Hd & _). intros Hb.
      apply (Hd b); set_solver.
Qed.

Lemma last_remove (l1 l2 : list Z) (t tr : Z) :
  NoDup (l1 ++ t :: l2) -> l1 ++ l2 <> [] -> last (l1 ++ t :: l2) = Some tr ->
  last (l1 ++ l2) = Some (if tr =? t then default tr (last l1) else tr).
Proof.
  intros Hnd Hother Hlast. destruct (Z.eqb_spec tr t) as [E | E].
  - destruct l2 as [|c l2 _] using rev_ind.
    + rewrite app_nil_r in *. destruct l1 as [|b l1 _] using rev_ind; [done |]. by rewrite last_snoc.
    + rewrite app_comm_cons, app_assoc, last_snoc in Hlast. injection Hlast as ->.
      apply NoDup_app in Hnd as (_ & _ & Hnd). apply NoDup_cons in Hnd as [Hn _]. set_solver.
  - destruct l2 as [|c l2 _] using rev_ind.
    + rewrite last_snoc in Hlast. congruence.
    + rewrite app_comm_cons, app_assoc, last_snoc in Hlast. by rewrite app_assoc, last_snoc.
Qed.

(** The head and the tail of a ring with at least two tasks. *)
Lemma ring_ends (ts : gmap Z task) (l : list Z) (tr : Z) :
  ring ts l -> NoDup l -> last l = Some tr ->
  exists tl, ts !! tr = Some tl /\ next tl = hd_or NULL l /\ (hd_or NULL l ∉ tail l) /\
    (length l <> 1%nat -> hd_or NULL l <> tr).
Proof.
  intros [Hne Hc] Hnd Hlast. apply last_Some in Hlast as (k & ->).
  apply chain_app in Hc as [_ [(u & Hu & Hun) _]]. exists u. cbn [hd_or] in Hun.
  split_and!; [done | done | |].
  - destruct k as [|b k]; [set_solver |]. cbn [app tail hd_or] in *. by apply NoDup_cons in Hnd as [? _].
  - intros Hlen. destruct k as [|b k]; [done |]. cbn [app hd_or] in *.
    apply NoDup_cons in Hnd as [Hn _]. intros ->. apply Hn. set_solver.
Qed.

(** [unlink_from_ring] of a member of a ring with other members. *)
Lemma unlink_spec s (l1 l2 : list Z) (t : Z) :
  ring (tasks s) (l1 ++ t :: l2) -> NoDup (l1 ++ t :: l2) -> l1 ++ l2 <> [] ->
  last (l1 ++ t :: l2) = Some (task_ring s) -> NULL ∉ l1 ++ t :: l2 ->
  exists ts' tl, unlink_from_ring s t = Ret (0, with_ring (with_tasks s ts') tl) /\
    ring ts' (l1 ++ l2) /\ last (l1 ++ l2) = Some tl /\ relinked (tasks s) ts' (l1 ++ l2) t.
Proof.
  intros Hr Hnd Hother Hlast Hnull.
  destruct (ring_ends _ _ _ Hr Hnd Hlast) as (tl & Htl & Hnext & Htail & Hsingle).
  destruct (pred_in_ring _ _ _ _ Hnd Hother Hlast) as [Hpin Hpne].
  pose proof Hr as [_ Hc].
  assert (Htr : task_ring s ∈ l1 ++ t :: l2).
  { apply last_Some in Hlast as (k & ->). apply elem_of_app. right. set_solver. }
  assert (Htn : t <> NULL) by (intros ->; apply Hnull; set_solver).
  assert (Hrn : task_ring s <> NULL) by congruence.
  destruct (chain_lookup _ _ _ t Hc ltac:(set_solver)) as [tt Htt].
  destruct (chain_lookup _ _ _ (default (task_ring s) (last l1)) Hc ltac:(set_solver)) as [tp Htp].
  assert (Hlen : length (l1 ++ t :: l2) <> 1%nat).
  { rewrite length_app. cbn [length]. destruct l1, l2; cbn [length app] in *; (done || lia). }
  unfold unlink_from_ring. replace ((task_ring s =? NULL) || (t =? NULL)) with false by lia.
  unfold tk at 1. rewrite Htl. cbn [of_option obind]. rewrite Hnext.
  replace (hd_or NULL (l1 ++ t :: l2) =? task_ring s) with false by (specialize (Hsingle Hlen); lia).
  assert (Hfuel : (length l1 < fuel_of s)%nat).
  { pose proof (length_tasks s _ _ Hnd Hc) as Hl. rewrite length_app in Hl. cbn [length] in Hl. lia. }
  assert (Hhead : hd_or NULL (l1 ++ t :: l2) = hd_or t l1) by (by destruct l1).
  rewrite Hhead. rewrite (unlink_from_spec s l1 l2 (task_ring s) t _ tt tp tl _ Hc) by done. cbv zeta.
  exists (<[default (task_ring s) (last l1) := with_next tp (next tt)]> (tasks s)),
    (if task_ring s =? t then default (task_ring s) (last l1) else task_ring s).
  split_and!.
  - destruct (task_ring s =? t); [done |]. by destruct s.
  - by eapply ring_remove.
  - by apply last_remove.
  - by apply relinked_upd.
Qed.

(** [unlink_from_ring] of a task that is not in the ring changes nothing. *)
Lemma unlink_from_absent s (r : list Z) (p t h : Z) (tl : task) (fuel : nat) :
  r <> [] -> chain (tasks s) r h -> t ∉ r -> h ∉ tail r ->
  tasks s !! task_ring s = Some tl -> next tl = h -> (length r <= fuel)%nat ->
  unlink_from fuel s p (hd_or NULL r) t = Ret (-1, s).
Proof.
  revert p fuel. induction r as [|a r IH]; intros p [|fuel] Hne Hc Ht Hh Htl Hn Hf;
    cbn [length] in Hf; try done; try lia. cbn [hd_or unlink_from].
  destruct Hc as [(u & Hu & Hun) Hc]. unfold tk. rewrite Hu. cbn [of_option obind].
  replace (a =? t) with false by (symmetry; apply Z.eqb_neq; set_solver).
  rewrite Htl. cbn [of_option obind]. rewrite Hun, Hn. cbn [tail] in Hh.
  destruct r as [|b r]; cbn [hd_or]; [by rewrite Z.eqb_refl |].
  replace (b =? h) with false by (symmetry; apply Z.eqb_neq; set_solver).
  apply IH; try done; [set_solver | cbn [tail]; set_solver | lia].
Qed.

Lemma unlink_absent s (l : list Z) (t : Z) :
  ring (tasks s) l -> NoDup l -> last l = Some (task_ring s) -> t ∉ l ->
  unlink_from_ring s t = Ret (-1, s).
Proof.
  intros Hr Hnd Hlast Ht. destruct (ring_ends _ _ _ Hr Hnd Hlast) as (tl & Htl & Hnext & Htail & _).
  unfold unlink_from_ring. destruct (_ || _); [done |]. unfold tk at 1. rewrite Htl. cbn [of_option obind].
  destruct (Z.eqb_spec (next tl) (task_ring s)) as [E | E].
  - replace (task_ring s =? t) with false; [done |]. symmetry. apply Z.eqb_neq. intros <-.
    apply Ht. apply last_Some in Hlast as (k & ->). set_solver.
  - rewrite Hnext. pose proof Hr as [Hne Hc]. eapply unlink_from_absent; try done.
    by eapply length_tasks.
Qed.
End unlink.

(** * The invariant *)

(** The heap blocks a task other than init owns. *)
Definition resources (a : Z) (t : task) : list Z :=
  a :: filter (fun p => p <> NULL) [kstack t; user_mem t; name t].

Lemma elem_of_resources (a p : Z) (t : task) :
  p ∈ resources a t <-> p = a \/ (p <> NULL /\ (p = kstack t \/ p = user_mem t \/ p = name t)).
Proof. unfold resources. rewrite elem_of_cons, list_elem_of_filter. set_solver. Qed.

(** No block is owned twice by one task. *)
Definition own_distinct (a : Z) (t : task) : Prop :=
  (kstack t <> NULL -> kstack t <> user_mem t /\ kstack t <> name t /\ kstack t <> a) /\
  (user_mem t <> NULL -> user_mem t <> name t /\ user_mem t <> a) /\
  (name t <> NULL -> name t <> a).

Definition same_owned (t t' : task) : Prop :=
  kstack t' = kstack t /\ user_mem t' = user_mem t /\ name t' = name t.

Lemma same_owned_resources (a : Z) (t t' : task) :
  same_owned t t' -> resources a t' = resources a t /\ (own_distinct a t' <-> own_distinct a t).
Proof. intros (E1 & E2 & E3). unfold resources, own_distinct. by rewrite E1, E2, E3. Qed.

Section inv.
Context {M : Type} `{TaskMem M}.
Implicit Types (s : sched M) (l zs : list Z).

(** [l] is the ring, [zs] the tasks that left it and are not yet freed.  Every task
    structure is one of them, init is in the ring, every other task owns live heap
    blocks it shares with no other task, and process ids are unique. *)
Record core_inv s l zs : Prop := {
  ci_mem : tm_inv (tmem s);
  ci_nodup : NoDup (l ++ zs);
  ci_ring : ring (tasks s) l;
  ci_tail : last l = Some (task_ring s);
  ci_dom : forall a, is_Some (tasks s !! a) <-> a ∈ l ++ zs;
  ci_init : INIT_TASK ∈ l;
  ci_res : forall a t, tasks s !! a = Some t -> a <> INIT_TASK ->
    own_distinct a t /\ Forall (tm_live (tmem s)) (resources a t);
  ci_sep : forall a b t u, tasks s !! a = Some t -> tasks s !! b = Some u -> a <> b ->
    a <> INIT_TASK -> b <> INIT_TASK -> resources a t ## resources b u;
  ci_pid : forall a t, tasks s !! a = Some t -> 0 <= pid t < next_pid s /\ (pid t = 0 <-> a = INIT_TASK);
  ci_pid_inj : forall a b t u, tasks s !! a = Some t -> tasks s !! b = Some u -> pid t = pid u -> a = b;
  ci_next_pid : 1 <= next_pid s < 2 ^ 31
}.

Lemma core_inv_ext s s' l zs :
  tasks s' = tasks s -> task_ring s' = task_ring s -> next_pid s' = next_pid s -> tmem s' = tmem s ->
  core_inv s l zs -> core_inv s' l zs.
Proof. intros E1 E2 E3 E4 []. split; rewrite ?E1, ?E2, ?E3, ?E4; done. Qed.

Lemma core_inv_null s l zs a : core_inv s l zs -> a ∈ l ++ zs -> a <> NULL.
Proof.
  intros Hi Ha. apply (ci_dom _ _ _ Hi) in Ha as [t Ht]. destruct (decide (a = INIT_TASK)) as [-> | Hne]; [done |].
  destruct (ci_res _ _ _ Hi a t Ht Hne) as [_ Hl]. unfold resources in Hl. apply Forall_cons in Hl as [Hl _].
  apply tm_live_pos in Hl; [unfold NULL; lia | apply Hi].
Qed.

Lemma core_inv_null_notin s l zs : core_inv s l zs -> NULL ∉ l.
Proof. intros Hi Hn. by apply (core_inv_null s l zs NULL Hi); [set_solver |]. Qed.

(** Changing the tasks' fields other than those the invariant reads. *)
Lemma core_inv_tasks s s' l zs :
  core_inv s l zs -> task_ring s' = task_ring s -> next_pid s' = next_pid s -> tmem s' = tmem s ->
  ring (tasks s') l ->
  (forall a, match tasks s !! a, tasks s' !! a with
             | Some t, Some t' => pid t' = pid t /\ same_owned t t'
             | None, None => True
             | _, _ => False
             end) ->
  core_inv s' l zs.
Proof.
  intros [] E1 E2 E3 Hr Hf.
  assert (Hb : forall a t', tasks s' !! a = Some t' ->
            exists t, tasks s !! a = Some t /\ pid t' = pid t /\ same_owned t t').
  { intros a t' Ht'. specialize (Hf a). rewrite Ht' in Hf. destruct (tasks s !! a) as [t |]; [| done]. by exists t. }
  split; rewrite ?E1, ?E2, ?E3; try done.
  - intros a. rewrite <- ci_dom0. specialize (Hf a). split; intros [t Ht]; rewrite Ht in Hf.
    + destruct (tasks s !! a); [done | done].
    + destruct (tasks s' !! a); [done | done].
  - intros a t' Ht' Hne. destruct (Hb a t' Ht') as (t & Ht & _ & Er).
    destruct (same_owned_resources a t t' Er) as [-> ->]. by apply ci_res0.
  - intros a b t' u' Ha Hb' Hne Hai Hbi. destruct (Hb a t' Ha) as (t & Ht & _ & Er).
    destruct (Hb b u' Hb') as (u & Hu & _ & Er'). rewrite (proj1 (same_owned_resources a t t' Er)).
    rewrite (proj1 (same_owned_resources b u u' Er')). by apply ci_sep0.
  - intros a t' Ht'. destruct (Hb a t' Ht') as (t & Ht & -> & _). by apply ci_pid0.
  - intros a b t' u' Ha Hb' Hp. destruct (Hb a t' Ha) as (t & Ht & Ep & _).
    destruct (Hb b u' Hb') as (u & Hu & Eq & _). apply (ci_pid_inj0 a b t u); congruence.
Qed.

(** Updating one task in a way the invariant does not see. *)
Lemma core_inv_upd s l zs a t (f : task -> task) :
  core_inv s l zs -> tasks s !! a = Some t ->
  next (f t) = next t -> pid (f t) = pid t -> same_owned t (f t) ->
  core_inv (with_tasks s (<[a := f t]> (tasks s))) l zs.
Proof.
  intros Hi Ha Hn Hp Hres. apply (core_inv_tasks s); try done.
  - split; [apply Hi |]. cbn [tasks with_tasks]. eapply chain_upd; [done | done | apply Hi].
  - intros b. cbn [tasks with_tasks]. rewrite lookup_insert. case_decide as E.
    + subst b. by rewrite Ha.
    + by destruct (tasks s !! b).
Qed.

(** * Freeing a task *)

Lemma free_unless_null_spec s p :
  tm_inv (tmem s) -> p = NULL \/ tm_live (tmem s) p ->
  exists m, free_unless_null s p = Ret (with_tmem s m) /\ tm_inv m /\
    forall q, tm_live m q <-> tm_live (tmem s) q /\ q <> p.
Proof.
  intros Hi Hp. unfold free_unless_null. destruct (Z.eqb_spec p NULL) as [-> | Hne].
  - exists (tmem s). split; [by destruct s |]. split; [done |]. intros q. split; [| by intros [? _]].
    intros Hq. split; [done |]. apply tm_live_pos in Hq; [unfold NULL; lia | done].
  - destruct Hp as [? | Hp]; [done |]. destruct (tm_free_live _ _ Hi Hp) as (m & -> & Hm & Hl).
    by exists m.
Qed.

Lemma free_task_spec s a t :
  tm_inv (tmem s) -> tasks s !! a = Some t -> a <> NULL -> a <> INIT_TASK ->
  own_distinct a t -> Forall (tm_live (tmem s)) (resources a t) ->
  exists m, free_task_resources s a = Ret (with_tasks (with_tmem s m) (delete a (tasks s))) /\
    tm_inv m /\ forall q, tm_live m q <-> tm_live (tmem s) q /\ q ∉ resources a t.
Proof.
  intros Hi Ha Hn Hni (Hd1 & Hd2 & Hd3) Hl. rewrite Forall_forall in Hl.
  assert (Hk : forall p, p = kstack t \/ p = user_mem t \/ p = name t -> p = NULL \/ tm_live (tmem s) p).
  { intros p Hp. destruct (decide (p = NULL)); [by left | right]. apply Hl, elem_of_resources. auto. }
  unfold free_task_resources. replace ((a =? NULL) || (a =? INIT_TASK)) with false by lia.
  unfold tk. rewrite Ha. cbn [of_option obind].
  destruct (free_unless_null_spec s (kstack t) Hi (Hk (kstack t) ltac:(auto))) as (m1 & -> & Hi1 & L1). cbn [obind].
  destruct (free_unless_null_spec (with_tmem s m1) (user_mem t) Hi1) as (m2 & -> & Hi2 & L2).
  { cbn [tmem with_tmem]. destruct (decide (user_mem t = NULL)) as [| Hu]; [by left | right].
    apply L1. split; [by destruct (Hk (user_mem t) ltac:(auto)) |].
    intros E. destruct (decide (kstack t = NULL)) as [| Hk0]; [congruence |]. destruct (Hd1 Hk0). congruence. }
  cbn [obind tmem with_tmem] in *.
  destruct (free_unless_null_spec (with_tmem (with_tmem s m1) m2) (name t) Hi2) as (m3 & -> & Hi3 & L3).
  { cbn [tmem with_tmem]. destruct (decide (name t = NULL)) as [| Hu]; [by left | right].
    apply L2. split; [apply L1; split; [by destruct (Hk (name t) ltac:(auto)) |] |].
    - intros E. destruct (decide (kstack t = NULL)) as [| Hk0]; [congruence |]. destruct (Hd1 Hk0) as (_ & ? & _). congruence.
    - intros E. destruct (decide (user_mem t = NULL)) as [| Hk0]; [congruence |]. destruct (Hd2 Hk0) as (? & _). congruence. }
  cbn [obind tmem with_tmem] in *.
  assert (Hpt : exists m4, (if page_table t =? NULL then with_tmem (with_tmem (with_tmem s m1) m2) m3
            else with_tmem (with_tmem (with_tmem (with_tmem s m1) m2) m3)
                   (tm_destroy_user m3 (page_table t))) = with_tmem s m4 /\
            tm_inv m4 /\ forall q, tm_live m4 q <-> tm_live m3 q).
  { destruct (page_table t =? NULL); [by exists m3 |].
    destruct (tm_destroy_ok m3 (page_table t) Hi3) as [Hi4 L4].
    by exists (tm_destroy_user m3 (page_table t)). }
  destruct Hpt as (m4 & -> & Hi4 & L4). cbn [tmem with_tmem].
  assert (Ha4 : tm_live m4 a).
  { apply L4, L3. split; [apply L2; split; [apply L1; split; [apply Hl, elem_of_resources; auto |] |] |];
      intros E; rewrite <- E in *; [by destruct (Hd1 Hn) as (_ & _ & ?) | by destruct (Hd2 Hn) | by apply Hd3]. }
  destruct (tm_free_live _ _ Hi4 Ha4) as (m5 & -> & Hi5 & L5). cbn [obind].
  exists m5. split_and!; [done | done |]. intros q. rewrite L5, L4, L3, L2, L1, elem_of_resources.
  split.
  - intros ((((Hq & Hk1) & Hk2) & Hk3) & Hk4). split; [done |]. intros [-> | [_ [-> | [-> | ->]]]]; done.
  - intros [Hq Hnr]. pose proof (tm_live_pos _ _ Hi Hq) as Hpos.
    assert (q <> NULL) by (unfold NULL; lia). split_and!; try done; intros ->; apply Hnr; auto.
Qed.

(** * Leaving the ring and being freed *)

Definition diff (l ps : list Z) : list Z := filter (fun x => x ∉ ps) l.

Lemma diff_disjoint l (ps : list Z) : (forall x, x ∈ l -> x ∉ ps) -> diff l ps = l.
Proof.
  unfold diff. induction l as [|x l IH]; intros Hd; [done |].
  rewrite filter_cons_True by (apply Hd; set_solver). f_equal. apply IH. set_solver.
Qed.

Lemma diff_notin l (a : Z) : a ∉ l -> diff l [a] = l.
Proof. intros Ha. apply diff_disjoint. intros x Hx ->%list_elem_of_singleton. done. Qed.

Lemma diff_middle (l1 l2 : list Z) (a : Z) : NoDup (l1 ++ a :: l2) -> diff (l1 ++ a :: l2) [a] = l1 ++ l2.
Proof.
  intros Hnd. apply NoDup_app in Hnd as (_ & Hd & [Ha _]%NoDup_cons). unfold diff.
  rewrite filter_app, filter_cons. case_decide as E; [set_solver |].
  f_equal; apply diff_notin; [| done]. intros Ha1. apply (Hd a); set_solver.
Qed.

Lemma diff_cons l (a : Z) (ps : list Z) : diff (diff l [a]) ps = diff l (a :: ps).
Proof.
  unfold diff. rewrite list_filter_filter. apply list_filter_iff. intros x. rewrite not_elem_of_cons. set_solver.
Qed.

Lemma diff_nil l : diff l [] = l.
Proof. apply diff_disjoint. intros x _. apply not_elem_of_nil. Qed.

Lemma elem_of_diff l (ps : list Z) (x : Z) : x ∈ diff l ps <-> x ∈ l /\ x ∉ ps.
Proof. unfold diff. rewrite list_elem_of_filter. tauto. Qed.

(** A member other than init leaves the ring. *)
Lemma unlink_step s l1 a l2 zs :
  core_inv s (l1 ++ a :: l2) zs -> a <> INIT_TASK ->
  exists ts' tl, unlink_from_ring s a = Ret (0, with_ring (with_tasks s ts') tl) /\
    core_inv (with_ring (with_tasks s ts') tl) (l1 ++ l2) (a :: zs) /\
    relinked (tasks s) ts' (l1 ++ l2) a.
Proof.
  intros Hi Ha. pose proof (ci_nodup _ _ _ Hi) as Hnd.
  pose proof (proj1 (proj1 (NoDup_app _ _) Hnd)) as Hndl.
  assert (Hother : l1 ++ l2 <> []).
  { pose proof (ci_init _ _ _ Hi) as Hin. intros E. apply app_nil in E as [-> ->]. set_solver. }
  destruct (unlink_spec s l1 l2 a (ci_ring _ _ _ Hi) Hndl Hother (ci_tail _ _ _ Hi)
              (core_inv_null_notin _ _ _ Hi)) as (ts' & tl & E & Hr & Hl & Hrel).
  exists ts', tl. split_and!; [done | | done].
  assert (Hperm : (l1 ++ l2) ++ a :: zs ≡ₚ (l1 ++ a :: l2) ++ zs).
  { rewrite <- !app_assoc. apply Permutation_app_head. cbn [app]. symmetry. apply Permutation_middle. }
  destruct Hrel as (_ & _ & Hsome & Hnone).
  assert (Hf : forall b, match tasks s !! b, ts' !! b with
             | Some t, Some t' => pid t' = pid t /\ same_owned t t'
             | None, None => True | _, _ => False end).
  { intros b. destruct (tasks s !! b) as [t |] eqn:Eb.
    - destruct (Hsome b t Eb) as (t' & -> & Et'). rewrite Et'. done.
    - by rewrite (Hnone b Eb). }
  assert (Hb : forall b t', ts' !! b = Some t' ->
            exists t, tasks s !! b = Some t /\ pid t' = pid t /\ same_owned t t').
  { intros b t' Ht'. specialize (Hf b). rewrite Ht' in Hf. destruct (tasks s !! b) as [t |]; [| done]. by exists t. }
  split; cbn [tasks task_ring next_pid tmem with_ring with_tasks]; try apply Hi; try done.
  - by rewrite Hperm.
  - intros b. rewrite Hperm, <- (ci_dom _ _ _ Hi). specialize (Hf b).
    split; intros [t Ht]; rewrite Ht in Hf; [destruct (tasks s !! b) | destruct (ts' !! b)]; done.
  - pose proof (ci_init _ _ _ Hi). set_solver.
  - intros b t' Ht' Hne. destruct (Hb b t' Ht') as (t & Ht & _ & Er).
    destruct (same_owned_resources b t t' Er) as [-> ->]. by apply Hi.
  - intros b c t' u' Htb Htc Hne Hbi Hci. destruct (Hb b t' Htb) as (t & Ht & _ & Er).
    destruct (Hb c u' Htc) as (u & Hu & _ & Er'). rewrite (proj1 (same_owned_resources b t t' Er)).
    rewrite (proj1 (same_owned_resources c u u' Er')). by apply Hi.
  - intros b t' Ht'. destruct (Hb b t' Ht') as (t & Ht & -> & _). by apply Hi.
  - intros b c t' u' Htb Htc Hp. destruct (Hb b t' Htb) as (t & Ht & Ep & _).
    destruct (Hb c u' Htc) as (u & Hu & Eq & _). apply (ci_pid_inj _ _ _ Hi b c t u); congruence.
Qed.

(** A task outside the ring is freed with everything it owns. *)
Lemma free_step s l zs1 a zs2 :
  core_inv s l (zs1 ++ a :: zs2) -> a <> INIT_TASK ->
  exists m, free_task_resources s a = Ret (with_tasks (with_tmem s m) (delete a (tasks s))) /\
    core_inv (with_tasks (with_tmem s m) (delete a (tasks s))) l (zs1 ++ zs2) /\
    exists t, tasks s !! a = Some t /\
      forall q, tm_live m q <-> tm_live (tmem s) q /\ q ∉ resources a t.
Proof.
  intros Hi Ha.
  destruct (proj2 (ci_dom _ _ _ Hi a) ltac:(set_solver)) as [t Ht].
  destruct (ci_res _ _ _ Hi a t Ht Ha) as [Hd Hl].
  destruct (free_task_spec s a t (ci_mem _ _ _ Hi) Ht (core_inv_null _ _ _ a Hi ltac:(set_solver)) Ha Hd Hl)
    as (m & E & Hm & Hlive).
  exists m. split; [done |]. split; [| by exists t].
  assert (Hperm : l ++ zs1 ++ a :: zs2 ≡ₚ a :: l ++ zs1 ++ zs2).
  { rewrite !app_assoc. symmetry. apply Permutation_middle. }
  pose proof (ci_nodup _ _ _ Hi) as Hnd. rewrite Hperm in Hnd. apply NoDup_cons in Hnd as [Han Hnd].
  split; cbn [tasks task_ring next_pid tmem with_tmem with_tasks]; try apply Hi; try done.
  - split; [apply Hi |]. apply chain_delete_ne; [set_solver | apply Hi].
  - intros b. rewrite lookup_delete_is_Some, (ci_dom _ _ _ Hi b), Hperm, elem_of_cons.
    split; [intros [Hne [-> | ?]]; done |]. intros Hb. split; [| by right]. intros ->. done.
  - intros b u Hu Hne. apply lookup_delete_Some in Hu as [Hab Hu].
    destruct (ci_res _ _ _ Hi b u Hu Hne) as [Hdb Hlb]. split; [done |].
    rewrite Forall_forall in *. intros q Hq. apply Hlive. split; [by apply Hlb |]. intros Hqa.
    by apply (ci_sep _ _ _ Hi a b t u Ht Hu Hab Ha Hne q).
  - intros b c u v Hu Hv. apply lookup_delete_Some in Hu as [_ Hu]. apply lookup_delete_Some in Hv as [_ Hv].
    by apply Hi.
  - intros b u Hu. apply lookup_delete_Some in Hu as [_ Hu]. by apply Hi.
  - intros b c u v Hu Hv. apply lookup_delete_Some in Hu as [_ Hu]. apply lookup_delete_Some in Hv as [_ Hv].
    by apply Hi.
Qed.

(** * Zombies *)

(** The zombie list in memory. *)
Fixpoint zchain (ts : gmap Z task) (z : Z) (ps : list Z) : Prop :=
  match ps with
  | [] => z = NULL
  | a :: ps' => z = a /\ exists t, ts !! a = Some t /\ zchain ts (znext t) ps'
  end.

Lemma zchain_ext (ts ts' : gmap Z task) (z : Z) (ps : list Z) :
  (forall a t, a ∈ ps -> ts !! a = Some t -> exists t', ts' !! a = Some t' /\ znext t' = znext t) ->
  zchain ts z ps -> zchain ts' z ps.
Proof.
  revert z. induction ps as [|a ps IH]; intros z Hf; [done |]. intros [-> (t & Ht & Hz)].
  destruct (Hf a t ltac:(set_solver) Ht) as (t' & Ht' & En). split; [done |].
  exists t'. split; [done |]. rewrite En. apply IH; [| done]. intros b u Hb. apply Hf. set_solver.
Qed.

(** What a clean-up may change in the tasks it leaves. *)
Definition survives s s' : Prop :=
  forall b t', tasks s' !! b = Some t' -> exists t, tasks s !! b = Some t /\ t' = with_next t (next t').

Definition same_globals s s' : Prop :=
  current s' = current s /\ zombie_list s' = zombie_list s /\ need_reschedule s' = need_reschedule s /\
  create_lock s' = create_lock s /\ utask_lock s' = utask_lock s /\ next_pid s' = next_pid s /\
  cr3 s' = cr3 s /\ tss_rsp0 s' = tss_rsp0 s.

(** One round of the loop of [reap_zombies]. *)
Lemma reap_one s l zs a :
  core_inv s l zs -> a ∈ l ++ zs -> a <> INIT_TASK ->
  exists r s1 s', unlink_from_ring (cli s) a = Ret (r, s1) /\
    free_task_resources (sti s1) a = Ret s' /\
    core_inv s' (diff l [a]) (diff zs [a]) /\ survives s s' /\ same_globals s s' /\
    (forall b, b <> a -> is_Some (tasks s !! b) -> is_Some (tasks s' !! b)) /\
    (forall q, tm_live (tmem s') q -> tm_live (tmem s) q) /\
    (forall t q, tasks s !! a = Some t -> q ∈ resources a t -> ~ tm_live (tmem s') q).
Proof.
  intros Hi Ha Hne. pose proof (ci_nodup _ _ _ Hi) as Hnd.
  assert (Hc : core_inv (cli s) l zs) by (by apply (core_inv_ext s)).
  apply elem_of_app in Ha as [Ha | Ha]; apply list_elem_of_split in Ha as (k1 & k2 & ->).
  - destruct (unlink_step (cli s) k1 a k2 zs Hc Hne) as (ts' & tl & E & Hi1 & Hrel).
    set (s1 := with_ring (with_tasks (cli s) ts') tl) in *.
    assert (Hi2 : core_inv (sti s1) (k1 ++ k2) ([] ++ a :: zs)) by (by apply (core_inv_ext s1)).
    destruct (free_step (sti s1) (k1 ++ k2) [] a zs Hi2 Hne) as (m & E' & Hi3 & ta & Hta & Hlive).
    apply NoDup_app in Hnd as (Hnd1 & Hd & _).
    rewrite diff_middle by done. rewrite (diff_notin zs a) by (apply Hd; set_solver).
    exists 0, s1. eexists. split_and!; [exact E | exact E' | exact Hi3 | | done | | |].
    + intros b t' Ht'. cbn [tasks with_tasks with_tmem sti with_iflag s1 with_ring] in Ht'.
      apply lookup_delete_Some in Ht' as [_ Ht']. destruct Hrel as (_ & _ & Hs & Hn).
      destruct (tasks s !! b) as [t |] eqn:Eb; [| by rewrite (Hn b Eb) in Ht'].
      exists t. split; [done |]. destruct (Hs b t Eb) as (u & Hu & Eu). congruence.
    + intros b Hb [t Ht]. cbn [tasks with_tasks with_tmem sti with_iflag s1 with_ring].
      rewrite lookup_delete_ne by done. destruct Hrel as (_ & _ & Hs & _).
      destruct (Hs b t Ht) as (u & -> & _). done.
    + intros q Hq. by apply Hlive in Hq as [? _].
    + intros t q Ht Hq Hlq. apply Hlive in Hlq as [_ Hlq]. apply Hlq.
      cbn [tasks sti with_iflag s1 with_ring with_tasks] in Hta. destruct Hrel as (_ & Hsame & _).
      rewrite Hsame in Hta. change (tasks s !! a = Some ta) in Hta. by assert (ta = t) as -> by congruence.
  - assert (Hal : a ∉ l) by (intros Hal; apply NoDup_app in Hnd as (_ & Hd & _); apply (Hd a Hal); set_solver).
    exists (-1), (cli s).
    assert (Hi2 : core_inv (sti (cli s)) l (k1 ++ a :: k2)) by (by apply (core_inv_ext s)).
    destruct (free_step (sti (cli s)) l k1 a k2 Hi2 Hne) as (m & E' & Hi3 & ta & Hta & Hlive).
    rewrite (diff_notin l a) by done. rewrite diff_middle by (by apply NoDup_app in Hnd as (_ & _ & ?)).
    eexists. split_and!; [| exact E' | exact Hi3 | | done | | |].
    + apply (unlink_absent (cli s) l); try apply Hc; try done. by apply NoDup_app in Hnd as (? & _).
    + intros b t' Ht'. cbn [tasks with_tasks with_tmem sti cli with_iflag] in Ht'.
      apply lookup_delete_Some in Ht' as [_ Ht']. exists t'. split; [done |]. by destruct t'.
    + intros b Hb Ht. cbn [tasks with_tasks with_tmem sti cli with_iflag]. by rewrite lookup_delete_ne by done.
    + intros q Hq. by apply Hlive in Hq as [? _].
    + intros t q Ht Hq Hlq. apply Hlive in Hlq as [_ Hlq]. apply Hlq.
      change (tasks s !! a = Some ta) in Hta. by assert (ta = t) as -> by congruence.
Qed.

Lemma survives_trans s1 s2 s3 : survives s1 s2 -> survives s2 s3 -> survives s1 s3.
Proof.
  intros H1 H2 b t3 H3. destruct (H2 b t3 H3) as (t2 & E2 & Et3). destruct (H1 b t2 E2) as (t1 & E1 & Et2).
  exists t1. split; [done |]. rewrite Et3, Et2. done.
Qed.

Lemma reap_from_spec (ps : list Z) (fuel : nat) s l zs (z : Z) :
  core_inv s l zs -> zchain (tasks s) z ps -> NoDup ps -> ps ⊆ l ++ zs -> INIT_TASK ∉ ps ->
  (length ps <= fuel)%nat ->
  exists s', reap_from fuel s z = Ret s' /\ core_inv s' (diff l ps) (diff zs ps) /\
    survives s s' /\ same_globals s s' /\
    (forall q, tm_live (tmem s') q -> tm_live (tmem s) q) /\
    (forall a t q, a ∈ ps -> tasks s !! a = Some t -> q ∈ resources a t -> ~ tm_live (tmem s') q).
Proof.
  revert fuel s l zs z. induction ps as [|a ps IH]; intros fuel s l zs z Hi Hz Hnd Hsub Hinit Hf.
  { cbn in Hz. subst z. exists s. rewrite !diff_nil. split_and!; [by destruct fuel | done | | done | done |].
    - intros b t' Ht'. exists t'. split; [done |]. by destruct t'.
    - intros a t q Ha. by apply elem_of_nil in Ha. }
  destruct Hz as [-> (t & Ht & Hz)]. cbn [length] in Hf. destruct fuel as [|fuel]; [lia |].
  apply NoDup_cons in Hnd as [Han Hnd].
  assert (Hain : a ∈ l ++ zs) by (apply Hsub; set_solver).
  assert (Hai : a <> INIT_TASK) by set_solver.
  pose proof (core_inv_null _ _ _ a Hi Hain) as Hnull.
  destruct (reap_one s l zs a Hi Hain Hai) as (r & s1 & s2 & E1 & E2 & Hi2 & Hsv & Hg & Hkeep & Hmono & Hfreed).
  assert (Hz2 : zchain (tasks s2) (znext t) ps).
  { eapply zchain_ext; [| exact Hz]. intros b u Hb Hu.
    destruct (Hkeep b ltac:(set_solver) ltac:(by eexists)) as [u' Hu'].
    destruct (Hsv b u' Hu') as (u0 & Hu0 & Eu'). exists u'. split; [done |]. rewrite Eu'. cbn. congruence. }
  assert (Hsub2 : ps ⊆ diff l [a] ++ diff zs [a]).
  { intros b Hb. assert (Hne : b ∉ [a]) by (intros ->%list_elem_of_singleton; done).
    pose proof (Hsub b ltac:(set_solver)) as [Hbl | Hbz]%elem_of_app; apply elem_of_app;
      [left | right]; by apply elem_of_diff. }
  destruct (IH fuel s2 _ _ _ Hi2 Hz2 Hnd Hsub2 ltac:(set_solver) ltac:(lia)) as (s' & E' & Hi' & Hsv' & Hg' & Hmono' & Hfreed').
  rewrite !diff_cons in Hi'. exists s'. split_and!.
  - cbn [reap_from]. replace (a =? NULL) with false by lia. unfold tk. rewrite Ht. cbn [of_option obind].
    rewrite E1. cbn [obind]. rewrite E2. exact E'.
  - exact Hi'.
  - by eapply survives_trans.
  - destruct Hg as (? & ? & ? & ? & ? & ? & ? & ?), Hg' as (? & ? & ? & ? & ? & ? & ? & ?).
    split_and!; congruence.
  - auto.
  - intros b u q [-> | Hb]%elem_of_cons Hu Hq Hlq.
    + by apply (Hfreed u q Hu Hq), Hmono'.
    + destruct (Hkeep b ltac:(set_solver) ltac:(by eexists)) as [u' Hu'].
      apply (Hfreed' b u' q Hb Hu'); [| done]. destruct (Hsv b u' Hu') as (u0 & Hu0 & Eu').
      assert (u0 = u) as -> by congruence. rewrite Eu'.
      by rewrite (proj1 (same_owned_resources b u (with_next u (next u')) ltac:(done))).
Qed.

Lemma length_dom s (ps : list Z) :
  NoDup ps -> (forall a, a ∈ ps -> is_Some (tasks s !! a)) -> (length ps <= fuel_of s)%nat.
Proof.
  intros Hnd Hd. unfold fuel_of. rewrite <- size_dom, <- (size_list_to_set (C := gset Z) ps) by done.
  apply le_S, subseteq_size. intros a Ha. apply elem_of_list_to_set in Ha. by apply elem_of_dom, Hd.
Qed.

(** * Entering the ring *)

Lemma insert_tail_spec s l (t : Z) (k : task) :
  ring (tasks s) l -> NoDup l -> last l = Some (task_ring s) -> task_ring s <> NULL -> t ∉ l ->
  tasks s !! t = Some k ->
  exists ts', insert_tail s t = Ret (with_ring (with_tasks s ts') t) /\
    ring ts' (l ++ [t]) /\
    (forall a u, tasks s !! a = Some u -> exists u', ts' !! a = Some u' /\ u' = with_next u (next u')) /\
    (forall a, tasks s !! a = None -> ts' !! a = None) /\
    (forall a, a ∉ l -> a <> t -> ts' !! a = tasks s !! a).
Proof.
  intros Hr Hnd Hlast Hn Ht Hk. destruct (ring_ends _ _ _ Hr Hnd Hlast) as (tl & Htl & Hnx & _ & _).
  apply last_Some in Hlast as (l' & El).
  assert (Htr : task_ring s ∈ l) by (rewrite El; set_solver).
  assert (Hne : t <> task_ring s) by (intros ->; done).
  set (k' := with_next k (next tl)). set (ts1 := <[t := k']> (tasks s)).
  set (ts' := <[task_ring s := with_next tl t]> ts1).
  exists ts'. split_and!.
  - unfold insert_tail. replace (task_ring s =? NULL) with false by lia.
    unfold tk. rewrite Htl. cbn [of_option obind]. rewrite (upd_eq s t k) by done. cbn [obind].
    rewrite (upd_eq _ _ tl); [done |]. cbn [tasks with_tasks task_ring]. by rewrite lookup_insert_ne.
  - destruct Hr as [Hne' Hc]. split; [by destruct l |]. rewrite hd_or_app.
    assert (Hh : hd_or (hd_or NULL [t]) l = hd_or NULL l) by (by destruct l). rewrite Hh.
    assert (Hc1 : chain ts1 l (hd_or NULL l)) by (by apply chain_insert_ne).
    apply chain_app. split.
    + rewrite El in Hc1, Hnd |- *. eapply chain_redirect; [done | exact Hc1 |].
      unfold ts1. by rewrite lookup_insert_ne.
    + split; [| done]. exists k'. unfold ts', ts1. rewrite lookup_insert_ne, lookup_insert_eq by done. done.
  - intros a u Hu. unfold ts', ts1. rewrite !lookup_insert. case_decide as E1; [| case_decide as E2].
    + subst a. exists (with_next tl t). split; [done |]. by assert (u = tl) as -> by congruence.
    + subst a. exists k'. split; [done |]. by assert (u = k) as -> by congruence.
    + exists u. split; [done |]. by destruct u.
  - intros a Ha. unfold ts', ts1. rewrite !lookup_insert_ne; [done | |]; intros <-; congruence.
  - intros a Ha Hat. unfold ts', ts1. rewrite !lookup_insert_ne; [done | |]; intros <-; done.
Qed.
End inv.

(** * The initial frame *)

Lemma store_words_below (ws : list Z) (m : mem) (sp a : Z) :
  a + 8 <= sp -> ld64 (store_words m sp ws) a = ld64 m a.
Proof.
  revert m sp. induction ws as [|w ws IH]; intros m sp Ha; [done |]. cbn [store_words].
  rewrite IH by lia. apply load_store_ne. lia.
Qed.

Lemma store_words_nth (ws : list Z) (m : mem) (sp : Z) (i : nat) (w : Z) :
  Forall (fits 64) ws -> ws !! i = Some w -> ld64 (store_words m sp ws) (sp + 8 * Z.of_nat i) = w.
Proof.
  revert m sp i. induction ws as [|v ws IH]; intros m sp i Hf Hi; [done |].
  apply Forall_cons in Hf as [Hv Hf]. destruct i as [|i]; cbn [store_words].
  - injection Hi as ->. rewrite store_words_below by lia.
    replace (sp + 8 * Z.of_nat 0) with sp by lia. by apply load_store_eq.
  - replace (sp + 8 * Z.of_nat (S i)) with (sp + 8 + 8 * Z.of_nat i) by lia. by apply IH.
Qed.

Lemma store_words_outside (ws : list Z) (m : mem) (sp a : Z) :
  a < sp \/ sp + 8 * Z.of_nat (length ws) <= a -> ldb (store_words m sp ws) a = ldb m a.
Proof.
  revert m sp. induction ws as [|v ws IH]; intros m sp Ha; [done |]. cbn [store_words length] in *.
  rewrite IH by lia. rewrite ldb_store. by replace ((sp <=? a) && _) with false by lia.
Qed.

Lemma frame_words_fit (entry top utop argc argv : Z) (um : bool) :
  fits 64 entry -> fits 64 top -> fits 64 utop -> fits 64 argv ->
  Forall (fits 64) (frame_words entry top utop argc argv um).
Proof.
  intros He Ht Hu Ha. unfold frame_words. repeat (apply Forall_cons; split); try apply Forall_nil; try done;
    try (split; lia); try (by apply wrap_fits); destruct um; (done || fits_tac).
Qed.

Lemma stack_top_aligned (top : Z) :
  192 <= top < 2 ^ 64 ->
  let sp := sub64 (Z.land top (wnot 64 0xF)) (22 * 8) in
  sp mod 16 = 0 /\ top - 192 < sp /\ sp + 22 * 8 <= top.
Proof.
  intros Ht sp. unfold sp, sub64, wnot.
  assert (E : Z.land top (wrap 64 (Z.lnot 15)) = top - top mod 16).
  { rewrite wrap_land by lia. rewrite Z.land_assoc, (Z.land_comm top), <- Z.land_assoc.
    rewrite Z.land_ones by lia. rewrite (Z.mod_small top) by lia.
    rewrite Z.land_comm. rewrite <- Z.ldiff_land. change 15 with (Z.ones 4). rewrite Z.ldiff_ones_r by lia.
    rewrite Z.shiftr_div_pow2, Z.shiftl_mul_pow2 by lia. dlia. }
  rewrite E. rewrite wrap_small by (split; dlia). dlia.
Qed.
