(* ===== verification/SchedSpec.v ===== *)
(** Properties of the scheduler (Sched.v) over the invariant of SchedInv.v: the choice
    of the next task, creation, exit, stop and clean-up of tasks, the invariant along
    every interleaving of calls and interrupts, and fairness. *)

From S2P Require Import Prelude LibMem Tss Sched SchedInv.

Section spec.
Context {M : Type} `{TaskMem M}.
Implicit Types (s : sched M) (l zs : list Z).

Definition init_runnable s : Prop := exists t, tasks s !! INIT_TASK = Some t /\ runnable t = true.

(** [current] is nothing yet, in the ring, or a finished task that still points into it. *)
Definition cur_ok s l zs : Prop :=
  current s = NULL \/ current s ∈ l \/
  (current s ∈ zs /\ exists t, tasks s !! current s = Some t /\ next t ∈ l).

Record sched_inv s l zs : Prop := {
  sv_core : core_inv s l zs;
  sv_zombies : zchain (tasks s) (zombie_list s) zs;
  sv_cur : cur_ok s l zs;
  sv_init : init_runnable s
}.

Lemma init_in_dom s l zs : core_inv s l zs -> INIT_TASK ∉ zs.
Proof.
  intros Hi Hz. pose proof (ci_nodup _ _ _ Hi) as (_ & Hd & _)%NoDup_app.
  apply (Hd INIT_TASK (ci_init _ _ _ Hi) Hz).
Qed.

(** * Choosing the next task *)

Lemma first_runnable_ext (ts ts' : gmap Z task) l :
  (forall a, a ∈ l -> runnable <$> ts' !! a = runnable <$> ts !! a) ->
  first_runnable ts' l = first_runnable ts l.
Proof.
  induction l as [|a l IH]; intros Hf; [done |]. cbn [first_runnable].
  pose proof (Hf a ltac:(set_solver)) as Ha. rewrite IH by set_solver.
  destruct (ts' !! a) as [t' |], (ts !! a) as [t |]; cbn in Ha; try done. injection Ha as ->. done.
Qed.

(** Where the search starts. *)
Lemma pick_start s l zs :
  core_inv s l zs -> cur_ok s l zs ->
  exists t, (if negb (current s =? NULL) then tk s (current s) else tk s (task_ring s)) = Ret t /\ next t ∈ l.
Proof.
  intros Hi Hc. destruct (Z.eqb_spec (current s) NULL) as [E | E]; cbn [negb].
  - assert (Htr : task_ring s ∈ l).
    { pose proof (ci_tail _ _ _ Hi) as Hl. apply last_Some in Hl as (k & ->). set_solver. }
    destruct (proj2 (ci_dom _ _ _ Hi (task_ring s)) ltac:(set_solver)) as [t Ht].
    exists t. unfold tk. rewrite Ht. split; [done |]. by eapply ring_next; [apply Hi | | exact Ht].
  - destruct Hc as [? | [Hc | (Hc & t & Ht & Hn)]]; [done | |].
    + destruct (proj2 (ci_dom _ _ _ Hi (current s)) ltac:(set_solver)) as [t Ht].
      exists t. unfold tk. rewrite Ht. split; [done |]. by eapply ring_next; [apply Hi | | exact Ht].
    + exists t. unfold tk. by rewrite Ht.
Qed.

(** The task [pick_next] starts from. *)
Definition start_of s : Z :=
  match (if negb (current s =? NULL) then tasks s !! current s else tasks s !! task_ring s) with
  | Some t => next t
  | None => NULL
  end.

Lemma pick_next_eq s l zs :
  core_inv s l zs -> cur_ok s l zs ->
  start_of s ∈ l /\ pick_next s = Ret (first_runnable (tasks s) (after l (start_of s))).
Proof.
  intros Hi Hc. destruct (pick_start s l zs Hi Hc) as (t & Et & Hn).
  assert (Hst : start_of s = next t).
  { unfold start_of. unfold tk in Et. destruct (negb _).
    - destruct (tasks s !! current s); [| done]. by injection Et as ->.
    - destruct (tasks s !! task_ring s); [| done]. by injection Et as ->. }
  rewrite Hst. split; [done |]. unfold pick_next.
  assert (Htr : task_ring s <> NULL).
  { apply (core_inv_null _ _ _ _ Hi). pose proof (ci_tail _ _ _ Hi) as Hl.
    apply last_Some in Hl as (k & ->). set_solver. }
  replace (task_ring s =? NULL) with false by lia. rewrite Et. cbn [obind].
  apply pick_from_ring; [| apply Hi | done]. by pose proof (ci_nodup _ _ _ Hi) as (? & _)%NoDup_app.
Qed.

(** Something runnable is always found: init at the latest. *)
Lemma first_runnable_after s l zs (x : Z) :
  core_inv s l zs -> init_runnable s ->
  exists l1 l2 t, after l x = l1 ++ first_runnable (tasks s) (after l x) :: l2 /\
    tasks s !! first_runnable (tasks s) (after l x) = Some t /\ runnable t = true /\
    forall b u, b ∈ l1 -> tasks s !! b = Some u -> runnable u = false.
Proof.
  intros Hi (t & Ht & Hrun). apply first_runnable_some.
  - intros a Ha. rewrite after_perm in Ha. apply (ci_dom _ _ _ Hi). set_solver.
  - exists INIT_TASK, t. split_and!; try done. rewrite after_perm. apply Hi.
Qed.

Lemma first_runnable_in s l zs (x : Z) :
  core_inv s l zs -> init_runnable s -> first_runnable (tasks s) (after l x) ∈ l.
Proof.
  intros Hi Hr. destruct (first_runnable_after s l zs x Hi Hr) as (l1 & l2 & t & E & _).
  assert (Hin : first_runnable (tasks s) (after l x) ∈ after l x) by (rewrite E at 2; set_solver).
  by apply (proj1 (elem_of_Permutation_proper _ _ _ (after_perm l x))).
Qed.

(** [pick_next] is round robin: it terminates and returns the first READY or RUNNING
    task behind the current one in ring order, skipping only tasks that cannot run; the
    current task itself comes last. *)
Theorem pick_next_spec s l zs :
  sched_inv s l zs ->
  exists n l1 l2 t, pick_next s = Ret n /\ after l (start_of s) = l1 ++ n :: l2 /\ start_of s ∈ l /\
    tasks s !! n = Some t /\ runnable t = true /\
    forall b u, b ∈ l1 -> tasks s !! b = Some u -> runnable u = false.
Proof.
  intros [Hi _ Hc Hr]. destruct (pick_next_eq s l zs Hi Hc) as [Hst E].
  destruct (first_runnable_after s l zs (start_of s) Hi Hr) as (l1 & l2 & t & El & Ht & Hrun & Hb).
  by exists (first_runnable (tasks s) (after l (start_of s))), l1, l2, t.
Qed.

(** * The interrupt *)

Definition touch s (a : Z) (f : task -> task) : sched M :=
  match tasks s !! a with Some t => with_tasks s (<[a := f t]> (tasks s)) | None => s end.

(** Updates of scheduling fields that keep the invariant. *)
Lemma sched_inv_upd s l zs a t (f : task -> task) :
  sched_inv s l zs -> tasks s !! a = Some t ->
  next (f t) = next t -> pid (f t) = pid t -> same_owned t (f t) -> znext (f t) = znext t ->
  (a = INIT_TASK -> runnable (f t) = true) ->
  sched_inv (with_tasks s (<[a := f t]> (tasks s))) l zs.
Proof.
  intros [Hi Hz Hc Hr] Ha Hn Hp Ho Hzn Hrun. split.
  - by apply core_inv_upd.
  - eapply zchain_ext; [| exact Hz]. intros b u Hb Hu. cbn [tasks with_tasks]. rewrite lookup_insert.
    case_decide; [| by exists u]. subst b. exists (f t). split; [done |]. congruence.
  - destruct Hc as [Hc | [Hc | (Hc & u & Hu & Hnu)]]; [by left | right; by left | right; right].
    split; [done |]. cbn [tasks current with_tasks]. rewrite lookup_insert. case_decide; [| by exists u].
    subst a. exists (f t). split; [done |]. rewrite Hn. assert (u = t) as <- by congruence. done.
  - destruct Hr as (u & Hu & Hru). unfold init_runnable. cbn [tasks with_tasks]. rewrite lookup_insert.
    case_decide; [| by exists u]. exists (f t). auto.
Qed.

(** The invariant does not mention the registers and the flags. *)
Lemma sched_inv_globals s s' l zs :
  tasks s' = tasks s -> task_ring s' = task_ring s -> next_pid s' = next_pid s -> tmem s' = tmem s ->
  zombie_list s' = zombie_list s -> current s' = current s ->
  sched_inv s l zs -> sched_inv s' l zs.
Proof.
  intros E1 E2 E3 E4 E5 E6 [Hi Hz Hc Hr]. split.
  - by apply (core_inv_ext s).
  - by rewrite E1, E5.
  - unfold cur_ok. by rewrite E1, E6.
  - unfold init_runnable. by rewrite E1.
Qed.

Lemma current_lookup s l zs :
  sched_inv s l zs -> current s <> NULL -> is_Some (tasks s !! current s).
Proof.
  intros [Hi _ Hc _] Hn. apply (ci_dom _ _ _ Hi). destruct Hc as [? | [Hc | (Hc & _)]]; [done | |]; set_solver.
Qed.

(** Whether the interrupt switches tasks, and to which. *)
Definition switch_to s l : Z :=
  if need_reschedule s then first_runnable (tasks s) (after l (start_of s)) else current s.

Lemma schedule_ok s l zs (rg : Z) :
  sched_inv s l zs -> rg <> NULL -> current s <> NULL ->
  exists r s', schedule_from_isr s rg = Ret (r, s') /\ sched_inv s' l zs /\
    current s' = switch_to s l /\ need_reschedule s' = false /\
    (exists t', tasks s' !! current s' = Some t' /\ state t' = TASK_RUNNING /\ r = regs t' /\
       tss_rsp0 s' = add64 (kstack t') (kstack_size t')) /\
    (exists t', tasks s' !! current s = Some t' /\ regs t' = rg) /\
    (forall a, a <> current s' -> runnable <$> tasks s' !! a = runnable <$> tasks s !! a) /\
    (forall a, next <$> tasks s' !! a = next <$> tasks s !! a) /\
    (forall a, a <> current s -> regs <$> tasks s' !! a = regs <$> tasks s !! a).
Proof.
  intros Hinv Hrg Hcur. destruct (current_lookup s l zs Hinv Hcur) as [t Ht].
  set (t1 := with_regs t rg). set (s1 := with_tasks s (<[current s := t1]> (tasks s))).
  set (t2 := if decide (state t1 = TASK_RUNNING) then with_state t1 TASK_READY else t1).
  set (s2 := with_tasks s (<[current s := t2]> (tasks s))).
  assert (Hrun2 : runnable t2 = runnable t).
  { unfold t2, runnable. cbn. destruct (decide (state t = TASK_RUNNING)) as [E |]; [by rewrite E | done]. }
  assert (Hinv2 : sched_inv s2 l zs).
  { apply (sched_inv_upd s l zs (current s) t (fun _ => t2) Hinv Ht); try (unfold t2; by destruct (decide _)).
    intros E. destruct (sv_init _ _ _ Hinv) as (u & Hu & Hru). rewrite <- E, Ht in Hu. rewrite Hrun2. congruence. }
  assert (Hrun : forall a, runnable <$> tasks s2 !! a = runnable <$> tasks s !! a).
  { intros a. unfold s2. cbn [tasks with_tasks]. rewrite lookup_insert. case_decide; [| done].
    subst a. rewrite Ht. cbn. by rewrite Hrun2. }
  assert (Hnx : forall a, next <$> tasks s2 !! a = next <$> tasks s !! a).
  { intros a. unfold s2. cbn [tasks with_tasks]. rewrite lookup_insert. case_decide; [| done].
    subst a. rewrite Ht. unfold t2. by destruct (decide _). }
  assert (Hst : start_of s2 = start_of s).
  { unfold start_of. cbn [current task_ring s2 with_tasks].
    assert (Hx : forall a, match tasks s2 !! a with Some k => next k | None => NULL end =
                 match tasks s !! a with Some k => next k | None => NULL end).
    { intros a. specialize (Hnx a). destruct (tasks s2 !! a), (tasks s !! a); cbn in Hnx; congruence. }
    destruct (negb _); apply Hx. }
  destruct (pick_next_eq s2 l zs (sv_core _ _ _ Hinv2) (sv_cur _ _ _ Hinv2)) as [Hstl Epick].
  rewrite Hst in *. rewrite (first_runnable_ext (tasks s) (tasks s2)) in Epick by (intros; apply Hrun).
  set (n := first_runnable (tasks s) (after l (start_of s))) in *.
  assert (Hn : n ∈ l) by (apply (first_runnable_in s l zs); apply Hinv).
  assert (Hnn : n <> NULL) by (apply (core_inv_null _ _ _ n (sv_core _ _ _ Hinv)); set_solver).
  set (c' := switch_to s l).
  set (s3 := with_resched (with_current s2 c') false).
  assert (Hcok : cur_ok s3 l zs).
  { unfold cur_ok. cbn [current tasks s3 with_resched with_current]. unfold c', switch_to. fold n.
    destruct (need_reschedule s); [right; by left |].
    pose proof (sv_cur _ _ _ Hinv2) as Hc2. unfold cur_ok in Hc2. cbn [current s2 with_tasks] in Hc2.
    exact Hc2. }
  assert (Hinv3 : sched_inv s3 l zs).
  { destruct Hinv2 as [Hi2 Hz2 _ Hr2]. split; [by apply (core_inv_ext s2) | done | done | done]. }
  assert (Hc'n : c' <> NULL) by (unfold c', switch_to; by destruct (need_reschedule s)).
  destruct (current_lookup s3 l zs Hinv3 Hc'n) as [u Hu]. cbn [current s3 with_resched with_current] in Hu.
  set (s4 := with_tasks s3 (<[c' := with_state u TASK_RUNNING]> (tasks s3))).
  assert (Hinv4 : sched_inv s4 l zs).
  { by apply (sched_inv_upd s3 l zs c' u (fun k => with_state k TASK_RUNNING)). }
  set (s5 := with_kstack_top s4 (add64 (kstack u) (kstack_size u))).
  set (s6 := if page_table u =? NULL then s5 else with_cr3 s5 (page_table u)).
  exists (regs u), s6. split; [| split_and!].
  - unfold schedule_from_isr. replace (rg =? NULL) with false by lia.
    replace (current s =? NULL) with false by lia. rewrite (upd_eq s _ t) by done. cbn [obind].
    fold t1. fold s1. unfold tk at 1. cbn [tasks current s1 with_tasks]. rewrite lookup_insert_eq. cbn [of_option obind].
    assert (E2 : (if decide (state t1 = TASK_RUNNING) then upd s1 (current s) (fun k => with_state k TASK_READY)
                  else Ret s1) = Ret s2).
    { unfold s2, t2. destruct (decide (state t1 = TASK_RUNNING)); [| done].
      rewrite (upd_eq s1 _ t1) by (cbn [tasks s1 with_tasks]; by rewrite lookup_insert_eq).
      unfold s1. cbn [tasks with_tasks]. by rewrite insert_insert_eq. }
    rewrite E2. cbn [obind].
    assert (E3 : (if need_reschedule s2 then obind (pick_next s2) (fun n0 =>
        Ret (with_resched (if negb (n0 =? NULL) && negb (n0 =? current s2) then with_current s2 n0 else s2) false))
        else Ret s2) = Ret (if need_reschedule s then s3 else s2)).
    { cbn [need_reschedule s2 with_tasks]. unfold s3, c', switch_to. fold n.
      destruct (need_reschedule s); [| done]. rewrite Epick. cbn [obind].
      replace (n =? NULL) with false by lia. cbn [negb andb].
      destruct (Z.eqb_spec n (current s2)) as [E | E]; [| done]. cbn [negb]. by rewrite E. }
    rewrite E3. cbn [obind].
    assert (E4 : upd (if need_reschedule s then s3 else s2) (current (if need_reschedule s then s3 else s2))
               (fun k => with_state k TASK_RUNNING) = Ret (if need_reschedule s then s4 else with_tasks s2 (tasks s4))).
    { destruct (need_reschedule s) eqn:Er.
      - by rewrite (upd_eq s3 _ u).
      - assert (c' = current s) as Ec by (unfold c', switch_to; by rewrite Er).
        change (current s2) with (current s).
        rewrite <- Ec, (upd_eq s2 _ u) by done. cbn [current s2 with_tasks]. done. }
    rewrite E4. cbn [obind].
    assert (E5 : (if need_reschedule s then s4 else with_tasks s2 (tasks s4)) = s4).
    { destruct (need_reschedule s) eqn:Er; [done |]. unfold s4, s3, s2, c', switch_to. rewrite Er.
      cbn. unfold with_tasks, with_resched, with_current. cbn. by rewrite Er. }
    rewrite E5. unfold tk. cbn [current tasks s4 s3 with_tasks with_resched with_current].
    rewrite lookup_insert_eq. cbn [of_option obind]. done.
  - assert (Hinv5 : sched_inv s5 l zs) by (by apply (sched_inv_globals s4)).
    unfold s6. destruct (page_table u =? NULL); [done |]. by apply (sched_inv_globals s5).
  - unfold s6. by destruct (page_table u =? NULL).
  - unfold s6. by destruct (page_table u =? NULL).
  - exists (with_state u TASK_RUNNING).
    replace (current s6) with c' by (unfold s6; by destruct (page_table u =? NULL)).
    replace (tasks s6) with (tasks s4) by (unfold s6; by destruct (page_table u =? NULL)).
    replace (tss_rsp0 s6) with (add64 (kstack u) (kstack_size u)) by (unfold s6; by destruct (page_table u =? NULL)).
    unfold s4. cbn [tasks with_tasks]. by rewrite lookup_insert_eq.
  - replace (tasks s6) with (tasks s4) by (unfold s6; by destruct (page_table u =? NULL)).
    unfold s4. cbn [tasks with_tasks s3 with_resched with_current s2]. rewrite lookup_insert. case_decide as E.
    + exists (with_state u TASK_RUNNING). split; [done |]. cbn.
      cbn [tasks with_tasks s3 with_resched with_current s2] in Hu. rewrite E, lookup_insert_eq in Hu.
      injection Hu as <-. unfold t2. by destruct (decide _).
    + rewrite lookup_insert_eq. exists t2. split; [done |]. unfold t2. by destruct (decide _).
  - replace (current s6) with c' by (unfold s6; by destruct (page_table u =? NULL)).
    replace (tasks s6) with (tasks s4) by (unfold s6; by destruct (page_table u =? NULL)).
    intros a Ha. unfold s4. cbn [tasks with_tasks]. rewrite lookup_insert_ne by done. apply Hrun.
  - replace (tasks s6) with (tasks s4) by (unfold s6; by destruct (page_table u =? NULL)).
    intros a. unfold s4. cbn [tasks with_tasks]. rewrite lookup_insert. case_decide as E; [| apply Hnx].
    subst a. rewrite <- Hnx. by change (tasks s2) with (tasks s3); rewrite Hu.
  - replace (tasks s6) with (tasks s4) by (unfold s6; by destruct (page_table u =? NULL)).
    assert (Hrg2 : forall a, a <> current s -> regs <$> tasks s2 !! a = regs <$> tasks s !! a).
    { intros a Ha. unfold s2. cbn [tasks with_tasks]. by rewrite lookup_insert_ne. }
    intros a Ha. unfold s4. cbn [tasks with_tasks]. rewrite lookup_insert. case_decide as E; [| by apply Hrg2].
    subst a. rewrite <- Hrg2 by done. by change (tasks s2) with (tasks s3); rewrite Hu.
Qed.

(** * Clean-up *)

Lemma runnable_survives s s' (t' : task) (a : Z) :
  survives s s' -> tasks s' !! a = Some t' ->
  exists t, tasks s !! a = Some t /\ runnable t' = runnable t /\ pid t' = pid t /\ state t' = state t.
Proof. intros Hs Ht'. destruct (Hs a t' Ht') as (t & Ht & ->). by exists t. Qed.

Lemma init_runnable_survives s s' l zs :
  survives s s' -> core_inv s' l zs -> init_runnable s -> init_runnable s'.
Proof.
  intros Hs Hi (t & Ht & Hr).
  destruct (proj2 (ci_dom _ _ _ Hi INIT_TASK)) as [t' Ht']; [pose proof (ci_init _ _ _ Hi); set_solver |].
  destruct (runnable_survives s s' t' _ Hs Ht') as (t0 & Ht0 & Hr0 & _). exists t'. split; [done |]. congruence.
Qed.

Lemma reap_ok s l zs :
  sched_inv s l zs -> current s ∉ zs ->
  exists s', reap_zombies s = Ret s' /\ sched_inv s' l [] /\ survives s s' /\
    current s' = current s /\ zombie_list s' = NULL /\ need_reschedule s' = need_reschedule s /\
    next_pid s' = next_pid s /\ create_lock s' = create_lock s /\ utask_lock s' = utask_lock s /\
    (forall q, tm_live (tmem s') q -> tm_live (tmem s) q) /\
    (forall a t q, a ∈ zs -> tasks s !! a = Some t -> q ∈ resources a t -> ~ tm_live (tmem s') q).
Proof.
  intros [Hi Hz Hc Hr] Hcz. unfold reap_zombies.
  set (s0 := sti (with_zombies (cli s) NULL)).
  assert (Hi0 : core_inv s0 l zs) by (by apply (core_inv_ext s)).
  pose proof (ci_nodup _ _ _ Hi) as (Hn1 & Hd & Hn2)%NoDup_app.
  destruct (reap_from_spec zs (fuel_of s0) s0 l zs (zombie_list s) Hi0 Hz Hn2 ltac:(set_solver)
              (init_in_dom _ _ _ Hi)) as (s' & E & Hi' & Hsv & Hg & Hm & Hf).
  { apply length_dom; [done |]. intros a Ha. apply (ci_dom _ _ _ Hi). set_solver. }
  rewrite (diff_disjoint l zs) in Hi' by set_solver.
  assert (Hzz : diff zs zs = []).
  { apply elem_of_nil_inv. intros a Ha. apply elem_of_diff in Ha as [? ?]. done. }
  rewrite Hzz in Hi'. destruct Hg as (G1 & G2 & G3 & G4 & G5 & G6 & G7 & G8).
  exists s'. split; [done |]. split; [| split_and!; done].
  split; [done | by rewrite G2 | | by eapply (init_runnable_survives s0)].
  unfold cur_ok. rewrite G1. destruct Hc as [Hc | [Hc | (Hc & _)]]; [by left | right; by left | done].
Qed.

(** [reap_zombies] frees every task on the zombie list with all the memory it owns,
    never panics or touches a freed pointer, and leaves the ring, the running task and
    all other tasks in place. *)
Theorem reap_zombies_spec s l zs :
  sched_inv s l zs -> current s ∉ zs ->
  exists s', reap_zombies s = Ret s' /\ sched_inv s' l [] /\ current s' = current s /\
    zombie_list s' = NULL /\
    (forall a t, tasks s' !! a = Some t -> exists t0, tasks s !! a = Some t0 /\ state t = state t0 /\ pid t = pid t0) /\
    (forall a t q, a ∈ zs -> tasks s !! a = Some t -> q ∈ resources a t -> ~ tm_live (tmem s') q).
Proof.
  intros Hinv Hc. destruct (reap_ok s l zs Hinv Hc) as (s' & E & Hi & Hs & Hcur & Hz & _ & _ & _ & _ & _ & Hf).
  exists s'. split_and!; try done. intros a t Ht. destruct (runnable_survives s s' t a Hs Ht) as (t0 & ? & _ & ? & ?).
  eauto.
Qed.

(** * Leaving *)

Lemma ring_next_other (ts : gmap Z task) (l1 l2 : list Z) (a : Z) (t : task) :
  ring ts (l1 ++ a :: l2) -> NoDup (l1 ++ a :: l2) -> l1 ++ l2 <> [] -> ts !! a = Some t -> next t ∈ l1 ++ l2.
Proof.
  intros Hr Hnd Hne Ha. destruct (ring_rotate _ _ _ _ Hr) as [(t' & Ht' & Hn) _].
  assert (t' = t) as -> by congruence. rewrite Hn.
  destruct l2 as [|b l2]; [| cbn; set_solver]. destruct l1 as [|b l1]; [done | cbn; set_solver].
Qed.

(** The current task becomes a zombie: the common end of [task_exit] and [task_stop]. *)
Lemma zombify_current s l t (f : task -> task) :
  sched_inv s l [] -> current s ∈ l -> current s <> INIT_TASK -> zombie_list s = NULL ->
  tasks s !! current s = Some t ->
  next (f t) = next t -> pid (f t) = pid t -> same_owned t (f t) -> state (f t) = TASK_ZOMBIE ->
  exists s1 s2 r s3, upd s (current s) f = Ret s1 /\ add_to_zombie_list s1 (current s) = Ret s2 /\
    current s1 = current s /\ current s2 = current s /\
    unlink_from_ring s2 (current s) = Ret (r, s3) /\
    sched_inv (sti s3) (diff l [current s]) [current s] /\ current s3 = current s /\
    exists t', tasks s3 !! current s = Some t' /\ state t' = TASK_ZOMBIE /\ exit_code t' = exit_code (f t).
Proof.
  intros [Hi Hz Hc Hr] Hcl Hci Hzn Ht Fn Fp Fo Fs.
  set (c := current s) in *.
  assert (Hnull : c <> NULL) by (apply (core_inv_null _ _ _ c Hi); set_solver).
  set (s1 := with_tasks s (<[c := f t]> (tasks s))).
  set (t2 := with_znext (f t) NULL).
  set (s2 := with_zombies (with_tasks s (<[c := t2]> (tasks s))) c).
  assert (Hi2 : core_inv s2 l []).
  { apply (core_inv_ext (with_tasks s (<[c := t2]> (tasks s)))); try done.
    by apply (core_inv_upd s l [] c t (fun k => with_znext (f k) NULL)). }
  apply list_elem_of_split in Hcl as (l1 & l2 & ->).
  pose proof (ci_nodup _ _ _ Hi) as Hnd. rewrite app_nil_r in Hnd.
  destruct (unlink_step s2 l1 c l2 [] Hi2 Hci) as (ts' & tl & E & Hi3 & Hrel).
  destruct Hrel as (_ & Hsame & Hsome & _).
  assert (Hc3 : ts' !! c = Some t2) by (rewrite Hsame; apply lookup_insert_eq).
  exists s1, s2, 0, (with_ring (with_tasks s2 ts') tl). rewrite diff_middle by done. split_and!.
  - by apply upd_eq.
  - unfold add_to_zombie_list. replace (c =? NULL) with false by lia.
    rewrite (upd_eq s1 c (f t)) by apply lookup_insert_eq. cbn [obind].
    unfold s1. cbn [zombie_list tasks with_tasks]. rewrite Hzn. by rewrite insert_insert_eq.
  - done.
  - done.
  - done.
  - assert (Hother : l1 ++ l2 <> []).
    { pose proof (ci_init _ _ _ Hi) as Hin. intros En. apply app_nil in En as [-> ->]. set_solver. }
    split.
    + by apply (core_inv_ext (with_ring (with_tasks s2 ts') tl)).
    + cbn [tasks zombie_list sti with_iflag with_ring with_tasks s2 with_zombies zchain]. split; [done |].
      by exists t2.
    + right. right. split; [set_solver |]. cbn [tasks current sti with_iflag with_ring with_tasks s2 with_zombies].
      exists t2. split; [exact Hc3 |]. cbn. rewrite Fn.
      by eapply ring_next_other; [apply Hi | done | done | done].
    + destruct Hr as (ti & Hti & Hri). destruct (Hsome INIT_TASK ti) as (u & Hu & Eu).
      { cbn [tasks s2 with_zombies with_tasks]. by rewrite lookup_insert_ne. }
      exists u. split; [done |]. rewrite Eu. done.
  - done.
  - exists t2. split_and!; [exact Hc3 | exact Fs | done].
Qed.

Lemma task_exit_ok s l zs (code : Z) :
  sched_inv s l zs -> current s ∉ zs ->
  exists e s', task_exit s code = Ret (e, s') /\ current s' = current s /\ iflag s' = true /\
    match e with
    | Returned _ => (current s = NULL \/ current s = INIT_TASK) /\ sched_inv s' l []
    | Halted => current s ∈ l /\ sched_inv s' (diff l [current s]) [current s] /\
        exists t, tasks s' !! current s = Some t /\ state t = TASK_ZOMBIE /\ exit_code t = code
    | Deadlocked => False
    end.
Proof.
  intros Hinv Hc. destruct (reap_ok s l zs Hinv Hc) as (s1 & E & Hi & Hs & Hcur & Hz & _).
  unfold task_exit. rewrite E. cbn [obind]. cbn [current cli with_iflag]. rewrite Hcur.
  destruct (decide (current s = NULL \/ current s = INIT_TASK)) as [Hn | Hn].
  { replace ((current s =? NULL) || (current s =? INIT_TASK)) with true by lia.
    exists (Returned 0), (sti (cli s1)). split_and!; try done. by apply (sched_inv_globals s1). }
  replace ((current s =? NULL) || (current s =? INIT_TASK)) with false by lia.
  assert (Hi' : sched_inv (cli s1) l []) by (by apply (sched_inv_globals s1)).
  assert (Hcl : current s1 ∈ l).
  { destruct (sv_cur _ _ _ Hi) as [Hx | [? | (Hx & _)]];
      [rewrite Hcur in Hx; tauto | done | by apply elem_of_nil in Hx]. }
  destruct (current_lookup _ _ _ Hi' ltac:(change (current s1 <> NULL); rewrite Hcur; tauto)) as [t Ht].
  destruct (zombify_current (cli s1) l t (fun k => with_state (with_exit_code k code) TASK_ZOMBIE))
    as (s2 & s3 & r & s4 & E1 & E2 & Ec2 & Ec3 & E3 & Hi4 & Ec4 & t' & Ht' & Hst & Hex); try done.
  { change (current s1 <> INIT_TASK). rewrite Hcur. tauto. }
  change (current (cli s1)) with (current s1) in *. rewrite Hcur in *.
  rewrite E1. cbn [obind]. rewrite Ec2, E2. cbn [obind]. rewrite Ec3, E3. cbn [obind].
  exists Halted, (sti s4). split_and!; try done. exists t'. done.
Qed.

(** [task_exit] returns only when called outside a task or from init (after cleaning
    up); otherwise the running task ends as a zombie with the given exit code, out of
    the ring and on the zombie list, and earlier zombies are gone. *)
Theorem task_exit_spec s l zs (code : Z) :
  sched_inv s l zs -> current s ∉ zs ->
  exists e s', task_exit s code = Ret (e, s') /\ current s' = current s /\ iflag s' = true /\
    match e with
    | Returned _ => (current s = NULL \/ current s = INIT_TASK) /\ sched_inv s' l []
    | Halted => current s ∈ l /\ sched_inv s' (diff l [current s]) [current s] /\
        exists t, tasks s' !! current s = Some t /\ state t = TASK_ZOMBIE /\ exit_code t = code
    | Deadlocked => False
    end.
Proof. apply task_exit_ok. Qed.

(** The search by process id. *)
Lemma find_pid_spec s (r : list Z) (fuel : nat) (h p : Z) :
  r <> [] -> chain (tasks s) r h -> h ∉ tail r -> (length r <= fuel)%nat -> NULL ∉ r ->
  exists a, find_pid fuel s (hd_or NULL r) h p = Ret a /\
    ((a = NULL /\ forall b t, b ∈ r -> tasks s !! b = Some t -> pid t <> p) \/
     (a ∈ r /\ exists t, tasks s !! a = Some t /\ pid t = p)).
Proof.
  revert fuel. induction r as [|a r IH]; intros [|fuel] Hne Hc Hh Hf Hnull; cbn [length] in Hf; try done; try lia.
  cbn [hd_or find_pid]. destruct Hc as [(t & Ht & Hn) Hc]. unfold tk. rewrite Ht. cbn [of_option obind].
  destruct (Z.eqb_spec (pid t) p) as [Ep | Ep].
  { exists a. split; [done |]. right. split; [set_solver |]. by exists t. }
  rewrite Hn. cbn [tail] in Hh. destruct r as [|b r]; cbn [hd_or].
  - rewrite Z.eqb_refl. exists NULL. split; [done |]. left. split; [done |].
    intros b u ->%list_elem_of_singleton Hu. congruence.
  - replace (b =? h) with false by (symmetry; apply Z.eqb_neq; set_solver).
    destruct (IH fuel ltac:(done) Hc ltac:(cbn [tail]; set_solver) ltac:(lia) ltac:(set_solver))
      as (x & E & Hx). exists x. split; [done |].
    destruct Hx as [[-> Hx] | [Hx Hp]].
    + left. split; [done |]. intros c u [-> | Hcin]%elem_of_cons Hu; [congruence | by eapply Hx].
    + right. split; [set_solver | done].
Qed.

(** Finding a process id in a well-formed ring. *)
Lemma find_pid_ring s l zs (p : Z) :
  core_inv s l zs ->
  exists tl a, tasks s !! task_ring s = Some tl /\ task_ring s <> NULL /\
    find_pid (fuel_of s) s (next tl) (next tl) p = Ret a /\
    ((a = NULL /\ forall b t, b ∈ l -> tasks s !! b = Some t -> pid t <> p) \/
     (a ∈ l /\ exists t, tasks s !! a = Some t /\ pid t = p)).
Proof.
  intros Hi. pose proof (ci_nodup _ _ _ Hi) as (Hnd & _)%NoDup_app.
  destruct (ring_ends _ _ _ (ci_ring _ _ _ Hi) Hnd (ci_tail _ _ _ Hi)) as (tl & Htl & Hn & Ht & _).
  assert (Htr : task_ring s ∈ l).
  { pose proof (ci_tail _ _ _ Hi) as Hl. apply last_Some in Hl as (k & ->). set_solver. }
  destruct (find_pid_spec s l (fuel_of s) (hd_or NULL l) p) as (a & E & Ha); try apply Hi; try done.
  - apply length_dom; [done |]. intros b Hb. apply (ci_dom _ _ _ Hi). set_solver.
  - by apply (core_inv_null_notin _ _ _ Hi).
  - exists tl, a. rewrite Hn. split_and!; try done. apply (core_inv_null _ _ _ _ Hi). set_solver.
Qed.

Lemma task_stop_ok s l zs (p : Z) :
  sched_inv s l zs -> current s ∉ zs -> p <> 0 ->
  exists e s', task_stop s p = Ret (e, s') /\ current s' = current s /\
    ((e = Returned (-1) /\ sched_inv s' l [] /\
        (forall a t, a ∈ l -> tasks s !! a = Some t -> pid t <> p)) \/
     (exists a t, a ∈ l /\ tasks s !! a = Some t /\ pid t = p /\
        ((e = Halted /\ a = current s /\ sched_inv s' (diff l [a]) [a]) \/
         (e = Returned 0 /\ a <> current s /\ sched_inv s' (diff l [a]) [] /\
            forall q, q ∈ resources a t -> ~ tm_live (tmem s') q)))).
Proof.
  intros Hinv Hc Hp. destruct (reap_ok s l zs Hinv Hc) as (s1 & E & Hi & Hs & Hcur & Hz & _).
  assert (Hi1 : sched_inv (cli s1) l []) by (by apply (sched_inv_globals s1)).
  destruct (find_pid_ring (cli s1) l [] p (sv_core _ _ _ Hi1)) as (tl & a & Htl & Htn & Ef & Ha).
  unfold task_stop. rewrite E. cbn [obind]. cbn [task_ring cli with_iflag] in *.
  replace (task_ring s1 =? NULL) with false by lia. unfold tk at 1. rewrite Htl. cbn [of_option obind].
  rewrite Ef. cbn [obind]. destruct Ha as [[-> Ha] | [Ha (t & Ht & Hpid)]].
  { exists (Returned (-1)), (sti (cli s1)). split_and!; try done. left. split_and!; try done.
    - by apply (sched_inv_globals s1).
    - intros b u Hb Hu. destruct (proj2 (ci_dom _ _ _ (sv_core _ _ _ Hi) b) ltac:(set_solver)) as [u' Hu'].
      destruct (runnable_survives s s1 u' b Hs Hu') as (u0 & Hu0 & _ & Hpu & _).
      assert (u0 = u) as -> by congruence. rewrite <- Hpu. by apply (Ha b u'). }
  assert (Hai : a <> INIT_TASK).
  { intros ->. destruct (ci_pid _ _ _ (sv_core _ _ _ Hi1) _ _ Ht) as [_ Hz0]. apply Hp. rewrite <- Hpid. by apply Hz0. }
  assert (Han : a <> NULL) by (apply (core_inv_null _ _ _ a (sv_core _ _ _ Hi1)); set_solver).
  replace (a =? NULL) with false by lia.
  destruct (runnable_survives s s1 t a Hs Ht) as (t0 & Ht0 & _ & Hpt & _).
  destruct (Hs a t Ht) as (t00 & Ht00 & Et). assert (t00 = t0) as -> by congruence.
  destruct (Z.eqb_spec a (current (cli s1))) as [Ea | Ea].
  - destruct (zombify_current (cli s1) l t (fun k => with_state k TASK_ZOMBIE))
      as (s2 & s3 & r & s4 & E1 & E2 & Ec2 & Ec3 & E3 & Hi4 & Ec4 & _); try done; try congruence.
    rewrite E1. cbn [obind]. rewrite Ec2, E2. cbn [obind]. rewrite Ec3, E3. cbn [obind].
    change (current (cli s1)) with (current s1) in *. rewrite Hcur in *.
    exists Halted, (sti s4). split_and!; try done. right. exists a, t0. split_and!; try done; [congruence |].
    left. split_and!; try done. by rewrite Ea.
  - apply list_elem_of_split in Ha as (l1 & l2 & ->).
    destruct (unlink_step (cli s1) l1 a l2 [] (sv_core _ _ _ Hi1) Hai) as (ts' & tl' & E1 & Hi2 & Hrel).
    rewrite E1. cbn [obind]. set (s2 := with_ring (with_tasks (cli s1) ts') tl') in *.
    assert (Hi3 : core_inv (sti s2) (l1 ++ l2) ([] ++ a :: [])) by (by apply (core_inv_ext s2)).
    destruct (free_step (sti s2) (l1 ++ l2) [] a [] Hi3 Hai) as (m & E2 & Hi4 & ta & Hta & Hlive).
    rewrite E2. cbn [obind]. cbn [app] in Hi4.
    pose proof (ci_nodup _ _ _ (sv_core _ _ _ Hi1)) as Hnd. rewrite app_nil_r in Hnd.
    eexists (Returned 0), _. split; [reflexivity |]. split; [exact Hcur |]. right. exists a, t0.
    split_and!; [set_solver | done | congruence |]. right. rewrite diff_middle by done. split_and!.
    + done.
    + by rewrite <- Hcur.
    + split; [exact Hi4 | cbn; exact Hz | |].
      * unfold cur_ok. cbn [current with_tasks with_tmem sti with_iflag s2 with_ring cli].
        destruct (sv_cur _ _ _ Hi) as [? | [Hin | (Hx & _)]]; [by left | | by apply elem_of_nil in Hx].
        right. left. apply elem_of_app in Hin as [Hin | [Hin | Hin]%elem_of_cons]; [set_solver | | set_solver].
        by destruct Ea.
      * destruct (sv_init _ _ _ Hi) as (u & Hu & Hru). destruct Hrel as (_ & _ & Hsome & _).
        destruct (Hsome INIT_TASK u Hu) as (u' & Hu' & Eu'). exists u'.
        cbn [tasks with_tasks with_tmem]. rewrite lookup_delete_ne by done. split; [done |]. by rewrite Eu'.
    + intros q Hq Hlq. apply Hlive in Hlq as [_ Hlq]. apply Hlq.
      destruct Hrel as (_ & Hsame & _). change (ts' !! a = Some ta) in Hta. rewrite Hsame in Hta.
      change (tasks s1 !! a = Some ta) in Hta. change (tasks s1 !! a = Some t) in Ht. assert (ta = t) as -> by congruence. rewrite Et.
      by rewrite (proj1 (same_owned_resources a t0 (with_next t0 (next t)) ltac:(done))).
Qed.


(** * Creation *)

(** A new task enters at the tail with memory nobody else has. *)
Lemma core_inv_enter s s' l zs (t : Z) (k : task) :
  core_inv s l zs -> tm_inv (tmem s') -> (forall q, tm_live (tmem s) q -> tm_live (tmem s') q) ->
  next_pid s' = next_pid s + 1 -> next_pid s' < 2 ^ 31 -> task_ring s' = t -> t <> INIT_TASK ->
  ring (tasks s') (l ++ [t]) -> tasks s !! t = None -> tasks s' !! t = Some k ->
  pid k = next_pid s -> own_distinct t k ->
  (forall q, q ∈ resources t k -> tm_live (tmem s') q) ->
  (forall a u, tasks s !! a = Some u -> a <> INIT_TASK -> resources a u ## resources t k) ->
  (forall a u, tasks s !! a = Some u -> exists u', tasks s' !! a = Some u' /\ u' = with_next u (next u')) ->
  (forall a, a <> t -> tasks s !! a = None -> tasks s' !! a = None) ->
  core_inv s' (l ++ [t]) zs.
Proof.
  intros Hi Hm Hmono Hnp Hnp2 Htr Hti Hr Hnone Hk Hpid Hown Hfresh Hsep Hsome Hnone'.
  assert (Htnot : t ∉ l ++ zs) by (rewrite <- (ci_dom _ _ _ Hi), Hnone; by intros [? ?]).
  assert (Hperm : (l ++ [t]) ++ zs ≡ₚ t :: l ++ zs).
  { rewrite <- app_assoc. cbn [app]. symmetry. apply Permutation_middle. }
  assert (Hb : forall a u', tasks s' !! a = Some u' -> a <> t ->
            exists u, tasks s !! a = Some u /\ u' = with_next u (next u')).
  { intros a u' Hu' Hne. destruct (tasks s !! a) as [u |] eqn:Eu; [| by rewrite (Hnone' a Hne Eu) in Hu'].
    destruct (Hsome a u Eu) as (u2 & Hu2 & E2). exists u. split; [done |]. congruence. }
  assert (Hres : forall a u u', u' = with_next u (next u') -> resources a u' = resources a u /\
            (own_distinct a u' <-> own_distinct a u) /\ pid u' = pid u).
  { intros a u u' ->. split; [done |]. done. }
  split.
  - done.
  - rewrite Hperm. apply NoDup_cons. split; [done | apply Hi].
  - done.
  - by rewrite last_snoc, Htr.
  - intros a. rewrite Hperm, elem_of_cons, <- (ci_dom _ _ _ Hi). destruct (decide (a = t)) as [-> | Hne].
    + rewrite Hk. split; [by left | done].
    + split.
      * intros [u' Hu']. right. destruct (Hb a u' Hu' Hne) as (u & Hu & _). by exists u.
      * intros [? | [u Hu]]; [done |]. destruct (Hsome a u Hu) as (u' & Hu' & _). by exists u'.
  - pose proof (ci_init _ _ _ Hi). set_solver.
  - intros a u' Hu' Hai. destruct (decide (a = t)) as [-> | Hne].
    + assert (u' = k) as -> by congruence. split; [done |]. apply Forall_forall. intros q Hq. by apply Hfresh.
    + destruct (Hb a u' Hu' Hne) as (u & Hu & Eu). destruct (Hres a u u' Eu) as (-> & -> & _).
      destruct (ci_res _ _ _ Hi a u Hu Hai) as [H1 H2]. split; [done |].
      rewrite Forall_forall in *. auto.
  - intros a b u' v' Hu' Hv' Hab Hai Hbi q Hqa Hqb.
    destruct (decide (a = t)) as [-> | Hat]; [| destruct (decide (b = t)) as [-> | Hbt]].
    + assert (u' = k) as -> by congruence. destruct (Hb b v' Hv' ltac:(done)) as (v & Hv & Ev).
      rewrite (proj1 (Hres b v v' Ev)) in Hqb. by apply (Hsep b v Hv Hbi q).
    + assert (v' = k) as -> by congruence. destruct (Hb a u' Hu' ltac:(done)) as (u & Hu & Eu).
      rewrite (proj1 (Hres a u u' Eu)) in Hqa. by apply (Hsep a u Hu Hai q).
    + destruct (Hb a u' Hu' Hat) as (u & Hu & Eu). destruct (Hb b v' Hv' Hbt) as (v & Hv & Ev).
      rewrite (proj1 (Hres a u u' Eu)) in Hqa. rewrite (proj1 (Hres b v v' Ev)) in Hqb.
      by apply (ci_sep _ _ _ Hi a b u v Hu Hv Hab Hai Hbi q).
  - intros a u' Hu'. pose proof (ci_next_pid _ _ _ Hi). destruct (decide (a = t)) as [-> | Hne].
    + assert (u' = k) as -> by congruence. rewrite Hpid. split; [lia |]. split; [lia | done].
    + destruct (Hb a u' Hu' Hne) as (u & Hu & Eu). destruct (Hres a u u' Eu) as (_ & _ & ->).
      destruct (ci_pid _ _ _ Hi a u Hu). split; [lia | done].
  - intros a b u' v' Hu' Hv' Hp.
    assert (Hlt : forall c w, tasks s !! c = Some w -> pid w <> next_pid s).
    { intros c w Hw. destruct (ci_pid _ _ _ Hi c w Hw). lia. }
    destruct (decide (a = t)) as [-> | Hat], (decide (b = t)) as [-> | Hbt]; [done | | |].
    + assert (u' = k) as -> by congruence. destruct (Hb b v' Hv' Hbt) as (v & Hv & Ev).
      destruct (Hres b v v' Ev) as (_ & _ & Epv). by destruct (Hlt b v Hv); congruence.
    + assert (v' = k) as -> by congruence. destruct (Hb a u' Hu' Hat) as (u & Hu & Eu).
      destruct (Hres a u u' Eu) as (_ & _ & Epu). by destruct (Hlt a u Hu); congruence.
    + destruct (Hb a u' Hu' Hat) as (u & Hu & Eu). destruct (Hb b v' Hv' Hbt) as (v & Hv & Ev).
      destruct (Hres a u u' Eu) as (_ & _ & Epu). destruct (Hres b v v' Ev) as (_ & _ & Epv).
      apply (ci_pid_inj _ _ _ Hi a b u v); congruence.
  - pose proof (ci_next_pid _ _ _ Hi). lia.
Qed.

Lemma wrap_small_i32 (z : Z) : 0 <= z < 2 ^ 31 -> i32 z = z.
Proof.
  intros Hz. unfold swrap. rewrite Z.mod_small by lia.
  destruct (Z.ltb_spec z (2 ^ (32 - 1))); [done | lia].
Qed.

(** A task that is not in the store enters the ring. *)
Lemma enter_ok s s1 l zs (t : Z) (k : task) :
  sched_inv s l zs -> tasks s1 = tasks s -> task_ring s1 = task_ring s ->
  next_pid s1 = next_pid s + 1 -> next_pid s1 < 2 ^ 31 ->
  tm_inv (tmem s1) -> (forall q, tm_live (tmem s) q -> tm_live (tmem s1) q) ->
  t <> INIT_TASK -> tasks s !! t = None -> pid k = next_pid s -> own_distinct t k ->
  (forall q, q ∈ resources t k -> tm_live (tmem s1) q) ->
  (forall a u, tasks s !! a = Some u -> a <> INIT_TASK -> resources a u ## resources t k) ->
  let s2 := cli (with_tasks s1 (<[t := k]> (tasks s1))) in
  exists ts' v, insert_tail s2 t = Ret (with_ring (with_tasks s2 ts') t) /\
    ts' !! t = Some (with_next k v) /\
    forall s', tasks s' = ts' -> task_ring s' = t -> current s' = current s -> zombie_list s' = zombie_list s ->
      next_pid s' = next_pid s1 -> tmem s' = tmem s1 -> sched_inv s' (l ++ [t]) zs.
Proof.
  intros [Hi Hz Hc Hr] Ets Etr Enp Hnp Hm Hlive Hti Htn Hpid Hown Hres Hsep s2.
  assert (Htl : t ∉ l ++ zs) by (rewrite <- (ci_dom _ _ _ Hi), Htn; by intros [? ?]).
  pose proof (ci_nodup _ _ _ Hi) as (Hndl & Hdis & _)%NoDup_app.
  pose proof (ci_tail _ _ _ Hi) as Hlast.
  assert (Htr : task_ring s ∈ l) by (apply last_Some in Hlast as (j & ->); set_solver).
  assert (Htrn : task_ring s <> NULL) by (apply (core_inv_null _ _ _ _ Hi); set_solver).
  assert (Hrc : ring (tasks s2) l).
  { unfold s2. cbn [tasks cli with_iflag with_tasks]. rewrite Ets.
    destruct (ci_ring _ _ _ Hi) as [Hne Hch]. split; [done |]. apply chain_insert_ne; [set_solver | done]. }
  assert (Hk2 : tasks s2 !! t = Some k) by apply lookup_insert_eq.
  assert (Hne2 : forall a, a <> t -> tasks s2 !! a = tasks s !! a).
  { intros a Ha. unfold s2. cbn [tasks cli with_iflag with_tasks]. by rewrite Ets, lookup_insert_ne. }
  destruct (insert_tail_spec s2 l t k Hrc Hndl ltac:(cbn; congruence) ltac:(cbn; congruence) ltac:(set_solver) Hk2)
    as (ts' & E5 & Hr5 & Hsome & Hnone & Hother).
  destruct (Hsome t k Hk2) as (k' & Hk' & Ek').
  assert (Hsome' : forall a u, tasks s !! a = Some u -> exists u', ts' !! a = Some u' /\ u' = with_next u (next u')).
  { intros a u Hu. apply Hsome. rewrite Hne2; [done |]. intros ->. congruence. }
  exists ts', (next k'). split; [done |]. split; [by rewrite Hk', Ek' |].
  intros s' E1 E2 E3 E4 E6 E7. split.
  - rewrite Ek' in Hk'. eapply (core_inv_enter s s' l zs t (with_next k (next k'))); rewrite ?E1, ?E2, ?E6, ?E7; try done.
    intros a Hat Ha. apply Hnone. by rewrite Hne2.
  - rewrite E1, E4. eapply zchain_ext; [| exact Hz]. intros a u Ha Hu.
    destruct (Hsome' a u Hu) as (u' & Hu' & Eu'). exists u'. split; [done |]. by rewrite Eu'.
  - unfold cur_ok. rewrite E1, E3.
    destruct Hc as [Hc | [Hc | (Hc & u & Hu & Hnu)]]; [by left | right; left; set_solver | right; right].
    split; [done |]. exists u. assert (current s <> t) by (intros E; rewrite E in Hu; congruence).
    rewrite Hother, Hne2; [| done | | done].
    + split; [done |]. set_solver.
    + intros Hin. by apply (Hdis _ Hin).
  - destruct Hr as (u & Hu & Hru). destruct (Hsome' _ u Hu) as (u' & Hu' & Eu'). exists u'.
    rewrite E1. split; [done |]. by rewrite Eu'.
Qed.

(** The three allocations of [task_create] give three fresh blocks. *)
Lemma strdup_ok s (nm : option Z) (np : Z) s' :
  tm_inv (tmem s) -> (forall n, nm = Some n -> 0 <= n < 2 ^ 61) -> strdup s nm = Ret (np, s') ->
  exists m, s' = with_tmem s m /\ tm_inv m /\
    ((np = NULL /\ forall q, tm_live m q <-> tm_live (tmem s) q) \/
     (4096 < np /\ ~ tm_live (tmem s) np /\ forall q, tm_live m q <-> q = np \/ tm_live (tmem s) q)).
Proof.
  intros Hi Hn E. unfold strdup in E. destruct nm as [n |].
  - inv_ret. destruct a as [p m]. injection E as <- <-.
    specialize (Hn n eq_refl). destruct (tm_malloc_fresh (tmem s) (n + 1) p m Hi ltac:(lia) E0) as (H1 & H2 & H3 & H4).
    exists m. split_and!; [done | done |]. right. done.
  - injection E as <- <-. exists (tmem s). split; [by destruct s |]. split; [done |]. by left.
Qed.

(** The words of the frame, read back. *)
Lemma initial_frame_word (m st : mem) (ks entry top utop argc argv sp : Z) (um : bool) (i : nat) (w : Z) :
  prepare_initial_stack m ks entry top utop argc argv um = Ret (sp, st) ->
  Forall (fits 64) (frame_words entry top utop argc argv um) ->
  frame_words entry top utop argc argv um !! i = Some w ->
  ld64 st (sp + 8 * Z.of_nat i) = w.
Proof.
  unfold prepare_initial_stack. cbv zeta. destruct (_ && _); [| done]. remember (store_words _ _ _) as q eqn:Eq.
  intros [= <- <-] Hf Hi. rewrite Eq. by apply store_words_nth.
Qed.

(** The frame is 176 bytes below the top of the stack, aligned down to 16: a stack of
    192 bytes holds it, one of less than 176 never does. *)
Lemma initial_frame_fits (m : mem) (ks sz entry utop argc argv : Z) (um : bool) :
  0 <= ks -> 192 <= sz -> ks + sz < 2 ^ 64 ->
  exists sp st, prepare_initial_stack m ks entry (add64 ks sz) utop argc argv um = Ret (sp, st) /\
    ks <= sp /\ sp + 22 * 8 <= ks + sz.
Proof.
  intros Hks Hsz Hend. unfold prepare_initial_stack, add64. rewrite wrap_small by (split; lia). cbv zeta.
  pose proof (stack_top_aligned (ks + sz) ltac:(lia)) as (_ & Hlo & Hhi). cbv zeta in Hlo, Hhi.
  set (sp := sub64 _ _) in *. clearbody sp. replace ((ks <=? sp) && _) with true by lia.
  eexists _, _. split; [reflexivity | lia].
Qed.

Lemma initial_frame_overflows (m : mem) (ks sz entry utop argc argv : Z) (um : bool) :
  192 <= ks -> 0 < sz < 176 -> ks + sz < 2 ^ 64 ->
  prepare_initial_stack m ks entry (add64 ks sz) utop argc argv um = Crash.
Proof.
  intros Hks Hsz Hend. unfold prepare_initial_stack, add64. rewrite wrap_small by (split; lia). cbv zeta.
  pose proof (stack_top_aligned (ks + sz) ltac:(lia)) as (_ & Hlo & Hhi). cbv zeta in Hlo, Hhi.
  set (sp := sub64 _ _) in *. clearbody sp. by replace ((ks <=? sp) && _) with false by lia.
Qed.

(** The stack sizes a caller may ask for: 0 for the default, or room for the frame. *)
Definition stack_size_ok (ssz : Z) : Prop := ssz = 0 \/ 192 <= ssz < 2 ^ 61.

(** The length of a task's name. *)
Definition name_ok (nm : option Z) : Prop := forall n, nm = Some n -> 0 <= n < 2 ^ 61.

(** The allocator, called in a good state, fails. *)
Definition malloc_panics : Prop := exists (m : M) n, tm_inv m /\ 0 < n < 2 ^ 62 /\ tm_malloc m n = Panic.
Definition malloc_crashes : Prop := exists (m : M) n, tm_inv m /\ 0 < n < 2 ^ 62 /\ tm_malloc m n = Crash.

Lemma strdup_fails s (nm : option Z) :
  tm_inv (tmem s) -> name_ok nm ->
  (strdup s nm = Panic -> malloc_panics) /\ (strdup s nm = Crash -> malloc_crashes).
Proof.
  intros Hi Hn. unfold strdup. destruct nm as [n |]; [| done]. specialize (Hn n eq_refl).
  destruct (tm_malloc (tmem s) (n + 1)) as [[? ?] | |] eqn:E; cbn; [done | |]; split; try done; intros _;
    exists (tmem s), (n + 1); (split_and!; [done | lia | lia | done]).
Qed.

(** The blocks of a task made by three allocations in a row are its own; a user task
    also takes over the block [um]. *)
Lemma fresh_task (m0 m1 m2 m3 : M) (t ks np um : Z) (k : task) :
  4096 < t -> 4096 < ks -> ~ tm_live m0 t -> ~ tm_live m1 ks ->
  (forall q, tm_live m1 q <-> q = t \/ tm_live m0 q) -> (forall q, tm_live m2 q <-> q = ks \/ tm_live m1 q) ->
  ((np = NULL /\ forall q, tm_live m3 q <-> tm_live m2 q) \/
   (4096 < np /\ ~ tm_live m2 np /\ forall q, tm_live m3 q <-> q = np \/ tm_live m2 q)) ->
  um = NULL \/ tm_live m0 um -> kstack k = ks -> user_mem k = um -> name k = np ->
  own_distinct t k /\ (forall q, q ∈ resources t k -> tm_live m3 q) /\
  (forall q, q ∈ resources t k -> q = um \/ ~ tm_live m0 q) /\ (forall q, tm_live m0 q -> tm_live m3 q).
Proof.
  intros P1 P2 F1 F2 L1 L2 L3 Hum Ek Eu En.
  assert (Hnp : np = NULL \/ ~ tm_live m2 np) by tauto.
  assert (Hm3 : forall q, tm_live m2 q -> tm_live m3 q) by (intros q Hq; destruct L3 as [[_ L3] | (_ & _ & L3)]; apply L3; auto).
  assert (Ht2 : tm_live m2 t) by (apply L2; right; apply L1; by left).
  assert (Hk2 : tm_live m2 ks) by (apply L2; by left).
  assert (H02 : forall q, tm_live m0 q -> tm_live m2 q) by (intros q Hq; apply L2; right; apply L1; by right).
  assert (ks <> t) by (intros ->; apply F2, L1; by left).
  assert (Hks : ks <> um).
  { intros ->. destruct Hum as [-> | Hum]; [unfold NULL in *; lia |]. apply F2, L1. by right. }
  split; [| split_and!].
  - unfold own_distinct. rewrite Ek, Eu, En. split_and!.
    + intros _. split_and!; [done | | done]. destruct Hnp as [-> | Hnp]; [unfold NULL; lia |]. by intros <-.
    + intros Hn. destruct Hum as [-> | Hum]; [done |]. split; [| by intros ->].
      intros ->. destruct Hnp as [-> | Hnp]; [done |]. auto.
    + intros Hn ->. tauto.
  - intros q Hq. apply elem_of_resources in Hq. rewrite Ek, Eu, En in Hq.
    destruct Hq as [-> | (Hqn & [-> | [-> | ->]])]; [auto | auto | destruct Hum as [-> | Hum]; [done | auto] |].
    destruct L3 as [[-> _] | (_ & _ & L3)]; [done | apply L3; by left].
  - intros q Hq. apply elem_of_resources in Hq. rewrite Ek, Eu, En in Hq.
    destruct Hq as [-> | (Hqn & [-> | [-> | ->]])]; [by right | right | by left | right].
    + intros Hq. apply F2, L1. by right.
    + intros Hq. destruct Hnp as [-> | Hnp]; [done |]. auto.
  - auto.
Qed.

Lemma owned_live s l zs : core_inv s l zs ->
  forall a u q, tasks s !! a = Some u -> a <> INIT_TASK -> q ∈ resources a u -> tm_live (tmem s) q.
Proof.
  intros Hi a u q Hu Ha Hq. destruct (ci_res _ _ _ Hi a u Hu Ha) as [_ Hl]. rewrite Forall_forall in Hl. by apply Hl.
Qed.

Lemma fresh_addr s l zs (t : Z) :
  core_inv s l zs -> 4096 < t -> ~ tm_live (tmem s) t -> tasks s !! t = None.
Proof.
  intros Hi P1 F1. destruct (tasks s !! t) as [u |] eqn:Eu; [| done]. exfalso. apply F1.
  apply (owned_live s l zs Hi t u t Eu); [unfold INIT_TASK; lia |]. apply elem_of_resources. by left.
Qed.

Lemma default_stack_size (ssz : Z) :
  stack_size_ok ssz -> 192 <= (if ssz =? 0 then KSTACK_SIZE else ssz) < 2 ^ 61.
Proof. intros Hs. unfold KSTACK_SIZE. destruct (Z.eqb_spec ssz 0), Hs; lia. Qed.

Lemma task_create_ok s l zs (entry ssz : Z) (nm : option Z) :
  sched_inv s l zs -> create_lock s = false -> entry <> NULL -> fits 64 entry -> stack_size_ok ssz ->
  name_ok nm -> next_pid s + 1 < 2 ^ 31 ->
  match task_create s entry ssz nm with
  | Ret (Returned _, s') => exists t k,
      sched_inv s' (l ++ [t]) zs /\ tasks s !! t = None /\ tasks s' !! t = Some k /\
      pid k = next_pid s /\ state k = TASK_READY /\
      kstack k <= regs k /\ regs k + 22 * 8 <= kstack k + kstack_size k /\
      ld64 (stacks s') (regs k + 8 * 17) = entry /\
      current s' = current s /\ create_lock s' = false /\ iflag s' = true
  | Ret (_, _) => False
  | Panic => malloc_panics
  | Crash => malloc_crashes
  end.
Proof.
  intros Hinv Hlock He Hef Hssz Hnm Hpid. pose proof (sv_core _ _ _ Hinv) as Hi.
  pose proof (ci_next_pid _ _ _ Hi) as Hnp. unfold task_create.
  replace (entry =? NULL) with false by lia. rewrite Hlock.
  set (sz := if ssz =? 0 then KSTACK_SIZE else ssz).
  assert (Hsz : 192 <= sz < 2 ^ 61) by (by apply default_stack_size).
  clearbody sz. cbn [tmem with_locks].
  assert (HS : 0 < SIZEOF_TASK < 2 ^ 62) by (unfold SIZEOF_TASK; lia).
  destruct (tm_malloc (tmem s) SIZEOF_TASK) as [[t m1] | |] eqn:E1; cbn [obind];
    [| by exists (tmem s), SIZEOF_TASK; (split_and!; [apply Hi | lia | lia | ]) ..].
  destruct (tm_malloc_fresh (tmem s) SIZEOF_TASK t m1 (ci_mem _ _ _ Hi) ltac:(unfold SIZEOF_TASK; lia) E1) as (M1 & P1 & F1 & L1).
  replace (t =? NULL) with false by (unfold NULL; lia).
  destruct (tm_malloc m1 sz) as [[ks m2] | |] eqn:E2; cbn [obind];
    [| by exists m1, sz; (split_and!; [done | lia | lia | ]) ..].
  destruct (tm_malloc_fresh m1 sz ks m2 M1 ltac:(lia) E2) as (M2 & P2 & F2 & L2).
  replace (ks =? NULL) with false by (unfold NULL; lia). cbn [next_pid with_tmem with_locks].
  set (sa := with_next_pid _ _).
  destruct (strdup sa nm) as [[np sb] | |] eqn:E3; cbn [obind].
  2, 3: by apply strdup_fails in E3.
  pose proof (tm_malloc_end m1 sz ks m2 M1 ltac:(lia) E2) as Hend.
  destruct (strdup_ok sa nm np sb M2 Hnm E3) as (m3 & -> & M3 & L3).
  change (tmem sa) with m2 in L3.
  destruct (initial_frame_fits (stacks sa) ks sz entry (add64 ks sz) 0 0 false ltac:(lia) ltac:(lia) Hend)
    as (sp & st & Ep & Hlo & Hhi).
  cbn [stacks with_tmem]. rewrite Ep. cbn [obind].
  set (k := mk_task _ TASK_READY sp ks sz 0 NULL 0 0 0 np 0 0 0 0).
  set (sc := with_stacks _ st).
  destruct (fresh_task (tmem s) m1 m2 m3 t ks np NULL k) as (Hown & Hlive & Hfresh & Hmono); try done; [by left |].
  pose proof (owned_live s l zs Hi) as Hnone. pose proof (fresh_addr s l zs t Hi P1 F1) as Htn.
  assert (Hwrap : i32 (next_pid s + 1) = next_pid s + 1) by (apply wrap_small_i32; lia).
  destruct (enter_ok s sc l zs t k Hinv) as (ts' & v & E5 & Hk' & Hinv'); try done.
  { cbn. lia. }
  { unfold INIT_TASK. lia. }
  { intros a u Hu Ha q Hq Hq'. pose proof (Hnone a u q Hu Ha Hq) as Hlq.
    destruct (Hfresh q Hq') as [-> | ?]; [| done]. apply tm_live_pos in Hlq; [unfold NULL in Hlq; lia | apply Hi]. }
  rewrite E5. cbn [obind]. exists t, (with_next k v). split; [by apply Hinv' |]. split_and!; try done.
  apply (initial_frame_word _ _ _ _ _ _ _ _ _ _ 17%nat entry Ep); [| done].
  apply frame_words_fit; [done | by apply wrap_fits | by apply wrap_fits | done].
Qed.

(** C11: [task_create] with a stack of the default size or of at least 192 bytes adds one
    READY task with the next process id at the tail of the ring, its initial frame inside
    its stack and starting at [entry], and releases its lock; the running task stays, and
    the invariant holds.  It fails only where the allocator itself fails. *)
Theorem task_create_spec s l zs (entry ssz : Z) (nm : option Z) :
  sched_inv s l zs -> create_lock s = false -> entry <> NULL -> fits 64 entry -> stack_size_ok ssz ->
  name_ok nm -> next_pid s + 1 < 2 ^ 31 ->
  match task_create s entry ssz nm with
  | Ret (Returned _, s') => exists t k,
      sched_inv s' (l ++ [t]) zs /\ tasks s !! t = None /\ tasks s' !! t = Some k /\
      pid k = next_pid s /\ state k = TASK_READY /\
      kstack k <= regs k /\ regs k + 22 * 8 <= kstack k + kstack_size k /\
      ld64 (stacks s') (regs k + 8 * 17) = entry /\
      current s' = current s /\ create_lock s' = false /\ iflag s' = true
  | Ret (_, _) => False
  | Panic => malloc_panics
  | Crash => malloc_crashes
  end.
Proof. apply task_create_ok. Qed.

(** A stack of 1 to 175 bytes is accepted, but the initial frame is written below it:
    the call never returns without having left the block. *)
Theorem task_create_small_stack s l zs (entry ssz : Z) (nm : option Z) e s' :
  sched_inv s l zs -> create_lock s = false -> name_ok nm -> 0 < ssz < 176 ->
  task_create s entry ssz nm <> Ret (e, s').
Proof.
  intros Hinv Hlock Hnm Hssz E. pose proof (ci_mem _ _ _ (sv_core _ _ _ Hinv)) as Hm.
  unfold task_create in E. destruct (entry =? NULL); [done |]. rewrite Hlock in E.
  replace (ssz =? 0) with false in E by lia. cbn [tmem with_locks] in E.
  apply obind_ret in E as ([t m1] & E1 & E).
  destruct (tm_malloc_fresh _ SIZEOF_TASK t m1 Hm ltac:(unfold SIZEOF_TASK; lia) E1) as (M1 & _).
  destruct (t =? NULL); [done |]. apply obind_ret in E as ([ks m2] & E2 & E).
  destruct (tm_malloc_fresh m1 ssz ks m2 M1 ltac:(lia) E2) as (M2 & P2 & _).
  pose proof (tm_malloc_end m1 ssz ks m2 M1 ltac:(lia) E2) as Hend.
  destruct (ks =? NULL); [done |]. cbv zeta in E. apply obind_ret in E as ([np sb] & E3 & E).
  rewrite initial_frame_overflows in E by lia. done.
Qed.
End spec.
