(* ===== verification/SchedMem.v ===== *)
(** The memory manager of the running kernel, the heap of Heap.v over the page tables
    of Paging.v, is a memory manager for the scheduler: the laws of [TaskMem] follow
    from the specifications of [malloc] and [free] and from what the address-space
    operations of src/kernel/paging.c do to the frame allocator. *)

From S2P Require Import Prelude LibMem Tss Sched Pmm PmmSpec PageAlloc Paging PagingSpec Heap HeapRep HeapSpec.

(** * A heap has one representation *)

Lemma tile_dlseg_unique (m : mem) (p q n n' a e : Z) (bs bs' : list blk) :
  dlseg m p bs n -> dlseg m q bs' n' -> tile a bs e -> tile a bs' e -> bs = bs'.
Proof.
  revert p q a bs'. induction bs as [|b bs IH]; intros p q a [|b' bs'] Hd Hd' Ht Ht'; [done | | |].
  - destruct Ht' as (Ha & Hs & Ht'). cbn in Ht. apply tile_le in Ht'. unfold HDR in *. lia.
  - destruct Ht as (Ha & Hs & Ht). cbn in Ht'. apply tile_le in Ht. unfold HDR in *. lia.
  - destruct Hd as [Hh Hd], Hd' as [Hh' Hd'], Ht as (Ha & _ & Ht), Ht' as (Ha' & _ & Ht').
    rewrite Ha in Hh. rewrite Ha' in Hh'. rewrite Hh in Hh'.
    assert (b = b') as <-.
    { destruct b as [x s f], b' as [x' s' f']. cbn [b_addr b_size b_free] in *.
      injection Hh' as Es Ef _ _. subst x x' s'. f_equal. by destruct f, f'. }
    f_equal. by eapply IH.
Qed.

Lemma heap_rep_unique {S} `{KernelVm S} (hp : heap S) (bs bs' : list blk) :
  heap_rep hp bs -> heap_rep hp bs' -> bs = bs'.
Proof. intros H1 H2. eapply tile_dlseg_unique; [apply H1 | apply H2 | apply H1 | apply H2]. Qed.

(** * The start of the heap never moves *)

Section start.
Context {S : Type} `{KernelVm S}.
Implicit Types (hp : heap S).

Lemma split_block_start hp (h n : Z) : heap_start_virt (split_block hp h n) = heap_start_virt hp.
Proof.
  unfold split_block. destruct (h =? NULL); [done |]. destruct (_ <? _); [done |]. cbv zeta.
  by destruct (heap_tail _ =? h).
Qed.

Lemma coalesce_start hp (h : Z) : heap_start_virt (coalesce hp h) = heap_start_virt hp.
Proof.
  unfold coalesce, coalesce_prev. destruct (h =? NULL); [done |]. cbv zeta.
  assert (E : heap_start_virt (coalesce_next hp h) = heap_start_virt hp)
    by (unfold coalesce_next; cbv zeta; destruct (_ && _); [| done]; by destruct (heap_tail _ =? _)).
  rewrite <- E. destruct (_ && _); [| done]. by destruct (heap_tail _ =? _).
Qed.

Lemma heap_expand_start hp hp' (n : Z) (ok : bool) :
  heap_expand hp n = Ret (ok, hp') -> heap_start_virt hp' = heap_start_virt hp.
Proof.
  unfold heap_expand. intros E. destruct (_ <? _); [by simplify_eq |].
  destruct (pa_alloc_range _ _) as [[phys |] vm']; [| by simplify_eq].
  inv_ret. by simplify_eq.
Qed.

Lemma malloc_retry_start (left : nat) hp hp' (fit fit' sz : Z) :
  malloc_retry left hp fit sz = Ret (fit', hp') -> heap_start_virt hp' = heap_start_virt hp.
Proof.
  revert hp fit. induction left as [|left IH]; intros hp fit E; cbn [malloc_retry] in E;
    destruct (negb (fit =? NULL)); try by simplify_eq.
  inv_ret. destruct a as [ok hp1]. destruct ok; cbn [negb] in E; [| done]. inv_ret.
  rewrite (IH _ _ E). by eapply heap_expand_start.
Qed.

Lemma malloc_start hp hp' (sz p : Z) :
  malloc hp sz = Ret (p, hp') -> heap_start_virt hp' = heap_start_virt hp.
Proof.
  unfold malloc. intros E. destruct (sz =? 0); [by simplify_eq |]. inv_ret. inv_ret.
  destruct a0 as [fit hp1]. simplify_eq. cbn [heap_start_virt with_mem]. rewrite split_block_start.
  by eapply malloc_retry_start.
Qed.

Lemma free_start hp hp' (p : Z) : free hp p = Ret hp' -> heap_start_virt hp' = heap_start_virt hp.
Proof.
  unfold free. intros E. repeat case_match; simplify_eq; try done. by rewrite coalesce_start.
Qed.
End start.

(** * Address spaces and the frame allocator *)

Abbreviation frames_ok s := (pmm_inv_4g (frames s)).

Lemma free_frame_ok (s : machine) (a : Z) : frames_ok s -> frames_ok (free_frame s a).
Proof.
  intros (Hi & Hb & Ht & Hm). unfold free_frame, pmm_free_page. cbn [frames with_frames].
  destruct (a =? 0); [done |]. destruct (_ <? _); [done |].
  set (i := u32 ((page_align_down a - base_addr (frames s)) / PAGE_SIZE)).
  destruct (Z.leb_spec (total_pages (frames s)) i) as [|Hlt]; [done |].
  destruct (page_used (frames s) i) eqn:Hu; [| done]. split; [| done].
  apply clear_used_page; [done | | done]. split; [apply wrap_fits; lia | done].
Qed.

Lemma for_range_ok {A} (P : A -> Prop) (n : nat) (body : Z -> A -> A) (i : Z) (x : A) :
  (forall j y, P y -> P (body j y)) -> P x -> P (for_from i n body x).
Proof. intros Hb. revert i x. induction n as [|n IH]; intros i x Hx; [done |]. cbn. auto. Qed.

Lemma destroy_pt_ok (s : machine) (t : Z) : frames_ok s -> frames_ok (destroy_pt s t).
Proof.
  intros Hi. apply free_frame_ok. apply (for_range_ok (fun s => frames_ok s)); [| done].
  intros j y Hy. destruct (present _); [by apply free_frame_ok | done].
Qed.

Lemma destroy_pd_ok (s : machine) (t : Z) : frames_ok s -> frames_ok (destroy_pd s t).
Proof.
  intros Hi. apply free_frame_ok. apply (for_range_ok (fun s => frames_ok s)); [| done].
  intros j y Hy. cbv zeta. destruct (_ && negb _); [by apply destroy_pt_ok |].
  destruct (_ && _); [by apply free_frame_ok | done].
Qed.

Lemma destroy_pdpt_ok (s : machine) (t : Z) : frames_ok s -> frames_ok (destroy_pdpt s t).
Proof.
  intros Hi. apply free_frame_ok. apply (for_range_ok (fun s => frames_ok s)); [| done].
  intros j y Hy. cbv zeta. destruct (present _); [by apply destroy_pd_ok | done].
Qed.

Lemma destroy_user_ok (s : machine) (t : Z) : frames_ok s -> frames_ok (paging_destroy_user_task s t).
Proof.
  intros Hi. unfold paging_destroy_user_task. destruct (t =? 0); [done |].
  apply free_frame_ok. apply (for_range_ok (fun s => frames_ok s)); [| done].
  intros j y Hy. cbv zeta. destruct (present _); [by apply destroy_pdpt_ok | done].
Qed.

Lemma map_page_ok (s s' : machine) (pml4 va pa flags r : Z) :
  frames_ok s -> paging_map_page s pml4 va pa flags = Ret (r, s') -> frames_ok s'.
Proof.
  intros Hi E. unfold paging_map_page in E. destruct (pml4 =? 0); [by simplify_eq |].
  inv_ret. destruct a as [t1 s2]. destruct (next_level_frames _ _ _ _ _ _ _ Hi E0) as (Hi2 & _ & _).
  destruct (t1 =? 0); [by simplify_eq |]. inv_ret. destruct a as [t2 s3].
  destruct (next_level_frames _ _ _ _ _ _ _ Hi2 E1) as (Hi3 & _ & _).
  destruct (t2 =? 0); [by simplify_eq |]. inv_ret. destruct a as [t3 s4].
  destruct (next_level_frames _ _ _ _ _ _ _ Hi3 E2) as (Hi4 & _ & _).
  by destruct (t3 =? 0); simplify_eq.
Qed.

Lemma map_loop_ok (fuel : nat) (s s' : machine) (pml4 va pa fin flags r : Z) :
  frames_ok s -> map_loop fuel s pml4 va pa fin flags = Ret (r, s') -> frames_ok s'.
Proof.
  revert s va pa. induction fuel as [|fuel IH]; intros s va pa Hi E; cbn [map_loop] in E;
    (destruct (negb (va <? fin)); [by simplify_eq |]); [done |].
  inv_ret. destruct a as [r1 s1]. pose proof (map_page_ok _ _ _ _ _ _ _ Hi E0) as Hi1.
  destruct (negb (r1 =? 0)); [by simplify_eq |]. by eapply IH.
Qed.

Lemma create_user_ok (s s' : machine) (um sz r : Z) :
  frames_ok s -> paging_create_user_task s um sz = Ret (r, s') -> frames_ok s'.
Proof.
  intros Hi E. unfold paging_create_user_task in E. destruct (kernel_pml4 s =? 0); [by simplify_eq |].
  pose proof (alloc_frame_cases s Hi) as Ha. destruct (alloc_frame s) as [n s1].
  destruct Ha as (_ & Hi1 & _). destruct (n =? 0); [by simplify_eq |].
  destruct (_ && _); [| by simplify_eq]. inv_ret. destruct a as [r1 s2].
  assert (Hi2 : frames_ok s2).
  { unfold paging_map_range in E0. destruct (_ || _); [by simplify_eq |]. by eapply map_loop_ok; [| exact E0]. }
  destruct (negb (r1 =? 0)); simplify_eq; [by apply destroy_user_ok | done].
Qed.

(** * The instance *)

Abbreviation kheap := (heap machine).

Definition kernel_inv (hp : kheap) : Prop :=
  (exists bs, heap_rep hp bs) /\ pa_inv (vm hp) /\ 4096 < heap_start_virt hp.

Definition kernel_live (hp : kheap) (p : Z) : Prop :=
  exists bs b, heap_rep hp bs /\ b ∈ used bs /\ p = b_addr b + HDR.

Definition with_vm (hp : kheap) (v : machine) : kheap :=
  mk_heap (hmem hp) (heap_head hp) (heap_tail hp) (heap_start_virt hp) (heap_end_virt hp)
    (heap_current_size hp) v.

Lemma heap_rep_vm (hp : kheap) (v : machine) (bs : list blk) :
  heap_rep (with_vm hp v) bs <-> heap_rep hp bs.
Proof. split; intros []; split; done. Qed.

Lemma kernel_inv_vm (hp : kheap) (v : machine) :
  kernel_inv hp -> pa_inv v ->
  kernel_inv (with_vm hp v) /\ forall q, kernel_live (with_vm hp v) q <-> kernel_live hp q.
Proof.
  intros ([bs Hr] & _ & Hs) Hv. split.
  - split; [exists bs; by apply heap_rep_vm |]. done.
  - intros q. unfold kernel_live. by setoid_rewrite heap_rep_vm.
Qed.

Lemma kernel_live_eq (hp : kheap) (bs : list blk) (p : Z) :
  heap_rep hp bs -> kernel_live hp p <-> exists b, b ∈ used bs /\ p = b_addr b + HDR.
Proof.
  intros Hr. split.
  - intros (bs' & b & Hr' & Hb & ->). rewrite (heap_rep_unique _ _ _ Hr Hr'). by exists b.
  - intros (b & Hb & ->). by exists bs, b.
Qed.

Lemma used_addr_inj (hp : kheap) (bs : list blk) (b c : blk) :
  heap_rep hp bs -> b ∈ used bs -> c ∈ used bs -> b_addr b = b_addr c -> b = c.
Proof.
  intros Hr [_ Hb]%elem_of_used [_ Hc]%elem_of_used E.
  by apply (tile_addr_inj _ _ _ _ _ (hr_tile _ _ Hr) Hb Hc E).
Qed.

Definition kernel_create_user (hp : kheap) (a n : Z) : outcome (Z * kheap) :=
  (do '(r, v) <- paging_create_user_task (vm hp) a n; Ret (r, with_vm hp v))%out.

Definition kernel_destroy_user (hp : kheap) (r : Z) : kheap :=
  with_vm hp (paging_destroy_user_task (vm hp) r).

Lemma kernel_malloc_fresh (hp : kheap) (n p : Z) (hp' : kheap) :
  kernel_inv hp -> 0 < n < 2 ^ 62 -> malloc hp n = Ret (p, hp') ->
  kernel_inv hp' /\ 4096 < p /\ ~ kernel_live hp p /\
  forall q, kernel_live hp' q <-> q = p \/ kernel_live hp q.
Proof.
  intros ([bs Hr] & Hpa & Hs) Hn E.
  destruct (malloc_cases hp bs n Hr Hpa ltac:(lia)) as [(hp2 & l1 & c & l2 & E2 & Har & Hpa2 & _) | [_ [[E2 _] | [E2 _]]]];
    [| congruence..].
  rewrite E in E2. injection E2 as -> <-.
  pose proof (malloc_start _ _ _ _ E) as Hst. pose proof (ar_rep _ _ _ _ _ _ _ _ Har) as Hr2.
  pose proof (served_used _ _ _ _ _ (align_up n) (ar_from _ _ _ _ _ _ _ _ Har) (ar_free _ _ _ _ _ _ _ _ Har)) as Hu.
  set (bs2 := l1 ++ a_take c (align_up n) ++ l2) in *.
  assert (Ht : taken c (align_up n) ∈ used bs2) by (rewrite Hu; by apply elem_of_cons; left).
  assert (Hta : b_addr (taken c (align_up n)) = b_addr c) by done.
  split; [split; [by exists bs2 |]; split; [done | lia] |]. split; [| split].
  - pose proof Ht as [_ Hin]%elem_of_used. pose proof (tile_elem _ _ _ _ (hr_tile _ _ Hr2) Hin).
    rewrite Hta in *. unfold HDR. lia.
  - rewrite (kernel_live_eq hp bs) by done. intros (b & Hb & Eb).
    assert (Hb2 : b ∈ used bs2) by (rewrite Hu; by apply elem_of_cons; right).
    assert (b = taken c (align_up n)) as -> by (apply (used_addr_inj hp' bs2); [done.. | lia]).
    pose proof (used_NoDup _ _ Hr2) as Hnd. rewrite Hu in Hnd. by apply NoDup_cons in Hnd as [? _].
  - intros q. rewrite (kernel_live_eq hp' bs2), (kernel_live_eq hp bs) by done. split.
    + intros (b & Hb & ->). rewrite Hu in Hb. apply elem_of_cons in Hb as [-> | Hb].
      * left. by rewrite Hta.
      * right. by exists b.
    + intros [-> | (b & Hb & ->)].
      * exists (taken c (align_up n)). by rewrite Hta.
      * exists b. split; [| done]. rewrite Hu. by apply elem_of_cons; right.
Qed.

Lemma kernel_malloc_end (hp : kheap) (n p : Z) (hp' : kheap) :
  kernel_inv hp -> 0 < n < 2 ^ 62 -> malloc hp n = Ret (p, hp') -> p + n < 2 ^ 64.
Proof.
  intros ([bs Hr] & Hpa & Hs) Hn E.
  destruct (malloc_cases hp bs n Hr Hpa ltac:(lia)) as [(hp2 & l1 & c & l2 & E2 & Har & _) | [_ [[E2 _] | [E2 _]]]];
    [| congruence..].
  rewrite E in E2. injection E2 as -> <-. pose proof (align_up_bounds n ltac:(lia)) as [Ha _].
  assert (Hin : taken c (align_up n) ∈ l1 ++ a_take c (align_up n) ++ l2)
    by (unfold a_take; rewrite !elem_of_app, elem_of_cons; tauto).
  destruct (heap_rep_elem _ _ _ (ar_rep _ _ _ _ _ _ _ _ Har) Hin) as (_ & _ & _ & Hend).
  pose proof (ar_fit _ _ _ _ _ _ _ _ Har) as Hfit. unfold b_end, taken in Hend. cbn [b_addr b_size] in Hend.
  destruct (_ <? _); lia.
Qed.

Lemma kernel_free_live (hp : kheap) (p : Z) :
  kernel_inv hp -> kernel_live hp p ->
  exists hp', free hp p = Ret hp' /\ kernel_inv hp' /\ forall q, kernel_live hp' q <-> kernel_live hp q /\ q <> p.
Proof.
  intros (_ & Hpa & Hs) (bs & b & Hr & Hb & ->). pose proof Hb as [Hf Hin]%elem_of_used.
  apply list_elem_of_split in Hin as (l1 & l2 & ->).
  destruct (free_rep hp l1 b l2 Hr Hf) as (hp' & E & Hr' & _ & Hv & _).
  assert (Hu : used (l1 ++ b :: l2) ≡ₚ b :: used (a_coalesce l1 (with_flag b true) l2)).
  { rewrite (used_coalesce l1 (with_flag b true) l2) by done. rewrite used_app, used_cons, Hf.
    by rewrite <- Permutation_middle. }
  pose proof (used_NoDup _ _ Hr) as Hnd. rewrite Hu in Hnd. apply NoDup_cons in Hnd as [Hnb _].
  exists hp'. split; [done |]. split.
  - split; [by eexists |]. rewrite Hv. split; [done |]. by rewrite (free_start _ _ _ E).
  - intros q. rewrite (kernel_live_eq hp' _ q Hr'), (kernel_live_eq hp _ q Hr). split.
    + intros (c & Hc & ->). split.
      * exists c. split; [| done]. rewrite Hu. by apply elem_of_cons; right.
      * intros Ec. apply Hnb. assert (c = b) as <-; [| done].
        apply (used_addr_inj hp (l1 ++ b :: l2)); [done | | done | lia]. rewrite Hu. by apply elem_of_cons; right.
    + intros [(c & Hc & ->) Hne]. rewrite Hu in Hc. apply elem_of_cons in Hc as [-> | Hc]; [done |]. by exists c.
Qed.

#[export, refine] Instance kernel_task_mem : TaskMem kheap := {
  tm_inv := kernel_inv;
  tm_live := kernel_live;
  tm_malloc := malloc;
  tm_free := free;
  tm_create_user := kernel_create_user;
  tm_destroy_user := kernel_destroy_user;
  tm_malloc_fresh := kernel_malloc_fresh;
  tm_malloc_end := kernel_malloc_end;
  tm_free_live := kernel_free_live
}.
Proof.
  - intros hp a n r hp' Hi E. unfold kernel_create_user in E. inv_ret. destruct a0 as [r1 v].
    simplify_eq. apply kernel_inv_vm; [done |]. destruct Hi as (_ & Hpa & _). exact (create_user_ok _ _ _ _ _ Hpa E0).
  - intros hp r Hi. apply kernel_inv_vm; [done |]. destruct Hi as (_ & Hpa & _). exact (destroy_user_ok _ _ Hpa).
  - intros hp p (_ & _ & Hs) (bs & b & Hr & [_ Hb]%elem_of_used & ->).
    pose proof (tile_elem _ _ _ _ (hr_tile _ _ Hr) Hb). unfold HDR. lia.
Defined.
