(* ===== verification/SchedRun.v ===== *)
(** Runs of the scheduler (Sched.v): the timer interrupt and round-robin fairness, the
    invariant along every interleaving of interrupts and calls, killing all tasks, user
    tasks, and the corner cases the code gets wrong.  The witnesses run on the kernel
    heap of SchedMem.v. *)

From S2P Require Import Prelude LibMem Tss Sched SchedInv SchedSpec.

Section run.
Context {M : Type} `{TaskMem M}.
Implicit Types (s : sched M) (l zs : list Z).

(** * Boot *)

Lemma scheduler_init_ok s (tss_addr stack_end : Z) :
  tasks s = ∅ -> zombie_list s = NULL -> tm_inv (tmem s) -> tss_addr <> 0 -> stack_end <> 0 ->
  exists s' t, scheduler_init s tss_addr stack_end = Ret s' /\ sched_inv s' [INIT_TASK] [] /\
    tasks s' !! INIT_TASK = Some t /\ pid t = 0 /\ state t = TASK_RUNNING /\
    current s' = NULL /\ next_pid s' = 1.
Proof.
  intros Ht Hz Hm Ha Hs. unfold scheduler_init, tss_init.
  replace (tss_addr =? 0) with false by lia. replace (stack_end =? 0) with false by lia. cbn [obind].
  eexists _, _. split; [reflexivity |]. cbn [tasks with_rsp0 with_next_pid with_current with_ring with_tasks].
  rewrite Ht. set (k := mk_task _ _ _ _ _ _ _ _ _ _ _ _ _ _ _).
  assert (Hone : forall a u, <[INIT_TASK := k]> (∅ : gmap Z task) !! a = Some u -> a = INIT_TASK /\ u = k).
  { intros a u Hu. by apply lookup_singleton_Some in Hu as [<- <-]. }
  split; [split; [split |..] | by rewrite lookup_insert_eq];
    cbn [tasks task_ring next_pid tmem zombie_list with_rsp0 with_next_pid with_current with_ring with_tasks];
    rewrite ?Ht.
  - done.
  - apply NoDup_singleton.
  - split; [done |]. split; [| done]. exists k. by rewrite lookup_insert_eq.
  - done.
  - intros a. split.
    + intros [u [-> _]%Hone]. by apply list_elem_of_singleton.
    + intros ->%list_elem_of_singleton. by rewrite lookup_insert_eq.
  - by apply list_elem_of_singleton.
  - intros a u [-> _]%Hone. done.
  - intros a b u v [-> _]%Hone. done.
  - intros a u [-> ->]%Hone. done.
  - intros a b u v [-> _]%Hone [-> _]%Hone. done.
  - done.
  - done.
  - by left.
  - exists k. cbn [tasks with_rsp0 with_next_pid with_current with_ring with_tasks]. by rewrite ?Ht, lookup_insert_eq.
Qed.

(** [scheduler_init] on an empty kernel gives a ring that holds just init, RUNNING,
    with process id 0, and nothing current. *)
Theorem scheduler_init_spec s (tss_addr stack_end : Z) :
  tasks s = ∅ -> zombie_list s = NULL -> tm_inv (tmem s) -> tss_addr <> 0 -> stack_end <> 0 ->
  exists s' t, scheduler_init s tss_addr stack_end = Ret s' /\ sched_inv s' [INIT_TASK] [] /\
    tasks s' !! INIT_TASK = Some t /\ pid t = 0 /\ state t = TASK_RUNNING /\
    current s' = NULL /\ next_pid s' = 1.
Proof. apply scheduler_init_ok. Qed.

Lemma boot_inv s s' (tss_addr stack_end : Z) :
  tasks s = ∅ -> zombie_list s = NULL -> tm_inv (tmem s) ->
  scheduler_init s tss_addr stack_end = Ret s' -> sched_inv s' [INIT_TASK] [].
Proof.
  intros Ht Hz Hm E. destruct (Z.eqb_spec tss_addr 0) as [-> | Ha]; [done |].
  destruct (Z.eqb_spec stack_end 0) as [-> | Hb].
  { unfold scheduler_init, tss_init in E. by replace (tss_addr =? 0) with false in E by lia. }
  destruct (scheduler_init_ok s tss_addr stack_end Ht Hz Hm Ha Hb) as (s2 & t & E2 & Hi & _). congruence.
Qed.

(** * The timer interrupt *)

(** The first interrupt adopts the running boot code as init. *)
Lemma first_tick s l zs (rg : Z) :
  sched_inv s l zs -> rg <> NULL -> current s = NULL ->
  exists s', schedule_from_isr s rg = Ret (rg, s') /\ sched_inv s' l zs /\ current s' = INIT_TASK /\
    need_reschedule s' = false /\ tss_rsp0 s' = add64 INIT_STACK INIT_STACK_SIZE /\
    exists t', tasks s' !! INIT_TASK = Some t' /\ state t' = TASK_RUNNING /\ regs t' = rg /\
      add64 (kstack t') (kstack_size t') = add64 INIT_STACK INIT_STACK_SIZE.
Proof.
  intros Hinv Hrg Hc. pose proof (sv_init _ _ _ Hinv) as (t & Ht & Hr). pose proof (sv_core _ _ _ Hinv) as Hi.
  unfold schedule_from_isr. replace (rg =? NULL) with false by lia. rewrite Hc. cbn [Z.eqb NULL].
  rewrite (upd_eq s INIT_TASK t) by done. cbn [obind]. eexists. split; [reflexivity |].
  set (t1 := with_state _ TASK_RUNNING). set (s1 := with_tasks s _).
  assert (Hf : ring (tasks s1) l).
  { split; [apply Hi |]. eapply chain_upd; [done | done | apply Hi]. }
  assert (Hi1 : core_inv s1 l zs).
  { destruct Hi as []. split; try done.
    - intros a. unfold s1. cbn [tasks with_tasks]. rewrite lookup_insert. case_decide as E; [| done].
      subst a. rewrite <- ci_dom, Ht. done.
    - intros a u Hu Ha. unfold s1 in Hu. cbn [tasks with_tasks] in Hu. rewrite lookup_insert_ne in Hu by done. by apply ci_res.
    - intros a b u v Hu Hv Hab Ha Hb. unfold s1 in Hu, Hv. cbn [tasks with_tasks] in *.
      rewrite lookup_insert_ne in Hu, Hv by done. by apply ci_sep.
    - intros a u Hu. unfold s1 in Hu. cbn [tasks with_tasks] in Hu. rewrite lookup_insert in Hu.
      case_decide; [| by apply ci_pid]. subst a. injection Hu as <-. by apply (ci_pid INIT_TASK t).
    - assert (Hp : forall a u, tasks s1 !! a = Some u -> exists u0, tasks s !! a = Some u0 /\ pid u0 = pid u).
      { intros a u Hu. unfold s1 in Hu. cbn [tasks with_tasks] in Hu. rewrite lookup_insert in Hu.
        case_decide; [subst a; injection Hu as <-; by exists t | by exists u]. }
      intros a b u v Hu Hv Hpp. destruct (Hp a u Hu) as (u0 & Hu0 & E1). destruct (Hp b v Hv) as (v0 & Hv0 & E2).
      apply (ci_pid_inj a b u0 v0); congruence. }
  split; [split | split_and!]; try done.
  - by apply (core_inv_ext s1).
  - cbn. eapply zchain_ext; [| apply Hinv]. intros a u Ha Hu. exists u. split; [| done].
    rewrite lookup_insert_ne; [done |]. intros <-. by apply (init_in_dom _ _ _ Hi).
  - right. left. apply Hi.
  - exists t1. cbn. by rewrite lookup_insert_eq.
  - exists t1. cbn. by rewrite lookup_insert_eq.
Qed.

(** C10: the timer interrupt always returns: it saves the interrupted context in the
    current task, keeps the invariant, and resumes the saved context of the task that
    is now current and RUNNING, on that task's kernel stack; with a reschedule pending
    that is the next runnable task in ring order.  No other task's saved context
    changes. *)
Theorem schedule_from_isr_spec s l zs (rg : Z) :
  sched_inv s l zs -> rg <> NULL ->
  exists r s', schedule_from_isr s rg = Ret (r, s') /\ sched_inv s' l zs /\ need_reschedule s' = false /\
    current s' = (if decide (current s = NULL) then INIT_TASK
                  else if need_reschedule s then first_runnable (tasks s) (after l (start_of s)) else current s) /\
    (exists t, tasks s' !! current s' = Some t /\ state t = TASK_RUNNING /\ r = regs t /\
       tss_rsp0 s' = add64 (kstack t) (kstack_size t)) /\
    (current s <> NULL ->
       (exists t, tasks s' !! current s = Some t /\ regs t = rg) /\
       forall a, a <> current s -> regs <$> tasks s' !! a = regs <$> tasks s !! a).
Proof.
  intros Hinv Hrg. destruct (decide (current s = NULL)) as [Hc | Hc].
  - destruct (first_tick s l zs rg Hinv Hrg Hc) as (s' & E & Hi & Hcur & Hn & Hts & t & Ht & Hst & Hre & Hk).
    exists rg, s'. split_and!; try done. rewrite Hcur. exists t. by rewrite Hts, Hk.
  - destruct (schedule_ok s l zs rg Hinv Hrg Hc) as (r & s' & E & Hi & Hcur & Hn & Ht & Hs & _ & _ & Ho).
    exists r, s'. by split_and!.
Qed.
(** * Round robin *)

Lemma split_unique (k1 k2 j1 j2 : list Z) (y : Z) :
  k1 ++ y :: k2 = j1 ++ y :: j2 -> y ∉ k1 -> y ∉ j1 -> k1 = j1 /\ k2 = j2.
Proof.
  revert j1. induction k1 as [|a k1 IH]; intros [|b j1] E H1 H2; cbn in E.
  - by injection E.
  - injection E as <- _. set_solver.
  - injection E as -> _. set_solver.
  - injection E as <- E. destruct (IH j1 E ltac:(set_solver) ltac:(set_solver)) as [-> ->]. done.
Qed.

(** Reading the ring from a later task. *)
Lemma after_after l (x y : Z) (k1 k2 : list Z) :
  NoDup l -> x ∈ l -> after l x = k1 ++ y :: k2 -> after l y = y :: k2 ++ k1.
Proof.
  intros Hnd (m1 & m2 & ->)%list_elem_of_split E.
  pose proof Hnd as (_ & Hd & [Hx2 _]%NoDup_cons)%NoDup_app.
  rewrite after_split in E by (intros Hx; apply (Hd x Hx); set_solver).
  assert (Hnd2 : NoDup (x :: m2 ++ m1)).
  { change (NoDup ((x :: m2) ++ m1)). by rewrite Permutation_app_comm. }
  assert (Hyk : y ∉ k1).
  { rewrite E in Hnd2. apply NoDup_app in Hnd2 as (_ & Hk & _). intros Hy. apply (Hk y Hy). set_solver. }
  assert (Hy : y ∈ (x :: m2) ++ m1) by (cbn [app]; rewrite E; apply elem_of_app; right; set_solver).
  apply elem_of_app in Hy as [Hy | Hy]; apply list_elem_of_split in Hy as (n1 & n2 & En).
  - change (x :: m2 ++ m1) with ((x :: m2) ++ m1) in E, Hnd2. rewrite En in E, Hnd2.
    rewrite <- app_assoc in E, Hnd2. cbn [app] in E, Hnd2.
    assert (Hyn : y ∉ n1) by (apply NoDup_app in Hnd2 as (_ & Hk & _); intros Hy; apply (Hk y Hy); set_solver).
    destruct (split_unique _ _ _ _ _ (eq_sym E) Hyk Hyn) as [-> ->].
    rewrite En, app_assoc, after_split.
    + by rewrite app_assoc.
    + intros [Hy | Hy]%elem_of_app; [| done]. apply (Hd y Hy). rewrite En. set_solver.
  - subst m1. rewrite app_comm_cons, app_assoc in E, Hnd2.
    assert (Hyn : y ∉ (x :: m2) ++ n1) by (apply NoDup_app in Hnd2 as (_ & Hk & _); intros Hy; apply (Hk y Hy); set_solver).
    destruct (split_unique _ _ _ _ _ (eq_sym E) Hyk Hyn) as [-> ->].
    rewrite <- app_assoc. cbn [app]. rewrite after_split by (cbn [app] in Hyn; set_solver).
    by rewrite <- app_assoc.
Qed.

(** The task behind [b] in the rotated ring. *)
Lemma next_after (ts : gmap Z task) l (x b : Z) (k1 k2 : list Z) (t : task) :
  ring ts l -> NoDup l -> x ∈ l -> after l x = k1 ++ b :: k2 -> ts !! b = Some t -> next t = hd_or x k2.
Proof.
  intros Hr Hnd (m1 & m2 & ->)%list_elem_of_split E Hb.
  pose proof Hnd as (_ & Hd & [Hx2 _]%NoDup_cons)%NoDup_app.
  pose proof (ring_rotate _ _ _ _ Hr) as Hc. rewrite after_split in E by (intros Hx; apply (Hd x Hx); set_solver).
  cbn [app] in Hc. rewrite E in Hc. apply chain_app in Hc as [_ [(u & Hu & Hn) _]]. congruence.
Qed.

(** Timer interrupts that each request a reschedule, with the contexts they interrupt. *)
Fixpoint ticks s (rgs : list Z) : outcome (sched M) :=
  (match rgs with
   | [] => Ret s
   | rg :: rgs' => do '(_, s') <- schedule_from_isr (with_resched s true) rg; ticks s' rgs'
   end)%out.

Lemma tick_advances s l zs (rg : Z) :
  sched_inv s l zs -> rg <> NULL -> current s ∈ l ->
  exists r s' k1 k2, schedule_from_isr (with_resched s true) rg = Ret (r, s') /\ sched_inv s' l zs /\
    current s' ∈ l /\ after l (start_of s) = k1 ++ current s' :: k2 /\
    (forall b u, b ∈ k1 -> tasks s !! b = Some u -> runnable u = false) /\
    (forall c k, k2 = c :: k -> after l (start_of s') = k2 ++ k1 ++ [current s']) /\
    (forall b, b <> current s' -> runnable <$> tasks s' !! b = runnable <$> tasks s !! b).
Proof.
  intros Hinv Hrg Hcl. set (s0 := with_resched s true).
  assert (Hinv0 : sched_inv s0 l zs) by (by apply (sched_inv_globals s)).
  assert (Hcn : current s <> NULL) by (apply (core_inv_null _ _ _ _ (sv_core _ _ _ Hinv)); set_solver).
  destruct (schedule_ok s0 l zs rg Hinv0 Hrg Hcn) as (r & s' & E & Hi & Hcur & _ & (t & Ht & _) & _ & Hrun & Hnx & _).
  change (switch_to s0 l) with (first_runnable (tasks s) (after l (start_of s))) in Hcur.
  destruct (first_runnable_after s l zs (start_of s) (sv_core _ _ _ Hinv) (sv_init _ _ _ Hinv))
    as (k1 & k2 & u & Ek & Hu & Hru & Hb).
  pose proof (first_runnable_in s l zs (start_of s) (sv_core _ _ _ Hinv) (sv_init _ _ _ Hinv)) as Hin.
  rewrite <- Hcur in *. exists r, s', k1, k2. split_and!; try done.
  intros c k ->. pose proof (ci_nodup _ _ _ (sv_core _ _ _ Hi)) as (Hnd & _)%NoDup_app.
  destruct (pick_next_eq s l zs (sv_core _ _ _ Hinv) (sv_cur _ _ _ Hinv)) as [Hst _].
  assert (Hn : next t = c).
  { rewrite (next_after (tasks s') l (start_of s) (current s') k1 (c :: k) t); try done. apply Hi. }
  assert (Hs' : start_of s' = c).
  { unfold start_of. assert (current s' <> NULL) by (apply (core_inv_null _ _ _ _ (sv_core _ _ _ Hi)); set_solver).
    replace (current s' =? NULL) with false by lia. cbn [negb]. by rewrite Ht. }
  rewrite Hs'. rewrite (after_after l (start_of s) c (k1 ++ [current s']) k); [done | done | done |].
  by rewrite <- app_assoc.
Qed.

Lemma ticks_reach (n : nat) s l zs (a : Z) (p q rgs : list Z) :
  sched_inv s l zs -> current s ∈ l -> after l (start_of s) = p ++ a :: q -> length p = n ->
  (exists t, tasks s !! a = Some t /\ runnable t = true) -> Forall (fun rg => rg <> NULL) rgs ->
  (n < length rgs)%nat ->
  exists j s', (j <= S n)%nat /\ ticks s (take j rgs) = Ret s' /\ current s' = a /\ sched_inv s' l zs.
Proof.
  revert s p q rgs. induction n as [n IH] using lt_wf_ind. intros s p q [|rg rgs] Hinv Hcl Ea Hn Hrun Hrg Hl;
    cbn [length] in Hl; [lia |]. apply Forall_cons in Hrg as [Hr0 Hrg].
  destruct (tick_advances s l zs rg Hinv Hr0 Hcl) as (r & s' & k1 & k2 & E & Hi & Hcl' & Ek & Hskip & Hrot & Hkeep).
  destruct (decide (a = current s')) as [-> | Hne].
  { exists 1%nat, s'. split; [lia |]. cbn [take ticks]. rewrite E. by cbn. }
  pose proof (ci_nodup _ _ _ (sv_core _ _ _ Hi)) as (Hnd & _)%NoDup_app.
  assert (Hnda : NoDup (after l (start_of s))) by (by rewrite after_perm).
  assert (Ha : a ∈ k1 ++ current s' :: k2) by (rewrite <- Ek, Ea; apply elem_of_app; right; set_solver).
  destruct Hrun as (t & Ht & Hru).
  apply elem_of_app in Ha as [Ha | [Ha | Ha]%elem_of_cons]; [by rewrite (Hskip a t Ha Ht) in Hru | done |].
  apply list_elem_of_split in Ha as (p' & q' & ->).
  assert (Hp : p = k1 ++ current s' :: p').
  { rewrite Ea in Hnda. rewrite Ek in Ea. rewrite app_comm_cons, app_assoc in Ea.
    symmetry. eapply (split_unique _ _ _ _ a Ea).
    - rewrite <- Ea in Hnda. apply NoDup_app in Hnda as (_ & Hk & _). intros Hy. apply (Hk a Hy). set_solver.
    - apply NoDup_app in Hnda as (_ & Hk & _). intros Hy. apply (Hk a Hy). set_solver. }
  assert (Hrot' : after l (start_of s') = p' ++ a :: (q' ++ k1 ++ [current s'])).
  { destruct p' as [|c p']; [rewrite (Hrot a q') | rewrite (Hrot c (p' ++ a :: q'))]; try done.
    cbn [app]. by rewrite <- app_assoc. }
  assert (Hlt : (length p' < n)%nat) by (rewrite <- Hn, Hp, length_app; cbn [length]; lia).
  assert (Hrun' : exists t', tasks s' !! a = Some t' /\ runnable t' = true).
  { specialize (Hkeep a Hne). rewrite Ht in Hkeep. destruct (tasks s' !! a) as [t' |]; [| done].
    exists t'. split; [done |]. cbn in Hkeep. congruence. }
  destruct (IH (length p') Hlt s' p' _ rgs Hi Hcl' Hrot' eq_refl Hrun' Hrg ltac:(lia)) as (j & s2 & Hj & E2 & Hc & Hi2).
  exists (S j), s2. split; [lia |]. cbn [take ticks]. rewrite E. by cbn.
Qed.

(** C3: fairness: whenever a task of the ring is runnable, it becomes the running task
    within as many reschedules as there are tasks in the ring. *)
Theorem round_robin_fair s l zs (a : Z) (t : task) (rgs : list Z) :
  sched_inv s l zs -> current s ∈ l -> a ∈ l -> tasks s !! a = Some t -> runnable t = true ->
  Forall (fun rg => rg <> NULL) rgs -> length rgs = length l ->
  exists j s', (j <= length l)%nat /\ ticks s (take j rgs) = Ret s' /\ current s' = a /\ sched_inv s' l zs.
Proof.
  intros Hinv Hcl Ha Ht Hrun Hrg Hlen.
  assert (Ha' : a ∈ after l (start_of s)) by (by rewrite after_perm).
  apply list_elem_of_split in Ha' as (p & q & Ea).
  assert (Hp : (S (length p) <= length l)%nat).
  { rewrite <- (after_perm l (start_of s)), Ea, length_app. cbn [length]. lia. }
  destruct (ticks_reach (length p) s l zs a p q rgs) as (j & s' & Hj & E & Hc & Hi); try done;
    [by exists t | lia |].
  exists j, s'. split; [lia | done].
Qed.
(** * Killing all tasks *)

Lemma diff_only l (ps : list Z) (a : Z) :
  NoDup l -> a ∈ l -> (forall x, x ∈ l -> x ∈ ps <-> x <> a) -> diff l ps = [a].
Proof.
  intros Hnd (l1 & l2 & ->)%list_elem_of_split Hps.
  apply NoDup_app in Hnd as (_ & Hd & [Ha2 _]%NoDup_cons). unfold diff.
  rewrite filter_app, filter_cons_True by (rewrite Hps by set_solver; tauto).
  assert (Hnil : forall k, a ∉ k -> k ⊆ l1 ++ a :: l2 -> filter (fun x => x ∉ ps) k = []).
  { intros k Hak Hk. apply elem_of_nil_inv. intros x [Hx Hxk]%list_elem_of_filter. apply Hx.
    apply Hps; [by apply Hk |]. by intros ->. }
  rewrite (Hnil l1), (Hnil l2); [done | done | set_solver | | set_solver].
  intros Ha1. apply (Hd a Ha1). set_solver.
Qed.

(** The marking loop over the rest [r] of the ring. *)
Lemma zombify_from_spec (r : list Z) (fuel : nat) s l zs (h : Z) (ps : list Z) :
  core_inv s l zs -> r <> [] -> chain (tasks s) r h -> h ∉ tail r -> NoDup r -> r ⊆ l ->
  zchain (tasks s) (zombie_list s) ps -> (forall a, a ∈ r -> a ∉ ps) -> (length r <= fuel)%nat ->
  exists s', zombify_from fuel s (hd_or NULL r) h = Ret s' /\ core_inv s' l zs /\
    zchain (tasks s') (zombie_list s') (reverse (diff r [INIT_TASK]) ++ ps) /\
    tasks s' !! INIT_TASK = tasks s !! INIT_TASK /\ task_ring s' = task_ring s /\
    (forall b t, tasks s !! b = Some t -> exists t', tasks s' !! b = Some t' /\ same_owned t t').
Proof.
  revert fuel s ps. induction r as [|a r IH]; intros [|fuel] s ps Hi Hne Hc Hh Hnd Hsub Hz Hd Hf;
    cbn [length] in Hf; try done; try lia.
  cbn [hd_or zombify_from]. destruct Hc as [(t & Ht & Hn) Hc]. unfold tk. rewrite Ht. cbn [of_option obind].
  apply NoDup_cons in Hnd as [Har Hnd]. cbn [tail] in Hh.
  assert (Hstep : exists s1, (if negb (pid t =? 0) && negb (a =? INIT_TASK) then
      obind (upd s a (fun k => with_exit_code (with_state k TASK_ZOMBIE) (-1))) (fun s => add_to_zombie_list s a)
      else Ret s) = Ret s1 /\ core_inv s1 l zs /\ zchain (tasks s1) (zombie_list s1) (diff [a] [INIT_TASK] ++ ps) /\
      tasks s1 !! INIT_TASK = tasks s !! INIT_TASK /\ task_ring s1 = task_ring s /\
      (forall b t, tasks s !! b = Some t -> exists t', tasks s1 !! b = Some t' /\ same_owned t t') /\
      chain (tasks s1) r h).
  { destruct (ci_pid _ _ _ Hi a t Ht) as [_ Hp].
    destruct (decide (a = INIT_TASK)) as [-> | Hai].
    - rewrite (proj2 Hp eq_refl). cbn [Z.eqb negb andb]. exists s. split_and!; try done.
      intros b u Hu. by exists u.
    - replace (pid t =? 0) with false by (symmetry; apply Z.eqb_neq; tauto).
      replace (a =? INIT_TASK) with false by lia. cbn [negb andb].
      rewrite (upd_eq s a t) by done. cbn [obind]. unfold add_to_zombie_list.
      replace (a =? NULL) with false by (pose proof (core_inv_null _ _ _ a Hi ltac:(set_solver)); lia).
      set (t1 := with_exit_code _ (-1)). rewrite (upd_eq _ a t1) by apply lookup_insert_eq.
      cbn [obind tasks with_tasks zombie_list]. rewrite insert_insert_eq. set (t2 := with_znext t1 _).
      eexists. split; [reflexivity |]. cbn [tasks zombie_list task_ring with_zombies with_tasks].
      split_and!; try done.
      + apply (core_inv_ext (with_tasks s (<[a := t2]> (tasks s)))); try done.
        by apply (core_inv_upd s l zs a t (fun _ => t2)).
      + rewrite (diff_notin [a] INIT_TASK) by set_solver. cbn [app zchain]. split; [done |].
        exists t2. split; [by rewrite lookup_insert_eq |]. cbn [znext t2 with_znext].
        eapply zchain_ext; [| exact Hz]. intros b u Hb Hu. exists u. split; [| done].
        rewrite lookup_insert_ne; [done |]. intros <-. by apply (Hd a); [set_solver |].
      + by rewrite lookup_insert_ne.
      + intros b u Hu. rewrite lookup_insert. case_decide as E; [| by exists u].
        subst b. exists t2. split; [done |]. by assert (u = t) as -> by congruence.
      + by apply chain_insert_ne. }
  destruct Hstep as (s1 & E1 & Hi1 & Hz1 & H1 & H2 & H3 & Hc1). rewrite E1. cbn [obind]. rewrite Hn.
  assert (Ed : forall k, reverse (diff k [INIT_TASK]) ++ diff [a] [INIT_TASK] ++ ps =
                reverse (diff (a :: k) [INIT_TASK]) ++ ps).
  { intros k. change (a :: k) with ([a] ++ k). unfold diff. rewrite filter_app, reverse_app, <- app_assoc. f_equal. f_equal.
    rewrite filter_cons. by destruct (decide (a ∉ [INIT_TASK])). }
  destruct r as [|b r]; cbn [hd_or].
  - rewrite Z.eqb_refl. exists s1. rewrite <- (Ed []). by split_and!.
  - replace (b =? h) with false by (symmetry; apply Z.eqb_neq; set_solver).
    assert (Hd1 : forall c, c ∈ b :: r -> c ∉ diff [a] [INIT_TASK] ++ ps).
    { intros c Hcb [Hca | Hcp]%elem_of_app.
      - apply elem_of_diff in Hca as [->%list_elem_of_singleton _]. done.
      - apply (Hd c); [| done]. by apply elem_of_cons; right. }
    destruct (IH fuel s1 (diff [a] [INIT_TASK] ++ ps) Hi1) as (s2 & E2 & Hi2 & Hz2 & G1 & G2 & G3);
      try done; [cbn [tail]; set_solver | set_solver | lia |].
    exists s2. rewrite Ed in Hz2. split_and!; try done; try congruence.
    intros c u Hu. destruct (H3 c u Hu) as (u1 & Hu1 & O1). destruct (G3 c u1 Hu1) as (u2 & Hu2 & O2).
    exists u2. split; [done |]. destruct O1 as (? & ? & ?), O2 as (? & ? & ?). split_and!; congruence.
Qed.

Lemma kill_all_tasks_ok s l zs :
  sched_inv s l zs -> 
  exists s', kill_all_tasks s = Ret s' /\ sched_inv s' [INIT_TASK] [] /\ current s' = INIT_TASK /\
    iflag s' = true /\ (exists t, tasks s' !! INIT_TASK = Some t /\ state t = TASK_RUNNING) /\
    (forall a t q, a <> INIT_TASK -> tasks s !! a = Some t -> q ∈ resources a t -> ~ tm_live (tmem s') q).
Proof.
  intros [Hi Hz _ (ti & Hti & _)]. set (s0 := cli s).
  assert (Hi0 : core_inv s0 l zs) by (by apply (core_inv_ext s)).
  pose proof (ci_nodup _ _ _ Hi) as (Hnd & Hdis & Hndz)%NoDup_app.
  destruct (ring_ends _ _ _ (ci_ring _ _ _ Hi) Hnd (ci_tail _ _ _ Hi)) as (tl & Htl & Hnx & Hhd & _).
  assert (Htr : task_ring s <> NULL).
  { apply (core_inv_null _ _ _ _ Hi). pose proof (ci_tail _ _ _ Hi) as Hl. apply last_Some in Hl as (k & ->). set_solver. }
  destruct (ci_ring _ _ _ Hi) as [Hne Hch].
  destruct (zombify_from_spec l (fuel_of s0) s0 l zs (hd_or NULL l) zs Hi0) as
    (s1 & E1 & Hi1 & Hz1 & HI1 & Etr & Hown); try done.
  { apply (length_tasks s0 l (hd_or NULL l)); done. }
  set (ps := reverse (diff l [INIT_TASK]) ++ zs) in *.
  assert (Hps : forall a, a ∈ ps <-> a ∈ l ++ zs /\ a <> INIT_TASK).
  { intros a. unfold ps. rewrite !elem_of_app, elem_of_reverse, elem_of_diff, list_elem_of_singleton.
    pose proof (init_in_dom _ _ _ Hi). split; [intros [? | ?]; [tauto |] | tauto]. split; [tauto |]. by intros ->. }
  set (s2 := sti (with_zombies (cli s1) NULL)).
  assert (Hi2 : core_inv s2 l zs) by (by apply (core_inv_ext s1)).
  assert (Hndp : NoDup ps).
  { unfold ps. apply NoDup_app. split_and!; [| | done].
    - rewrite reverse_Permutation. by apply NoDup_filter.
    - intros a Ha. apply Hdis. rewrite elem_of_reverse, elem_of_diff in Ha. tauto. }
  destruct (reap_from_spec ps (fuel_of s2) s2 l zs (zombie_list s1) Hi2 Hz1 Hndp) as
    (s3 & E3 & Hi3 & Hsv & Hg & _ & Hfree).
  { intros a Ha. by apply Hps. }
  { intros Ha. by apply Hps in Ha as [_ ?]. }
  { apply length_dom; [done |]. intros a Ha. apply (ci_dom _ _ _ Hi1). by apply Hps. }
  assert (Ezs : diff zs ps = []).
  { apply elem_of_nil_inv. intros a [Ha Hn]%elem_of_diff. apply Hn, Hps. split; [set_solver |].
    intros ->. by apply (init_in_dom _ _ _ Hi). }
  assert (El : diff l ps = [INIT_TASK]).
  { apply diff_only; [done | apply Hi |]. intros x Hx. rewrite Hps. split; [tauto |]. intros ?. set_solver. }
  rewrite El, Ezs in Hi3.
  destruct (proj2 (ci_dom _ _ _ Hi3 INIT_TASK) ltac:(set_solver)) as [t3 Ht3].
  assert (Hrt : task_ring s3 = INIT_TASK) by (pose proof (ci_tail _ _ _ Hi3) as Hl; by injection Hl).
  set (t4 := with_state t3 TASK_RUNNING).
  set (s4 := with_tasks (with_current s3 INIT_TASK) (<[INIT_TASK := t4]> (tasks s3))).
  assert (Hi4 : core_inv s4 [INIT_TASK] []).
  { apply (core_inv_ext (with_tasks s3 (<[INIT_TASK := t4]> (tasks s3)))); try done.
    by apply (core_inv_upd s3 [INIT_TASK] [] INIT_TASK t3 (fun k => with_state k TASK_RUNNING)). }
  exists (sti s4). split; [| split; [split |] ].
  - unfold kill_all_tasks. fold s0. change (task_ring s0) with (task_ring s).
    replace (task_ring s =? NULL) with false by lia. unfold tk at 1. change (tasks s0) with (tasks s).
    rewrite Htl. cbn [of_option obind]. rewrite Hnx, E1. cbn [obind].
    unfold reap_zombies. fold s2. rewrite E3. cbn [obind].
    rewrite (upd_eq (with_current s3 INIT_TASK) INIT_TASK t3) by done. cbn [obind].
    change (with_tasks (with_current s3 INIT_TASK) _) with s4. unfold tk.
    change (task_ring s4) with (task_ring s3). rewrite Hrt. change (tasks s4) with (<[INIT_TASK := t4]> (tasks s3)).
    rewrite lookup_insert_eq. cbn [of_option obind].
    destruct (ci_pid _ _ _ Hi3 INIT_TASK t3 Ht3) as [_ Hp]. cbn [pid t4 with_state].
    rewrite (proj2 Hp eq_refl). done.
  - by apply (core_inv_ext s4).
  - cbn [tasks zombie_list sti with_iflag s4 with_tasks with_current zchain]. destruct Hg as (_ & Hzl & _). by rewrite Hzl.
  - right. left. cbn [current sti with_iflag s4 with_tasks with_current]. set_solver.
  - exists t4. cbn [tasks sti with_iflag s4 with_tasks]. by rewrite lookup_insert_eq.
  - split_and!; try done.
    + exists t4. cbn [tasks sti with_iflag s4 with_tasks]. by rewrite lookup_insert_eq.
    + intros a t q Ha Ht Hq. destruct (Hown a t Ht) as (t1 & Ht1 & O1).
      apply (Hfree a t1 q); [| done |].
      * apply Hps. split; [| done]. apply (ci_dom _ _ _ Hi). by exists t.
      * by rewrite (proj1 (same_owned_resources a t t1 O1)).
Qed.

(** [kill_all_tasks] on a running system ends every task but init: the ring holds
    just init, which is current and RUNNING, no other task structure is left, and
    everything the other tasks owned (earlier zombies included) is freed. *)
Theorem kill_all_tasks_spec s l zs :
  sched_inv s l zs -> 
  exists s', kill_all_tasks s = Ret s' /\ sched_inv s' [INIT_TASK] [] /\ current s' = INIT_TASK /\
    iflag s' = true /\ (exists t, tasks s' !! INIT_TASK = Some t /\ state t = TASK_RUNNING) /\
    (forall a t q, a <> INIT_TASK -> tasks s !! a = Some t -> q ∈ resources a t -> ~ tm_live (tmem s') q).
Proof. apply kill_all_tasks_ok. Qed.
(** * User tasks *)

(** More memory in use and process ids spent without a task do not matter. *)
Lemma sched_inv_grow s s' l zs :
  sched_inv s l zs -> tasks s' = tasks s -> task_ring s' = task_ring s -> current s' = current s ->
  zombie_list s' = zombie_list s -> next_pid s <= next_pid s' < 2 ^ 31 ->
  tm_inv (tmem s') -> (forall q, tm_live (tmem s) q -> tm_live (tmem s') q) -> sched_inv s' l zs.
Proof.
  intros [Hi Hz Hc Hr] E1 E2 E3 E4 Hnp Hm Hlive. split.
  - destruct Hi. split; rewrite ?E1, ?E2; try done; [| | lia].
    + intros a t Ht Ha. destruct (ci_res a t Ht Ha) as [Hd Hl]. split; [done |]. eapply Forall_impl; [exact Hl | done].
    + intros a t Ht. destruct (ci_pid a t Ht). split; [lia | done].
  - by rewrite E1, E4.
  - unfold cur_ok. by rewrite E1, E3.
  - unfold init_runnable. by rewrite E1.
Qed.

(** The error path of [utask_create]: stack and structure go back. *)
Lemma undo_create (m0 m1 m2 m4 : M) (t ks np : Z) :
  tm_inv m4 -> ~ tm_live m0 t -> ~ tm_live m1 ks ->
  (forall q, tm_live m1 q <-> q = t \/ tm_live m0 q) -> (forall q, tm_live m2 q <-> q = ks \/ tm_live m1 q) ->
  ((np = NULL /\ forall q, tm_live m4 q <-> tm_live m2 q) \/
   (4096 < np /\ ~ tm_live m2 np /\ forall q, tm_live m4 q <-> q = np \/ tm_live m2 q)) ->
  exists m5 m6, tm_free m4 ks = Ret m5 /\ tm_free m5 t = Ret m6 /\ tm_inv m6 /\
    forall q, tm_live m0 q -> tm_live m6 q.
Proof.
  intros Hm F1 F2 L1 L2 L4.
  assert (H24 : forall q, tm_live m2 q -> tm_live m4 q)
    by (intros q Hq; destruct L4 as [[_ L4] | (_ & _ & L4)]; apply L4; auto).
  assert (ks <> t) by (intros ->; apply F2, L1; by left).
  destruct (tm_free_live m4 ks Hm) as (m5 & E5 & M5 & L5); [apply H24, L2; by left |].
  destruct (tm_free_live m5 t M5) as (m6 & E6 & M6 & L6).
  { apply L5. split; [| done]. apply H24, L2. right. apply L1. by left. }
  exists m5, m6. split_and!; try done. intros q Hq. apply L6. split.
  - apply L5. split; [apply H24, L2; right; apply L1; by right |]. intros ->. apply F2, L1. by right.
  - intros ->. done.
Qed.

(** The paging code, called in a good state, fails. *)
Definition create_user_panics : Prop := exists (m : M) a n, tm_inv m /\ tm_create_user m a n = Panic.
Definition create_user_crashes : Prop := exists (m : M) a n, tm_inv m /\ tm_create_user m a n = Crash.

Lemma utask_create_ok s l zs (entry ssz um usz argc argv : Z) (nm : option Z) :
  sched_inv s l zs -> utask_lock s = false -> entry <> NULL -> fits 64 entry -> fits 64 argv ->
  stack_size_ok ssz -> usz <> 0 -> name_ok nm -> next_pid s + 1 < 2 ^ 31 ->
  tm_live (tmem s) um -> (forall a u, tasks s !! a = Some u -> a <> INIT_TASK -> um ∉ resources a u) ->
  match utask_create s entry ssz um usz argc argv nm with
  | Ret (Returned v, s') =>
      ((v = 0 /\ sched_inv s' l zs /\ tm_live (tmem s') um) \/
       exists t k, v = next_pid s /\ sched_inv s' (l ++ [t]) zs /\ tasks s' !! t = Some k /\
         pid k = v /\ state k = TASK_READY /\ user_mem k = um /\ page_table k <> NULL /\
         ld64 (stacks s') (regs k + 8 * 17) = entry /\ ld64 (stacks s') (regs k + 8 * 18) = USER_CS /\
         ld64 (stacks s') (regs k + 8 * 20) = add64 um usz) /\
      forall e z m n c p q, utask_create s' e z m n c p q = Ret (Deadlocked, s')
  | Ret (_, _) => False
  | Panic => malloc_panics \/ create_user_panics
  | Crash => malloc_crashes \/ create_user_crashes
  end.
Proof.
  intros Hinv Hlock He Hef Hargv Hssz Husz Hnm Hpid Hum Hown. pose proof (sv_core _ _ _ Hinv) as Hi.
  pose proof (ci_next_pid _ _ _ Hi) as Hnp. pose proof (tm_live_pos _ _ (ci_mem _ _ _ Hi) Hum) as Pum.
  unfold utask_create at 1.
  rewrite Hlock. replace (entry =? NULL) with false by lia.
  replace ((um =? NULL) || (usz =? 0)) with false by (unfold NULL; lia).
  set (sz := if ssz =? 0 then KSTACK_SIZE else ssz).
  assert (Hsz : 192 <= sz < 2 ^ 61) by (by apply default_stack_size).
  clearbody sz. cbn [tmem with_locks].
  assert (HS : 0 < SIZEOF_TASK < 2 ^ 62) by (unfold SIZEOF_TASK; lia).
  destruct (tm_malloc (tmem s) SIZEOF_TASK) as [[t m1] | |] eqn:E1; cbn [obind];
    [| by left; exists (tmem s), SIZEOF_TASK; (split_and!; [apply Hi | lia | lia | ]) ..].
  destruct (tm_malloc_fresh (tmem s) SIZEOF_TASK t m1 (ci_mem _ _ _ Hi) ltac:(unfold SIZEOF_TASK; lia) E1) as (M1 & P1 & F1 & L1).
  replace (t =? NULL) with false by (unfold NULL; lia).
  destruct (tm_malloc m1 sz) as [[ks m2] | |] eqn:E2; cbn [obind];
    [| by left; exists m1, sz; (split_and!; [done | lia | lia | ]) ..].
  destruct (tm_malloc_fresh m1 sz ks m2 M1 ltac:(lia) E2) as (M2 & P2 & F2 & L2).
  replace (ks =? NULL) with false by (unfold NULL; lia). cbn [next_pid with_tmem with_locks].
  set (sa := with_next_pid _ _).
  destruct (strdup sa nm) as [[np sb] | |] eqn:E3; cbn [obind].
  2, 3: left; by apply strdup_fails in E3.
  pose proof (tm_malloc_end m1 sz ks m2 M1 ltac:(lia) E2) as Hend.
  destruct (strdup_ok sa nm np sb M2 Hnm E3) as (m3 & -> & M3 & L3). change (tmem sa) with m2 in L3.
  cbn [tmem with_tmem].
  destruct (tm_create_user m3 um usz) as [[pt m4] | |] eqn:E4; cbn [obind];
    [| by right; exists m3, um, usz ..].
  destruct (tm_create_ok m3 um usz pt m4 M3 E4) as (M4 & L4).
  assert (L34 : (np = NULL /\ forall q, tm_live m4 q <-> tm_live m2 q) \/
                (4096 < np /\ ~ tm_live m2 np /\ forall q, tm_live m4 q <-> q = np \/ tm_live m2 q)).
  { destruct L3 as [[Hn L3] | (Hn & Hf & L3)]; [left | right]; split_and!; try done; intros q; by rewrite L4. }
  assert (Hwrap : i32 (next_pid s + 1) = next_pid s + 1) by (apply wrap_small_i32; lia).
  destruct (Z.eqb_spec pt NULL) as [Hpt | Hpt].
  - destruct (undo_create (tmem s) m1 m2 m4 t ks np M4 F1 F2 L1 L2 L34) as (m5 & m6 & E5 & E6 & M6 & L6).
    cbn [tmem with_tmem]. rewrite E5. cbn [obind]. rewrite E6. cbn [obind]. split; [| done]. left. split; [done |].
    split; [| by apply L6]. apply (sched_inv_grow s); try done; cbn; rewrite Hwrap; lia.
  - cbn [stacks with_tmem].
    destruct (initial_frame_fits (stacks sa) ks sz entry (add64 um usz) argc argv true ltac:(lia) ltac:(lia) Hend)
      as (sp & st & Ep & _).
    rewrite Ep. cbn [obind].
    set (k := mk_task _ TASK_READY sp ks sz 0 NULL 0 um usz np pt um um _). set (sc := with_stacks _ st).
    destruct (fresh_task (tmem s) m1 m2 m4 t ks np um k) as (Hd & Hlive & Hfresh & Hmono); try done; [by right |].
    destruct (enter_ok s sc l zs t k Hinv) as (ts' & v & E5 & Hk' & Hinv'); try done.
    { cbn. lia. }
    { unfold INIT_TASK. lia. }
    { by apply (fresh_addr s l zs). }
    { intros a u Hu Ha q Hq Hq'. pose proof (owned_live s l zs Hi a u q Hu Ha Hq) as Hlq.
      destruct (Hfresh q Hq') as [-> | ?]; [| done]. by apply (Hown a u Hu Ha). }
    rewrite E5. cbn [obind]. split; [| done]. right. exists t, (with_next k v).
    assert (Hfw : Forall (fits 64) (frame_words entry (add64 ks sz) (add64 um usz) argc argv true))
      by (apply frame_words_fit; [done | by apply wrap_fits | by apply wrap_fits | done]).
    split; [done |]. split; [by apply Hinv' |]. split_and!; try done.
    + by apply (initial_frame_word _ _ _ _ _ _ _ _ _ _ 17%nat entry Ep Hfw).
    + by apply (initial_frame_word _ _ _ _ _ _ _ _ _ _ 18%nat USER_CS Ep Hfw).
    + by apply (initial_frame_word _ _ _ _ _ _ _ _ _ _ 20%nat (add64 um usz) Ep Hfw).
Qed.

(** [utask_create] adds one READY user task that owns the given memory and starts at
    [entry] in ring 3 on the top of that memory, or gives everything back when no
    address space can be made; either way its lock stays taken, so every later call
    spins forever. *)
Theorem utask_create_spec s l zs (entry ssz um usz argc argv : Z) (nm : option Z) :
  sched_inv s l zs -> utask_lock s = false -> entry <> NULL -> fits 64 entry -> fits 64 argv ->
  stack_size_ok ssz -> usz <> 0 -> name_ok nm -> next_pid s + 1 < 2 ^ 31 ->
  tm_live (tmem s) um -> (forall a u, tasks s !! a = Some u -> a <> INIT_TASK -> um ∉ resources a u) ->
  match utask_create s entry ssz um usz argc argv nm with
  | Ret (Returned v, s') =>
      ((v = 0 /\ sched_inv s' l zs /\ tm_live (tmem s') um) \/
       exists t k, v = next_pid s /\ sched_inv s' (l ++ [t]) zs /\ tasks s' !! t = Some k /\
         pid k = v /\ state k = TASK_READY /\ user_mem k = um /\ page_table k <> NULL /\
         ld64 (stacks s') (regs k + 8 * 17) = entry /\ ld64 (stacks s') (regs k + 8 * 18) = USER_CS /\
         ld64 (stacks s') (regs k + 8 * 20) = add64 um usz) /\
      forall e z m n c p q, utask_create s' e z m n c p q = Ret (Deadlocked, s')
  | Ret (_, _) => False
  | Panic => malloc_panics \/ create_user_panics
  | Crash => malloc_crashes \/ create_user_crashes
  end.
Proof. apply utask_create_ok. Qed.
(** * The emergency stop *)

(** The collection loop over the rest [r] of the ring. *)
Lemma collect_from_spec s (r acc : list Z) (fuel : nat) (h : Z) l zs :
  core_inv s l zs -> r <> [] -> chain (tasks s) r h -> h ∉ tail r -> r ⊆ l -> (length r <= fuel)%nat ->
  (length acc + length (diff r [INIT_TASK]) <= 256)%nat ->
  collect_from fuel s (hd_or NULL r) h acc = Ret (acc ++ diff r [INIT_TASK]).
Proof.
  intros Hi. revert acc fuel. induction r as [|a r IH]; intros acc [|fuel] Hne Hc Hh Hsub Hf Hl;
    cbn [length] in Hf; try done; try lia.
  cbn [hd_or collect_from]. destruct Hc as [(t & Ht & Hn) Hc]. unfold tk. rewrite Ht. cbn [of_option obind].
  cbn [tail] in Hh. destruct (ci_pid _ _ _ Hi a t Ht) as [_ Hp].
  set (acc' := if negb (pid t =? 0) && negb (a =? INIT_TASK) && (Z.of_nat (length acc) <? 256) then acc ++ [a] else acc).
  assert (Eacc : acc' = acc ++ diff [a] [INIT_TASK] /\
            (length acc' + length (diff r [INIT_TASK]) <= 256)%nat /\
            acc ++ diff (a :: r) [INIT_TASK] = acc' ++ diff r [INIT_TASK]).
  { unfold acc', diff in *. rewrite !filter_cons in *. destruct (decide (a = INIT_TASK)) as [-> | Hai].
    - rewrite (proj2 Hp eq_refl). cbn [Z.eqb negb andb]. rewrite !decide_False in * by (clear; set_solver).
      rewrite app_nil_r. done.
    - replace (pid t =? 0) with false by (symmetry; apply Z.eqb_neq; tauto).
      replace (a =? INIT_TASK) with false by lia. cbn [negb andb].
      rewrite !decide_True in * by (clear -Hai; set_solver). cbn [length] in Hl.
      replace (Z.of_nat (length acc) <? 256) with true by lia. cbn [filter list_filter].
      rewrite length_app, <- app_assoc. cbn [length app]. split_and!; [done | lia | done]. }
  destruct Eacc as (_ & Hl' & ->). clearbody acc'. rewrite Hn.
  destruct r as [|b r]; cbn [hd_or].
  - rewrite Z.eqb_refl. cbn [negb andb]. by rewrite app_nil_r.
  - replace (b =? h) with false by (symmetry; apply Z.eqb_neq; set_solver). cbn [negb andb].
    destruct (Z.ltb_spec (Z.of_nat (length acc')) 256) as [Hlt | Hge].
    + apply IH; try done; [cbn [tail]; set_solver | set_solver | lia].
    + destruct (diff (b :: r) [INIT_TASK]) eqn:Ed; [by rewrite app_nil_r |]. cbn [length] in Hl'. lia.
Qed.

(** Taking tasks out of the ring, then freeing them. *)
Lemma unlink_all_spec (ps : list Z) s l zs :
  core_inv s l zs -> ps ⊆ l -> NoDup ps -> INIT_TASK ∉ ps ->
  exists ts' tl, unlink_all s ps = Ret (with_ring (with_tasks s ts') tl) /\
    core_inv (with_ring (with_tasks s ts') tl) (diff l ps) (reverse ps ++ zs) /\
    (forall a t, tasks s !! a = Some t -> exists t', ts' !! a = Some t' /\ t' = with_next t (next t')) /\
    (forall a, a ∉ l -> ts' !! a = tasks s !! a).
Proof.
  revert s l zs. induction ps as [|a ps IH]; intros s l zs Hi Hsub Hnd Hin.
  { exists (tasks s), (task_ring s). cbn [unlink_all]. rewrite diff_nil. split; [by destruct s |].
    split; [by apply (core_inv_ext s) |]. split; [| done]. intros a t Ht. exists t. split; [done |]. by destruct t. }
  apply NoDup_cons in Hnd as [Ha Hnd]. cbn [unlink_all].
  assert (Hal : a ∈ l) by set_solver. apply list_elem_of_split in Hal as (l1 & l2 & ->).
  pose proof (ci_nodup _ _ _ Hi) as (Hndl & _)%NoDup_app.
  destruct (unlink_step s l1 a l2 zs Hi ltac:(set_solver)) as (ts1 & tl1 & E1 & Hi1 & Hsame & Hself & Hsome & _).
  rewrite E1. cbn [obind].
  destruct (IH _ _ _ Hi1) as (ts' & tl & E2 & Hi2 & Hs2 & Ho2); [| done | set_solver |].
  { intros b Hb. assert (b <> a) by (by intros ->). set_solver. }
  exists ts', tl. split; [exact E2 |]. split_and!.
  - rewrite reverse_cons, <- app_assoc. cbn [app]. rewrite <- (diff_cons _ a), diff_middle by done. exact Hi2.
  - intros b t Ht. destruct (Hsome b t Ht) as (t1 & Ht1 & Et1). destruct (Hs2 b t1 Ht1) as (t' & Ht' & Et').
    exists t'. split; [done |]. rewrite Et', Et1. done.
  - intros b Hb. assert (Hb2 : b ∉ l1 ++ l2) by set_solver. rewrite Ho2 by done. by apply Hsame.
Qed.

Lemma free_all_spec (ps : list Z) s l zs :
  core_inv s l (reverse ps ++ zs) -> INIT_TASK ∉ ps ->
  exists s', free_all s ps = Ret s' /\ core_inv s' l zs /\ survives s s' /\
    (forall a, a ∉ ps -> tasks s' !! a = tasks s !! a) /\
    (forall q, tm_live (tmem s') q -> tm_live (tmem s) q) /\
    (forall a t q, a ∈ ps -> tasks s !! a = Some t -> q ∈ resources a t -> ~ tm_live (tmem s') q).
Proof.
  revert s zs. induction ps as [|a ps IH]; intros s zs Hi Hin.
  { exists s. split_and!; try done; [| by intros ? ? ? ?%elem_of_nil].
    intros b t Ht. exists t. split; [done |]. by destruct t. }
  rewrite reverse_cons, <- app_assoc in Hi. cbn [app] in Hi. cbn [free_all].
  pose proof (ci_nodup _ _ _ Hi) as (_ & _ & (_ & Hna & _)%NoDup_app)%NoDup_app.
  destruct (free_step s l (reverse ps) a zs Hi ltac:(set_solver)) as (m & E1 & Hi1 & ta & Hta & Hlive).
  rewrite E1. cbn [obind]. set (s1 := with_tasks _ _) in *.
  destruct (IH s1 zs Hi1 ltac:(set_solver)) as (s' & E2 & Hi2 & Hsv & Ho & Hmono & Hfree).
  assert (Haps : a ∉ ps) by (intros Hx; apply (Hna a); [by rewrite elem_of_reverse | set_solver]).
  exists s'. split; [exact E2 |]. split_and!; [done | | | |].
  - intros b t' Ht'. destruct (Hsv b t' Ht') as (t & Ht & Et). exists t. split; [| done].
    unfold s1 in Ht. cbn [tasks with_tasks with_tmem] in Ht. by apply lookup_delete_Some in Ht as [_ Ht].
  - intros b Hb. rewrite Ho by set_solver. unfold s1. cbn [tasks with_tasks with_tmem].
    rewrite lookup_delete_ne by set_solver. done.
  - intros q Hq. apply Hmono in Hq. by apply Hlive in Hq as [? _].
  - intros b t q Hb Ht Hq Hl. apply elem_of_cons in Hb as [-> | Hb].
    + apply Hmono, Hlive in Hl as [_ Hl]. assert (t = ta) as -> by congruence. done.
    + apply (Hfree b t q Hb); [| done | done]. unfold s1. cbn [tasks with_tasks with_tmem].
      rewrite lookup_delete_ne; [done |]. intros ->. done.
Qed.

Lemma emergency_ok s l zs :
  sched_inv s l zs -> (length l <= 257)%nat ->
  exists s', emergency_terminate_all s = Ret s' /\ core_inv s' [INIT_TASK] zs /\ current s' = INIT_TASK /\
    zombie_list s' = NULL /\ iflag s' = true /\
    (exists t, tasks s' !! INIT_TASK = Some t /\ state t = TASK_RUNNING) /\
    (forall a t q, a ∈ l -> a <> INIT_TASK -> tasks s !! a = Some t -> q ∈ resources a t -> ~ tm_live (tmem s') q) /\
    (forall a, a ∈ zs -> tasks s' !! a = tasks s !! a).
Proof.
  intros [Hi _ _ _] Hlen. set (s0 := cli s). assert (Hi0 : core_inv s0 l zs) by (by apply (core_inv_ext s)).
  pose proof (ci_nodup _ _ _ Hi) as (Hnd & Hdis & _)%NoDup_app.
  destruct (ring_ends _ _ _ (ci_ring _ _ _ Hi) Hnd (ci_tail _ _ _ Hi)) as (tl & Htl & Hnx & Hhd & _).
  assert (Htr : task_ring s <> NULL).
  { apply (core_inv_null _ _ _ _ Hi). pose proof (ci_tail _ _ _ Hi) as Hl. apply last_Some in Hl as (k & ->). set_solver. }
  destruct (ci_ring _ _ _ Hi) as [Hne Hch]. set (ps := diff l [INIT_TASK]).
  assert (Hps : forall a, a ∈ ps <-> a ∈ l /\ a <> INIT_TASK)
    by (intros a; unfold ps; by rewrite elem_of_diff, list_elem_of_singleton).
  assert (Hlps : (length ps <= 256)%nat).
  { pose proof (ci_init _ _ _ Hi) as Hin. unfold ps. clear -Hin Hnd Hlen. apply list_elem_of_split in Hin as (l1 & l2 & ->).
    rewrite diff_middle by done. rewrite !length_app in *. cbn [length] in Hlen. lia. }
  assert (Ec : collect_from (fuel_of s0) s0 (hd_or NULL l) (hd_or NULL l) [] = Ret ps).
  { apply (collect_from_spec s0 l [] (fuel_of s0) (hd_or NULL l) l zs); try done.
    apply (length_tasks s0 l (hd_or NULL l)); done. }
  destruct (unlink_all_spec ps s0 l zs Hi0) as (ts1 & tl1 & E1 & Hi1 & Hs1 & Ho1).
  { intros a Ha. by apply Hps in Ha as [? _]. }
  { by apply NoDup_filter. }
  { intros Ha. by apply Hps in Ha as [_ ?]. }
  set (s1 := with_ring (with_tasks s0 ts1) tl1) in *.
  destruct (free_all_spec ps s1 _ zs Hi1) as (s2 & E2 & Hi2 & _ & Ho2 & _ & Hfree).
  { intros Ha. by apply Hps in Ha as [_ ?]. }
  assert (El : diff l ps = [INIT_TASK]).
  { apply diff_only; [done | apply Hi |]. intros x Hx. rewrite Hps. tauto. }
  rewrite El in Hi2.
  destruct (proj2 (ci_dom _ _ _ Hi2 INIT_TASK) ltac:(set_solver)) as [t2 Ht2].
  assert (Hrt : task_ring s2 = INIT_TASK) by (pose proof (ci_tail _ _ _ Hi2) as Hl; by injection Hl).
  assert (Hn2 : next t2 = INIT_TASK).
  { destruct (ci_ring _ _ _ Hi2) as [_ [(t & Ht & Hn) _]]. cbn [hd_or] in Hn. congruence. }
  set (t3 := with_state (with_next t2 INIT_TASK) TASK_RUNNING).
  set (s3 := with_tasks (with_current (with_ring s2 INIT_TASK) INIT_TASK) (<[INIT_TASK := t3]> (tasks s2))).
  assert (Hi3 : core_inv s3 [INIT_TASK] zs).
  { apply (core_inv_ext (with_tasks s2 (<[INIT_TASK := t3]> (tasks s2)))); try done.
    by apply (core_inv_upd s2 [INIT_TASK] zs INIT_TASK t2 (fun k => with_state (with_next k INIT_TASK) TASK_RUNNING)). }
  exists (sti (with_zombies s3 NULL)). split; [| split_and!]; try done.
  - unfold emergency_terminate_all. fold s0. change (task_ring s0) with (task_ring s).
    replace (task_ring s =? NULL) with false by lia. unfold tk at 1. change (tasks s0) with (tasks s).
    rewrite Htl. cbn [of_option obind]. rewrite Hnx, Ec. cbn [obind]. rewrite E1. cbn [obind]. fold s1.
    rewrite E2. cbn [obind]. rewrite (upd_eq (with_ring s2 INIT_TASK) INIT_TASK t2) by done. cbn [obind].
    rewrite (upd_eq _ INIT_TASK (with_next t2 INIT_TASK)) by apply lookup_insert_eq. cbn [obind].
    unfold s3. cbn [tasks with_current with_tasks with_ring]. by rewrite insert_insert_eq.
  - by apply (core_inv_ext s3).
  - exists t3. cbn [tasks sti with_iflag with_zombies s3 with_tasks]. by rewrite lookup_insert_eq.
  - intros a t q Ha Hai Ht Hq. destruct (Hs1 a t Ht) as (t1 & Ht1 & Et1).
    apply (Hfree a t1 q); [by apply Hps | done |].
    by rewrite Et1, (proj1 (same_owned_resources a t (with_next t (next t1)) ltac:(done))).
  - intros a Ha. cbn [tasks sti with_iflag with_zombies s3 with_tasks].
    assert (a ∉ l) by (intros Hx; by apply (Hdis a Hx)).
    rewrite lookup_insert_ne by (intros <-; by apply (init_in_dom _ _ _ Hi)).
    rewrite Ho2 by (intros [? _]%Hps; done). by apply Ho1.
Qed.

Lemma emergency_clean s l :
  sched_inv s l [] -> (length l <= 257)%nat ->
  exists s', emergency_terminate_all s = Ret s' /\ sched_inv s' [INIT_TASK] [].
Proof.
  intros Hinv Hl. destruct (emergency_ok s l [] Hinv Hl) as (s' & E & Hi & Hc & Hz & _ & (t & Ht & Hst) & _).
  exists s'. split; [done |]. split; [done | by rewrite Hz | right; left; rewrite Hc; set_solver |].
  exists t. split; [done |]. unfold runnable. by rewrite Hst.
Qed.

(** [emergency_terminate_all] with at most 256 tasks besides init leaves just init in the
    ring, running, and frees what the tasks of the ring owned; but it forgets the tasks
    that had ended and were waiting for clean-up: the zombie list is emptied and their
    structures are never freed. *)
Theorem emergency_terminate_all_spec s l zs :
  sched_inv s l zs -> (length l <= 257)%nat ->
  exists s', emergency_terminate_all s = Ret s' /\ ring (tasks s') [INIT_TASK] /\ current s' = INIT_TASK /\
    zombie_list s' = NULL /\ (exists t, tasks s' !! INIT_TASK = Some t /\ state t = TASK_RUNNING) /\
    (forall a t q, a ∈ l -> a <> INIT_TASK -> tasks s !! a = Some t -> q ∈ resources a t -> ~ tm_live (tmem s') q) /\
    (forall a, a ∈ zs -> tasks s' !! a = tasks s !! a /\ tm_live (tmem s') a).
Proof.
  intros Hinv Hl. destruct (emergency_ok s l zs Hinv Hl) as (s' & E & Hi & Hc & Hz & _ & Ht & Hf & Hk).
  exists s'. split_and!; try done; [apply Hi |]. intros a Ha. split; [by apply Hk |].
  destruct (proj2 (ci_dom _ _ _ Hi a) ltac:(set_solver)) as [t Hta].
  apply (owned_live s' [INIT_TASK] zs Hi a t a Hta); [| apply elem_of_resources; by left].
  intros ->. by apply (init_in_dom _ _ _ (sv_core _ _ _ Hinv)).
Qed.

(** * Every interleaving *)

(** What can happen to the scheduler: an interrupt, or a call of one of its functions. *)
Inductive event :=
| EvRequest
| EvTick (rg : Z)
| EvCreate (entry ssz : Z) (nm : option Z)
| EvUcreate (entry ssz um usz argc argv : Z) (nm : option Z)
| EvExit (code : Z)
| EvStop (p : Z)
| EvAlive (p : Z)
| EvList (len : Z -> Z) (max : Z)
| EvReap
| EvKill
| EvEmergency.

Definition perform s (e : event) : outcome (ending * sched M) :=
  (match e with
   | EvRequest => Ret (Returned 0, with_resched s true)
   | EvTick rg => do '(r, s) <- schedule_from_isr s rg; Ret (Returned r, s)
   | EvCreate entry ssz nm => task_create s entry ssz nm
   | EvUcreate entry ssz um usz argc argv nm => utask_create s entry ssz um usz argc argv nm
   | EvExit code => task_exit s code
   | EvStop p => task_stop s p
   | EvAlive p => do '(r, s) <- task_is_alive s p; Ret (Returned r, s)
   | EvList len max => do '(l, s) <- task_list s len max; Ret (Returned (Z.of_nat (length l)), s)
   | EvReap => do s <- reap_zombies s; Ret (Returned 0, s)
   | EvKill => do s <- kill_all_tasks s; Ret (Returned 0, s)
   | EvEmergency => do s <- emergency_terminate_all s; Ret (Returned 0, s)
   end)%out.

(** The tasks that wait for clean-up after [e]. *)
Definition ended_after s (zs : list Z) (e : event) (r : ending) : list Z :=
  match r, e with
  | Halted, _ => [current s]
  | _, (EvExit _ | EvStop _ | EvReap | EvKill | EvEmergency) => []
  | _, EvAlive p => if p <=? 0 then zs else []
  | _, _ => zs
  end.

(** What the callers have to respect: entry points, names and stack sizes in range, memory
    for a user task that is allocated and nobody's, process ids left, no clean-up by a
    task that has itself ended (it halts), no stop of process id 0, and an emergency stop
    only with nothing to clean up and at most 256 tasks. *)
Definition allowed s (zs : list Z) (e : event) : Prop :=
  match e with
  | EvRequest | EvKill => True
  | EvTick rg => rg <> NULL
  | EvCreate entry ssz nm =>
      fits 64 entry /\ stack_size_ok ssz /\ name_ok nm /\ next_pid s + 1 < 2 ^ 31
  | EvUcreate entry ssz um usz argc argv nm =>
      fits 64 entry /\ fits 64 argv /\ stack_size_ok ssz /\ name_ok nm /\ next_pid s + 1 < 2 ^ 31 /\
      tm_live (tmem s) um /\ (forall a u, tasks s !! a = Some u -> a <> INIT_TASK -> um ∉ resources a u)
  | EvExit _ | EvReap | EvAlive _ => current s ∉ zs
  | EvStop p => p <> 0 /\ current s ∉ zs
  | EvList len _ => forall a, 0 <= len a < 2 ^ 61
  | EvEmergency => zs = [] /\ (size (tasks s) <= 257)%nat
  end.

(** One interrupt or one call that comes to an end, with the tasks that have ended since
    the last clean-up. *)
Inductive sched_step : sched M * list Z -> sched M * list Z -> Prop :=
| sched_event s zs e r s' :
    allowed s zs e -> perform s e = Ret (r, s') -> sched_step (s, zs) (s', ended_after s zs e r).

Definition run_ok (st : sched M * list Z) : Prop := exists l, sched_inv st.1 l st.2.

(** The queries. *)
Lemma is_alive_ok s l zs (p : Z) :
  sched_inv s l zs -> current s ∉ zs ->
  exists r s', task_is_alive s p = Ret (r, s') /\ sched_inv s' l (if p <=? 0 then zs else []).
Proof.
  intros Hinv Hc. unfold task_is_alive. destruct (Z.ltb_spec p 0) as [Hp |].
  { exists 0, s. by replace (p <=? 0) with true by lia. }
  destruct (Z.eqb_spec p 0) as [-> | Hp]; [by exists 1, s |]. replace (p <=? 0) with false by lia.
  destruct (reap_ok s l zs Hinv Hc) as (s1 & E & Hi & _). rewrite E. cbn [obind].
  assert (Hi1 : sched_inv (cli s1) l []) by (by apply (sched_inv_globals s1)).
  assert (Hi2 : sched_inv (sti (cli s1)) l []) by (by apply (sched_inv_globals s1)).
  destruct (find_pid_ring (cli s1) l [] p (sv_core _ _ _ Hi1)) as (tl & a & Htl & Htn & Ef & Ha).
  replace (task_ring (cli s1) =? NULL) with false by lia. unfold tk at 1. rewrite Htl. cbn [of_option obind].
  rewrite Ef. cbn [obind]. destruct (Z.eqb_spec a NULL) as [_ | Hn]; [by eexists _, _ |].
  destruct Ha as [[? _] | [_ (t & Ht & _)]]; [done |]. unfold tk. rewrite Ht. by eexists _, _.
Qed.

Lemma list_from_ok (r : list Z) (fuel : nat) s l zs (len : Z -> Z) (h max : Z) (acc : list task_info) :
  sched_inv s l zs -> r <> [] -> chain (tasks s) r h -> h ∉ tail r -> (length r <= fuel)%nat ->
  (forall a, 0 <= len a < 2 ^ 61) ->
  match list_from fuel s len (hd_or NULL r) h max acc with
  | Ret (_, s') => sched_inv s' l zs
  | Panic => malloc_panics
  | Crash => malloc_crashes
  end.
Proof.
  revert fuel s acc. induction r as [|a r IH]; intros [|fuel] s acc Hinv Hne Hc Hh Hf Hlen;
    cbn [length] in Hf; try done; try lia.
  cbn [hd_or list_from]. destruct (_ <=? _); [done |].
  destruct Hc as [(t & Ht & Hn) Hc]. unfold tk. rewrite Ht. cbn [of_option obind].
  set (nm := if name t =? NULL then None else Some (len (name t))).
  pose proof (ci_mem _ _ _ (sv_core _ _ _ Hinv)) as Hm.
  assert (Hnm : name_ok nm) by (intros n; unfold nm; destruct (name t =? NULL); [done |]; by intros [= <-]).
  destruct (strdup s nm) as [[np s1] | |] eqn:E; cbn [obind]; [| by apply strdup_fails in E..].
  destruct (strdup_ok s nm np s1 Hm Hnm E) as (m & -> & Hm1 & Hl).
  assert (Hi1 : sched_inv (with_tmem s m) l zs).
  { pose proof (ci_next_pid _ _ _ (sv_core _ _ _ Hinv)). apply (sched_inv_grow s); try done; [cbn; lia |].
    intros q Hq. destruct Hl as [[_ Hl] | (_ & _ & Hl)]; apply Hl; auto. }
  rewrite Hn. cbn [tail] in Hh. destruct r as [|b r]; cbn [hd_or].
  - by rewrite Z.eqb_refl.
  - replace (b =? h) with false by (symmetry; apply Z.eqb_neq; set_solver).
    apply IH; try done; [cbn [tail]; set_solver | lia].
Qed.

Lemma task_list_ok s l zs (len : Z -> Z) (max : Z) :
  sched_inv s l zs -> (forall a, 0 <= len a < 2 ^ 61) ->
  match task_list s len max with
  | Ret (_, s') => sched_inv s' l zs
  | Panic => malloc_panics
  | Crash => malloc_crashes
  end.
Proof.
  intros Hinv Hlen. assert (Hi : sched_inv (cli s) l zs) by (by apply (sched_inv_globals s)).
  pose proof (ci_nodup _ _ _ (sv_core _ _ _ Hi)) as (Hnd & _)%NoDup_app.
  destruct (ci_ring _ _ _ (sv_core _ _ _ Hi)) as [Hne Hch].
  destruct (ring_ends _ _ _ (ci_ring _ _ _ (sv_core _ _ _ Hi)) Hnd (ci_tail _ _ _ (sv_core _ _ _ Hi))) as (tl & Htl & Hnx & Hhd & _).
  unfold task_list. destruct (task_ring (cli s) =? NULL); [by apply (sched_inv_globals s) |].
  unfold tk. rewrite Htl. cbn [of_option obind]. rewrite Hnx.
  pose proof (list_from_ok l (fuel_of (cli s)) (cli s) l zs len (hd_or NULL l) max [] Hi Hne Hch Hhd
    (length_tasks (cli s) l _ Hnd Hch) Hlen) as Hk.
  destruct (list_from _ _ _ _ _ _ _) as [[k s'] | |]; cbn [obind]; [| done..]. by apply (sched_inv_globals s').
Qed.

Lemma tick_ok s l zs (rg r : Z) s' :
  sched_inv s l zs -> rg <> NULL -> schedule_from_isr s rg = Ret (r, s') -> sched_inv s' l zs.
Proof.
  intros Hinv Hrg E. destruct (decide (current s = NULL)) as [Hc | Hc].
  - destruct (first_tick s l zs rg Hinv Hrg Hc) as (s2 & E2 & Hi & _). congruence.
  - destruct (schedule_ok s l zs rg Hinv Hrg Hc) as (r2 & s2 & E2 & Hi & _). congruence.
Qed.

(** Every allowed event ends, except where the memory manager itself fails, and keeps the
    invariant. *)
Lemma perform_ok s l zs (e : event) :
  sched_inv s l zs -> allowed s zs e ->
  match perform s e with
  | Ret (r, s') => exists l', sched_inv s' l' (ended_after s zs e r)
  | Panic => True
  | Crash => malloc_crashes \/ create_user_crashes
  end.
Proof.
  intros Hinv Ha. destruct e; cbn [perform allowed] in *.
  - exists l. by apply (sched_inv_globals s).
  - destruct (decide (current s = NULL)) as [Hc | Hc].
    + destruct (first_tick s l zs rg Hinv Ha Hc) as (s2 & -> & Hi & _). by exists l.
    + destruct (schedule_ok s l zs rg Hinv Ha Hc) as (r2 & s2 & -> & Hi & _). by exists l.
  - destruct Ha as (Hf & Hsz & Hnm & Hp). destruct (Z.eqb_spec entry NULL) as [-> | He]; [done |].
    destruct (create_lock s) eqn:Hl.
    { unfold task_create. replace (entry =? NULL) with false by lia. rewrite Hl. by exists l. }
    pose proof (task_create_ok s l zs entry ssz nm Hinv Hl He Hf Hsz Hnm Hp) as Hk.
    destruct (task_create s entry ssz nm) as [[[v | |] s'] | |]; try done; [| by left].
    destruct Hk as (t & k & Hi & _). by exists (l ++ [t]).
  - destruct Ha as (Hf & Hv & Hsz & Hnm & Hp & Hum & Hown).
    destruct (utask_lock s) eqn:Hl; [unfold utask_create; rewrite Hl; by exists l |].
    destruct (Z.eqb_spec entry NULL) as [-> | He]; [unfold utask_create; by rewrite Hl |].
    destruct (Z.eqb_spec usz 0) as [-> | Hu].
    { unfold utask_create. rewrite Hl, Z.eqb_refl, orb_true_r. by destruct (entry =? NULL). }
    pose proof (utask_create_ok s l zs entry ssz um usz argc argv nm Hinv Hl He Hf Hv Hsz Hu Hnm Hp Hum Hown) as Hk.
    destruct (utask_create s entry ssz um usz argc argv nm) as [[[v | |] s'] | |]; try done.
    destruct Hk as [[(_ & Hi & _) | (t & k & _ & Hi & _)] _]; by eexists.
  - destruct (task_exit_ok s l zs code Hinv Ha) as (e' & s2 & -> & _ & _ & Hm).
    destruct e'; [exists l | eexists | done]; apply Hm.
  - destruct Ha as [Hp Hc]. destruct (task_stop_ok s l zs p Hinv Hc Hp) as (e' & s2 & -> & _ & Hm).
    destruct Hm as [(-> & Hi & _) | (a & t & _ & _ & _ & [(-> & -> & Hi) | (-> & _ & Hi & _)])]; by eexists.
  - destruct (is_alive_ok s l zs p Hinv Ha) as (r & s' & -> & Hi). by exists l.
  - pose proof (task_list_ok s l zs len max Hinv Ha) as Hk.
    destruct (task_list s len max) as [[k s'] | |]; cbn [obind]; [by exists l | done | by left].
  - destruct (reap_ok s l zs Hinv Ha) as (s2 & -> & Hi & _). by exists l.
  - destruct (kill_all_tasks_ok s l zs Hinv) as (s2 & -> & Hi & _). by exists [INIT_TASK].
  - destruct Ha as [-> Hsz]. destruct (emergency_clean s l Hinv) as (s2 & -> & Hi); [| by exists [INIT_TASK]].
    etransitivity; [| exact Hsz]. rewrite <- size_dom, <- (size_list_to_set (C := gset Z) l).
    + apply subseteq_size. intros a Ha. apply elem_of_list_to_set in Ha.
      apply elem_of_dom, (ci_dom _ _ _ (sv_core _ _ _ Hinv)). by apply elem_of_app; left.
    + by pose proof (ci_nodup _ _ _ (sv_core _ _ _ Hinv)) as (? & _)%NoDup_app.
Qed.

Lemma sched_step_ok st st' : sched_step st st' -> run_ok st -> run_ok st'.
Proof.
  intros [s zs e r s' Ha E] [l Hinv]. pose proof (perform_ok s l zs e Hinv Ha) as Hk. by rewrite E in Hk.
Qed.

(** C1: from [scheduler_init] on, along every interleaving of timer interrupts, reschedule
    requests and calls of [task_create], [utask_create], [task_exit], [task_stop],
    [task_is_alive], [task_list], [reap_zombies], [kill_all_tasks] and
    [emergency_terminate_all], the ring and the zombie list stay well-formed, disjoint and
    complete, process ids stay unique, and no task shares memory with another; so the
    next interrupt returns normally to a RUNNING task, and no call crashes unless the
    memory manager does.  The callers respect [allowed]: in particular nobody stops
    process id 0 (which takes init out of the ring, [task_stop_removes_init]), stacks are
    0 (the default) or at least 192 bytes, and the emergency stop finds at most 256 tasks
    and no ended one (the others it forgets, [emergency_terminate_all_spec]). *)
Theorem sched_reachable_inv s0 (tss_addr stack_end : Z) s1 s zs :
  tasks s0 = ∅ -> zombie_list s0 = NULL -> tm_inv (tmem s0) ->
  scheduler_init s0 tss_addr stack_end = Ret s1 -> rtc sched_step (s1, []) (s, zs) ->
  (exists l, sched_inv s l zs) /\
  (forall rg, rg <> NULL -> exists r s' t, schedule_from_isr s rg = Ret (r, s') /\
    tasks s' !! current s' = Some t /\ state t = TASK_RUNNING) /\
  forall e, allowed s zs e -> perform s e = Crash -> malloc_crashes \/ create_user_crashes.
Proof.
  intros Ht Hz Hm E Hrun.
  assert (Hok : run_ok (s, zs)).
  { assert (Hok1 : run_ok (s1, [])) by (exists [INIT_TASK]; by eapply (boot_inv s0)).
    clear E. remember (s1, @nil Z) as st eqn:Es. clear Es.
    induction Hrun; [done |]. eauto using sched_step_ok. }
  destruct Hok as [l Hinv]. cbn [fst snd] in Hinv. split; [by exists l |]. split.
  - intros rg Hrg. destruct (decide (current s = NULL)) as [Hc | Hc].
    + destruct (first_tick s l zs rg Hinv Hrg Hc) as (s2 & E2 & _ & Hcur & _ & _ & t & Ht2 & Hst & _).
      exists rg, s2, t. by rewrite Hcur.
    + destruct (schedule_ok s l zs rg Hinv Hrg Hc) as (r2 & s2 & E2 & _ & _ & _ & (t & Ht2 & Hst & _) & _).
      by exists r2, s2, t.
  - intros e Ha Ee. pose proof (perform_ok s l zs e Hinv Ha) as Hk. by rewrite Ee in Hk.
Qed.

(** * Where the code does not do what it means to *)

(** [task_stop 0] from another task takes init out of the ring: the empty check for
    process id 0 does not stop it. *)
Theorem task_stop_removes_init s l zs :
  sched_inv s l zs -> current s ∈ l -> current s <> INIT_TASK ->
  exists s', task_stop s 0 = Ret (Returned 0, s') /\ ring (tasks s') (diff l [INIT_TASK]) /\
    last (diff l [INIT_TASK]) = Some (task_ring s') /\ INIT_TASK ∉ diff l [INIT_TASK].
Proof.
  intros Hinv Hcl Hci. pose proof (ci_nodup _ _ _ (sv_core _ _ _ Hinv)) as (Hnd & Hdis & _)%NoDup_app.
  destruct (reap_ok s l zs Hinv (Hdis _ Hcl)) as (s1 & E & Hi & _ & Hcur & _).
  assert (Hi1 : sched_inv (cli s1) l []) by (by apply (sched_inv_globals s1)).
  pose proof (sv_core _ _ _ Hi1) as Hc1.
  destruct (find_pid_ring (cli s1) l [] 0 Hc1) as (tl & a & Htl & Htn & Ef & Ha).
  assert (a = INIT_TASK) as ->.
  { destruct Ha as [[-> Ha] | [Ha (t & Ht & Hpid)]].
    - destruct (sv_init _ _ _ Hi1) as (t & Ht & _). exfalso.
      apply (Ha INIT_TASK t (ci_init _ _ _ Hc1) Ht). by apply (ci_pid _ _ _ Hc1 INIT_TASK t Ht).
    - by apply (ci_pid _ _ _ Hc1 a t Ht). }
  unfold task_stop. rewrite E. cbn [obind]. cbn [task_ring cli with_iflag] in *.
  replace (task_ring s1 =? NULL) with false by lia. unfold tk at 1. rewrite Htl. cbn [of_option obind].
  rewrite Ef. cbn [obind current cli with_iflag]. replace (INIT_TASK =? NULL) with false by done.
  replace (INIT_TASK =? current s1) with false by lia.
  pose proof (ci_init _ _ _ Hc1) as Hin. apply list_elem_of_split in Hin as (l1 & l2 & ->).
  rewrite diff_middle by done.
  assert (Hother : l1 ++ l2 <> []).
  { intros En. apply app_nil in En as [-> ->]. cbn in Hcl. by apply list_elem_of_singleton in Hcl. }
  destruct (unlink_spec (cli s1) l1 l2 INIT_TASK (ci_ring _ _ _ Hc1) Hnd Hother (ci_tail _ _ _ Hc1)
              (core_inv_null_notin _ _ _ Hc1)) as (ts' & tl' & E2 & Hr & Hl & _).
  rewrite E2. cbn [obind]. eexists. split; [reflexivity |]. split_and!; [done | done |].
  apply NoDup_app in Hnd as (_ & Hd & [Hn _]%NoDup_cons). intros [Hx | Hx]%elem_of_app; [| done].
  apply (Hd INIT_TASK Hx). set_solver.
Qed.

(** Without a pending reschedule the interrupt marks the current task RUNNING even
    when it has ended or is blocked. *)
Theorem tick_revives s l zs (rg : Z) (t : task) :
  sched_inv s l zs -> rg <> NULL -> tasks s !! current s = Some t -> need_reschedule s = false ->
  state t = TASK_ZOMBIE \/ state t = TASK_BLOCKED ->
  exists r s' t', schedule_from_isr s rg = Ret (r, s') /\ current s' = current s /\
    tasks s' !! current s = Some t' /\ state t' = TASK_RUNNING.
Proof.
  intros Hinv Hrg Ht Hn _. assert (Hc : current s <> NULL).
  { apply (core_inv_null _ _ _ _ (sv_core _ _ _ Hinv)), (ci_dom _ _ _ (sv_core _ _ _ Hinv)). by exists t. }
  destruct (schedule_ok s l zs rg Hinv Hrg Hc) as (r & s' & E & _ & Hcur & _ & (t' & Ht' & Hst & _) & _).
  unfold switch_to in Hcur. rewrite Hn in Hcur. exists r, s', t'. by rewrite Hcur in *.
Qed.
End run.
