(* ===== verification/SchedDemo.v ===== *)
(** A concrete kernel for the scheduler: the heap of Heap.v over 64 KiB at 2 MiB, the
    machine of PagingSpec.v, and the states after boot, after the first timer interrupt,
    with a second task, and with that task running.  The properties of SchedSpec.v and
    SchedRun.v are applied to them. *)

From S2P Require Import Prelude LibMem Pmm PmmSpec PageAlloc Paging PagingSpec Heap HeapRep HeapSpec SchedMem.
From S2P Require Import Tss Sched SchedInv SchedSpec SchedRun.

Lemma sched_inv_resched {M} `{TaskMem M} (s : sched M) (l zs : list Z) (b : bool) :
  sched_inv s l zs -> sched_inv (with_resched s b) l zs.
Proof. by apply sched_inv_globals. Qed.

Definition demo_kheap : heap machine :=
  (malloc_init (mk_heap (fun _ => 0) 0 0 0 0 0 demo_machine) 0x200000 65536).2.

Lemma demo_kheap_inv : tm_inv demo_kheap.
Proof.
  split; [exists [mk_blk 0x200000 (65536 - HDR) true]; split; done |]. split; [apply demo_machine_wf | done].
Qed.

Definition demo_off : sched (heap machine) :=
  mk_sched ∅ 0 0 0 0 false 0 0 0 false false false (fun _ => 0) demo_kheap.

Definition demo_boot : sched (heap machine) :=
  match scheduler_init demo_off 0x300000 0x400000 with Ret s => s | _ => demo_off end.

Definition demo_first : sched (heap machine) :=
  match schedule_from_isr demo_boot 0x5000 with Ret (_, s) => s | _ => demo_boot end.

Definition demo_two : sched (heap machine) :=
  match task_create demo_first 0x1000 0 (Some 3) with Ret (_, s) => s | _ => demo_first end.

Definition demo_task : Z := 0x200028.

Definition demo_switched : sched (heap machine) :=
  match schedule_from_isr (with_resched demo_two true) 0x6000 with Ret (_, s) => s | _ => demo_two end.

Definition demo_exited : sched (heap machine) :=
  match task_exit demo_switched 7 with Ret (_, s) => s | _ => demo_switched end.

Lemma demo_boot_inv : sched_inv demo_boot [INIT_TASK] [].
Proof.
  assert (E : scheduler_init demo_off 0x300000 0x400000 = Ret demo_boot) by reflexivity.
  eapply boot_inv; [| | | exact E]; [done | done | apply demo_kheap_inv].
Qed.

Lemma demo_first_inv : sched_inv demo_first [INIT_TASK] [].
Proof.
  assert (E : schedule_from_isr demo_boot 0x5000 = Ret (0x5000, demo_first)) by reflexivity.
  eapply tick_ok; [apply demo_boot_inv | | exact E]. done.
Qed.

Lemma demo_two_created : exists v, task_create demo_first 0x1000 0 (Some 3) = Ret (Returned v, demo_two).
Proof.
  unfold demo_two.
  assert (Hok : match task_create demo_first 0x1000 0 (Some 3) with Ret (Returned _, _) => true | _ => false end = true)
    by (vm_compute; reflexivity).
  destruct (task_create demo_first 0x1000 0 (Some 3)) as [[[v | |] s] | |]; [| done..]. by exists v.
Qed.

Lemma demo_name_len : name_ok (Some 3).
Proof. intros n [= <-]. lia. Qed.

Lemma demo_stack_size : stack_size_ok 0.
Proof. by left. Qed.

Lemma demo_two_inv : sched_inv demo_two [INIT_TASK; demo_task] [].
Proof.
  pose proof (task_create_ok demo_first _ _ 0x1000 0 (Some 3) demo_first_inv eq_refl ltac:(done)
    ltac:(split; lia) demo_stack_size demo_name_len ltac:(vm_compute; reflexivity)) as Hk.
  destruct demo_two_created as [v E]. rewrite E in Hk. destruct Hk as (t & k & Hi & _).
  assert (Et : task_ring demo_two = demo_task) by (vm_compute; reflexivity).
  pose proof (ci_tail _ _ _ (sv_core _ _ _ Hi)) as Hl. rewrite Et in Hl.
  change (Some t = Some demo_task) in Hl. injection Hl as ->. exact Hi.
Qed.

Lemma demo_two_lookup (a : Z) : a ∈ [INIT_TASK; demo_task] -> exists t, tasks demo_two !! a = Some t /\ runnable t = true.
Proof.
  intros Ha. destruct (proj2 (ci_dom _ _ _ (sv_core _ _ _ demo_two_inv) a)) as [t Ht]; [by rewrite app_nil_r |].
  exists t. split; [done |].
  assert (H1 : match tasks demo_two !! INIT_TASK with Some t => runnable t | None => false end = true)
    by (vm_compute; reflexivity).
  assert (H2 : match tasks demo_two !! demo_task with Some t => runnable t | None => false end = true)
    by (vm_compute; reflexivity).
  apply elem_of_cons in Ha as [-> | ->%list_elem_of_singleton]; by rewrite Ht in *.
Qed.

Lemma demo_switched_eq : exists r, schedule_from_isr (with_resched demo_two true) 0x6000 = Ret (r, demo_switched).
Proof.
  unfold demo_switched.
  assert (Hok : match schedule_from_isr (with_resched demo_two true) 0x6000 with Ret _ => true | _ => false end = true)
    by (vm_compute; reflexivity).
  destruct (schedule_from_isr (with_resched demo_two true) 0x6000) as [[r s] | |]; [| done..]. by exists r.
Qed.

Lemma demo_switched_inv : sched_inv demo_switched [INIT_TASK; demo_task] [] /\ current demo_switched = demo_task.
Proof.
  destruct demo_switched_eq as [r E]. split; [| vm_compute; reflexivity].
  eapply tick_ok; [| | exact E]; [| done]. apply sched_inv_resched, demo_two_inv.
Qed.

Lemma demo_switched_current : current demo_switched = demo_task.
Proof. vm_compute. reflexivity. Qed.

Lemma demo_exited_eq : task_exit demo_switched 7 = Ret (Halted, demo_exited).
Proof.
  unfold demo_exited.
  assert (Hok : match task_exit demo_switched 7 with Ret (Halted, _) => true | _ => false end = true)
    by (vm_compute; reflexivity).
  by destruct (task_exit demo_switched 7) as [[[] s] | |].
Qed.

(** The second task ends, and the next interrupt goes back to init. *)
Lemma demo_exited_inv :
  sched_inv demo_exited [INIT_TASK] [demo_task] /\ current demo_exited = demo_task /\
  exists t, tasks demo_exited !! demo_task = Some t /\ state t = TASK_ZOMBIE.
Proof.
  destruct demo_switched_inv as [Hi Hc].
  destruct (task_exit_ok demo_switched _ _ 7 Hi ltac:(apply not_elem_of_nil)) as (e & s' & E & Hcur & _ & He).
  assert (Ee : match task_exit demo_switched 7 with Ret (Halted, _) => true | _ => false end = true)
    by (vm_compute; reflexivity).
  rewrite E in Ee. destruct e; [done | | done]. rewrite Hc in *.
  assert (demo_exited = s') as -> by (unfold demo_exited; by rewrite E).
  destruct He as (_ & Hi2 & t & Ht & Hst & _). split; [exact Hi2 |]. split; [exact Hcur |].
  exists t. split; [exact Ht | exact Hst].
Qed.

Definition demo_back : sched (heap machine) :=
  match schedule_from_isr (with_resched demo_exited true) 0x7000 with Ret (_, s) => s | _ => demo_exited end.

Lemma demo_back_inv : sched_inv demo_back [INIT_TASK] [demo_task] /\ current demo_back = INIT_TASK.
Proof.
  split; [| vm_compute; reflexivity].
  assert (E : exists r, schedule_from_isr (with_resched demo_exited true) 0x7000 = Ret (r, demo_back)).
  { unfold demo_back.
    assert (Hok : match schedule_from_isr (with_resched demo_exited true) 0x7000 with Ret _ => true | _ => false end = true)
      by (vm_compute; reflexivity).
    destruct (schedule_from_isr (with_resched demo_exited true) 0x7000) as [[r s] | |]; [| done..]. by exists r. }
  destruct E as [r E]. eapply tick_ok; [| | exact E]; [| done]. apply sched_inv_resched, demo_exited_inv.
Qed.

Lemma demo_current_out (s : sched (heap machine)) : current s ∉ [].
Proof. apply not_elem_of_nil. Qed.

(** * Witnesses *)

Lemma scheduler_init_spec_witness :
  exists s', scheduler_init demo_off 0x300000 0x400000 = Ret s' /\ sched_inv s' [INIT_TASK] [].
Proof.
  destruct (scheduler_init_spec demo_off 0x300000 0x400000) as (s' & t & E & Hi & _);
    [reflexivity | reflexivity | apply demo_kheap_inv | discriminate | discriminate |].
  exists s'. split; [exact E | exact Hi].
Defined.

Lemma pick_next_spec_witness : exists n, pick_next demo_two = Ret n /\ n = demo_task.
Proof.
  destruct (pick_next_spec demo_two _ _ demo_two_inv) as (n & l1 & l2 & t & E & _).
  exists n. split; [exact E |].
  assert (En : match pick_next demo_two with Ret n => n | _ => 0 end = demo_task) by (vm_compute; reflexivity).
  rewrite E in En. exact En.
Defined.

Lemma schedule_from_isr_spec_witness :
  exists r s', schedule_from_isr (with_resched demo_two true) 0x6000 = Ret (r, s') /\ current s' = demo_task /\
    exists t, tasks s' !! INIT_TASK = Some t /\ regs t = 0x6000.
Proof.
  assert (Hi : sched_inv (with_resched demo_two true) [INIT_TASK; demo_task] [])
    by (apply sched_inv_resched, demo_two_inv).
  destruct (schedule_from_isr_spec (with_resched demo_two true) _ _ 0x6000 Hi ltac:(discriminate))
    as (r & s' & E & _ & _ & Hc & _ & Hs).
  exists r, s'. split; [exact E |]. split.
  - rewrite Hc. vm_compute. reflexivity.
  - assert (Ec : current (with_resched demo_two true) = INIT_TASK) by (vm_compute; reflexivity).
    rewrite Ec in Hs. apply Hs. discriminate.
Defined.

Lemma round_robin_fair_witness :
  exists j s', (j <= 2)%nat /\ ticks demo_two (take j [0x6000; 0x7000]) = Ret s' /\ current s' = demo_task.
Proof.
  assert (Hin : forall a, a = INIT_TASK \/ a = demo_task -> a ∈ [INIT_TASK; demo_task])
    by (intros a [-> | ->]; repeat constructor).
  destruct (demo_two_lookup demo_task (Hin _ (or_intror eq_refl))) as (t & Ht & Hr).
  assert (Hc : current demo_two ∈ [INIT_TASK; demo_task]) by (apply Hin; left; vm_compute; reflexivity).
  destruct (round_robin_fair demo_two [INIT_TASK; demo_task] [] demo_task t [0x6000; 0x7000] demo_two_inv Hc
              (Hin _ (or_intror eq_refl)) Ht Hr) as (j & s' & Hj & E & Hcur & _).
  - repeat constructor; discriminate.
  - reflexivity.
  - exists j, s'. split; [exact Hj |]. split; [exact E | exact Hcur].
Defined.

Lemma reap_zombies_spec_witness :
  exists s', reap_zombies demo_back = Ret s' /\ sched_inv s' [INIT_TASK] [] /\ ~ tm_live (tmem s') demo_task.
Proof.
  destruct demo_back_inv as [Hi Hc].
  destruct (reap_zombies_spec demo_back _ _ Hi) as (s' & E & Hi' & _ & _ & _ & Hfree).
  - rewrite Hc. intros Hin. apply list_elem_of_singleton in Hin. discriminate Hin.
  - exists s'. split; [exact E |]. split; [exact Hi' |].
    destruct (proj2 (ci_dom _ _ _ (sv_core _ _ _ Hi) demo_task)) as [t Ht]; [apply elem_of_app; right; constructor |].
    eapply Hfree; [| exact Ht |]; [constructor |]. apply elem_of_resources. left. reflexivity.
Defined.

Lemma task_exit_spec_witness :
  exists s' t, task_exit demo_switched 7 = Ret (Halted, s') /\
    tasks s' !! demo_task = Some t /\ state t = TASK_ZOMBIE /\ exit_code t = 7.
Proof.
  destruct demo_switched_inv as [Hi Hc].
  destruct (task_exit_spec demo_switched _ _ 7 Hi (demo_current_out _)) as (e & s' & E & _ & _ & He).
  assert (Ee : match task_exit demo_switched 7 with Ret (Halted, _) => true | _ => false end = true)
    by (vm_compute; reflexivity).
  rewrite E in Ee. destruct e; [discriminate Ee | | discriminate Ee].
  destruct He as (_ & _ & t & Ht & Hst & Hex). rewrite Hc in Ht. exists s', t.
  split; [exact E |]. split; [exact Ht |]. split; [exact Hst | exact Hex].
Defined.


Lemma task_create_spec_witness :
  exists t k s', task_create demo_first 0x1000 0 (Some 3) = Ret (Returned 0, s') /\
    sched_inv s' [INIT_TASK; t] [] /\ tasks s' !! t = Some k /\ ld64 (stacks s') (regs k + 8 * 17) = 0x1000.
Proof.
  pose proof (task_create_spec demo_first _ _ 0x1000 0 (Some 3) demo_first_inv eq_refl ltac:(discriminate)
    ltac:(split; lia) demo_stack_size demo_name_len ltac:(vm_compute; reflexivity)) as Hk.
  assert (Hok : match task_create demo_first 0x1000 0 (Some 3) with Ret (Returned 0, _) => true | _ => false end = true)
    by (vm_compute; reflexivity).
  destruct (task_create demo_first 0x1000 0 (Some 3)) as [[[v | |] s] | |];
    [| discriminate Hok | discriminate Hok | discriminate Hok | discriminate Hok].
  destruct v; [| discriminate Hok | discriminate Hok].
  destruct Hk as (t & k & Hi & _ & Ht & _ & _ & _ & _ & Hw & _). exists t, k, s.
  split; [reflexivity |]. split; [exact Hi |]. split; [exact Ht | exact Hw].
Defined.

Lemma kill_all_tasks_spec_witness :
  exists s', kill_all_tasks demo_switched = Ret s' /\ sched_inv s' [INIT_TASK] [] /\ current s' = INIT_TASK.
Proof.
  destruct (kill_all_tasks_spec demo_switched _ _ (proj1 demo_switched_inv)) as (s' & E & Hi & Hc & _).
  exists s'. split; [exact E |]. split; [exact Hi | exact Hc].
Defined.

(** Boot, an interrupt, a new task, a switch to it, and its end. *)
Lemma sched_reachable_inv_witness :
  (exists l, sched_inv demo_exited l [demo_task]) /\
  exists r s', schedule_from_isr demo_exited 0x7000 = Ret (r, s').
Proof.
  assert (E : scheduler_init demo_off 0x300000 0x400000 = Ret demo_boot) by reflexivity.
  destruct (sched_reachable_inv demo_off 0x300000 0x400000 demo_boot demo_exited [demo_task]) as [Hl [Ht _]];
    [reflexivity | reflexivity | apply demo_kheap_inv | exact E | |].
  - destruct demo_two_created as [v E2]. destruct demo_switched_eq as [r E3].
    assert (E4 : task_exit demo_switched 7 = Ret (Halted, demo_exited)) by apply demo_exited_eq.
    eapply rtc_l; [apply (sched_event demo_boot [] (EvTick 0x5000) (Returned 0x5000) demo_first); [discriminate | reflexivity] |].
    eapply rtc_l; [apply (sched_event demo_first [] (EvCreate 0x1000 0 (Some 3)) (Returned v) demo_two); [| exact E2] |].
    { split; [split; lia |]. split; [apply demo_stack_size |]. split; [apply demo_name_len | vm_compute; reflexivity]. }
    eapply rtc_l; [apply (sched_event demo_two [] EvRequest (Returned 0) (with_resched demo_two true)); [exact I | reflexivity] |].
    eapply rtc_l; [apply (sched_event (with_resched demo_two true) [] (EvTick 0x6000) (Returned r) demo_switched) |].
    { discriminate. }
    { unfold perform. rewrite E3. reflexivity. }
    apply rtc_once. pose proof (sched_event demo_switched [] (EvExit 7) Halted demo_exited (demo_current_out _) E4) as Hs.
    unfold ended_after in Hs. rewrite demo_switched_current in Hs. exact Hs.
  - split; [exact Hl |]. destruct (Ht 0x7000 ltac:(discriminate)) as (r & s' & t & Es & _). exists r, s'. exact Es.
Defined.

Lemma task_stop_removes_init_witness :
  exists s', task_stop demo_switched 0 = Ret (Returned 0, s') /\ task_ring s' = demo_task.
Proof.
  destruct demo_switched_inv as [Hi Hc].
  destruct (task_stop_removes_init demo_switched _ _ Hi) as (s' & E & _ & Hl & _).
  - rewrite Hc. apply elem_of_cons. right. apply list_elem_of_singleton. reflexivity.
  - rewrite Hc. discriminate.
  - exists s'. split; [exact E |].
    change (diff [INIT_TASK; demo_task] [INIT_TASK]) with [demo_task] in Hl.
    change (Some demo_task = Some (task_ring s')) in Hl. injection Hl as Hl. symmetry. exact Hl.
Defined.

(** A stack of 100 bytes: the frame does not fit. *)
Lemma task_create_small_stack_witness :
  forall e s', task_create demo_first 0x1000 100 None <> Ret (e, s').
Proof.
  intros e s'. apply (task_create_small_stack demo_first [INIT_TASK] []);
    [apply demo_first_inv | reflexivity | discriminate | lia].
Defined.

(** The task that ended is forgotten by the emergency stop. *)
Lemma emergency_terminate_all_spec_witness :
  exists s', emergency_terminate_all demo_back = Ret s' /\ zombie_list s' = NULL /\ tm_live (tmem s') demo_task.
Proof.
  destruct (emergency_terminate_all_spec demo_back _ _ (proj1 demo_back_inv)) as (s' & E & _ & _ & Hz & _ & _ & Hk).
  - apply Nat.leb_le. reflexivity.
  - exists s'. split; [exact E |]. split; [exact Hz |]. apply Hk. apply list_elem_of_singleton. reflexivity.
Defined.

Lemma tick_revives_witness :
  exists r s' t, schedule_from_isr demo_exited 0x8000 = Ret (r, s') /\
    tasks s' !! demo_task = Some t /\ state t = TASK_RUNNING.
Proof.
  destruct demo_exited_inv as (Hi & Hc & t & Ht & Hst). rewrite <- Hc in Ht.
  destruct (tick_revives demo_exited _ _ 0x8000 t Hi ltac:(discriminate) Ht) as (r & s' & t' & E & _ & Ht' & Hr).
  - vm_compute. reflexivity.
  - left. exact Hst.
  - rewrite Hc in Ht'. exists r, s', t'. split; [exact E |]. split; [exact Ht' | exact Hr].
Defined.

(** A block of the kernel heap handed to a user task. *)
Definition demo_user : sched (heap machine) :=
  match tm_malloc (tmem demo_first) 4096 with Ret (_, m) => with_tmem demo_first m | _ => demo_first end.

Definition demo_umem : Z := 0x200028.

Lemma demo_user_inv : sched_inv demo_user [INIT_TASK] [] /\ tm_live (tmem demo_user) demo_umem.
Proof.
  pose proof demo_first_inv as Hi.
  assert (Ep : match tm_malloc (tmem demo_first) 4096 with Ret (p, _) => p | _ => 0 end = demo_umem)
    by (vm_compute; reflexivity).
  unfold demo_user. destruct (tm_malloc (tmem demo_first) 4096) as [[p m] | |] eqn:E; [| done..].
  destruct (tm_malloc_fresh _ 4096 p m (ci_mem _ _ _ (sv_core _ _ _ Hi)) ltac:(lia) E) as (Hm & _ & _ & Hl).
  pose proof (ci_next_pid _ _ _ (sv_core _ _ _ Hi)) as Hnp. split.
  - revert Hi Hm Hl Hnp. generalize demo_first as s. intros s Hi Hm Hl Hnp.
    apply (sched_inv_grow s); try done; [cbn; lia |]. intros q Hq. apply Hl. by right.
  - apply Hl. left. by rewrite <- Ep.
Qed.

Lemma utask_create_spec_witness :
  exists v s', utask_create demo_user 0x400000 0 demo_umem 4096 0 0 None = Ret (Returned v, s') /\
    forall e z m n c p q, utask_create s' e z m n c p q = Ret (Deadlocked, s').
Proof.
  destruct demo_user_inv as [Hi Hl].
  pose proof (utask_create_spec demo_user _ _ 0x400000 0 demo_umem 4096 0 0 None Hi) as Hk.
  assert (Hok : match utask_create demo_user 0x400000 0 demo_umem 4096 0 0 None with
                | Ret (Returned _, _) => true | _ => false end = true) by (vm_compute; reflexivity).
  destruct (utask_create demo_user 0x400000 0 demo_umem 4096 0 0 None) as [[[v | |] s] | |];
    [| discriminate Hok | discriminate Hok | discriminate Hok | discriminate Hok].
  exists v, s. split; [reflexivity |].
  apply Hk; [vm_compute; reflexivity | discriminate | split; lia | split; lia | apply demo_stack_size | discriminate
    | discriminate | vm_compute; reflexivity | exact Hl |].
  intros a u Hu Ha. exfalso. apply Ha.
  assert (Hin : a ∈ [INIT_TASK] ++ []) by (apply (ci_dom _ _ _ (sv_core _ _ _ Hi)); exists u; exact Hu).
  apply list_elem_of_singleton in Hin. exact Hin.
Defined.
