(* ===== verification/NetBuf.v ===== *)
(** Packet buffers, byte order and the device table of src/kernel/net/net.c, and the
    transmit callback of src/drivers/net/rtl8139.c.  A buffer is the bytes of the block
    [head] points to, with the other pointers as offsets into it; an access outside the
    block is [Crash]. *)

From S2P Require Import Prelude Bytes LibMem.

(** * The allocator below

    [ba_malloc s n] is the address of a fresh block and the bytes found there; address 0
    is NULL. *)
Class BlockAlloc (S : Type) := {
  ba_malloc : S -> Z -> outcome (Z * list Z * S);
  ba_free : S -> Z -> outcome S;
  ba_bytes s n p bs s' :
    0 <= n -> ba_malloc s n = Ret (p, bs, s') -> p <> 0 ->
    Z.of_nat (length bs) = n /\ Forall (fits 8) bs
}.

(** * Byte order *)

Definition ntohs (n : Z) : Z := u16 (Z.lor (Z.shiftr n 8) (Z.shiftl n 8)).
Definition htons (n : Z) : Z := u16 (Z.lor (Z.shiftr n 8) (Z.shiftl n 8)).

Definition ntohl (n : Z) : Z :=
  Z.lor (Z.lor (Z.lor (u32 (Z.shiftl (Z.land n 0xFF) 24)) (u32 (Z.shiftl (Z.land n 0xFF00) 8)))
           (Z.shiftr (Z.land n 0xFF0000) 8))
    (Z.shiftr (Z.land n 0xFF000000) 24).
Definition htonl (n : Z) : Z := ntohl n.

(** * Buffers *)

Definition NET_MTU : Z := 1500.
Definition NET_HEADROOM : Z := 64.
Definition SIZEOF_NET_BUF : Z := 72.

Record net_buf := mk_buf {
  nb_self : Z;       (** address of the structure itself *)
  nb_head : Z;       (** address of the block *)
  nb_bytes : list Z; (** its bytes *)
  nb_data : Z;       (** offsets from [head] *)
  nb_tail : Z;
  nb_end : Z;
  nb_len : Z;
  nb_headroom : Z;
  nb_truesize : Z;
  nb_protocol : Z;
  nb_ifindex : Z;
  nb_dev : Z
}.

Definition with_bytes (b : net_buf) (bs : list Z) : net_buf :=
  mk_buf (nb_self b) (nb_head b) bs (nb_data b) (nb_tail b) (nb_end b) (nb_len b)
    (nb_headroom b) (nb_truesize b) (nb_protocol b) (nb_ifindex b) (nb_dev b).

Definition with_len (b : net_buf) (n : Z) : net_buf :=
  mk_buf (nb_self b) (nb_head b) (nb_bytes b) (nb_data b) (nb_tail b) (nb_end b) n
    (nb_headroom b) (nb_truesize b) (nb_protocol b) (nb_ifindex b) (nb_dev b).

Definition with_dev (b : net_buf) (d : Z) : net_buf :=
  mk_buf (nb_self b) (nb_head b) (nb_bytes b) (nb_data b) (nb_tail b) (nb_end b) (nb_len b)
    (nb_headroom b) (nb_truesize b) (nb_protocol b) (nb_ifindex b) d.

(** The accesses of the protocol code: [off] is relative to [data]. *)
Definition in_block (b : net_buf) (off n : Z) : bool :=
  (0 <=? nb_data b + off) && (nb_data b + off + n <=? Z.of_nat (length (nb_bytes b))).

Definition buf_write (b : net_buf) (off : Z) (bs : list Z) : outcome net_buf :=
  if in_block b off (Z.of_nat (length bs))
  then Ret (with_bytes b (splice (nb_bytes b) (nb_data b + off) bs)) else Crash.

Definition buf_read (b : net_buf) (off n : Z) : outcome (list Z) :=
  if in_block b off n
  then Ret (take (Z.to_nat n) (drop (Z.to_nat (nb_data b + off)) (nb_bytes b))) else Crash.

(** A field of [n] bytes of a packed header. *)
Definition buf_field (b : net_buf) (off : Z) (n : nat) : outcome Z :=
  (do bs <- buf_read b off (Z.of_nat n); Ret (le_val bs))%out.

Definition buf_set_field (b : net_buf) (off : Z) (n : nat) (v : Z) : outcome net_buf :=
  buf_write b off (le_bytes n v).

Section alloc.
Context {S : Type} `{BlockAlloc S}.

Definition net_alloc_buf (s : S) (size : Z) : outcome (option net_buf * S) :=
  (do '(buf, _, s) <- ba_malloc s SIZEOF_NET_BUF;
   if buf =? 0 then Ret (None, s)
   else
     let total_size := u32 (size + NET_HEADROOM) in
     do '(hd, bs, s) <- ba_malloc s total_size;
     if hd =? 0 then do s <- ba_free s buf; Ret (None, s)
     else Ret (Some (mk_buf buf hd bs NET_HEADROOM NET_HEADROOM total_size 0 NET_HEADROOM total_size 0 0 0), s))%out.

Definition net_free_buf (s : S) (buf : option net_buf) : outcome S :=
  (match buf with
   | None => Ret s
   | Some b =>
       do s <- (if nb_head b =? 0 then Ret s else ba_free s (nb_head b));
       ba_free s (nb_self b)
   end)%out.
End alloc.

Definition net_reserve (b : net_buf) (headroom : Z) : net_buf :=
  if nb_headroom b <? headroom then b
  else mk_buf (nb_self b) (nb_head b) (nb_bytes b) (nb_data b + headroom) (nb_tail b) (nb_end b) (nb_len b)
         (nb_headroom b - headroom) (nb_truesize b) (nb_protocol b) (nb_ifindex b) (nb_dev b).

Definition net_put (b : net_buf) (len : Z) : net_buf :=
  if nb_end b <? nb_tail b + len then b
  else mk_buf (nb_self b) (nb_head b) (nb_bytes b) (nb_data b) (nb_tail b + len) (nb_end b) (u32 (nb_len b + len))
         (nb_headroom b) (nb_truesize b) (nb_protocol b) (nb_ifindex b) (nb_dev b).

Definition net_pull (b : net_buf) (len : Z) : net_buf :=
  if nb_len b <? len then b
  else mk_buf (nb_self b) (nb_head b) (nb_bytes b) (nb_data b + len) (nb_tail b) (nb_end b) (nb_len b - len)
         (nb_headroom b) (nb_truesize b) (nb_protocol b) (nb_ifindex b) (nb_dev b).

(** * Devices *)

Definition RTL_NUM_TX_DESC : Z := 4.
Definition RTL_TX_BUF_SIZE : Z := 1536.

(** [rtl8139_private_t], as far as transmission uses it: [tx_own] is bit 31 of the four
    transmit status registers, which the card owns; [tx_buffers] the four buffers;
    [tx_started] the frames handed to the card. *)
Record rtl8139_private := mk_rtl {
  link_up : bool;
  tx_cur : Z;
  tx_own : list bool;
  tx_buffers : list (list Z);
  tx_started : list (list Z)
}.

Inductive net_device_type :=
| NET_TYPE_NONE | NET_TYPE_ETHERNET | NET_TYPE_WIFI | NET_TYPE_LOOPBACK | NET_TYPE_PPP | NET_TYPE_BRIDGE.

#[export] Instance net_device_type_eq_dec : EqDecision net_device_type.
Proof. solve_decision. Defined.

Record net_device := mk_dev {
  dev_name : list Z;
  dev_index : Z;
  dev_type : net_device_type;
  mac_addr : list Z;
  ip_addr : Z;
  netmask : Z;
  gateway : Z;
  up : bool;
  running : bool;
  dev_priv : option rtl8139_private
}.

Definition with_priv (d : net_device) (p : rtl8139_private) : net_device :=
  mk_dev (dev_name d) (dev_index d) (dev_type d) (mac_addr d) (ip_addr d) (netmask d) (gateway d) (up d) (running d) (Some p).

Definition with_index (d : net_device) (i : Z) : net_device :=
  mk_dev (dev_name d) i (dev_type d) (mac_addr d) (ip_addr d) (netmask d) (gateway d) (up d) (running d) (dev_priv d).

(** [rtl8139_xmit]: -1 without a link or a free descriptor, else the frame is copied to
    the buffer of the current descriptor and started. *)
Definition rtl8139_xmit (b : net_buf) (d : net_device) : outcome (Z * net_device) :=
  (match dev_priv d with
   | None => Ret (-1, d)
   | Some priv =>
       if negb (link_up priv) then Ret (-1, d)
       else
         let tx_idx := tx_cur priv mod RTL_NUM_TX_DESC in
         if default false (tx_own priv !! Z.to_nat tx_idx) then Ret (-1, d)
         else
           let len := if RTL_TX_BUF_SIZE <? nb_len b then RTL_TX_BUF_SIZE else nb_len b in
           do frame <- buf_read b 0 len;
           let old := default [] (tx_buffers priv !! Z.to_nat tx_idx) in
           Ret (0, with_priv d
                  (mk_rtl (link_up priv) (u32 (tx_cur priv + 1)) (tx_own priv)
                     (<[Z.to_nat tx_idx := splice old 0 frame]> (tx_buffers priv))
                     (tx_started priv ++ [frame])))
   end)%out.

(** The device table: the structures by address, and the list in order of registration. *)
Record net_table := mk_table {
  devs : gmap Z net_device;
  net_devices : list Z;
  net_device_count : Z
}.

Definition net_init_table : net_table := mk_table ∅ [] 0.

Definition net_register_device (t : net_table) (dev : Z) : outcome (Z * net_table) :=
  if dev =? 0 then Ret (-1, t)
  else match devs t !! dev with
       | None => Crash
       | Some d => Ret (0, mk_table (<[dev := with_index d (net_device_count t)]> (devs t))
                             (net_devices t ++ [dev]) (u32 (net_device_count t + 1)))
       end.

(** [list_del] of the node; a device is on the list once. *)
Definition net_unregister_device (t : net_table) (dev : Z) : Z * net_table :=
  if dev =? 0 then (-1, t)
  else (0, mk_table (devs t) (filter (fun x => x <> dev) (net_devices t)) (u32 (net_device_count t - 1))).

(** The loops over the list: the first device with a property. *)
Definition find_device (t : net_table) (P : net_device -> bool) : option Z :=
  let fix go (l : list Z) :=
    match l with
    | [] => None
    | a :: l' => match devs t !! a with
                 | Some d => if P d then Some a else go l'
                 | None => go l'
                 end
    end in
  go (net_devices t).

Definition net_get_device (t : net_table) (index : Z) : option Z :=
  find_device t (fun d => dev_index d =? index).
Definition net_get_device_by_name (t : net_table) (name : list Z) : option Z :=
  find_device t (fun d => bool_decide (dev_name d = name)).
Definition net_get_first_device (t : net_table) : option Z := head (net_devices t).
Definition net_get_first_active (t : net_table) : option Z := find_device t (fun d => up d && running d).

(** The loop fills the caller's array and stops when [max] entries are written. *)
Fixpoint by_type_from (t : net_table) (ty : net_device_type) (max count : Z) (l : list Z) : list Z :=
  match l with
  | [] => []
  | a :: l' =>
      match devs t !! a with
      | Some d =>
          if bool_decide (dev_type d = ty)
          then a :: (if max <=? count + 1 then [] else by_type_from t ty max (count + 1) l')
          else by_type_from t ty max count l'
      | None => by_type_from t ty max count l'
      end
  end.

Definition net_get_devices_by_type (t : net_table) (ty : net_device_type) (max : Z) : list Z :=
  if max <=? 0 then [] else by_type_from t ty max 0 (net_devices t).

(** * Lemmas *)

(** Swapping the bytes of a 16-bit number. *)
Lemma ntohs_eq (n : Z) : fits 16 n -> ntohs n = (n mod 256) * 256 + n / 256.
Proof.
  intros [H1 H2]. change (2 ^ 16) with 65536 in H2. unfold ntohs. rewrite lor_high_low.
  - unfold wrap. rewrite Z.shiftr_div_pow2 by lia. change (2 ^ 8) with 256. change (2 ^ 16) with 65536. dlia.
  - lia.
  - rewrite Z.shiftr_div_pow2 by lia. change (2 ^ 8) with 256. split; dlia.
Qed.

Lemma ntohs_fits (n : Z) : fits 16 (ntohs n).
Proof. by apply wrap_fits. Qed.

Lemma ntohs_htons (n : Z) : fits 16 n -> ntohs (htons n) = n.
Proof.
  intros Hn. pose proof (ntohs_eq n Hn) as E. change (htons n) with (ntohs n).
  rewrite (ntohs_eq (ntohs n)) by apply ntohs_fits. rewrite E. destruct Hn. change (2 ^ 16) with 65536 in *. dlia.
Qed.

(** * Accesses in terms of offsets *)

(** The parts of a buffer on which bounds depend; [n] is the size of the block. *)
Definition shape (b : net_buf) (data len headroom n : Z) : Prop :=
  nb_data b = data /\ nb_len b = len /\ nb_headroom b = headroom /\ Z.of_nat (length (nb_bytes b)) = n.

Lemma buf_write_shape (b : net_buf) (d l h n off : Z) (bs : list Z) :
  shape b d l h n -> 0 <= d + off -> d + off + Z.of_nat (length bs) <= n ->
  exists b', buf_write b off bs = Ret b' /\ shape b' d l h n.
Proof.
  intros (<- & <- & <- & <-) H1 H2. unfold buf_write, in_block.
  replace ((0 <=? _) && _) with true by lia. eexists. split; [reflexivity |].
  split; [done |]. split; [done |]. split; [done |]. cbn [with_bytes nb_bytes]. rewrite length_splice by lia. done.
Qed.

Lemma buf_write_crash (b : net_buf) (d l h n off : Z) (bs : list Z) :
  shape b d l h n -> n < d + off + Z.of_nat (length bs) -> buf_write b off bs = Crash.
Proof.
  intros (<- & <- & <- & <-) H. unfold buf_write, in_block. by replace ((0 <=? _) && _) with false by lia.
Qed.

Lemma shape_with_len (b : net_buf) (d l h n l' : Z) : shape b d l h n -> shape (with_len b l') d l' h n.
Proof. by intros (? & ? & ? & ?). Qed.

Lemma net_reserve_shape (b : net_buf) (d l h n k : Z) :
  shape b d l h n -> k <= h -> shape (net_reserve b k) (d + k) l (h - k) n.
Proof.
  intros (<- & <- & <- & <-) H. unfold net_reserve. by replace (nb_headroom b <? k) with false by lia.
Qed.

Lemma net_alloc_buf_shape {S} `{BlockAlloc S} (s s' : S) (size : Z) (b : net_buf) :
  0 <= size -> size + NET_HEADROOM < 2 ^ 32 -> net_alloc_buf s size = Ret (Some b, s') ->
  shape b NET_HEADROOM 0 NET_HEADROOM (size + NET_HEADROOM) /\ Forall (fits 8) (nb_bytes b).
Proof.
  unfold NET_HEADROOM. intros H1 H2 E. unfold net_alloc_buf, NET_HEADROOM in E. rewrite wrap_small in E by (split; lia).
  inv_ret. destruct a as [[p bs0] s1]. cbn beta iota in E. destruct (p =? 0); [done |].
  inv_ret. destruct a as [[q bs] s2]. cbn beta iota in E. destruct (Z.eqb_spec q 0) as [-> | Hq].
  { inv_ret. simplify_eq. }
  destruct (ba_bytes s1 (size + 64) q bs s2 ltac:(lia) E1 Hq) as [Hl HF]. simplify_eq. done.
Qed.

(** Step over a write that is inside the block. *)
Ltac step_write Hs :=
  let b := fresh "b" in let E := fresh "E" in let H := fresh "Hs" in
  match goal with
  | |- context [buf_write ?x ?off ?bs] =>
      destruct (buf_write_shape x _ _ _ _ off bs Hs) as (b & E & H);
        [lia | rewrite ?length_le_bytes, ?length_replicate; lia
        | rewrite E; cbn [obind]; clear E Hs; rename H into Hs ]
  end.
