(* ===== verification/Ethernet.v ===== *)
(** The Ethernet layer, src/kernel/net/ethernet.c: textual MAC addresses, framing, the
    receive filter and the table of protocols. *)

From S2P Require Import Prelude Bytes LibMem LibString Printf NetBuf.

Definition ETH_ALEN : Z := 6.
Definition ETH_HLEN : Z := 14.
Definition ETH_MIN_FRAME : Z := 64.
Definition ETH_P_IP : Z := 0x0800.
Definition ETH_P_ARP : Z := 0x0806.
Definition ETH_P_IPV6 : Z := 0x86DD.
Definition ETH_MAC_BROADCAST : list Z := [0xFF; 0xFF; 0xFF; 0xFF; 0xFF; 0xFF].

(** * Textual addresses *)

(** The literal "%02x:%02x:%02x:%02x:%02x:%02x". *)
Definition MAC_FMT : list Z :=
  let f := [37; 48; 50; 120] in f ++ [58] ++ f ++ [58] ++ f ++ [58] ++ f ++ [58] ++ f ++ [58] ++ f.

(** [fmt] is the address of the literal. *)
Definition ethernet_mac_ntop (fuel : nat) (fmt : Z) (m : mem) (mac buf size : Z) : outcome mem :=
  (do '(_, m) <- snprintf fuel m buf size fmt
       ((fun i => VInt (ldb m (mac + i))) <$> [0; 1; 2; 3; 4; 5]);
   Ret m)%out.

Definition hex_value (c : Z) : option Z :=
  if (48 <=? c) && (c <=? 57) then Some (c - 48)
  else if (97 <=? c) && (c <=? 102) then Some (c - 97 + 10)
  else if (65 <=? c) && (c <=? 70) then Some (c - 65 + 10)
  else None.

(** The loop from byte [i]; [n] bytes are left. *)
Fixpoint mac_pton_from (n : nat) (i : Z) (m : mem) (str mac : Z) : Z * mem :=
  match n with
  | O => (0, m)
  | S n' =>
      match hex_value (ldb m str) with
      | None => (-1, m)
      | Some h =>
          match hex_value (ldb m (str + 1)) with
          | None => (-1, m)
          | Some l =>
              let m := stb m (mac + i) (Z.land (h * 16 + l) 0xFF) in
              let str := str + 2 in
              let str := if (i <? 5) && (ldb m str =? 58) then str + 1 else str in
              mac_pton_from n' (i + 1) m str mac
          end
      end
  end.

Definition ethernet_mac_pton (m : mem) (str mac : Z) : Z * mem := mac_pton_from 6 0 m str mac.

Definition ethernet_mac_equal (mac1 mac2 : list Z) : bool := bool_decide (take 6 mac1 = take 6 mac2).

(** * Framing *)

Definition ethernet_output (t : net_table) (b : net_buf) (dev : Z) (dst_mac : list Z) (type : Z)
    : outcome (Z * net_buf * net_table) :=
  (if dev =? 0 then Ret (-1, b, t)
   else
     do d <- of_option (devs t !! dev);
     let b := net_reserve b ETH_HLEN in
     do b <- buf_write b 0 (take 6 dst_mac);
     do b <- buf_write b 6 (take 6 (mac_addr d));
     do b <- buf_set_field b 12 2 (htons type);
     do b <- (if nb_len b <? ETH_MIN_FRAME - ETH_HLEN then
                let pad := ETH_MIN_FRAME - ETH_HLEN - nb_len b in
                do b' <- buf_write b (nb_len b) (replicate (Z.to_nat pad) 0);
                Ret (with_len b' (nb_len b + pad))
              else Ret b);
     do '(r, d) <- rtl8139_xmit b d;
     Ret (r, b, mk_table (<[dev := d]> (devs t)) (net_devices t) (net_device_count t)))%out.

(** * Reception *)

(** The functions that [ethernet_init] registers. *)
Inductive eth_handler := ipv4_handler | ipv6_handler | arp_handler.

Definition eth_protocols := gmap Z eth_handler.

(** The buffer after the header is taken off, and the handler that is called with it. *)
Definition ethernet_input (ps : eth_protocols) (b : net_buf) (d : net_device)
    : outcome (net_buf * option eth_handler) :=
  (if nb_len b <? ETH_HLEN then Ret (b, None)
   else
     do ty <- buf_field b 12 2;
     let type := ntohs ty in
     do dst_mac <- buf_read b 0 6;
     let b := net_pull b ETH_HLEN in
     if negb (ethernet_mac_equal dst_mac (mac_addr d)) && negb (ethernet_mac_equal dst_mac ETH_MAC_BROADCAST)
     then Ret (b, None)
     else Ret (b, if type <? 65536 then ps !! type else None))%out.

Definition ethernet_register_protocol (ps : eth_protocols) (type : Z) (h : eth_handler) : Z * eth_protocols :=
  if 65536 <=? type then (-1, ps)
  else match ps !! type with
       | Some _ => (-1, ps)
       | None => (0, <[type := h]> ps)
       end.

Definition ethernet_unregister_protocol (ps : eth_protocols) (type : Z) : eth_protocols :=
  if type <? 65536 then delete type ps else ps.

Definition ethernet_init : eth_protocols :=
  let ps := ∅ in
  let ps := (ethernet_register_protocol ps ETH_P_IP ipv4_handler).2 in
  let ps := (ethernet_register_protocol ps ETH_P_IPV6 ipv6_handler).2 in
  (ethernet_register_protocol ps ETH_P_ARP arp_handler).2.

(** [net_rx] *)
Definition net_rx (ps : eth_protocols) (b : net_buf) (dev : Z) (t : net_table)
    : outcome (Z * net_buf * option eth_handler) :=
  (if dev =? 0 then Ret (-1, b, None)
   else
     do d <- of_option (devs t !! dev);
     do '(b, h) <- ethernet_input ps (with_dev b dev) d;
     Ret (0, b, h))%out.

Definition net_tx (t : net_table) (b : net_buf) (dev : Z) : outcome (Z * net_table) :=
  (if dev =? 0 then Ret (-1, t)
   else
     do d <- of_option (devs t !! dev);
     do '(r, d) <- rtl8139_xmit b d;
     Ret (r, mk_table (<[dev := d]> (devs t)) (net_devices t) (net_device_count t)))%out.

(** * Textual addresses round trip *)

Lemma hex_value_digit (upper : bool) (d : Z) : 0 <= d < 16 -> hex_value (hex_digit upper d) = Some d.
Proof.
  intros Hd. unfold hex_digit, hex_value. destruct (Z.ltb_spec d 10); [| destruct upper];
    repeat (destruct (_ && _) eqn:? at 1); first [f_equal; lia | lia].
Qed.

Lemma digits_of_small (n : nat) (base v : Z) : 0 <= v < base -> digits_of (S n) base v = [v].
Proof. intros Hv. cbn [digits_of]. by replace (v <? base) with true by lia. Qed.

(** "%02x" of a byte is its two digits. *)
Lemma byte_field (b : Z) :
  fits 8 b -> number_field b 16 2 true false false = [hex_digit false (b / 16); hex_digit false (b mod 16)].
Proof.
  intros [H1 H2]. change (2 ^ 8) with 256 in H2. unfold number_field, number_text. cbn [app].
  destruct (decide (b < 16)) as [Hlt | Hge].
  - rewrite digits_of_small by lia. rewrite Z.div_small, Z.mod_small by lia. done.
  - change 64%nat with (S (S 62)). remember (S 62) as k eqn:Ek. cbn [digits_of].
    replace (b <? 16) with false by lia. subst k. rewrite digits_of_small by dlia. done.
Qed.

Definition byte_text (b : Z) : list Z := [hex_digit false (b / 16); hex_digit false (b mod 16)].

(** The bytes in hexadecimal with colons between them. *)
Fixpoint mac_text (bs : list Z) : list Z :=
  match bs with
  | [] => []
  | b :: bs' => byte_text b ++ match bs' with [] => [] | _ => 58 :: mac_text bs' end
  end.

Lemma byte_text_value (b : Z) :
  fits 8 b ->
  hex_value (hex_digit false (b / 16)) = Some (b / 16) /\
  hex_value (hex_digit false (b mod 16)) = Some (b mod 16) /\
  Z.land (b / 16 * 16 + b mod 16) 0xFF = b.
Proof.
  intros Hb. pose proof Hb as [H1 H2]. change (2 ^ 8) with 256 in H2.
  rewrite !hex_value_digit by dlia. split; [done |]. split; [done |].
  replace (b / 16 * 16 + b mod 16) with b by dlia.
  change 0xFF with (Z.ones 8). rewrite <- wrap_land by lia. by apply wrap_small.
Qed.

Lemma mac_pton_from_spec (bs : list Z) (i : Z) (m : mem) (str mac : Z) :
  Forall (fits 8) bs -> 0 <= i -> i + Z.of_nat (length bs) = 6 ->
  (forall j c, mac_text bs !! j = Some c -> ldb m (str + Z.of_nat j) = c) ->
  mac + 6 <= str \/ str + Z.of_nat (length (mac_text bs)) <= mac ->
  exists m', mac_pton_from (length bs) i m str mac = (0, m') /\
    (forall j b, bs !! j = Some b -> ldb m' (mac + i + Z.of_nat j) = b) /\
    (forall a, a < mac + i \/ mac + 6 <= a -> ldb m' a = ldb m a).
Proof.
  revert i m str. induction bs as [|b bs IH]; intros i m str HF Hi Hl Ht Hd.
  { exists m. done. }
  apply Forall_cons in HF as [Hb HF]. cbn [length] in Hl. cbn [length mac_pton_from].
  destruct (byte_text_value b Hb) as (V1 & V2 & V3).
  assert (E0 : ldb m str = hex_digit false (b / 16)).
  { rewrite <- (Ht 0%nat _ eq_refl). f_equal. lia. }
  assert (E1 : ldb m (str + 1) = hex_digit false (b mod 16)) by exact (Ht 1%nat _ eq_refl).
  rewrite E0, E1, V1, V2, V3. set (m1 := stb m (mac + i) b).
  assert (Hm1 : forall a, a <> mac + i -> ldb m1 a = ldb m a).
  { intros a Ha. unfold m1. rewrite ldb_stb. by replace (a =? mac + i) with false by lia. }
  assert (Hm1b : ldb m1 (mac + i) = b).
  { unfold m1. rewrite ldb_stb, Z.eqb_refl. by apply wrap_small. }
  destruct bs as [|b' bs].
  - exists m1. cbn [length] in *. replace (i <? 5) with false by lia. cbn [andb mac_pton_from]. split; [done |]. split.
    + intros [|j] x Hx; [| done]. injection Hx as <-. rewrite <- Hm1b. f_equal. lia.
    + intros a Ha. apply Hm1. lia.
  - set (rest := b' :: bs) in *. change (mac_text (b :: rest)) with (byte_text b ++ 58 :: mac_text rest) in *.
    rewrite length_app in Hd. cbn [length] in Hd, Hl. change (length (byte_text b)) with 2%nat in Hd.
    assert (E2 : ldb m1 (str + 2) = 58). { rewrite Hm1 by lia. exact (Ht 2%nat _ eq_refl). }
    replace (i <? 5) with true by (unfold rest in Hl; cbn [length] in Hl; lia). rewrite E2. cbn [Z.eqb Pos.eqb andb].
    destruct (IH (i + 1) m1 (str + 2 + 1) HF ltac:(lia) ltac:(lia)) as (m' & -> & Hv & Hk).
    + intros j c Hj. rewrite Hm1.
      * specialize (Ht (3 + j)%nat c Hj). rewrite <- Ht. f_equal. lia.
      * apply lookup_lt_Some in Hj. lia.
    + lia.
    + exists m'. split; [done |]. split.
      * intros [|j] x Hx.
        -- injection Hx as <-. rewrite Hk by lia. rewrite <- Hm1b. f_equal. lia.
        -- replace (mac + i + Z.of_nat (S j)) with (mac + (i + 1) + Z.of_nat j) by lia. by apply Hv.
      * intros a Ha. rewrite Hk by lia. apply Hm1. lia.
Qed.

Lemma format_02x (strs : Z -> option (list Z)) (n : nat) (rest : list Z) (b : Z) (args : list va) :
  fits 8 b ->
  format_with (conversion strs) (S n) (37 :: 48 :: 50 :: 120 :: rest) (VInt b :: args) =
  app (byte_text b) <$> format_with (conversion strs) n rest args.
Proof.
  intros Hb. unfold byte_text. rewrite <- byte_field by done. rewrite <- (wrap_small 32 b) at 2; [reflexivity |].
  apply (fits_mono 8); [lia | done].
Qed.

Lemma format_mac (strs : Z -> option (list Z)) (mac : list Z) :
  Forall (fits 8) mac -> length mac = 6%nat -> format strs MAC_FMT (VInt <$> mac) = Some (mac_text mac).
Proof.
  intros HF Hl. destruct mac as [|a [|b [|c [|d [|e [|f [|? ?]]]]]]]; try done.
  repeat (apply Forall_cons in HF as [? HF]).
  change (format strs MAC_FMT ?args) with (format_with (conversion strs) (S (S (S (S (S (S (S (S (S (S (S 18))))))))))) MAC_FMT args).
  unfold MAC_FMT. cbn [app fmap list_fmap].
  assert (Hc : forall n rest args, format_with (conversion strs) (S n) (58 :: rest) args = cons 58 <$> format_with (conversion strs) n rest args)
    by reflexivity.
  rewrite !format_02x, !Hc by done. do 5 rewrite format_02x, ?Hc by done.
  reflexivity.
Qed.

(** A MAC address printed by ethernet_mac_ntop into an 18-byte buffer and read back by
    ethernet_mac_pton is the same address. *)
Theorem mac_text_roundtrip (fuel : nat) (m : mem) (fmt mac buf dst : Z) :
  cstr m fmt MAC_FMT -> fmt + 29 < buf \/ buf + 18 <= fmt -> (29 < fuel)%nat ->
  dst + 6 <= buf \/ buf + 18 <= dst ->
  exists m1 m2, ethernet_mac_ntop fuel fmt m mac buf 18 = Ret m1 /\
    ethernet_mac_pton m1 buf dst = (0, m2) /\
    (forall i, 0 <= i < 6 -> ldb m2 (dst + i) = ldb m (mac + i)) /\
    (forall a, (a < buf \/ buf + 18 <= a) -> (a < dst \/ dst + 6 <= a) -> ldb m2 a = ldb m a).
Proof.
  intros Hf Hdf Hfu Hdd. set (bs := (fun i => ldb m (mac + i)) <$> [0; 1; 2; 3; 4; 5]).
  assert (HF : Forall (fits 8) bs) by (repeat constructor; apply ldb_fits).
  destruct (vsnprintf_ok fuel m buf 18 fmt MAC_FMT (VInt <$> bs) (fun _ => None) (mac_text bs))
    as (r & m1 & E & Hb & _ & Ho & _).
  - lia.
  - split; [done |]. change (length MAC_FMT) with 29%nat. lia.
  - exact Hfu.
  - intros p cs Hp. done.
  - by apply format_mac.
  - cbn. lia.
  - change (Z.min (Z.of_nat (length (mac_text bs))) (18 - 1)) with 17 in Hb.
    destruct (mac_pton_from_spec bs 0 m1 buf dst HF) as (m2 & E2 & Hv & Hk); [lia | done | | cbn; lia |].
    { intros j c Hj. pose proof (lookup_lt_Some _ _ _ Hj) as Hlt. change (length (mac_text bs)) with 17%nat in Hlt.
      rewrite Hb by lia. unfold get. by rewrite Nat2Z.id, nth_lookup, Hj. }
    exists m1, m2. split.
    { unfold ethernet_mac_ntop, snprintf.
      change ((fun i => VInt (ldb m (mac + i))) <$> [0; 1; 2; 3; 4; 5]) with (VInt <$> bs). by rewrite E. }
    split; [exact E2 |]. split.
    + intros i Hi. replace (dst + i) with (dst + 0 + Z.of_nat (Z.to_nat i)) by lia. apply Hv.
      unfold bs. rewrite list_lookup_fmap.
      assert (i = 0 \/ i = 1 \/ i = 2 \/ i = 3 \/ i = 4 \/ i = 5) as Hc by lia.
      by repeat destruct Hc as [-> | Hc]; try rewrite Hc.
    + intros a Ha Hda. rewrite Hk by lia. by apply Ho.
Qed.

(** The literal at 1000, the address 52:54:00:12:ab:cd at 2000. *)
Definition mac_demo : mem := fun a =>
  if a <? 2000 then get MAC_FMT (a - 1000) else get [0x52; 0x54; 0; 0x12; 0xAB; 0xCD] (a - 2000).

Lemma mac_text_roundtrip_witness :
  exists m1 m2, ethernet_mac_ntop 40 1000 mac_demo 2000 100 18 = Ret m1 /\
    ethernet_mac_pton m1 100 3000 = (0, m2) /\ ldb m2 3004 = 0xAB.
Proof.
  destruct (mac_text_roundtrip 40 mac_demo 1000 2000 100 3000) as (m1 & m2 & E1 & E2 & Hv & _).
  - repeat (split; [lia || done |]). done.
  - lia.
  - lia.
  - lia.
  - exists m1, m2. split; [exact E1 |]. split; [exact E2 |]. exact (Hv 4 ltac:(lia)).
Defined.
