(* ===== verification/Arp.v ===== *)
(** Address resolution, src/kernel/net/arp.c: the cache, requests and replies.  The cache is
    shown to implement a bounded map from addresses to hardware addresses in which an
    entry lives for ARP_CACHE_TIMEOUT ticks. *)

From S2P Require Import Prelude Bytes LibMem NetBuf Ethernet.

Definition ARP_HRD_ETHERNET : Z := 1.
Definition ARP_PRO_IP : Z := 0x0800.
Definition ARP_HLEN_ETHERNET : Z := 6.
Definition ARP_PLEN_IP : Z := 4.
Definition ARP_OP_REQUEST : Z := 1.
Definition ARP_OP_REPLY : Z := 2.
Definition SIZEOF_ARP_HEADER : Z := 28.
Definition ARP_CACHE_SIZE : nat := 32.
Definition ARP_CACHE_TIMEOUT : Z := 300000.

Record arp_cache_entry := mk_arp {
  arp_ip : Z; arp_mac : list Z; timestamp : Z; valid : bool
}.

Abbreviation arp_cache := (list arp_cache_entry).

(** * The cache *)

Definition is_entry (ip : Z) (e : arp_cache_entry) : bool := valid e && (arp_ip e =? ip).

(** What the loop of [arp_cache_add] finds: an entry to update, or the slot to use, -1
    for none. *)
Inductive found := Update (i : nat) | Slot (i : Z).

Fixpoint add_scan (c : arp_cache) (i : nat) (ip oldest oldest_time : Z) : found :=
  match c with
  | [] => Slot oldest
  | e :: c' =>
      if is_entry ip e then Update i
      else if negb (valid e) then Slot (Z.of_nat i)
      else if timestamp e <? oldest_time then add_scan c' (S i) ip (Z.of_nat i) (timestamp e)
      else add_scan c' (S i) ip oldest oldest_time
  end.

(** [now] is [timer_apic_ticks()]. *)
Definition arp_cache_add (c : arp_cache) (now ip : Z) (mac : list Z) : arp_cache :=
  match add_scan c 0 ip (-1) (2 ^ 64 - 1) with
  | Update i =>
      match c !! i with
      | Some e => <[i := mk_arp (arp_ip e) (take 6 mac) now (valid e)]> c
      | None => c
      end
  | Slot i => if 0 <=? i then <[Z.to_nat i := mk_arp ip (take 6 mac) now true]> c else c
  end.

Definition invalidate (e : arp_cache_entry) : arp_cache_entry :=
  mk_arp (arp_ip e) (arp_mac e) (timestamp e) false.

Fixpoint arp_cache_del (c : arp_cache) (ip : Z) : arp_cache :=
  match c with
  | [] => []
  | e :: c' => if is_entry ip e then invalidate e :: c' else e :: arp_cache_del c' ip
  end.

Definition arp_cache_clear : arp_cache := replicate ARP_CACHE_SIZE (mk_arp 0 (replicate 6 0) 0 false).

Definition expired (now : Z) (e : arp_cache_entry) : bool :=
  ARP_CACHE_TIMEOUT <? sub64 now (timestamp e).

Definition arp_cache_purge_expired (c : arp_cache) (now : Z) : arp_cache :=
  (fun e => if valid e && expired now e then invalidate e else e) <$> c.

Fixpoint arp_find (c : arp_cache) (ip : Z) : option (list Z) :=
  match c with
  | [] => None
  | e :: c' => if is_entry ip e then Some (arp_mac e) else arp_find c' ip
  end.

(** The lookup purges the cache first. *)
Definition arp_cache_lookup (c : arp_cache) (now ip : Z) : option (list Z) * arp_cache :=
  let c := arp_cache_purge_expired c now in (arp_find c ip, c).

(** * Packets *)

Section packets.
Context {S : Type} `{BlockAlloc S}.

(** [arp_request] *)
Definition arp_request (s : S) (t : net_table) (ip dev : Z) : outcome (Z * S * net_table) :=
  (do '(ob, s) <- net_alloc_buf s SIZEOF_ARP_HEADER;
   match ob with
   | None => Ret (-1, s, t)
   | Some b =>
       do d <- of_option (devs t !! dev);
       do b <- buf_write b 0 (replicate 28 0);
       do b <- buf_set_field b 0 2 (htons ARP_HRD_ETHERNET);
       do b <- buf_set_field b 2 2 (htons ARP_PRO_IP);
       do b <- buf_set_field b 4 1 ARP_HLEN_ETHERNET;
       do b <- buf_set_field b 5 1 ARP_PLEN_IP;
       do b <- buf_set_field b 6 2 (htons ARP_OP_REQUEST);
       do b <- buf_write b 8 (take 6 (mac_addr d));
       do b <- buf_set_field b 14 4 (ip_addr d);
       do b <- buf_write b 18 (replicate 6 0);
       do b <- buf_set_field b 24 4 ip;
       let b := with_len b SIZEOF_ARP_HEADER in
       do '(r, _, t) <- ethernet_output t b dev ETH_MAC_BROADCAST ETH_P_ARP;
       Ret (r, s, t)
   end)%out.

(** The answer to a request for our address. *)
Definition arp_reply (s : S) (t : net_table) (b : net_buf) (dev my_ip : Z) (sha : list Z) (spa : Z)
    : outcome (S * net_table) :=
  (do '(orep, s) <- net_alloc_buf s SIZEOF_ARP_HEADER;
   match orep with
   | None => Ret (s, t)
   | Some r =>
       do d <- of_option (devs t !! dev);
       do hdr <- buf_read b 0 SIZEOF_ARP_HEADER;
       do r <- buf_write r 0 hdr;
       do r <- buf_set_field r 6 2 (htons ARP_OP_REPLY);
       do r <- buf_write r 18 sha;
       do r <- buf_set_field r 24 4 spa;
       do r <- buf_write r 8 (take 6 (mac_addr d));
       do r <- buf_set_field r 14 4 my_ip;
       let r := with_len r SIZEOF_ARP_HEADER in
       do '(_, _, t) <- ethernet_output t r dev sha ETH_P_ARP;
       Ret (s, t)
   end)%out.

(** [arp_input] *)
Definition arp_input (s : S) (t : net_table) (c : arp_cache) (now : Z) (b : net_buf) (dev : Z)
    : outcome (S * net_table * arp_cache) :=
  (if nb_len b <? SIZEOF_ARP_HEADER then Ret (s, t, c)
   else
     do hrd <- buf_field b 0 2;
     do pro <- buf_field b 2 2;
     do hln <- buf_field b 4 1;
     do pln <- buf_field b 5 1;
     if negb (ntohs hrd =? ARP_HRD_ETHERNET) then Ret (s, t, c)
     else if negb (ntohs pro =? ARP_PRO_IP) then Ret (s, t, c)
     else if negb (hln =? ARP_HLEN_ETHERNET) || negb (pln =? ARP_PLEN_IP) then Ret (s, t, c)
     else
       do d <- of_option (devs t !! dev);
       do sha <- buf_read b 8 6;
       do spa <- buf_field b 14 4;
       do tpa <- buf_field b 24 4;
       let my_ip := ip_addr d in
       let c := if negb (spa =? 0) then arp_cache_add c now spa sha else c in
       do op <- buf_field b 6 2;
       if (ntohs op =? ARP_OP_REQUEST) && (tpa =? my_ip)
       then do '(s, t) <- arp_reply s t b dev my_ip sha spa; Ret (s, t, c)
       else Ret (s, t, c))%out.

(** [arp_resolve]; [during] is what the interrupt handlers do to the state and the clock
    while the loop waits. *)
Definition arp_resolve (during : S * net_table * arp_cache * Z -> outcome (S * net_table * arp_cache * Z))
    (s : S) (t : net_table) (c : arp_cache) (now dev ip : Z)
    : outcome (option (list Z) * (S * net_table * arp_cache * Z)) :=
  (let '(r, c) := arp_cache_lookup c now ip in
   match r with
   | Some mac => Ret (Some mac, (s, t, c, now))
   | None =>
       do '(_, s, t) <- arp_request s t ip dev;
       do '(s, t, c, now) <- during (s, t, c, now);
       let '(r, c) := arp_cache_lookup c now ip in
       Ret (r, (s, t, c, now))
   end)%out.
End packets.

Definition arp_init : arp_cache := arp_cache_clear.

(** * The cache as a map

    [arp_view c now] is the map a client of [arp_cache_lookup] sees at time [now]. *)
Definition arp_view (c : arp_cache) (now ip : Z) : option (list Z) := (arp_cache_lookup c now ip).1.

(** Times and addresses are 64- and 32-bit, a stored time is in the past, and there are
    32 slots. *)
Definition arp_ok (now : Z) (c : arp_cache) : Prop :=
  length c = ARP_CACHE_SIZE /\ now < 2 ^ 64 - 1 /\
  Forall (fun e => 0 <= timestamp e <= now /\ length (arp_mac e) = 6%nat) c.

Definition fresh (now : Z) (e : arp_cache_entry) : bool := now - timestamp e <=? ARP_CACHE_TIMEOUT.

(** The first live entry for an address. *)
Fixpoint first_live (c : arp_cache) (now ip : Z) : option (list Z) :=
  match c with
  | [] => None
  | e :: c' => if is_entry ip e && fresh now e then Some (arp_mac e) else first_live c' now ip
  end.

Lemma arp_view_eq (c : arp_cache) (now ip : Z) :
  now < 2 ^ 64 -> Forall (fun e => 0 <= timestamp e <= now) c -> arp_view c now ip = first_live c now ip.
Proof.
  intros Hn HF. unfold arp_view, arp_cache_lookup, arp_cache_purge_expired. cbn [fst].
  induction HF as [|e c He _ IH]; [done |]. cbn [fmap list_fmap arp_find first_live].
  assert (Ex : expired now e = negb (fresh now e)).
  { unfold expired, fresh, sub64. rewrite wrap_small by (unfold fits; lia). lia. }
  rewrite Ex. unfold is_entry at 1 2. destruct (valid e) eqn:Ev; cbn [andb].
  - destruct (fresh now e); cbn [negb].
    + rewrite Ev. cbn [andb]. rewrite andb_true_r. by destruct (arp_ip e =? ip).
    + cbn [invalidate valid andb]. by rewrite andb_false_r.
  - rewrite Ev. cbn [andb]. exact IH.
Qed.

(** ** Additions *)

(** The slots before [k] hold entries for other addresses. *)
Definition others_before (c : arp_cache) (k : nat) (ip : Z) : Prop :=
  forall j e, (j < k)%nat -> c !! j = Some e -> valid e = true /\ is_entry ip e = false.

Definition all_others (c : arp_cache) (ip : Z) : Prop :=
  Forall (fun e => valid e = true /\ is_entry ip e = false) c.

Lemma others_before_S (e : arp_cache_entry) (c : arp_cache) (k : nat) (ip : Z) :
  valid e = true -> is_entry ip e = false -> others_before c k ip -> others_before (e :: c) (S k) ip.
Proof.
  intros H1 H2 H3 [|j] e' Hj He'; [by injection He' as <- |]. apply (H3 j); [lia | done].
Qed.

(** The scan finds the entry, or the first free slot, or the oldest entry. *)
Lemma add_scan_spec (c : arp_cache) (i : nat) (ip o ot : Z) :
  match add_scan c i ip o ot with
  | Update j => exists k e, j = (i + k)%nat /\ c !! k = Some e /\ is_entry ip e = true /\ others_before c k ip
  | Slot r =>
      (exists k e, r = Z.of_nat (i + k) /\ c !! k = Some e /\ valid e = false /\ others_before c k ip) \/
      (all_others c ip /\
       ((r = o /\ Forall (fun e => ot <= timestamp e) c) \/
        (exists k e, r = Z.of_nat (i + k) /\ c !! k = Some e /\ timestamp e < ot /\
           Forall (fun e' => timestamp e <= timestamp e') c)))
  end.
Proof.
  revert i o ot. induction c as [|e c IH]; intros i o ot; cbn [add_scan].
  { right. split; [constructor |]. by left. }
  destruct (is_entry ip e) eqn:Ee.
  { exists 0%nat, e. split; [lia |]. split; [done |]. split; [done |]. intros j e' Hj. lia. }
  destruct (valid e) eqn:Ev; cbn [negb].
  2: { left. exists 0%nat, e. split; [f_equal; lia |]. split; [done |]. split; [done |]. intros j e' Hj. lia. }
  destruct (Z.ltb_spec (timestamp e) ot) as [Hlt | Hge].
  - specialize (IH (S i) (Z.of_nat i) (timestamp e)). destruct (add_scan c _ _ _ _) as [j | r].
    + destruct IH as (k & e' & -> & H1 & H2 & H3). exists (S k), e'. split; [lia |]. split; [done |].
      split; [done |]. by apply others_before_S.
    + destruct IH as [(k & e' & -> & H1 & H2 & H3) | [Hall [[-> Hmin] | (k & e' & -> & H1 & H2 & Hmin)]]].
      * left. exists (S k), e'. split; [f_equal; lia |]. split; [done |]. split; [done |]. by apply others_before_S.
      * right. split; [by constructor |]. right. exists 0%nat, e. split; [f_equal; lia |]. split; [done |].
        split; [done |]. constructor; [lia | done].
      * right. split; [by constructor |]. right. exists (S k), e'. split; [f_equal; lia |]. split; [done |].
        split; [lia |]. constructor; [lia | done].
  - specialize (IH (S i) o ot). destruct (add_scan c _ _ _ _) as [j | r].
    + destruct IH as (k & e' & -> & H1 & H2 & H3). exists (S k), e'. split; [lia |]. split; [done |].
      split; [done |]. by apply others_before_S.
    + destruct IH as [(k & e' & -> & H1 & H2 & H3) | [Hall [[-> Hmin] | (k & e' & -> & H1 & H2 & Hmin)]]].
      * left. exists (S k), e'. split; [f_equal; lia |]. split; [done |]. split; [done |]. by apply others_before_S.
      * right. split; [by constructor |]. left. split; [done |]. by constructor.
      * right. split; [by constructor |]. right. exists (S k), e'. split; [f_equal; lia |]. split; [done |].
        split; [done |]. constructor; [lia | done].
Qed.

(** An addition stores one entry, at a slot before which no entry has the address; the
    slot held the address, or was free, or was the oldest of a full cache. *)
Lemma arp_cache_add_slot (c : arp_cache) (now ip : Z) (mac : list Z) :
  arp_ok now c -> length mac = 6%nat ->
  exists k e, arp_cache_add c now ip mac = <[k := mk_arp ip mac now true]> c /\
    c !! k = Some e /\ others_before c k ip /\
    (is_entry ip e = true \/ valid e = false \/
     (all_others c ip /\ Forall (fun e' => timestamp e <= timestamp e') c)).
Proof.
  intros (Hl & Hn & HF) Hm. unfold arp_cache_add. rewrite take_ge by lia.
  pose proof (add_scan_spec c 0 ip (-1) (2 ^ 64 - 1)) as Hs. destruct (add_scan c _ _ _ _) as [j | r].
  - destruct Hs as (k & e & -> & Hk & He & Hb). exists k, e. rewrite Nat.add_0_l, Hk.
    unfold is_entry in He. apply andb_true_iff in He as [Hv Hip]. apply Z.eqb_eq in Hip. subst ip. rewrite Hv.
    split; [done |]. split; [done |]. split; [done |]. left. unfold is_entry. by rewrite Hv, Z.eqb_refl.
  - destruct Hs as [(k & e & -> & Hk & Hv & Hb) | [Hall [[-> Hmin] | (k & e & -> & Hk & Hlt & Hmin)]]].
    + exists k, e. replace (0 <=? _) with true by lia. rewrite Nat2Z.id. split; [done |]. auto.
    + exfalso. destruct c as [|e c]; [done |]. apply Forall_cons in HF as [[[] _] _].
      apply Forall_cons in Hmin as [? _]. lia.
    + exists k, e. replace (0 <=? _) with true by lia. rewrite Nat2Z.id. split; [done |]. split; [done |].
      split; [| auto]. intros j e' _ He'. exact (Forall_lookup_1 _ _ _ _ Hall He').
Qed.

Lemma first_live_at (c : arp_cache) (k : nat) (e : arp_cache_entry) (now ip : Z) :
  c !! k = Some e -> others_before c k ip -> is_entry ip e = true -> fresh now e = true ->
  first_live c now ip = Some (arp_mac e).
Proof.
  revert k. induction c as [|x c IH]; intros [|k] Hk Hb He Hf; try done; cbn [first_live].
  - injection Hk as ->. by rewrite He, Hf.
  - destruct (Hb 0%nat x ltac:(lia) eq_refl) as [_ ->]. cbn [andb]. apply (IH k); try done.
    intros j y Hj Hy. apply (Hb (S j)); [lia | done].
Qed.

(** Replacing an entry that is not live for an address by one for another address. *)
Lemma first_live_insert (c : arp_cache) (k : nat) (e e' : arp_cache_entry) (now ip : Z) :
  c !! k = Some e -> is_entry ip e && fresh now e = false -> is_entry ip e' = false ->
  first_live (<[k := e']> c) now ip = first_live c now ip.
Proof.
  revert k. induction c as [|x c IH]; intros [|k] Hk He He'; try done.
  - injection Hk as ->. cbn. by rewrite He, He'.
  - change (<[S k := e']> (x :: c)) with (x :: <[k := e']> c). cbn [first_live].
    destruct (is_entry ip x && fresh now x); [done |]. exact (IH k Hk He He').
Qed.

Lemma arp_ok_times (now : Z) (c : arp_cache) : arp_ok now c -> Forall (fun e => 0 <= timestamp e <= now) c.
Proof. intros (_ & _ & HF). eapply Forall_impl; [exact HF |]. by intros e []. Qed.

(** The cache implements a bounded map: after an addition the address is bound to the
    new hardware address, and every other address is seen as before, except that when all
    32 slots are in use and none is for the address, the oldest entry gives way. *)
Theorem arp_cache_add_spec (c : arp_cache) (now ip : Z) (mac : list Z) :
  arp_ok now c -> 0 <= now -> length mac = 6%nat ->
  let c' := arp_cache_add c now ip mac in
  arp_ok now c' /\ arp_view c' now ip = Some mac /\
  forall ip', ip' <> ip -> arp_view c' now ip' = arp_view c now ip' \/
    (all_others c ip /\ exists e, e ∈ c /\ arp_ip e = ip' /\ Forall (fun e' => timestamp e <= timestamp e') c).
Proof.
  intros Hok Hn0 Hm c'. pose proof Hok as (Hl & Hn & HF).
  destruct (arp_cache_add_slot c now ip mac Hok Hm) as (k & e & E & Hk & Hb & Hwhy).
  unfold c'. rewrite E. set (e' := mk_arp ip mac now true).
  assert (Hok' : arp_ok now (<[k := e']> c)).
  { split; [by rewrite length_insert |]. split; [done |]. apply Forall_insert; [done |]. cbn. split; [lia | done]. }
  assert (Hke : <[k := e']> c !! k = Some e') by (apply list_lookup_insert_eq, (lookup_lt_Some _ _ _ Hk)).
  split; [done |]. split.
  - rewrite arp_view_eq by (lia || by apply arp_ok_times).
    rewrite (first_live_at _ k e'); [done | done | | by unfold is_entry; cbn; rewrite Z.eqb_refl | unfold fresh; cbn; unfold ARP_CACHE_TIMEOUT; lia].
    intros j x Hj Hx. rewrite list_lookup_insert_ne in Hx by lia. by apply (Hb j).
  - intros ip' Hne. rewrite !arp_view_eq by (lia || by apply arp_ok_times).
    assert (He' : is_entry ip' e' = false) by (unfold is_entry; cbn; lia).
    destruct (is_entry ip' e && fresh now e) eqn:El; [| left; by apply first_live_insert with e].
    unfold is_entry in El. destruct (valid e) eqn:Hv; [| done]. cbn [andb] in El.
    apply andb_true_iff in El as [Hip _]. apply Z.eqb_eq in Hip.
    destruct Hwhy as [Hen | [Hinv | [Hall Hmin]]]; [| congruence |].
    + unfold is_entry in Hen. lia.
    + right. split; [done |]. exists e. split; [by eapply list_elem_of_lookup_2 | done].
Qed.

Definition arp_demo : arp_cache := arp_cache_add arp_init 10 0x0100000A [2; 0; 0; 0; 0; 1].

Lemma arp_cache_add_spec_witness :
  arp_view (arp_cache_add arp_demo 20 0x0200000A [2; 0; 0; 0; 0; 2]) 20 0x0200000A = Some [2; 0; 0; 0; 0; 2].
Proof.
  apply (arp_cache_add_spec arp_demo 20 0x0200000A [2; 0; 0; 0; 0; 2]); [| lia | done].
  split; [reflexivity |]. split; [lia |]. vm_compute. repeat constructor; discriminate.
Defined.

(** Deleting an address can leave an older binding for it behind: an addition takes
    the first free slot without looking for the address in later ones, so the cache can
    hold it twice, and the deletion removes one copy. *)
Theorem arp_cache_del_stale :
  let add ip mac c := arp_cache_add c 10 ip mac in
  let c := add 1 [0; 0; 0; 0; 0; 1] arp_init in
  let c := add 2 [0; 0; 0; 0; 0; 2] c in
  let c := arp_cache_del c 1 in
  let c := add 2 [0; 0; 0; 0; 0; 9] c in
  arp_view c 10 2 = Some [0; 0; 0; 0; 0; 9] /\
  arp_view (arp_cache_del c 2) 10 2 = Some [0; 0; 0; 0; 0; 2].
Proof. vm_compute. done. Qed.

(** ** Frames that do not fit

    A buffer for an ARP packet holds 64 + 28 bytes.  Taking 14 bytes of headroom moves the
    data towards the end of the block, so the padding to the minimum frame size falls
    outside it. *)

Lemma arp_frame_crash (t : net_table) (b : net_buf) (dev : Z) (d : net_device) (dst : list Z) (type : Z) :
  dev <> 0 -> devs t !! dev = Some d -> length (mac_addr d) = 6%nat -> length dst = 6%nat ->
  shape b 64 28 64 92 -> ethernet_output t b dev dst type = Crash.
Proof.
  intros Hd Hl Hm Hdst Hs. unfold ethernet_output. replace (dev =? 0) with false by lia. rewrite Hl.
  cbn [of_option obind]. apply net_reserve_shape with (k := ETH_HLEN) in Hs; [| unfold ETH_HLEN; lia].
  unfold ETH_HLEN in *. rewrite !take_ge by lia. unfold buf_set_field.
  do 3 (step_write Hs). destruct Hs as (H1 & H2 & H3 & H4). rewrite H2. cbn [Z.ltb Z.compare].
  replace (28 <? ETH_MIN_FRAME - 14) with true by done. cbv zeta.
  erewrite buf_write_crash; [done | by split_and! | rewrite length_replicate; unfold ETH_MIN_FRAME; lia].
Qed.

Section overflow.
Context {S : Type} `{BlockAlloc S}.

(** Every ARP request overruns its buffer: when its allocation succeeds, [arp_request]
    writes outside the block. *)
Theorem arp_request_overflow (s s' : S) (t : net_table) (ip dev : Z) (d : net_device) (b : net_buf) :
  dev <> 0 -> devs t !! dev = Some d -> length (mac_addr d) = 6%nat ->
  net_alloc_buf s SIZEOF_ARP_HEADER = Ret (Some b, s') ->
  arp_request s t ip dev = Crash.
Proof.
  intros Hd Hl Hm E. unfold arp_request. rewrite E. cbn [obind]. rewrite Hl. cbn [of_option obind].
  apply net_alloc_buf_shape in E as [Hs _]; [| unfold SIZEOF_ARP_HEADER; lia | unfold SIZEOF_ARP_HEADER, NET_HEADROOM; lia].
  unfold NET_HEADROOM, SIZEOF_ARP_HEADER in *. rewrite !take_ge by lia. unfold buf_set_field.
  do 10 (step_write Hs). apply shape_with_len with (l' := 28) in Hs.
  by rewrite (arp_frame_crash t _ dev d).
Qed.

(** A well-formed ARP request for the host's own address, received from the network,
    makes [arp_input] write outside the block of its reply. *)
Theorem arp_input_overflow (s s' : S) (t : net_table) (c : arp_cache) (now : Z) (b r : net_buf) (dev : Z)
    (d : net_device) (spa : Z) :
  dev <> 0 -> devs t !! dev = Some d -> length (mac_addr d) = 6%nat -> SIZEOF_ARP_HEADER <= nb_len b ->
  buf_field b 0 2 = Ret (htons ARP_HRD_ETHERNET) -> buf_field b 2 2 = Ret (htons ARP_PRO_IP) ->
  buf_field b 4 1 = Ret ARP_HLEN_ETHERNET -> buf_field b 5 1 = Ret ARP_PLEN_IP ->
  buf_field b 6 2 = Ret (htons ARP_OP_REQUEST) -> buf_field b 14 4 = Ret spa ->
  buf_field b 24 4 = Ret (ip_addr d) -> in_block b 0 28 = true ->
  net_alloc_buf s SIZEOF_ARP_HEADER = Ret (Some r, s') ->
  arp_input s t c now b dev = Crash.
Proof.
  intros Hd Hl Hm Hn F1 F2 F3 F4 F5 F6 F7 Hin E. unfold arp_input.
  replace (nb_len b <? SIZEOF_ARP_HEADER) with false by lia. rewrite F1, F2, F3, F4. cbn [obind].
  assert (Hsha : exists sha, buf_read b 8 6 = Ret sha /\ length sha = 6%nat).
  { unfold buf_read, in_block in *. replace ((0 <=? nb_data b + 8) && _) with true by lia.
    eexists. split; [reflexivity |]. rewrite length_take, length_drop. lia. }
  assert (Hhdr : exists hdr, buf_read b 0 28 = Ret hdr /\ length hdr = 28%nat).
  { unfold buf_read. rewrite Hin. eexists. split; [reflexivity |]. unfold in_block in Hin.
    rewrite length_take, length_drop. lia. }
  destruct Hsha as (sha & Esha & Lsha), Hhdr as (hdr & Ehdr & Lhdr).
  change (ntohs (htons ARP_HRD_ETHERNET)) with ARP_HRD_ETHERNET.
  change (ntohs (htons ARP_PRO_IP)) with ARP_PRO_IP. rewrite !Z.eqb_refl. cbn [negb orb].
  rewrite Hl, Esha, F6, F7, F5. cbn [of_option obind].
  change (ntohs (htons ARP_OP_REQUEST)) with ARP_OP_REQUEST. rewrite !Z.eqb_refl. cbn [andb].
  unfold arp_reply. rewrite E. cbn [obind]. rewrite Hl. cbn [of_option obind].
  apply net_alloc_buf_shape in E as [Hs _]; [| unfold SIZEOF_ARP_HEADER; lia | unfold SIZEOF_ARP_HEADER, NET_HEADROOM; lia].
  unfold NET_HEADROOM, SIZEOF_ARP_HEADER in *. rewrite Ehdr. cbn [obind]. rewrite !take_ge by lia. unfold buf_set_field.
  do 6 (step_write Hs). apply shape_with_len with (l' := 28) in Hs.
  by rewrite (arp_frame_crash t _ dev d).
Qed.
End overflow.

(** An allocator that hands out consecutive blocks of zeros. *)
#[export, refine] Instance bump_alloc : BlockAlloc Z := {
  ba_malloc s n := Ret (s, replicate (Z.to_nat n) 0, s + n);
  ba_free s _ := Ret s
}.
Proof.
  intros s n p bs s' Hn E _. injection E as <- <- <-. rewrite length_replicate. split; [lia |].
  by apply Forall_replicate.
Defined.

Definition demo_dev : net_device :=
  mk_dev [101; 116; 104; 48] 0 NET_TYPE_ETHERNET [0x52; 0x54; 0; 0x12; 0x34; 0x56] 0x0F02000A 0 0 true true
    (Some (mk_rtl true 0 [false; false; false; false] (replicate 4 (replicate 1536 0)) [])).

Definition demo_table : net_table := mk_table {[ 8192 := demo_dev ]} [8192] 1.

Lemma arp_request_overflow_witness : arp_request 65536 demo_table 0x0202000A 8192 = Crash.
Proof.
  apply (arp_request_overflow 65536 (65536 + 72 + 92) demo_table 0x0202000A 8192 demo_dev
           (mk_buf 65536 (65536 + 72) (replicate 92 0) 64 64 92 0 64 92 0 0 0));
    [lia | reflexivity | reflexivity | reflexivity].
Defined.

(** A request from 10.0.2.2 for 10.0.2.15, as the receive path hands it over. *)
Definition demo_request : net_buf :=
  mk_buf 4096 5000
    (replicate 78 0 ++ [0; 1; 8; 0; 6; 4; 0; 1; 2; 2; 2; 2; 2; 2; 10; 0; 2; 2; 0; 0; 0; 0; 0; 0; 10; 0; 2; 15])
    78 64 106 28 64 106 0 0 8192.

Lemma arp_input_overflow_witness : arp_input 65536 demo_table arp_init 100 demo_request 8192 = Crash.
Proof.
  apply (arp_input_overflow 65536 (65536 + 72 + 92) demo_table arp_init 100 demo_request
           (mk_buf 65536 (65536 + 72) (replicate 92 0) 64 64 92 0 64 92 0 0 0) 8192 demo_dev 0x0202000A);
    first [lia | reflexivity | vm_compute; reflexivity | vm_compute; discriminate].
Defined.
