(* ===== verification/Ipv4.v ===== *)
(** IPv4, src/kernel/net/ipv4.c, with the ICMP of src/kernel/net/icmp.c that it calls and the
    UDP of src/kernel/net/udp.c: addresses, the Internet checksum, the routing table, output
    and input of packets. *)

From S2P Require Import Prelude Bytes LibMem LibString Printf NetBuf Ethernet Arp.

Definition IPV4_HEADER_MIN : Z := 20.
Definition IP_PROTO_ICMP : Z := 1.
Definition IP_PROTO_TCP : Z := 6.
Definition IP_PROTO_UDP : Z := 17.

(** * Addresses

    An [ipv4_addr_t] is the 32-bit number; its octets are the bytes from the lowest. *)

Definition octet (addr i : Z) : Z := u8 (Z.shiftr addr (8 * i)).
Definition of_octets (a b c d : Z) : Z := le_val [u8 a; u8 b; u8 c; u8 d].

(** The literal "%u.%u.%u.%u". *)
Definition IP_FMT : list Z := [37; 117; 46; 37; 117; 46; 37; 117; 46; 37; 117].

Definition ipv4_ntop (fuel : nat) (fmt : Z) (m : mem) (addr buf size : Z) : outcome mem :=
  (do '(_, m) <- snprintf fuel m buf size fmt ((fun i => VInt (octet addr i)) <$> [0; 1; 2; 3]);
   Ret m)%out.

(** The loop of [ipv4_pton]: the octets read so far, their number, and the current one. *)
Fixpoint pton_loop (fuel : nat) (m : mem) (str : Z) (octets : list Z) (i val : Z) : outcome (list Z * Z * Z) :=
  match fuel with
  | O => Crash
  | S fuel' =>
      let c := ldb m str in
      if (c =? 0) || (4 <=? i) then Ret (octets, i, val)
      else if (48 <=? c) && (c <=? 57)
      then pton_loop fuel' m (str + 1) octets i (u32 (val * 10 + (c - 48)))
      else if c =? 46 then pton_loop fuel' m (str + 1) (set octets i val) (i + 1) 0
      else Ret (octets, i, val)
  end.

Definition ipv4_pton (fuel : nat) (m : mem) (str : Z) : outcome Z :=
  (do '(octets, i, val) <- pton_loop fuel m str [0; 0; 0; 0] 0 0;
   if (i =? 3) && (val <=? 255)
   then Ret (of_octets (get octets 0) (get octets 1) (get octets 2) val)
   else Ret 0)%out.

Definition ipv4_addr_is_multicast (addr : Z) : bool := Z.land (octet addr 0) 0xF0 =? 0xE0.
Definition ipv4_addr_is_broadcast (addr : Z) : bool := addr =? 0xFFFFFFFF.
Definition ipv4_addr_is_loopback (addr : Z) : bool := octet addr 0 =? 127.

(** * The Internet checksum *)

(** The sum of the 16-bit words, a last odd byte on its own. *)
Fixpoint csum_words (data : list Z) (sum : Z) : Z :=
  match data with
  | x :: y :: data' => csum_words data' (u32 (sum + (x + 256 * y)))
  | [x] => u32 (sum + x)
  | [] => sum
  end.

Fixpoint csum_fold (fuel : nat) (sum : Z) : outcome Z :=
  if Z.shiftr sum 16 =? 0 then Ret sum
  else match fuel with
       | O => Crash
       | S fuel' => csum_fold fuel' (u32 (Z.land sum 0xFFFF + Z.shiftr sum 16))
       end.

(** Two rounds of folding are enough for a 32-bit sum. *)
Definition ipv4_checksum (data : list Z) : outcome Z :=
  (do sum <- csum_fold 2 (csum_words data 0); Ret (wnot 16 sum))%out.

(** [icmp_checksum] has the same text. *)
Definition icmp_checksum := ipv4_checksum.

(** * Routes *)

Record ipv4_route := mk_route {
  rt_self : Z; rt_dest : Z; rt_netmask : Z; rt_gateway : Z; rt_src : Z; rt_dev : Z; rt_metric : Z
}.

Definition SIZEOF_ROUTE : Z := 48.

Section routes.
Context {S : Type} `{BlockAlloc S}.

Definition ipv4_route_add (s : S) (rs : list ipv4_route) (dest netmask gateway src dev metric : Z)
    : outcome (Z * S * list ipv4_route) :=
  (do '(p, _, s) <- ba_malloc s SIZEOF_ROUTE;
   if p =? 0 then Ret (-1, s, rs)
   else Ret (0, s, rs ++ [mk_route p dest netmask gateway src dev metric]))%out.

Fixpoint ipv4_route_del (s : S) (rs : list ipv4_route) (dest netmask : Z) : outcome (Z * S * list ipv4_route) :=
  (match rs with
   | [] => Ret (-1, s, [])
   | r :: rs' =>
       if (rt_dest r =? dest) && (rt_netmask r =? netmask)
       then do s <- ba_free s (rt_self r); Ret (0, s, rs')
       else do '(x, s, rs'') <- ipv4_route_del s rs' dest netmask; Ret (x, s, r :: rs'')
   end)%out.
End routes.

Definition route_matches (dest : Z) (r : ipv4_route) : bool := Z.land dest (rt_netmask r) =? rt_dest r.

Definition better (best : option ipv4_route) (r : ipv4_route) : bool :=
  match best with None => true | Some b => rt_metric r <? rt_metric b end.

Fixpoint lookup_from (rs : list ipv4_route) (dest : Z) (best : option ipv4_route) : option ipv4_route :=
  match rs with
  | [] => best
  | r :: rs' => lookup_from rs' dest (if route_matches dest r && better best r then Some r else best)
  end.

Definition ipv4_route_lookup (rs : list ipv4_route) (dest : Z) : option ipv4_route := lookup_from rs dest None.

Fixpoint ipv4_route_get_default (rs : list ipv4_route) : option ipv4_route :=
  match rs with
  | [] => None
  | r :: rs' => if (rt_dest r =? 0) && (rt_netmask r =? 0) then Some r else ipv4_route_get_default rs'
  end.

(** * Packets *)

(** The functions the protocol layers register. *)
Inductive ip_handler := icmp_handler | tcp_handler | udp_handler.
Definition ipv4_protocols := gmap Z ip_handler.

Definition ipv4_register_protocol (ps : ipv4_protocols) (protocol : Z) (h : ip_handler) : Z * ipv4_protocols :=
  if 256 <=? protocol then (-1, ps)
  else match ps !! protocol with
       | Some _ => (-1, ps)
       | None => (0, <[protocol := h]> ps)
       end.

Definition ipv4_unregister_protocol (ps : ipv4_protocols) (protocol : Z) : ipv4_protocols :=
  if protocol <? 256 then delete protocol ps else ps.

(** The state of the stack: the kernel heap, the devices, the ARP cache, the clock, the
    routes, the protocols and the packet counter. *)
Record netstate (S : Type) := mk_net {
  n_heap : S; n_table : net_table; n_cache : arp_cache; n_now : Z;
  n_routes : list ipv4_route; n_protocols : ipv4_protocols; n_id : Z
}.
Arguments mk_net {S}.
Arguments n_heap {S}.
Arguments n_table {S}.
Arguments n_cache {S}.
Arguments n_now {S}.
Arguments n_routes {S}.
Arguments n_protocols {S}.
Arguments n_id {S}.

Section packets.
Context {S : Type} `{BlockAlloc S}.
(** What interrupts do while [arp_resolve] waits. *)
Context (during : S * net_table * arp_cache * Z -> outcome (S * net_table * arp_cache * Z)).

Definition with_heap (n : netstate S) (s : S) : netstate S :=
  mk_net s (n_table n) (n_cache n) (n_now n) (n_routes n) (n_protocols n) (n_id n).

(** The fields of a header before the addresses: version 4, 5 words, TTL 64. *)
Definition ipv4_fill (b : net_buf) (len id protocol : Z) : outcome net_buf :=
  (do b <- buf_write b 0 (replicate 20 0);
   do v <- buf_field b 0 1;
   do b <- buf_set_field b 0 1 (Z.lor (Z.land v 0x0F) (Z.shiftl 4 4));
   do v <- buf_field b 0 1;
   do b <- buf_set_field b 0 1 (Z.lor (Z.land v 0xF0) 5);
   do b <- buf_set_field b 1 1 0;
   do b <- buf_set_field b 2 2 (htons (u16 len));
   do b <- buf_set_field b 4 2 (htons id);
   do b <- buf_set_field b 6 2 0;
   do b <- buf_set_field b 8 1 64;
   buf_set_field b 9 1 protocol)%out.

(** The addresses and the checksum. *)
Definition ipv4_finish (b : net_buf) (src dest : Z) : outcome net_buf :=
  (do b <- buf_set_field b 12 4 src;
   do b <- buf_set_field b 16 4 dest;
   do b <- buf_set_field b 10 2 0;
   do v <- buf_field b 0 1;
   do hdr <- buf_read b 0 (Z.land v 0x0F * 4);
   do sum <- ipv4_checksum hdr;
   buf_set_field b 10 2 sum)%out.

Definition ipv4_output (n : netstate S) (b : net_buf) (dest src protocol : Z)
    : outcome (Z * net_buf * netstate S) :=
  (match (match ipv4_route_lookup (n_routes n) dest with
          | Some r => Some r
          | None => ipv4_route_get_default (n_routes n)
          end) with
   | None => Ret (-1, b, n)
   | Some route =>
       let b := net_reserve b IPV4_HEADER_MIN in
       let id := u16 (n_id n + 1) in
       let n := mk_net (n_heap n) (n_table n) (n_cache n) (n_now n) (n_routes n) (n_protocols n) id in
       do b <- ipv4_fill b (nb_len b) id protocol;
       let dev := devs (n_table n) !! rt_dev route in
       match (if negb (src =? 0) then Some src
              else if negb (rt_src route =? 0) then Some (rt_src route)
              else option_map ip_addr dev) with
       | None => Ret (-1, b, n)
       | Some src =>
           do b <- ipv4_finish b src dest;
           let next_hop := if negb (rt_gateway route =? 0) then rt_gateway route else dest in
           do '(mac, n) <-
             (if negb (ipv4_addr_is_loopback dest) then
                do '(mac, (s, t, c, now)) <-
                  arp_resolve during (n_heap n) (n_table n) (n_cache n) (n_now n) (rt_dev route) next_hop;
                Ret (mac, mk_net s t c now (n_routes n) (n_protocols n) (n_id n))
              else do d <- of_option dev; Ret (Some (mac_addr d), n));
           match mac with
           | None => Ret (-1, b, n)
           | Some mac =>
               do '(r, b, t) <- ethernet_output (n_table n) b (rt_dev route) mac ETH_P_IP;
               Ret (r, b, mk_net (n_heap n) t (n_cache n) (n_now n) (n_routes n) (n_protocols n) (n_id n))
           end
       end
   end)%out.

(** [icmp_output] *)
Definition icmp_output (n : netstate S) (b : net_buf) (dest src type code : Z)
    : outcome (Z * net_buf * netstate S) :=
  (do b <- buf_set_field b 0 1 type;
   do b <- buf_set_field b 1 1 code;
   do b <- buf_set_field b 2 2 0;
   do msg <- buf_read b 0 (nb_len b);
   do sum <- icmp_checksum msg;
   do b <- buf_set_field b 2 2 sum;
   ipv4_output n b dest src IP_PROTO_ICMP)%out.

Definition ICMP_TYPE_ECHO_REPLY : Z := 0.
Definition ICMP_TYPE_DEST_UNREACH : Z := 3.
Definition ICMP_TYPE_ECHO_REQUEST : Z := 8.
Definition ICMP_TYPE_TIME_EXCEEDED : Z := 11.
Definition ICMP_CODE_TTL_EXCEEDED : Z := 0.

(** The answer to a packet whose time to live is used up. *)
Definition time_exceeded (n : netstate S) (b : net_buf) (hlen : Z) : outcome (netstate S) :=
  (do '(oi, s) <- net_alloc_buf (n_heap n) (u32 (nb_len b + 8));
   let n := with_heap n s in
   match oi with
   | None => Ret n
   | Some i =>
       do hdr <- buf_read b 0 (hlen + 8);
       do i <- buf_write i 0 hdr;
       let i := with_len i (hlen + 8) in
       do src <- buf_field b 12 4;
       do dst <- buf_field b 16 4;
       do '(_, i, n) <- icmp_output n i src dst ICMP_TYPE_TIME_EXCEEDED ICMP_CODE_TTL_EXCEEDED;
       do s <- net_free_buf (n_heap n) (Some i);
       Ret (with_heap n s)
   end)%out.

(** [ipv4_input]: the buffer, the handler that is called with it, and the state. *)
Definition ipv4_input (n : netstate S) (b : net_buf) : outcome (net_buf * option ip_handler * netstate S) :=
  (do v <- buf_field b 0 1;
   if negb (Z.shiftr v 4 =? 4) then Ret (b, None, n)
   else if nb_len b <? IPV4_HEADER_MIN then Ret (b, None, n)
   else
     do checksum <- buf_field b 10 2;
     do b <- buf_set_field b 10 2 0;
     let hlen := Z.land v 0x0F * 4 in
     do hdr <- buf_read b 0 hlen;
     do sum <- ipv4_checksum hdr;
     if negb (sum =? checksum) then Ret (b, None, n)
     else
       do b <- buf_set_field b 10 2 checksum;
       do ttl <- buf_field b 8 1;
       if ttl <=? 1 then do n <- time_exceeded n b hlen; Ret (b, None, n)
       else
         do protocol <- buf_field b 9 1;
         let b := net_pull b hlen in
         Ret (b, if protocol <? 256 then n_protocols n !! protocol else None, n))%out.

(** [icmp_ping_state] *)
Record ping := mk_ping { waiting : bool; ping_id : Z; ping_seq : Z; completed : bool }.

(** [icmp_input] *)
Definition icmp_input (n : netstate S) (p : ping) (b : net_buf) (src dst : Z)
    : outcome (Z * net_buf * ping * netstate S) :=
  (if nb_len b <? 8 then Ret (-1, b, p, n)
   else
     do checksum <- buf_field b 2 2;
     do b <- buf_set_field b 2 2 0;
     do msg <- buf_read b 0 (nb_len b);
     do sum <- icmp_checksum msg;
     if negb (sum =? checksum) then Ret (-1, b, p, n)
     else
       do b <- buf_set_field b 2 2 checksum;
       do type <- buf_field b 0 1;
       if type =? ICMP_TYPE_ECHO_REQUEST then
         do b <- buf_set_field b 0 1 ICMP_TYPE_ECHO_REPLY;
         do b <- buf_set_field b 2 2 0;
         do msg <- buf_read b 0 (nb_len b);
         do sum <- icmp_checksum msg;
         do b <- buf_set_field b 2 2 sum;
         do '(_, b, n) <- ipv4_output n b src dst IP_PROTO_ICMP;
         Ret (0, b, p, n)
       else if type =? ICMP_TYPE_ECHO_REPLY then
         do id <- buf_field b 4 2;
         do seq <- buf_field b 6 2;
         Ret (0, b, if waiting p && (ping_id p =? ntohs id) && (ping_seq p =? ntohs seq)
                    then mk_ping (waiting p) (ping_id p) (ping_seq p) true else p, n)
       else Ret (0, b, p, n))%out.

(** * UDP *)

Definition UDP_HEADER_SIZE : Z := 8.

(** Ports to handlers; a handler is named by a number. *)
Definition udp_handlers := gmap Z Z.

Definition udp_register_handler (hs : udp_handlers) (port h : Z) : Z * udp_handlers :=
  match hs !! port with Some _ => (-1, hs) | None => (0, <[port := h]> hs) end.

Definition udp_unregister_handler (hs : udp_handlers) (port : Z) : udp_handlers := delete port hs.

(** [udp_input]: the result, and the call of a handler with its ports. *)
Definition udp_input (hs : udp_handlers) (b : net_buf) : outcome (Z * net_buf * option (Z * Z * Z)) :=
  (if nb_len b <? UDP_HEADER_SIZE then Ret (-1, b, None)
   else
     do sp <- buf_field b 0 2;
     do dp <- buf_field b 2 2;
     do ln <- buf_field b 4 2;
     if nb_len b <? ntohs ln then Ret (-1, b, None)
     else
       let b := net_pull b UDP_HEADER_SIZE in
       Ret (0, b, match hs !! ntohs dp with Some h => Some (h, ntohs sp, ntohs dp) | None => None end))%out.

Definition udp_output (n : netstate S) (b : net_buf) (dest src dest_port src_port : Z)
    : outcome (Z * net_buf * netstate S) :=
  (let b := net_reserve b UDP_HEADER_SIZE in
   do b <- buf_set_field b 0 2 (htons src_port);
   do b <- buf_set_field b 2 2 (htons dest_port);
   do b <- buf_set_field b 4 2 (htons (u16 (nb_len b + UDP_HEADER_SIZE)));
   do b <- buf_set_field b 6 2 0;
   let b := with_len b (u32 (nb_len b + UDP_HEADER_SIZE)) in
   ipv4_output n b dest src IP_PROTO_UDP)%out.
End packets.

(** The protocols after [icmp_init], [tcp_init] and [udp_init]. *)
Definition protocols_init : ipv4_protocols :=
  let ps := ∅ in
  let ps := (ipv4_register_protocol ps IP_PROTO_ICMP icmp_handler).2 in
  let ps := (ipv4_register_protocol ps IP_PROTO_TCP tcp_handler).2 in
  (ipv4_register_protocol ps IP_PROTO_UDP udp_handler).2.
