(* ===== verification/Ipv4Spec.v ===== *)
(** Properties of the IPv4 layer of Ipv4.v: the checksum, routing, textual addresses, and
    that input accepts the headers output writes. *)

From S2P Require Import Prelude Bytes LibMem LibString Printf NetBuf Ethernet Arp Ipv4.

(** * The checksum *)

(** The sum of the words without wrapping, and its 16-bit one's complement value. *)
Fixpoint word_sum (data : list Z) : Z :=
  match data with
  | x :: y :: data' => x + 256 * y + word_sum data'
  | [x] => x
  | [] => 0
  end.

Definition ones_sum (s : Z) : Z := if s =? 0 then 0 else 1 + (s - 1) mod 65535.

(** Two bytes at a time. *)
Lemma pair_ind (P : list Z -> Prop) :
  P [] -> (forall x, P [x]) -> (forall x y l, P l -> P (x :: y :: l)) -> forall l, P l.
Proof.
  intros H0 H1 H2 l. cut (P l /\ forall x, P (x :: l)); [tauto |].
  induction l as [|y l [IH1 IH2]]; [auto |]. split; [apply IH2 |]. intros x. by apply H2.
Qed.

Lemma word_sum_bound (data : list Z) :
  Forall (fits 8) data -> 0 <= word_sum data <= 65535 * (Z.of_nat (length data) / 2 + 1).
Proof.
  induction data as [| x | x y l IH] using pair_ind; intros HF; cbn [word_sum length].
  - lia.
  - apply Forall_cons in HF as [[? ?] _]. change (2 ^ 8) with 256 in *. dlia.
  - apply Forall_cons in HF as [[? ?] HF]. apply Forall_cons in HF as [[? ?] HF].
    change (2 ^ 8) with 256 in *. specialize (IH HF). dlia.
Qed.

Lemma csum_words_eq (data : list Z) (s : Z) :
  Forall (fits 8) data -> 0 <= s -> s + word_sum data < 2 ^ 32 -> csum_words data s = s + word_sum data.
Proof.
  revert s. induction data as [| x | x y l IH] using pair_ind; intros s HF Hs Hb; cbn [word_sum csum_words] in *.
  - lia.
  - apply Forall_cons in HF as [[? ?] _]. rewrite wrap_small; [done |]. split; lia.
  - apply Forall_cons in HF as [[? ?] HF]. apply Forall_cons in HF as [[? ?] HF].
    pose proof (word_sum_bound l HF). rewrite wrap_small by (split; lia). rewrite IH by (done || lia). lia.
Qed.

(** Folding keeps the value modulo 65535 and ends within two rounds. *)
Lemma csum_fold_eq (s : Z) : 0 <= s < 2 ^ 32 -> csum_fold 2 s = Ret (ones_sum s).
Proof.
  intros Hs. change (2 ^ 32) with 4294967296 in Hs.
  assert (Hstep : forall z, 0 <= z < 4294967296 -> u32 (Z.land z 0xFFFF + Z.shiftr z 16) = z mod 65536 + z / 65536).
  { intros z Hz. change 0xFFFF with (Z.ones 16). rewrite Z.land_ones, Z.shiftr_div_pow2 by lia.
    change (2 ^ 16) with 65536. apply wrap_small. split; [dlia |]. change (2 ^ 32) with 4294967296. dlia. }
  assert (Hone : forall z, 0 <= z < 65536 -> ones_sum z = z).
  { intros z Hz. unfold ones_sum. destruct (Z.eqb_spec z 0); [done |]. rewrite Z.mod_small; lia. }
  assert (Hinv : forall z, 0 <= z < 4294967296 -> ones_sum (z mod 65536 + z / 65536) = ones_sum z).
  { intros z Hz. unfold ones_sum. destruct (Z.eqb_spec z 0) as [-> | Hne]; [done |].
    destruct (Z.eqb_spec (z mod 65536 + z / 65536) 0); [dlia |]. f_equal.
    pose proof (Z.div_mod z 65536 ltac:(lia)) as E.
    replace (z - 1) with (z mod 65536 + z / 65536 - 1 + (z / 65536) * 65535) by lia.
    by rewrite Z_mod_plus_full. }
  assert (Hcase : forall z, 0 <= z < 4294967296 -> (Z.shiftr z 16 =? 0) = (z <? 65536)).
  { intros z Hz. rewrite Z.shiftr_div_pow2 by lia. change (2 ^ 16) with 65536. dlia. }
  cbn [csum_fold]. rewrite Hcase by lia. destruct (Z.ltb_spec s 65536); [by rewrite Hone by lia |].
  rewrite Hstep by lia. rewrite <- (Hinv s) by lia. set (s1 := s mod 65536 + s / 65536).
  assert (Hs1 : 0 <= s1 <= 131070) by (unfold s1; dlia).
  rewrite Hcase by lia. destruct (Z.ltb_spec s1 65536); [by rewrite Hone by lia |].
  rewrite Hstep by lia. rewrite <- (Hinv s1) by lia. set (s2 := s1 mod 65536 + s1 / 65536).
  assert (Hs2 : 0 <= s2 < 65536) by (unfold s2; dlia).
  rewrite Hcase by lia. replace (s2 <? 65536) with true by lia. by rewrite Hone by lia.
Qed.

Lemma ones_sum_bound (s : Z) : 0 <= ones_sum s <= 65535.
Proof. unfold ones_sum. destruct (s =? 0); [lia |]. pose proof (Z.mod_pos_bound (s - 1) 65535 ltac:(lia)). lia. Qed.

Lemma wnot16 (z : Z) : 0 <= z <= 65535 -> wnot 16 z = 65535 - z.
Proof.
  intros Hz. unfold wnot, Z.lnot, wrap. change (2 ^ 16) with 65536.
  rewrite <- (Z_mod_plus_full _ 1), Z.mod_small; lia.
Qed.

Lemma ipv4_checksum_eq (data : list Z) :
  Forall (fits 8) data -> Z.of_nat (length data) <= 65536 ->
  ipv4_checksum data = Ret (65535 - ones_sum (word_sum data)).
Proof.
  intros HF Hl. pose proof (word_sum_bound data HF) as Hw. unfold ipv4_checksum.
  assert (word_sum data < 2 ^ 32) by (change (2 ^ 32) with 4294967296; dlia).
  rewrite csum_words_eq, csum_fold_eq by (done || lia). cbn [obind].
  by rewrite wnot16 by apply ones_sum_bound.
Qed.

(** The checksum of a block is the complement of the one's complement sum of its 16-bit
    words: it is a 16-bit number, the loop ends, and adding it to the words gives a
    multiple of 65535 (RFC 1071). *)
Theorem ipv4_checksum_spec (data : list Z) :
  Forall (fits 8) data -> Z.of_nat (length data) <= 65536 ->
  exists c, ipv4_checksum data = Ret c /\ fits 16 c /\ (word_sum data + c) mod 65535 = 0.
Proof.
  intros HF Hl. exists (65535 - ones_sum (word_sum data)). split; [by apply ipv4_checksum_eq |].
  pose proof (ones_sum_bound (word_sum data)). split; [split; lia |].
  unfold ones_sum. destruct (Z.eqb_spec (word_sum data) 0) as [-> | Hne]; [done |].
  rewrite (Z.mod_eq (word_sum data - 1)) by lia. set (q := (word_sum data - 1) / 65535).
  replace (word_sum data + (65535 - (1 + (word_sum data - 1 - 65535 * q)))) with ((q + 1) * 65535) by lia.
  apply Z.mod_mul. lia.
Qed.

Lemma ipv4_checksum_spec_witness :
  exists c, ipv4_checksum [0x45; 0; 0; 0x54; 0; 1; 0; 0; 64; 1; 0; 0; 10; 0; 2; 15; 10; 0; 2; 2] = Ret c /\ c = 0x9862.
Proof.
  destruct (ipv4_checksum_spec [0x45; 0; 0; 0x54; 0; 1; 0; 0; 64; 1; 0; 0; 10; 0; 2; 15; 10; 0; 2; 2])
    as (c & E & _ & _); [by repeat constructor | cbn; lia |].
  exists c. split; [exact E |]. vm_compute in E. congruence.
Defined.

Lemma word_sum_app (l k : list Z) : Nat.even (length l) = true -> word_sum (l ++ k) = word_sum l + word_sum k.
Proof.
  induction l as [| x | x y l IH] using pair_ind; intros He; [done | done |].
  cbn [app word_sum]. cbn in He. rewrite IH by done. lia.
Qed.

(** One byte weighs 1 or 256. *)
Lemma word_sum_insert (data : list Z) (i : nat) (b b' : Z) :
  data !! i = Some b ->
  word_sum (<[i := b']> data) = word_sum data + (b' - b) * (if Nat.even i then 1 else 256).
Proof.
  revert i. induction data as [| x | x y l IH] using pair_ind; intros i Hi; [done | |].
  - destruct i; [| done]. injection Hi as ->. cbn. lia.
  - destruct i as [|[|i]].
    + injection Hi as ->. cbn. lia.
    + injection Hi as ->. cbn. lia.
    + change (<[S (S i) := b']> (x :: y :: l)) with (x :: y :: <[i := b']> l).
      cbn [word_sum]. rewrite IH by done. change (Nat.even (S (S i))) with (Nat.even i). lia.
Qed.

Lemma ones_sum_differ (s d : Z) :
  0 <= s -> 0 <= s + d -> d <> 0 -> -65280 <= d <= 65280 -> ones_sum s = ones_sum (s + d) -> False.
Proof.
  intros Hs Hsd Hd Hb. unfold ones_sum.
  destruct (Z.eqb_spec s 0) as [E1 | E1], (Z.eqb_spec (s + d) 0) as [E2 | E2]; intros E; dlia.
Qed.

(** Damage to any one byte of a packet header is detected: the checksum of the
    changed block is another one. *)
Theorem ipv4_checksum_detects (data : list Z) (i : nat) (b b' : Z) :
  Forall (fits 8) data -> Z.of_nat (length data) <= 65536 ->
  data !! i = Some b -> fits 8 b' -> b' <> b ->
  ipv4_checksum (<[i := b']> data) <> ipv4_checksum data.
Proof.
  intros HF Hl Hi Hb' Hne. pose proof (Forall_lookup_1 _ _ _ _ HF Hi) as Hb.
  assert (HF' : Forall (fits 8) (<[i := b']> data)) by by apply Forall_insert.
  rewrite !ipv4_checksum_eq by (done || by rewrite length_insert). intros [= E].
  rewrite (word_sum_insert data i b b') in E by done. destruct Hb, Hb'. change (2 ^ 8) with 256 in *.
  pose proof (proj1 (word_sum_bound _ HF)) as Hw.
  pose proof (proj1 (word_sum_bound _ HF')) as Hw'. rewrite (word_sum_insert data i b b') in Hw' by done.
  apply (ones_sum_differ (word_sum data) ((b' - b) * (if Nat.even i then 1 else 256)));
    [done | done | destruct (Nat.even i); lia | destruct (Nat.even i); lia | lia].
Qed.

Lemma ipv4_checksum_detects_witness :
  ipv4_checksum [0x45; 0; 0; 0x54; 0; 1; 0; 0; 63; 1] <> ipv4_checksum [0x45; 0; 0; 0x54; 0; 1; 0; 0; 64; 1].
Proof.
  apply (ipv4_checksum_detects [0x45; 0; 0; 0x54; 0; 1; 0; 0; 64; 1] 8 64 63);
    [by repeat constructor | cbn; lia | reflexivity | by split | lia].
Defined.

(** * Routing *)

Lemma lookup_from_spec (rs : list ipv4_route) (dest : Z) (best : option ipv4_route) :
  match lookup_from rs dest best with
  | None => best = None /\ Forall (fun r => route_matches dest r = false) rs
  | Some r =>
      (best = Some r /\ Forall (fun r' => route_matches dest r' = true -> rt_metric r <= rt_metric r') rs) \/
      exists l k, rs = l ++ r :: k /\ route_matches dest r = true /\
        (forall r', best = Some r' -> rt_metric r < rt_metric r') /\
        Forall (fun r' => route_matches dest r' = true -> rt_metric r < rt_metric r') l /\
        Forall (fun r' => route_matches dest r' = true -> rt_metric r <= rt_metric r') k
  end.
Proof.
  revert best. induction rs as [|x rs IH]; intros best; cbn [lookup_from].
  { destruct best as [b|]; [left; by split |]. by split. }
  specialize (IH (if route_matches dest x && better best x then Some x else best)).
  destruct (lookup_from rs dest _) as [r|].
  - destruct (route_matches dest x) eqn:Em; cbn [andb] in IH; [destruct (better best x) eqn:Eb |].
    + right. destruct IH as [[[= <-] Hk] | (l & k & -> & Hm & Hlt & Hl & Hk)].
      * exists [], rs. split; [done |]. split; [done |]. split; [| by split].
        intros r' ->. cbn in Eb. lia.
      * exists (x :: l), k. specialize (Hlt x eq_refl). split; [done |]. split; [done |]. split; [| by split; [constructor |]].
        intros r' ->. cbn in Eb. lia.
    + destruct IH as [[-> Hk] | (l & k & -> & Hm & Hlt & Hl & Hk)].
      * left. split; [done |]. constructor; [| done]. intros _. cbn in Eb. lia.
      * right. exists (x :: l), k. split; [done |]. split; [done |]. split; [done |]. split; [| done].
        constructor; [| done]. intros _. destruct best as [b|]; [| done]. specialize (Hlt b eq_refl). cbn in Eb. lia.
    + destruct IH as [[-> Hk] | (l & k & -> & Hm & Hlt & Hl & Hk)].
      * left. split; [done |]. by constructor; [rewrite Em |].
      * right. exists (x :: l), k. split; [done |]. split; [done |]. split; [done |]. split; [| done].
        by constructor; [rewrite Em |].
  - destruct IH as [Hb Hall]. destruct (route_matches dest x) eqn:Em; cbn [andb] in Hb.
    + destruct best; cbn in Hb; [by destruct (_ <? _) | done].
    + split; [done |]. by constructor.
Qed.

Lemma ipv4_route_lookup_ok (rs : list ipv4_route) (dest : Z) :
  match ipv4_route_lookup rs dest with
  | None => Forall (fun r => route_matches dest r = false) rs
  | Some r => exists l k, rs = l ++ r :: k /\ route_matches dest r = true /\
      Forall (fun r' => route_matches dest r' = true -> rt_metric r < rt_metric r') l /\
      Forall (fun r' => route_matches dest r' = true -> rt_metric r <= rt_metric r') k
  end.
Proof.
  unfold ipv4_route_lookup. pose proof (lookup_from_spec rs dest None) as H.
  destruct (lookup_from rs dest None) as [r|]; [| apply H].
  destruct H as [[[=] _] | (l & k & H1 & H2 & _ & H3)]. by exists l, k.
Qed.

(** Route lookup returns a matching route of least metric, the first one added among
    equals, whatever the lengths of the masks, and nothing exactly when no route matches. *)
Theorem ipv4_route_lookup_spec (rs : list ipv4_route) (dest : Z) :
  match ipv4_route_lookup rs dest with
  | None => Forall (fun r => route_matches dest r = false) rs
  | Some r => exists l k, rs = l ++ r :: k /\ route_matches dest r = true /\
      Forall (fun r' => route_matches dest r' = true -> rt_metric r < rt_metric r') l /\
      Forall (fun r' => route_matches dest r' = true -> rt_metric r <= rt_metric r') k
  end.
Proof. exact (ipv4_route_lookup_ok rs dest). Qed.

(** A default route of low metric hides every more specific route: lookup compares
    metrics only. *)
Theorem ipv4_route_default_wins (rs : list ipv4_route) (dest : Z) (r d : ipv4_route) :
  d ∈ rs -> rt_dest d = 0 -> rt_netmask d = 0 -> rt_metric d < rt_metric r ->
  ipv4_route_lookup rs dest <> Some r.
Proof.
  intros Hin Hd Hn Hm E. pose proof (ipv4_route_lookup_ok rs dest) as Hs. rewrite E in Hs.
  destruct Hs as (l & k & -> & _ & Hl & Hk).
  assert (Hdm : route_matches dest d = true) by (unfold route_matches; rewrite Hd, Hn, Z.land_0_r; done).
  apply elem_of_app in Hin as [Hin | Hin]; [| apply elem_of_cons in Hin as [-> | Hin]].
  - pose proof (proj1 (Forall_forall _ _) Hl d Hin Hdm) as H. lia.
  - lia.
  - pose proof (proj1 (Forall_forall _ _) Hk d Hin Hdm) as H. lia.
Qed.

(** A network 10.0.0.0/8 of metric 10 and a default route of metric 1. *)
Lemma ipv4_route_default_wins_witness :
  let net := mk_route 1 0x0A 0xFF 0 0 8192 10 in
  let def := mk_route 2 0 0 0x0202000A 0 8192 1 in
  ipv4_route_lookup [net; def] 0x0100000A <> Some net.
Proof.
  intros net def. apply (ipv4_route_default_wins [net; def] 0x0100000A net def); [| done | done | done].
  apply elem_of_cons. right. by apply elem_of_cons; left.
Defined.

(** * Textual addresses *)

Definition dec_text (v : Z) : list Z := number_text 10 v false.

Definition ip_text (addr : Z) : list Z :=
  dec_text (octet addr 0) ++ 46 :: dec_text (octet addr 1) ++ 46 :: dec_text (octet addr 2) ++ 46 :: dec_text (octet addr 3).

Lemma octet_fits (addr i : Z) : fits 8 (octet addr i).
Proof. by apply wrap_fits. Qed.

Lemma format_u (strs : Z -> option (list Z)) (n : nat) (rest : list Z) (v : Z) (args : list va) :
  fits 8 v -> format_with (conversion strs) (S n) (37 :: 117 :: rest) (VInt v :: args) = app (dec_text v) <$> format_with (conversion strs) n rest args.
Proof.
  intros Hv. unfold dec_text. rewrite <- (wrap_small 32 v) at 2 by (apply (fits_mono 8); [lia | done]).
  set (x := format_with (conversion strs) n rest args).
  change (format_with (conversion strs) (S n) (37 :: 117 :: rest) (VInt v :: args)) with
    (app (fill (0 - Z.of_nat (length (number_text 10 (u32 v) false))) 32 ++ number_text 10 (u32 v) false) <$> x).
  unfold fill. by replace (Z.to_nat _) with 0%nat by lia.
Qed.

Lemma format_ip (strs : Z -> option (list Z)) (addr : Z) :
  format strs IP_FMT ((fun i => VInt (octet addr i)) <$> [0; 1; 2; 3]) = Some (ip_text addr).
Proof.
  change (format strs IP_FMT ?args) with (format_with (conversion strs) (S (S (S (S (S (S (S 4))))))) IP_FMT args).
  unfold IP_FMT. cbn [fmap list_fmap].
  assert (Hc : forall n rest args, format_with (conversion strs) (S n) (46 :: rest) args = cons 46 <$> format_with (conversion strs) n rest args)
    by reflexivity.
  do 4 (rewrite format_u by apply octet_fits; rewrite ?Hc).
  cbn [format_with fmap option_fmap option_map]. by rewrite app_nil_r.
Qed.

(** The decimal text of a byte has one to three digits, and they denote it. *)
Lemma dec_text_digits (v : Z) :
  fits 8 v -> exists ds, dec_text v = (fun d => 48 + d) <$> ds /\ (0 < length ds <= 3)%nat /\
    Forall (fun d => 0 <= d < 10) ds /\ digits_value 10 ds = v.
Proof.
  intros [H1 H2]. change (2 ^ 8) with 256 in H2. exists (digits_of 64 10 v).
  pose proof (digits_of_bound 64 10 v ltac:(lia) H1) as HF. split.
  { unfold dec_text, number_text. apply list_fmap_ext. intros i d Hd.
    pose proof (Forall_lookup_1 _ _ _ _ HF Hd) as Hb. cbn beta in Hb. unfold hex_digit. by replace (d <? 10) with true by lia. }
  split; [| split; [done |]].
  - change 64%nat with (S (S (S 61))). cbn [digits_of]. destruct (v <? 10) eqn:E1; [cbn; lia |].
    destruct (v / 10 <? 10) eqn:E2; [cbn; lia |]. replace (v / 10 / 10 <? 10) with true by dlia. cbn. lia.
  - apply digits_of_value; [lia |]. split; [lia |]. eapply Z.lt_le_trans; [exact H2 |]. vm_compute. discriminate.
Qed.

#[local] Opaque dec_text.

(** The loop of [ipv4_pton] over the digits of one number. *)
Lemma pton_digits (ds rest : list Z) (fuel : nat) (m : mem) (p : Z) (octets : list Z) (i v : Z) :
  Forall (fun d => 0 <= d < 10) ds -> 0 <= v -> i < 4 ->
  (v + 1) * 10 ^ Z.of_nat (length ds) < 2 ^ 32 ->
  cstr m p (((fun d => 48 + d) <$> ds) ++ rest) -> (length ds < fuel)%nat ->
  pton_loop fuel m p octets i v =
  pton_loop (fuel - length ds) m (p + Z.of_nat (length ds)) octets i (fold_left (fun r d => r * 10 + d) ds v).
Proof.
  revert fuel p v. induction ds as [|d ds IH]; intros fuel p v HF Hv Hi Hb Hc Hf; cbn [length fold_left].
  { rewrite Nat.sub_0_r. by replace (p + Z.of_nat 0) with p by lia. }
  destruct fuel as [|fuel]; [cbn in Hf; lia |]. apply Forall_cons in HF as [Hd HF].
  cbn [fmap list_fmap app] in Hc. destruct Hc as (H0 & E & Hc). cbn [pton_loop]. rewrite E.
  replace ((48 + d =? 0) || (4 <=? i)) with false by lia. replace ((48 <=? 48 + d) && _) with true by lia.
  replace (48 + d - 48) with d by lia. cbn [length] in Hb, Hf.
  rewrite Nat2Z.inj_succ, Z.pow_succ_r in Hb by lia.
  assert (0 < 10 ^ Z.of_nat (length ds)) by (apply Z.pow_pos_nonneg; lia).
  rewrite wrap_small by (split; nia). rewrite IH; [| done | lia | done | nia | done | lia].
  replace (S fuel - S (length ds))%nat with (fuel - length ds)%nat by lia. f_equal. lia.
Qed.

Lemma pton_octet (v : Z) (rest : list Z) (fuel : nat) (m : mem) (p : Z) (octets : list Z) (i : Z) :
  fits 8 v -> i < 4 -> cstr m p (dec_text v ++ rest) -> (length (dec_text v ++ rest) < fuel)%nat ->
  exists fuel', (length rest < fuel')%nat /\
    pton_loop fuel m p octets i 0 = pton_loop fuel' m (p + Z.of_nat (length (dec_text v))) octets i v /\
    cstr m (p + Z.of_nat (length (dec_text v))) rest.
Proof.
  intros Hv Hi Hc Hf. destruct (dec_text_digits v Hv) as (ds & E & Hl & HF & Hval).
  rewrite E, length_app in *. rewrite length_fmap in *. exists (fuel - length ds)%nat. split; [lia |].
  assert (Hlen : Z.of_nat (length ds) <= 3) by lia.
  split.
  - rewrite (pton_digits ds rest) by (done || lia || (pose proof (Z.pow_le_mono_r 10 _ _ ltac:(lia) Hlen); lia)).
    by replace (fold_left _ ds 0) with v by done.
  - clear -Hc. revert p Hc. induction ds as [|d ds IH]; intros p Hc; cbn [length].
    + by replace (p + Z.of_nat 0) with p by lia.
    + cbn [fmap list_fmap app] in Hc. destruct Hc as (_ & _ & Hc). apply IH in Hc.
      by replace (p + Z.of_nat (S (length ds))) with (p + 1 + Z.of_nat (length ds)) by lia.
Qed.

Lemma pton_dot (rest : list Z) (fuel : nat) (m : mem) (p : Z) (octets : list Z) (i v : Z) :
  i < 4 -> cstr m p (46 :: rest) -> (S (length rest) < fuel)%nat ->
  exists fuel', (length rest < fuel')%nat /\
    pton_loop fuel m p octets i v = pton_loop fuel' m (p + 1) (set octets i v) (i + 1) 0 /\ cstr m (p + 1) rest.
Proof.
  intros Hi (H0 & E & Hc) Hf. destruct fuel as [|fuel]; [lia |]. exists fuel. split; [lia |].
  split; [| done]. cbn [pton_loop]. rewrite E. by replace ((46 =? 0) || (4 <=? i)) with false by lia.
Qed.

Lemma of_octets_octet (addr : Z) :
  fits 32 addr -> of_octets (octet addr 0) (octet addr 1) (octet addr 2) (octet addr 3) = addr.
Proof.
  intros Ha. unfold of_octets, octet. rewrite !wrap_wrap by lia. rewrite <- (le_val_bytes 4 addr) at 5 by done.
  cbn [le_bytes]. rewrite !Z.shiftr_shiftr by lia. by rewrite Z.shiftr_0_r.
Qed.

Lemma ipv4_pton_text (fuel : nat) (m : mem) (str addr : Z) :
  fits 32 addr -> cstr m str (ip_text addr) -> (length (ip_text addr) < fuel)%nat ->
  ipv4_pton fuel m str = Ret addr.
Proof.
  intros Ha Hc Hf. unfold ipv4_pton, ip_text in *.
  destruct (pton_octet (octet addr 0) _ fuel m str [0; 0; 0; 0] 0 (octet_fits _ _) ltac:(lia) Hc Hf) as (f1 & L1 & -> & C1).
  destruct (pton_dot _ f1 m _ [0; 0; 0; 0] 0 (octet addr 0) ltac:(lia) C1 L1) as (f2 & L2 & -> & C2).
  change (0 + 1) with 1.
  destruct (pton_octet (octet addr 1) _ f2 m _ (set [0; 0; 0; 0] 0 (octet addr 0)) 1 (octet_fits _ _) ltac:(lia) C2 L2) as (f3 & L3 & -> & C3).
  destruct (pton_dot _ f3 m _ (set [0; 0; 0; 0] 0 (octet addr 0)) 1 (octet addr 1) ltac:(lia) C3 L3) as (f4 & L4 & -> & C4).
  change (1 + 1) with 2.
  set (o2 := set (set [0; 0; 0; 0] 0 (octet addr 0)) 1 (octet addr 1)) in *.
  destruct (pton_octet (octet addr 2) _ f4 m _ o2 2 (octet_fits _ _) ltac:(lia) C4 L4) as (f5 & L5 & -> & C5).
  destruct (pton_dot _ f5 m _ o2 2 (octet addr 2) ltac:(lia) C5 L5) as (f6 & L6 & -> & C6).
  change (2 + 1) with 3.
  rewrite <- (app_nil_r (dec_text (octet addr 3))) in C6, L6.
  destruct (pton_octet (octet addr 3) [] f6 m _ (set o2 2 (octet addr 2)) 3 (octet_fits _ _) ltac:(lia) C6 L6) as (f7 & L7 & -> & C7).
  destruct f7 as [|f7]; [cbn in L7; lia |]. cbn [pton_loop]. cbn in C7. rewrite C7. cbn [Z.eqb orb obind].
  pose proof (octet_fits addr 3) as [? ?]. change (2 ^ 8) with 256 in *.
  change (3 =? 3) with true. replace (octet addr 3 <=? 255) with true by lia. cbn [andb]. f_equal.
  by apply of_octets_octet.
Qed.

Lemma ip_text_length (addr : Z) : (7 <= length (ip_text addr) <= 15)%nat.
Proof.
  unfold ip_text. repeat (rewrite length_app; cbn [length]).
  assert (forall i, (1 <= length (dec_text (octet addr i)) <= 3)%nat) as H.
  { intros i. destruct (dec_text_digits (octet addr i) (octet_fits _ _)) as (ds & -> & Hl & _). rewrite length_fmap. lia. }
  pose proof (H 0). pose proof (H 1). pose proof (H 2). pose proof (H 3). lia.
Qed.

Lemma ip_text_chars (addr : Z) : Forall (fun c => 0 < c < 256) (ip_text addr).
Proof.
  assert (forall i, Forall (fun c => 0 < c < 256) (dec_text (octet addr i))) as H.
  { intros i. change (dec_text (octet addr i)) with (number_text 10 (octet addr i) false). apply number_text_fits; [lia |]. pose proof (octet_fits addr i) as []. lia. }
  unfold ip_text. repeat (apply Forall_app; split; [apply H |]; constructor; [lia |]). apply H.
Qed.

(** An IPv4 address printed by ipv4_ntop into a 16-byte buffer and read back by
    ipv4_pton is the same address. *)
Theorem ipv4_text_roundtrip (fuel : nat) (m : mem) (fmt addr buf : Z) :
  fits 32 addr -> cstr m fmt IP_FMT -> fmt + 11 < buf \/ buf + 16 <= fmt -> (15 < fuel)%nat ->
  exists m1, ipv4_ntop fuel fmt m addr buf 16 = Ret m1 /\ ipv4_pton fuel m1 buf = Ret addr /\
    forall a, a < buf \/ buf + 16 <= a -> ldb m1 a = ldb m a.
Proof.
  intros Ha Hf Hd Hfu. pose proof (ip_text_length addr) as Hl.
  destruct (vsnprintf_ok fuel m buf 16 fmt IP_FMT ((fun i => VInt (octet addr i)) <$> [0; 1; 2; 3]) (fun _ => None) (ip_text addr))
    as (r & m1 & E & Hb & Hz & Ho & _); [lia | | cbn; lia | done | apply format_ip | lia |].
  { split; [done |]. change (length IP_FMT) with 11%nat. lia. }
  replace (Z.min (Z.of_nat (length (ip_text addr))) (16 - 1)) with (Z.of_nat (length (ip_text addr))) in Hb, Hz by lia.
  exists m1. split; [unfold ipv4_ntop, snprintf; by rewrite E |]. split; [| done].
  apply ipv4_pton_text; [done | | lia]. apply cstr_of_lookup; [| done].
  intros i c Hi. split; [exact (Forall_lookup_1 _ _ _ _ (ip_text_chars addr) Hi) |].
  pose proof (lookup_lt_Some _ _ _ Hi). rewrite Hb by lia. unfold get. by rewrite Nat2Z.id, nth_lookup, Hi.
Qed.

(** 10.0.2.15 *)
Lemma ipv4_text_roundtrip_witness :
  exists m1, ipv4_ntop 20 1000 (fun a => get IP_FMT (a - 1000)) 0x0F02000A 100 16 = Ret m1 /\
    ipv4_pton 20 m1 100 = Ret 0x0F02000A.
Proof.
  destruct (ipv4_text_roundtrip 20 (fun a => get IP_FMT (a - 1000)) 1000 0x0F02000A 100) as (m1 & E1 & E2 & _).
  - by split.
  - repeat (split; [lia || done |]). done.
  - lia.
  - lia.
  - exists m1. split; [exact E1 | exact E2].
Defined.

(** The parser checks the range of the last octet only: an octet over 255 before it is
    cut to its low byte instead of being refused. *)
Theorem ipv4_pton_truncates :
  let m : mem := fun a => get [50; 53; 55; 46; 49; 46; 49; 46; 49] a in
  cstr m 0 [50; 53; 55; 46; 49; 46; 49; 46; 49] /\ ipv4_pton 20 m 0 = Ret (of_octets 1 1 1 1).
Proof. split; [| vm_compute; reflexivity]. repeat (split; [lia || done |]). done. Qed.

(** * Headers *)

(** A buffer whose block is [pre ++ h ++ post], and accesses inside [h], which starts at
    [data]. *)
Definition window (b : net_buf) (pre h post : list Z) : net_buf := with_bytes b (pre ++ h ++ post).

Lemma window_write (b : net_buf) (pre h post : list Z) (off : Z) (bs : list Z) :
  nb_data b = Z.of_nat (length pre) -> 0 <= off -> off + Z.of_nat (length bs) <= Z.of_nat (length h) ->
  buf_write (window b pre h post) off bs = Ret (window b pre (splice h off bs) post).
Proof.
  intros Hd H0 H1. unfold buf_write, in_block, window. cbn [with_bytes nb_data nb_bytes]. rewrite !length_app, Hd.
  replace ((0 <=? _) && _) with true by lia. unfold with_bytes. do 2 f_equal. unfold splice. cbn [nb_data].
  rewrite take_app_ge, drop_app_ge by lia. rewrite take_app_le, drop_app_le by lia.
  rewrite <- !app_assoc. do 2 f_equal; [f_equal; lia |]. do 2 f_equal. f_equal. lia.
Qed.

Lemma window_read (b : net_buf) (pre h post : list Z) (off n : Z) :
  nb_data b = Z.of_nat (length pre) -> 0 <= off -> 0 <= n -> off + n <= Z.of_nat (length h) ->
  buf_read (window b pre h post) off n = Ret (take (Z.to_nat n) (drop (Z.to_nat off) h)).
Proof.
  intros Hd H0 Hn H1. unfold buf_read, in_block, window. cbn [with_bytes nb_data nb_bytes]. rewrite !length_app, Hd.
  replace ((0 <=? _) && _) with true by lia. f_equal. rewrite drop_app_ge, drop_app_le by lia.
  rewrite take_app_le by (rewrite length_drop; lia). do 2 f_equal. lia.
Qed.

Lemma window_field (b : net_buf) (pre h post : list Z) (off : Z) (n : nat) :
  nb_data b = Z.of_nat (length pre) -> 0 <= off -> off + Z.of_nat n <= Z.of_nat (length h) ->
  buf_field (window b pre h post) off n = Ret (le_val (take n (drop (Z.to_nat off) h))).
Proof.
  intros Hd H0 H1. unfold buf_field. rewrite window_read by (done || lia). cbn [obind]. by rewrite Nat2Z.id.
Qed.

(** The header before the checksum is put in. *)
Definition header_bytes (len id protocol src dest sum : Z) : list Z :=
  [0x45; 0] ++ le_bytes 2 (htons (u16 len)) ++ le_bytes 2 (htons id) ++ [0; 0; 64; u8 protocol] ++
  le_bytes 2 sum ++ le_bytes 4 src ++ le_bytes 4 dest.

(** Carry out the next access of a header, and compute the bytes it leaves. *)
Ltac in_window := first [done | cbn [length replicate le_bytes]; lia].
Ltac in_header Hd :=
  first [ rewrite (window_write _ _ _ _ _ _ Hd) by in_window
        | rewrite (window_field _ _ _ _ _ _ Hd) by in_window
        | rewrite (window_read _ _ _ _ _ _ Hd) by in_window ];
  cbn [obind splice take drop app length Z.to_nat Pos.to_nat Pos.iter_op Nat.add replicate le_bytes].

Lemma ipv4_fill_ok (b : net_buf) (pre h post : list Z) (len id protocol : Z) :
  nb_data b = Z.of_nat (length pre) -> length h = 20%nat ->
  ipv4_fill (window b pre h post) len id protocol =
  Ret (window b pre (header_bytes len id protocol 0 0 0) post).
Proof.
  intros Hd Hl. unfold ipv4_fill, buf_set_field.
  rewrite (window_write b pre h post 0 (replicate 20 0)) by (done || rewrite ?length_replicate; lia).
  replace (splice h 0 (replicate 20 0)) with (replicate 20 0).
  2: { unfold splice. rewrite drop_ge by (rewrite length_replicate; lia). done. }
  cbn [obind]. do 10 in_header Hd. reflexivity.
Qed.

Lemma ipv4_finish_ok (b : net_buf) (pre post : list Z) (len id protocol src dest : Z) :
  nb_data b = Z.of_nat (length pre) ->
  ipv4_finish (window b pre (header_bytes len id protocol 0 0 0) post) src dest =
  obind (ipv4_checksum (header_bytes len id protocol src dest 0))
    (fun sum => Ret (window b pre (header_bytes len id protocol src dest sum) post)).
Proof.
  intros Hd. unfold ipv4_finish, buf_set_field. do 5 in_header Hd.
  match goal with |- obind (ipv4_checksum ?l) _ = _ => change l with (header_bytes len id protocol src dest 0) end.
  destruct (ipv4_checksum _) as [sum| |]; [| done | done]. cbn [obind]. in_header Hd. reflexivity.
Qed.

Lemma header_bytes_fits (len id protocol src dest sum : Z) :
  Forall (fits 8) (header_bytes len id protocol src dest sum).
Proof.
  unfold header_bytes. cbn [le_bytes app].
  repeat (apply Forall_cons_2; [first [by apply wrap_fits | by split] |]). constructor.
Qed.

(** What [ipv4_output] writes as a header, [ipv4_input] accepts: in a buffer with room
    for it the header is completed without error, and a packet that carries it passes the
    version and checksum tests and goes to the handler of its protocol, with the header
    taken off and the payload untouched. *)
Theorem ipv4_header_roundtrip {S} `{BlockAlloc S} during (n : netstate S) (b : net_buf)
    (pre h post : list Z) (len id protocol src dest : Z) :
  nb_data b = Z.of_nat (length pre) -> length h = 20%nat -> 20 <= nb_len b -> fits 8 protocol ->
  exists b1 sum,
    (do b' <- ipv4_fill (window b pre h post) len id protocol; ipv4_finish b' src dest)%out = Ret b1 /\
    b1 = window b pre (header_bytes len id protocol src dest sum) post /\
    ipv4_input during n b1 = Ret (net_pull b1 20, n_protocols n !! protocol, n).
Proof.
  intros Hd Hh Hl Hp. rewrite ipv4_fill_ok by done. cbn [obind]. rewrite ipv4_finish_ok by done.
  set (c0 := 65535 - ones_sum (word_sum (header_bytes len id protocol src dest 0))).
  assert (Ec : ipv4_checksum (header_bytes len id protocol src dest 0) = Ret c0).
  { apply ipv4_checksum_eq; [apply header_bytes_fits | cbn; lia]. }
  assert (Hc : fits 16 c0).
  { pose proof (ones_sum_bound (word_sum (header_bytes len id protocol src dest 0))). split; unfold c0; lia. }
  rewrite Ec. cbn [obind]. eexists _, c0. split; [reflexivity |]. split; [reflexivity |].
  set (H0 := header_bytes len id protocol src dest 0) in *.
  set (H1 := header_bytes len id protocol src dest c0).
  unfold ipv4_input, buf_set_field, IPV4_HEADER_MIN.
  rewrite (window_field b pre H1 post 0 1 Hd) by in_window. cbn [obind].
  change (le_val (take 1 (drop (Z.to_nat 0) H1))) with 0x45. change (Z.shiftr 0x45 4 =? 4) with true. cbn [negb].
  change (nb_len (window b pre H1 post)) with (nb_len b). replace (nb_len b <? 20) with false by lia.
  rewrite (window_field b pre H1 post 10 2 Hd) by in_window. cbn [obind].
  replace (le_val (take 2 (drop (Z.to_nat 10) H1))) with c0 by (symmetry; exact (le_val_bytes 2 c0 Hc)).
  rewrite (window_write b pre H1 post 10 (le_bytes 2 0) Hd) by in_window. cbn [obind].
  change (splice H1 10 (le_bytes 2 0)) with H0. change (Z.land 0x45 0x0F * 4) with 20.
  rewrite (window_read b pre H0 post 0 20 Hd) by in_window. cbn [obind].
  change (take (Z.to_nat 20) (drop (Z.to_nat 0) H0)) with H0. rewrite Ec. cbn [obind]. rewrite Z.eqb_refl. cbn [negb].
  rewrite (window_write b pre H0 post 10 (le_bytes 2 c0) Hd) by in_window. cbn [obind].
  change (splice H0 10 (le_bytes 2 c0)) with H1.
  rewrite (window_field b pre H1 post 8 1 Hd) by in_window. cbn [obind].
  change (le_val (take 1 (drop (Z.to_nat 8) H1))) with 64. change (64 <=? 1) with false. cbv iota.
  rewrite (window_field b pre H1 post 9 1 Hd) by in_window. cbn [obind].
  replace (le_val (take 1 (drop (Z.to_nat 9) H1))) with protocol by (symmetry; exact (le_val_bytes 1 protocol Hp)).
  destruct Hp as [_ Hp]. change (2 ^ 8) with 256 in Hp. by replace (protocol <? 256) with true by lia.
Qed.

Definition demo_net : netstate Z := mk_net 65536 demo_table arp_init 0 [] protocols_init 0.

Definition demo_packet : net_buf := mk_buf 4096 5000 (replicate 128 7) 64 64 128 60 64 128 0 0 8192.

(** An ICMP packet from 10.0.2.2 to 10.0.2.15. *)
Lemma ipv4_header_roundtrip_witness :
  exists b1, (do b' <- ipv4_fill (window demo_packet (replicate 64 7) (replicate 20 7) (replicate 44 7)) 60 1 IP_PROTO_ICMP;
              ipv4_finish b' 0x0202000A 0x0F02000A)%out = Ret b1 /\
    ipv4_input Ret demo_net b1 = Ret (net_pull b1 20, Some icmp_handler, demo_net).
Proof.
  destruct (ipv4_header_roundtrip Ret demo_net demo_packet (replicate 64 7) (replicate 20 7) (replicate 44 7)
              60 1 IP_PROTO_ICMP 0x0202000A 0x0F02000A) as (b1 & sum & E1 & _ & E2);
    [reflexivity | reflexivity | done | by split |].
  exists b1. split; [exact E1 | exact E2].
Defined.
