(* ===== verification/Ipv6.v ===== *)
(** IPv6, src/kernel/net/ipv6.c: addresses and their texts, the sum over the pseudo header,
    output and input of packets, the table of upper protocols.  An address is its 16
    octets; a NULL pointer is [None] or address 0. *)

From S2P Require Import Prelude Bytes LibMem NetBuf Ethernet Arp Ipv4.

Definition IPV6_HEADER_SIZE : Z := 40.

Definition IPV6_ADDR_UNSPECIFIED : list Z := replicate 16 0.
Definition IPV6_ADDR_LOOPBACK : list Z := replicate 15 0 ++ [1].
Definition IPV6_ADDR_ALL_NODES : list Z := [0xff; 2] ++ replicate 13 0 ++ [1].
Definition IPV6_ADDR_ALL_ROUTERS : list Z := [0xff; 2] ++ replicate 13 0 ++ [2].

(** * Reading an address *)

Definition hex_to_u8 (c : Z) : Z :=
  if (48 <=? c) && (c <=? 57) then c - 48
  else if (97 <=? c) && (c <=? 102) then c - 97 + 10
  else if (65 <=? c) && (c <=? 70) then c - 65 + 10
  else 0.

(** The inner loop: at most [n] digits up to a colon or the end. *)
Fixpoint read_word (n : nat) (m : mem) (str val : Z) : Z * Z :=
  match n with
  | O => (val, str)
  | S n' =>
      let c := ldb m str in
      if (c =? 0) || (c =? 58) then (val, str)
      else read_word n' m (str + 1) (u16 (Z.lor (Z.shiftl val 4) (hex_to_u8 c)))
  end.

(** The outer loop: the words, [word_idx] and [compress_idx]. *)
Fixpoint read_words (fuel : nat) (m : mem) (str : Z) (words : list Z) (word_idx compress_idx : Z)
    : outcome (list Z * Z * Z) :=
  match fuel with
  | O => Crash
  | S fuel' =>
      if (ldb m str =? 0) || (8 <=? word_idx) then Ret (words, word_idx, compress_idx)
      else if ldb m str =? 58 then
        let str := str + 1 in
        if ldb m str =? 58 then read_words fuel' m (str + 1) words word_idx word_idx
        else read_words fuel' m str words (word_idx + 1) compress_idx
      else
        let '(val, str) := read_word 4 m str 0 in
        read_words fuel' m str (set words word_idx val)
          (if ldb m str =? 58 then word_idx else word_idx + 1) compress_idx
  end.

(** The loop that moves the words behind the gap to the end, from [j] downwards. *)
Fixpoint move_up (n : nat) (words : list Z) (j num_missing : Z) : list Z :=
  match n with
  | O => words
  | S n' => move_up n' (set words j (get words (j - num_missing))) (j - 1) num_missing
  end.

Fixpoint clear_words (n : nat) (words : list Z) (j : Z) : list Z :=
  match n with
  | O => words
  | S n' => clear_words n' (set words j 0) (j + 1)
  end.

Definition expand (words : list Z) (num_words compress_idx : Z) : list Z :=
  if 0 <=? compress_idx then
    let num_missing := 8 - num_words in
    let words := move_up (Z.to_nat (8 - (compress_idx + num_missing))) words 7 num_missing in
    clear_words (Z.to_nat num_missing) words compress_idx
  else words.

Definition octets_of (words : list Z) : list Z :=
  flat_map (fun w => [Z.land (Z.shiftr w 8) 0xFF; Z.land w 0xFF]) words.

Definition ipv6_pton (fuel : nat) (m : mem) (str : Z) : outcome (list Z) :=
  if str =? 0 then Ret IPV6_ADDR_UNSPECIFIED
  else
    let compress_idx := if (ldb m str =? 58) && (ldb m (str + 1) =? 58) then 0 else -1 in
    (do '(words, word_idx, compress_idx) <- read_words fuel m str (replicate 8 0) 0 compress_idx;
     Ret (octets_of (expand words word_idx compress_idx)))%out.

(** * Printing an address *)

Fixpoint words_of (octets : list Z) : list Z :=
  match octets with
  | h :: l :: rest => Z.lor (Z.shiftl h 8) l :: words_of rest
  | _ => []
  end.

(** The search for the longest run of zero words: [cs], [cl] are the best run so far, [us],
    [ul] the current one. *)
Fixpoint longest_run (words : list Z) (i cs cl us ul : Z) : Z * Z :=
  match words with
  | [] => if cl <? ul then (us, ul) else (cs, cl)
  | w :: words' =>
      if w =? 0 then
        if us =? -1 then longest_run words' (i + 1) cs cl i 1
        else longest_run words' (i + 1) cs cl us (ul + 1)
      else
        if cl <? ul then longest_run words' (i + 1) us ul (-1) 0
        else longest_run words' (i + 1) cs cl (-1) 0
  end.

(** [*ptr++ = c] *)
Definition put (st : mem * Z) (c : Z) : mem * Z := (stb st.1 st.2 c, st.2 + 1).

Definition HEX : list Z := [48; 49; 50; 51; 52; 53; 54; 55; 56; 57; 97; 98; 99; 100; 101; 102].
Definition nibble (w k : Z) : Z := get HEX (Z.land (Z.shiftr w k) 0xF).

Definition put_word (st : mem * Z) (w : Z) : mem * Z :=
  if 0x1000 <=? w then put (put (put (put st (nibble w 12)) (nibble w 8)) (nibble w 4)) (nibble w 0)
  else if 0x100 <=? w then put (put (put st (nibble w 8)) (nibble w 4)) (nibble w 0)
  else if 0x10 <=? w then put (put st (nibble w 4)) (nibble w 0)
  else put st (nibble w 0).

Fixpoint print_words (fuel : nat) (buf : Z) (words : list Z) (cs cl i : Z) (st : mem * Z) : outcome (mem * Z) :=
  if 8 <=? i then Ret st
  else match fuel with
       | O => Crash
       | S fuel' =>
           if (0 <=? cs) && (i =? cs) then
             let st := if st.2 =? buf then st else put st 58 in
             let st := put st 58 in
             print_words fuel' buf words cs cl (i + (cl - 1) + 1) st
           else
             let st := if 0 <? i then put st 58 else st in
             print_words fuel' buf words cs cl (i + 1) (put_word st (get words i))
       end.

(** The loop passes over at least one word in a round. *)
Definition ipv6_ntop (m : mem) (addr : list Z) (buf : Z) : outcome mem :=
  (let words := words_of addr in
   let '(cs, cl) := longest_run words 0 (-1) 0 (-1) 0 in
   do '(m, ptr) <- print_words 8 buf words cs cl 0 (m, buf);
   Ret (stb m ptr 0))%out.

Definition ipv6_addr_is_multicast (addr : list Z) : bool := get addr 0 =? 0xFF.
Definition ipv6_addr_is_link_local (addr : list Z) : bool :=
  (get addr 0 =? 0xFE) && (Z.land (get addr 1) 0xC0 =? 0x80).
Definition ipv6_addr_is_loopback (addr : list Z) : bool := bool_decide (addr = IPV6_ADDR_LOOPBACK).
Definition ipv6_addr_is_unspecified (addr : list Z) : bool := bool_decide (addr = IPV6_ADDR_UNSPECIFIED).

(** * The sum over the pseudo header *)

Definition ipv6_pseudo_checksum (src dst : list Z) (next_header payload_len : Z) : outcome Z :=
  (let sum := csum_words dst (csum_words src 0) in
   let sum := u32 (sum + (Z.shiftr payload_len 16 + Z.land payload_len 0xFFFF)) in
   let sum := u32 (sum + next_header) in
   do sum <- csum_fold 2 sum;
   Ret (wnot 16 sum))%out.

(** * Packets *)

Definition ipv6_hop_limit : Z := 64.

(** The version is a bit field, the low four bits of the first byte. *)
Definition get_version (b : net_buf) : outcome Z := (do v <- buf_field b 0 1; Ret (Z.land v 0xF))%out.
Definition set_version (b : net_buf) (v : Z) : outcome net_buf :=
  (do w <- buf_field b 0 1; buf_set_field b 0 1 (Z.lor (Z.land w 0xF0) (Z.land v 0xF)))%out.

(** The header of a packet. *)
Definition ipv6_fill (b : net_buf) (dest src : list Z) (next_header : Z) : outcome net_buf :=
  (do b <- buf_write b 0 (replicate 40 0);
   do b <- set_version b (htonl 0x60000000);
   do b <- buf_set_field b 4 2 (htons (u16 (nb_len b)));
   do b <- buf_set_field b 6 1 next_header;
   do b <- buf_set_field b 7 1 (u8 ipv6_hop_limit);
   do b <- buf_write b 8 src;
   buf_write b 24 dest)%out.

Definition ipv6_output (buf : option net_buf) (dest src : option (list Z)) (next_header : Z)
    : outcome (Z * option net_buf) :=
  match buf, dest with
  | Some b, Some dest =>
      (do b <- ipv6_fill (net_reserve b IPV6_HEADER_SIZE) dest (default IPV6_ADDR_UNSPECIFIED src) next_header;
       Ret (-1, Some b))%out
  | _, _ => Ret (-1, buf)
  end.

(** The handlers, each named by a number. *)
Definition ipv6_protocols := gmap Z Z.

(** [ipv6_input]: the buffer and the handler that is called with it. *)
Definition ipv6_input (ps : ipv6_protocols) (b : net_buf) : outcome (net_buf * option Z) :=
  (do v <- get_version b;
   if negb (Z.shiftr (ntohl v) 28 =? 6) then Ret (b, None)
   else if nb_len b <? IPV6_HEADER_SIZE then Ret (b, None)
   else
     do ln <- buf_field b 4 2;
     if nb_len b <? IPV6_HEADER_SIZE + ntohs ln then Ret (b, None)
     else
       do hop <- buf_field b 7 1;
       if hop <=? 1 then Ret (b, None)
       else
         do b <- buf_set_field b 7 1 (u8 (hop - 1));
         do nh <- buf_field b 6 1;
         let b := net_pull b IPV6_HEADER_SIZE in
         Ret (b, if nh <? 256 then ps !! nh else None))%out.

Definition ipv6_register_protocol (ps : ipv6_protocols) (next_header handler : Z) : Z * ipv6_protocols :=
  if 256 <=? next_header then (-1, ps)
  else match ps !! next_header with
       | Some _ => (-1, ps)
       | None => (0, <[next_header := handler]> ps)
       end.

Definition ipv6_unregister_protocol (ps : ipv6_protocols) (next_header : Z) : ipv6_protocols :=
  if next_header <? 256 then delete next_header ps else ps.

Definition ipv6_init : ipv6_protocols := ∅.
