(* ===== verification/Ipv6Spec.v ===== *)
(** IPv6 (Ipv6.v): what printing an address and reading the text back gives, for every
    address; the sum over the pseudo header; and that no packet gets in or out. *)

From S2P Require Import Prelude Bytes LibMem LibString Printf NetBuf Ethernet Arp Ipv4 Ipv4Spec Ipv6.

Definition hex_text (w : Z) : list Z :=
  if 0x1000 <=? w then [nibble w 12; nibble w 8; nibble w 4; nibble w 0]
  else if 0x100 <=? w then [nibble w 8; nibble w 4; nibble w 0]
  else if 0x10 <=? w then [nibble w 4; nibble w 0]
  else [nibble w 0].

Definition puts (st : mem * Z) (cs : list Z) : mem * Z := fold_left put cs st.

Lemma put_word_puts (st : mem * Z) (w : Z) : put_word st w = puts st (hex_text w).
Proof. unfold put_word, hex_text. by repeat case_match. Qed.

Definition char_ok (c : Z) : Prop := 0 < c < 256.

Lemma puts_spec (cs : list Z) (m : mem) (p : Z) :
  Forall char_ok cs ->
  exists m', puts (m, p) cs = (m', p + Z.of_nat (length cs)) /\
    (forall i c, cs !! i = Some c -> ldb m' (p + Z.of_nat i) = c) /\
    forall a, a < p \/ p + Z.of_nat (length cs) <= a -> ldb m' a = ldb m a.
Proof.
  revert m p. induction cs as [|c cs IH]; intros m p HF; cbn [puts fold_left length].
  - exists m. split; [f_equal; lia |]. by split.
  - apply Forall_cons in HF as [Hc HF]. destruct (IH (stb m p c) (p + 1) HF) as (m' & E & Hin & Hout).
    exists m'. split; [etransitivity; [exact E |]; f_equal; lia |]. split.
    + intros [|i] x Hi.
      * injection Hi as <-. rewrite Hout by lia. rewrite ldb_stb. replace (_ =? _) with true by lia. apply wrap_small. split; unfold char_ok in Hc; lia.
      * rewrite <- (Hin i x Hi). f_equal. lia.
    + intros a Ha. rewrite Hout by lia. rewrite ldb_stb. by replace (_ =? _) with false by lia.
Qed.

(** * Words *)

Lemma nibble_digit (w k : Z) : 0 <= k ->
  exists d, d = w / 2 ^ k mod 16 /\ hex_to_u8 (nibble w k) = d /\ char_ok (nibble w k) /\ nibble w k <> 58.
Proof.
  intros Hk. exists (w / 2 ^ k mod 16). split; [done |]. unfold nibble. change 0xF with (Z.ones 4).
  rewrite Z.land_ones, Z.shiftr_div_pow2 by lia. change (2 ^ 4) with 16. pose proof (Z.mod_pos_bound (w / 2 ^ k) 16 ltac:(lia)) as Hb.
  generalize dependent (w / 2 ^ k mod 16). intros d Hd. unfold char_ok.
  assert (d ∈ seqZ 0 16) as Hin by (apply elem_of_seqZ; lia).
  assert (HF : Forall (fun d => hex_to_u8 (get HEX d) = d /\ 0 < get HEX d < 256 /\ get HEX d <> 58) (seqZ 0 16)).
  { change (seqZ 0 16) with [0; 1; 2; 3; 4; 5; 6; 7; 8; 9; 10; 11; 12; 13; 14; 15]. by repeat constructor. }
  rewrite Forall_forall in HF. by apply HF.
Qed.

Definition shift_in (v c : Z) : Z := u16 (Z.lor (Z.shiftl v 4) (hex_to_u8 c)).

Lemma shift_in_cons (v c d : Z) (cs : list Z) : hex_to_u8 c = d -> 0 <= d < 16 -> 0 <= v < 4096 ->
  fold_left shift_in (c :: cs) v = fold_left shift_in cs (16 * v + d).
Proof.
  intros Hc Hd Hv. cbn [fold_left]. f_equal. unfold shift_in.
  rewrite Hc, Z.lor_comm, lor_high_low by (lia || (split; [lia |]; change (2 ^ 4) with 16; lia)). change (2 ^ 4) with 16.
  rewrite wrap_small by (split; [lia |]; change (2 ^ 16) with 65536; lia). lia.
Qed.

Lemma hex_text_ok (w : Z) : fits 16 w ->
  fold_left shift_in (hex_text w) 0 = w /\ Forall (fun c => char_ok c /\ c <> 58) (hex_text w) /\ (1 <= length (hex_text w) <= 4)%nat.
Proof.
  intros [H0 H1]. change (2 ^ 16) with 65536 in H1.
  destruct (nibble_digit w 12 ltac:(lia)) as (d3 & E3 & D3 & C3 & N3), (nibble_digit w 8 ltac:(lia)) as (d2 & E2 & D2 & C2 & N2),
    (nibble_digit w 4 ltac:(lia)) as (d1 & E1 & D1 & C1 & N1), (nibble_digit w 0 ltac:(lia)) as (d0 & E0 & D0 & C0 & N0).
  change (2 ^ 12) with 4096 in E3. change (2 ^ 8) with 256 in E2. change (2 ^ 4) with 16 in E1. change (2 ^ 0) with 1 in E0.
  unfold hex_text. repeat case_match; (split; [| split; [repeat apply Forall_cons_2; done || apply Forall_nil_2 | cbn; lia]]);
    clear C0 C1 C2 C3 N0 N1 N2 N3; repeat (erewrite shift_in_cons; [| eassumption | clear -E0 E1 E2 E3; dlia | dlia]); cbn [fold_left]; clear D0 D1 D2 D3; dlia.
Qed.

(** * The text of an address *)

Definition colon_text (ws : list Z) : list Z := concat ((fun w => 58 :: hex_text w) <$> ws).
Definition plain_text (ws : list Z) : list Z := match ws with [] => [] | w :: ws' => hex_text w ++ colon_text ws' end.
(** The words before and behind the run that is left out. *)
Definition gap_text (w1 w2 : list Z) : list Z :=
  plain_text w1 ++ match w1 with [] => [58] | _ => [58; 58] end ++ colon_text w2.

Lemma puts_app (st : mem * Z) (cs ds : list Z) : puts st (cs ++ ds) = puts (puts st cs) ds.
Proof. apply fold_left_app. Qed.

Lemma print_step (f : nat) (buf : Z) (words : list Z) (cs cl i : Z) (st : mem * Z) :
  0 <= i < 8 -> i <> cs ->
  print_words (S f) buf words cs cl i st =
  print_words f buf words cs cl (i + 1) (puts st ((if 0 <? i then [58] else []) ++ hex_text (get words i))).
Proof.
  intros Hi Hc. cbn [print_words]. replace (8 <=? i) with false by lia. replace ((0 <=? cs) && _) with false by lia.
  rewrite put_word_puts, puts_app. by destruct (0 <? i).
Qed.

Lemma print_run (ws : list Z) (f : nat) (buf : Z) (words pre post : list Z) (cs cl : Z) (st : mem * Z) :
  words = pre ++ ws ++ post -> length words = 8%nat -> pre <> [] ->
  cs < Z.of_nat (length pre) \/ Z.of_nat (length pre + length ws) <= cs ->
  print_words (length ws + f) buf words cs cl (Z.of_nat (length pre)) st =
  print_words f buf words cs cl (Z.of_nat (length pre + length ws)) (puts st (colon_text ws)).
Proof.
  revert pre st. induction ws as [|w ws IH]; intros pre st -> Hl Hp Hc.
  - cbn [length Nat.add colon_text fmap list_fmap concat puts fold_left]. by rewrite Nat.add_0_r.
  - rewrite !length_app in Hl. cbn [length] in Hl, Hc |- *. assert (length pre <> 0)%nat by (by destruct pre).
    change (S (length ws) + f)%nat with (S (length ws + f)). rewrite print_step by lia. replace (0 <? _) with true by lia.
    assert (get (pre ++ w :: ws ++ post) (Z.of_nat (length pre)) = w) as Eg.
    { unfold get. by rewrite Nat2Z.id, app_nth2, Nat.sub_diag by lia. }
    cbn [app]. rewrite Eg.
    replace (Z.of_nat (length pre) + 1) with (Z.of_nat (length (pre ++ [w]))) by (rewrite length_app; cbn; lia).
    rewrite (IH (pre ++ [w])); rewrite ?length_app; cbn [length]; rewrite <- ?app_assoc; [| done | rewrite ?length_app; cbn [length]; rewrite ?length_app; lia | by destruct pre | lia].
    replace (length pre + 1 + length ws)%nat with (length pre + S (length ws))%nat by lia. f_equal.
    unfold colon_text. cbn [fmap list_fmap concat]. by rewrite puts_app.
Qed.

Lemma print_words_done (f : nat) (buf : Z) (words : list Z) (cs cl : Z) (st : mem * Z) :
  print_words f buf words cs cl 8 st = Ret st.
Proof. by destruct f. Qed.

(** Without a run the words follow each other. *)
Lemma print_plain (buf : Z) (words : list Z) (cs cl : Z) (st : mem * Z) :
  length words = 8%nat -> cs = -1 -> print_words 8 buf words cs cl 0 st = Ret (puts st (plain_text words)).
Proof.
  intros Hl Hc. destruct words as [|w ws]; [done |]. injection Hl as Hl. change 8%nat with (S (7 + 0)). rewrite print_step by lia.
  change (0 <? 0) with false. change (get (w :: ws) 0) with w. rewrite <- Hl at 1. cbn [app]. change (0 + 1) with (Z.of_nat (length [w])).
  rewrite (print_run ws 0 buf (w :: ws) [w] []); [| by rewrite app_nil_r | cbn; lia | done | cbn; lia].
  cbn [length plain_text]. rewrite puts_app, Hl. apply print_words_done.
Qed.

(** The words in front of the run. *)
Lemma print_front (w1 rest : list Z) (f : nat) (buf cl : Z) (st : mem * Z) :
  length (w1 ++ rest) = 8%nat ->
  print_words (length w1 + f) buf (w1 ++ rest) (Z.of_nat (length w1)) cl 0 st =
  print_words f buf (w1 ++ rest) (Z.of_nat (length w1)) cl (Z.of_nat (length w1)) (puts st (plain_text w1)).
Proof.
  intros Hl. destruct w1 as [|w ws]; [done |]. rewrite length_app in Hl. cbn [length] in Hl |- *.
  change (S (length ws) + f)%nat with (S (length ws + f)). rewrite print_step by lia. change (0 <? 0) with false.
  change (get ((w :: ws) ++ rest) 0) with w. change (0 + 1) with (Z.of_nat (length [w])).
  rewrite (print_run ws f buf _ [w] rest); [| done | rewrite length_app; cbn; lia | done | cbn [length]; lia].
  cbn [app plain_text]. by rewrite puts_app.
Qed.

Lemma length_colon_text (ws : list Z) : (length ws <= length (colon_text ws))%nat.
Proof. induction ws as [|w ws IH]; [cbn; lia |]. unfold colon_text in *. cbn [fmap list_fmap concat]. rewrite length_app. cbn [length]. lia. Qed.

Lemma print_gap (w1 w2 : list Z) (n : nat) (buf : Z) (m : mem) :
  length (w1 ++ replicate n 0 ++ w2) = 8%nat -> (0 < n)%nat -> Forall (fits 16) w1 ->
  print_words 8 buf (w1 ++ replicate n 0 ++ w2) (Z.of_nat (length w1)) (Z.of_nat n) 0 (m, buf) =
  Ret (puts (m, buf) (gap_text w1 w2)).
Proof.
  intros Hl Hn HF. pose proof Hl as Hl'. rewrite !length_app, length_replicate in Hl'.
  replace 8%nat with (length w1 + (S (length w2 + (n - 1))))%nat by lia. rewrite print_front by done.
  unfold gap_text. rewrite !puts_app. set (st := puts (m, buf) (plain_text w1)).
  assert (Hst : st.2 = buf + Z.of_nat (length (plain_text w1))).
  { unfold st. clear. revert m buf. generalize (plain_text w1). intros l. unfold puts. induction l as [|c l IH]; intros m b; cbn [fold_left length snd]; [lia |].
    unfold put at 2. cbn [fst snd]. rewrite IH. lia. }
  cbn [print_words]. replace (8 <=? _) with false by lia. replace ((0 <=? _) && _) with true by lia.
  replace (put (if st.2 =? buf then st else put st 58) 58) with (puts st match w1 with [] => [58] | _ => [58; 58] end).
  2: { rewrite Hst. destruct w1 as [|w ws]; cbn [plain_text length].
       - by rewrite Z.add_0_r, Z.eqb_refl.
       - apply Forall_cons in HF as [Hw _]. destruct (hex_text_ok w Hw) as (_ & _ & Hlen). rewrite length_app. by replace (_ =? _) with false by lia. }
  replace (Z.of_nat (length w1) + (Z.of_nat n - 1) + 1) with (Z.of_nat (length (w1 ++ replicate n 0))) by (rewrite length_app, length_replicate; lia).
  rewrite (print_run w2 (n - 1) buf _ (w1 ++ replicate n 0) []).
  - rewrite length_app, length_replicate. replace (Z.of_nat (length w1 + n + length w2)) with 8 by lia. apply print_words_done.
  - by rewrite app_nil_r, app_assoc.
  - done.
  - destruct w1, n; done || lia.
  - rewrite length_app, length_replicate. lia.
Qed.

(** * The longest run of zero words *)

(** Every run of zero words is at most [n] words long, the first one counted from [k]. *)
Fixpoint runs_le (n k : Z) (ws : list Z) : bool :=
  match ws with
  | [] => k <=? n
  | w :: ws' => if w =? 0 then runs_le n (k + 1) ws' else (k <=? n) && runs_le n 0 ws'
  end.

Lemma runs_le_bound (ws : list Z) (n k : Z) : runs_le n k ws = true -> 0 <= k -> k <= n.
Proof.
  revert k. induction ws as [|w ws IH]; intros k; cbn [runs_le]; [lia |].
  destruct (w =? 0); [| lia]. intros H Hk. specialize (IH _ H). lia.
Qed.

(** Behind a run that is the best so far nothing better comes. *)
Lemma longest_run_rest (ws : list Z) (n i cs us ul : Z) :
  runs_le n ul ws = true -> 0 <= ul -> 0 <= i -> us = -1 /\ ul = 0 \/ 0 <= us ->
  longest_run ws i cs n us ul = (cs, n).
Proof.
  revert i us ul. induction ws as [|w ws IH]; intros i us ul H Hu Hi Hs; cbn [runs_le longest_run] in *.
  - by replace (n <? ul) with false by lia.
  - destruct (w =? 0).
    + destruct (Z.eqb_spec us (-1)) as [-> | Hne].
      * replace (ul + 1) with 1 in H by lia. apply IH; done || lia.
      * apply IH; done || lia.
    + apply andb_true_iff in H as [H1 H2]. replace (n <? ul) with false by lia. apply IH; (done || lia).
Qed.

(** A front that ends in another word leaves a best run below [n] and no current one. *)
Lemma longest_run_front (w1 rest : list Z) (n i cs cl us ul : Z) :
  runs_le (n - 1) ul w1 = true -> last w1 <> Some 0 -> 0 <= i -> cl < n -> 0 <= ul -> us = -1 /\ ul = 0 \/ 0 <= us -> (w1 = [] -> us = -1) ->
  exists cs' cl', longest_run (w1 ++ rest) i cs cl us ul = longest_run rest (i + Z.of_nat (length w1)) cs' cl' (-1) 0 /\ cl' < n.
Proof.
  revert i cs cl us ul. induction w1 as [|w w1 IH]; intros i cs cl us ul H Hl Hi Hc Hu Hs Hn; cbn [app runs_le longest_run length] in *.
  - exists cs, cl. destruct Hs as [[-> ->] | Hs]; [| specialize (Hn eq_refl); lia]. split; [f_equal; lia | done].
  - assert (Hl' : last w1 <> Some 0) by (by destruct w1). replace (i + Z.of_nat (S (length w1))) with (i + 1 + Z.of_nat (length w1)) by lia.
    destruct (Z.eqb_spec w 0) as [-> | Hw].
    + assert (w1 <> []) by (by destruct w1).
      destruct (Z.eqb_spec us (-1)) as [-> | Hne]; [replace (ul + 1) with 1 in H by lia |]; apply IH; done || lia.
    + apply andb_true_iff in H as [H1 H2]. destruct (Z.ltb_spec cl ul); apply IH; try done; lia.
Qed.

Lemma longest_run_zeros (n : nat) (rest : list Z) (i cs cl us ul : Z) :
  0 <= us -> longest_run (replicate n 0 ++ rest) i cs cl us ul = longest_run rest (i + Z.of_nat n) cs cl us (ul + Z.of_nat n).
Proof.
  revert i ul. induction n as [|n IH]; intros i ul Hs; [by rewrite !Z.add_0_r |]. cbn [replicate app longest_run Z.eqb].
  replace (us =? -1) with false by lia. rewrite IH by done. f_equal; lia.
Qed.

(** The first of the longest runs is found. *)
Lemma longest_run_gap (w1 w2 : list Z) (n : nat) :
  (0 < n)%nat -> runs_le (Z.of_nat n - 1) 0 w1 = true -> last w1 <> Some 0 -> runs_le (Z.of_nat n) 0 w2 = true -> head w2 <> Some 0 ->
  longest_run (w1 ++ replicate n 0 ++ w2) 0 (-1) 0 (-1) 0 = (Z.of_nat (length w1), Z.of_nat n).
Proof.
  intros Hn H1 Hl H2 Hh. destruct (longest_run_front w1 (replicate n 0 ++ w2) (Z.of_nat n) 0 (-1) 0 (-1) 0) as (cs & cl & -> & Hc); try done || lia.
  destruct n as [|n]; [lia |]. cbn [replicate app longest_run Z.eqb Z.add]. rewrite longest_run_zeros by lia.
  replace (1 + Z.of_nat n) with (Z.of_nat (S n)) by lia.
  destruct w2 as [|w w2]; cbn [longest_run]; [by replace (cl <? _) with true by lia |].
  destruct (Z.eqb_spec w 0) as [-> | Hw]; [done |]. replace (cl <? _) with true by lia.
  cbn [runs_le] in H2. replace (w =? 0) with false in H2 by lia. apply andb_true_iff in H2 as [_ H2]. apply longest_run_rest; done || lia.
Qed.

Lemma longest_run_none (ws : list Z) (i : Z) : runs_le 0 0 ws = true -> longest_run ws i (-1) 0 (-1) 0 = (-1, 0).
Proof.
  revert i. induction ws as [|w ws IH]; intros i H; [done |]. cbn [runs_le longest_run] in *.
  destruct (w =? 0); [apply runs_le_bound in H; lia |]. by apply IH.
Qed.

(** * Reading the text back *)

Lemma read_word_text (hs rest : list Z) (k : nat) (m : mem) (p v : Z) :
  cstr m p (hs ++ rest) -> Forall (fun c => char_ok c /\ c <> 58) hs -> (length hs <= k)%nat -> rest = [] \/ head rest = Some 58 ->
  read_word k m p v = (fold_left shift_in hs v, p + Z.of_nat (length hs)) /\ cstr m (p + Z.of_nat (length hs)) rest.
Proof.
  revert k p v. induction hs as [|c hs IH]; intros k p v Hc HF Hk Hr; cbn [app fold_left length] in *.
  - rewrite Z.add_0_r. split; [| done]. destruct k as [|k]; [done |]. cbn [read_word].
    destruct Hr as [-> | Hr]; [cbn in Hc; by rewrite Hc |]. destruct rest as [|x rest]; [done |]. injection Hr as ->. destruct Hc as (_ & -> & _). done.
  - destruct k as [|k]; [lia |]. destruct Hc as (H0 & H1 & H2). apply Forall_cons in HF as [[_ Hne] HF]. cbn [read_word]. rewrite H1.
    replace ((c =? 0) || (c =? 58)) with false by lia.
    change (u16 (Z.lor (Z.shiftl v 4) (hex_to_u8 c))) with (shift_in v c). destruct (IH k (p + 1) (shift_in v c) H2 HF ltac:(lia) Hr) as [-> Hc].
    replace (p + Z.of_nat (S (length hs))) with (p + 1 + Z.of_nat (length hs)) by lia. done.
Qed.

(** The index the loop stands at when the words [pre] are read and [rest] is ahead. *)
Definition idx_at (pre rest : list Z) : Z := match rest with [] => Z.of_nat (length pre) | _ => Z.of_nat (length pre) - 1 end.

(** The first character of a word is no colon and not the end. *)
Lemma hex_head (w : Z) (rest : list Z) (m : mem) (p : Z) :
  fits 16 w -> cstr m p (hex_text w ++ rest) -> ldb m p <> 0 /\ ldb m p <> 58.
Proof.
  intros Hw Hc. destruct (hex_text_ok w Hw) as (_ & HF & Hl). destruct (hex_text w) as [|c hs]; [cbn in Hl; lia |].
  destruct Hc as (H0 & -> & _). apply Forall_cons in HF as [[_ Hne] _]. lia.
Qed.

Lemma read_first (w : Z) (rest : list Z) (f : nat) (m : mem) (p : Z) (pre : list Z) (k : nat) (comp : Z) :
  cstr m p (hex_text w ++ rest) -> fits 16 w -> rest = [] \/ head rest = Some 58 -> (length pre + S k = 8)%nat ->
  read_words (S f) m p (pre ++ replicate (S k) 0) (Z.of_nat (length pre)) comp =
  read_words f m (p + Z.of_nat (length (hex_text w))) ((pre ++ [w]) ++ replicate k 0) (idx_at (pre ++ [w]) rest) comp /\
  cstr m (p + Z.of_nat (length (hex_text w))) rest.
Proof.
  intros Hc Hw Hr Hl. pose proof (hex_head w rest m p Hw Hc) as [H1 H2]. destruct (hex_text_ok w Hw) as (Hv & HF & Hlen).
  destruct (read_word_text (hex_text w) rest 4 m p 0 Hc HF ltac:(lia) Hr) as [E Hc']. split; [| done].
  cbn [read_words]. replace ((ldb m p =? 0) || _) with false by lia. replace (ldb m p =? 58) with false by lia. rewrite E, Hv.
  f_equal.
  - unfold set. rewrite Nat2Z.id, insert_app_r_alt, Nat.sub_diag, <- app_assoc by lia. done.
  - unfold idx_at. rewrite length_app. cbn [length]. destruct rest as [|c rest]; [cbn in Hc'; rewrite Hc'; cbn [Z.eqb]; lia |].
    destruct Hr as [? | Hr]; [done |]. injection Hr as ->. destruct Hc' as (_ & -> & _). cbn [Z.eqb Pos.eqb]. lia.
Qed.

Lemma read_colon (f : nat) (m : mem) (p : Z) (words : list Z) (i comp : Z) :
  ldb m p = 58 -> ldb m (p + 1) <> 58 -> i < 8 -> read_words (S f) m p words i comp = read_words f m (p + 1) words (i + 1) comp.
Proof.
  intros H1 H2 Hi. cbn [read_words]. rewrite H1. replace ((58 =? 0) || _) with false by lia. by replace (ldb m (p + 1) =? 58) with false by lia.
Qed.

Lemma read_double (f : nat) (m : mem) (p : Z) (words : list Z) (i comp : Z) :
  ldb m p = 58 -> ldb m (p + 1) = 58 -> i < 8 -> read_words (S f) m p words i comp = read_words f m (p + 1 + 1) words i i.
Proof. intros H1 H2 Hi. cbn [read_words]. rewrite H1. replace ((58 =? 0) || _) with false by lia. cbv zeta. by rewrite H2. Qed.

Lemma read_run (ws rest : list Z) (f : nat) (m : mem) (p : Z) (pre : list Z) (k : nat) (comp : Z) :
  cstr m p (colon_text ws ++ rest) -> Forall (fits 16) ws -> rest = [] \/ head rest = Some 58 -> (length ws <= k)%nat ->
  pre <> [] -> (length pre + k = 8)%nat ->
  read_words (2 * length ws + f) m p (pre ++ replicate k 0) (idx_at pre (colon_text ws ++ rest)) comp =
  read_words f m (p + Z.of_nat (length (colon_text ws))) ((pre ++ ws) ++ replicate (k - length ws) 0) (idx_at (pre ++ ws) rest) comp /\
  cstr m (p + Z.of_nat (length (colon_text ws))) rest.
Proof.
  revert p pre k. induction ws as [|w ws IH]; intros p pre k Hc HF Hr Hk Hp Hl.
  - change (colon_text []) with (@nil Z) in *. cbn [length app Nat.add Nat.mul] in *. by rewrite Z.add_0_r, app_nil_r, Nat.sub_0_r.
  - apply Forall_cons in HF as [Hw HF]. assert (length pre <> 0)%nat by (by destruct pre).
    change (colon_text (w :: ws)) with (58 :: hex_text w ++ colon_text ws) in *. cbn [app] in Hc |- *. rewrite <- app_assoc in Hc.
    destruct Hc as (_ & H58 & Hc). destruct k as [|k]; [cbn in Hk; lia |]. cbn [length] in *.
    assert (Hr' : colon_text ws ++ rest = [] \/ head (colon_text ws ++ rest) = Some 58).
    { destruct ws as [|w' ws]; [exact Hr | by right]. }
    destruct (hex_head _ _ _ _ Hw Hc) as [Hn0 Hn1].
    replace (2 * S (length ws) + f)%nat with (S (S (2 * length ws + f))) by lia.
    destruct (read_first w _ (2 * length ws + f) m (p + 1) pre k comp Hc Hw Hr' ltac:(lia)) as [E1 Hc1].
    destruct (IH (p + 1 + Z.of_nat (length (hex_text w))) (pre ++ [w]) k Hc1 HF Hr ltac:(lia)) as [E2 Hc2]; [by destruct pre | rewrite length_app; cbn; lia |].
    rewrite length_app. replace (p + Z.of_nat (S (length (hex_text w) + length (colon_text ws)))) with (p + 1 + Z.of_nat (length (hex_text w)) + Z.of_nat (length (colon_text ws))) by lia.
    split; [| done]. cbn [Nat.sub]. rewrite <- (app_assoc pre [w] ws) in E2. cbn [app] in E2. rewrite <- E2, <- E1.
    assert (idx_at pre (58 :: (hex_text w ++ colon_text ws) ++ rest) = Z.of_nat (length pre) - 1) as -> by done.
    rewrite read_colon by (done || lia). f_equal. lia.
Qed.

(** The words in front, up to [rest]. *)
Lemma read_plain (w : Z) (ws rest : list Z) (f : nat) (m : mem) (p comp : Z) :
  cstr m p (plain_text (w :: ws) ++ rest) -> Forall (fits 16) (w :: ws) -> rest = [] \/ head rest = Some 58 -> (length ws < 8)%nat ->
  read_words (S (2 * length ws + f)) m p (replicate 8 0) 0 comp =
  read_words f m (p + Z.of_nat (length (plain_text (w :: ws)))) ((w :: ws) ++ replicate (7 - length ws) 0) (idx_at (w :: ws) rest) comp /\
  cstr m (p + Z.of_nat (length (plain_text (w :: ws)))) rest.
Proof.
  cbn [plain_text]. rewrite <- app_assoc. intros Hc HF Hr Hl. apply Forall_cons in HF as [Hw HF].
  assert (Hr' : colon_text ws ++ rest = [] \/ head (colon_text ws ++ rest) = Some 58).
  { destruct ws as [|w' ws]; [exact Hr | by right]. }
  destruct (read_first w _ (2 * length ws + f) m p [] 7 comp Hc Hw Hr' ltac:(done)) as [E1 Hc1].
  cbn [app] in E1. change (Z.of_nat (length (@nil Z))) with 0 in E1. rewrite E1.
  destruct (read_run ws rest f m _ [w] 7 comp Hc1 HF Hr ltac:(lia) ltac:(done) ltac:(done)) as [E2 Hc2].
  rewrite length_app, Nat2Z.inj_add, Z.add_assoc. split; [exact E2 | exact Hc2].
Qed.

Lemma read_end (f : nat) (m : mem) (p : Z) (words : list Z) (i comp : Z) :
  cstr m p [] -> read_words (S f) m p words i comp = Ret (words, i, comp).
Proof. intros Hc. cbn in Hc. cbn [read_words]. by rewrite Hc. Qed.

(** * The result of reading *)

Lemma expand_front (w2 : list Z) (n : nat) : (n + length w2 = 8)%nat ->
  expand (w2 ++ replicate n 0) (Z.of_nat (length w2)) 0 = replicate n 0 ++ w2.
Proof.
  intros Hl. assert (length w2 <= 8)%nat by lia. assert (n = 8 - length w2)%nat as -> by lia. clear Hl.
  do 9 (destruct w2 as [|? w2]; [reflexivity |]). cbn [length] in *. lia.
Qed.

Lemma expand_middle (front w2 : list Z) (x : Z) (n : nat) : (length front + S n + length w2 = 8)%nat ->
  expand (front ++ x :: w2 ++ replicate n 0) (Z.of_nat (length front + S (length w2))) (Z.of_nat (length front)) =
  front ++ replicate n 0 ++ x :: w2.
Proof.
  intros Hl. assert (length front + length w2 <= 7)%nat by lia. assert (n = 7 - length front - length w2)%nat as -> by lia. clear Hl.
  do 8 (destruct front as [|? front]; [do 8 (destruct w2 as [|? w2]; [cbn [length] in *; reflexivity || lia |]); cbn [length] in *; lia |]).
  cbn [length] in *. lia.
Qed.

Lemma expand_last (front : list Z) (x : Z) (n : nat) : (length front + S n = 8)%nat ->
  expand (front ++ x :: replicate n 0) (Z.of_nat (length front)) (Z.of_nat (length front)) = front ++ replicate (S n) 0.
Proof.
  intros Hl. assert (length front <= 7)%nat by lia. assert (n = 7 - length front)%nat as -> by lia. clear Hl.
  do 8 (destruct front as [|? front]; [reflexivity |]). cbn [length] in *. lia.
Qed.

(** * Octets and words *)

Lemma words_of_ok (a : list Z) : Forall (fits 8) a -> Nat.even (length a) = true ->
  octets_of (words_of a) = a /\ Forall (fits 16) (words_of a) /\ (2 * length (words_of a) = length a)%nat.
Proof.
  induction a as [| x | h l a IH] using pair_ind; intros HF He; [done | done |].
  apply Forall_cons in HF as [[H1 H2] HF]. apply Forall_cons in HF as [[L1 L2] HF]. destruct (IH HF He) as (E1 & E2 & E3).
  change (2 ^ 8) with 256 in *. cbn [words_of octets_of flat_map]. fold (octets_of (words_of a)). rewrite E1.
  assert (Ew : Z.lor (Z.shiftl h 8) l = 256 * h + l).
  { rewrite Z.lor_comm, lor_high_low by (lia || (split; [lia |]; change (2 ^ 8) with 256; lia)). change (2 ^ 8) with 256. lia. }
  rewrite Ew. change 0xFF with (Z.ones 8). rewrite !Z.land_ones, Z.shiftr_div_pow2 by lia. change (2 ^ 8) with 256. split; [| split].
  - replace ((256 * h + l) / 256 mod 256) with h by dlia. by replace ((256 * h + l) mod 256) with l by dlia.
  - constructor; [split; [lia |]; change (2 ^ 16) with 65536; lia | done].
  - cbn [length]. lia.
Qed.

Lemma hex_text_chars (w : Z) : fits 16 w -> Forall char_ok (hex_text w).
Proof. intros Hw. destruct (hex_text_ok w Hw) as (_ & HF & _). eapply Forall_impl; [exact HF |]. by intros c [? _]. Qed.

Lemma colon_text_ok (ws : list Z) : Forall (fits 16) ws -> Forall char_ok (colon_text ws) /\ (length (colon_text ws) <= 5 * length ws)%nat.
Proof.
  induction ws as [|w ws IH]; intros HF; [split; [constructor | cbn; lia] |]. apply Forall_cons in HF as [Hw HF]. destruct (IH HF) as [H1 H2].
  change (colon_text (w :: ws)) with (58 :: hex_text w ++ colon_text ws). destruct (hex_text_ok w Hw) as (_ & _ & Hl). split.
  - constructor; [by unfold char_ok |]. apply Forall_app. split; [by apply hex_text_chars | done].
  - cbn [length]. rewrite length_app. lia.
Qed.

Lemma plain_text_ok (ws : list Z) : Forall (fits 16) ws -> Forall char_ok (plain_text ws) /\ (length (plain_text ws) <= 5 * length ws - 1)%nat.
Proof.
  destruct ws as [|w ws]; intros HF; [split; [constructor | cbn; lia] |]. apply Forall_cons in HF as [Hw HF]. destruct (colon_text_ok ws HF) as [H1 H2].
  cbn [plain_text]. destruct (hex_text_ok w Hw) as (_ & _ & Hl). rewrite length_app. split; [| cbn [length]; lia].
  apply Forall_app. split; [by apply hex_text_chars | done].
Qed.

Lemma gap_text_ok (w1 w2 : list Z) : Forall (fits 16) w1 -> Forall (fits 16) w2 -> (length w1 + length w2 <= 7)%nat ->
  Forall char_ok (gap_text w1 w2) /\ (length (gap_text w1 w2) <= 39)%nat.
Proof.
  intros H1 H2 Hl. destruct (plain_text_ok w1 H1) as [P1 P2], (colon_text_ok w2 H2) as [C1 C2]. unfold gap_text. rewrite !length_app. split.
  - apply Forall_app. split; [done |]. apply Forall_app. split; [| done]. destruct w1; repeat apply Forall_cons_2; done || apply Forall_nil_2.
  - destruct w1; cbn [length] in *; lia.
Qed.

(** A text put into memory with its terminator. *)
Lemma puts_cstr (m : mem) (buf : Z) (text : list Z) :
  Forall char_ok text -> (length text <= 39)%nat ->
  exists m1 ptr, puts (m, buf) text = (m1, ptr) /\ cstr (stb m1 ptr 0) buf text /\
    forall a, a < buf \/ buf + 40 <= a -> ldb (stb m1 ptr 0) a = ldb m a.
Proof.
  intros HF Hl. destruct (puts_spec text m buf HF) as (m1 & E & Hin & Hout). exists m1, (buf + Z.of_nat (length text)). split; [done |]. split.
  - apply cstr_of_lookup; [| by rewrite ldb_stb, Z.eqb_refl]. intros i c Hi. pose proof (lookup_lt_Some _ _ _ Hi).
    split; [exact (proj1 (Forall_lookup _ _) HF i c Hi) |]. rewrite ldb_stb. replace (_ =? _) with false by lia. by apply Hin.
  - intros a Ha. rewrite ldb_stb. replace (_ =? _) with false by lia. apply Hout. lia.
Qed.

Section text.
Variables (m : mem) (addr : list Z) (buf : Z).
Hypothesis Haddr : length addr = 16%nat.
Hypothesis Hbytes : Forall (fits 8) addr.

Lemma addr_words : octets_of (words_of addr) = addr /\ Forall (fits 16) (words_of addr) /\ length (words_of addr) = 8%nat.
Proof. destruct (words_of_ok addr Hbytes) as (H1 & H2 & H3); [by rewrite Haddr |]. split_and!; done || lia. Qed.

Lemma ntop_plain_ok :
  runs_le 0 0 (words_of addr) = true ->
  exists m1, ipv6_ntop m addr buf = Ret m1 /\ cstr m1 buf (plain_text (words_of addr)) /\
    forall a, a < buf \/ buf + 40 <= a -> ldb m1 a = ldb m a.
Proof.
  intros H. destruct addr_words as (_ & HF & Hl). destruct (plain_text_ok _ HF) as [H1 H2]. rewrite Hl in H2.
  destruct (puts_cstr m buf _ H1 ltac:(lia)) as (m1 & ptr & E & Hc & Ho). eexists. split; [| done].
  unfold ipv6_ntop. rewrite longest_run_none by done. rewrite print_plain by done. rewrite E. done.
Qed.

Lemma ntop_gap_ok (w1 w2 : list Z) (n : nat) :
  words_of addr = w1 ++ replicate n 0 ++ w2 -> (0 < n)%nat -> runs_le (Z.of_nat n - 1) 0 w1 = true -> last w1 <> Some 0 ->
  runs_le (Z.of_nat n) 0 w2 = true -> head w2 <> Some 0 ->
  exists m1, ipv6_ntop m addr buf = Ret m1 /\ cstr m1 buf (gap_text w1 w2) /\
    forall a, a < buf \/ buf + 40 <= a -> ldb m1 a = ldb m a.
Proof.
  intros Ew Hn R1 L1 R2 L2. destruct addr_words as (_ & HF & Hl). rewrite Ew in HF, Hl.
  apply Forall_app in HF as [F1 HF]. apply Forall_app in HF as [_ F2]. pose proof Hl as Hl'. rewrite !length_app, length_replicate in Hl'.
  destruct (gap_text_ok w1 w2 F1 F2 ltac:(lia)) as [H1 H2]. destruct (puts_cstr m buf _ H1 H2) as (m1 & ptr & E & Hc & Ho).
  eexists. split; [| done]. unfold ipv6_ntop. rewrite Ew, longest_run_gap by done. rewrite print_gap by done. by rewrite E.
Qed.
End text.

(** * Theorems *)

Lemma pton_read (fuel : nat) (m : mem) (str : Z) (words : list Z) (i comp comp' : Z) :
  str <> 0 -> comp' = (if (ldb m str =? 58) && (ldb m (str + 1) =? 58) then 0 else -1) ->
  read_words fuel m str (replicate 8 0) 0 comp' = Ret (words, i, comp) ->
  ipv6_pton fuel m str = Ret (octets_of (expand words i comp)).
Proof. intros Hs -> E. unfold ipv6_pton. replace (str =? 0) with false by lia. by rewrite E. Qed.

(** C36: An address whose first longest run of zero words is at its front, or that has no zero
    word, is read back by ipv6_pton as ipv6_ntop printed it; printing touches at most 40
    bytes from [buf]. *)
Theorem ipv6_text_roundtrip (m : mem) (addr : list Z) (buf : Z) (n : nat) (w2 : list Z) (fuel : nat) :
  length addr = 16%nat -> Forall (fits 8) addr -> buf <> 0 -> (20 <= fuel)%nat ->
  words_of addr = replicate n 0 ++ w2 -> runs_le (Z.of_nat n) 0 w2 = true -> head w2 <> Some 0 ->
  exists m1, ipv6_ntop m addr buf = Ret m1 /\ ipv6_pton fuel m1 buf = Ret addr /\
    forall a, a < buf \/ buf + 40 <= a -> ldb m1 a = ldb m a.
Proof.
  intros Hl HF Hb Hf Ew HR Hh. destruct (addr_words addr Hl HF) as (Eo & HW & Hl8). destruct n as [|n].
  - cbn [replicate app] in Ew. change (Z.of_nat 0) with 0 in HR. rewrite <- Ew in HR.
    destruct (ntop_plain_ok m addr buf Hl HF HR) as (m1 & E & Hc & Ho). exists m1. split; [done |]. split; [| done]. rewrite <- Eo. clear Eo.
    destruct (words_of addr) as [|w ws] eqn:Ea; [done |]. injection Hl8 as Hl8. rewrite <- (app_nil_r (plain_text _)) in Hc.
    pose proof HW as [Hw _]%Forall_cons.
    assert (Hne : ldb m1 buf <> 58). { cbn [plain_text] in Hc. rewrite <- !app_assoc in Hc. by destruct (hex_head w _ m1 buf Hw Hc). }
    destruct (read_plain w ws [] (fuel - 15) m1 buf (-1) Hc HW (or_introl eq_refl) ltac:(lia)) as [E1 Hc1].
    replace fuel with (S (2 * length ws + (S (fuel - 16)))) by lia. replace (fuel - 15)%nat with (S (fuel - 16)) in E1 by lia.
    rewrite (read_end (fuel - 16) _ _ _ _ _ Hc1) in E1. rewrite (pton_read _ m1 buf _ _ _ (-1) Hb ltac:(by replace (ldb m1 buf =? 58) with false by lia) E1).
    rewrite Hl8. cbn [Nat.sub replicate]. by rewrite app_nil_r.
  - destruct (ntop_gap_ok m addr buf Hl HF [] w2 (S n) Ew ltac:(lia)) as (m1 & E & Hc & Ho); try done; [cbn; lia |].
    exists m1. split; [done |]. split; [| done]. rewrite <- Eo. clear Eo. rewrite Ew in HW, Hl8 |- *. apply Forall_app in HW as [_ HW]. rewrite length_app, length_replicate in Hl8.
    unfold gap_text in Hc. cbn [plain_text app] in Hc. destruct w2 as [|w ws].
    + destruct Hc as (_ & H58 & Hc). cbn in Hc. destruct fuel as [|[|f]]; [lia.. |].
      rewrite (pton_read (S (S f)) m1 buf (replicate 8 0) 1 (-1) (-1) Hb); [| by rewrite Hc, H58 |].
      * cbn [length] in Hl8. assert (n = 7)%nat as -> by lia. done.
      * rewrite read_colon by (done || lia). by rewrite read_end.
    + change (colon_text (w :: ws)) with (58 :: hex_text w ++ colon_text ws) in Hc. destruct Hc as (_ & H58 & _ & H58' & Hc).
      rewrite <- (app_nil_r (hex_text w ++ _)) in Hc.
      destruct (read_plain w ws [] (fuel - 2 - 2 * length ws) m1 (buf + 1 + 1) 0 Hc HW (or_introl eq_refl)) as [E1 Hc1]; [cbn [length] in Hl8; lia |].
      cbn [length] in Hl8. replace (fuel - 2 - 2 * length ws)%nat with (S (fuel - 3 - 2 * length ws)) in E1 by lia. rewrite (read_end (fuel - 3 - 2 * length ws) _ _ _ _ _ Hc1) in E1.
      rewrite (pton_read fuel m1 buf ((w :: ws) ++ replicate (7 - length ws) 0) (Z.of_nat (length (w :: ws))) 0 0 Hb); [| by rewrite H58, H58' |].
      * replace (7 - length ws)%nat with (S n) by lia. rewrite expand_front by (cbn [length]; lia). done.
      * replace fuel with (S (S (2 * length ws + S (fuel - 3 - 2 * length ws)))) by lia. rewrite read_double by (done || lia). exact E1.
Qed.

(** An address whose first longest run of zero words has a word [x] in front of it is not
    read back: the text has three colons, and the address that is read has [x] behind the
    run, or not at all when the run is at the end. *)
Theorem ipv6_text_misread (m : mem) (addr : list Z) (buf : Z) (n : nat) (front w2 : list Z) (x : Z) (fuel : nat) :
  length addr = 16%nat -> Forall (fits 8) addr -> buf <> 0 -> (20 <= fuel)%nat ->
  words_of addr = front ++ x :: replicate n 0 ++ w2 -> x <> 0 -> (0 < n)%nat ->
  runs_le (Z.of_nat n - 1) 0 (front ++ [x]) = true -> runs_le (Z.of_nat n) 0 w2 = true -> head w2 <> Some 0 ->
  exists m1, ipv6_ntop m addr buf = Ret m1 /\
    ipv6_pton fuel m1 buf =
    Ret (octets_of (match w2 with [] => front ++ replicate (S n) 0 | _ => front ++ replicate n 0 ++ x :: w2 end)).
Proof.
  intros Hl HF Hb Hf Ew Hx Hn R1 R2 Hh. destruct (addr_words addr Hl HF) as (_ & HW & Hl8).
  assert (Ew' : words_of addr = (front ++ [x]) ++ replicate n 0 ++ w2) by (by rewrite Ew, <- app_assoc).
  destruct (ntop_gap_ok m addr buf Hl HF _ w2 n Ew' Hn R1) as (m1 & E & Hc & _); [| done | done |].
  { rewrite last_snoc. congruence. }
  exists m1. split; [done |]. clear E. rewrite Ew' in HW, Hl8. apply Forall_app in HW as [W1 HW]. apply Forall_app in HW as [_ W2].
  rewrite !length_app, length_replicate in Hl8. cbn [length] in Hl8. set (w1 := front ++ [x]) in *.
  assert (Hw1 : length w1 = S (length front)) by (unfold w1; rewrite length_app; cbn; lia).
  destruct w1 as [|w ws] eqn:E1; [cbn in Hw1; lia |]. unfold gap_text in Hc. cbn [length] in Hw1. injection Hw1 as Hw1.
  assert (Hne : ldb m1 buf <> 58).
  { pose proof W1 as [Hw _]%Forall_cons. cbn [plain_text] in Hc. rewrite <- !app_assoc in Hc. by destruct (hex_head w _ m1 buf Hw Hc). }
  cbn [app] in Hc. set (k := (2 * length w2)%nat) in *.
  destruct (read_plain w ws (58 :: 58 :: colon_text w2) (S (k + S (fuel - 2 * length ws - k - 3))) m1 buf (-1) Hc W1 (or_intror eq_refl) ltac:(lia)) as [Er Hc1].
  set (p := buf + Z.of_nat (length (plain_text (w :: ws)))) in *. destruct Hc1 as (_ & H1 & _ & H2 & Hc1).
  rewrite <- (app_nil_r (colon_text w2)) in Hc1.
  destruct (read_run w2 [] (S (fuel - 2 * length ws - k - 3)) m1 (p + 1 + 1) (w :: ws) (7 - length ws) (Z.of_nat (length ws)) Hc1 W2 (or_introl eq_refl)) as [E2 Hc2];
    [lia | done | cbn [length]; lia |].
  rewrite (read_end _ _ _ _ _ _ Hc2) in E2. fold k in E2.
  assert (Hi : idx_at (w :: ws) (58 :: 58 :: colon_text w2) = Z.of_nat (length ws)) by (unfold idx_at; cbn [length]; lia).
  rewrite Hi, (read_double _ _ _ _ _ _ H1 H2) in Er by lia.
  replace (S (2 * length ws + _)) with fuel in Er by lia.
  assert (Hfr : ((w :: ws) ++ w2) ++ replicate (7 - length ws - length w2) 0 = front ++ x :: w2 ++ replicate n 0).
  { rewrite <- E1. unfold w1. rewrite <- !app_assoc. cbn [app]. do 4 f_equal. lia. }
  assert (Hcomp : -1 = (if (ldb m1 buf =? 58) && (ldb m1 (buf + 1) =? 58) then 0 else -1)) by (by replace (ldb m1 buf =? 58) with false by lia).
  destruct w2 as [|v vs].
  - rewrite app_nil_r in Hc1. change (k + ?a)%nat with a in Er. rewrite (read_end _ _ _ _ _ _ Hc1) in Er.
    rewrite (pton_read _ _ _ _ _ _ _ Hb Hcomp Er). cbn [length] in *. rewrite Nat.sub_0_r, app_nil_r in Hfr. change ([] ++ replicate n 0) with (replicate n 0) in Hfr. rewrite Hfr, Hw1, expand_last by lia. done.
  - change (idx_at (w :: ws) (colon_text (v :: vs) ++ [])) with (Z.of_nat (S (length ws)) - 1) in E2.
    replace (Z.of_nat (S (length ws)) - 1) with (Z.of_nat (length ws)) in E2 by lia. rewrite E2 in Er.
    rewrite (pton_read _ _ _ _ _ _ _ Hb Hcomp Er), Hfr, Hw1. unfold idx_at.
    rewrite length_app. change (length (w :: ws)) with (S (length ws)). rewrite Hw1. replace (S (length front) + length (v :: vs))%nat with (length front + S (length (v :: vs)))%nat by lia.
    rewrite expand_middle by lia. done.
Qed.

(** * Packets *)

(** [ipv6_input] drops every packet: the version it compares is a field of four bits,
    whose byte-swapped value has no bits above the 28th. *)
Theorem ipv6_input_drops (ps : ipv6_protocols) (b : net_buf) :
  in_block b 0 1 = true -> ipv6_input ps b = Ret (b, None).
Proof.
  intros Hb. unfold ipv6_input, get_version, buf_field, buf_read. change (Z.of_nat 1) with 1. rewrite Hb. cbn [obind].
  set (v := Z.land _ 0xF). assert (0 <= v < 16) as Hv.
  { unfold v. change 0xF with (Z.ones 4). rewrite Z.land_ones by lia. apply Z.mod_pos_bound. lia. }
  clearbody v. assert (v ∈ seqZ 0 16) as Hin by (apply elem_of_seqZ; lia).
  assert (HF : Forall (fun v => Z.shiftr (ntohl v) 28 = 0) (seqZ 0 16)).
  { change (seqZ 0 16) with [0; 1; 2; 3; 4; 5; 6; 7; 8; 9; 10; 11; 12; 13; 14; 15]. by repeat constructor. }
  rewrite Forall_forall in HF. by rewrite HF.
Qed.

(** The header [ipv6_output] writes. *)
Definition header6 (len nh : Z) (src dest : list Z) : list Z :=
  [0; 0; 0; 0] ++ le_bytes 2 (htons (u16 len)) ++ [u8 nh; 64] ++ src ++ dest.

Lemma ipv6_fill_ok (b : net_buf) (pre h post src dest : list Z) (nh : Z) :
  nb_data b = Z.of_nat (length pre) -> length h = 40%nat -> length src = 16%nat -> length dest = 16%nat ->
  ipv6_fill (window b pre h post) dest src nh = Ret (window b pre (header6 (nb_len b) nh src dest) post).
Proof.
  intros Hd Hl H1 H2. unfold ipv6_fill, set_version, buf_set_field.
  rewrite (window_write b pre h post 0 (replicate 40 0)) by (done || rewrite ?length_replicate; lia).
  replace (splice h 0 (replicate 40 0)) with (replicate 40 0).
  2: { unfold splice. rewrite drop_ge by (rewrite length_replicate; lia). done. }
  cbn [obind]. do 5 in_header Hd. set (l2 := le_bytes 2 (htons (u16 (nb_len b)))). assert (Hl2 : length l2 = 2%nat) by done.
  match goal with |- context [buf_write (window b pre ?k post) 8 src] =>
    change k with (([0; 0; 0; 0] ++ l2 ++ [u8 nh; 64]) ++ replicate 32 0) end.
  set (front := [0; 0; 0; 0] ++ l2 ++ [u8 nh; 64]). assert (Hf : length front = 8%nat) by done.
  rewrite (window_write _ _ _ _ _ _ Hd) by (rewrite ?length_app, ?length_replicate, ?Hf, ?H1; lia). cbn [obind].
  replace (splice (front ++ replicate 32 0) 8 src) with ((front ++ src) ++ replicate 16 0).
  2: { unfold splice. change (Z.to_nat 8) with 8%nat. rewrite H1, <- Hf, take_app_length, <- app_assoc, drop_app_ge by lia. do 2 f_equal. }
  rewrite (window_write _ _ _ _ _ _ Hd) by (rewrite ?length_app, ?length_replicate, ?Hf, ?H1, ?H2; lia). do 2 f_equal.
  unfold splice. change (Z.to_nat 24) with 24%nat. assert (Hfs : length (front ++ src) = 24%nat) by (rewrite length_app; lia).
  rewrite H2, <- Hfs, take_app_length, drop_ge by (rewrite length_app, length_replicate; lia).
  unfold header6. fold l2. rewrite app_nil_r. unfold front. by rewrite <- !app_assoc.
Qed.

(** [ipv6_output] answers -1 to every packet that has room for a header; the header it
    leaves in the buffer has version 0 instead of 6. *)
Theorem ipv6_output_spec (b : net_buf) (dest : list Z) (src : option (list Z)) (nh : Z) :
  IPV6_HEADER_SIZE <= nb_headroom b -> 0 <= nb_data b -> nb_data b + 2 * IPV6_HEADER_SIZE <= Z.of_nat (length (nb_bytes b)) ->
  length dest = 16%nat -> length (default IPV6_ADDR_UNSPECIFIED src) = 16%nat ->
  exists b', ipv6_output (Some b) (Some dest) src nh = Ret (-1, Some b') /\ nb_data b' = nb_data b + IPV6_HEADER_SIZE /\
    nb_bytes b' = splice (nb_bytes b) (nb_data b') (header6 (nb_len b) nh (default IPV6_ADDR_UNSPECIFIED src) dest) /\
    get_version b' = Ret 0.
Proof.
  unfold IPV6_HEADER_SIZE. intros Hr Hd Hn H1 H2. unfold ipv6_output, IPV6_HEADER_SIZE.
  set (l := nb_bytes b) in *. set (k := Z.to_nat (nb_data b + 40)). set (b0 := net_reserve b 40).
  assert (E0 : b0 = window b0 (take k l) (take 40 (drop k l)) (drop (k + 40) l) /\ nb_data b0 = nb_data b + 40 /\ nb_len b0 = nb_len b).
  { unfold b0, net_reserve, window. replace (nb_headroom b <? 40) with false by lia. split; [| done].
    unfold with_bytes. cbn [nb_self nb_head nb_data nb_tail nb_end nb_len nb_headroom nb_truesize nb_protocol nb_ifindex nb_dev]. f_equal.
    rewrite <- drop_drop, take_drop, take_drop. done. }
  destruct E0 as (E0 & Ed & El). assert (Hk : length (take k l) = k) by (rewrite length_take; lia).
  rewrite E0, ipv6_fill_ok; [| lia | rewrite length_take, length_drop; lia | done | done]. cbn [obind].
  eexists. split; [done |]. split; [done |]. cbn [window with_bytes nb_bytes nb_data]. rewrite Ed, El. split.
  - unfold splice. fold k. replace (length (header6 _ _ _ _)) with 40%nat; [done |]. unfold header6. rewrite !length_app, H1, H2. done.
  - unfold get_version. rewrite window_field; [| lia | done | cbn [length header6 app]; lia]. done.
Qed.

(** * The sum over the pseudo header *)

(** The sum ends, and is the complement of the one's complement sum of the addresses and of
    the length and protocol as numbers. *)
Theorem ipv6_pseudo_checksum_spec (src dst : list Z) (nh len : Z) :
  length src = 16%nat -> length dst = 16%nat -> Forall (fits 8) src -> Forall (fits 8) dst -> fits 8 nh -> fits 32 len ->
  ipv6_pseudo_checksum src dst nh len =
  Ret (65535 - ones_sum (word_sum src + word_sum dst + (len / 65536 + len mod 65536) + nh)).
Proof.
  intros Hs Hd Fs Fd [N0 N1] [L0 L1]. change (2 ^ 8) with 256 in N1. change (2 ^ 32) with 4294967296 in L1.
  pose proof (word_sum_bound src Fs) as Bs. pose proof (word_sum_bound dst Fd) as Bd. rewrite Hs in Bs. rewrite Hd in Bd.
  change (Z.of_nat 16 / 2 + 1) with 9 in *. unfold ipv6_pseudo_checksum.
  rewrite (csum_words_eq src), csum_words_eq by (done || (change (2 ^ 32) with 4294967296; lia)). rewrite Z.add_0_l.
  change 0xFFFF with (Z.ones 16). rewrite Z.land_ones, Z.shiftr_div_pow2 by lia. change (2 ^ 16) with 65536.
  set (x := len / 65536 + len mod 65536). assert (Hx : 0 <= x <= 131070) by (unfold x; dlia). clearbody x.
  rewrite (wrap_small 32 (word_sum src + word_sum dst + x)) by (split; [lia |]; change (2 ^ 32) with 4294967296; lia).
  rewrite wrap_small by (split; [lia |]; change (2 ^ 32) with 4294967296; lia).
  rewrite csum_fold_eq by (change (2 ^ 32) with 4294967296; lia). cbn [obind]. by rewrite wnot16 by apply ones_sum_bound.
Qed.

Lemma ipv6_pseudo_checksum_spec_witness :
  ipv6_pseudo_checksum IPV6_ADDR_LOOPBACK IPV6_ADDR_ALL_NODES 17 8 =
  Ret (65535 - ones_sum (word_sum IPV6_ADDR_LOOPBACK + word_sum IPV6_ADDR_ALL_NODES + (8 / 65536 + 8 mod 65536) + 17)).
Proof. apply ipv6_pseudo_checksum_spec; done || by repeat constructor. Defined.

(** The length and the protocol are added in the order of the host while the addresses are
    added as they lie in memory, so the sum is not that of the pseudo header of RFC 8200. *)
Theorem ipv6_pseudo_checksum_order :
  exists c c', ipv6_pseudo_checksum IPV6_ADDR_LOOPBACK IPV6_ADDR_LOOPBACK 17 8 = Ret c /\
    ipv4_checksum (IPV6_ADDR_LOOPBACK ++ IPV6_ADDR_LOOPBACK ++ [0; 0; 0; 8] ++ [0; 0; 0; 17]) = Ret c' /\ c <> c'.
Proof. do 2 eexists. split; [vm_compute; reflexivity |]. split; [vm_compute; reflexivity |]. done. Qed.

(** * Concrete addresses *)

Lemma ipv6_text_roundtrip_witness :
  exists m1, ipv6_ntop (fun _ => 0) (replicate 12 0 ++ [0; 1; 0xab; 2]) 100 = Ret m1 /\
    ipv6_pton 20 m1 100 = Ret (replicate 12 0 ++ [0; 1; 0xab; 2]).
Proof.
  destruct (ipv6_text_roundtrip (fun _ => 0) (replicate 12 0 ++ [0; 1; 0xab; 2]) 100 6 [1; 0xab02] 20) as (m1 & E1 & E2 & _);
    [done | by repeat constructor | done | lia | done | done | done |].
  exists m1. split; [exact E1 | exact E2].
Defined.

(** ff02::1 is read back as ::ff02:1. *)
Lemma ipv6_text_misread_witness :
  exists m1, ipv6_ntop (fun _ => 0) IPV6_ADDR_ALL_NODES 100 = Ret m1 /\
    ipv6_pton 20 m1 100 = Ret (replicate 12 0 ++ [0xff; 2; 0; 1]).
Proof.
  destruct (ipv6_text_misread (fun _ => 0) IPV6_ADDR_ALL_NODES 100 6 [] [1] 0xff02 20) as (m1 & E1 & E2);
    [done | by repeat constructor | done | lia | done | done | lia | done | done | done |].
  exists m1. split; [exact E1 | exact E2].
Defined.

Definition packet : net_buf := mk_buf 8 80 (replicate 256 0x60) 64 64 256 40 64 256 0 0 0.

Lemma ipv6_input_drops_witness : ipv6_input ∅ packet = Ret (packet, None).
Proof. apply ipv6_input_drops. reflexivity. Defined.

Lemma ipv6_output_spec_witness :
  exists b', ipv6_output (Some packet) (Some IPV6_ADDR_ALL_NODES) None 58 = Ret (-1, Some b') /\ get_version b' = Ret 0.
Proof.
  destruct (ipv6_output_spec packet IPV6_ADDR_ALL_NODES None 58) as (b' & E & _ & _ & V); [done | done | done | done | done |].
  exists b'. split; [exact E | exact V].
Defined.
