(* ===== verification/Dhcp.v ===== *)
(** The DHCP client, src/kernel/net/dhcp.c: the messages it builds, the scan of the options of
    an answer, and the clients.  Client structures are in a store keyed by address: those
    of the callers, and the copies that the list of active clients holds. *)

From S2P Require Import Prelude Bytes LibMem LibString Printf CryptoInternal ChaCha20 CryptoRng NetBuf Ethernet Arp Ipv4.

Definition DHCP_SERVER_PORT : Z := 67.
Definition DHCP_CLIENT_PORT : Z := 68.
Definition DHCP_MAGIC_COOKIE : Z := 0x63825363.

Definition DHCP_OPT_PAD : Z := 0.
Definition DHCP_OPT_SUBNET_MASK : Z := 1.
Definition DHCP_OPT_ROUTER : Z := 3.
Definition DHCP_OPT_DNS_SERVER : Z := 6.
Definition DHCP_OPT_HOSTNAME : Z := 12.
Definition DHCP_OPT_REQUESTED_IP : Z := 50.
Definition DHCP_OPT_LEASE_TIME : Z := 51.
Definition DHCP_OPT_MSG_TYPE : Z := 53.
Definition DHCP_OPT_SERVER_ID : Z := 54.
Definition DHCP_OPT_PARAM_LIST : Z := 55.
Definition DHCP_OPT_CLIENT_ID : Z := 61.
Definition DHCP_OPT_END : Z := 255.

Definition DHCP_DISCOVER : Z := 1.
Definition DHCP_OFFER : Z := 2.
Definition DHCP_REQUEST : Z := 3.
Definition DHCP_ACK : Z := 5.
Definition DHCP_NAK : Z := 6.
Definition DHCP_RELEASE : Z := 7.

(** [sizeof(dhcp_header_t)], where the options start. *)
Definition SIZEOF_DHCP : Z := 240.

(** * Options *)

(** The writers take the offset into the options and return the next one. *)
Definition dhcp_add_option (b : net_buf) (offset type len : Z) (data : list Z) : outcome (net_buf * Z) :=
  (do b <- buf_set_field b (SIZEOF_DHCP + offset) 1 type;
   do b <- buf_set_field b (SIZEOF_DHCP + offset + 1) 1 len;
   do b <- buf_write b (SIZEOF_DHCP + offset + 2) (take (Z.to_nat len) data);
   Ret (b, offset + 2 + len))%out.

Definition dhcp_add_option_byte (b : net_buf) (offset type value : Z) : outcome (net_buf * Z) :=
  (do b <- buf_set_field b (SIZEOF_DHCP + offset) 1 type;
   do b <- buf_set_field b (SIZEOF_DHCP + offset + 1) 1 1;
   do b <- buf_set_field b (SIZEOF_DHCP + offset + 2) 1 value;
   Ret (b, offset + 3))%out.

Definition dhcp_add_option_dword (b : net_buf) (offset type value : Z) : outcome (net_buf * Z) :=
  (do b <- buf_set_field b (SIZEOF_DHCP + offset) 1 type;
   do b <- buf_set_field b (SIZEOF_DHCP + offset + 1) 1 4;
   do b <- buf_set_field b (SIZEOF_DHCP + offset + 2) 4 (htonl value);
   Ret (b, offset + 2 + 4))%out.

Definition dhcp_add_option_end (b : net_buf) (offset : Z) : outcome (net_buf * Z) :=
  (do b <- buf_set_field b (SIZEOF_DHCP + offset) 1 DHCP_OPT_END; Ret (b, offset + 1))%out.

(** The scan of [dhcp_find_option]: the length and the place of the first option of a type.
    A round takes at least one of the 300 bytes. *)
Fixpoint find_option_from (fuel : nat) (b : net_buf) (opt_type offset : Z) : outcome (option (Z * Z)) :=
  match fuel with
  | O => if offset <? 300 then Crash else Ret None
  | S fuel' =>
      (if offset <? 300 then
         do type <- buf_field b (SIZEOF_DHCP + offset) 1;
         let offset := offset + 1 in
         if type =? DHCP_OPT_END then Ret None
         else if type =? DHCP_OPT_PAD then find_option_from fuel' b opt_type offset
         else
           do opt_len <- buf_field b (SIZEOF_DHCP + offset) 1;
           let offset := offset + 1 in
           if type =? opt_type then Ret (Some (opt_len, SIZEOF_DHCP + offset))
           else find_option_from fuel' b opt_type (offset + opt_len)
       else Ret None)%out
  end.

Definition dhcp_find_option (b : net_buf) (opt_type : Z) : outcome (option (Z * Z)) := find_option_from 300 b opt_type 0.

(** * Clients *)

Record dhcp_client := mk_client {
  c_dev : Z; c_running : bool; c_configured : bool;
  c_xid : Z; c_yiaddr : Z; c_server_ip : Z; c_subnet_mask : Z; c_gateway : Z; c_dns_server : Z; c_lease_time : Z;
  c_lease_expires : Z; c_renew_time : Z; c_rebind_time : Z;
  c_callback : Z
}.

Definition SIZEOF_CLIENT : Z := 72.
Definition SIZEOF_CLIENT_ENTRY : Z := 80.

(** The structure [dhcp_init] fills in. *)
Definition new_client (dev xid : Z) : dhcp_client := mk_client dev false false xid 0 0 0 0 0 0 0 0 0 0.

Definition with_run (c : dhcp_client) (run conf : bool) (xid : Z) : dhcp_client :=
  mk_client (c_dev c) run conf xid (c_yiaddr c) (c_server_ip c) (c_subnet_mask c) (c_gateway c) (c_dns_server c) (c_lease_time c)
    (c_lease_expires c) (c_renew_time c) (c_rebind_time c) (c_callback c).

Definition with_offer (c : dhcp_client) (yi srv mask gw dns lease : Z) : dhcp_client :=
  mk_client (c_dev c) (c_running c) (c_configured c) (c_xid c) yi srv mask gw dns lease
    (c_lease_expires c) (c_renew_time c) (c_rebind_time c) (c_callback c).

Definition with_times (c : dhcp_client) (exp ren reb : Z) : dhcp_client :=
  mk_client (c_dev c) (c_running c) (c_configured c) (c_xid c) (c_yiaddr c) (c_server_ip c) (c_subnet_mask c) (c_gateway c)
    (c_dns_server c) (c_lease_time c) exp ren reb (c_callback c).

Definition with_callback (c : dhcp_client) (cb : Z) : dhcp_client :=
  mk_client (c_dev c) (c_running c) (c_configured c) (c_xid c) (c_yiaddr c) (c_server_ip c) (c_subnet_mask c) (c_gateway c)
    (c_dns_server c) (c_lease_time c) (c_lease_expires c) (c_renew_time c) (c_rebind_time c) cb.

(** [memcpy] of an address into the fields of a device. *)
Definition with_addrs (d : net_device) (ip mask gw : Z) : net_device :=
  mk_dev (dev_name d) (dev_index d) (dev_type d) (mac_addr d) ip mask gw (up d) (running d) (dev_priv d).

(** What one call of the random generator finds: the stack garbage behind its key, a sample
    of the hardware, and the old bytes of the variable. *)
Record draw := mk_draw { dr_key : list Z; dr_hw : hw_sample; dr_old : list Z }.

(** The network stack, the client structures, the list of active clients by address, its
    count, the generator, and the number of draws so far. *)
Record dhcpstate (S : Type) := mk_dhcp {
  h_net : netstate S; h_clients : gmap Z dhcp_client; g_dhcp_clients : list Z; g_dhcp_clients_count : Z;
  h_rng : rng; h_draws : nat
}.
Arguments mk_dhcp {S}.
Arguments h_net {S}.
Arguments h_clients {S}.
Arguments g_dhcp_clients {S}.
Arguments g_dhcp_clients_count {S}.
Arguments h_rng {S}.
Arguments h_draws {S}.

(** * Messages *)

(** The literal "64OS". *)
Definition HOSTNAME : list Z := [54; 52; 79; 83].

(** The message in the buffer, up to its length. *)
Definition dhcp_message (b : net_buf) (c : dhcp_client) (mac : list Z) (msg_type requested_ip : Z) : outcome net_buf :=
  (do b <- buf_write b 0 (replicate (Z.to_nat SIZEOF_DHCP) 0);
   do b <- buf_set_field b 0 1 1;
   do b <- buf_set_field b 1 1 1;
   do b <- buf_set_field b 2 1 6;
   do b <- buf_set_field b 4 4 (htonl (c_xid c));
   do b <- buf_set_field b 8 2 (htons 0);
   do b <- buf_set_field b 10 2 (htons 0x8000);
   do b <- buf_write b 28 (take 6 mac);
   do b <- buf_set_field b 236 4 (htonl DHCP_MAGIC_COOKIE);
   do '(b, off) <- dhcp_add_option_byte b 0 DHCP_OPT_MSG_TYPE msg_type;
   do '(b, off) <- dhcp_add_option b off DHCP_OPT_CLIENT_ID 7 (1 :: take 6 mac);
   do '(b, off) <- (if negb (requested_ip =? 0) then dhcp_add_option_dword b off DHCP_OPT_REQUESTED_IP requested_ip else Ret (b, off));
   do '(b, off) <- dhcp_add_option b off DHCP_OPT_PARAM_LIST 4 [1; 3; 6; 51];
   do '(b, off) <- dhcp_add_option b off DHCP_OPT_HOSTNAME 4 HOSTNAME;
   do '(b, off) <- dhcp_add_option_end b off;
   Ret (with_len b (SIZEOF_DHCP + off)))%out.

Section dhcp.
Context {S : Type} `{BlockAlloc S}.
(** What interrupts do while an address is resolved. *)
Context (during : S * net_table * arp_cache * Z -> outcome (S * net_table * arp_cache * Z)).
(** What the calls of the random generator find. *)
Context (draws : nat -> draw).

Definition with_stack (h : dhcpstate S) (n : netstate S) : dhcpstate S :=
  mk_dhcp n (h_clients h) (g_dhcp_clients h) (g_dhcp_clients_count h) (h_rng h) (h_draws h).

Definition set_client (h : dhcpstate S) (a : Z) (c : dhcp_client) : dhcpstate S :=
  mk_dhcp (h_net h) (<[a := c]> (h_clients h)) (g_dhcp_clients h) (g_dhcp_clients_count h) (h_rng h) (h_draws h).

Definition client_of (h : dhcpstate S) (a : Z) : outcome dhcp_client := of_option (h_clients h !! a).

Definition dhcp_generate_xid (h : dhcpstate S) : Z * dhcpstate S :=
  let d := draws (h_draws h) in
  let '(_, r, out) := crypto_get_random_bytes (dr_key d) (dr_hw d) (Some (dr_old d)) (h_rng h) in
  (le_val (take 4 out), mk_dhcp (h_net h) (h_clients h) (g_dhcp_clients h) (g_dhcp_clients_count h) r (h_draws h + 1)).

(** The buffer is never freed. *)
Definition dhcp_send_message (h : dhcpstate S) (c : dhcp_client) (msg_type requested_ip : Z) : outcome (Z * dhcpstate S) :=
  (do '(ob, s) <- net_alloc_buf (n_heap (h_net h)) (SIZEOF_DHCP + 312);
   let h := with_stack h (with_heap (h_net h) s) in
   match ob with
   | None => Ret (-1, h)
   | Some b =>
       do d <- of_option (devs (n_table (h_net h)) !! c_dev c);
       do b <- dhcp_message b c (mac_addr d) msg_type requested_ip;
       do '(r, _, n) <- udp_output during (h_net h) b 0xFFFFFFFF 0 DHCP_SERVER_PORT DHCP_CLIENT_PORT;
       Ret (r, with_stack h n)
   end)%out.

(** * Answers *)

(** An address in an option, or [old] when the option is missing or short. *)
Definition option_addr (b : net_buf) (opt_type old : Z) : outcome Z :=
  (do o <- dhcp_find_option b opt_type;
   match o with
   | Some (len, off) => if 4 <=? len then do v <- buf_field b off 4; Ret (ntohl v) else Ret old
   | None => Ret old
   end)%out.

Definition process_offer (h : dhcpstate S) (a : Z) (c : dhcp_client) (b : net_buf) : outcome (dhcpstate S) :=
  (do yi <- buf_field b 16 4;
   do srv <- option_addr b DHCP_OPT_SERVER_ID (c_server_ip c);
   do mask <- option_addr b DHCP_OPT_SUBNET_MASK (c_subnet_mask c);
   do gw <- option_addr b DHCP_OPT_ROUTER (c_gateway c);
   do dns <- option_addr b DHCP_OPT_DNS_SERVER (c_dns_server c);
   do lease <- option_addr b DHCP_OPT_LEASE_TIME (c_lease_time c);
   let c := with_offer c (ntohl yi) srv mask gw dns lease in
   do '(_, h) <- dhcp_send_message (set_client h a c) c DHCP_REQUEST (c_yiaddr c);
   Ret h)%out.

(** The routes of an acknowledged lease. *)
Definition lease_routes (n : netstate S) (c : dhcp_client) : outcome (netstate S) :=
  (do '(_, s, rs) <- ipv4_route_add (n_heap n) (n_routes n) (Z.land (c_yiaddr c) (c_subnet_mask c)) (c_subnet_mask c) 0
                      (c_yiaddr c) (c_dev c) 0;
   do '(s, rs) <- (if negb (c_gateway c =? 0)
                   then do '(_, s, rs) <- ipv4_route_add s rs 0 0 (c_gateway c) (c_yiaddr c) (c_dev c) 0; Ret (s, rs)
                   else Ret (s, rs));
   Ret (mk_net s (n_table n) (n_cache n) (n_now n) rs (n_protocols n) (n_id n)))%out.

Definition set_dev (n : netstate S) (a : Z) (d : net_device) : netstate S :=
  let t := n_table n in
  mk_net (n_heap n) (mk_table (<[a := d]> (devs t)) (net_devices t) (net_device_count t)) (n_cache n) (n_now n)
    (n_routes n) (n_protocols n) (n_id n).

(** The call of the callback, if there is one: its address, the client, and the success. *)
Definition call_of (c : dhcp_client) (a : Z) (success : bool) : option (Z * Z * bool) :=
  if c_callback c =? 0 then None else Some (c_callback c, a, success).

Definition process_ack (h : dhcpstate S) (a : Z) (c : dhcp_client) : outcome (dhcpstate S * option (Z * Z * bool)) :=
  (let c := with_run c (c_running c) true (c_xid c) in
   do d <- of_option (devs (n_table (h_net h)) !! c_dev c);
   do n <- lease_routes (set_dev (h_net h) (c_dev c) (with_addrs d (c_yiaddr c) (c_subnet_mask c) (c_gateway c))) c;
   let now := n_now n / 1000 in
   let c := with_times c (add64 now (c_lease_time c)) (add64 now (c_lease_time c / 2)) (add64 now (u32 (c_lease_time c * 7) / 8)) in
   Ret (set_client (with_stack h n) a c, call_of c a true))%out.

(** [dhcp_process_response] on the client at [a]: the state, and the callback it calls. *)
Definition dhcp_process_response (h : dhcpstate S) (a : Z) (b : net_buf) : outcome (dhcpstate S * option (Z * Z * bool)) :=
  (do c <- client_of h a;
   do x <- buf_field b 4 4;
   if negb (ntohl x =? c_xid c) then Ret (h, None)
   else
     do o <- dhcp_find_option b DHCP_OPT_MSG_TYPE;
     match o with
     | None => Ret (h, None)
     | Some (len, off) =>
         if len <? 1 then Ret (h, None)
         else
           do msg_type <- buf_field b off 1;
           if msg_type =? DHCP_OFFER then do h <- process_offer h a c b; Ret (h, None)
           else if msg_type =? DHCP_ACK then process_ack h a c
           else if msg_type =? DHCP_NAK then
             let c := with_run c (c_running c) false (c_xid c) in
             Ret (set_client h a c, call_of c a false)
           else Ret (h, None)
     end)%out.

(** The search for the client with the hardware address of the packet. *)
Fixpoint find_client (h : dhcpstate S) (l : list Z) (chaddr : list Z) : outcome (option Z) :=
  (match l with
   | [] => Ret None
   | a :: l' =>
       do c <- client_of h a;
       do d <- of_option (devs (n_table (h_net h)) !! c_dev c);
       if bool_decide (take 6 (mac_addr d) = chaddr) then Ret (Some a) else find_client h l' chaddr
   end)%out.

Definition dhcp_input (h : dhcpstate S) (b : net_buf) : outcome (dhcpstate S * option (Z * Z * bool)) :=
  (if nb_len b <? SIZEOF_DHCP then Ret (h, None)
   else
     do magic <- buf_field b 236 4;
     if negb (ntohl magic =? DHCP_MAGIC_COOKIE) then Ret (h, None)
     else
       do chaddr <- buf_read b 28 6;
       do o <- find_client h (g_dhcp_clients h) chaddr;
       match o with
       | Some a => dhcp_process_response h a b
       | None => Ret (h, None)
       end)%out.

(** * The interface of the client *)

Definition dhcp_init (h : dhcpstate S) (client dev : Z) : outcome (Z * dhcpstate S) :=
  (if (client =? 0) || (dev =? 0) then Ret (-1, h)
   else
     let '(xid, h) := dhcp_generate_xid h in
     let h := set_client h client (new_client dev xid) in
     do '(entry, _, s) <- ba_malloc (n_heap (h_net h)) SIZEOF_CLIENT_ENTRY;
     let h := with_stack h (with_heap (h_net h) s) in
     if entry =? 0 then Ret (-1, h)
     else
       let h := set_client h entry (new_client dev xid) in
       Ret (0, mk_dhcp (h_net h) (h_clients h) (entry :: g_dhcp_clients h) (u32 (g_dhcp_clients_count h + 1)) (h_rng h) (h_draws h)))%out.

Definition dhcp_start (h : dhcpstate S) (client : Z) : outcome (Z * dhcpstate S) :=
  (if client =? 0 then Ret (-1, h)
   else
     do c <- client_of h client;
     let '(xid, h) := dhcp_generate_xid h in
     let c := with_run c true false xid in
     dhcp_send_message (set_client h client c) c DHCP_DISCOVER 0)%out.

Definition dhcp_renew (h : dhcpstate S) (client : Z) : outcome (Z * dhcpstate S) :=
  (if client =? 0 then Ret (-1, h)
   else
     do c <- client_of h client;
     if negb (c_configured c) then Ret (-1, h)
     else
       let '(xid, h) := dhcp_generate_xid h in
       let c := with_run c (c_running c) (c_configured c) xid in
       dhcp_send_message (set_client h client c) c DHCP_REQUEST (c_yiaddr c))%out.

Definition dhcp_release (h : dhcpstate S) (client : Z) : outcome (Z * dhcpstate S) :=
  (if client =? 0 then Ret (-1, h)
   else
     do c <- client_of h client;
     if negb (c_configured c) then Ret (-1, h)
     else
       do '(_, h) <- dhcp_send_message h c DHCP_RELEASE (c_yiaddr c);
       do c <- client_of h client;
       Ret (0, set_client h client (with_run c (c_running c) false (c_xid c))))%out.

(** One interface of [dhcp_start_on_all_interfaces]. *)
Definition start_interface (h : dhcpstate S) (callback dev : Z) : outcome (dhcpstate S) :=
  (do d <- of_option (devs (n_table (h_net h)) !! dev);
   if (bool_decide (dev_type d = NET_TYPE_ETHERNET) || bool_decide (dev_type d = NET_TYPE_WIFI)) && (up d && running d) then
     do '(client, _, s) <- ba_malloc (n_heap (h_net h)) SIZEOF_CLIENT;
     let h := with_stack h (with_heap (h_net h) s) in
     if client =? 0 then Ret h
     else
       do '(_, h) <- dhcp_init h client dev;
       do c <- client_of h client;
       do '(_, h) <- dhcp_start (set_client h client (with_callback c callback)) client;
       Ret h
   else Ret h)%out.

Fixpoint start_interfaces (h : dhcpstate S) (callback : Z) (l : list Z) : outcome (dhcpstate S) :=
  (match l with
   | [] => Ret h
   | dev :: l' => do h <- start_interface h callback dev; start_interfaces h callback l'
   end)%out.

Definition dhcp_start_on_all_interfaces (h : dhcpstate S) (callback : Z) : outcome (dhcpstate S) :=
  start_interfaces h callback (net_devices (n_table (h_net h))).

(** [dhcp_subsystem_init], with the handler named by [handler]. *)
Definition dhcp_subsystem_init (h : dhcpstate S) (hs : udp_handlers) (handler : Z) : dhcpstate S * udp_handlers :=
  (mk_dhcp (h_net h) (h_clients h) [] 0 (h_rng h) (h_draws h), (udp_register_handler hs DHCP_CLIENT_PORT handler).2).
End dhcp.
