(* ===== verification/DhcpSpec.v ===== *)
(** The DHCP client (Dhcp.v): the messages it builds are read back by its own scan of the
    options; what a run of the client can reach; and what an answer does. *)

From S2P Require Import Prelude Bytes LibMem LibString Printf CryptoInternal ChaCha20 CryptoRng NetBuf Ethernet Arp Ipv4 Ipv4Spec Dhcp.

(** * Byte order *)

Lemma ntohl_eq (n : Z) : fits 32 n ->
  ntohl n = (n mod 256) * 2 ^ 24 + (n / 256 mod 256) * 2 ^ 16 + (n / 65536 mod 256) * 256 + n / 16777216.
Proof.
  intros Hn. unfold fits in Hn. unfold ntohl.
  assert (L0 : Z.land n 0xFF = n mod 256) by (change 0xFF with (Z.ones 8); by rewrite Z.land_ones by lia).
  assert (Lk : forall k, 0 <= k -> Z.land n (Z.shiftl 0xFF k) = Z.shiftl (n / 2 ^ k mod 256) k).
  { intros k Hk. change 0xFF with (Z.ones 8). apply Z.bits_inj'. intros i Hi. rewrite Z.land_spec, !Z.shiftl_spec by lia.
    destruct (Z.ltb_spec i k).
    - rewrite !(Z.testbit_neg_r _ (i - k)) by lia. by rewrite andb_false_r.
    - change 256 with (2 ^ 8). rewrite <- Z.land_ones, Z.land_spec, Z.div_pow2_bits by lia. do 2 f_equal. lia. }
  change 0xFF00 with (Z.shiftl 0xFF 8). change 0xFF0000 with (Z.shiftl 0xFF 16). change 0xFF000000 with (Z.shiftl 0xFF 24).
  rewrite L0, !Lk by lia. rewrite !Z.shiftl_mul_pow2, !Z.shiftr_div_pow2 by lia.
  change (2 ^ 32) with 4294967296 in *. change (2 ^ 24) with 16777216. change (2 ^ 16) with 65536. change (2 ^ 8) with 256.
  set (x0 := n mod 256). set (x1 := n / 256 mod 256). set (x2 := n / 65536 mod 256). set (x3 := n / 16777216 mod 256).
  assert (0 <= x0 < 256 /\ 0 <= x1 < 256 /\ 0 <= x2 < 256 /\ 0 <= x3 < 256 /\ n / 16777216 = x3) as (Hx0 & Hx1 & Hx2 & Hx3 & ->)
    by (unfold x0, x1, x2, x3; dlia).
  clearbody x0 x1 x2 x3. rewrite (wrap_small 32 (x0 * 16777216)) by (split; [lia |]; change (2 ^ 32) with 4294967296; lia).
  rewrite (wrap_small 32 (x1 * 256 * 256)) by (split; [lia |]; change (2 ^ 32) with 4294967296; lia).
  replace (x1 * 256 * 256) with (x1 * 65536) by lia. replace (x2 * 65536 / 256) with (x2 * 256) by dlia. replace (x3 * 16777216 / 16777216) with x3 by dlia.
  assert (Lor : forall k hi lo, 0 <= k -> 0 <= lo < 2 ^ k -> Z.lor (hi * 2 ^ k) lo = hi * 2 ^ k + lo).
  { intros k hi lo Hk Hlo. rewrite <- Z.shiftl_mul_pow2 by done. rewrite Z.lor_comm, lor_high_low by done. rewrite Z.shiftl_mul_pow2 by done. lia. }
  rewrite <- !Z.lor_assoc. pose proof (Lor 8 x2 x3 ltac:(lia)) as E1. change (2 ^ 8) with 256 in E1. rewrite E1 by lia.
  pose proof (Lor 16 x1 (x2 * 256 + x3) ltac:(lia)) as E2. change (2 ^ 16) with 65536 in E2. rewrite E2 by lia.
  pose proof (Lor 24 x0 (x1 * 65536 + (x2 * 256 + x3)) ltac:(lia)) as E3. change (2 ^ 24) with 16777216 in E3. rewrite E3 by lia. lia.
Qed.

Lemma ntohl_bytes (a b c d : Z) : fits 8 a -> fits 8 b -> fits 8 c -> fits 8 d ->
  ntohl (le_val [a; b; c; d]) = le_val [d; c; b; a].
Proof.
  intros [A0 A1] [B0 B1] [C0 C1] [D0 D1]. change (2 ^ 8) with 256 in *.
  cbn [le_val]. rewrite ntohl_eq by (split; [lia |]; change (2 ^ 32) with 4294967296; lia). change (2 ^ 24) with 16777216. change (2 ^ 16) with 65536.
  repeat match goal with |- context [?x `mod` 256] => let y := fresh "y" in set (y := x mod 256); assert (y = x mod 256) by done; clearbody y end.
  dlia.
Qed.

Lemma ntohl_htonl (n : Z) : fits 32 n -> ntohl (htonl n) = n.
Proof.
  intros Hn. unfold htonl. rewrite <- (le_val_bytes 4 n) at 2 by done. rewrite <- (le_val_bytes 4 n) at 1 by done. cbn [le_bytes].
  rewrite !ntohl_bytes by (apply wrap_fits; lia). done.
Qed.

Lemma htonl_fits (n : Z) : fits 32 n -> fits 32 (htonl n).
Proof.
  intros Hn. unfold htonl. rewrite ntohl_eq by done. destruct Hn. change (2 ^ 32) with 4294967296 in *. change (2 ^ 24) with 16777216. change (2 ^ 16) with 65536.
  split; [dlia |]. change (2 ^ 32) with 4294967296. dlia.
Qed.

(** * Writing a message *)

(** A buffer in which [l] was written from [data] on. *)
Definition wrote (b : net_buf) (l : list Z) : net_buf := with_bytes b (splice (nb_bytes b) (nb_data b) l).

Definition room (b : net_buf) (n : Z) : Prop := 0 <= nb_data b /\ nb_data b + n <= Z.of_nat (length (nb_bytes b)).

Lemma wrote_start (b : net_buf) (l : list Z) : room b (Z.of_nat (length l)) -> buf_write b 0 l = Ret (wrote b l).
Proof. intros [H1 H2]. unfold buf_write, in_block. replace ((0 <=? _) && _) with true by lia. unfold wrote. by rewrite Z.add_0_r. Qed.

Lemma length_wrote (b : net_buf) (l : list Z) : room b (Z.of_nat (length l)) -> length (nb_bytes (wrote b l)) = length (nb_bytes b).
Proof. intros [H1 H2]. cbn [wrote with_bytes nb_bytes]. by rewrite length_splice by lia. Qed.

Lemma wrote_append (b : net_buf) (l x : list Z) (k : Z) : k = Z.of_nat (length l) -> room b (k + Z.of_nat (length x)) ->
  buf_write (wrote b l) k x = Ret (wrote b (l ++ x)).
Proof.
  intros -> [H1 H2]. unfold buf_write, in_block. rewrite length_wrote by (split; lia). cbn [wrote with_bytes nb_data nb_bytes].
  replace ((0 <=? _) && _) with true by lia. unfold wrote, with_bytes. do 2 f_equal. cbn [nb_data nb_bytes]. unfold splice.
  rewrite take_app_ge by (rewrite length_take; lia). rewrite length_take, Nat.min_l by lia.
  rewrite take_app_le by lia. rewrite (take_ge l) by lia. rewrite <- !app_assoc. do 3 f_equal.
  rewrite drop_app_ge by (rewrite length_take; lia). rewrite length_take, Nat.min_l by lia. rewrite drop_app_ge by lia.
  rewrite drop_drop, length_app. f_equal. lia.
Qed.

Lemma wrote_inside (b : net_buf) (l x : list Z) (k : Z) : 0 <= k -> k + Z.of_nat (length x) <= Z.of_nat (length l) -> room b (Z.of_nat (length l)) ->
  buf_write (wrote b l) k x = Ret (wrote b (splice l k x)).
Proof.
  intros H0 H3 [H1 H2]. unfold buf_write, in_block. rewrite length_wrote by (split; lia). cbn [wrote with_bytes nb_data nb_bytes].
  replace ((0 <=? _) && _) with true by lia. unfold wrote, with_bytes. do 2 f_equal. cbn [nb_data nb_bytes].
  unfold splice at 1 2 3. set (d := nb_data b) in *. set (r := nb_bytes b) in *.
  rewrite take_app_ge by (rewrite length_take; lia). rewrite length_take, Nat.min_l by lia.
  rewrite take_app_le by lia. replace (Z.to_nat (d + k) - Z.to_nat d)%nat with (Z.to_nat k) by lia.
  rewrite drop_app_ge by (rewrite length_take; lia). rewrite length_take, Nat.min_l by lia. rewrite drop_app_le by lia.
  unfold splice. rewrite <- !app_assoc. do 3 f_equal. f_equal; [f_equal; lia |]. f_equal. rewrite !length_app, length_take, length_drop. lia.
Qed.

Lemma wrote_read (b : net_buf) (l : list Z) (k n : Z) : 0 <= k -> 0 <= n -> k + n <= Z.of_nat (length l) -> room b (Z.of_nat (length l)) ->
  buf_read (wrote b l) k n = Ret (take (Z.to_nat n) (drop (Z.to_nat k) l)).
Proof.
  intros H0 Hn H3 [H1 H2]. unfold buf_read, in_block. rewrite length_wrote by (split; lia). cbn [wrote with_bytes nb_data nb_bytes].
  replace ((0 <=? _) && _) with true by lia. f_equal. unfold splice.
  rewrite drop_app_ge by (rewrite length_take; lia). rewrite length_take, Nat.min_l by lia. rewrite drop_app_le by lia.
  rewrite take_app_le by (rewrite length_drop; lia). do 2 f_equal. lia.
Qed.

Lemma wrote_field (b : net_buf) (l : list Z) (k : Z) (n : nat) : 0 <= k -> k + Z.of_nat n <= Z.of_nat (length l) -> room b (Z.of_nat (length l)) ->
  buf_field (wrote b l) k n = Ret (le_val (take n (drop (Z.to_nat k) l))).
Proof. intros H0 H3 Hr. unfold buf_field. rewrite wrote_read by (done || lia). cbn [obind]. by rewrite Nat2Z.id. Qed.

(** The fixed part of a message. *)
Definition header_of (xid : Z) (mac : list Z) : list Z :=
  [1; 1; 6; 0] ++ le_bytes 4 (htonl xid) ++ [0; 0] ++ le_bytes 2 (htons 0x8000) ++ replicate 16 0 ++ mac ++
  replicate 202 0 ++ le_bytes 4 (htonl DHCP_MAGIC_COOKIE).

(** Options as types with their bytes, and as they are laid out. *)
Definition enc (opts : list (Z * list Z)) : list Z := concat ((fun o => o.1 :: Z.of_nat (length o.2) :: o.2) <$> opts).

Definition options_of (mac : list Z) (msg_type requested_ip : Z) : list (Z * list Z) :=
  [(DHCP_OPT_MSG_TYPE, [msg_type]); (DHCP_OPT_CLIENT_ID, 1 :: mac)] ++
  (if requested_ip =? 0 then [] else [(DHCP_OPT_REQUESTED_IP, le_bytes 4 (htonl requested_ip))]) ++
  [(DHCP_OPT_PARAM_LIST, [1; 3; 6; 51]); (DHCP_OPT_HOSTNAME, HOSTNAME)].

Lemma enc_app (o1 o2 : list (Z * list Z)) : enc (o1 ++ o2) = enc o1 ++ enc o2.
Proof. unfold enc. by rewrite fmap_app, concat_app. Qed.

(** Adding an option appends its bytes. *)
Lemma add_option_ok (b : net_buf) (l data : list Z) (off type n : Z) :
  Z.of_nat (length l) = SIZEOF_DHCP + off -> Z.of_nat (length data) = n -> room b (SIZEOF_DHCP + off + 2 + n) -> fits 8 type -> fits 8 n ->
  dhcp_add_option (wrote b l) off type n data = Ret (wrote b (l ++ enc [(type, data)]), off + 2 + n).
Proof.
  intros Hl Hd [H1 H2] Ht Hn. destruct Hn as [N0 N1]. unfold dhcp_add_option, buf_set_field. rewrite take_ge by lia. cbn [le_bytes]. rewrite !wrap_small by (done || split; lia).
  rewrite wrote_append by (done || (split; cbn [length]; lia)). cbn [obind].
  rewrite wrote_append by (rewrite ?length_app; cbn [length]; (lia || (split; cbn [length]; lia))). cbn [obind].
  rewrite wrote_append by (rewrite ?length_app; cbn [length]; (lia || (split; cbn [length]; lia))). cbn [obind].
  do 3 f_equal. unfold enc. cbn [fmap list_fmap concat fst snd]. rewrite app_nil_r, <- !app_assoc, Hd. done.
Qed.

Lemma add_option_byte_ok (b : net_buf) (l : list Z) (off type v : Z) :
  Z.of_nat (length l) = SIZEOF_DHCP + off -> room b (SIZEOF_DHCP + off + 3) -> fits 8 type -> fits 8 v ->
  dhcp_add_option_byte (wrote b l) off type v = Ret (wrote b (l ++ enc [(type, [v])]), off + 3).
Proof.
  intros Hl Hr Ht Hv. pose proof (add_option_ok b l [v] off type 1 Hl eq_refl) as E. unfold dhcp_add_option, dhcp_add_option_byte, buf_set_field in *.
  change (take (Z.to_nat 1) [v]) with [v] in E. replace (le_bytes 1 v) with [v] by (cbn [le_bytes]; by rewrite wrap_small).
  replace (off + 3) with (off + 2 + 1) by lia. apply E; [| done | done]. destruct Hr. split; lia.
Qed.

Lemma add_option_dword_ok (b : net_buf) (l : list Z) (off type v : Z) :
  Z.of_nat (length l) = SIZEOF_DHCP + off -> room b (SIZEOF_DHCP + off + 6) -> fits 8 type ->
  dhcp_add_option_dword (wrote b l) off type v = Ret (wrote b (l ++ enc [(type, le_bytes 4 (htonl v))]), off + 2 + 4).
Proof.
  intros Hl Hr Ht. apply (add_option_ok b l (le_bytes 4 (htonl v)) off type 4 Hl eq_refl); [destruct Hr; split; lia | done | done].
Qed.

Lemma length_enc_app (o1 o2 : list (Z * list Z)) : length (enc (o1 ++ o2)) = (length (enc o1) + length (enc o2))%nat.
Proof. by rewrite enc_app, length_app. Qed.

(** The message as a list of bytes. *)
Definition message_bytes (xid : Z) (mac : list Z) (msg_type requested_ip : Z) : list Z :=
  header_of xid mac ++ enc (options_of mac msg_type requested_ip) ++ [DHCP_OPT_END].

Lemma header_ok (b : net_buf) (xid : Z) (mac : list Z) (k : net_buf -> outcome net_buf) :
  length mac = 6%nat -> room b SIZEOF_DHCP ->
  (do b <- buf_write b 0 (replicate (Z.to_nat SIZEOF_DHCP) 0);
   do b <- buf_set_field b 0 1 1;
   do b <- buf_set_field b 1 1 1;
   do b <- buf_set_field b 2 1 6;
   do b <- buf_set_field b 4 4 (htonl xid);
   do b <- buf_set_field b 8 2 (htons 0);
   do b <- buf_set_field b 10 2 (htons 0x8000);
   do b <- buf_write b 28 (take 6 mac);
   do b <- buf_set_field b 236 4 (htonl DHCP_MAGIC_COOKIE); k b)%out = k (wrote b (header_of xid mac)).
Proof.
  intros Hm Hr. destruct mac as [|m0 [|m1 [|m2 [|m3 [|m4 [|m5 [|? ?]]]]]]]; try done. clear Hm. unfold buf_set_field.
  rewrite wrote_start by done. cbn [obind].
  do 8 (rewrite wrote_inside by (rewrite ?length_splice; done || (cbn; lia)); cbn [obind]). do 2 f_equal.
Qed.

Lemma length_header (xid : Z) (mac : list Z) : length mac = 6%nat -> length (header_of xid mac) = 240%nat.
Proof. intros Hm. unfold header_of. rewrite !length_app, Hm, !length_replicate, !length_le_bytes. done. Qed.

Lemma message_ok (b : net_buf) (c : dhcp_client) (mac : list Z) (mt req : Z) :
  length mac = 6%nat -> room b (SIZEOF_DHCP + 312) -> fits 8 mt ->
  dhcp_message b c mac mt req =
  Ret (with_len (wrote b (message_bytes (c_xid c) mac mt req)) (Z.of_nat (length (message_bytes (c_xid c) mac mt req)))).
Proof.
  intros Hm Hr Hmt. pose proof Hr as [R1 R2]. change (SIZEOF_DHCP + 312) with 552 in R2. unfold dhcp_message. rewrite header_ok by (done || (split; [done |]; change SIZEOF_DHCP with 240; lia)).
  pose proof (length_header (c_xid c) mac Hm) as Hh. unfold message_bytes. set (H := header_of (c_xid c) mac) in *. clearbody H.
  rewrite take_ge by lia. assert (Hc : forall n, n <= 552 -> room b n) by (intros; split; lia).
  rewrite add_option_byte_ok; cycle 1; [by rewrite Hh | apply Hc; change SIZEOF_DHCP with 240; lia | done | done |]. cbn [obind].
  rewrite add_option_ok; cycle 1; [rewrite length_app, Hh; change SIZEOF_DHCP with 240; cbn; lia | cbn [length]; lia | apply Hc; change SIZEOF_DHCP with 240; lia | done | done |]. cbn [obind].
  rewrite <- app_assoc, <- enc_app. cbn [app]. set (o1 := [_; _]) at 1.
  assert (Ho1 : length (enc o1) = 12%nat) by (unfold o1, enc; cbn [fmap list_fmap concat fst snd app]; rewrite app_nil_r; cbn [length]; rewrite Hm; reflexivity).
  set (o2 := if req =? 0 then [] else [(DHCP_OPT_REQUESTED_IP, le_bytes 4 (htonl req))]).
  assert (Ho2 : length (enc o2) = if req =? 0 then 0%nat else 6%nat) by (unfold o2; by destruct (req =? 0)).
  transitivity (do '(b, off) <- Ret (wrote b (H ++ enc (o1 ++ o2)), 12 + Z.of_nat (length (enc o2)));
     do '(b, off) <- dhcp_add_option b off DHCP_OPT_PARAM_LIST 4 [1; 3; 6; 51];
     do '(b, off) <- dhcp_add_option b off DHCP_OPT_HOSTNAME 4 HOSTNAME;
     do '(b, off) <- dhcp_add_option_end b off;
     Ret (with_len b (SIZEOF_DHCP + off)))%out.
  { f_equal. unfold o2. destruct (req =? 0) eqn:Eq; cbn [negb].
    - rewrite app_nil_r. do 2 f_equal.
    - rewrite add_option_dword_ok; cycle 1; [by rewrite length_app, Hh, Ho1 | apply Hc; change SIZEOF_DHCP with 240; lia | done |].
      rewrite <- app_assoc, <- enc_app. done. }
  cbn [obind]. assert (Hl2 : 0 <= Z.of_nat (length (enc o2)) <= 6) by (destruct (req =? 0); lia).
  rewrite add_option_ok; cycle 1; [rewrite length_app, Hh, length_enc_app, Ho1; change SIZEOF_DHCP with 240; lia | done | apply Hc; change SIZEOF_DHCP with 240; lia | done | done |]. cbn [obind].
  rewrite <- app_assoc, <- enc_app.
  rewrite add_option_ok; cycle 1; [rewrite length_app, Hh, !length_enc_app, Ho1; change SIZEOF_DHCP with 240; cbn; lia | done | apply Hc; change SIZEOF_DHCP with 240; lia | done | done |]. cbn [obind].
  rewrite <- app_assoc, <- enc_app. unfold dhcp_add_option_end, buf_set_field. cbn [le_bytes].
  rewrite wrote_append; cycle 1; [rewrite length_app, Hh, !length_enc_app, Ho1; change SIZEOF_DHCP with 240; cbn; lia | apply Hc; change SIZEOF_DHCP with 240; cbn; lia |]. cbn [obind].
  rewrite <- (app_assoc (o1 ++ o2)). fold o2. rewrite <- (app_assoc o1 o2). cbn [app]. change (u8 DHCP_OPT_END) with DHCP_OPT_END.
  unfold options_of. fold o1 o2. cbn [app]. f_equal. f_equal; [by rewrite <- app_assoc |].
  rewrite !length_app, Hh, !length_enc_app, Ho1. change SIZEOF_DHCP with 240. cbn. lia.
Qed.

(** * Finding an option *)

(** The first option of a type: the length and the place of its bytes. *)
Fixpoint find_opt (opts : list (Z * list Z)) (t off : Z) : option (Z * Z) :=
  match opts with
  | [] => None
  | (t', d) :: opts' =>
      if t' =? t then Some (Z.of_nat (length d), SIZEOF_DHCP + off + 2) else find_opt opts' t (off + 2 + Z.of_nat (length d))
  end.

Definition opt_ok (o : Z * list Z) : Prop := 1 <= o.1 <= 254 /\ (length o.2 <= 255)%nat.

Lemma enc_cons (t : Z) (d : list Z) (opts : list (Z * list Z)) : enc ((t, d) :: opts) = t :: Z.of_nat (length d) :: d ++ enc opts.
Proof. done. Qed.

Lemma le_val_1 (x : Z) : le_val [x] = x.
Proof. cbn. lia. Qed.

Lemma find_encoded (opts : list (Z * list Z)) (t : Z) (b : net_buf) (pre rest : list Z) (f : nat) (off : Z) :
  Forall opt_ok opts -> Z.of_nat (length pre) = SIZEOF_DHCP + off -> 0 <= off -> off + Z.of_nat (length (enc opts)) < 300 ->
  room b (Z.of_nat (length (pre ++ enc opts ++ DHCP_OPT_END :: rest))) -> (length opts < f)%nat ->
  find_option_from f (wrote b (pre ++ enc opts ++ DHCP_OPT_END :: rest)) t off = Ret (find_opt opts t off).
Proof.
  revert pre f off. induction opts as [|[t' d] opts IH]; intros pre f off HF Hp Ho Hlt Hr Hf; (destruct f as [|f]; [cbn in Hf; lia |]); cbn [find_option_from].
  - change (enc []) with (@nil Z) in *. cbn [app length] in *. replace (off <? 300) with true by lia.
    rewrite wrote_field; [| lia | rewrite length_app; cbn [length]; lia | done].
    replace (Z.to_nat (SIZEOF_DHCP + off)) with (length pre) by lia. rewrite drop_app_length. cbn [take obind].
    by rewrite le_val_1, Z.eqb_refl.
  - apply Forall_cons in HF as [[Ht Hd] HF]. cbn [fst snd] in *. rewrite enc_cons in *. cbn [app] in *. set (tl := enc opts ++ DHCP_OPT_END :: rest) in *.
    cbn [length] in *. rewrite length_app in Hlt. replace (off <? 300) with true by lia.
    assert (Hl : Z.of_nat (length (pre ++ t' :: Z.of_nat (length d) :: (d ++ enc opts) ++ DHCP_OPT_END :: rest)) >= SIZEOF_DHCP + off + 2).
    { rewrite length_app. cbn [length]. lia. }
    rewrite wrote_field by (done || lia). replace (Z.to_nat (SIZEOF_DHCP + off)) with (length pre) by lia. rewrite drop_app_length. cbn [take obind].
    rewrite le_val_1. cbv zeta. replace (t' =? DHCP_OPT_END) with false by (unfold DHCP_OPT_END; lia). replace (t' =? DHCP_OPT_PAD) with false by (unfold DHCP_OPT_PAD; lia).
    rewrite wrote_field by (done || lia). replace (Z.to_nat (SIZEOF_DHCP + (off + 1))) with (length pre + 1)%nat by lia. rewrite <- drop_drop, drop_app_length. cbn [take drop obind].
    rewrite le_val_1. cbn [find_opt]. destruct (t' =? t); [do 3 f_equal; lia |].
    replace (off + 1 + 1 + Z.of_nat (length d)) with (off + 2 + Z.of_nat (length d)) by lia.
    specialize (IH (pre ++ t' :: Z.of_nat (length d) :: d) f (off + 2 + Z.of_nat (length d)) HF).
    fold tl in IH. rewrite <- app_assoc in IH. cbn [app] in IH. rewrite <- app_assoc. fold tl. rewrite <- app_assoc in Hr. fold tl in Hr.
    apply IH; [rewrite length_app; cbn [length]; lia | lia | lia | exact Hr | lia].
Qed.

(** * The message read back *)

Lemma options_ok (mac : list Z) (mt req : Z) : length mac = 6%nat -> Forall opt_ok (options_of mac mt req) /\ length (enc (options_of mac mt req)) = (if (req =? 0)%Z then 24 else 30)%nat /\ (length (options_of mac mt req) <= 5)%nat.
Proof.
  intros Hm. destruct mac as [|m0 [|m1 [|m2 [|m3 [|m4 [|m5 [|? ?]]]]]]]; try done. unfold options_of, opt_ok. destruct (req =? 0); cbn [app].
  all: split; [repeat apply Forall_cons_2; try apply Forall_nil_2; (split; [done | cbn; lia]) | split; [done | cbn; lia]].
Qed.

(** A message that the client builds passes the checks of [dhcp_input], carries the
    transaction number and hardware address of the client, and the scan of
    [dhcp_find_option] finds in it the type, the requested address and the host name that
    were put in. *)
Theorem dhcp_message_roundtrip (b : net_buf) (c : dhcp_client) (mac : list Z) (mt req : Z) :
  length mac = 6%nat -> room b (SIZEOF_DHCP + 312) -> fits 8 mt -> fits 32 (c_xid c) -> fits 32 req ->
  exists b', dhcp_message b c mac mt req = Ret b' /\ SIZEOF_DHCP <= nb_len b' /\
    (exists v, buf_field b' 236 4 = Ret v /\ ntohl v = DHCP_MAGIC_COOKIE) /\
    (exists v, buf_field b' 4 4 = Ret v /\ ntohl v = c_xid c) /\
    buf_read b' 28 6 = Ret mac /\
    (exists off, dhcp_find_option b' DHCP_OPT_MSG_TYPE = Ret (Some (1, off)) /\ buf_field b' off 1 = Ret mt) /\
    option_addr b' DHCP_OPT_REQUESTED_IP 0 = Ret req /\
    (exists off, dhcp_find_option b' DHCP_OPT_HOSTNAME = Ret (Some (4, off)) /\ buf_read b' off 4 = Ret HOSTNAME).
Proof.
  intros Hm Hr Hmt Hx Hq. rewrite message_ok by done. eexists. split; [reflexivity |]. destruct (options_ok mac mt req Hm) as (HF & Hl1 & Hl2).
  pose proof (length_header (c_xid c) mac Hm) as Hh. set (l := message_bytes (c_xid c) mac mt req).
  assert (Hl : Z.of_nat (length l) <= 552).
  { unfold l, message_bytes. rewrite !length_app, Hh, Hl1. cbn [length]. destruct (req =? 0); lia. }
  set (n := Z.of_nat (length l)). change (with_len (wrote b l) n) with (wrote (with_len b n) l). set (b1 := with_len b n).
  assert (Hr1 : room b1 (Z.of_nat (length l))) by (destruct Hr as [? R2]; change (SIZEOF_DHCP + 312) with 552 in R2; split; cbn [b1 with_len nb_data nb_bytes]; lia).
  assert (Hlo : (if req =? 0 then 265 else 271) = Z.of_nat (length l)).
  { unfold l, message_bytes. rewrite !length_app, Hh, Hl1. cbn [length]. destruct (req =? 0); done. }
  assert (Hlo' : 265 <= Z.of_nat (length l)) by (destruct (req =? 0); lia).
  assert (Hfind : forall t, dhcp_find_option (wrote b1 l) t = Ret (find_opt (options_of mac mt req) t 0)).
  { intros t. unfold dhcp_find_option. unfold l, message_bytes in *. apply find_encoded; try done; [by rewrite Hh | rewrite Hl1; destruct (req =? 0); lia | lia]. }
  assert (Hfld : forall k m (v : Z), 0 <= k -> k + Z.of_nat m <= 240 -> fits (8 * Z.of_nat m) v -> take m (drop (Z.to_nat k) l) = le_bytes m v -> buf_field (wrote b1 l) k m = Ret v).
  { intros k m v H0 H1 Hv E. rewrite wrote_field by (done || lia). by rewrite E, le_val_bytes. }
  destruct mac as [|m0 [|m1 [|m2 [|m3 [|m4 [|m5 [|? ?]]]]]]]; try done. clear Hh HF Hl1 Hl2 Hm.
  split; [change SIZEOF_DHCP with 240; cbn [wrote b1 with_len with_bytes nb_len]; unfold n; lia |]. split; [| split; [| split; [| split; [| split]]]].
  - exists (htonl DHCP_MAGIC_COOKIE). split; [| done]. by apply Hfld.
  - exists (htonl (c_xid c)). split; [| by apply ntohl_htonl]. apply Hfld; [done | done | by apply htonl_fits | done].
  - by rewrite wrote_read by (done || lia).
  - eexists. rewrite Hfind. split; [reflexivity |]. rewrite wrote_field; [| done | | done].
    + change (take 1 (drop _ l)) with [mt]. by rewrite le_val_1.
    + change SIZEOF_DHCP with 240. lia.
  - unfold option_addr. rewrite Hfind. destruct (Z.eqb_spec req 0) as [-> | Hne]; [done |].
    assert (Eo : find_opt (options_of [m0; m1; m2; m3; m4; m5] mt req) DHCP_OPT_REQUESTED_IP 0 = Some (4, 254)).
    { unfold options_of. by replace (req =? 0) with false by lia. }
    rewrite Eo. cbn [obind]. change (4 <=? 4) with true. cbn iota. rewrite wrote_field by (done || lia). cbn [obind].
    replace (take 4 (drop (Z.to_nat 254) l)) with (le_bytes 4 (htonl req)).
    2: { unfold l, message_bytes, options_of. by replace (req =? 0) with false by lia. }
    rewrite le_val_bytes by (by apply htonl_fits). by rewrite ntohl_htonl.
  - exists (if req =? 0 then 260 else 266). rewrite Hfind. split; [unfold options_of; by destruct (req =? 0) |].
    rewrite wrote_read by (done || (destruct (req =? 0); lia)). unfold l, message_bytes, options_of. by destruct (req =? 0).
Qed.

(** Over the options of a packet the scan finds the first of the asked type, if all of
    them start below offset 300. *)
Theorem dhcp_find_option_spec (b : net_buf) (header rest : list Z) (opts : list (Z * list Z)) (t : Z) :
  Forall opt_ok opts -> length header = 240%nat -> Z.of_nat (length (enc opts)) < 300 ->
  room b (Z.of_nat (length (header ++ enc opts ++ DHCP_OPT_END :: rest))) ->
  dhcp_find_option (wrote b (header ++ enc opts ++ DHCP_OPT_END :: rest)) t = Ret (find_opt opts t 0).
Proof.
  intros HF Hh Hl Hr. apply find_encoded; try done; [by rewrite Hh |]. assert (length opts <= length (enc opts))%nat; [| lia].
  clear. induction opts as [|[t' d] opts IH]; [done |]. rewrite enc_cons. cbn [length]. rewrite length_app. lia.
Qed.

(** The scan does not know the length of the packet: without options in the block it reads
    behind it. *)
Theorem dhcp_find_overread (b : net_buf) (t : Z) :
  Z.of_nat (length (nb_bytes b)) = nb_data b + SIZEOF_DHCP -> dhcp_find_option b t = Crash.
Proof.
  intros Hl. enough (Hf : forall f, find_option_from (S f) b t 0 = Crash) by apply Hf. intros f. cbn [find_option_from]. change (0 <? 300) with true.
  cbn iota. unfold buf_field, buf_read, in_block. by replace ((0 <=? _) && _) with false by lia.
Qed.

(** * Runs of the client *)

Section run.
Context {S : Type} `{BlockAlloc S}.
Variable during : S * net_table * arp_cache * Z -> outcome (S * net_table * arp_cache * Z).
Variable draws : nat -> draw.

(** A step is a call by someone who has a structure of their own, a packet, or a change of
    the network stack. *)
Inductive step (h : dhcpstate S) : dhcpstate S -> Prop :=
| step_init c dev r h' : c ∉ g_dhcp_clients h -> dhcp_init draws h c dev = Ret (r, h') -> step h h'
| step_start c r h' : c ∉ g_dhcp_clients h -> dhcp_start during draws h c = Ret (r, h') -> step h h'
| step_renew c r h' : c ∉ g_dhcp_clients h -> dhcp_renew during draws h c = Ret (r, h') -> step h h'
| step_release c r h' : c ∉ g_dhcp_clients h -> dhcp_release during h c = Ret (r, h') -> step h h'
| step_input b x h' : dhcp_input during h b = Ret (h', x) -> step h h'
| step_all cb h' : dhcp_start_on_all_interfaces during draws h cb = Ret h' -> step h h'
| step_net n : step h (with_stack h n).

(** No structure outside the list is configured. *)
Definition unconf (h : dhcpstate S) : Prop :=
  forall a c, h_clients h !! a = Some c -> a ∉ g_dhcp_clients h -> c_configured c = false.

Lemma send_stack (h h' : dhcpstate S) (c : dhcp_client) (mt req r : Z) :
  dhcp_send_message during h c mt req = Ret (r, h') -> exists n, h' = with_stack h n.
Proof.
  unfold dhcp_send_message. intros E. inv_ret. destruct a as [[b |] s]; inv_ret; [| by eexists].
  destruct a1 as [[r' b'] n]. inv_ret. by eexists.
Qed.

Lemma xid_clients (h h' : dhcpstate S) (x : Z) : dhcp_generate_xid draws h = (x, h') ->
  h_clients h' = h_clients h /\ g_dhcp_clients h' = g_dhcp_clients h /\ h_net h' = h_net h.
Proof. unfold dhcp_generate_xid. destruct (crypto_get_random_bytes _ _ _ _) as [[? ?] ?]. by intros [= _ <-]. Qed.

Lemma unconf_stack (h : dhcpstate S) (n : netstate S) : unconf h -> unconf (with_stack h n).
Proof. done. Qed.

Lemma unconf_set (h : dhcpstate S) (a : Z) (c : dhcp_client) :
  unconf h -> c_configured c = false \/ a ∈ g_dhcp_clients h -> unconf (set_client h a c).
Proof.
  intros Hu Hc a' c' Hl Hn. cbn [set_client h_clients g_dhcp_clients] in *. destruct (decide (a' = a)) as [-> | Hne].
  - rewrite lookup_insert_eq in Hl. simplify_eq. by destruct Hc.
  - rewrite lookup_insert_ne in Hl by done. by eapply Hu.
Qed.

Lemma unconf_xid (h h' : dhcpstate S) (x : Z) : unconf h -> dhcp_generate_xid draws h = (x, h') -> unconf h'.
Proof. intros Hu (E1 & E2 & _)%xid_clients a c. rewrite E1, E2. apply Hu. Qed.

Lemma unconf_init (h h' : dhcpstate S) (c dev r : Z) : unconf h -> dhcp_init draws h c dev = Ret (r, h') -> unconf h'.
Proof.
  intros Hu E. unfold dhcp_init in E. destruct (_ || _); [by inv_ret |]. destruct (dhcp_generate_xid draws h) as [x h1] eqn:Ex.
  inv_ret. destruct a as [[p bs] s]. pose proof (unconf_xid _ _ _ Hu Ex) as Hu1. destruct (p =? 0); inv_ret.
  - apply unconf_stack, unconf_set; [done | by left].
  - intros a' c' Hl Hn. cbn in Hn. rewrite not_elem_of_cons in Hn. destruct Hn as [Hn1 Hn2].
    assert (Hu2 : unconf (set_client (with_stack (set_client h1 c (new_client dev x)) (with_heap (h_net h1) s)) p (new_client dev x))).
    { apply unconf_set; [| by left]. apply unconf_stack, unconf_set; [done | by left]. }
    by apply (Hu2 a' c').
Qed.

Lemma unconf_start (h h' : dhcpstate S) (c r : Z) : unconf h -> dhcp_start during draws h c = Ret (r, h') -> unconf h'.
Proof.
  intros Hu E. unfold dhcp_start in E. destruct (c =? 0); [by inv_ret |]. inv_ret. destruct (dhcp_generate_xid draws h) as [x h1] eqn:Ex.
  apply send_stack in E as [n ->]. apply unconf_stack, unconf_set; [by eapply unconf_xid | by left].
Qed.

Lemma caller_renew (h : dhcpstate S) (c : Z) (k : dhcp_client) :
  unconf h -> c ∉ g_dhcp_clients h -> h_clients h !! c = Some k ->
  dhcp_renew during draws h c = Ret (-1, h) /\ dhcp_release during h c = Ret (-1, h).
Proof.
  intros Hu Hn Hl. unfold dhcp_renew, dhcp_release, client_of. rewrite Hl. cbn [of_option obind]. rewrite (Hu _ _ Hl Hn). by destruct (c =? 0).
Qed.

Lemma caller_idle (h h' : dhcpstate S) (c r : Z) :
  unconf h -> c ∉ g_dhcp_clients h -> dhcp_renew during draws h c = Ret (r, h') \/ dhcp_release during h c = Ret (r, h') -> h' = h.
Proof.
  intros Hu Hn Hr. destruct (h_clients h !! c) as [k |] eqn:Hl.
  - destruct (caller_renew h c k Hu Hn Hl) as [E1 E2]. rewrite E1, E2 in Hr. destruct Hr; by simplify_eq.
  - unfold dhcp_renew, dhcp_release, client_of in Hr. rewrite Hl in Hr. destruct (c =? 0); destruct Hr; by simplify_eq.
Qed.

Lemma find_client_in (h : dhcpstate S) (l chaddr : list Z) (a : Z) : find_client h l chaddr = Ret (Some a) -> a ∈ l.
Proof.
  induction l as [|x l IH]; cbn [find_client]; intros E; [done |]. inv_ret. destruct (bool_decide _); inv_ret; [simplify_eq; left | right; by apply IH].
Qed.

Lemma unconf_response (h h' : dhcpstate S) (a : Z) (b : net_buf) (x : option (Z * Z * bool)) :
  unconf h -> a ∈ g_dhcp_clients h -> dhcp_process_response during h a b = Ret (h', x) -> unconf h'.
Proof.
  intros Hu Ha E. unfold dhcp_process_response in E. inv_ret. destruct (negb _); [by inv_ret |]. inv_ret.
  destruct a2 as [[len off] |]; [| by inv_ret]. destruct (len <? 1); [by inv_ret |]. inv_ret.
  destruct (_ =? DHCP_OFFER); [| destruct (_ =? DHCP_ACK); [| destruct (_ =? DHCP_NAK)]]; inv_ret; try done.
  - unfold process_offer in *. inv_ret. destruct a9 as [r h1]. inv_ret. match goal with Hs : dhcp_send_message _ _ _ _ _ = _ |- _ => apply send_stack in Hs as [n ->] end.
    apply unconf_stack, unconf_set; [done | by right].
  - unfold process_ack in E. inv_ret. apply unconf_set; [done | by right].
  - apply unconf_set; [done | by right].
Qed.

Lemma unconf_all (l : list Z) (h h' : dhcpstate S) (cb : Z) : unconf h -> start_interfaces during draws h cb l = Ret h' -> unconf h'.
Proof.
  revert h. induction l as [|dev l IH]; intros h Hu E; cbn [start_interfaces] in E; [by inv_ret |]. inv_ret. apply (IH a); [| done]. clear E IH.
  unfold start_interface in *. inv_ret. destruct (_ && _); [| by inv_ret]. inv_ret. destruct a1 as [[p bs] s]. destruct (p =? 0); [by inv_ret |].
  inv_ret. destruct a1 as [r1 h1]. inv_ret. destruct a2 as [r2 h2]. inv_ret.
  apply (unconf_init _ _ _ _ _ (unconf_stack h (with_heap (h_net h) s) Hu)) in E2. eapply unconf_start; [| exact E4]. apply unconf_set; [done |].
  destruct (decide (p ∈ g_dhcp_clients h1)); [by right | left]. unfold client_of in E3. destruct (h_clients h1 !! p) as [k |] eqn:Ek; [| done].
  cbn in E3. simplify_eq. cbn. by apply (E2 p).
Qed.

Lemma unconf_step (h h' : dhcpstate S) : unconf h -> step h h' -> unconf h'.
Proof.
  intros Hu Hs. destruct Hs as [c dev r h' Hn E | c r h' Hn E | c r h' Hn E | c r h' Hn E | b x h' E | cb h' E | n].
  - by eapply unconf_init.
  - by eapply unconf_start.
  - assert (h' = h) as -> by (eapply caller_idle; eauto). done.
  - assert (h' = h) as -> by (eapply caller_idle; eauto). done.
  - unfold dhcp_input in E. destruct (_ <? _); [by inv_ret |]. inv_ret. destruct (negb _); [by inv_ret |]. inv_ret.
    destruct a1 as [e |]; [| by inv_ret]. eapply unconf_response; [done | by eapply find_client_in | done].
  - by eapply unconf_all.
  - done.
Qed.

(** C35: Along every run of calls and packets after the start of the subsystem, the structure a
    caller holds is never configured, because answers go to the copy in the list: the lease
    can be neither renewed nor released. *)
Theorem dhcp_never_configured (h0 h : dhcpstate S) (hs : udp_handlers) (handler c : Z) (k : dhcp_client) :
  h_clients h0 = ∅ -> rtc step (dhcp_subsystem_init h0 hs handler).1 h ->
  h_clients h !! c = Some k -> c ∉ g_dhcp_clients h ->
  c_configured k = false /\ dhcp_renew during draws h c = Ret (-1, h) /\ dhcp_release during h c = Ret (-1, h).
Proof.
  intros H0 Hr Hl Hn. assert (Hu : unconf h).
  { assert (Hi : unconf (dhcp_subsystem_init h0 hs handler).1) by (intros a x Hx; cbn in Hx; by rewrite H0 in Hx).
    clear Hl Hn H0. induction Hr as [h1 | h1 h2 h3 Hs _ IH]; [done |]. apply IH. by eapply unconf_step. }
  split; [by eapply Hu |]. by eapply caller_renew.
Qed.

(** * Answers *)

(** The answer to a DISCOVER carries the transaction number of the structure of the caller,
    which [dhcp_start] draws anew; the copy in the list keeps the number of [dhcp_init].
    Unless the two draws agree, the answer changes nothing. *)
Theorem dhcp_reply_ignored (h h1 h2 : dhcpstate S) (client dev r : Z) (k : dhcp_client) (d : net_device) (b : net_buf) (v w : Z) :
  dhcp_init draws h client dev = Ret (0, h1) -> dhcp_start during draws h1 client = Ret (r, h2) ->
  client ∉ g_dhcp_clients h1 -> h_clients h2 !! client = Some k ->
  buf_field b 4 4 = Ret v -> ntohl v = c_xid k -> (dhcp_generate_xid draws h).1 <> c_xid k ->
  SIZEOF_DHCP <= nb_len b -> buf_field b 236 4 = Ret w -> ntohl w = DHCP_MAGIC_COOKIE ->
  devs (n_table (h_net h2)) !! dev = Some d -> buf_read b 28 6 = Ret (take 6 (mac_addr d)) ->
  dhcp_input during h2 b = Ret (h2, None).
Proof.
  intros E1 E2 Hn Hk Hv Hx Hne Hlen Hw Hm Hd Hc. unfold dhcp_init in E1. destruct (_ || _); [by inv_ret |].
  destruct (dhcp_generate_xid draws h) as [x h'] eqn:Ex. inv_ret. destruct a as [[p bs] s]. destruct (p =? 0); simplify_eq E1.
  intros <-. cbn in Hn. rewrite not_elem_of_cons in Hn. destruct Hn as [Hp Hn].
  assert (Hh2 : g_dhcp_clients h2 = p :: g_dhcp_clients h' /\ h_clients h2 !! p = Some (new_client dev x)).
  { unfold dhcp_start in E2. destruct (client =? 0) eqn:E0.
    - inv_ret. cbn. split; [done |]. by rewrite lookup_insert_eq.
    - inv_ret. match type of E2 with context [dhcp_generate_xid draws ?g] => destruct (dhcp_generate_xid draws g) as [y h3] eqn:Ey end.
      apply send_stack in E2 as [n ->]. destruct (xid_clients _ _ _ Ey) as (C1 & C2 & _). cbn. rewrite C1, C2. cbn. split; [done |].
      rewrite lookup_insert_ne by done. by rewrite lookup_insert_eq. }
  destruct Hh2 as [Hg Hp2]. unfold dhcp_input. replace (nb_len b <? SIZEOF_DHCP) with false by lia. rewrite Hw. cbn [obind]. rewrite Hm, Z.eqb_refl. cbn [negb].
  rewrite Hc. cbn [obind]. rewrite Hg. cbn [find_client]. unfold client_of. rewrite Hp2. cbn [of_option obind new_client c_dev]. rewrite Hd. cbn [of_option obind].
  rewrite bool_decide_eq_true_2 by done. cbn [obind]. unfold dhcp_process_response, client_of. rewrite Hp2, Hv. cbn [of_option obind new_client c_xid].
  rewrite Hx. cbn [fst] in Hne. by replace (c_xid k =? x) with false by lia.
Qed.

(** A packet that the client takes for an answer of a type. *)
Definition answers (b : net_buf) (k : dhcp_client) (mt : Z) : Prop :=
  exists v len off, buf_field b 4 4 = Ret v /\ ntohl v = c_xid k /\
    dhcp_find_option b DHCP_OPT_MSG_TYPE = Ret (Some (len, off)) /\ 1 <= len /\ buf_field b off 1 = Ret mt.

Lemma response_offer (h : dhcpstate S) (a : Z) (k : dhcp_client) (b : net_buf) :
  h_clients h !! a = Some k -> answers b k DHCP_OFFER ->
  dhcp_process_response during h a b = (do h <- process_offer during h a k b; Ret (h, None))%out.
Proof.
  intros Hk (v & len & off & Hv & Hx & Hf & Hl & Hm). unfold dhcp_process_response, client_of. rewrite Hk. cbn [of_option obind]. rewrite Hv. cbn [obind].
  rewrite Hx, Z.eqb_refl. cbn [negb]. rewrite Hf. cbn [obind]. replace (len <? 1) with false by lia. rewrite Hm. cbn [obind]. by rewrite Z.eqb_refl.
Qed.

Lemma response_ack (h : dhcpstate S) (a : Z) (k : dhcp_client) (b : net_buf) :
  h_clients h !! a = Some k -> answers b k DHCP_ACK -> dhcp_process_response during h a b = process_ack h a k.
Proof.
  intros Hk (v & len & off & Hv & Hx & Hf & Hl & Hm). unfold dhcp_process_response, client_of. rewrite Hk. cbn [of_option obind]. rewrite Hv. cbn [obind].
  rewrite Hx, Z.eqb_refl. cbn [negb]. rewrite Hf. cbn [obind]. replace (len <? 1) with false by lia. rewrite Hm. cbn [obind].
  replace (DHCP_ACK =? DHCP_OFFER) with false by done. by rewrite Z.eqb_refl.
Qed.

Lemma answers_xid (b : net_buf) (k k' : dhcp_client) (mt : Z) : c_xid k' = c_xid k -> answers b k mt -> answers b k' mt.
Proof. unfold answers. by intros ->. Qed.

Lemma lease_routes_table (n n' : netstate S) (k : dhcp_client) : lease_routes n k = Ret n' -> n_table n' = n_table n.
Proof.
  unfold lease_routes. intros E. inv_ret. destruct a as [[r s] rs]. inv_ret. destruct a as [s' rs']. by inv_ret.
Qed.

(** An ACK puts the stored address into the device. *)
Lemma ack_device (h h' : dhcpstate S) (a : Z) (k : dhcp_client) x : process_ack h a k = Ret (h', x) ->
  exists d, devs (n_table (h_net h')) !! c_dev k = Some d /\ ip_addr d = c_yiaddr k.
Proof.
  intros E. unfold process_ack in E. apply obind_ret in E as (d0 & _ & E). apply obind_ret in E as (n & En & E).
  apply lease_routes_table in En. cbv zeta in E.
  match type of E with Ret (?h1, ?y1) = _ => set (hh := h1) in E; set (yy := y1) in E; assert (Hn : h_net hh = n) by reflexivity end.
  clearbody hh yy. injection E as -> _. rewrite Hn, En. eexists. split; [apply lookup_insert_eq |]. reflexivity.
Qed.

(** An OFFER and an ACK for the address o0.o1.o2.o3 leave the device with the address
    o3.o2.o1.o0. *)
Theorem dhcp_lease_reversed (h h1 h2 : dhcpstate S) (a : Z) (k : dhcp_client) (b1 b2 : net_buf) (o0 o1 o2 o3 : Z) x1 x2 :
  h_clients h !! a = Some k -> answers b1 k DHCP_OFFER -> answers b2 k DHCP_ACK ->
  buf_field b1 16 4 = Ret (le_val [o0; o1; o2; o3]) -> fits 8 o0 -> fits 8 o1 -> fits 8 o2 -> fits 8 o3 ->
  dhcp_process_response during h a b1 = Ret (h1, x1) -> dhcp_process_response during h1 a b2 = Ret (h2, x2) ->
  exists d, devs (n_table (h_net h2)) !! c_dev k = Some d /\ ip_addr d = le_val [o3; o2; o1; o0].
Proof.
  intros Hk A1 A2 Hy F0 F1 F2 F3 E1 E2. rewrite (response_offer _ _ _ _ Hk A1) in E1. apply obind_ret in E1 as (h3 & E1 & [= -> _]).
  unfold process_offer in E1. apply obind_ret in E1 as (yi & Ey & E1). rewrite Hy in Ey. injection Ey as <-. inv_ret. destruct a5 as [r h4]. inv_ret.
  match goal with Hs : dhcp_send_message _ _ ?k1 _ _ = Ret (r, _) |- _ =>
    apply send_stack in Hs as [n ->]; assert (Hy1 : c_yiaddr k1 = le_val [o3; o2; o1; o0]) by (by apply ntohl_bytes);
    assert (Hd1 : c_dev k1 = c_dev k) by reflexivity; apply (answers_xid b2 k k1 _ eq_refl) in A2; set (k1' := k1) in * end.
  clearbody k1'. rewrite (response_ack _ a k1' b2) in E2; [| cbn; by rewrite lookup_insert_eq | done].
  apply ack_device in E2 as (d & Hd & Hip). rewrite Hd1 in Hd. exists d. split; [done |]. by rewrite Hip.
Qed.

Lemma udp_unrouted (n : netstate S) (b : net_buf) (data len hr size dest src dp sp : Z) :
  shape b data len hr size -> 8 <= hr -> 0 <= data -> data + 16 <= size -> n_routes n = [] ->
  exists b', udp_output during n b dest src dp sp = Ret (-1, b', n).
Proof.
  intros Hs H1 H2 H3 Hr. apply net_reserve_shape with (k := 8) in Hs; [| done]. unfold udp_output, UDP_HEADER_SIZE, buf_set_field.
  do 4 (step_write Hs). unfold ipv4_output. rewrite Hr. cbn [ipv4_route_lookup lookup_from ipv4_route_get_default]. by eexists.
Qed.

(** Without a route the first message is not sent: [dhcp_start] reports -1 and no device has
    changed.  Routes come from answers only. *)
Theorem dhcp_start_unrouted (h : dhcpstate S) (c : Z) (k : dhcp_client) (d : net_device) (ob : option net_buf) (s : S) :
  c <> 0 -> h_clients h !! c = Some k -> devs (n_table (h_net h)) !! c_dev k = Some d -> length (mac_addr d) = 6%nat ->
  n_routes (h_net h) = [] -> net_alloc_buf (n_heap (h_net h)) (SIZEOF_DHCP + 312) = Ret (ob, s) ->
  exists h', dhcp_start during draws h c = Ret (-1, h') /\ h_net h' = with_heap (h_net h) s.
Proof.
  intros Hc Hk Hd Hm Hr Ea. unfold dhcp_start. replace (c =? 0) with false by lia. unfold client_of. rewrite Hk. cbn [of_option obind].
  destruct (dhcp_generate_xid draws h) as [x h1] eqn:Ex. destruct (xid_clients _ _ _ Ex) as (_ & _ & En). unfold dhcp_send_message.
  cbn [set_client h_net]. rewrite En, Ea. cbn [obind]. destruct ob as [b |]; [| by eexists].
  cbn [with_stack h_net with_heap n_table with_run c_dev]. rewrite Hd. cbn [of_option obind].
  apply net_alloc_buf_shape in Ea as [Hs _]; [| by compute | by compute]. pose proof Hs as (S1 & S2 & S3 & S4). unfold NET_HEADROOM in *.
  rewrite message_ok by (done || (split; [lia |]; rewrite S1, S4; lia)). cbn [obind].
  set (l := message_bytes _ _ _ _). assert (Hl : Z.of_nat (length l) <= 552).
  { destruct (options_ok (mac_addr d) DHCP_DISCOVER 0 Hm) as (_ & Hlo & _). unfold l, message_bytes.
    rewrite !length_app, length_header, Hlo by done. cbn; lia. }
  assert (Hs' : shape (with_len (wrote b l) (Z.of_nat (length l))) 64 (Z.of_nat (length l)) 64 616).
  { apply shape_with_len with (l := 0). split; [done |]. split; [done |]. split; [done |].
    rewrite length_wrote by (split; rewrite S1, ?S4; change (SIZEOF_DHCP + 312 + 64) with 616; lia). by rewrite S4. }
  destruct (udp_unrouted (with_heap (h_net h) s) _ _ _ _ _ 0xFFFFFFFF 0 DHCP_SERVER_PORT DHCP_CLIENT_PORT Hs') as [b' ->]; [lia | lia | lia | done |].
  cbn [obind]. by eexists.
Qed.
End run.

(** * A concrete client *)

(** A generator that was not started leaves the old bytes: the numbers are 0, 1, 2, ... *)
Definition demo_rng : rng := mk_rng (replicate 16 0) (replicate 256 0) 0 0 false false.
Definition demo_draws (n : nat) : draw := mk_draw [] (mk_hw 0 [] 0 0) [Z.of_nat n; 0; 0; 0].
Definition demo_during (x : Z * net_table * arp_cache * Z) : outcome (Z * net_table * arp_cache * Z) := Ret x.

Definition demo_h0 : dhcpstate Z := mk_dhcp demo_net ∅ [] 0 demo_rng 0.
Definition state_of (o : outcome (Z * dhcpstate Z)) : dhcpstate Z := match o with Ret (_, h) => h | _ => demo_h0 end.
Definition demo_h1 : dhcpstate Z := state_of (dhcp_init demo_draws demo_h0 4096 8192).
Definition demo_h2 : dhcpstate Z := state_of (dhcp_start demo_during demo_draws demo_h1 4096).

(** An answer of a type for 10.0.2.15. *)
Definition demo_answer (xid mt : Z) : net_buf :=
  mk_buf 4096 5000
    (replicate 64 0 ++ [2; 1; 6; 0; 0; 0; 0; xid] ++ replicate 8 0 ++ [10; 0; 2; 15] ++ replicate 8 0 ++ mac_addr demo_dev ++
     replicate 202 0 ++ [0x63; 0x82; 0x53; 0x63] ++ [53; 1; mt; 255] ++ replicate 60 0) 64 64 608 300 64 608 0 0 8192.

Lemma demo_init : dhcp_init demo_draws demo_h0 4096 8192 = Ret (0, demo_h1).
Proof. vm_compute. reflexivity. Qed.

Lemma demo_start : dhcp_start demo_during demo_draws demo_h1 4096 = Ret (-1, demo_h2).
Proof. vm_compute. reflexivity. Qed.

Lemma dhcp_never_configured_witness :
  dhcp_renew demo_during demo_draws demo_h1 4096 = Ret (-1, demo_h1) /\ dhcp_release demo_during demo_h1 4096 = Ret (-1, demo_h1).
Proof.
  destruct (dhcp_never_configured demo_during demo_draws demo_h0 demo_h1 ∅ 1 4096 (new_client 8192 0)) as (_ & E1 & E2).
  - reflexivity.
  - apply rtc_once. eapply step_init; [| exact demo_init]. apply not_elem_of_nil.
  - vm_compute. reflexivity.
  - vm_compute. intros Hin. inversion Hin; subst. inversion H1.
  - exact (conj E1 E2).
Defined.

Definition demo_buf : net_buf := mk_buf 4096 5000 (replicate 616 0) 64 64 616 0 64 616 0 0 0.

Lemma dhcp_message_roundtrip_witness :
  exists b', dhcp_message demo_buf (new_client 8192 7) (mac_addr demo_dev) DHCP_REQUEST 0x0A00020F = Ret b' /\
    option_addr b' DHCP_OPT_REQUESTED_IP 0 = Ret 0x0A00020F.
Proof.
  destruct (dhcp_message_roundtrip demo_buf (new_client 8192 7) (mac_addr demo_dev) DHCP_REQUEST 0x0A00020F) as (b' & E & _ & _ & _ & _ & _ & Hq & _);
    [reflexivity | split; vm_compute; discriminate | split; [vm_compute; discriminate | reflexivity].. |].
  exists b'. exact (conj E Hq).
Defined.

Lemma dhcp_reply_ignored_witness : dhcp_input demo_during demo_h2 (demo_answer 1 DHCP_OFFER) = Ret (demo_h2, None).
Proof.
  eapply (dhcp_reply_ignored demo_during demo_draws demo_h0 demo_h1 demo_h2 4096 8192 (-1)); [exact demo_init | exact demo_start |..].
  - vm_compute. intros Hin. inversion Hin; subst. inversion H1.
  - vm_compute. reflexivity.
  - vm_compute. reflexivity.
  - vm_compute. reflexivity.
  - vm_compute. discriminate.
  - vm_compute. discriminate.
  - vm_compute. reflexivity.
  - vm_compute. reflexivity.
  - vm_compute. reflexivity.
  - vm_compute. reflexivity.
Defined.

Definition demo_client : dhcp_client := new_client 8192 1.
Definition demo_h : dhcpstate Z := mk_dhcp demo_net {[ 300 := demo_client ]} [300] 1 demo_rng 0.
Definition answered (o : outcome (dhcpstate Z * option (Z * Z * bool))) : dhcpstate Z := match o with Ret (h, _) => h | _ => demo_h end.
Definition demo_offered : dhcpstate Z := answered (dhcp_process_response demo_during demo_h 300 (demo_answer 1 DHCP_OFFER)).
Definition demo_leased : dhcpstate Z := answered (dhcp_process_response demo_during demo_offered 300 (demo_answer 1 DHCP_ACK)).

Lemma demo_answers (mt : Z) : fits 8 mt -> answers (demo_answer 1 mt) demo_client mt.
Proof.
  intros Hm. exists 16777216, 1, 242. split; [vm_compute; reflexivity |]. split; [reflexivity |]. split; [vm_compute; reflexivity |]. split; [lia |].
  unfold buf_field. change (buf_read (demo_answer 1 mt) 242 (Z.of_nat 1)) with (Ret [mt]). cbn [obind]. by rewrite le_val_1.
Qed.

(** 10.0.2.15 becomes 15.2.0.10. *)
Lemma dhcp_lease_reversed_witness :
  exists d, devs (n_table (h_net demo_leased)) !! 8192 = Some d /\ ip_addr d = le_val [15; 2; 0; 10].
Proof.
  apply (dhcp_lease_reversed demo_during demo_h demo_offered demo_leased 300 demo_client (demo_answer 1 DHCP_OFFER) (demo_answer 1 DHCP_ACK) 10 0 2 15 None None).
  - reflexivity.
  - apply demo_answers. split; [vm_compute; discriminate | reflexivity].
  - apply demo_answers. split; [vm_compute; discriminate | reflexivity].
  - vm_compute. reflexivity.
  - split; [vm_compute; discriminate | reflexivity].
  - split; [vm_compute; discriminate | reflexivity].
  - split; [vm_compute; discriminate | reflexivity].
  - split; [vm_compute; discriminate | reflexivity].
  - vm_compute. reflexivity.
  - vm_compute. reflexivity.
Defined.

Lemma dhcp_start_unrouted_witness :
  exists h', dhcp_start demo_during demo_draws demo_h1 4096 = Ret (-1, h') /\ n_table (h_net h') = n_table (h_net demo_h1).
Proof.
  destruct (dhcp_start_unrouted demo_during demo_draws demo_h1 4096 (new_client 8192 0) demo_dev
    (Some (mk_buf 65616 65688 (replicate 616 0) 64 64 616 0 64 616 0 0 0)) 66304) as (h' & E & Hn);
    [discriminate | vm_compute; reflexivity.. |].
  exists h'. split; [exact E |]. rewrite Hn. reflexivity.
Defined.

Lemma dhcp_find_option_spec_witness :
  dhcp_find_option (wrote demo_buf (replicate 240 0 ++ enc [(12, HOSTNAME); (53, [2])] ++ DHCP_OPT_END :: [])) 53 = Ret (Some (1, 248)).
Proof.
  etransitivity; [apply (dhcp_find_option_spec demo_buf (replicate 240 0) [] [(12, HOSTNAME); (53, [2])] 53) |].
  - repeat apply Forall_cons_2; try apply Forall_nil_2; (split; cbn; lia).
  - reflexivity.
  - reflexivity.
  - split; vm_compute; discriminate.
  - reflexivity.
Defined.

Lemma dhcp_find_overread_witness : dhcp_find_option (mk_buf 4096 5000 (replicate 304 0) 64 64 304 240 64 304 0 0 0) 53 = Crash.
Proof. apply dhcp_find_overread. reflexivity. Defined.
