(* ===== verification/Tcp.v ===== *)
(** TCP, src/kernel/net/tcp.c: the checksum, the sockets and their queues, the sending of
    segments, and the processing of the ones that arrive.  Sockets and queued buffers are
    in stores keyed by address; an access to a freed one is [Crash]. *)

From S2P Require Import Prelude Bytes LibMem LibString Printf NetBuf Ethernet Arp Ipv4.

Definition TCP_HEADER_MIN : Z := 20.
Definition TCP_HEADER_MAX : Z := 60.

Definition TCP_FLAG_FIN : Z := 0x01.
Definition TCP_FLAG_SYN : Z := 0x02.
Definition TCP_FLAG_RST : Z := 0x04.
Definition TCP_FLAG_PSH : Z := 0x08.
Definition TCP_FLAG_ACK : Z := 0x10.

Definition TCP_STATE_CLOSED : Z := 0.
Definition TCP_STATE_LISTEN : Z := 1.
Definition TCP_STATE_SYN_SENT : Z := 2.
Definition TCP_STATE_SYN_RCVD : Z := 3.
Definition TCP_STATE_ESTABLISHED : Z := 4.
Definition TCP_STATE_FIN_WAIT_1 : Z := 5.
Definition TCP_STATE_CLOSE_WAIT : Z := 7.
Definition TCP_STATE_LAST_ACK : Z := 9.

(** * Sockets *)

(** A queue of buffers, linked by their [next] pointers. *)
Record buf_queue := mk_queue { q_head : Z; q_tail : Z; q_count : Z }.

Definition empty_queue : buf_queue := mk_queue 0 0 0.

(** [tcp_socket_t]; the fields that no function but the [memset] of creation touches
    (urgent pointers, timers, callbacks) are left out. *)
Record tcp_socket := mk_sock {
  local_addr : Z; remote_addr : Z; local_port : Z; remote_port : Z;
  sk_state : Z; mss : Z;
  snd_una : Z; snd_nxt : Z; snd_wnd : Z; iss : Z;
  rcv_nxt : Z; rcv_wnd : Z; irs : Z;
  rx_queue : buf_queue; tx_queue : buf_queue; accept_queue : buf_queue;
  backlog : Z
}.

Definition SIZEOF_TCP_SOCKET : Z := 216.

Definition with_state (k : tcp_socket) (st bl : Z) : tcp_socket :=
  mk_sock (local_addr k) (remote_addr k) (local_port k) (remote_port k) st (mss k) (snd_una k) (snd_nxt k)
    (snd_wnd k) (iss k) (rcv_nxt k) (rcv_wnd k) (irs k) (rx_queue k) (tx_queue k) (accept_queue k) bl.

Definition with_seqs (k : tcp_socket) (una nxt i rn ir : Z) : tcp_socket :=
  mk_sock (local_addr k) (remote_addr k) (local_port k) (remote_port k) (sk_state k) (mss k) una nxt
    (snd_wnd k) i rn (rcv_wnd k) ir (rx_queue k) (tx_queue k) (accept_queue k) (backlog k).

Definition with_peer (k : tcp_socket) (la ra lp rp : Z) : tcp_socket :=
  mk_sock la ra lp rp (sk_state k) (mss k) (snd_una k) (snd_nxt k) (snd_wnd k) (iss k) (rcv_nxt k) (rcv_wnd k)
    (irs k) (rx_queue k) (tx_queue k) (accept_queue k) (backlog k).

Definition with_queues (k : tcp_socket) (rx tx ac : buf_queue) : tcp_socket :=
  mk_sock (local_addr k) (remote_addr k) (local_port k) (remote_port k) (sk_state k) (mss k) (snd_una k) (snd_nxt k)
    (snd_wnd k) (iss k) (rcv_nxt k) (rcv_wnd k) (irs k) rx tx ac (backlog k).

Definition with_nxt (k : tcp_socket) (nxt : Z) : tcp_socket :=
  with_seqs k (snd_una k) nxt (iss k) (rcv_nxt k) (irs k).

(** The socket that creation fills in. *)
Definition new_socket : tcp_socket :=
  mk_sock 0 0 0 0 TCP_STATE_CLOSED 1460 0 0 65535 0 0 65535 0 empty_queue empty_queue empty_queue 0.

(** The network stack with the sockets, the queued buffers with their [next], and
    [tcp_iss]. *)
Record tcpstate (S : Type) := mk_tcp {
  t_net : netstate S; t_socks : gmap Z tcp_socket; t_queued : gmap Z (net_buf * Z); tcp_iss : Z
}.
Arguments mk_tcp {S}.
Arguments t_net {S}.
Arguments t_socks {S}.
Arguments t_queued {S}.
Arguments tcp_iss {S}.

(** * The checksum *)

Definition pseudo_header (src dst len : Z) : list Z :=
  le_bytes 4 src ++ le_bytes 4 dst ++ [0; IP_PROTO_TCP] ++ le_bytes 2 (htons (u16 len)).

Definition tcp_checksum (seg : list Z) (src dst : Z) : outcome Z :=
  (let sum := csum_words (pseudo_header src dst (Z.of_nat (length seg))) 0 in
   do sum <- csum_fold 2 (csum_words seg sum); Ret (wnot 16 sum))%out.

(** * The word with offset and flags, as the macros access it *)

Definition TCP_GET_DATA_OFFSET (w : Z) : Z := Z.land (Z.shiftr w 12) 0xF.
Definition TCP_GET_FLAGS (w : Z) : Z := Z.land w 0x1FF.
Definition TCP_SET_FLAGS (w flags : Z) : Z := u16 (Z.lor (Z.land w (Z.lnot 0x1FF)) (Z.land flags 0x1FF)).
Definition TCP_SET_DATA_OFFSET (w offset : Z) : Z :=
  u16 (Z.lor (Z.land w (Z.lnot 0xF000)) (Z.shiftl (Z.land offset 0xF) 12)).

Section tcp.
Context {S : Type} `{BlockAlloc S}.
(** What interrupts do while an address is resolved. *)
Context (during : S * net_table * arp_cache * Z -> outcome (S * net_table * arp_cache * Z)).

Definition with_net (t : tcpstate S) (n : netstate S) : tcpstate S := mk_tcp n (t_socks t) (t_queued t) (tcp_iss t).

Definition on_heap (t : tcpstate S) (s : S) : tcpstate S := with_net t (with_heap (t_net t) s).

Definition set_sock (t : tcpstate S) (a : Z) (k : tcp_socket) : tcpstate S :=
  mk_tcp (t_net t) (<[a := k]> (t_socks t)) (t_queued t) (tcp_iss t).

Definition del_sock (t : tcpstate S) (a : Z) : tcpstate S :=
  mk_tcp (t_net t) (delete a (t_socks t)) (t_queued t) (tcp_iss t).

Definition with_queued (t : tcpstate S) (q : gmap Z (net_buf * Z)) : tcpstate S :=
  mk_tcp (t_net t) (t_socks t) q (tcp_iss t).

Definition sock_of (t : tcpstate S) (a : Z) : outcome tcp_socket := of_option (t_socks t !! a).

(** * Creation and destruction *)

Definition tcp_socket_create (t : tcpstate S) : outcome (Z * tcpstate S) :=
  (do '(p, _, s) <- ba_malloc (n_heap (t_net t)) SIZEOF_TCP_SOCKET;
   let t := on_heap t s in
   if p =? 0 then Ret (0, t) else Ret (p, set_sock t p new_socket))%out.

(** [net_free_buf] of a buffer of a queue. *)
Definition free_queued (t : tcpstate S) (p : Z) (b : net_buf) : outcome (tcpstate S) :=
  (do s <- net_free_buf (n_heap (t_net t)) (Some b);
   Ret (with_queued (on_heap t s) (delete p (t_queued t))))%out.

(** The loops that empty a queue; a queue has at most as many elements as there are
    queued buffers. *)
Fixpoint drain (fuel : nat) (t : tcpstate S) (p : Z) : outcome (tcpstate S) :=
  match fuel with
  | O => Crash
  | Datatypes.S fuel' =>
      (if p =? 0 then Ret t
       else do '(b, next) <- of_option (t_queued t !! p);
            do t <- free_queued t p b;
            drain fuel' t next)%out
  end.

Definition queue_fuel (t : tcpstate S) : nat := Datatypes.S (size (t_queued t)).

Definition tcp_socket_destroy (t : tcpstate S) (sock : Z) : outcome (tcpstate S) :=
  (if sock =? 0 then Ret t
   else
     do k <- sock_of t sock;
     do t <- drain (queue_fuel t) t (q_head (rx_queue k));
     do t <- drain (queue_fuel t) t (q_head (tx_queue k));
     do t <- drain (queue_fuel t) t (q_head (accept_queue k));
     do s <- ba_free (n_heap (t_net t)) sock;
     Ret (del_sock (on_heap t s) sock))%out.

(** * Segments *)

(** The header and the payload, at [data] of the buffer. *)
Definition fill_segment (b : net_buf) (k : tcp_socket) (seq ack flags : Z) (data : list Z) : outcome net_buf :=
  (do b <- buf_write b 0 (replicate 20 0);
   do b <- buf_set_field b 0 2 (htons (local_port k));
   do b <- buf_set_field b 2 2 (htons (remote_port k));
   do b <- buf_set_field b 4 4 (htonl seq);
   do b <- buf_set_field b 8 4 (htonl ack);
   do w <- buf_field b 12 2;
   do b <- buf_set_field b 12 2 (TCP_SET_DATA_OFFSET w 5);
   do w <- buf_field b 12 2;
   do b <- buf_set_field b 12 2 (TCP_SET_FLAGS w flags);
   do b <- buf_set_field b 14 2 (htons (u16 (rcv_wnd k)));
   do b <- (if bool_decide (data = []) then Ret (with_len b TCP_HEADER_MIN)
            else do b <- buf_write b TCP_HEADER_MIN data;
                 Ret (with_len b (u32 (TCP_HEADER_MIN + Z.of_nat (length data)))));
   do b <- buf_set_field b 16 2 0;
   do seg <- buf_read b 0 (nb_len b);
   do sum <- tcp_checksum seg (local_addr k) (remote_addr k);
   buf_set_field b 16 2 sum)%out.

(** [tcp_send_segment]; no data is the empty list.  The buffer is not freed. *)
Definition tcp_send_segment (t : tcpstate S) (k : tcp_socket) (seq ack flags : Z) (data : list Z)
    : outcome (Z * tcpstate S) :=
  (do '(ob, s) <- net_alloc_buf (n_heap (t_net t)) (u32 (TCP_HEADER_MAX + Z.of_nat (length data)));
   let t := on_heap t s in
   match ob with
   | None => Ret (-1, t)
   | Some b =>
       let b := net_reserve b (IPV4_HEADER_MIN + ETH_HLEN) in
       do b <- fill_segment b k seq ack flags data;
       do '(r, _, n) <- ipv4_output during (t_net t) b (remote_addr k) (local_addr k) IP_PROTO_TCP;
       Ret (r, with_net t n)
   end)%out.

(** * Listening and connecting *)

Definition tcp_listen (t : tcpstate S) (sock bl : Z) : outcome (Z * tcpstate S) :=
  (if sock =? 0 then Ret (-1, t)
   else
     do k <- sock_of t sock;
     if negb (sk_state k =? TCP_STATE_CLOSED) then Ret (-1, t)
     else Ret (0, set_sock t sock (with_state k TCP_STATE_LISTEN bl)))%out.

(** The head of a queue that is not empty is taken out. *)
Definition dequeue (q : buf_queue) (next : Z) : buf_queue :=
  mk_queue next (if next =? 0 then 0 else q_tail q) (u32 (q_count q - 1)).

Definition tcp_accept (t : tcpstate S) (listen_sock : Z) : outcome (Z * tcpstate S) :=
  (if listen_sock =? 0 then Ret (0, t)
   else
     do k <- sock_of t listen_sock;
     if negb (sk_state k =? TCP_STATE_LISTEN) then Ret (0, t)
     else
       let q := accept_queue k in
       if q_head q =? 0 then Ret (0, t)
       else
         do '(b, next) <- of_option (t_queued t !! q_head q);
         let t := set_sock t listen_sock (with_queues k (rx_queue k) (tx_queue k) (dequeue q next)) in
         do new_sock <- buf_field b 0 8;
         do t <- free_queued t (q_head q) b;
         Ret (new_sock, t))%out.

Definition tcp_connect (t : tcpstate S) (sock addr port : Z) : outcome (Z * tcpstate S) :=
  (if sock =? 0 then Ret (-1, t)
   else
     do k <- sock_of t sock;
     if negb (sk_state k =? TCP_STATE_CLOSED) then Ret (-1, t)
     else
       let k := with_peer k (local_addr k) addr (local_port k) port in
       let i := tcp_iss t in
       let t := mk_tcp (t_net t) (t_socks t) (t_queued t) (u32 (i + 1000)) in
       let k := with_state (with_seqs k i (u32 (i + 1)) i 0 (irs k)) TCP_STATE_SYN_SENT (backlog k) in
       let t := set_sock t sock k in
       tcp_send_segment t k i 0 TCP_FLAG_SYN [])%out.

(** * Data *)

Fixpoint send_chunks (fuel : nat) (t : tcpstate S) (sock : Z) (data : list Z) : outcome (bool * tcpstate S) :=
  match fuel with
  | O => Crash
  | Datatypes.S fuel' =>
      (if bool_decide (data = []) then Ret (true, t)
       else
         do k <- sock_of t sock;
         let chunk := Z.min (Z.of_nat (length data)) (mss k) in
         do '(r, t) <- tcp_send_segment t k (snd_nxt k) (rcv_nxt k) (Z.lor TCP_FLAG_ACK TCP_FLAG_PSH)
                         (take (Z.to_nat chunk) data);
         if negb (r =? 0) then Ret (false, t)
         else
           let t := set_sock t sock (with_nxt k (u32 (snd_nxt k + chunk))) in
           send_chunks fuel' t sock (drop (Z.to_nat chunk) data))%out
  end.

Definition tcp_send (t : tcpstate S) (sock : Z) (data : list Z) : outcome (Z * tcpstate S) :=
  (if sock =? 0 then Ret (-1, t)
   else
     do k <- sock_of t sock;
     if negb (sk_state k =? TCP_STATE_ESTABLISHED) then Ret (-1, t)
     else if bool_decide (data = []) then Ret (-1, t)
     else
       do '(ok, t) <- send_chunks (Datatypes.S (length data)) t sock data;
       Ret (if (ok : bool) then swrap 32 (Z.of_nat (length data)) else -1, t))%out.

(** [tcp_recv]: the result and the bytes stored at [buf], which is not NULL. *)
Definition tcp_recv (t : tcpstate S) (sock len : Z) : outcome (Z * list Z * tcpstate S) :=
  (if sock =? 0 then Ret (-1, [], t)
   else
     do k <- sock_of t sock;
     if negb (sk_state k =? TCP_STATE_ESTABLISHED) then Ret (-1, [], t)
     else
       let q := rx_queue k in
       if q_head q =? 0 then Ret (0, [], t)
       else
         do '(b, next) <- of_option (t_queued t !! q_head q);
         let copy_len := if len <? nb_len b then len else nb_len b in
         do data <- buf_read b 0 copy_len;
         let t := set_sock t sock (with_queues k (dequeue q next) (tx_queue k) (accept_queue k)) in
         do t <- free_queued t (q_head q) b;
         Ret (swrap 32 copy_len, data, t))%out.

(** * Closing *)

Definition fin_segment (t : tcpstate S) (sock : Z) (k : tcp_socket) (st : Z) : outcome (Z * tcpstate S) :=
  (let k := with_state k st (backlog k) in
   let t := set_sock t sock k in
   do '(_, t) <- tcp_send_segment t k (snd_nxt k) (rcv_nxt k) (Z.lor TCP_FLAG_FIN TCP_FLAG_ACK) [];
   Ret (0, set_sock t sock (with_nxt k (u32 (snd_nxt k + 1)))))%out.

Definition tcp_close (t : tcpstate S) (sock : Z) : outcome (Z * tcpstate S) :=
  (if sock =? 0 then Ret (-1, t)
   else
     do k <- sock_of t sock;
     if sk_state k =? TCP_STATE_ESTABLISHED then fin_segment t sock k TCP_STATE_FIN_WAIT_1
     else if sk_state k =? TCP_STATE_CLOSE_WAIT then fin_segment t sock k TCP_STATE_LAST_ACK
     else do t <- tcp_socket_destroy t sock; Ret (0, t))%out.

Definition tcp_abort (t : tcpstate S) (sock : Z) : outcome (Z * tcpstate S) :=
  (if sock =? 0 then Ret (-1, t)
   else
     do k <- sock_of t sock;
     do '(_, t) <- tcp_send_segment t k (snd_nxt k) (rcv_nxt k) TCP_FLAG_RST [];
     do t <- tcp_socket_destroy t sock;
     Ret (0, t))%out.

(** * Segments that arrive *)

(** A buffer is put at the tail of a queue. *)
Definition enqueue (t : tcpstate S) (q : buf_queue) (b : net_buf) : outcome (buf_queue * tcpstate S) :=
  (let p := nb_self b in
   let queued := <[p := (b, 0)]> (t_queued t) in
   if q_tail q =? 0 then Ret (mk_queue p p (u32 (q_count q + 1)), with_queued t queued)
   else
     do '(tl, _) <- of_option (queued !! q_tail q);
     Ret (mk_queue (q_head q) p (u32 (q_count q + 1)), with_queued t (<[q_tail q := (tl, p)]> queued)))%out.

(** LISTEN: a SYN makes a new socket, answers it and queues it for [tcp_accept]. *)
Definition process_listen (t : tcpstate S) (sock : Z) (k : tcp_socket) (src dst src_port dst_port seq flags : Z)
    : outcome (tcpstate S) :=
  (if Z.land flags TCP_FLAG_SYN =? 0 then Ret t
   else
     do '(p, t) <- tcp_socket_create t;
     if p =? 0 then Ret t
     else
       let i := tcp_iss t in
       let t := mk_tcp (t_net t) (t_socks t) (t_queued t) (u32 (i + 1000)) in
       let nk := with_seqs (with_peer new_socket dst src dst_port src_port) i (u32 (i + 1)) i (u32 (seq + 1)) seq in
       let nk := with_state nk TCP_STATE_SYN_RCVD (backlog nk) in
       let t := set_sock t p nk in
       do '(_, t) <- tcp_send_segment t nk i (rcv_nxt nk) (Z.lor TCP_FLAG_SYN TCP_FLAG_ACK) [];
       if (backlog k =? 0) || (q_count (accept_queue k) <? u32 (backlog k)) then
         do '(ob, s) <- net_alloc_buf (n_heap (t_net t)) 8;
         let t := on_heap t s in
         match ob with
         | None => tcp_socket_destroy t p
         | Some b =>
             do b <- buf_set_field b 0 8 p;
             do '(q, t) <- enqueue t (accept_queue k) (with_len b 8);
             Ret (set_sock t sock (with_queues k (rx_queue k) (tx_queue k) q))
         end
       else
         do '(_, t) <- tcp_send_segment t nk 0 (rcv_nxt nk) (Z.lor TCP_FLAG_RST TCP_FLAG_ACK) [];
         tcp_socket_destroy t p)%out.

(** ESTABLISHED: the acknowledgement, the payload, and the answer. *)
Definition process_established (t : tcpstate S) (sock : Z) (k : tcp_socket) (ack flags : Z) (b : net_buf) (data_len : Z)
    : outcome (tcpstate S) :=
  (let acked := negb (Z.land flags TCP_FLAG_ACK =? 0) in
   let k := if acked && ((snd_una k <? ack) && (ack <=? snd_nxt k))
            then with_seqs k ack (snd_nxt k) (iss k) (rcv_nxt k) (irs k) else k in
   let t := set_sock t sock k in
   do '(k, t) <-
     (if (0 <? data_len) && acked then
        do '(od, s) <- net_alloc_buf (n_heap (t_net t)) data_len;
        let t := on_heap t s in
        match od with
        | None => Ret (k, t)
        | Some d =>
            do payload <- buf_read b 0 data_len;
            do d <- buf_write d 0 payload;
            do '(q, t) <- enqueue t (rx_queue k) (with_len d data_len);
            let k := with_seqs (with_queues k q (tx_queue k) (accept_queue k)) (snd_una k) (snd_nxt k) (iss k)
                       (u32 (rcv_nxt k + data_len)) (irs k) in
            Ret (k, set_sock t sock k)
        end
      else Ret (k, t));
   do '(_, t) <- tcp_send_segment t k (snd_nxt k) (rcv_nxt k) TCP_FLAG_ACK [];
   Ret t)%out.

(** The body of [tcp_process], for the socket [sock] that was found. *)
Definition process_for (t : tcpstate S) (sock : Z) (b : net_buf) (src dst src_port dst_port : Z)
    : outcome (Z * net_buf * tcpstate S) :=
  (do w <- buf_field b 12 2;
   do seq <- buf_field b 4 4;
   do ack <- buf_field b 8 4;
   let data_offset := TCP_GET_DATA_OFFSET w * 4 in
   let flags := TCP_GET_FLAGS w in
   let data_len := u32 (nb_len b - data_offset) in
   if nb_len b <? data_offset then Ret (-1, b, t)
   else
     let b := net_pull b data_offset in
     if sock =? 0 then Ret (-1, b, t)
     else
       do k <- sock_of t sock;
       do t <- (if sk_state k =? TCP_STATE_LISTEN then process_listen t sock k src dst src_port dst_port (ntohl seq) flags
                else if sk_state k =? TCP_STATE_ESTABLISHED then process_established t sock k (ntohl ack) flags b data_len
                else Ret t);
       Ret (0, b, t))%out.

(** [tcp_process]: the search for the socket is missing, [sock] stays NULL. *)
Definition tcp_process (t : tcpstate S) (b : net_buf) (src dst src_port dst_port : Z)
    : outcome (Z * net_buf * tcpstate S) :=
  process_for t 0 b src dst src_port dst_port.

(** [tcp_input_wrapper]: the addresses are read 20 bytes in front of the segment. *)
Definition tcp_input_wrapper (t : tcpstate S) (b : net_buf) : outcome (net_buf * tcpstate S) :=
  (if nb_len b <? TCP_HEADER_MIN then Ret (b, t)
   else
     do src <- buf_field b (-8) 4;
     do dst <- buf_field b (-4) 4;
     do sp <- buf_field b 0 2;
     do dp <- buf_field b 2 2;
     do '(_, b, t) <- tcp_process t b src dst (ntohs sp) (ntohs dp);
     Ret (b, t))%out.

Definition tcp_init (n : netstate S) : tcpstate S :=
  mk_tcp (mk_net (n_heap n) (n_table n) (n_cache n) (n_now n) (n_routes n)
            (ipv4_register_protocol (n_protocols n) IP_PROTO_TCP tcp_handler).2 (n_id n)) ∅ ∅ 0x12345678.
End tcp.
