(* ===== verification/TcpSpec.v ===== *)
(** Properties of Tcp.v: the checksum of a segment, the buffer it is built in, and what a
    socket can reach. *)

From stdpp Require Import relations.
From S2P Require Import Prelude Bytes LibMem LibString Printf NetBuf Ethernet Arp Ipv4 Ipv4Spec Tcp.

(** * The checksum of a segment *)

Definition seg_header (k : tcp_socket) (seq ack flags sum : Z) : list Z :=
  le_bytes 2 (htons (local_port k)) ++ le_bytes 2 (htons (remote_port k)) ++ le_bytes 4 (htonl seq) ++
  le_bytes 4 (htonl ack) ++ le_bytes 2 (TCP_SET_FLAGS 0x5000 flags) ++ le_bytes 2 (htons (u16 (rcv_wnd k))) ++
  le_bytes 2 sum ++ [0; 0].

Lemma window_app (b : net_buf) (pre h k post : list Z) : window b pre (h ++ k) post = window b pre h (k ++ post).
Proof. unfold window. by rewrite <- app_assoc. Qed.

(** The sum over the pseudo header and a segment. *)
Definition seg_sum (seg : list Z) (src dst : Z) : Z :=
  word_sum (pseudo_header src dst (Z.of_nat (length seg))) + word_sum seg.

Lemma pseudo_fits (src dst len : Z) : Forall (fits 8) (pseudo_header src dst len).
Proof.
  unfold pseudo_header. rewrite !Forall_app. split_and!; try apply le_bytes_fits. by repeat constructor.
Qed.

Lemma tcp_checksum_eq (seg : list Z) (src dst : Z) :
  Forall (fits 8) seg -> Z.of_nat (length seg) < 65536 ->
  tcp_checksum seg src dst = Ret (65535 - ones_sum (seg_sum seg src dst)) /\ 0 <= seg_sum seg src dst < 2 ^ 32.
Proof.
  intros HF Hl. pose proof (word_sum_bound seg HF) as H1.
  pose proof (word_sum_bound _ (pseudo_fits src dst (Z.of_nat (length seg)))) as H2.
  assert (L : Z.of_nat (length (pseudo_header src dst (Z.of_nat (length seg)))) = 12) by done. rewrite L in H2.
  change (12 / 2) with 6 in H2. assert (Z.of_nat (length seg) / 2 < 32768) by dlia.
  unfold seg_sum, tcp_checksum. change (2 ^ 32) with 4294967296. split; [| lia].
  rewrite !csum_words_eq; try first [done | apply pseudo_fits | change (2 ^ 32) with 4294967296; lia].
  2: { rewrite csum_words_eq; [lia | apply pseudo_fits | done |]. change (2 ^ 32) with 4294967296. lia. }
  2: { rewrite csum_words_eq; [| apply pseudo_fits | done |]; change (2 ^ 32) with 4294967296; lia. }
  rewrite csum_fold_eq by (change (2 ^ 32) with 4294967296; lia). cbn [obind].
  by rewrite wnot16 by apply ones_sum_bound.
Qed.

(** The checksum is the word at offset 16. *)
Lemma header_sum (k : tcp_socket) (seq ack flags sum : Z) (data : list Z) :
  fits 16 sum ->
  word_sum (seg_header k seq ack flags sum ++ data) = word_sum (seg_header k seq ack flags 0 ++ data) + sum.
Proof.
  intros Hs. rewrite !word_sum_app by done. pose proof (le_val_bytes 2 sum Hs) as E. unfold seg_header.
  cbn [le_bytes le_val app word_sum] in *. change (wrap 8 0) with 0. change (Z.shiftr 0 8) with 0. change (wrap 8 0) with 0. lia.
Qed.

Lemma seg_header_fits (k : tcp_socket) (seq ack flags sum : Z) : Forall (fits 8) (seg_header k seq ack flags sum).
Proof. unfold seg_header. rewrite !Forall_app. split_and!; try apply le_bytes_fits. by repeat constructor. Qed.

Lemma seg_fits (k : tcp_socket) (seq ack flags sum : Z) (data : list Z) :
  Forall (fits 8) data -> Forall (fits 8) (seg_header k seq ack flags sum ++ data).
Proof. intros HF. apply Forall_app. split; [apply seg_header_fits | done]. Qed.

(** The payload is put behind the header. *)
Lemma payload_ok (b : net_buf) (pre h old data post : list Z) :
  nb_data b = Z.of_nat (length pre) -> length h = 20%nat -> length old = length data -> Z.of_nat (length data) < 65516 ->
  (if bool_decide (data = []) then Ret (with_len (window b pre h (old ++ post)) TCP_HEADER_MIN)
   else do b <- buf_write (window b pre h (old ++ post)) TCP_HEADER_MIN data;
        Ret (with_len b (u32 (TCP_HEADER_MIN + Z.of_nat (length data)))))%out =
  Ret (window (with_len b (20 + Z.of_nat (length data))) pre (h ++ data) post).
Proof.
  intros Hd Hh Hold Hl. destruct data as [|x data'].
  - rewrite bool_decide_eq_true_2 by done. destruct old; [| done]. by rewrite app_nil_r.
  - rewrite bool_decide_eq_false_2 by done. rewrite <- window_app. unfold TCP_HEADER_MIN.
    rewrite (window_write b pre _ post 20 (x :: data') Hd) by (rewrite ?length_app; lia). cbn [obind].
    rewrite wrap_small by (split; lia). rewrite (splice_app_r h old (x :: data') 20) by lia. rewrite Hh. cbn [Z.of_nat]. by rewrite splice_all.
Qed.

(** Completing a sum to zero. *)
Lemma ones_sum_closed (s : Z) : 0 <= s -> ones_sum (s + (65535 - ones_sum s)) = 65535.
Proof.
  intros Hs. unfold ones_sum at 2. destruct (Z.eqb_spec s 0) as [-> | Hne]; [done |].
  pose proof (Z.div_mod (s - 1) 65535 ltac:(lia)) as E. pose proof (Z.mod_pos_bound (s - 1) 65535 ltac:(lia)).
  unfold ones_sum. destruct (Z.eqb_spec (s + (65535 - (1 + (s - 1) mod 65535))) 0); [lia |].
  replace (s + (65535 - (1 + (s - 1) mod 65535)) - 1) with (65534 + (s - 1) / 65535 * 65535) by lia.
  by rewrite Z_mod_plus_full.
Qed.

Lemma fill_segment_ok (b : net_buf) (pre h post old data : list Z) (k : tcp_socket) (seq ack flags : Z) :
  nb_data b = Z.of_nat (length pre) -> length h = 20%nat -> length old = length data -> Forall (fits 8) data ->
  Z.of_nat (length data) < 65516 ->
  let c := 65535 - ones_sum (seg_sum (seg_header k seq ack flags 0 ++ data) (local_addr k) (remote_addr k)) in
  fill_segment (window b pre (h ++ old) post) k seq ack flags data =
    Ret (window (with_len b (20 + Z.of_nat (length data))) pre (seg_header k seq ack flags c ++ data) post).
Proof.
  intros Hd Hh Hold HF Hl c. rewrite window_app. unfold fill_segment, buf_set_field.
  rewrite (window_write b pre h _ 0 (replicate 20 0)) by (done || rewrite ?length_replicate; lia).
  rewrite (splice_all h) by (rewrite length_replicate; done). cbn [obind]. do 9 in_header Hd.
  match goal with |- context [window b pre ?l (old ++ post)] => change l with (seg_header k seq ack flags 0) end.
  rewrite (payload_ok b pre _ old data post Hd) by done. cbn [obind]. rewrite window_app.
  assert (Hd' : nb_data (with_len b (20 + Z.of_nat (length data))) = Z.of_nat (length pre)) by done.
  in_header Hd'. rewrite <- window_app.
  match goal with |- context [buf_read (window _ pre (?l ++ data) post)] => change l with (seg_header k seq ack flags 0) end.
  assert (Hlen : length (seg_header k seq ack flags 0 ++ data) = (20 + length data)%nat) by done.
  rewrite (window_read _ pre _ post 0 _ Hd') by (done || cbn [window with_bytes with_len nb_len]; rewrite ?Hlen; lia).
  cbn [obind window with_bytes with_len nb_len]. change (Z.to_nat 0) with O. rewrite drop_0, take_ge by (rewrite Hlen; lia).
  rewrite (proj1 (tcp_checksum_eq _ _ _ (seg_fits _ _ _ _ _ _ HF) ltac:(rewrite Hlen; lia))). cbn [obind].
  change (with_bytes ?x (pre ++ ?h ++ post)) with (window x pre h post). rewrite window_app.
  rewrite (window_write _ _ _ _ _ _ Hd') by in_window. by rewrite <- window_app.
Qed.

(** In a buffer with room for it, [fill_segment] writes the header with the ports,
    numbers and flags, the payload behind it, and a checksum with which the segment and its
    pseudo header sum to zero in one's complement, which is what a receiver tests. *)
Theorem tcp_segment_checksum (b : net_buf) (pre h post old data : list Z) (k : tcp_socket) (seq ack flags : Z) :
  nb_data b = Z.of_nat (length pre) -> length h = 20%nat -> length old = length data -> Forall (fits 8) data ->
  Z.of_nat (length data) < 65516 ->
  exists sum, let seg := seg_header k seq ack flags sum ++ data in
    fill_segment (window b pre (h ++ old) post) k seq ack flags data =
      Ret (window (with_len b (20 + Z.of_nat (length data))) pre seg post) /\
    tcp_checksum seg (local_addr k) (remote_addr k) = Ret 0.
Proof.
  intros Hd Hh Hold HF Hl.
  set (S0 := seg_sum (seg_header k seq ack flags 0 ++ data) (local_addr k) (remote_addr k)).
  assert (Hlen : forall sum, length (seg_header k seq ack flags sum ++ data) = (20 + length data)%nat) by done.
  exists (65535 - ones_sum S0). cbv zeta. split; [by apply fill_segment_ok |].
  pose proof (ones_sum_bound S0) as Ho. set (c := 65535 - ones_sum S0). assert (Hc : fits 16 c) by (unfold c; split; lia).
  destruct (tcp_checksum_eq (seg_header k seq ack flags 0 ++ data) (local_addr k) (remote_addr k)) as [_ Hb];
    [by apply seg_fits | rewrite Hlen; lia |].
  destruct (tcp_checksum_eq (seg_header k seq ack flags c ++ data) (local_addr k) (remote_addr k)) as [-> _];
    [by apply seg_fits | rewrite Hlen; lia |]. f_equal.
  assert (E : seg_sum (seg_header k seq ack flags c ++ data) (local_addr k) (remote_addr k) = S0 + c).
  { unfold S0, seg_sum. rewrite header_sum by done. rewrite !Hlen. lia. }
  rewrite E. unfold c. rewrite ones_sum_closed by apply Hb. done.
Qed.

Section runs.
Context {S : Type} `{BlockAlloc S}.
Context (during : S * net_table * arp_cache * Z -> outcome (S * net_table * arp_cache * Z)).
Implicit Types t : tcpstate S.

(** * The buffer of a segment *)

(** The block for a segment has 124 bytes and its data; the segment starts at 98. *)
Lemma alloc_window (s s' : S) (b : net_buf) (data : list Z) :
  Z.of_nat (length data) < 65516 ->
  net_alloc_buf s (u32 (TCP_HEADER_MAX + Z.of_nat (length data))) = Ret (Some b, s') ->
  let r := net_reserve b (IPV4_HEADER_MIN + ETH_HLEN) in
  shape r 98 0 30 (124 + Z.of_nat (length data)) /\
  exists pre h old post, r = window r pre (h ++ old) post /\ length pre = 98%nat /\ length h = 20%nat /\
    length old = length data /\ length post = 6%nat.
Proof.
  intros Hl E r. unfold TCP_HEADER_MAX, IPV4_HEADER_MIN, ETH_HLEN in *. rewrite wrap_small in E by (split; lia).
  apply net_alloc_buf_shape in E as [Hs _]; [| lia | unfold NET_HEADROOM; lia]. unfold NET_HEADROOM in Hs.
  apply net_reserve_shape with (k := 20 + 14) in Hs; [| lia]. fold r in Hs.
  replace (60 + Z.of_nat (length data) + 64) with (124 + Z.of_nat (length data)) in Hs by lia. split; [done |].
  destruct Hs as (_ & _ & _ & Hn). set (l := nb_bytes r) in *.
  exists (take 98 l), (take 20 (drop 98 l)), (take (length data) (drop 118 l)), (drop (118 + length data) l).
  assert (El : take 98 l ++ (take 20 (drop 98 l) ++ take (length data) (drop 118 l)) ++ drop (118 + length data) l = l).
  { rewrite <- (drop_drop l _ 118), <- app_assoc, take_drop. change 118%nat with (98 + 20)%nat.
    by rewrite <- (drop_drop l _ 98), !take_drop. }
  rewrite !length_take, !length_drop. split_and!; try lia. unfold window. rewrite El. unfold l. by destruct r.
Qed.

(** The IP header of a segment with less than 14 bytes of data does not fit. *)
Lemma send_segment_crash (t : tcpstate S) (k : tcp_socket) (seq ack flags : Z) (data : list Z) (b : net_buf) (s' : S) (r : ipv4_route) :
  Forall (fits 8) data -> Z.of_nat (length data) < 14 ->
  net_alloc_buf (n_heap (t_net t)) (u32 (TCP_HEADER_MAX + Z.of_nat (length data))) = Ret (Some b, s') ->
  ipv4_route_lookup (n_routes (t_net t)) (remote_addr k) = Some r ->
  tcp_send_segment during t k seq ack flags data = Crash.
Proof.
  intros HF Hl E Hr. unfold tcp_send_segment. rewrite E. cbn [obind].
  destruct (alloc_window _ _ _ data ltac:(lia) E) as [Hs (pre & h & old & post & Ew & Lp & Lh & Lo & Lq)].
  set (b0 := net_reserve b (IPV4_HEADER_MIN + ETH_HLEN)) in *. rewrite Ew.
  assert (Hd : nb_data b0 = Z.of_nat (length pre)) by (destruct Hs as [-> _]; lia).
  rewrite fill_segment_ok by (done || lia). cbn [obind]. unfold ipv4_output.
  change (n_routes (t_net (on_heap t s'))) with (n_routes (t_net t)). rewrite Hr.
  set (w := window _ _ _ _).
  assert (Hw : shape w 98 (20 + Z.of_nat (length data)) 30 (124 + Z.of_nat (length data))).
  { destruct Hs as (H1 & H2 & H3 & H4). split; [done |]. split; [done |]. split; [done |].
    unfold w. cbn [window with_bytes with_len nb_bytes]. rewrite !length_app. change (length (seg_header _ _ _ _ _)) with 20%nat. lia. }
  apply net_reserve_shape with (k := IPV4_HEADER_MIN) in Hw; [| unfold IPV4_HEADER_MIN; lia]. unfold ipv4_fill.
  erewrite buf_write_crash; [done | exact Hw |]. rewrite length_replicate. unfold IPV4_HEADER_MIN. lia.
Qed.

(** Every attempt to connect to a destination with a route overruns its buffer: for a
    closed socket, when the allocation succeeds, [tcp_connect] writes the IP header of its
    SYN outside the block; without a route it reports -1, with the socket in SYN_SENT. *)
Theorem tcp_connect_overflow (t : tcpstate S) (sock addr port : Z) (k : tcp_socket) (b : net_buf) (s' : S) :
  sock <> 0 -> t_socks t !! sock = Some k -> sk_state k = TCP_STATE_CLOSED ->
  net_alloc_buf (n_heap (t_net t)) TCP_HEADER_MAX = Ret (Some b, s') ->
  match ipv4_route_lookup (n_routes (t_net t)) addr with
  | Some _ => tcp_connect during t sock addr port = Crash
  | None => ipv4_route_get_default (n_routes (t_net t)) = None ->
      exists t' k', tcp_connect during t sock addr port = Ret (-1, t') /\ t_socks t' !! sock = Some k' /\
        sk_state k' = TCP_STATE_SYN_SENT /\ t_net t' = with_heap (t_net t) s'
  end.
Proof.
  intros H0 Ek Hst E. unfold tcp_connect. replace (sock =? 0) with false by lia. unfold sock_of. rewrite Ek.
  cbn [of_option obind]. rewrite Hst. change (negb (TCP_STATE_CLOSED =? TCP_STATE_CLOSED)) with false. cbv iota zeta.
  set (k1 := with_state _ _ _). set (t1 := set_sock _ _ _).
  destruct (ipv4_route_lookup _ addr) as [r|] eqn:Er; [by apply (send_segment_crash t1 k1 _ _ _ [] b s' r) |].
  intros Hdef. unfold tcp_send_segment. change (n_heap (t_net t1)) with (n_heap (t_net t)).
  change (u32 (TCP_HEADER_MAX + Z.of_nat (length (@nil Z)))) with TCP_HEADER_MAX. rewrite E. cbn [obind].
  destruct (alloc_window _ _ b [] ltac:(done) E) as [Hs (pre & h & old & post & Ew & Lp & Lh & Lo & Lq)].
  rewrite Ew. rewrite fill_segment_ok by (done || (destruct Hs as [-> _]; lia)). cbn [obind]. unfold ipv4_output.
  change (n_routes (t_net (on_heap t1 s'))) with (n_routes (t_net t)). change (remote_addr k1) with addr. rewrite Er, Hdef.
  cbn [obind]. eexists _, k1. split; [reflexivity |]. split; [apply lookup_insert_eq |]. done.
Qed.

(** * What a socket can reach *)

(** A call of the interface, a segment from the network, or any change of the layers
    below. *)
Inductive tcp_step : tcpstate S -> tcpstate S -> Prop :=
| step_create t p t' : tcp_socket_create t = Ret (p, t') -> tcp_step t t'
| step_destroy t a t' : tcp_socket_destroy t a = Ret t' -> tcp_step t t'
| step_listen t a bl r t' : tcp_listen t a bl = Ret (r, t') -> tcp_step t t'
| step_accept t a r t' : tcp_accept t a = Ret (r, t') -> tcp_step t t'
| step_connect t a addr port r t' : tcp_connect during t a addr port = Ret (r, t') -> tcp_step t t'
| step_send t a data r t' : tcp_send during t a data = Ret (r, t') -> tcp_step t t'
| step_recv t a len r data t' : tcp_recv t a len = Ret (r, data, t') -> tcp_step t t'
| step_close t a r t' : tcp_close during t a = Ret (r, t') -> tcp_step t t'
| step_abort t a r t' : tcp_abort during t a = Ret (r, t') -> tcp_step t t'
| step_input t b b' t' : tcp_input_wrapper during t b = Ret (b', t') -> tcp_step t t'
| step_net t n : tcp_step t (with_net t n).

(** A socket that never left the opening states, with empty queues. *)
Record idle (k : tcp_socket) : Prop := {
  idle_state : sk_state k = TCP_STATE_CLOSED \/ sk_state k = TCP_STATE_LISTEN \/ sk_state k = TCP_STATE_SYN_SENT;
  idle_mss : mss k = 1460;
  idle_queues : rx_queue k = empty_queue /\ tx_queue k = empty_queue /\ accept_queue k = empty_queue
}.

Definition all_idle (t : tcpstate S) : Prop := map_Forall (fun _ => idle) (t_socks t) /\ t_queued t = ∅.

Lemma send_segment_net t k seq ack flags data r t' :
  tcp_send_segment during t k seq ack flags data = Ret (r, t') -> t_socks t' = t_socks t /\ t_queued t' = t_queued t.
Proof.
  unfold tcp_send_segment. intros E. inv_ret. destruct a as [[b|] s]; inv_ret; [| by simplify_eq].
  destruct a0 as [[r0 b0] n]. inv_ret. by simplify_eq.
Qed.

Lemma set_sock_idle t a k : all_idle t -> idle k -> all_idle (set_sock t a k).
Proof. intros [H1 H2] Hk. split; [| done]. by apply map_Forall_insert_2. Qed.

Lemma destroy_idle t a t' : all_idle t -> tcp_socket_destroy t a = Ret t' -> all_idle t'.
Proof.
  intros [H1 H2] E. unfold tcp_socket_destroy in E. destruct (a =? 0); [by inv_ret |].
  unfold sock_of in E. destruct (t_socks t !! a) as [k|] eqn:Ek; [| done]. cbn [of_option obind] in E.
  destruct (idle_queues k (H1 a k Ek)) as (Q1 & Q2 & Q3). rewrite Q1, Q2, Q3 in E.
  cbn [empty_queue q_head drain queue_fuel Z.eqb obind] in E. inv_ret. simplify_eq. split; [| done].
  by apply map_Forall_delete.
Qed.

(** What the data calls do on an idle socket. *)
Lemma idle_calls t a k data len :
  all_idle t -> a <> 0 -> t_socks t !! a = Some k ->
  tcp_send during t a data = Ret (-1, t) /\ tcp_recv t a len = Ret (-1, [], t) /\ tcp_accept t a = Ret (0, t).
Proof.
  intros [H1 _] H0 Ek. destruct (H1 a k Ek) as [Hs _ (Q1 & _ & Q3)].
  unfold tcp_send, tcp_recv, tcp_accept, sock_of. replace (a =? 0) with false by lia. rewrite Ek. cbn [of_option obind].
  rewrite Q3. by destruct Hs as [-> | [-> | ->]].
Qed.

(** The socket of a call that returned is NULL or live. *)
Lemma sock_cases t a : a = 0 \/ (a <> 0 /\ exists k, t_socks t !! a = Some k) \/ (a <> 0 /\ sock_of t a = Crash).
Proof.
  destruct (decide (a = 0)); [by left |]. right. unfold sock_of. destruct (t_socks t !! a) as [k|]; [left | right]; eauto.
Qed.

Lemma process_null t b src dst sp dp r b' t' :
  tcp_process during t b src dst sp dp = Ret (r, b', t') -> r = -1 /\ t' = t.
Proof.
  unfold tcp_process, process_for. intros E. inv_ret. cbv zeta in E. change (0 =? 0) with true in E.
  destruct (nb_len b <? TCP_GET_DATA_OFFSET a * 4); by simplify_eq.
Qed.

Lemma connect_idle t a addr port r t' : all_idle t -> tcp_connect during t a addr port = Ret (r, t') -> all_idle t'.
Proof.
  intros Hi E. unfold tcp_connect in E. destruct (a =? 0); [by inv_ret; simplify_eq |]. unfold sock_of in E.
  destruct (t_socks t !! a) as [k|] eqn:Ek; [| done]. cbn [of_option obind] in E.
  destruct (negb _); [by inv_ret; simplify_eq |]. apply send_segment_net in E as [E1 E2].
  destruct (proj1 Hi a k Ek) as [_ Hm Hq]. destruct Hi as [H1 H2].
  split; [rewrite E1; cbn [set_sock t_socks] | rewrite E2; done]. apply map_Forall_insert_2; [| done].
  split; [by right; right | done | done].
Qed.

Lemma listen_idle t a bl r t' : all_idle t -> tcp_listen t a bl = Ret (r, t') -> all_idle t'.
Proof.
  intros Hi E. unfold tcp_listen in E. destruct (a =? 0); [by inv_ret; simplify_eq |]. unfold sock_of in E.
  destruct (t_socks t !! a) as [k|] eqn:Ek; [| done]. cbn [of_option obind] in E.
  destruct (negb _); inv_ret; simplify_eq; [done |]. apply set_sock_idle; [done |].
  destruct (proj1 Hi a k Ek) as [_ Hm Hq]. split; [by right; left | done | done].
Qed.

Lemma close_idle t a r t' : all_idle t -> tcp_close during t a = Ret (r, t') -> all_idle t'.
Proof.
  intros Hi E. unfold tcp_close in E. destruct (a =? 0); [by inv_ret; simplify_eq |]. unfold sock_of in E.
  destruct (t_socks t !! a) as [k|] eqn:Ek; [| done]. cbn [of_option obind] in E.
  assert (Hd : forall x : outcome (Z * tcpstate S), x = Ret (r, t') ->
    x = (do t <- tcp_socket_destroy t a; Ret (0, t))%out -> all_idle t').
  { intros x -> Ex. symmetry in Ex. inv_ret. simplify_eq. by eapply destroy_idle. }
  apply (Hd _ E). by destruct (idle_state k (proj1 Hi a k Ek)) as [-> | [-> | ->]].
Qed.

Lemma step_idle t t' : tcp_step t t' -> all_idle t -> all_idle t'.
Proof.
  intros Hst Hi. destruct Hst as [t p t' E|t a t' E|t a bl r t' E|t a r t' E|t a addr port r t' E|t a data r t' E|
    t a len r data t' E|t a r t' E|t a r t' E|t b b' t' E|t n].
  - unfold tcp_socket_create in E. inv_ret. destruct a as [[q bs] s]. destruct (q =? 0); inv_ret; simplify_eq; [done |].
    by apply set_sock_idle; [| split; [left | |]].
  - by eapply destroy_idle.
  - by eapply listen_idle.
  - destruct (sock_cases t a) as [-> | [[H0 [k Ek]] | [H0 Ec]]]; [by unfold tcp_accept in E; cbn in E; simplify_eq | |].
    + destruct (idle_calls t a k [] 0 Hi H0 Ek) as (_ & _ & E'). rewrite E in E'. by simplify_eq.
    + unfold tcp_accept in E. replace (a =? 0) with false in E by lia. by rewrite Ec in E.
  - by eapply connect_idle.
  - destruct (sock_cases t a) as [-> | [[H0 [k Ek]] | [H0 Ec]]]; [by unfold tcp_send in E; cbn in E; simplify_eq | |].
    + destruct (idle_calls t a k data 0 Hi H0 Ek) as (E' & _ & _). rewrite E in E'. by simplify_eq.
    + unfold tcp_send in E. replace (a =? 0) with false in E by lia. by rewrite Ec in E.
  - destruct (sock_cases t a) as [-> | [[H0 [k Ek]] | [H0 Ec]]]; [by unfold tcp_recv in E; cbn in E; simplify_eq | |].
    + destruct (idle_calls t a k [] len Hi H0 Ek) as (_ & E' & _). rewrite E in E'. by simplify_eq.
    + unfold tcp_recv in E. replace (a =? 0) with false in E by lia. by rewrite Ec in E.
  - by eapply close_idle.
  - unfold tcp_abort in E. destruct (a =? 0); [by simplify_eq |]. inv_ret. destruct a1 as [r1 t1]. inv_ret. simplify_eq.
    apply send_segment_net in E1 as [Es Eq]. eapply destroy_idle; [| done]. unfold all_idle. by rewrite Es, Eq.
  - unfold tcp_input_wrapper in E. destruct (nb_len b <? _); [by simplify_eq |]. inv_ret. destruct a3 as [[r1 b1] t1].
    inv_ret. simplify_eq. by apply process_null in E4 as [_ ->].
  - done.
Qed.

(** C34: No connection is ever established: from [tcp_init], along every sequence of calls
    and of segments from the network, a socket is closed, listening or waiting for the
    answer to its SYN, nothing is queued, sending and receiving on it fail, accepting gives
    no socket, and a segment that arrives is dropped with -1 and changes no state. *)
Theorem tcp_never_established (n : netstate S) (t : tcpstate S) :
  rtc tcp_step (tcp_init n) t ->
  all_idle t /\
  (forall a k data len, a <> 0 -> t_socks t !! a = Some k ->
     sk_state k <> TCP_STATE_ESTABLISHED /\ tcp_send during t a data = Ret (-1, t) /\
     tcp_recv t a len = Ret (-1, [], t) /\ tcp_accept t a = Ret (0, t)) /\
  (forall b src dst sp dp r b' t', tcp_process during t b src dst sp dp = Ret (r, b', t') -> r = -1 /\ t' = t).
Proof.
  intros Hr. assert (Hi : all_idle t).
  { assert (H0 : all_idle (tcp_init n)) by (split; [apply map_Forall_empty | done]). revert H0.
    induction Hr as [|x y z Hxy _ IH]; [done |]. intros H0. apply IH. by eapply step_idle. }
  split; [done |]. split.
  - intros a k data len H0 Ek. split; [| by eapply idle_calls].
    by destruct (idle_state k (proj1 Hi a k Ek)) as [-> | [-> | ->]].
  - intros b src dst sp dp r b' t'. apply process_null.
Qed.
End runs.

(** * Examples *)

Definition demo_route : ipv4_route := mk_route 1 0x0002000A 0x00FFFFFF 0 0 8192 0.
Definition demo_tcp (rs : list ipv4_route) : tcpstate Z :=
  mk_tcp (mk_net 65536 demo_table arp_init 0 rs protocols_init 0) {[ 4096 := new_socket ]} ∅ 0x12345678.

Lemma tcp_connect_overflow_witness :
  tcp_connect Ret (demo_tcp [demo_route]) 4096 0x0202000A 80 = Crash /\
  exists t', tcp_connect Ret (demo_tcp []) 4096 0x0202000A 80 = Ret (-1, t').
Proof.
  pose (b := mk_buf 65536 65608 (replicate 124 0) 64 64 124 0 64 124 0 0 0).
  assert (Eb : net_alloc_buf (65536 : Z) TCP_HEADER_MAX = Ret (Some b, 65732)) by (vm_compute; reflexivity). split.
  - exact (tcp_connect_overflow Ret (demo_tcp [demo_route]) 4096 0x0202000A 80 new_socket b 65732 ltac:(lia) eq_refl eq_refl Eb).
  - destruct (tcp_connect_overflow Ret (demo_tcp []) 4096 0x0202000A 80 new_socket b 65732
                ltac:(lia) eq_refl eq_refl Eb eq_refl) as (t' & _ & E & _). by exists t'.
Defined.

Lemma tcp_segment_checksum_witness :
  exists sum, tcp_checksum (seg_header new_socket 7 0 TCP_FLAG_SYN sum ++ [104; 105; 33]) 0 0 = Ret 0.
Proof.
  destruct (tcp_segment_checksum demo_packet (replicate 64 7) (replicate 20 7) (replicate 41 7) (replicate 3 7) [104; 105; 33]
              new_socket 7 0 TCP_FLAG_SYN) as (sum & _ & E); [done | done | done | by repeat constructor | done |].
  by exists sum.
Defined.

(** One socket is created and asked to listen. *)
Lemma tcp_never_established_witness :
  exists t, rtc (tcp_step Ret) (tcp_init demo_net) t /\ t_socks t !! 65536 = Some (with_state new_socket TCP_STATE_LISTEN 4) /\
    tcp_accept t 65536 = Ret (0, t).
Proof.
  pose (t1 := set_sock (on_heap (tcp_init demo_net) (65536 + 216)) 65536 new_socket).
  pose (t2 := set_sock t1 65536 (with_state new_socket TCP_STATE_LISTEN 4)).
  assert (Hr : rtc (tcp_step Ret) (tcp_init demo_net) t2).
  { apply rtc_l with t1; [by apply (step_create Ret _ 65536) |].
    apply rtc_once. by apply (step_listen Ret t1 65536 4 0). }
  exists t2. split; [exact Hr |]. split; [reflexivity |].
  destruct (tcp_never_established Ret demo_net t2 Hr) as (_ & Hc & _).
  exact (proj2 (proj2 (proj2 (Hc 65536 _ [] 0 ltac:(lia) eq_refl)))).
Defined.
