(* ===== verification/DiskDrivers.v ===== *)
(** The transfer loops of the disk drivers, src/drivers/disk/ide.c (ide_read_sectors and
    ide_write_sectors) and src/drivers/disk/ahci.c (ahci_port_read and ahci_port_write),
    over drives that carry out commands on single sectors; the contract [DiskHw] that the
    block devices of Blockdev.v rely on, discharged by the two drivers for the transfers
    they perform as asked; and what they do with the others.  The command protocol (port
    accesses, status polling, command slots) is below the model. *)

From S2P Require Import Prelude Bytes.

(** * The contract

    [hw_read m disk lba count] is what the driver stores in the buffer, from its start on,
    or nothing when it reports an error; [hw_write] may change sectors also when it reports
    one.  [hw_serves disk lba count]: the driver performs such a transfer as it is asked
    to.  The laws speak of these transfers only. *)
Class DiskHw (M : Type) := {
  hw_read : M -> Z -> Z -> Z -> outcome (option (list Z));
  hw_write : M -> Z -> Z -> Z -> list Z -> outcome (bool * M);
  hw_sector_size : Z -> Z;
  hw_serves : Z -> Z -> Z -> Prop;
  hw_read_ends m k lba n : hw_serves k lba n -> exists r, hw_read m k lba n = Ret r;
  hw_write_ends m k lba n bs :
    hw_serves k lba n -> Z.of_nat (length bs) = n * hw_sector_size k ->
    exists b m', hw_write m k lba n bs = Ret (b, m');
  hw_read_length m k lba n bs :
    hw_serves k lba n -> hw_read m k lba n = Ret (Some bs) -> Z.of_nat (length bs) = n * hw_sector_size k;
  hw_read_write m k lba n bs m' :
    hw_serves k lba n -> Z.of_nat (length bs) = n * hw_sector_size k ->
    hw_write m k lba n bs = Ret (true, m') -> hw_read m' k lba n = Ret (Some bs);
  hw_read_write_other m k lba n bs b m' k' lba' n' :
    hw_serves k lba n -> Z.of_nat (length bs) = n * hw_sector_size k ->
    hw_write m k lba n bs = Ret (b, m') -> hw_serves k' lba' n' ->
    k' <> k \/ lba' + n' <= lba \/ lba + n <= lba' ->
    hw_read m' k' lba' n' = hw_read m k' lba' n'
}.

(** * The drives

    A drive reads or writes one sector; a command may fail, and a failed write may have
    changed the sector it names. *)
Class SectorIo (M : Type) := {
  io_size : Z -> Z;
  io_get : M -> Z -> Z -> option (list Z);
  io_put : M -> Z -> Z -> list Z -> bool * M;
  io_flush : M -> Z -> bool;
  io_size_ok k : 0 < io_size k <= 4096;
  io_get_length m k a bs : io_get m k a = Some bs -> Z.of_nat (length bs) = io_size k;
  io_get_put m k a bs m' :
    io_put m k a bs = (true, m') -> Z.of_nat (length bs) = io_size k -> io_get m' k a = Some bs;
  io_get_put_other m k a bs b m' k' a' :
    io_put m k a bs = (b, m') -> k' <> k \/ a' <> a -> io_get m' k' a' = io_get m k' a'
}.

Section drivers.
Context {M : Type} `{SectorIo M}.
Implicit Types (m : M) (bs buf : list Z).

(** * IDE

    The fields of [ide_disk_t] that the loops read; the sector size is the drive's. *)
Record ide_disk := mk_ide { ide_total_sectors : Z; supports_lba48 : bool }.

(** The sector number that [setup_lba28_regs] and [setup_lba48_regs] send. *)
Definition ide_address (d : ide_disk) (cur_lba : Z) : Z :=
  if supports_lba48 d && (0x0FFFFFFF <? cur_lba) then cur_lba mod 2 ^ 48 else u32 cur_lba mod 2 ^ 28.

(** [n] sectors from [cur_lba] on, stored from sector [idx] of the buffer on. *)
Fixpoint ide_read_run (n : nat) m (k : Z) (d : ide_disk) (cur_lba idx : Z) buf : outcome (option (list Z)) :=
  match n with
  | O => Ret (Some buf)
  | S n' =>
      match io_get m k (ide_address d (u64 cur_lba)) with
      | None => Ret None
      | Some bs =>
          if Z.of_nat (length buf) <? (idx + 1) * io_size k then Crash
          else ide_read_run n' m k d (cur_lba + 1) (idx + 1) (splice buf (idx * io_size k) bs)
      end
  end.

(** The loop over the chunks: [lba] and [user_buf] (in sectors) advance with [count -
    remaining], to which they are added. *)
Fixpoint ide_read_chunks (fuel : nat) m (k : Z) (d : ide_disk) (lba user_buf passed remaining : Z) buf
    : outcome (option (list Z)) :=
  (if remaining =? 0 then Ret (Some buf)
   else match fuel with
        | O => Crash
        | S fuel' =>
            let chunk := if 256 <? remaining then 256 else remaining in
            do r <- ide_read_run (Z.to_nat chunk) m k d (lba + passed) (user_buf + passed) buf;
            match r with
            | None => Ret None
            | Some buf =>
                ide_read_chunks fuel' m k d (lba + chunk) (user_buf + chunk) (passed + chunk) (remaining - chunk) buf
            end
        end)%out.

Definition ide_read_sectors m (k : Z) (d : ide_disk) (lba count : Z) : outcome (option (list Z)) :=
  if count =? 0 then Ret None
  else if negb (ide_total_sectors d =? 0) && (u64 (ide_total_sectors d - count) <? lba) then Ret None
  else ide_read_chunks (Z.to_nat count) m k d lba 0 0 count (replicate (Z.to_nat (count * io_size k)) 0).

Fixpoint ide_write_run (n : nat) m (k : Z) (d : ide_disk) (cur_lba idx : Z) bs : outcome (bool * M) :=
  match n with
  | O => Ret (true, m)
  | S n' =>
      if Z.of_nat (length bs) <? (idx + 1) * io_size k then Crash
      else
        let '(ok, m) := io_put m k (ide_address d (u64 cur_lba)) (slice bs (idx * io_size k) (io_size k)) in
        if ok then ide_write_run n' m k d (cur_lba + 1) (idx + 1) bs else Ret (false, m)
  end.

Fixpoint ide_write_chunks (fuel : nat) m (k : Z) (d : ide_disk) (lba user_buf passed remaining : Z) bs
    : outcome (bool * M) :=
  (if remaining =? 0 then Ret (io_flush m k, m)
   else match fuel with
        | O => Crash
        | S fuel' =>
            let chunk := if 256 <? remaining then 256 else remaining in
            do '(ok, m) <- ide_write_run (Z.to_nat chunk) m k d (lba + passed) (user_buf + passed) bs;
            if ok : bool then
              ide_write_chunks fuel' m k d (lba + chunk) (user_buf + chunk) (passed + chunk) (remaining - chunk) bs
            else Ret (false, m)
        end)%out.

Definition ide_write_sectors m (k : Z) (d : ide_disk) (lba count : Z) bs : outcome (bool * M) :=
  if count =? 0 then Ret (false, m)
  else if negb (ide_total_sectors d =? 0) && (u64 (ide_total_sectors d - count) <? lba) then Ret (false, m)
  else ide_write_chunks (Z.to_nat count) m k d lba 0 0 count bs.

(** * AHCI

    [count] is taken for a number of bytes.  A command moves up to eight sectors through a
    buffer of one page; the buffers and the command slots are all free between calls. *)
Record ahci_port := mk_port { port_active : bool }.

Definition DMA_PAGE : Z := 4096.

(** [ahci_port_access]: a command for [n] sectors. *)
Fixpoint dma_read (n : nat) m (k a : Z) : option (list Z) :=
  match n with
  | O => Some []
  | S n' => x ← io_get m k a; y ← dma_read n' m k (a + 1); Some (x ++ y)
  end.

Fixpoint dma_write (n : nat) m (k a : Z) bs : bool * M :=
  match n with
  | O => (true, m)
  | S n' =>
      let '(ok, m) := io_put m k a (take (Z.to_nat (io_size k)) bs) in
      if ok then dma_write n' m k (a + 1) (drop (Z.to_nat (io_size k)) bs) else (false, m)
  end.

Definition byte_sectors (k count : Z) : Z := u32 (u32 (count + io_size k) - 1) / io_size k.

Fixpoint ahci_read_loop (fuel : nat) m (k lba remaining : Z) buf : outcome (option (list Z)) :=
  (if remaining =? 0 then Ret (Some buf)
   else match fuel with
        | O => Crash
        | S fuel' =>
            let n := if 8 <? remaining then 8 else remaining in
            if DMA_PAGE <? n * io_size k then Crash
            else match dma_read (Z.to_nat n) m k (lba mod 2 ^ 48) with
                 | None => Ret None
                 | Some bs => ahci_read_loop fuel' m k (u64 (lba + n)) (remaining - n) (buf ++ bs)
                 end
        end)%out.

Definition ahci_port_read m (k : Z) (p : ahci_port) (lba count : Z) : outcome (option (list Z)) :=
  if negb (port_active p) then Ret None
  else let n := byte_sectors k count in ahci_read_loop (Z.to_nat n) m k lba n [].

Fixpoint ahci_write_loop (fuel : nat) m (k lba remaining : Z) bs : outcome (bool * M) :=
  (if remaining =? 0 then Ret (true, m)
   else match fuel with
        | O => Crash
        | S fuel' =>
            let n := if 8 <? remaining then 8 else remaining in
            let bytes := n * io_size k in
            if (DMA_PAGE <? bytes) || (Z.of_nat (length bs) <? bytes) then Crash
            else
              let '(ok, m) := dma_write (Z.to_nat n) m k (lba mod 2 ^ 48) (take (Z.to_nat bytes) bs) in
              if ok : bool then ahci_write_loop fuel' m k (u64 (lba + n)) (remaining - n) (drop (Z.to_nat bytes) bs)
              else Ret (false, m)
        end)%out.

Definition ahci_port_write m (k : Z) (p : ahci_port) (lba count : Z) bs : outcome (bool * M) :=
  if negb (port_active p) then Ret (false, m)
  else let n := byte_sectors k count in ahci_write_loop (Z.to_nat n) m k lba n bs.

(** * Sectors in a row *)

Lemma dma_read_length (n : nat) m (k a : Z) bs :
  dma_read n m k a = Some bs -> Z.of_nat (length bs) = Z.of_nat n * io_size k.
Proof.
  revert a bs. induction n as [|n IH]; intros a bs E; cbn [dma_read] in E; [by simplify_eq |].
  destruct (io_get m k a) as [x|] eqn:E1; [| done]. cbn in E. destruct (dma_read n m k (a + 1)) as [y|] eqn:E2; [| done].
  cbn in E. injection E as <-. rewrite length_app, Nat2Z.inj_add, (io_get_length _ _ _ _ E1), (IH _ _ E2). lia.
Qed.

Lemma dma_write_other (n : nat) m (k a : Z) bs (b : bool) m' (k' a' : Z) :
  dma_write n m k a bs = (b, m') -> k' <> k \/ a' < a \/ a + Z.of_nat n <= a' ->
  io_get m' k' a' = io_get m k' a'.
Proof.
  revert m a bs. induction n as [|n IH]; intros m a bs E Hd; cbn [dma_write] in E; [by simplify_eq |].
  destruct (io_put m k a _) as [ok m1] eqn:E1.
  rewrite <- (io_get_put_other _ _ _ _ _ _ k' a' E1) by lia.
  destruct ok; [| by simplify_eq]. apply (IH _ _ _ E). lia.
Qed.

Lemma dma_read_ext (n : nat) m m' (k a : Z) :
  (forall i, a <= i < a + Z.of_nat n -> io_get m' k i = io_get m k i) -> dma_read n m' k a = dma_read n m k a.
Proof.
  revert a. induction n as [|n IH]; intros a Hg; [done |]. cbn [dma_read]. rewrite Hg, IH by lia || (intros; apply Hg; lia). done.
Qed.

Lemma dma_read_write (n : nat) m (k a : Z) bs m' :
  dma_write n m k a bs = (true, m') -> Z.of_nat (length bs) = Z.of_nat n * io_size k -> dma_read n m' k a = Some bs.
Proof.
  pose proof (io_size_ok k) as Hs. revert m a bs.
  induction n as [|n IH]; intros m a bs E Hl; cbn [dma_write dma_read] in *; [by destruct bs |].
  destruct (io_put m k a _) as [[] m1] eqn:E1; [| done].
  rewrite (dma_write_other _ _ _ _ _ _ _ k a E), (io_get_put _ _ _ _ _ E1) by (rewrite ?length_take; lia). cbn.
  rewrite (IH _ _ _ E) by (rewrite length_drop; lia). cbn. by rewrite take_drop.
Qed.

(** * IDE transfers that are performed as asked: up to 256 sectors, inside the disk *)

Definition ide_serves (d : ide_disk) (lba n : Z) : Prop :=
  0 <= lba /\ 0 < n <= 256 /\ lba + n <= ide_total_sectors d /\
  ide_total_sectors d <= (if supports_lba48 d then 2 ^ 48 else 2 ^ 28).

Lemma ide_address_same (d : ide_disk) (lba : Z) :
  0 <= lba < ide_total_sectors d -> ide_total_sectors d <= (if supports_lba48 d then 2 ^ 48 else 2 ^ 28) ->
  ide_address d (u64 lba) = lba.
Proof.
  intros Hl Ht. rewrite wrap_small by (split; [lia |]; destruct (supports_lba48 d); lia). unfold ide_address.
  destruct (supports_lba48 d); cbn [andb].
  - destruct (Z.ltb_spec 0x0FFFFFFF lba); [by rewrite Z.mod_small by lia |].
    rewrite wrap_small, Z.mod_small by (first [lia | split; lia]). done.
  - rewrite wrap_small, Z.mod_small by (first [lia | split; lia]). done.
Qed.

Lemma ide_read_run_eq (n : nat) m (k : Z) (d : ide_disk) (lba : Z) (front rest : list Z) :
  0 <= lba -> lba + Z.of_nat n <= ide_total_sectors d ->
  ide_total_sectors d <= (if supports_lba48 d then 2 ^ 48 else 2 ^ 28) ->
  forall idx, 0 <= idx -> Z.of_nat (length front) = idx * io_size k -> Z.of_nat (length rest) = Z.of_nat n * io_size k ->
  ide_read_run n m k d lba idx (front ++ rest) = Ret (app front <$> dma_read n m k lba).
Proof.
  pose proof (io_size_ok k) as Hs. revert lba front rest.
  induction n as [|n IH]; intros lba front rest H0 Ht Hm idx Hi Hf Hr; cbn [ide_read_run dma_read].
  { destruct rest; [done | cbn [length] in Hr; lia]. }
  rewrite ide_address_same by (done || lia). destruct (io_get m k lba) as [x|] eqn:Ex; [| done]. cbn.
  pose proof (io_get_length _ _ _ _ Ex) as Hx.
  replace (_ <? _) with false by (rewrite length_app; nia).
  assert (Es : splice (front ++ rest) (idx * io_size k) x = (front ++ x) ++ drop (Z.to_nat (io_size k)) rest).
  { unfold splice. rewrite <- app_assoc. f_equal; [| f_equal].
    - rewrite take_app_le by lia. apply take_ge. lia.
    - rewrite drop_app_ge by lia. f_equal. lia. }
  rewrite Es, IH by (try done; try lia; rewrite ?length_app, ?length_drop; nia).
  destruct (dma_read n m k (lba + 1)); [| done]. cbn. by rewrite <- app_assoc.
Qed.

Lemma ide_read_ok m (k : Z) (d : ide_disk) (lba n : Z) :
  ide_serves d lba n -> ide_read_sectors m k d lba n = Ret (dma_read (Z.to_nat n) m k lba).
Proof.
  pose proof (io_size_ok k) as Hs. intros (H0 & Hn & Ht & Hm). unfold ide_read_sectors.
  replace (n =? 0) with false by lia.
  rewrite wrap_small by (split; [lia |]; destruct (supports_lba48 d); lia).
  replace (_ <? lba) with false by lia. rewrite andb_false_r.
  destruct (Z.to_nat n) as [|f] eqn:Ef; [lia |]. cbn [ide_read_chunks]. replace (n =? 0) with false by lia.
  replace (256 <? n) with false by lia. rewrite !Z.add_0_r, Z.add_0_l, Ef.
  change (replicate (Z.to_nat (n * io_size k)) 0) with ([] ++ replicate (Z.to_nat (n * io_size k)) 0).
  rewrite ide_read_run_eq; try done; [| lia | rewrite length_replicate; nia]. cbn [obind].
  destruct (dma_read (S f) m k lba) as [bs|]; [| done]. cbn. rewrite Z.sub_diag. by destruct f.
Qed.

Lemma ide_write_run_eq (n : nat) m (k : Z) (d : ide_disk) (lba : Z) (front rest : list Z) :
  0 <= lba -> lba + Z.of_nat n <= ide_total_sectors d ->
  ide_total_sectors d <= (if supports_lba48 d then 2 ^ 48 else 2 ^ 28) ->
  forall idx, 0 <= idx -> Z.of_nat (length front) = idx * io_size k -> Z.of_nat (length rest) = Z.of_nat n * io_size k ->
  ide_write_run n m k d lba idx (front ++ rest) = Ret (dma_write n m k lba rest).
Proof.
  pose proof (io_size_ok k) as Hs. revert m lba front rest.
  induction n as [|n IH]; intros m lba front rest H0 Ht Hm idx Hi Hf Hr; cbn [ide_write_run dma_write]; [done |].
  rewrite ide_address_same by (done || lia).
  replace (_ <? _) with false by (rewrite length_app; nia).
  assert (Es : slice (front ++ rest) (idx * io_size k) (io_size k) = take (Z.to_nat (io_size k)) rest).
  { unfold slice. rewrite drop_app_ge by lia. by replace (_ - _)%nat with 0%nat by lia. }
  rewrite Es. destruct (io_put m k lba _) as [[] m1]; [| done].
  rewrite <- (take_drop (Z.to_nat (io_size k)) rest) at 1. rewrite app_assoc.
  apply IH; try done; try lia; rewrite ?length_app, ?length_take, ?length_drop; nia.
Qed.

Lemma ide_write_ok m (k : Z) (d : ide_disk) (lba n : Z) bs :
  ide_serves d lba n -> Z.of_nat (length bs) = n * io_size k ->
  ide_write_sectors m k d lba n bs =
  Ret (let '(ok, m') := dma_write (Z.to_nat n) m k lba bs in (if ok then io_flush m' k else false, m')).
Proof.
  pose proof (io_size_ok k) as Hs. intros (H0 & Hn & Ht & Hm) Hl. unfold ide_write_sectors.
  replace (n =? 0) with false by lia.
  rewrite wrap_small by (split; [lia |]; destruct (supports_lba48 d); lia).
  replace (_ <? lba) with false by lia. rewrite andb_false_r.
  destruct (Z.to_nat n) as [|f] eqn:Ef; [lia |]. cbn [ide_write_chunks]. replace (n =? 0) with false by lia.
  replace (256 <? n) with false by lia. rewrite !Z.add_0_r, Z.add_0_l, Ef.
  change bs with ([] ++ bs) at 1. rewrite ide_write_run_eq; try done; [| lia | lia]. cbn [obind].
  destruct (dma_write (S f) m k lba bs) as [[] m1]; [| done]. rewrite Z.sub_diag. by destruct f.
Qed.

(** * AHCI transfers that are performed as asked: one sector *)

Lemma byte_sectors_one (k n : Z) : 0 < n <= io_size k -> byte_sectors k n = 1.
Proof.
  intros Hn. pose proof (io_size_ok k) as Hs. unfold byte_sectors.
  rewrite (wrap_small 32 (n + io_size k)), wrap_small by (split; lia).
  symmetry. apply (Z.div_unique _ _ 1 (n - 1)); lia.
Qed.

Lemma ahci_read_ok m (k : Z) (p : ahci_port) (lba n : Z) :
  0 <= lba < 2 ^ 48 -> 0 < n <= io_size k ->
  ahci_port_read m k p lba n = Ret (if port_active p then io_get m k lba else None).
Proof.
  intros Hl Hn. pose proof (io_size_ok k) as Hs. unfold ahci_port_read. destruct (port_active p); [| done]. cbn [negb].
  rewrite byte_sectors_one by done. change (Z.to_nat 1) with 1%nat. cbn [ahci_read_loop].
  change (1 =? 0) with false. change (8 <? 1) with false. replace (DMA_PAGE <? 1 * io_size k) with false by (unfold DMA_PAGE; lia).
  change (Z.to_nat 1) with 1%nat. cbn [dma_read]. rewrite Z.mod_small by lia.
  destruct (io_get m k lba) as [bs|]; [| done]. cbn. by rewrite app_nil_r.
Qed.

Lemma ahci_write_ok m (k : Z) (p : ahci_port) (lba n : Z) bs :
  0 <= lba < 2 ^ 48 -> 0 < n <= io_size k -> io_size k <= Z.of_nat (length bs) ->
  ahci_port_write m k p lba n bs =
  Ret (if port_active p then io_put m k lba (take (Z.to_nat (io_size k)) bs) else (false, m)).
Proof.
  intros Hl Hn Hb. pose proof (io_size_ok k) as Hs. unfold ahci_port_write. destruct (port_active p); [| done]. cbn [negb].
  rewrite byte_sectors_one by done. change (Z.to_nat 1) with 1%nat. cbn [ahci_write_loop].
  change (1 =? 0) with false. change (8 <? 1) with false. rewrite !Z.mul_1_l.
  replace ((DMA_PAGE <? io_size k) || _) with false by (unfold DMA_PAGE; lia).
  change (Z.to_nat 1) with 1%nat. cbn [dma_write]. rewrite Z.mod_small, take_take, Nat.min_id by lia.
  by destruct (io_put m k lba _) as [[] m1].
Qed.

(** * The drivers keep the contract *)

(** The drives found at start-up, by the address of their structure. *)
Variables (ides : gmap Z ide_disk) (ports : gmap Z ahci_port).

Definition driver_read m (k lba n : Z) : outcome (option (list Z)) :=
  match ides !! k, ports !! k with
  | Some d, _ => ide_read_sectors m k d lba n
  | None, Some p => ahci_port_read m k p lba n
  | None, None => Ret None
  end.

Definition driver_write m (k lba n : Z) bs : outcome (bool * M) :=
  match ides !! k, ports !! k with
  | Some d, _ => ide_write_sectors m k d lba n bs
  | None, Some p => ahci_port_write m k p lba n bs
  | None, None => Ret (false, m)
  end.

Definition driver_serves (k lba n : Z) : Prop :=
  match ides !! k, ports !! k with
  | Some d, _ => ide_serves d lba n
  | None, Some _ => n = 1 /\ 0 <= lba < 2 ^ 48
  | None, None => False
  end.

(** A served transfer is a row of single sectors. *)
Lemma driver_read_eq m (k lba n : Z) :
  driver_serves k lba n ->
  exists up : bool, forall m, driver_read m k lba n = Ret (if up then dma_read (Z.to_nat n) m k lba else None).
Proof.
  unfold driver_serves, driver_read. pose proof (io_size_ok k) as Hs. destruct (ides !! k) as [d|].
  - intros Hd. exists true. intros m'. by apply ide_read_ok.
  - destruct (ports !! k) as [p|]; [| done]. intros [-> Hl]. exists (port_active p). intros m'.
    rewrite ahci_read_ok by lia. change (Z.to_nat 1) with 1%nat. cbn [dma_read].
    destruct (port_active p); [| done]. destruct (io_get m' k lba); [| done]. cbn. by rewrite app_nil_r.
Qed.

Lemma driver_write_eq m (k lba n : Z) bs :
  driver_serves k lba n -> Z.of_nat (length bs) = n * io_size k ->
  (exists b m', driver_write m k lba n bs = Ret (b, m')) /\
  forall b m', driver_write m k lba n bs = Ret (b, m') ->
    (b = true -> dma_write (Z.to_nat n) m k lba bs = (true, m') /\
       forall m, driver_read m k lba n = Ret (dma_read (Z.to_nat n) m k lba)) /\
    (m' = m \/ exists c, dma_write (Z.to_nat n) m k lba bs = (c, m')).
Proof.
  unfold driver_serves, driver_write, driver_read. pose proof (io_size_ok k) as Hs. destruct (ides !! k) as [d|].
  - intros Hd Hl. rewrite ide_write_ok by done. destruct (dma_write (Z.to_nat n) m k lba bs) as [ok m1].
    split; [by eexists _, _ |]. intros b m' [= <- <-]. split; [| right; by exists ok].
    destruct ok; [| done]. intros _. split; [done |]. intros m'. by apply ide_read_ok.
  - destruct (ports !! k) as [p|]; [| done]. intros [-> Hl] Hb. rewrite ahci_write_ok by lia.
    change (Z.to_nat 1) with 1%nat. cbn [dma_write]. rewrite take_ge by lia. destruct (port_active p) eqn:Ep.
    + destruct (io_put m k lba bs) as [ok m1]. split; [by eexists _, _ |]. intros b m' [= <- <-].
      split; [| right; by destruct ok; eexists]. intros ->. split; [done |]. intros m'. rewrite ahci_read_ok by lia.
      rewrite Ep. cbn [dma_read]. destruct (io_get m' k lba); [| done]. cbn. by rewrite app_nil_r.
    + split; [by eexists _, _ |]. intros b m' [= <- <-]. split; [done | by left].
Qed.

Lemma driver_serves_range (k lba n : Z) : driver_serves k lba n -> 0 <= lba /\ 0 < n.
Proof.
  unfold driver_serves, ide_serves. destruct (ides !! k), (ports !! k); intros; lia || done.
Qed.

#[refine] Instance drivers_hw : DiskHw M := {
  hw_read := driver_read;
  hw_write := driver_write;
  hw_sector_size := io_size;
  hw_serves := driver_serves
}.
Proof.
  - intros m k lba n Hs. destruct (driver_read_eq m k lba n Hs) as [up E]. rewrite E. by eexists.
  - intros m k lba n bs Hs Hl. by apply driver_write_eq.
  - intros m k lba n bs Hs E. destruct (driver_read_eq m k lba n Hs) as [up E2]. rewrite E2 in E.
    pose proof (driver_serves_range k lba n Hs) as [_ Hn].
    destruct up; [| done]. injection E as E. apply dma_read_length in E. lia.
  - intros m k lba n bs m' Hs Hl E. destruct (driver_write_eq m k lba n bs Hs Hl) as [_ Hw].
    destruct (Hw _ _ E) as [Hok _]. destruct (Hok eq_refl) as [Ed Er]. rewrite Er. f_equal.
    apply (dma_read_write _ _ _ _ _ _ Ed). pose proof (driver_serves_range k lba n Hs). lia.
  - intros m k lba n bs b m' k' lba' n' Hs Hl E Hs' Hd.
    destruct (driver_write_eq m k lba n bs Hs Hl) as [_ Hw]. destruct (Hw _ _ E) as [_ Hc].
    destruct (driver_read_eq m k' lba' n' Hs') as [up Er]. rewrite !Er. destruct up; [| done]. f_equal.
    destruct Hc as [-> | [c Ec]]; [done |]. apply dma_read_ext. intros i Hi.
    pose proof (driver_serves_range k lba n Hs). pose proof (driver_serves_range k' lba' n' Hs').
    apply (dma_write_other _ _ _ _ _ _ _ _ _ Ec). lia.
Defined.

(** * The other transfers *)

(** A run that ends fits the buffer. *)
Lemma ide_read_run_fits (n : nat) m (k : Z) (d : ide_disk) (lba idx : Z) buf buf' :
  0 <= idx -> ide_read_run n m k d lba idx buf = Ret (Some buf') -> n <> O ->
  (idx + Z.of_nat n) * io_size k <= Z.of_nat (length buf) /\ length buf' = length buf.
Proof.
  pose proof (io_size_ok k) as Hs. revert lba idx buf. induction n as [|n IH]; intros lba idx buf Hi E Hn; [done |].
  cbn [ide_read_run] in E. destruct (io_get m k _) as [x|] eqn:Ex; [| done]. pose proof (io_get_length _ _ _ _ Ex) as Hx.
  destruct (Z.ltb_spec (Z.of_nat (length buf)) ((idx + 1) * io_size k)) as [| Hle]; [done |].
  assert (Hsp : length (splice buf (idx * io_size k) x) = length buf) by (apply length_splice; nia).
  destruct n as [|n].
  - cbn in E. injection E as <-. split; [lia | done].
  - destruct (IH (lba + 1) (idx + 1) _ ltac:(lia) E ltac:(done)) as [H1 H2]. rewrite Hsp in *. split; [lia | done].
Qed.

Lemma ide_read_chunks_late (fuel : nat) m (k : Z) (d : ide_disk) (lba passed remaining : Z) buf buf' :
  0 < passed -> 0 < remaining -> Z.of_nat (length buf) = (passed + remaining) * io_size k ->
  ide_read_chunks fuel m k d lba passed passed remaining buf <> Ret (Some buf').
Proof.
  pose proof (io_size_ok k) as Hs. revert lba passed remaining buf.
  induction fuel as [|fuel IH]; intros lba passed remaining buf Hp Hr Hl E; cbn [ide_read_chunks] in E;
    replace (remaining =? 0) with false in E by lia; [done |].
  set (chunk := if 256 <? remaining then 256 else remaining) in *.
  assert (Hc : 0 < chunk <= remaining) by (unfold chunk; destruct (Z.ltb_spec 256 remaining); lia).
  clearbody chunk. apply obind_ret in E as ([b|] & Er & E); [| done].
  destruct (ide_read_run_fits _ _ _ _ _ (passed + passed) _ _ ltac:(lia) Er ltac:(lia)) as [Hfit Hlb].
  destruct (decide (chunk = remaining)) as [-> | Hne]; [nia |].
  eapply IH; [| | | exact E]; lia.
Qed.

(** A read of more than 256 sectors from an IDE disk never succeeds: from the second
    chunk on sector number and buffer advance twice, so the driver reads the wrong sectors
    and, unless the drive reports an error first, writes past the end of the buffer. *)
Theorem ide_read_large m (k : Z) (d : ide_disk) (lba count : Z) bs :
  256 < count -> ide_read_sectors m k d lba count <> Ret (Some bs).
Proof.
  pose proof (io_size_ok k) as Hs. intros Hc E. unfold ide_read_sectors in E. replace (count =? 0) with false in E by lia.
  destruct (_ && _); [done |]. destruct (Z.to_nat count) as [|f]; cbn [ide_read_chunks] in E;
    replace (count =? 0) with false in E by lia; [done |]. replace (256 <? count) with true in E by lia.
  apply obind_ret in E as ([b|] & Er & E); [| done].
  destruct (ide_read_run_fits _ _ _ _ _ (0 + 0) _ _ ltac:(lia) Er ltac:(done)) as [_ Hlb].
  rewrite length_replicate in Hlb. revert E. apply ide_read_chunks_late; lia.
Qed.

(** A read of several sectors from an AHCI port transfers the first one only (the count is
    taken for bytes), and reports success. *)
Theorem ahci_read_short m (k : Z) (p : ahci_port) (lba count : Z) :
  0 <= lba < 2 ^ 48 -> 0 < count <= io_size k ->
  ahci_port_read m k p lba count = Ret (if port_active p then io_get m k lba else None).
Proof. apply ahci_read_ok. Qed.

(** Likewise a write stores the first sector only. *)
Theorem ahci_write_short m (k : Z) (p : ahci_port) (lba count : Z) bs :
  0 <= lba < 2 ^ 48 -> 0 < count <= io_size k -> io_size k <= Z.of_nat (length bs) ->
  ahci_port_write m k p lba count bs =
  Ret (if port_active p then io_put m k lba (take (Z.to_nat (io_size k)) bs) else (false, m)).
Proof. apply ahci_write_ok. Qed.
End drivers.

(** * Drives in memory: sectors of 512 bytes, zero until written *)

Abbreviation media := (gmap (Z * Z) (list Z)).

Definition media_get (m : media) (k a : Z) : option (list Z) := Some (default (replicate 512 0) (m !! (k, a))).

Definition drive_set : Type := { m : media | map_Forall (fun _ s => length s = 512%nat) m }.

Definition blank_drives : drive_set := exist _ ∅ (map_Forall_empty _).

#[export, refine] Instance media_io : SectorIo drive_set := {
  io_size _ := 512;
  io_get m k a := media_get (proj1_sig m) k a;
  io_put m k a bs :=
    match decide (length bs = 512%nat) with
    | left Hl => (true, exist _ (<[(k, a) := bs]> (proj1_sig m)) (map_Forall_insert_2 _ _ _ _ Hl (proj2_sig m)))
    | right _ => (false, m)
    end;
  io_flush _ _ := true
}.
Proof.
  - intros _. lia.
  - intros [m Hm] k a bs E. unfold media_get in E. cbn [proj1_sig] in E. injection E as <-.
    destruct (m !! (k, a)) as [s|] eqn:Es; [| done]. cbn. by rewrite (Hm _ _ Es).
  - intros [m Hm] k a bs m' E Hl. destruct (decide _); [| done]. injection E as <-. unfold media_get. cbn [proj1_sig].
    by rewrite lookup_insert_eq.
  - intros [m Hm] k a bs b m' k' a' E Hne. destruct (decide _); [| by injection E as _ <-]. injection E as _ <-.
    unfold media_get. cbn [proj1_sig]. rewrite lookup_insert_ne; [done |]. intros [= -> ->]. lia.
Defined.

Lemma ide_read_large_witness :
  forall bs, ide_read_sectors (M := drive_set)
    blank_drives 7 (mk_ide 100000 false) 0 300 <> Ret (Some bs).
Proof. intros bs. apply ide_read_large. lia. Defined.

Lemma ahci_read_short_witness :
  ahci_port_read (M := drive_set)
    blank_drives 7 (mk_port true) 10 8 = Ret (Some (replicate 512 0)).
Proof. rewrite ahci_read_short; [reflexivity | lia | change (0 < 8 <= 512); lia]. Defined.

Lemma ahci_write_short_witness :
  exists r, ahci_port_write blank_drives 7 (mk_port true) 10 2 (replicate 1024 1) = Ret r.
Proof.
  eexists. apply ahci_write_short; [lia | change (0 < 2 <= 512); lia | apply Z.leb_le; vm_compute; reflexivity].
Defined.
