(* ===== verification/Blockdev.v ===== *)
(** Block devices, src/drivers/disk/blockdev.c, and the access path through partitions of
    src/kernel/partition.c: the table of devices, and reads and writes that go from a
    device to its handler, for a partition to the disk below it.  The drivers below are the
    class [DiskHw] of DiskDrivers.v. *)

From S2P Require Import Prelude Bytes LibMem LibString Printf NetBuf DiskDrivers.

(** * Data *)

Inductive blockdev_type :=
| BLOCKDEV_TYPE_NONE | BLOCKDEV_TYPE_IDE | BLOCKDEV_TYPE_AHCI | BLOCKDEV_TYPE_RAMDISK | BLOCKDEV_TYPE_NVME.

Inductive blockdev_status :=
| BLOCKDEV_UNINITIALIZED | BLOCKDEV_READY | BLOCKDEV_ERROR | BLOCKDEV_NO_MEDIA.

#[export] Instance blockdev_type_eq_dec : EqDecision blockdev_type.
Proof. solve_decision. Defined.
#[export] Instance blockdev_status_eq_dec : EqDecision blockdev_status.
Proof. solve_decision. Defined.

Definition MAX_BLOCK_DEVS : Z := 64.
Definition BLOCKDEV_NAME_LEN : nat := 32.
Definition SIZEOF_BLOCKDEV : Z := 144.

(** The functions [read_sectors] and [write_sectors] point to, with what [device_data]
    holds for them: a disk of the IDE driver, a port of the AHCI driver, a partition. *)
Inductive handler := NoHandler | IdeHandler (disk : Z) | AhciHandler (port : Z) | PartHandler (part : Z).

(** The fields that decide what an access does and its counters.  [supports_lba48] and the
    channel, drive and port numbers of [device_data] are copied at registration and read
    only by the printing of blockdev_get_info; [flush_cache] is a function that returns 0. *)
Record blockdev := mk_bdev {
  bd_name : list Z;
  bd_type : blockdev_type;
  bd_status : blockdev_status;
  sector_size : Z;
  total_sectors : Z;
  total_bytes : Z;
  bd_handler : handler;
  read_count : Z;
  write_count : Z;
  error_count : Z
}.

Record gpt_guid := mk_guid { data1 : Z; data2 : Z; data3 : Z; data4 : list Z }.

Record partition := mk_part {
  part_name : list Z;
  parent_disk : Z;
  part_index : Z;
  part_type : Z;
  type_guid : gpt_guid;
  start_lba : Z;
  sector_count : Z;
  bootable : bool;
  is_logical : bool;
  is_gpt : bool;
  part_label : list Z
}.

(** The device table, and the partition manager of partition.c; both lists are in the
    order of the [next] pointers, newest first.  The manager's [is_gpt_disk] and
    [disk_guid] are zeroed by partition_init and used nowhere. *)
Record storage (M : Type) := mk_storage {
  hw : M;
  bdevs : gmap Z blockdev;
  blockdev_list : list Z;
  blockdev_count : Z;
  parts : gmap Z partition;
  part_list : list Z;
  part_count : Z
}.
Arguments mk_storage {M}.
Arguments hw {M}.
Arguments bdevs {M}.
Arguments blockdev_list {M}.
Arguments blockdev_count {M}.
Arguments parts {M}.
Arguments part_list {M}.
Arguments part_count {M}.

Section blockdev.
Context {M : Type} `{DiskHw M}.

Definition with_hw (st : storage M) (m : M) : storage M :=
  mk_storage m (bdevs st) (blockdev_list st) (blockdev_count st) (parts st) (part_list st) (part_count st).

Definition with_bdev (st : storage M) (a : Z) (d : blockdev) : storage M :=
  mk_storage (hw st) (<[a := d]> (bdevs st)) (blockdev_list st) (blockdev_count st)
    (parts st) (part_list st) (part_count st).

Definition count_read (d : blockdev) : blockdev :=
  mk_bdev (bd_name d) (bd_type d) (bd_status d) (sector_size d) (total_sectors d) (total_bytes d)
    (bd_handler d) (u64 (read_count d + 1)) (write_count d) (error_count d).
Definition count_write (d : blockdev) : blockdev :=
  mk_bdev (bd_name d) (bd_type d) (bd_status d) (sector_size d) (total_sectors d) (total_bytes d)
    (bd_handler d) (read_count d) (u64 (write_count d + 1)) (error_count d).
Definition count_error (d : blockdev) : blockdev :=
  mk_bdev (bd_name d) (bd_type d) (bd_status d) (sector_size d) (total_sectors d) (total_bytes d)
    (bd_handler d) (read_count d) (write_count d) (u64 (error_count d + 1)).

(** [ide_read_wrapper] and [ahci_read_wrapper]; only the first refuses a count of 0. *)
Definition ide_read_wrapper (st : storage M) (a : Z) (d : blockdev) (disk lba count : Z)
    : outcome (option (list Z) * storage M) :=
  (if count =? 0 then Ret (None, st)
   else if disk =? 0 then Ret (None, st)
   else
     do r <- hw_read (hw st) disk lba count;
     match r with
     | Some bs => Ret (Some bs, with_bdev st a (count_read d))
     | None => Ret (None, with_bdev st a (count_error d))
     end)%out.

Definition ahci_read_wrapper (st : storage M) (a : Z) (d : blockdev) (port lba count : Z)
    : outcome (option (list Z) * storage M) :=
  (if port =? 0 then Ret (None, st)
   else
     do r <- hw_read (hw st) port lba count;
     match r with
     | Some bs => Ret (Some bs, with_bdev st a (count_read d))
     | None => Ret (None, with_bdev st a (count_error d))
     end)%out.

Definition ide_write_wrapper (st : storage M) (a : Z) (d : blockdev) (disk lba count : Z) (bs : list Z)
    : outcome (bool * storage M) :=
  (if count =? 0 then Ret (false, st)
   else if disk =? 0 then Ret (false, st)
   else
     do '(ok, m) <- hw_write (hw st) disk lba count bs;
     let st := with_hw st m in
     Ret (ok, with_bdev st a (if ok : bool then count_write d else count_error d)))%out.

Definition ahci_write_wrapper (st : storage M) (a : Z) (d : blockdev) (port lba count : Z) (bs : list Z)
    : outcome (bool * storage M) :=
  (if port =? 0 then Ret (false, st)
   else
     do '(ok, m) <- hw_write (hw st) port lba count bs;
     let st := with_hw st m in
     Ret (ok, with_bdev st a (if ok : bool then count_write d else count_error d)))%out.

(** [blockdev_read]; [None] is a result other than 0.  Through a partition the call goes
    to the device of the disk; [depth] bounds the number of such steps. *)
Fixpoint blockdev_read (depth : nat) (st : storage M) (dev lba count : Z)
    : outcome (option (list Z) * storage M) :=
  (match depth with
   | O => Crash
   | S depth' =>
       if dev =? 0 then Ret (None, st)
       else
         do d <- of_option (bdevs st !! dev);
         if negb (bool_decide (bd_status d = BLOCKDEV_READY)) then Ret (None, st)
         else if total_sectors d <? u64 (lba + count) then Ret (None, st)
         else match bd_handler d with
              | NoHandler => Ret (None, st)
              | IdeHandler k => ide_read_wrapper st dev d k lba count
              | AhciHandler k => ahci_read_wrapper st dev d k lba count
              | PartHandler p =>
                  if p =? 0 then Ret (None, st)
                  else
                    do pt <- of_option (parts st !! p);
                    if parent_disk pt =? 0 then Ret (None, st)
                    else blockdev_read depth' st (parent_disk pt) (u64 (start_lba pt + lba)) count
              end
   end)%out.

(** [blockdev_write]; the flush after an IDE write does nothing. *)
Fixpoint blockdev_write (depth : nat) (st : storage M) (dev lba count : Z) (bs : list Z)
    : outcome (bool * storage M) :=
  (match depth with
   | O => Crash
   | S depth' =>
       if dev =? 0 then Ret (false, st)
       else
         do d <- of_option (bdevs st !! dev);
         if negb (bool_decide (bd_status d = BLOCKDEV_READY)) then Ret (false, st)
         else if total_sectors d <? u64 (lba + count) then Ret (false, st)
         else match bd_handler d with
              | NoHandler => Ret (false, st)
              | IdeHandler k => ide_write_wrapper st dev d k lba count bs
              | AhciHandler k => ahci_write_wrapper st dev d k lba count bs
              | PartHandler p =>
                  if p =? 0 then Ret (false, st)
                  else
                    do pt <- of_option (parts st !! p);
                    if parent_disk pt =? 0 then Ret (false, st)
                    else blockdev_write depth' st (parent_disk pt) (u64 (start_lba pt + lba)) count bs
              end
   end)%out.

(** [partition_read] and [partition_write] *)
Definition partition_read (depth : nat) (st : storage M) (part lba count : Z)
    : outcome (option (list Z) * storage M) :=
  (if part =? 0 then Ret (None, st)
   else
     do pt <- of_option (parts st !! part);
     if parent_disk pt =? 0 then Ret (None, st)
     else blockdev_read depth st (parent_disk pt) (u64 (start_lba pt + lba)) count)%out.

Definition partition_write (depth : nat) (st : storage M) (part lba count : Z) (bs : list Z)
    : outcome (bool * storage M) :=
  (if part =? 0 then Ret (false, st)
   else
     do pt <- of_option (parts st !! part);
     if parent_disk pt =? 0 then Ret (false, st)
     else blockdev_write depth st (parent_disk pt) (u64 (start_lba pt + lba)) count bs)%out.

(** * The table *)

Definition blockdev_init (st : storage M) : storage M :=
  mk_storage (hw st) (bdevs st) [] 0 (parts st) (part_list st) (part_count st).

Fixpoint find_name (ds : gmap Z blockdev) (l : list Z) (name : list Z) : Z :=
  match l with
  | [] => 0
  | a :: l' => match ds !! a with
               | Some d => if bool_decide (bd_name d = name) then a else find_name ds l' name
               | None => 0
               end
  end.

Definition blockdev_find (st : storage M) (name : list Z) : Z := find_name (bdevs st) (blockdev_list st) name.

Context {S : Type} `{BlockAlloc S}.

(** [blockdev_register]: the address of the new device, 0 for NULL. *)
Definition blockdev_register (s : S) (st : storage M) (name : list Z) (type : blockdev_type)
    : outcome (Z * S * storage M) :=
  (match name with
   | [] => Ret (0, s, st)
   | _ =>
       if MAX_BLOCK_DEVS <=? blockdev_count st then Ret (0, s, st)
       else if negb (blockdev_find st name =? 0) then Ret (0, s, st)
       else
         do '(dev, _, s) <- ba_malloc s SIZEOF_BLOCKDEV;
         if dev =? 0 then Ret (0, s, st)
         else
           let d := mk_bdev (take (BLOCKDEV_NAME_LEN - 1) name) type BLOCKDEV_UNINITIALIZED 0 0 0 NoHandler 0 0 0 in
           Ret (dev, s, mk_storage (hw st) (<[dev := d]> (bdevs st)) (dev :: blockdev_list st)
                          (blockdev_count st + 1) (parts st) (part_list st) (part_count st))
   end)%out.

Definition blockdev_get_list (st : storage M) (max_count : Z) : list Z :=
  if max_count <=? 0 then [] else take (Z.to_nat max_count) (blockdev_list st).

(** The unlinking of [blockdev_unregister]: the first node that is the device. *)
Fixpoint unlink_dev (l : list Z) (dev : Z) : list Z :=
  match l with
  | [] => []
  | a :: l' => if a =? dev then l' else a :: unlink_dev l' dev
  end.

Definition blockdev_unregister (s : S) (st : storage M) (dev : Z) : outcome (S * storage M) :=
  (if dev =? 0 then Ret (s, st)
   else
     let l := unlink_dev (blockdev_list st) dev in
     do s <- ba_free s dev;
     Ret (s, mk_storage (hw st) (delete dev (bdevs st)) l (i32 (blockdev_count st - 1))
               (parts st) (part_list st) (part_count st)))%out.

(** What the IDE and AHCI drivers know of a drive. *)
Record drive_info := mk_drive {
  dr_ptr : Z; dr_present : bool; dr_sector_size : Z; dr_total_sectors : Z
}.

(** The part that [blockdev_register_ide] and [blockdev_register_ahci] share: register a
    device, fill in the geometry and the handler, mark it ready. *)
Definition register_drive (s : S) (st : storage M) (dr : drive_info) (name : list Z)
    (type : blockdev_type) (h : handler) : outcome (S * storage M) :=
  (if (dr_ptr dr =? 0) || negb (dr_present dr) then Ret (s, st)
   else
     do '(dev, s, st) <- blockdev_register s st name type;
     if dev =? 0 then Ret (s, st)
     else
       do d <- of_option (bdevs st !! dev);
       Ret (s, with_bdev st dev
                 (mk_bdev (bd_name d) (bd_type d) BLOCKDEV_READY (dr_sector_size dr) (dr_total_sectors dr)
                    (u64 (dr_total_sectors dr * dr_sector_size dr)) h 0 0 0)))%out.

Definition blockdev_register_ide (s : S) (st : storage M) (dr : drive_info) (name : list Z) : outcome (S * storage M) :=
  register_drive s st dr name BLOCKDEV_TYPE_IDE (IdeHandler (dr_ptr dr)).

(** "sata_%d" *)
Definition blockdev_register_ahci (s : S) (st : storage M) (dr : drive_info) (port_num : Z) : outcome (S * storage M) :=
  register_drive s st dr ([115; 97; 116; 97; 95] ++ number_text 10 port_num false) BLOCKDEV_TYPE_AHCI (AhciHandler (dr_ptr dr)).

(** The loops of [blockdev_scan_all_disks]: "ide_%d" counts the drives that are there,
    the AHCI names are the port numbers. *)
Fixpoint scan_ide (s : S) (st : storage M) (drs : list drive_info) (disk_counter : Z) : outcome (S * storage M) :=
  (match drs with
   | [] => Ret (s, st)
   | dr :: drs' =>
       if dr_present dr then
         do '(s, st) <- blockdev_register_ide s st dr ([105; 100; 101; 95] ++ number_text 10 disk_counter false);
         scan_ide s st drs' (disk_counter + 1)
       else scan_ide s st drs' disk_counter
   end)%out.

Fixpoint scan_ahci (s : S) (st : storage M) (drs : list drive_info) (i : Z) : outcome (S * storage M) :=
  (match drs with
   | [] => Ret (s, st)
   | dr :: drs' =>
       do '(s, st) <- blockdev_register_ahci s st dr i;
       scan_ahci s st drs' (i + 1)
   end)%out.

Definition blockdev_scan_all_disks (s : S) (st : storage M) (ide ahci : list drive_info) (type : Z)
    : outcome (S * storage M) :=
  (do '(s, st) <- (if type =? 1 then scan_ide s st ide 1 else Ret (s, st));
   if type =? 2 then scan_ahci s st ahci 0 else Ret (s, st))%out.
End blockdev.

(** * Access *)

Section access.
Context {M : Type} `{DiskHw M}.

(** A device that is a whole disk, of the IDE or the AHCI driver. *)
Definition is_disk (d : blockdev) (k : Z) : Prop :=
  bd_status d = BLOCKDEV_READY /\ k <> 0 /\ (bd_handler d = IdeHandler k \/ bd_handler d = AhciHandler k).

Lemma disk_write_ok (st st' : storage M) (n : nat) (dev k lba count : Z) (d : blockdev) (bs : list Z) :
  dev <> 0 -> bdevs st !! dev = Some d -> is_disk d k ->
  blockdev_write (S n) st dev lba count bs = Ret (true, st') ->
  exists m, hw_write (hw st) k lba count bs = Ret (true, m) /\
    u64 (lba + count) <= total_sectors d /\ st' = with_bdev (with_hw st m) dev (count_write d).
Proof.
  intros Hd Hl (Hs & Hk & Hh) E. cbn [blockdev_write] in E. replace (dev =? 0) with false in E by lia.
  rewrite Hl in E. cbn [of_option obind] in E. rewrite bool_decide_eq_true_2 in E by done. cbn [negb] in E.
  destruct (Z.ltb_spec (total_sectors d) (u64 (lba + count))); [done |].
  destruct Hh as [Hh | Hh]; rewrite Hh in E; unfold ide_write_wrapper, ahci_write_wrapper in E;
    [destruct (count =? 0); [done |] |]; replace (k =? 0) with false in E by lia;
    apply obind_ret in E as ([ok m] & Em & E); injection E as -> <-; by exists m.
Qed.

Lemma disk_read_ok (st : storage M) (n : nat) (dev k lba count : Z) (d : blockdev) (bs : list Z) :
  dev <> 0 -> bdevs st !! dev = Some d -> is_disk d k -> count <> 0 ->
  u64 (lba + count) <= total_sectors d -> hw_read (hw st) k lba count = Ret (Some bs) ->
  blockdev_read (S n) st dev lba count = Ret (Some bs, with_bdev st dev (count_read d)).
Proof.
  intros Hd Hl (Hs & Hk & Hh) Hc Hb E. cbn [blockdev_read]. replace (dev =? 0) with false by lia.
  rewrite Hl. cbn [of_option obind]. rewrite bool_decide_eq_true_2 by done. cbn [negb].
  replace (total_sectors d <? u64 (lba + count)) with false by lia.
  destruct Hh as [-> | ->]; unfold ide_read_wrapper, ahci_read_wrapper; rewrite ?E;
    [replace (count =? 0) with false by lia |]; by replace (k =? 0) with false by lia.
Qed.

(** A device on a partition of a disk. *)
Definition is_partition (st : storage M) (d : blockdev) (pt : partition) (disk : blockdev) (k : Z) : Prop :=
  bd_status d = BLOCKDEV_READY /\ (exists p, p <> 0 /\ bd_handler d = PartHandler p /\ parts st !! p = Some pt) /\
  total_sectors d = sector_count pt /\ parent_disk pt <> 0 /\
  bdevs st !! parent_disk pt = Some disk /\ is_disk disk k /\
  0 <= start_lba pt /\ start_lba pt + sector_count pt <= total_sectors disk < 2 ^ 64.

Lemma part_write_step (st : storage M) (n : nat) (dev k lba count : Z) (d disk : blockdev) (pt : partition) (bs : list Z) :
  dev <> 0 -> bdevs st !! dev = Some d -> is_partition st d pt disk k ->
  blockdev_write (S n) st dev lba count bs =
  if sector_count pt <? u64 (lba + count) then Ret (false, st)
  else blockdev_write n st (parent_disk pt) (u64 (start_lba pt + lba)) count bs.
Proof.
  intros Hd Hl (Hs & (p & Hp & Hh & Hpt) & Ht & Hpar & _). cbn [blockdev_write]. replace (dev =? 0) with false by lia.
  rewrite Hl. cbn [of_option obind]. rewrite bool_decide_eq_true_2 by done. cbn [negb]. rewrite Ht, Hh, Hpt.
  replace (p =? 0) with false by lia. cbn [of_option obind]. by replace (parent_disk pt =? 0) with false by lia.
Qed.

Lemma part_read_step (st : storage M) (n : nat) (dev k lba count : Z) (d disk : blockdev) (pt : partition) :
  dev <> 0 -> bdevs st !! dev = Some d -> is_partition st d pt disk k ->
  blockdev_read (S n) st dev lba count =
  if sector_count pt <? u64 (lba + count) then Ret (None, st)
  else blockdev_read n st (parent_disk pt) (u64 (start_lba pt + lba)) count.
Proof.
  intros Hd Hl (Hs & (p & Hp & Hh & Hpt) & Ht & Hpar & _). cbn [blockdev_read]. replace (dev =? 0) with false by lia.
  rewrite Hl. cbn [of_option obind]. rewrite bool_decide_eq_true_2 by done. cbn [negb]. rewrite Ht, Hh, Hpt.
  replace (p =? 0) with false by lia. cbn [of_option obind]. by replace (parent_disk pt =? 0) with false by lia.
Qed.

(** C13: a write through the device of a partition goes to the driver as one request for
    sectors of the disk inside the partition (unless the end of the request passes 2^64);
    when that is a transfer the driver serves, the disk reads the same everywhere outside
    the partition, and what was written reads back through the same device. *)
Theorem partition_write_isolated (st st' : storage M) (dev k lba count : Z) (d disk : blockdev) (pt : partition) (bs : list Z) :
  dev <> 0 -> bdevs st !! dev = Some d -> is_partition st d pt disk k -> parent_disk pt <> dev ->
  0 <= lba -> 0 < count -> lba + count < 2 ^ 64 ->
  blockdev_write 2 st dev lba count bs = Ret (true, st') ->
  hw_write (hw st) k (start_lba pt + lba) count bs = Ret (true, hw st') /\
  start_lba pt + lba + count <= start_lba pt + sector_count pt /\
  (hw_serves k (start_lba pt + lba) count -> Z.of_nat (length bs) = count * hw_sector_size k ->
     (forall k' a n, hw_serves k' a n -> k' <> k \/ a + n <= start_lba pt \/ start_lba pt + sector_count pt <= a ->
        hw_read (hw st') k' a n = hw_read (hw st) k' a n) /\
     exists st'', blockdev_read 2 st' dev lba count = Ret (Some bs, st'')).
Proof.
  intros Hd Hl Hp Hne H0 Hc Hw E. pose proof Hp as (Hs & (p & Hp0 & Hh & Hpt) & Ht & Hpar & Hdisk & Hk & Hst & Hend).
  rewrite (part_write_step st 1 dev k lba count d disk pt bs Hd Hl Hp), wrap_small in E by (split; lia).
  destruct (Z.ltb_spec (sector_count pt) (lba + count)) as [Hgt | Hle]; [done |].
  rewrite wrap_small in E by (split; lia).
  destruct (disk_write_ok _ _ _ _ _ _ _ _ _ Hpar Hdisk Hk E) as (m & Em & Hb & ->).
  split; [done |]. split; [lia |]. intros Hsv Hlen. split.
  - intros k' a n Hsv' Ha. cbn. apply (hw_read_write_other _ _ _ _ _ _ _ _ _ _ Hsv Hlen Em); [done | lia].
  - assert (Hl' : bdevs (with_bdev (with_hw st m) (parent_disk pt) (count_write disk)) !! dev = Some d).
    { cbn. by rewrite lookup_insert_ne. }
    assert (Hd' : bdevs (with_bdev (with_hw st m) (parent_disk pt) (count_write disk)) !! parent_disk pt = Some (count_write disk)).
    { cbn. by rewrite lookup_insert_eq. }
    assert (Hp' : is_partition (with_bdev (with_hw st m) (parent_disk pt) (count_write disk)) d pt (count_write disk) k).
    { unfold is_partition. split_and!; try done; [by exists p | apply Hend | apply Hend]. }
    rewrite (part_read_step _ 1 dev k lba count d (count_write disk) pt Hd Hl' Hp').
    rewrite wrap_small by (split; lia). replace (sector_count pt <? lba + count) with false by lia.
    rewrite wrap_small by (split; lia). eexists. apply (disk_read_ok _ _ _ k); [done | done | done | lia | done |].
    cbn. by apply (hw_read_write _ _ _ _ _ _ Hsv Hlen Em).
Qed.

(** The bounds check adds the sector number and the count in 64 bits, so a request
    that passes 2^64 slips through it: the last sector number reads the sector in front
    of the partition. *)
Theorem partition_read_escapes (st : storage M) (dev k : Z) (d disk : blockdev) (pt : partition) (bs : list Z) :
  dev <> 0 -> bdevs st !! dev = Some d -> is_partition st d pt disk k ->
  0 < start_lba pt -> 0 <= sector_count pt -> hw_read (hw st) k (start_lba pt - 1) 1 = Ret (Some bs) ->
  exists st', blockdev_read 2 st dev (2 ^ 64 - 1) 1 = Ret (Some bs, st').
Proof.
  intros Hd Hl Hp Hst Hcnt E. pose proof Hp as (_ & _ & _ & Hpar & Hdisk & Hk & _ & Hend).
  rewrite (part_read_step st 1 dev k (2 ^ 64 - 1) 1 d disk pt Hd Hl Hp).
  change (u64 (2 ^ 64 - 1 + 1)) with 0. replace (sector_count pt <? 0) with false by lia.
  replace (u64 (start_lba pt + (2 ^ 64 - 1))) with (start_lba pt - 1).
  - eexists. apply (disk_read_ok _ _ _ k); [done | done | done | lia | | done].
    rewrite wrap_small by (split; lia). lia.
  - unfold wrap. replace (start_lba pt + (2 ^ 64 - 1)) with (start_lba pt - 1 + 1 * 2 ^ 64) by lia.
    rewrite Z_mod_plus_full, Z.mod_small; lia.
Qed.
End access.

(** * A memory disk *)

(** Sectors of 512 bytes, one disk after the other, no errors. *)
Definition ram_at (k lba : Z) : Z := k * 2 ^ 80 + lba * 512.

Definition ram_read (m : Z -> Z) (a n : Z) : list Z := (fun i => m (a + Z.of_nat i)) <$> seq 0 (Z.to_nat n).

Definition ram_write (m : Z -> Z) (a : Z) (bs : list Z) : Z -> Z :=
  fun b => if (a <=? b) && (b <? a + Z.of_nat (length bs)) then get bs (b - a) else m b.

Definition in_ram (lba n : Z) : bool := (0 <=? lba) && (0 <=? n) && (lba + n <? 2 ^ 70).

Lemma ram_read_write (m : Z -> Z) (a : Z) (bs : list Z) (n : Z) :
  Z.of_nat (length bs) = n -> ram_read (ram_write m a bs) a n = bs.
Proof.
  intros Hn. unfold ram_read. replace (Z.to_nat n) with (length bs) by lia.
  apply list_eq. intros i. rewrite list_lookup_fmap.
  destruct (decide (i < length bs)%nat) as [Hi | Hi].
  - rewrite lookup_seq_lt by done. cbn. unfold ram_write.
    replace ((a <=? _) && _) with true by lia. replace (a + Z.of_nat i - a) with (Z.of_nat i) by lia.
    pose proof (get_lookup bs (Z.of_nat i) ltac:(lia)) as E. rewrite Nat2Z.id in E. done.
  - rewrite !lookup_ge_None_2 by (rewrite ?length_seq; lia). done.
Qed.

Lemma ram_read_ext (m m' : Z -> Z) (a n : Z) :
  (forall i, a <= i < a + n -> m i = m' i) -> ram_read m a n = ram_read m' a n.
Proof.
  intros Hm. unfold ram_read. apply list_fmap_ext. intros i x Hx. apply lookup_seq in Hx as [-> Hi]. apply Hm. lia.
Qed.

#[export, refine] Instance ram_hw : DiskHw (Z -> Z) := {
  hw_read m k lba n := Ret (if in_ram lba n then Some (ram_read m (ram_at k lba) (n * 512)) else None);
  hw_write m k lba n bs :=
    Ret (if in_ram lba n && (Z.of_nat (length bs) =? n * 512) then (true, ram_write m (ram_at k lba) bs) else (false, m));
  hw_sector_size _ := 512;
  hw_serves _ lba n := in_ram lba n = true
}.
Proof.
  - intros m k lba n _. by eexists.
  - intros m k lba n bs Hn Hl. rewrite Hn. destruct (_ =? _); by eexists _, _.
  - intros m k lba n bs Hn E. rewrite Hn in E. injection E as <-.
    unfold ram_read. rewrite length_fmap, length_seq. unfold in_ram in Hn. lia.
  - intros m k lba n bs m' Hn Hl E. rewrite Hn in *. cbn [andb] in E.
    replace (_ =? _) with true in E by lia. injection E as <-. f_equal. f_equal. by apply ram_read_write.
  - intros m k lba n bs b m' k' lba' n' Hn Hl E Hn' Hd. rewrite Hn in E. rewrite Hn'. cbn [andb] in E.
    replace (_ =? _) with true in E by lia. injection E as <- <-.
    do 2 f_equal. unfold in_ram in Hn, Hn'. apply ram_read_ext. intros i Hi.
    unfold ram_write, ram_at in *. change (2 ^ 80) with (2 ^ 70 * 1024) in *.
    replace ((_ <=? i) && _) with false; [done |]. symmetry. apply andb_false_iff.
    destruct (Z.ltb_spec i (k * (2 ^ 70 * 1024) + lba * 512 + Z.of_nat (length bs))); [left | by right].
    apply Z.leb_gt. nia.
Defined.

(** Disk 7 of 1000 sectors at address 4096; a partition of 100 sectors from sector 63,
    and its device at 8192. *)
Definition demo_disk : blockdev :=
  mk_bdev [105; 100; 101; 95; 49] BLOCKDEV_TYPE_IDE BLOCKDEV_READY 512 1000 512000 (IdeHandler 7) 0 0 0.
Definition demo_part : partition :=
  mk_part [105; 100; 101; 95; 49; 58; 49] 4096 1 12 (mk_guid 0 0 0 []) 63 100 false false false [].
Definition demo_part_dev : blockdev :=
  mk_bdev (part_name demo_part) BLOCKDEV_TYPE_NONE BLOCKDEV_READY 512 100 51200 (PartHandler 12288) 0 0 0.
Definition demo_storage : storage (Z -> Z) :=
  mk_storage (fun a => a mod 251) (<[8192 := demo_part_dev]> {[ 4096 := demo_disk ]}) [8192; 4096] 2
    {[ 12288 := demo_part ]} [12288] 1.

Lemma demo_is_partition : is_partition demo_storage demo_part_dev demo_part demo_disk 7.
Proof. unfold is_partition, is_disk. split_and!; try done; [by exists 12288 | by left]. Qed.

(** The same table over the IDE driver, with drive 7 behind it. *)
Definition demo_drives : gmap Z ide_disk := {[ 7 := mk_ide 1000 false ]}.

Definition demo_ide : DiskHw drive_set := drivers_hw demo_drives ∅.

Definition demo_ide_storage : storage drive_set :=
  mk_storage blank_drives (<[8192 := demo_part_dev]> {[ 4096 := demo_disk ]}) [8192; 4096] 2
    {[ 12288 := demo_part ]} [12288] 1.

Lemma demo_ide_partition : is_partition demo_ide_storage demo_part_dev demo_part demo_disk 7.
Proof. unfold is_partition, is_disk. split_and!; try done; [by exists 12288 | by left]. Qed.

Lemma demo_ide_serves : forall a, 0 <= a < 1000 -> hw_serves (DiskHw := demo_ide) 7 a 1.
Proof. intros a Ha. change (ide_serves (mk_ide 1000 false) a 1). unfold ide_serves. cbn. lia. Qed.

Lemma partition_write_isolated_witness :
  exists st', blockdev_write (H := demo_ide) 2 demo_ide_storage 8192 5 1 (replicate 512 9) = Ret (true, st') /\
    hw_read (DiskHw := demo_ide) (hw st') 7 62 1 = hw_read (DiskHw := demo_ide) (hw demo_ide_storage) 7 62 1 /\
    exists st'', blockdev_read (H := demo_ide) 2 st' 8192 5 1 = Ret (Some (replicate 512 9), st'').
Proof.
  assert (Hok : match blockdev_write (H := demo_ide) 2 demo_ide_storage 8192 5 1 (replicate 512 9) with
                | Ret (ok, _) => ok | _ => false end = true) by (vm_compute; reflexivity).
  destruct (blockdev_write (H := demo_ide) 2 demo_ide_storage 8192 5 1 (replicate 512 9)) as [[ok st'] | |] eqn:E;
    [| discriminate Hok | discriminate Hok].
  rewrite Hok in E. exists st'. split; [rewrite Hok; reflexivity |].
  destruct (partition_write_isolated (H := demo_ide) demo_ide_storage st' 8192 7 5 1 demo_part_dev demo_disk demo_part (replicate 512 9)
              ltac:(lia) eq_refl demo_ide_partition ltac:(done) ltac:(lia) ltac:(lia) ltac:(lia) E) as (_ & _ & Hk).
  destruct (Hk (demo_ide_serves (63 + 5) ltac:(lia)) eq_refl) as [Ho Hr].
  split; [apply Ho; [apply demo_ide_serves; lia | right; left; cbn; lia] | exact Hr].
Defined.

Lemma partition_read_escapes_witness :
  exists bs st', blockdev_read 2 demo_storage 8192 (2 ^ 64 - 1) 1 = Ret (Some bs, st').
Proof.
  eexists. apply (partition_read_escapes demo_storage 8192 7 demo_part_dev demo_disk demo_part);
    [lia | reflexivity | exact demo_is_partition | done | done | reflexivity].
Defined.
