(* ===== verification/SectorDev.v ===== *)
(** What a file system relies on of the block device below it: a class of operations with
    their laws on the bytes the device holds.  The block devices of Blockdev.v, whole disks
    and partitions alike, are an instance when their disk works; a disk image is another. *)

From S2P Require Import Prelude Bytes LibMem LibString Printf NetBuf DiskDrivers Blockdev.

(** [sd_holds d l]: the device is ready, has sectors of 512 bytes, answers every request
    inside it, and its sectors hold the bytes [l].  [None] and [false] are the results
    other than 0 of [blockdev_read] and [blockdev_write]. *)
Class SectorDev (D : Type) := {
  sd_read : D -> Z -> Z -> outcome (option (list Z) * D);
  sd_write : D -> Z -> Z -> list Z -> outcome (bool * D);
  sd_ready : D -> bool;
  sd_sector_size : D -> Z;
  sd_total : D -> Z;
  sd_holds : D -> list Z -> Prop;
  sd_holds_ok d l :
    sd_holds d l -> sd_ready d = true /\ sd_sector_size d = 512 /\
    Z.of_nat (length l) = 512 * sd_total d /\ sd_total d < 2 ^ 63;
  sd_read_ok d l lba n :
    sd_holds d l -> 0 <= lba -> 0 < n -> lba + n <= sd_total d ->
    exists d', sd_read d lba n = Ret (Some (slice l (lba * 512) (n * 512)), d') /\ sd_holds d' l;
  sd_read_beyond d l lba n :
    sd_holds d l -> 0 <= lba -> 0 <= n -> sd_total d < lba + n < 2 ^ 64 -> sd_read d lba n = Ret (None, d);
  sd_write_ok d l lba n bs :
    sd_holds d l -> 0 <= lba -> 0 < n -> lba + n <= sd_total d -> Z.of_nat (length bs) = n * 512 ->
    exists d', sd_write d lba n bs = Ret (true, d') /\ sd_holds d' (splice l (lba * 512) bs);
  sd_write_beyond d l lba n bs :
    sd_holds d l -> 0 <= lba -> 0 <= n -> sd_total d < lba + n < 2 ^ 64 -> sd_write d lba n bs = Ret (false, d)
}.

Section steps.
Context {D : Type} `{SectorDev D}.

Lemma write_step (d : D) (l : list Z) (total lba n : Z) (bs : list Z) :
  sd_holds d l -> sd_total d = total -> 0 <= lba -> 0 < n -> lba + n <= total -> Z.of_nat (length bs) = n * 512 ->
  exists d', sd_write d lba n bs = Ret (true, d') /\ sd_holds d' (splice l (lba * 512) bs) /\ sd_total d' = total.
Proof.
  intros Hh <- H1 H2 H3 H4. destruct (sd_write_ok d l lba n bs Hh H1 H2 H3 H4) as (d' & E & Hh').
  exists d'. split; [done |]. split; [done |].
  destruct (sd_holds_ok d l Hh) as (_ & _ & E1 & _). destruct (sd_holds_ok _ _ Hh') as (_ & _ & E2 & _).
  rewrite length_splice in E2; lia.
Qed.

Lemma same_total (d d' : D) (l : list Z) : sd_holds d l -> sd_holds d' l -> sd_total d' = sd_total d.
Proof.
  intros H1 H2. destruct (sd_holds_ok d l H1) as (_ & _ & E1 & _). destruct (sd_holds_ok d' l H2) as (_ & _ & E2 & _). lia.
Qed.

End steps.

(** * A disk image *)

Definition image_sectors (l : list Z) : Z := Z.of_nat (length l) / 512.

#[export, refine] Instance image_dev : SectorDev (list Z) := {
  sd_read l lba n := Ret (if image_sectors l <? lba + n then None else Some (slice l (lba * 512) (n * 512)), l);
  sd_write l lba n bs := Ret (if image_sectors l <? lba + n then (false, l) else (true, splice l (lba * 512) bs));
  sd_ready _ := true;
  sd_sector_size _ := 512;
  sd_total := image_sectors;
  sd_holds d l := d = l /\ (Z.of_nat (length l)) mod 512 = 0 /\ Z.of_nat (length l) < 2 ^ 63
}.
Proof.
  - intros d l (-> & H1 & H2). unfold image_sectors. split_and!; [done | done | dlia | dlia].
  - intros d l lba n (-> & H1 & H2) H3 H4 H5. replace (image_sectors l <? lba + n) with false by lia. by eexists.
  - intros d l lba n (-> & H1 & H2) H3 H4 H5. by replace (image_sectors l <? lba + n) with true by lia.
  - intros d l lba n bs (-> & H1 & H2) H3 H4 H5 H6. replace (image_sectors l <? lba + n) with false by lia.
    unfold image_sectors in H5. eexists. split; [done |].
    rewrite length_splice by dlia. done.
  - intros d l lba n bs (-> & H1 & H2) H3 H4 H5. by replace (image_sectors l <? lba + n) with true by lia.
Defined.

(** * Block devices *)

(** A disk that works: its driver serves every request inside it, the requests succeed,
    and a read of several sectors is the reads of its parts, one after the other.  Of the
    drivers of DiskDrivers.v the IDE driver serves requests of up to 256 sectors, the AHCI
    driver requests of one. *)
Class WorkingDisk (M : Type) `{DiskHw M} := {
  wd_ok : M -> Z -> Z -> Prop;
  wd_serves m k n lba c : wd_ok m k n -> 0 <= lba -> 0 < c -> lba + c <= n -> hw_serves k lba c;
  wd_read m k n lba c :
    wd_ok m k n -> 0 <= lba -> 0 < c -> lba + c <= n -> exists bs, hw_read m k lba c = Ret (Some bs);
  wd_write m k n lba c bs :
    wd_ok m k n -> 0 <= lba -> 0 < c -> lba + c <= n -> Z.of_nat (length bs) = c * hw_sector_size k ->
    exists m', hw_write m k lba c bs = Ret (true, m') /\ wd_ok m' k n;
  wd_split m k n lba a b x y :
    wd_ok m k n -> 0 <= lba -> 0 < a -> 0 < b -> lba + a + b <= n ->
    hw_read m k lba a = Ret (Some x) -> hw_read m k (lba + a) b = Ret (Some y) ->
    hw_read m k lba (a + b) = Ret (Some (x ++ y))
}.

Section handle.
Context {M : Type} `{WorkingDisk M}.

(** A device of the table, by its address. *)
Record bdev_handle := mk_handle { bh_st : storage M; bh_dev : Z }.

(** The device is the disk [k] itself, or a partition of it from sector [off]; [n] is the
    size of the device and [nd] that of the disk. *)
Definition backed (st : storage M) (dev k off n nd : Z) : Prop :=
  dev <> 0 /\ exists d, bdevs st !! dev = Some d /\ total_sectors d = n /\ sector_size d = 512 /\
    0 <= off /\ off + n <= nd < 2 ^ 63 /\
    ((is_disk d k /\ off = 0) \/
     exists pt disk, is_partition st d pt disk k /\ parent_disk pt <> dev /\ off = start_lba pt /\ total_sectors disk = nd).

Lemma is_disk_same (d d' : blockdev) (k : Z) :
  bd_status d' = bd_status d -> bd_handler d' = bd_handler d -> is_disk d k -> is_disk d' k.
Proof. unfold is_disk. intros -> ->. done. Qed.

(** An access only changes the content and the counters of the disk. *)
Lemma backed_with (st : storage M) (dev a k off n nd : Z) (m : M) (e e' : blockdev) :
  backed st dev k off n nd -> bdevs st !! a = Some e ->
  bd_status e' = bd_status e -> bd_handler e' = bd_handler e -> total_sectors e' = total_sectors e ->
  sector_size e' = sector_size e ->
  backed (with_bdev (with_hw st m) a e') dev k off n nd.
Proof.
  intros (Hd & d & Hl & Hn & Hss & Ho & Hb & Hc) He E1 E2 E3 E4. split; [done |].
  destruct Hc as [[Hk ->] | (pt & disk & Hp & Hne & -> & Hnd)].
  - destruct (decide (a = dev)) as [-> | Hx].
    + replace e with d in * by congruence. exists e'. cbn. rewrite lookup_insert_eq. split_and!; try congruence; try lia.
      left. split; [| done]. by apply (is_disk_same d).
    + exists d. cbn. rewrite lookup_insert_ne by done. split_and!; try done; try lia. by left.
  - pose proof Hp as (Hs & Hh & Ht & Hpar & Hdisk & Hk & Hst & Hend).
    exists (if decide (a = dev) then e' else d). cbn. destruct (decide (a = dev)) as [-> | Hx].
    + replace e with d in * by congruence. rewrite lookup_insert_eq. split_and!; try congruence; try lia.
      right. exists pt, disk. split; [| done]. destruct Hh as (p & Hp0 & Hh & Hpt). unfold is_partition. cbn.
      rewrite lookup_insert_ne by done. split_and!; try done; try congruence; try lia. exists p. split_and!; congruence.
    + rewrite lookup_insert_ne by done. split_and!; try done; try lia. right.
      exists pt, (if decide (a = parent_disk pt) then e' else disk). destruct (decide (a = parent_disk pt)) as [-> | Hy].
      * replace e with disk in * by congruence. split_and!; try done; [| congruence].
        unfold is_partition. cbn. rewrite lookup_insert_eq. split_and!; try done; try congruence; try lia.
        by apply (is_disk_same disk).
      * split_and!; try done. unfold is_partition. cbn. by rewrite lookup_insert_ne.
Qed.

Lemma backed_read (st : storage M) (dev k off n nd lba c : Z) (bs : list Z) :
  backed st dev k off n nd -> 0 <= lba -> 0 < c -> lba + c <= n -> hw_read (hw st) k (off + lba) c = Ret (Some bs) ->
  exists st', blockdev_read 2 st dev lba c = Ret (Some bs, st') /\ hw st' = hw st /\ backed st' dev k off n nd.
Proof.
  intros Hb H1 H2 H3 E. pose proof Hb as (Hd & d & Hl & Hn & Hss & Ho & Hbd & [[Hk ->] | (pt & disk & Hp & Hne & -> & Hnd)]).
  - exists (with_bdev st dev (count_read d)). split_and!; [| done |].
    + apply (disk_read_ok st 1 dev k); try done; try lia. rewrite wrap_small by (split; lia). lia.
    + by apply (backed_with st dev dev k 0 n nd (hw st) d).
  - pose proof Hp as (Hs & Hh & Ht & Hpar & Hdisk & Hk & Hst & Hend).
    exists (with_bdev st (parent_disk pt) (count_read disk)). split_and!; [| done |].
    + rewrite (part_read_step st 1 dev k lba c d disk pt Hd Hl Hp), !wrap_small by (split; lia).
      replace (sector_count pt <? lba + c) with false by lia.
      apply (disk_read_ok st 0 (parent_disk pt) k); try done; try lia. rewrite wrap_small by (split; lia). lia.
    + by apply (backed_with st dev (parent_disk pt) k (start_lba pt) n nd (hw st) disk).
Qed.

Lemma disk_write_done (st : storage M) (n : nat) (dev k lba count : Z) (d : blockdev) (bs : list Z) (m : M) :
  dev <> 0 -> bdevs st !! dev = Some d -> is_disk d k -> count <> 0 ->
  u64 (lba + count) <= total_sectors d -> hw_write (hw st) k lba count bs = Ret (true, m) ->
  blockdev_write (S n) st dev lba count bs = Ret (true, with_bdev (with_hw st m) dev (count_write d)).
Proof.
  intros Hd Hl (Hs & Hk & Hh) Hc Hb E. cbn [blockdev_write]. replace (dev =? 0) with false by lia.
  rewrite Hl. cbn [of_option obind]. rewrite bool_decide_eq_true_2 by done. cbn [negb].
  replace (total_sectors d <? u64 (lba + count)) with false by lia.
  destruct Hh as [-> | ->]; unfold ide_write_wrapper, ahci_write_wrapper; rewrite ?E;
    [replace (count =? 0) with false by lia |]; by replace (k =? 0) with false by lia.
Qed.

Lemma backed_write (st : storage M) (dev k off n nd lba c : Z) (bs : list Z) (m : M) :
  backed st dev k off n nd -> 0 <= lba -> 0 < c -> lba + c <= n -> hw_write (hw st) k (off + lba) c bs = Ret (true, m) ->
  exists st', blockdev_write 2 st dev lba c bs = Ret (true, st') /\ hw st' = m /\ backed st' dev k off n nd.
Proof.
  intros Hb H1 H2 H3 E. pose proof Hb as (Hd & d & Hl & Hn & Hss & Ho & Hbd & [[Hk ->] | (pt & disk & Hp & Hne & -> & Hnd)]).
  - exists (with_bdev (with_hw st m) dev (count_write d)). split_and!; [| done |].
    + apply (disk_write_done st 1 dev k); try done; try lia. rewrite wrap_small by (split; lia). lia.
    + by apply (backed_with st dev dev k 0 n nd m d).
  - pose proof Hp as (Hs & Hh & Ht & Hpar & Hdisk & Hk & Hst & Hend).
    exists (with_bdev (with_hw st m) (parent_disk pt) (count_write disk)). split_and!; [| done |].
    + rewrite (part_write_step st 1 dev k lba c d disk pt bs Hd Hl Hp), !wrap_small by (split; lia).
      replace (sector_count pt <? lba + c) with false by lia.
      apply (disk_write_done st 0 (parent_disk pt) k); try done; try lia. rewrite wrap_small by (split; lia). lia.
    + by apply (backed_with st dev (parent_disk pt) k (start_lba pt) n nd m disk).
Qed.

(** A part of what a read returns is the read of that part. *)
Lemma read_part (m : M) (k nd off n lba c : Z) (l : list Z) :
  wd_ok m k nd -> hw_sector_size k = 512 -> 0 <= off -> off + n <= nd -> 0 <= lba -> 0 < c -> lba + c <= n ->
  hw_read m k off n = Ret (Some l) -> hw_read m k (off + lba) c = Ret (Some (slice l (lba * 512) (c * 512))).
Proof.
  intros Hw Hss H1 H2 H3 H4 H5 E.
  assert (Hlen : forall a x r, 0 <= a -> 0 < x -> a + x <= nd -> hw_read m k a x = Ret (Some r) -> Z.of_nat (length r) = x * 512).
  { intros a x r Ha Hx Hax Er. rewrite <- Hss. apply (hw_read_length m k a x r); [| done]. by apply (wd_serves m k nd). }
  assert (Hhead : forall a x, 0 <= a -> a + x <= nd -> 0 < c -> c <= x -> forall r, hw_read m k a x = Ret (Some r) ->
            hw_read m k a c = Ret (Some (slice r 0 (c * 512)))).
  { intros a x Ha Hx _ Hcx r Er. destruct (decide (c = x)) as [-> | Hne].
    - apply Hlen in Er as Hl; [| lia..]. unfold slice. rewrite drop_0, take_ge by lia. done.
    - destruct (wd_read m k nd a c Hw) as [u Eu]; [lia.. |].
      destruct (wd_read m k nd (a + c) (x - c) Hw) as [v Ev]; [lia.. |].
      replace x with (c + (x - c)) in Er by lia. rewrite (wd_split m k nd a c (x - c) u v) in Er by (done || lia).
      injection Er as <-. rewrite Eu. apply Hlen in Eu; [| lia..]. unfold slice. rewrite drop_0, take_app_le, take_ge by lia. done. }
  destruct (decide (lba = 0)) as [-> | Hlba].
  { rewrite Z.add_0_r. rewrite (Hhead off n) with (r := l) by (done || lia). by rewrite Z.mul_0_l. }
  destruct (wd_read m k nd off lba Hw) as [u Eu]; [lia.. |].
  destruct (wd_read m k nd (off + lba) (n - lba) Hw) as [v Ev]; [lia.. |].
  replace n with (lba + (n - lba)) in E by lia. rewrite (wd_split m k nd off lba (n - lba) u v) in E by (done || lia).
  injection E as <-. apply Hlen in Eu; [| lia..]. rewrite (Hhead _ (n - lba)) with (r := v) by (done || lia).
  do 2 f_equal. unfold slice. rewrite drop_0, drop_app_ge by lia. f_equal. by replace (Z.to_nat (lba * 512) - length u)%nat with 0%nat by lia.
Qed.

(** Joining reads, also when one of them is empty. *)
Lemma read_join (m : M) (k nd off a b : Z) (u v : list Z) :
  wd_ok m k nd -> 0 <= off -> 0 <= a -> 0 <= b -> off + a + b <= nd ->
  (0 < a -> hw_read m k off a = Ret (Some u)) -> (a = 0 -> u = []) ->
  (0 < b -> hw_read m k (off + a) b = Ret (Some v)) -> (b = 0 -> v = []) -> 0 < a + b ->
  hw_read m k off (a + b) = Ret (Some (u ++ v)).
Proof.
  intros Hw H1 H2 H3 H4 Hu Hu0 Hv Hv0 Hab. destruct (decide (a = 0)) as [-> | Ha].
  { rewrite Hu0 by done. rewrite Z.add_0_r in Hv. apply Hv. lia. }
  destruct (decide (b = 0)) as [-> | Hb]. { rewrite Hv0, app_nil_r, Z.add_0_r by done. apply Hu. lia. }
  apply (wd_split m k nd); try done; try lia; [apply Hu; lia | apply Hv; lia].
Qed.

Lemma write_part (m m' : M) (k nd off n lba c : Z) (l bs : list Z) :
  wd_ok m k nd -> wd_ok m' k nd -> hw_sector_size k = 512 -> 0 <= off -> off + n <= nd ->
  0 <= lba -> 0 < c -> lba + c <= n -> Z.of_nat (length bs) = c * 512 ->
  hw_read m k off n = Ret (Some l) -> hw_write m k (off + lba) c bs = Ret (true, m') ->
  hw_read m' k off n = Ret (Some (splice l (lba * 512) bs)).
Proof.
  intros Hw Hw' Hss H1 H2 H3 H4 H5 Hlen E Ew.
  assert (Hsv : forall a x, 0 <= a -> 0 < x -> a + x <= nd -> hw_serves k a x) by (intros; by apply (wd_serves m k nd)).
  pose proof (hw_read_length m k off n l (Hsv off n ltac:(lia) ltac:(lia) ltac:(lia)) E) as Hl.
  assert (Hwl : Z.of_nat (length bs) = c * hw_sector_size k) by (rewrite Hss; lia).
  pose proof (Hsv (off + lba) c ltac:(lia) ltac:(lia) ltac:(lia)) as Hws.
  rewrite Hss in Hl. unfold splice.
  replace n with (lba + (c + (n - lba - c))) by lia.
  apply (read_join m' k nd); try done; try lia.
  - intros Ha. rewrite (hw_read_write_other _ _ _ _ _ _ _ _ _ _ Hws Hwl Ew) by (lia || (apply Hsv; lia)).
    rewrite <- (Z.add_0_r off). rewrite (read_part m k nd off n 0 lba l) by (done || lia).
    unfold slice. rewrite Z.mul_0_l, drop_0. done.
  - intros ->. done.
  - intros _. apply (read_join m' k nd); try done; try lia.
    + intros _. by apply (hw_read_write _ _ _ _ _ _ Hws Hwl Ew).
    + intros Hr. rewrite (hw_read_write_other _ _ _ _ _ _ _ _ _ _ Hws Hwl Ew) by (lia || (apply Hsv; lia)).
      replace (off + lba + c) with (off + (lba + c)) by lia.
      rewrite (read_part m k nd off n (lba + c) (n - lba - c) l) by (done || lia).
      unfold slice. rewrite take_ge by (rewrite length_drop; lia). do 3 f_equal. lia.
    + intros Hr. apply drop_ge. lia.
Qed.

#[refine] Instance handle_dev : SectorDev bdev_handle := {
  sd_read h lba n :=
    (do '(r, st) <- blockdev_read 2 (bh_st h) (bh_dev h) lba n; Ret (r, mk_handle st (bh_dev h)))%out;
  sd_write h lba n bs :=
    (do '(r, st) <- blockdev_write 2 (bh_st h) (bh_dev h) lba n bs; Ret (r, mk_handle st (bh_dev h)))%out;
  sd_ready h := match bdevs (bh_st h) !! bh_dev h with
                | Some d => bool_decide (bd_status d = BLOCKDEV_READY) | None => false end;
  sd_sector_size h := match bdevs (bh_st h) !! bh_dev h with Some d => sector_size d | None => 0 end;
  sd_total h := match bdevs (bh_st h) !! bh_dev h with Some d => total_sectors d | None => 0 end;
  sd_holds h l := exists k off n nd, backed (bh_st h) (bh_dev h) k off n nd /\ wd_ok (hw (bh_st h)) k nd /\
    hw_sector_size k = 512 /\ 0 < n /\ hw_read (hw (bh_st h)) k off n = Ret (Some l)
}.
Proof.
  - intros [st dev] l (k & off & n & nd & (Hd & d & Hl & Hn & Hss & Ho & Hb & Hc) & Hw & Hk & Hn0 & E).
    cbn [bh_st bh_dev] in *. rewrite Hl, bool_decide_eq_true_2.
    + apply hw_read_length in E; [| apply (wd_serves (hw st) k nd); (done || lia)]. split_and!; [done | done | lia | lia].
    + destruct Hc as [[[? _] _] | (pt & disk & [? _] & _)]; done.
  - intros [st dev] l lba c (k & off & n & nd & Hb & Hw & Hk & Hn0 & E) H1 H2 H3. cbn [bh_st bh_dev] in *.
    pose proof Hb as (Hd & d & Hl & Hn & Hss & Ho & Hbd & Hc). rewrite Hl, Hn in H3.
    destruct (backed_read st dev k off n nd lba c _ Hb H1 H2 H3
                (read_part _ k nd off n lba c l Hw Hk Ho (proj1 Hbd) H1 H2 H3 E)) as (st' & E' & Eh & Hb').
    rewrite E'. cbn [obind]. eexists. split; [done |]. exists k, off, n, nd. cbn. rewrite Eh. done.
  - intros [st dev] l lba c (k & off & n & nd & (Hd & d & Hl & Hn & Hss & Ho & Hb & Hc) & Hw & Hk & Hn0 & E) H1 H2 H3.
    cbn [bh_st bh_dev] in *. rewrite Hl in H3. unfold blockdev_read. replace (dev =? 0) with false by lia. rewrite Hl.
    cbn [of_option obind]. destruct (negb _); [done |]. rewrite wrap_small by (split; lia).
    by replace (total_sectors d <? lba + c) with true by lia.
  - intros [st dev] l lba c bs (k & off & n & nd & Hb & Hw & Hk & Hn0 & E) H1 H2 H3 H4. cbn [bh_st bh_dev] in *.
    pose proof Hb as (Hd & d & Hl & Hn & Hss & Ho & Hbd & Hc). rewrite Hl, Hn in H3.
    destruct (wd_write (hw st) k nd (off + lba) c bs Hw) as (m' & Ew & Hw'); [lia | lia | lia | rewrite Hk; lia |].
    destruct (backed_write st dev k off n nd lba c bs m' Hb H1 H2 H3 Ew) as (st' & E' & Eh & Hb').
    rewrite E'. cbn [obind]. eexists. split; [done |]. exists k, off, n, nd. cbn. rewrite Eh.
    split_and!; try done. apply (write_part (hw st) m' k nd off n lba c); done || lia.
  - intros [st dev] l lba c bs (k & off & n & nd & (Hd & d & Hl & Hn & Hss & Ho & Hb & Hc) & Hw & Hk & Hn0 & E) H1 H2 H3.
    cbn [bh_st bh_dev] in *. rewrite Hl in H3. unfold blockdev_write. replace (dev =? 0) with false by lia. rewrite Hl.
    cbn [of_option obind]. destruct (negb _); [done |]. rewrite wrap_small by (split; lia).
    by replace (total_sectors d <? lba + c) with true by lia.
Defined.
End handle.
#[export] Existing Instance handle_dev.

(** The memory disk works. *)
Lemma ram_read_app (m : Z -> Z) (a x y : Z) : 0 <= x -> 0 <= y -> ram_read m a (x + y) = ram_read m a x ++ ram_read m (a + x) y.
Proof.
  intros Hx Hy. unfold ram_read. rewrite Z2Nat.inj_add, seq_app, fmap_app by done. f_equal.
  apply list_eq. intros i. rewrite !list_lookup_fmap. destruct (decide (i < Z.to_nat y)%nat) as [Hi | Hi].
  - rewrite !lookup_seq_lt by done. cbn. f_equal. f_equal. lia.
  - by rewrite !lookup_seq_ge by lia.
Qed.

#[export, refine] Instance ram_works : WorkingDisk (Z -> Z) := { wd_ok _ _ n := n < 2 ^ 70 }.
Proof.
  - intros m k n lba c Hn H1 H2 H3. cbn. unfold in_ram. lia.
  - intros m k n lba c Hn H1 H2 H3. cbn. unfold in_ram. replace (_ && _) with true by lia. by eexists.
  - intros m k n lba c bs Hn H1 H2 H3 H4. cbn in *. unfold in_ram. replace (_ && _) with true by lia. by eexists.
  - intros m k n lba a b x y Hn H1 H2 H3 H4. cbn. unfold in_ram.
    replace ((0 <=? lba) && (0 <=? a + b) && _) with true by lia.
    replace ((0 <=? lba) && (0 <=? a) && _) with true by lia.
    replace ((0 <=? lba + a) && (0 <=? b) && _) with true by lia. intros [= <-] [= <-]. do 2 f_equal.
    rewrite Z.mul_add_distr_r, ram_read_app by lia. do 2 f_equal. unfold ram_at. lia.
Defined.

(** The partition of the example of Blockdev.v holds something. *)
Lemma demo_holds : exists l, sd_holds (mk_handle demo_storage 8192) l.
Proof.
  eexists. exists 7, 63, 100, 1000. split_and!; [| done | done | done | done].
  split; [done |]. exists demo_part_dev. split_and!; try done. right. exists demo_part, demo_disk.
  split_and!; [exact demo_is_partition | done | done | done].
Qed.
