(* ===== verification/Fat32.v ===== *)
(** The FAT32 driver, src/fs/fat32.c: the cluster allocator on the cached table, directories
    and names, reading, writing, creating, deleting and renaming files, mounting and
    formatting.  It runs on a block device given by the class of SectorDev.v.

    An inode is a value that goes in and comes back changed: every inode is a block of its
    own, which only its holder changes.  The kernel's [malloc] panics instead of returning
    NULL for a request of at least one byte (Heap.v), so the tests of its result are left
    out, except where the size may be 0.  Buffers on the stack start with the bytes [stk]
    says; a transfer that is longer than its buffer is [Crash]. *)

From S2P Require Import Prelude Bytes Buffer SectorDev.

(** * Data *)

Definition FAT32_EOC : Z := 0x0FFFFFF8.
Definition FAT32_BAD : Z := 0x0FFFFFF7.
Definition FAT32_FREE : Z := 0.
Definition FAT_ATTR_DIRECTORY : Z := 0x10.
Definition FAT_ATTR_ARCHIVE : Z := 0x20.
Definition FAT_ATTR_LFN : Z := 0x0F.
Definition FT_REG_FILE : Z := 1.
Definition FT_DIR : Z := 2.

(** [fat32]; of [bpb] and [fsinfo] the fields that are used after mounting. *)
Record fat32 := mk_fat {
  fat_size_32 : Z;
  free_count : Z;
  next_free : Z;
  bytes_per_sector : Z;
  sectors_per_cluster : Z;
  bytes_per_cluster : Z;
  total_clusters : Z;
  fat_start : Z;
  data_start : Z;
  root_cluster : Z;
  fsinfo_sector : Z;
  fat_cache : list Z;
  fat_entries : Z;
  dirty : bool
}.

Definition with_fat (f : fat32) (free next : Z) (cache : list Z) (d : bool) : fat32 :=
  mk_fat (fat_size_32 f) free next (bytes_per_sector f) (sectors_per_cluster f) (bytes_per_cluster f)
    (total_clusters f) (fat_start f) (data_start f) (root_cluster f) (fsinfo_sector f) cache (fat_entries f) d.

(** [fat32_inode_private_t], without the pointer to the file system. *)
Record fat32_priv := mk_priv {
  first_cluster : Z;
  dir_cluster : Z;
  dir_entry : Z;
  parent_cluster : Z;
  entry_offset : Z
}.

(** The fields of [vfs_inode_t] the driver uses. *)
Record inode := mk_inode { i_mode : Z; i_size : Z; i_private : fat32_priv }.

Definition with_first (ino : inode) (c : Z) : inode :=
  let p := i_private ino in
  mk_inode (i_mode ino) (i_size ino) (mk_priv c (dir_cluster p) (dir_entry p) (parent_cluster p) (entry_offset p)).

Definition with_size (ino : inode) (n : Z) : inode := mk_inode (i_mode ino) n (i_private ino).

(** What read_rtc_time and read_rtc_date deliver. *)
Record rtc := mk_rtc { rtc_hh : Z; rtc_mm : Z; rtc_ss : Z; rtc_year : Z; rtc_month : Z; rtc_day : Z }.

Definition FAT_DATE (t : rtc) : Z :=
  Z.lor (Z.lor (u32 (Z.shiftl (u32 (rtc_year t - 1980)) 9)) (u32 (Z.shiftl (rtc_month t) 5))) (rtc_day t).
Definition FAT_TIME (t : rtc) : Z :=
  Z.lor (Z.lor (u32 (Z.shiftl (rtc_hh t) 11)) (u32 (Z.shiftl (rtc_mm t) 5))) (rtc_ss t / 2).

(** * The table of clusters *)

(** [fat_cache[c]] *)
Definition fat_get (f : fat32) (c : Z) : outcome Z :=
  if (0 <=? c) && (c <? Z.of_nat (length (fat_cache f))) then Ret (get (fat_cache f) c) else Crash.

Definition fat_set (f : fat32) (c v : Z) : outcome fat32 :=
  if (0 <=? c) && (c <? Z.of_nat (length (fat_cache f)))
  then Ret (with_fat f (free_count f) (next_free f) (set (fat_cache f) c v) (dirty f)) else Crash.

Definition fat32_next_cluster (f : fat32) (cluster : Z) : outcome Z :=
  (if (cluster <? 2) || (fat_entries f <=? cluster) then Ret FAT32_EOC
   else
     do next <- fat_get f cluster;
     if FAT32_EOC <=? next then Ret FAT32_EOC
     else if (next =? FAT32_FREE) || (next =? FAT32_BAD) then Ret FAT32_EOC
     else Ret next)%out.

(** The loop of [fat32_alloc_cluster], [n] steps from [i]. *)
Fixpoint alloc_from (n : nat) (i start : Z) (f : fat32) : outcome (Z * fat32) :=
  (match n with
   | O => Ret (0, f)
   | S n' =>
       let cluster := u32 (start + i) in
       let cluster := if fat_entries f <=? cluster then u32 (2 + (cluster - fat_entries f)) else cluster in
       do v <- fat_get f cluster;
       if v =? FAT32_FREE then
         do f <- fat_set f cluster FAT32_EOC;
         let next := u32 (cluster + 1) in
         let next := if fat_entries f <=? next then 2 else next in
         Ret (cluster, with_fat f (u32 (free_count f - 1)) next (fat_cache f) true)
       else alloc_from n' (i + 1) start f
   end)%out.

Definition fat32_alloc_cluster (f : fat32) : outcome (Z * fat32) :=
  let start := next_free f in
  let start := if (start <? 2) || (fat_entries f <=? start) then 2 else start in
  alloc_from (Z.to_nat (u32 (fat_entries f - 2))) 0 start f.

(** [fat32_free_cluster_chain]; [free_from_enough] shows that the fuel is enough. *)
Fixpoint free_from (fuel : nat) (f : fat32) (cluster : Z) : outcome fat32 :=
  (match fuel with
   | O => Crash
   | S fuel' =>
       if (2 <=? cluster) && (cluster <? fat_entries f) then
         do next <- fat_get f cluster;
         do f <- fat_set f cluster FAT32_FREE;
         let f := with_fat f (u32 (free_count f + 1)) (next_free f) (fat_cache f) true in
         free_from fuel' f (if next <? FAT32_EOC then next else 0)
       else Ret f
   end)%out.

(** Steps for a walk that sees each cluster once. *)
Definition walk_fuel (f : fat32) : nat := S (S (length (fat_cache f))).

Definition fat32_free_cluster_chain (f : fat32) (cluster : Z) : outcome fat32 := free_from (walk_fuel f) f cluster.

(** [fat32_alloc_clusters]: the result, [*first] and the file system. *)
Fixpoint alloc_clusters_from (n : nat) (f : fat32) (first prev : Z) : outcome (bool * Z * fat32) :=
  (match n with
   | O => Ret (true, first, f)
   | S n' =>
       do '(cluster, f) <- fat32_alloc_cluster f;
       if cluster =? 0 then
         do f <- (if first =? 0 then Ret f else fat32_free_cluster_chain f first);
         Ret (false, first, f)
       else
         let first := if first =? 0 then cluster else first in
         do f <- (if prev =? 0 then Ret f else fat_set f prev cluster);
         alloc_clusters_from n' f first cluster
   end)%out.

Definition fat32_alloc_clusters (f : fat32) (count : Z) : outcome (Z * Z * fat32) :=
  (do '(ok, first, f) <- alloc_clusters_from (Z.to_nat count) f 0 0;
   Ret (if ok : bool then count else 0, first, f))%out.

(** * Names *)

Definition upper (c : Z) : Z := if (97 <=? c) && (c <=? 122) then c - 32 else c.
Definition lower (c : Z) : Z := if (65 <=? c) && (c <=? 90) then c + 32 else c.

Definition fat32_checksum (name : list Z) : Z :=
  fold_left (fun sum c => u8 ((if negb (Z.land sum 1 =? 0) then 0x80 else 0) + Z.shiftr sum 1 + c)) (take 11 name) 0.

(** The characters up to the first space. *)
Fixpoint until_space (l : list Z) : list Z :=
  match l with
  | [] => []
  | c :: l' => if c =? 32 then [] else c :: until_space l'
  end.

(** [fat32_name_from_entry]; the result may hold a 0, which ends it as a C string. *)
Definition fat32_name_from_entry (name : list Z) : list Z :=
  let base := lower <$> until_space (take 8 name) in
  if get name 8 =? 32 then base
  else base ++ [46] ++ (lower <$> until_space (take 3 (drop 8 name))).

Fixpoint c_string (l : list Z) : list Z :=
  match l with
  | [] => []
  | c :: l' => if c =? 0 then [] else c :: c_string l'
  end.

(** The loop "Find dot": at most [n] characters up to a dot, and what follows them. *)
Fixpoint base_part (n : nat) (l : list Z) : list Z * list Z :=
  match n, l with
  | S n', c :: l' => if c =? 46 then ([], l) else let '(b, r) := base_part n' l' in (upper c :: b, r)
  | _, _ => ([], l)
  end.

(** [n] characters, filled up with spaces. *)
Definition padded (n : nat) (l : list Z) : list Z := take n (l ++ replicate n 32).

Definition fat32_name_to_entry (name : list Z) : list Z :=
  let '(b, r) := base_part 8 name in
  let r := match r with 46 :: r' => r' | _ => r end in
  padded 8 b ++ padded 3 (upper <$> take 3 r).

(** One entry of [fat32_create_lfn_entries]: the thirteen characters from [13 * i] as
    16-bit numbers (a [char] is signed) at offsets 1, 14 and 28, the rest 0. *)
Definition lfn_chars (name : list Z) (i : Z) : list Z := take 13 (drop (Z.to_nat (13 * i)) name).

Definition lfn_part (n : nat) (cs : list Z) : list Z :=
  take (2 * n) (concat ((fun c => [c; if 128 <=? c then 0xFF else 0]) <$> take n cs) ++ replicate (2 * n) 0).

Definition lfn_entry (name : list Z) (checksum i : Z) (last : bool) : list Z :=
  let cs := lfn_chars name i in
  [Z.lor (i + 1) (if last then 0x40 else 0)] ++ lfn_part 5 cs ++ [FAT_ATTR_LFN; 0; checksum] ++
  lfn_part 6 (drop 5 cs) ++ [0; 0] ++ lfn_part 2 (drop 11 cs).

(** [fat32_create_lfn_entries] with [is_last] 1: entries [n - 1] down to 0 from [offset]. *)
Fixpoint lfn_from (n : nat) (total : Z) (buf : list Z) (offset : Z) (name : list Z) (checksum : Z) : list Z * Z :=
  match n with
  | O => (buf, offset)
  | S n' =>
      let i := Z.of_nat n' in
      lfn_from n' total (splice buf offset (lfn_entry name checksum i (i =? total - 1))) (offset + 32) name checksum
  end.

Definition lfn_count_of (name : list Z) : Z := (Z.of_nat (length name) + 12) / 13.

Definition fat32_create_lfn_entries (buf : list Z) (offset : Z) (name : list Z) (checksum : Z) : list Z * Z :=
  lfn_from (Z.to_nat (lfn_count_of name)) (lfn_count_of name) buf offset name checksum.

(** * Directory entries

    The fields of [fat32_dir_entry_t] in the entry at offset [o] of a cluster. *)

Definition de_name (buf : list Z) (o : Z) : list Z := slice buf o 11.
Definition de_first (buf : list Z) (o : Z) : Z := get buf o.
Definition de_attr (buf : list Z) (o : Z) : Z := get buf (o + 11).
Definition de_cluster (buf : list Z) (o : Z) : Z :=
  Z.lor (u32 (Z.shiftl (field buf (o + 20) 2) 16)) (field buf (o + 26) 2).
Definition de_size (buf : list Z) (o : Z) : Z := field buf (o + 28) 4.

Definition deleted (buf : list Z) (o : Z) : bool := de_first buf o =? 0xE5.
Definition is_lfn (buf : list Z) (o : Z) : bool := de_attr buf o =? FAT_ATTR_LFN.

(** What a lookup in one cluster finds: the end of the directory, an entry, or neither. *)
Inductive scan_result := ScanEnd | ScanFound (i : Z) | ScanNext.

Fixpoint lookup_scan (n : nat) (i : Z) (buf name : list Z) : scan_result :=
  match n with
  | O => ScanNext
  | S n' =>
      let o := 32 * i in
      if de_first buf o =? 0 then ScanEnd
      else if deleted buf o || is_lfn buf o then lookup_scan n' (i + 1) buf name
      else if bool_decide (c_string (fat32_name_from_entry (de_name buf o)) = name) then ScanFound i
      else lookup_scan n' (i + 1) buf name
  end.

(** The first entry that is free or deleted, among [n] from [i]. *)
Fixpoint free_scan (n : nat) (i : Z) (buf : list Z) : option Z :=
  match n with
  | O => None
  | S n' => if (de_first buf (32 * i) =? 0) || deleted buf (32 * i) then Some i else free_scan n' (i + 1) buf
  end.

(** The loop "Count LFN entries before this one": entries [n - 1] down to 0. *)
Fixpoint lfn_before (n : nat) (buf : list Z) : Z :=
  match n with
  | O => 0
  | S n' =>
      let o := 32 * Z.of_nat n' in
      if is_lfn buf o && negb (Z.land (de_first buf o) 0x40 =? 0) then 0
      else if is_lfn buf o then 1 + lfn_before n' buf
      else 0
  end.

(** Mark [n] entries from entry [i] as deleted. *)
Fixpoint mark_deleted (n : nat) (i : Z) (buf : list Z) : list Z :=
  match n with
  | O => buf
  | S n' => mark_deleted n' (i + 1) (set buf (32 * i) 0xE5)
  end.

(** A loop condition of the driver: the cluster number is one of a chain. *)
Definition live (c : Z) : bool := negb (c =? 0) && (c <? FAT32_EOC).

(** * The file system on its device *)

Record fatfs (D : Type) := mk_fs { fs_dev : D; fs_fat : fat32 }.
Arguments mk_fs {D}.
Arguments fs_dev {D}.
Arguments fs_fat {D}.

Section driver.
Context {D : Type} `{SectorDev D}.
Variable stk : Z -> Z.

Definition upd_fat (fs : fatfs D) (f : fat32) : fatfs D := mk_fs (fs_dev fs) f.

Definition fat32_read_sectors (fs : fatfs D) (sector count : Z) (buf : list Z)
    : outcome (bool * list Z * fatfs D) :=
  (do '(r, d) <- sd_read (fs_dev fs) sector count;
   match r with
   | None => Ret (false, buf, mk_fs d (fs_fat fs))
   | Some bs =>
       if (length bs <=? length buf)%nat then Ret (true, splice buf 0 bs, mk_fs d (fs_fat fs)) else Crash
   end)%out.

Definition fat32_write_sectors (fs : fatfs D) (sector count : Z) (buf : list Z) : outcome (bool * fatfs D) :=
  (do '(r, d) <- sd_write (fs_dev fs) sector count buf; Ret (r, mk_fs d (fs_fat fs)))%out.

Definition cluster_sector (f : fat32) (cluster : Z) : Z :=
  u32 (data_start f + (cluster - 2) * sectors_per_cluster f).

Definition fat32_read_cluster (fs : fatfs D) (cluster : Z) (buf : list Z) : outcome (bool * list Z * fatfs D) :=
  if cluster <? 2 then Ret (false, buf, fs)
  else fat32_read_sectors fs (cluster_sector (fs_fat fs) cluster) (sectors_per_cluster (fs_fat fs)) buf.

Definition fat32_write_cluster (fs : fatfs D) (cluster : Z) (buf : list Z) : outcome (bool * fatfs D) :=
  if cluster <? 2 then Ret (false, fs)
  else fat32_write_sectors fs (cluster_sector (fs_fat fs) cluster) (sectors_per_cluster (fs_fat fs)) buf.

(** The sector of [fat32_update_fsinfo]. *)
Definition fsinfo_bytes (free next : Z) : list Z :=
  le_bytes 4 0x41615252 ++ replicate 480 0 ++ le_bytes 4 0x61417272 ++ le_bytes 4 free ++ le_bytes 4 next ++
  replicate 12 0 ++ le_bytes 4 0xAA550000.

Definition fat32_update_fsinfo (fs : fatfs D) : outcome (fatfs D) :=
  (let f := fs_fat fs in
   if negb (dirty f) then Ret fs
   else
     do '(_, fs) <- fat32_write_sectors fs (fsinfo_sector f) 1 (fsinfo_bytes (free_count f) (next_free f));
     Ret (upd_fat fs (with_fat f (free_count f) (next_free f) (fat_cache f) false)))%out.

Definition entries_per_cluster (f : fat32) : Z := bytes_per_cluster f / 32.

(** * Lookup *)

(** The inode for the entry at index [i] of [cluster], the [index]-th of the directory. *)
Definition inode_of_entry (dir : inode) (buf : list Z) (cluster i index : Z) : inode :=
  let o := 32 * i in
  mk_inode (if negb (Z.land (de_attr buf o) FAT_ATTR_DIRECTORY =? 0) then FT_DIR else FT_REG_FILE) (de_size buf o)
    (mk_priv (de_cluster buf o) cluster index (first_cluster (i_private dir)) o).

Fixpoint lookup_from (fuel : nat) (fs : fatfs D) (dir : inode) (name : list Z) (cluster : Z) (buf : list Z) (index : Z)
    : outcome (option inode * fatfs D) :=
  (if negb (live cluster) then Ret (None, fs)
   else match fuel with
        | O => Crash
        | S fuel' =>
            do '(ok, buf, fs) <- fat32_read_cluster fs cluster buf;
            if negb ok then Ret (None, fs)
            else
              let n := entries_per_cluster (fs_fat fs) in
              match lookup_scan (Z.to_nat n) 0 buf name with
              | ScanEnd => Ret (None, fs)
              | ScanFound i => Ret (Some (inode_of_entry dir buf cluster i (u32 (index + i))), fs)
              | ScanNext =>
                  do next <- fat32_next_cluster (fs_fat fs) cluster;
                  lookup_from fuel' fs dir name next buf (u32 (index + n))
              end
        end)%out.

Definition fat32_lookup (fs : fatfs D) (dir : inode) (name : list Z) : outcome (option inode * fatfs D) :=
  lookup_from (walk_fuel (fs_fat fs)) fs dir name (first_cluster (i_private dir))
    (uninit stk (bytes_per_cluster (fs_fat fs))) 0.

(** * Reading *)

(** Skip [n] clusters of a chain, or stop behind its end. *)
Fixpoint skip_chain (n : nat) (f : fat32) (cluster : Z) : outcome Z :=
  (match n with
   | O => Ret cluster
   | S n' => if live cluster then do next <- fat32_next_cluster f cluster; skip_chain n' f next else Ret cluster
   end)%out.

(** The copy loop of [fat32_read]; [acc] are the bytes delivered so far. *)
Fixpoint read_loop (fuel : nat) (fs : fatfs D) (cluster cluster_offset to_read : Z) (acc : list Z)
    : outcome (option (list Z) * fatfs D) :=
  (let done := Z.of_nat (length acc) in
   if (done <? to_read) && live cluster then
     match fuel with
     | O => Crash
     | S fuel' =>
         let size := bytes_per_cluster (fs_fat fs) in
         do '(ok, temp, fs) <- fat32_read_cluster fs cluster (uninit stk size);
         if negb ok then Ret (None, fs)
         else
           let copy := u32 (size - cluster_offset) in
           let copy := if to_read - done <? copy then to_read - done else copy in
           do next <- fat32_next_cluster (fs_fat fs) cluster;
           read_loop fuel' fs next 0 to_read (acc ++ slice temp cluster_offset copy)
     end
   else Ret (Some acc, fs))%out.

(** [fat32_read]: the bytes read, whose number is [*read]; [None] for -1. *)
Definition fat32_read (fs : fatfs D) (ino : inode) (offset size : Z) : outcome (option (list Z) * fatfs D) :=
  (if i_size ino <=? offset then Ret (Some [], fs)
   else
     let to_read := if i_size ino <? u64 (offset + size) then u32 (i_size ino - offset) else size in
     let cluster_size := bytes_per_cluster (fs_fat fs) in
     do cluster <- skip_chain (Z.to_nat (u32 (offset / cluster_size))) (fs_fat fs) (first_cluster (i_private ino));
     if negb (live cluster) then Ret (None, fs)
     else read_loop (Z.to_nat (to_read / cluster_size) + 2) fs cluster (offset mod cluster_size) to_read [])%out.

(** * Writing *)

(** The loop "Skip to needed cluster": it may give an empty file its first cluster. *)
Fixpoint write_skip (n : nat) (fs : fatfs D) (ino : inode) (cluster : Z) : outcome (option Z * inode * fatfs D) :=
  (match n with
   | O => Ret (Some cluster, ino, fs)
   | S n' =>
       if negb (live cluster) then
         if first_cluster (i_private ino) =? 0 then
           do '(r, first, f) <- fat32_alloc_clusters (fs_fat fs) 1;
           let ino := with_first ino first in
           let fs := upd_fat fs f in
           if r =? 0 then Ret (None, ino, fs) else write_skip n' fs ino first
         else Ret (None, ino, fs)
       else
         do next <- fat32_next_cluster (fs_fat fs) cluster;
         write_skip n' fs ino next
   end)%out.

(** The loop "Ensure we have enough clusters": [clusters] is the array filled so far. *)
Fixpoint gather (n : nat) (fs : fatfs D) (ino : inode) (cluster : Z) (clusters : list Z)
    : outcome (option (list Z) * inode * fatfs D) :=
  (match n with
   | O => Ret (Some clusters, ino, fs)
   | S n' =>
       if negb (live cluster) then
         do '(new_cluster, f) <- fat32_alloc_cluster (fs_fat fs);
         let fs := upd_fat fs f in
         if new_cluster =? 0 then Ret (None, ino, fs)
         else
           do '(ino, fs) <-
             match last clusters with
             | None => Ret (if first_cluster (i_private ino) =? 0 then with_first ino new_cluster else ino, fs)
             | Some prev => do f <- fat_set (fs_fat fs) prev new_cluster; Ret (ino, upd_fat fs f)
             end;
           gather n' fs ino new_cluster (clusters ++ [new_cluster])
       else
         do next <- fat32_next_cluster (fs_fat fs) cluster;
         gather n' fs ino next (clusters ++ [cluster])
   end)%out.

(** The loop "Write data" over the array; [off] is the offset in the first cluster.  The
    results of the transfers are ignored. *)
Fixpoint write_loop (clusters : list Z) (off : Z) (fs : fatfs D) (data : list Z) : outcome (Z * fatfs D) :=
  (match clusters with
   | [] => Ret (0, fs)
   | current :: clusters' =>
       let size := bytes_per_cluster (fs_fat fs) in
       let write_size := u32 (size - off) in
       let write_size := if Z.of_nat (length data) <? write_size then Z.of_nat (length data) else write_size in
       let chunk := slice data 0 write_size in
       do fs <-
         (if write_size =? size then do '(_, fs) <- fat32_write_cluster fs current chunk; Ret fs
          else
            do '(_, temp, fs) <- fat32_read_cluster fs current (uninit stk size);
            do '(_, fs) <- fat32_write_cluster fs current (splice temp off chunk);
            Ret fs);
       do '(done, fs) <- write_loop clusters' 0 fs (drop (Z.to_nat write_size) data);
       Ret (write_size + done, fs)
   end)%out.

(** The end of [fat32_write]: the size, and size and time in the directory entry. *)
Definition grow_entry (fs : fatfs D) (ino : inode) (size : Z) (now : rtc) : outcome (inode * fatfs D) :=
  (let ino := with_size ino size in
   let p := i_private ino in
   let o := entry_offset p in
   do '(_, buf, fs) <- fat32_read_cluster fs (dir_cluster p) (uninit stk (bytes_per_cluster (fs_fat fs)));
   let buf := set_field buf (o + 28) 4 size in
   let buf := set_field buf (o + 24) 2 (FAT_DATE now) in
   let buf := set_field buf (o + 22) 2 (FAT_TIME now) in
   do '(_, fs) <- fat32_write_cluster fs (dir_cluster p) buf;
   Ret (ino, fs))%out.

(** [fat32_write]: the number of bytes written, [None] for -1; the inode may have got a
    first cluster and a new size. *)
Definition fat32_write (fs : fatfs D) (ino : inode) (offset : Z) (data : list Z) (now : rtc)
    : outcome (option Z * inode * fatfs D) :=
  (let size := Z.of_nat (length data) in
   if size =? 0 then Ret (Some 0, ino, fs)
   else
     let cluster_size := bytes_per_cluster (fs_fat fs) in
     let first_idx := u32 (offset / cluster_size) in
     let last_idx := u32 (u64 (offset + size - 1) / cluster_size) in
     let needed := u32 (last_idx - first_idx + 1) in
     do '(c, ino, fs) <- write_skip (Z.to_nat first_idx) fs ino (first_cluster (i_private ino));
     match c with
     | None => Ret (None, ino, fs)
     | Some cluster =>
         if needed =? 0 then Ret (None, ino, fs)
         else
           do '(cs, ino, fs) <- gather (Z.to_nat needed) fs ino cluster [];
           match cs with
           | None => Ret (None, ino, fs)
           | Some clusters =>
               do '(done, fs) <- write_loop clusters (offset mod cluster_size) fs data;
               if i_size ino <? u64 (offset + done) then
                 do '(ino, fs) <- grow_entry fs ino (u64 (offset + done)) now;
                 Ret (Some done, ino, fs)
               else Ret (Some done, ino, fs)
           end
     end)%out.

(** * Listing a directory *)

(** The loop "Skip deleted and LFN entries". *)
Fixpoint readdir_skip (fuel : nat) (fs : fatfs D) (cluster : Z) (buf : list Z) (index offset : Z)
    : outcome (option (list Z * Z * Z) * fatfs D) :=
  (if deleted buf (32 * offset) || is_lfn buf (32 * offset) then
     match fuel with
     | O => Crash
     | S fuel' =>
         let index := u32 (index + 1) in
         let offset := u32 (offset + 1) in
         if entries_per_cluster (fs_fat fs) <=? offset then
           do cluster <- fat32_next_cluster (fs_fat fs) cluster;
           if negb (live cluster) then Ret (None, fs)
           else
             do '(ok, buf, fs) <- fat32_read_cluster fs cluster buf;
             if negb ok then Ret (None, fs) else readdir_skip fuel' fs cluster buf index 0
         else readdir_skip fuel' fs cluster buf index offset
     end
   else Ret (Some (buf, index, offset), fs))%out.

(** The loop to the cluster of the position; [None] when the chain is too short. *)
Fixpoint seek_chain (n : nat) (f : fat32) (cluster : Z) : outcome (option Z) :=
  (match n with
   | O => Ret (if live cluster then Some cluster else None)
   | S n' => if live cluster then do next <- fat32_next_cluster f cluster; seek_chain n' f next else Ret None
   end)%out.

(** [fat32_readdir]: the name, the type and the next position. *)
Definition fat32_readdir (fs : fatfs D) (dir : inode) (pos : Z) : outcome (option (list Z * Z * Z) * fatfs D) :=
  (let f := fs_fat fs in
   let index := u32 pos in
   let epc := entries_per_cluster f in
   do c <- seek_chain (Z.to_nat (index / epc)) f (first_cluster (i_private dir));
   match c with
   | None => Ret (None, fs)
   | Some cluster =>
       do '(ok, buf, fs) <- fat32_read_cluster fs cluster (uninit stk (bytes_per_cluster f));
       if negb ok then Ret (None, fs)
       else
         do '(r, fs) <- readdir_skip (walk_fuel f * Z.to_nat epc) fs cluster buf index (index mod epc);
         match r with
         | None => Ret (None, fs)
         | Some (buf, index, offset) =>
             let o := 32 * offset in
             if de_first buf o =? 0 then Ret (None, fs)
             else Ret (Some (c_string (fat32_name_from_entry (de_name buf o)),
                             if negb (Z.land (de_attr buf o) FAT_ATTR_DIRECTORY =? 0) then FT_DIR else FT_REG_FILE,
                             u32 (index + 1)), fs)
         end
   end)%out.

(** * Creating *)

(** The loop of [fat32_create] that looks for a free entry: the cluster and index found,
    the number of entries in front of it, or the value the walk ended on; [None] for a
    read error.  [buf] is the buffer as the loop leaves it. *)
Inductive free_slot := FreeAt (cluster i index : Z) | NoFree (cluster index : Z).

Fixpoint find_free (fuel : nat) (fs : fatfs D) (cluster : Z) (buf : list Z) (index : Z)
    : outcome (option free_slot * list Z * fatfs D) :=
  (if negb (live cluster) then Ret (Some (NoFree cluster index), buf, fs)
   else match fuel with
        | O => Crash
        | S fuel' =>
            do '(ok, buf, fs) <- fat32_read_cluster fs cluster buf;
            if negb ok then Ret (None, buf, fs)
            else
              let n := entries_per_cluster (fs_fat fs) in
              match free_scan (Z.to_nat n) 0 buf with
              | Some i => Ret (Some (FreeAt cluster i (u32 (index + i))), buf, fs)
              | None =>
                  do next <- fat32_next_cluster (fs_fat fs) cluster;
                  find_free fuel' fs next buf (u32 (index + n))
              end
        end)%out.

(** The loop "Find last cluster". *)
Fixpoint last_cluster (fuel : nat) (f : fat32) (last : Z) : outcome Z :=
  (match fuel with
   | O => Crash
   | S fuel' =>
       do next <- fat32_next_cluster f last;
       if live next then last_cluster fuel' f next else Ret last
   end)%out.

(** Extend the chain of a directory by [c]. *)
Definition link_cluster (f : fat32) (dir : inode) (c : Z) : outcome (inode * fat32) :=
  (if first_cluster (i_private dir) =? 0 then Ret (with_first dir c, f)
   else
     do last <- last_cluster (walk_fuel f) f (first_cluster (i_private dir));
     do f <- fat_set f last c;
     Ret (dir, f))%out.

(** The 32 bytes of an entry that [fat32_create] builds. *)
Definition new_entry (name : list Z) (attr cluster : Z) (now : rtc) : list Z :=
  name ++ [attr; 0; 0] ++ le_bytes 2 (FAT_TIME now) ++ le_bytes 2 (FAT_DATE now) ++ le_bytes 2 (FAT_DATE now) ++
  le_bytes 2 (Z.land (Z.shiftr cluster 16) 0xFFFF) ++ le_bytes 2 (FAT_TIME now) ++ le_bytes 2 (FAT_DATE now) ++
  le_bytes 2 (Z.land cluster 0xFFFF) ++ le_bytes 4 0.

(** The entries "." and "..": name, attribute, creation time and cluster. *)
Definition dot_entry (name : list Z) (cluster : Z) (date time : Z) : list Z :=
  padded 11 name ++ [FAT_ATTR_DIRECTORY; 0; 0] ++ le_bytes 2 time ++ le_bytes 2 date ++ [0; 0] ++
  le_bytes 2 (Z.land (Z.shiftr cluster 16) 0xFFFF) ++ [0; 0; 0; 0] ++ le_bytes 2 (Z.land cluster 0xFFFF) ++ le_bytes 4 0.

Definition dot_entries (size self parent date time : Z) : list Z :=
  dot_entry [46] self date time ++ dot_entry [46; 46] parent date time ++ replicate (Z.to_nat (size - 64)) 0.

(** From "Find free entry in directory" to "Read target cluster": the target cluster, the
    offset in it, the count of entries, and the buffer. *)
Definition create_slot (fs : fatfs D) (dir : inode)
    : outcome (option (Z * Z * Z * list Z) * inode * fatfs D) :=
  (let f := fs_fat fs in
   let first := first_cluster (i_private dir) in
   do '(r, buf, fs) <- find_free (walk_fuel f) fs first (uninit stk (bytes_per_cluster f)) 0;
   match r with
   | None => Ret (None, dir, fs)
   | Some (FreeAt cluster i index) => Ret (Some (cluster, 32 * i, index, buf), dir, fs)
   | Some (NoFree cluster index) =>
       do '(new_cluster, f) <- fat32_alloc_cluster (fs_fat fs);
       let fs := upd_fat fs f in
       if new_cluster =? 0 then Ret (None, dir, fs)
       else
         do '(dir, f) <- link_cluster (fs_fat fs) dir new_cluster;
         let fs := upd_fat fs f in
         let buf := replicate (Z.to_nat (bytes_per_cluster f)) 0 in
         do '(_, fs) <- fat32_write_cluster fs new_cluster buf;
         do '(_, buf, fs) <- (if new_cluster =? cluster then Ret (true, buf, fs) else fat32_read_cluster fs new_cluster buf);
         Ret (Some (new_cluster, 0, index, buf), dir, fs)
   end)%out.

(** "Allocate first cluster for file/dir": nothing for a file; for a directory a cluster
    that holds "." and "..". *)
Definition create_first (fs : fatfs D) (dir : inode) (mode : Z) (now : rtc) : outcome (option Z * fatfs D) :=
  (if mode =? FT_DIR then
     do '(c, f) <- fat32_alloc_cluster (fs_fat fs);
     let fs := upd_fat fs f in
     if c =? 0 then Ret (None, fs)
     else
       do '(_, fs) <- fat32_write_cluster fs c
                        (dot_entries (bytes_per_cluster f) c (first_cluster (i_private dir)) (FAT_DATE now) (FAT_TIME now));
       Ret (Some c, fs)
   else Ret (Some 0, fs))%out.

Definition fat32_create (fs : fatfs D) (dir : inode) (name : list Z) (mode : Z) (now : rtc)
    : outcome (option inode * inode * fatfs D) :=
  (do '(existing, fs) <- fat32_lookup fs dir name;
   match existing with
   | Some _ => Ret (None, dir, fs)
   | None =>
       do '(slot, dir, fs) <- create_slot fs dir;
       match slot with
       | None => Ret (None, dir, fs)
       | Some (target, offset, index, buf) =>
           let size := bytes_per_cluster (fs_fat fs) in
           let short_name := fat32_name_to_entry name in
           let lfn := if 12 <? Z.of_nat (length name) then lfn_count_of name else 0 in
           if size / 32 <? u32 (offset / 32 + (1 + lfn)) then Ret (None, dir, fs)
           else
             let '(buf, offset) :=
               if 0 <? lfn then fat32_create_lfn_entries buf offset name (fat32_checksum short_name) else (buf, offset) in
             do '(first, fs) <- create_first fs dir mode now;
             match first with
             | None => Ret (None, dir, fs)
             | Some c =>
                 let attr := if mode =? FT_DIR then FAT_ATTR_DIRECTORY else FAT_ATTR_ARCHIVE in
                 let buf := splice buf offset (new_entry short_name attr c now) in
                 do '(_, fs) <- fat32_write_cluster fs target buf;
                 Ret (Some (mk_inode mode 0 (mk_priv (de_cluster buf offset) target index
                                               (first_cluster (i_private dir)) offset)), dir, fs)
             end
       end
   end)%out.

Definition fat32_mkdir (fs : fatfs D) (dir : inode) (name : list Z) (now : rtc) :=
  fat32_create fs dir name FT_DIR now.

(** * Deleting *)

Definition fat32_unlink (fs : fatfs D) (dir : inode) (name : list Z) : outcome (bool * fatfs D) :=
  (do '(r, fs) <- fat32_lookup fs dir name;
   match r with
   | None => Ret (false, fs)
   | Some file =>
       let p := i_private file in
       do f <- (if first_cluster p =? 0 then Ret (fs_fat fs) else fat32_free_cluster_chain (fs_fat fs) (first_cluster p));
       let fs := upd_fat fs f in
       do '(_, buf, fs) <- fat32_read_cluster fs (dir_cluster p) (uninit stk (bytes_per_cluster f));
       let entry_num := entry_offset p / 32 in
       let lfn_count := lfn_before (Z.to_nat entry_num) buf in
       let buf := mark_deleted (Z.to_nat lfn_count) (entry_num - lfn_count) buf in
       let buf := set buf (entry_offset p) 0xE5 in
       do '(_, fs) <- fat32_write_cluster fs (dir_cluster p) buf;
       Ret (true, fs)
   end)%out.

Definition fat32_rmdir (fs : fatfs D) (dir : inode) (name : list Z) := fat32_unlink fs dir name.

(** * Renaming *)

(** The search of [fat32_rename]; here a failed read leaves the buffer as it was. *)
Fixpoint rename_free (fuel : nat) (fs : fatfs D) (cluster : Z) (buf : list Z)
    : outcome (option (Z * Z) * list Z * fatfs D) :=
  (if negb (live cluster) then Ret (None, buf, fs)
   else match fuel with
        | O => Crash
        | S fuel' =>
            do '(_, buf, fs) <- fat32_read_cluster fs cluster buf;
            match free_scan (Z.to_nat (entries_per_cluster (fs_fat fs))) 0 buf with
            | Some i => Ret (Some (cluster, 32 * i), buf, fs)
            | None =>
                do next <- fat32_next_cluster (fs_fat fs) cluster;
                rename_free fuel' fs next buf
            end
        end)%out.

(** The saved entries with the new short name and its checksum. *)
Fixpoint set_checksums (n : nat) (i : Z) (data : list Z) (checksum : Z) : list Z :=
  match n with
  | O => data
  | S n' => set_checksums n' (i + 1) (set data (32 * i + 13) checksum) checksum
  end.

Definition rename_entries (data : list Z) (lfn_count : Z) (name : list Z) : list Z :=
  set_checksums (Z.to_nat lfn_count) 0 (splice data (32 * lfn_count) name) (fat32_checksum name).

(** The place in the new directory: a free entry, or a new cluster; [None] when there is
    neither. *)
Definition rename_slot (fs : fatfs D) (new_dir : inode)
    : outcome (option (Z * Z * list Z) * inode * fatfs D) :=
  (let f := fs_fat fs in
   do '(r, buf, fs) <- rename_free (walk_fuel f) fs (first_cluster (i_private new_dir)) (uninit stk (bytes_per_cluster f));
   match r with
   | Some (c, o) => Ret (Some (c, o, buf), new_dir, fs)
   | None =>
       do '(extra, f) <- fat32_alloc_cluster (fs_fat fs);
       let fs := upd_fat fs f in
       if extra =? 0 then Ret (None, new_dir, fs)
       else
         do '(new_dir, f) <- link_cluster (fs_fat fs) new_dir extra;
         Ret (Some (extra, 0, replicate (Z.to_nat (bytes_per_cluster f)) 0), new_dir, upd_fat fs f)
   end)%out.

Definition fat32_rename (fs : fatfs D) (old_dir : inode) (old_name : list Z) (new_dir : inode) (new_name : list Z)
    : outcome (bool * inode * fatfs D) :=
  (do '(r, fs) <- fat32_lookup fs old_dir old_name;
   match r with
   | None => Ret (false, new_dir, fs)
   | Some file =>
       let p := i_private file in
       do '(_, old_buf, fs) <- fat32_read_cluster fs (dir_cluster p) (uninit stk (bytes_per_cluster (fs_fat fs)));
       let entry_num := entry_offset p / 32 in
       let lfn_count := lfn_before (Z.to_nat entry_num) old_buf in
       let total := 1 + lfn_count in
       let data := slice old_buf (32 * (entry_num - lfn_count)) (32 * total) in
       let old_buf := mark_deleted (Z.to_nat total) (entry_num - lfn_count) old_buf in
       do '(_, fs) <- fat32_write_cluster fs (dir_cluster p) old_buf;
       do '(slot, new_dir, fs) <- rename_slot fs new_dir;
       match slot with
       | None =>
           do '(_, fs) <- fat32_write_cluster fs (dir_cluster p) (splice old_buf (32 * (entry_num - lfn_count)) data);
           Ret (false, new_dir, fs)
       | Some (c, o, new_buf) =>
           let data := rename_entries data lfn_count (fat32_name_to_entry new_name) in
           if Z.of_nat (length new_buf) <? o + 32 * total then Crash
           else
             do '(_, fs) <- fat32_write_cluster fs c (splice new_buf o data);
             Ret (true, new_dir, fs)
       end
   end)%out.

(** * Inodes *)

(** [fat32_get_name]: the name, [None] for -1. *)
Definition fat32_get_name (fs : fatfs D) (ino : inode) : outcome (option (list Z) * fatfs D) :=
  (let p := i_private ino in
   if first_cluster p =? root_cluster (fs_fat fs) then Ret (Some [], fs)
   else
     do '(ok, buf, fs) <- fat32_read_cluster fs (dir_cluster p) (uninit stk (bytes_per_cluster (fs_fat fs)));
     if negb ok then Ret (None, fs)
     else Ret (Some (c_string (fat32_name_from_entry (de_name buf (entry_offset p)))), fs))%out.

Definition fat32_chmod (ino : inode) (mode : Z) : inode := mk_inode mode (i_size ino) (i_private ino).

(** [fat32_parent]: the inode itself for the root; [None] stands for it. *)
Definition fat32_parent (f : fat32) (ino : inode) : option inode :=
  let p := i_private ino in
  if first_cluster p =? root_cluster f then None
  else Some (mk_inode FT_DIR 0 (mk_priv (parent_cluster p) 0 0 (root_cluster f) 0)).

(** * Writing back, mounting *)

Definition fat32_flush (fs : fatfs D) : outcome (fatfs D) :=
  (let f := fs_fat fs in
   if dirty f then
     do '(_, fs) <- fat32_write_sectors fs (fat_start f) (fat_size_32 f) (fat_bytes (fat_cache f));
     fat32_update_fsinfo fs
   else Ret fs)%out.

Definition fat32_sync (fs : fatfs D) : outcome (fatfs D) := fat32_flush fs.

(** [fat32_unmount] releases everything but the device. *)
Definition fat32_unmount (fs : fatfs D) : outcome D :=
  (do fs <- fat32_flush fs; Ret (fs_dev fs))%out.

(** The loop "Rebuild FSInfo". *)
Definition count_free (cache : list Z) : Z :=
  Z.of_nat (length (filter (fun v => v = FAT32_FREE) (drop 2 cache))).

(** The geometry that [fat32_mount] computes from the boot sector, before the table and
    the information sector are read. *)
Definition fat_of_bpb (sector : list Z) : fat32 :=
  let bps := field sector 11 2 in
  let spc := field sector 13 1 in
  let fat_size := field sector 36 4 in
  let fat_start := field sector 14 2 in
  let data_start := u32 (fat_start + field sector 16 1 * fat_size) in
  mk_fat fat_size 0 0 bps spc (u32 (bps * spc)) (u32 (field sector 32 4 - data_start) / spc)
    fat_start data_start (field sector 44 4) (field sector 48 2) [] (u32 (fat_size * bps) / 4) false.

Definition root_inode (f : fat32) : inode := mk_inode FT_DIR 0 (mk_priv (root_cluster f) 0 0 (root_cluster f) 0).

(** [fat32_mount]: the root inode and the file system; [None] for -1. *)
Definition fat32_mount (d : D) : outcome (option (inode * fatfs D) * D) :=
  (let zero := mk_fat 0 0 0 0 0 0 0 0 0 0 0 [] 0 false in
   do '(ok, sector, fs) <- fat32_read_sectors (mk_fs d zero) 0 1 (uninit stk 512);
   if negb ok then Ret (None, fs_dev fs)
   else if negb (field sector 11 2 =? 512) || (field sector 13 1 =? 0) || (field sector 36 4 =? 0)
   then Ret (None, fs_dev fs)
   else
     let f := fat_of_bpb sector in
     let cache_size := u32 (fat_size_32 f * 512) in
     if cache_size =? 0 then Ret (None, fs_dev fs)
     else
       do '(ok, cache, fs) <- fat32_read_sectors (mk_fs (fs_dev fs) f) (fat_start f) (fat_size_32 f) (uninit stk cache_size);
       if negb ok then Ret (None, fs_dev fs)
       else
         let cache := words cache (fat_entries f) in
         do '(free, next, fs) <-
           (if negb (fsinfo_sector f =? 0) then
              do '(_, info, fs) <- fat32_read_sectors fs (fsinfo_sector f) 1 (replicate 512 0);
              Ret (field info 488 4, field info 492 4, fs)
            else Ret (u32 (count_free cache), 2, fs));
         let f := with_fat f free next cache false in
         Ret (Some (root_inode f, upd_fat fs f), fs_dev fs))%out.

(** * Formatting *)

(** The parameters [fat32_format] chooses for a device of [total] sectors. *)
Definition spc_for (total : Z) : Z :=
  if total <? 0x100000 then 1 else if total <? 0x400000 then 4 else if total <? 0x1000000 then 8 else 16.

Definition fat_size_for (total sector_size : Z) : Z :=
  let clusters := u32 (u64 (total + spc_for total - 1) / spc_for total) in
  u32 (clusters * 4 + sector_size - 1) / sector_size.

(** "ALKO    ", "ALKDISK    " and "FAT32   ". *)
Definition bpb_bytes (spc fat_size total : Z) : list Z :=
  [0xEB; 0x58; 0x90] ++ [65; 76; 75; 79; 32; 32; 32; 32] ++ le_bytes 2 512 ++ [spc] ++ le_bytes 2 32 ++ [2] ++
  le_bytes 2 0 ++ le_bytes 2 0 ++ [0xF8] ++ le_bytes 2 0 ++ le_bytes 2 63 ++ le_bytes 2 255 ++ le_bytes 4 0 ++
  le_bytes 4 total ++
  le_bytes 4 fat_size ++ le_bytes 2 0 ++ le_bytes 2 0 ++ le_bytes 4 2 ++ le_bytes 2 1 ++ le_bytes 2 6 ++
  replicate 12 0 ++ [0x80; 0; 0x29] ++ le_bytes 4 0x12345678 ++
  [65; 76; 75; 68; 73; 83; 75; 32; 32; 32; 32] ++ [70; 65; 84; 51; 50; 32; 32; 32].

(** The bytes between the parameters and the signature are those of the stack. *)
Definition boot_sector (spc fat_size total : Z) : list Z :=
  set (set (splice (uninit stk 512) 0 (bpb_bytes spc fat_size total)) 510 0x55) 511 0xAA.

Definition new_table (fat_size : Z) : list Z :=
  [0x0FFFFFF8; 0x0FFFFFFF; 0x0FFFFFFF] ++ replicate (Z.to_nat (fat_size * 128 - 3)) 0.

(** [fat32_format]; 0 and -1 as in the source. *)
Definition fat32_format (d : D) : outcome (Z * D) :=
  (if negb (sd_ready d) then Ret (-1, d)
   else
     let total := sd_total d in
     let ss := u32 (sd_sector_size d) in
     if ss =? 0 then Crash
     else
       let spc := spc_for total in
       let fat_size := fat_size_for total ss in
       let data_start := u32 (32 + 2 * fat_size) in
       let boot := boot_sector spc fat_size total in
       do '(ok, d) <- sd_write d 0 1 boot;
       if negb ok then Ret (-1, d)
       else
         do '(_, d) <- sd_write d 6 1 boot;
         let info := fsinfo_bytes (u32 (u64 (total - data_start) / spc)) 3 in
         do '(_, d) <- sd_write d 1 1 info;
         do '(_, d) <- sd_write d 7 1 info;
         if u32 (fat_size * 512) =? 0 then Ret (-1, d)
         else
           let table := fat_bytes (new_table (u32 (fat_size * 512) / 512)) in
           do '(_, d) <- sd_write d 32 fat_size table;
           do '(_, d) <- sd_write d (u32 (32 + fat_size)) fat_size table;
           do '(_, d) <- sd_write d data_start spc (dot_entries (spc * 512) 2 2 0 0);
           Ret (0, d))%out.
End driver.
