(* ===== verification/Fat32Chain.v ===== *)
(** The cluster allocator of Fat32.v: the table as a set of disjoint chains, the count of free
    clusters as an invariant, and what allocating and freeing chains do to them. *)

From S2P Require Import Prelude Bytes Buffer SectorDev Fat32.

(** * The table *)

(** The table has its length, its clusters are told from the end marks by their size, and
    the count of free clusters is right. *)
Record fat_ok (f : fat32) : Prop := mk_fat_ok {
  fo_length : Z.of_nat (length (fat_cache f)) = fat_entries f;
  fo_entries : 2 <= fat_entries f < FAT32_BAD;
  fo_free : free_count f = count_free (fat_cache f);
  fo_next : 0 <= next_free f < 2 ^ 32
}.

Lemma count_free_nonneg (l : list Z) : 0 <= count_free l.
Proof. unfold count_free. lia. Qed.

Lemma count_free_le (l : list Z) : count_free l <= Z.of_nat (length l).
Proof. unfold count_free. pose proof (length_filter (fun v => v = FAT32_FREE) (drop 2 l)). rewrite length_drop in H. lia. Qed.

Definition free_unit (v : Z) : Z := if v =? FAT32_FREE then 1 else 0.

Lemma count_free_split (l k : list Z) (v : Z) :
  (2 <= length l)%nat -> count_free (l ++ v :: k) = count_free l + free_unit v + Z.of_nat (length (filter (fun v => v = FAT32_FREE) k)).
Proof.
  intros Hl. unfold count_free. rewrite drop_app_le, filter_app, length_app by done.
  unfold free_unit. destruct (Z.eqb_spec v FAT32_FREE).
  - rewrite filter_cons_True by done. cbn [length]. lia.
  - rewrite filter_cons_False by done. lia.
Qed.

Lemma count_free_set (l : list Z) (c v : Z) :
  2 <= c < Z.of_nat (length l) -> count_free (set l c v) = count_free l - free_unit (get l c) + free_unit v.
Proof.
  intros Hc. pose proof (get_lookup l c ltac:(lia)) as E.
  rewrite <- (take_drop_middle l (Z.to_nat c) (get l c) E) at 2.
  unfold set. rewrite insert_take_drop by lia.
  rewrite !count_free_split by (rewrite length_take; lia). lia.
Qed.

(** The entries in the order in which the allocator looks at them. *)
Definition scan_pos (f : fat32) (start i : Z) : Z :=
  if fat_entries f <=? start + i then 2 + (start + i - fat_entries f) else start + i.

Definition scan_start (f : fat32) : Z :=
  if (next_free f <? 2) || (fat_entries f <=? next_free f) then 2 else next_free f.

Lemma scan_start_range (f : fat32) : 2 < fat_entries f -> 2 <= scan_start f < fat_entries f.
Proof. unfold scan_start. destruct (_ || _) eqn:E; lia. Qed.

Lemma scan_pos_range (f : fat32) (start i : Z) :
  2 <= start < fat_entries f -> 0 <= i < fat_entries f - 2 -> 2 <= scan_pos f start i < fat_entries f.
Proof. unfold scan_pos. intros H1 H2. destruct (Z.leb_spec (fat_entries f) (start + i)); lia. Qed.

(** The scan sees every cluster. *)
Lemma scan_pos_all (f : fat32) (start c : Z) :
  2 <= start < fat_entries f -> 2 <= c < fat_entries f -> exists i, 0 <= i < fat_entries f - 2 /\ scan_pos f start i = c.
Proof.
  intros H1 H2. unfold scan_pos. destruct (Z.ltb_spec c start).
  - exists (c + fat_entries f - 2 - start). split; [lia |]. destruct (Z.leb_spec (fat_entries f) (start + (c + fat_entries f - 2 - start))); lia.
  - exists (c - start). split; [lia |]. destruct (Z.leb_spec (fat_entries f) (start + (c - start))); lia.
Qed.

(** The table after cluster [c] is taken. *)
Definition taken (f : fat32) (c : Z) : fat32 :=
  with_fat f (free_count f - 1) (if fat_entries f <=? c + 1 then 2 else c + 1) (set (fat_cache f) c FAT32_EOC) true.

Lemma fat_get_in (f : fat32) (c : Z) :
  Z.of_nat (length (fat_cache f)) = fat_entries f -> 0 <= c < fat_entries f -> fat_get f c = Ret (get (fat_cache f) c).
Proof. intros Hl Hc. unfold fat_get. by replace (_ && _) with true by lia. Qed.

Lemma fat_set_in (f : fat32) (c v : Z) :
  Z.of_nat (length (fat_cache f)) = fat_entries f -> 0 <= c < fat_entries f ->
  fat_set f c v = Ret (with_fat f (free_count f) (next_free f) (set (fat_cache f) c v) (dirty f)).
Proof. intros Hl Hc. unfold fat_set. by replace (_ && _) with true by lia. Qed.

Lemma taken_ok (f : fat32) (c : Z) :
  fat_ok f -> 2 <= c < fat_entries f -> get (fat_cache f) c = FAT32_FREE -> fat_ok (taken f c).
Proof.
  intros [H1 H2 H3 H4] Hc E. unfold FAT32_BAD in *. split; cbn; [by rewrite length_set | done | |].
  - rewrite count_free_set by lia. rewrite E, H3. cbn. lia.
  - destruct (_ <=? _); lia.
Qed.

Lemma alloc_from_spec (n : nat) (i start : Z) (f : fat32) :
  fat_ok f -> 2 <= start < fat_entries f -> 0 <= i -> i + Z.of_nat n = fat_entries f - 2 ->
  (exists j, i <= j < fat_entries f - 2 /\ get (fat_cache f) (scan_pos f start j) = FAT32_FREE /\
     (forall k, i <= k < j -> get (fat_cache f) (scan_pos f start k) <> FAT32_FREE) /\
     alloc_from n i start f = Ret (scan_pos f start j, taken f (scan_pos f start j))) \/
  (forall k, i <= k < fat_entries f - 2 -> get (fat_cache f) (scan_pos f start k) <> FAT32_FREE) /\
  alloc_from n i start f = Ret (0, f).
Proof.
  intros Hok Hs. pose proof Hok as [Hl He Hf Hn]. unfold FAT32_BAD in He. revert i.
  induction n as [|n IH]; intros i Hi Hin; [right; split; [intros; lia | done] |].
  assert (Hp : (let cluster := u32 (start + i) in
    if fat_entries f <=? cluster then u32 (2 + (cluster - fat_entries f)) else cluster) = scan_pos f start i).
  { cbv zeta. rewrite (wrap_small 32 (start + i)) by (split; lia). unfold scan_pos.
    destruct (Z.leb_spec (fat_entries f) (start + i)); [| done]. apply wrap_small. split; lia. }
  pose proof (scan_pos_range f start i Hs ltac:(lia)) as Hr.
  cbn [alloc_from]. cbv zeta in Hp |- *. rewrite Hp, fat_get_in by (done || lia). cbn [obind].
  destruct (Z.eqb_spec (get (fat_cache f) (scan_pos f start i)) FAT32_FREE) as [E | E].
  - left. exists i. split; [lia |]. split; [done |]. split; [intros; lia |].
    rewrite fat_set_in by (done || lia). cbn [obind]. unfold taken. cbn [fat_entries with_fat free_count fat_cache].
    assert (free_count f <> 0).
    { rewrite Hf. pose proof (count_free_set (fat_cache f) (scan_pos f start i) 1 ltac:(lia)) as Ec.
      rewrite E in Ec. cbn in Ec. pose proof (count_free_nonneg (set (fat_cache f) (scan_pos f start i) 1)). lia. }
    pose proof (count_free_nonneg (fat_cache f)). pose proof (count_free_le (fat_cache f)).
    rewrite !wrap_small by (split; lia). done.
  - destruct (IH (i + 1) ltac:(lia) ltac:(lia)) as [(j & Hj & E1 & E2 & E3) | [E1 E2]].
    + left. exists j. split; [lia |]. split; [done |]. split; [| done].
      intros k Hk. destruct (decide (k = i)) as [-> | Hne]; [done |]. apply E2. lia.
    + right. split; [| done]. intros k Hk. destruct (decide (k = i)) as [-> | Hne]; [done |]. apply E1. lia.
Qed.

(** The allocator takes the first free cluster at or behind the hint, around the end of the
    table, and fails exactly when no cluster is free. *)
Lemma alloc_cluster_ok (f : fat32) :
  fat_ok f ->
  (exists i, 0 <= i < fat_entries f - 2 /\ get (fat_cache f) (scan_pos f (scan_start f) i) = FAT32_FREE /\
     (forall k, 0 <= k < i -> get (fat_cache f) (scan_pos f (scan_start f) k) <> FAT32_FREE) /\
     fat32_alloc_cluster f = Ret (scan_pos f (scan_start f) i, taken f (scan_pos f (scan_start f) i))) \/
  (forall c, 2 <= c < fat_entries f -> get (fat_cache f) c <> FAT32_FREE) /\ fat32_alloc_cluster f = Ret (0, f).
Proof.
  intros Hok. pose proof Hok as [Hl He Hf Hn]. unfold FAT32_BAD in He.
  destruct (decide (fat_entries f = 2)) as [E2 | E2].
  { right. split; [lia |]. unfold fat32_alloc_cluster. by rewrite E2. }
  pose proof (scan_start_range f ltac:(lia)) as Hs.
  unfold fat32_alloc_cluster. fold (scan_start f). rewrite wrap_small by (split; lia).
  destruct (alloc_from_spec (Z.to_nat (fat_entries f - 2)) 0 (scan_start f) f Hok Hs ltac:(lia) ltac:(lia))
    as [(j & Hj & E) | [E Er]].
  - left. by exists j.
  - right. split; [| done]. intros c Hc. destruct (scan_pos_all f (scan_start f) c Hs Hc) as (i & Hi & <-). by apply E.
Qed.

(** * Chains *)

(** The clusters of a file, each pointing to the next, the last one marked as the end. *)
Inductive chain (cache : list Z) : list Z -> Prop :=
| chain_last c : 2 <= c < Z.of_nat (length cache) -> FAT32_EOC <= get cache c -> chain cache [c]
| chain_cons c c' cs :
    2 <= c < Z.of_nat (length cache) -> get cache c = c' -> chain cache (c' :: cs) -> chain cache (c :: c' :: cs).

Lemma chain_range (cache cs : list Z) : chain cache cs -> Forall (fun c => 2 <= c < Z.of_nat (length cache)) cs.
Proof. induction 1; constructor; auto. Qed.

Lemma chain_nonempty (cache cs : list Z) : chain cache cs -> cs <> [].
Proof. by destruct 1. Qed.

(** No cluster of a chain is free: it holds a cluster number or the end mark. *)
Lemma chain_used (cache cs : list Z) : chain cache cs -> Forall (fun c => get cache c <> FAT32_FREE) cs.
Proof.
  induction 1 as [c Hc He | c c' cs Hc He Hch IH]; [constructor; [unfold FAT32_EOC, FAT32_FREE in *; lia | done] |].
  constructor; [| done]. pose proof (chain_range _ _ Hch) as Hr. inversion Hr; subst. unfold FAT32_FREE. lia.
Qed.

(** A chain depends on its own entries only. *)
Lemma fat_chain_ext (cache cache' cs : list Z) :
  length cache' = length cache -> Forall (fun c => get cache' c = get cache c) cs -> chain cache cs -> chain cache' cs.
Proof.
  intros Hl HF Hc. induction Hc as [c Hc He | c c' cs Hc He Hch IH]; inversion HF; subst.
  - apply chain_last; [lia | congruence].
  - apply chain_cons; [lia | congruence | by apply IH].
Qed.

Lemma chain_set_other (cache cs : list Z) (c v : Z) :
  0 <= c -> c ∉ cs -> chain cache cs -> chain (set cache c v) cs.
Proof.
  intros H0 Hn Hc. apply (fat_chain_ext cache); [apply length_set | | done].
  pose proof (chain_range _ _ Hc) as Hr. apply Forall_forall. intros x Hx.
  rewrite Forall_forall in Hr. specialize (Hr x Hx). apply get_set_ne; [done | lia |]. by intros ->.
Qed.

(** A chain grows at its end. *)
Lemma chain_snoc (cache cs : list Z) (l c : Z) :
  chain cache (cs ++ [l]) -> NoDup (cs ++ [l]) -> 2 <= c < Z.of_nat (length cache) -> c ∉ cs ++ [l] ->
  FAT32_EOC <= get cache c -> chain (set cache l c) (cs ++ [l; c]).
Proof.
  intros Hch Hnd Hc Hn He. induction cs as [|x cs IH]; cbn [app] in *.
  - inversion Hch; subst. apply chain_cons; [by rewrite length_set | by apply get_set_eq; lia |].
    apply chain_last; [by rewrite length_set |]. rewrite get_set_ne; [done | lia | lia |]. set_solver.
  - apply NoDup_cons in Hnd as [Hx Hnd]. pose proof (chain_range _ _ Hch) as Hr. rewrite Forall_forall in Hr.
    pose proof (Hr x ltac:(set_solver)) as Hxr. pose proof (Hr l ltac:(set_solver)) as Hlr.
    assert (Hxl : l <> x) by set_solver.
    destruct cs as [|y cs]; cbn [app] in *; inversion Hch; subst;
      (apply chain_cons; [by rewrite length_set | rewrite get_set_ne by (lia || done); done |]); apply IH; set_solver.
Qed.

(** Chains have no more clusters than the table. *)
Lemma chain_length (cache cs : list Z) : NoDup cs -> chain cache cs -> (length cs < length cache)%nat.
Proof.
  intros Hnd Hch. pose proof (chain_range _ _ Hch) as Hr.
  assert (Hs : cs ⊆ (Z.of_nat <$> seq 1 (length cache - 1))).
  { intros c Hc. rewrite Forall_forall in Hr. specialize (Hr c Hc).
    apply list_elem_of_fmap. exists (Z.to_nat c). split; [lia |]. apply elem_of_seq. lia. }
  pose proof (NoDup_submseteq _ _ Hnd Hs) as Hle.
  apply submseteq_length in Hle. rewrite length_fmap, length_seq in Hle.
  inversion Hr; subst; [by apply chain_nonempty in Hch |]. lia.
Qed.

(** * Freeing *)

Definition freed1 (f : fat32) (c : Z) : fat32 :=
  with_fat f (free_count f + 1) (next_free f) (set (fat_cache f) c FAT32_FREE) true.

Definition freed (f : fat32) (cs : list Z) : fat32 := fold_left freed1 cs f.

Lemma freed1_ok (f : fat32) (c : Z) :
  fat_ok f -> 2 <= c < fat_entries f -> get (fat_cache f) c <> FAT32_FREE -> fat_ok (freed1 f c).
Proof.
  intros [H1 H2 H3 H4] Hc E. split; cbn; [by rewrite length_set | done | | done].
  rewrite count_free_set by lia. unfold free_unit at 1. replace (_ =? FAT32_FREE) with false by lia. cbn. lia.
Qed.

Lemma freed_facts (f : fat32) (cs : list Z) :
  fat_ok f -> NoDup cs -> Forall (fun c => 2 <= c < fat_entries f) cs ->
  Forall (fun c => get (fat_cache f) c <> FAT32_FREE) cs ->
  fat_ok (freed f cs) /\ free_count (freed f cs) = free_count f + Z.of_nat (length cs) /\
  (forall j, 0 <= j < fat_entries f ->
     get (fat_cache (freed f cs)) j = if decide (j ∈ cs) then FAT32_FREE else get (fat_cache f) j).
Proof.
  intros Hok Hnd. revert f Hok. induction Hnd as [|c cs Hc Hnd IH]; intros f Hok Hr Hu.
  { split_and!; [done | cbn; lia |]. intros j _. by rewrite decide_False by set_solver. }
  inversion Hr as [|? ? Hcr Hr']; subst. inversion Hu as [|? ? Hcu Hu']; subst.
  pose proof (freed1_ok f c Hok Hcr Hcu) as Hok1.
  assert (Hu1 : Forall (fun c0 => get (fat_cache (freed1 f c)) c0 <> FAT32_FREE) cs).
  { rewrite Forall_forall in Hu', Hr' |- *. intros x Hx. cbn [freed1 with_fat fat_cache]. specialize (Hr' x Hx).
    rewrite get_set_ne; [by apply Hu' | lia | lia |]. by intros ->. }
  destruct (IH (freed1 f c) Hok1 Hr' Hu1) as (H1 & H2 & H3). cbn [freed fold_left] in *. fold (freed (freed1 f c) cs) in *.
  split_and!; [done | rewrite H2; cbn [freed1 with_fat free_count length]; lia |].
  intros j Hj. rewrite H3 by done. cbn [freed1 with_fat fat_cache]. destruct (decide (j ∈ cs)) as [Hin | Hin].
  { by rewrite decide_True by set_solver. }
  destruct (decide (j = c)) as [-> | Hne].
  - rewrite decide_True by set_solver. apply get_set_eq. rewrite (fo_length f Hok). lia.
  - rewrite decide_False by set_solver. apply get_set_ne; lia.
Qed.

Lemma free_from_step (fuel : nat) (f : fat32) (c : Z) :
  fat_ok f -> 2 <= c < fat_entries f -> get (fat_cache f) c <> FAT32_FREE ->
  free_from (S fuel) f c =
  free_from fuel (freed1 f c) (if get (fat_cache f) c <? FAT32_EOC then get (fat_cache f) c else 0).
Proof.
  intros Hok Hc Hu. pose proof Hok as [Hl He Hf _]. unfold FAT32_BAD in He. cbn [free_from].
  replace (_ && _) with true by lia. rewrite fat_get_in, fat_set_in by (done || lia). cbn [obind with_fat free_count next_free fat_cache].
  rewrite wrap_small; [done |]. pose proof (count_free_nonneg (fat_cache f)). pose proof (count_free_le (fat_cache f)).
  split; lia.
Qed.

Lemma free_from_chain (cs : list Z) (fuel : nat) (f : fat32) :
  fat_ok f -> chain (fat_cache f) cs -> NoDup cs -> (length cs < fuel)%nat ->
  free_from fuel f (hd 0 cs) = Ret (freed f cs).
Proof.
  revert fuel f. induction cs as [|c cs IH]; intros fuel f Hok Hch Hnd Hfu; [by apply chain_nonempty in Hch |].
  destruct fuel as [|fuel]; [lia |]. cbn [length] in Hfu. cbn [hd].
  pose proof (chain_range _ _ Hch) as Hr. pose proof (chain_used _ _ Hch) as Hu.
  rewrite (fo_length f Hok) in Hr. inversion Hr as [|? ? Hcr Hr']; subst. inversion Hu as [|? ? Hcu Hu']; subst.
  rewrite free_from_step by done. apply NoDup_cons in Hnd as [Hc Hnd].
  inversion Hch as [c0 Hx He | c0 c' cs0 Hx He Hch']; subst.
  - replace (_ <? FAT32_EOC) with false by lia. destruct fuel; [lia |]. done.
  - inversion Hr' as [|? ? Hr2 _]; subst. pose proof (fo_entries f Hok). unfold FAT32_BAD, FAT32_EOC in *.
    replace (_ <? _) with true by lia. cbn [freed fold_left]. apply IH; [by apply freed1_ok | | done | lia].
    cbn [freed1 with_fat fat_cache]. apply chain_set_other; [lia | done | done].
Qed.

(** ** Termination on any table *)

Definition nonzero (l : list Z) : nat := length (filter (fun v => v <> FAT32_FREE) l).

Lemma nonzero_set (l : list Z) (c : Z) :
  0 <= c < Z.of_nat (length l) -> get l c <> FAT32_FREE -> S (nonzero (set l c FAT32_FREE)) = nonzero l.
Proof.
  intros Hc Hu. pose proof (get_lookup l c ltac:(lia)) as E. unfold nonzero.
  rewrite <- (take_drop_middle l (Z.to_nat c) (get l c) E) at 2. unfold set. rewrite insert_take_drop by lia.
  rewrite !filter_app, filter_cons_False by (intros Hn; by apply Hn). rewrite filter_cons_True by done.
  rewrite !length_app. cbn [length]. lia.
Qed.

(** The walk erases what it passes, so that it cannot go around a cycle: every table is
    walked in as many steps as it has used entries, and two. *)
Lemma free_from_enough (fuel : nat) (f : fat32) (c : Z) :
  Z.of_nat (length (fat_cache f)) = fat_entries f -> (nonzero (fat_cache f) + 2 <= fuel)%nat ->
  exists f', free_from fuel f c = Ret f'.
Proof.
  revert f c. induction fuel as [|fuel IH]; intros f c Hl Hn; [lia |]. cbn [free_from].
  destruct ((2 <=? c) && (c <? fat_entries f)) eqn:Hr; [| by eexists].
  rewrite fat_get_in, fat_set_in by (done || lia). cbn [obind with_fat free_count next_free fat_cache].
  destruct (decide (get (fat_cache f) c = FAT32_FREE)) as [E | E].
  - rewrite E. destruct fuel; [lia |]. by eexists.
  - apply IH; cbn [fat_cache fat_entries with_fat]; [by rewrite length_set |].
    pose proof (nonzero_set (fat_cache f) c ltac:(lia) E). lia.
Qed.

Lemma nonzero_le (l : list Z) : (nonzero l <= length l)%nat.
Proof. apply length_filter. Qed.

(** C17: freeing a chain ends on every table, also on one whose entries form a cycle or point
    anywhere. *)
Theorem free_cluster_chain_total (f : fat32) (c : Z) :
  Z.of_nat (length (fat_cache f)) = fat_entries f -> exists f', fat32_free_cluster_chain f c = Ret f'.
Proof. intros Hl. apply free_from_enough; [done |]. pose proof (nonzero_le (fat_cache f)). unfold walk_fuel. lia. Qed.

(** * Allocating a chain *)

(** The rest of the file system is the same. *)
Definition geom (f f' : fat32) : Prop :=
  f' = with_fat f (free_count f') (next_free f') (fat_cache f') (dirty f').

Lemma geom_refl (f : fat32) : geom f f.
Proof. by destruct f. Qed.

Lemma geom_trans (f g h : fat32) : geom f g -> geom g h -> geom f h.
Proof. unfold geom. intros E1 E2. rewrite E2, E1. by destruct f. Qed.

Lemma geom_entries (f f' : fat32) : geom f f' -> fat_entries f' = fat_entries f.
Proof. intros ->. done. Qed.

Lemma count_free_zero (l : list Z) :
  (forall c, 2 <= c < Z.of_nat (length l) -> get l c <> FAT32_FREE) -> count_free l = 0.
Proof.
  intros Hu. unfold count_free. destruct (filter _ (drop 2 l)) as [|v r] eqn:E; [done |].
  assert (Hv : v ∈ filter (fun v => v = FAT32_FREE) (drop 2 l)) by (rewrite E; set_solver).
  apply list_elem_of_filter in Hv as [Hv Hin]. apply list_elem_of_lookup in Hin as [i Hi].
  rewrite lookup_drop in Hi. pose proof (lookup_lt_Some _ _ _ Hi). exfalso.
  apply (Hu (Z.of_nat (2 + i))); [lia |]. unfold get. rewrite Nat2Z.id, nth_lookup, Hi. done.
Qed.

(** [cs] has been allocated from the table [f0], the result is [f]. *)
Record allocated (f0 f : fat32) (cs : list Z) : Prop := mk_allocated {
  al_ok : fat_ok f;
  al_geom : geom f0 f;
  al_nodup : NoDup cs;
  al_chain : cs <> [] -> chain (fat_cache f) cs;
  al_free : Forall (fun c => 2 <= c < fat_entries f0 /\ get (fat_cache f0) c = FAT32_FREE) cs;
  al_count : free_count f = free_count f0 - Z.of_nat (length cs);
  al_other j : 0 <= j < fat_entries f0 -> j ∉ cs -> get (fat_cache f) j = get (fat_cache f0) j
}.

Lemma allocated_nil (f : fat32) : fat_ok f -> allocated f f [].
Proof. intros Hok. split; try done; [apply geom_refl | constructor | cbn; lia]. Qed.

(** One more cluster: [taken] and the link from the last one. *)
Definition extended (f : fat32) (cs : list Z) (c : Z) : fat32 :=
  match last cs with
  | None => taken f c
  | Some l => with_fat (taken f c) (free_count (taken f c)) (next_free (taken f c)) (set (fat_cache (taken f c)) l c) true
  end.

Lemma used_not_in (f0 f : fat32) (cs : list Z) (c : Z) :
  allocated f0 f cs -> get (fat_cache f) c = FAT32_FREE -> c ∉ cs.
Proof.
  intros [_ _ _ Hch _ _ _] E Hin. assert (Hne : cs <> []) by (by destruct cs; [apply not_elem_of_nil in Hin |]).
  pose proof (chain_used _ _ (Hch Hne)) as Hu. rewrite Forall_forall in Hu. by apply (Hu c Hin).
Qed.

Lemma extended_ok (f0 f : fat32) (cs : list Z) (c : Z) :
  fat_ok f0 -> allocated f0 f cs -> 2 <= c < fat_entries f -> get (fat_cache f) c = FAT32_FREE ->
  allocated f0 (extended f cs c) (cs ++ [c]).
Proof.
  intros Hok0 Hal Hc E. pose proof (used_not_in _ _ _ _ Hal E) as Hn. destruct Hal as [Hok Hg Hnd Hch Hfr Hct Hot].
  pose proof (taken_ok f c Hok Hc E) as Hokt. pose proof (geom_entries _ _ Hg) as Hge. pose proof (fo_length f Hok) as Hl.
  assert (Hnd' : NoDup (cs ++ [c])) by (apply NoDup_app; split_and!; [done | set_solver | apply NoDup_singleton]).
  assert (Hfr' : Forall (fun c => 2 <= c < fat_entries f0 /\ get (fat_cache f0) c = FAT32_FREE) (cs ++ [c])).
  { apply Forall_app. split; [done |]. constructor; [| done]. rewrite <- Hge, <- Hot by (lia || done). done. }
  assert (Hgt : geom f0 (taken f c)) by (apply (geom_trans f0 f); [done |]; unfold taken, geom; by destruct f).
  assert (Hct' : free_count (taken f c) = free_count f0 - Z.of_nat (length (cs ++ [c]))).
  { rewrite length_app. cbn. lia. }
  destruct cs as [|l cs _] using rev_ind.
  { cbn [app] in *. split; try done.
    - intros _. apply chain_last; cbn [extended last taken with_fat fat_cache]; [rewrite length_set; lia |]. rewrite get_set_eq by lia. done.
    - intros j Hj Hjn. cbn [taken extended last with_fat fat_cache]. rewrite get_set_ne; [apply Hot; [done | set_solver] | lia | lia |]. set_solver. }
  unfold extended. rewrite last_snoc. pose proof (Hch ltac:(by destruct cs)) as Hc0.
  pose proof (chain_range _ _ Hc0) as Hr. rewrite Forall_forall in Hr. pose proof (Hr l ltac:(set_solver)) as Hlr.
  assert (Hlc : l <> c) by set_solver.
  split; try done.
  - destruct Hokt as [K1 K2 K3 K4]. split; cbn [with_fat fat_cache fat_entries free_count next_free]; try done;
      [by rewrite length_set |].
    rewrite count_free_set by (cbn [taken with_fat fat_cache]; rewrite length_set; lia). rewrite K3.
    assert (free_unit (get (fat_cache (taken f c)) l) = 0) as ->.
    { unfold free_unit. cbn [taken with_fat fat_cache]. rewrite get_set_ne by lia.
      pose proof (chain_used _ _ Hc0) as Hu. rewrite Forall_forall in Hu. specialize (Hu l ltac:(set_solver)).
      by replace (_ =? FAT32_FREE) with false by lia. }
    unfold free_unit. replace (c =? FAT32_FREE) with false by (unfold FAT32_FREE; lia). lia.
  - apply (geom_trans f0 (taken f c)); [done |]. by unfold geom.
  - intros _. cbn [with_fat fat_cache]. rewrite <- app_assoc. apply chain_snoc; [| done | | done |].
    + cbn [taken with_fat fat_cache]. apply chain_set_other; [lia | done | done].
    + cbn [taken with_fat fat_cache]. rewrite length_set. lia.
    + cbn [taken with_fat fat_cache]. rewrite get_set_eq by lia. done.
  - intros j Hj Hjn. apply not_elem_of_app in Hjn as [Hj1 Hj2].
    assert (l <> j) by set_solver. assert (c <> j) by set_solver.
    cbn [taken with_fat fat_cache]. rewrite !get_set_ne by lia. by apply Hot.
Qed.

Definition tail_of (cs : list Z) : Z := default 0 (last cs).

(** Linking the new cluster is the assignment [fat_cache[prev] = cluster]. *)
Lemma link_extended (f0 f : fat32) (cs : list Z) (c : Z) :
  allocated f0 f cs ->
  (if tail_of cs =? 0 then Ret (taken f c) else fat_set (taken f c) (tail_of cs) c) = Ret (extended f cs c).
Proof.
  intros [Hok Hg Hnd Hch _ _ _]. unfold extended, tail_of. destruct cs as [|l cs _] using rev_ind; [done |].
  rewrite last_snoc. cbn [default from_option id]. unfold id. pose proof (chain_range _ _ (Hch ltac:(by destruct cs))) as Hr.
  rewrite Forall_forall in Hr. pose proof (Hr l ltac:(set_solver)) as Hl. rewrite (fo_length f Hok) in Hl.
  replace (l =? 0) with false by lia. rewrite fat_set_in; [done | | cbn; lia].
  cbn [taken with_fat fat_cache fat_entries]. rewrite length_set. apply (fo_length f Hok).
Qed.

(** Giving the clusters back restores the table. *)
Lemma freed_back (f0 f : fat32) (cs : list Z) :
  fat_ok f0 -> allocated f0 f cs -> cs <> [] ->
  fat32_free_cluster_chain f (hd 0 cs) = Ret (freed f cs) /\ fat_ok (freed f cs) /\
  fat_cache (freed f cs) = fat_cache f0 /\ free_count (freed f cs) = free_count f0.
Proof.
  intros Hok0 [Hok Hg Hnd Hch Hfr Hct Hot] Hne. pose proof (Hch Hne) as Hc. pose proof (geom_entries _ _ Hg) as Hge.
  pose proof (chain_range _ _ Hc) as Hr. rewrite (fo_length f Hok) in Hr.
  pose proof (chain_length _ _ Hnd Hc) as Hlen.
  destruct (freed_facts f cs Hok Hnd Hr (chain_used _ _ Hc)) as (H1 & H2 & H3).
  split_and!; [| done | | lia].
  - apply free_from_chain; [done | done | done |]. unfold walk_fuel. lia.
  - assert (Hgf : fat_entries (freed f cs) = fat_entries f).
    { clear. revert f. induction cs as [|c cs IH]; intros f; [done |]. cbn [freed fold_left]. fold (freed (freed1 f c) cs). by rewrite IH. }
    apply list_eq_get; [pose proof (fo_length _ H1); pose proof (fo_length _ Hok0); lia |].
    intros j Hj. rewrite (fo_length _ H1), Hgf in Hj. rewrite H3 by done. destruct (decide (j ∈ cs)) as [Hin | Hin].
    + rewrite Forall_forall in Hfr. by destruct (Hfr j Hin) as [_ ->].
    + apply Hot; [lia | done].
Qed.

Lemma freed_geom (f : fat32) (cs : list Z) : geom f (freed f cs).
Proof.
  revert f. induction cs as [|c cs IH]; intros f; [apply geom_refl |]. cbn [freed fold_left]. fold (freed (freed1 f c) cs).
  apply (geom_trans f (freed1 f c)); [by unfold geom, freed1 | apply IH].
Qed.

Lemma alloc_clusters_from_ok (n : nat) (f0 f : fat32) (cs : list Z) :
  fat_ok f0 -> allocated f0 f cs ->
  (exists f' cs', length cs' = n /\ allocated f0 f' (cs ++ cs') /\
     alloc_clusters_from n f (hd 0 cs) (tail_of cs) = Ret (true, hd 0 (cs ++ cs'), f')) \/
  (exists f' first, alloc_clusters_from n f (hd 0 cs) (tail_of cs) = Ret (false, first, f') /\
     fat_ok f' /\ geom f0 f' /\ fat_cache f' = fat_cache f0 /\ free_count f' = free_count f0 /\
     free_count f0 < Z.of_nat (length cs) + Z.of_nat n).
Proof.
  intros Hok0. revert f cs. induction n as [|n IH]; intros f cs Hal.
  { left. exists f, []. rewrite app_nil_r. done. }
  pose proof (al_ok _ _ _ Hal) as Hok. cbn [alloc_clusters_from].
  destruct (alloc_cluster_ok f Hok) as [(i & Hi & E & _ & ->) | [Hno ->]]; cbn [obind].
  - pose proof (fo_entries f Hok) as He. pose proof (scan_pos_range f (scan_start f) i (scan_start_range f ltac:(lia)) Hi) as Hr.
    set (c := scan_pos f (scan_start f) i) in *. replace (c =? 0) with false by lia.
    rewrite (link_extended f0 f cs c Hal). cbn [obind].
    replace (if hd 0 cs =? 0 then c else hd 0 cs) with (hd 0 (cs ++ [c])).
    2: { destruct cs as [|x cs]; [done |]. cbn [hd app]. pose proof (al_free _ _ _ Hal) as Hf. inversion Hf; subst.
         by replace (x =? 0) with false by lia. }
    assert (Et : tail_of (cs ++ [c]) = c) by (unfold tail_of; by rewrite last_snoc).
    destruct (IH _ _ (extended_ok f0 f cs c Hok0 Hal Hr E)) as [(f' & cs' & Hl & Ha & Er) | (f' & first & Er & H1 & H2 & H3 & H4 & H5)];
      rewrite Et in Er.
    + left. exists f', (c :: cs'). rewrite <- app_assoc in Ha, Er. split_and!; [cbn; lia | done | exact Er].
    + right. exists f', first. split_and!; try done. rewrite length_app in H5. cbn in H5. lia.
  - right. cbn [Z.eqb]. assert (H0 : free_count f = 0).
    { rewrite (fo_free f Hok). apply count_free_zero. by rewrite (fo_length f Hok). }
    pose proof (al_count _ _ _ Hal) as Hct. destruct cs as [|x cs].
    + cbn [hd]. exists f, 0. split_and!; try done; [apply Hal | | | cbn in Hct |- *; lia].
      * apply list_eq_get; [pose proof (fo_length _ Hok); pose proof (fo_length _ Hok0); pose proof (geom_entries _ _ (al_geom _ _ _ Hal)); lia |].
        intros j Hj. apply (al_other _ _ _ Hal); [| set_solver].
        rewrite (fo_length _ Hok), (geom_entries _ _ (al_geom _ _ _ Hal)) in Hj. done.
      * cbn in Hct. lia.
    + pose proof (al_free _ _ _ Hal) as Hf. inversion Hf as [|? ? [Hx _] _]; subst. cbn [hd].
      replace (x =? 0) with false by lia.
      destruct (freed_back f0 f (x :: cs) Hok0 Hal ltac:(done)) as (E1 & E2 & E3 & E4). cbn [hd] in E1. rewrite E1.
      cbn [obind]. exists (freed f (x :: cs)), x. split_and!; try done.
      * apply (geom_trans f0 f); [apply Hal | apply freed_geom].
      * lia.
Qed.

(** [fat32_alloc_clusters] hands out a chain of as many clusters as asked for, all of
    them free before, and touches no other entry; when fewer are free it reports that and
    leaves table and count as they were. *)
Theorem alloc_clusters_spec (f : fat32) (count : Z) :
  fat_ok f -> 0 < count ->
  exists r first f', fat32_alloc_clusters f count = Ret (r, first, f') /\ fat_ok f' /\ geom f f' /\
    if count <=? free_count f then
      r = count /\ exists cs, Z.of_nat (length cs) = count /\ hd 0 cs = first /\ NoDup cs /\ chain (fat_cache f') cs /\
        Forall (fun c => get (fat_cache f) c = FAT32_FREE) cs /\ free_count f' = free_count f - count /\
        forall j, 0 <= j < fat_entries f -> j ∉ cs -> get (fat_cache f') j = get (fat_cache f) j
    else r = 0 /\ fat_cache f' = fat_cache f /\ free_count f' = free_count f.
Proof.
  intros Hok Hc. unfold fat32_alloc_clusters.
  destruct (alloc_clusters_from_ok (Z.to_nat count) f f [] Hok (allocated_nil f Hok))
    as [(f' & cs & Hl & [H1 H2 H3 H4 H5 H6 H7] & E) | (f' & first & E & H1 & H2 & H3 & H4 & H5)];
    cbn [hd tail_of last default] in E; rewrite E; cbn [obind].
  - exists count, (hd 0 cs), f'. cbn [app] in *. split_and!; [done | done | done |].
    assert (0 <= free_count f') by (rewrite (fo_free f' H1); apply count_free_nonneg).
    replace (count <=? free_count f) with true by lia. split; [done |]. exists cs.
    split_and!; [lia | done | done | | | lia | done].
    + apply H4. intros ->. cbn in Hl. lia.
    + eapply Forall_impl; [exact H5 |]. by intros c [_ ?].
  - exists 0, first, f'. split_and!; [done | done | done |]. cbn [length] in H5.
    by replace (count <=? free_count f) with false by lia.
Qed.

(** Freeing a chain makes exactly its clusters free, and counts them. *)
Theorem free_cluster_chain_spec (f : fat32) (cs : list Z) :
  fat_ok f -> chain (fat_cache f) cs -> NoDup cs ->
  exists f', fat32_free_cluster_chain f (hd 0 cs) = Ret f' /\ fat_ok f' /\ geom f f' /\
    free_count f' = free_count f + Z.of_nat (length cs) /\
    (forall j, 0 <= j < fat_entries f ->
       get (fat_cache f') j = if decide (j ∈ cs) then FAT32_FREE else get (fat_cache f) j).
Proof.
  intros Hok Hch Hnd. pose proof (chain_range _ _ Hch) as Hr. rewrite (fo_length f Hok) in Hr.
  pose proof (chain_length _ _ Hnd Hch) as Hlen.
  destruct (freed_facts f cs Hok Hnd Hr (chain_used _ _ Hch)) as (H1 & H2 & H3).
  exists (freed f cs). split_and!; try done; [| apply freed_geom].
  apply free_from_chain; [done | done | done |]. unfold walk_fuel. lia.
Qed.
