(* ===== verification/Fat32Data.v ===== *)
(** File contents in the FAT32 driver (Fat32.v): clusters as ranges of the device, reading a
    file as a part of the bytes of its chain, and writing as a change of that part. *)

From S2P Require Import Prelude Bytes Buffer SectorDev Fat32 Fat32Chain.

(** * The volume *)

Section volume.
Context {D : Type} `{SectorDev D}.

(** The device holds [l], and the geometry is that of a mounted volume. *)
Record vol_ok (fs : fatfs D) (l : list Z) : Prop := mk_vol_ok {
  vo_dev : sd_holds (fs_dev fs) l;
  vo_fat : fat_ok (fs_fat fs);
  vo_spc : 0 < sectors_per_cluster (fs_fat fs) < 256;
  vo_bpc : bytes_per_cluster (fs_fat fs) = 512 * sectors_per_cluster (fs_fat fs);
  vo_data : 0 <= data_start (fs_fat fs)
}.

(** Where cluster [c] begins, and that it is inside the device. *)
Definition cluster_pos (f : fat32) (c : Z) : Z := 512 * (data_start f + (c - 2) * sectors_per_cluster f).

Definition in_volume (f : fat32) (l : list Z) (c : Z) : Prop :=
  2 <= c /\ cluster_pos f c + bytes_per_cluster f <= Z.of_nat (length l) /\
  data_start f + (c - 2) * sectors_per_cluster f < 2 ^ 32.

Definition cluster_bytes (f : fat32) (l : list Z) (c : Z) : list Z := slice l (cluster_pos f c) (bytes_per_cluster f).

Definition file_bytes (f : fat32) (l : list Z) (cs : list Z) : list Z := concat (cluster_bytes f l <$> cs).

Lemma length_cluster_bytes (fs : fatfs D) (l : list Z) (c : Z) :
  vol_ok fs l -> in_volume (fs_fat fs) l c ->
  Z.of_nat (length (cluster_bytes (fs_fat fs) l c)) = bytes_per_cluster (fs_fat fs).
Proof.
  intros [_ _ Hs Hb Hd] (H2 & H3 & _). apply length_slice; [| lia | done]. unfold cluster_pos. nia.
Qed.

Lemma length_file_bytes (fs : fatfs D) (l cs : list Z) :
  vol_ok fs l -> Forall (in_volume (fs_fat fs) l) cs ->
  Z.of_nat (length (file_bytes (fs_fat fs) l cs)) = bytes_per_cluster (fs_fat fs) * Z.of_nat (length cs).
Proof.
  intros Hv. unfold file_bytes. induction 1 as [|c cs Hc _ IH]; cbn [fmap list_fmap concat length]; [lia |].
  rewrite length_app, Nat2Z.inj_add, IH, (length_cluster_bytes fs) by done. lia.
Qed.

Lemma cluster_sector_pos (fs : fatfs D) (l : list Z) (c : Z) :
  vol_ok fs l -> in_volume (fs_fat fs) l c ->
  0 <= cluster_sector (fs_fat fs) c /\ cluster_sector (fs_fat fs) c * 512 = cluster_pos (fs_fat fs) c /\
  cluster_sector (fs_fat fs) c + sectors_per_cluster (fs_fat fs) <= sd_total (fs_dev fs).
Proof.
  intros [Hh _ Hs Hb Hd] (H2 & H3 & H4). unfold cluster_sector, cluster_pos in *.
  destruct (sd_holds_ok _ _ Hh) as (_ & _ & Hl & _). 
  assert (Hy : 0 <= (c - 2) * sectors_per_cluster (fs_fat fs)) by nia.
  revert Hy H3 H4. generalize ((c - 2) * sectors_per_cluster (fs_fat fs)). intros y Hy H3 H4.
  rewrite wrap_small by (split; lia). lia.
Qed.

Lemma read_cluster_ok (fs : fatfs D) (l : list Z) (c : Z) (buf : list Z) :
  vol_ok fs l -> in_volume (fs_fat fs) l c -> Z.of_nat (length buf) = bytes_per_cluster (fs_fat fs) ->
  exists d, fat32_read_cluster fs c buf = Ret (true, cluster_bytes (fs_fat fs) l c, mk_fs d (fs_fat fs)) /\
    vol_ok (mk_fs d (fs_fat fs)) l.
Proof.
  intros Hv Hc Hb. pose proof Hc as (H2 & _). pose proof (length_cluster_bytes fs l c Hv Hc) as Hlen.
  destruct (cluster_sector_pos fs l c Hv Hc) as (P1 & P2 & P3). destruct Hv as [Hh Hf Hs Hbp Hd].
  destruct (sd_read_ok _ l _ (sectors_per_cluster (fs_fat fs)) Hh P1 ltac:(lia) P3) as (d & E & Hh').
  unfold fat32_read_cluster, fat32_read_sectors. replace (c <? 2) with false by lia. rewrite E. cbn [obind].
  rewrite P2. replace (sectors_per_cluster (fs_fat fs) * 512) with (bytes_per_cluster (fs_fat fs)) by lia.
  fold (cluster_bytes (fs_fat fs) l c). replace (_ <=? _)%nat with true by lia.
  rewrite splice_all by lia. exists d. split; [done |]. by split.
Qed.

Lemma write_cluster_ok (fs : fatfs D) (l : list Z) (c : Z) (buf : list Z) :
  vol_ok fs l -> in_volume (fs_fat fs) l c -> Z.of_nat (length buf) = bytes_per_cluster (fs_fat fs) ->
  exists d, fat32_write_cluster fs c buf = Ret (true, mk_fs d (fs_fat fs)) /\
    vol_ok (mk_fs d (fs_fat fs)) (splice l (cluster_pos (fs_fat fs) c) buf).
Proof.
  intros Hv Hc Hb. pose proof Hc as (H2 & _).
  destruct (cluster_sector_pos fs l c Hv Hc) as (P1 & P2 & P3). destruct Hv as [Hh Hf Hs Hbp Hd].
  destruct (sd_write_ok _ l _ (sectors_per_cluster (fs_fat fs)) buf Hh P1 ltac:(lia) P3 ltac:(lia)) as (d & E & Hh').
  unfold fat32_write_cluster, fat32_write_sectors. replace (c <? 2) with false by lia. rewrite E. cbn [obind].
  rewrite P2 in Hh'. exists d. split; [done |]. by split.
Qed.

(** A write of one cluster is seen in that cluster only. *)
Lemma write_length (fs : fatfs D) (l : list Z) (c : Z) (buf : list Z) :
  vol_ok fs l -> in_volume (fs_fat fs) l c -> Z.of_nat (length buf) = bytes_per_cluster (fs_fat fs) ->
  length (splice l (cluster_pos (fs_fat fs) c) buf) = length l.
Proof. intros [_ _ Hs Hb Hd] (H2 & H3 & _) Hl. apply length_splice; [unfold cluster_pos; nia | lia]. Qed.

Lemma cluster_bytes_write (fs : fatfs D) (l : list Z) (c c' : Z) (buf : list Z) :
  vol_ok fs l -> in_volume (fs_fat fs) l c -> 2 <= c' -> Z.of_nat (length buf) = bytes_per_cluster (fs_fat fs) ->
  cluster_bytes (fs_fat fs) (splice l (cluster_pos (fs_fat fs) c) buf) c' =
  if decide (c' = c) then buf else cluster_bytes (fs_fat fs) l c'.
Proof.
  intros [_ _ Hs Hb Hd] (H2 & H3 & _) H4 Hl. unfold cluster_bytes. destruct (decide (c' = c)) as [-> | Hne].
  - rewrite <- Hl. apply slice_splice_eq; [unfold cluster_pos; nia | lia].
  - unfold cluster_pos in *. apply slice_splice_ne; nia.
Qed.

Lemma in_volume_write (f : fat32) (l l' : list Z) (c : Z) : length l' = length l -> in_volume f l c -> in_volume f l' c.
Proof. unfold in_volume. intros ->. done. Qed.

(** * Walking a chain *)

Lemma live_in (f : fat32) (c : Z) : fat_ok f -> 2 <= c < fat_entries f -> live c = true.
Proof. intros [_ He _ _] Hc. unfold live, FAT32_BAD, FAT32_EOC in *. replace (c =? 0) with false by lia. cbn. lia. Qed.

Lemma live_eoc : live FAT32_EOC = false.
Proof. done. Qed.

(** The next cluster, or the end mark behind the last. *)
Lemma chain_next (f : fat32) (c : Z) (cs : list Z) :
  fat_ok f -> chain (fat_cache f) (c :: cs) -> fat32_next_cluster f c = Ret (hd FAT32_EOC cs).
Proof.
  intros [Hl He _ _] Hch. unfold fat32_next_cluster, FAT32_BAD in *. pose proof (chain_range _ _ Hch) as Hr.
  inversion Hr as [|? ? Hc Hr']; subst. rewrite Hl in Hc. replace (_ || _) with false by lia.
  rewrite fat_get_in by (done || lia). cbn [obind]. inversion Hch as [? _ Hx | ? c' cs' _ Hx Hch']; subst.
  - by replace (FAT32_EOC <=? _) with true by lia.
  - inversion Hr' as [|? ? Hc' _]; subst. rewrite Hl in Hc'. unfold FAT32_EOC, FAT32_FREE in *.
    replace (_ <=? _) with false by lia. by replace (_ || _) with false by lia.
Qed.

Lemma chain_tail (cache : list Z) (c : Z) (cs : list Z) : chain cache (c :: cs) -> cs <> [] -> chain cache cs.
Proof. inversion 1; subst; done. Qed.

Lemma chain_drop (cache cs : list Z) (n : nat) : chain cache cs -> (n < length cs)%nat -> chain cache (drop n cs).
Proof.
  revert cs. induction n as [|n IH]; intros cs Hch Hn; [done |]. destruct cs as [|c cs]; [done |]. cbn [drop length] in *.
  apply IH; [| lia]. apply (chain_tail _ c); [done |]. intros ->. cbn in Hn. lia.
Qed.

Lemma skip_chain_ok (f : fat32) (cs : list Z) (n : nat) :
  fat_ok f -> chain (fat_cache f) cs -> (n < length cs)%nat -> skip_chain n f (hd FAT32_EOC cs) = Ret (hd FAT32_EOC (drop n cs)).
Proof.
  intros Hok. revert cs. induction n as [|n IH]; intros cs Hch Hn; [done |].
  destruct cs as [|c cs]; [done |]. cbn [skip_chain hd drop length] in *.
  pose proof (chain_range _ _ Hch) as Hr. inversion Hr as [|? ? Hc _]; subst. rewrite (fo_length f Hok) in Hc.
  rewrite (live_in f c Hok Hc), (chain_next f c cs Hok Hch). cbn [obind]. apply IH; [| lia].
  apply (chain_tail _ c); [done |]. intros ->. cbn in Hn. lia.
Qed.

(** * Files *)

(** A file of the volume: its chain, and a size that the chain can hold. *)
Record file_ok (fs : fatfs D) (l : list Z) (ino : inode) (cs : list Z) : Prop := mk_file_ok {
  fi_chain : chain (fat_cache (fs_fat fs)) cs;
  fi_nodup : NoDup cs;
  fi_first : first_cluster (i_private ino) = hd FAT32_EOC cs;
  fi_vol : Forall (in_volume (fs_fat fs) l) cs;
  fi_size : 0 <= i_size ino <= bytes_per_cluster (fs_fat fs) * Z.of_nat (length cs);
  fi_bound : i_size ino < 2 ^ 32
}.

Lemma write_skip_ok (fs : fatfs D) (ino : inode) (cs : list Z) (n : nat) :
  fat_ok (fs_fat fs) -> chain (fat_cache (fs_fat fs)) cs -> (n < length cs)%nat ->
  write_skip n fs ino (hd FAT32_EOC cs) = Ret (Some (hd FAT32_EOC (drop n cs)), ino, fs).
Proof.
  intros Hok. revert cs. induction n as [|n IH]; intros cs Hch Hn; [done |].
  destruct cs as [|c cs]; [cbn in Hn; lia |]. cbn [write_skip hd drop length] in *.
  pose proof (chain_range _ _ Hch) as Hr. inversion Hr as [|? ? Hc _]; subst. rewrite (fo_length _ Hok) in Hc.
  rewrite (live_in _ c Hok Hc), (chain_next _ c cs Hok Hch). cbn [negb obind]. apply IH; [| lia].
  apply (chain_tail _ c); [done |]. intros ->. cbn in Hn. lia.
Qed.

(** Within the chain nothing is allocated. *)
Lemma gather_ok (fs : fatfs D) (ino : inode) (cs : list Z) (n : nat) (acc : list Z) :
  fat_ok (fs_fat fs) -> chain (fat_cache (fs_fat fs)) cs -> (n <= length cs)%nat ->
  gather n fs ino (hd FAT32_EOC cs) acc = Ret (Some (acc ++ take n cs), ino, fs).
Proof.
  intros Hok. revert cs acc. induction n as [|n IH]; intros cs acc Hch Hn; [by rewrite take_0, app_nil_r |].
  destruct cs as [|c cs]; [cbn in Hn; lia |]. cbn [gather hd take length] in *.
  pose proof (chain_range _ _ Hch) as Hr. inversion Hr as [|? ? Hc _]; subst. rewrite (fo_length _ Hok) in Hc.
  rewrite (live_in _ c Hok Hc), (chain_next _ c cs Hok Hch). cbn [negb obind].
  destruct n as [|n]; [done |]. rewrite IH; [by rewrite <- app_assoc | | lia].
  apply (chain_tail _ c); [done |]. intros ->. cbn in Hn. lia.
Qed.

Lemma file_bytes_ext (f : fat32) (l l' cs : list Z) :
  Forall (fun c => cluster_bytes f l' c = cluster_bytes f l c) cs -> file_bytes f l' cs = file_bytes f l cs.
Proof. intros HF. unfold file_bytes. f_equal. by apply Forall_fmap_ext_1. Qed.

Lemma file_bytes_app (f : fat32) (l cs ks : list Z) : file_bytes f l (cs ++ ks) = file_bytes f l cs ++ file_bytes f l ks.
Proof. unfold file_bytes. by rewrite fmap_app, concat_app. Qed.

End volume.

(** * Reading and writing files *)

Section files.
Context {D : Type} `{SectorDev D}.
Variable stk : Z -> Z.

Lemma read_loop_ok (fuel : nat) (fs : fatfs D) (l cs : list Z) (off to_read : Z) (acc : list Z) :
  vol_ok fs l -> (cs <> [] -> chain (fat_cache (fs_fat fs)) cs) -> Forall (in_volume (fs_fat fs) l) cs ->
  let bpc := bytes_per_cluster (fs_fat fs) in
  let r := to_read - Z.of_nat (length acc) in
  0 <= off < bpc -> 0 <= r < 2 ^ 32 -> off + r <= bpc * Z.of_nat (length cs) \/ r = 0 -> off + r <= bpc * Z.of_nat fuel \/ r = 0 ->
  exists d, read_loop stk fuel fs (hd FAT32_EOC cs) off to_read acc =
      Ret (Some (acc ++ slice (file_bytes (fs_fat fs) l cs) off r), mk_fs d (fs_fat fs)) /\
    vol_ok (mk_fs d (fs_fat fs)) l.
Proof.
  cbv zeta. revert fs cs off acc. induction fuel as [|fuel IH]; intros fs cs off acc Hv Hch Hin Hoff Hr Hlen Hfu;
    (destruct (decide (to_read - Z.of_nat (length acc) = 0)) as [H0 | H0];
      [exists (fs_dev fs); rewrite H0, slice_nil, app_nil_r; unfold read_loop;
       replace (Z.of_nat (length acc) <? to_read) with false by lia; cbn [andb]; destruct fs; done |]).
  { lia. }
  destruct cs as [|c cs]; [cbn [length] in Hlen; lia |]. cbn [length hd] in *. pose proof Hv as [_ Hok Hs Hbp _].
  pose proof (Hch ltac:(done)) as Hc. pose proof (chain_range _ _ Hc) as Hrg. inversion Hrg as [|? ? Hcr _]; subst.
  rewrite (fo_length _ Hok) in Hcr. inversion Hin as [|? ? Hcv Hcsv]; subst.
  cbn [read_loop]. replace (Z.of_nat (length acc) <? to_read) with true by lia. rewrite (live_in _ c Hok Hcr). cbn [andb].
  destruct (read_cluster_ok fs l c (uninit stk (bytes_per_cluster (fs_fat fs))) Hv Hcv) as (d & E & Hv').
  { rewrite length_uninit. lia. }
  rewrite E. cbn [obind negb fs_fat]. rewrite (chain_next _ c cs Hok Hc). cbn [obind].
  rewrite wrap_small by (split; lia). set (copy := if _ <? _ then _ else _).
  pose proof (length_cluster_bytes fs l c Hv Hcv) as Hcl.
  assert (Hcopy : 0 < copy <= bytes_per_cluster (fs_fat fs) - off /\ copy <= to_read - Z.of_nat (length acc) /\
            (copy = bytes_per_cluster (fs_fat fs) - off \/ copy = to_read - Z.of_nat (length acc))).
  { unfold copy. destruct (Z.ltb_spec (to_read - Z.of_nat (length acc)) (bytes_per_cluster (fs_fat fs) - off)); lia. }
  pose proof (length_slice (cluster_bytes (fs_fat fs) l c) off copy ltac:(lia) ltac:(lia) ltac:(lia)) as Hsl.
  destruct (IH (mk_fs d (fs_fat fs)) cs 0 (acc ++ slice (cluster_bytes (fs_fat fs) l c) off copy)) as (d' & E' & Hv'');
    cbn [fs_fat]; try done; try lia.
  { intros Hne. by apply (chain_tail _ c). }
  { rewrite length_app. lia. }
  { rewrite length_app. lia. }
  { rewrite length_app. lia. }
  exists d'. rewrite E'. split; [| done]. do 3 f_equal. rewrite <- app_assoc. f_equal.
  rewrite length_app, Nat2Z.inj_add, Hsl. unfold file_bytes. cbn [fmap list_fmap concat].
  destruct Hcopy as (Hc1 & Hc2 & [Hc3 | Hc3]).
  - symmetry. rewrite slice_app_both by lia. rewrite Hcl, Hc3. f_equal. f_equal. lia.
  - replace (to_read - _) with 0 by lia. rewrite slice_nil, app_nil_r, Hc3. symmetry. apply slice_app_l; lia.
Qed.

Lemma fat32_read_ok (fs : fatfs D) (l : list Z) (ino : inode) (cs : list Z) (offset size : Z) :
  vol_ok fs l -> file_ok fs l ino cs -> 0 <= offset < i_size ino -> 0 <= size < 2 ^ 32 ->
  exists d, fat32_read stk fs ino offset size =
      Ret (Some (slice (file_bytes (fs_fat fs) l cs) offset (Z.min size (i_size ino - offset))), mk_fs d (fs_fat fs)) /\
    vol_ok (mk_fs d (fs_fat fs)) l.
Proof.
  intros Hv [Hch Hnd Hfirst Hin Hsz Hb] Ho Hs. pose proof Hv as [_ Hok Hspc Hbp _]. unfold fat32_read.
  set (bpc := bytes_per_cluster (fs_fat fs)) in *.
  replace (i_size ino <=? offset) with false by lia. rewrite (wrap_small 64) by (split; lia).
  assert (Ht : (if i_size ino <? offset + size then u32 (i_size ino - offset) else size) = Z.min size (i_size ino - offset)).
  { destruct (Z.ltb_spec (i_size ino) (offset + size)); [rewrite wrap_small by (split; lia) |]; lia. }
  rewrite Ht, Hfirst. set (n := Z.min _ _).
  assert (Hq : offset = bpc * (offset / bpc) + offset mod bpc) by (apply Z.div_mod; lia).
  pose proof (Z.mod_pos_bound offset bpc ltac:(lia)) as Hm.
  assert (Hk : 0 <= offset / bpc < Z.of_nat (length cs)) by (split; [apply Z.div_pos; lia | nia]).
  assert (Hk32 : offset / bpc < 2 ^ 32) by (apply Z.div_lt_upper_bound; nia).
  rewrite (wrap_small 32 (offset / bpc)) by (split; lia).
  set (k := Z.to_nat (offset / bpc)). rewrite skip_chain_ok by (done || lia). cbn [obind].
  pose proof (chain_drop _ _ k Hch ltac:(lia)) as Hd.
  assert (Hlive : live (hd FAT32_EOC (drop k cs)) = true).
  { pose proof (chain_range _ _ Hd) as Hr. destruct (drop k cs) as [|c r]; [by apply chain_nonempty in Hd |].
    inversion Hr; subst. apply (live_in (fs_fat fs)); [done |]. by rewrite <- (fo_length _ Hok). }
  rewrite Hlive. cbn [negb].
  assert (Hsplit : file_bytes (fs_fat fs) l cs = file_bytes (fs_fat fs) l (take k cs) ++ file_bytes (fs_fat fs) l (drop k cs)).
  { unfold file_bytes. by rewrite <- concat_app, <- fmap_app, take_drop. }
  assert (Hlt : Z.of_nat (length (file_bytes (fs_fat fs) l (take k cs))) = bpc * (offset / bpc)).
  { rewrite (length_file_bytes fs) by (done || by apply Forall_take). rewrite length_take, Nat.min_l by lia.
    fold bpc. f_equal. lia. }
  destruct (read_loop_ok (Z.to_nat (n / bpc) + 2) fs l (drop k cs) (offset mod bpc) n []) as (d & E & Hv'); try done.
  - by apply Forall_drop.
  - cbn [length]. lia.
  - left. rewrite length_drop. fold bpc. cbn [length]. nia.
  - left. fold bpc. cbn [length]. pose proof (Z.div_mod n bpc ltac:(lia)). pose proof (Z.mod_pos_bound n bpc ltac:(lia)). nia.
  - exists d. rewrite E. split; [| done]. do 3 f_equal. cbn [app length].
    rewrite Hsplit, slice_app_r by lia. rewrite Hlt. f_equal; [lia |]. lia.
Qed.

(** One cluster: the bytes of the chunk replace those of the cluster from [off] on. *)
Lemma write_chunk_ok (fs : fatfs D) (l : list Z) (c off w : Z) (chunk : list Z) :
  let bpc := bytes_per_cluster (fs_fat fs) in
  vol_ok fs l -> in_volume (fs_fat fs) l c -> 0 <= off -> w = Z.of_nat (length chunk) -> off + w <= bpc ->
  exists d, (if w =? bpc then do '(_, fs) <- fat32_write_cluster fs c chunk; Ret fs
             else do '(_, temp, fs) <- fat32_read_cluster fs c (uninit stk bpc);
                  do '(_, fs) <- fat32_write_cluster fs c (splice temp off chunk); Ret fs)%out = Ret (mk_fs d (fs_fat fs)) /\
    vol_ok (mk_fs d (fs_fat fs))
      (splice l (cluster_pos (fs_fat fs) c) (splice (cluster_bytes (fs_fat fs) l c) off chunk)).
Proof.
  cbv zeta. intros Hv Hc Ho -> Hw. pose proof (length_cluster_bytes fs l c Hv Hc) as Hcl.
  destruct (Z.eqb_spec (Z.of_nat (length chunk)) (bytes_per_cluster (fs_fat fs))) as [E | E].
  - replace off with 0 in * by lia. rewrite (splice_all _ chunk) by lia.
    destruct (write_cluster_ok fs l c chunk Hv Hc E) as (d & -> & Hv'). cbn [obind]. by exists d.
  - destruct (read_cluster_ok fs l c (uninit stk (bytes_per_cluster (fs_fat fs))) Hv Hc) as (d & -> & Hv').
    { rewrite length_uninit. lia. }
    cbn [obind]. destruct (write_cluster_ok (mk_fs d (fs_fat fs)) l c (splice (cluster_bytes (fs_fat fs) l c) off chunk) Hv' Hc)
      as (d' & E' & Hv''); [cbn [fs_fat]; rewrite splice_length_nat; lia |].
    cbn [fs_fat] in *. rewrite E'. cbn [obind]. by exists d'.
Qed.

Lemma write_loop_ok (ks : list Z) (fs : fatfs D) (l : list Z) (off : Z) (data : list Z) :
  let f := fs_fat fs in
  vol_ok fs l -> NoDup ks -> Forall (in_volume f l) ks -> 0 <= off < bytes_per_cluster f ->
  off + Z.of_nat (length data) <= bytes_per_cluster f * Z.of_nat (length ks) ->
  exists d l', write_loop stk ks off fs data = Ret (Z.of_nat (length data), mk_fs d f) /\ vol_ok (mk_fs d f) l' /\
    length l' = length l /\ file_bytes f l' ks = splice (file_bytes f l ks) off data /\
    (forall c, 2 <= c -> c ∉ ks -> cluster_bytes f l' c = cluster_bytes f l c).
Proof.
  cbv zeta. revert fs l off data. induction ks as [|c ks IH]; intros fs l off data Hv Hnd Hin Ho Hlen.
  { exists (fs_dev fs), l. destruct data; [| cbn in Hlen; lia]. cbn [write_loop length]. by rewrite splice_nil; destruct fs. }
  apply NoDup_cons in Hnd as [Hc Hnd]. inversion Hin as [|? ? Hcv Hksv]; subst. pose proof Hv as [_ _ Hspc Hbp _].
  cbn [write_loop length] in *. rewrite (wrap_small 32) by (split; lia). set (w := if _ <? _ then _ else _).
  assert (Hw : 0 <= w /\ off + w <= bytes_per_cluster (fs_fat fs) /\ w <= Z.of_nat (length data) /\
            (off + w = bytes_per_cluster (fs_fat fs) \/ w = Z.of_nat (length data))).
  { unfold w. destruct (Z.ltb_spec (Z.of_nat (length data)) (bytes_per_cluster (fs_fat fs) - off)); lia. }
  clearbody w. destruct Hw as (Hw0 & Hw1 & Hw2 & Hw3).
  pose proof (length_slice data 0 w ltac:(lia) Hw0 ltac:(lia)) as Hcl.
  destruct (write_chunk_ok fs l c off w (slice data 0 w) Hv Hcv ltac:(lia) ltac:(lia) Hw1) as (d & -> & Hv1). cbn [obind].
  set (b := splice (cluster_bytes (fs_fat fs) l c) off (slice data 0 w)) in *.
  pose proof (length_cluster_bytes fs l c Hv Hcv) as Hcb.
  assert (Hb : Z.of_nat (length b) = bytes_per_cluster (fs_fat fs)) by (unfold b; rewrite splice_length_nat; lia).
  set (l1 := splice l (cluster_pos (fs_fat fs) c) b) in *.
  pose proof (write_length fs l c b Hv Hcv Hb) as Hl1. fold l1 in Hl1.
  assert (Hks1 : Forall (in_volume (fs_fat fs) l1) ks).
  { eapply Forall_impl; [exact Hksv |]. intros x. by apply in_volume_write. }
  assert (Hother : forall x, 2 <= x -> x <> c -> cluster_bytes (fs_fat fs) l1 x = cluster_bytes (fs_fat fs) l x).
  { intros x Hx Hne. unfold l1. rewrite (cluster_bytes_write fs) by done. by rewrite decide_False. }
  destruct (IH (mk_fs d (fs_fat fs)) l1 0 (drop (Z.to_nat w) data)) as (d' & l' & E & Hv' & Hl' & Hfb & Hot);
    cbn [fs_fat] in *; try done; try lia.
  { rewrite length_drop. lia. }
  exists d', l'. rewrite E. cbn [obind]. split; [do 2 f_equal; rewrite length_drop; lia |].
  split; [done |]. split; [congruence |]. split.
  - unfold file_bytes in Hfb |- *. cbn [fmap list_fmap concat]. rewrite Hfb. pose proof (proj1 Hcv) as Hc2.
    rewrite (Hot c) by done. unfold l1 at 1. rewrite (cluster_bytes_write fs) by done.
    rewrite decide_True by done. fold (file_bytes (fs_fat fs) l1 ks) (file_bytes (fs_fat fs) l ks).
    rewrite (file_bytes_ext (fs_fat fs) l l1 ks).
    2: { apply Forall_forall. intros x Hx. rewrite Forall_forall in Hksv. destruct (Hksv x Hx) as [Hx2 _].
         apply Hother; [done |]. by intros ->. }
    rewrite <- (slice_drop data w) at 2. unfold b. destruct Hw3 as [Hw3 | Hw3].
    + symmetry. apply splice_app_both; lia.
    + rewrite drop_ge by lia. rewrite app_nil_r, splice_nil. symmetry. apply splice_app_l; lia.
  - intros x Hx Hxn. apply not_elem_of_cons in Hxn as [Hxc Hxk]. rewrite Hot by done. by apply Hother.
Qed.

(** Writing inside the chain of a file, up to the update of its size. *)
Lemma write_data_ok (fs : fatfs D) (l : list Z) (ino : inode) (cs : list Z) (offset : Z) (data : list Z) (now : rtc) :
  let f := fs_fat fs in
  let size := Z.of_nat (length data) in
  vol_ok fs l -> file_ok fs l ino cs -> 0 <= offset -> 0 < size ->
  offset + size <= bytes_per_cluster f * Z.of_nat (length cs) -> offset + size < 2 ^ 32 ->
  exists d l', vol_ok (mk_fs d f) l' /\ length l' = length l /\
    file_bytes f l' cs = splice (file_bytes f l cs) offset data /\
    (forall c, 2 <= c -> c ∉ cs -> cluster_bytes f l' c = cluster_bytes f l c) /\
    fat32_write stk fs ino offset data now =
      (if i_size ino <? offset + size then
         do '(ino, fs) <- grow_entry stk (mk_fs d f) ino (offset + size) now; Ret (Some size, ino, fs)
       else Ret (Some size, ino, mk_fs d f))%out.
Proof.
  cbv zeta. intros Hv [Hch Hnd Hfirst Hin Hsz Hb] Ho Hs Hlen Hlt. pose proof Hv as [_ Hok Hspc Hbp _].
  unfold fat32_write. replace (_ =? 0) with false by lia. rewrite (wrap_small 64) by (split; lia).
  destruct (needed_range (bytes_per_cluster (fs_fat fs)) offset (Z.of_nat (length data)) (length cs)) as (K1 & K2 & K3 & K4 & K5 & K6 & K7);
    try lia.
  rewrite !(wrap_small 32 (_ / _)) by (split; lia). rewrite (wrap_small 32) by (split; lia).
  set (bpc := bytes_per_cluster (fs_fat fs)) in *. set (k := offset / bpc) in *.
  set (n := (offset + Z.of_nat (length data) - 1) / bpc - k + 1) in *. clearbody n k.
  rewrite Hfirst, write_skip_ok by (done || lia). cbn [obind]. replace (n =? 0) with false by lia.
  rewrite gather_ok; [| done | apply chain_drop; [done | lia] | rewrite length_drop; lia]. cbn [obind app].
  set (ks := take (Z.to_nat n) (drop (Z.to_nat k) cs)).
  assert (Hcs : cs = take (Z.to_nat k) cs ++ ks ++ drop (Z.to_nat n) (drop (Z.to_nat k) cs)).
  { unfold ks. by rewrite take_drop, take_drop. }
  assert (Hkl : length ks = Z.to_nat n) by (unfold ks; rewrite length_take, length_drop; lia).
  rewrite Hcs in Hnd. apply NoDup_app in Hnd as (Hn1 & Hn2 & (Hn3 & Hn4 & Hn5)%NoDup_app).
  destruct (write_loop_ok ks fs l (offset mod bpc) data Hv Hn3) as (d & l' & E & Hv' & Hl' & Hfb & Hot).
  { unfold ks. by apply Forall_take, Forall_drop. }
  { done. } { rewrite Hkl. fold bpc. lia. }
  exists d, l'. split; [done |]. split; [done |].
  assert (Hks : forall c, c ∈ ks -> c ∈ cs) by (intros c; rewrite Hcs; set_solver).
  assert (Hr2 : forall c, c ∈ cs -> 2 <= c) by (intros c Hc; rewrite Forall_forall in Hin; apply (Hin c Hc)).
  split; [| split].
  - rewrite Hcs at 1 2. rewrite !file_bytes_app, Hfb. symmetry.
    set (pre := file_bytes (fs_fat fs) l (take (Z.to_nat k) cs)).
    assert (Hpre : Z.of_nat (length pre) = bpc * k).
    { unfold pre. rewrite (length_file_bytes fs) by (done || by apply Forall_take).
      rewrite length_take, Nat.min_l by lia. fold bpc. f_equal. lia. }
    rewrite splice_app_r by lia. rewrite Hpre. replace (offset - bpc * k) with (offset mod bpc) by lia.
    rewrite splice_app_l.
    + f_equal; [| f_equal]; symmetry; apply file_bytes_ext, Forall_forall; intros c Hc; apply Hot.
      * apply Hr2. rewrite Hcs. set_solver.
      * intros Hck. by apply (Hn2 c Hc), elem_of_app; left.
      * apply Hr2. rewrite Hcs. set_solver.
      * intros Hck. by apply (Hn4 c Hck).
    + lia.
    + rewrite (length_file_bytes fs); [| done | unfold ks; by apply Forall_take, Forall_drop]. rewrite Hkl. fold bpc. lia.
  - intros c Hc Hcn. apply Hot; [done |]. intros Hck. by apply Hcn, Hks.
  - rewrite E. cbn [obind]. rewrite wrap_small by (split; lia). done.
Qed.

(** Reading delivers the bytes of the file: from any offset inside it, as many as asked
    for up to its end, across clusters; at or behind the end nothing. *)
Theorem fat32_read_spec (fs : fatfs D) (l : list Z) (ino : inode) (cs : list Z) (offset size : Z) :
  vol_ok fs l -> file_ok fs l ino cs -> 0 <= offset -> 0 <= size < 2 ^ 32 ->
  exists d, fat32_read stk fs ino offset size =
      Ret (Some (slice (take (Z.to_nat (i_size ino)) (file_bytes (fs_fat fs) l cs)) offset size), mk_fs d (fs_fat fs)) /\
    vol_ok (mk_fs d (fs_fat fs)) l.
Proof.
  intros Hv Hf Ho Hs. destruct (Z.leb_spec (i_size ino) offset).
  - exists (fs_dev fs). unfold fat32_read. replace (_ <=? _) with true by lia. unfold slice.
    rewrite drop_ge by (rewrite length_take; lia). rewrite take_nil. by destruct fs.
  - destruct (fat32_read_ok fs l ino cs offset size Hv Hf ltac:(lia) Hs) as (d & -> & Hv'). exists d. split; [| done].
    do 3 f_equal. unfold slice. rewrite !take_drop_commute, take_take. do 2 f_equal. lia.
Qed.

(** Writing inside the size of a file. *)
Lemma write_inside_ok (fs : fatfs D) (l : list Z) (ino : inode) (cs : list Z) (offset : Z) (data : list Z) (now : rtc) :
  let f := fs_fat fs in
  let size := Z.of_nat (length data) in
  vol_ok fs l -> file_ok fs l ino cs -> 0 <= offset -> 0 < size -> offset + size <= i_size ino ->
  exists d l', fat32_write stk fs ino offset data now = Ret (Some size, ino, mk_fs d f) /\
    vol_ok (mk_fs d f) l' /\ file_ok (mk_fs d f) l' ino cs /\
    file_bytes f l' cs = splice (file_bytes f l cs) offset data /\
    (forall c, 2 <= c -> c ∉ cs -> cluster_bytes f l' c = cluster_bytes f l c).
Proof.
  cbv zeta. intros Hv Hf Ho Hs Hsz. pose proof Hf as [Hch Hnd Hfirst Hin Hsize Hb].
  destruct (write_data_ok fs l ino cs offset data now Hv Hf Ho Hs ltac:(lia) ltac:(lia)) as (d & l' & Hv' & Hl' & Hfb & Hot & ->).
  replace (i_size ino <? _) with false by lia. exists d, l'. split_and!; try done.
  split; try done. eapply Forall_impl; [exact Hin |]. intros c. by apply in_volume_write.
Qed.

(** Reading back a part of the file that was written. *)
Lemma read_written_ok (fs : fatfs D) (l : list Z) (ino : inode) (cs : list Z) (offset : Z) (data old : list Z) :
  vol_ok fs l -> file_ok fs l ino cs -> 0 <= offset -> 0 < Z.of_nat (length data) ->
  offset + Z.of_nat (length data) <= i_size ino ->
  file_bytes (fs_fat fs) l cs = splice old offset data -> length old = length (file_bytes (fs_fat fs) l cs) ->
  exists d, fat32_read stk fs ino offset (Z.of_nat (length data)) = Ret (Some data, mk_fs d (fs_fat fs)) /\ vol_ok (mk_fs d (fs_fat fs)) l.
Proof.
  intros Hv Hf Ho Hs Hsz Hfb Hlen. pose proof Hf as [_ _ _ Hin Hsize Hb].
  destruct (fat32_read_ok fs l ino cs offset (Z.of_nat (length data)) Hv Hf ltac:(lia) ltac:(lia)) as (d & -> & Hv').
  exists d. split; [| done]. do 3 f_equal. rewrite Hfb, Z.min_l by lia.
  apply slice_splice_eq; [done |]. rewrite Hlen, (length_file_bytes fs) by done. lia.
Qed.

(** C14: writing inside a file replaces exactly those bytes: the number of bytes is
    returned, table, size and every cluster of other files stay, and a read of the same
    range returns what was written. *)
Theorem fat32_write_spec (fs : fatfs D) (l : list Z) (ino : inode) (cs : list Z) (offset : Z) (data : list Z) (now : rtc) :
  let f := fs_fat fs in
  let size := Z.of_nat (length data) in
  vol_ok fs l -> file_ok fs l ino cs -> 0 <= offset -> 0 < size -> offset + size <= i_size ino ->
  exists d l', fat32_write stk fs ino offset data now = Ret (Some size, ino, mk_fs d f) /\
    vol_ok (mk_fs d f) l' /\ file_ok (mk_fs d f) l' ino cs /\
    file_bytes f l' cs = splice (file_bytes f l cs) offset data /\
    (forall c, 2 <= c -> c ∉ cs -> cluster_bytes f l' c = cluster_bytes f l c) /\
    exists d', fat32_read stk (mk_fs d f) ino offset size = Ret (Some data, mk_fs d' f).
Proof.
  cbv zeta. intros Hv Hf Ho Hs Hsz.
  destruct (write_inside_ok fs l ino cs offset data now Hv Hf Ho Hs Hsz) as (d & l' & E & Hv' & Hf' & Hfb & Hot).
  exists d, l'. split_and!; try done.
  destruct (read_written_ok (mk_fs d (fs_fat fs)) l' ino cs offset data (file_bytes (fs_fat fs) l cs) Hv' Hf' Ho Hs Hsz Hfb) as (d' & E' & _).
  - pose proof (length_file_bytes fs l cs Hv (fi_vol _ _ _ _ Hf)). pose proof (length_file_bytes _ l' cs Hv' (fi_vol _ _ _ _ Hf')). cbn [fs_fat] in *. lia.
  - by exists d'.
Qed.
End files.
