(* ===== verification/Fat32Dir.v ===== *)
(** Directories in the FAT32 driver (Fat32.v): short names, a directory as the list of its
    32-byte entries, and lookup, creation and deletion as operations on that list. *)

From S2P Require Import Prelude Bytes Buffer SectorDev Fat32 Fat32Chain Fat32Data.

(** * Short names *)

(** A character of a name as the driver shows it: no control character, no space, no dot,
    no capital letter. *)
Definition name_char (c : Z) : Prop := 32 < c < 256 /\ c <> 46 /\ ~ (65 <= c <= 90).

Lemma lower_upper (c : Z) : name_char c -> lower (upper c) = c.
Proof.
  intros (H1 & H2 & H3). unfold upper, lower. destruct ((97 <=? c) && (c <=? 122)) eqn:E.
  - replace (_ && _) with true by lia. lia.
  - by replace (_ && _) with false by lia.
Qed.

Lemma upper_char (c : Z) : name_char c -> 32 < upper c < 256 /\ upper c <> 46.
Proof. intros (H1 & H2 & H3). unfold upper. destruct ((97 <=? c) && (c <=? 122)) eqn:E; lia. Qed.

(** A name and its extension, with the dot when there is one. *)
Definition dotted (base ext : list Z) : list Z :=
  base ++ match ext with [] => [] | _ => 46 :: ext end.

Record short_ok (base ext : list Z) : Prop := mk_short {
  so_base : (0 < length base <= 8)%nat;
  so_ext : (length ext <= 3)%nat;
  so_base_chars : Forall name_char base;
  so_ext_chars : Forall name_char ext
}.

Lemma base_part_ok (n : nat) (base r : list Z) :
  (length base <= n)%nat -> Forall name_char base -> (r = [] \/ exists r', r = 46 :: r') ->
  base_part n (base ++ r) = (upper <$> base, r).
Proof.
  revert n. induction base as [|c base IH]; intros n Hn HF Hr.
  - destruct n, Hr as [-> | [r' ->]]; done.
  - destruct n as [|n]; [cbn in Hn; lia |]. inversion HF as [|? ? Hc HF']; subst. cbn [base_part app length] in *.
    destruct Hc as (_ & Hc & _). replace (c =? 46) with false by lia. rewrite IH by (done || lia). done.
Qed.

Lemma padded_eq (n : nat) (l : list Z) : (length l <= n)%nat -> padded n l = l ++ replicate (n - length l) 32.
Proof. intros Hl. unfold padded. rewrite take_app_ge by lia. rewrite take_replicate. do 2 f_equal. lia. Qed.

Lemma length_padded (n : nat) (l : list Z) : length (padded n l) = n.
Proof. unfold padded. rewrite length_take, length_app, length_replicate. lia. Qed.

Lemma until_space_padded (l : list Z) (k : nat) :
  Forall (fun c => c <> 32) l -> until_space (l ++ replicate k 32) = l.
Proof.
  induction 1 as [|c l Hc _ IH]; [by destruct k |]. cbn. replace (c =? 32) with false by lia. by rewrite IH.
Qed.

Lemma name_to_entry_eq (base ext : list Z) :
  short_ok base ext -> fat32_name_to_entry (dotted base ext) = padded 8 (upper <$> base) ++ padded 3 (upper <$> ext).
Proof.
  intros [H1 H2 H3 H4]. unfold fat32_name_to_entry, dotted.
  rewrite base_part_ok; [| lia | done | destruct ext; [by left | right; by eexists]].
  destruct ext as [|c ext]; [done |]. cbv iota. by rewrite take_ge by done.
Qed.

Lemma Forall_upper (l : list Z) : Forall name_char l -> Forall (fun c => c <> 32) (upper <$> l).
Proof. intros HF. apply Forall_fmap. eapply Forall_impl; [exact HF |]. intros c Hc. cbn. pose proof (upper_char c Hc). lia. Qed.

Lemma map_lower_upper (l : list Z) : Forall name_char l -> lower <$> (upper <$> l) = l.
Proof.
  induction 1 as [|c l Hc _ IH]; [done |]. cbn [fmap list_fmap]. f_equal; [by apply lower_upper | exact IH].
Qed.

(** The name stored in a directory entry is shown as it was given. *)
Lemma name_roundtrip_ok (base ext : list Z) :
  short_ok base ext -> fat32_name_from_entry (fat32_name_to_entry (dotted base ext)) = dotted base ext.
Proof.
  intros Hok. rewrite name_to_entry_eq by done. destruct Hok as [H1 H2 H3 H4]. unfold fat32_name_from_entry.
  assert (Hb : take 8 (padded 8 (upper <$> base) ++ padded 3 (upper <$> ext)) = padded 8 (upper <$> base)).
  { rewrite take_app_le by (rewrite length_padded; lia). apply take_ge. rewrite length_padded. lia. }
  assert (He : take 3 (drop 8 (padded 8 (upper <$> base) ++ padded 3 (upper <$> ext))) = padded 3 (upper <$> ext)).
  { rewrite drop_app_ge by (rewrite length_padded; lia). rewrite length_padded. apply take_ge. cbn [Nat.sub drop]. rewrite length_padded. lia. }
  rewrite Hb, He, !padded_eq by (rewrite length_fmap; lia).
  rewrite !until_space_padded by (by apply Forall_upper). rewrite !map_lower_upper by done.
  assert (Hg : get (((upper <$> base) ++ replicate (8 - length (upper <$> base)) 32) ++
                    (upper <$> ext) ++ replicate (3 - length (upper <$> ext)) 32) 8 = match ext with [] => 32 | c :: _ => upper c end).
  { unfold get. rewrite nth_lookup, lookup_app_r by (rewrite length_app, !length_fmap, length_replicate; lia).
    rewrite length_app, !length_fmap, length_replicate. replace (Z.to_nat 8 - _)%nat with 0%nat by lia. by destruct ext. }
  rewrite Hg. unfold dotted. destruct ext as [|c ext]; [exact (eq_sym (app_nil_r base)) |].
  inversion H4 as [|? ? Hc _]; subst. pose proof (upper_char c Hc). by replace (upper c =? 32) with false by lia.
Qed.

Lemma c_string_id (l : list Z) : Forall (fun c => c <> 0) l -> c_string l = l.
Proof. induction 1 as [|c l Hc _ IH]; [done |]. cbn. replace (c =? 0) with false by lia. by rewrite IH. Qed.

Lemma dotted_nonzero (base ext : list Z) : short_ok base ext -> Forall (fun c => c <> 0) (dotted base ext).
Proof.
  intros [_ _ H3 H4]. unfold dotted. apply Forall_app. split.
  - eapply Forall_impl; [exact H3 |]. intros c [Hc _]. cbn. lia.
  - destruct ext; [done |]. constructor; [lia |]. eapply Forall_impl; [exact H4 |]. intros c [Hc _]. cbn. lia.
Qed.

Lemma fat32_name_roundtrip_ok (base ext : list Z) :
  short_ok base ext ->
  length (fat32_name_to_entry (dotted base ext)) = 11%nat /\
  c_string (fat32_name_from_entry (fat32_name_to_entry (dotted base ext))) = dotted base ext.
Proof.
  intros Hok. split.
  - rewrite name_to_entry_eq by done. by rewrite length_app, !length_padded.
  - rewrite name_roundtrip_ok by done. by apply c_string_id, dotted_nonzero.
Qed.

(** * A directory as a list of entries *)

Lemma get_slice (l : list Z) (o n k : Z) : 0 <= o -> 0 <= k < n -> get (slice l o n) k = get l (o + k).
Proof.
  intros Ho Hk. unfold get, slice. rewrite !nth_lookup, lookup_take_lt, lookup_drop by lia. do 2 f_equal. lia.
Qed.

(** The entry at index [i]; every field of it is a field of these 32 bytes. *)
Definition entry_bytes (buf : list Z) (i : Z) : list Z := slice buf (32 * i) 32.

Lemma field_slice (l : list Z) (o n k : Z) (m : nat) :
  0 <= o -> 0 <= k -> k + Z.of_nat m <= n -> field (slice l o n) k m = field l (o + k) m.
Proof.
  intros H1 H2 H3. unfold field. f_equal. pose proof (slice_slice l o n k (Z.of_nat m) H1 H2 ltac:(lia) H3) as E.
  unfold slice at 1 3 in E. by rewrite Nat2Z.id in E.
Qed.

Section entry.
Variables (buf : list Z) (i : Z).
Hypothesis Hi : 0 <= i.

Lemma de_first_entry : de_first buf (32 * i) = de_first (entry_bytes buf i) 0.
Proof. unfold de_first, entry_bytes. rewrite get_slice by lia. f_equal. lia. Qed.
Lemma de_attr_entry : de_attr buf (32 * i) = de_attr (entry_bytes buf i) 0.
Proof. unfold de_attr, entry_bytes. rewrite get_slice by lia. f_equal. Qed.
Lemma de_name_entry : de_name buf (32 * i) = de_name (entry_bytes buf i) 0.
Proof. unfold de_name, entry_bytes. rewrite slice_slice by lia. f_equal. lia. Qed.
Lemma de_cluster_entry : de_cluster buf (32 * i) = de_cluster (entry_bytes buf i) 0.
Proof. unfold de_cluster, entry_bytes. rewrite !field_slice by lia. done. Qed.
Lemma de_size_entry : de_size buf (32 * i) = de_size (entry_bytes buf i) 0.
Proof. unfold de_size, entry_bytes. rewrite !field_slice by lia. done. Qed.
Lemma deleted_entry : deleted buf (32 * i) = deleted (entry_bytes buf i) 0.
Proof. unfold deleted. by rewrite de_first_entry. Qed.
Lemma is_lfn_entry : is_lfn buf (32 * i) = is_lfn (entry_bytes buf i) 0.
Proof. unfold is_lfn. by rewrite de_attr_entry. Qed.
End entry.

(** The entries [i] to [i + n - 1] of a buffer. *)
Fixpoint entries_from (n : nat) (i : Z) (buf : list Z) : list (list Z) :=
  match n with O => [] | S n' => entry_bytes buf i :: entries_from n' (i + 1) buf end.

Definition entry_free (e : list Z) : bool := (de_first e 0 =? 0) || deleted e 0.
Definition entry_hidden (e : list Z) : bool := deleted e 0 || is_lfn e 0.
Definition entry_name (e : list Z) : list Z := c_string (fat32_name_from_entry (de_name e 0)).

(** Lookup in a list of entries, and the first free one. *)
Fixpoint find_entry (es : list (list Z)) (i : Z) (name : list Z) : scan_result :=
  match es with
  | [] => ScanNext
  | e :: es' =>
      if de_first e 0 =? 0 then ScanEnd
      else if entry_hidden e then find_entry es' (i + 1) name
      else if bool_decide (entry_name e = name) then ScanFound i
      else find_entry es' (i + 1) name
  end.

Fixpoint find_free_entry (es : list (list Z)) (i : Z) : option Z :=
  match es with
  | [] => None
  | e :: es' => if entry_free e then Some i else find_free_entry es' (i + 1)
  end.

Lemma lookup_scan_eq (n : nat) (i : Z) (buf name : list Z) :
  0 <= i -> lookup_scan n i buf name = find_entry (entries_from n i buf) i name.
Proof.
  revert i. induction n as [|n IH]; intros i Hi; [done |]. cbn [lookup_scan entries_from find_entry].
  rewrite de_first_entry, deleted_entry, is_lfn_entry, de_name_entry by done. fold (entry_hidden (entry_bytes buf i)).
  fold (entry_name (entry_bytes buf i)). by rewrite IH by lia.
Qed.

Lemma free_scan_eq (n : nat) (i : Z) (buf : list Z) :
  0 <= i -> free_scan n i buf = find_free_entry (entries_from n i buf) i.
Proof.
  revert i. induction n as [|n IH]; intros i Hi; [done |]. cbn [free_scan entries_from find_free_entry].
  rewrite de_first_entry, deleted_entry by done. fold (entry_free (entry_bytes buf i)). by rewrite IH by lia.
Qed.

Lemma find_entry_app (es es' : list (list Z)) (i : Z) (name : list Z) :
  find_entry (es ++ es') i name =
  match find_entry es i name with ScanNext => find_entry es' (i + Z.of_nat (length es)) name | r => r end.
Proof.
  revert i. induction es as [|e es IH]; intros i; cbn [app find_entry length].
  { f_equal. lia. }
  destruct (_ =? 0); [done |]. replace (i + Z.of_nat (S (length es))) with (i + 1 + Z.of_nat (length es)) by lia.
  destruct (entry_hidden e); [apply IH |]. destruct (bool_decide (entry_name e = name)); [done | apply IH].
Qed.

Lemma find_free_app (es es' : list (list Z)) (i : Z) :
  find_free_entry (es ++ es') i =
  match find_free_entry es i with None => find_free_entry es' (i + Z.of_nat (length es)) | r => r end.
Proof.
  revert i. induction es as [|e es IH]; intros i; cbn [app find_free_entry length].
  { f_equal. lia. }
  destruct (entry_free e); [done |]. rewrite IH. by replace (i + 1 + Z.of_nat (length es)) with (i + Z.of_nat (S (length es))) by lia.
Qed.

(** The index only shifts the result. *)
Definition shift_scan (k : Z) (r : scan_result) : scan_result :=
  match r with ScanFound i => ScanFound (k + i) | _ => r end.

Lemma find_entry_shift (es : list (list Z)) (i k : Z) (name : list Z) :
  find_entry es (k + i) name = shift_scan k (find_entry es i name).
Proof.
  revert i. induction es as [|e es IH]; intros i; [done |]. cbn [find_entry].
  replace (k + i + 1) with (k + (i + 1)) by lia. rewrite IH.
  destruct (_ =? 0); [done |]. destruct (entry_hidden e); [done |]. by destruct (bool_decide (entry_name e = name)).
Qed.

Lemma find_free_shift (es : list (list Z)) (i k : Z) :
  find_free_entry es (k + i) = Z.add k <$> find_free_entry es i.
Proof.
  revert i. induction es as [|e es IH]; intros i; [done |]. cbn [find_free_entry].
  replace (k + i + 1) with (k + (i + 1)) by lia. rewrite IH. by destruct (entry_free e).
Qed.

Lemma length_entries_from (n : nat) (i : Z) (buf : list Z) : length (entries_from n i buf) = n.
Proof. revert i. induction n as [|n IH]; intros i; [done |]. cbn. by rewrite IH. Qed.

Lemma entries_from_lookup (n j : nat) (i : Z) (buf : list Z) :
  (j < n)%nat -> entries_from n i buf !! j = Some (entry_bytes buf (i + Z.of_nat j)).
Proof.
  revert i j. induction n as [|n IH]; intros i j Hj; [lia |]. destruct j as [|j]; cbn [entries_from lookup list_lookup].
  - do 2 f_equal. lia.
  - rewrite IH by lia. do 2 f_equal. lia.
Qed.

Lemma find_entry_range (es : list (list Z)) (i k : Z) (name : list Z) :
  find_entry es i name = ScanFound k -> i <= k < i + Z.of_nat (length es).
Proof.
  revert i. induction es as [|e es IH]; intros i E; [done |]. cbn [find_entry length] in *.
  destruct (_ =? 0); [done |]. destruct (entry_hidden e); [apply IH in E; lia |].
  destruct (bool_decide (entry_name e = name)); [injection E as <-; lia | apply IH in E; lia].
Qed.

Lemma find_free_range (es : list (list Z)) (i k : Z) : find_free_entry es i = Some k -> i <= k < i + Z.of_nat (length es).
Proof.
  revert i. induction es as [|e es IH]; intros i E; [done |]. cbn [find_free_entry length] in *.
  destruct (entry_free e); [injection E as <-; lia | apply IH in E; lia].
Qed.

Section directory.
Context {D : Type} `{SectorDev D}.

Definition cluster_entries (f : fat32) (l : list Z) (c : Z) : list (list Z) :=
  entries_from (Z.to_nat (entries_per_cluster f)) 0 (cluster_bytes f l c).

Definition dir_entries (f : fat32) (l cs : list Z) : list (list Z) := concat (cluster_entries f l <$> cs).

Record dir_ok (fs : fatfs D) (l : list Z) (dir : inode) (cs : list Z) : Prop := mk_dir_ok {
  dk_chain : chain (fat_cache (fs_fat fs)) cs;
  dk_nodup : NoDup cs;
  dk_first : first_cluster (i_private dir) = hd FAT32_EOC cs;
  dk_vol : Forall (in_volume (fs_fat fs) l) cs;
  dk_bound : entries_per_cluster (fs_fat fs) * Z.of_nat (length cs) < 2 ^ 32
}.

Lemma length_cluster_entries (f : fat32) (l : list Z) (c : Z) :
  length (cluster_entries f l c) = Z.to_nat (entries_per_cluster f).
Proof. apply length_entries_from. Qed.

Lemma length_dir_entries (f : fat32) (l cs : list Z) :
  length (dir_entries f l cs) = (Z.to_nat (entries_per_cluster f) * length cs)%nat.
Proof.
  unfold dir_entries. induction cs as [|c cs IH]; cbn [fmap list_fmap concat length]; [lia |].
  rewrite length_app, IH, length_cluster_entries. lia.
Qed.

(** The inode for the entry with index [i] of the directory. *)
Definition inode_at (f : fat32) (l : list Z) (dir : inode) (cs : list Z) (base i : Z) : inode :=
  let epc := entries_per_cluster f in
  let c := nth (Z.to_nat (i / epc)) cs 0 in
  inode_of_entry dir (cluster_bytes f l c) c (i mod epc) (base + i).

Definition located (f : fat32) (l : list Z) (dir : inode) (cs : list Z) (base : Z) (r : scan_result) : option inode :=
  match r with ScanFound i => Some (inode_at f l dir cs base i) | _ => None end.

Lemma epc_pos (fs : fatfs D) (l : list Z) :
  vol_ok fs l -> 0 < entries_per_cluster (fs_fat fs) /\ bytes_per_cluster (fs_fat fs) = 32 * entries_per_cluster (fs_fat fs).
Proof.
  intros [_ _ Hs Hb _]. unfold entries_per_cluster. rewrite Hb.
  replace (512 * sectors_per_cluster (fs_fat fs)) with (sectors_per_cluster (fs_fat fs) * 16 * 32) by lia.
  rewrite Z.div_mul by lia. lia.
Qed.

Lemma inode_at_shift (f : fat32) (l : list Z) (dir : inode) (c : Z) (cs : list Z) (base i : Z) :
  0 < entries_per_cluster f -> 0 <= i ->
  inode_at f l dir (c :: cs) base (entries_per_cluster f + i) = inode_at f l dir cs (base + entries_per_cluster f) i.
Proof.
  intros He Hi. unfold inode_at.
  replace (entries_per_cluster f + i) with (i + 1 * entries_per_cluster f) by lia.
  rewrite Z.div_add, Z.mod_add by lia. pose proof (Z.div_pos i (entries_per_cluster f) Hi He).
  replace (Z.to_nat (i / entries_per_cluster f + 1)) with (S (Z.to_nat (i / entries_per_cluster f))) by lia. cbn [nth].
  by replace (base + (i + 1 * entries_per_cluster f)) with (base + entries_per_cluster f + i) by lia.
Qed.

Lemma inode_at_head (f : fat32) (l : list Z) (dir : inode) (c : Z) (cs : list Z) (base i : Z) :
  0 <= i < entries_per_cluster f ->
  inode_at f l dir (c :: cs) base i = inode_of_entry dir (cluster_bytes f l c) c i (base + i).
Proof. intros Hi. unfold inode_at. by rewrite Z.div_small, Z.mod_small by done. Qed.

Lemma lookup_from_ok (cs : list Z) (fuel : nat) (fs : fatfs D) (l : list Z) (dir : inode) (name : list Z) (buf : list Z) (index : Z) :
  vol_ok fs l -> (cs <> [] -> chain (fat_cache (fs_fat fs)) cs) -> Forall (in_volume (fs_fat fs) l) cs ->
  Z.of_nat (length buf) = bytes_per_cluster (fs_fat fs) -> (length cs <= fuel)%nat ->
  0 <= index -> index + entries_per_cluster (fs_fat fs) * Z.of_nat (length cs) < 2 ^ 32 ->
  exists d, lookup_from fuel fs dir name (hd FAT32_EOC cs) buf index =
      Ret (located (fs_fat fs) l dir cs index (find_entry (dir_entries (fs_fat fs) l cs) 0 name), mk_fs d (fs_fat fs)) /\
    vol_ok (mk_fs d (fs_fat fs)) l.
Proof.
  revert fuel fs buf index. induction cs as [|c cs IH]; intros fuel fs buf index Hv Hch Hin Hbuf Hfu Hi Hidx.
  { exists (fs_dev fs). destruct fuel, fs; done. }
  pose proof Hv as [_ Hok _ _ _]. destruct (epc_pos fs l Hv) as [He Hbe].
  pose proof (Hch ltac:(done)) as Hc. pose proof (chain_range _ _ Hc) as Hr. inversion Hr as [|? ? Hcr _]; subst.
  rewrite (fo_length _ Hok) in Hcr. inversion Hin as [|? ? Hcv Hcsv]; subst.
  destruct fuel as [|fuel]; [cbn in Hfu; lia |]. cbn [lookup_from hd length] in *. rewrite (live_in _ c Hok Hcr). cbn [negb].
  destruct (read_cluster_ok fs l c buf Hv Hcv Hbuf) as (d & -> & Hv'). cbn [obind negb fs_fat].
  rewrite lookup_scan_eq by lia. fold (cluster_entries (fs_fat fs) l c).
  unfold dir_entries. cbn [fmap list_fmap concat]. fold (dir_entries (fs_fat fs) l cs). rewrite find_entry_app.
  destruct (find_entry (cluster_entries (fs_fat fs) l c) 0 name) as [|i|] eqn:E; cbn [located].
  - by exists d.
  - apply find_entry_range in E. rewrite length_cluster_entries in E. exists d. split; [| done].
    rewrite wrap_small by (split; nia). rewrite inode_at_head by lia. done.
  - rewrite (chain_next _ c cs Hok Hc). cbn [obind]. rewrite wrap_small by (split; nia).
    destruct (IH fuel (mk_fs d (fs_fat fs)) (cluster_bytes (fs_fat fs) l c) (index + entries_per_cluster (fs_fat fs)))
      as (d' & E' & Hv''); cbn [fs_fat]; try done; try lia.
    { intros Hne. by apply (chain_tail _ c). }
    { by apply length_cluster_bytes. }
    exists d'. split; [| done]. rewrite E'. cbn [fs_fat]. rewrite length_cluster_entries, Z2Nat.id by lia.
    rewrite (Z.add_comm 0), find_entry_shift.
    destruct (find_entry (dir_entries (fs_fat fs) l cs) 0 name) as [|i|] eqn:E2; [done | | done]. cbn [shift_scan located].
    apply find_entry_range in E2. by rewrite inode_at_shift by lia.
Qed.


(** The inode as a function of the entry and its place. *)
Definition inode_from (dir : inode) (e : list Z) (c i index : Z) : inode :=
  mk_inode (if negb (Z.land (de_attr e 0) FAT_ATTR_DIRECTORY =? 0) then FT_DIR else FT_REG_FILE) (de_size e 0)
    (mk_priv (de_cluster e 0) c index (first_cluster (i_private dir)) (32 * i)).

Lemma inode_of_entry_eq (dir : inode) (buf : list Z) (c i index : Z) :
  0 <= i -> inode_of_entry dir buf c i index = inode_from dir (entry_bytes buf i) c i index.
Proof.
  intros Hi. unfold inode_of_entry, inode_from.
  by rewrite (de_attr_entry buf i Hi), (de_size_entry buf i Hi), (de_cluster_entry buf i Hi).
Qed.

Lemma dir_entries_cons (f : fat32) (l : list Z) (c : Z) (cs : list Z) :
  dir_entries f l (c :: cs) = cluster_entries f l c ++ dir_entries f l cs.
Proof. done. Qed.

Lemma dir_entries_lookup (f : fat32) (l cs : list Z) (i : Z) :
  0 < entries_per_cluster f -> 0 <= i < entries_per_cluster f * Z.of_nat (length cs) ->
  dir_entries f l cs !! Z.to_nat i =
  Some (entry_bytes (cluster_bytes f l (nth (Z.to_nat (i / entries_per_cluster f)) cs 0)) (i mod entries_per_cluster f)).
Proof.
  intros He. revert i. induction cs as [|c cs IH]; intros i Hi; [cbn [length] in Hi; lia |]. cbn [length] in Hi.
  rewrite dir_entries_cons. destruct (Z.ltb_spec i (entries_per_cluster f)) as [Hlt | Hge].
  - rewrite lookup_app_l by (rewrite length_cluster_entries; lia). unfold cluster_entries.
    rewrite entries_from_lookup by lia. rewrite Z.div_small, Z.mod_small by lia. cbn [Z.to_nat nth]. do 2 f_equal. lia.
  - rewrite lookup_app_r by (rewrite length_cluster_entries; lia). rewrite length_cluster_entries.
    replace (Z.to_nat i - _)%nat with (Z.to_nat (i - entries_per_cluster f)) by lia. rewrite IH by lia.
    assert (Hd : i / entries_per_cluster f = (i - entries_per_cluster f) / entries_per_cluster f + 1).
    { rewrite <- Z.div_add by lia. f_equal. lia. }
    assert (Hm : i mod entries_per_cluster f = (i - entries_per_cluster f) mod entries_per_cluster f).
    { rewrite <- (Z.mod_add (i - entries_per_cluster f) 1) by lia. f_equal. lia. }
    pose proof (Z.div_pos (i - entries_per_cluster f) (entries_per_cluster f) ltac:(lia) He).
    rewrite Hd, Hm, (Z.add_comm _ 1), Z2Nat.inj_add by lia. done.
Qed.

Lemma inode_at_eq (f : fat32) (l : list Z) (dir : inode) (cs : list Z) (i : Z) (e : list Z) :
  0 < entries_per_cluster f -> 0 <= i < entries_per_cluster f * Z.of_nat (length cs) ->
  dir_entries f l cs !! Z.to_nat i = Some e ->
  inode_at f l dir cs 0 i =
  inode_from dir e (nth (Z.to_nat (i / entries_per_cluster f)) cs 0) (i mod entries_per_cluster f) i.
Proof.
  intros He Hi E. rewrite dir_entries_lookup in E by done. injection E as <-. unfold inode_at. apply inode_of_entry_eq.
  apply Z.mod_pos_bound. lia.
Qed.

(** Writing one entry of a buffer. *)
Lemma entries_from_splice (n : nat) (i j : Z) (buf e : list Z) :
  0 <= i <= j -> j < i + Z.of_nat n -> length e = 32%nat -> 32 * (i + Z.of_nat n) <= Z.of_nat (length buf) ->
  entries_from n i (splice buf (32 * j) e) = <[Z.to_nat (j - i) := e]> (entries_from n i buf).
Proof.
  intros Hi Hj He Hl. apply list_eq. intros k. destruct (decide (k < n)%nat) as [Hk | Hk].
  - rewrite entries_from_lookup by done. destruct (decide (k = Z.to_nat (j - i))) as [-> | Hne].
    + rewrite list_lookup_insert_eq by (rewrite length_entries_from; lia). f_equal. unfold entry_bytes.
      replace (32 * (i + Z.of_nat (Z.to_nat (j - i)))) with (32 * j) by lia.
      pose proof (slice_splice_eq buf e (32 * j) ltac:(lia) ltac:(lia)) as Es. rewrite He in Es. done.
    + rewrite list_lookup_insert_ne by done. rewrite entries_from_lookup by done. f_equal. unfold entry_bytes.
      apply slice_splice_ne; lia.
  - rewrite !lookup_ge_None_2; rewrite ?length_insert, ?length_entries_from; lia || done.
Qed.

Lemma dir_entries_ext (f : fat32) (l l' cs : list Z) :
  Forall (fun c => cluster_bytes f l' c = cluster_bytes f l c) cs -> dir_entries f l' cs = dir_entries f l cs.
Proof.
  intros HF. unfold dir_entries. f_equal. apply Forall_fmap_ext_1. eapply Forall_impl; [exact HF |].
  intros c E. cbn in E. unfold cluster_entries. by rewrite E.
Qed.

Lemma dir_entries_app (f : fat32) (l cs ks : list Z) : dir_entries f l (cs ++ ks) = dir_entries f l cs ++ dir_entries f l ks.
Proof. unfold dir_entries. by rewrite fmap_app, concat_app. Qed.

(** What a new content of one cluster of a directory means for its entries. *)
Lemma dir_entries_write (fs : fatfs D) (l cs : list Z) (c : Z) (buf : list Z) (p s : list Z) :
  let f := fs_fat fs in
  vol_ok fs l -> NoDup cs -> Forall (in_volume f l) cs -> cs = p ++ c :: s -> Z.of_nat (length buf) = bytes_per_cluster f ->
  dir_entries f (splice l (cluster_pos f c) buf) cs =
  dir_entries f l p ++ entries_from (Z.to_nat (entries_per_cluster f)) 0 buf ++ dir_entries f l s.
Proof.
  cbv zeta. intros Hv Hnd Hin -> Hb. apply NoDup_app in Hnd as (_ & Hp & (Hs & _)%NoDup_cons).
  rewrite Forall_forall in Hin. pose proof (Hin c ltac:(set_solver)) as Hc.
  assert (Hx : forall x, x ∈ p ++ c :: s -> x <> c ->
            cluster_bytes (fs_fat fs) (splice l (cluster_pos (fs_fat fs) c) buf) x = cluster_bytes (fs_fat fs) l x).
  { intros x Hx Hne. rewrite (cluster_bytes_write fs l c x buf Hv Hc (proj1 (Hin x Hx)) Hb). by rewrite decide_False. }
  rewrite dir_entries_app, dir_entries_cons. f_equal; [| f_equal].
  - apply dir_entries_ext, Forall_forall. intros x Hxp. apply Hx; [set_solver |]. intros ->. by apply (Hp c Hxp), elem_of_cons; left.
  - unfold cluster_entries. rewrite (cluster_bytes_write fs l c c buf Hv Hc (proj1 Hc) Hb). by rewrite decide_True.
  - apply dir_entries_ext, Forall_forall. intros x Hxs. apply Hx; [set_solver |]. by intros ->.
Qed.

(** Writing one entry of a directory. *)
Lemma dir_entries_insert (fs : fatfs D) (l cs : list Z) (i : Z) (e : list Z) :
  let f := fs_fat fs in
  let c := nth (Z.to_nat (i / entries_per_cluster f)) cs 0 in
  vol_ok fs l -> NoDup cs -> Forall (in_volume f l) cs -> 0 <= i < entries_per_cluster f * Z.of_nat (length cs) ->
  length e = 32%nat ->
  dir_entries f (splice l (cluster_pos f c) (splice (cluster_bytes f l c) (32 * (i mod entries_per_cluster f)) e)) cs =
  <[Z.to_nat i := e]> (dir_entries f l cs).
Proof.
  cbv zeta. intros Hv Hnd Hin Hi He. destruct (epc_pos fs l Hv) as [Hep Hbe].
  set (f := fs_fat fs) in *. set (k := Z.to_nat (i / entries_per_cluster f)) in *. set (j := i mod entries_per_cluster f) in *.
  pose proof (Z.mod_pos_bound i (entries_per_cluster f) Hep) as Hj. fold j in Hj.
  pose proof (Z.div_mod i (entries_per_cluster f) ltac:(lia)) as Hdm. fold j in Hdm.
  pose proof (Z.div_pos i (entries_per_cluster f) ltac:(lia) Hep) as Hdp.
  assert (Hk : (k < length cs)%nat) by (unfold k; nia).
  pose proof (take_drop_middle cs k (nth k cs 0)) as Hcs.
  assert (E : cs !! k = Some (nth k cs 0)) by (rewrite nth_lookup; by destruct (lookup_lt_is_Some_2 cs k Hk) as [x ->]).
  specialize (Hcs E). set (c := nth k cs 0) in *.
  pose proof Hin as Hin'. rewrite Forall_forall in Hin'. pose proof (Hin' c ltac:(by apply (list_elem_of_lookup_2 _ k))) as Hc.
  pose proof (length_cluster_bytes fs l c Hv Hc) as Hcl. fold f in Hcl.
  rewrite (dir_entries_write fs l cs c _ (take k cs) (drop (S k) cs) Hv Hnd Hin (eq_sym Hcs)).
  2: { fold f. rewrite splice_length_nat; lia. }
  fold f. rewrite entries_from_splice by lia. rewrite Z.sub_0_r.
  rewrite <- Hcs at 3. rewrite dir_entries_app, dir_entries_cons.
  rewrite insert_app_r_alt by (rewrite length_dir_entries, length_take; nia).
  rewrite insert_app_l.
  - do 2 f_equal. f_equal. rewrite length_dir_entries, length_take, Nat.min_l by lia. unfold k. nia.
  - rewrite length_cluster_entries, length_dir_entries, length_take, Nat.min_l by lia. unfold k. nia.
Qed.

(** The search for a free entry, on the list. *)
Definition slot_of (f : fat32) (cs : list Z) (base : Z) (r : option Z) : free_slot :=
  let epc := entries_per_cluster f in
  match r with
  | Some i => FreeAt (nth (Z.to_nat (i / epc)) cs 0) (i mod epc) (base + i)
  | None => NoFree FAT32_EOC (base + epc * Z.of_nat (length cs))
  end.

Lemma find_free_ok (cs : list Z) (fuel : nat) (fs : fatfs D) (l : list Z) (buf : list Z) (index : Z) :
  vol_ok fs l -> (cs <> [] -> chain (fat_cache (fs_fat fs)) cs) -> Forall (in_volume (fs_fat fs) l) cs ->
  Z.of_nat (length buf) = bytes_per_cluster (fs_fat fs) -> (length cs <= fuel)%nat ->
  0 <= index -> index + entries_per_cluster (fs_fat fs) * Z.of_nat (length cs) < 2 ^ 32 ->
  let r := find_free_entry (dir_entries (fs_fat fs) l cs) 0 in
  exists d buf', find_free fuel fs (hd FAT32_EOC cs) buf index =
      Ret (Some (slot_of (fs_fat fs) cs index r), buf', mk_fs d (fs_fat fs)) /\
    vol_ok (mk_fs d (fs_fat fs)) l /\ Z.of_nat (length buf') = bytes_per_cluster (fs_fat fs) /\
    (forall i, r = Some i -> buf' = cluster_bytes (fs_fat fs) l (nth (Z.to_nat (i / entries_per_cluster (fs_fat fs))) cs 0)).
Proof.
  cbv zeta. revert fuel fs buf index. induction cs as [|c cs IH]; intros fuel fs buf index Hv Hch Hin Hbuf Hfu Hi Hidx.
  { exists (fs_dev fs), buf. unfold slot_of. cbn [dir_entries fmap list_fmap concat find_free_entry length hd].
    replace (index + _) with index by lia. destruct fuel, fs; done. }
  pose proof Hv as [_ Hok _ _ _]. destruct (epc_pos fs l Hv) as [He Hbe].
  pose proof (Hch ltac:(done)) as Hc. pose proof (chain_range _ _ Hc) as Hr. inversion Hr as [|? ? Hcr _]; subst.
  rewrite (fo_length _ Hok) in Hcr. inversion Hin as [|? ? Hcv Hcsv]; subst.
  destruct fuel as [|fuel]; [cbn in Hfu; lia |]. cbn [find_free hd length] in *. rewrite (live_in _ c Hok Hcr). cbn [negb].
  destruct (read_cluster_ok fs l c buf Hv Hcv Hbuf) as (d & -> & Hv'). cbn [obind negb fs_fat].
  rewrite free_scan_eq by lia. fold (cluster_entries (fs_fat fs) l c). rewrite dir_entries_cons, find_free_app.
  destruct (find_free_entry (cluster_entries (fs_fat fs) l c) 0) as [i|] eqn:E.
  - apply find_free_range in E. rewrite length_cluster_entries in E.
    exists d, (cluster_bytes (fs_fat fs) l c). rewrite wrap_small by (split; nia). unfold slot_of.
    rewrite Z.div_small, Z.mod_small by lia. split_and!; try done; [by apply length_cluster_bytes |].
    intros j [= <-]. by rewrite Z.div_small by lia.
  - rewrite (chain_next _ c cs Hok Hc). cbn [obind]. rewrite wrap_small by (split; nia).
    destruct (IH fuel (mk_fs d (fs_fat fs)) (cluster_bytes (fs_fat fs) l c) (index + entries_per_cluster (fs_fat fs)))
      as (d' & buf' & E' & Hv'' & Hl & Hb); cbn [fs_fat]; try done; try lia.
    { intros Hne. by apply (chain_tail _ c). }
    { by apply length_cluster_bytes. }
    exists d', buf'. rewrite E'. cbn [fs_fat] in *. rewrite length_cluster_entries, Z2Nat.id by lia.
    rewrite (Z.add_comm 0), find_free_shift. unfold slot_of in *.
    destruct (find_free_entry (dir_entries (fs_fat fs) l cs) 0) as [i|] eqn:E2; cbn [fmap option_fmap option_map].
    + apply find_free_range in E2. pose proof (Z.div_pos i _ ltac:(lia) He).
      replace (entries_per_cluster (fs_fat fs) + i) with (i + 1 * entries_per_cluster (fs_fat fs)) by lia.
      rewrite Z.div_add, Z.mod_add by lia.
      replace (Z.to_nat (i / _ + 1)) with (S (Z.to_nat (i / entries_per_cluster (fs_fat fs)))) by lia. cbn [nth].
      split_and!; try done.
      { by replace (index + (i + 1 * entries_per_cluster (fs_fat fs))) with (index + entries_per_cluster (fs_fat fs) + i) by lia. }
      intros j [= <-]. rewrite Z.div_add by lia.
      replace (Z.to_nat (i / _ + 1)) with (S (Z.to_nat (i / entries_per_cluster (fs_fat fs)))) by lia. cbn [nth]. by apply Hb.
    + split_and!; try done. cbn [length].
      by replace (index + entries_per_cluster (fs_fat fs) * Z.of_nat (S (length cs)))
        with (index + entries_per_cluster (fs_fat fs) + entries_per_cluster (fs_fat fs) * Z.of_nat (length cs)) by lia.
Qed.
End directory.

Section lookup.
Context {D : Type} `{SectorDev D}.
Variable stk : Z -> Z.

(** Lookup walks the clusters of a directory as one list of entries: it finds the first
    entry with the name in front of the end mark, that is neither deleted nor part of a
    long name, and returns its place, size and first cluster. *)
Lemma fat32_lookup_ok (fs : fatfs D) (l : list Z) (dir : inode) (cs : list Z) (name : list Z) :
  vol_ok fs l -> dir_ok fs l dir cs ->
  exists d, fat32_lookup stk fs dir name =
      Ret (located (fs_fat fs) l dir cs 0 (find_entry (dir_entries (fs_fat fs) l cs) 0 name), mk_fs d (fs_fat fs)) /\
    vol_ok (mk_fs d (fs_fat fs)) l.
Proof.
  intros Hv [Hch Hnd Hfirst Hin Hb]. unfold fat32_lookup. rewrite Hfirst.
  apply lookup_from_ok; try done; try lia.
  - rewrite length_uninit. pose proof (epc_pos fs l Hv). lia.
  - pose proof (chain_length _ _ Hnd Hch). unfold walk_fuel. lia.
Qed.
End lookup.

(** * Changing the list *)

Definition found (r : scan_result) : option Z := match r with ScanFound i => Some i | _ => None end.

(** Behind the end mark there are only end marks. *)
Fixpoint closed (es : list (list Z)) : Prop :=
  match es with
  | [] => True
  | e :: es' => (de_first e 0 = 0 -> Forall (fun e' => de_first e' 0 = 0) es') /\ closed es'
  end.

Definition visible (e : list Z) (name : list Z) : Prop :=
  de_first e 0 <> 0 /\ entry_hidden e = false /\ entry_name e = name.

Lemma free_not_end (e : list Z) : entry_free e = false -> de_first e 0 <> 0 /\ deleted e 0 = false.
Proof. unfold entry_free. intros E. apply orb_false_iff in E as [E1 E2]. split; [lia | done]. Qed.

(** The new entry is found, unless the name was there before. *)
Lemma find_entry_new (es : list (list Z)) (i k : Z) (e name : list Z) :
  0 <= i -> find_free_entry es i = Some k -> found (find_entry es i name) = None -> visible e name ->
  find_entry (<[Z.to_nat (k - i) := e]> es) i name = ScanFound k.
Proof.
  revert i. induction es as [|e0 es IH]; intros i Hi Ef En Hv; [done |]. cbn [find_free_entry find_entry] in *.
  destruct (entry_free e0) eqn:E0.
  - injection Ef as ->. rewrite Z.sub_diag. change (<[Z.to_nat 0 := e]> (e0 :: es)) with (e :: es). cbn [find_entry]. destruct Hv as (V1 & V2 & V3).
    replace (de_first e 0 =? 0) with false by lia. rewrite V2. by rewrite bool_decide_eq_true_2.
  - apply free_not_end in E0 as [E1 E2]. pose proof (find_free_range _ _ _ Ef) as Hr.
    replace (Z.to_nat (k - i)) with (S (Z.to_nat (k - (i + 1)))) by lia.
    change (<[S ?j := e]> (e0 :: es)) with (e0 :: <[j := e]> es). cbn [find_entry].
    replace (de_first e0 0 =? 0) with false in * by lia.
    destruct (entry_hidden e0); [by apply IH; try lia |]. destruct (bool_decide (entry_name e0 = name)); [done |]. by apply IH; try lia.
Qed.

Lemma find_entry_ended (es : list (list Z)) (i : Z) (name : list Z) :
  Forall (fun e => de_first e 0 = 0) es -> found (find_entry es i name) = None.
Proof. destruct 1 as [|e es He _]; [done |]. cbn. by rewrite He. Qed.

(** Other names are found as before. *)
Lemma find_entry_new_other (es : list (list Z)) (i k : Z) (e name name' : list Z) :
  0 <= i -> closed es -> find_free_entry es i = Some k -> visible e name -> name' <> name ->
  found (find_entry (<[Z.to_nat (k - i) := e]> es) i name') = found (find_entry es i name').
Proof.
  revert i. induction es as [|e0 es IH]; intros i Hi Hcl0 Ef Hv Hne; [done |].
  destruct Hcl0 as [Hcl Hcl']. cbn [find_free_entry find_entry] in *.
  destruct (entry_free e0) eqn:E0.
  - injection Ef as ->. rewrite Z.sub_diag. change (<[Z.to_nat 0 := e]> (e0 :: es)) with (e :: es). cbn [find_entry]. destruct Hv as (V1 & V2 & V3).
    replace (de_first e 0 =? 0) with false by lia. rewrite V2, bool_decide_eq_false_2 by congruence.
    destruct (Z.eqb_spec (de_first e0 0) 0) as [Ez | Ez]; [by apply find_entry_ended, Hcl |].
    unfold entry_free in E0. replace (de_first e0 0 =? 0) with false in E0 by lia. cbn [orb] in E0.
    unfold entry_hidden. rewrite E0. done.
  - apply free_not_end in E0 as [E1 E2]. pose proof (find_free_range _ _ _ Ef) as Hr.
    replace (Z.to_nat (k - i)) with (S (Z.to_nat (k - (i + 1)))) by lia.
    change (<[S ?j := e]> (e0 :: es)) with (e0 :: <[j := e]> es). cbn [find_entry].
    replace (de_first e0 0 =? 0) with false in * by lia.
    destruct (entry_hidden e0); [by apply IH; try lia |].
    destruct (bool_decide (entry_name e0 = name')); [done |]. by apply IH; try lia.
Qed.

(** A free entry is never the one that is found. *)
Lemma find_entry_not_free (es : list (list Z)) (i k : Z) (name : list Z) :
  0 <= i -> find_entry es i name = ScanFound k -> find_free_entry es i = Some k -> False.
Proof.
  revert i. induction es as [|e es IH]; intros i Hi E Ef; [done |]. cbn [find_entry find_free_entry] in *.
  destruct (entry_free e) eqn:E0.
  - injection Ef as ->. unfold entry_free in E0. destruct (_ =? 0); [done |]. cbn [orb] in E0.
    unfold entry_hidden in E. rewrite E0 in E. apply find_entry_range in E. lia.
  - apply free_not_end in E0 as [E1 _]. replace (de_first e 0 =? 0) with false in E by lia.
    destruct (entry_hidden e); [by apply (IH (i + 1)); try lia |].
    destruct (bool_decide (entry_name e = name)); [| by apply (IH (i + 1)); try lia].
    injection E as ->. apply find_free_range in Ef. lia.
Qed.

Lemma closed_insert (es : list (list Z)) (i k : Z) (e : list Z) :
  0 <= i -> closed es -> find_free_entry es i = Some k -> de_first e 0 <> 0 -> closed (<[Z.to_nat (k - i) := e]> es).
Proof.
  revert i. induction es as [|e0 es IH]; intros i Hi Hcl Ef He; [done |]. destruct Hcl as [H1 H2]. cbn [find_free_entry] in Ef.
  destruct (entry_free e0) eqn:E0.
  - injection Ef as ->. rewrite Z.sub_diag. change (<[Z.to_nat 0 := e]> (e0 :: es)) with (e :: es). by split.
  - apply free_not_end in E0 as [E1 _]. pose proof (find_free_range _ _ _ Ef) as Hr.
    replace (Z.to_nat (k - i)) with (S (Z.to_nat (k - (i + 1)))) by lia.
    change (<[S ?j := e]> (e0 :: es)) with (e0 :: <[j := e]> es). split; [done |]. by apply IH; try lia.
Qed.

(** * Creating a file *)

Lemma eleven (name : list Z) : length name = 11%nat ->
  exists a b c d e f g h i j k, name = [a; b; c; d; e; f; g; h; i; j; k].
Proof. intros Hl. do 12 (destruct name; [by (discriminate Hl || (repeat eexists)) |]). discriminate Hl. Qed.

Lemma length_new_entry (name : list Z) (attr c : Z) (now : rtc) : length name = 11%nat -> length (new_entry name attr c now) = 32%nat.
Proof. intros Hl. unfold new_entry. rewrite !length_app, !length_le_bytes, Hl. done. Qed.

Lemma new_entry_fields (name : list Z) (attr c : Z) (now : rtc) :
  length name = 11%nat -> fits 32 c ->
  let e := new_entry name attr c now in
  de_name e 0 = name /\ de_first e 0 = get name 0 /\ de_attr e 0 = attr /\ de_cluster e 0 = c /\ de_size e 0 = 0.
Proof.
  intros Hl Hc. destruct (eleven name Hl) as (n0 & n1 & n2 & n3 & n4 & n5 & n6 & n7 & n8 & n9 & n10 & ->).
  cbv zeta. split_and!; try done. unfold de_cluster, new_entry.
  change (field _ (0 + 20) 2) with (le_val (le_bytes 2 (Z.land (Z.shiftr c 16) 0xFFFF))).
  change (field _ (0 + 26) 2) with (le_val (le_bytes 2 (Z.land c 0xFFFF))).
  change 0xFFFF with (Z.ones 16). rewrite !Z.land_ones by lia.
  rewrite !le_val_bytes by (apply Z.mod_pos_bound; lia). destruct Hc as [Hc1 Hc2].
  rewrite Z.shiftr_div_pow2 by lia.
  rewrite (Z.mod_small (c / 2 ^ 16)) by (split; [apply Z.div_pos; lia | apply Z.div_lt_upper_bound; lia]).
  rewrite wrap_small.
  - rewrite Z.lor_comm, lor_high_low by (done || apply Z.mod_pos_bound; lia).
    pose proof (Z.div_mod c (2 ^ 16) ltac:(lia)). lia.
  - rewrite Z.shiftl_mul_pow2 by lia. pose proof (Z.div_mod c (2 ^ 16) ltac:(lia)).
    pose proof (Z.mod_pos_bound c (2 ^ 16) ltac:(lia)). pose proof (Z.div_pos c (2 ^ 16) Hc1 ltac:(lia)). split; lia.
Qed.

Lemma short_first (base ext : list Z) :
  short_ok base ext -> get (fat32_name_to_entry (dotted base ext)) 0 = upper (hd 0 base).
Proof.
  intros Hok. rewrite name_to_entry_eq by done. destruct Hok as [H1 _ _ _]. destruct base as [|c base]; [cbn in H1; lia |]. done.
Qed.

Lemma dotted_length (base ext : list Z) : short_ok base ext -> (length (dotted base ext) <= 12)%nat.
Proof. intros [H1 H2 _ _]. unfold dotted. rewrite length_app. destruct ext; cbn [length] in *; lia. Qed.

Section create.
Context {D : Type} `{SectorDev D}.
Variable stk : Z -> Z.

(** The entry that [fat32_create] writes for a file. *)
Definition file_entry (base ext : list Z) (now : rtc) : list Z :=
  new_entry (fat32_name_to_entry (dotted base ext)) FAT_ATTR_ARCHIVE 0 now.

Lemma file_entry_visible (base ext : list Z) (now : rtc) :
  short_ok base ext -> hd 0 base <> 0xE5 -> visible (file_entry base ext now) (dotted base ext).
Proof.
  intros Hok H5. destruct (fat32_name_roundtrip_ok base ext Hok) as [Hl Hn].
  destruct (new_entry_fields (fat32_name_to_entry (dotted base ext)) FAT_ATTR_ARCHIVE 0 now Hl (fits_0 32 ltac:(lia)))
    as (F1 & F2 & F3 & _).
  assert (Hc : name_char (hd 0 base)).
  { destruct Hok as [H1 _ H3 _]. destruct base; [cbn in H1; lia |]. by inversion H3. }
  pose proof (upper_char _ Hc) as Hu. unfold visible, file_entry, entry_hidden, entry_name, deleted, is_lfn.
  rewrite F1, F2, F3, short_first by done. split_and!; [lia | | done].
  assert (upper (hd 0 base) <> 0xE5).
  { unfold upper in *. destruct ((97 <=? hd 0 base) && (hd 0 base <=? 122)) eqn:E; lia. }
  replace (_ =? 0xE5) with false by lia. done.
Qed.

Lemma create_slot_ok (fs : fatfs D) (l : list Z) (dir : inode) (cs : list Z) (i : Z) :
  let f := fs_fat fs in
  let c := nth (Z.to_nat (i / entries_per_cluster f)) cs 0 in
  vol_ok fs l -> dir_ok fs l dir cs -> find_free_entry (dir_entries f l cs) 0 = Some i ->
  exists d, create_slot stk fs dir =
      Ret (Some (c, 32 * (i mod entries_per_cluster f), i, cluster_bytes f l c), dir, mk_fs d f) /\ vol_ok (mk_fs d f) l.
Proof.
  cbv zeta. intros Hv [Hch Hnd Hfirst Hin Hb] Ef. unfold create_slot. rewrite Hfirst.
  destruct (find_free_ok cs (walk_fuel (fs_fat fs)) fs l (uninit stk (bytes_per_cluster (fs_fat fs))) 0)
    as (d & buf & E & Hv' & _ & Hbuf); try done; try lia.
  { rewrite length_uninit. pose proof (epc_pos fs l Hv). lia. }
  { pose proof (chain_length _ _ Hnd Hch). unfold walk_fuel. lia. }
  rewrite Ef in E. unfold slot_of in E. rewrite E. cbn [obind]. rewrite (Hbuf i Ef). by exists d.
Qed.

Lemma fat32_create_ok (fs : fatfs D) (l : list Z) (dir : inode) (cs : list Z) (base ext : list Z) (now : rtc) (i : Z) :
  let f := fs_fat fs in
  let c := nth (Z.to_nat (i / entries_per_cluster f)) cs 0 in
  let o := 32 * (i mod entries_per_cluster f) in
  vol_ok fs l -> dir_ok fs l dir cs -> short_ok base ext ->
  found (find_entry (dir_entries f l cs) 0 (dotted base ext)) = None -> find_free_entry (dir_entries f l cs) 0 = Some i ->
  exists d, fat32_create stk fs dir (dotted base ext) FT_REG_FILE now =
      Ret (Some (mk_inode FT_REG_FILE 0 (mk_priv 0 c i (first_cluster (i_private dir)) o)), dir, mk_fs d f) /\
    vol_ok (mk_fs d f) (splice l (cluster_pos f c) (splice (cluster_bytes f l c) o (file_entry base ext now))) /\
    in_volume f l c.
Proof.
  cbv zeta. intros Hv Hd Hok En Ef. pose proof Hd as [Hch Hnd Hfirst Hin Hb]. destruct (epc_pos fs l Hv) as [Hep Hbe].
  pose proof (find_free_range _ _ _ Ef) as Hi. rewrite length_dir_entries in Hi.
  set (f := fs_fat fs) in *. pose proof (Z.mod_pos_bound i (entries_per_cluster f) Hep) as Hj.
  assert (Hk : (Z.to_nat (i / entries_per_cluster f) < length cs)%nat).
  { pose proof (Z.div_pos i (entries_per_cluster f) ltac:(lia) Hep). apply Nat2Z.inj_lt. rewrite Z2Nat.id by done.
    apply Z.div_lt_upper_bound; nia. }
  set (c := nth (Z.to_nat (i / entries_per_cluster f)) cs 0). set (j := i mod entries_per_cluster f) in *.
  assert (Hc : in_volume f l c).
  { rewrite Forall_forall in Hin. apply Hin. apply (list_elem_of_lookup_2 _ (Z.to_nat (i / entries_per_cluster f))).
    unfold c. rewrite nth_lookup. by destruct (lookup_lt_is_Some_2 cs _ Hk) as [x ->]. }
  assert (Hnone : located f l dir cs 0 (find_entry (dir_entries f l cs) 0 (dotted base ext)) = None).
  { by destruct (find_entry (dir_entries f l cs) 0 (dotted base ext)). }
  destruct (fat32_name_roundtrip_ok base ext Hok) as [Hl _].
  pose proof (length_new_entry _ FAT_ATTR_ARCHIVE 0 now Hl) as Hle. fold (file_entry base ext now) in Hle.
  pose proof (length_cluster_bytes fs l c Hv Hc) as Hcl. fold f in Hcl. pose proof (dotted_length base ext Hok) as Hdl.
  unfold fat32_create.
  destruct (fat32_lookup_ok stk fs l dir cs (dotted base ext) Hv Hd) as (d1 & -> & Hv1). cbn [obind]. fold f. rewrite Hnone.
  destruct (create_slot_ok (mk_fs d1 f) l dir cs i Hv1 ltac:(by split) Ef) as (d2 & -> & Hv2). cbn [obind fs_fat]. fold c j.
  replace (12 <? _) with false by lia. cbn [Z.ltb Z.compare].
  replace (32 * j / 32) with j by (rewrite Z.mul_comm, Z.div_mul; lia).
  rewrite wrap_small by (split; nia). fold (entries_per_cluster f). replace (entries_per_cluster f <? _) with false by lia.
  unfold create_first. cbn [Z.eqb FT_REG_FILE FT_DIR Pos.eqb obind]. fold (file_entry base ext now).
  set (buf := splice (cluster_bytes f l c) (32 * j) (file_entry base ext now)).
  assert (Hbl : Z.of_nat (length buf) = bytes_per_cluster f) by (unfold buf; rewrite splice_length_nat; lia).
  destruct (write_cluster_ok (mk_fs d2 f) l c buf Hv2 Hc Hbl) as (d3 & E3 & Hv3). cbn [fs_fat] in *. rewrite E3. cbn [obind].
  exists d3. split_and!; [| done | done]. do 3 f_equal. f_equal. f_equal. f_equal.
  rewrite de_cluster_entry by lia. unfold entry_bytes, buf.
  pose proof (slice_splice_eq (cluster_bytes f l c) (file_entry base ext now) (32 * j) ltac:(lia) ltac:(lia)) as Es.
  rewrite Hle in Es. change (Z.of_nat 32) with 32 in Es. rewrite Es. by apply new_entry_fields; [| apply fits_0].
Qed.

Lemma dir_ok_write (fs : fatfs D) (l l' : list Z) (dir : inode) (cs : list Z) (d : D) :
  length l' = length l -> dir_ok fs l dir cs -> dir_ok (mk_fs d (fs_fat fs)) l' dir cs.
Proof.
  intros Hl [H1 H2 H3 H4 H5]. split; try done. eapply Forall_impl; [exact H4 |]. intros c. by apply in_volume_write.
Qed.

(** C15: Creating a regular file whose name has the 8.3 form and no upper-case letters, is
    not yet found in the directory, and meets a free entry there: the name is found
    afterwards, with the very inode that was returned, empty and without clusters; every
    other name is found as before, and no cluster outside the directory changes.  Long
    names, whose entries may be written over live ones, are not covered. *)
Theorem fat32_create_spec (fs : fatfs D) (l : list Z) (dir : inode) (cs : list Z) (base ext : list Z) (now : rtc) (i : Z) :
  let f := fs_fat fs in
  let es := dir_entries f l cs in
  let name := dotted base ext in
  vol_ok fs l -> dir_ok fs l dir cs -> short_ok base ext -> hd 0 base <> 0xE5 -> closed es ->
  found (find_entry es 0 name) = None -> find_free_entry es 0 = Some i ->
  exists ino d l', fat32_create stk fs dir name FT_REG_FILE now = Ret (Some ino, dir, mk_fs d f) /\
    vol_ok (mk_fs d f) l' /\ dir_ok (mk_fs d f) l' dir cs /\ closed (dir_entries f l' cs) /\
    (i_size ino = 0 /\ first_cluster (i_private ino) = 0 /\ exists d', fat32_lookup stk (mk_fs d f) dir name = Ret (Some ino, mk_fs d' f)) /\
    (forall name', name' <> name -> exists r d1 d2, fat32_lookup stk fs dir name' = Ret (r, mk_fs d1 f) /\
       fat32_lookup stk (mk_fs d f) dir name' = Ret (r, mk_fs d2 f)) /\
    (forall c, 2 <= c -> c ∉ cs -> cluster_bytes f l' c = cluster_bytes f l c).
Proof.
  cbv zeta. intros Hv Hd Hok H5 Hcl En Ef. pose proof Hd as [Hch Hnd Hfirst Hin Hb]. destruct (epc_pos fs l Hv) as [Hep Hbe].
  destruct (fat32_create_ok fs l dir cs base ext now i Hv Hd Hok En Ef) as (d & E & Hv' & Hc).
  pose proof (find_free_range _ _ _ Ef) as Hi. rewrite length_dir_entries, Nat2Z.inj_mul, Z2Nat.id, Z.add_0_l in Hi by lia.
  set (f := fs_fat fs) in *. set (c := nth (Z.to_nat (i / entries_per_cluster f)) cs 0) in *.
  set (j := i mod entries_per_cluster f) in *. set (e := file_entry base ext now) in *.
  pose proof (Z.mod_pos_bound i (entries_per_cluster f) Hep) as Hj. fold j in Hj.
  destruct (fat32_name_roundtrip_ok base ext Hok) as [Hl _].
  pose proof (length_new_entry _ FAT_ATTR_ARCHIVE 0 now Hl) as Hle. fold (file_entry base ext now) e in Hle.
  pose proof (length_cluster_bytes fs l c Hv Hc) as Hcbl. fold f in Hcbl.
  assert (Hbl : Z.of_nat (length (splice (cluster_bytes f l c) (32 * j) e)) = bytes_per_cluster f) by (rewrite splice_length_nat; lia).
  set (l' := splice l (cluster_pos f c) (splice (cluster_bytes f l c) (32 * j) e)) in *.
  assert (Hes : dir_entries f l' cs = <[Z.to_nat i := e]> (dir_entries f l cs)) by (apply (dir_entries_insert fs l cs i e); done || lia).
  pose proof (dir_ok_write fs l l' dir cs d (write_length fs l c _ Hv Hc Hbl) Hd) as Hd'.
  pose proof (file_entry_visible base ext now Hok H5) as Hvis. fold e in Hvis.
  eexists _, d, l'. split; [exact E |]. split; [done |]. split; [done |]. rewrite Hes. split.
  { pose proof (closed_insert (dir_entries f l cs) 0 i e ltac:(lia) Hcl Ef (proj1 Hvis)) as Hci. by rewrite Z.sub_0_r in Hci. }
  split; [| split].
  - split; [done |]. split; [done |].
    destruct (fat32_lookup_ok stk (mk_fs d f) l' dir cs (dotted base ext) Hv' Hd') as (d' & E' & _).
    exists d'. rewrite E'. cbn [fs_fat]. rewrite Hes.
    pose proof (find_entry_new (dir_entries f l cs) 0 i e (dotted base ext) ltac:(lia) Ef En Hvis) as Efn.
    rewrite Z.sub_0_r in Efn. rewrite Efn. cbn [located]. do 3 f_equal.
    rewrite (inode_at_eq f l' dir cs i e) by (done || lia || (rewrite Hes; apply list_lookup_insert_eq; rewrite length_dir_entries; nia)).
    destruct (new_entry_fields (fat32_name_to_entry (dotted base ext)) FAT_ATTR_ARCHIVE 0 now Hl (fits_0 32 ltac:(lia)))
      as (_ & _ & F3 & F4 & F5). fold (file_entry base ext now) e in F3, F4, F5.
    unfold inode_from. rewrite F3, F4, F5. done.
  - intros name' Hne. destruct (fat32_lookup_ok stk fs l dir cs name' Hv Hd) as (d1 & E1 & _).
    destruct (fat32_lookup_ok stk (mk_fs d f) l' dir cs name' Hv' Hd') as (d2 & E2 & _). cbn [fs_fat] in E2.
    eexists _, d1, d2. split; [exact E1 |]. rewrite E2, Hes. fold f. do 2 f_equal.
    pose proof (find_entry_new_other (dir_entries f l cs) 0 i e (dotted base ext) name' ltac:(lia) Hcl Ef Hvis Hne) as Eo.
    rewrite Z.sub_0_r in Eo. fold f.
    destruct (find_entry (dir_entries f l cs) 0 name') as [|k|] eqn:Ek;
      destruct (find_entry (<[Z.to_nat i:=e]> (dir_entries f l cs)) 0 name') as [|k'|] eqn:Ek'; cbn [found] in Eo; try done.
    injection Eo as ->. cbn [located]. f_equal. apply find_entry_range in Ek as Hk. rewrite length_dir_entries, Nat2Z.inj_mul, Z2Nat.id, Z.add_0_l in Hk by lia.
    assert (Hki : k <> i).
    { intros ->. exact (find_entry_not_free (dir_entries f l cs) 0 i name' ltac:(lia) Ek Ef). }
    destruct (lookup_lt_is_Some_2 (dir_entries f l cs) (Z.to_nat k)) as [e0 He0]; [rewrite length_dir_entries; nia |].
    rewrite (inode_at_eq f l dir cs k e0), (inode_at_eq f l' dir cs k e0);
      try done; try lia. rewrite Hes, list_lookup_insert_ne by lia. done.
  - intros x Hx Hxn. pose proof (cluster_bytes_write fs l c x _ Hv Hc Hx Hbl) as Ew.
    fold f in Ew. fold l' in Ew. rewrite Ew, decide_False; [done |].
    intros ->. apply Hxn. apply (list_elem_of_lookup_2 _ (Z.to_nat (i / entries_per_cluster f))).
    assert (Hk : (Z.to_nat (i / entries_per_cluster f) < length cs)%nat).
    { pose proof (Z.div_pos i (entries_per_cluster f) ltac:(lia) Hep). apply Nat2Z.inj_lt. rewrite Z2Nat.id by done.
      apply Z.div_lt_upper_bound; nia. }
    unfold c. rewrite nth_lookup. by destruct (lookup_lt_is_Some_2 cs _ Hk) as [y ->].
Qed.
End create.
