(* ===== verification/Fat32Unlink.v ===== *)
(** Deleting a file in the FAT32 driver (Fat32.v): the entry and the parts of its long name
    are marked, the clusters of the file are given back, and nothing else changes. *)

From S2P Require Import Prelude Bytes Buffer SectorDev Fat32 Fat32Chain Fat32Data Fat32Dir.

(** * Lookup passes over entries it does not match *)

Definition skips (name e : list Z) : Prop := de_first e 0 <> 0 /\ (entry_hidden e = true \/ entry_name e <> name).

Definition same_for (name e e' : list Z) : Prop := e = e' \/ (skips name e /\ skips name e').

Lemma find_entry_skip (e : list Z) (es : list (list Z)) (i : Z) (name : list Z) :
  skips name e -> find_entry (e :: es) i name = find_entry es (i + 1) name.
Proof.
  intros [H1 H2]. cbn [find_entry]. replace (de_first e 0 =? 0) with false by lia.
  destruct (entry_hidden e); [done |]. destruct H2 as [H2 | H2]; [done |]. by rewrite bool_decide_eq_false_2.
Qed.

Lemma find_entry_same (es es' : list (list Z)) (i : Z) (name : list Z) :
  Forall2 (same_for name) es es' -> find_entry es i name = find_entry es' i name.
Proof.
  intros HF. revert i. induction HF as [|e e' es es' He _ IH]; intros i; [done |]. destruct He as [-> | [H1 H2]].
  - cbn [find_entry]. by rewrite IH.
  - by rewrite !find_entry_skip, IH.
Qed.

Lemma find_entry_none (es : list (list Z)) (i : Z) (name : list Z) :
  Forall (fun e => ~ visible e name) es -> found (find_entry es i name) = None.
Proof.
  intros HF. revert i. induction HF as [|e es He _ IH]; intros i; [done |]. cbn [find_entry].
  destruct (Z.eqb_spec (de_first e 0) 0); [done |]. destruct (entry_hidden e) eqn:E; [apply IH |].
  rewrite bool_decide_eq_false_2; [apply IH |]. intros En. by apply He.
Qed.

(** What is found: the entries in front of it do not match, itself it does. *)
Lemma find_entry_found (es : list (list Z)) (i k : Z) (name : list Z) :
  0 <= i -> find_entry es i name = ScanFound k ->
  (forall j e, i <= j < k -> es !! Z.to_nat (j - i) = Some e -> skips name e) /\
  exists e, es !! Z.to_nat (k - i) = Some e /\ visible e name.
Proof.
  revert i. induction es as [|e es IH]; intros i Hi E; [done |].
  assert (Hstep : skips name e -> find_entry es (i + 1) name = ScanFound k ->
    (forall j e0, i <= j < k -> (e :: es) !! Z.to_nat (j - i) = Some e0 -> skips name e0) /\
    exists e0, (e :: es) !! Z.to_nat (k - i) = Some e0 /\ visible e0 name).
  { intros Hsk Ek. destruct (IH (i + 1) ltac:(lia) Ek) as [H1 (e0 & H2 & H3)].
    pose proof (find_entry_range _ _ _ _ Ek) as Hr. split.
    - intros j e1 Hj He1. destruct (decide (j = i)) as [-> | Hne].
      + rewrite Z.sub_diag in He1. by injection He1 as <-.
      + apply (H1 j); [lia |]. by replace (Z.to_nat (j - i)) with (S (Z.to_nat (j - (i + 1)))) in He1 by lia.
    - exists e0. by replace (Z.to_nat (k - i)) with (S (Z.to_nat (k - (i + 1)))) by lia. }
  cbn [find_entry] in E. destruct (Z.eqb_spec (de_first e 0) 0) as [|Hz]; [done |].
  destruct (entry_hidden e) eqn:Eh; [apply Hstep; [split; [done | by left] | done] |].
  destruct (bool_decide (entry_name e = name)) eqn:Eb.
  - injection E as ->. apply bool_decide_eq_true in Eb. rewrite Z.sub_diag. split; [lia |]. by exists e.
  - apply bool_decide_eq_false in Eb. apply Hstep; [split; [done | by right] | done].
Qed.

(** * Marking entries *)

(** An entry after its first byte is set to 0xE5. *)
Definition gone (e : list Z) : list Z := set e 0 0xE5.

Lemma gone_hidden (e : list Z) : (0 < length e)%nat -> de_first (gone e) 0 = 0xE5 /\ entry_hidden (gone e) = true.
Proof.
  intros Hl. assert (E : de_first (gone e) 0 = 0xE5) by (unfold de_first, gone; apply get_set_eq; lia).
  split; [done |]. unfold entry_hidden, deleted. by rewrite E.
Qed.

Lemma gone_skips (name e : list Z) : (0 < length e)%nat -> skips name (gone e).
Proof. intros Hl. destruct (gone_hidden e Hl) as [E1 E2]. split; [rewrite E1; lia | by left]. Qed.

Lemma set_splice (l : list Z) (i v : Z) : 0 <= i < Z.of_nat (length l) -> set l i v = splice l i [v].
Proof. intros Hi. unfold set, splice. rewrite insert_take_drop by lia. cbn. do 2 f_equal. f_equal. lia. Qed.

Lemma entry_bytes_set (buf : list Z) (a k : Z) :
  0 <= a -> 0 <= k -> 32 * (a + 1) <= Z.of_nat (length buf) ->
  entry_bytes (set buf (32 * a) 0xE5) k = if decide (k = a) then gone (entry_bytes buf k) else entry_bytes buf k.
Proof.
  intros Ha Hk Hl. rewrite set_splice by lia. unfold entry_bytes. destruct (decide (k = a)) as [-> | Hne].
  - apply list_eq_get.
    + unfold gone. rewrite length_set. apply Nat2Z.inj. rewrite !length_slice; rewrite ?splice_length_nat; cbn [length]; lia.
    + intros i Hi. rewrite length_slice in Hi by (rewrite ?splice_length_nat; cbn [length]; lia).
      rewrite get_slice by lia. rewrite <- set_splice by lia. unfold gone. destruct (decide (i = 0)) as [-> | Hi0].
      * rewrite Z.add_0_r, !get_set_eq; [done | | lia]. rewrite length_slice; lia.
      * rewrite !get_set_ne, get_slice by lia. done.
  - apply slice_splice_ne; cbn [length]; lia.
Qed.

Lemma length_mark_deleted (n : nat) (a : Z) (buf : list Z) : length (mark_deleted n a buf) = length buf.
Proof. revert a buf. induction n as [|n IH]; intros a buf; [done |]. cbn. by rewrite IH, length_set. Qed.

Lemma length_entry_bytes (buf : list Z) (k : Z) : 0 <= k -> 32 * (k + 1) <= Z.of_nat (length buf) -> length (entry_bytes buf k) = 32%nat.
Proof. intros H1 H2. apply Nat2Z.inj. unfold entry_bytes. rewrite length_slice; lia. Qed.

Lemma entry_bytes_mark (n : nat) (a k : Z) (buf : list Z) :
  0 <= a -> 0 <= k -> 32 * (a + Z.of_nat n) <= Z.of_nat (length buf) ->
  entry_bytes (mark_deleted n a buf) k =
  if decide (a <= k < a + Z.of_nat n) then gone (entry_bytes buf k) else entry_bytes buf k.
Proof.
  revert a buf. induction n as [|n IH]; intros a buf Ha Hk Hl; cbn [mark_deleted].
  { by rewrite decide_False by lia. }
  rewrite IH by (rewrite ?length_set; lia). rewrite entry_bytes_set by lia.
  destruct (decide (k = a)) as [-> | Hne].
  - rewrite decide_False by lia. by rewrite decide_True by lia.
  - destruct (decide (a + 1 <= k < a + 1 + Z.of_nat n)); [by rewrite decide_True by lia | by rewrite decide_False by lia].
Qed.

(** The entries that are marked are parts of a long name. *)
Lemma lfn_before_spec (n : nat) (buf : list Z) :
  0 <= lfn_before n buf <= Z.of_nat n /\
  forall k, Z.of_nat n - lfn_before n buf <= k < Z.of_nat n -> is_lfn buf (32 * k) = true.
Proof.
  induction n as [|n [IH1 IH2]]; [cbn; split; [lia | intros; lia] |]. cbn [lfn_before].
  destruct (is_lfn buf (32 * Z.of_nat n)) eqn:E; [| cbn; split; [lia | intros; lia]].
  destruct (true && _); [split; [lia | intros; lia] |]. split; [lia |].
  intros k Hk. destruct (decide (k = Z.of_nat n)) as [-> | Hne]; [done |]. apply IH2. lia.
Qed.

(** * The geometry does not depend on the table *)

Lemma geom_bytes (f f' : fat32) (l : list Z) (c : Z) : geom f f' -> cluster_bytes f' l c = cluster_bytes f l c.
Proof. intros ->. done. Qed.

Lemma geom_dir_entries (f f' : fat32) (l cs : list Z) : geom f f' -> dir_entries f' l cs = dir_entries f l cs.
Proof. intros ->. done. Qed.

Lemma geom_located (f f' : fat32) (l : list Z) (dir : inode) (cs : list Z) (base : Z) (r : scan_result) :
  geom f f' -> located f' l dir cs base r = located f l dir cs base r.
Proof. intros ->. done. Qed.

Lemma geom_vol {D : Type} `{SectorDev D} (fs : fatfs D) (l : list Z) (f' : fat32) :
  geom (fs_fat fs) f' -> fat_ok f' -> vol_ok fs l -> vol_ok (mk_fs (fs_dev fs) f') l.
Proof. intros Hg Hok [H1 H2 H3 H4 H5]. split; cbn [fs_dev fs_fat]; try done; rewrite Hg; done. Qed.

Lemma geom_dir_ok {D : Type} `{SectorDev D} (fs : fatfs D) (l : list Z) (dir : inode) (cs : list Z) (f' : fat32) (d : D) :
  geom (fs_fat fs) f' -> chain (fat_cache f') cs -> dir_ok fs l dir cs -> dir_ok (mk_fs d f') l dir cs.
Proof.
  intros Hg Hch [H1 H2 H3 H4 H5]. split; cbn [fs_fat]; try done; [| by rewrite Hg].
  eapply Forall_impl; [exact H4 |]. intros c. by rewrite Hg.
Qed.

(** * Deleting *)

(** The buffer that [fat32_unlink] writes back, for the entry [j] of the cluster. *)
Definition unlinked (buf : list Z) (j : Z) : list Z :=
  let n := lfn_before (Z.to_nat j) buf in
  set (mark_deleted (Z.to_nat n) (j - n) buf) (32 * j) 0xE5.

Lemma length_unlinked (buf : list Z) (j : Z) : length (unlinked buf j) = length buf.
Proof. unfold unlinked. by rewrite length_set, length_mark_deleted. Qed.

Lemma unlinked_entry (buf : list Z) (j k : Z) :
  0 <= j -> 0 <= k -> 32 * (j + 1) <= Z.of_nat (length buf) ->
  (entry_bytes (unlinked buf j) k = entry_bytes buf k /\ k <> j) \/
  (entry_bytes (unlinked buf j) k = gone (entry_bytes buf k) /\ (k = j \/ (k < j /\ is_lfn (entry_bytes buf k) 0 = true))).
Proof.
  intros Hj Hk Hl. unfold unlinked. destruct (lfn_before_spec (Z.to_nat j) buf) as [Hn Hlfn].
  set (n := lfn_before (Z.to_nat j) buf) in *.
  rewrite entry_bytes_set by (rewrite ?length_mark_deleted; lia). rewrite entry_bytes_mark by lia.
  destruct (decide (k = j)) as [-> | Hne].
  - right. rewrite decide_False by lia. split; [done | by left].
  - destruct (decide (j - n <= k < j - n + Z.of_nat (Z.to_nat n))) as [Hr | Hr]; [right | by left].
    split; [done |]. right. split; [lia |]. rewrite <- is_lfn_entry by done. apply Hlfn. lia.
Qed.

Section unlink.
Context {D : Type} `{SectorDev D}.

(** The entries of the directory after the entry [i] is deleted. *)
Lemma unlink_entries (fs : fatfs D) (l cs : list Z) (i : Z) (k : nat) (e : list Z) :
  let f := fs_fat fs in
  let c := nth (Z.to_nat (i / entries_per_cluster f)) cs 0 in
  let l' := splice l (cluster_pos f c) (unlinked (cluster_bytes f l c) (i mod entries_per_cluster f)) in
  vol_ok fs l -> NoDup cs -> Forall (in_volume f l) cs -> 0 <= i < entries_per_cluster f * Z.of_nat (length cs) ->
  dir_entries f l cs !! k = Some e ->
  (dir_entries f l' cs !! k = Some e /\ k <> Z.to_nat i) \/
  (dir_entries f l' cs !! k = Some (gone e) /\ length e = 32%nat /\
   (k = Z.to_nat i \/ ((k < Z.to_nat i)%nat /\ is_lfn e 0 = true))).
Proof.
  cbv zeta. intros Hv Hnd Hin Hi E. destruct (epc_pos fs l Hv) as [Hep Hbe].
  pose proof (lookup_lt_Some _ _ _ E) as Hk. rewrite length_dir_entries in Hk.
  assert (Hk' : 0 <= Z.of_nat k < entries_per_cluster (fs_fat fs) * Z.of_nat (length cs)) by nia.
  set (f := fs_fat fs) in *. set (epc := entries_per_cluster f) in *.
  assert (Hat : forall x, 0 <= x < epc * Z.of_nat (length cs) -> cs !! Z.to_nat (x / epc) = Some (nth (Z.to_nat (x / epc)) cs 0)).
  { intros x Hx. assert (Hlt : (Z.to_nat (x / epc) < length cs)%nat).
    { pose proof (Z.div_pos x epc ltac:(lia) Hep). apply Nat2Z.inj_lt. rewrite Z2Nat.id by done. apply Z.div_lt_upper_bound; nia. }
    rewrite nth_lookup. by destruct (lookup_lt_is_Some_2 cs _ Hlt) as [y ->]. }
  pose proof (Hat i Hi) as Ec. pose proof (Hat _ Hk') as Ex. set (c := nth (Z.to_nat (i / epc)) cs 0) in *.
  set (x := nth (Z.to_nat (Z.of_nat k / epc)) cs 0) in *. rewrite Forall_forall in Hin.
  pose proof (Hin c ltac:(by apply (list_elem_of_lookup_2 _ (Z.to_nat (i / epc))))) as Hc.
  pose proof (Hin x ltac:(by apply (list_elem_of_lookup_2 _ (Z.to_nat (Z.of_nat k / epc))))) as Hx.
  pose proof (length_cluster_bytes fs l c Hv Hc) as Hcl. fold f in Hcl.
  pose proof (Z.mod_pos_bound i epc Hep) as Hj. pose proof (Z.mod_pos_bound (Z.of_nat k) epc Hep) as Hjk.
  pose proof (Z.div_mod i epc ltac:(lia)) as Hdi. pose proof (Z.div_mod (Z.of_nat k) epc ltac:(lia)) as Hdk.
  rewrite <- (Nat2Z.id k) in E |- *. rewrite dir_entries_lookup in E |- * by done. fold epc x in E |- *. injection E as <-.
  pose proof (cluster_bytes_write fs l c x (unlinked (cluster_bytes f l c) (i mod epc)) Hv Hc (proj1 Hx)) as Ew. fold f in Ew.
  rewrite Ew by (rewrite length_unlinked; done). destruct (decide (x = c)) as [Exc | Hne].
  - assert (Hq : Z.to_nat (Z.of_nat k / epc) = Z.to_nat (i / epc)) by (apply (NoDup_lookup cs _ _ c); congruence).
    pose proof (Z.div_pos i epc ltac:(lia) Hep). pose proof (Z.div_pos (Z.of_nat k) epc ltac:(lia) Hep).
    rewrite Exc. destruct (unlinked_entry (cluster_bytes f l c) (i mod epc) (Z.of_nat k mod epc)) as [[-> Hx1] | [-> Hx1]]; try lia.
    + left. split; [done |]. nia.
    + right. split; [done |]. split; [apply length_entry_bytes; lia |]. destruct Hx1 as [Hx1 | [Hx1 Hx2]]; [left; nia | right; split; [nia | done]].
  - left. split; [done |]. intros Hki. apply Hne. unfold x, c. f_equal. f_equal. f_equal. lia.
Qed.

Lemma unlink_lookup (fs : fatfs D) (l cs : list Z) (i : Z) (name : list Z) :
  let f := fs_fat fs in
  let c := nth (Z.to_nat (i / entries_per_cluster f)) cs 0 in
  let l' := splice l (cluster_pos f c) (unlinked (cluster_bytes f l c) (i mod entries_per_cluster f)) in
  let es := dir_entries f l cs in
  vol_ok fs l -> NoDup cs -> Forall (in_volume f l) cs -> find_entry es 0 name = ScanFound i ->
  (forall k e, es !! k = Some e -> visible e name -> k = Z.to_nat i) ->
  found (find_entry (dir_entries f l' cs) 0 name) = None /\
  (forall name', name' <> name -> find_entry (dir_entries f l' cs) 0 name' = find_entry es 0 name').
Proof.
  cbv zeta. intros Hv Hnd Hin Ef Huniq. destruct (epc_pos fs l Hv) as [Hep Hbe].
  pose proof (find_entry_range _ _ _ _ Ef) as Hi. rewrite length_dir_entries, Nat2Z.inj_mul, Z2Nat.id, Z.add_0_l in Hi by lia.
  pose proof (fun k e => unlink_entries fs l cs i k e Hv Hnd Hin Hi) as Hu.
  destruct (find_entry_found _ 0 i name ltac:(lia) Ef) as [Hbef (ei & Hei & Hvis)].
  set (l' := splice l _ _) in *.
  assert (Hlen : length (dir_entries (fs_fat fs) l' cs) = length (dir_entries (fs_fat fs) l cs)) by (by rewrite !length_dir_entries).
  split.
  - apply find_entry_none, Forall_lookup. intros k e' Ek.
    destruct (lookup_lt_is_Some_2 (dir_entries (fs_fat fs) l cs) k) as [e Ee]; [rewrite <- Hlen; by apply (lookup_lt_Some _ _ e') |].
    destruct (Hu k e Ee) as [[E1 E2] | (E1 & E2 & _)]; rewrite E1 in Ek; injection Ek as <-; intros Hv'.
    + by apply E2, (Huniq k e).
    + destruct Hv' as (_ & Hh & _). destruct (gone_hidden e ltac:(lia)) as [_ Hg]. congruence.
  - intros name' Hne. symmetry. apply find_entry_same, Forall2_lookup. intros k.
    destruct (dir_entries (fs_fat fs) l cs !! k) as [e|] eqn:Ee.
    + destruct (Hu k e Ee) as [[-> _] | (-> & E2 & E3)]; constructor; [by left | right].
      split; [| apply gone_skips; lia]. destruct E3 as [-> | [Hlt Hl]].
      * rewrite Z.sub_0_r, Ee in Hei. injection Hei as <-. destruct Hvis as (V1 & V2 & V3). split; [done | right; congruence].
      * split; [| left; unfold entry_hidden; by rewrite Hl, orb_true_r].
        apply (Hbef (Z.of_nat k) e); [lia |]. by rewrite Z.sub_0_r, Nat2Z.id.
    + apply lookup_ge_None in Ee. rewrite <- Hlen in Ee. apply lookup_ge_None in Ee. rewrite Ee. constructor.
Qed.

(** Every other name is found with the same inode. *)
Lemma unlink_located (fs : fatfs D) (l cs : list Z) (i : Z) (name name' : list Z) (dir : inode) :
  let f := fs_fat fs in
  let c := nth (Z.to_nat (i / entries_per_cluster f)) cs 0 in
  let l' := splice l (cluster_pos f c) (unlinked (cluster_bytes f l c) (i mod entries_per_cluster f)) in
  let es := dir_entries f l cs in
  vol_ok fs l -> NoDup cs -> Forall (in_volume f l) cs -> find_entry es 0 name = ScanFound i ->
  (forall k e, es !! k = Some e -> visible e name -> k = Z.to_nat i) -> name' <> name ->
  located f l' dir cs 0 (find_entry (dir_entries f l' cs) 0 name') = located f l dir cs 0 (find_entry es 0 name').
Proof.
  cbv zeta. intros Hv Hnd Hin Ef Huniq Hne. destruct (epc_pos fs l Hv) as [Hep Hbe].
  rewrite (proj2 (unlink_lookup fs l cs i name Hv Hnd Hin Ef Huniq)) by done.
  pose proof (find_entry_range _ _ _ _ Ef) as Hi. rewrite length_dir_entries, Nat2Z.inj_mul, Z2Nat.id, Z.add_0_l in Hi by lia.
  destruct (find_entry (dir_entries (fs_fat fs) l cs) 0 name') as [|k|] eqn:Ek; [done | | done]. cbn [located]. f_equal.
  pose proof (find_entry_range _ _ _ _ Ek) as Hk. rewrite length_dir_entries, Nat2Z.inj_mul, Z2Nat.id, Z.add_0_l in Hk by lia.
  destruct (find_entry_found _ 0 k name' ltac:(lia) Ek) as [_ (e & He & Hvis)]. rewrite Z.sub_0_r in He.
  rewrite (inode_at_eq (fs_fat fs) l dir cs k e) by done. apply inode_at_eq; [done | done |].
  destruct (unlink_entries fs l cs i _ e Hv Hnd Hin Hi He) as [[E _] | (_ & _ & [Hki | [_ Hl]])]; [exact E | |].
  - destruct (find_entry_found _ 0 i name ltac:(lia) Ef) as [_ (e' & He' & Hvis')]. rewrite Z.sub_0_r, <- Hki in He'.
    replace e' with e in Hvis' by congruence. destruct Hvis as (_ & _ & <-), Hvis' as (_ & _ & <-). done.
  - destruct Hvis as (_ & Hh & _). unfold entry_hidden in Hh. by rewrite Hl, orb_true_r in Hh.
Qed.
End unlink.

Section unlink_file.
Context {D : Type} `{SectorDev D}.
Variable stk : Z -> Z.

(** The clusters of a file with first cluster [c]. *)
Definition clusters_of (f : fat32) (c : Z) (ks : list Z) : Prop :=
  (c = 0 /\ ks = []) \/ (c <> 0 /\ hd 0 ks = c /\ chain (fat_cache f) ks /\ NoDup ks).

Lemma free_clusters_ok (f : fat32) (c : Z) (ks : list Z) :
  fat_ok f -> clusters_of f c ks ->
  exists f', (if c =? 0 then Ret f else fat32_free_cluster_chain f c) = Ret f' /\ fat_ok f' /\ geom f f' /\
    free_count f' = free_count f + Z.of_nat (length ks) /\
    (forall j, 0 <= j < fat_entries f -> get (fat_cache f') j = if decide (j ∈ ks) then FAT32_FREE else get (fat_cache f) j).
Proof.
  intros Hok [[-> ->] | (Hc & <- & Hch & Hnd)].
  - exists f. split; [done |]. split; [done |]. split; [apply geom_refl |]. split; [cbn; lia |].
    intros j _. by rewrite decide_False by set_solver.
  - replace (hd 0 ks =? 0) with false by lia.
    pose proof (chain_range _ _ Hch) as Hr. rewrite (fo_length f Hok) in Hr. pose proof (chain_length _ _ Hnd Hch) as Hlen.
    destruct (freed_facts f ks Hok Hnd Hr (chain_used _ _ Hch)) as (H1 & H2 & H3).
    exists (freed f ks). split_and!; try done; [| apply freed_geom].
    apply free_from_chain; [done | done | done |]. unfold walk_fuel. lia.
Qed.

(** C16: deleting a file: afterwards its name is not found, its clusters are free, and they
    only; every other name is found as before and no cluster outside the directory
    changes. *)
Theorem fat32_unlink_spec (fs : fatfs D) (l : list Z) (dir : inode) (cs : list Z) (name : list Z) (i : Z) (file : inode) (ks : list Z) :
  let f := fs_fat fs in
  let es := dir_entries f l cs in
  vol_ok fs l -> dir_ok fs l dir cs -> find_entry es 0 name = ScanFound i ->
  (forall k e, es !! k = Some e -> visible e name -> k = Z.to_nat i) ->
  file = inode_at f l dir cs 0 i -> clusters_of f (first_cluster (i_private file)) ks -> (forall c, c ∈ ks -> c ∉ cs) ->
  exists d f' l', fat32_unlink stk fs dir name = Ret (true, mk_fs d f') /\
    vol_ok (mk_fs d f') l' /\ dir_ok (mk_fs d f') l' dir cs /\ geom f f' /\
    free_count f' = free_count f + Z.of_nat (length ks) /\
    (forall j, 0 <= j < fat_entries f -> get (fat_cache f') j = if decide (j ∈ ks) then FAT32_FREE else get (fat_cache f) j) /\
    (exists d', fat32_lookup stk (mk_fs d f') dir name = Ret (None, mk_fs d' f')) /\
    (forall name', name' <> name -> exists r d1 d2, fat32_lookup stk fs dir name' = Ret (r, mk_fs d1 f) /\
       fat32_lookup stk (mk_fs d f') dir name' = Ret (r, mk_fs d2 f')) /\
    (forall c, 2 <= c -> c ∉ cs -> cluster_bytes f l' c = cluster_bytes f l c).
Proof.
  cbv zeta. intros Hv Hd Ef Huniq -> Hks Hdis. pose proof Hd as [Hch Hnd Hfirst Hin Hb]. destruct (epc_pos fs l Hv) as [Hep Hbe].
  pose proof (find_entry_range _ _ _ _ Ef) as Hi. rewrite length_dir_entries, Nat2Z.inj_mul, Z2Nat.id, Z.add_0_l in Hi by lia.
  pose proof (unlink_lookup fs l cs i name Hv Hnd Hin Ef Huniq) as [Hnone _].
  pose proof (fun name' => unlink_located fs l cs i name name' dir Hv Hnd Hin Ef Huniq) as Hother.
  pose proof Hv as [_ Hok _ _ _]. set (f := fs_fat fs) in *.
  destruct (free_clusters_ok f _ ks Hok Hks) as (f' & Efree & Hok' & Hg & Hcount & Hcache).
  assert (Hch' : chain (fat_cache f') cs).
  { apply (fat_chain_ext (fat_cache f)); [| | done].
    - pose proof (fo_length f Hok). pose proof (fo_length f' Hok'). pose proof (geom_entries _ _ Hg). lia.
    - pose proof (chain_range _ _ Hch) as Hr. rewrite (fo_length f Hok) in Hr. apply Forall_forall. intros c Hc.
      rewrite Forall_forall in Hr. specialize (Hr c Hc). rewrite Hcache by lia. rewrite decide_False; [done |].
      intros Hck. by apply (Hdis c Hck). }
  assert (Hk : (Z.to_nat (i / entries_per_cluster f) < length cs)%nat).
  { pose proof (Z.div_pos i (entries_per_cluster f) ltac:(lia) Hep). apply Nat2Z.inj_lt. rewrite Z2Nat.id by done.
    apply Z.div_lt_upper_bound; nia. }
  pose proof (Z.mod_pos_bound i (entries_per_cluster f) Hep) as Hj. set (j := i mod entries_per_cluster f) in *.
  set (c := nth (Z.to_nat (i / entries_per_cluster f)) cs 0) in *.
  assert (Hcin : c ∈ cs).
  { apply (list_elem_of_lookup_2 _ (Z.to_nat (i / entries_per_cluster f))). unfold c. rewrite nth_lookup.
    by destruct (lookup_lt_is_Some_2 cs _ Hk) as [y ->]. }
  assert (Hc : in_volume f l c) by (rewrite Forall_forall in Hin; by apply Hin).
  pose proof (length_cluster_bytes fs l c Hv Hc) as Hcl. fold f in Hcl.
  assert (Hul : Z.of_nat (length (unlinked (cluster_bytes f l c) j)) = bytes_per_cluster f) by (rewrite length_unlinked; done).
  unfold fat32_unlink.
  destruct (fat32_lookup_ok stk fs l dir cs name Hv Hd) as (d1 & -> & Hv1). cbn [obind]. fold f. rewrite Ef. cbn [located fs_fat].
  rewrite Efree. cbn [obind]. pose proof (geom_vol (mk_fs d1 f) l f' Hg Hok' Hv1) as Hv2. cbn [fs_dev] in Hv2.
  assert (Ep : i_private (inode_at f l dir cs 0 i) = mk_priv (first_cluster (i_private (inode_at f l dir cs 0 i))) c i
                 (first_cluster (i_private dir)) (32 * j)) by done.
  rewrite Ep. cbn [dir_cluster entry_offset upd_fat fs_dev].
  assert (Hc2 : in_volume f' l c) by (rewrite Hg; done).
  destruct (read_cluster_ok (mk_fs d1 f') l c (uninit stk (bytes_per_cluster f')) Hv2 Hc2) as (d2 & E2 & Hv3).
  { rewrite length_uninit. cbn [fs_fat]. rewrite Hg. cbn. fold f. lia. }
  unfold upd_fat. cbn [fs_dev fs_fat] in *. rewrite E2. cbn [obind].
  replace (32 * j / 32) with j by (rewrite Z.mul_comm, Z.div_mul; lia). rewrite (geom_bytes f f') by done.
  fold (unlinked (cluster_bytes f l c) j).
  destruct (write_cluster_ok (mk_fs d2 f') l c (unlinked (cluster_bytes f l c) j) Hv3 Hc2) as (d3 & E3 & Hv4).
  { cbn [fs_fat]. rewrite Hul, Hg. done. }
  cbn [fs_fat] in *. rewrite E3. cbn [obind].
  replace (cluster_pos f' c) with (cluster_pos f c) in Hv4 by (by rewrite Hg).
  set (l' := splice l (cluster_pos f c) (unlinked (cluster_bytes f l c) j)) in *.
  assert (Hd' : dir_ok (mk_fs d3 f') l' dir cs).
  { apply (geom_dir_ok fs); [done | done |]. destruct (dir_ok_write fs l l' dir cs (fs_dev fs) (write_length fs l c _ Hv Hc Hul) Hd).
    by split. }
  exists d3, f', l'. split_and!; try done.
  - destruct (fat32_lookup_ok stk (mk_fs d3 f') l' dir cs name Hv4 Hd') as (d' & E' & _). exists d'. rewrite E'. cbn [fs_fat].
    rewrite (geom_dir_entries f f') by done. do 2 f_equal.
    by destruct (find_entry (dir_entries f l' cs) 0 name).
  - intros name' Hne. destruct (fat32_lookup_ok stk fs l dir cs name' Hv Hd) as (d1' & E1' & _).
    destruct (fat32_lookup_ok stk (mk_fs d3 f') l' dir cs name' Hv4 Hd') as (d2' & E2' & _). cbn [fs_fat] in E2'.
    eexists _, d1', d2'. split; [exact E1' |]. rewrite E2', (geom_dir_entries f f'), (geom_located f f') by done.
    do 2 f_equal. exact (Hother name' Hne).
  - intros x Hx Hxn. pose proof (cluster_bytes_write fs l c x _ Hv Hc Hx Hul) as Ew. fold f in Ew. fold l' in Ew.
    rewrite Ew, decide_False; [done |]. by intros ->.
Qed.
End unlink_file.
