(* ===== verification/Fat32Append.v ===== *)
(** Writing that needs new clusters in the FAT32 driver (Fat32.v): what the driver does to
    the directory entry and to the data of a file that had no clusters. *)

From S2P Require Import Prelude Bytes Buffer SectorDev Fat32 Fat32Chain Fat32Data Fat32Dir Fat32Unlink.

(** * Writing into a part of a buffer *)

Lemma splice_in_part (l bs : list Z) (o w k : Z) :
  0 <= o -> 0 <= k -> k + Z.of_nat (length bs) <= w -> o + w <= Z.of_nat (length l) ->
  splice l (o + k) bs = splice l o (splice (slice l o w) k bs).
Proof.
  intros H1 H2 H3 H4. set (p := take (Z.to_nat o) l). set (m := slice l o w). set (s := drop (Z.to_nat (o + w)) l).
  assert (Hl : l = p ++ m ++ s).
  { unfold p, m, s, slice. replace (Z.to_nat (o + w)) with (Z.to_nat o + Z.to_nat w)%nat by lia.
    by rewrite <- drop_drop, take_drop, take_drop. }
  assert (Hp : Z.of_nat (length p) = o) by (unfold p; rewrite length_take; lia).
  assert (Hm : Z.of_nat (length m) = w) by (apply length_slice; lia).
  clearbody p m s. subst l.
  assert (Hms : Z.of_nat (length (splice m k bs)) = w) by (rewrite length_splice; lia).
  rewrite (splice_app_r p (m ++ s) bs), (splice_app_r p (m ++ s) (splice m k bs)) by lia. f_equal.
  replace (o - Z.of_nat (length p)) with 0 by lia. replace (o + k - Z.of_nat (length p)) with k by lia.
  rewrite (splice_app_l m s bs), (splice_app_l m s (splice m k bs)) by lia. f_equal.
  rewrite splice_all; [done | lia].
Qed.

Lemma set_field_in_part (l : list Z) (o w k : Z) (n : nat) (v : Z) :
  0 <= o -> 0 <= k -> k + Z.of_nat n <= w -> o + w <= Z.of_nat (length l) ->
  set_field l (o + k) n v = splice l o (set_field (slice l o w) k n v).
Proof. intros. unfold set_field. apply splice_in_part; rewrite ?length_le_bytes; done. Qed.

(** * The directory entry *)

(** An entry with a new size and time. *)
Definition grown_entry (e : list Z) (size : Z) (now : rtc) : list Z :=
  set_field (set_field (set_field e 28 4 size) 24 2 (FAT_DATE now)) 22 2 (FAT_TIME now).

Lemma length_grown_entry (e : list Z) (size : Z) (now : rtc) : length e = 32%nat -> length (grown_entry e size now) = 32%nat.
Proof. intros Hl. unfold grown_entry. in_sector. Qed.

Lemma grown_entry_splice (buf : list Z) (o size : Z) (now : rtc) :
  0 <= o -> o + 32 <= Z.of_nat (length buf) ->
  set_field (set_field (set_field buf (o + 28) 4 size) (o + 24) 2 (FAT_DATE now)) (o + 22) 2 (FAT_TIME now) =
  splice buf o (grown_entry (slice buf o 32) size now).
Proof.
  intros Ho Hl. unfold grown_entry.
  assert (Hs : length (slice buf o 32) = 32%nat) by (apply Nat2Z.inj; rewrite length_slice; lia).
  assert (Hin : forall e, length e = 32%nat -> forall k n v, 0 <= k -> k + Z.of_nat n <= 32 ->
            set_field (splice buf o e) (o + k) n v = splice buf o (set_field e k n v)).
  { intros e He k n v Hk Hn. rewrite (set_field_in_part _ o 32) by (rewrite ?splice_length_nat; lia).
    pose proof (slice_splice_eq buf e o Ho ltac:(lia)) as Es. rewrite He in Es. change (Z.of_nat 32) with 32 in Es. rewrite Es.
    apply splice_twice; [done | | lia]. rewrite He. symmetry. in_sector. }
  rewrite (set_field_in_part buf o 32 28) by lia. rewrite !Hin by (in_sector || lia). done.
Qed.

(** The fields that stay, as long as the name does not change. *)
Lemma get_field (l : list Z) (i : Z) : 0 <= i -> get l i = field l i 1.
Proof.
  intros Hi. unfold get, field. rewrite nth_lookup. destruct (l !! Z.to_nat i) as [x|] eqn:E.
  - rewrite (drop_S _ x) by done. change (x = x + 256 * 0). lia.
  - apply lookup_ge_None in E. by rewrite drop_ge.
Qed.

Lemma slice_set_field (l : list Z) (a b n : Z) (m : nat) (v : Z) :
  0 <= a -> 0 <= b -> 0 <= n -> a + Z.of_nat m <= Z.of_nat (length l) -> b + n <= a -> slice (set_field l a m v) b n = slice l b n.
Proof. intros. unfold set_field. apply slice_splice_ne; rewrite ?length_le_bytes; lia. Qed.

Lemma grown_entry_fields (e : list Z) (size : Z) (now : rtc) :
  length e = 32%nat -> fits 32 size ->
  let e' := grown_entry e size now in
  de_first e' 0 = de_first e 0 /\ de_attr e' 0 = de_attr e 0 /\ de_name e' 0 = de_name e 0 /\
  de_cluster e' 0 = de_cluster e 0 /\ de_size e' 0 = size.
Proof.
  intros Hl Hs. cbv zeta. unfold grown_entry, de_first, de_attr, de_name, de_cluster, de_size.
  rewrite !get_field by lia. split_and!.
  - by fields.
  - by fields.
  - by rewrite !slice_set_field by in_sector.
  - by fields.
  - by fields.
Qed.

Lemma grown_entry_same (e : list Z) (size : Z) (now : rtc) :
  length e = 32%nat -> fits 32 size ->
  entry_hidden (grown_entry e size now) = entry_hidden e /\ entry_name (grown_entry e size now) = entry_name e /\
  de_first (grown_entry e size now) 0 = de_first e 0.
Proof.
  intros Hl Hs. destruct (grown_entry_fields e size now Hl Hs) as (F1 & F2 & F3 & _).
  unfold entry_hidden, deleted, is_lfn, entry_name. by rewrite F1, F2, F3.
Qed.

Section fresh.
Context {D : Type} `{SectorDev D}.
Variable stk : Z -> Z.

(** The end of a write: the entry of the file gets the size and the time, nothing else of
    the volume changes. *)
Lemma grow_entry_ok (fs : fatfs D) (l : list Z) (ino : inode) (size : Z) (now : rtc) :
  let f := fs_fat fs in
  let c := dir_cluster (i_private ino) in
  let o := entry_offset (i_private ino) in
  let buf := cluster_bytes f l c in
  vol_ok fs l -> in_volume f l c -> 0 <= o -> o + 32 <= bytes_per_cluster f ->
  exists d, grow_entry stk fs ino size now = Ret (with_size ino size, mk_fs d f) /\
    vol_ok (mk_fs d f) (splice l (cluster_pos f c) (splice buf o (grown_entry (slice buf o 32) size now))).
Proof.
  cbv zeta. intros Hv Hc Ho Hl. pose proof Hv as [_ _ Hspc Hbp _]. pose proof (length_cluster_bytes fs l _ Hv Hc) as Hcl.
  unfold grow_entry. cbn [with_size i_private].
  destruct (read_cluster_ok fs l (dir_cluster (i_private ino)) (uninit stk (bytes_per_cluster (fs_fat fs))) Hv Hc)
    as (d & -> & Hv'); [rewrite length_uninit; lia |].
  cbn [obind]. rewrite grown_entry_splice by lia.
  destruct (write_cluster_ok (mk_fs d (fs_fat fs)) l (dir_cluster (i_private ino))
    (splice (cluster_bytes (fs_fat fs) l (dir_cluster (i_private ino))) (entry_offset (i_private ino))
       (grown_entry (slice (cluster_bytes (fs_fat fs) l (dir_cluster (i_private ino))) (entry_offset (i_private ino)) 32) size now))
    Hv' Hc) as (d' & E & Hv'').
  { cbn [fs_fat]. rewrite splice_length_nat; [done | done |].
    rewrite length_grown_entry; [lia |]. apply Nat2Z.inj. rewrite length_slice; lia. }
  cbn [fs_fat] in *. rewrite E. cbn [obind]. by exists d'.
Qed.

(** The directory entry of [ino] is in a cluster that is in use, and some cluster is free. *)
Record fresh_ok (fs : fatfs D) (l : list Z) (ino : inode) : Prop := mk_fresh_ok {
  fr_first : first_cluster (i_private ino) = 0;
  fr_size : i_size ino = 0;
  fr_dir : 2 <= dir_cluster (i_private ino) < fat_entries (fs_fat fs);
  fr_dir_used : get (fat_cache (fs_fat fs)) (dir_cluster (i_private ino)) <> FAT32_FREE;
  fr_dir_vol : in_volume (fs_fat fs) l (dir_cluster (i_private ino));
  fr_offset : 0 <= entry_offset (i_private ino) /\ entry_offset (i_private ino) + 32 <= bytes_per_cluster (fs_fat fs);
  fr_free : exists c, 2 <= c < fat_entries (fs_fat fs) /\ get (fat_cache (fs_fat fs)) c = FAT32_FREE;
  fr_free_vol : forall c, 2 <= c < fat_entries (fs_fat fs) -> get (fat_cache (fs_fat fs)) c = FAT32_FREE -> in_volume (fs_fat fs) l c
}.

Lemma alloc_cluster_some (f : fat32) :
  fat_ok f -> (exists c, 2 <= c < fat_entries f /\ get (fat_cache f) c = FAT32_FREE) ->
  exists c, 2 <= c < fat_entries f /\ get (fat_cache f) c = FAT32_FREE /\ fat32_alloc_cluster f = Ret (c, taken f c).
Proof.
  intros Hok (c & Hc & Hf). destruct (alloc_cluster_ok f Hok) as [(i & Hi & E1 & _ & E2) | [E _]].
  - eexists. split; [| by split]. apply scan_pos_range; [| done]. apply scan_start_range. lia.
  - by destruct (E c Hc).
Qed.

(** The clusters that a file without clusters is written to. *)
Lemma gather_one (fs : fatfs D) (ino : inode) (c : Z) :
  first_cluster (i_private ino) = 0 -> fat32_alloc_cluster (fs_fat fs) = Ret (c, taken (fs_fat fs) c) -> 2 <= c ->
  gather 1 fs ino 0 [] = Ret (Some [c], with_first ino c, mk_fs (fs_dev fs) (taken (fs_fat fs) c)).
Proof.
  intros Hf E Hc. cbn [gather live]. change (live 0) with false. cbn [negb]. rewrite E. cbn [obind].
  replace (c =? 0) with false by lia. cbn [last obind]. by rewrite Hf.
Qed.

Lemma taken_next (f : fat32) (c : Z) :
  fat_ok f -> 2 <= c < fat_entries f -> fat32_next_cluster (taken f c) c = Ret FAT32_EOC.
Proof.
  intros [Hl _ _ _] Hc. unfold fat32_next_cluster. cbn [taken with_fat fat_entries]. replace (_ || _) with false by lia.
  rewrite fat_get_in by (cbn [taken with_fat fat_cache fat_entries]; rewrite ?length_set; lia). cbn [taken with_fat fat_cache obind].
  by rewrite get_set_eq by lia.
Qed.

(** The second round finds the cluster that the first one has just taken. *)
Lemma gather_two (fs : fatfs D) (ino : inode) (c : Z) :
  fat_ok (fs_fat fs) -> first_cluster (i_private ino) = 0 -> fat32_alloc_cluster (fs_fat fs) = Ret (c, taken (fs_fat fs) c) ->
  2 <= c < fat_entries (fs_fat fs) ->
  gather 2 fs ino 0 [] = Ret (Some [c; c], with_first ino c, mk_fs (fs_dev fs) (taken (fs_fat fs) c)).
Proof.
  intros Hok Hf E Hc. cbn [gather live]. change (live 0) with false. cbn [negb]. rewrite E. cbn [obind].
  replace (c =? 0) with false by lia. cbn [last obind]. rewrite Hf. cbn [Z.eqb].
  rewrite (live_in (fs_fat fs)) by done. cbn [negb upd_fat fs_fat]. by rewrite taken_next.
Qed.

Lemma taken_vol (fs : fatfs D) (l : list Z) (c : Z) :
  vol_ok fs l -> 2 <= c < fat_entries (fs_fat fs) -> get (fat_cache (fs_fat fs)) c = FAT32_FREE ->
  vol_ok (mk_fs (fs_dev fs) (taken (fs_fat fs) c)) l.
Proof. intros [H1 H2 H3 H4 H5] Hc Hf. split; try done. by apply taken_ok. Qed.

(** What a cluster holds after one round, or after two rounds on it. *)
Definition overlaid (bpc : Z) (old data : list Z) : list Z :=
  if Z.of_nat (length data) <=? bpc then splice old 0 data
  else splice (slice data 0 bpc) 0 (drop (Z.to_nat bpc) data).

Lemma write_fresh_loop (fs : fatfs D) (l : list Z) (c : Z) (data : list Z) :
  let f := fs_fat fs in
  let bpc := bytes_per_cluster f in
  vol_ok fs l -> in_volume f l c -> 0 < Z.of_nat (length data) <= 2 * bpc ->
  exists d, write_loop stk (if Z.of_nat (length data) <=? bpc then [c] else [c; c]) 0 fs data =
      Ret (Z.of_nat (length data), mk_fs d f) /\
    exists l', vol_ok (mk_fs d f) l' /\ length l' = length l /\ cluster_bytes f l' c = overlaid bpc (cluster_bytes f l c) data /\
      (forall c', 2 <= c' -> c' <> c -> cluster_bytes f l' c' = cluster_bytes f l c').
Proof.
  cbv zeta. intros Hv Hc Hs. pose proof Hv as [_ _ Hspc Hbp _]. unfold overlaid.
  assert (Hone : forall fs1 l1 data1, fs_fat fs1 = fs_fat fs -> vol_ok fs1 l1 -> in_volume (fs_fat fs) l1 c ->
    0 <= Z.of_nat (length data1) <= bytes_per_cluster (fs_fat fs) ->
    exists d, write_loop stk [c] 0 fs1 data1 = Ret (Z.of_nat (length data1), mk_fs d (fs_fat fs)) /\
    exists l', vol_ok (mk_fs d (fs_fat fs)) l' /\ length l' = length l1 /\
      cluster_bytes (fs_fat fs) l' c = splice (cluster_bytes (fs_fat fs) l1 c) 0 data1 /\
      (forall c', 2 <= c' -> c' <> c -> cluster_bytes (fs_fat fs) l' c' = cluster_bytes (fs_fat fs) l1 c')).
  { intros fs1 l1 data1 Ef Hv1 Hc1 Hl1. rewrite <- Ef in *.
    destruct (write_loop_ok stk [c] fs1 l1 0 data1 Hv1 (NoDup_singleton c)) as (d & l' & E & Hv' & Hl' & Hb & Ho);
      [by apply Forall_singleton | lia | cbn; lia |].
    exists d. split; [done |]. exists l'. split_and!; try done.
    - unfold file_bytes in Hb. cbn in Hb. by rewrite !app_nil_r in Hb.
    - intros c' Hc' Hne. apply Ho; [done |]. by rewrite list_elem_of_singleton. }
  destruct (Z.leb_spec (Z.of_nat (length data)) (bytes_per_cluster (fs_fat fs))) as [Hle | Hgt]; [by apply Hone; [| | | lia] |].
  remember [c] as ks eqn:Hks. cbn [write_loop]. rewrite Z.sub_0_r, (wrap_small 32) by (split; lia).
  replace (_ <? _) with false by lia.
  pose proof (length_slice data 0 (bytes_per_cluster (fs_fat fs)) ltac:(lia) ltac:(lia) ltac:(lia)) as Hsl.
  pose proof (length_cluster_bytes fs l c Hv Hc) as Hcl.
  destruct (write_chunk_ok stk fs l c 0 (bytes_per_cluster (fs_fat fs)) (slice data 0 (bytes_per_cluster (fs_fat fs))) Hv Hc
    ltac:(lia) ltac:(lia) ltac:(lia)) as (d & -> & Hv1). cbn [obind].
  rewrite (splice_all (cluster_bytes _ _ _)) in Hv1 by lia.
  set (l1 := splice l (cluster_pos (fs_fat fs) c) (slice data 0 (bytes_per_cluster (fs_fat fs)))) in *.
  pose proof (write_length fs l c _ Hv Hc Hsl) as Hl1. fold l1 in Hl1.
  destruct (Hone (mk_fs d (fs_fat fs)) l1 (drop (Z.to_nat (bytes_per_cluster (fs_fat fs))) data)) as (d' & E & l' & Hv' & Hl' & Hb & Ho);
    [done | done | by apply (in_volume_write _ l) | rewrite length_drop; lia |].
  exists d'. rewrite E. cbn [obind]. split; [do 2 f_equal; rewrite length_drop; lia |].
  exists l'. split_and!; [done | congruence | |].
  - rewrite Hb. f_equal. unfold l1. rewrite (cluster_bytes_write fs) by (done || apply Hc). by rewrite decide_True.
  - intros c' Hc' Hne. rewrite Ho by done. unfold l1. rewrite (cluster_bytes_write fs) by done. by rewrite decide_False.
Qed.

(** A write at the start of a file without clusters, up to the update of its entry. *)
Lemma write_fresh_ok (fs : fatfs D) (l : list Z) (ino : inode) (data : list Z) (now : rtc) :
  let f := fs_fat fs in
  let bpc := bytes_per_cluster f in
  let size := Z.of_nat (length data) in
  vol_ok fs l -> fresh_ok fs l ino -> 0 < size <= 2 * bpc ->
  exists c d l', 2 <= c < fat_entries f /\ get (fat_cache f) c = FAT32_FREE /\
    fat32_write stk fs ino 0 data now =
      (do '(ino, fs) <- grow_entry stk (mk_fs d (taken f c)) (with_first ino c) size now; Ret (Some size, ino, fs))%out /\
    vol_ok (mk_fs d (taken f c)) l' /\ length l' = length l /\ cluster_bytes f l' c = overlaid bpc (cluster_bytes f l c) data /\
    (forall c', 2 <= c' -> c' <> c -> cluster_bytes f l' c' = cluster_bytes f l c').
Proof.
  cbv zeta. intros Hv [H1 H2 H3 H4 H5 H6 H7 H8] Hs. pose proof Hv as [_ Hok Hspc Hbp _].
  destruct (alloc_cluster_some (fs_fat fs) Hok H7) as (c & Hc & Hfree & Ha).
  pose proof (taken_vol fs l c Hv Hc Hfree) as Hvt. specialize (H8 c Hc Hfree).
  destruct (write_fresh_loop (mk_fs (fs_dev fs) (taken (fs_fat fs) c)) l c data Hvt H8 Hs) as (d & E & l' & Hv' & Hl' & Hb & Ho).
  exists c, d, l'. split; [done |]. split_and!; try done.
  unfold fat32_write. cbv zeta. replace (Z.of_nat (length data) =? 0) with false by lia. rewrite (wrap_small 64 (0 + _ - 1)) by (split; lia). rewrite Z.add_0_l.
  rewrite Z.div_0_l, Z.mod_0_l by lia. cbn [fs_fat taken with_fat bytes_per_cluster] in E.
  set (bpc := bytes_per_cluster (fs_fat fs)) in *. set (size := Z.of_nat (length data)) in *.
  change (u32 0) with 0. rewrite Z.sub_0_r, H1. change (Z.to_nat 0) with O. cbn [write_skip obind].
  assert (Hg : gather (Z.to_nat (u32 (u32 ((size - 1) / bpc) + 1))) fs ino 0 [] =
    Ret (Some (if size <=? bpc then [c] else [c; c]), with_first ino c, mk_fs (fs_dev fs) (taken (fs_fat fs) c))).
  { destruct (Z.leb_spec size bpc).
    - rewrite Z.div_small by lia. by apply gather_one; [| | lia].
    - replace ((size - 1) / bpc) with 1 by (apply (Z.div_unique _ _ 1 (size - 1 - bpc)); lia).
      by apply gather_two. }
  replace (_ =? 0) with false.
  2: { destruct (Z.leb_spec size bpc) as [|Hgt]; [by rewrite Z.div_small by lia |].
       by replace ((size - 1) / bpc) with 1 by (apply (Z.div_unique _ _ 1 (size - 1 - bpc)); lia). }
  rewrite Hg. cbn [obind]. rewrite E. cbn [obind with_first i_size]. rewrite (wrap_small 64) by (split; lia). rewrite H2.
  by replace (0 <? _) with true by lia.
Qed.

(** Size and cluster in the entry after the update. *)
Lemma grown_entry_on_disk (buf : list Z) (o size : Z) (now : rtc) :
  0 <= o -> o mod 32 = 0 -> o + 32 <= Z.of_nat (length buf) -> fits 32 size ->
  let buf' := splice buf o (grown_entry (slice buf o 32) size now) in
  de_cluster buf' o = de_cluster buf o /\ de_size buf' o = size.
Proof.
  cbv zeta. intros Ho Hm Hl Hs. pose proof (Z.div_mod o 32 ltac:(lia)) as Eo. rewrite Hm, Z.add_0_r in Eo.
  assert (Hls : length (slice buf o 32) = 32%nat) by (apply Nat2Z.inj; rewrite length_slice; lia).
  destruct (grown_entry_fields _ size now Hls Hs) as (_ & _ & _ & F4 & F5).
  pose proof (length_grown_entry _ size now Hls) as Hg. set (e := grown_entry _ _ _) in *.
  pose proof (slice_splice_eq buf e o Ho ltac:(lia)) as Es. rewrite Hg in Es. change (Z.of_nat 32) with 32 in Es.
  rewrite Eo, !de_cluster_entry, de_size_entry by (apply Z.div_pos; lia). unfold entry_bytes. rewrite <- Eo, Es. done.
Qed.

(** The whole write: data, table and directory entry. *)
Lemma write_fresh_done (fs : fatfs D) (l : list Z) (ino : inode) (data : list Z) (now : rtc) :
  let f := fs_fat fs in
  let bpc := bytes_per_cluster f in
  let size := Z.of_nat (length data) in
  let p := i_private ino in
  vol_ok fs l -> fresh_ok fs l ino -> entry_offset p mod 32 = 0 -> 0 < size <= 2 * bpc ->
  exists c d l', 2 <= c < fat_entries f /\ get (fat_cache f) c = FAT32_FREE /\
    fat32_write stk fs ino 0 data now = Ret (Some size, with_size (with_first ino c) size, mk_fs d (taken f c)) /\
    vol_ok (mk_fs d (taken f c)) l' /\ length l' = length l /\
    cluster_bytes f l' c = overlaid bpc (cluster_bytes f l c) data /\
    de_cluster (cluster_bytes f l' (dir_cluster p)) (entry_offset p) = de_cluster (cluster_bytes f l (dir_cluster p)) (entry_offset p) /\
    de_size (cluster_bytes f l' (dir_cluster p)) (entry_offset p) = size.
Proof.
  cbv zeta. intros Hv Hf Hm Hs. pose proof Hv as [_ _ Hspc Hbp _].
  destruct (write_fresh_ok fs l ino data now Hv Hf Hs) as (c & d & l1 & Hc & Hfree & -> & Hv1 & Hl1 & Hb & Ho).
  destruct Hf as [_ _ H3 H4 H5 [H6 H6'] _ _]. assert (Hne : dir_cluster (i_private ino) <> c) by congruence.
  pose proof (in_volume_write _ l l1 _ Hl1 H5) as H5'.
  destruct (grow_entry_ok (mk_fs d (taken (fs_fat fs) c)) l1 (with_first ino c) (Z.of_nat (length data)) now Hv1 H5' H6 H6')
    as (d' & -> & Hv2).
  cbn [obind fs_fat] in *. change (cluster_bytes (taken (fs_fat fs) c)) with (cluster_bytes (fs_fat fs)) in Hv2.
  change (cluster_pos (taken (fs_fat fs) c)) with (cluster_pos (fs_fat fs)) in Hv2.
  cbn [with_first i_private dir_cluster entry_offset] in *.
  pose proof (length_cluster_bytes (mk_fs d (taken (fs_fat fs) c)) l1 _ Hv1 H5') as Hcl.
  change (cluster_bytes (fs_fat (mk_fs d (taken (fs_fat fs) c)))) with (cluster_bytes (fs_fat fs)) in Hcl.
  cbn [fs_fat taken with_fat bytes_per_cluster] in Hcl.
  set (dc := dir_cluster (i_private ino)) in *. set (o := entry_offset (i_private ino)) in *.
  set (buf := cluster_bytes (fs_fat fs) l1 dc) in *.
  destruct (grown_entry_on_disk buf o (Z.of_nat (length data)) now H6 Hm ltac:(lia) ltac:(split; lia)) as [G1 G2].
  set (e := grown_entry _ _ _) in *.
  assert (Hle : length e = 32%nat) by (apply length_grown_entry, Nat2Z.inj; rewrite length_slice; lia).
  assert (Hbl : Z.of_nat (length (splice buf o e)) = bytes_per_cluster (fs_fat fs)) by (rewrite splice_length_nat; lia).
  pose proof (write_length (mk_fs d (taken (fs_fat fs) c)) l1 dc _ Hv1 H5' Hbl) as Hl2.
  change (cluster_pos (fs_fat (mk_fs d (taken (fs_fat fs) c)))) with (cluster_pos (fs_fat fs)) in Hl2.
  assert (Hw : forall x, 2 <= x -> cluster_bytes (fs_fat fs) (splice l1 (cluster_pos (fs_fat fs) dc) (splice buf o e)) x =
            if decide (x = dc) then splice buf o e else cluster_bytes (fs_fat fs) l1 x).
  { intros x Hx. exact (cluster_bytes_write (mk_fs d (taken (fs_fat fs) c)) l1 dc x _ Hv1 H5' Hx Hbl). }
  exists c, d', (splice l1 (cluster_pos (fs_fat fs) dc) (splice buf o e)). split; [done |].
  split; [done |]. split; [done |]. split; [done |]. split; [congruence |].
  rewrite !Hw, decide_False, decide_True by (done || lia). split; [done |]. rewrite G1, G2.
  split; [| done]. unfold buf. rewrite Ho by (done || lia). done.
Qed.

(** The first write of at most a cluster to an empty file: it takes a free cluster,
    which becomes the chain of the file, and a read through the inode returns the data;
    but the directory entry gets the size only and keeps its old cluster. *)
Theorem fat32_first_write_spec (fs : fatfs D) (l : list Z) (ino : inode) (data : list Z) (now : rtc) :
  let f := fs_fat fs in
  let size := Z.of_nat (length data) in
  let p := i_private ino in
  vol_ok fs l -> fresh_ok fs l ino -> entry_offset p mod 32 = 0 -> 0 < size <= bytes_per_cluster f ->
  exists c d l', let ino' := with_size (with_first ino c) size in
    fat32_write stk fs ino 0 data now = Ret (Some size, ino', mk_fs d (taken f c)) /\ get (fat_cache f) c = FAT32_FREE /\
    vol_ok (mk_fs d (taken f c)) l' /\ file_ok (mk_fs d (taken f c)) l' ino' [c] /\
    (exists d', fat32_read stk (mk_fs d (taken f c)) ino' 0 size = Ret (Some data, mk_fs d' (taken f c))) /\
    de_size (cluster_bytes f l' (dir_cluster p)) (entry_offset p) = size /\
    de_cluster (cluster_bytes f l' (dir_cluster p)) (entry_offset p) = de_cluster (cluster_bytes f l (dir_cluster p)) (entry_offset p).
Proof.
  cbv zeta. intros Hv Hf Hm Hs. pose proof Hv as [_ Hok Hspc Hbp _].
  destruct (write_fresh_done fs l ino data now Hv Hf Hm ltac:(lia)) as (c & d & l' & Hc & Hfree & E & Hv' & Hl' & Hb & G1 & G2).
  exists c, d, l'. pose proof (fr_free_vol _ _ _ Hf c Hc Hfree) as Hcv. pose proof Hok as [Hlen _ _ _].
  assert (Hfi : file_ok (mk_fs d (taken (fs_fat fs) c)) l' (with_size (with_first ino c) (Z.of_nat (length data))) [c]).
  { split; cbn; try done; try lia; [| apply NoDup_singleton | apply Forall_singleton; exact (in_volume_write _ l l' c Hl' Hcv)].
    apply chain_last; [rewrite length_set; lia |]. by rewrite get_set_eq by lia. }
  split_and!; try done.
  destruct (fat32_read_ok stk _ l' _ [c] 0 (Z.of_nat (length data)) Hv' Hfi) as (d' & E' & _); [cbn; lia | lia |].
  exists d'. rewrite E'. do 3 f_equal. unfold file_bytes. cbn [fmap list_fmap concat fs_fat with_size i_size]. rewrite app_nil_r.
  change (cluster_bytes (taken (fs_fat fs) c)) with (cluster_bytes (fs_fat fs)). rewrite Hb. unfold overlaid.
  replace (_ <=? _) with true by lia. rewrite Z.sub_0_r, Z.min_l by lia.
  apply slice_splice_eq; [done |]. rewrite (length_cluster_bytes fs) by done. lia.
Qed.

(** A first write of more than one and at most two clusters reports all bytes written,
    but both rounds go to the same cluster: the chain has one cluster, and it holds the
    second part of the data over the start of the first. *)
Theorem fat32_first_write_overlap (fs : fatfs D) (l : list Z) (ino : inode) (data : list Z) (now : rtc) :
  let f := fs_fat fs in
  let bpc := bytes_per_cluster f in
  let size := Z.of_nat (length data) in
  vol_ok fs l -> fresh_ok fs l ino -> entry_offset (i_private ino) mod 32 = 0 -> bpc < size <= 2 * bpc ->
  exists c d l', fat32_write stk fs ino 0 data now = Ret (Some size, with_size (with_first ino c) size, mk_fs d (taken f c)) /\
    chain (fat_cache (taken f c)) [c] /\ sd_holds d l' /\
    cluster_bytes f l' c = splice (slice data 0 bpc) 0 (drop (Z.to_nat bpc) data) /\
    slice (cluster_bytes f l' c) 0 (size - bpc) = drop (Z.to_nat bpc) data.
Proof.
  cbv zeta. intros Hv Hf Hm Hs. pose proof Hv as [_ Hok Hspc Hbp _].
  destruct (write_fresh_done fs l ino data now Hv Hf Hm ltac:(lia)) as (c & d & l' & Hc & Hfree & E & Hv' & Hl' & Hb & _).
  exists c, d, l'. pose proof Hok as [Hlen _ _ _]. unfold overlaid in Hb. replace (_ <=? _) with false in Hb by lia.
  split; [done |]. split.
  { apply chain_last; cbn [taken with_fat fat_cache]; [rewrite length_set; lia |]. by rewrite get_set_eq by lia. }
  split; [apply Hv' |]. split; [done |]. rewrite Hb.
  pose proof (length_slice data 0 (bytes_per_cluster (fs_fat fs)) ltac:(lia) ltac:(lia) ltac:(lia)) as Hsl.
  pose proof (slice_splice_eq (slice data 0 (bytes_per_cluster (fs_fat fs))) (drop (Z.to_nat (bytes_per_cluster (fs_fat fs))) data) 0 ltac:(lia)) as Es.
  rewrite length_drop in Es. replace (Z.of_nat (length data) - bytes_per_cluster (fs_fat fs)) with (Z.of_nat (length data - Z.to_nat (bytes_per_cluster (fs_fat fs)))) by lia.
  apply Es. lia.
Qed.
End fresh.
