(* ===== verification/Fat32Mount.v ===== *)
(** Formatting and mounting in the FAT32 driver (Fat32.v): the volume that [fat32_mount]
    finds on a disk that [fat32_format] has written. *)

From S2P Require Import Prelude Bytes Buffer SectorDev Fat32 Fat32Chain Fat32Data.

(** * The parameters *)

Lemma spc_for_range (total : Z) : 0 < spc_for total <= 16.
Proof. unfold spc_for. repeat destruct (_ <? _); lia. Qed.

Lemma fat_size_range (total : Z) :
  0 < total < 2 ^ 32 -> let n := (total + spc_for total - 1) / spc_for total in
  fat_size_for total 512 = (n * 4 + 511) / 512 /\ 0 < fat_size_for total 512 < 2 ^ 22.
Proof.
  cbv zeta. intros Ht. unfold fat_size_for. pose proof (spc_for_range total) as Hs.
  set (n := (total + spc_for total - 1) / spc_for total).
  assert (Hn : 0 < n <= 2 ^ 28).
  { unfold n. split; [apply Z.div_str_pos; lia |]. apply Z.lt_succ_r, Z.div_lt_upper_bound; [lia |].
    unfold spc_for in *. destruct (Z.ltb_spec total 0x100000); [lia |]. destruct (Z.ltb_spec total 0x400000); [lia |].
    destruct (Z.ltb_spec total 0x1000000); lia. }
  rewrite (wrap_small 64) by (split; lia). fold n. rewrite (wrap_small 32 n) by (split; lia).
  rewrite wrap_small by (split; lia). replace (n * 4 + 512 - 1) with (n * 4 + 511) by lia.
  split; [done |]. split; [apply Z.div_str_pos; lia | apply Z.div_lt_upper_bound; lia].
Qed.

Lemma length_new_table (fsz : Z) : 0 < fsz -> Z.of_nat (length (new_table fsz)) = fsz * 128.
Proof. intros Hf. unfold new_table. rewrite length_app, length_replicate. cbn [length]. lia. Qed.

Lemma new_table_fits (fsz : Z) : Forall (fits 32) (new_table fsz).
Proof. unfold new_table. repeat constructor; try lia. apply Forall_replicate. split; lia. Qed.

Lemma length_fsinfo (free next : Z) : length (fsinfo_bytes free next) = 512%nat.
Proof. unfold fsinfo_bytes. by rewrite !length_app, !length_le_bytes, !length_replicate. Qed.

Lemma length_dot_entries (size self parent date time : Z) :
  64 <= size -> Z.of_nat (length (dot_entries size self parent date time)) = size.
Proof.
  intros Hs. unfold dot_entries, dot_entry. rewrite !length_app, !length_le_bytes, length_replicate.
  unfold padded. rewrite !length_take, !length_app, !length_replicate. cbn [length]. lia.
Qed.

Lemma fsinfo_fields (free next : Z) :
  fits 32 free -> fits 32 next ->
  field (fsinfo_bytes free next) 488 4 = free /\ field (fsinfo_bytes free next) 492 4 = next.
Proof.
  intros Hf Hn. unfold fsinfo_bytes.
  repeat (rewrite field_app_skip by (rewrite ?length_le_bytes, ?length_replicate; lia);
          rewrite ?length_le_bytes, ?length_replicate).
  split.
  - by apply field_le_bytes.
  - rewrite field_app_skip by (rewrite ?length_le_bytes; lia). rewrite length_le_bytes. by apply field_le_bytes.
Qed.

(** * The boot sector *)

Section mount.
Variable stk : Z -> Z.

Lemma length_bpb (spc fsz total : Z) : length (bpb_bytes spc fsz total) = 90%nat.
Proof. unfold bpb_bytes. by rewrite !length_app, !length_le_bytes, length_replicate. Qed.

Lemma length_boot (spc fsz total : Z) : length (boot_sector stk spc fsz total) = 512%nat.
Proof. unfold boot_sector. rewrite !length_set, length_splice; rewrite ?length_bpb, ?length_uninit; lia. Qed.

Lemma boot_field (spc fsz total o : Z) (n : nat) :
  0 <= o -> o + Z.of_nat n <= 90 -> field (boot_sector stk spc fsz total) o n = field (bpb_bytes spc fsz total) o n.
Proof.
  intros Ho Hn. unfold boot_sector. rewrite !field_set_after by lia. apply field_splice_in; rewrite ?length_bpb; lia.
Qed.

(** Mounting computes back the parameters of formatting. *)
Lemma fat_of_boot (spc fsz total : Z) :
  0 < spc <= 16 -> 0 < fsz < 2 ^ 22 -> 32 + 2 * fsz <= total < 2 ^ 32 ->
  fat_of_bpb (boot_sector stk spc fsz total) =
  mk_fat fsz 0 0 512 spc (512 * spc) ((total - (32 + 2 * fsz)) / spc) 32 (32 + 2 * fsz) 2 1 [] (fsz * 128) false.
Proof.
  intros Hs Hf Ht. unfold fat_of_bpb. rewrite !boot_field by lia.
  assert (E1 : field (bpb_bytes spc fsz total) 36 4 = fsz).
  { change (field (le_bytes 4 fsz ++ drop 40 (bpb_bytes spc fsz total)) 0 4 = fsz). apply field_le_bytes. split; cbn; lia. }
  assert (E2 : field (bpb_bytes spc fsz total) 32 4 = total).
  { change (field (le_bytes 4 total ++ drop 36 (bpb_bytes spc fsz total)) 0 4 = total). apply field_le_bytes. split; cbn; lia. }
  assert (E3 : field (bpb_bytes spc fsz total) 13 1 = spc).
  { change (spc + 256 * 0 = spc). lia. }
  rewrite E1, E2, E3. change (field (bpb_bytes spc fsz total) 11 2) with 512. change (field (bpb_bytes spc fsz total) 14 2) with 32.
  change (field (bpb_bytes spc fsz total) 16 1) with 2. change (field (bpb_bytes spc fsz total) 44 4) with 2.
  change (field (bpb_bytes spc fsz total) 48 2) with 1.
  rewrite (wrap_small 32 (32 + 2 * fsz)), (wrap_small 32 (512 * spc)), (wrap_small 32 (total - _)), (wrap_small 32 (fsz * 512)) by (split; lia).
  f_equal. replace (fsz * 512) with (fsz * 128 * 4) by lia. by rewrite Z.div_mul.
Qed.

(** Everything that [fat32_format] writes on a disk of [total] sectors. *)
Definition format_writes (total : Z) : list (Z * list Z) :=
  let spc := spc_for total in
  let fsz := fat_size_for total 512 in
  let boot := boot_sector stk spc fsz total in
  let info := fsinfo_bytes ((total - (32 + 2 * fsz)) / spc) 3 in
  let table := fat_bytes (new_table fsz) in
  [(0, boot); (6, boot); (1, info); (7, info); (32, table); (32 + fsz, table);
   (32 + 2 * fsz, dot_entries (spc * 512) 2 2 0 0)].

Definition large_enough (total : Z) : Prop := 32 + 2 * fat_size_for total 512 + spc_for total <= total < 2 ^ 32.

Lemma large_range (total : Z) :
  large_enough total -> 0 < fat_size_for total 512 < 2 ^ 22 /\ 32 + 2 * fat_size_for total 512 + spc_for total <= total < 2 ^ 32.
Proof.
  intros [H1 H2]. pose proof (spc_for_range total) as Hs. split; [| done].
  assert (H0 : 0 <= fat_size_for total 512) by (apply Z.div_pos; [apply Z.mod_pos_bound |]; lia).
  apply fat_size_range. lia.
Qed.

Lemma format_writes_inside (total n : Z) :
  large_enough total -> total * 512 <= n -> Forall (inside n) (format_writes total).
Proof.
  intros Hb Hn. destruct (large_range total Hb) as [Hf Ht]. pose proof (spc_for_range total) as Hs.
  pose proof (length_new_table _ (proj1 Hf)) as Hl.
  unfold format_writes, inside. repeat constructor; cbn [fst snd];
    rewrite ?length_boot, ?length_fsinfo, ?length_fat_bytes, ?length_dot_entries by lia; lia.
Qed.

Context {D : Type} `{SectorDev D}.

Lemma read_step (d : D) (l : list Z) (f : fat32) (lba n : Z) (buf bs : list Z) :
  sd_holds d l -> 0 <= lba -> 0 < n -> lba + n <= sd_total d -> length buf = length bs ->
  slice l (lba * 512) (n * 512) = bs ->
  exists d', fat32_read_sectors (mk_fs d f) lba n buf = Ret (true, bs, mk_fs d' f) /\ sd_holds d' l.
Proof.
  intros Hh H1 H2 H3 H4 <-. destruct (sd_read_ok d l lba n Hh H1 H2 H3) as (d' & E & Hh').
  exists d'. split; [| done]. unfold fat32_read_sectors. cbn [fs_dev fs_fat]. rewrite E. cbn [obind].
  replace (_ <=? _)%nat with true by lia. by rewrite splice_all by done.
Qed.

Lemma fat32_format_ok (d : D) (l : list Z) :
  let total := sd_total d in
  sd_holds d l -> large_enough total ->
  exists d', fat32_format stk d = Ret (0, d') /\ sd_holds d' (patch l (format_writes total)).
Proof.
  cbv zeta. intros Hh Hbig. destruct (sd_holds_ok d l Hh) as (Hr & Hss & Hl & _).
  pose proof (format_writes_inside (sd_total d) (sd_total d * 512) Hbig ltac:(lia)) as Hin.
  destruct (large_range _ Hbig) as [Hf Ht]. pose proof (spc_for_range (sd_total d)) as Hs.
  unfold fat32_format. rewrite Hr, Hss. cbn [negb]. change (u32 512) with 512. cbn [Z.eqb].
  unfold format_writes in *. set (total := sd_total d) in *. set (spc := spc_for total) in *.
  set (fsz := fat_size_for total 512) in *.
  pose proof (length_new_table fsz ltac:(lia)) as Hnt.
  assert (Htab : Z.of_nat (length (fat_bytes (new_table fsz))) = fsz * 512) by (rewrite length_fat_bytes; lia).
  pose proof (length_boot spc fsz total) as Hbo. pose proof (length_fsinfo (u32 (u64 (total - u32 (32 + 2 * fsz)) / spc)) 3) as Hin'.
  pose proof (length_dot_entries (spc * 512) 2 2 0 0 ltac:(lia)) as Hdo.
  destruct (write_step d l total 0 1 (boot_sector stk spc fsz total) Hh) as (d1 & -> & Hh1 & T1); [done | lia.. |]. cbn [obind negb].
  destruct (write_step d1 _ total 6 1 (boot_sector stk spc fsz total) Hh1) as (d2 & -> & Hh2 & T2); [done | lia.. |]. cbn [obind].
  destruct (write_step d2 _ total 1 1 _ Hh2 T2 ltac:(lia) ltac:(lia) ltac:(lia) (f_equal Z.of_nat Hin')) as (d3 & -> & Hh3 & T3). cbn [obind].
  destruct (write_step d3 _ total 7 1 _ Hh3 T3 ltac:(lia) ltac:(lia) ltac:(lia) (f_equal Z.of_nat Hin')) as (d4 & -> & Hh4 & T4). cbn [obind].
  rewrite (wrap_small 32 (fsz * 512)), (wrap_small 32 (32 + 2 * fsz)), (wrap_small 32 (32 + fsz)) in * by (split; lia).
  rewrite Z.div_mul by lia. replace (fsz * 512 =? 0) with false by lia.
  destruct (write_step d4 _ total 32 fsz (fat_bytes (new_table fsz)) Hh4 T4) as (d5 & -> & Hh5 & T5); [lia.. |]. cbn [obind].
  destruct (write_step d5 _ total (32 + fsz) fsz (fat_bytes (new_table fsz)) Hh5 T5) as (d6 & -> & Hh6 & T6); [lia.. |]. cbn [obind].
  destruct (write_step d6 _ total (32 + 2 * fsz) spc (dot_entries (spc * 512) 2 2 0 0) Hh6 T6) as (d7 & -> & Hh7 & T7); [lia.. |].
  cbn [obind]. exists d7. split; [done |]. rewrite (wrap_small 64) in Hh7 by (split; lia).
  rewrite (wrap_small 32) in Hh7; [exact Hh7 |].
  split; [apply Z.div_pos; lia |]. apply Z.div_lt_upper_bound; nia.
Qed.

(** What is found on the formatted disk. *)
Lemma formatted_slices (l : list Z) (total : Z) :
  let spc := spc_for total in
  let fsz := fat_size_for total 512 in
  let l' := patch l (format_writes total) in
  large_enough total -> Z.of_nat (length l) = 512 * total ->
  slice l' (0 * 512) (1 * 512) = boot_sector stk spc fsz total /\
  slice l' (1 * 512) (1 * 512) = fsinfo_bytes ((total - (32 + 2 * fsz)) / spc) 3 /\
  slice l' (32 * 512) (fsz * 512) = fat_bytes (new_table fsz) /\
  slice l' ((32 + 2 * fsz) * 512) (spc * 512) = dot_entries (spc * 512) 2 2 0 0.
Proof.
  cbv zeta. intros Hb Hl. pose proof (format_writes_inside total (Z.of_nat (length l)) Hb ltac:(lia)) as Hin.
  destruct (large_range total Hb) as [Hf Ht]. pose proof (spc_for_range total) as Hs.
  unfold format_writes in *. set (fsz := fat_size_for total 512) in *. set (spc := spc_for total) in *.
  pose proof (length_new_table fsz ltac:(lia)) as Hnt.
  assert (Htab : Z.of_nat (length (fat_bytes (new_table fsz))) = fsz * 512) by (rewrite length_fat_bytes; lia).
  pose proof (length_boot spc fsz total) as Hbo. pose proof (length_fsinfo ((total - (32 + 2 * fsz)) / spc) 3) as Hfi.
  pose proof (length_dot_entries (spc * 512) 2 2 0 0 ltac:(lia)) as Hdo.
  set (boot := boot_sector stk spc fsz total) in *. set (info := fsinfo_bytes _ 3) in *. set (table := fat_bytes _) in *.
  set (dots := dot_entries _ _ _ _ _) in *. clearbody boot info table dots.
  split; [| split; [| split]].
  - replace (1 * 512) with (Z.of_nat (length boot)) by lia. apply (slice_patch l []); [exact Hin |].
    unfold apart. repeat constructor; cbn [fst snd]; lia.
  - replace (1 * 512) with (Z.of_nat (length info)) at 2 by lia. apply (slice_patch l [(0, boot); (6, boot)]); [exact Hin |].
    unfold apart. repeat constructor; cbn [fst snd]; lia.
  - rewrite <- Htab. apply (slice_patch l [(0, boot); (6, boot); (1, info); (7, info)]); [exact Hin |].
    unfold apart. repeat constructor; cbn [fst snd]; lia.
  - rewrite <- Hdo at 1. apply (slice_patch l [(0, boot); (6, boot); (1, info); (7, info); (32, table); (32 + fsz, table)] []); [exact Hin |].
    constructor.
Qed.

(** The file system after formatting and mounting. *)
Definition fresh_fat (total : Z) : fat32 :=
  let spc := spc_for total in
  let fsz := fat_size_for total 512 in
  let data := 32 + 2 * fsz in
  mk_fat fsz ((total - data) / spc) 3 512 spc (512 * spc) ((total - data) / spc) 32 data 2 1 (new_table fsz) (fsz * 128) false.

Lemma fat32_mount_ok (d : D) (l : list Z) (total : Z) :
  let spc := spc_for total in
  let fsz := fat_size_for total 512 in
  sd_holds d l -> sd_total d = total -> large_enough total ->
  slice l (0 * 512) (1 * 512) = boot_sector stk spc fsz total ->
  slice l (1 * 512) (1 * 512) = fsinfo_bytes ((total - (32 + 2 * fsz)) / spc) 3 ->
  slice l (32 * 512) (fsz * 512) = fat_bytes (new_table fsz) ->
  exists d', fat32_mount stk d = Ret (Some (root_inode (fresh_fat total), mk_fs d' (fresh_fat total)), d') /\ sd_holds d' l.
Proof.
  cbv zeta. intros Hh Ht Hb S1 S2 S3. destruct (large_range _ Hb) as [Hf Hr]. pose proof (spc_for_range total) as Hs.
  unfold fresh_fat. set (fsz := fat_size_for total 512) in *. set (spc := spc_for total) in *.
  pose proof (length_new_table fsz ltac:(lia)) as Hnt.
  assert (Htab : Z.of_nat (length (fat_bytes (new_table fsz))) = fsz * 512) by (rewrite length_fat_bytes; lia).
  pose proof (length_boot spc fsz total) as Hbo. pose proof (length_fsinfo ((total - (32 + 2 * fsz)) / spc) 3) as Hfi.
  pose proof (fat_of_boot spc fsz total ltac:(lia) ltac:(lia) ltac:(lia)) as Ef.
  assert (Hfr : fits 32 ((total - (32 + 2 * fsz)) / spc)).
  { split; [apply Z.div_pos; lia |]. apply Z.div_lt_upper_bound; nia. }
  destruct (fsinfo_fields _ 3 Hfr ltac:(split; lia)) as [F1 F2]. unfold fat32_mount.
  destruct (read_step d l (mk_fat 0 0 0 0 0 0 0 0 0 0 0 [] 0 false) 0 1 (uninit stk 512) (boot_sector stk spc fsz total) Hh) as (d1 & -> & Hh1);
    [lia.. | rewrite length_uninit; lia | exact S1 |]. cbn [obind negb].
  pose proof (f_equal bytes_per_sector Ef) as G1. pose proof (f_equal sectors_per_cluster Ef) as G2. pose proof (f_equal fat_size_32 Ef) as G3.
  cbn [fat_of_bpb bytes_per_sector sectors_per_cluster fat_size_32] in G1, G2, G3. rewrite G1, G2, G3.
  replace (_ || _ || _) with false by lia. rewrite Ef. cbn [fat_size_32 fat_start fs_dev]. rewrite (wrap_small 32) by (split; lia).
  replace (fsz * 512 =? 0) with false by lia. pose proof (same_total _ _ _ Hh Hh1) as T1.
  destruct (read_step d1 l (mk_fat fsz 0 0 512 spc (512 * spc) ((total - (32 + 2 * fsz)) / spc) 32 (32 + 2 * fsz) 2 1 [] (fsz * 128) false)
    32 fsz (uninit stk (fsz * 512)) (fat_bytes (new_table fsz)) Hh1) as (d2 & -> & Hh2); [lia.. | rewrite length_uninit; lia | exact S3 |].
  cbn [obind negb fat_entries fsinfo_sector Z.eqb]. pose proof (same_total _ _ _ Hh Hh2) as T2.
  destruct (read_step d2 l (mk_fat fsz 0 0 512 spc (512 * spc) ((total - (32 + 2 * fsz)) / spc) 32 (32 + 2 * fsz) 2 1 [] (fsz * 128) false)
    1 1 (replicate 512 0) (fsinfo_bytes ((total - (32 + 2 * fsz)) / spc) 3) Hh2) as (d3 & -> & Hh3); [lia.. | by rewrite length_replicate | exact S2 |].
  cbn [obind]. exists d3. split; [| done]. rewrite F1, F2, <- Hnt, words_fat_bytes by apply new_table_fits. done.
Qed.

(** C18: formatting a disk of fewer than 2^32 sectors that holds the reserved sectors, both
    tables and the root directory succeeds, and mounting it gives back exactly the volume
    that was laid out: the geometry, a table in which only the root directory is in use,
    the free count and hint of the information sector, and a root directory with the
    entries for itself and its parent. *)
Theorem fat32_format_mount (d : D) (l : list Z) :
  let total := sd_total d in
  let f := fresh_fat total in
  sd_holds d l -> large_enough total ->
  exists d1 d2 l', fat32_format stk d = Ret (0, d1) /\ fat32_mount stk d1 = Ret (Some (root_inode f, mk_fs d2 f), d2) /\
    sd_holds d2 l' /\ chain (fat_cache f) [2] /\ (forall c, 3 <= c < fat_entries f -> get (fat_cache f) c = FAT32_FREE) /\
    cluster_bytes f l' 2 = dot_entries (bytes_per_cluster f) 2 2 0 0.
Proof.
  cbv zeta. intros Hh Hb. destruct (sd_holds_ok d l Hh) as (_ & _ & Hl & _). destruct (large_range _ Hb) as [Hf Ht].
  destruct (fat32_format_ok d l Hh Hb) as (d1 & E1 & Hh1). destruct (formatted_slices l (sd_total d) Hb Hl) as (S1 & S2 & S3 & S4).
  pose proof (format_writes_inside (sd_total d) (Z.of_nat (length l)) Hb ltac:(lia)) as Hin.
  assert (T1 : sd_total d1 = sd_total d).
  { destruct (sd_holds_ok _ _ Hh1) as (_ & _ & E & _). rewrite length_patch in E by done. lia. }
  destruct (fat32_mount_ok d1 _ (sd_total d) Hh1 T1 Hb S1 S2 S3) as (d2 & E2 & Hh2).
  exists d1, d2, (patch l (format_writes (sd_total d))). pose proof (length_new_table _ (proj1 Hf)) as Hnt.
  split; [done |]. split; [done |]. split; [done |]. unfold fresh_fat. cbn [fat_cache fat_entries bytes_per_cluster]. split; [| split].
  - apply chain_last; [lia | done].
  - intros c Hc. unfold new_table, get. rewrite nth_lookup, lookup_app_r by (cbn [length]; lia).
    rewrite lookup_replicate_2 by (cbn [length]; lia). done.
  - rewrite (Z.mul_comm 512), <- S4. unfold cluster_bytes, cluster_pos. cbn [data_start sectors_per_cluster bytes_per_cluster].
    by replace (512 * (32 + 2 * fat_size_for (sd_total d) 512 + (2 - 2) * spc_for (sd_total d)))
      with ((32 + 2 * fat_size_for (sd_total d) 512) * 512) by lia.
Qed.
End mount.
