(* ===== verification/Fat32Demo.v ===== *)
(** A small FAT32 volume, on which the theorems about the driver (Fat32Chain.v to
    Fat32Mount.v) are applied: fourteen clusters of one sector, a root directory in cluster
    2 and a file of 700 bytes in clusters 3 and 5. *)

From S2P Require Import Prelude Bytes Buffer SectorDev Fat32 Fat32Chain Fat32Data Fat32Dir Fat32Unlink Fat32Append Fat32Mount.

(** A short name survives the directory entry: [fat32_name_from_entry] reads back, as a
    C string, the name that [fat32_name_to_entry] stored in eleven bytes, so two such names
    with the same entry are the same. *)
Theorem fat32_name_roundtrip (base ext base' ext' : list Z) :
  short_ok base ext -> short_ok base' ext' ->
  length (fat32_name_to_entry (dotted base ext)) = 11%nat /\
  c_string (fat32_name_from_entry (fat32_name_to_entry (dotted base ext))) = dotted base ext /\
  (fat32_name_to_entry (dotted base ext) = fat32_name_to_entry (dotted base' ext') -> dotted base ext = dotted base' ext').
Proof.
  intros H1 H2. destruct (fat32_name_roundtrip_ok base ext H1) as [E1 E2].
  destruct (fat32_name_roundtrip_ok base' ext' H2) as [_ E3]. split_and!; [done | done |]. intros E. congruence.
Qed.

(** * The volume *)

Definition demo_stk : Z -> Z := fun i => Z.land i 0xFF.
Definition demo_now : rtc := mk_rtc 12 30 40 2024 5 17.

Definition demo_table : list Z :=
  [0x0FFFFFF8; 0x0FFFFFFF; 0x0FFFFFFF; 5; 0x0FFFFFFF; 0x0FFFFFFF; 0; 0; 0; 0; 0; 0; 0; 0; 0; 0].

Definition demo_fat : fat32 := mk_fat 1 10 3 512 1 512 14 1 2 2 0 demo_table 16 false.

(** The entry of "a.txt", and the disk: two sectors, the root directory, and the rest. *)
Definition demo_entry : list Z :=
  set_field (new_entry (fat32_name_to_entry [97; 46; 116; 120; 116]) FAT_ATTR_ARCHIVE 3 demo_now) 28 4 700.

Definition demo_disk : list Z :=
  replicate 1024 0 ++ demo_entry ++ replicate 480 0 ++ ((fun i => Z.of_nat i mod 251) <$> seq 0 (13 * 512)).

Definition demo_vol : fatfs (list Z) := mk_fs demo_disk demo_fat.
Definition demo_root : inode := root_inode demo_fat.
Definition demo_file : inode := mk_inode FT_REG_FILE 700 (mk_priv 3 2 0 2 0).
Definition demo_empty : inode := mk_inode FT_REG_FILE 0 (mk_priv 0 2 1 2 32).

Lemma demo_fat_ok : fat_ok demo_fat.
Proof. split; [done | done | done | done]. Qed.

Lemma demo_length : Z.of_nat (length demo_disk) = 16 * 512.
Proof. vm_compute. reflexivity. Qed.

Lemma demo_vol_ok : vol_ok demo_vol demo_disk.
Proof.
  split; cbn [demo_vol fs_dev fs_fat]; [| exact demo_fat_ok | done | done | done].
  split; [done |]. rewrite demo_length. done.
Qed.

Lemma demo_in_volume (c : Z) : 2 <= c < 16 -> in_volume demo_fat demo_disk c.
Proof. intros Hc. unfold in_volume, cluster_pos. rewrite demo_length. cbn [demo_fat data_start sectors_per_cluster bytes_per_cluster]. lia. Qed.

Lemma demo_file_chain : chain (fat_cache demo_fat) [3; 5].
Proof. apply chain_cons; [done | done |]. apply chain_last; done. Qed.

Lemma demo_root_chain : chain (fat_cache demo_fat) [2].
Proof. apply chain_last; done. Qed.

Lemma demo_file_ok : file_ok demo_vol demo_disk demo_file [3; 5].
Proof.
  split; cbn [demo_vol fs_fat demo_file i_private first_cluster i_size hd length]; try done.
  - exact demo_file_chain.
  - apply NoDup_cons. split; [set_solver | apply NoDup_singleton].
  - repeat constructor; apply demo_in_volume; lia.
Qed.

Lemma demo_dir_ok : dir_ok demo_vol demo_disk demo_root [2].
Proof.
  split; [exact demo_root_chain | apply NoDup_singleton | done | | done].
  apply Forall_singleton. exact (demo_in_volume 2 ltac:(lia)).
Qed.

Lemma demo_fresh_ok : fresh_ok demo_vol demo_disk demo_empty.
Proof.
  split; [done | done | done | done | exact (demo_in_volume 2 ltac:(lia)) | done | by exists 6 |].
  intros c Hc _. by apply demo_in_volume.
Qed.

(** * The theorems on this volume *)

Lemma short_name_ok (b e : list Z) :
  (0 < length b <= 8)%nat -> (length e <= 3)%nat -> Forall name_char b -> Forall name_char e -> short_ok b e.
Proof. by split. Qed.

Lemma demo_short : short_ok [98] [99].
Proof. apply short_name_ok; [cbn; lia | cbn; lia | |]; repeat constructor; unfold name_char; lia. Qed.

Lemma fat32_name_roundtrip_witness :
  c_string (fat32_name_from_entry (fat32_name_to_entry (dotted [98] [99]))) = dotted [98] [99].
Proof. exact (proj1 (proj2 (fat32_name_roundtrip [98] [99] [98] [99] demo_short demo_short))). Defined.

Lemma alloc_clusters_spec_witness :
  exists first f', fat32_alloc_clusters demo_fat 3 = Ret (3, first, f') /\ fat_ok f' /\ free_count f' = 7.
Proof.
  destruct (alloc_clusters_spec demo_fat 3 demo_fat_ok ltac:(lia)) as (r & first & f' & E & Hok & _ & Hr & cs & _ & _ & _ & _ & _ & Hf & _).
  exists first, f'. rewrite Hr in E. split; [exact E |]. split; [exact Hok |]. exact Hf.
Defined.

Lemma free_cluster_chain_total_witness :
  exists f', fat32_free_cluster_chain (with_fat demo_fat 10 3 (set demo_table 5 3) false) 3 = Ret f'.
Proof. exact (free_cluster_chain_total (with_fat demo_fat 10 3 (set demo_table 5 3) false) 3 eq_refl). Defined.

Lemma free_cluster_chain_spec_witness :
  exists f', fat32_free_cluster_chain demo_fat 3 = Ret f' /\ fat_ok f' /\ free_count f' = 12.
Proof.
  destruct (free_cluster_chain_spec demo_fat [3; 5] demo_fat_ok demo_file_chain (fi_nodup _ _ _ _ demo_file_ok))
    as (f' & E & Hok & _ & Hf & _).
  exists f'. split; [exact E |]. split; [exact Hok | exact Hf].
Defined.

Lemma fat32_read_spec_witness :
  exists d, fat32_read demo_stk demo_vol demo_file 500 20 =
    Ret (Some (slice (take 700 (file_bytes demo_fat demo_disk [3; 5])) 500 20), mk_fs d demo_fat).
Proof.
  destruct (fat32_read_spec demo_stk demo_vol demo_disk demo_file [3; 5] 500 20 demo_vol_ok demo_file_ok ltac:(lia) ltac:(lia)) as (d & E & _).
  exists d. exact E.
Defined.

Lemma fat32_write_spec_witness :
  exists d, fat32_write demo_stk demo_vol demo_file 510 [1; 2; 3; 4] demo_now = Ret (Some 4, demo_file, mk_fs d demo_fat) /\
    exists d', fat32_read demo_stk (mk_fs d demo_fat) demo_file 510 4 = Ret (Some [1; 2; 3; 4], mk_fs d' demo_fat).
Proof.
  destruct (fat32_write_spec demo_stk demo_vol demo_disk demo_file [3; 5] 510 [1; 2; 3; 4] demo_now demo_vol_ok demo_file_ok
    ltac:(lia) ltac:(cbn; lia) ltac:(cbn; lia)) as (d & l' & E & _ & _ & _ & _ & d' & E').
  exists d. split; [exact E |]. exists d'. exact E'.
Defined.

Lemma demo_closed : closed (dir_entries demo_fat demo_disk [2]).
Proof.
  assert (E : dir_entries demo_fat demo_disk [2] = demo_entry :: replicate 15 (replicate 32 0)) by (vm_compute; reflexivity).
  rewrite E. split; [discriminate |].
  assert (Hr : forall n, closed (replicate n (replicate 32 0))).
  { intros n. induction n as [|n IH]; [exact I |]. split; [| exact IH]. intros _. by apply Forall_replicate. }
  apply (Hr 15%nat).
Qed.

Lemma fat32_create_spec_witness :
  exists ino d, fat32_create demo_stk demo_vol demo_root (dotted [98] [99]) FT_REG_FILE demo_now = Ret (Some ino, demo_root, mk_fs d demo_fat) /\
    exists d', fat32_lookup demo_stk (mk_fs d demo_fat) demo_root (dotted [98] [99]) = Ret (Some ino, mk_fs d' demo_fat).
Proof.
  destruct (fat32_create_spec demo_stk demo_vol demo_disk demo_root [2] [98] [99] demo_now 1 demo_vol_ok demo_dir_ok demo_short
    ltac:(discriminate) demo_closed ltac:(vm_compute; reflexivity) ltac:(vm_compute; reflexivity))
    as (ino & d & l' & E & _ & _ & _ & (_ & _ & d' & E') & _).
  exists ino, d. split; [exact E |]. exists d'. exact E'.
Defined.

Lemma demo_unique (k : nat) (e : list Z) :
  dir_entries demo_fat demo_disk [2] !! k = Some e -> visible e [97; 46; 116; 120; 116] -> k = Z.to_nat 0.
Proof.
  assert (E : dir_entries demo_fat demo_disk [2] = demo_entry :: replicate 15 (replicate 32 0)) by (vm_compute; reflexivity).
  rewrite E. destruct k as [|k]; [done |]. cbn [lookup list_lookup]. intros Hk [H1 _].
  apply lookup_replicate in Hk as [-> _]. by destruct H1.
Qed.

Lemma fat32_unlink_spec_witness :
  exists d f', fat32_unlink demo_stk demo_vol demo_root [97; 46; 116; 120; 116] = Ret (true, mk_fs d f') /\
    free_count f' = 12 /\ exists d', fat32_lookup demo_stk (mk_fs d f') demo_root [97; 46; 116; 120; 116] = Ret (None, mk_fs d' f').
Proof.
  destruct (fat32_unlink_spec demo_stk demo_vol demo_disk demo_root [2] [97; 46; 116; 120; 116] 0
    (inode_at demo_fat demo_disk demo_root [2] 0 0) [3; 5] demo_vol_ok demo_dir_ok ltac:(vm_compute; reflexivity) demo_unique eq_refl
    ltac:(right; split_and!; [vm_compute; discriminate | vm_compute; reflexivity | exact demo_file_chain | exact (fi_nodup _ _ _ _ demo_file_ok)])
    ltac:(intros c Hc; set_solver))
    as (d & f' & l' & E & _ & _ & _ & Hf & _ & (d' & E') & _).
  exists d, f'. split; [exact E |]. split; [exact Hf |]. exists d'. exact E'.
Defined.

Lemma fat32_first_write_spec_witness :
  exists c d, fat32_write demo_stk demo_vol demo_empty 0 [1; 2; 3] demo_now =
    Ret (Some 3, with_size (with_first demo_empty c) 3, mk_fs d (taken demo_fat c)).
Proof.
  destruct (fat32_first_write_spec demo_stk demo_vol demo_disk demo_empty [1; 2; 3] demo_now demo_vol_ok demo_fresh_ok eq_refl
    ltac:(cbn; lia)) as (c & d & l' & E & _).
  exists c, d. exact E.
Defined.

Lemma fat32_first_write_overlap_witness :
  exists c d, fat32_write demo_stk demo_vol demo_empty 0 (replicate 600 9) demo_now =
    Ret (Some 600, with_size (with_first demo_empty c) 600, mk_fs d (taken demo_fat c)) /\ chain (fat_cache (taken demo_fat c)) [c].
Proof.
  destruct (fat32_first_write_overlap demo_stk demo_vol demo_disk demo_empty (replicate 600 9) demo_now demo_vol_ok demo_fresh_ok eq_refl
    ltac:(rewrite length_replicate; cbn; lia)) as (c & d & l' & E & Hch & _).
  exists c, d. split; [exact E | exact Hch].
Defined.

(** A disk of 200 sectors. *)
Definition demo_blank : list Z := replicate (200 * 512) 7.

Lemma demo_blank_holds : sd_holds demo_blank demo_blank /\ large_enough (sd_total demo_blank).
Proof.
  assert (E : Z.of_nat (length demo_blank) = 200 * 512) by (unfold demo_blank; rewrite length_replicate; lia).
  split; [split; [done |]; rewrite E; done |]. unfold large_enough. cbn [sd_total image_dev]. unfold image_sectors. rewrite E.
  vm_compute. split; [discriminate | reflexivity].
Qed.

Lemma fat32_format_mount_witness :
  exists d1 d2, fat32_format demo_stk demo_blank = Ret (0, d1) /\
    fat32_mount demo_stk d1 = Ret (Some (root_inode (fresh_fat 200), mk_fs d2 (fresh_fat 200)), d2).
Proof.
  destruct (fat32_format_mount demo_stk demo_blank demo_blank (proj1 demo_blank_holds) (proj2 demo_blank_holds)) as (d1 & d2 & l' & E1 & E2 & _).
  assert (E : sd_total demo_blank = 200) by (cbn [sd_total image_dev]; unfold image_sectors, demo_blank; by rewrite length_replicate).
  rewrite E in E2. exists d1, d2. split; [exact E1 | exact E2].
Defined.
