(* ===== verification/Vfs.v ===== *)
(** The virtual file system, src/fs/vfs.c: inodes with reference counts, mount points, paths,
    open files, and the calls that pass on to a file system driver.

    Inodes and open files are blocks of the heap, kept in maps by their address; a block
    that is freed leaves its map and its address is not given out again, so a use of a
    stale pointer is [Crash].  The operations of the drivers are functions on the whole
    state, in tables that the class [FsTable] gives to an inode, as the tables that [i_op]
    and [i_fop] point to; what the drivers keep for themselves is the type [F].  Strings are
    their characters without the 0 at the end.  The kernel's [malloc] does not return NULL
    (Heap.v), so the tests of its result are left out. *)

From S2P Require Import Prelude Bytes LibMem LibString.

(** * Data *)

Definition FT_REG_FILE : Z := 1.
Definition FT_DIR : Z := 2.
Definition O_CREAT : Z := 4.
Definition O_APPEND : Z := 16.
Definition PATH_MAX : Z := 4096.
Definition NAME_MAX : Z := 255.

(** [vfs_inode_t]; [i_dev], [i_fs_name] and [i_next] are not used here.  [i_op] and [i_fop]
    name a table, 0 is NULL. *)
Record vfs_inode := mk_vinode {
  vi_mode : Z;
  vi_uid : Z;
  vi_gid : Z;
  vi_size : Z;
  vi_ctime : Z;
  vi_mtime : Z;
  vi_atime : Z;
  vi_ino : Z;
  vi_nlink : Z;
  i_op : Z;
  i_fop : Z;
  i_refcount : Z;
  vi_private : Z;
  i_dirty : bool
}.

Definition with_refs (v : vfs_inode) (n : Z) : vfs_inode :=
  mk_vinode (vi_mode v) (vi_uid v) (vi_gid v) (vi_size v) (vi_ctime v) (vi_mtime v) (vi_atime v) (vi_ino v)
    (vi_nlink v) (i_op v) (i_fop v) n (vi_private v) (i_dirty v).

Definition with_data (v : vfs_inode) (size : Z) (d : bool) : vfs_inode :=
  mk_vinode (vi_mode v) (vi_uid v) (vi_gid v) size (vi_ctime v) (vi_mtime v) (vi_atime v) (vi_ino v)
    (vi_nlink v) (i_op v) (i_fop v) (i_refcount v) (vi_private v) d.

(** [vfs_file_t]; [f_private] is always NULL. *)
Record vfs_file := mk_vfile { f_inode : Z; f_pos : Z; f_flags : Z }.

(** An entry of [fs_list]: the name, and the mount function by its number. *)
Record file_system := mk_fsys { fs_name : list Z; fs_mount_id : Z }.

(** [mount_entry_t] *)
Record mount_entry := mk_mentry { me_name : list Z; me_inode : Z; me_type : Z }.

(** [vfs_stat_t] *)
Record vfs_stat_t := mk_vstat {
  st_mode : Z; st_uid : Z; st_gid : Z; st_size : Z; st_ctime : Z; st_mtime : Z; st_atime : Z; st_ino : Z; st_nlink : Z
}.

(** The global variables, the blocks, and the state [fsd] of the drivers.  [rd_entries],
    [rd_count] and [rd_index] are the static variables of [vfs_readdir]; [brk] is the next
    address. *)
Record vfs (F : Type) := mk_vfs {
  inodes : gmap Z vfs_inode;
  ofiles : gmap Z vfs_file;
  brk : Z;
  root_inode : Z;
  fs_root : Z;
  current_dir : Z;
  current_path : list Z;
  mounts : list (list Z * Z);
  fs_list : list file_system;
  rd_entries : list mount_entry;
  rd_count : Z;
  rd_index : Z;
  fsd : F
}.
Arguments mk_vfs {F}.
Arguments inodes {F}. Arguments ofiles {F}. Arguments brk {F}. Arguments root_inode {F}. Arguments fs_root {F}.
Arguments current_dir {F}. Arguments current_path {F}. Arguments mounts {F}. Arguments fs_list {F}.
Arguments rd_entries {F}. Arguments rd_count {F}. Arguments rd_index {F}. Arguments fsd {F}.

Section state.
Context {F : Type}.

Definition with_inodes (s : vfs F) (m : gmap Z vfs_inode) : vfs F :=
  mk_vfs m (ofiles s) (brk s) (root_inode s) (fs_root s) (current_dir s) (current_path s) (mounts s) (fs_list s)
    (rd_entries s) (rd_count s) (rd_index s) (fsd s).
Definition with_files (s : vfs F) (m : gmap Z vfs_file) : vfs F :=
  mk_vfs (inodes s) m (brk s) (root_inode s) (fs_root s) (current_dir s) (current_path s) (mounts s) (fs_list s)
    (rd_entries s) (rd_count s) (rd_index s) (fsd s).
Definition with_root_inode (s : vfs F) (a : Z) : vfs F :=
  mk_vfs (inodes s) (ofiles s) (brk s) a (fs_root s) (current_dir s) (current_path s) (mounts s) (fs_list s)
    (rd_entries s) (rd_count s) (rd_index s) (fsd s).
Definition with_path (s : vfs F) (p : list Z) : vfs F :=
  mk_vfs (inodes s) (ofiles s) (brk s) (root_inode s) (fs_root s) (current_dir s) p (mounts s) (fs_list s)
    (rd_entries s) (rd_count s) (rd_index s) (fsd s).
Definition with_mounts (s : vfs F) (l : list (list Z * Z)) : vfs F :=
  mk_vfs (inodes s) (ofiles s) (brk s) (root_inode s) (fs_root s) (current_dir s) (current_path s) l (fs_list s)
    (rd_entries s) (rd_count s) (rd_index s) (fsd s).
Definition with_fs_list (s : vfs F) (l : list file_system) : vfs F :=
  mk_vfs (inodes s) (ofiles s) (brk s) (root_inode s) (fs_root s) (current_dir s) (current_path s) (mounts s) l
    (rd_entries s) (rd_count s) (rd_index s) (fsd s).
Definition with_rd (s : vfs F) (l : list mount_entry) (count index : Z) : vfs F :=
  mk_vfs (inodes s) (ofiles s) (brk s) (root_inode s) (fs_root s) (current_dir s) (current_path s) (mounts s) (fs_list s)
    l count index (fsd s).
Definition with_fsd (s : vfs F) (x : F) : vfs F :=
  mk_vfs (inodes s) (ofiles s) (brk s) (root_inode s) (fs_root s) (current_dir s) (current_path s) (mounts s) (fs_list s)
    (rd_entries s) (rd_count s) (rd_index s) x.
Definition with_brk (s : vfs F) (a : Z) : vfs F :=
  mk_vfs (inodes s) (ofiles s) a (root_inode s) (fs_root s) (current_dir s) (current_path s) (mounts s) (fs_list s)
    (rd_entries s) (rd_count s) (rd_index s) (fsd s).

(** An access through a pointer to an inode. *)
Definition inode_of (s : vfs F) (a : Z) : outcome vfs_inode := of_option (inodes s !! a).
Definition set_inode (s : vfs F) (a : Z) (v : vfs_inode) : vfs F := with_inodes s (<[a := v]> (inodes s)).
Definition file_of (s : vfs F) (a : Z) : outcome vfs_file := of_option (ofiles s !! a).

Definition blank_inode : vfs_inode := mk_vinode 0 0 0 0 0 0 0 0 0 0 0 1 0 false.

Definition vfs_alloc_inode (s : vfs F) : Z * vfs F :=
  (brk s, with_brk (set_inode s (brk s) blank_inode) (brk s + 1)).

Definition vfs_inode_ref (s : vfs F) (a : Z) : outcome (vfs F) :=
  (if a =? 0 then Ret s
   else do v <- inode_of s a; Ret (set_inode s a (with_refs v (u32 (i_refcount v + 1)))))%out.
End state.

(** * Drivers *)

(** The tables of operations; an entry that is NULL is [None].  An operation that hands out
    an inode or a text returns its result code, that value and the state. *)
Record vfs_operations (F : Type) := mk_ops {
  op_lookup : option (Z -> list Z -> vfs F -> outcome (Z * Z * vfs F));
  op_create : option (Z -> list Z -> Z -> vfs F -> outcome (Z * Z * vfs F));
  op_unlink : option (Z -> list Z -> vfs F -> outcome (Z * vfs F));
  op_mkdir : option (Z -> list Z -> Z -> vfs F -> outcome (Z * Z * vfs F));
  op_rmdir : option (Z -> list Z -> vfs F -> outcome (Z * vfs F));
  op_rename : option (Z -> list Z -> Z -> list Z -> vfs F -> outcome (Z * vfs F));
  op_chmod : option (Z -> Z -> vfs F -> outcome (Z * vfs F));
  op_readdir : option (Z -> Z -> vfs F -> outcome (Z * (list Z * Z * Z) * vfs F));
  op_parent : option (Z -> vfs F -> outcome (Z * Z * vfs F));
  op_get_name : option (Z -> Z -> vfs F -> outcome (Z * list Z * vfs F));
  op_unmount : option (Z -> vfs F -> outcome (Z * vfs F))
}.
Arguments op_lookup {F}. Arguments op_create {F}. Arguments op_unlink {F}. Arguments op_mkdir {F}. Arguments op_rmdir {F}.
Arguments op_rename {F}. Arguments op_chmod {F}. Arguments op_readdir {F}. Arguments op_parent {F}.
Arguments op_get_name {F}. Arguments op_unmount {F}. Arguments mk_ops {F}.

Record vfs_file_operations (F : Type) := mk_fops {
  fop_read : option (Z -> Z -> Z -> vfs F -> outcome (Z * list Z * vfs F));
  fop_write : option (Z -> Z -> list Z -> vfs F -> outcome (Z * Z * vfs F));
  fop_sync : option (Z -> vfs F -> outcome (Z * vfs F))
}.
Arguments fop_read {F}. Arguments fop_write {F}. Arguments fop_sync {F}. Arguments mk_fops {F}.

(** [ops_of n] is the table number [n]; [mount_of] the mount functions; [free_private] what
    free() does to the private data of an inode; [first_sector] reads sector 0 of a device. *)
Class FsTable (F : Type) := {
  ops_of : Z -> option (vfs_operations F);
  fops_of : Z -> option (vfs_file_operations F);
  mount_of : Z -> Z -> vfs F -> outcome (Z * Z * vfs F);
  free_private : Z -> F -> outcome F;
  first_sector : Z -> F -> outcome (option (list Z) * F)
}.

Section vfs.
Context {F : Type} `{FsTable F}.

(** Steps for the walk to the root in [vfs_build_path], which the code does not bound. *)
Variable fuel : nat.

Definition table_of (v : vfs_inode) : option (vfs_operations F) := if i_op v =? 0 then None else ops_of (i_op v).
Definition ftable_of (v : vfs_inode) : option (vfs_file_operations F) := if i_fop v =? 0 then None else fops_of (i_fop v).

(** * Inodes *)

Definition vfs_inode_unref (s : vfs F) (a : Z) : outcome (vfs F) :=
  (if a =? 0 then Ret s
   else
     do v <- inode_of s a;
     let n := u32 (i_refcount v - 1) in
     if n =? 0 then
       do x <- (if vi_private v =? 0 then Ret (fsd s) else free_private (vi_private v) (fsd s));
       Ret (with_fsd (with_inodes s (delete a (inodes s))) x)
     else Ret (set_inode s a (with_refs v n)))%out.

Definition vfs_free_inode (s : vfs F) (a : Z) : outcome (vfs F) := vfs_inode_unref s a.

(** [vfs_parent]: the result code, the parent and the state. *)
Definition vfs_parent (s : vfs F) (a : Z) : outcome (Z * Z * vfs F) :=
  (if a =? 0 then Ret (-1, 0, s)
   else if a =? root_inode s then Ret (0, root_inode s, s)
   else
     do v <- inode_of s a;
     match table_of v ≫= op_parent with
     | None => Ret (-1, 0, s)
     | Some parent => parent a s
     end)%out.

(** [get_inode_name] *)
Definition get_inode_name (s : vfs F) (a max_len : Z) : outcome (Z * list Z * vfs F) :=
  (if a =? 0 then Ret (-1, [], s)
   else if a =? fs_root s then Ret (0, [], s)
   else
     do v <- inode_of s a;
     match table_of v ≫= op_get_name with
     | None => Ret (-1, [], s)
     | Some get_name => get_name a max_len s
     end)%out.

(** The loop of [vfs_get_path_depth], [n] more steps. *)
Fixpoint depth_from (n : nat) (s : vfs F) (current depth : Z) : outcome (Z * vfs F) :=
  (match n with
   | O => Ret (depth, s)
   | S n' =>
       if (current =? 0) || (current =? root_inode s) then Ret (depth, s)
       else
         do '(r, parent, s) <- vfs_parent s current;
         if negb (r =? 0) then Ret (depth, s)
         else if parent =? current then Ret (depth, s)
         else depth_from n' s parent (depth + 1)
   end)%out.

Definition vfs_get_path_depth (s : vfs F) (a : Z) : outcome (Z * vfs F) := depth_from 1000 s a 0.

(** * Paths of inodes *)

(** The loop "Assembling path components": the names, innermost first. *)
Fixpoint path_names (n : nat) (s : vfs F) (current : Z) (comps : list (list Z)) : outcome (list (list Z) * vfs F) :=
  (if (current =? 0) || (current =? root_inode s) || (256 <=? length comps)%nat then Ret (comps, s)
   else match n with
        | O => Crash
        | S n' =>
            do v <- inode_of s current;
            do '(comps, s) <-
              match table_of v ≫= op_get_name with
              | None => Ret (comps, s)
              | Some get_name =>
                  do '(_, _, s) <- get_name current NAME_MAX s;
                  do '(r, name, s) <- get_name current NAME_MAX s;
                  Ret (if (r =? 0) && negb (bool_decide (name = [])) then comps ++ [name] else comps, s)
              end;
            do '(r, parent, s) <- vfs_parent s current;
            if negb (r =? 0) then Ret (comps, s)
            else if parent =? current then Ret (comps, s)
            else path_names n' s parent comps
        end)%out.

(** The loop "Putting the path together backwards", outermost name first.  When the buffer
    is full, all names are freed, also those that this loop has freed before: the second
    free of a block is a panic (Heap.v). *)
Fixpoint join_names (first : bool) (names : list (list Z)) (max_len : Z) (buffer : list Z) : outcome (option (list Z)) :=
  match names with
  | [] => Ret (Some buffer)
  | name :: names' =>
      if max_len <=? Z.of_nat (length buffer) + Z.of_nat (length name) + 1 then if first then Ret None else Panic
      else join_names false names' max_len (buffer ++ name ++ match names' with [] => [] | _ => [47] end)
  end.

Definition vfs_build_path (s : vfs F) (a max_len : Z) : outcome (option (list Z) * vfs F) :=
  (if (a =? 0) || (max_len <=? 0) then Ret (None, s)
   else if a =? root_inode s then Ret (Some [47], s)
   else
     do '(comps, s) <- path_names fuel s a [];
     do r <- join_names true (rev comps) max_len [47];
     Ret (r, s))%out.

(** [build_path_recursive], [update_current_path] *)
Definition build_path_recursive (s : vfs F) (a : Z) : outcome (list Z * vfs F) :=
  (do '(r, s) <- vfs_build_path s a PATH_MAX; Ret (default [47] r, s))%out.

Definition update_current_path (s : vfs F) : outcome (vfs F) :=
  (if (root_inode s =? 0) || (current_dir s =? 0) then Ret (with_path s [47])
   else do '(r, s) <- vfs_build_path s (current_dir s) PATH_MAX; Ret (with_path s (default [47] r)))%out.

(** [build_current_path]; [component] is empty for NULL. *)
Definition build_current_path (s : vfs F) (dir : Z) (component : list Z) : outcome (option (list Z) * vfs F) :=
  (if dir =? 0 then Ret (None, s)
   else
     do '(r, s) <- vfs_build_path s dir PATH_MAX;
     match r with
     | None => Ret (None, s)
     | Some base =>
         if bool_decide (component = []) then Ret (Some base, s)
         else if PATH_MAX <? Z.of_nat (length base) + Z.of_nat (length component) + 2 then Ret (None, s)
         else Ret (Some (if bool_decide (last base = Some 47) then base ++ component else base ++ [47] ++ component), s)
     end)%out.

(** * Mount points and file systems *)

Definition vfs_init (s : vfs F) : vfs F := with_root_inode (with_fs_list s []) 0.

(** [mp->path] has PATH_MAX bytes. *)
Definition vfs_mount_point (s : vfs F) (path : list Z) (a : Z) : outcome (vfs F) :=
  if PATH_MAX <=? Z.of_nat (length path) then Crash else Ret (with_mounts s ((path, a) :: mounts s)).

Fixpoint find_mount (l : list (list Z * Z)) (path : list Z) : Z :=
  match l with
  | [] => 0
  | (p, a) :: l' => if bool_decide (p = path) then a else find_mount l' path
  end.

Definition check_mount_points (s : vfs F) (path : list Z) : Z := find_mount (mounts s) path.

Definition vfs_register_fs (s : vfs F) (fs : file_system) : vfs F := with_fs_list s (fs :: fs_list s).

(** [get_parent_inode]: a mount point asks [vfs_parent] first; when that fails, and for
    every other inode, the driver; without one the root. *)
Definition is_mounted (s : vfs F) (a : Z) : bool := existsb (fun m => m.2 =? a) (mounts s).

Definition get_parent_inode (s : vfs F) (a : Z) : outcome (Z * Z * vfs F) :=
  (if a =? 0 then Ret (-1, 0, s)
   else if a =? root_inode s then do s <- vfs_inode_ref s (root_inode s); Ret (0, root_inode s, s)
   else
     do '(found, parent, s) <-
       (if is_mounted s a then do '(r, parent, s) <- vfs_parent s a; Ret (r =? 0, parent, s) else Ret (false, 0, s));
     if found : bool then Ret (0, parent, s)
     else
       do v <- inode_of s a;
       match table_of v ≫= op_parent with
       | Some parent => parent a s
       | None => do s <- vfs_inode_ref s (root_inode s); Ret (0, root_inode s, s)
       end)%out.

(** [detect_filesystem]: "fat32", "exfat" or NULL.  The name of an exFAT volume is at offset
    3, the type of a FAT volume at 82. *)
Definition detect_filesystem (s : vfs F) (dev : Z) : outcome (option (list Z) * vfs F) :=
  (do '(r, x) <- first_sector dev (fsd s);
   let s := with_fsd s x in
   match r with
   | None => Ret (None, s)
   | Some sec =>
       let signed := (get sec 510 =? 0x55) && (get sec 511 =? 0xAA) in
       let fat := slice sec 82 5 in
       if (field sec 11 2 =? 512) && (0 <? get sec 13) && (0 <? field sec 36 4) && signed &&
          (bool_decide (fat = [70; 65; 84; 51; 50]) || bool_decide (fat = [70; 65; 84; 49; 54]))
       then Ret (Some [102; 97; 116; 51; 50], s)
       else if bool_decide (slice sec 3 8 = [69; 88; 70; 65; 84; 32; 32; 32]) && signed
       then Ret (Some [101; 120; 102; 97; 116], s)
       else Ret (None, s)
   end)%out.

Fixpoint find_fs (l : list file_system) (name : list Z) : option file_system :=
  match l with
  | [] => None
  | fs :: l' => if bool_decide (fs_name fs = name) then Some fs else find_fs l' name
  end.

(** [vfs_mount]: the result code, the root and the state.  The name may be NULL ([None]);
    comparing with it then is an access to address 0. *)
Definition vfs_mount (s : vfs F) (name : option (list Z)) (dev : Z) : outcome (Z * Z * vfs F) :=
  (if dev =? 0 then Ret (-1, 0, s)
   else
     do '(ok, s) <-
       (if bool_decide (default [] name = []) then
          do '(detected, s) <- detect_filesystem s dev; Ret (bool_decide (is_Some detected), s)
        else Ret (true, s));
     if negb ok then Ret (-1, 0, s)
     else match fs_list s, name with
          | [], _ => Ret (-1, 0, s)
          | _, None => Crash
          | l, Some n =>
              match find_fs l n with
              | None => Ret (-1, 0, s)
              | Some fs =>
                  do '(r, root, s) <- mount_of (fs_mount_id fs) dev s;
                  if r =? 0 then
                    do s <- vfs_inode_ref (with_root_inode s root) root;
                    Ret (r, root, s)
                  else Ret (r, root, s)
              end
          end)%out.

Definition vfs_sync (s : vfs F) (a : Z) : outcome (Z * vfs F) :=
  (if a =? 0 then Ret (-1, s)
   else
     do v <- inode_of s a;
     match ftable_of v ≫= fop_sync with
     | None => Ret (-1, s)
     | Some sync =>
         do '(r, s) <- sync a s;
         if r =? 0 then do v <- inode_of s a; Ret (r, set_inode s a (with_data v (vi_size v) false)) else Ret (r, s)
     end)%out.

Definition vfs_unmount (s : vfs F) (root : Z) : outcome (Z * vfs F) :=
  (if root =? 0 then Ret (-1, s)
   else
     do v <- inode_of s root;
     do s <- match table_of v ≫= op_unmount with
             | None => Ret s
             | Some unmount => do '(_, s) <- unmount root s; Ret s
             end;
     do '(_, s) <- vfs_sync s root;
     do s <- vfs_inode_unref s root;
     Ret (0, with_root_inode s 0))%out.

(** * Walking a path *)

(** [split_path]: the first component, cut to its buffer, and the rest from the next slash. *)
Definition split_path (path : list Z) : option (list Z * option (list Z)) :=
  let p := drop_while (Z.eqb 47) path in
  match p with
  | [] => None
  | _ =>
      let name := take_while (fun c => negb (47 =? c)) p in
      let rest := drop_while (fun c => negb (47 =? c)) p in
      Some (take (Z.to_nat (NAME_MAX - 1)) name, match rest with [] => None | _ => Some rest end)
  end.

(** The components of a path: it is cut to the copy in [path_copy], split at the slashes, and
    the array holds the first 256. *)
Definition components (path : list Z) : list (list Z) :=
  let p := take (Z.to_nat (PATH_MAX - 1)) path in take 256 (tokens (S (length p)) [47] p).

(** The path under which a mount point for [comp] in [current] would be: empty when it is
    not known.  The buffer has PATH_MAX bytes. *)
Definition component_path (s : vfs F) (current : Z) (comp : list Z) : outcome (list Z * vfs F) :=
  (if current =? root_inode s then Ret (take (Z.to_nat (PATH_MAX - 1)) (47 :: comp), s)
   else
     do '(r, s) <- vfs_build_path s current PATH_MAX;
     match r with
     | None => Ret ([], s)
     | Some p =>
         let q := (if bool_decide (last p = Some 47) then p else p ++ [47]) ++ comp in
         if PATH_MAX <=? Z.of_nat (length q) then Crash else Ret (q, s)
     end)%out.

Fixpoint walk_from (comps : list (list Z)) (current : Z) (s : vfs F) : outcome (Z * Z * vfs F) :=
  (match comps with
   | [] => Ret (0, current, s)
   | comp :: rest =>
       if bool_decide (comp = [46]) then walk_from rest current s
       else if bool_decide (comp = [46; 46]) then
         do '(r, parent, s) <- get_parent_inode s current;
         do s <- vfs_inode_unref s current;
         if r =? 0 then walk_from rest parent s else Ret (-1, 0, s)
       else
         do '(p, s) <- component_path s current comp;
         let mount_point := if bool_decide (p = []) then 0 else check_mount_points s p in
         if negb (mount_point =? 0) then
           do s <- vfs_inode_unref s current;
           do s <- vfs_inode_ref s mount_point;
           walk_from rest mount_point s
         else
           do v <- inode_of s current;
           match table_of v ≫= op_lookup with
           | None => do s <- vfs_inode_unref s current; Ret (-1, 0, s)
           | Some lookup =>
               do '(r, next, s) <- lookup current comp s;
               do s <- vfs_inode_unref s current;
               if r =? 0 then walk_from rest next s else Ret (-1, 0, s)
           end
   end)%out.

(** [vfs_walk]: the result code, the inode and the state. *)
Definition vfs_walk (s : vfs F) (dir : Z) (path : list Z) : outcome (Z * Z * vfs F) :=
  (if dir =? 0 then Ret (-1, 0, s)
   else if bool_decide (path = []) || bool_decide (path = [47]) then
     let mp := check_mount_points s [47] in
     let a := if negb (mp =? 0) then mp else root_inode s in
     do s <- vfs_inode_ref s a;
     Ret (0, a, s)
   else
     do s <- vfs_inode_ref s dir;
     walk_from (components path) dir s)%out.

(** The loop that builds [parent_path], from "/". *)
Definition join_path (comps : list (list Z)) : list Z :=
  fold_left (fun p c => p ++ (if (1 <? length p)%nat then [47] else []) ++ c) comps [47].

(** [vfs_walk_parent]: also the last component, cut to its buffer. *)
Definition vfs_walk_parent (s : vfs F) (dir : Z) (path : list Z) : outcome (Z * Z * list Z * vfs F) :=
  (if dir =? 0 then Ret (-1, 0, [], s)
   else
     let comps := components path in
     match last comps with
     | None => Ret (-1, 0, [], s)
     | Some c =>
         let name := take (Z.to_nat (NAME_MAX - 1)) c in
         if (length comps =? 1)%nat then do s <- vfs_inode_ref s dir; Ret (0, dir, name, s)
         else
           let parent_path := join_path (removelast comps) in
           if PATH_MAX <=? Z.of_nat (length parent_path) then Crash
           else do '(r, parent, s) <- vfs_walk s dir parent_path; Ret (r, parent, name, s)
     end)%out.

(** What is in front of the last slash and behind it. *)
Fixpoint last_slash (path : list Z) : option (list Z * list Z) :=
  match path with
  | [] => None
  | c :: path' =>
      match last_slash path' with
      | Some (a, b) => Some (c :: a, b)
      | None => if c =? 47 then Some ([], path') else None
      end
  end.

(** A name is copied into a buffer of NAME_MAX bytes. *)
Definition name_copy (name : list Z) : outcome (list Z) :=
  if NAME_MAX <=? Z.of_nat (length name) then Crash else Ret name.

(** [vfs_resolve_path]: the parent and the name. *)
Definition vfs_resolve_path (s : vfs F) (base_dir : Z) (path : list Z) : outcome (option (Z * list Z) * vfs F) :=
  (if bool_decide (path = []) || bool_decide (path = [47]) then
     let parent := if base_dir =? 0 then fs_root s else base_dir in
     do s <- vfs_inode_ref s parent;
     Ret (Some (parent, []), s)
   else
     let absolute := bool_decide (head path = Some 47) in
     let base := if absolute then fs_root s else base_dir in
     if negb absolute && (base_dir =? 0) then Ret (None, s)
     else
       match last_slash path with
       | None => do s <- vfs_inode_ref s base; do name <- name_copy path; Ret (Some (base, name), s)
       | Some (dir, name) =>
           if bool_decide (dir = []) then do s <- vfs_inode_ref s base; do name <- name_copy name; Ret (Some (base, name), s)
           else if PATH_MAX <=? Z.of_nat (length dir) then Ret (None, s)
           else
             do '(r, parent, s) <- vfs_walk s base dir;
             if r =? 0 then do name <- name_copy name; Ret (Some (parent, name), s) else Ret (None, s)
       end)%out.

Definition vfs_lookup (s : vfs F) (dir : Z) (name : list Z) : outcome (Z * Z * vfs F) :=
  (if dir =? 0 then Ret (-1, 0, s)
   else
     do v <- inode_of s dir;
     if negb (vi_mode v =? FT_DIR) then Ret (-1, 0, s)
     else match table_of v ≫= op_lookup with
          | None => Ret (-1, 0, s)
          | Some lookup =>
              do '(r, a, s) <- lookup dir name s;
              if (r =? 0) && negb (a =? 0) then do s <- vfs_inode_ref s a; Ret (r, a, s) else Ret (r, a, s)
          end)%out.

(** * Open files *)

Definition new_file (s : vfs F) (a flags : Z) : outcome (Z * Z * vfs F) :=
  (do pos <- (if negb (Z.land flags O_APPEND =? 0) then do v <- inode_of s a; Ret (vi_size v) else Ret 0);
   let f := brk s in
   Ret (0, f, with_brk (with_files s (<[f := mk_vfile a pos flags]> (ofiles s))) (f + 1)))%out.

(** [vfs_open]: the result code, the file and the state. *)
Definition vfs_open (s : vfs F) (dir : Z) (path : list Z) (flags : Z) : outcome (Z * Z * vfs F) :=
  (if dir =? 0 then Ret (-1, 0, s)
   else
     do '(r, a, s) <- vfs_walk s dir path;
     if r =? 0 then new_file s a flags
     else if Z.land flags O_CREAT =? 0 then Ret (-1, 0, s)
     else
       do '(r, parent, name, s) <- vfs_walk_parent s dir path;
       if negb (r =? 0) then Ret (-1, 0, s)
       else
         do v <- inode_of s parent;
         match table_of v ≫= op_create with
         | None => do s <- vfs_inode_unref s parent; Ret (-1, 0, s)
         | Some create =>
             do '(r, a, s) <- create parent name FT_REG_FILE s;
             do s <- vfs_inode_unref s parent;
             if r =? 0 then new_file s a flags else Ret (-1, 0, s)
         end)%out.

Definition vfs_close (s : vfs F) (f : Z) : outcome (Z * vfs F) :=
  (if f =? 0 then Ret (-1, s)
   else
     do file <- file_of s f;
     let a := f_inode file in
     do s <-
       (if a =? 0 then Ret s
        else
          do v <- inode_of s a;
          do s <- (if i_dirty v then do '(_, s) <- vfs_sync s a; Ret s else Ret s);
          vfs_inode_unref s a);
     Ret (0, with_files s (delete f (ofiles s))))%out.

(** [vfs_read]: the result code, the bytes read and the state. *)
Definition vfs_read (s : vfs F) (f size : Z) : outcome (Z * list Z * vfs F) :=
  (if f =? 0 then Ret (-1, [], s)
   else
     do file <- file_of s f;
     if f_inode file =? 0 then Ret (-1, [], s)
     else
       do v <- inode_of s (f_inode file);
       match ftable_of v ≫= fop_read with
       | None => Ret (-1, [], s)
       | Some read =>
           do '(r, bs, s) <- read (f_inode file) (f_pos file) size s;
           if r =? 0 then
             let file := mk_vfile (f_inode file) (u64 (f_pos file + Z.of_nat (length bs))) (f_flags file) in
             Ret (r, bs, with_files s (<[f := file]> (ofiles s)))
           else Ret (r, bs, s)
       end)%out.

(** [vfs_write]: the result code, the number of bytes written and the state. *)
Definition vfs_write (s : vfs F) (f : Z) (data : list Z) : outcome (Z * Z * vfs F) :=
  (if f =? 0 then Ret (-1, 0, s)
   else
     do file <- file_of s f;
     let a := f_inode file in
     if a =? 0 then Ret (-1, 0, s)
     else
       do v <- inode_of s a;
       match ftable_of v ≫= fop_write with
       | None => Ret (-1, 0, s)
       | Some write =>
           do '(r, n, s) <- write a (f_pos file) data s;
           if r =? 0 then
             let pos := u64 (f_pos file + n) in
             do v <- inode_of s a;
             let s := set_inode s a (with_data v (if vi_size v <? pos then pos else vi_size v) true) in
             Ret (r, n, with_files s (<[f := mk_vfile a pos (f_flags file)]> (ofiles s)))
           else Ret (r, n, s)
       end)%out.

Definition vfs_seek (s : vfs F) (f offset whence : Z) : outcome (Z * vfs F) :=
  (if f =? 0 then Ret (-1, s)
   else
     do file <- file_of s f;
     if f_inode file =? 0 then Ret (-1, s)
     else
       let set_pos p s := with_files s (<[f := mk_vfile (f_inode file) p (f_flags file)]> (ofiles s)) in
       if whence =? 0 then Ret (0, set_pos offset s)
       else if whence =? 1 then Ret (0, set_pos (u64 (f_pos file + offset)) s)
       else if whence =? 2 then
         do v <- inode_of s (f_inode file);
         Ret (0, set_pos (u64 (vi_size v + offset)) s)
       else Ret (-1, s))%out.

(** * Directories *)

(** The common part of [vfs_mkdir] and the calls like it: resolve the path, refuse the root
    and, with [dir_only], a parent that is not a directory, pick the operation, and drop
    the reference to the parent. *)
Definition on_parent {A : Type} (s : vfs F) (dir : Z) (path : list Z) (dir_only : bool) (none : A)
    (pick : vfs_operations F -> option (Z -> list Z -> vfs F -> outcome (Z * A * vfs F))) : outcome (Z * A * vfs F) :=
  (do '(r, s) <- vfs_resolve_path s dir path;
   match r with
   | None => Ret (-1, none, s)
   | Some (parent, name) =>
       let fail s := do s <- vfs_inode_unref s parent; Ret (-1, none, s) in
       if bool_decide (name = []) then fail s
       else
         do v <- inode_of s parent;
         if dir_only && negb (vi_mode v =? FT_DIR) then fail s
         else match table_of v ≫= pick with
              | None => fail s
              | Some op =>
                  do '(r, x, s) <- op parent name s;
                  do s <- vfs_inode_unref s parent;
                  Ret (r, x, s)
              end
   end)%out.

Definition vfs_mkdir (s : vfs F) (dir : Z) (path : list Z) : outcome (Z * Z * vfs F) :=
  on_parent s dir path true 0 (fun t => f ← op_mkdir t; Some (fun parent name s => f parent name FT_DIR s)).

Definition vfs_create (s : vfs F) (dir : Z) (path : list Z) (mode : Z) : outcome (Z * Z * vfs F) :=
  on_parent s dir path true 0 (fun t => f ← op_create t; Some (fun parent name s => f parent name mode s)).

Definition unit_op (f : Z -> list Z -> vfs F -> outcome (Z * vfs F)) (parent : Z) (name : list Z) (s : vfs F)
    : outcome (Z * unit * vfs F) := (do '(r, s) <- f parent name s; Ret (r, tt, s))%out.

Definition vfs_rmdir (s : vfs F) (dir : Z) (path : list Z) : outcome (Z * unit * vfs F) :=
  on_parent s dir path false tt (fun t => f ← op_rmdir t; Some (unit_op f)).

Definition vfs_unlink (s : vfs F) (dir : Z) (path : list Z) : outcome (Z * unit * vfs F) :=
  on_parent s dir path false tt (fun t => f ← op_unlink t; Some (unit_op f)).

Definition vfs_rename (s : vfs F) (old_dir : Z) (old_path : list Z) (new_dir : Z) (new_path : list Z) : outcome (Z * vfs F) :=
  (do '(r, s) <- vfs_resolve_path s old_dir old_path;
   match r with
   | None => Ret (-1, s)
   | Some (old_parent, old_name) =>
       do '(r, s) <- vfs_resolve_path s new_dir new_path;
       match r with
       | None => do s <- vfs_inode_unref s old_parent; Ret (-1, s)
       | Some (new_parent, new_name) =>
           let leave r s := do s <- vfs_inode_unref s old_parent; do s <- vfs_inode_unref s new_parent; Ret (r, s) in
           if bool_decide (old_name = []) || bool_decide (new_name = []) then leave (-1) s
           else
             do v <- inode_of s old_parent;
             match table_of v ≫= op_rename with
             | None => leave (-1) s
             | Some rename =>
                 do '(r, s) <- rename old_parent old_name new_parent new_name s;
                 leave r s
             end
       end
   end)%out.

(** [vfs_get_mount_points]: for each mount point below [path] the first component behind it. *)
Fixpoint mount_points_from (l : list (list Z * Z)) (path : list Z) (max : nat) : list mount_entry :=
  match l, max with
  | [], _ => []
  | _, O => []
  | (p, a) :: l', S max' =>
      if bool_decide (take (length path) p = path) && negb (bool_decide (p = path)) then
        let rest := drop (length path) p in
        let rest := match rest with 47 :: r => r | _ => rest end in
        let name := take_while (fun c => negb (47 =? c)) rest in
        if bool_decide (name <> []) && (length name <? 256)%nat
        then mk_mentry name a FT_DIR :: mount_points_from l' path max'
        else mount_points_from l' path (S max')
      else mount_points_from l' path (S max')
  end.

Definition vfs_get_mount_points (s : vfs F) (path : list Z) (max : Z) : list mount_entry :=
  mount_points_from (mounts s) path (Z.to_nat max).

(** The loop "Showing mount points": the entry at [pos], if the index has not passed it, and
    the index afterwards. *)
Fixpoint rd_scan (n : nat) (index count pos : Z) : option Z * Z :=
  match n with
  | O => (None, index)
  | S n' => if index <? count then if index =? pos then (Some index, index + 1) else rd_scan n' (index + 1) count pos
            else (None, index)
  end.

(** [vfs_readdir]: the result code, name, type and new position, and the state. *)
Definition vfs_readdir (s : vfs F) (dir pos : Z) : outcome (Z * (list Z * Z * Z) * vfs F) :=
  (let none := ([], 0, pos) in
   if dir =? 0 then Ret (-1, none, s)
   else
     do v <- inode_of s dir;
     if negb (vi_mode v =? FT_DIR) then Ret (-1, none, s)
     else if dir =? root_inode s then
       let s := if pos =? 0 then let l := vfs_get_mount_points s [47] 32 in with_rd s l (Z.of_nat (length l)) 0 else s in
       let '(hit, index) := rd_scan (Z.to_nat (rd_count s - rd_index s)) (rd_index s) (rd_count s) pos in
       let s := with_rd s (rd_entries s) (rd_count s) index in
       match hit with
       | Some i =>
           do e <- of_option (rd_entries s !! Z.to_nat i);
           Ret (0, (me_name e, me_type e, pos + 1), s)
       | None =>
           match table_of v ≫= op_readdir with
           | None => Ret (-1, none, s)
           | Some readdir =>
               do '(r, (name, type, fs_pos), s) <- readdir dir (u64 (pos - rd_count s)) s;
               Ret (r, (name, type, if r =? 0 then u64 (fs_pos + rd_count s) else pos), s)
           end
       end
     else match table_of v ≫= op_readdir with
          | None => Ret (-1, none, s)
          | Some readdir => readdir dir pos s
          end)%out.

(** * Metadata *)

Definition vfs_stat (s : vfs F) (a : Z) : outcome (option vfs_stat_t) :=
  (if a =? 0 then Ret None
   else
     do v <- inode_of s a;
     Ret (Some (mk_vstat (vi_mode v) (vi_uid v) (vi_gid v) (vi_size v) (vi_ctime v) (vi_mtime v) (vi_atime v) (vi_ino v) (vi_nlink v))))%out.

Definition vfs_chmod (s : vfs F) (a mode : Z) : outcome (Z * vfs F) :=
  (if a =? 0 then Ret (-1, s)
   else
     do v <- inode_of s a;
     match table_of v ≫= op_chmod with
     | None => Ret (-1, s)
     | Some chmod => chmod a mode s
     end)%out.
End vfs.
