(* ===== verification/Devfs.v ===== *)
(** The device file system, src/fs/devfs/devfs.c with the devices of std.c and blk.c: nodes
    and lists in a store by address, and the tables through which the virtual file system
    (Vfs.v) reaches them. *)

From S2P Require Import Prelude Bytes LibMem LibString NetBuf DiskDrivers Blockdev Vfs.

Definition FT_CHRDEV : Z := 3.
Definition FT_BLKDEV : Z := 4.

(** * Data *)

(** [device_driver_t]; the functions of the drivers there are. *)
Inductive read_fn := StdinRead.
Inductive write_fn := StdoutWrite | StderrWrite.
Record device_driver := mk_driver {
  dr_name : list Z;
  dr_read : option read_fn;
  dr_write : option write_fn;
  dr_blocks : bool
}.

(** [devfs_node_t] *)
Record devfs_node := mk_node {
  dn_name : list Z;
  dn_type : Z;
  dn_driver : Z;
  dn_private : Z;
  dn_next : Z;
  dn_parent : Z;
  dn_inode : Z;
  dn_parent_inode : Z
}.

Definition with_dn_next (n : devfs_node) (a : Z) : devfs_node :=
  mk_node (dn_name n) (dn_type n) (dn_driver n) (dn_private n) a (dn_parent n) (dn_inode n) (dn_parent_inode n).
Definition with_dn_inode (n : devfs_node) (a : Z) : devfs_node :=
  mk_node (dn_name n) (dn_type n) (dn_driver n) (dn_private n) (dn_next n) (dn_parent n) a (dn_parent_inode n).
Definition with_dn_parent (n : devfs_node) (a : Z) : devfs_node :=
  mk_node (dn_name n) (dn_type n) (dn_driver n) (dn_private n) (dn_next n) (dn_parent n) (dn_inode n) a.

(** [devfs_dir_list_t] *)
Record devfs_dir_list := mk_dlist { dl_first : Z; dl_last : Z; dl_count : Z }.

(** The blocks, [driver_list] and [devfs_root], and what the devices act on: the values that
    [kbd_getchar] will return (-1 for none), the characters shown, and the disks. *)
Record devfs (M : Type) := mk_devfs {
  dv_nodes : gmap Z devfs_node;
  dv_lists : gmap Z devfs_dir_list;
  dv_drivers : gmap Z device_driver;
  driver_list : list Z;
  devfs_root : Z;
  keys : list Z;
  term_out : list Z;
  term_err : list Z;
  disks : storage M
}.
Arguments mk_devfs {M}.
Arguments dv_nodes {M}. Arguments dv_lists {M}. Arguments dv_drivers {M}. Arguments driver_list {M}. Arguments devfs_root {M}.
Arguments keys {M}. Arguments term_out {M}. Arguments term_err {M}. Arguments disks {M}.

Section devfs.
Context {M : Type} `{DiskHw M}.

Definition with_nodes (d : devfs M) (x : gmap Z devfs_node) : devfs M :=
  mk_devfs x (dv_lists d) (dv_drivers d) (driver_list d) (devfs_root d) (keys d) (term_out d) (term_err d) (disks d).
Definition with_lists (d : devfs M) (x : gmap Z devfs_dir_list) : devfs M :=
  mk_devfs (dv_nodes d) x (dv_drivers d) (driver_list d) (devfs_root d) (keys d) (term_out d) (term_err d) (disks d).
Definition with_drivers (d : devfs M) (x : gmap Z device_driver) (l : list Z) : devfs M :=
  mk_devfs (dv_nodes d) (dv_lists d) x l (devfs_root d) (keys d) (term_out d) (term_err d) (disks d).
Definition with_devfs_root (d : devfs M) (a : Z) : devfs M :=
  mk_devfs (dv_nodes d) (dv_lists d) (dv_drivers d) (driver_list d) a (keys d) (term_out d) (term_err d) (disks d).
Definition with_io (d : devfs M) (k o e : list Z) (st : storage M) : devfs M :=
  mk_devfs (dv_nodes d) (dv_lists d) (dv_drivers d) (driver_list d) (devfs_root d) k o e st.

(** An access to the node at [a]; a new block. *)
Definition node_of (s : vfs (devfs M)) (a : Z) : outcome devfs_node := of_option (dv_nodes (fsd s) !! a).
Definition set_node (s : vfs (devfs M)) (a : Z) (n : devfs_node) : vfs (devfs M) := with_fsd s (with_nodes (fsd s) (<[a := n]> (dv_nodes (fsd s)))).
Definition list_of (s : vfs (devfs M)) (a : Z) : outcome devfs_dir_list := of_option (dv_lists (fsd s) !! a).
Definition set_list (s : vfs (devfs M)) (a : Z) (l : devfs_dir_list) : vfs (devfs M) := with_fsd s (with_lists (fsd s) (<[a := l]> (dv_lists (fsd s)))).
Definition new_block (s : vfs (devfs M)) : Z * vfs (devfs M) := (brk s, with_brk s (brk s + 1)).

(** The fields of an inode that a driver sets. *)
Definition dev_inode (mode private : Z) : vfs_inode := mk_vinode mode 0 0 0 0 0 0 0 0 1 1 1 private false.

(** [get_dir_list]: the address of the list, 0 for NULL. *)
Definition get_dir_list (s : vfs (devfs M)) (dir : Z) : outcome Z :=
  (if dir =? 0 then Ret 0
   else
     do v <- inode_of s dir;
     if vi_private v =? 0 then Ret 0
     else
       do n <- node_of s (vi_private v);
       Ret (if negb (dn_type n =? FT_DIR) then 0 else dn_private n))%out.

Definition devfs_get_dir_list (s : vfs (devfs M)) (dir : Z) : outcome Z :=
  (if dir =? 0 then Ret 0
   else do v <- inode_of s dir; if negb (vi_mode v =? FT_DIR) then Ret 0 else get_dir_list s dir)%out.

Definition devfs_get_name (a max_len : Z) (s : vfs (devfs M)) : outcome (Z * list Z * vfs (devfs M)) :=
  (if a =? 0 then Ret (-1, [], s)
   else
     do v <- inode_of s a;
     if vi_private v =? 0 then Ret (-1, [], s)
     else do n <- node_of s (vi_private v); Ret (0, take (Z.to_nat (max_len - 1)) (dn_name n), s))%out.

Definition devfs_parent (a : Z) (s : vfs (devfs M)) : outcome (Z * Z * vfs (devfs M)) :=
  (if a =? 0 then Ret (-1, 0, s)
   else
     do v <- inode_of s a;
     if vi_private v =? 0 then Ret (-1, 0, s)
     else
       do n <- node_of s (vi_private v);
       Ret (0, if negb (dn_parent_inode n =? 0) then dn_parent_inode n else root_inode s, s))%out.

(** [devfs_create_dir] *)
Definition devfs_create_dir (s : vfs (devfs M)) (name : list Z) : Z * vfs (devfs M) :=
  let '(dir, s) := vfs_alloc_inode s in
  let '(node, s) := new_block s in
  let '(lst, s) := new_block s in
  let s := set_list s lst (mk_dlist 0 0 0) in
  let s := set_node s node (mk_node (take 31 name) FT_DIR 0 lst 0 0 dir 0) in
  (dir, set_inode s dir (dev_inode FT_DIR node)).

(** [devfs_add_to_dir] *)
Definition devfs_add_to_dir (s : vfs (devfs M)) (dir : Z) (name : list Z) (type drv private : Z) : outcome (vfs (devfs M)) :=
  (if dir =? 0 then Ret s
   else
     do v <- inode_of s dir;
     if vi_private v =? 0 then Ret s
     else
       do p <- node_of s (vi_private v);
       if negb (dn_type p =? FT_DIR) || (dn_private p =? 0) then Ret s
       else
         do l <- list_of s (dn_private p);
         let '(e, s) := new_block s in
         let sub := (type =? FT_DIR) && negb (private =? 0) in
         let s := set_node s e (mk_node (take 31 name) type drv private 0 (vi_private v) (if sub then private else 0) dir) in
         do s <-
           (if sub then
              do w <- inode_of s private;
              if vi_private w =? 0 then Ret s
              else do n <- node_of s (vi_private w); Ret (set_node s (vi_private w) (with_dn_parent n dir))
            else Ret s);
         if negb (dl_last l =? 0) then
           do n <- node_of s (dl_last l);
           let s := set_node s (dl_last l) (with_dn_next n e) in
           Ret (set_list s (dn_private p) (mk_dlist (dl_first l) e (dl_count l + 1)))
         else Ret (set_list s (dn_private p) (mk_dlist e e (dl_count l + 1))))%out.

Definition devfs_mknod_in (s : vfs (devfs M)) (dir : Z) (name : list Z) (type drv private : Z) : outcome (Z * vfs (devfs M)) :=
  (do s <- devfs_add_to_dir s dir name type drv private; Ret (0, s))%out.

(** The loop of [devfs_lookup]: the entry with the name, 0 when there is none. *)
Fixpoint find_node (n : nat) (s : vfs (devfs M)) (entry : Z) (name : list Z) : outcome Z :=
  (if entry =? 0 then Ret 0
   else match n with
        | O => Crash
        | S n' =>
            do e <- node_of s entry;
            if bool_decide (dn_name e = name) then Ret entry else find_node n' s (dn_next e) name
        end)%out.

(** Steps for a walk over distinct nodes. *)
Definition node_fuel (s : vfs (devfs M)) : nat := S (size (dv_nodes (fsd s))).

Definition devfs_lookup (dir : Z) (name : list Z) (s : vfs (devfs M)) : outcome (Z * Z * vfs (devfs M)) :=
  (do lst <- get_dir_list s dir;
   if lst =? 0 then Ret (-1, 0, s)
   else
     do l <- list_of s lst;
     do entry <- find_node (node_fuel s) s (dl_first l) name;
     if entry =? 0 then Ret (-1, 0, s)
     else
       do e <- node_of s entry;
       if negb (dn_inode e =? 0) then Ret (0, dn_inode e, s)
       else
         let '(a, s) := vfs_alloc_inode s in
         let s := set_inode s a (dev_inode (dn_type e) entry) in
         Ret (0, a, set_node s entry (with_dn_inode e a)))%out.

(** The loop of [devfs_readdir]. *)
Fixpoint nth_node (n : nat) (s : vfs (devfs M)) (entry idx pos : Z) : outcome Z :=
  (if entry =? 0 then Ret 0
   else match n with
        | O => Crash
        | S n' => do e <- node_of s entry; if idx =? pos then Ret entry else nth_node n' s (dn_next e) (idx + 1) pos
        end)%out.

Definition devfs_readdir (dir pos : Z) (s : vfs (devfs M)) : outcome (Z * (list Z * Z * Z) * vfs (devfs M)) :=
  (do lst <- get_dir_list s dir;
   if lst =? 0 then Ret (-1, ([], 0, pos), s)
   else
     do l <- list_of s lst;
     if dl_count l <=? pos then Ret (-1, ([], 0, pos), s)
     else
       do entry <- nth_node (node_fuel s) s (dl_first l) 0 pos;
       if entry =? 0 then Ret (-1, ([], 0, pos), s)
       else do e <- node_of s entry; Ret (0, (dn_name e, dn_type e, pos + 1), s))%out.

Definition devfs_register_driver (s : vfs (devfs M)) (drv : Z) : Z * vfs (devfs M) :=
  (0, with_fsd s (with_drivers (fsd s) (dv_drivers (fsd s)) (drv :: driver_list (fsd s)))).

(** * The devices *)

Definition stdout_write (d : devfs M) (buf : list Z) : devfs M := with_io d (keys d) (term_out d ++ buf) (term_err d) (disks d).

Fixpoint until_nul (l : list Z) : list Z :=
  match l with
  | [] => []
  | c :: l' => if c =? 0 then [] else c :: until_nul l'
  end.

Definition stderr_write (d : devfs M) (buf : list Z) : devfs M :=
  with_io d (keys d) (term_out d) (term_err d ++ until_nul (take 1023 buf)) (disks d).

(** [stdin_read]: it waits for a key as long as there is none; [Crash] when no key comes. *)
Fixpoint stdin_from (ks : list Z) (count : Z) (acc : list Z) : outcome (list Z * list Z) :=
  if Z.of_nat (length acc) <? count then
    match ks with
    | [] => Crash
    | c :: ks' =>
        if c =? -1 then stdin_from ks' count acc
        else if c =? 10 then Ret (acc ++ [c], ks')
        else stdin_from ks' count (acc ++ [c])
    end
  else Ret (acc, ks).

Definition stdin_read (d : devfs M) (count : Z) : outcome (list Z * devfs M) :=
  (do '(bs, ks) <- stdin_from (keys d) count []; Ret (bs, with_io d ks (term_out d) (term_err d) (disks d)))%out.

Definition blk_read_blocks (d : devfs M) (dev lba count : Z) : outcome (option (list Z) * devfs M) :=
  (do '(r, st) <- blockdev_read 2 (disks d) dev lba count; Ret (r, with_io d (keys d) (term_out d) (term_err d) st))%out.

Definition blk_write_blocks (d : devfs M) (dev lba count : Z) (buf : list Z) : outcome (bool * devfs M) :=
  (do '(r, st) <- blockdev_write 2 (disks d) dev lba count buf; Ret (r, with_io d (keys d) (term_out d) (term_err d) st))%out.

(** The node and the driver of an inode, if it has both. *)
Definition device_of (s : vfs (devfs M)) (a : Z) : outcome (option (devfs_node * device_driver)) :=
  (if a =? 0 then Ret None
   else
     do v <- inode_of s a;
     if vi_private v =? 0 then Ret None
     else
       do e <- node_of s (vi_private v);
       if dn_driver e =? 0 then Ret None
       else do d <- of_option (dv_drivers (fsd s) !! dn_driver e); Ret (Some (e, d)))%out.

(** [devfs_read]: result code, bytes and state.  Whole sectors are read into the buffer of
    [size] bytes. *)
Definition devfs_read (a offset size : Z) (s : vfs (devfs M)) : outcome (Z * list Z * vfs (devfs M)) :=
  (do r <- device_of s a;
   match r with
   | None => Ret (-1, [], s)
   | Some (e, drv) =>
       if dn_type e =? FT_CHRDEV then
         match dr_read drv with
         | None => Ret (-1, [], s)
         | Some StdinRead => do '(bs, d) <- stdin_read (fsd s) size; Ret (0, bs, with_fsd s d)
         end
       else if dn_type e =? FT_BLKDEV then
         if negb (dr_blocks drv) then Ret (-1, [], s)
         else
           do '(r, d) <- blk_read_blocks (fsd s) (dn_private e) (offset / 512) (u32 (size + 511) / 512);
           let s := with_fsd s d in
           match r with
           | None => Ret (-1, [], s)
           | Some bs => if size <? Z.of_nat (length bs) then Crash else Ret (0, bs, s)
           end
       else Ret (-1, [], s)
   end)%out.

(** [devfs_write]: whole sectors are taken from the buffer. *)
Definition devfs_write (a offset : Z) (buf : list Z) (s : vfs (devfs M)) : outcome (Z * Z * vfs (devfs M)) :=
  (do r <- device_of s a;
   let size := Z.of_nat (length buf) in
   match r with
   | None => Ret (-1, 0, s)
   | Some (e, drv) =>
       if dn_type e =? FT_CHRDEV then
         match dr_write drv with
         | None => Ret (-1, 0, s)
         | Some StdoutWrite => Ret (0, size, with_fsd s (stdout_write (fsd s) buf))
         | Some StderrWrite => Ret (0, size, with_fsd s (stderr_write (fsd s) buf))
         end
       else if dn_type e =? FT_BLKDEV then
         if negb (dr_blocks drv) then Ret (-1, 0, s)
         else
           let count := u32 (size + 511) / 512 in
           if size <? count * 512 then Crash
           else
             do '(r, d) <- blk_write_blocks (fsd s) (dn_private e) (offset / 512) count buf;
             Ret (if r : bool then 0 else -1, if r then size else 0, with_fsd s d)
       else Ret (-1, 0, s)
   end)%out.

(** * The tables *)

Definition devfs_i_op : vfs_operations (devfs M) :=
  mk_ops (Some devfs_lookup) None None None None None None (Some devfs_readdir) (Some devfs_parent) (Some devfs_get_name) None.

Definition devfs_f_op : vfs_file_operations (devfs M) := mk_fops None None None.

#[export] Instance devfs_table : FsTable (devfs M) := {
  ops_of n := if n =? 1 then Some devfs_i_op else None;
  fops_of n := if n =? 1 then Some devfs_f_op else None;
  mount_of _ _ s := Ret (-1, 0, s);
  free_private a d :=
    match dv_nodes d !! a with Some _ => Ret (with_nodes d (delete a (dv_nodes d))) | None => Crash end;
  first_sector dev d :=
    (do '(r, st) <- blockdev_read 2 (disks d) dev 0 1; Ret (r, with_io d (keys d) (term_out d) (term_err d) st))%out
}.

(** * Initialisation *)

(** The static drivers of std.c have the addresses 1 to 3: "stdin", "stdout", "stderr". *)
Definition stdin_driver : device_driver := mk_driver [115; 116; 100; 105; 110] (Some StdinRead) None false.
Definition stdout_driver : device_driver := mk_driver [115; 116; 100; 111; 117; 116] None (Some StdoutWrite) false.
Definition stderr_driver : device_driver := mk_driver [115; 116; 100; 101; 114; 114] None (Some StderrWrite) false.

Definition devfs_init_std (s : vfs (devfs M)) (dir : Z) : outcome (vfs (devfs M)) :=
  (let d := fsd s in
   let s := with_fsd s (with_drivers d (<[3 := stderr_driver]> (<[2 := stdout_driver]> (<[1 := stdin_driver]> (dv_drivers d)))) (driver_list d)) in
   let '(_, s) := devfs_register_driver s 1 in
   let '(_, s) := devfs_register_driver s 2 in
   let '(_, s) := devfs_register_driver s 3 in
   do '(_, s) <- devfs_mknod_in s dir (dr_name stdin_driver) FT_CHRDEV 1 0;
   do '(_, s) <- devfs_mknod_in s dir (dr_name stdout_driver) FT_CHRDEV 2 0;
   do '(_, s) <- devfs_mknod_in s dir (dr_name stderr_driver) FT_CHRDEV 3 0;
   Ret s)%out.

(** The loop of [devfs_init_blk]: each device gets a driver of its own, called "block". *)
Fixpoint init_blk_from (devs : list Z) (s : vfs (devfs M)) (dir : Z) : outcome (vfs (devfs M)) :=
  (match devs with
   | [] => Ret s
   | dev :: devs' =>
       if dev =? 0 then init_blk_from devs' s dir
       else
         do b <- of_option (bdevs (disks (fsd s)) !! dev);
         let '(drv, s) := new_block s in
         let d := fsd s in
         let s := with_fsd s (with_drivers d (<[drv := mk_driver [98; 108; 111; 99; 107] None None true]> (dv_drivers d)) (driver_list d)) in
         do '(_, s) <- devfs_mknod_in s dir (take 31 (bd_name b)) FT_BLKDEV drv dev;
         init_blk_from devs' s dir
   end)%out.

Definition devfs_init_blk (s : vfs (devfs M)) (dir : Z) : outcome (vfs (devfs M)) :=
  (if dir =? 0 then Ret s
   else
     do lst <- devfs_get_dir_list s dir;
     if lst =? 0 then Ret s else init_blk_from (blockdev_get_list (disks (fsd s)) 16) s dir)%out.

(** "dev", "/dev", "blk", "std" and "/std" *)
Definition devfs_init (s : vfs (devfs M)) : outcome (vfs (devfs M)) :=
  (let '(dev, s) := devfs_create_dir s [100; 101; 118] in
   let s := with_fsd s (with_devfs_root (fsd s) dev) in
   do s <- vfs_mount_point s [47; 100; 101; 118] dev;
   let '(blk, s) := devfs_create_dir s [98; 108; 107] in
   do s <- devfs_add_to_dir s dev [98; 108; 107] FT_DIR 0 blk;
   do s <- devfs_init_blk s blk;
   let '(std, s) := devfs_create_dir s [115; 116; 100] in
   do s <- vfs_mount_point s [47; 115; 116; 100] std;
   devfs_init_std s std)%out.
End devfs.
