(* ===== verification/DevfsSpec.v ===== *)
(** Properties of the device file system (Devfs.v): a directory as the list of its nodes, what
    adding a node does, and the references that its lookups do not count. *)

From S2P Require Import Prelude Bytes LibMem LibString NetBuf DiskDrivers Blockdev Vfs Devfs.

(** * Lists of nodes *)

(** The nodes [l], linked by their [next] pointers from [first]. *)
Fixpoint nseg (m : gmap Z devfs_node) (first : Z) (l : list Z) : Prop :=
  match l with
  | [] => first = 0
  | a :: l' => first = a /\ a <> 0 /\ exists n, m !! a = Some n /\ nseg m (dn_next n) l'
  end.

Definition name_at (m : gmap Z devfs_node) (a : Z) : list Z := default [] (dn_name <$> m !! a).

Lemma name_at_some (m : gmap Z devfs_node) (a : Z) (n : devfs_node) : m !! a = Some n -> name_at m a = dn_name n.
Proof. intros E. unfold name_at. by rewrite E. Qed.

(** The first node with a name, 0 when there is none. *)
Fixpoint find_name_in (m : gmap Z devfs_node) (l : list Z) (name : list Z) : Z :=
  match l with
  | [] => 0
  | a :: l' => if bool_decide (name_at m a = name) then a else find_name_in m l' name
  end.

Lemma nseg_live (m : gmap Z devfs_node) (first : Z) (l : list Z) (a : Z) :
  nseg m first l -> a ∈ l -> a <> 0 /\ exists n, m !! a = Some n.
Proof.
  revert first. induction l as [|b l IH]; intros first Hs Ha; [by apply elem_of_nil in Ha |].
  destruct Hs as (_ & Hb & n & En & Hs). apply elem_of_cons in Ha as [-> | Ha]; [split; [done | by exists n] | by apply (IH (dn_next n))].
Qed.

(** A new node that is linked behind the last one. *)
Lemma nseg_snoc (m : gmap Z devfs_node) (first e : Z) (l : list Z) (z : Z) (n new : devfs_node) :
  nseg m first (l ++ [z]) -> NoDup (l ++ [z]) -> m !! z = Some n -> e <> 0 -> e ∉ l ++ [z] -> dn_next new = 0 ->
  nseg (<[z := with_dn_next n e]> (<[e := new]> m)) first (l ++ [z; e]).
Proof.
  revert first. induction l as [|b l IH]; intros first Hs Hnd En He Hfr Hnew; cbn [app nseg] in *.
  - destruct Hs as (-> & Hz & _). split; [done |]. split; [done |]. exists (with_dn_next n e). split; [apply lookup_insert_eq |].
    cbn. split; [done |]. split; [done |]. exists new. split; [| done].
    rewrite lookup_insert_ne by (intros ->; set_solver). apply lookup_insert_eq.
  - destruct Hs as (-> & Hb & n' & En' & Hs). apply NoDup_cons in Hnd as [Hbl Hnd]. split; [done |]. split; [done |]. exists n'. split.
    + rewrite !lookup_insert_ne; [done | set_solver | set_solver].
    + apply IH; try done. set_solver.
Qed.

Lemma nseg_ext (m m' : gmap Z devfs_node) (first : Z) (l : list Z) :
  (forall a n, a ∈ l -> m !! a = Some n -> exists n', m' !! a = Some n' /\ dn_next n' = dn_next n) -> nseg m first l -> nseg m' first l.
Proof.
  revert first. induction l as [|b l IH]; intros first Hx Hs; [done |]. destruct Hs as (-> & Hb & n & En & Hs).
  destruct (Hx b n (list_elem_of_here _ _) En) as (n' & En' & E). split; [done |]. split; [done |]. exists n'. split; [done |]. rewrite E.
  apply IH; [| done]. intros a k Ha. apply Hx. by apply list_elem_of_further.
Qed.

Section spec.
Context {M : Type} `{DiskHw M}.

(** The directory [dir] holds the nodes [l]; [lst] is its list, [p] its node. *)
Record dir_rep (s : vfs (devfs M)) (dir lst p : Z) (l : list Z) : Prop := mk_dir_rep {
  dp_dir : dir <> 0 /\ p <> 0 /\ lst <> 0;
  dp_inode : exists v, inodes s !! dir = Some v /\ vi_private v = p;
  dp_node : exists n, dv_nodes (fsd s) !! p = Some n /\ dn_type n = FT_DIR /\ dn_private n = lst;
  dp_list : exists d, dv_lists (fsd s) !! lst = Some d /\ nseg (dv_nodes (fsd s)) (dl_first d) l /\
    dl_last d = default 0 (last l) /\ dl_count d = Z.of_nat (length l);
  dp_nodup : NoDup (p :: l);
  dp_fresh : 0 < brk s /\ forall a n, dv_nodes (fsd s) !! a = Some n -> a < brk s
}.

Lemma get_dir_list_ok (s : vfs (devfs M)) (dir lst p : Z) (l : list Z) : dir_rep s dir lst p l -> get_dir_list s dir = Ret lst.
Proof.
  intros [(H0 & Hp & Hl) (v & Ev & Pv) (n & En & Tn & Pn) _ _ _]. unfold get_dir_list. replace (dir =? 0) with false by lia.
  unfold inode_of. rewrite Ev. cbn [of_option obind]. rewrite Pv. replace (p =? 0) with false by lia. unfold node_of. rewrite En.
  cbn [of_option obind]. rewrite Tn, Pn. reflexivity.
Qed.

Lemma find_node_ok (l : list Z) (n : nat) (s : vfs (devfs M)) (first : Z) (name : list Z) :
  nseg (dv_nodes (fsd s)) first l -> (length l <= n)%nat -> find_node n s first name = Ret (find_name_in (dv_nodes (fsd s)) l name).
Proof.
  revert n first. induction l as [|a l IH]; intros n first Hs Hn.
  - cbn [nseg] in Hs. subst first. destruct n; reflexivity.
  - destruct Hs as (-> & Ha & k & Ek & Hs). destruct n as [|n]; [cbn in Hn; lia |]. cbn [find_node find_name_in].
    replace (a =? 0) with false by lia. unfold node_of. rewrite (name_at_some _ _ _ Ek), Ek. cbn [of_option obind].
    case_bool_decide; [done |]. apply IH; [done | cbn in Hn; lia].
Qed.

Lemma nth_node_ok (l : list Z) (n : nat) (s : vfs (devfs M)) (first idx pos : Z) :
  nseg (dv_nodes (fsd s)) first l -> (length l <= n)%nat -> idx <= pos < idx + Z.of_nat (length l) ->
  nth_node n s first idx pos = Ret (nth (Z.to_nat (pos - idx)) l 0).
Proof.
  revert n first idx. induction l as [|a l IH]; intros n first idx Hs Hn Hp; [cbn in Hp; lia |].
  destruct Hs as (-> & Ha & k & Ek & Hs). destruct n as [|n]; [cbn in Hn; lia |]. cbn [nth_node].
  replace (a =? 0) with false by lia. unfold node_of. rewrite Ek. cbn [of_option obind]. destruct (Z.eqb_spec idx pos) as [-> | Hne].
  - by rewrite Z.sub_diag.
  - cbn [length] in *. rewrite (IH n (dn_next k) (idx + 1)) by (done || lia).
    replace (Z.to_nat (pos - idx)) with (S (Z.to_nat (pos - (idx + 1)))) by lia. done.
Qed.

(** The nodes of a directory fit in the store. *)
Lemma dir_rep_size (s : vfs (devfs M)) (dir lst p : Z) (l : list Z) : dir_rep s dir lst p l -> (length l <= node_fuel s)%nat.
Proof.
  intros [_ _ _ (d & _ & Hs & _) Hnd _]. apply NoDup_cons in Hnd as [_ Hnd]. unfold node_fuel.
  assert (Hin : list_to_set l ⊆ dom (dv_nodes (fsd s))).
  { intros a Ha. apply elem_of_list_to_set in Ha. destruct (nseg_live _ _ _ _ Hs Ha) as [_ [n En]]. by apply elem_of_dom_2 in En. }
  apply subseteq_size in Hin. rewrite size_list_to_set in Hin by done. rewrite <- size_dom. lia.
Qed.

Lemma find_name_app (m : gmap Z devfs_node) (l k : list Z) (name : list Z) :
  0 ∉ l -> find_name_in m (l ++ k) name = if find_name_in m l name =? 0 then find_name_in m k name else find_name_in m l name.
Proof.
  induction l as [|a l IH]; intros H0; [done |]. apply not_elem_of_cons in H0 as [Ha H0]. cbn [app find_name_in].
  case_bool_decide; [by replace (a =? 0) with false by lia | by apply IH].
Qed.

Lemma find_name_ext (m m' : gmap Z devfs_node) (l : list Z) (name : list Z) :
  (forall a, a ∈ l -> name_at m' a = name_at m a) -> find_name_in m' l name = find_name_in m l name.
Proof.
  induction l as [|a l IH]; intros Hx; [done |]. cbn [find_name_in]. rewrite (Hx a (list_elem_of_here _ _)), IH; [done |].
  intros b Hb. apply Hx. by apply list_elem_of_further.
Qed.

(** The store after a device node is added. *)
Lemma devfs_add_ok (s : vfs (devfs M)) (dir lst p : Z) (l : list Z) (name : list Z) (type drv private : Z) :
  dir_rep s dir lst p l -> type <> FT_DIR ->
  exists s', devfs_add_to_dir s dir name type drv private = Ret s' /\ dir_rep s' dir lst p (l ++ [brk s]) /\
    inodes s' = inodes s /\ brk s' = brk s + 1 /\
    dv_nodes (fsd s') !! brk s = Some (mk_node (take 31 name) type drv private 0 p 0 dir) /\
    (forall a n, a ∈ l -> dv_nodes (fsd s) !! a = Some n -> exists x, dv_nodes (fsd s') !! a = Some (with_dn_next n x)).
Proof.
  intros Hrep Ht. pose proof Hrep as [(H0 & Hp & Hl) (v & Ev & Pv) (n & En & Tn & Pn) (d & Ed & Hs & Elast & Ecnt) Hnd [Hb Hfr]].
  apply NoDup_cons in Hnd as [Hpl Hnd].
  assert (Hfresh : forall a, a ∈ p :: l -> a <> brk s).
  { intros a Ha ->. assert (exists k, dv_nodes (fsd s) !! brk s = Some k) as [k Ek].
    { apply elem_of_cons in Ha as [-> | Ha]; [by exists n | by destruct (nseg_live _ _ _ _ Hs Ha)]. }
    specialize (Hfr _ _ Ek). lia. }
  unfold devfs_add_to_dir. replace (dir =? 0) with false by lia. unfold inode_of. rewrite Ev. cbn [of_option obind]. rewrite Pv.
  replace (p =? 0) with false by lia. unfold node_of. rewrite En. cbn [of_option obind]. rewrite Tn, Pn.
  replace (lst =? 0) with false by lia. rewrite Z.eqb_refl. cbn [negb orb]. unfold list_of. rewrite Ed. cbn [of_option obind new_block].
  replace (type =? FT_DIR) with false by lia. cbn [andb obind]. set (new := mk_node _ _ _ _ _ _ _ _).
  destruct (last l) as [z|] eqn:Ez.
  - apply last_Some in Ez as [l0 ->]. cbn [default] in Elast. unfold id in Elast.
    assert (Hz : z ∈ l0 ++ [z]) by set_solver. destruct (nseg_live _ _ _ _ Hs Hz) as [Hz0 [nz Enz]].
    pose proof (Hfresh z ltac:(set_solver)) as Hzb. rewrite Elast. replace (z =? 0) with false by lia. cbn [negb].
    cbn [set_node with_fsd fsd with_nodes with_brk dv_nodes]. rewrite lookup_insert_ne, Enz by done. cbn [of_option obind].
    eexists. split; [done |]. cbn. split_and!; try done.
    + split; cbn; [done | by exists v | | | |].
      * exists n. rewrite !lookup_insert_ne; [done | by apply not_eq_sym, Hfresh; set_solver | intros <-; set_solver].
      * exists (mk_dlist (dl_first d) (brk s) (dl_count d + 1)). rewrite lookup_insert_eq. split; [done |]. cbn.
        rewrite <- app_assoc. cbn [app]. split; [| split].
        -- apply nseg_snoc; try done; [lia |]. intros Hx. apply (Hfresh (brk s)); [set_solver | done].
        -- by rewrite last_app.
        -- rewrite Ecnt, !length_app. cbn. lia.
      * apply NoDup_cons. split; [intros Hx; apply elem_of_app in Hx as [Hx | Hx]; [done |]; apply list_elem_of_singleton in Hx; by apply (Hfresh p); [set_solver | ] |].
        apply NoDup_app. split; [done |]. split; [| apply NoDup_singleton]. intros a Ha Hx. apply list_elem_of_singleton in Hx. apply (Hfresh a); [set_solver | done].
      * split; [lia |]. intros a k Ea. destruct (decide (a = z)) as [-> | Hne]; [specialize (Hfr _ _ Enz); lia |].
        rewrite lookup_insert_ne in Ea by done. destruct (decide (a = brk s)) as [-> | Hne']; [lia |].
        rewrite lookup_insert_ne in Ea by done. specialize (Hfr _ _ Ea). lia.
    + rewrite lookup_insert_ne by done. apply lookup_insert_eq.
    + intros a k Ha Ek. destruct (decide (a = z)) as [-> | Hne].
      * exists (brk s). rewrite lookup_insert_eq. congruence.
      * exists (dn_next k). rewrite !lookup_insert_ne; [rewrite Ek; by destruct k | by apply not_eq_sym, Hfresh; set_solver | done].
  - apply last_None in Ez as ->. cbn in Elast. rewrite Elast. cbn [Z.eqb negb]. eexists. split; [done |]. cbn. split_and!; try done.
    + split; cbn; [done | by exists v | | | |].
      * exists n. rewrite lookup_insert_ne; [done |]. by apply not_eq_sym, Hfresh; set_solver.
      * exists (mk_dlist (brk s) (brk s) (dl_count d + 1)). rewrite lookup_insert_eq. split; [done |]. cbn. split; [| split; [done |]].
        -- split; [done |]. split; [lia |]. exists new. by rewrite lookup_insert_eq.
        -- rewrite Ecnt. done.
      * apply NoDup_cons. split; [| apply NoDup_singleton]. intros Hx. apply list_elem_of_singleton in Hx. by apply (Hfresh p); [set_solver |].
      * split; [lia |]. intros a k Ea. destruct (decide (a = brk s)) as [-> | Hne']; [lia |].
        rewrite lookup_insert_ne in Ea by done. specialize (Hfr _ _ Ea). lia.
    + apply lookup_insert_eq.
    + intros a k Ha. by apply elem_of_nil in Ha.
Qed.

Lemma devfs_lookup_eq (s : vfs (devfs M)) (dir lst p : Z) (l : list Z) (name : list Z) :
  dir_rep s dir lst p l ->
  devfs_lookup dir name s =
  (let entry := find_name_in (dv_nodes (fsd s)) l name in
   if entry =? 0 then Ret (-1, 0, s)
   else
     do e <- node_of s entry;
     if negb (dn_inode e =? 0) then Ret (0, dn_inode e, s)
     else
       let '(a, s) := vfs_alloc_inode s in
       let s := set_inode s a (dev_inode (dn_type e) entry) in
       Ret (0, a, set_node s entry (with_dn_inode e a)))%out.
Proof.
  intros Hrep. unfold devfs_lookup. rewrite (get_dir_list_ok _ _ _ _ _ Hrep). cbn [obind].
  pose proof (dir_rep_size _ _ _ _ _ Hrep) as Hsz. destruct Hrep as [(_ & _ & Hl) _ _ (d & Ed & Hs & _) _ _].
  replace (lst =? 0) with false by lia. unfold list_of. rewrite Ed. cbn [of_option obind].
  rewrite (find_node_ok l) by done. done.
Qed.

Lemma zero_not_in (m : gmap Z devfs_node) (first : Z) (l : list Z) : nseg m first l -> 0 ∉ l.
Proof. intros Hs H0. by destruct (nseg_live _ _ _ _ Hs H0). Qed.

(** Creating a device node under a new name appends it to the directory: [devfs_readdir]
    lists it at the next position, a lookup of the name makes an inode of its type for it,
    and every other name is looked up as before. *)
Theorem devfs_mknod_spec (s : vfs (devfs M)) (dir lst p : Z) (l : list Z) (name : list Z) (type drv private : Z) :
  dir_rep s dir lst p l -> type <> FT_DIR -> Forall (fun a => name_at (dv_nodes (fsd s)) a <> take 31 name) l ->
  exists s', devfs_mknod_in s dir name type drv private = Ret (0, s') /\ dir_rep s' dir lst p (l ++ [brk s]) /\
    devfs_readdir dir (Z.of_nat (length l)) s' = Ret (0, (take 31 name, type, Z.of_nat (length l) + 1), s') /\
    (exists a s2, devfs_lookup dir (take 31 name) s' = Ret (0, a, s2) /\ inodes s2 !! a = Some (dev_inode type (brk s)) /\ inodes s' !! a = inodes s !! a) /\
    (forall name', name' <> take 31 name ->
       find_name_in (dv_nodes (fsd s')) (l ++ [brk s]) name' = find_name_in (dv_nodes (fsd s)) l name').
Proof.
  intros Hrep Ht Hnew. destruct (devfs_add_ok s dir lst p l name type drv private Hrep Ht) as (s' & E & Hrep' & Hin & Hbrk & Ee & Hold).
  assert (Hseg : exists first, nseg (dv_nodes (fsd s)) first l) by (destruct Hrep as [_ _ _ (d & _ & Hs & _) _ _]; by eexists).
  destruct Hseg as [first Hseg]. pose proof (zero_not_in _ _ _ Hseg) as H0.
  assert (Hname : forall a, a ∈ l -> name_at (dv_nodes (fsd s')) a = name_at (dv_nodes (fsd s)) a).
  { intros a Ha. destruct (nseg_live _ _ _ _ Hseg Ha) as [_ [n En]]. destruct (Hold a n Ha En) as [x Ex].
    by rewrite (name_at_some _ _ _ En), (name_at_some _ _ _ Ex). }
  pose proof (name_at_some _ _ _ Ee) as Ename. cbn [dn_name] in Ename. destruct Hrep as [_ _ _ _ _ [Hb _]].
  assert (Hnone : find_name_in (dv_nodes (fsd s)) l (take 31 name) = 0).
  { clear -Hnew. induction Hnew as [|a l Ha _ IH]; [done |]. cbn. by rewrite bool_decide_eq_false_2. }
  exists s'. unfold devfs_mknod_in. rewrite E. cbn [obind]. split; [done |]. split; [done |]. split; [| split].
  - unfold devfs_readdir. rewrite (get_dir_list_ok _ _ _ _ _ Hrep'). cbn [obind]. pose proof (dir_rep_size _ _ _ _ _ Hrep') as Hsz.
    destruct Hrep' as [(_ & _ & Hl) _ _ (d & Ed & Hs & _ & Ecnt) _ _]. replace (lst =? 0) with false by lia. unfold list_of. rewrite Ed.
    cbn [of_option obind]. rewrite length_app in Ecnt. cbn [length] in Ecnt. replace (dl_count d <=? _) with false by lia.
    rewrite (nth_node_ok (l ++ [brk s])); [| done | done | rewrite length_app; cbn [length]; lia]. rewrite Z.sub_0_r, Nat2Z.id. cbn [obind].
    rewrite nth_lookup, lookup_app_r, Nat.sub_diag by lia. cbn [lookup list_lookup default]. unfold id. replace (brk s =? 0) with false by lia.
    unfold node_of. rewrite Ee. done.
  - rewrite (devfs_lookup_eq s' dir lst p (l ++ [brk s])) by done. rewrite find_name_app, (find_name_ext (dv_nodes (fsd s))), Hnone by done.
    cbn [Z.eqb find_name_in]. rewrite Ename, bool_decide_eq_true_2 by done. cbv zeta. replace (brk s =? 0) with false by lia.
    unfold node_of. rewrite Ee. cbn [of_option obind dn_inode Z.eqb negb vfs_alloc_inode]. eexists _, _. split; [done |]. cbn. split; [apply lookup_insert_eq |].
    by rewrite Hin.
  - intros name' Hne. rewrite find_name_app, (find_name_ext (dv_nodes (fsd s))) by done. cbn [find_name_in].
    rewrite Ename, bool_decide_eq_false_2 by done. destruct (Z.eqb_spec (find_name_in (dv_nodes (fsd s)) l name') 0); congruence.
Qed.
End spec.

(** * References that are not counted *)

(** A kernel with a root directory at address 8 and no disks. *)
Definition dev_boot {M : Type} (m : M) : vfs (devfs M) :=
  mk_vfs {[8 := mk_vinode FT_DIR 0 0 0 0 0 0 0 0 0 0 1 0 false]} ∅ 16 8 8 8 [47] [] [] [] (-1) 0
    (mk_devfs ∅ ∅ ∅ [] 0 [] [] [] (mk_storage m ∅ [] 0 ∅ [] 0)).

(** "/dev/blk" and "/dev/blk/x" *)
Definition path_blk : list Z := [47; 100; 101; 118; 47; 98; 108; 107].
Definition path_blk_x : list Z := path_blk ++ [47; 120].

(** After [devfs_init] a walk to "/dev/blk" hands out the directory without counting the
    reference; when the caller drops it the directory is freed, its parent still points to
    it, and the next walk through it is a use of freed memory. *)
Theorem devfs_walk_use_after_free {M : Type} `{DiskHw M} (m : M) (fuel : nat) :
  exists s1 s2 s3 a, devfs_init (dev_boot m) = Ret s1 /\
    vfs_walk (S (S (S fuel))) s1 8 path_blk = Ret (0, a, s2) /\ inodes s2 !! a = inodes s1 !! a /\
    vfs_inode_unref s2 a = Ret s3 /\ inodes s3 !! a = None /\
    vfs_walk (S (S (S fuel))) s3 8 path_blk_x = Crash.
Proof.
  eexists _, _, _, _. split; [vm_compute; reflexivity |]. split; [vm_compute; reflexivity |]. split; [vm_compute; reflexivity |].
  split; [vm_compute; reflexivity |]. split; vm_compute; reflexivity.
Qed.
