(* ===== verification/VfsSpec.v ===== *)
(** Reference counts in the virtual file system (Vfs.v): what walking a path does to the
    inodes, for drivers that hand out a new inode with one reference on every lookup. *)

From S2P Require Import Prelude Bytes LibMem LibString Vfs.

(** * Drivers that count *)

Section grown.
Context {F : Type}.

(** The state after an operation that at most added inodes: [rk] does not grow. *)
Record grown (rk : vfs F -> Z -> nat) (s s' : vfs F) : Prop := mk_grown {
  gr_old : forall a v, inodes s !! a = Some v -> inodes s' !! a = Some v;
  gr_new : forall a, inodes s !! a = None -> is_Some (inodes s' !! a) -> brk s <= a;
  gr_brk : brk s <= brk s';
  gr_rank : forall a, is_Some (inodes s !! a) -> (rk s' a <= rk s a)%nat;
  gr_root : root_inode s' = root_inode s;
  gr_mounts : mounts s' = mounts s
}.

Lemma grown_refl (rk : vfs F -> Z -> nat) (s : vfs F) : grown rk s s.
Proof. split; try done. intros a E [v Ev]. congruence. Qed.

Lemma grown_trans (rk : vfs F -> Z -> nat) (s t u : vfs F) : grown rk s t -> grown rk t u -> grown rk s u.
Proof.
  intros [H1 H2 H3 H4 H5 H6] [K1 K2 K3 K4 K5 K6]. split; try congruence; try lia; [by eauto | |].
  - intros a E Hu. destruct (inodes t !! a) as [v|] eqn:Et; [by apply H2 |]. specialize (K2 a Et Hu). lia.
  - intros a [v Ev]. specialize (H4 a ltac:(by exists v)). specialize (K4 a ltac:(exists v; by apply H1)). lia.
Qed.
End grown.

(** During a walk that began in [s0]: the inodes of [s0] are as they were, except that the
    walk holds one more reference to [x], or the only one when [x] is new. *)
Record kept {F : Type} (s0 s : vfs F) (x : option Z) : Prop := mk_kept {
  kp_old : forall a v, inodes s0 !! a = Some v ->
    inodes s !! a = Some (if decide (x = Some a) then with_refs v (i_refcount v + 1) else v);
  kp_held : forall c, x = Some c -> inodes s0 !! c = None -> exists w, inodes s !! c = Some w /\ i_refcount w = 1;
  kp_new : forall a, inodes s0 !! a = None -> is_Some (inodes s !! a) -> brk s0 <= a;
  kp_brk : brk s0 <= brk s;
  kp_root : root_inode s = root_inode s0;
  kp_mounts : mounts s = mounts s0
}.

(** Every inode is referenced, and the counts are not about to wrap; mount points exist. *)
Definition counted {F : Type} (s : vfs F) : Prop :=
  (forall a v, inodes s !! a = Some v -> 0 < i_refcount v < 2 ^ 32 - 1) /\
  Forall (fun m => m.2 = 0 \/ is_Some (inodes s !! m.2)) (mounts s).

Section kept.
Context {F : Type}.

Lemma kept_start (s : vfs F) : kept s s None.
Proof. split; try done. intros a E [v Ev]. congruence. Qed.

Lemma kept_grown (rk : vfs F -> Z -> nat) (s0 s s' : vfs F) (x : option Z) :
  kept s0 s x -> grown rk s s' -> kept s0 s' x.
Proof.
  intros [H1 H2 H3 H4 H5 H6] [K1 K2 K3 K4 K5 K6]. split; try congruence; try lia; [by eauto | |].
  - intros c Hc E. destruct (H2 c Hc E) as (w & Ew & Hw). exists w. split; [by apply K1 | done].
  - intros a E Ha. destruct (inodes s !! a) as [v|] eqn:Ev; [by apply H3 |]. specialize (K2 a Ev Ha). lia.
Qed.

Lemma kept_live (s0 s : vfs F) (c : Z) : kept s0 s (Some c) -> exists v, inodes s !! c = Some v.
Proof.
  intros [H1 H2 _ _ _ _]. destruct (inodes s0 !! c) as [v|] eqn:E; [by eexists; apply H1 |].
  destruct (H2 c eq_refl E) as (w & Ew & _). by exists w.
Qed.

Lemma kept_adopt (s0 s : vfs F) (b : Z) (w : vfs_inode) :
  kept s0 s None -> inodes s0 !! b = None -> inodes s !! b = Some w -> i_refcount w = 1 -> kept s0 s (Some b).
Proof.
  intros [H1 H2 H3 H4 H5 H6] E Ew Hw. split; try done.
  - intros a v Ea. rewrite decide_False by congruence. rewrite (H1 a v Ea). by rewrite decide_False.
  - intros c [= <-] _. by exists w.
Qed.
End kept.

(** [ff_ok] is the invariant of the driver; [ff_rank] bounds the way from an inode to the
    root by its [parent] operation, [ff_max] bounds the ranks. *)
Class FreshFs (F : Type) `{FsTable F} := {
  ff_ok : vfs F -> Prop;
  ff_rank : vfs F -> Z -> nat;
  ff_max : nat;
  ff_max_small : (ff_max <= 10)%nat;
  ff_bound s a v : ff_ok s -> inodes s !! a = Some v -> 0 < a < brk s;
  ff_rank_max s a : ff_ok s -> (ff_rank s a <= ff_max)%nat;
  ff_refs s a v n : ff_ok s -> inodes s !! a = Some v ->
    ff_ok (set_inode s a (with_refs v n)) /\ forall b, ff_rank (set_inode s a (with_refs v n)) b = ff_rank s b;
  ff_free s a v : ff_ok s -> inodes s !! a = Some v ->
    exists x, (if vi_private v =? 0 then Ret (fsd s) else free_private (vi_private v) (fsd s)) = Ret x /\
      ff_ok (with_fsd (with_inodes s (delete a (inodes s))) x);
  ff_lookup s a v f name : ff_ok s -> inodes s !! a = Some v -> table_of v ≫= op_lookup = Some f ->
    exists r b s', f a name s = Ret (r, b, s') /\ ff_ok s' /\ grown ff_rank s s' /\
      (r = 0 -> brk s <= b /\ exists w, inodes s' !! b = Some w /\ i_refcount w = 1);
  ff_get_name s a v f : ff_ok s -> inodes s !! a = Some v -> table_of v ≫= op_get_name = Some f ->
    exists r name s', f a NAME_MAX s = Ret (r, name, s') /\ ff_ok s' /\ grown ff_rank s s' /\ (r = 0 -> Z.of_nat (length name) < NAME_MAX);
  ff_parent s a v f : ff_ok s -> inodes s !! a = Some v -> table_of v ≫= op_parent = Some f ->
    exists r b s', f a s = Ret (r, b, s') /\ ff_ok s' /\ grown ff_rank s s' /\
      (r = 0 -> b = a \/ b = root_inode s \/ (is_Some (inodes s' !! b) /\ (ff_rank s' b < ff_rank s a)%nat))
}.

Section walk.
Context {F : Type} `{FreshFs F}.
Variable fuel : nat.
Hypothesis Hfuel : (ff_max < fuel)%nat.

(** * The path of an inode *)

Lemma vfs_parent_ok (s : vfs F) (a : Z) (v : vfs_inode) :
  ff_ok s -> inodes s !! a = Some v ->
  exists r b s', vfs_parent s a = Ret (r, b, s') /\ ff_ok s' /\ grown ff_rank s s' /\
    (r = 0 -> b = a \/ b = root_inode s \/ (is_Some (inodes s' !! b) /\ (ff_rank s' b < ff_rank s a)%nat)).
Proof.
  intros Hok Ev. pose proof (ff_bound s a v Hok Ev) as Hb. unfold vfs_parent. replace (a =? 0) with false by lia.
  destruct (Z.eqb_spec a (root_inode s)) as [E | E].
  { exists 0, (root_inode s), s. split_and!; [done | done | apply grown_refl |]. intros _. by right; left. }
  unfold inode_of. rewrite Ev. cbn [of_option obind]. destruct (table_of v ≫= op_parent) as [f|] eqn:Ef.
  - exact (ff_parent s a v f Hok Ev Ef).
  - exists (-1), 0, s. split_and!; [done | done | apply grown_refl | done].
Qed.

(** The names that are collected are short, and there are at most as many as the rank says. *)
Definition short_names (k : nat) (l : list (list Z)) : Prop :=
  (length l <= k)%nat /\ Forall (fun name => Z.of_nat (length name) < NAME_MAX) l.

Lemma path_names_ok (n : nat) (s : vfs F) (a : Z) (comps : list (list Z)) (k : nat) :
  ff_ok s -> (is_Some (inodes s !! a) /\ (ff_rank s a < n)%nat \/ a = root_inode s) ->
  short_names k comps ->
  exists l s', path_names n s a comps = Ret (l, s') /\ ff_ok s' /\ grown ff_rank s s' /\ short_names (k + n) l.
Proof.
  revert s a comps k. induction n as [|n IH]; intros s a comps k Hok Ha Hc; cbn [path_names].
  all: destruct ((a =? 0) || (a =? root_inode s) || (256 <=? length comps)%nat) eqn:E.
  1, 3: exists comps, s; split_and!; [done | done | apply grown_refl | split; [destruct Hc; lia | apply Hc]].
  { exfalso. destruct Ha as [[_ Ha] | Ha]; lia. }
  assert (Hne : a <> root_inode s) by lia. destruct Ha as [[[v Ev] Hr] | Ha]; [| done].
  unfold inode_of. rewrite Ev. cbn [of_option obind].
  assert (Hn : exists comps' s1, match table_of v ≫= op_get_name with
      | None => Ret (comps, s)
      | Some get_name =>
          (do '(_, _, s) <- get_name a NAME_MAX s;
           do '(r, name, s) <- get_name a NAME_MAX s;
           Ret (if (r =? 0) && negb (bool_decide (name = [])) then comps ++ [name] else comps, s))%out
      end = Ret (comps', s1) /\ ff_ok s1 /\ grown ff_rank s s1 /\ short_names (S k) comps').
  { destruct (table_of v ≫= op_get_name) as [g|] eqn:Eg.
    - destruct (ff_get_name s a v g Hok Ev Eg) as (r1 & n1 & s1 & -> & Hok1 & G1 & _). cbn [obind].
      destruct (ff_get_name s1 a v g Hok1 (gr_old _ _ _ G1 _ _ Ev) Eg) as (r2 & n2 & s2 & -> & Hok2 & G2 & Hl). cbn [obind].
      eexists _, s2. split_and!; [done | done | by apply (grown_trans _ s s1) |]. destruct Hc as [Hc1 Hc2].
      destruct ((r2 =? 0) && _) eqn:Er; [| split; [lia | done]]. split; [rewrite length_app; cbn; lia |].
      apply Forall_app. split; [done |]. apply Forall_singleton, Hl. lia.
    - exists comps, s. split_and!; [done | done | apply grown_refl |]. destruct Hc. split; [lia | done]. }
  destruct Hn as (comps' & s1 & -> & Hok1 & G1 & Hc'). cbn [obind].
  destruct (vfs_parent_ok s1 a v Hok1 (gr_old _ _ _ G1 _ _ Ev)) as (r & b & s2 & -> & Hok2 & G2 & Hb). cbn [obind].
  pose proof (grown_trans _ _ _ _ G1 G2) as G.
  assert (Hdone : short_names (k + S n) comps') by (destruct Hc' as [??]; split; [lia | done]).
  destruct (Z.eqb_spec r 0) as [-> | _]; cbn [negb]; [| exists comps', s2; split_and!; done].
  destruct (Z.eqb_spec b a) as [-> | Hba]; [exists comps', s2; split_and!; done |].
  destruct (IH s2 b comps' (S k) Hok2) as (l & s3 & E3 & Hok3 & G3 & Hl); [| done |].
  - destruct (Hb eq_refl) as [-> | [-> | [Hl Hlt]]]; [done | right |].
    + by rewrite (gr_root _ _ _ G2), (gr_root _ _ _ G1).
    + left. split; [done |]. pose proof (gr_rank _ _ _ G1 a ltac:(by exists v)). lia.
  - exists l, s3. split_and!; [done | done | by apply (grown_trans _ s s2) |].
    by replace (k + S n)%nat with (S k + n)%nat by lia.
Qed.

(** More steps do not change the result. *)
Lemma path_names_more (n m : nat) (s : vfs F) (a : Z) (comps : list (list Z)) (r : list (list Z) * vfs F) :
  (n <= m)%nat -> path_names n s a comps = Ret r -> path_names m s a comps = Ret r.
Proof.
  revert m s a comps. induction n as [|n IH]; intros m s a comps Hm; cbn [path_names].
  - destruct m as [|m]; cbn [path_names]; destruct (_ || _ || _); done.
  - destruct m as [|m]; [lia |]. cbn [path_names]. destruct (_ || _ || _); [done |].
    destruct (inode_of s a) as [v| |]; cbn [obind]; [| done | done].
    destruct (match table_of v ≫= op_get_name with Some _ => _ | None => _ end) as [[c' s1]| |]; cbn [obind]; [| done | done].
    destruct (vfs_parent s1 a) as [[[q b] s2]| |]; cbn [obind]; [| done | done].
    destruct (negb (q =? 0)); [done |]. destruct (b =? a); [done |]. apply IH. lia.
Qed.

Lemma join_names_ok (first : bool) (names : list (list Z)) (max : Z) (buf : list Z) :
  Forall (fun name => Z.of_nat (length name) < NAME_MAX) names ->
  Z.of_nat (length buf) + NAME_MAX * Z.of_nat (length names) < max ->
  exists p, join_names first names max buf = Ret (Some p) /\
    Z.of_nat (length p) <= Z.of_nat (length buf) + NAME_MAX * Z.of_nat (length names).
Proof.
  intros HF. revert first buf. induction HF as [|name names Hn _ IH]; intros first buf Hb; cbn [join_names length] in *.
  { exists buf. split; [done | lia]. }
  unfold NAME_MAX in *. replace (max <=? _) with false by lia.
  destruct (IH false (buf ++ name ++ match names with [] => [] | _ => [47] end)) as (p & -> & Hp).
  { rewrite !length_app. destruct names; cbn [length] in *; lia. }
  exists p. split; [done |]. rewrite !length_app in Hp. destruct names; cbn [length] in *; lia.
Qed.

Lemma build_path_ok (s : vfs F) (a : Z) (v : vfs_inode) :
  ff_ok s -> inodes s !! a = Some v ->
  exists p s', vfs_build_path fuel s a PATH_MAX = Ret (Some p, s') /\ ff_ok s' /\ grown ff_rank s s' /\ Z.of_nat (length p) <= 3000.
Proof.
  intros Hok Ev. pose proof (ff_bound s a v Hok Ev) as Hb. unfold vfs_build_path.
  replace ((a =? 0) || (PATH_MAX <=? 0)) with false by (unfold PATH_MAX; lia).
  destruct (a =? root_inode s); [exists [47], s; split_and!; [done | done | apply grown_refl | done] |].
  pose proof (ff_rank_max s a Hok) as Hr. pose proof ff_max_small as Hm.
  destruct (path_names_ok (S ff_max) s a [] 0 Hok) as (l & s' & E & Hok' & G & Hl1 & Hl2).
  { left. split; [by exists v | lia]. } { by split. }
  rewrite (path_names_more (S ff_max) fuel s a [] (l, s')) by (done || lia). cbn [obind].
  destruct (join_names_ok true (rev l) PATH_MAX [47]) as (p & -> & Hp).
  { by apply Forall_rev. } { unfold PATH_MAX, NAME_MAX. rewrite length_rev. cbn [length]. lia. }
  exists p, s'. cbn [obind]. split_and!; try done. rewrite length_rev in Hp. unfold NAME_MAX in Hp. cbn [length] in Hp. lia.
Qed.

Lemma component_path_ok (s : vfs F) (a : Z) (v : vfs_inode) (comp : list Z) :
  ff_ok s -> inodes s !! a = Some v -> Z.of_nat (length comp) <= NAME_MAX ->
  exists p s', component_path fuel s a comp = Ret (p, s') /\ ff_ok s' /\ grown ff_rank s s'.
Proof.
  intros Hok Ev Hc. unfold component_path. destruct (a =? root_inode s); [eexists _, s; split_and!; [done | done | apply grown_refl] |].
  destruct (build_path_ok s a v Hok Ev) as (p & s' & -> & Hok' & G & Hp). cbn [obind]. unfold NAME_MAX, PATH_MAX in *.
  replace (4096 <=? _) with false; [by eexists _, s' |]. symmetry. apply Z.leb_gt. rewrite length_app.
  destruct (bool_decide _); rewrite ?length_app; cbn [length]; lia.
Qed.

(** * Taking and dropping references *)

Lemma kept_ref (s0 s : vfs F) (m : Z) (v : vfs_inode) :
  ff_ok s -> counted s0 -> kept s0 s None -> inodes s0 !! m = Some v ->
  exists s', vfs_inode_ref s m = Ret s' /\ ff_ok s' /\ kept s0 s' (Some m).
Proof.
  intros Hok [Hcnt _] [H1 H2 H3 H4 H5 H6] Ev. pose proof (H1 m v Ev) as Em. rewrite decide_False in Em by done.
  pose proof (ff_bound s m v Hok Em) as Hb. pose proof (Hcnt m v Ev) as Hn. unfold vfs_inode_ref. replace (m =? 0) with false by lia.
  unfold inode_of. rewrite Em. cbn [of_option obind]. rewrite wrap_small by (split; lia).
  eexists. split; [done |]. split; [by apply ff_refs |]. split; cbn; try done.
  - intros a w Ea. destruct (decide (a = m)) as [-> | Hne].
    + replace w with v by congruence. by rewrite lookup_insert_eq, decide_True.
    + rewrite lookup_insert_ne, decide_False by congruence. rewrite (H1 a w Ea). by rewrite decide_False.
  - intros c [= <-] E. congruence.
  - intros a E Ha. destruct (decide (a = m)) as [-> | Hne]; [congruence |]. rewrite lookup_insert_ne in Ha by done. by apply H3.
Qed.

Lemma kept_unref (s0 s : vfs F) (c : Z) :
  ff_ok s -> counted s0 -> kept s0 s (Some c) ->
  exists s', vfs_inode_unref s c = Ret s' /\ ff_ok s' /\ kept s0 s' None /\
    (forall b w, b <> c -> inodes s !! b = Some w -> inodes s' !! b = Some w).
Proof.
  intros Hok [Hcnt _] K. destruct (kept_live _ _ _ K) as [w Ew]. destruct K as [H1 H2 H3 H4 H5 H6].
  pose proof (ff_bound s c w Hok Ew) as Hb. unfold vfs_inode_unref. replace (c =? 0) with false by lia.
  unfold inode_of. rewrite Ew. cbn [of_option obind]. destruct (inodes s0 !! c) as [v|] eqn:Ev.
  - pose proof (H1 c v Ev) as Ec. rewrite decide_True in Ec by done. replace w with (with_refs v (i_refcount v + 1)) in * by congruence.
    pose proof (Hcnt c v Ev) as Hn. cbn [i_refcount with_refs].
    replace (u32 (i_refcount v + 1 - 1)) with (i_refcount v) by (rewrite wrap_small; [lia | split; lia]).
    replace (i_refcount v =? 0) with false by lia. eexists. split; [done |]. split; [by apply ff_refs |]. split.
    + split; cbn; try done.
      * intros a u Ea. rewrite decide_False by done. destruct (decide (a = c)) as [-> | Hne].
        -- rewrite lookup_insert_eq. replace u with v by congruence. by destruct v.
        -- rewrite lookup_insert_ne by done. rewrite (H1 a u Ea). by rewrite decide_False by congruence.
      * intros a E Ha. destruct (decide (a = c)) as [-> | Hne]; [congruence |]. rewrite lookup_insert_ne in Ha by done. by apply H3.
    + intros b u Hne Eb. cbn. by rewrite lookup_insert_ne.
  - destruct (H2 c eq_refl Ev) as (w' & Ew' & Hw). replace w' with w in * by congruence. rewrite Hw. change (u32 (1 - 1) =? 0) with true.
    destruct (ff_free s c w Hok Ew) as (x & -> & Hok'). cbn [obind]. eexists. split; [done |]. split; [done |]. split.
    + split; cbn; try done.
      * intros a u Ea. rewrite decide_False by done. assert (a <> c) by congruence. rewrite lookup_delete_ne by done.
        rewrite (H1 a u Ea). by rewrite decide_False by congruence.
      * intros a E Ha. destruct (decide (a = c)) as [-> | Hne]; [rewrite lookup_delete_eq in Ha; by destruct Ha |].
        rewrite lookup_delete_ne in Ha by done. by apply H3.
    + intros b u Hne Eb. cbn. by rewrite lookup_delete_ne.
Qed.

Lemma find_mount_live (s : vfs F) (l : list (list Z * Z)) (p : list Z) :
  Forall (fun m => m.2 = 0 \/ is_Some (inodes s !! m.2)) l -> find_mount l p <> 0 -> is_Some (inodes s !! find_mount l p).
Proof.
  induction 1 as [|[q a] l [Ha | Ha] _ IH]; cbn [find_mount] in *; [done | |]; destruct (bool_decide (q = p)); cbn in *; try done.
Qed.

(** * The walk *)

Definition plain (comp : list Z) : Prop := comp <> [46; 46] /\ Z.of_nat (length comp) <= NAME_MAX.

Lemma walk_from_ok (comps : list (list Z)) (s0 s : vfs F) (cur : Z) :
  ff_ok s -> counted s0 -> kept s0 s (Some cur) -> Forall plain comps ->
  exists r b s', walk_from fuel comps cur s = Ret (r, b, s') /\ ff_ok s' /\ kept s0 s' (if r =? 0 then Some b else None).
Proof.
  intros Hok Hcnt K HF. revert s cur Hok K. induction HF as [|comp comps [Hdd Hlen] _ IH]; intros s cur Hok K; cbn [walk_from].
  { exists 0, cur, s. by split_and!. }
  case_bool_decide as Ed; [by apply IH |]. rewrite (bool_decide_eq_false_2 (comp = [46; 46])) by done.
  destruct (kept_live _ _ _ K) as [v Ev].
  destruct (component_path_ok s cur v comp Hok Ev Hlen) as (p & s1 & -> & Hok1 & G1). cbn [obind].
  pose proof (kept_grown _ _ _ _ _ K G1) as K1. pose proof (gr_old _ _ _ G1 _ _ Ev) as Ev1.
  set (m := if bool_decide (p = []) then 0 else check_mount_points s1 p).
  destruct (Z.eqb_spec m 0) as [Em | Em]; cbn [negb].
  - unfold inode_of. rewrite Ev1. cbn [of_option obind]. destruct (table_of v ≫= op_lookup) as [f|] eqn:Ef.
    + destruct (ff_lookup s1 cur v f comp Hok1 Ev1 Ef) as (r & b & s2 & -> & Hok2 & G2 & Hb). cbn [obind].
      pose proof (kept_grown _ _ _ _ _ K1 G2) as K2.
      destruct (kept_unref s0 s2 cur Hok2 Hcnt K2) as (s3 & -> & Hok3 & K3 & Hsame). cbn [obind].
      destruct (Z.eqb_spec r 0) as [-> | Hr].
      * destruct (Hb eq_refl) as (Hfresh & w & Ew & Hw). pose proof (ff_bound s1 cur v Hok1 Ev1).
        apply IH; [done |]. apply (kept_adopt s0 s3 b w); [done | | by apply Hsame; [lia |] | done].
        destruct (inodes s0 !! b) as [u|] eqn:Eu; [| done]. exfalso.
        pose proof (ff_bound s1 b _ Hok1 (kp_old _ _ _ K1 b u Eu)). lia.
      * exists (-1), 0, s3. by split_and!.
    + destruct (kept_unref s0 s1 cur Hok1 Hcnt K1) as (s3 & -> & Hok3 & K3 & _). cbn [obind]. exists (-1), 0, s3. by split_and!.
  - assert (Hm : is_Some (inodes s0 !! m)).
    { unfold m, check_mount_points in *. destruct (bool_decide (p = [])); [done |]. rewrite (kp_mounts _ _ _ K1) in *.
      apply find_mount_live; [apply Hcnt | done]. }
    destruct Hm as [u Eu]. destruct (kept_unref s0 s1 cur Hok1 Hcnt K1) as (s2 & -> & Hok2 & K2 & _). cbn [obind].
    destruct (kept_ref s0 s2 m u Hok2 Hcnt K2 Eu) as (s3 & -> & Hok3 & K3). cbn [obind]. by apply IH.
Qed.

(** C23: On a driver whose lookups return new inodes with one reference ([FreshFs]: FAT32
    does, the device file system does not), walking a path without ".." returns; it leaves every inode that was there before as
    it was, except that the inode it hands out has one reference more, and an inode that
    is new has exactly one; when it fails, no reference is taken or lost. *)
Theorem vfs_walk_refs (s : vfs F) (dir : Z) (path : list Z) :
  ff_ok s -> counted s -> is_Some (inodes s !! dir) -> is_Some (inodes s !! root_inode s) ->
  Forall plain (components path) ->
  exists r b s', vfs_walk fuel s dir path = Ret (r, b, s') /\ ff_ok s' /\
    (forall a v, inodes s !! a = Some v ->
       inodes s' !! a = Some (if decide (r = 0 /\ a = b) then with_refs v (i_refcount v + 1) else v)) /\
    (r = 0 -> exists w, inodes s' !! b = Some w /\ (inodes s !! b = None -> i_refcount w = 1)).
Proof.
  intros Hok Hcnt [vd Ed] [vr Er] HF.
  assert (Hw : exists r b s', vfs_walk fuel s dir path = Ret (r, b, s') /\ ff_ok s' /\ kept s s' (if r =? 0 then Some b else None)).
  { pose proof (ff_bound s dir vd Hok Ed). unfold vfs_walk. replace (dir =? 0) with false by lia.
    destruct (bool_decide (path = []) || bool_decide (path = [47])).
    - set (a := if negb _ then _ else _).
      assert (Ha : is_Some (inodes s !! a)).
      { unfold a. destruct (Z.eqb_spec (check_mount_points s [47]) 0) as [E | E]; cbn [negb]; [by exists vr |].
        apply find_mount_live; [apply Hcnt | done]. }
      destruct Ha as [va Ea]. destruct (kept_ref s s a va Hok Hcnt (kept_start s) Ea) as (s' & -> & Hok' & K). cbn [obind].
      by exists 0, a, s'.
    - destruct (kept_ref s s dir vd Hok Hcnt (kept_start s) Ed) as (s' & -> & Hok' & K). cbn [obind]. by apply walk_from_ok. }
  destruct Hw as (r & b & s' & E & Hok' & K). exists r, b, s'. split_and!; [done | done | |].
  - intros a v Ea. rewrite (kp_old _ _ _ K a v Ea). destruct (Z.eqb_spec r 0) as [-> | Hr].
    + do 2 f_equal. destruct (decide (Some b = Some a)); destruct (decide (0 = 0 /\ a = b)); congruence || (exfalso; naive_solver).
    + rewrite !decide_False by naive_solver. done.
  - intros ->. cbn [Z.eqb] in K. destruct (kept_live _ _ _ K) as [w Ew]. exists w. split; [done |]. intros Hn.
    destruct (kp_held _ _ _ K b eq_refl Hn) as (w' & Ew' & Hw'). congruence.
Qed.
End walk.

(** * Paths that are not walked *)

Section bounds.
Context {F : Type} `{FsTable F}.
Variable fuel : nat.

Lemma last_slash_none (name : list Z) : 47 ∉ name -> last_slash name = None.
Proof.
  induction name as [|c name IH]; intros Hn; [done |]. apply not_elem_of_cons in Hn as [Hc Hn]. cbn [last_slash].
  rewrite (IH Hn). by replace (c =? 47) with false by lia.
Qed.

Lemma last_slash_app (dir name : list Z) : 47 ∉ name -> last_slash (dir ++ 47 :: name) = Some (dir, name).
Proof.
  intros Hn. induction dir as [|c dir IH]; cbn [app last_slash].
  - by rewrite (last_slash_none name Hn).
  - by rewrite IH.
Qed.

(** Creating "/name" resolves to the root and the name; a name of 255 or more characters
    is copied past the buffer on the stack before anything checks it. *)
Theorem vfs_create_name_bounds (s : vfs F) (dir : Z) (name : list Z) (mode : Z) (v : vfs_inode) :
  47 ∉ name -> name <> [] -> inodes s !! fs_root s = Some v -> fs_root s <> 0 ->
  (Z.of_nat (length name) < NAME_MAX ->
     vfs_resolve_path fuel s dir (47 :: name) =
     Ret (Some (fs_root s, name), set_inode s (fs_root s) (with_refs v (u32 (i_refcount v + 1))))) /\
  (NAME_MAX <= Z.of_nat (length name) -> vfs_create fuel s dir (47 :: name) mode = Crash).
Proof.
  intros Hn Hne Ev H0.
  assert (E : forall r, name_copy name = r -> vfs_resolve_path fuel s dir (47 :: name) =
    (do name <- r; Ret (Some (fs_root s, name), set_inode s (fs_root s) (with_refs v (u32 (i_refcount v + 1)))))%out).
  { intros r <-. unfold vfs_resolve_path. rewrite (bool_decide_eq_false_2 (47 :: name = [])) by done.
    rewrite (bool_decide_eq_false_2 (47 :: name = [47])) by congruence. cbn [orb head].
    rewrite bool_decide_eq_true_2 by done. cbn [negb andb].
    pose proof (last_slash_app [] name Hn) as Es. cbn [app] in Es. rewrite Es. rewrite bool_decide_eq_true_2 by done.
    unfold vfs_inode_ref. replace (fs_root s =? 0) with false by lia. unfold inode_of. by rewrite Ev. }
  unfold name_copy in E. split; intros Hl.
  - rewrite (E (Ret name)); [done |]. by replace (NAME_MAX <=? _) with false by lia.
  - unfold vfs_create, on_parent. rewrite (E Crash); [done |]. by replace (NAME_MAX <=? _) with true by lia.
Qed.

Lemma find_fs_none (l : list file_system) (name : list Z) : Forall (fun fs => fs_name fs <> name) l -> find_fs l name = None.
Proof. induction 1 as [|fs l Hf _ IH]; [done |]. cbn. by rewrite bool_decide_eq_false_2. Qed.

(** The file system that [detect_filesystem] recognises is not used: with an empty name
    the mount fails on every device that can be read, whatever drivers are registered, and
    with NULL it reads through the null pointer as soon as the volume is recognised. *)
Theorem vfs_mount_detection_unused (s : vfs F) (dev : Z) (r : option (list Z)) (s' : vfs F) :
  dev <> 0 -> Forall (fun fs => fs_name fs <> []) (fs_list s') -> detect_filesystem s dev = Ret (r, s') ->
  vfs_mount s (Some []) dev = Ret (-1, 0, s') /\
  (is_Some r -> fs_list s' <> [] -> vfs_mount s None dev = Crash).
Proof.
  intros Hd HF E. unfold vfs_mount. replace (dev =? 0) with false by lia. cbn [default from_option].
  rewrite !bool_decide_eq_true_2 by done. rewrite E. cbn [obind]. split.
  - destruct (bool_decide (is_Some r)); cbn [negb]; [| done]. destruct (fs_list s') as [|fs l] eqn:El; [done |].
    by rewrite (find_fs_none (fs :: l) []) by done.
  - intros Hr Hl. rewrite bool_decide_eq_true_2 by done. cbn [negb]. by destruct (fs_list s').
Qed.
End bounds.
