(* ===== verification/FatVfs.v ===== *)
(** FAT32 below the virtual file system: the tables [fat32_i_op] and [fat32_f_op] of
    src/fs/fat32.c, that is, how the operations of Fat32.v find the inode they are called
    with, allocate the inodes they hand out, and change the fields of an inode in place. *)

From S2P Require Import Prelude Bytes Buffer LibMem LibString SectorDev Fat32 Vfs.

(** One mounted volume, the private blocks of its inodes, and the time of the clock. *)
Record fatvol (D : Type) := mk_fatvol { fv_fs : fatfs D; fv_privs : gmap Z fat32_priv; fv_now : rtc }.
Arguments mk_fatvol {D}.
Arguments fv_fs {D}.
Arguments fv_privs {D}.
Arguments fv_now {D}.

Section fatvfs.
Context {D : Type} `{SectorDev D}.
Variable stk : Z -> Z.

Definition with_fs (s : vfs (fatvol D)) (fs : fatfs D) : vfs (fatvol D) :=
  with_fsd s (mk_fatvol fs (fv_privs (fsd s)) (fv_now (fsd s))).

Definition with_privs (s : vfs (fatvol D)) (m : gmap Z fat32_priv) : vfs (fatvol D) :=
  with_fsd s (mk_fatvol (fv_fs (fsd s)) m (fv_now (fsd s))).

(** An inode as the operations of the driver see it. *)
Definition fat_view (s : vfs (fatvol D)) (a : Z) : outcome inode :=
  (do v <- inode_of s a;
   do p <- of_option (fv_privs (fsd s) !! vi_private v);
   Ret (mk_inode (vi_mode v) (vi_size v) p))%out.

Definition with_mode_size (v : vfs_inode) (mode size : Z) : vfs_inode :=
  mk_vinode mode (vi_uid v) (vi_gid v) size (vi_ctime v) (vi_mtime v) (vi_atime v) (vi_ino v)
    (vi_nlink v) (i_op v) (i_fop v) (i_refcount v) (vi_private v) (i_dirty v).

(** The fields of an inode and of its private block after an operation. *)
Definition fat_put (s : vfs (fatvol D)) (a : Z) (ino : inode) : outcome (vfs (fatvol D)) :=
  (do v <- inode_of s a;
   let s := set_inode s a (with_mode_size v (i_mode ino) (i_size ino)) in
   Ret (with_privs s (<[vi_private v := i_private ino]> (fv_privs (fsd s)))))%out.

(** A new inode with its private block. *)
Definition fat_alloc (s : vfs (fatvol D)) (ino : inode) : Z * vfs (fatvol D) :=
  let '(a, s) := vfs_alloc_inode s in
  let p := brk s in
  let s := with_brk s (p + 1) in
  let s := with_privs s (<[p := i_private ino]> (fv_privs (fsd s))) in
  (a, set_inode s a (mk_vinode (i_mode ino) 0 0 (i_size ino) 0 0 0 0 0 1 1 1 p false)).

(** * The operations *)

Definition fatv_lookup (dir : Z) (name : list Z) (s : vfs (fatvol D)) : outcome (Z * Z * vfs (fatvol D)) :=
  (do ino <- fat_view s dir;
   do '(r, fs) <- fat32_lookup stk (fv_fs (fsd s)) ino name;
   let s := with_fs s fs in
   match r with
   | None => Ret (-1, 0, s)
   | Some x => let '(a, s) := fat_alloc s x in Ret (0, a, s)
   end)%out.

Definition fatv_create (dir : Z) (name : list Z) (mode : Z) (s : vfs (fatvol D)) : outcome (Z * Z * vfs (fatvol D)) :=
  (do ino <- fat_view s dir;
   do '(r, ino, fs) <- fat32_create stk (fv_fs (fsd s)) ino name mode (fv_now (fsd s));
   do s <- fat_put (with_fs s fs) dir ino;
   match r with
   | None => Ret (-1, 0, s)
   | Some x => let '(a, s) := fat_alloc s x in Ret (0, a, s)
   end)%out.

Definition fatv_mkdir (dir : Z) (name : list Z) (mode : Z) (s : vfs (fatvol D)) : outcome (Z * Z * vfs (fatvol D)) :=
  fatv_create dir name FT_DIR s.

(** The inode that the lookup inside allocates is freed again. *)
Definition fatv_unlink (dir : Z) (name : list Z) (s : vfs (fatvol D)) : outcome (Z * vfs (fatvol D)) :=
  (do ino <- fat_view s dir;
   do '(r, fs) <- fat32_unlink stk (fv_fs (fsd s)) ino name;
   Ret (if r : bool then 0 else -1, with_fs s fs))%out.

Definition fatv_rename (old_dir : Z) (old_name : list Z) (new_dir : Z) (new_name : list Z) (s : vfs (fatvol D))
    : outcome (Z * vfs (fatvol D)) :=
  (do o <- fat_view s old_dir;
   do n <- fat_view s new_dir;
   do '(r, n, fs) <- fat32_rename stk (fv_fs (fsd s)) o old_name n new_name;
   do s <- fat_put (with_fs s fs) new_dir n;
   Ret (if r : bool then 0 else -1, s))%out.

Definition fatv_chmod (a mode : Z) (s : vfs (fatvol D)) : outcome (Z * vfs (fatvol D)) :=
  (do ino <- fat_view s a; do s <- fat_put s a (fat32_chmod ino mode); Ret (0, s))%out.

Definition fatv_readdir (dir pos : Z) (s : vfs (fatvol D)) : outcome (Z * (list Z * Z * Z) * vfs (fatvol D)) :=
  (do ino <- fat_view s dir;
   do '(r, fs) <- fat32_readdir stk (fv_fs (fsd s)) ino pos;
   match r with
   | None => Ret (-1, ([], 0, pos), with_fs s fs)
   | Some (name, type, next) => Ret (0, (name, type, next), with_fs s fs)
   end)%out.

Definition fatv_parent (a : Z) (s : vfs (fatvol D)) : outcome (Z * Z * vfs (fatvol D)) :=
  (do ino <- fat_view s a;
   match fat32_parent (fs_fat (fv_fs (fsd s))) ino with
   | None => Ret (0, a, s)
   | Some x => let '(b, s) := fat_alloc s x in Ret (0, b, s)
   end)%out.

Definition fatv_get_name (a max_len : Z) (s : vfs (fatvol D)) : outcome (Z * list Z * vfs (fatvol D)) :=
  (do ino <- fat_view s a;
   do '(r, fs) <- fat32_get_name stk (fv_fs (fsd s)) ino;
   match r with
   | None => Ret (-1, [], with_fs s fs)
   | Some name => Ret (0, name, with_fs s fs)
   end)%out.

Definition fatv_read (a offset size : Z) (s : vfs (fatvol D)) : outcome (Z * list Z * vfs (fatvol D)) :=
  (do ino <- fat_view s a;
   do '(r, fs) <- fat32_read stk (fv_fs (fsd s)) ino offset size;
   match r with
   | None => Ret (-1, [], with_fs s fs)
   | Some bs => Ret (0, bs, with_fs s fs)
   end)%out.

Definition fatv_write (a offset : Z) (data : list Z) (s : vfs (fatvol D)) : outcome (Z * Z * vfs (fatvol D)) :=
  (do ino <- fat_view s a;
   do '(r, ino, fs) <- fat32_write stk (fv_fs (fsd s)) ino offset data (fv_now (fsd s));
   do s <- fat_put (with_fs s fs) a ino;
   match r with
   | None => Ret (-1, 0, s)
   | Some n => Ret (0, n, s)
   end)%out.

Definition fatv_sync (a : Z) (s : vfs (fatvol D)) : outcome (Z * vfs (fatvol D)) :=
  (do _ <- fat_view s a; do fs <- fat32_sync (fv_fs (fsd s)); Ret (0, with_fs s fs))%out.

(** * The tables *)

Definition fat32_i_op : vfs_operations (fatvol D) :=
  mk_ops (Some fatv_lookup) (Some fatv_create) (Some fatv_unlink) (Some fatv_mkdir) (Some fatv_unlink) (Some fatv_rename)
    (Some fatv_chmod) (Some fatv_readdir) (Some fatv_parent) (Some fatv_get_name) None.

Definition fat32_f_op : vfs_file_operations (fatvol D) := mk_fops (Some fatv_read) (Some fatv_write) (Some fatv_sync).

(** [fat32_mount] of the device below the volume. *)
Definition fatv_mount (dev : Z) (s : vfs (fatvol D)) : outcome (Z * Z * vfs (fatvol D)) :=
  (do '(r, d) <- fat32_mount stk (fs_dev (fv_fs (fsd s)));
   match r with
   | None => Ret (-1, 0, with_fs s (mk_fs d (fs_fat (fv_fs (fsd s)))))
   | Some (root, fs) => let '(a, s) := fat_alloc (with_fs s fs) root in Ret (0, a, s)
   end)%out.

Definition fat_table : FsTable (fatvol D) := {|
  ops_of n := if n =? 1 then Some fat32_i_op else None;
  fops_of n := if n =? 1 then Some fat32_f_op else None;
  mount_of _ dev s := fatv_mount dev s;
  free_private a d :=
    match fv_privs d !! a with Some _ => Ret (mk_fatvol (fv_fs d) (delete a (fv_privs d)) (fv_now d)) | None => Crash end;
  first_sector _ d :=
    (do '(r, dev) <- sd_read (fs_dev (fv_fs d)) 0 1; Ret (r, mk_fatvol (mk_fs dev (fs_fat (fv_fs d))) (fv_privs d) (fv_now d)))%out
|}.
End fatvfs.
