(* ===== verification/FatVfsSpec.v ===== *)
(** FAT32 below the virtual file system: lookups end on every volume whose table has no
    cycles, so the driver keeps the contract of VfsSpec.v; and what writing and reading
    through an open file do.  At the end the theorems about the virtual file system are
    applied to a small kernel: the volume of Fat32Demo.v with its root and one open file, and a
    device directory. *)

From S2P Require Import Prelude Bytes Buffer LibMem LibString SectorDev Fat32 Fat32Chain Fat32Data Fat32Dir Vfs VfsSpec FatVfs.

(** * Tables without cycles *)

(** Every walk along the table, from any number, ends in [n] steps. *)
Fixpoint ends (n : nat) (f : fat32) (c : Z) : bool :=
  negb (live c) ||
  match n with
  | O => false
  | S n' => match fat32_next_cluster f c with Ret c' => ends n' f c' | _ => false end
  end.

Definition acyclic (f : fat32) : Prop := forall c, ends (walk_fuel f) f c = true.

Lemma next_cluster_ret (f : fat32) (c : Z) :
  Z.of_nat (length (fat_cache f)) = fat_entries f -> exists n, fat32_next_cluster f c = Ret n.
Proof.
  intros Hl. unfold fat32_next_cluster. destruct ((c <? 2) || (fat_entries f <=? c)) eqn:E; [by eexists |].
  rewrite fat_get_in by (done || lia). cbn [obind].
  destruct (FAT32_EOC <=? _); [by eexists |]. destruct ((_ =? FAT32_FREE) || _); by eexists.
Qed.

(** It is enough to look at the clusters of the table. *)
Lemma acyclic_in_table (f : fat32) :
  Z.of_nat (length (fat_cache f)) = fat_entries f ->
  forallb (fun c => ends (walk_fuel f) f (Z.of_nat c)) (seq 0 (length (fat_cache f))) = true -> acyclic f.
Proof.
  intros Hl Hall c. rewrite forallb_forall in Hall. destruct (Z.ltb_spec c 2) as [Hc | Hc].
  - unfold walk_fuel. cbn [ends]. replace (fat32_next_cluster f c) with (Ret FAT32_EOC); [destruct (live c); done |].
    unfold fat32_next_cluster. by replace (c <? 2) with true by lia.
  - destruct (Z.ltb_spec c (fat_entries f)).
    + specialize (Hall (Z.to_nat c)). rewrite Z2Nat.id in Hall by lia. apply Hall, in_seq. lia.
    + unfold walk_fuel. cbn [ends]. replace (fat32_next_cluster f c) with (Ret FAT32_EOC); [destruct (live c); done |].
      unfold fat32_next_cluster. by replace ((c <? 2) || (fat_entries f <=? c)) with true by lia.
Qed.

(** A volume that can be read without a stop. *)
Record readable {D : Type} `{SectorDev D} (fs : fatfs D) : Prop := mk_readable {
  rb_holds : exists l, sd_holds (fs_dev fs) l;
  rb_spc : 0 < sectors_per_cluster (fs_fat fs) < 256;
  rb_bpc : bytes_per_cluster (fs_fat fs) = 512 * sectors_per_cluster (fs_fat fs);
  rb_len : Z.of_nat (length (fat_cache (fs_fat fs))) = fat_entries (fs_fat fs);
  rb_acyclic : acyclic (fs_fat fs)
}.

Section total.
Context {D : Type} `{SectorDev D}.
Variable stk : Z -> Z.

Lemma read_cluster_total (fs : fatfs D) (c : Z) (buf : list Z) :
  readable fs -> Z.of_nat (length buf) = bytes_per_cluster (fs_fat fs) ->
  exists ok buf' d, fat32_read_cluster fs c buf = Ret (ok, buf', mk_fs d (fs_fat fs)) /\ length buf' = length buf /\
    exists l, sd_holds d l.
Proof.
  intros [(l & Hh) Hs Hb Hl Ha] Hbuf. unfold fat32_read_cluster. destruct (c <? 2).
  { exists false, buf, (fs_dev fs). split; [by destruct fs | split; [done | by exists l]]. }
  unfold fat32_read_sectors. set (sec := cluster_sector (fs_fat fs) c).
  assert (Hsec : 0 <= sec < 2 ^ 32) by (unfold sec, cluster_sector; apply Z.mod_pos_bound; lia).
  destruct (sd_holds_ok _ _ Hh) as (_ & _ & Hlen & _).
  destruct (Z.leb_spec (sec + sectors_per_cluster (fs_fat fs)) (sd_total (fs_dev fs))) as [Hin | Hout].
  - destruct (sd_read_ok _ l sec (sectors_per_cluster (fs_fat fs)) Hh ltac:(lia) ltac:(lia) Hin) as (d & -> & Hh'). cbn [obind].
    pose proof (length_slice l (sec * 512) (sectors_per_cluster (fs_fat fs) * 512) ltac:(lia) ltac:(lia) ltac:(lia)) as Hsl.
    replace (_ <=? _)%nat with true by lia. eexists true, _, d. split; [done |]. split; [| by exists l].
    apply length_splice; lia.
  - rewrite (sd_read_beyond _ l) by (done || lia). cbn [obind]. exists false, buf, (fs_dev fs). split; [done |]. split; [done | by exists l].
Qed.

Lemma readable_dev (fs : fatfs D) (d : D) : readable fs -> (exists l, sd_holds d l) -> readable (mk_fs d (fs_fat fs)).
Proof. intros [_ H2 H3 H4 H5] Hl. by split. Qed.

Lemma lookup_from_total (fuel : nat) (fs : fatfs D) (dir : inode) (name : list Z) (c : Z) (buf : list Z) (index : Z) :
  readable fs -> Z.of_nat (length buf) = bytes_per_cluster (fs_fat fs) -> ends fuel (fs_fat fs) c = true ->
  exists r d, lookup_from fuel fs dir name c buf index = Ret (r, mk_fs d (fs_fat fs)) /\ exists l, sd_holds d l.
Proof.
  revert fs c buf index. induction fuel as [|fuel IH]; intros fs c buf index Hr Hb He; cbn [lookup_from ends] in *.
  all: destruct (live c) eqn:El; cbn [negb orb] in *; try done.
  1, 3: exists None, (fs_dev fs); split; [by destruct fs | apply Hr].
  destruct (read_cluster_total fs c buf Hr Hb) as (ok & buf' & d & -> & Hlen & Hh). cbn [obind].
  destruct ok; cbn [negb]; [| by exists None, d].
  destruct (lookup_scan _ 0 buf' name) as [|i|]; cbn [fs_fat]; [by exists None, d | by eexists (Some _), d |].
  destruct (next_cluster_ret (fs_fat fs) c (rb_len _ Hr)) as [n En]. rewrite En in *. cbn [obind].
  apply (IH (mk_fs d (fs_fat fs))); [by apply readable_dev | cbn; lia | done].
Qed.

Lemma fat32_lookup_ret (fs : fatfs D) (dir : inode) (name : list Z) :
  readable fs -> exists r d, fat32_lookup stk fs dir name = Ret (r, mk_fs d (fs_fat fs)) /\ exists l, sd_holds d l.
Proof.
  intros Hr. apply lookup_from_total; [done | | apply Hr]. pose proof (rb_spc _ Hr). pose proof (rb_bpc _ Hr).
  rewrite length_uninit. lia.
Qed.

(** A lookup returns on every volume whose table has no cycle, whatever the first cluster
    of the directory and whatever its sectors hold, and changes neither table nor geometry. *)
Theorem fat32_lookup_total (fs : fatfs D) (dir : inode) (name : list Z) :
  readable fs -> exists r d, fat32_lookup stk fs dir name = Ret (r, mk_fs d (fs_fat fs)) /\ readable (mk_fs d (fs_fat fs)).
Proof.
  intros Hr. destruct (fat32_lookup_ret fs dir name Hr) as (r & d & E & Hl). exists r, d. split; [done |]. by apply readable_dev.
Qed.

Lemma until_space_le (l : list Z) : (length (until_space l) <= length l)%nat.
Proof. induction l as [|c l IH]; cbn; [lia |]. destruct (c =? 32); cbn; lia. Qed.

Lemma c_string_le (l : list Z) : (length (c_string l) <= length l)%nat.
Proof. induction l as [|c l IH]; cbn; [lia |]. destruct (c =? 0); cbn; lia. Qed.

Lemma name_from_entry_le (e : list Z) : (length (fat32_name_from_entry e) <= 12)%nat.
Proof.
  unfold fat32_name_from_entry. pose proof (until_space_le (take 8 e)) as H1. rewrite length_take in H1.
  pose proof (until_space_le (take 3 (drop 8 e))) as H2. rewrite length_take in H2.
  destruct (_ =? 32); rewrite ?length_app, ?length_fmap; cbn [length]; lia.
Qed.

Lemma fat32_get_name_ret (fs : fatfs D) (ino : inode) :
  readable fs -> exists r d, fat32_get_name stk fs ino = Ret (r, mk_fs d (fs_fat fs)) /\ (exists l, sd_holds d l) /\
    (length (default [] r) <= 12)%nat.
Proof.
  intros Hr. unfold fat32_get_name. destruct (_ =? _).
  { exists (Some []), (fs_dev fs). split; [by destruct fs |]. split; [apply Hr | cbn; lia]. }
  pose proof (rb_spc _ Hr). pose proof (rb_bpc _ Hr).
  destruct (read_cluster_total fs (dir_cluster (i_private ino)) (uninit stk (bytes_per_cluster (fs_fat fs))) Hr) as (ok & buf & d & -> & _ & Hh);
    [rewrite length_uninit; lia |].
  cbn [obind]. destruct ok; cbn [negb]; [eexists (Some _), d | exists None, d]; (split; [done |]); (split; [done |]); cbn; [| lia].
  pose proof (c_string_le (fat32_name_from_entry (de_name buf (entry_offset (i_private ino))))). pose proof (name_from_entry_le (de_name buf (entry_offset (i_private ino)))). lia.
Qed.
End total.

(** * The contract of VfsSpec.v *)

Section contract.
Context {D : Type} `{SectorDev D}.
Variable stk : Z -> Z.

#[local] Instance fat_tbl : FsTable (fatvol D) := fat_table stk.

(** Every inode belongs to the driver and has a private block of its own. *)
Record fatv_ok (s : vfs (fatvol D)) : Prop := mk_fatv_ok {
  fk_vol : readable (fv_fs (fsd s));
  fk_brk : 0 < brk s;
  fk_inode : forall a v, inodes s !! a = Some v ->
    0 < a < brk s /\ i_op v = 1 /\ 0 < vi_private v < brk s /\ is_Some (fv_privs (fsd s) !! vi_private v);
  fk_inj : forall a b v w, inodes s !! a = Some v -> inodes s !! b = Some w -> vi_private v = vi_private w -> a = b
}.

(** Steps to the root: the root has itself as its parent, the parent of a parent is the root. *)
Definition priv_rank (f : fat32) (p : fat32_priv) : nat :=
  if first_cluster p =? root_cluster f then 0%nat else if parent_cluster p =? root_cluster f then 1%nat else 2%nat.

Definition fatv_rank (s : vfs (fatvol D)) (a : Z) : nat :=
  match inodes s !! a with
  | Some v => match fv_privs (fsd s) !! vi_private v with Some p => priv_rank (fs_fat (fv_fs (fsd s))) p | None => 0%nat end
  | None => 0%nat
  end.

Lemma fat_view_ok (s : vfs (fatvol D)) (a : Z) (v : vfs_inode) :
  fatv_ok s -> inodes s !! a = Some v ->
  exists p, fv_privs (fsd s) !! vi_private v = Some p /\ fat_view s a = Ret (mk_inode (vi_mode v) (vi_size v) p).
Proof.
  intros Hok Ev. destruct (fk_inode s Hok a v Ev) as (_ & _ & _ & [p Ep]). exists p. split; [done |].
  unfold fat_view, inode_of. rewrite Ev. cbn [of_option obind]. by rewrite Ep.
Qed.

(** The device has been read. *)
Lemma with_fs_ok (s : vfs (fatvol D)) (d : D) :
  fatv_ok s -> (exists l, sd_holds d l) ->
  let s' := with_fs s (mk_fs d (fs_fat (fv_fs (fsd s)))) in fatv_ok s' /\ grown fatv_rank s s'.
Proof.
  intros [H1 H2 H3 H4] Hl. cbv zeta. split.
  - split; cbn; try done. by apply readable_dev.
  - split; cbn; try done. intros a E [v Ev]. congruence.
Qed.

Lemma fat_alloc_ok (s : vfs (fatvol D)) (x : inode) :
  fatv_ok s -> let '(a, s') := fat_alloc s x in
  fatv_ok s' /\ grown fatv_rank s s' /\ a = brk s /\ fatv_rank s' a = priv_rank (fs_fat (fv_fs (fsd s))) (i_private x) /\
  exists w, inodes s' !! a = Some w /\ i_refcount w = 1.
Proof.
  intros [H1 H2 H3 H4]. unfold fat_alloc, vfs_alloc_inode. cbn.
  assert (Hn : forall a v, inodes s !! a = Some v -> a <> brk s /\ vi_private v <> brk s + 1).
  { intros a v Ev. destruct (H3 a v Ev) as (? & _ & ? & _). lia. }
  assert (Hold : forall a v, inodes s !! a = Some v ->
    (<[brk s := mk_vinode (i_mode x) 0 0 (i_size x) 0 0 0 0 0 1 1 1 (brk s + 1) false]> (<[brk s := blank_inode]> (inodes s))) !! a = Some v).
  { intros a v Ev. destruct (Hn a v Ev) as [Hne _]. by rewrite !lookup_insert_ne. }
  split_and!.
  - split; cbn; [done | lia | |].
    + intros a v Ev. destruct (decide (a = brk s)) as [-> | Hne].
      * rewrite lookup_insert_eq in Ev. injection Ev as <-. cbn. rewrite lookup_insert_eq. split_and!; try done; lia.
      * rewrite !lookup_insert_ne in Ev by done. destruct (H3 a v Ev) as (? & ? & ? & Hp). split_and!; try lia.
        rewrite lookup_insert_ne by lia. done.
    + intros a b v w Ea Eb E. destruct (decide (a = brk s)) as [-> | Ha]; destruct (decide (b = brk s)) as [-> | Hb]; [done | | |].
      * rewrite lookup_insert_eq in Ea. injection Ea as <-. rewrite !lookup_insert_ne in Eb by done. destruct (Hn b w Eb) as [_ Hp]. by destruct Hp.
      * rewrite lookup_insert_eq in Eb. injection Eb as <-. rewrite !lookup_insert_ne in Ea by done. destruct (Hn a v Ea) as [_ Hp]. by destruct Hp.
      * rewrite !lookup_insert_ne in Ea, Eb by done. by apply (H4 a b v w).
  - split; cbn; try done; [| lia |].
    + intros a E [v Ev]. destruct (decide (a = brk s)) as [-> | Hne]; [done |]. rewrite !lookup_insert_ne in Ev by done. congruence.
    + intros a [v Ev]. unfold fatv_rank. cbn. rewrite (Hold a v Ev), Ev. destruct (Hn a v Ev) as [_ Hp]. by rewrite lookup_insert_ne.
  - done.
  - unfold fatv_rank. cbn. rewrite lookup_insert_eq. cbn. by rewrite lookup_insert_eq.
  - eexists. split; [apply lookup_insert_eq | done].
Qed.

Lemma rank_le_two (f : fat32) (p : fat32_priv) : (priv_rank f p <= 2)%nat.
Proof. unfold priv_rank. destruct (_ =? _); [lia |]. destruct (_ =? _); lia. Qed.

#[export, refine] Instance fat_fresh : FreshFs (fatvol D) := {
  ff_ok := fatv_ok;
  ff_rank := fatv_rank;
  ff_max := 2
}.
Proof.
  - lia.
  - intros s a v Hok Ev. by apply (fk_inode s Hok a v).
  - intros s a Hok. unfold fatv_rank. destruct (inodes s !! a); [| lia]. destruct (_ !! _); [apply rank_le_two | lia].
  - intros s a v n Hok Ev. split.
    + destruct Hok as [H1 H2 H3 H4]. split; cbn; try done.
      * intros b w Eb. destruct (decide (b = a)) as [-> | Hne].
        -- rewrite lookup_insert_eq in Eb. injection Eb as <-. by apply (H3 a v).
        -- rewrite lookup_insert_ne in Eb by done. by apply (H3 b w).
      * intros b c w u Eb Ec E.
        assert (Hw : forall b w, <[a:=with_refs v n]> (inodes s) !! b = Some w -> exists w', inodes s !! b = Some w' /\ vi_private w' = vi_private w).
        { intros b' w' Ew. destruct (decide (b' = a)) as [-> | Hne].
          - rewrite lookup_insert_eq in Ew. injection Ew as <-. by exists v.
          - rewrite lookup_insert_ne in Ew by done. by exists w'. }
        destruct (Hw b w Eb) as (w' & Ew & Pw). destruct (Hw c u Ec) as (u' & Eu & Pu). apply (H4 b c w' u'); congruence.
    + intros b. unfold fatv_rank. cbn. destruct (decide (b = a)) as [-> | Hne]; [by rewrite lookup_insert_eq, Ev | by rewrite lookup_insert_ne].
  - intros s a v Hok Ev. destruct (fk_inode s Hok a v Ev) as (_ & _ & Hp & [p Ep]). replace (vi_private v =? 0) with false by lia.
    cbn [free_private fat_tbl fat_table]. rewrite Ep. eexists. split; [done |]. destruct Hok as [H1 H2 H3 H4]. split; cbn; try done.
    + intros b w Eb. apply lookup_delete_Some in Eb as [Hne Eb]. destruct (H3 b w Eb) as (? & ? & ? & ?). split_and!; try lia.
      rewrite lookup_delete_ne; [done |]. intros E. apply Hne. by apply (H4 a b v w).
    + intros b c w u Eb Ec. apply lookup_delete_Some in Eb as [_ Eb]. apply lookup_delete_Some in Ec as [_ Ec]. by apply H4.
  - intros s a v f name Hok Ev Ef. destruct (fk_inode s Hok a v Ev) as (Ha & Hop & _). unfold table_of in Ef. rewrite Hop in Ef.
    cbn in Ef. injection Ef as <-. destruct (fat_view_ok s a v Hok Ev) as (p & Ep & Eview). unfold fatv_lookup. rewrite Eview. cbn [obind].
    destruct (fat32_lookup_ret stk (fv_fs (fsd s)) (mk_inode (vi_mode v) (vi_size v) p) name (fk_vol s Hok)) as (r & d & -> & Hl). cbn [obind].
    destruct (with_fs_ok s d Hok Hl) as [Hok1 G1]. destruct r as [x|].
    + pose proof (fat_alloc_ok _ x Hok1) as Hal. destruct (fat_alloc _ x) as [b s']. destruct Hal as (Hok2 & G2 & -> & _ & Hw).
      eexists 0, _, s'. split; [done |]. split; [done |]. split; [by apply (grown_trans _ s _ s' G1) |]. intros _. split; [done | exact Hw].
    + eexists (-1), 0, _. split; [done |]. split; [done |]. split; [done |]. done.
  - intros s a v f Hok Ev Ef. destruct (fk_inode s Hok a v Ev) as (Ha & Hop & _). unfold table_of in Ef. rewrite Hop in Ef.
    cbn in Ef. injection Ef as <-. destruct (fat_view_ok s a v Hok Ev) as (p & Ep & Eview). unfold fatv_get_name. rewrite Eview. cbn [obind].
    destruct (fat32_get_name_ret stk (fv_fs (fsd s)) (mk_inode (vi_mode v) (vi_size v) p) (fk_vol s Hok)) as (r & d & -> & Hl & Hlen). cbn [obind].
    destruct (with_fs_ok s d Hok Hl) as [Hok1 G1]. destruct r as [x|].
    + eexists 0, x, _. split; [done |]. split; [done |]. split; [done |]. intros _. cbn in Hlen. unfold NAME_MAX. lia.
    + eexists (-1), [], _. split; [done |]. split; [done |]. split; [done |]. done.
  - intros s a v f Hok Ev Ef. destruct (fk_inode s Hok a v Ev) as (Ha & Hop & _). unfold table_of in Ef. rewrite Hop in Ef.
    cbn in Ef. injection Ef as <-. destruct (fat_view_ok s a v Hok Ev) as (p & Ep & Eview). unfold fatv_parent. rewrite Eview. cbn [obind].
    unfold fat32_parent. cbn [i_private]. destruct (Z.eqb_spec (first_cluster p) (root_cluster (fs_fat (fv_fs (fsd s))))) as [Er | Er].
    + exists 0, a, s. split; [done |]. split; [done |]. split; [apply grown_refl |]. by left.
    + pose proof (fat_alloc_ok s (mk_inode FT_DIR 0 (mk_priv (parent_cluster p) 0 0 (root_cluster (fs_fat (fv_fs (fsd s)))) 0)) Hok) as Hal.
      destruct (fat_alloc s _) as [b s']. destruct Hal as (Hok2 & G2 & -> & Hrk & w & Ew & _).
      eexists 0, _, s'. split; [done |]. split; [done |]. split; [done |]. intros _. right; right. split; [by exists w |].
      rewrite Hrk. unfold fatv_rank. rewrite Ev, Ep. unfold priv_rank. cbn [i_private first_cluster parent_cluster].
      replace (first_cluster p =? _) with false by lia. rewrite Z.eqb_refl. destruct (_ =? _); lia.
Defined.

(** * The parent of a mounted root *)

(** ".." in the root of a FAT32 volume that is a mount point leads back to that root, but
    the reference that the walk hands out is not counted: the state is the one before the
    call.  When the caller drops it, the last counted reference goes with it and the inode
    is freed while the mount table still points to it. *)
Theorem vfs_walk_dotdot_uncounted (fuel : nat) (s : vfs (fatvol D)) (a : Z) (v : vfs_inode) (p : fat32_priv) :
  inodes s !! a = Some v -> a <> 0 -> a <> root_inode s -> i_op v = 1 -> is_mounted s a = true ->
  fv_privs (fsd s) !! vi_private v = Some p -> first_cluster p = root_cluster (fs_fat (fv_fs (fsd s))) ->
  0 < i_refcount v < 2 ^ 32 - 1 ->
  vfs_walk fuel s a [46; 46] = Ret (0, a, s) /\
  (i_refcount v = 1 -> vi_private v <> 0 ->
     exists s', vfs_inode_unref s a = Ret s' /\ inodes s' !! a = None /\ is_mounted s' a = true).
Proof.
  intros Ev H0 Hr Ho Hm Ep Hroot Hn. split.
  - unfold vfs_walk. replace (a =? 0) with false by lia. cbn [orb]. rewrite !bool_decide_eq_false_2 by done. cbn [orb].
    unfold vfs_inode_ref. replace (a =? 0) with false by lia. unfold inode_of. rewrite Ev. cbn [of_option obind].
    rewrite (wrap_small 32) by (split; lia). set (s1 := set_inode s a _).
    assert (E1 : inodes s1 !! a = Some (with_refs v (i_refcount v + 1))) by apply lookup_insert_eq.
    change (components [46; 46]) with [[46; 46]]. cbn [walk_from]. rewrite bool_decide_eq_false_2, bool_decide_eq_true_2 by done.
    assert (Ep1 : vfs_parent s1 a = Ret (0, a, s1)).
    { unfold vfs_parent. replace (a =? 0) with false by lia. replace (a =? root_inode s1) with false by (cbn; lia).
      unfold inode_of. rewrite E1. cbn [of_option obind]. unfold table_of. cbn [with_refs i_op]. rewrite Ho.
      cbn [Z.eqb ops_of fat_tbl fat_table Pos.eqb mbind option_bind op_parent fat32_i_op].
      unfold fatv_parent, fat_view, inode_of. rewrite E1. cbn [of_option obind with_refs vi_private]. cbn [s1 set_inode with_inodes fsd].
      unfold s1. cbn [set_inode with_inodes fsd]. rewrite Ep. cbn [of_option obind]. unfold fat32_parent. cbn [i_private].
      by rewrite Hroot, Z.eqb_refl. }
    unfold get_parent_inode. replace (a =? 0) with false by lia. replace (a =? root_inode s1) with false by (cbn; lia).
    replace (is_mounted s1 a) with true by done. rewrite Ep1. cbn [obind Z.eqb]. unfold vfs_inode_unref. replace (a =? 0) with false by lia.
    unfold inode_of. rewrite E1. cbn [of_option obind with_refs i_refcount].
    replace (u32 (i_refcount v + 1 - 1)) with (i_refcount v) by (rewrite wrap_small; [lia | split; lia]).
    replace (i_refcount v =? 0) with false by lia. cbn [obind]. do 2 f_equal. unfold s1, set_inode, with_inodes. cbn.
    rewrite insert_insert_eq. rewrite insert_id; [by destruct s |]. rewrite Ev. by destruct v.
  - intros H1 Hp0. unfold vfs_inode_unref. replace (a =? 0) with false by lia. unfold inode_of. rewrite Ev. cbn [of_option obind].
    rewrite H1. change (u32 (1 - 1) =? 0) with true. replace (vi_private v =? 0) with false by lia.
    cbn [free_private fat_tbl fat_table]. rewrite Ep. cbn [obind]. eexists. split; [done |]. cbn. split; [apply lookup_delete_eq | done].
Qed.

(** * Files *)

(** The open file [f], its inode and the private block of that. *)
Record opened (s : vfs (fatvol D)) (f : Z) (file : vfs_file) (v : vfs_inode) (p : fat32_priv) : Prop := mk_opened {
  op_file : f <> 0 /\ ofiles s !! f = Some file;
  op_inode : f_inode file <> 0 /\ inodes s !! f_inode file = Some v;
  op_table : i_fop v = 1;
  op_private : fv_privs (fsd s) !! vi_private v = Some p
}.

Lemma vfs_write_ok (s : vfs (fatvol D)) (f : Z) (file : vfs_file) (v : vfs_inode) (p : fat32_priv) (l cs data : list Z) :
  let fs := fv_fs (fsd s) in
  let size := Z.of_nat (length data) in
  let v' := with_data v (vi_size v) true in
  opened s f file v p -> vol_ok fs l -> file_ok fs l (mk_inode (vi_mode v) (vi_size v) p) cs ->
  0 <= f_pos file -> 0 < size -> f_pos file + size <= vi_size v ->
  exists s' d l', vfs_write s f data = Ret (0, size, s') /\
    opened s' f (mk_vfile (f_inode file) (f_pos file + size) (f_flags file)) v' p /\
    ofiles s' = <[f := mk_vfile (f_inode file) (f_pos file + size) (f_flags file)]> (ofiles s) /\
    inodes s' = <[f_inode file := v']> (inodes s) /\ fv_fs (fsd s') = mk_fs d (fs_fat fs) /\
    vol_ok (mk_fs d (fs_fat fs)) l' /\ file_ok (mk_fs d (fs_fat fs)) l' (mk_inode (vi_mode v) (vi_size v) p) cs /\
    file_bytes (fs_fat fs) l' cs = splice (file_bytes (fs_fat fs) l cs) (f_pos file) data.
Proof.
  cbv zeta. intros [[Hf0 Ef] [Ha0 Ea] Ht Ep] Hv Hfi Hp Hs Hsz.
  destruct (write_inside_ok stk (fv_fs (fsd s)) l (mk_inode (vi_mode v) (vi_size v) p) cs (f_pos file) data (fv_now (fsd s)) Hv Hfi Hp Hs Hsz)
    as (d & l' & E & Hv' & Hfi' & Hfb & _).
  pose proof (fi_bound _ _ _ _ Hfi) as Hbd. cbn [i_size] in Hbd.
  unfold vfs_write. replace (f =? 0) with false by lia. unfold file_of. rewrite Ef. cbn [of_option obind].
  replace (f_inode file =? 0) with false by lia. unfold inode_of. rewrite Ea. cbn [of_option obind].
  unfold ftable_of. rewrite Ht. cbn [Z.eqb fops_of fat_tbl fat_table Pos.eqb mbind option_bind fop_write fat32_f_op].
  unfold fatv_write, fat_view, inode_of. rewrite Ea. cbn [of_option obind]. rewrite Ep. cbn [of_option obind]. rewrite E. cbn [obind].
  unfold fat_put, inode_of. cbn [with_fs with_fsd inodes fsd fv_privs]. rewrite Ea. cbn [of_option obind Z.eqb].
  cbn [with_privs with_fsd set_inode with_inodes inodes fsd i_mode i_size i_private fv_privs].
  rewrite lookup_insert_eq. cbn [of_option obind]. rewrite wrap_small by (split; lia). cbn [with_mode_size vi_size].
  replace (vi_size v <? _) with false by lia.
  eexists _, d, l'. split; [done |].
  assert (Ev : with_data (with_mode_size v (vi_mode v) (vi_size v)) (vi_size v) true = with_data v (vi_size v) true) by (by destruct v).
  split; [split; cbn |].
  - split; [done |]. by rewrite lookup_insert_eq.
  - split; [done |]. by rewrite lookup_insert_eq.
  - done.
  - by rewrite lookup_insert_eq.
  - split; [done |]. split; [cbn; rewrite insert_insert_eq; f_equal; exact Ev |]. by split_and!.
Qed.

(** C24: Through an open file on a FAT32 volume: a write that ends inside the file (it does
    not make the file longer) succeeds and moves the position, and after seeking back a read returns the bytes written; the volume stays
    well formed, no other file or inode of the virtual file system changes. *)
Theorem vfs_write_read (s : vfs (fatvol D)) (f : Z) (file : vfs_file) (v : vfs_inode) (p : fat32_priv) (l cs data : list Z) :
  let fs := fv_fs (fsd s) in
  let pos := f_pos file in
  let size := Z.of_nat (length data) in
  opened s f file v p -> vol_ok fs l -> file_ok fs l (mk_inode (vi_mode v) (vi_size v) p) cs ->
  0 <= pos -> 0 < size -> pos + size <= vi_size v ->
  exists s1 s2 s3, vfs_write s f data = Ret (0, size, s1) /\ vfs_seek s1 f pos 0 = Ret (0, s2) /\
    vfs_read s2 f size = Ret (0, data, s3) /\
    ofiles s3 = <[f := mk_vfile (f_inode file) (pos + size) (f_flags file)]> (ofiles s) /\
    inodes s3 = <[f_inode file := with_data v (vi_size v) true]> (inodes s) /\
    exists l', vol_ok (fv_fs (fsd s3)) l' /\ file_bytes (fs_fat fs) l' cs = splice (file_bytes (fs_fat fs) l cs) pos data.
Proof.
  cbv zeta. intros Hop Hv Hfi Hp Hs Hsz.
  destruct (vfs_write_ok s f file v p l cs data Hop Hv Hfi Hp Hs Hsz) as (s1 & d & l' & E1 & Hop1 & Hof & Hin & Hfs & Hv' & Hfi' & Hfb).
  exists s1. destruct Hop1 as [[Hf0 Ef] [Ha0 Ea] Ht Ep]. cbn [f_inode] in *.
  pose proof (fi_bound _ _ _ _ Hfi) as Hbd. cbn [i_size] in Hbd.
  eexists. unfold vfs_seek at 1. replace (f =? 0) with false by lia. unfold file_of. rewrite Ef. cbn [of_option obind f_inode f_flags].
  replace (f_inode file =? 0) with false by lia. cbn [Z.eqb].
  pose proof (length_file_bytes _ l cs Hv (fi_vol _ _ _ _ Hfi)) as L1. pose proof (length_file_bytes _ l' cs Hv' (fi_vol _ _ _ _ Hfi')) as L2.
  destruct (read_written_ok stk (mk_fs d (fs_fat (fv_fs (fsd s)))) l' _ cs (f_pos file) data (file_bytes (fs_fat (fv_fs (fsd s))) l cs) Hv' Hfi' Hp Hs Hsz Hfb)
    as (d' & E' & Hv''); [cbn [fs_fat] in *; lia |].
  eexists. split; [exact E1 |]. split; [done |]. unfold vfs_read. replace (f =? 0) with false by lia. unfold file_of.
  cbn [with_files ofiles inodes]. rewrite lookup_insert_eq. cbn [of_option obind f_inode f_pos f_flags]. replace (f_inode file =? 0) with false by lia.
  unfold inode_of. cbn [with_files inodes]. rewrite Ea. cbn [of_option obind]. unfold ftable_of. rewrite Ht.
  cbn [Z.eqb fops_of fat_tbl fat_table Pos.eqb mbind option_bind fop_read fat32_f_op].
  unfold fatv_read, fat_view, inode_of. cbn [with_files inodes fsd]. rewrite Ea. cbn [of_option obind]. rewrite Ep. cbn [of_option obind].
  cbn [with_data vi_mode vi_size]. rewrite Hfs, E'. cbn [obind Z.eqb]. rewrite wrap_small by (split; lia).
  split; [done |]. cbn [with_files with_fs with_fsd ofiles inodes fsd fv_fs]. rewrite Hof, !insert_insert_eq. split; [done |]. split; [done |].
  exists l'. split; [exact Hv'' | exact Hfb].
Qed.
End contract.

(** * A small kernel *)

From S2P Require Import Prelude Bytes Buffer LibMem LibString NetBuf Blockdev SectorDev Fat32 Fat32Chain Fat32Data Fat32Dir Fat32Demo.
From S2P Require Import Vfs Devfs DevfsSpec VfsSpec FatVfs.

#[local] Existing Instance fat_tbl.
#[local] Existing Instance fat_fresh.

(** The root at address 1, the file "a.txt" at 3, open as file 5 at position 510; with
    [mps] the mount points and [root] the root of the virtual file system. *)
Definition demo_inode (mode size refs private : Z) : vfs_inode := mk_vinode mode 0 0 size 0 0 0 0 0 1 1 refs private false.

Definition demo_vfs (mps : list (list Z * Z)) (root : Z) : vfs (fatvol (list Z)) :=
  mk_vfs {[1 := demo_inode FT_DIR 0 1 2; 3 := demo_inode FT_REG_FILE 700 1 4]} {[5 := mk_vfile 3 510 2]} 6 root 1 1 [47] mps [] [] (-1) 0
    (mk_fatvol demo_vol {[2 := mk_priv 2 0 0 2 0; 4 := mk_priv 3 2 0 2 0]} demo_now).

Lemma demo_acyclic : acyclic demo_fat.
Proof. apply acyclic_in_table; [done |]. vm_compute. reflexivity. Qed.

Lemma demo_readable : readable demo_vol.
Proof. split; [exists demo_disk; apply demo_vol_ok | done | done | done | exact demo_acyclic]. Qed.

Lemma demo_inodes (mps : list (list Z * Z)) (root a : Z) (v : vfs_inode) :
  inodes (demo_vfs mps root) !! a = Some v ->
  (a = 1 /\ v = demo_inode FT_DIR 0 1 2) \/ (a = 3 /\ v = demo_inode FT_REG_FILE 700 1 4).
Proof.
  cbn. intros E. apply lookup_insert_Some in E as [[<- <-] | [_ E]]; [by left |]. apply lookup_singleton_Some in E as [<- <-]. by right.
Qed.

Lemma demo_fatv_ok (mps : list (list Z * Z)) (root : Z) : fatv_ok (demo_vfs mps root).
Proof.
  split; [exact demo_readable | done | |].
  - intros a v Ev. destruct (demo_inodes mps root a v Ev) as [[-> ->] | [-> ->]]; cbn; (split; [lia |]); (split; [done |]); (split; [lia |]); by eexists.
  - intros a b v w Ea Eb. destruct (demo_inodes mps root a v Ea) as [[-> ->] | [-> ->]];
      destruct (demo_inodes mps root b w Eb) as [[-> ->] | [-> ->]]; cbn; done.
Qed.

Lemma demo_counted (mps : list (list Z * Z)) (root : Z) : Forall (fun m => m.2 = 1) mps -> counted (demo_vfs mps root).
Proof.
  intros HF. split.
  - intros a v Ev. destruct (demo_inodes mps root a v Ev) as [[_ ->] | [_ ->]]; cbn; lia.
  - cbn [demo_vfs mounts]. eapply Forall_impl; [exact HF |]. cbn. intros m ->. right. by eexists.
Qed.

Lemma vfs_walk_refs_witness :
  exists r b s', vfs_walk (F := fatvol (list Z)) (H := fat_tbl demo_stk) 3 (demo_vfs [] 1) 1 [97; 46; 116; 120; 116] = Ret (r, b, s') /\
    fatv_ok s'.
Proof.
  destruct (vfs_walk_refs (F := fatvol (list Z)) (H := fat_tbl demo_stk) (H0 := fat_fresh demo_stk) 3 ltac:(cbn; lia) (demo_vfs [] 1) 1
    [97; 46; 116; 120; 116] (demo_fatv_ok [] 1) (demo_counted [] 1 (Forall_nil_2 _)) ltac:(by eexists) ltac:(by eexists))
    as (r & b & s' & E & Hok & _).
  { change (components [97; 46; 116; 120; 116]) with [[97; 46; 116; 120; 116]]. apply Forall_singleton. split; [done | cbn; unfold NAME_MAX; lia]. }
  exists r, b, s'. split; [exact E | exact Hok].
Defined.

Lemma fat32_lookup_total_witness :
  exists r d, fat32_lookup demo_stk demo_vol demo_root [120] = Ret (r, mk_fs d demo_fat).
Proof.
  destruct (fat32_lookup_total demo_stk demo_vol demo_root [120] demo_readable) as (r & d & E & _). exists r, d. exact E.
Defined.

Lemma vfs_walk_dotdot_uncounted_witness :
  vfs_walk (F := fatvol (list Z)) (H := fat_tbl demo_stk) 3 (demo_vfs [([47; 109], 1)] 9) 1 [46; 46] = Ret (0, 1, demo_vfs [([47; 109], 1)] 9).
Proof.
  apply (vfs_walk_dotdot_uncounted demo_stk 3 (demo_vfs [([47; 109], 1)] 9) 1 (demo_inode FT_DIR 0 1 2) (mk_priv 2 0 0 2 0));
    first [reflexivity | discriminate | cbn; lia].
Defined.

Lemma vfs_write_read_witness :
  exists s1 s2 s3, vfs_write (F := fatvol (list Z)) (H := fat_tbl demo_stk) (demo_vfs [] 1) 5 [1; 2; 3; 4] = Ret (0, 4, s1) /\
    vfs_seek s1 5 510 0 = Ret (0, s2) /\ vfs_read (F := fatvol (list Z)) (H := fat_tbl demo_stk) s2 5 4 = Ret (0, [1; 2; 3; 4], s3).
Proof.
  destruct (vfs_write_read demo_stk (demo_vfs [] 1) 5 (mk_vfile 3 510 2) (demo_inode FT_REG_FILE 700 1 4) (mk_priv 3 2 0 2 0) demo_disk [3; 5]
    [1; 2; 3; 4]) as (s1 & s2 & s3 & E1 & E2 & E3 & _).
  - split; [done | done | done | done].
  - exact demo_vol_ok.
  - exact demo_file_ok.
  - cbn; lia.
  - cbn; lia.
  - cbn; lia.
  - exists s1, s2, s3. split; [exact E1 |]. split; [exact E2 | exact E3].
Defined.

Lemma vfs_create_name_bounds_witness :
  vfs_create (F := fatvol (list Z)) (H := fat_tbl demo_stk) 3 (demo_vfs [] 1) 1 (47 :: replicate 255 120) 1 = Crash.
Proof.
  apply (vfs_create_name_bounds (H := fat_tbl demo_stk) 3 (demo_vfs [] 1) 1 (replicate 255 120) 1 (demo_inode FT_DIR 0 1 2)).
  - intros Hx. apply elem_of_replicate in Hx as [Hx _]. discriminate Hx.
  - discriminate.
  - reflexivity.
  - discriminate.
  - rewrite length_replicate. unfold NAME_MAX. lia.
Defined.

Lemma vfs_mount_detection_unused_witness :
  vfs_mount (F := fatvol (list Z)) (H := fat_tbl demo_stk) (demo_vfs [] 1) (Some []) 7 = Ret (-1, 0, demo_vfs [] 1).
Proof.
  apply (vfs_mount_detection_unused (H := fat_tbl demo_stk) (demo_vfs [] 1) 7 None (demo_vfs [] 1)).
  - discriminate.
  - constructor.
  - vm_compute. reflexivity.
Defined.

(** A device directory at address 16, its node at 17 and its list at 18. *)
Definition demo_devfs : vfs (devfs unit) := (devfs_create_dir (dev_boot tt) [100]).2.

Lemma demo_dir_rep : dir_rep demo_devfs 16 18 17 [].
Proof.
  split; [done | by eexists | by eexists | by eexists | apply NoDup_singleton |].
  split; [done |]. intros a n E. assert (a = 17) as -> by (cbn in E; by apply lookup_singleton_Some in E as [<- _]). done.
Qed.

Lemma devfs_mknod_spec_witness :
  exists s', devfs_mknod_in demo_devfs 16 [110] FT_CHRDEV 1 0 = Ret (0, s') /\ dir_rep s' 16 18 17 [19] /\
    devfs_readdir 16 0 s' = Ret (0, ([110], FT_CHRDEV, 1), s').
Proof.
  destruct (devfs_mknod_spec demo_devfs 16 18 17 [] [110] FT_CHRDEV 1 0 demo_dir_rep ltac:(discriminate) (Forall_nil_2 _))
    as (s' & E1 & E2 & E3 & _).
  exists s'. split; [exact E1 |]. split; [exact E2 | exact E3].
Defined.
