(* ===== verification/Exfat.v ===== *)
(** The exFAT driver, src/fs/exfat.c: directories made of entry sets, the cluster table that
    is cached in memory, reading and writing files, creating, deleting and renaming, listing,
    mounting and formatting.  It runs on a block device given by the class of SectorDev.v.

    As in Fat32.v an inode is a value that goes in and comes back changed, the tests of the
    result of [malloc] are left out except where the size may be 0, and a buffer on the
    stack starts with the bytes [stk] says.  An access outside a buffer or the table is
    [Crash]; so is a division by a size of 0 and a shift by 32 or more. *)

From S2P Require Import Prelude Bytes Buffer SectorDev.

(** * Data *)

Definition EXFAT_FAT_FREE : Z := 0.
Definition EXFAT_FAT_END : Z := 0xFFFFFFFF.
Definition EXFAT_ENTRY_FILE : Z := 0x85.
Definition EXFAT_ENTRY_STREAM : Z := 0xC0.
Definition EXFAT_ENTRY_NAME : Z := 0xC1.
Definition EXFAT_ATTR_READ_ONLY : Z := 0x01.
Definition EXFAT_ATTR_DIRECTORY : Z := 0x10.
Definition FT_REG_FILE : Z := 1.
Definition FT_DIR : Z := 2.

(** [exfat_t]; of the boot sector the fields that are used after mounting. *)
Record exfat := mk_exfat {
  fat_offset : Z;
  fat_length : Z;
  bytes_per_sector : Z;
  sectors_per_cluster : Z;
  bytes_per_cluster : Z;
  fat_start : Z;
  cluster_heap_start : Z;
  root_cluster : Z;
  fat_cache : list Z;
  fat_entries : Z
}.

Definition with_cache (f : exfat) (cache : list Z) : exfat :=
  mk_exfat (fat_offset f) (fat_length f) (bytes_per_sector f) (sectors_per_cluster f) (bytes_per_cluster f)
    (fat_start f) (cluster_heap_start f) (root_cluster f) cache (fat_entries f).

(** [exfat_inode_private_t], without the pointer to the file system. *)
Record exfat_priv := mk_priv {
  first_cluster : Z;
  data_length : Z;
  dir_cluster : Z;
  dir_entry : Z;
  parent_cluster : Z
}.

(** The fields of [vfs_inode_t] the driver uses. *)
Record inode := mk_inode { i_mode : Z; i_size : Z; i_private : exfat_priv }.

Definition with_first (ino : inode) (c : Z) : inode :=
  let p := i_private ino in
  mk_inode (i_mode ino) (i_size ino) (mk_priv c (data_length p) (dir_cluster p) (dir_entry p) (parent_cluster p)).

Definition with_size (ino : inode) (n : Z) : inode := mk_inode (i_mode ino) n (i_private ino).

(** * The table of clusters *)

(** [fat_cache[c]] *)
Definition cache_get (f : exfat) (c : Z) : outcome Z := of_option (get_chk (fat_cache f) c).

Definition cache_set (f : exfat) (c v : Z) : outcome exfat :=
  (do l <- of_option (set_chk (fat_cache f) c v); Ret (with_cache f l))%out.

Definition exfat_next_cluster (f : exfat) (cluster : Z) : outcome Z :=
  if fat_entries f <=? cluster then Ret 0 else cache_get f cluster.

(** The condition of the loops over a chain. *)
Definition live (c : Z) : bool := (2 <=? c) && negb (c =? EXFAT_FAT_END).

(** The loop "Select a cluster": the first free one of [n] from [i], 0 for none. *)
Fixpoint free_from (n : nat) (i : Z) (f : exfat) : outcome Z :=
  (match n with
   | O => Ret 0
   | S n' => do v <- cache_get f i; if v =? EXFAT_FAT_FREE then Ret i else free_from n' (i + 1) f
   end)%out.

Definition free_cluster (f : exfat) : outcome Z := free_from (Z.to_nat (fat_entries f - 2)) 2 f.

(** [fat_cache[0] |= 1] *)
Definition set_dirty (f : exfat) : outcome exfat :=
  (do v <- cache_get f 0; cache_set f 0 (Z.lor v 1))%out.

Definition is_dirty (v : Z) : bool := negb (Z.land v 1 =? 0).

(** Steps for a walk that sees each cluster once. *)
Definition walk_fuel (f : exfat) : nat := S (S (length (fat_cache f))).

(** The loop "Freeing file clusters in FAT" of [exfat_unlink]. *)
Fixpoint free_chain (fuel : nat) (f : exfat) (cluster : Z) : outcome exfat :=
  (if live cluster then
     match fuel with
     | O => Crash
     | S fuel' =>
         do next <- exfat_next_cluster f cluster;
         do f <- cache_set f cluster EXFAT_FAT_FREE;
         free_chain fuel' f next
     end
   else Ret f)%out.

(** [exfat_time_to_unix] *)
Definition exfat_time_to_unix (t : Z) : Z :=
  let days := Z.land (Z.shiftr t 16) 0xFFFF in
  let seconds := u32 (Z.land t 0xFFFF * 2) in
  u64 (days * 86400 + seconds + 10 * 365 * 86400).

(** * Entry sets *)

(** The loop "Looking for stream entry": [n] entries from offset [p]. *)
Fixpoint find_stream (n : nat) (buf : list Z) (p : Z) : outcome (option Z) :=
  (match n with
   | O => Ret None
   | S n' =>
       do t <- fld buf p 1;
       if t =? EXFAT_ENTRY_STREAM then Ret (Some p) else find_stream n' buf (p + 32)
   end)%out.

(** The characters of one name entry, [n] of them from offset [p]: [add] puts one into the
    name. *)
Fixpoint name_chars (n : nat) (add : list Z -> Z -> outcome (list Z)) (buf : list Z) (p : Z) (acc : list Z)
    : outcome (list Z) :=
  (match n with
   | O => Ret acc
   | S n' =>
       do c <- fld buf p 2;
       if c =? 0 then Ret acc
       else
         do acc <- (if c <? 128 then add acc c else Ret acc);
         name_chars n' add buf (p + 2) acc
   end)%out.

(** The loop over the name entries: [n] entries from [p], until [stop]. *)
Fixpoint name_entries (n : nat) (add : list Z -> Z -> outcome (list Z)) (stop : list Z -> bool) (buf : list Z) (p : Z)
    (acc : list Z) : outcome (list Z) :=
  (match n with
   | O => Ret acc
   | S n' =>
       if stop acc then Ret acc
       else
         do t <- fld buf p 1;
         do acc <- (if t =? EXFAT_ENTRY_NAME then name_chars 15 add buf (p + 2) acc else Ret acc);
         name_entries n' add stop buf (p + 32) acc
   end)%out.

Definition len (l : list Z) : Z := Z.of_nat (length l).

(** [name[name_len++] = c] with [cap] bytes of room, and the guarded one of readdir. *)
Definition add_to (cap : Z) (acc : list Z) (c : Z) : outcome (list Z) :=
  if len acc <? cap then Ret (acc ++ [c]) else Crash.

Definition add_guarded (acc : list Z) (c : Z) : outcome (list Z) := Ret (if len acc <? 255 then acc ++ [c] else acc).

(** [name[name_len] = 0] *)
Definition ended (cap : Z) (acc : list Z) : outcome (list Z) := if len acc <? cap then Ret acc else Crash.

(** "Looking for a name": [ascii_name] of the set of [count] entries whose stream entry is
    at [s]. *)
Definition ascii_name (buf : list Z) (s count : Z) : outcome (list Z) :=
  (do acc <- name_entries (Z.to_nat (count - 1)) (add_to 256) (fun acc => negb (len acc <? 255)) buf (s + 32) [];
   ended 256 acc)%out.

(** One step of the loop over a cluster at offset [p]: where to go on, or the stream entry
    of the set that has the name. *)
Definition scan_step (buf name : list Z) (p type : Z) : outcome (Z + Z) :=
  (do count <- fld buf (p + 1) 1;
   let next := p + 32 * u8 (count + 1) in
   if type =? EXFAT_ENTRY_FILE then
     do r <- find_stream (Z.to_nat count) buf (p + 32);
     match r with
     | None => Ret (inl (p + 32 * (count + 1)))
     | Some s =>
         do n <- ascii_name buf s count;
         Ret (if bool_decide (n = name) then inr s else inl next)
     end
   else Ret (inl next))%out.

(** The loop over a cluster: the offsets of the file entry and of its stream entry. *)
Fixpoint scan (fuel : nat) (buf name : list Z) (p : Z) : outcome (option (Z * Z)) :=
  (if p <? len buf then
     match fuel with
     | O => Crash
     | S fuel' =>
         do type <- fld buf p 1;
         if type =? 0 then Ret None
         else
           do r <- scan_step buf name p type;
           match r with
           | inl p' => scan fuel' buf name p'
           | inr s => Ret (Some (p, s))
           end
     end
   else Ret None)%out.

(** Enough when every step goes forward by an entry. *)
Definition scan_fuel (buf : list Z) : nat := S (Z.to_nat (len buf / 32)).

(** The first entry whose type is 0, among [n] from [i]. *)
Fixpoint free_entry (n : nat) (i : Z) (buf : list Z) : outcome (option Z) :=
  (match n with
   | O => Ret None
   | S n' => do t <- fld buf (32 * i) 1; if t =? 0 then Ret (Some i) else free_entry n' (i + 1) buf
   end)%out.

(** The three entries of a new file or directory.  A [char] is signed. *)
Definition file_entry (attr : Z) : list Z := [EXFAT_ENTRY_FILE; 2; 0; 0] ++ le_bytes 2 attr ++ replicate 26 0.

Definition stream_entry (name_length cluster : Z) : list Z :=
  [EXFAT_ENTRY_STREAM; 0; 0; u8 name_length] ++ replicate 16 0 ++ le_bytes 4 cluster ++ le_bytes 8 0.

Definition name_field (name : list Z) : list Z :=
  take 30 (concat ((fun c => [c; if 128 <=? c then 0xFF else 0]) <$> take 15 name) ++ replicate 30 0).

Definition name_entry (name : list Z) : list Z := [EXFAT_ENTRY_NAME; 0] ++ name_field name.

Definition put_entries (buf : list Z) (o attr : Z) (name : list Z) (cluster : Z) : outcome (list Z) :=
  (do buf <- poke buf o (file_entry attr);
   do buf <- poke buf (o + 32) (stream_entry (len name) cluster);
   poke buf (o + 64) (name_entry name))%out.

(** "Mark all entries as free": [n] entries from offset [p]. *)
Fixpoint clear_entries (n : nat) (buf : list Z) (p : Z) : outcome (list Z) :=
  (match n with
   | O => Ret buf
   | S n' => do buf <- poke buf p [0]; clear_entries n' buf (p + 32)
   end)%out.

(** [n] bytes from offset [o]. *)
Definition part (l : list Z) (o n : Z) : outcome (list Z) :=
  if (0 <=? o) && (o + n <=? len l) then Ret (slice l o n) else Crash.

(** * The file system on its device *)

Record exfs (D : Type) := mk_exfs { ex_dev : D; ex : exfat }.
Arguments mk_exfs {D}.
Arguments ex_dev {D}.
Arguments ex {D}.

Section driver.
Context {D : Type} `{SectorDev D}.
Variable stk : Z -> Z.

Definition upd (fs : exfs D) (f : exfat) : exfs D := mk_exfs (ex_dev fs) f.

(** [exfat_read_sectors] into [buf] from offset [o] on. *)
Definition exfat_read_sectors (fs : exfs D) (sector count : Z) (buf : list Z) (o : Z)
    : outcome (bool * list Z * exfs D) :=
  (do '(r, d) <- sd_read (ex_dev fs) sector count;
   match r with
   | None => Ret (false, buf, mk_exfs d (ex fs))
   | Some bs => do buf <- poke buf o bs; Ret (true, buf, mk_exfs d (ex fs))
   end)%out.

Definition write_sectors (fs : exfs D) (sector count : Z) (bs : list Z) : outcome (bool * exfs D) :=
  (do '(r, d) <- sd_write (ex_dev fs) sector count bs; Ret (r, mk_exfs d (ex fs)))%out.

Definition cluster_sector (f : exfat) (cluster : Z) : Z :=
  u64 (cluster_heap_start f / bytes_per_sector f + u32 ((cluster - 2) * sectors_per_cluster f)).

Definition exfat_read_cluster (fs : exfs D) (cluster : Z) (buf : list Z) : outcome (bool * list Z * exfs D) :=
  if cluster <? 2 then Ret (false, buf, fs)
  else exfat_read_sectors fs (cluster_sector (ex fs) cluster) (sectors_per_cluster (ex fs)) buf 0.

Definition exfat_write_cluster (fs : exfs D) (cluster : Z) (buf : list Z) : outcome (bool * exfs D) :=
  if cluster <? 2 then Ret (false, fs)
  else write_sectors fs (cluster_sector (ex fs) cluster) (sectors_per_cluster (ex fs)) buf.

(** A buffer of one cluster on the stack. *)
Definition cluster_buf (fs : exfs D) : list Z := uninit stk (bytes_per_cluster (ex fs)).

(** * Lookup *)

(** The inode for the set at [p] of [cluster] whose stream entry is at [s]. *)
Definition inode_of_set (dir : inode) (buf : list Z) (cluster p s : Z) : outcome inode :=
  (do first <- fld buf (s + 20) 4;
   do length <- fld buf (s + 24) 8;
   do attr <- fld buf (p + 4) 2;
   Ret (mk_inode (if negb (Z.land attr EXFAT_ATTR_DIRECTORY =? 0) then FT_DIR else FT_REG_FILE) length
          (mk_priv first length cluster (p / 32) (first_cluster (i_private dir)))))%out.

Fixpoint lookup_from (fuel : nat) (fs : exfs D) (dir : inode) (name : list Z) (cluster : Z) (buf : list Z)
    : outcome (option inode * exfs D) :=
  (if live cluster then
     match fuel with
     | O => Crash
     | S fuel' =>
         do '(_, buf, fs) <- exfat_read_cluster fs cluster buf;
         do r <- scan (scan_fuel buf) buf name 0;
         match r with
         | Some (p, s) => do ino <- inode_of_set dir buf cluster p s; Ret (Some ino, fs)
         | None =>
             do next <- exfat_next_cluster (ex fs) cluster;
             lookup_from fuel' fs dir name next buf
         end
     end
   else Ret (None, fs))%out.

(** [exfat_lookup]; [None] for -1. *)
Definition exfat_lookup (fs : exfs D) (dir : inode) (name : list Z) : outcome (option inode * exfs D) :=
  if negb (i_mode dir =? FT_DIR) then Ret (None, fs)
  else lookup_from (walk_fuel (ex fs)) fs dir name (first_cluster (i_private dir)) (cluster_buf fs).

(** * Creating *)

(** From "Looking for free space in the parent directory" to "Mark FAT as dirty": the index
    of the new entry, [None] when the first cluster of the directory is full. *)
Definition add_entry (fs : exfs D) (dir : inode) (name : list Z) (attr new_cluster : Z) : outcome (option Z * exfs D) :=
  (let parent := first_cluster (i_private dir) in
   do '(_, buf, fs) <- exfat_read_cluster fs parent (cluster_buf fs);
   do r <- free_entry (Z.to_nat (bytes_per_cluster (ex fs) / 32)) 0 buf;
   match r with
   | None => Ret (None, fs)
   | Some i =>
       do buf <- put_entries buf (32 * i) attr name new_cluster;
       do '(_, fs) <- exfat_write_cluster fs parent buf;
       do f <- set_dirty (ex fs);
       Ret (Some i, upd fs f)
   end)%out.

Definition new_inode (dir : inode) (mode new_cluster i : Z) : inode :=
  let parent := first_cluster (i_private dir) in
  mk_inode mode 0 (mk_priv new_cluster 0 parent i parent).

(** [exfat_create_file], called with a place for the inode; [None] for -1. *)
Definition exfat_create_file (fs : exfs D) (dir : inode) (name : list Z) : outcome (option inode * exfs D) :=
  (if negb (i_mode dir =? FT_DIR) then Ret (None, fs)
   else
     do '(existing, fs) <- exfat_lookup fs dir name;
     match existing with
     | Some _ => Ret (None, fs)
     | None =>
         do c <- free_cluster (ex fs);
         if c =? 0 then Ret (None, fs)
         else
           do f <- cache_set (ex fs) c EXFAT_FAT_END;
           do '(r, fs) <- add_entry (upd fs f) dir name 0 c;
           Ret (match r with Some i => Some (new_inode dir FT_REG_FILE c i) | None => None end, fs)
     end)%out.

Definition exfat_mkdir (fs : exfs D) (dir : inode) (name : list Z) (mode : Z) : outcome (option inode * exfs D) :=
  (if negb (i_mode dir =? FT_DIR) then Ret (None, fs)
   else
     do '(existing, fs) <- exfat_lookup fs dir name;
     match existing with
     | Some _ => Ret (None, fs)
     | None =>
         do c <- free_cluster (ex fs);
         if c =? 0 then Ret (None, fs)
         else
           do f <- cache_set (ex fs) c EXFAT_FAT_END;
           let fs := upd fs f in
           do '(_, fs) <- exfat_write_cluster fs c (replicate (Z.to_nat (bytes_per_cluster f)) 0);
           do '(r, fs) <- add_entry fs dir name (if mode =? FT_DIR then EXFAT_ATTR_DIRECTORY else 0) c;
           Ret (match r with Some i => Some (new_inode dir mode c i) | None => None end, fs)
     end)%out.

Definition exfat_create (fs : exfs D) (dir : inode) (name : list Z) (mode : Z) : outcome (option inode * exfs D) :=
  if mode =? FT_DIR then exfat_mkdir fs dir name mode else exfat_create_file fs dir name.

(** * Deleting *)

Definition exfat_unlink (fs : exfs D) (dir : inode) (name : list Z) : outcome (bool * exfs D) :=
  (if negb (i_mode dir =? FT_DIR) then Ret (false, fs)
   else
     do '(r, fs) <- exfat_lookup fs dir name;
     match r with
     | None => Ret (false, fs)
     | Some file =>
         do f <- free_chain (walk_fuel (ex fs)) (ex fs) (first_cluster (i_private file));
         let fs := upd fs f in
         let parent := first_cluster (i_private dir) in
         do '(_, buf, fs) <- exfat_read_cluster fs parent (cluster_buf fs);
         let p := u32 (dir_entry (i_private file) * 32) in
         do count <- fld buf (p + 1) 1;
         do buf <- clear_entries (Z.to_nat (u8 (count + 1))) buf p;
         do '(_, fs) <- exfat_write_cluster fs parent buf;
         do f <- set_dirty (ex fs);
         Ret (true, upd fs f)
     end)%out.

Definition exfat_rmdir (fs : exfs D) (dir : inode) (name : list Z) : outcome (bool * exfs D) :=
  (if negb (i_mode dir =? FT_DIR) then Ret (false, fs)
   else
     do '(r, fs) <- exfat_lookup fs dir name;
     match r with
     | None => Ret (false, fs)
     | Some sub => if negb (i_mode sub =? FT_DIR) then Ret (false, fs) else exfat_unlink fs dir name
     end)%out.

(** * Renaming *)

Definition exfat_rename (fs : exfs D) (old_dir : inode) (old_name : list Z) (new_dir : inode) (new_name : list Z)
    : outcome (bool * exfs D) :=
  (do '(r, fs) <- exfat_lookup fs old_dir old_name;
   match r with
   | None => Ret (false, fs)
   | Some file =>
       let old_first := first_cluster (i_private old_dir) in
       let new_first := first_cluster (i_private new_dir) in
       do '(_, old_buf, fs) <- exfat_read_cluster fs old_first (cluster_buf fs);
       let p := u32 (dir_entry (i_private file) * 32) in
       do c <- fld old_buf (p + 1) 1;
       let count := u8 (c + 1) in
       do data <- part old_buf p (32 * count);
       do old_buf <- clear_entries (Z.to_nat count) old_buf p;
       do '(_, fs) <- exfat_write_cluster fs old_first old_buf;
       do '(_, new_buf, fs) <- exfat_read_cluster fs new_first (cluster_buf fs);
       do slot <- free_entry (Z.to_nat (bytes_per_cluster (ex fs) / 32)) 0 new_buf;
       match slot with
       | None =>
           do '(_, fs) <- exfat_write_cluster fs old_first (splice old_buf p data);
           Ret (false, fs)
       | Some i =>
           do new_buf <- poke new_buf (32 * i) data;
           do new_buf <- poke new_buf (32 * (i + 2) + 2) (name_field new_name);
           do '(_, fs) <- exfat_write_cluster fs new_first new_buf;
           Ret (true, fs)
       end
   end)%out.

(** * Reading *)

(** The loops that skip clusters of a chain. *)
Fixpoint skip_chain (n : nat) (f : exfat) (cluster : Z) : outcome Z :=
  (match n with
   | O => Ret cluster
   | S n' => if 2 <=? cluster then do next <- exfat_next_cluster f cluster; skip_chain n' f next else Ret cluster
   end)%out.

(** The copy loop; [acc] are the bytes delivered so far. *)
Fixpoint read_loop (fuel : nat) (fs : exfs D) (cluster cluster_offset to_read : Z) (acc temp : list Z)
    : outcome (list Z * exfs D) :=
  (if (len acc <? to_read) && live cluster then
     match fuel with
     | O => Crash
     | S fuel' =>
         do '(_, temp, fs) <- exfat_read_cluster fs cluster temp;
         let copy := u32 (bytes_per_cluster (ex fs) - cluster_offset) in
         let copy := if to_read - len acc <? copy then to_read - len acc else copy in
         do next <- exfat_next_cluster (ex fs) cluster;
         read_loop fuel' fs next 0 to_read (acc ++ slice temp cluster_offset copy) temp
     end
   else Ret (acc, fs))%out.

(** [exfat_read]: the bytes read, whose number is [*read]; [None] for -1. *)
Definition exfat_read (fs : exfs D) (ino : inode) (offset size : Z) : outcome (option (list Z) * exfs D) :=
  (if i_size ino <=? offset then Ret (Some [], fs)
   else
     let to_read := if i_size ino <? u64 (offset + size) then u32 (i_size ino - offset) else size in
     let cluster_size := bytes_per_cluster (ex fs) in
     if cluster_size =? 0 then Crash
     else
       do cluster <- skip_chain (Z.to_nat (u32 (offset / cluster_size))) (ex fs) (first_cluster (i_private ino));
       if cluster <? 2 then Ret (None, fs)
       else
         do '(bs, fs) <- read_loop (Z.to_nat (to_read / cluster_size) + 2) fs cluster (offset mod cluster_size) to_read []
                           (cluster_buf fs);
         Ret (Some bs, fs))%out.

(** * Writing *)

(** The loop "Collecting clusters": [clusters] is the array filled so far.  A new cluster
    does not become [cluster], which stays behind the end of the chain. *)
Fixpoint gather (n : nat) (f : exfat) (ino : inode) (cluster : Z) (clusters : list Z)
    : outcome (option (list Z) * inode * exfat) :=
  (match n with
   | O => Ret (Some clusters, ino, f)
   | S n' =>
       if negb (live cluster) then
         do new_cluster <- free_cluster f;
         if new_cluster =? 0 then Ret (None, ino, f)
         else
           do '(ino, f) <-
             match last clusters with
             | None => Ret (with_first ino new_cluster, f)
             | Some prev => do f <- cache_set f prev new_cluster; Ret (ino, f)
             end;
           do f <- cache_set f new_cluster EXFAT_FAT_END;
           gather n' f ino cluster (clusters ++ [new_cluster])
       else
         do next <- exfat_next_cluster f cluster;
         gather n' f ino next (clusters ++ [cluster])
   end)%out.

(** The loop "Recording data"; [off] is the offset in the first cluster.  The results of the
    transfers are ignored. *)
Fixpoint write_loop (clusters : list Z) (off : Z) (fs : exfs D) (data : list Z) : outcome (Z * exfs D) :=
  (match clusters with
   | [] => Ret (0, fs)
   | current :: clusters' =>
       let size := bytes_per_cluster (ex fs) in
       let write_size := u32 (size - off) in
       let write_size := if len data <? write_size then len data else write_size in
       let chunk := slice data 0 write_size in
       do fs <-
         (if write_size =? size then do '(_, fs) <- exfat_write_cluster fs current chunk; Ret fs
          else
            do '(_, temp, fs) <- exfat_read_cluster fs current (cluster_buf fs);
            do '(_, fs) <- exfat_write_cluster fs current (splice temp off chunk);
            Ret fs);
       do '(done, fs) <- write_loop clusters' 0 fs (drop (Z.to_nat write_size) data);
       Ret (write_size + done, fs)
   end)%out.

(** "Updating the file size": the inode and the stream entry. *)
Definition grow_entry (fs : exfs D) (ino : inode) (size : Z) : outcome (inode * exfs D) :=
  (let ino := with_size ino size in
   let p := i_private ino in
   do '(_, buf, fs) <- exfat_read_cluster fs (dir_cluster p) (cluster_buf fs);
   let s := u32 (dir_entry p * 32) + 32 in
   do buf <- poke buf (s + 24) (le_bytes 8 size);
   do buf <- poke buf (s + 8) (le_bytes 8 size);
   do '(_, fs) <- exfat_write_cluster fs (dir_cluster p) buf;
   Ret (ino, fs))%out.

(** [exfat_write]: the number of bytes written, [None] for -1. *)
Definition exfat_write (fs : exfs D) (ino : inode) (offset : Z) (data : list Z) : outcome (option Z * inode * exfs D) :=
  (let size := len data in
   let cluster_size := bytes_per_cluster (ex fs) in
   if size =? 0 then Ret (Some 0, ino, fs)
   else if cluster_size =? 0 then Crash
   else
     let first_idx := u32 (offset / cluster_size) in
     let last_idx := u32 (u64 (offset + size - 1) / cluster_size) in
     let needed := u32 (last_idx - first_idx + 1) in
     if needed =? 0 then Ret (None, ino, fs)
     else
       do cluster <- skip_chain (Z.to_nat first_idx) (ex fs) (first_cluster (i_private ino));
       do '(cs, ino, f) <- gather (Z.to_nat needed) (ex fs) ino cluster [];
       let fs := upd fs f in
       match cs with
       | None => Ret (None, ino, fs)
       | Some clusters =>
           do '(done, fs) <- write_loop clusters (offset mod cluster_size) fs data;
           do '(ino, fs) <-
             (if i_size ino <? u64 (offset + done) then grow_entry fs ino (u64 (offset + done)) else Ret (ino, fs));
           do f <- set_dirty (ex fs);
           Ret (Some done, ino, upd fs f)
       end)%out.

(** [exfat_truncate] *)
Definition exfat_truncate (ino : inode) (new_size : Z) : Z := -1.

(** * Attributes, names, listing *)

Definition exfat_chmod (fs : exfs D) (ino : inode) (mode : Z) : outcome (inode * exfs D) :=
  (let p := i_private ino in
   let attr := if i_mode ino =? FT_DIR then EXFAT_ATTR_DIRECTORY else 0 in
   let attr := if Z.land mode 0x80 =? 0 then Z.lor attr EXFAT_ATTR_READ_ONLY else attr in
   do '(_, buf, fs) <- exfat_read_cluster fs (dir_cluster p) (cluster_buf fs);
   do buf <- poke buf (u32 (dir_entry p * 32) + 4) (le_bytes 2 attr);
   do '(_, fs) <- exfat_write_cluster fs (dir_cluster p) buf;
   Ret (mk_inode mode (i_size ino) p, fs))%out.

(** The loop of [exfat_readdir] over a cluster of [epc] entries from entry [i]: the name, the
    type and the next position; [None] at the end. *)
Fixpoint readdir_scan (fuel : nat) (epc i : Z) (buf : list Z) (index : Z) : outcome (option (list Z * Z * Z)) :=
  (if i <? epc then
     match fuel with
     | O => Crash
     | S fuel' =>
         let p := 32 * i in
         do type <- fld buf p 1;
         if type =? 0 then Ret None
         else if type =? EXFAT_ENTRY_FILE then
           do count <- fld buf (p + 1) 1;
           do t <- fld buf (p + 32) 1;
           if negb (t =? EXFAT_ENTRY_STREAM) then readdir_scan fuel' epc (u32 (i + count) + 1) buf index
           else
             do name <- name_entries (Z.to_nat (count - 1)) add_guarded (fun _ => false) buf (p + 64) [];
             do attr <- fld buf (p + 4) 2;
             Ret (Some (name, if negb (Z.land attr EXFAT_ATTR_DIRECTORY =? 0) then FT_DIR else FT_REG_FILE,
                        u32 (index + 1 + count)))
         else if (type =? EXFAT_ENTRY_STREAM) || (type =? EXFAT_ENTRY_NAME)
         then readdir_scan fuel' epc (i + 1) buf index
         else readdir_scan fuel' epc (i + 1) buf (u32 (index + 1))
     end
   else Ret None)%out.

(** The loop "Finding the right cluster". *)
Fixpoint seek_chain (n : nat) (f : exfat) (cluster : Z) : outcome (option Z) :=
  (if live cluster then
     match n with
     | O => Ret (Some cluster)
     | S n' => do next <- exfat_next_cluster f cluster; seek_chain n' f next
     end
   else Ret None)%out.

(** [exfat_readdir]: the name and the type, [None] for -1, and [*pos]. *)
Definition exfat_readdir (fs : exfs D) (dir : inode) (pos : Z) : outcome (option (list Z * Z) * Z * exfs D) :=
  (if negb (i_mode dir =? FT_DIR) then Ret (None, pos, fs)
   else
     let index := u32 pos in
     let epc := bytes_per_cluster (ex fs) / 32 in
     if epc =? 0 then Crash
     else
       do c <- seek_chain (Z.to_nat (index / epc)) (ex fs) (first_cluster (i_private dir));
       match c with
       | None => Ret (None, 0, fs)
       | Some cluster =>
           do '(ok, buf, fs) <- exfat_read_cluster fs cluster (cluster_buf fs);
           if negb ok then Ret (None, pos, fs)
           else
             do r <- readdir_scan (S (Z.to_nat epc)) epc (index mod epc) buf index;
             match r with
             | None => Ret (None, 0, fs)
             | Some (name, type, pos) => Ret (Some (name, type), pos, fs)
             end
       end)%out.

(** [exfat_parent]: [None] stands for the inode itself. *)
Definition exfat_parent (f : exfat) (ino : inode) : option inode :=
  let p := i_private ino in
  if first_cluster p =? root_cluster f then None
  else Some (mk_inode FT_DIR 0 (mk_priv (parent_cluster p) 0 0 0 (root_cluster f))).

(** [exfat_get_name] into a buffer of [max_len] bytes; [None] for -1. *)
Definition exfat_get_name (fs : exfs D) (ino : inode) (max_len : Z) : outcome (option (list Z) * exfs D) :=
  (let p := i_private ino in
   if first_cluster p =? root_cluster (ex fs) then Ret (Some [], fs)
   else if dir_cluster p =? 0 then Ret (None, fs)
   else
     do '(ok, buf, fs) <- exfat_read_cluster fs (dir_cluster p) (cluster_buf fs);
     if negb ok then Ret (None, fs)
     else
       let o := u32 (dir_entry p * 32) in
       do type <- fld buf o 1;
       if negb (type =? EXFAT_ENTRY_FILE) then Ret (None, fs)
       else
         do count <- fld buf (o + 1) 1;
         do name <- name_entries (Z.to_nat (count - 1)) (add_to max_len) (fun acc => negb (len acc <? max_len - 1)) buf
                      (o + 64) [];
         do name <- ended max_len name;
         Ret (Some name, fs))%out.

(** * Writing back, mounting *)

(** The loop that writes the table, shared by [exfat_sync] and [exfat_unmount_fs]. *)
Definition write_fat (fs : exfs D) : outcome (exfs D) :=
  (let f := ex fs in
   ofor_from 0 (Z.to_nat (fat_length f)) (fun i fs =>
     do bs <- part (fat_bytes (fat_cache f)) (u32 (i * bytes_per_sector f)) (bytes_per_sector f / 512 * 512);
     do '(_, fs) <- write_sectors fs (u32 (fat_offset f + i)) (bytes_per_sector f / 512) bs;
     Ret fs) fs)%out.

Definition exfat_sync (fs : exfs D) : outcome (exfs D) :=
  (do v <- cache_get (ex fs) 0;
   if is_dirty v then
     do fs <- write_fat fs;
     do f <- cache_set (ex fs) 0 (Z.land v (wnot 32 1));
     Ret (upd fs f)
   else Ret fs)%out.

(** [exfat_unmount_fs] releases everything but the device. *)
Definition exfat_unmount_fs (fs : exfs D) : outcome D :=
  (do fs <- exfat_sync fs; Ret (ex_dev fs))%out.

(** [1 << shift] *)
Definition shl1 (shift : Z) : outcome Z := if shift <? 32 then Ret (2 ^ shift) else Crash.

(** "EXFAT   " *)
Definition EXFAT_NAME : list Z := [69; 88; 70; 65; 84; 32; 32; 32].

(** The file system that [exfat_mount] sets up from the boot sector, before the table is
    read. *)
Definition exfat_of_vbr (sector : list Z) : outcome exfat :=
  (do bps <- shl1 (field sector 108 1);
   do spc <- shl1 (field sector 109 1);
   let fat_offset := field sector 80 4 in
   let fat_length := field sector 84 4 in
   Ret (mk_exfat fat_offset fat_length bps spc (u32 (bps * spc)) (u64 (fat_offset * bps)) (u64 (field sector 88 4 * bps))
          (field sector 96 4) [] (u32 (fat_length * bps) / 4)))%out.

Definition root_inode (f : exfat) : inode :=
  mk_inode FT_DIR 0 (mk_priv (root_cluster f) 0 (root_cluster f) 0 (root_cluster f)).

(** [exfat_mount]: the root inode and the file system; [None] for -1. *)
Definition exfat_mount (d : D) : outcome (option (inode * exfs D) * D) :=
  (let zero := mk_exfat 0 0 0 0 0 0 0 0 [] 0 in
   do '(ok, sector, fs) <- exfat_read_sectors (mk_exfs d zero) 0 1 (uninit stk 512) 0;
   if negb ok then Ret (None, ex_dev fs)
   else if negb (bool_decide (slice sector 3 8 = EXFAT_NAME)) then Ret (None, ex_dev fs)
   else
     do f <- exfat_of_vbr sector;
     let size := u32 (fat_length f * bytes_per_sector f) in
     if size =? 0 then Ret (None, ex_dev fs)
     else
       do '(cache, fs) <- ofor_from 0 (Z.to_nat (fat_length f)) (fun i '(cache, fs) =>
           do '(_, cache, fs) <- exfat_read_sectors fs (u32 (fat_offset f + i)) 1 cache (u32 (i * bytes_per_sector f));
           Ret (cache, fs)) (uninit stk size, mk_exfs (ex_dev fs) f);
       let f := with_cache f (words cache (fat_entries f)) in
       Ret (Some (root_inode f, upd fs f), ex_dev fs))%out.

(** * Formatting *)

Definition spc_shift_for (total : Z) : Z :=
  if total <? 0x100000 then 0 else if total <? 0x400000 then 1 else if total <? 0x1000000 then 3 else 6.

Definition fat_sectors_for (total sector_size : Z) : Z :=
  let clusters := total / 2 ^ spc_shift_for total in
  u32 (u32 (u32 (clusters + 2) * 4) + sector_size - 1) / sector_size.

Definition vbr_bytes (total fat_sectors shift : Z) : list Z :=
  [0xEB; 0x76; 0x90] ++ EXFAT_NAME ++ replicate 53 0 ++ le_bytes 8 0 ++ le_bytes 8 total ++
  le_bytes 4 24 ++ le_bytes 4 fat_sectors ++ le_bytes 4 (24 + fat_sectors) ++ le_bytes 4 (total / 2 ^ shift) ++
  le_bytes 4 2 ++ le_bytes 4 0x12345678 ++ le_bytes 2 0x0100 ++ le_bytes 2 0 ++ [9; shift; 1; 0x80; 0] ++ replicate 7 0 ++
  [0xF4] ++ replicate 389 0 ++ le_bytes 2 0xAA55.

(** The loop "Write FAT": [n] sectors from [i]; [false] after a failed write. *)
Fixpoint format_fat (n : nat) (i ss : Z) (fat : list Z) (d : D) : outcome (bool * D) :=
  (match n with
   | O => Ret (true, d)
   | S n' =>
       do bs <- part fat (u32 (i * ss)) ss;
       do '(ok, d) <- sd_write d (u32 (24 + i)) 1 bs;
       if negb ok then Ret (false, d) else format_fat n' (i + 1) ss fat d
   end)%out.

(** [exfat_format]; 0 and -1 as in the source. *)
Definition exfat_format (d : D) : outcome (Z * D) :=
  (if negb (sd_ready d) then Ret (-1, d)
   else
     let ss := u32 (sd_sector_size d) in
     let total := sd_total d in
     let shift := spc_shift_for total in
     if ss =? 0 then Crash
     else
       let fat_sectors := fat_sectors_for total ss in
       do '(ok, d) <- sd_write d 0 1 (vbr_bytes total fat_sectors shift);
       if negb ok then Ret (-1, d)
       else
         let size := u32 (fat_sectors * ss) in
         if size =? 0 then Ret (-1, d)
         else
           do fat <- poke (replicate (Z.to_nat size) 0) 0 (fat_bytes [0xFFFFFFF8; 0xFFFFFFFF; EXFAT_FAT_END]);
           do '(ok, d) <- format_fat (Z.to_nat fat_sectors) 0 ss fat d;
           if negb ok then Ret (-1, d)
           else
             let cluster_size := u32 (ss * 2 ^ shift) in
             if cluster_size =? 0 then Ret (-1, d)
             else
               do '(ok, d) <- sd_write d (u32 (24 + fat_sectors)) (2 ^ shift) (replicate (Z.to_nat cluster_size) 0);
               Ret (if ok : bool then 0 else -1, d))%out.
End driver.
