(* ===== verification/ExfatData.v ===== *)
(** File contents in the exFAT driver (Exfat.v): clusters as ranges of the device, chains of
    the cached table, reading and writing inside a chain, and what a write behind the end
    of the chain does to the file. *)

From S2P Require Import Prelude Bytes Buffer SectorDev Exfat.

(** * The table *)

(** The geometry of a mounted volume, and a table of the length it says; the end mark is
    not the number of a cluster. *)
Record ex_ok (f : exfat) : Prop := mk_ex_ok {
  xo_length : len (fat_cache f) = fat_entries f;
  xo_entries : 2 <= fat_entries f < EXFAT_FAT_END;
  xo_bps : bytes_per_sector f = 512;
  xo_spc : 0 < sectors_per_cluster f < 2 ^ 22;
  xo_bpc : bytes_per_cluster f = 512 * sectors_per_cluster f;
  xo_heap : 0 <= cluster_heap_start f < 2 ^ 41 /\ cluster_heap_start f mod 512 = 0
}.

Lemma with_cache_same (f : exfat) : with_cache f (fat_cache f) = f.
Proof. by destruct f. Qed.

Lemma cache_get_in (f : exfat) (c : Z) : ex_ok f -> 0 <= c < fat_entries f -> cache_get f c = Ret (get (fat_cache f) c).
Proof. intros Hok Hc. rewrite <- (xo_length f Hok) in Hc. unfold len in Hc. unfold cache_get, get_chk. by replace (_ && _) with true by lia. Qed.

Lemma cache_set_in (f : exfat) (c v : Z) :
  ex_ok f -> 0 <= c < fat_entries f -> cache_set f c v = Ret (with_cache f (set (fat_cache f) c v)).
Proof. intros Hok Hc. rewrite <- (xo_length f Hok) in Hc. unfold len in Hc. unfold cache_set, set_chk. by replace (_ && _) with true by lia. Qed.

Lemma with_cache_ok (f : exfat) (l : list Z) : ex_ok f -> length l = length (fat_cache f) -> ex_ok (with_cache f l).
Proof. intros [H1 H2 H3 H4 H5 H6] Hl. split; cbn; try done. unfold len in *. lia. Qed.

(** The table after [fat_cache[0] |= 1]. *)
Definition dirtied (f : exfat) : exfat := with_cache f (set (fat_cache f) 0 (Z.lor (get (fat_cache f) 0) 1)).

Lemma set_dirty_ok (f : exfat) : ex_ok f -> set_dirty f = Ret (dirtied f) /\ ex_ok (dirtied f).
Proof.
  intros Hok. pose proof (xo_entries f Hok). unfold set_dirty. rewrite cache_get_in by (done || lia). cbn [obind].
  rewrite cache_set_in by (done || lia). split; [done |]. apply with_cache_ok; [done | apply length_set].
Qed.

(** The clusters of a file, each pointing to the next, the last one marked as the end. *)
Inductive chain (cache : list Z) : list Z -> Prop :=
| chain_end c : 2 <= c < len cache -> get cache c = EXFAT_FAT_END -> chain cache [c]
| chain_cons c c' cs : 2 <= c < len cache -> get cache c = c' -> chain cache (c' :: cs) -> chain cache (c :: c' :: cs).

Lemma chain_head (cache : list Z) (c : Z) (cs : list Z) : chain cache (c :: cs) -> 2 <= c < len cache.
Proof. by inversion 1. Qed.

Lemma chain_step (cache : list Z) (c : Z) (cs : list Z) : chain cache (c :: cs) -> get cache c = hd EXFAT_FAT_END cs.
Proof. by inversion 1. Qed.

Lemma chain_rest (cache : list Z) (c : Z) (cs : list Z) : chain cache (c :: cs) -> cs <> [] -> chain cache cs.
Proof. by inversion 1. Qed.

Lemma ex_chain_drop (cache cs : list Z) (n : nat) : chain cache cs -> (n < length cs)%nat -> chain cache (drop n cs).
Proof.
  revert cs. induction n as [|n IH]; intros cs Hc Hn; [done |]. destruct cs as [|c cs]; [done |]. cbn [drop length] in *.
  apply IH; [| lia]. apply (chain_rest _ c); [done |]. intros ->. cbn in Hn. lia.
Qed.

(** Entry 0 is not part of a chain. *)
Lemma ex_chain_set_other (cache cs : list Z) (i v : Z) :
  0 <= i -> i ∉ cs -> chain cache cs -> chain (set cache i v) cs.
Proof.
  intros Hi Hn Hc. induction Hc as [c Hc E | c c' cs Hc E Hr IH].
  - apply chain_end; [unfold len in *; by rewrite length_set |]. rewrite get_set_ne; [done | lia | lia |]. set_solver.
  - apply chain_cons; [unfold len in *; by rewrite length_set | | apply IH; set_solver].
    rewrite get_set_ne; [done | lia | lia |]. set_solver.
Qed.

Lemma chain_ge_2 (cache cs : list Z) : chain cache cs -> Forall (fun c => 2 <= c < len cache) cs.
Proof. induction 1; by constructor. Qed.

Lemma ex_live_in (f : exfat) (c : Z) : ex_ok f -> 2 <= c < fat_entries f -> live c = true.
Proof. intros Hok Hc. pose proof (xo_entries f Hok). unfold live. replace (2 <=? c) with true by lia. replace (c =? _) with false by lia. done. Qed.

Lemma next_cluster_ok (f : exfat) (c : Z) (cs : list Z) :
  ex_ok f -> chain (fat_cache f) (c :: cs) -> exfat_next_cluster f c = Ret (hd EXFAT_FAT_END cs) /\ live c = true /\ 2 <= c < fat_entries f.
Proof.
  intros Hok Hc. pose proof (chain_head _ _ _ Hc) as Hr. rewrite (xo_length f Hok) in Hr.
  unfold exfat_next_cluster. replace (fat_entries f <=? c) with false by lia. rewrite cache_get_in by (done || lia).
  rewrite (chain_step _ _ _ Hc). split; [done |]. split; [by apply (ex_live_in f) | done].
Qed.

Lemma ex_skip_chain_ok (f : exfat) (cs : list Z) (n : nat) :
  ex_ok f -> chain (fat_cache f) cs -> (n <= length cs)%nat ->
  skip_chain n f (hd EXFAT_FAT_END cs) = Ret (hd EXFAT_FAT_END (drop n cs)).
Proof.
  intros Hok. revert cs. induction n as [|n IH]; intros cs Hch Hn; [done |].
  destruct cs as [|c cs]; [cbn in Hn; lia |]. cbn [skip_chain hd drop length] in *.
  destruct (next_cluster_ok f c cs Hok Hch) as (-> & _ & Hc). replace (2 <=? c) with true by lia. cbn [obind].
  destruct cs as [|c' cs]; [by destruct n; [| cbn in Hn; lia] |]. apply IH; [| lia]. by apply (chain_rest _ c).
Qed.

(** The first free cluster, or 0 when there is none. *)
Lemma free_from_ok (f : exfat) (n : nat) (i : Z) :
  ex_ok f -> 2 <= i -> i + Z.of_nat n = fat_entries f ->
  (exists c, i <= c < fat_entries f /\ get (fat_cache f) c = EXFAT_FAT_FREE /\
     (forall k, i <= k < c -> get (fat_cache f) k <> EXFAT_FAT_FREE) /\ free_from n i f = Ret c) \/
  (forall k, i <= k < fat_entries f -> get (fat_cache f) k <> EXFAT_FAT_FREE) /\ free_from n i f = Ret 0.
Proof.
  intros Hok. revert i. induction n as [|n IH]; intros i Hi Hn; [right; split; [intros; lia | done] |].
  cbn [free_from]. rewrite cache_get_in by (done || lia). cbn [obind].
  destruct (Z.eqb_spec (get (fat_cache f) i) EXFAT_FAT_FREE) as [E | E].
  - left. exists i. split_and!; try done; lia.
  - destruct (IH (i + 1) ltac:(lia) ltac:(lia)) as [(c & Hc & E1 & E2 & E3) | [E1 E2]].
    + left. exists c. split_and!; try done; try lia. intros k Hk. destruct (decide (k = i)) as [-> | ?]; [done |]. apply E2. lia.
    + right. split; [| done]. intros k Hk. destruct (decide (k = i)) as [-> | ?]; [done |]. apply E1. lia.
Qed.

Lemma free_cluster_ok (f : exfat) :
  ex_ok f ->
  (exists c, 2 <= c < fat_entries f /\ get (fat_cache f) c = EXFAT_FAT_FREE /\
     (forall k, 2 <= k < c -> get (fat_cache f) k <> EXFAT_FAT_FREE) /\ free_cluster f = Ret c) \/
  (forall k, 2 <= k < fat_entries f -> get (fat_cache f) k <> EXFAT_FAT_FREE) /\ free_cluster f = Ret 0.
Proof. intros Hok. pose proof (xo_entries f Hok). apply free_from_ok; [done | lia | lia]. Qed.

Lemma free_not_in (cache cs : list Z) (c : Z) : chain cache cs -> get cache c = EXFAT_FAT_FREE -> c ∉ cs.
Proof.
  intros Hc E. induction Hc as [x Hx Ex | x x' cs Hx Ex Hr IH]; rewrite not_elem_of_cons.
  - split; [| set_solver]. intros ->. rewrite E in Ex. by vm_compute in Ex.
  - split; [| done]. intros ->. apply chain_head in Hr. rewrite E in Ex. unfold EXFAT_FAT_FREE in Ex. lia.
Qed.

(** The table after cluster [c] is taken as a chain of its own. *)
Definition taken (f : exfat) (c : Z) : exfat := with_cache f (set (fat_cache f) c EXFAT_FAT_END).

Lemma ex_taken_ok (f : exfat) (c : Z) : ex_ok f -> 2 <= c < fat_entries f -> ex_ok (taken f c) /\ chain (fat_cache (taken f c)) [c].
Proof.
  intros Hok Hc. pose proof (xo_length f Hok) as Hl. unfold len in Hl. split; [apply with_cache_ok; [done | apply length_set] |].
  apply chain_end; cbn [taken with_cache fat_cache]; unfold len; rewrite ?length_set; [lia |]. apply get_set_eq. lia.
Qed.

Lemma dirtied_chain (f : exfat) (cs : list Z) : chain (fat_cache f) cs -> chain (fat_cache (dirtied f)) cs.
Proof.
  intros Hc. cbn [dirtied with_cache fat_cache]. apply ex_chain_set_other; [lia | | done]. pose proof (chain_ge_2 _ _ Hc) as HF.
  rewrite Forall_forall in HF. intros H0. apply HF in H0. lia.
Qed.

(** * The volume *)

Section volume.
Context {D : Type} `{SectorDev D}.

Record vol_ok (fs : exfs D) (l : list Z) : Prop := mk_vol_ok { vo_dev : sd_holds (ex_dev fs) l; vo_ex : ex_ok (ex fs) }.

(** Where cluster [c] begins, and that it is inside the device. *)
Definition cluster_pos (f : exfat) (c : Z) : Z := cluster_heap_start f + (c - 2) * bytes_per_cluster f.

Definition in_volume (f : exfat) (l : list Z) (c : Z) : Prop :=
  2 <= c /\ cluster_pos f c + bytes_per_cluster f <= len l /\ (c - 2) * sectors_per_cluster f < 2 ^ 32.

Definition cluster_bytes (f : exfat) (l : list Z) (c : Z) : list Z := slice l (cluster_pos f c) (bytes_per_cluster f).
Definition file_bytes (f : exfat) (l cs : list Z) : list Z := concat (cluster_bytes f l <$> cs).

Lemma cluster_pos_nonneg (f : exfat) (c : Z) : ex_ok f -> 2 <= c -> 0 <= cluster_pos f c.
Proof. intros Hok Hc. pose proof (xo_spc f Hok). pose proof (xo_bpc f Hok). pose proof (xo_heap f Hok). unfold cluster_pos. nia. Qed.

Lemma len_cluster_bytes (f : exfat) (l : list Z) (c : Z) : ex_ok f -> in_volume f l c -> len (cluster_bytes f l c) = bytes_per_cluster f.
Proof.
  intros Hok (H2 & H3 & _). pose proof (cluster_pos_nonneg f c Hok H2). pose proof (xo_spc f Hok). pose proof (xo_bpc f Hok).
  unfold len in *. apply length_slice; lia.
Qed.

Lemma len_file_bytes (f : exfat) (l cs : list Z) :
  ex_ok f -> Forall (in_volume f l) cs -> len (file_bytes f l cs) = bytes_per_cluster f * Z.of_nat (length cs).
Proof.
  intros Hok. unfold file_bytes. induction 1 as [|c cs Hc _ IH]; cbn [fmap list_fmap concat length]; [unfold len; cbn; lia |].
  unfold len in *. rewrite length_app, Nat2Z.inj_add, IH. pose proof (len_cluster_bytes f l c Hok Hc) as E. unfold len in E. lia.
Qed.

Lemma cluster_sector_ok (fs : exfs D) (l : list Z) (c : Z) :
  vol_ok fs l -> in_volume (ex fs) l c ->
  0 <= cluster_sector (ex fs) c /\ cluster_sector (ex fs) c * 512 = cluster_pos (ex fs) c /\
  cluster_sector (ex fs) c + sectors_per_cluster (ex fs) <= sd_total (ex_dev fs).
Proof.
  intros [Hh [_ _ Hb Hs Hp [Hr Hm]]] (H2 & H3 & H4). unfold cluster_sector, cluster_pos, len in *. rewrite Hb, Hp in *.
  destruct (sd_holds_ok _ _ Hh) as (_ & _ & Hl & _).
  assert (Hy : 0 <= (c - 2) * sectors_per_cluster (ex fs)) by nia.
  replace ((c - 2) * (512 * sectors_per_cluster (ex fs))) with (512 * ((c - 2) * sectors_per_cluster (ex fs))) in * by lia.
  revert Hy H3 H4. generalize ((c - 2) * sectors_per_cluster (ex fs)). intros y Hy H3 H4.
  rewrite (wrap_small 32) by (split; lia). rewrite (wrap_small 64) by (split; dlia). dlia.
Qed.

Lemma ex_read_cluster_ok (fs : exfs D) (l : list Z) (c : Z) (buf : list Z) :
  vol_ok fs l -> in_volume (ex fs) l c -> len buf = bytes_per_cluster (ex fs) ->
  exists d, exfat_read_cluster fs c buf = Ret (true, cluster_bytes (ex fs) l c, mk_exfs d (ex fs)) /\
    vol_ok (mk_exfs d (ex fs)) l.
Proof.
  intros Hv Hc Hb. pose proof Hc as (H2 & _). pose proof (len_cluster_bytes _ l c (vo_ex _ _ Hv) Hc) as Hlen.
  destruct (cluster_sector_ok fs l c Hv Hc) as (P1 & P2 & P3). destruct Hv as [Hh Hok]. pose proof (xo_spc _ Hok). pose proof (xo_bpc _ Hok).
  destruct (sd_read_ok _ l _ (sectors_per_cluster (ex fs)) Hh P1 ltac:(lia) P3) as (d & E & Hh').
  unfold exfat_read_cluster, exfat_read_sectors. replace (c <? 2) with false by lia. rewrite E. cbn [obind].
  rewrite P2. replace (sectors_per_cluster (ex fs) * 512) with (bytes_per_cluster (ex fs)) by lia.
  fold (cluster_bytes (ex fs) l c). unfold poke, len in *. replace ((0 <=? 0) && _) with true by lia. cbn [obind].
  rewrite splice_all by lia. exists d. split; [done |]. by split.
Qed.

Lemma ex_write_cluster_ok (fs : exfs D) (l : list Z) (c : Z) (buf : list Z) :
  vol_ok fs l -> in_volume (ex fs) l c -> len buf = bytes_per_cluster (ex fs) ->
  exists d, exfat_write_cluster fs c buf = Ret (true, mk_exfs d (ex fs)) /\
    vol_ok (mk_exfs d (ex fs)) (splice l (cluster_pos (ex fs) c) buf).
Proof.
  intros Hv Hc Hb. pose proof Hc as (H2 & _). destruct (cluster_sector_ok fs l c Hv Hc) as (P1 & P2 & P3).
  destruct Hv as [Hh Hok]. pose proof (xo_spc _ Hok). pose proof (xo_bpc _ Hok). unfold len in Hb.
  destruct (sd_write_ok _ l _ (sectors_per_cluster (ex fs)) buf Hh P1 ltac:(lia) P3 ltac:(lia)) as (d & E & Hh').
  unfold exfat_write_cluster, write_sectors. replace (c <? 2) with false by lia. rewrite E. cbn [obind].
  rewrite P2 in Hh'. exists d. split; [done |]. by split.
Qed.

(** A write of one cluster is seen in that cluster only. *)
Lemma ex_write_length (f : exfat) (l : list Z) (c : Z) (buf : list Z) :
  ex_ok f -> in_volume f l c -> len buf = bytes_per_cluster f -> length (splice l (cluster_pos f c) buf) = length l.
Proof. intros Hok (H2 & H3 & _) Hl. pose proof (cluster_pos_nonneg f c Hok H2). unfold len in *. apply length_splice; lia. Qed.

Lemma ex_cluster_bytes_write (f : exfat) (l : list Z) (c c' : Z) (buf : list Z) :
  ex_ok f -> in_volume f l c -> 2 <= c' -> len buf = bytes_per_cluster f ->
  cluster_bytes f (splice l (cluster_pos f c) buf) c' = if decide (c' = c) then buf else cluster_bytes f l c'.
Proof.
  intros Hok (H2 & H3 & _) H4 Hl. pose proof (xo_spc f Hok). pose proof (xo_bpc f Hok). pose proof (xo_heap f Hok).
  unfold cluster_bytes, len in *. destruct (decide (c' = c)) as [-> | Hne].
  - rewrite <- Hl. apply slice_splice_eq; [unfold cluster_pos; nia | lia].
  - unfold cluster_pos in *. apply slice_splice_ne; nia.
Qed.

Lemma in_volume_length (f : exfat) (l l' : list Z) (c : Z) : length l' = length l -> in_volume f l c -> in_volume f l' c.
Proof. unfold in_volume, len. by intros ->. Qed.

Lemma ex_file_bytes_ext (f : exfat) (l l' cs : list Z) :
  Forall (fun c => cluster_bytes f l' c = cluster_bytes f l c) cs -> file_bytes f l' cs = file_bytes f l cs.
Proof. intros HF. unfold file_bytes. f_equal. by apply Forall_fmap_ext_1. Qed.

Lemma ex_file_bytes_app (f : exfat) (l cs ks : list Z) : file_bytes f l (cs ++ ks) = file_bytes f l cs ++ file_bytes f l ks.
Proof. unfold file_bytes. by rewrite fmap_app, concat_app. Qed.
End volume.

(** * Reading and writing inside a chain *)

(** A file of the volume: its chain, and a size that the chain can hold. *)
Record file_ok (f : exfat) (l : list Z) (ino : inode) (cs : list Z) : Prop := mk_file_ok {
  fi_chain : chain (fat_cache f) cs;
  fi_nodup : NoDup cs;
  fi_first : first_cluster (i_private ino) = hd EXFAT_FAT_END cs;
  fi_vol : Forall (in_volume f l) cs;
  fi_size : 0 <= i_size ino <= bytes_per_cluster f * Z.of_nat (length cs);
  fi_bound : i_size ino < 2 ^ 32
}.

(** Within the chain nothing is allocated. *)
Lemma ex_gather_ok (f : exfat) (ino : inode) (cs : list Z) (n : nat) (acc : list Z) :
  ex_ok f -> (n <> O -> chain (fat_cache f) cs) -> (n <= length cs)%nat ->
  gather n f ino (hd EXFAT_FAT_END cs) acc = Ret (Some (acc ++ take n cs), ino, f).
Proof.
  intros Hok. revert cs acc. induction n as [|n IH]; intros cs acc Hch Hn; [by rewrite take_0, app_nil_r |].
  destruct cs as [|c cs]; [cbn in Hn; lia |]. cbn [gather hd take length] in *.
  destruct (next_cluster_ok f c cs Hok (Hch ltac:(lia))) as (-> & -> & _). cbn [negb obind].
  rewrite IH; [by rewrite <- app_assoc | | lia]. intros Hne. apply (chain_rest _ c); [by apply Hch |].
  intros ->. cbn in Hn. lia.
Qed.

Section files.
Context {D : Type} `{SectorDev D}.
Variable stk : Z -> Z.

Lemma len_cluster_buf (fs : exfs D) : ex_ok (ex fs) -> len (cluster_buf stk fs) = bytes_per_cluster (ex fs).
Proof. intros Hok. pose proof (xo_spc _ Hok). pose proof (xo_bpc _ Hok). unfold len, cluster_buf. rewrite length_uninit. lia. Qed.

Lemma ex_read_loop_ok (fuel : nat) (fs : exfs D) (l cs : list Z) (off to_read : Z) (acc temp : list Z) :
  let bpc := bytes_per_cluster (ex fs) in
  let r := to_read - len acc in
  vol_ok fs l -> (r <> 0 -> chain (fat_cache (ex fs)) cs) -> Forall (in_volume (ex fs) l) cs -> len temp = bpc ->
  0 <= off < bpc -> 0 <= r < 2 ^ 32 -> off + r <= bpc * Z.of_nat (length cs) \/ r = 0 -> off + r <= bpc * Z.of_nat fuel \/ r = 0 ->
  exists d, read_loop fuel fs (hd EXFAT_FAT_END cs) off to_read acc temp =
      Ret (acc ++ slice (file_bytes (ex fs) l cs) off r, mk_exfs d (ex fs)) /\ vol_ok (mk_exfs d (ex fs)) l.
Proof.
  cbv zeta. revert fs cs off acc temp. induction fuel as [|fuel IH]; intros fs cs off acc temp Hv Hch Hin Ht Hoff Hr Hlen Hfu;
    (destruct (decide (to_read - len acc = 0)) as [H0 | H0];
      [exists (ex_dev fs); rewrite H0, slice_nil, app_nil_r; unfold read_loop;
       replace (len acc <? to_read) with false by lia; cbn [andb]; destruct fs; done |]).
  { lia. }
  destruct cs as [|c cs]; [cbn [length] in Hlen; lia |]. cbn [length hd] in *. pose proof Hv as [_ Hok].
  pose proof (xo_spc _ Hok). pose proof (xo_bpc _ Hok). inversion Hin as [|? ? Hcv Hcsv]; subst.
  pose proof (Hch H0) as Hc. destruct (next_cluster_ok _ c cs Hok Hc) as (En & Hlive & Hcr).
  cbn [read_loop]. replace (len acc <? to_read) with true by lia. rewrite Hlive. cbn [andb].
  destruct (ex_read_cluster_ok fs l c temp Hv Hcv Ht) as (d & E & Hv'). rewrite E. cbn [obind ex]. rewrite En. cbn [obind].
  rewrite wrap_small by (split; lia). set (copy := if _ <? _ then _ else _).
  pose proof (len_cluster_bytes _ l c Hok Hcv) as Hcl.
  assert (Hcopy : 0 < copy <= bytes_per_cluster (ex fs) - off /\ copy <= to_read - len acc /\
            (copy = bytes_per_cluster (ex fs) - off \/ copy = to_read - len acc)).
  { unfold copy. destruct (Z.ltb_spec (to_read - len acc) (bytes_per_cluster (ex fs) - off)); lia. }
  clearbody copy. unfold len in Hcl. pose proof (length_slice (cluster_bytes (ex fs) l c) off copy ltac:(lia) ltac:(lia) ltac:(lia)) as Hsl.
  assert (Hacc : len (acc ++ slice (cluster_bytes (ex fs) l c) off copy) = len acc + copy) by (unfold len; rewrite length_app; lia).
  destruct (IH (mk_exfs d (ex fs)) cs 0 (acc ++ slice (cluster_bytes (ex fs) l c) off copy) (cluster_bytes (ex fs) l c)) as (d' & E' & Hv'');
    cbn [ex]; rewrite ?Hacc; try done; try lia.
  { intros Hne. apply (chain_rest _ c); [done |]. intros ->. cbn [length] in Hlen. lia. }
  exists d'. rewrite E'. split; [| done]. do 2 f_equal. rewrite <- app_assoc. f_equal. rewrite Hacc.
  unfold file_bytes. cbn [fmap list_fmap concat]. destruct Hcopy as (Hc1 & Hc2 & [Hc3 | Hc3]).
  - symmetry. rewrite slice_app_both by lia. rewrite Hcl, Hc3. f_equal. f_equal. lia.
  - replace (to_read - _) with 0 by lia. rewrite slice_nil, app_nil_r, Hc3. symmetry. apply slice_app_l; lia.
Qed.

Lemma read_chain_ok (fs : exfs D) (l : list Z) (ino : inode) (cs : list Z) (offset size : Z) :
  let bpc := bytes_per_cluster (ex fs) in
  let n := Z.min size (i_size ino - offset) in
  vol_ok fs l -> chain (fat_cache (ex fs)) cs -> first_cluster (i_private ino) = hd EXFAT_FAT_END cs ->
  Forall (in_volume (ex fs) l) cs -> 0 <= offset < i_size ino -> i_size ino < 2 ^ 32 -> 0 <= size < 2 ^ 32 ->
  offset < bpc * Z.of_nat (length cs) -> offset + n <= bpc * Z.of_nat (length cs) ->
  exists d, exfat_read stk fs ino offset size = Ret (Some (slice (file_bytes (ex fs) l cs) offset n), mk_exfs d (ex fs)) /\
    vol_ok (mk_exfs d (ex fs)) l.
Proof.
  cbv zeta. intros Hv Hch Hfirst Hin Ho Hb Hs Hsz Hsz2. pose proof Hv as [_ Hok]. pose proof (xo_spc _ Hok). pose proof (xo_bpc _ Hok).
  unfold exfat_read. set (bpc := bytes_per_cluster (ex fs)) in *.
  replace (i_size ino <=? offset) with false by lia. rewrite (wrap_small 64) by (split; lia).
  assert (Ht : (if i_size ino <? offset + size then u32 (i_size ino - offset) else size) = Z.min size (i_size ino - offset)).
  { destruct (Z.ltb_spec (i_size ino) (offset + size)); [rewrite wrap_small by (split; lia) |]; lia. }
  rewrite Ht, Hfirst. set (n := Z.min _ _) in *. replace (bpc =? 0) with false by lia.
  assert (Hq : offset = bpc * (offset / bpc) + offset mod bpc) by (apply Z.div_mod; lia).
  pose proof (Z.mod_pos_bound offset bpc ltac:(lia)) as Hm.
  assert (Hk : 0 <= offset / bpc < Z.of_nat (length cs)) by (split; [apply Z.div_pos; lia | nia]).
  assert (Hk32 : offset / bpc < 2 ^ 32) by (apply Z.div_lt_upper_bound; nia).
  rewrite (wrap_small 32 (offset / bpc)) by (split; lia).
  set (k := Z.to_nat (offset / bpc)). rewrite ex_skip_chain_ok by (done || lia). cbn [obind].
  pose proof (ex_chain_drop _ _ k Hch ltac:(lia)) as Hd.
  assert (Hlive : (hd EXFAT_FAT_END (drop k cs) <? 2) = false).
  { inversion Hd; cbn [hd]; lia. }
  rewrite Hlive.
  assert (Hsplit : file_bytes (ex fs) l cs = file_bytes (ex fs) l (take k cs) ++ file_bytes (ex fs) l (drop k cs)).
  { by rewrite <- ex_file_bytes_app, take_drop. }
  assert (Hlt : Z.of_nat (length (file_bytes (ex fs) l (take k cs))) = bpc * (offset / bpc)).
  { pose proof (len_file_bytes (ex fs) l (take k cs) Hok ltac:(by apply Forall_take)) as E. unfold len in E. rewrite E.
    rewrite length_take, Nat.min_l by lia. fold bpc. f_equal. lia. }
  destruct (ex_read_loop_ok (Z.to_nat (n / bpc) + 2) fs l (drop k cs) (offset mod bpc) n [] (cluster_buf stk fs)) as (d & E & Hv'); try done.
  - by apply Forall_drop.
  - by apply len_cluster_buf.
  - unfold len. cbn [length]. lia.
  - left. rewrite length_drop. fold bpc. unfold len. cbn [length]. nia.
  - left. fold bpc. unfold len. cbn [length]. pose proof (Z.div_mod n bpc ltac:(lia)). pose proof (Z.mod_pos_bound n bpc ltac:(lia)). nia.
  - exists d. rewrite E. cbn [obind]. split; [| done]. do 3 f_equal. cbn [app]. unfold len. cbn [length].
    rewrite Hsplit, slice_app_r by lia. rewrite Hlt. f_equal; lia.
Qed.

Lemma exfat_read_ok (fs : exfs D) (l : list Z) (ino : inode) (cs : list Z) (offset size : Z) :
  vol_ok fs l -> file_ok (ex fs) l ino cs -> 0 <= offset < i_size ino -> 0 <= size < 2 ^ 32 ->
  exists d, exfat_read stk fs ino offset size =
      Ret (Some (slice (file_bytes (ex fs) l cs) offset (Z.min size (i_size ino - offset))), mk_exfs d (ex fs)) /\
    vol_ok (mk_exfs d (ex fs)) l.
Proof. intros Hv [Hch Hnd Hfirst Hin Hsz Hb] Ho Hs. apply read_chain_ok; (done || lia). Qed.

(** One cluster: the bytes of the chunk replace those of the cluster from [off] on. *)
Lemma ex_write_chunk_ok (fs : exfs D) (l : list Z) (c off w : Z) (chunk : list Z) :
  let bpc := bytes_per_cluster (ex fs) in
  vol_ok fs l -> in_volume (ex fs) l c -> 0 <= off -> w = len chunk -> off + w <= bpc ->
  exists d, (if w =? bpc then do '(_, fs) <- exfat_write_cluster fs c chunk; Ret fs
             else do '(_, temp, fs) <- exfat_read_cluster fs c (cluster_buf stk fs);
                  do '(_, fs) <- exfat_write_cluster fs c (splice temp off chunk); Ret fs)%out = Ret (mk_exfs d (ex fs)) /\
    vol_ok (mk_exfs d (ex fs)) (splice l (cluster_pos (ex fs) c) (splice (cluster_bytes (ex fs) l c) off chunk)).
Proof.
  cbv zeta. intros Hv Hc Ho -> Hw. pose proof Hv as [_ Hok]. pose proof (len_cluster_bytes _ l c Hok Hc) as Hcl.
  destruct (Z.eqb_spec (len chunk) (bytes_per_cluster (ex fs))) as [E | E].
  - replace off with 0 in * by lia. rewrite (splice_all _ chunk) by (unfold len in *; lia).
    destruct (ex_write_cluster_ok fs l c chunk Hv Hc E) as (d & -> & Hv'). cbn [obind]. by exists d.
  - destruct (ex_read_cluster_ok fs l c (cluster_buf stk fs) Hv Hc (len_cluster_buf fs Hok)) as (d & -> & Hv').
    cbn [obind]. destruct (ex_write_cluster_ok (mk_exfs d (ex fs)) l c (splice (cluster_bytes (ex fs) l c) off chunk) Hv' Hc)
      as (d' & E' & Hv''); [cbn [ex]; unfold len in *; rewrite splice_length_nat; lia |].
    cbn [ex] in *. rewrite E'. cbn [obind]. by exists d'.
Qed.

Lemma ex_write_loop_ok (ks : list Z) (fs : exfs D) (l : list Z) (off : Z) (data : list Z) :
  let f := ex fs in
  vol_ok fs l -> NoDup ks -> Forall (in_volume f l) ks -> 0 <= off < bytes_per_cluster f ->
  off + len data <= bytes_per_cluster f * Z.of_nat (length ks) ->
  exists d l', write_loop stk ks off fs data = Ret (len data, mk_exfs d f) /\ vol_ok (mk_exfs d f) l' /\
    length l' = length l /\ file_bytes f l' ks = splice (file_bytes f l ks) off data /\
    (forall c, 2 <= c -> c ∉ ks -> cluster_bytes f l' c = cluster_bytes f l c).
Proof.
  cbv zeta. revert fs l off data. induction ks as [|c ks IH]; intros fs l off data Hv Hnd Hin Ho Hlen.
  { exists (ex_dev fs), l. destruct data; [| unfold len in Hlen; cbn [length] in Hlen; lia]. cbn [write_loop]. by rewrite splice_nil; destruct fs. }
  apply NoDup_cons in Hnd as [Hc Hnd]. inversion Hin as [|? ? Hcv Hksv]; subst. pose proof Hv as [_ Hok].
  pose proof (xo_spc _ Hok). pose proof (xo_bpc _ Hok).
  cbn [write_loop length] in *. rewrite (wrap_small 32) by (split; lia). set (w := if _ <? _ then _ else _).
  assert (Hw : 0 <= w /\ off + w <= bytes_per_cluster (ex fs) /\ w <= len data /\
            (off + w = bytes_per_cluster (ex fs) \/ w = len data)).
  { unfold w. destruct (Z.ltb_spec (len data) (bytes_per_cluster (ex fs) - off)); unfold len in *; lia. }
  clearbody w. destruct Hw as (Hw0 & Hw1 & Hw2 & Hw3). unfold len in Hw2.
  pose proof (length_slice data 0 w ltac:(lia) Hw0 ltac:(lia)) as Hcl.
  destruct (ex_write_chunk_ok fs l c off w (slice data 0 w) Hv Hcv ltac:(lia) (eq_sym Hcl) Hw1) as (d & -> & Hv1). cbn [obind].
  set (b := splice (cluster_bytes (ex fs) l c) off (slice data 0 w)) in *.
  pose proof (len_cluster_bytes _ l c Hok Hcv) as Hcb.
  assert (Hb : len b = bytes_per_cluster (ex fs)) by (unfold b, len in *; rewrite splice_length_nat; lia).
  set (l1 := splice l (cluster_pos (ex fs) c) b) in *.
  pose proof (ex_write_length _ l c b Hok Hcv Hb) as Hl1. fold l1 in Hl1.
  assert (Hks1 : Forall (in_volume (ex fs) l1) ks).
  { eapply Forall_impl; [exact Hksv |]. intros x. by apply in_volume_length. }
  assert (Hother : forall x, 2 <= x -> x <> c -> cluster_bytes (ex fs) l1 x = cluster_bytes (ex fs) l x).
  { intros x Hx Hne. unfold l1. rewrite ex_cluster_bytes_write by done. by rewrite decide_False. }
  assert (Hdr : len (drop (Z.to_nat w) data) = len data - w) by (unfold len; rewrite length_drop; lia).
  destruct (IH (mk_exfs d (ex fs)) l1 0 (drop (Z.to_nat w) data)) as (d' & l' & E & Hv' & Hl' & Hfb & Hot);
    cbn [ex] in *; rewrite ?Hdr; try done; try lia.
  exists d', l'. rewrite E. cbn [obind]. split; [do 2 f_equal; lia |].
  split; [done |]. split; [congruence |]. split.
  - unfold file_bytes in Hfb |- *. cbn [fmap list_fmap concat]. rewrite Hfb. pose proof (proj1 Hcv) as Hc2.
    rewrite (Hot c) by done. unfold l1 at 1. rewrite ex_cluster_bytes_write by done.
    rewrite decide_True by done. fold (file_bytes (ex fs) l1 ks) (file_bytes (ex fs) l ks).
    rewrite (ex_file_bytes_ext (ex fs) l l1 ks).
    2: { apply Forall_forall. intros x Hx. rewrite Forall_forall in Hksv. destruct (Hksv x Hx) as [Hx2 _].
         apply Hother; [done |]. by intros ->. }
    rewrite <- (slice_drop data w) at 2. unfold b, len in *. destruct Hw3 as [Hw3 | Hw3].
    + symmetry. apply splice_app_both; lia.
    + rewrite drop_ge by lia. rewrite app_nil_r, splice_nil. symmetry. apply splice_app_l; lia.
  - intros x Hx Hxn. apply not_elem_of_cons in Hxn as [Hxc Hxk]. rewrite Hot by done. by apply Hother.
Qed.

(** * Writing inside the chain of a file *)

(** The entry of the file in its directory, outside the clusters of the file. *)
Record entry_ok (f : exfat) (l : list Z) (ino : inode) (cs : list Z) : Prop := mk_entry_ok {
  en_vol : in_volume f l (dir_cluster (i_private ino));
  en_apart : dir_cluster (i_private ino) ∉ cs;
  en_range : 0 <= dir_entry (i_private ino) /\ 32 * dir_entry (i_private ino) + 64 <= bytes_per_cluster f
}.

(** A directory cluster in which the lengths of entry [i] are [n]. *)
Definition sized (buf : list Z) (i n : Z) : list Z :=
  splice (splice buf (32 * i + 56) (le_bytes 8 n)) (32 * i + 40) (le_bytes 8 n).

Lemma length_sized (buf : list Z) (i n : Z) : 0 <= i -> 32 * i + 64 <= len buf -> length (sized buf i n) = length buf.
Proof. intros H1 H2. unfold sized, len in *. rewrite !length_splice; rewrite ?length_splice; rewrite ?length_le_bytes; lia. Qed.

Lemma ex_grow_entry_ok (fs : exfs D) (l : list Z) (ino : inode) (cs : list Z) (n : Z) :
  let f := ex fs in
  let p := i_private ino in
  vol_ok fs l -> entry_ok f l ino cs ->
  exists d l', grow_entry stk fs ino n = Ret (with_size ino n, mk_exfs d f) /\ vol_ok (mk_exfs d f) l' /\ length l' = length l /\
    (forall c, 2 <= c -> cluster_bytes f l' c =
       if decide (c = dir_cluster p) then sized (cluster_bytes f l c) (dir_entry p) n else cluster_bytes f l c).
Proof.
  cbv zeta. intros Hv [Hd _ [Hi1 Hi2]]. pose proof Hv as [_ Hok]. pose proof (xo_spc _ Hok). pose proof (xo_bpc _ Hok).
  pose proof (len_cluster_bytes _ l _ Hok Hd) as Hcl. unfold grow_entry. cbn [with_size i_private].
  destruct (ex_read_cluster_ok fs l _ (cluster_buf stk fs) Hv Hd (len_cluster_buf fs Hok)) as (d & -> & Hv1). cbn [obind].
  rewrite (Z.mul_comm _ 32), (wrap_small 32) by (split; lia). set (i := dir_entry (i_private ino)) in *.
  set (buf := cluster_bytes (ex fs) l (dir_cluster (i_private ino))) in *. pose proof (length_sized buf i n Hi1 ltac:(lia)) as Hs.
  replace (32 * i + 32 + 24) with (32 * i + 56) by lia. replace (32 * i + 32 + 8) with (32 * i + 40) by lia.
  unfold poke at 1. rewrite length_le_bytes. unfold len in Hcl. replace ((0 <=? _) && _) with true by lia. cbn [obind].
  unfold poke. rewrite length_le_bytes, length_splice by (rewrite ?length_le_bytes; lia). replace ((0 <=? _) && _) with true by lia.
  cbn [obind]. fold (sized buf i n).
  destruct (ex_write_cluster_ok (mk_exfs d (ex fs)) l _ (sized buf i n) Hv1 Hd) as (d' & -> & Hv2); [unfold len; cbn [ex]; lia |].
  cbn [obind ex]. exists d'. eexists. split; [done |]. split; [exact Hv2 |]. cbn [ex].
  split; [apply ex_write_length; [done | done | unfold len; lia] |]. intros c Hc.
  rewrite ex_cluster_bytes_write by (done || unfold len; lia). destruct (decide _) as [-> |]; done.
Qed.

(** The part of [exfat_write] after the clusters are known. *)
Definition finish (fs : exfs D) (ino : inode) (clusters : list Z) (offset : Z) (data : list Z)
    : outcome (option Z * inode * exfs D) :=
  (do '(done, fs) <- write_loop stk clusters (offset mod bytes_per_cluster (ex fs)) fs data;
   do '(ino, fs) <-
     (if i_size ino <? u64 (offset + done) then grow_entry stk fs ino (u64 (offset + done)) else Ret (ino, fs));
   do f <- set_dirty (ex fs);
   Ret (Some done, ino, upd fs f))%out.

Lemma finish_ok (fs : exfs D) (l : list Z) (ino : inode) (ks cs : list Z) (offset : Z) (data : list Z) :
  let f := ex fs in
  let n := offset + len data in
  let p := i_private ino in
  vol_ok fs l -> NoDup ks -> Forall (in_volume f l) ks -> (forall c, c ∈ ks -> c ∈ cs) -> entry_ok f l ino cs ->
  0 <= offset -> n < 2 ^ 64 -> offset mod bytes_per_cluster f + len data <= bytes_per_cluster f * Z.of_nat (length ks) ->
  exists d l', finish fs ino ks offset data = Ret (Some (len data), with_size ino (Z.max (i_size ino) n), mk_exfs d (dirtied f)) /\
    vol_ok (mk_exfs d (dirtied f)) l' /\ length l' = length l /\
    file_bytes f l' ks = splice (file_bytes f l ks) (offset mod bytes_per_cluster f) data /\
    (forall c, 2 <= c -> c ∉ ks -> cluster_bytes f l' c =
       if decide (c = dir_cluster p /\ i_size ino < n) then sized (cluster_bytes f l c) (dir_entry p) n else cluster_bytes f l c).
Proof.
  cbv zeta. intros Hv Hnd Hin Hsub Hen Ho Hn Hlen. pose proof Hv as [_ Hok]. pose proof (xo_spc _ Hok). pose proof (xo_bpc _ Hok).
  pose proof (Z.mod_pos_bound offset (bytes_per_cluster (ex fs)) ltac:(lia)) as Hm. unfold finish.
  destruct (ex_write_loop_ok ks fs l _ data Hv Hnd Hin Hm Hlen) as (d & l1 & -> & Hv1 & Hl1 & Hfb & Hot). cbn [obind].
  assert (0 <= len data) by (unfold len; lia). rewrite (wrap_small 64) by (split; lia).
  destruct (set_dirty_ok _ Hok) as [Hd Hok2].
  destruct (Z.ltb_spec (i_size ino) (offset + len data)) as [Hg | Hg].
  - destruct (ex_grow_entry_ok (mk_exfs d (ex fs)) l1 ino cs (offset + len data) Hv1) as (d2 & l2 & -> & Hv2 & Hl2 & Hc2).
    { destruct Hen as [He1 He2 He3]. split; [| done | done]. by apply (in_volume_length _ l). }
    cbn [obind ex] in *. rewrite Hd. cbn [obind upd ex_dev]. exists d2, l2. rewrite Z.max_r by lia.
    split; [done |]. split; [split; [apply Hv2 | done] |]. split; [congruence |]. split.
    + rewrite <- Hfb. apply ex_file_bytes_ext, Forall_forall. intros c Hc. rewrite Forall_forall in Hin.
      rewrite Hc2 by apply (Hin c Hc). rewrite decide_False; [done |]. intros ->. by apply (en_apart _ _ _ _ Hen), Hsub.
    + intros c Hc Hck. rewrite Hc2, Hot by done. destruct (decide (c = _)) as [E | E].
      * by rewrite decide_True.
      * rewrite decide_False; [done |]. by intros [? _].
  - cbn [obind ex]. rewrite Hd. cbn [obind upd ex_dev]. exists d, l1. rewrite Z.max_l by lia. split; [by destruct ino |].
    split; [split; [apply Hv1 | done] |]. split; [done |]. split; [done |]. intros c Hc Hck. rewrite Hot by done.
    rewrite decide_False; [done | lia].
Qed.

(** Reading from exFAT delivers the bytes of the cluster chain: from any offset inside
    the file as many as asked for up to its end, across clusters, in a loop that ends; at or
    behind the end nothing.  The volume stays as it is. *)
Theorem exfat_read_spec (fs : exfs D) (l : list Z) (ino : inode) (cs : list Z) (offset size : Z) :
  vol_ok fs l -> file_ok (ex fs) l ino cs -> 0 <= offset -> 0 <= size < 2 ^ 32 ->
  exists d, exfat_read stk fs ino offset size =
      Ret (Some (slice (take (Z.to_nat (i_size ino)) (file_bytes (ex fs) l cs)) offset size), mk_exfs d (ex fs)) /\
    vol_ok (mk_exfs d (ex fs)) l.
Proof.
  intros Hv Hf Ho Hs. destruct (Z.leb_spec (i_size ino) offset).
  - exists (ex_dev fs). unfold exfat_read. replace (_ <=? _) with true by lia. unfold slice.
    rewrite drop_ge by (rewrite length_take; lia). rewrite take_nil. by destruct fs.
  - destruct (exfat_read_ok fs l ino cs offset size Hv Hf ltac:(lia) Hs) as (d & -> & Hv'). exists d. split; [| done].
    do 3 f_equal. unfold slice. rewrite !take_drop_commute, take_take. do 2 f_equal. lia.
Qed.

(** The write as its last part, once the clusters are found. *)
Lemma write_finish (fs : exfs D) (l : list Z) (ino : inode) (cs : list Z) (offset : Z) (data : list Z) :
  let bpc := bytes_per_cluster (ex fs) in
  let k := offset / bpc in
  let n := (offset + len data - 1) / bpc - k + 1 in
  ex_ok (ex fs) -> file_ok (ex fs) l ino cs -> 0 <= offset -> 0 < len data ->
  offset + len data <= bpc * Z.of_nat (length cs) -> offset + len data < 2 ^ 32 ->
  exfat_write stk fs ino offset data = finish fs ino (take (Z.to_nat n) (drop (Z.to_nat k) cs)) offset data.
Proof.
  cbv zeta. intros Hok [Hch Hnd Hfirst Hin Hsz Hb] Ho Hs Hlen Hlt. pose proof (xo_spc _ Hok). pose proof (xo_bpc _ Hok).
  unfold exfat_write. replace (len data =? 0) with false by lia. replace (bytes_per_cluster (ex fs) =? 0) with false by lia.
  rewrite (wrap_small 64) by (split; lia).
  destruct (needed_range (bytes_per_cluster (ex fs)) offset (len data) (length cs)) as (K1 & K2 & K3 & K4 & K5 & K6 & K7); try lia.
  rewrite !(wrap_small 32 (_ / _)) by (split; lia). rewrite (wrap_small 32) by (split; lia).
  set (bpc := bytes_per_cluster (ex fs)) in *. set (k := offset / bpc) in *.
  set (n := (offset + len data - 1) / bpc - k + 1) in *. clearbody n k. replace (n =? 0) with false by lia.
  rewrite Hfirst, ex_skip_chain_ok by (done || lia). cbn [obind].
  rewrite ex_gather_ok; [| done | intros _; apply ex_chain_drop; [done | lia] | rewrite length_drop; lia]. cbn [obind app].
  unfold upd. by destruct fs.
Qed.

(** C19: Writing inside the chain of an exFAT file replaces exactly those bytes: the number
    of bytes is returned, the size grows to the end of what was written, in the inode and
    in both lengths of the directory entry; every other cluster stays, and a read of the
    same range returns what was written. *)
Theorem exfat_write_spec (fs : exfs D) (l : list Z) (ino : inode) (cs : list Z) (offset : Z) (data : list Z) :
  let f := ex fs in
  let n := offset + len data in
  let p := i_private ino in
  let ino' := with_size ino (Z.max (i_size ino) n) in
  vol_ok fs l -> file_ok f l ino cs -> entry_ok f l ino cs -> 0 <= offset -> 0 < len data ->
  n <= bytes_per_cluster f * Z.of_nat (length cs) -> n < 2 ^ 32 ->
  exists d l', exfat_write stk fs ino offset data = Ret (Some (len data), ino', mk_exfs d (dirtied f)) /\
    vol_ok (mk_exfs d (dirtied f)) l' /\ file_ok (dirtied f) l' ino' cs /\
    file_bytes f l' cs = splice (file_bytes f l cs) offset data /\
    (forall c, 2 <= c -> c ∉ cs -> cluster_bytes f l' c =
       if decide (c = dir_cluster p /\ i_size ino < n) then sized (cluster_bytes f l c) (dir_entry p) n else cluster_bytes f l c) /\
    exists d', exfat_read stk (mk_exfs d (dirtied f)) ino' offset (len data) = Ret (Some data, mk_exfs d' (dirtied f)).
Proof.
  cbv zeta. intros Hv Hf Hen Ho Hs Hlen Hlt. pose proof Hv as [_ Hok]. pose proof (xo_spc _ Hok). pose proof (xo_bpc _ Hok).
  rewrite (write_finish fs l ino cs offset data Hok Hf Ho Hs Hlen Hlt). pose proof Hf as [Hch Hnd Hfirst Hin Hsz Hb].
  destruct (needed_range (bytes_per_cluster (ex fs)) offset (len data) (length cs)) as (K1 & K2 & K3 & K4 & K5 & K6 & K7); try lia.
  set (bpc := bytes_per_cluster (ex fs)) in *. set (k := offset / bpc) in *.
  set (n := (offset + len data - 1) / bpc - k + 1) in *. clearbody n k.
  set (ks := take (Z.to_nat n) (drop (Z.to_nat k) cs)).
  assert (Hcs : cs = take (Z.to_nat k) cs ++ ks ++ drop (Z.to_nat n) (drop (Z.to_nat k) cs)).
  { unfold ks. by rewrite take_drop, take_drop. }
  assert (Hkl : length ks = Z.to_nat n) by (unfold ks; rewrite length_take, length_drop; lia).
  assert (Hks : Forall (in_volume (ex fs) l) ks) by (unfold ks; by apply Forall_take, Forall_drop).
  assert (Hksub : forall c, c ∈ ks -> c ∈ cs) by (intros c; rewrite Hcs; set_solver).
  assert (Hnd' := Hnd). rewrite Hcs in Hnd'. apply NoDup_app in Hnd' as (Hn1 & Hn2 & (Hn3 & Hn4 & Hn5)%NoDup_app).
  destruct (finish_ok fs l ino ks cs offset data Hv Hn3 Hks Hksub Hen Ho ltac:(lia)) as (d & l' & E & Hv' & Hl' & Hfb & Hot).
  { rewrite Hkl. fold bpc. lia. }
  assert (Hr2 : forall c, c ∈ cs -> 2 <= c) by (intros c Hc; rewrite Forall_forall in Hin; apply (Hin c Hc)).
  assert (Hkeep : forall c, c ∈ cs -> c ∉ ks -> cluster_bytes (ex fs) l' c = cluster_bytes (ex fs) l c).
  { intros c Hc Hck. rewrite Hot by auto. rewrite decide_False; [done |]. intros [-> _]. by apply (en_apart _ _ _ _ Hen). }
  assert (Hbytes : file_bytes (ex fs) l' cs = splice (file_bytes (ex fs) l cs) offset data).
  { rewrite Hcs at 1 2. rewrite !ex_file_bytes_app, Hfb. symmetry.
    set (pre := file_bytes (ex fs) l (take (Z.to_nat k) cs)).
    assert (Hpre : Z.of_nat (length pre) = bpc * k).
    { pose proof (len_file_bytes (ex fs) l (take (Z.to_nat k) cs) Hok ltac:(by apply Forall_take)) as E2. unfold len in E2. fold pre in E2.
      rewrite E2, length_take, Nat.min_l by lia. rewrite Z2Nat.id by lia. done. }
    rewrite splice_app_r by lia. rewrite Hpre. replace (offset - bpc * k) with (offset mod bpc) by lia.
    rewrite splice_app_l.
    + f_equal; [| f_equal]; symmetry; apply ex_file_bytes_ext, Forall_forall; intros c Hc; apply Hkeep.
      * rewrite Hcs. set_solver.
      * intros Hck. by apply (Hn2 c Hc), elem_of_app; left.
      * rewrite Hcs. set_solver.
      * intros Hck. by apply (Hn4 c Hck).
    + lia.
    + pose proof (len_file_bytes (ex fs) l ks Hok Hks) as E2. unfold len in E2, K5. rewrite E2, Hkl. fold bpc. lia. }
  assert (Hf' : file_ok (dirtied (ex fs)) l' (with_size ino (Z.max (i_size ino) (offset + len data))) cs).
  { split; [by apply dirtied_chain | done | done | | cbn; fold bpc; lia | cbn; lia].
    eapply Forall_impl; [exact Hin |]. intros c. by apply (in_volume_length (ex fs)). }
  exists d, l'. split; [exact E |]. split; [done |]. split; [done |]. split; [done |]. split.
  - intros c Hc Hcn. apply Hot; [done |]. intros Hck. by apply Hcn, Hksub.
  - destruct (exfat_read_ok (mk_exfs d (dirtied (ex fs))) l' _ cs offset (len data) Hv' Hf') as (d' & E' & _);
      [cbn; lia | unfold len in *; lia |].
    exists d'. rewrite E'. do 3 f_equal. cbn [ex with_size i_size]. change (file_bytes (dirtied (ex fs)) l' cs) with (file_bytes (ex fs) l' cs).
    rewrite Hbytes, Z.min_l by lia. apply slice_splice_eq; [done |].
    pose proof (len_file_bytes (ex fs) l cs Hok Hin) as E2. unfold len in *. fold bpc in E2. lia.
Qed.

(** * A write behind the end of the chain *)

Lemma append_finish (fs : exfs D) (l : list Z) (ino : inode) (cs : list Z) (c : Z) (data : list Z) :
  let bpc := bytes_per_cluster (ex fs) in
  let offset := bpc * Z.of_nat (length cs) in
  ex_ok (ex fs) -> file_ok (ex fs) l ino cs -> 0 < len data <= bpc -> offset + len data < 2 ^ 32 ->
  free_cluster (ex fs) = Ret c -> 2 <= c < fat_entries (ex fs) ->
  exfat_write stk fs ino offset data = finish (upd fs (taken (ex fs) c)) (with_first ino c) [c] offset data.
Proof.
  cbv zeta. intros Hok [Hch Hnd Hfirst Hin Hsz Hb] Hs Hlt Ec Hc. pose proof (xo_spc _ Hok). pose proof (xo_bpc _ Hok).
  set (bpc := bytes_per_cluster (ex fs)) in *. set (m := Z.of_nat (length cs)) in *. unfold exfat_write. fold bpc.
  replace (len data =? 0) with false by lia. replace (bpc =? 0) with false by lia.
  assert (Hm : 0 <= m < 2 ^ 32) by nia. assert (0 <= bpc * m) by nia.
  rewrite (wrap_small 64) by (split; lia). rewrite (Z.mul_comm bpc m), Z.div_mul by lia.
  replace ((m * bpc + len data - 1) / bpc) with m by (symmetry; replace (m * bpc + len data - 1) with (len data - 1 + m * bpc) by lia;
    rewrite Z.div_add by lia; rewrite Z.div_small by lia; lia).
  rewrite !(wrap_small 32 m) by (split; lia). replace (m - m + 1) with 1 by lia. change (u32 1) with 1. cbn [Z.eqb].
  rewrite Hfirst, ex_skip_chain_ok by (done || lia). cbn [obind]. rewrite drop_ge by lia. cbn [hd].
  change (Z.to_nat 1) with 1%nat. cbn [gather]. change (live EXFAT_FAT_END) with false. cbn [negb]. rewrite Ec. cbn [obind].
  replace (c =? 0) with false by lia. cbn [last obind]. rewrite cache_set_in by (done || lia). cbn [obind app].
  unfold finish, taken. cbn [upd ex ex_dev with_cache bytes_per_cluster]. done.
Qed.

(** Reading at or behind the end of a chain that is shorter than the file. *)
Lemma read_beyond (fs : exfs D) (ino : inode) (c offset size : Z) :
  let bpc := bytes_per_cluster (ex fs) in
  ex_ok (ex fs) -> chain (fat_cache (ex fs)) [c] -> first_cluster (i_private ino) = c ->
  bpc <= offset < i_size ino -> i_size ino < 2 ^ 32 -> 0 <= size < 2 ^ 32 ->
  exists r, exfat_read stk fs ino offset size = Ret (r, fs) /\ (r = Some [] \/ r = None).
Proof.
  cbv zeta. intros Hok Hch Hfirst Ho Hb Hs. pose proof (xo_spc _ Hok). pose proof (xo_bpc _ Hok). pose proof (xo_entries _ Hok).
  unfold exfat_read. replace (i_size ino <=? offset) with false by lia. set (n := if _ <? _ then _ else _). clearbody n.
  set (bpc := bytes_per_cluster (ex fs)) in *. replace (bpc =? 0) with false by lia.
  assert (Hk : 1 <= offset / bpc < 2 ^ 32) by (split; [apply Z.div_le_lower_bound; lia | apply Z.div_lt_upper_bound; nia]).
  rewrite (wrap_small 32) by (split; lia). destruct (Z.to_nat (offset / bpc)) as [|k] eqn:Ek; [lia |].
  destruct (next_cluster_ok (ex fs) c [] Hok Hch) as (En & _ & Hc). rewrite Hfirst. cbn [skip_chain]. replace (2 <=? c) with true by lia.
  rewrite En. cbn [hd obind]. destruct k as [|k].
  - cbn [skip_chain obind]. change (EXFAT_FAT_END <? 2) with false. exists (Some []). split; [| by left].
    destruct (Z.to_nat (n / bpc) + 2)%nat; cbn [read_loop]; change (live EXFAT_FAT_END) with false; rewrite andb_false_r; cbn [obind]; done.
  - exists None. split; [| by right]. cbn [skip_chain]. change (2 <=? EXFAT_FAT_END) with true. unfold exfat_next_cluster.
    replace (fat_entries (ex fs) <=? EXFAT_FAT_END) with true by lia. cbn [obind]. by destruct k.
Qed.

(** C22: Appending to an exFAT file whose size is exactly that of its clusters, with at most
    one cluster of data, loses the file: the write reports
    success and the size grows, but the new cluster becomes the first one of the file
    instead of the last.  The bytes that were written are then read at offset 0, where the
    old contents were, and at the offset they were written to nothing is read. *)
Theorem exfat_append_replaces (fs : exfs D) (l : list Z) (ino : inode) (cs : list Z) (c : Z) (data : list Z) :
  let f := ex fs in
  let offset := i_size ino in
  vol_ok fs l -> file_ok f l ino cs -> offset = bytes_per_cluster f * Z.of_nat (length cs) ->
  0 < len data <= bytes_per_cluster f -> offset + len data < 2 ^ 32 ->
  free_cluster f = Ret c -> in_volume f l c -> c < fat_entries f -> entry_ok f l ino (c :: cs) ->
  exists d ino' f', exfat_write stk fs ino offset data = Ret (Some (len data), ino', mk_exfs d f') /\
    first_cluster (i_private ino') = c /\ (c ∉ cs) /\ i_size ino' = offset + len data /\
    (exists d', exfat_read stk (mk_exfs d f') ino' 0 (len data) = Ret (Some data, mk_exfs d' f')) /\
    (exists r, exfat_read stk (mk_exfs d f') ino' offset (len data) = Ret (r, mk_exfs d f') /\ (r = Some [] \/ r = None)).
Proof.
  cbv zeta. intros Hv Hf Hsz Hs Hlt Ec Hcv Hce Hen. pose proof Hv as [Hh Hok]. pose proof (xo_spc _ Hok). pose proof (xo_bpc _ Hok).
  assert (Hc : 2 <= c < fat_entries (ex fs)) by (destruct Hcv; lia). pose proof (fi_chain _ _ _ _ Hf) as Hch.
  assert (Hcs : (1 <= length cs)%nat) by (inversion Hch; cbn; lia). destruct (ex_taken_ok (ex fs) c Hok Hc) as [Hokt Hcht].
  assert (Hcn : c ∉ cs).
  { apply (free_not_in _ _ _ Hch). destruct (free_cluster_ok (ex fs) Hok) as [(x & _ & E & _ & Ex) | [_ Ex]]; rewrite Ex in Ec; injection Ec as <-; [done | lia]. }
  rewrite Hsz in Hlt |- *. rewrite (append_finish fs l ino cs c data Hok Hf Hs Hlt Ec Hc).
  set (bpc := bytes_per_cluster (ex fs)) in *. set (m := Z.of_nat (length cs)) in *. assert (0 <= bpc * m) by nia.
  assert (Hmod : (bpc * m) mod bpc = 0) by (rewrite Z.mul_comm; apply Z.mod_mul; lia).
  assert (Hvt : vol_ok (upd fs (taken (ex fs) c)) l) by (split; done).
  destruct (finish_ok (upd fs (taken (ex fs) c)) l (with_first ino c) [c] (c :: cs) (bpc * m) data) as (d & l' & E & Hv' & Hl' & Hfb & _); try done.
  { apply NoDup_singleton. } { by constructor. } { set_solver. } { by destruct Hen. } { lia. }
  { cbn [upd ex length]. change (bytes_per_cluster (taken (ex fs) c)) with bpc. lia. }
  change (ex (upd fs (taken (ex fs) c))) with (taken (ex fs) c) in *. change (bytes_per_cluster (taken (ex fs) c)) with bpc in *.
  cbn [with_first i_size i_private] in *. rewrite Hsz, Z.max_r in E by lia. rewrite Hmod in Hfb.
  set (ino' := with_size (with_first ino c) (bpc * m + len data)) in *. set (f' := dirtied (taken (ex fs) c)) in *.
  assert (Hchd : chain (fat_cache f') [c]) by by apply dirtied_chain.
  assert (Hin' : in_volume f' l' c) by (by apply (in_volume_length (ex fs) l)).
  pose proof (len_cluster_bytes (taken (ex fs) c) l c Hokt Hcv) as Hcl. unfold len in Hcl.
  exists d, ino', f'. split; [exact E |]. split; [done |]. split; [done |]. split; [done |]. split.
  - destruct (read_chain_ok (mk_exfs d f') l' ino' [c] 0 (len data)) as (d' & E' & _); try done.
    { by constructor. } { unfold ino'; cbn; lia. } { unfold ino'; cbn; lia. }
    { cbn [ex length]. change (bytes_per_cluster f') with bpc. lia. } { unfold ino'. cbn [ex length with_size i_size]. change (bytes_per_cluster f') with bpc. lia. }
    exists d'. rewrite E'. do 3 f_equal. unfold ino'. cbn [ex with_size i_size]. rewrite Z.min_l by lia.
    change (file_bytes f' l' [c]) with (file_bytes (taken (ex fs) c) l' [c]). rewrite Hfb. unfold file_bytes. cbn [fmap list_fmap concat].
    rewrite app_nil_r. apply slice_splice_eq; [lia |]. change (bytes_per_cluster (taken (ex fs) c)) with bpc in Hcl. unfold len in *. lia.
  - apply (read_beyond (mk_exfs d f') ino' c); try done; unfold ino'; cbn [ex with_size i_size].
    + apply Hv'.
    + change (bytes_per_cluster f') with bpc. nia.
    + unfold len in *. lia.
Qed.
End files.
