(* ===== verification/ExfatDir.v ===== *)
(** Directories in the exFAT driver (Exfat.v): a cluster as a list of entry sets, and what
    lookup, listing, creation, renaming and deletion mean on that list. *)

From S2P Require Import Prelude Bytes Buffer SectorDev Exfat ExfatData.

(** * Entry sets *)

(** The three entries of a file as the driver writes them: file, stream and name. *)
Record is_set (b : list Z) : Prop := mk_is_set {
  st_length : length b = 96%nat;
  st_file : field b 0 1 = EXFAT_ENTRY_FILE;
  st_count : field b 1 1 = 2;
  st_stream : field b 32 1 = EXFAT_ENTRY_STREAM;
  st_name : field b 64 1 = EXFAT_ENTRY_NAME
}.

(** The ASCII characters up to the first 0, of [n] 16-bit numbers from offset [o]. *)
Fixpoint chars (n : nat) (b : list Z) (o : Z) : list Z :=
  match n with
  | O => []
  | S n' =>
      let c := field b o 2 in
      if c =? 0 then [] else (if c <? 128 then [c] else []) ++ chars n' b (o + 2)
  end.

Definition set_name (b : list Z) : list Z := chars 15 b 66.
Definition set_type (b : list Z) : Z := if negb (Z.land (field b 4 2) EXFAT_ATTR_DIRECTORY =? 0) then FT_DIR else FT_REG_FILE.
Definition set_first (b : list Z) : Z := field b 52 4.
Definition set_size (b : list Z) : Z := field b 56 8.

Lemma length_chars (n : nat) (b : list Z) (o : Z) : (length (chars n b o) <= n)%nat.
Proof.
  revert o. induction n as [|n IH]; intros o; cbn [chars]; [done |]. destruct (_ =? 0); [cbn; lia |].
  rewrite length_app. specialize (IH (o + 2)). destruct (_ <? 128); cbn [length]; lia.
Qed.

(** A field inside one part of a buffer. *)
Lemma fld_in (pre b post : list Z) (o : Z) (n : nat) :
  0 <= o -> o + Z.of_nat n <= len b -> fld (pre ++ b ++ post) (len pre + o) n = Ret (field b o n).
Proof.
  intros Ho Hn. unfold fld, len in *. rewrite !length_app. replace (_ && _) with true by lia. f_equal.
  rewrite field_app_skip by lia. replace (Z.of_nat (length pre) + o - Z.of_nat (length pre)) with o by lia.
  unfold field. rewrite drop_app_le by lia. by rewrite take_app_le by (rewrite length_drop; lia).
Qed.

(** Adding to a name that is short enough never fails. *)
Definition adds (add : list Z -> Z -> outcome (list Z)) : Prop :=
  forall acc c, (length acc < 15)%nat -> add acc c = Ret (acc ++ [c]).

Lemma name_chars_ok (n : nat) (add : list Z -> Z -> outcome (list Z)) (pre b post : list Z) (o : Z) (acc : list Z) :
  adds add -> 0 <= o -> o + 2 * Z.of_nat n <= len b -> (length acc + n <= 15)%nat ->
  name_chars n add (pre ++ b ++ post) (len pre + o) acc = Ret (acc ++ chars n b o).
Proof.
  intros Ha. revert o acc. induction n as [|n IH]; intros o acc Ho Hn Hl; cbn [name_chars chars]; [by rewrite app_nil_r |].
  rewrite fld_in by (lia || done). cbn [obind]. destruct (field b o 2 =? 0); [by rewrite app_nil_r |].
  replace (len pre + o + 2) with (len pre + (o + 2)) by lia. destruct (field b o 2 <? 128).
  - rewrite Ha by lia. cbn [obind]. rewrite IH; [by rewrite <- app_assoc | lia | lia | rewrite length_app; cbn [length]; lia].
  - cbn [obind app]. apply IH; lia.
Qed.

Lemma name_entries_ok (add : list Z -> Z -> outcome (list Z)) (stop : list Z -> bool) (pre b post : list Z) :
  adds add -> stop [] = false -> is_set b ->
  name_entries (Z.to_nat (2 - 1)) add stop (pre ++ b ++ post) (len pre + 64) [] = Ret (set_name b).
Proof.
  intros Ha Hs [Hl _ _ _ Hn]. change (Z.to_nat (2 - 1)) with 1%nat. cbn [name_entries]. rewrite Hs.
  rewrite fld_in by (unfold len; lia). rewrite Hn. cbn [obind]. change (EXFAT_ENTRY_NAME =? EXFAT_ENTRY_NAME) with true. cbv iota.
  replace (len pre + 64 + 2) with (len pre + 66) by lia.
  rewrite name_chars_ok; [done | done | lia | unfold len; lia | cbn; lia].
Qed.

Lemma adds_to (cap : Z) : 15 <= cap -> adds (add_to cap).
Proof. intros Hc acc c Hl. unfold add_to, len. by replace (_ <? cap) with true by lia. Qed.

Lemma ascii_name_ok (pre b post : list Z) :
  is_set b -> ascii_name (pre ++ b ++ post) (len pre + 32) 2 = Ret (set_name b).
Proof.
  intros Hb. unfold ascii_name. replace (len pre + 32 + 32) with (len pre + 64) by lia.
  rewrite name_entries_ok by (done || by apply adds_to). cbn [obind]. unfold ended, len.
  pose proof (length_chars 15 b 66) as Hl. fold (set_name b) in Hl. by replace (_ <? 256) with true by lia.
Qed.

(** One set is passed or found. *)
Lemma scan_set (fuel : nat) (pre b post name : list Z) :
  is_set b ->
  scan (S fuel) (pre ++ b ++ post) name (len pre) =
  if bool_decide (set_name b = name) then Ret (Some (len pre, len pre + 32))
  else scan fuel (pre ++ b ++ post) name (len pre + 96).
Proof.
  intros Hb. pose proof Hb as [Hl Hf Hc Hs Hn]. cbn [scan]. unfold len at 2. rewrite !length_app.
  replace (len pre <? _) with true by (unfold len; lia).
  rewrite <- (Z.add_0_r (len pre)) at 1. rewrite fld_in by (unfold len; lia). rewrite Hf. cbn [obind].
  change (EXFAT_ENTRY_FILE =? 0) with false. cbv iota. unfold scan_step. rewrite fld_in by (unfold len; lia). rewrite Hc. cbn [obind].
  change (EXFAT_ENTRY_FILE =? EXFAT_ENTRY_FILE) with true. cbv iota zeta. change (Z.to_nat 2) with 2%nat. cbn [find_stream].
  rewrite fld_in by (unfold len; lia). rewrite Hs. cbn [obind]. change (EXFAT_ENTRY_STREAM =? EXFAT_ENTRY_STREAM) with true. cbv iota. cbn [obind].
  rewrite ascii_name_ok by done. cbn [obind]. destruct (bool_decide _); done.
Qed.

(** Entries whose type is 0. *)
Definition blank (rest : list Z) : Prop := forall i, 0 <= i -> 32 * i < len rest -> field rest (32 * i) 1 = 0.

Lemma blank_drop (rest : list Z) (k : Z) : 0 <= k -> blank rest -> blank (drop (Z.to_nat (32 * k)) rest).
Proof.
  intros Hk Hb i Hi Hl. unfold len in Hl. rewrite length_drop in Hl. unfold field. rewrite drop_drop.
  replace (Z.to_nat (32 * k) + Z.to_nat (32 * i))%nat with (Z.to_nat (32 * (k + i))) by lia.
  apply (Hb (k + i)); unfold len; lia.
Qed.

Lemma blank_zeros (n : nat) : blank (replicate n 0).
Proof.
  intros i Hi Hl. unfold len in Hl. rewrite length_replicate in Hl. unfold field. rewrite drop_replicate.
  destruct (n - Z.to_nat (32 * i))%nat eqn:E; [lia | done].
Qed.

(** The next entry has type 0. *)
Definition ends (rest : list Z) : Prop := 0 < len rest -> field rest 0 1 = 0.

Lemma blank_ends (rest : list Z) : blank rest -> ends rest.
Proof. intros Hb Hl. apply (Hb 0); lia. Qed.

(** The first set of a name, by its index. *)
Definition find_set (name : list Z) (bs : list (list Z)) : option (nat * list Z) := list_find (fun b => set_name b = name) bs.

Lemma len_sets (bs : list (list Z)) : Forall is_set bs -> len (concat bs) = 96 * Z.of_nat (length bs).
Proof.
  unfold len. induction 1 as [|b bs Hb _ IH]; [done |]. cbn [concat length]. rewrite length_app, (st_length b Hb). lia.
Qed.

Lemma len_app (a b : list Z) : len (a ++ b) = len a + len b.
Proof. unfold len. rewrite length_app. lia. Qed.

(** The scan stops behind the last set. *)
Lemma scan_ends (fuel : nat) (pre rest name : list Z) : ends rest -> scan (S fuel) (pre ++ rest) name (len pre) = Ret None.
Proof.
  intros Hb. cbn [scan]. rewrite len_app. destruct (Z.ltb_spec (len pre) (len pre + len rest)) as [Hl | Hl]; [| done].
  rewrite <- (Z.add_0_r (len pre)) at 1. rewrite <- (app_nil_r rest) at 1. rewrite fld_in by lia.
  by rewrite Hb by lia.
Qed.

Lemma scan_sets (bs : list (list Z)) (fuel : nat) (pre rest name : list Z) :
  Forall is_set bs -> ends rest -> (length bs < fuel)%nat ->
  scan fuel (pre ++ concat bs ++ rest) name (len pre) =
  Ret (match find_set name bs with
       | Some (i, _) => Some (len pre + 96 * Z.of_nat i, len pre + 96 * Z.of_nat i + 32)
       | None => None
       end).
Proof.
  intros HF Hr. revert fuel pre. induction HF as [|b bs Hb _ IH]; intros fuel pre Hf; (destruct fuel as [|fuel]; [cbn in Hf; lia |]).
  { by apply scan_ends. }
  cbn [concat]. rewrite <- app_assoc, scan_set by done. unfold find_set. cbn [list_find].
  destruct (bool_decide_reflect (set_name b = name)) as [E | E].
  - rewrite decide_True by done. do 3 f_equal; lia.
  - rewrite decide_False by done. rewrite app_assoc. pose proof (st_length b Hb) as Hl.
    replace (len pre + 96) with (len (pre ++ b)) by (rewrite len_app; unfold len; lia).
    rewrite IH by (cbn in Hf; lia). unfold find_set. destruct (list_find _ bs) as [[i x] |]; cbn [fmap option_fmap option_map prod_map]; [| done].
    rewrite len_app. unfold len at 2 4. rewrite Hl. do 3 f_equal; cbn [fst]; lia.
Qed.

(** The first free entry is the one behind the last set. *)
Lemma free_entry_sets (bs : list (list Z)) (n : nat) (pre rest : list Z) (i : Z) :
  Forall is_set bs -> ends rest -> len pre = 32 * i -> 0 < len rest -> (3 * length bs < n)%nat ->
  free_entry n i (pre ++ concat bs ++ rest) = Ret (Some (i + 3 * Z.of_nat (length bs))).
Proof.
  intros HF Hr. revert n pre i. induction HF as [|b bs Hb _ IH]; intros n pre i Hp Hl Hn.
  { destruct n as [|n]; [cbn in Hn; lia |]. cbn [free_entry concat app]. rewrite <- Hp, <- (Z.add_0_r (len pre)).
    rewrite <- (app_nil_r rest), fld_in by lia. rewrite Hr by lia. cbn. do 2 f_equal. lia. }
  pose proof Hb as [Hlb Hf Hc Hs Hnm]. cbn [length] in *. do 3 (destruct n as [|n]; [lia |]). cbn [free_entry concat].
  rewrite <- app_assoc. replace (32 * i) with (len pre + 0) by lia. rewrite fld_in by (unfold len; lia). rewrite Hf. cbn [obind].
  change (EXFAT_ENTRY_FILE =? 0) with false. cbv iota. replace (32 * (i + 1)) with (len pre + 32) by lia.
  rewrite fld_in by (unfold len; lia). rewrite Hs. cbn [obind]. change (EXFAT_ENTRY_STREAM =? 0) with false. cbv iota.
  replace (32 * (i + 1 + 1)) with (len pre + 64) by lia. rewrite fld_in by (unfold len; lia). rewrite Hnm. cbn [obind].
  change (EXFAT_ENTRY_NAME =? 0) with false. cbv iota. rewrite app_assoc.
  rewrite IH; [do 2 f_equal; lia | rewrite len_app; unfold len in *; lia | done | lia].
Qed.

(** * Lookup and listing *)

(** A directory whose only cluster holds the sets [bs] and behind them an entry of type 0. *)
Record dir_ok (f : exfat) (l : list Z) (dir : inode) (bs : list (list Z)) (rest : list Z) : Prop := mk_dir_ok {
  do_mode : i_mode dir = FT_DIR;
  do_chain : chain (fat_cache f) [first_cluster (i_private dir)];
  do_vol : in_volume f l (first_cluster (i_private dir));
  do_bytes : cluster_bytes f l (first_cluster (i_private dir)) = concat bs ++ rest;
  do_sets : Forall is_set bs;
  do_ends : ends rest
}.

(** The inode of the set [b], the [i]-th of its directory. *)
Definition inode_at (dir : inode) (i : nat) (b : list Z) : inode :=
  let c := first_cluster (i_private dir) in
  mk_inode (set_type b) (set_size b) (mk_priv (set_first b) (set_size b) c (3 * Z.of_nat i) c).

Lemma find_set_Some (name : list Z) (bs : list (list Z)) (i : nat) (b : list Z) :
  find_set name bs = Some (i, b) -> bs !! i = Some b /\ set_name b = name.
Proof. intros E. apply list_find_Some in E as (E1 & E2 & _). done. Qed.

Lemma sets_split (bs : list (list Z)) (i : nat) (b : list Z) :
  bs !! i = Some b -> concat bs = concat (take i bs) ++ b ++ concat (drop (S i) bs).
Proof. intros E. rewrite <- (take_drop_middle bs i b E) at 1. by rewrite concat_app. Qed.

Section dirs.
Context {D : Type} `{SectorDev D}.
Variable stk : Z -> Z.

Lemma dir_room (f : exfat) (l : list Z) (dir : inode) (bs : list (list Z)) (rest : list Z) :
  ex_ok f -> dir_ok f l dir bs rest -> bytes_per_cluster f = 96 * Z.of_nat (length bs) + len rest.
Proof.
  intros Hok [_ _ Hv Hb Hs _]. pose proof (len_cluster_bytes f l _ Hok Hv) as Hl. rewrite Hb, len_app, len_sets in Hl by done. done.
Qed.

Lemma read_dir (fs : exfs D) (l : list Z) (dir : inode) (bs : list (list Z)) (rest buf : list Z) :
  vol_ok fs l -> dir_ok (ex fs) l dir bs rest -> len buf = bytes_per_cluster (ex fs) ->
  exists d, exfat_read_cluster fs (first_cluster (i_private dir)) buf = Ret (true, concat bs ++ rest, mk_exfs d (ex fs)) /\
    vol_ok (mk_exfs d (ex fs)) l.
Proof. intros Hv Hd Hb. rewrite <- (do_bytes _ _ _ _ _ Hd). apply ex_read_cluster_ok; [done | apply Hd | done]. Qed.

Lemma lookup_ok (fs : exfs D) (l : list Z) (dir : inode) (bs : list (list Z)) (rest name : list Z) :
  vol_ok fs l -> dir_ok (ex fs) l dir bs rest ->
  exists d, exfat_lookup stk fs dir name =
      Ret (match find_set name bs with Some (i, b) => Some (inode_at dir i b) | None => None end, mk_exfs d (ex fs)) /\
    vol_ok (mk_exfs d (ex fs)) l.
Proof.
  intros Hv Hd. pose proof Hv as [_ Hok]. pose proof Hd as [Hm Hch _ _ Hs Hr]. pose proof (dir_room _ _ _ _ _ Hok Hd) as Hroom.
  pose proof (xo_spc _ Hok). pose proof (xo_bpc _ Hok). unfold exfat_lookup. rewrite Hm. cbn [negb Z.eqb FT_DIR].
  change (negb (FT_DIR =? FT_DIR)) with false. cbv iota. unfold walk_fuel. cbn [lookup_from].
  destruct (next_cluster_ok _ _ _ Hok Hch) as (En & Hlive & _). rewrite Hlive.
  destruct (read_dir fs l dir bs rest (cluster_buf stk fs) Hv Hd (len_cluster_buf stk fs Hok)) as (d & -> & Hv'). cbn [obind].
  pose proof (scan_sets bs (scan_fuel (concat bs ++ rest)) [] rest name Hs Hr) as Esc. cbn [app] in Esc.
  change (len []) with 0 in Esc. rewrite Esc.
  2: { unfold scan_fuel. rewrite len_app, len_sets by done. unfold len. dlia. }
  exists d. split; [| done]. destruct (find_set name bs) as [[i b] |] eqn:Ef; cbn [obind].
  - apply find_set_Some in Ef as [Eb _]. pose proof (sets_split bs i b Eb) as Hsp.
    assert (Hb : is_set b) by (rewrite Forall_lookup in Hs; by apply (Hs i)).
    assert (Hlp : len (concat (take i bs)) = 96 * Z.of_nat i).
    { rewrite len_sets by by apply Forall_take. rewrite length_take. apply lookup_lt_Some in Eb. lia. }
    rewrite Hsp, <- !app_assoc. pose proof (st_length b Hb) as Hl. unfold inode_of_set.
    replace (0 + 96 * Z.of_nat i + 32 + 20) with (len (concat (take i bs)) + 52) by lia. rewrite fld_in by (unfold len; lia). cbn [obind].
    replace (0 + 96 * Z.of_nat i + 32 + 24) with (len (concat (take i bs)) + 56) by lia. rewrite fld_in by (unfold len; lia). cbn [obind].
    replace (0 + 96 * Z.of_nat i + 4) with (len (concat (take i bs)) + 4) by lia. rewrite fld_in by (unfold len; lia). cbn [obind].
    unfold inode_at. replace ((0 + 96 * Z.of_nat i) / 32) with (3 * Z.of_nat i) by dlia. done.
  - cbn [ex]. rewrite En. cbn [hd obind]. by destruct (length (fat_cache (ex fs))).
Qed.

Lemma readdir_set (fuel : nat) (epc i index : Z) (pre b post : list Z) :
  is_set b -> len pre = 32 * i -> i < epc ->
  readdir_scan (S fuel) epc i (pre ++ b ++ post) index = Ret (Some (set_name b, set_type b, u32 (index + 1 + 2))).
Proof.
  intros Hb Hp Hi. pose proof Hb as [Hl Hf Hc Hs Hn]. cbn [readdir_scan]. replace (i <? epc) with true by lia.
  replace (32 * i) with (len pre + 0) by lia. rewrite fld_in by (unfold len; lia). rewrite Hf. cbn [obind].
  change (EXFAT_ENTRY_FILE =? 0) with false. change (EXFAT_ENTRY_FILE =? EXFAT_ENTRY_FILE) with true. cbv iota.
  rewrite !Z.add_0_r. rewrite !fld_in by (unfold len; lia). rewrite Hc. cbn [obind].
  rewrite Hs. cbn [obind]. change (negb (EXFAT_ENTRY_STREAM =? EXFAT_ENTRY_STREAM)) with false. cbv iota.
  rewrite name_entries_ok; [done | | done | done].
  intros acc c Ha. unfold add_guarded, len. by replace (_ <? 255) with true by lia.
Qed.

(** Listing an exFAT directory enumerates its files: at position 3i the name and the
    type of the i-th entry set and the position of the next one, and behind the last one
    the end, with the position set back to 0. *)
Theorem exfat_readdir_spec (fs : exfs D) (l : list Z) (dir : inode) (bs : list (list Z)) (rest : list Z) (i : nat) :
  vol_ok fs l -> dir_ok (ex fs) l dir bs rest -> (i <= length bs)%nat ->
  exists d, exfat_readdir stk fs dir (3 * Z.of_nat i) =
    Ret (match bs !! i with
         | Some b => (Some (set_name b, set_type b), 3 * Z.of_nat (S i))
         | None => (None, 0)
         end, mk_exfs d (ex fs)).
Proof.
  intros Hv Hd Hi. pose proof Hv as [_ Hok]. pose proof Hd as [Hm Hch _ _ Hs Hr]. pose proof (dir_room _ _ _ _ _ Hok Hd) as Hroom.
  pose proof (xo_spc _ Hok). pose proof (xo_bpc _ Hok). assert (0 <= len rest) by (unfold len; lia).
  destruct (next_cluster_ok _ _ _ Hok Hch) as (En & Hlive & _). unfold exfat_readdir. rewrite Hm.
  change (negb (FT_DIR =? FT_DIR)) with false. cbv iota zeta. set (bpc := bytes_per_cluster (ex fs)) in *.
  rewrite (wrap_small 32) by (split; lia). set (epc := bpc / 32). assert (He : 0 < epc /\ 3 * Z.of_nat (length bs) <= epc) by (unfold epc; dlia).
  replace (epc =? 0) with false by lia. destruct (Z.ltb_spec (3 * Z.of_nat i) epc) as [Hlt | Hge].
  - rewrite Z.div_small, Z.mod_small by lia. change (Z.to_nat 0) with O. cbn [seek_chain]. rewrite Hlive. cbn [obind].
    destruct (read_dir fs l dir bs rest (cluster_buf stk fs) Hv Hd (len_cluster_buf stk fs Hok)) as (d & -> & Hv'). cbn [obind negb].
    exists d. destruct (bs !! i) as [b |] eqn:Eb.
    + rewrite (sets_split bs i b Eb), <- !app_assoc. rewrite readdir_set; [| | | done].
      * cbn [obind]. rewrite (wrap_small 32) by (split; lia). do 3 f_equal. lia.
      * rewrite Forall_lookup in Hs. by apply (Hs i).
      * rewrite len_sets by by apply Forall_take. rewrite length_take. apply lookup_lt_Some in Eb. lia.
    + apply lookup_ge_None in Eb. assert (i = length bs) as -> by lia. cbn [readdir_scan].
      replace (_ <? epc) with true by lia. replace (32 * (3 * Z.of_nat (length bs))) with (len (concat bs) + 0) by (rewrite len_sets by done; lia).
      rewrite <- (app_nil_r rest), fld_in by (unfold epc in Hlt; dlia).
      rewrite Hr by (unfold epc in Hlt; dlia). done.
  - assert (i = length bs) as -> by lia. rewrite lookup_ge_None_2 by lia. replace (3 * Z.of_nat (length bs)) with (epc * 1) by lia.
    rewrite (Z.mul_comm epc 1), Z.div_mul by lia. change (Z.to_nat 1) with 1%nat. cbn [seek_chain]. rewrite Hlive, En. cbn [hd obind].
    change (live EXFAT_FAT_END) with false. cbv iota. cbn [obind]. exists (ex_dev fs). by destruct fs.
Qed.
End dirs.
