(* ===== verification/ExfatCreate.v ===== *)
(** Changing directories in the exFAT driver (Exfat.v): creating files and directories,
    renaming and deleting, on the entry sets of ExfatDir.v. *)

From S2P Require Import Prelude Bytes Buffer SectorDev Exfat ExfatData ExfatDir.

(** * Writing entries *)

Lemma poke_tail (pre rest bs : list Z) :
  len bs <= len rest -> poke (pre ++ rest) (len pre) bs = Ret (pre ++ bs ++ drop (length bs) rest).
Proof.
  unfold poke, len. intros Hl. rewrite length_app. replace (_ && _) with true by lia. f_equal.
  rewrite splice_app_r by lia. rewrite Z.sub_diag. by unfold splice.
Qed.

Lemma poke_in (pre b post bs : list Z) (o : Z) :
  0 <= o -> o + len bs <= len b -> poke (pre ++ b ++ post) (len pre + o) bs = Ret (pre ++ splice b o bs ++ post).
Proof.
  unfold poke, len. intros Ho Hl. rewrite !length_app. replace (_ && _) with true by lia. f_equal.
  rewrite splice_app_r by lia. f_equal. replace (Z.of_nat (length pre) + o - Z.of_nat (length pre)) with o by lia.
  by apply splice_app_l.
Qed.

(** * A new set *)

Definition new_set (attr : Z) (name : list Z) (c : Z) : list Z :=
  file_entry attr ++ stream_entry (len name) c ++ name_entry name.

(** Names the driver can store: at most 15 ASCII characters. *)
Definition ascii_ok (name : list Z) : Prop := (length name <= 15)%nat /\ Forall (fun c => 0 < c < 128) name.

Lemma length_name_field (name : list Z) : length (name_field name) = 30%nat.
Proof. unfold name_field. rewrite length_take, length_app, length_replicate. lia. Qed.

Lemma length_name_entry (name : list Z) : length (name_entry name) = 32%nat.
Proof. unfold name_entry. by rewrite length_app, length_name_field. Qed.

Lemma length_new_set (attr : Z) (name : list Z) (c : Z) : length (new_set attr name c) = 96%nat.
Proof. unfold new_set. rewrite !length_app, length_name_entry. done. Qed.

(** Characters as 16-bit numbers, read back. *)
Lemma chars_pairs (name : list Z) (n k : nat) (b tail : list Z) (o : Z) :
  Forall (fun c => 0 < c < 128) name -> (length name <= n)%nat -> ((length name < n)%nat -> (2 <= k)%nat) -> 0 <= o ->
  drop (Z.to_nat o) b = concat ((fun c => [c; if 128 <=? c then 0xFF else 0]) <$> name) ++ replicate k 0 ++ tail ->
  chars n b o = name.
Proof.
  intros HF. revert n o. induction HF as [|c name Hc HF IH]; intros n o Hn Hk Ho Hd.
  - destruct n as [|n]; [done |]. cbn [chars]. unfold field. rewrite Hd. cbn [fmap list_fmap concat app].
    destruct k as [|[|k]]; [cbn in Hk; lia.. |]. done.
  - destruct n as [|n]; [cbn in Hn; lia |]. cbn [chars]. cbn [length] in Hn, Hk.
    assert (E : field b o 2 = c).
    { unfold field. rewrite Hd. cbn [fmap list_fmap concat app take]. replace (128 <=? c) with false by lia. rewrite firstn_O. cbn [le_val]. lia. }
    rewrite E. replace (c =? 0) with false by lia.
    replace (c <? 128) with true by lia. cbn [app]. f_equal. apply IH; [lia | intros; apply Hk; lia | lia |].
    replace (Z.to_nat (o + 2)) with (Z.to_nat o + 2)%nat by lia. rewrite <- drop_drop, Hd. cbn [fmap list_fmap concat app drop]. done.
Qed.

Lemma name_field_eq (name : list Z) :
  (length name <= 15)%nat ->
  name_field name = concat ((fun c => [c; if 128 <=? c then 0xFF else 0]) <$> name) ++ replicate (30 - 2 * length name) 0.
Proof.
  intros Hl. unfold name_field. rewrite (take_ge name) by done. set (p := concat _).
  assert (Hp : length p = (2 * length name)%nat).
  { unfold p. clear. induction name as [|c name IH]; [done |]. cbn [fmap list_fmap concat length app]. cbn in IH. lia. }
  rewrite take_app_ge by lia. rewrite Hp, take_replicate. do 2 f_equal. lia.
Qed.

(** The name of a set whose name entry was written. *)
Lemma set_name_field (a name tail : list Z) :
  ascii_ok name -> length a = 66%nat -> set_name (a ++ name_field name ++ tail) = name.
Proof.
  intros [Hl HF] Ha. unfold set_name. rewrite name_field_eq by done.
  apply (chars_pairs name 15 (30 - 2 * length name) _ tail); [done | done | lia | lia |].
  rewrite drop_app_ge by lia. rewrite Ha. change (Z.to_nat 66 - 66)%nat with 0%nat. by rewrite drop_0, <- app_assoc.
Qed.

Lemma new_set_ok (attr : Z) (name : list Z) (c : Z) :
  ascii_ok name -> 0 <= c < 2 ^ 32 -> 0 <= attr < 2 ^ 16 ->
  is_set (new_set attr name c) /\ set_name (new_set attr name c) = name /\ set_first (new_set attr name c) = c /\
  set_size (new_set attr name c) = 0 /\ field (new_set attr name c) 4 2 = attr.
Proof.
  intros Hn Hc Ha. split_and!.
  - split; try done. apply length_new_set.
  - apply (set_name_field (file_entry attr ++ stream_entry (len name) c ++ [EXFAT_ENTRY_NAME; 0]) name []) in Hn; [| done].
    rewrite app_nil_r, <- !app_assoc in Hn. exact Hn.
  - change (field (le_bytes 4 c ++ le_bytes 8 0 ++ name_entry name) 0 4 = c). apply field_le_bytes. split; cbn; lia.
  - done.
  - change (field (le_bytes 2 attr ++ replicate 26 0 ++ stream_entry (len name) c ++ name_entry name) 0 2 = attr).
    apply field_le_bytes. split; cbn; lia.
Qed.

Lemma put_entries_ok (pre rest : list Z) (attr : Z) (name : list Z) (c : Z) :
  96 <= len rest -> put_entries (pre ++ rest) (len pre) attr name c = Ret (pre ++ new_set attr name c ++ drop 96 rest).
Proof.
  intros Hr. unfold put_entries, len in *. pose proof (length_name_entry name) as Hn.
  fold (len pre). rewrite poke_tail by (unfold len; cbn [length file_entry app le_bytes replicate]; lia). cbn [obind].
  rewrite app_assoc. replace (len pre + 32) with (len (pre ++ file_entry attr)) by (rewrite len_app; done).
  rewrite poke_tail by (unfold len; rewrite length_drop; cbn; lia). cbn [obind].
  rewrite app_assoc. replace (len pre + 64) with (len ((pre ++ file_entry attr) ++ stream_entry (Z.of_nat (length name)) c)) by (rewrite !len_app; change (len (file_entry attr)) with 32; change (len (stream_entry _ c)) with 32; lia).
  rewrite poke_tail by (unfold len; rewrite !length_drop, Hn; cbn; lia). rewrite !drop_drop, Hn. unfold new_set. rewrite <- !app_assoc. done.
Qed.

(** * Directories under changes of the table and of other clusters *)

Lemma dir_ok_cache (f : exfat) (l : list Z) (dir : inode) (bs : list (list Z)) (rest : list Z) (cache : list Z) :
  dir_ok f l dir bs rest -> chain cache [first_cluster (i_private dir)] -> dir_ok (with_cache f cache) l dir bs rest.
Proof. by intros [] Hc. Qed.

Lemma dir_ok_bytes (f : exfat) (l l' : list Z) (dir : inode) (bs bs' : list (list Z)) (rest rest' : list Z) :
  dir_ok f l dir bs rest -> length l' = length l ->
  cluster_bytes f l' (first_cluster (i_private dir)) = concat bs' ++ rest' -> Forall is_set bs' -> ends rest' ->
  dir_ok f l' dir bs' rest'.
Proof. intros [Hm Hc Hv Hb Hs He] Hl Hb' Hs' He'. split; try done. by apply (in_volume_length _ l). Qed.

Lemma dirtied_dir (f : exfat) (l : list Z) (dir : inode) (bs : list (list Z)) (rest : list Z) :
  dir_ok f l dir bs rest -> dir_ok (dirtied f) l dir bs rest.
Proof. intros Hd. apply dir_ok_cache; [done |]. apply (dirtied_chain f), Hd. Qed.

Lemma find_set_app (name : list Z) (bs : list (list Z)) (b : list Z) :
  find_set name (bs ++ [b]) =
  match find_set name bs with
  | Some x => Some x
  | None => if decide (set_name b = name) then Some (length bs, b) else None
  end.
Proof.
  unfold find_set. induction bs as [|x bs IH]; cbn [app list_find length].
  - by destruct (decide _).
  - destruct (decide (set_name x = name)); [done |]. rewrite IH. destruct (list_find _ bs) as [[i y] |]; [done |]. by destruct (decide _).
Qed.

Section create.
Context {D : Type} `{SectorDev D}.
Variable stk : Z -> Z.

(** Writing the sets of a directory. *)
Lemma write_dir (fs : exfs D) (l : list Z) (dir : inode) (bs bs' : list (list Z)) (rest rest' : list Z) :
  let f := ex fs in
  let c := first_cluster (i_private dir) in
  vol_ok fs l -> dir_ok f l dir bs rest -> len (concat bs' ++ rest') = bytes_per_cluster f -> Forall is_set bs' -> ends rest' ->
  exists d l', exfat_write_cluster fs c (concat bs' ++ rest') = Ret (true, mk_exfs d f) /\ vol_ok (mk_exfs d f) l' /\
    dir_ok f l' dir bs' rest' /\ length l' = length l /\
    (forall x, 2 <= x -> x <> c -> cluster_bytes f l' x = cluster_bytes f l x).
Proof.
  cbv zeta. intros Hv Hd Hl Hs He. pose proof Hv as [_ Hok]. pose proof (do_vol _ _ _ _ _ Hd) as Hc.
  destruct (ex_write_cluster_ok fs l _ _ Hv Hc Hl) as (d & E & Hv'). eexists d, _. split; [exact E |]. split; [exact Hv' |].
  pose proof (ex_write_length _ _ _ _ Hok Hc Hl) as Hl'. split_and!; try done.
  - apply (dir_ok_bytes _ l _ _ bs _ rest); try done. rewrite ex_cluster_bytes_write by (done || apply Hc). by rewrite decide_True.
  - intros x Hx Hne. rewrite ex_cluster_bytes_write by done. by rewrite decide_False.
Qed.

Lemma add_entry_ok (fs : exfs D) (l : list Z) (dir : inode) (bs : list (list Z)) (rest name : list Z) (attr c : Z) :
  let f := ex fs in
  let b := new_set attr name c in
  vol_ok fs l -> dir_ok f l dir bs rest -> blank rest -> 96 <= len rest -> is_set b ->
  exists d l', add_entry stk fs dir name attr c = Ret (Some (3 * Z.of_nat (length bs)), mk_exfs d (dirtied f)) /\
    vol_ok (mk_exfs d (dirtied f)) l' /\ dir_ok (dirtied f) l' dir (bs ++ [b]) (drop 96 rest) /\ length l' = length l /\
    (forall x, 2 <= x -> x <> first_cluster (i_private dir) -> cluster_bytes f l' x = cluster_bytes f l x).
Proof.
  cbv zeta. intros Hv Hd Hb Hr Hset. pose proof Hv as [_ Hok]. pose proof (dir_room _ _ _ _ _ Hok Hd) as Hroom. unfold add_entry.
  pose proof (do_sets _ _ _ _ _ Hd) as Hs.
  destruct (read_dir fs l dir bs rest (cluster_buf stk fs) Hv Hd (len_cluster_buf stk fs Hok)) as (d & -> & Hv1). cbn [obind ex].
  pose proof (free_entry_sets bs (Z.to_nat (bytes_per_cluster (ex fs) / 32)) [] rest 0 Hs (do_ends _ _ _ _ _ Hd) eq_refl ltac:(lia) ltac:(dlia)) as Efr.
  cbn [app] in Efr. rewrite Efr. cbn [obind]. rewrite Z.add_0_l.
  replace (32 * (3 * Z.of_nat (length bs))) with (len (concat bs)) by (rewrite len_sets by done; lia).
  rewrite put_entries_ok by done. cbn [obind].
  assert (Hcat : concat bs ++ new_set attr name c ++ drop 96 rest = concat (bs ++ [new_set attr name c]) ++ drop 96 rest).
  { rewrite concat_app. cbn [concat]. by rewrite app_nil_r, <- app_assoc. }
  rewrite Hcat. destruct (write_dir (mk_exfs d (ex fs)) l dir bs (bs ++ [new_set attr name c]) rest (drop 96 rest) Hv1 Hd) as (d' & l' & -> & Hv2 & Hd2 & Hl2 & Ho2).
  - rewrite <- Hcat, !len_app, len_sets by done. unfold len in *. rewrite length_new_set, length_drop. cbn [ex]. lia.
  - apply Forall_app. split; [done | by constructor].
  - apply blank_ends. apply (blank_drop rest 3); [lia | done].
  - cbn [obind ex] in *. destruct (set_dirty_ok _ Hok) as [-> Hokd]. cbn [obind upd ex_dev]. exists d', l'. split; [done |].
    split; [split; [apply Hv2 | done] |]. split; [by apply dirtied_dir |]. split; [done |]. exact Ho2.
Qed.

(** The search, the free cluster, and for a directory its empty contents. *)
Lemma taken_dir (f : exfat) (l : list Z) (dir : inode) (bs : list (list Z)) (rest : list Z) (c : Z) :
  dir_ok f l dir bs rest -> 0 <= c -> c <> first_cluster (i_private dir) -> dir_ok (taken f c) l dir bs rest.
Proof. intros Hd Hc Hne. apply dir_ok_cache; [done |]. apply ex_chain_set_other; [done | set_solver | apply Hd]. Qed.

Definition new_attr (mode : Z) : Z := if mode =? FT_DIR then EXFAT_ATTR_DIRECTORY else 0.

(** Both ways to the new entry: the name is new, a cluster is taken, and that of a
    directory is cleared. *)
Lemma create_start (fs : exfs D) (l : list Z) (dir : inode) (bs : list (list Z)) (rest name : list Z) (mode c : Z) :
  let f := ex fs in
  vol_ok fs l -> dir_ok f l dir bs rest -> find_set name bs = None -> free_cluster f = Ret c -> 2 <= c < fat_entries f ->
  in_volume f l c -> mode = FT_DIR \/ mode = FT_REG_FILE ->
  exists d1 l1, (forall x, 2 <= x -> x <> c -> cluster_bytes f l1 x = cluster_bytes f l x) /\
    vol_ok (mk_exfs d1 (taken f c)) l1 /\ length l1 = length l /\
    (mode = FT_DIR -> cluster_bytes f l1 c = replicate (Z.to_nat (bytes_per_cluster f)) 0) /\
    exfat_create stk fs dir name mode = (do '(r, fs) <- add_entry stk (mk_exfs d1 (taken f c)) dir name (new_attr mode) c;
      Ret (match r with Some i => Some (new_inode dir mode c i) | None => None end, fs))%out.
Proof.
  cbv zeta. intros Hv Hd Hnew Ec Hc Hcv Hmode. pose proof Hv as [_ Hok]. pose proof (xo_spc _ Hok). pose proof (xo_bpc _ Hok).
  destruct (lookup_ok stk fs l dir bs rest name Hv Hd) as (d0 & El & Hv0). rewrite Hnew in El.
  destruct (ex_taken_ok (ex fs) c Hok Hc) as [Hokt Hcht].
  unfold exfat_create, new_attr. destruct Hmode as [-> | ->].
  - change (FT_DIR =? FT_DIR) with true. cbv iota. unfold exfat_mkdir. rewrite (do_mode _ _ _ _ _ Hd). change (FT_DIR =? FT_DIR) with true. cbn [negb].
    rewrite El. cbn [obind ex]. rewrite Ec. cbn [obind]. replace (c =? 0) with false by lia. rewrite cache_set_in by (done || lia). cbn [obind].
    fold (taken (ex fs) c). change (upd (mk_exfs d0 (ex fs)) (taken (ex fs) c)) with (mk_exfs d0 (taken (ex fs) c)).
    change (bytes_per_cluster (taken (ex fs) c)) with (bytes_per_cluster (ex fs)). set (z := replicate _ 0).
    assert (Hz : len z = bytes_per_cluster (ex fs)) by (unfold z, len; rewrite length_replicate; lia).
    destruct (ex_write_cluster_ok (mk_exfs d0 (taken (ex fs) c)) l c z) as (d1 & E1 & Hv1); [split; [apply Hv0 | done] | done | done |].
    rewrite E1. cbn [obind]. eexists d1, _. split; [| split; [exact Hv1 |]].
    + intros x Hx Hne. change (cluster_pos (ex (mk_exfs d0 (taken (ex fs) c))) c) with (cluster_pos (ex fs) c).
      rewrite ex_cluster_bytes_write by done. by rewrite decide_False.
    + split; [by apply (ex_write_length (ex fs)) |]. split; [| done]. intros _.
      change (cluster_pos (ex (mk_exfs d0 (taken (ex fs) c))) c) with (cluster_pos (ex fs) c).
      rewrite ex_cluster_bytes_write by (done || lia). by rewrite decide_True.
  - change (FT_REG_FILE =? FT_DIR) with false. cbv iota. unfold exfat_create_file. rewrite (do_mode _ _ _ _ _ Hd). change (FT_DIR =? FT_DIR) with true. cbn [negb].
    rewrite El. cbn [obind ex]. rewrite Ec. cbn [obind]. replace (c =? 0) with false by lia. rewrite cache_set_in by (done || lia). cbn [obind].
    exists d0, l. split; [done |]. split; [split; [apply Hv0 | done] |]. done.
Qed.

(** C20: Creating a file or a directory in an exFAT directory of one cluster that holds only
    sets of three entries and has room for three more, under a new name of at most 15 ASCII
    characters (longer ones are cut), when a free cluster inside the volume is left: exactly
    one name is added, the inode describes a chain of that one cluster, the name is found
    with that inode and every other name as before, all other clusters keep their bytes,
    and a new directory is empty. *)
Theorem exfat_create_spec (fs : exfs D) (l : list Z) (dir : inode) (bs : list (list Z)) (rest name : list Z) (mode c : Z) :
  let f := ex fs in
  vol_ok fs l -> dir_ok f l dir bs rest -> blank rest -> 96 <= len rest -> ascii_ok name -> find_set name bs = None ->
  free_cluster f = Ret c -> c <> 0 -> in_volume f l c -> mode = FT_DIR \/ mode = FT_REG_FILE ->
  exists d f' l' ino, exfat_create stk fs dir name mode = Ret (Some ino, mk_exfs d f') /\ vol_ok (mk_exfs d f') l' /\
    i_mode ino = mode /\ i_size ino = 0 /\ first_cluster (i_private ino) = c /\
    get (fat_cache f) c = EXFAT_FAT_FREE /\ chain (fat_cache f') [c] /\
    (forall n, exists d', exfat_lookup stk (mk_exfs d f') dir n =
       Ret (if decide (n = name) then Some ino
            else match find_set n bs with Some (i, b) => Some (inode_at dir i b) | None => None end, mk_exfs d' f')) /\
    (forall x, 2 <= x -> x <> c -> x <> first_cluster (i_private dir) -> cluster_bytes f l' x = cluster_bytes f l x) /\
    (mode = FT_DIR -> dir_ok f' l' ino [] (replicate (Z.to_nat (bytes_per_cluster f)) 0)).
Proof.
  cbv zeta. intros Hv Hd Hb Hr Hn Hnew Ec Hc0 Hcv Hmode. pose proof Hv as [_ Hok]. pose proof (xo_spc _ Hok). pose proof (xo_bpc _ Hok). pose proof (xo_entries _ Hok).
  assert (Hc : 2 <= c < fat_entries (ex fs) /\ get (fat_cache (ex fs)) c = EXFAT_FAT_FREE).
  { destruct (free_cluster_ok (ex fs) Hok) as [(x & Hx & E & _ & Ex) | [_ Ex]]; rewrite Ex in Ec; injection Ec as <-; done. }
  destruct Hc as [Hc Hfree]. pose proof (free_not_in _ _ _ (do_chain _ _ _ _ _ Hd) Hfree) as Hcd. rewrite list_elem_of_singleton in Hcd.
  set (attr := new_attr mode). set (b := new_set attr name c).
  destruct (new_set_ok attr name c Hn) as (B1 & B2 & B3 & B4 & B5); [unfold EXFAT_FAT_END in *; lia | unfold attr, new_attr, EXFAT_ATTR_DIRECTORY; destruct (_ =? _); lia |]. fold b in B1, B2, B3, B4, B5.
  assert (Hty : set_type b = mode). { unfold set_type. rewrite B5. unfold attr, new_attr. by destruct Hmode as [-> | ->]. }
  destruct (ex_taken_ok (ex fs) c Hok Hc) as [Hokt Hcht]. pose proof (taken_dir _ _ _ _ _ c Hd ltac:(lia) Hcd) as Hdt.
  destruct (create_start fs l dir bs rest name mode c Hv Hd Hnew Ec Hc Hcv Hmode) as (d1 & l1 & Ho1 & Hv1 & Hl1 & Hz1 & ->). fold attr.
  assert (Hd1 : dir_ok (taken (ex fs) c) l1 dir bs rest).
  { apply (dir_ok_bytes _ l _ _ bs _ rest); try done; [| apply Hd | apply Hd].
    change (cluster_bytes (taken (ex fs) c) l1) with (cluster_bytes (ex fs) l1). rewrite Ho1; [apply Hd | apply (do_vol _ _ _ _ _ Hd) | congruence]. }
  destruct (add_entry_ok (mk_exfs d1 (taken (ex fs) c)) l1 dir bs rest name attr c Hv1 Hd1 Hb Hr B1) as (d2 & l2 & -> & Hv2 & Hd2 & Hl2 & Ho2).
  cbn [obind ex] in *. fold b in Hd2. exists d2, (dirtied (taken (ex fs) c)), l2, (new_inode dir mode c (3 * Z.of_nat (length bs))).
  split; [done |]. split; [done |]. split; [done |]. split; [done |]. split; [done |]. split; [done |].
  assert (Hchd : chain (fat_cache (dirtied (taken (ex fs) c))) [c]) by by apply dirtied_chain. split; [done |]. split; [| split].
  - intros n. destruct (lookup_ok stk _ l2 dir _ _ n Hv2 Hd2) as (d' & E' & _). exists d'. rewrite E'. cbn [ex]. do 2 f_equal.
    rewrite find_set_app, B2. destruct (decide (n = name)) as [-> | Hne].
    + rewrite Hnew, decide_True by done. unfold inode_at, new_inode. by rewrite Hty, B3, B4.
    + destruct (find_set n bs); [done |]. by rewrite decide_False.
  - intros x Hx Hxc Hxd. change (cluster_bytes (ex fs) l2 x) with (cluster_bytes (taken (ex fs) c) l2 x). rewrite Ho2 by done. by apply Ho1.
  - intros Hm. split; try done; cbn [new_inode i_private first_cluster].
    + apply (in_volume_length _ l1); [done |]. by apply (in_volume_length (ex fs) l).
    + cbn [concat app]. change (cluster_bytes (dirtied (taken (ex fs) c)) l2 c) with (cluster_bytes (taken (ex fs) c) l2 c).
      rewrite Ho2 by (done || lia). by apply Hz1.
    + apply blank_ends, blank_zeros.
Qed.
(** The three entries do not fit behind the last set. *)
Lemma put_entries_crash (pre rest : list Z) (attr : Z) (name : list Z) (c : Z) :
  32 <= len rest < 96 -> put_entries (pre ++ rest) (len pre) attr name c = Crash.
Proof.
  intros Hr. unfold put_entries. rewrite poke_tail by (change (len (file_entry attr)) with 32; lia). cbn [obind].
  change (length (file_entry attr)) with 32%nat. assert (Hd : len (drop 32 rest) = len rest - 32) by (unfold len in *; rewrite length_drop; lia).
  rewrite app_assoc. replace (len pre + 32) with (len (pre ++ file_entry attr)) by (rewrite len_app; done).
  destruct (Z.ltb_spec (len rest) 64) as [H1 | H1].
  - unfold poke at 1. rewrite !length_app. change (length (stream_entry (len name) c)) with 32%nat. unfold len in *. rewrite !length_app.
    replace (_ && _) with false by lia. done.
  - rewrite poke_tail by (change (len (stream_entry (len name) c)) with 32; lia). cbn [obind].
    change (length (stream_entry (len name) c)) with 32%nat. unfold poke. rewrite length_name_entry, !length_app.
    change (length (stream_entry (len name) c)) with 32%nat. change (length (file_entry attr)) with 32%nat. unfold len in *. rewrite !length_drop in *.
    replace (_ && _) with false by lia. done.
Qed.

(** Creating a file in a directory of which only one or two entries are free writes
    past the end of the cluster buffer on the stack. *)
Theorem exfat_create_overflow (fs : exfs D) (l : list Z) (dir : inode) (bs : list (list Z)) (rest name : list Z) (mode c : Z) :
  let f := ex fs in
  vol_ok fs l -> dir_ok f l dir bs rest -> 32 <= len rest < 96 -> find_set name bs = None ->
  free_cluster f = Ret c -> c <> 0 -> in_volume f l c -> mode = FT_DIR \/ mode = FT_REG_FILE ->
  exfat_create stk fs dir name mode = Crash.
Proof.
  cbv zeta. intros Hv Hd Hr Hnew Ec Hc0 Hcv Hmode. pose proof Hv as [_ Hok].
  assert (Hc : 2 <= c < fat_entries (ex fs) /\ get (fat_cache (ex fs)) c = EXFAT_FAT_FREE).
  { destruct (free_cluster_ok (ex fs) Hok) as [(x & Hx & E & _ & Ex) | [_ Ex]]; rewrite Ex in Ec; injection Ec as <-; done. }
  destruct Hc as [Hc Hfree]. pose proof (free_not_in _ _ _ (do_chain _ _ _ _ _ Hd) Hfree) as Hcd. rewrite list_elem_of_singleton in Hcd.
  destruct (create_start fs l dir bs rest name mode c Hv Hd Hnew Ec Hc Hcv Hmode) as (d1 & l1 & Ho1 & Hv1 & Hl1 & _ & ->).
  pose proof (taken_dir _ _ _ _ _ c Hd ltac:(lia) Hcd) as Hdt. pose proof (do_sets _ _ _ _ _ Hd) as Hs. pose proof (dir_room _ _ _ _ _ Hok Hd) as Hroom.
  assert (Hd1 : dir_ok (taken (ex fs) c) l1 dir bs rest).
  { apply (dir_ok_bytes _ l _ _ bs _ rest); try done; [| apply Hd].
    change (cluster_bytes (taken (ex fs) c) l1) with (cluster_bytes (ex fs) l1). rewrite Ho1; [apply Hd | apply (do_vol _ _ _ _ _ Hd) | congruence]. }
  unfold add_entry. destruct (read_dir (mk_exfs d1 (taken (ex fs) c)) l1 dir bs rest (cluster_buf stk (mk_exfs d1 (taken (ex fs) c))) Hv1 Hd1
    (len_cluster_buf stk (mk_exfs d1 (taken (ex fs) c)) (vo_ex _ _ Hv1))) as (d & -> & _). cbn [obind ex].
  change (bytes_per_cluster (taken (ex fs) c)) with (bytes_per_cluster (ex fs)).
  pose proof (free_entry_sets bs (Z.to_nat (bytes_per_cluster (ex fs) / 32)) [] rest 0 Hs (do_ends _ _ _ _ _ Hd) eq_refl ltac:(lia) ltac:(dlia)) as Efr.
  cbn [app] in Efr. rewrite Efr. cbn [obind]. rewrite Z.add_0_l.
  replace (32 * (3 * Z.of_nat (length bs))) with (len (concat bs)) by (rewrite len_sets by done; lia).
  by rewrite put_entries_crash.
Qed.
End create.

(** * Deleting and renaming *)

(** The table after the clusters of a chain are freed. *)
Definition freed (f : exfat) (cs : list Z) : exfat :=
  with_cache f (fold_left (fun l c => set l c EXFAT_FAT_FREE) cs (fat_cache f)).

Lemma get_freed (cs l : list Z) (x : Z) :
  0 <= x < len l -> Forall (fun c => 0 <= c) cs ->
  get (fold_left (fun l c => set l c EXFAT_FAT_FREE) cs l) x = if decide (x ∈ cs) then EXFAT_FAT_FREE else get l x.
Proof.
  revert l. induction cs as [|c cs IH]; intros l Hx HF; cbn [fold_left].
  - rewrite decide_False; [done | set_solver].
  - inversion HF; subst. rewrite IH by (done || unfold len in *; by rewrite length_set). destruct (decide (x ∈ cs)).
    + by rewrite decide_True by set_solver.
    + destruct (decide (x = c)) as [-> | Hne].
      * rewrite decide_True by set_solver. apply get_set_eq. unfold len in Hx. lia.
      * rewrite get_set_ne by lia. rewrite decide_False; [done |]. set_solver.
Qed.

Lemma length_freed (cs l : list Z) : length (fold_left (fun l c => set l c EXFAT_FAT_FREE) cs l) = length l.
Proof. revert l. induction cs as [|c cs IH]; intros l; cbn [fold_left]; [done |]. rewrite IH. apply length_set. Qed.

Lemma free_chain_ok (fuel : nat) (f : exfat) (cs : list Z) :
  ex_ok f -> (cs <> [] -> chain (fat_cache f) cs) -> NoDup cs -> (length cs < fuel)%nat ->
  free_chain fuel f (hd EXFAT_FAT_END cs) = Ret (freed f cs).
Proof.
  revert fuel f. induction cs as [|c cs IH]; intros fuel f Hok Hc Hnd Hf; (destruct fuel as [|fuel]; [cbn in Hf; lia |]); cbn [free_chain hd].
  - change (live EXFAT_FAT_END) with false. cbv iota. unfold freed. cbn [fold_left]. by rewrite with_cache_same.
  - specialize (Hc ltac:(done)). destruct (next_cluster_ok f c cs Hok Hc) as (-> & -> & Hr). cbn [obind].
    rewrite cache_set_in by (done || lia). cbn [obind]. apply NoDup_cons in Hnd as [Hn Hnd].
    rewrite IH; [done | apply with_cache_ok; [done | apply length_set] | | done | cbn in Hf; lia].
    intros Hne. cbn [with_cache fat_cache]. apply ex_chain_set_other; [lia | done | by apply (chain_rest _ c)].
Qed.

(** A chain is not longer than the table. *)
Lemma ex_chain_length (cache cs : list Z) : chain cache cs -> NoDup cs -> (length cs <= length cache)%nat.
Proof.
  intros Hc Hnd. pose proof (chain_ge_2 _ _ Hc) as HF. rewrite <- (length_seq (length cache) 0).
  rewrite <- (length_fmap Z.to_nat cs). apply submseteq_length, NoDup_submseteq.
  - apply NoDup_fmap_2_strong; [| done]. intros x y Hx Hy. rewrite Forall_forall in HF. apply HF in Hx, Hy. lia.
  - intros n Hn. apply list_elem_of_fmap in Hn as (x & -> & Hx). rewrite Forall_forall in HF. apply HF in Hx. unfold len in Hx.
    apply elem_of_seq. lia.
Qed.

(** The set with its three types 0. *)
Definition cleared (b : list Z) : list Z := splice (splice (splice b 0 [0]) 32 [0]) 64 [0].

Lemma length_cleared (b : list Z) : length b = 96%nat -> length (cleared b) = 96%nat.
Proof. intros Hb. unfold cleared. rewrite !length_splice; rewrite ?length_splice; rewrite ?length_splice; cbn [length]; lia. Qed.

Lemma clear_set (pre b post : list Z) :
  length b = 96%nat -> clear_entries 3 (pre ++ b ++ post) (len pre) = Ret (pre ++ cleared b ++ post).
Proof.
  intros Hb. cbn [clear_entries]. rewrite <- (Z.add_0_r (len pre)) at 1. rewrite poke_in by (unfold len; cbn [length]; lia). cbn [obind].
  rewrite poke_in by (unfold len; rewrite ?length_splice; cbn [length]; lia). cbn [obind].
  replace (len pre + 32 + 32) with (len pre + 64) by lia.
  rewrite poke_in by (unfold len; rewrite ?length_splice; rewrite ?length_splice; cbn [length]; lia). done.
Qed.

Lemma cleared_ends (b post : list Z) : length b = 96%nat -> ends (cleared b ++ post).
Proof.
  intros Hb _. do 96 (destruct b as [|? b]; [done |]). destruct b; [| done]. reflexivity.
Qed.

(** The set with another name. *)
Definition renamed (b name : list Z) : list Z := splice b 66 (name_field name).

Lemma renamed_ok (b name : list Z) :
  is_set b -> ascii_ok name ->
  is_set (renamed b name) /\ set_name (renamed b name) = name /\ set_type (renamed b name) = set_type b /\
  set_first (renamed b name) = set_first b /\ set_size (renamed b name) = set_size b.
Proof.
  intros [Hl H1 H2 H3 H4] Hn. pose proof (length_name_field name) as Hf.
  assert (E : forall o n, 0 <= o -> o + Z.of_nat n <= 66 -> field (renamed b name) o n = field b o n).
  { intros o n Ho Ho2. unfold renamed, field. rewrite splice_other; [done | lia | lia | rewrite Hf; lia | left; lia]. }
  split_and!.
  - split; [unfold renamed; rewrite length_splice; rewrite ?Hf; lia | rewrite E; done || lia ..].
  - unfold renamed, splice. rewrite Hf. apply set_name_field; [done |]. rewrite length_take. lia.
  - unfold set_type. by rewrite E by lia.
  - unfold set_first. by rewrite E by lia.
  - unfold set_size. unfold renamed, field. rewrite splice_other; [done | lia | lia | rewrite Hf; lia | left; lia].
Qed.

Section delete.
Context {D : Type} `{SectorDev D}.
Variable stk : Z -> Z.

(** The place of a set in its directory. *)
Lemma set_place (f : exfat) (l : list Z) (dir : inode) (bs : list (list Z)) (rest name b : list Z) (i : nat) :
  ex_ok f -> dir_ok f l dir bs rest -> find_set name bs = Some (i, b) ->
  is_set b /\ concat bs ++ rest = concat (take i bs) ++ b ++ concat (drop (S i) bs) ++ rest /\
  u32 (3 * Z.of_nat i * 32) = len (concat (take i bs)) /\ len (concat (take i bs)) = 96 * Z.of_nat i /\ Forall is_set (take i bs).
Proof.
  intros Hok Hd Ef. apply find_set_Some in Ef as [Eb _]. pose proof (do_sets _ _ _ _ _ Hd) as Hs. pose proof (dir_room _ _ _ _ _ Hok Hd) as Hr.
  pose proof (xo_spc _ Hok). pose proof (xo_bpc _ Hok). apply lookup_lt_Some in Eb as Hi. assert (0 <= len rest) by (unfold len; lia).
  assert (Hl : len (concat (take i bs)) = 96 * Z.of_nat i) by (rewrite len_sets by (by apply Forall_take); rewrite length_take; lia).
  split; [rewrite Forall_lookup in Hs; by apply (Hs i) |]. split; [rewrite (sets_split bs i b Eb) at 1; by rewrite <- !app_assoc |].
  split; [| split; [done | by apply Forall_take]]. rewrite Hl, wrap_small by (split; lia). lia.
Qed.

(** Deleting a file from an exFAT directory frees exactly the clusters of its chain, but
    hides every file behind it: afterwards the directory holds the sets in front of the
    deleted one and no other, so a name that is found only behind it is not found any more. *)
Theorem exfat_unlink_hides (fs : exfs D) (l : list Z) (dir : inode) (bs : list (list Z)) (rest name b cs : list Z) (i : nat) :
  let f := ex fs in
  vol_ok fs l -> dir_ok f l dir bs rest -> find_set name bs = Some (i, b) ->
  chain (fat_cache f) cs -> NoDup cs -> set_first b = hd EXFAT_FAT_END cs -> first_cluster (i_private dir) ∉ cs ->
  exists d f' l', exfat_unlink stk fs dir name = Ret (true, mk_exfs d f') /\ vol_ok (mk_exfs d f') l' /\
    (forall c, 2 <= c < fat_entries f -> get (fat_cache f') c = if decide (c ∈ cs) then EXFAT_FAT_FREE else get (fat_cache f) c) /\
    (forall n, exists d', exfat_lookup stk (mk_exfs d f') dir n =
       Ret (match find_set n (take i bs) with Some (j, x) => Some (inode_at dir j x) | None => None end, mk_exfs d' f')).
Proof.
  cbv zeta. intros Hv Hd Ef Hch Hnd Hfirst Hdc. pose proof Hv as [_ Hok]. pose proof (do_mode _ _ _ _ _ Hd) as Hm.
  destruct (set_place _ _ _ _ _ _ _ _ Hok Hd Ef) as (Hb & Hsp & Hp & Hlp & Hti). pose proof Hb as [Hlb _ Hcnt _ _].
  destruct (lookup_ok stk fs l dir bs rest name Hv Hd) as (d0 & El & Hv0). rewrite Ef in El.
  unfold exfat_unlink. rewrite Hm. change (negb (FT_DIR =? FT_DIR)) with false. cbv iota. rewrite El. cbn [obind inode_at i_private first_cluster dir_entry ex].
  rewrite Hfirst, free_chain_ok; [| done | done | done | unfold walk_fuel; pose proof (ex_chain_length _ _ Hch Hnd); lia]. cbn [obind].
  set (g := freed (ex fs) cs). pose proof (chain_ge_2 _ _ Hch) as HF.
  assert (HF0 : Forall (fun c => 0 <= c) cs) by (eapply Forall_impl; [exact HF | cbn; lia]).
  assert (Hokg : ex_ok g) by (apply with_cache_ok; [done | apply length_freed]).
  assert (Hdg : dir_ok g l dir bs rest).
  { apply dir_ok_cache; [done |]. pose proof (do_chain _ _ _ _ _ Hd) as Hdch. pose proof (chain_head _ _ _ Hdch) as Hh.
    apply chain_end; [unfold len in *; by rewrite length_freed |]. rewrite get_freed by (done || lia). rewrite decide_False by done.
    apply (chain_step _ _ _ Hdch). }
  assert (Hvg : vol_ok (mk_exfs d0 g) l) by (split; [apply Hv0 | done]).
  change (upd (mk_exfs d0 (ex fs)) g) with (mk_exfs d0 g).
  destruct (read_dir (mk_exfs d0 g) l dir bs rest (cluster_buf stk (mk_exfs d0 g)) Hvg Hdg (len_cluster_buf stk (mk_exfs d0 g) Hokg)) as (d1 & -> & Hv1). cbn [obind].
  rewrite Hp, Hsp, fld_in by (unfold len; lia). rewrite Hcnt. cbn [obind]. change (Z.to_nat (u8 (2 + 1))) with 3%nat.
  rewrite clear_set by done. cbn [obind ex].
  destruct (write_dir (mk_exfs d1 g) l dir bs (take i bs) rest (cleared b ++ concat (drop (S i) bs) ++ rest) Hv1 Hdg) as (d2 & l2 & -> & Hv2 & Hd2 & _ & _).
  { pose proof (len_cluster_bytes _ _ _ Hokg (do_vol _ _ _ _ _ Hdg)) as Hl. rewrite (do_bytes _ _ _ _ _ Hdg), Hsp in Hl.
    cbn [ex]. rewrite <- Hl, !len_app. assert (len (cleared b) = len b) by (unfold len; rewrite length_cleared by done; lia). lia. }
  { done. } { by apply cleared_ends. }
  cbn [obind ex]. destruct (set_dirty_ok _ Hokg) as [-> Hokd]. cbn [obind upd ex_dev].
  assert (Hvd : vol_ok (mk_exfs d2 (dirtied g)) l2) by (split; [apply Hv2 | done]).
  exists d2, (dirtied g), l2. split; [done |]. split; [done |]. split.
  - intros c Hc. pose proof (xo_length _ Hok) as Hlen. cbn [dirtied with_cache fat_cache]. rewrite get_set_ne by lia. apply get_freed; [lia | done].
  - intros n. apply dirtied_dir in Hd2. destruct (lookup_ok stk (mk_exfs d2 (dirtied g)) l2 dir _ _ n Hvd Hd2) as (d' & E' & _). exists d'. exact E'.
Qed.

(** Renaming inside an exFAT directory changes one name and nothing else: the set stays
    at its place with its type, first cluster and size, the sets around it and the bytes
    of every other cluster stay as they are, and the table is not touched. *)
Theorem exfat_rename_spec (fs : exfs D) (l : list Z) (dir : inode) (bs : list (list Z)) (rest old_name new_name b : list Z) (i : nat) :
  let f := ex fs in
  vol_ok fs l -> dir_ok f l dir bs rest -> find_set old_name bs = Some (i, b) -> ascii_ok new_name ->
  exists d l', exfat_rename stk fs dir old_name dir new_name = Ret (true, mk_exfs d f) /\ vol_ok (mk_exfs d f) l' /\
    dir_ok f l' dir (<[i := renamed b new_name]> bs) rest /\ set_name (renamed b new_name) = new_name /\
    set_type (renamed b new_name) = set_type b /\ set_first (renamed b new_name) = set_first b /\
    set_size (renamed b new_name) = set_size b /\
    (forall x, 2 <= x -> x <> first_cluster (i_private dir) -> cluster_bytes f l' x = cluster_bytes f l x).
Proof.
  cbv zeta. intros Hv Hd Ef Hn. pose proof Hv as [_ Hok].
  destruct (set_place _ _ _ _ _ _ _ _ Hok Hd Ef) as (Hb & Hsp & Hp & Hlp & Hti). pose proof Hb as [Hlb _ Hcnt _ _].
  destruct (renamed_ok b new_name Hb Hn) as (R1 & R2 & R3 & R4 & R5).
  pose proof (len_cluster_bytes _ _ _ Hok (do_vol _ _ _ _ _ Hd)) as Hl. rewrite (do_bytes _ _ _ _ _ Hd), Hsp, len_app, len_app in Hl.
  assert (Hlz : len b = 96) by (unfold len; lia).
  destruct (lookup_ok stk fs l dir bs rest old_name Hv Hd) as (d0 & El & Hv0). rewrite Ef in El.
  unfold exfat_rename. rewrite El. cbn [obind inode_at i_private first_cluster dir_entry ex].
  destruct (read_dir (mk_exfs d0 (ex fs)) l dir bs rest (cluster_buf stk (mk_exfs d0 (ex fs))) Hv0 Hd (len_cluster_buf stk (mk_exfs d0 (ex fs)) Hok)) as (d1 & -> & Hv1). cbn [obind].
  rewrite Hp, Hsp, fld_in by lia. rewrite Hcnt. cbn [obind]. change (u8 (2 + 1)) with 3.
  unfold part at 1. rewrite !len_app. replace ((0 <=? _) && _) with true by (unfold len in *; lia). cbn [obind].
  change (Z.to_nat 3) with 3%nat. rewrite clear_set by done. cbn [obind].
  set (pre := concat (take i bs)) in *. set (post := concat (drop (S i) bs) ++ rest) in *.
  destruct (write_dir (mk_exfs d1 (ex fs)) l dir bs (take i bs) rest (cleared b ++ post) Hv1 Hd) as (d2 & l2 & E2 & Hv2 & Hd2 & Hl2 & Ho2).
  { cbn [ex]. fold pre. rewrite !len_app. assert (len (cleared b) = len b) by (unfold len; rewrite length_cleared by done; lia). lia. } { done. } { by apply cleared_ends. }
  fold pre in E2. cbn [ex]. rewrite E2. cbn [obind ex] in *.
  destruct (read_dir (mk_exfs d2 (ex fs)) l2 dir _ _ (cluster_buf stk (mk_exfs d2 (ex fs))) Hv2 Hd2 (len_cluster_buf stk (mk_exfs d2 (ex fs)) Hok)) as (d3 & -> & Hv3). cbn [obind ex] in *.
  assert (Hcl : len (cleared b) = 96) by (unfold len; rewrite length_cleared; lia).
  pose proof (free_entry_sets (take i bs) (Z.to_nat (bytes_per_cluster (ex fs) / 32)) [] (cleared b ++ post) 0 Hti (cleared_ends b post Hlb) eq_refl) as Efr.
  assert (Hti2 : length (take i bs) = i) by (apply find_set_Some in Ef as [Eb _]; apply lookup_lt_Some in Eb; rewrite length_take; lia).
  assert (0 <= len post) by (unfold len; lia).
  rewrite len_app, Hti2 in Efr. specialize (Efr ltac:(lia) ltac:(dlia)). cbn [app] in Efr. rewrite Efr. cbn [obind]. rewrite Z.add_0_l. fold pre.
  assert (Hdata : slice (pre ++ b ++ post) (len pre) (32 * 3) = b).
  { unfold slice, len. rewrite Nat2Z.id, drop_app_length. change (Z.to_nat (32 * 3)) with 96%nat. by rewrite take_app_le, take_ge by lia. }
  rewrite Hdata. replace (32 * (3 * Z.of_nat i)) with (len pre) by lia.
  assert (Ep : poke (pre ++ cleared b ++ post) (len pre) b = Ret (pre ++ b ++ post)).
  { rewrite poke_tail by (rewrite len_app; lia). rewrite Hlb. rewrite drop_app_length' by (rewrite length_cleared; lia). done. }
  rewrite Ep. cbn [obind]. replace (32 * (3 * Z.of_nat i + 2) + 2) with (len pre + 66) by lia.
  rewrite poke_in by (unfold len in *; rewrite ?length_name_field; lia). cbn [obind]. fold (renamed b new_name).
  assert (Eb : bs !! i = Some b) by by apply find_set_Some in Ef as [? _].
  assert (Hcat : pre ++ renamed b new_name ++ post = concat (<[i := renamed b new_name]> bs) ++ rest).
  { rewrite (sets_split _ i (renamed b new_name)) by (apply list_lookup_insert_eq; by apply lookup_lt_Some in Eb).
    rewrite take_insert_ge, drop_insert_lt by lia. unfold pre, post. by rewrite <- !app_assoc. }
  rewrite Hcat. destruct (write_dir (mk_exfs d3 (ex fs)) l2 dir (take i bs) (<[i := renamed b new_name]> bs) (cleared b ++ post) rest Hv3 Hd2) as (d4 & l4 & E4 & Hv4 & Hd4 & Hl4 & Ho4).
  { rewrite <- Hcat, !len_app. assert (len (renamed b new_name) = 96) by (unfold len; rewrite (st_length _ R1); lia). cbn [ex]. lia. }
  { apply Forall_insert; [apply Hd | done]. } { apply Hd. }
  cbn [ex]. rewrite E4. cbn [obind ex] in *. exists d4, l4. split_and!; try done. intros x Hx Hne. rewrite Ho4 by done. by apply Ho2.
Qed.
End delete.
