(* ===== verification/ExfatMount.v ===== *)
(** Formatting, mounting and unmounting in the exFAT driver (Exfat.v): the volume that
    [exfat_mount] finds on a disk that [exfat_format] or [exfat_unmount_fs] has written. *)

From S2P Require Import Prelude Bytes Buffer SectorDev Exfat ExfatData ExfatDir.

(** * Sector by sector *)

(** A buffer that agrees with [t] up to [n], with one more sector put in. *)
Lemma take_splice_next (l t : list Z) (n k : Z) :
  0 <= n -> 0 <= k -> n + k <= len t -> length l = length t -> take (Z.to_nat n) l = take (Z.to_nat n) t ->
  take (Z.to_nat (n + k)) (splice l n (slice t n k)) = take (Z.to_nat (n + k)) t.
Proof.
  intros Hn Hk Hl Hlt E. unfold len in Hl. pose proof (length_slice t n k Hn Hk Hl) as Hs.
  unfold splice. rewrite E, app_assoc, take_app_le by (rewrite length_app, length_take; lia).
  replace (Z.to_nat (n + k)) with (Z.to_nat n + Z.to_nat k)%nat by lia. rewrite take_ge by (rewrite length_app, length_take; lia).
  unfold slice. by rewrite take_take_drop.
Qed.

Section mount.
Context {D : Type} `{SectorDev D}.

(** The loop "Reading FAT". *)
Lemma read_table (f : exfat) (d : D) (l cache : list Z) :
  sd_holds d l -> bytes_per_sector f = 512 -> 0 <= fat_offset f -> 0 <= fat_length f -> fat_offset f + fat_length f <= sd_total d ->
  fat_offset f + fat_length f < 2 ^ 32 -> fat_length f * 512 < 2 ^ 32 -> len cache = fat_length f * 512 ->
  exists d', ofor_from 0 (Z.to_nat (fat_length f)) (fun i '(cache, fs) =>
      do '(_, cache, fs) <- exfat_read_sectors fs (u32 (fat_offset f + i)) 1 cache (u32 (i * bytes_per_sector f));
      Ret (cache, fs))%out (cache, mk_exfs d f) = Ret (slice l (fat_offset f * 512) (fat_length f * 512), mk_exfs d' f) /\ sd_holds d' l.
Proof.
  intros Hh Hb Ho Hn Ht H32 Hs Hlen. pose proof (sd_holds_ok d l Hh) as (_ & _ & Hll & _). rewrite Hb.
  set (t := slice l (fat_offset f * 512) (fat_length f * 512)).
  assert (Hlt : len t = fat_length f * 512) by (unfold t, len; apply length_slice; lia).
  pose (P i (x : list Z * exfs D) := exists d', x.2 = mk_exfs d' f /\ sd_holds d' l /\ length x.1 = length t /\
          take (Z.to_nat (i * 512)) x.1 = take (Z.to_nat (i * 512)) t).
  edestruct (ofor_from_inv P 0 (Z.to_nat (fat_length f))) as ([c' fs'] & E & (d' & E2 & Hh' & Hl' & Et)); [| | rewrite E].
  - exists d. split_and!; try done. unfold len in *. cbn [fst]. lia.
  - intros i [c1 fs1] Hi (d1 & Efs & Hh1 & Hl1 & Et1). cbn [fst snd] in *. subst fs1. rewrite !(wrap_small 32) by (split; lia).
    pose proof (same_total _ _ _ Hh Hh1) as Htot.
    destruct (sd_read_ok d1 l (fat_offset f + i) 1 Hh1 ltac:(lia) ltac:(lia) ltac:(lia)) as (d2 & Er & Hh2).
    assert (Hsl : slice l ((fat_offset f + i) * 512) (1 * 512) = slice t (i * 512) 512).
    { unfold t. rewrite slice_slice by lia. f_equal. lia. }
    unfold exfat_read_sectors. cbn [ex_dev ex]. rewrite Er, Hsl. cbn [obind].
    pose proof (length_slice t (i * 512) 512 ltac:(lia) ltac:(lia) ltac:(unfold len in *; lia)) as Hsz.
    unfold poke, len in *. rewrite Hsz. replace ((0 <=? _) && _) with true by lia. cbn [obind].
    eexists. split; [done |]. exists d2. cbn [fst snd]. split_and!; try done; [rewrite length_splice; lia |].
    replace ((i + 1) * 512) with (i * 512 + 512) by lia. apply take_splice_next; unfold len; lia || done.
  - cbn [fst snd] in *. subst fs'. exists d'. split; [| done]. do 2 f_equal. unfold len in Hlt.
    rewrite !take_ge in Et by lia. done.
Qed.

(** Mounting a volume with a valid boot sector. *)
Lemma mount_ok (stk : Z -> Z) (d : D) (l : list Z) (f : exfat) :
  let sector := slice l 0 512 in
  sd_holds d l -> 1 <= sd_total d -> slice sector 3 8 = EXFAT_NAME -> exfat_of_vbr sector = Ret f -> bytes_per_sector f = 512 ->
  0 < fat_length f -> 0 <= fat_offset f -> fat_offset f + fat_length f <= sd_total d -> fat_offset f + fat_length f < 2 ^ 32 ->
  fat_length f * 512 < 2 ^ 32 ->
  let f' := with_cache f (words (slice l (fat_offset f * 512) (fat_length f * 512)) (fat_entries f)) in
  exists d', exfat_mount stk d = Ret (Some (root_inode f', mk_exfs d' f'), d') /\ sd_holds d' l.
Proof.
  cbv zeta. intros Hh Ht Hname Ef Hb Hn Ho Hend H32 Hs. pose proof (sd_holds_ok d l Hh) as (_ & _ & Hll & _). unfold exfat_mount, exfat_read_sectors at 1.
  cbn [ex_dev ex]. destruct (sd_read_ok d l 0 1 Hh ltac:(lia) ltac:(lia) ltac:(lia)) as (d1 & -> & Hh1). cbn [obind].
  change (0 * 512) with 0. change (1 * 512) with 512. pose proof (length_slice l 0 512 ltac:(lia) ltac:(lia) ltac:(lia)) as Hsl.
  unfold poke. rewrite length_uninit, Hsl. change ((0 <=? 0) && (0 + 512 <=? Z.of_nat (Z.to_nat 512))) with true. cbv iota. cbn [obind negb].
  rewrite splice_all by (rewrite length_uninit; lia). rewrite bool_decide_eq_true_2 by exact Hname. cbn [negb]. rewrite Ef. cbn [obind].
  rewrite Hb, (wrap_small 32) by (split; lia). replace (fat_length f * 512 =? 0) with false by lia. cbn [ex_dev].
  destruct (read_table f d1 l (uninit stk (fat_length f * 512)) Hh1 Hb Ho ltac:(lia)) as (d2 & E & Hh2); try done.
  - pose proof (same_total _ _ _ Hh Hh1). lia.
  - unfold len. rewrite length_uninit. lia.
  - rewrite Hb in E. rewrite E. cbn [obind]. exists d2. split; [done |]. done.
Qed.

(** * Writing the table *)

(** The table in parts of one sector, written one after the other. *)
Lemma splice_next (l t : list Z) (a n k : Z) :
  0 <= a -> 0 <= n -> 0 <= k -> n + k <= len t -> a + len t <= len l ->
  splice (splice l a (slice t 0 n)) (a + n) (slice t n k) = splice l a (slice t 0 (n + k)).
Proof.
  intros Ha Hn Hk Ht Hl. unfold len in *.
  pose proof (length_slice t 0 n ltac:(lia) ltac:(lia) ltac:(lia)) as L1. pose proof (length_slice t n k ltac:(lia) ltac:(lia) ltac:(lia)) as L2.
  assert (Hcat : slice t 0 (n + k) = slice t 0 n ++ slice t n k).
  { unfold slice. rewrite !drop_0. replace (Z.to_nat (n + k)) with (Z.to_nat n + Z.to_nat k)%nat by lia. by rewrite take_take_drop. }
  rewrite Hcat. unfold splice at 2 3. rewrite app_assoc, splice_app_r by (rewrite length_app, length_take; lia).
  rewrite length_app, length_take. replace (a + n - Z.of_nat _) with 0 by lia. unfold splice. change (Z.to_nat 0) with O. rewrite take_0.
  cbn [app Nat.add]. rewrite drop_drop, <- !app_assoc, length_app. do 4 f_equal. lia.
Qed.

Lemma slice_all (t : list Z) : slice t 0 (len t) = t.
Proof. unfold slice, len. rewrite Nat2Z.id, drop_0. by apply take_ge. Qed.

(** One sector of the table goes to its place on the device. *)
Lemma ex_write_part (d : D) (l t : list Z) (off n i : Z) :
  sd_holds d (splice l (off * 512) (slice t 0 (i * 512))) -> 0 <= off -> 0 <= i < n -> len t = n * 512 -> (off + n) * 512 <= len l -> sd_total d * 512 = len l ->
  exists d', sd_write d (off + i) 1 (slice t (i * 512) 512) = Ret (true, d') /\ sd_holds d' (splice l (off * 512) (slice t 0 ((i + 1) * 512))) /\
    sd_total d' = sd_total d.
Proof.
  intros Hh Ho Hi Ht Hl Htot. pose proof (length_slice t (i * 512) 512 ltac:(lia) ltac:(lia) ltac:(unfold len in *; lia)) as Hs.
  destruct (write_step d _ (sd_total d) (off + i) 1 (slice t (i * 512) 512) Hh eq_refl) as (d' & E & Hh' & T); [lia.. |].
  exists d'. split; [done |]. split; [| done]. replace ((off + i) * 512) with (off * 512 + i * 512) in Hh' by lia.
  rewrite splice_next in Hh' by lia. by replace ((i + 1) * 512) with (i * 512 + 512) by lia.
Qed.

(** What [exfat_sync] writes. *)
Lemma write_fat_ok (fs : exfs D) (l : list Z) :
  let f := ex fs in
  let t := fat_bytes (fat_cache f) in
  vol_ok fs l -> fat_entries f = fat_length f * 128 -> 0 <= fat_offset f -> 0 <= fat_length f ->
  (fat_offset f + fat_length f) * 512 <= len l -> fat_offset f + fat_length f < 2 ^ 32 -> fat_length f * 512 < 2 ^ 32 ->
  exists d', write_fat fs = Ret (mk_exfs d' f) /\ sd_holds d' (splice l (fat_offset f * 512) t).
Proof.
  cbv zeta. intros [Hh Hok] He Ho Hn Hl H32 Hs. pose proof (sd_holds_ok _ l Hh) as (_ & _ & Hll & _). unfold write_fat. rewrite (xo_bps _ Hok).
  change (512 / 512) with 1. change (1 * 512) with 512.
  set (f := ex fs) in *. set (t := fat_bytes (fat_cache f)).
  assert (Hlt : len t = fat_length f * 512).
  { unfold t, len. rewrite length_fat_bytes. pose proof (xo_length _ Hok) as E. unfold len in E. lia. }
  pose (P i (x : exfs D) := exists d', x = mk_exfs d' f /\ sd_holds d' (splice l (fat_offset f * 512) (slice t 0 (i * 512))) /\ sd_total d' * 512 = len l).
  edestruct (ofor_from_inv P 0 (Z.to_nat (fat_length f))) as (fs' & E & (d' & -> & Hh' & _)); [| | rewrite E].
  - exists (ex_dev fs). split; [by destruct fs |]. rewrite slice_nil, splice_nil. unfold len. split; [done | lia].
  - intros i x Hi (d1 & -> & Hh1 & T1). rewrite !(wrap_small 32) by (split; lia). unfold part. replace ((0 <=? _) && _) with true by lia. cbn [obind].
    unfold write_sectors. cbn [ex_dev ex]. destruct (ex_write_part d1 l t (fat_offset f) (fat_length f) i Hh1) as (d2 & -> & Hh2 & T2); try done; try lia.
    cbn [obind]. eexists. split; [done |]. exists d2. split; [done |]. split; [done | congruence].
  - exists d'. split; [done |]. replace ((0 + Z.of_nat (Z.to_nat (fat_length f))) * 512) with (len t) in Hh' by lia. by rewrite slice_all in Hh'.
Qed.

(** C21: Unmounting an exFAT volume writes the table to its sectors of the disk exactly when
    the dirty flag, bit 0 of its first entry, is set; no other sector changes.  When the boot
    sector of the disk describes the geometry the volume has, mounting then reads back the
    same file system if the flag was set, and otherwise the one with the table that was on
    the disk all along: changes made without the flag are lost. *)
Theorem exfat_unmount_mount (stk : Z -> Z) (fs : exfs D) (l : list Z) :
  let f := ex fs in
  let sector := slice l 0 512 in
  vol_ok fs l -> Forall (fits 32) (fat_cache f) ->
  slice sector 3 8 = EXFAT_NAME -> exfat_of_vbr sector = Ret (with_cache f []) -> fat_entries f = fat_length f * 128 ->
  1 <= fat_offset f -> (fat_offset f + fat_length f) * 512 <= len l -> fat_offset f + fat_length f < 2 ^ 32 -> fat_length f * 512 < 2 ^ 32 ->
  let on_disk := words (slice l (fat_offset f * 512) (fat_length f * 512)) (fat_entries f) in
  let dirty := is_dirty (get (fat_cache f) 0) in
  let l' := if dirty then splice l (fat_offset f * 512) (fat_bytes (fat_cache f)) else l in
  exists d d', exfat_unmount_fs fs = Ret d /\ sd_holds d l' /\
    exfat_mount stk d = Ret (Some (root_inode f, mk_exfs d' (if dirty then f else with_cache f on_disk)), d').
Proof.
  cbv zeta. intros Hv HF Hname Ef He Ho Hl H32 Hs. pose proof Hv as [Hh Hok]. pose proof (sd_holds_ok _ l Hh) as (_ & _ & Hll & _).
  pose proof (xo_entries _ Hok) as Hent. pose proof (xo_length _ Hok) as Hlen. set (f := ex fs) in *. unfold len in Hl.
  unfold exfat_unmount_fs, exfat_sync. fold f. rewrite cache_get_in by (done || lia). cbn [obind]. destruct (is_dirty (get (fat_cache f) 0)).
  2: { cbn [obind]. destruct (mount_ok stk (ex_dev fs) l (with_cache f [])) as (d' & E' & _); cbn [with_cache fat_offset fat_length fat_entries bytes_per_sector];
         [done | lia | done | done | apply Hok | lia | lia | lia | done | done |]. by exists (ex_dev fs), d'. }
  destruct (write_fat_ok fs l Hv He ltac:(fold f; lia) ltac:(fold f; lia) Hl H32 Hs) as (d & Ew & Hd). fold f in Hd, Ew. rewrite Ew. cbn [obind ex].
  rewrite cache_set_in by (done || lia). cbn [obind upd ex_dev].
  set (t := fat_bytes (fat_cache f)) in *. assert (Hlt : Z.of_nat (length t) = fat_length f * 512).
  { unfold t. rewrite length_fat_bytes. unfold len in Hlen. lia. }
  set (l' := splice l (fat_offset f * 512) t) in *.
  assert (Hl' : length l' = length l) by (unfold l'; rewrite length_splice; lia).
  pose proof (sd_holds_ok _ l' Hd) as (_ & _ & Hll' & _).
  assert (E0 : slice l' 0 512 = slice l 0 512) by (unfold l'; apply slice_splice_ne; lia).
  destruct (mount_ok stk d l' (with_cache f [])) as (d' & E' & _); rewrite ?E0; cbn [with_cache fat_offset fat_length fat_entries bytes_per_sector];
    [done | lia | done | done | apply Hok | lia | lia | lia | done | done |].
  exists d, d'. split; [done |]. split; [done |]. rewrite E'.
  assert (Ew' : words (slice l' (fat_offset f * 512) (fat_length f * 512)) (fat_entries f) = fat_cache f).
  { rewrite <- Hlt. unfold l'. rewrite slice_splice_eq by lia. unfold t. rewrite <- (xo_length _ Hok). apply words_fat_bytes. done. }
  cbn [with_cache fat_offset fat_length fat_entries]. rewrite Ew'. by destruct f.
Qed.
End mount.

(** * Formatting *)

Lemma shift_cases (total : Z) :
  let s := spc_shift_for total in
  (s = 0 /\ total < 0x100000) \/ (s = 1 /\ 0x100000 <= total < 0x400000) \/ (s = 3 /\ 0x400000 <= total < 0x1000000) \/ (s = 6 /\ 0x1000000 <= total).
Proof.
  cbv zeta. unfold spc_shift_for. destruct (Z.ltb_spec total 0x100000); [lia |]. destruct (Z.ltb_spec total 0x400000); [lia |].
  destruct (Z.ltb_spec total 0x1000000); lia.
Qed.

(** The clusters and the table that formatting lays out for [total] sectors. *)
Definition fat_sectors (total : Z) : Z := fat_sectors_for total 512.
Definition cluster_sectors (total : Z) : Z := 2 ^ spc_shift_for total.

Definition large_enough (total : Z) : Prop := 24 + fat_sectors total + cluster_sectors total <= total < 2 ^ 32.

Lemma layout_pos (total : Z) : 0 <= fat_sectors total /\ 0 < cluster_sectors total.
Proof.
  split; [apply Z.div_pos; [apply Z.mod_pos_bound |]; lia |]. pose proof (shift_cases total) as Hs. cbv zeta in Hs.
  apply Z.pow_pos_nonneg; lia.
Qed.

(** The table has an entry for every cluster of the whole disk, the sectors in front of the
    cluster heap counted in. *)
Lemma layout (total : Z) :
  0 <= total < 2 ^ 32 -> let n := fat_sectors total in let k := cluster_sectors total in
  0 < n < 2 ^ 22 /\ 0 < k <= 64 /\ 0 <= total / k < 2 ^ 27 /\ total <= 24 + n + (n * 128 - 3) * k.
Proof.
  cbv zeta. intros Ht. unfold fat_sectors, cluster_sectors, fat_sectors_for. pose proof (shift_cases total) as Hs. cbv zeta in Hs.
  assert (Hq : 0 <= total / 2 ^ spc_shift_for total < 2 ^ 26).
  { destruct Hs as [[-> ?] | [[-> ?] | [[-> ?] | [-> ?]]]]; cbn [Z.pow Z.pow_pos Pos.iter Z.mul Pos.mul]; dlia. }
  rewrite (wrap_small 32 (_ + 2)), (wrap_small 32 (_ * 4)), (wrap_small 32) by (split; lia).
  destruct Hs as [[E ?] | [[E ?] | [[E ?] | [E ?]]]]; rewrite E in *; cbn [Z.pow Z.pow_pos Pos.iter Z.mul Pos.mul] in *; split_and!; dlia.
Qed.

Definition new_table (n : Z) : list Z := [0xFFFFFFF8; 0xFFFFFFFF; EXFAT_FAT_END] ++ replicate (Z.to_nat (n * 128 - 3)) 0.

Lemma len_new_table (n : Z) : 0 < n -> len (new_table n) = n * 128.
Proof. intros Hn. unfold len, new_table. rewrite length_app, length_replicate. cbn [length]. lia. Qed.

Lemma ex_new_table_fits (n : Z) : Forall (fits 32) (new_table n).
Proof. unfold new_table, EXFAT_FAT_END. repeat constructor; try lia. apply Forall_replicate. split; lia. Qed.

Lemma fat_bytes_app (a b : list Z) : fat_bytes (a ++ b) = fat_bytes a ++ fat_bytes b.
Proof. unfold fat_bytes. by rewrite fmap_app, concat_app. Qed.

Lemma fat_bytes_zeros (n : nat) : fat_bytes (replicate n 0) = replicate (4 * n) 0.
Proof.
  unfold fat_bytes. induction n as [|n IH]; [done |]. cbn [replicate fmap list_fmap concat]. rewrite IH. change (le_bytes 4 0) with (replicate 4 0).
  replace (4 * S n)%nat with (4 + 4 * n)%nat by lia. by rewrite replicate_add.
Qed.

Lemma format_table (n : Z) :
  0 < n -> poke (replicate (Z.to_nat (n * 512)) 0) 0 (fat_bytes [0xFFFFFFF8; 0xFFFFFFFF; EXFAT_FAT_END]) = Ret (fat_bytes (new_table n)).
Proof.
  intros Hn. unfold poke. rewrite length_replicate. change (length (fat_bytes [0xFFFFFFF8; 0xFFFFFFFF; EXFAT_FAT_END])) with 12%nat.
  replace ((0 <=? 0) && _) with true by lia. f_equal. unfold splice. change (Z.to_nat 0) with O. rewrite take_0. cbn [app Nat.add].
  unfold new_table. rewrite fat_bytes_app, fat_bytes_zeros, drop_replicate. f_equal. f_equal. cbn [length fat_bytes fmap list_fmap concat app le_bytes]. lia.
Qed.

(** The file system after formatting and mounting. *)
Definition fresh (total : Z) : exfat :=
  let n := fat_sectors total in
  let k := cluster_sectors total in
  mk_exfat 24 n 512 k (512 * k) (24 * 512) ((24 + n) * 512) 2 (new_table n) (n * 128).

Lemma vbr_fields (total n s : Z) :
  0 <= n < 2 ^ 22 -> 0 <= s < 32 ->
  length (vbr_bytes total n s) = 512%nat /\ slice (vbr_bytes total n s) 3 8 = EXFAT_NAME /\
  field (vbr_bytes total n s) 80 4 = 24 /\ field (vbr_bytes total n s) 84 4 = n /\ field (vbr_bytes total n s) 88 4 = 24 + n /\
  field (vbr_bytes total n s) 96 4 = 2 /\ field (vbr_bytes total n s) 108 1 = 9 /\ field (vbr_bytes total n s) 109 1 = s.
Proof.
  intros Hn Hs. split_and!; try done.
  - change (field (le_bytes 4 n ++ drop 88 (vbr_bytes total n s)) 0 4 = n). apply field_le_bytes. split; cbn; lia.
  - change (field (le_bytes 4 (24 + n) ++ drop 92 (vbr_bytes total n s)) 0 4 = 24 + n). apply field_le_bytes. split; cbn; lia.
  - change (s + 256 * 0 = s). lia.
Qed.

Lemma vbr_mount (total : Z) :
  0 <= total < 2 ^ 32 -> exfat_of_vbr (vbr_bytes total (fat_sectors total) (spc_shift_for total)) = Ret (with_cache (fresh total) []).
Proof.
  intros Ht. destruct (layout total Ht) as (Hn & Hk & _). pose proof (shift_cases total) as Hs. cbv zeta in Hs.
  destruct (vbr_fields total (fat_sectors total) (spc_shift_for total)) as (_ & _ & F1 & F2 & F3 & F4 & F5 & F6); [lia.. |].
  unfold exfat_of_vbr. rewrite F1, F2, F3, F4, F5, F6. unfold shl1. change (9 <? 32) with true. cbv iota. cbn [obind].
  replace (spc_shift_for total <? 32) with true by lia. cbn [obind]. fold (cluster_sectors total). change (2 ^ 9) with 512.
  rewrite (wrap_small 32 (512 * _)), (wrap_small 64 (24 * 512)), (wrap_small 64), (wrap_small 32) by (split; lia).
  unfold fresh, with_cache. cbn. do 2 f_equal. replace (fat_sectors total * 512) with (fat_sectors total * 128 * 4) by lia. by rewrite Z.div_mul.
Qed.

Section format.
Context {D : Type} `{SectorDev D}.

Lemma format_fat_ok (k : nat) (i n : Z) (d : D) (l t : list Z) :
  sd_holds d (splice l (24 * 512) (slice t 0 (i * 512))) -> 0 <= i -> i + Z.of_nat k = n -> n < 2 ^ 22 -> len t = n * 512 -> (24 + n) * 512 <= len l ->
  sd_total d * 512 = len l ->
  exists d', format_fat k i 512 t d = Ret (true, d') /\ sd_holds d' (splice l (24 * 512) t) /\ sd_total d' = sd_total d.
Proof.
  revert i d. induction k as [|k IH]; intros i d Hh Hi Hk Hn Ht Hl Htot; cbn [format_fat].
  - exists d. split; [done |]. replace (i * 512) with (len t) in Hh by lia. by rewrite slice_all in Hh.
  - rewrite !(wrap_small 32) by (split; lia). unfold part. replace ((0 <=? _) && _) with true by lia. cbn [obind].
    destruct (ex_write_part d l t 24 n i Hh) as (d1 & -> & Hh1 & T1); [lia.. |]. cbn [obind negb].
    destruct (IH (i + 1) d1 Hh1) as (d2 & -> & Hh2 & T2); [lia.. |]. exists d2. split; [done |]. split; [done | congruence].
Qed.

(** Everything that [exfat_format] writes. *)
Definition format_writes (total : Z) : list (Z * list Z) :=
  [(0, vbr_bytes total (fat_sectors total) (spc_shift_for total)); (24, fat_bytes (new_table (fat_sectors total)));
   (24 + fat_sectors total, replicate (Z.to_nat (512 * cluster_sectors total)) 0)].

Lemma format_inside (total m : Z) : large_enough total -> total * 512 <= m -> Forall (inside m) (format_writes total).
Proof.
  intros [H1 H2] Hm. pose proof (layout_pos total) as [H0 H3].
  destruct (layout total ltac:(lia)) as (Hn & Hk & _). pose proof (shift_cases total) as Hs. cbv zeta in Hs.
  destruct (vbr_fields total (fat_sectors total) (spc_shift_for total)) as (Hl & _); [lia.. |].
  pose proof (len_new_table (fat_sectors total) ltac:(lia)) as Ht. unfold len in Ht.
  unfold format_writes, inside. repeat constructor; cbn [fst snd]; rewrite ?length_fat_bytes, ?length_replicate, ?Hl; lia.
Qed.

Lemma exfat_format_ok (d : D) (l : list Z) :
  let total := sd_total d in
  sd_holds d l -> large_enough total ->
  exists d', exfat_format d = Ret (0, d') /\ sd_holds d' (patch l (format_writes total)) /\ sd_total d' = total.
Proof.
  cbv zeta. intros Hh Hbig. destruct (sd_holds_ok d l Hh) as (Hr & Hss & Hl & _). pose proof Hbig as [H1 H2].
  pose proof (layout_pos (sd_total d)) as [H0 H3].
  destruct (layout (sd_total d) ltac:(lia)) as (Hn & Hk & _). pose proof (shift_cases (sd_total d)) as Hs. cbv zeta in Hs.
  destruct (vbr_fields (sd_total d) (fat_sectors (sd_total d)) (spc_shift_for (sd_total d))) as (Hv & _); [lia.. |].
  unfold exfat_format. rewrite Hr, Hss. cbn [negb]. change (u32 512) with 512. cbn [Z.eqb]. fold (fat_sectors (sd_total d)).
  unfold format_writes, patch. cbn [fold_left fst snd]. fold (cluster_sectors (sd_total d)).
  set (total := sd_total d) in *. set (n := fat_sectors total) in *. set (k := cluster_sectors total) in *. set (vbr := vbr_bytes _ _ _) in *.
  destruct (write_step d l total 0 1 vbr Hh) as (d1 & -> & Hh1 & T1); [done | lia.. |]. cbn [obind negb].
  rewrite (wrap_small 32 (n * 512)) by (split; lia). replace (n * 512 =? 0) with false by lia. rewrite format_table by lia. cbn [obind].
  set (t := fat_bytes (new_table n)). assert (Ht : len t = n * 512).
  { unfold t, len. rewrite length_fat_bytes. pose proof (len_new_table n ltac:(lia)) as E. unfold len in E. lia. }
  assert (Hl1 : len (splice l (0 * 512) vbr) = 512 * total) by (unfold len; rewrite length_splice; lia).
  destruct (format_fat_ok (Z.to_nat n) 0 n d1 (splice l (0 * 512) vbr) t) as (d2 & -> & Hh2 & T2); try lia.
  { by rewrite slice_nil, splice_nil. }
  cbn [obind negb]. rewrite (Z.mul_comm 512 k), (wrap_small 32 (k * 512)), (wrap_small 32 (24 + n)) by (split; lia).
  replace (k * 512 =? 0) with false by lia.
  destruct (write_step d2 _ total (24 + n) k (replicate (Z.to_nat (k * 512)) 0) Hh2) as (d3 & -> & Hh3 & T3);
    [congruence | lia | lia | lia | rewrite length_replicate; lia |].
  cbn [obind]. exists d3. done.
Qed.

(** Formatting a disk for exFAT and mounting it gives the volume that was laid out: the
    geometry, an empty root directory of one cluster, and every other cluster free.  The
    table counts the whole disk as clusters, though: its last cluster is free for
    allocation and begins at or behind the end of the disk. *)
Theorem exfat_format_mount (stk : Z -> Z) (d : D) (l : list Z) :
  let total := sd_total d in
  let f := fresh total in
  sd_holds d l -> large_enough total ->
  exists d1 d2 l', exfat_format d = Ret (0, d1) /\ exfat_mount stk d1 = Ret (Some (root_inode f, mk_exfs d2 f), d2) /\
    vol_ok (mk_exfs d2 f) l' /\ dir_ok f l' (root_inode f) [] (replicate (Z.to_nat (bytes_per_cluster f)) 0) /\
    (forall c, 3 <= c < fat_entries f -> get (fat_cache f) c = EXFAT_FAT_FREE) /\
    len l' <= cluster_pos f (fat_entries f - 1).
Proof.
  cbv zeta. intros Hh Hbig. destruct (sd_holds_ok d l Hh) as (_ & _ & Hl & _). destruct (exfat_format_ok d l Hh Hbig) as (d1 & E1 & Hh1 & T1).
  pose proof (format_inside (sd_total d) (Z.of_nat (length l)) Hbig ltac:(lia)) as Hin. pose proof Hbig as [H1 H2].
  pose proof (layout_pos (sd_total d)) as [H0 H3]. assert (Htot : 0 <= sd_total d < 2 ^ 32) by (clear -H0 H1 H2 H3; lia).
  destruct (layout (sd_total d) Htot) as (Hn & Hk & Hq & Hbeyond). pose proof (shift_cases (sd_total d)) as Hs. cbv zeta in Hs.
  destruct (vbr_fields (sd_total d) (fat_sectors (sd_total d)) (spc_shift_for (sd_total d))) as (Hv & Hname & _); [lia.. |].
  pose proof (vbr_mount (sd_total d) Htot) as Ev. pose proof (length_patch _ _ Hin) as Hlp. set (l' := patch l (format_writes (sd_total d))) in *.
  unfold format_writes in Hin, l'. set (total := sd_total d) in *. set (n := fat_sectors total) in *. set (k := cluster_sectors total) in *.
  set (vbr := vbr_bytes _ _ _) in *. set (t := fat_bytes (new_table n)) in *. set (z := replicate (Z.to_nat (512 * k)) 0) in *.
  pose proof (len_new_table n ltac:(lia)) as Hnt.
  assert (Ht : Z.of_nat (length t) = n * 512) by (unfold t; rewrite length_fat_bytes; unfold len in Hnt; lia).
  assert (Hz : Z.of_nat (length z) = 512 * k) by (unfold z; rewrite length_replicate; lia).
  assert (S1 : slice l' 0 512 = vbr).
  { change 0 with (0 * 512). replace 512 with (Z.of_nat (length vbr)) at 2 by lia. apply (slice_patch l [] [(24, t); (24 + n, z)] 0 vbr); [exact Hin |].
    unfold apart. repeat constructor; cbn [fst snd]; lia. }
  assert (S2 : slice l' (24 * 512) (n * 512) = t).
  { rewrite <- Ht. apply (slice_patch l [(0, vbr)] [(24 + n, z)] 24 t); [exact Hin |]. unfold apart. repeat constructor; cbn [fst snd]; lia. }
  assert (S3 : slice l' ((24 + n) * 512) (512 * k) = z).
  { rewrite <- Hz. apply (slice_patch l [(0, vbr); (24, t)] [] (24 + n) z); [exact Hin | constructor]. }
  destruct (mount_ok stk d1 l' (with_cache (fresh total) [])) as (d2 & E2 & Hh2); rewrite ?S1; cbn [fresh with_cache fat_offset fat_length bytes_per_sector];
    fold n; try done; try lia.
  assert (Ew : words t (n * 128) = new_table n) by (rewrite <- Hnt; apply words_fat_bytes, ex_new_table_fits).
  cbn [fresh with_cache fat_offset fat_length fat_entries] in E2. fold n in E2. rewrite S2, Ew in E2.
  exists d1, d2, l'. split; [done |]. split; [exact E2 |].
  assert (Hok : ex_ok (fresh total)).
  { split; cbn [fresh fat_cache fat_entries bytes_per_sector sectors_per_cluster bytes_per_cluster cluster_heap_start]; fold n k; unfold EXFAT_FAT_END; try done; lia. }
  split; [by split |]. cbn [fresh bytes_per_cluster fat_cache fat_entries]. fold n k z. split_and!.
  - split; try done; cbn [root_inode i_private first_cluster fresh root_cluster].
    + apply chain_end; cbn [fresh fat_cache]; fold n; [lia | done].
    + unfold in_volume, cluster_pos. cbn [fresh cluster_heap_start bytes_per_cluster sectors_per_cluster]. fold n k. unfold len. split_and!; lia.
    + unfold cluster_bytes, cluster_pos. cbn [fresh cluster_heap_start bytes_per_cluster concat app]. fold n k.
      replace ((24 + n) * 512 + (2 - 2) * (512 * k)) with ((24 + n) * 512) by lia. exact S3.
    + apply blank_ends, blank_zeros.
  - intros c Hc. unfold new_table, get. rewrite nth_lookup, lookup_app_r by (cbn [length]; lia).
    rewrite lookup_replicate_2 by (cbn [length]; lia). done.
  - unfold cluster_pos. cbn [fresh cluster_heap_start bytes_per_cluster]. fold n k. unfold len. rewrite Hlp. fold n k in Hbeyond. lia.
Qed.
End format.
