(* ===== verification/ExfatDemo.v ===== *)
(** A small exFAT volume, on which the theorems about the driver (ExfatData.v to
    ExfatMount.v) are applied: forty sectors, clusters of one sector, a root directory in
    cluster 2, a file "a" of 512 bytes in cluster 3 and a file "b" of 700 bytes in clusters
    4 and 5. *)

From S2P Require Import Prelude Bytes Buffer SectorDev Exfat ExfatData ExfatDir ExfatCreate ExfatMount.

Definition xdemo_stk : Z -> Z := fun i => Z.land i 0xFF.

Definition xdemo_table : list Z :=
  [0xFFFFFFF9; 0xFFFFFFFF; EXFAT_FAT_END; EXFAT_FAT_END; 5; EXFAT_FAT_END] ++ replicate 122 0.

Definition xdemo_ex : exfat := mk_exfat 24 1 512 1 512 (24 * 512) (25 * 512) 2 xdemo_table 128.

Definition xdemo_a : list Z := sized (new_set 0 [97] 3) 0 512.
Definition xdemo_b : list Z := sized (new_set 0 [98] 4) 0 700.

Definition xdemo_disk : list Z :=
  vbr_bytes 40 1 0 ++ replicate (24 * 512) 0 ++ xdemo_a ++ xdemo_b ++ replicate 320 0 ++
  replicate 512 65 ++ replicate 512 66 ++ replicate (12 * 512) 67.

Definition xdemo_fs : exfs (list Z) := mk_exfs xdemo_disk xdemo_ex.
Definition xdemo_root : inode := root_inode xdemo_ex.
Definition xdemo_rest : list Z := replicate 320 0.
Definition xdemo_ino_a : inode := inode_at xdemo_root 0 xdemo_a.
Definition xdemo_ino_b : inode := inode_at xdemo_root 1 xdemo_b.

Lemma xdemo_length : len xdemo_disk = 40 * 512.
Proof. vm_compute. reflexivity. Qed.

Lemma xdemo_ex_ok : ex_ok xdemo_ex.
Proof. split; vm_compute; repeat split; discriminate || reflexivity. Qed.

Lemma xdemo_vol_ok : vol_ok xdemo_fs xdemo_disk.
Proof.
  split; [| exact xdemo_ex_ok]. split; [reflexivity |]. pose proof xdemo_length as E. unfold len in E. cbn [xdemo_fs ex_dev]. rewrite E.
  split; [reflexivity | lia].
Qed.

Lemma xdemo_in_volume (c : Z) : 2 <= c < 17 -> in_volume xdemo_ex xdemo_disk c.
Proof.
  intros Hc. unfold in_volume, cluster_pos. rewrite xdemo_length.
  cbn [xdemo_ex cluster_heap_start sectors_per_cluster bytes_per_cluster]. lia.
Qed.

Lemma xdemo_chain_end (c : Z) : c = 2 \/ c = 3 \/ c = 5 -> chain (fat_cache xdemo_ex) [c].
Proof.
  intros Hc. assert (El : len (fat_cache xdemo_ex) = 128) by (vm_compute; reflexivity).
  apply chain_end; [lia |]. destruct Hc as [-> | [-> | ->]]; vm_compute; reflexivity.
Qed.

Lemma xdemo_chain_b : chain (fat_cache xdemo_ex) [4; 5].
Proof.
  assert (El : len (fat_cache xdemo_ex) = 128) by (vm_compute; reflexivity).
  apply chain_cons; [lia | vm_compute; reflexivity | apply xdemo_chain_end; lia].
Qed.

Lemma xdemo_nodup_b : NoDup [4; 5].
Proof. apply NoDup_cons. split; [set_solver | apply NoDup_singleton]. Qed.

Lemma xdemo_file_a : file_ok xdemo_ex xdemo_disk xdemo_ino_a [3].
Proof.
  split; [apply xdemo_chain_end; lia | apply NoDup_singleton | vm_compute; reflexivity | | | ].
  - apply Forall_singleton. apply xdemo_in_volume. lia.
  - vm_compute. split; discriminate.
  - vm_compute. reflexivity.
Qed.

Lemma xdemo_file_b : file_ok xdemo_ex xdemo_disk xdemo_ino_b [4; 5].
Proof.
  split; [exact xdemo_chain_b | exact xdemo_nodup_b | vm_compute; reflexivity | | | ].
  - repeat constructor; apply xdemo_in_volume; lia.
  - vm_compute. split; discriminate.
  - vm_compute. reflexivity.
Qed.

Lemma xdemo_entry_a : entry_ok xdemo_ex xdemo_disk xdemo_ino_a [6; 3].
Proof. split; [exact (xdemo_in_volume 2 ltac:(lia)) | | vm_compute; split; discriminate]. vm_compute dir_cluster. set_solver. Qed.

Lemma xdemo_entry_b : entry_ok xdemo_ex xdemo_disk xdemo_ino_b [4; 5].
Proof. split; [exact (xdemo_in_volume 2 ltac:(lia)) | | vm_compute; split; discriminate]. vm_compute dir_cluster. set_solver. Qed.

Lemma xdemo_set_a : is_set xdemo_a.
Proof. split; vm_compute; reflexivity. Qed.

Lemma xdemo_set_b : is_set xdemo_b.
Proof. split; vm_compute; reflexivity. Qed.

Lemma xdemo_dir_ok : dir_ok xdemo_ex xdemo_disk xdemo_root [xdemo_a; xdemo_b] xdemo_rest.
Proof.
  split; [reflexivity | apply xdemo_chain_end; left; reflexivity | exact (xdemo_in_volume 2 ltac:(lia)) | vm_compute; reflexivity | |].
  - apply Forall_cons_2; [exact xdemo_set_a |]. apply Forall_cons_2; [exact xdemo_set_b | apply Forall_nil_2].
  - apply blank_ends, blank_zeros.
Qed.

(** * The theorems on this volume *)

Lemma exfat_read_spec_witness :
  exists d, exfat_read xdemo_stk xdemo_fs xdemo_ino_b 500 20 =
    Ret (Some (slice (take (Z.to_nat (i_size xdemo_ino_b)) (file_bytes xdemo_ex xdemo_disk [4; 5])) 500 20), mk_exfs d xdemo_ex).
Proof.
  destruct (exfat_read_spec xdemo_stk xdemo_fs xdemo_disk xdemo_ino_b [4; 5] 500 20 xdemo_vol_ok xdemo_file_b ltac:(lia) ltac:(lia)) as (d & E & _).
  exists d. exact E.
Defined.

Lemma exfat_write_spec_witness :
  exists d, exfat_write xdemo_stk xdemo_fs xdemo_ino_b 690 (replicate 20 9) =
      Ret (Some 20, with_size xdemo_ino_b 710, mk_exfs d (dirtied xdemo_ex)) /\
    exists d', exfat_read xdemo_stk (mk_exfs d (dirtied xdemo_ex)) (with_size xdemo_ino_b 710) 690 20 =
      Ret (Some (replicate 20 9), mk_exfs d' (dirtied xdemo_ex)).
Proof.
  destruct (exfat_write_spec xdemo_stk xdemo_fs xdemo_disk xdemo_ino_b [4; 5] 690 (replicate 20 9) xdemo_vol_ok xdemo_file_b xdemo_entry_b
    ltac:(lia) ltac:(vm_compute; reflexivity) ltac:(vm_compute; discriminate) ltac:(vm_compute; reflexivity)) as (d & l' & E & _ & _ & _ & _ & d' & E').
  exists d. split; [exact E |]. exists d'. exact E'.
Defined.

Lemma exfat_append_replaces_witness :
  exists d ino' f', exfat_write xdemo_stk xdemo_fs xdemo_ino_a 512 [1; 2; 3] = Ret (Some 3, ino', mk_exfs d f') /\
    first_cluster (i_private ino') = 6 /\ exists d', exfat_read xdemo_stk (mk_exfs d f') ino' 0 3 = Ret (Some [1; 2; 3], mk_exfs d' f').
Proof.
  destruct (exfat_append_replaces xdemo_stk xdemo_fs xdemo_disk xdemo_ino_a [3] 6 [1; 2; 3] xdemo_vol_ok xdemo_file_a ltac:(vm_compute; reflexivity)
    ltac:(vm_compute; split; [reflexivity | discriminate]) ltac:(vm_compute; reflexivity) ltac:(vm_compute; reflexivity)
    (xdemo_in_volume 6 ltac:(lia)) ltac:(vm_compute; reflexivity) xdemo_entry_a) as (d & ino' & f' & E & E1 & _ & _ & (d' & E2) & _).
  exists d, ino', f'. split; [exact E |]. split; [exact E1 |]. exists d'. exact E2.
Defined.

Lemma exfat_readdir_spec_witness :
  exists d, exfat_readdir xdemo_stk xdemo_fs xdemo_root (3 * Z.of_nat 1) = Ret (Some (set_name xdemo_b, set_type xdemo_b), 3 * Z.of_nat 2, mk_exfs d xdemo_ex).
Proof. exact (exfat_readdir_spec xdemo_stk xdemo_fs xdemo_disk xdemo_root [xdemo_a; xdemo_b] xdemo_rest 1 xdemo_vol_ok xdemo_dir_ok ltac:(cbn; lia)). Defined.

Lemma xdemo_ascii : ascii_ok [99].
Proof. split; [cbn; lia |]. repeat constructor; lia. Qed.

Lemma exfat_create_spec_witness :
  exists d f' ino, exfat_create xdemo_stk xdemo_fs xdemo_root [99] FT_DIR = Ret (Some ino, mk_exfs d f') /\ first_cluster (i_private ino) = 6.
Proof.
  destruct (exfat_create_spec xdemo_stk xdemo_fs xdemo_disk xdemo_root [xdemo_a; xdemo_b] xdemo_rest [99] FT_DIR 6 xdemo_vol_ok xdemo_dir_ok
    (blank_zeros 320) ltac:(vm_compute; discriminate) xdemo_ascii ltac:(vm_compute; reflexivity) ltac:(vm_compute; reflexivity) ltac:(lia)
    (xdemo_in_volume 6 ltac:(lia)) (or_introl eq_refl)) as (d & f' & l' & ino & E & _ & _ & _ & E1 & _).
  exists d, f', ino. split; [exact E | exact E1].
Defined.

Lemma exfat_unlink_hides_witness :
  exists d f', exfat_unlink xdemo_stk xdemo_fs xdemo_root [97] = Ret (true, mk_exfs d f') /\
    exists d', exfat_lookup xdemo_stk (mk_exfs d f') xdemo_root [98] = Ret (None, mk_exfs d' f').
Proof.
  destruct (exfat_unlink_hides xdemo_stk xdemo_fs xdemo_disk xdemo_root [xdemo_a; xdemo_b] xdemo_rest [97] xdemo_a [3] 0 xdemo_vol_ok xdemo_dir_ok
    ltac:(vm_compute; reflexivity) (xdemo_chain_end 3 ltac:(lia)) ltac:(apply NoDup_singleton) ltac:(vm_compute; reflexivity)
    ltac:(vm_compute first_cluster; set_solver)) as (d & f' & l' & E & _ & _ & Hn).
  exists d, f'. split; [exact E |]. exact (Hn [98]).
Defined.

Lemma exfat_rename_spec_witness :
  exists d, exfat_rename xdemo_stk xdemo_fs xdemo_root [97] xdemo_root [99] = Ret (true, mk_exfs d xdemo_ex) /\ set_name (renamed xdemo_a [99]) = [99].
Proof.
  destruct (exfat_rename_spec xdemo_stk xdemo_fs xdemo_disk xdemo_root [xdemo_a; xdemo_b] xdemo_rest [97] [99] xdemo_a 0 xdemo_vol_ok xdemo_dir_ok
    ltac:(vm_compute; reflexivity) xdemo_ascii) as (d & l' & E & _ & _ & E1 & _).
  exists d. split; [exact E | exact E1].
Defined.

(** The same volume with five files: one entry is left. *)
Definition xdemo_full : list (list Z) := [xdemo_a; xdemo_b; new_set 0 [99] 7; new_set 0 [100] 8; new_set 0 [101] 9].

Definition xdemo_full_disk : list Z :=
  vbr_bytes 40 1 0 ++ replicate (24 * 512) 0 ++ concat xdemo_full ++ replicate 32 0 ++ replicate (14 * 512) 67.

Lemma xdemo_full_ok : vol_ok (mk_exfs xdemo_full_disk xdemo_ex) xdemo_full_disk /\ in_volume xdemo_ex xdemo_full_disk 6 /\
  dir_ok xdemo_ex xdemo_full_disk xdemo_root xdemo_full (replicate 32 0).
Proof.
  assert (El : len xdemo_full_disk = 40 * 512) by (vm_compute; reflexivity). unfold len in El.
  assert (Hv : forall c, 2 <= c < 17 -> in_volume xdemo_ex xdemo_full_disk c).
  { intros c Hc. unfold in_volume, cluster_pos, len. rewrite El. cbn [xdemo_ex cluster_heap_start sectors_per_cluster bytes_per_cluster]. lia. }
  split; [split; [| exact xdemo_ex_ok] |].
  - split; [reflexivity |]. cbn [ex_dev]. rewrite El. split; [reflexivity | lia].
  - split; [apply Hv; lia |]. split; [reflexivity | apply xdemo_chain_end; left; reflexivity | exact (Hv 2 ltac:(lia)) | vm_compute; reflexivity | |].
    + unfold xdemo_full. repeat first [apply Forall_nil_2 | apply Forall_cons_2]; split; vm_compute; reflexivity.
    + apply blank_ends, blank_zeros.
Qed.

Lemma exfat_create_overflow_witness : exfat_create xdemo_stk (mk_exfs xdemo_full_disk xdemo_ex) xdemo_root [102] FT_REG_FILE = Crash.
Proof.
  exact (exfat_create_overflow xdemo_stk (mk_exfs xdemo_full_disk xdemo_ex) xdemo_full_disk xdemo_root xdemo_full (replicate 32 0) [102] FT_REG_FILE 6
    (proj1 xdemo_full_ok) (proj2 (proj2 xdemo_full_ok)) ltac:(vm_compute; split; [discriminate | reflexivity]) ltac:(vm_compute; reflexivity)
    ltac:(vm_compute; reflexivity) ltac:(lia) (proj1 (proj2 xdemo_full_ok)) (or_intror eq_refl)).
Defined.

Lemma xdemo_table_fits : Forall (fits 32) xdemo_table.
Proof. unfold xdemo_table, EXFAT_FAT_END. repeat constructor; try lia. Qed.

Lemma exfat_unmount_mount_witness :
  exists d d', exfat_unmount_fs xdemo_fs = Ret d /\ exfat_mount xdemo_stk d = Ret (Some (root_inode xdemo_ex, mk_exfs d' xdemo_ex), d').
Proof.
  destruct (exfat_unmount_mount xdemo_stk xdemo_fs xdemo_disk xdemo_vol_ok xdemo_table_fits ltac:(vm_compute; reflexivity)
    ltac:(vm_compute; reflexivity) ltac:(vm_compute; reflexivity) ltac:(vm_compute; discriminate) ltac:(vm_compute; discriminate)
    ltac:(vm_compute; reflexivity) ltac:(vm_compute; reflexivity)) as (d & d' & E1 & _ & E2).
  exists d, d'. split; [exact E1 | exact E2].
Defined.

Definition xdemo_blank : list Z := replicate (200 * 512) 7.

Lemma xdemo_blank_ok : sd_holds xdemo_blank xdemo_blank /\ large_enough (sd_total xdemo_blank) /\ sd_total xdemo_blank = 200.
Proof.
  assert (E : Z.of_nat (length xdemo_blank) = 200 * 512) by (unfold xdemo_blank; rewrite length_replicate; lia).
  assert (Et : sd_total xdemo_blank = 200) by (cbn [sd_total image_dev]; unfold image_sectors; rewrite E; reflexivity).
  split; [split; [reflexivity |]; rewrite E; split; [reflexivity | lia] |]. split; [| exact Et]. rewrite Et. vm_compute. split; [discriminate | reflexivity].
Qed.

Lemma exfat_format_mount_witness :
  exists d1 d2, exfat_format xdemo_blank = Ret (0, d1) /\
    exfat_mount xdemo_stk d1 = Ret (Some (root_inode (fresh 200), mk_exfs d2 (fresh 200)), d2).
Proof.
  destruct (exfat_format_mount xdemo_stk xdemo_blank xdemo_blank (proj1 xdemo_blank_ok) (proj1 (proj2 xdemo_blank_ok))) as (d1 & d2 & l' & E1 & E2 & _).
  rewrite (proj2 (proj2 xdemo_blank_ok)) in E2. exists d1, d2. split; [exact E1 | exact E2].
Defined.
