(* ===== verification/Partition.v ===== *)
(** Partition tables, src/kernel/partition.c: MBR and GPT structures in sector bytes, their
    scan into the list of partitions, and the operations that change the MBR.  A structure
    that a sector does not fit into is overrun: the access is [Crash]. *)

From S2P Require Import Prelude Bytes LibMem LibString Printf NetBuf DiskDrivers Blockdev.

(** * Structures in bytes *)

Definition PART_TYPE_EMPTY : Z := 0x00.
Definition PART_TYPE_EXTENDED : Z := 0x05.
Definition PART_TYPE_EXTENDED_LBA : Z := 0x0F.
Definition PART_TYPE_EFI : Z := 0xEE.
Definition PART_FLAG_BOOTABLE : Z := 0x80.
Definition SIZEOF_MBR : Z := 512.
Definition SIZEOF_GPT_HEADER : Z := 92.
Definition SIZEOF_PARTITION : Z := 128.

(** [mbr_partition_t] *)
Record mbr_partition := mk_entry {
  status : Z; chs_first : Z; type : Z; chs_last : Z; lba_first : Z; entry_sectors : Z
}.

Definition entry_at (l : list Z) (off : Z) : mbr_partition :=
  mk_entry (field l off 1) (field l (off + 1) 3) (field l (off + 4) 1) (field l (off + 5) 3)
    (field l (off + 8) 4) (field l (off + 12) 4).

(** Entry [i] of the four of an [mbr_t]. *)
Definition mbr_entry (mbr : list Z) (i : Z) : mbr_partition := entry_at mbr (446 + 16 * i).
Definition signature (mbr : list Z) : Z := field mbr 510 2.

Definition is_valid_mbr (mbr : list Z) : bool := signature mbr =? 0xAA55.

(** The assignments to an entry, in the order of the source. *)
Definition set_entry (mbr : list Z) (i : Z) (e : mbr_partition) : list Z :=
  let off := 446 + 16 * i in
  let mbr := set_field mbr off 1 (status e) in
  let mbr := set_field mbr (off + 4) 1 (type e) in
  let mbr := set_field mbr (off + 8) 4 (lba_first e) in
  let mbr := set_field mbr (off + 12) 4 (entry_sectors e) in
  let mbr := set_field mbr (off + 1) 3 (chs_first e) in
  set_field mbr (off + 5) 3 (chs_last e).

(** * GUIDs *)

Definition guid_compare (a b : gpt_guid) : bool :=
  if negb (data1 a =? data1 b) then false
  else if negb (data2 a =? data2 b) then false
  else if negb (data3 a =? data3 b) then false
  else bool_decide (take 8 (data4 a) = take 8 (data4 b)).

Definition guid_at (l : list Z) (off : Z) : gpt_guid :=
  mk_guid (field l off 4) (field l (off + 4) 2) (field l (off + 6) 2) (take 8 (drop (Z.to_nat (off + 8)) l)).

(** * CRC-32 *)

Fixpoint crc_bits (n : nat) (crc : Z) : Z :=
  match n with
  | O => crc
  | S n' => crc_bits n' (Z.lxor (Z.shiftr crc 1) (if Z.land crc 1 =? 0 then 0 else 0xEDB88320))
  end.

Definition crc_byte (crc b : Z) : Z := crc_bits 8 (Z.lxor crc b).

Definition calculate_crc32 (data : list Z) : Z := wnot 32 (fold_left crc_byte data 0xFFFFFFFF).

(** * The UTF-16 label *)

Fixpoint utf16le_from (fuel : nat) (src : list Z) (i max_len : Z) : list Z :=
  match fuel with
  | O => []
  | S fuel' =>
      let c := field src (2 * i) 2 in
      if negb (c =? 0) && (i <? 35) && (i <? max_len - 1)
      then (if c <? 0x80 then c else 63) :: utf16le_from fuel' src (i + 1) max_len
      else []
  end.

(** At most 35 characters. *)
Definition utf16le_to_utf8 (src : list Z) (max_len : Z) : list Z := utf16le_from 36 src 0 max_len.

Section partition.
Context {M : Type} `{DiskHw M} {S : Type} `{BlockAlloc S}.

(** The devices of the scan are disks or partitions of disks. *)
Definition DEPTH : nat := 2.

(** Read one sector into a structure of [size] bytes. *)
Definition read_struct (st : storage M) (disk lba size : Z) : outcome (option (list Z) * storage M) :=
  (do '(r, st) <- blockdev_read DEPTH st disk lba 1;
   match r with
   | None => Ret (None, st)
   | Some bs => if size <? Z.of_nat (length bs) then Crash else Ret (Some bs, st)
   end)%out.

(** Write one sector from a structure: the driver reads a whole sector. *)
Definition write_struct (st : storage M) (disk lba : Z) (bs : list Z) : outcome (bool * storage M) :=
  (do d <- of_option (bdevs st !! disk);
   if Z.of_nat (length bs) <? sector_size d then Crash
   else blockdev_write DEPTH st disk lba 1 (take (Z.to_nat (sector_size d)) bs))%out.

Definition read_mbr (st : storage M) (disk : Z) := read_struct st disk 0 SIZEOF_MBR.
Definition write_mbr (st : storage M) (disk : Z) (mbr : list Z) := write_struct st disk 0 mbr.

(** ** GPT *)

(** "EFI PART" *)
Definition GPT_SIGNATURE : list Z := [69; 70; 73; 32; 80; 65; 82; 84].
Definition GPT_REVISION_1_0 : Z := 0x00010000.
Definition GPT_HEADER_SIZE : Z := 92.

Definition header_size (h : list Z) : Z := field h 12 4.
Definition header_crc32 (h : list Z) : Z := field h 16 4.
Definition partition_entry_lba (h : list Z) : Z := field h 72 8.
Definition partition_entry_count (h : list Z) : Z := field h 80 4.
Definition partition_entry_size (h : list Z) : Z := field h 84 4.
Definition partition_entry_array_crc32 (h : list Z) : Z := field h 88 4.

(** The tests of [read_gpt_header]; the checksum runs over the header with its checksum
    in it, for as many bytes as the header says. *)
Definition check_gpt_header (h : list Z) : outcome bool :=
  if negb (bool_decide (take 8 h = GPT_SIGNATURE)) then Ret false
  else if negb (field h 8 4 =? GPT_REVISION_1_0) then Ret false
  else if Z.of_nat (length h) <? header_size h then Crash
  else Ret (calculate_crc32 (take (Z.to_nat (header_size h)) h) =? header_crc32 h).

Definition read_gpt_header (st : storage M) (disk lba : Z) : outcome (option (list Z) * storage M) :=
  (do '(r, st) <- read_struct st disk lba SIZEOF_GPT_HEADER;
   match r with
   | None => Ret (None, st)
   | Some h => do ok <- check_gpt_header h; Ret (if ok then Some h else None, st)
   end)%out.

(** The checksum that [write_gpt_header] stores is taken over the header with 0 in its
    place. *)
Definition seal_gpt_header (h : list Z) : list Z :=
  let h := set_field h 16 4 0 in
  set_field h 16 4 (calculate_crc32 (take (Z.to_nat (header_size h)) h)).

Definition write_gpt_header (st : storage M) (disk lba : Z) (h : list Z) : outcome (bool * storage M) :=
  write_struct st disk lba (seal_gpt_header h).

(** [read_gpt_partition_entries]: the table is read into a block of exactly its size. *)
Definition read_gpt_partition_entries (s : S) (st : storage M) (disk : Z) (h : list Z)
    : outcome (option (Z * list Z) * S * storage M) :=
  (do d <- of_option (bdevs st !! disk);
   let table_size := u32 (partition_entry_count h * partition_entry_size h) in
   let sectors := u32 (u64 (table_size + sector_size d - 1) / sector_size d) in
   do '(p, _, s) <- ba_malloc s table_size;
   if p =? 0 then Ret (None, s, st)
   else
     do '(r, st) <- blockdev_read DEPTH st disk (partition_entry_lba h) sectors;
     match r with
     | None => do s <- ba_free s p; Ret (None, s, st)
     | Some bs =>
         if table_size <? Z.of_nat (length bs) then Crash
         else if negb (calculate_crc32 bs =? partition_entry_array_crc32 h)
         then do s <- ba_free s p; Ret (None, s, st)
         else Ret (Some (p, bs), s, st)
     end)%out.

(** "%s:%d", cut to the 32-byte field. *)
Definition partition_name (disk : blockdev) (index : Z) : list Z :=
  take 31 (bd_name disk ++ [58] ++ number_text 10 index false).

Definition push_partition (st : storage M) (a : Z) (p : partition) : storage M :=
  mk_storage (hw st) (bdevs st) (blockdev_list st) (blockdev_count st)
    (<[a := p]> (parts st)) (a :: part_list st) (u32 (part_count st + 1)).

(** The loop of [scan_gpt] from entry [i]; [n] entries are left. *)
Fixpoint scan_gpt_entries (n : nat) (i : Z) (s : S) (st : storage M) (disk : Z) (d : blockdev) (es : list Z)
    : outcome (S * storage M) :=
  (match n with
   | O => Ret (s, st)
   | Datatypes.S n' =>
       let off := 128 * i in
       if Z.of_nat (length es) <? off + 128 then Crash
       else if (field es (off + 32) 8 =? 0) && (field es (off + 40) 8 =? 0)
       then scan_gpt_entries n' (i + 1) s st disk d es
       else
         let label := utf16le_to_utf8 (drop (Z.to_nat (off + 56)) es) 37 in
         do '(p, _, s) <- ba_malloc s SIZEOF_PARTITION;
         if p =? 0 then Ret (s, st)
         else
           let first := field es (off + 32) 8 in
           let pt := mk_part (partition_name d (i + 1)) disk (i + 1) 0 (guid_at es off) first
                       (u64 (field es (off + 40) 8 - first + 1)) false false true (take 36 label) in
           scan_gpt_entries n' (i + 1) s (push_partition st p pt) disk d es
   end)%out.

Definition scan_gpt (s : S) (st : storage M) (disk : Z) : outcome (Z * S * storage M) :=
  (do '(oh, st) <- read_gpt_header st disk 1;
   match oh with
   | None => Ret (-1, s, st)
   | Some h =>
       do '(oe, s, st) <- read_gpt_partition_entries s st disk h;
       match oe with
       | None => Ret (-1, s, st)
       | Some (p, es) =>
           do d <- of_option (bdevs st !! disk);
           do '(s, st) <- scan_gpt_entries (Z.to_nat (partition_entry_count h)) 0 s st disk d es;
           do s <- ba_free s p;
           Ret (0, s, st)
       end
   end)%out.

(** [disk_is_gpt] *)
Definition disk_is_gpt (st : storage M) (disk : Z) : outcome (bool * storage M) :=
  (if disk =? 0 then Ret (false, st)
   else
     do '(r, st) <- read_mbr st disk;
     match r with
     | None => Ret (false, st)
     | Some mbr =>
         let e := mbr_entry mbr 0 in
         Ret ((type e =? PART_TYPE_EFI) && (lba_first e =? 1), st)
     end)%out.

(** The protective MBR and the header that [disk_create_gpt] writes. *)
Definition protective_mbr : list Z :=
  let mbr := replicate 512 0 in
  let mbr := set_field mbr (446 + 4) 1 PART_TYPE_EFI in
  let mbr := set_field mbr (446 + 8) 4 1 in
  let mbr := set_field mbr (446 + 12) 4 0xFFFFFFFF in
  set_field mbr 510 2 0xAA55.

Definition new_gpt_header (total my_lba alternate_lba : Z) : list Z :=
  let h := replicate 92 0 in
  let h := splice h 0 GPT_SIGNATURE in
  let h := set_field h 8 4 GPT_REVISION_1_0 in
  let h := set_field h 12 4 GPT_HEADER_SIZE in
  let h := set_field h 24 8 my_lba in
  let h := set_field h 32 8 alternate_lba in
  let h := set_field h 40 8 34 in
  let h := set_field h 48 8 (sub64 total 34) in
  let h := set_field h 72 8 2 in
  let h := set_field h 80 4 128 in
  let h := set_field h 84 4 128 in
  let h := set_field h 56 4 0x12345678 in
  let h := set_field h 60 2 0x9ABC in
  set_field h 62 2 0xDEF0.

Definition disk_create_gpt (s : S) (st : storage M) (disk : Z) : outcome (Z * S * storage M) :=
  (if disk =? 0 then Ret (-1, s, st)
   else
     do d <- of_option (bdevs st !! disk);
     do '(ok, st) <- write_mbr st disk protective_mbr;
     if negb ok then Ret (-1, s, st)
     else
       let total := total_sectors d in
       do '(ok, st) <- write_gpt_header st disk 1 (new_gpt_header total 1 (sub64 total 1));
       if negb ok then Ret (-1, s, st)
       else
         do '(ok, st) <- write_gpt_header st disk (sub64 total 1) (new_gpt_header total (sub64 total 1) 1);
         if negb ok then Ret (-1, s, st)
         else
           do '(p, _, s) <- ba_malloc s (u64 (32 * sector_size d));
           if p =? 0 then Ret (-1, s, st)
           else
             do '(ok, st) <- blockdev_write DEPTH st disk 2 32 (replicate (Z.to_nat (32 * sector_size d)) 0);
             do s <- ba_free s p;
             Ret (if ok then 0 else -1, s, st))%out.

(** ** MBR *)

Definition add_partition (s : S) (st : storage M) (disk index ty start count : Z) (boot : bool)
    : outcome (S * storage M) :=
  (if 128 <=? part_count st then Ret (s, st)
   else
     do '(p, _, s) <- ba_malloc s SIZEOF_PARTITION;
     if p =? 0 then Ret (s, st)
     else
       do d <- of_option (bdevs st !! disk);
       Ret (s, push_partition st p
                 (mk_part (partition_name d index) disk index ty (mk_guid 0 0 0 (replicate 8 0)) start count boot
                    (4 <? index) false [])))%out.

(** The walk along the chain of extended boot records; [base] is the first sector of the
    extended partition.  Nothing bounds the walk in the source. *)
Fixpoint scan_ebr (fuel : nat) (s : S) (st : storage M) (disk base current_lba logical_index : Z)
    : outcome (S * storage M) :=
  (match fuel with
   | O => Crash
   | Datatypes.S fuel' =>
       if current_lba =? 0 then Ret (s, st)
       else
         do '(r, st) <- read_struct st disk current_lba 512;
         match r with
         | None => Ret (s, st)
         | Some ebr =>
             let logical := entry_at ebr 446 in
             do '(s, st, logical_index) <-
               (if negb (type logical =? PART_TYPE_EMPTY) then
                  do '(s, st) <- add_partition s st disk logical_index (type logical)
                                   (u32 (current_lba + lba_first logical)) (entry_sectors logical) false;
                  Ret (s, st, logical_index + 1)
                else Ret (s, st, logical_index));
             let nxt := entry_at ebr 462 in
             if lba_first nxt =? 0 then Ret (s, st)
             else scan_ebr fuel' s st disk base (u32 (base + lba_first nxt)) logical_index
         end
   end)%out.

(** The loop of [scan_mbr] from entry [i]; [n] of the four entries are left. *)
Fixpoint scan_mbr_from (fuel n : nat) (i : Z) (s : S) (st : storage M) (disk : Z) (mbr : list Z)
    : outcome (S * storage M) :=
  (match n with
   | O => Ret (s, st)
   | Datatypes.S n' =>
       let e := mbr_entry mbr i in
       if type e =? PART_TYPE_EMPTY then scan_mbr_from fuel n' (i + 1) s st disk mbr
       else
         do '(s, st) <- add_partition s st disk (i + 1) (type e) (lba_first e) (entry_sectors e)
                          (status e =? PART_FLAG_BOOTABLE);
         do '(s, st) <-
           (if (type e =? PART_TYPE_EXTENDED) || (type e =? PART_TYPE_EXTENDED_LBA)
            then scan_ebr fuel s st disk (lba_first e) (lba_first e) 5
            else Ret (s, st));
         scan_mbr_from fuel n' (i + 1) s st disk mbr
   end)%out.

Definition scan_mbr (fuel : nat) (s : S) (st : storage M) (disk : Z) (mbr : list Z) : outcome (S * storage M) :=
  scan_mbr_from fuel 4 0 s st disk mbr.

(** * Operations *)

Definition partition_init (st : storage M) : storage M :=
  mk_storage (hw st) (bdevs st) (blockdev_list st) (blockdev_count st) (parts st) [] 0.

Definition partition_scan_disk (fuel : nat) (s : S) (st : storage M) (disk : Z) : outcome (Z * S * storage M) :=
  (if disk =? 0 then Ret (-1, s, st)
   else
     do d <- of_option (bdevs st !! disk);
     if negb (bool_decide (bd_status d = BLOCKDEV_READY)) then Ret (-1, s, st)
     else
       do '(gpt, st) <- disk_is_gpt st disk;
       if gpt then scan_gpt s st disk
       else
         do '(r, st) <- read_mbr st disk;
         match r with
         | None => Ret (-1, s, st)
         | Some mbr =>
             if negb (is_valid_mbr mbr) then Ret (0, s, st)
             else do '(s, st) <- scan_mbr fuel s st disk mbr; Ret (0, s, st)
         end)%out.

Fixpoint scan_disks (fuel : nat) (s : S) (st : storage M) (disks : list Z) : outcome (S * storage M) :=
  (match disks with
   | [] => Ret (s, st)
   | k :: disks' =>
       do d <- of_option (bdevs st !! k);
       do '(s, st) <-
         (if bool_decide (bd_status d = BLOCKDEV_READY)
          then do '(_, s, st) <- partition_scan_disk fuel s st k; Ret (s, st)
          else Ret (s, st));
       scan_disks fuel s st disks'
   end)%out.

Definition partition_scan_all (fuel : nat) (s : S) (st : storage M) : outcome (S * storage M) :=
  scan_disks fuel s st (blockdev_get_list st 32).

Fixpoint part_by_name (ps : gmap Z partition) (l : list Z) (name : list Z) : Z :=
  match l with
  | [] => 0
  | a :: l' => match ps !! a with
               | Some p => if bool_decide (part_name p = name) then a else part_by_name ps l' name
               | None => 0
               end
  end.

Definition partition_get_by_name (st : storage M) (name : list Z) : Z := part_by_name (parts st) (part_list st) name.

Definition partition_get_by_index (st : storage M) (index : Z) : Z :=
  default 0 (part_list st !! Z.to_nat index).

Definition partition_get_size_mb (p : partition) : Z := u64 (sector_count p * 512) / (1024 * 1024).

(** [partition_create_mbr]; the 64-bit arguments are stored in 32-bit fields. *)
Definition partition_create_mbr (st : storage M) (disk index ty start count : Z) (boot : bool)
    : outcome (Z * storage M) :=
  (if (disk =? 0) || (index <? 1) || (4 <? index) then Ret (-1, st)
   else
     do '(r, st) <- read_mbr st disk;
     match r with
     | None => Ret (-1, st)
     | Some mbr =>
         let mbr := set_entry mbr (index - 1)
                      (mk_entry (if boot then PART_FLAG_BOOTABLE else 0) 0 ty 0 (u32 start) (u32 count)) in
         do '(ok, st) <- write_mbr st disk mbr;
         Ret (if ok then 0 else -1, st)
     end)%out.

(** The entry cleared by [memset]. *)
Definition clear_entry (mbr : list Z) (i : Z) : list Z := splice mbr (446 + 16 * i) (replicate 16 0).

Definition partition_delete_mbr (st : storage M) (disk index : Z) : outcome (Z * storage M) :=
  (if (disk =? 0) || (index <? 1) || (4 <? index) then Ret (-1, st)
   else
     do '(r, st) <- read_mbr st disk;
     match r with
     | None => Ret (-1, st)
     | Some mbr =>
         do '(ok, st) <- write_mbr st disk (clear_entry mbr (index - 1));
         Ret (if ok then 0 else -1, st)
     end)%out.

Definition partition_delete (st : storage M) (disk index : Z) : outcome (Z * storage M) :=
  (if (disk =? 0) || (index <? 1) || (4 <? index) then Ret (-1, st)
   else
     do '(r, st) <- read_mbr st disk;
     match r with
     | None => Ret (-1, st)
     | Some mbr =>
         if negb (signature mbr =? 0xAA55) then Ret (-1, st)
         else
           do '(ok, st) <- write_mbr st disk (clear_entry mbr (index - 1));
           Ret (if ok then 0 else -1, st)
     end)%out.

(** [partition_get_blockdev] *)
Definition partition_get_blockdev (s : S) (st : storage M) (part : Z) : outcome (Z * S * storage M) :=
  (if part =? 0 then Ret (0, s, st)
   else
     do p <- of_option (parts st !! part);
     do '(dev, s, st) <- blockdev_register s st (take 31 (part_name p)) BLOCKDEV_TYPE_NONE;
     if dev =? 0 then Ret (0, s, st)
     else
       do parent <- of_option (bdevs st !! parent_disk p);
       do d <- of_option (bdevs st !! dev);
       Ret (dev, s, with_bdev st dev
                      (mk_bdev (bd_name d) (bd_type d) BLOCKDEV_READY (sector_size parent) (sector_count p)
                         (u64 (sector_size parent * sector_count p)) (PartHandler part) 0 0 0)))%out.
End partition.
