(* ===== verification/PartitionSpec.v ===== *)
(** Properties of the partition tables of Partition.v: what the MBR operations leave on the
    disk, and what happens to GPT headers and to chains of extended boot records. *)

From S2P Require Import Prelude Bytes LibMem LibString Printf NetBuf Ethernet Arp DiskDrivers Blockdev Partition.

(** * The master boot record *)

Definition entry_ok (e : mbr_partition) : Prop :=
  fits 8 (status e) /\ fits 24 (chs_first e) /\ fits 8 (type e) /\ fits 24 (chs_last e) /\
  fits 32 (lba_first e) /\ fits 32 (entry_sectors e).

Lemma length_set_entry (mbr : list Z) (i : Z) (e : mbr_partition) :
  length mbr = 512%nat -> 0 <= i < 4 -> length (set_entry mbr i e) = 512%nat.
Proof. intros Hl Hi. unfold set_entry. cbv zeta. in_sector. Qed.

Lemma set_entry_eq (mbr : list Z) (i : Z) (e : mbr_partition) :
  length mbr = 512%nat -> 0 <= i < 4 -> entry_ok e -> mbr_entry (set_entry mbr i e) i = e.
Proof.
  intros Hl Hi (H1 & H2 & H3 & H4 & H5 & H6). destruct e as [st c1 ty c2 lf sc]. cbn [status chs_first type chs_last lba_first entry_sectors] in *.
  unfold mbr_entry, entry_at, set_entry. cbv zeta. cbn [status chs_first type chs_last lba_first entry_sectors].
  f_equal; fields; done.
Qed.

(** What an assignment to an entry leaves alone. *)
Lemma set_entry_other (mbr : list Z) (i : Z) (e : mbr_partition) (off : Z) (n : nat) :
  length mbr = 512%nat -> 0 <= i < 4 -> 0 <= off -> off + Z.of_nat n <= 446 + 16 * i \/ 446 + 16 * (i + 1) <= off ->
  field (set_entry mbr i e) off n = field mbr off n.
Proof. intros Hl Hi H0 Hd. unfold set_entry. cbv zeta. fields. done. Qed.

Lemma set_entry_ne (mbr : list Z) (i j : Z) (e : mbr_partition) :
  length mbr = 512%nat -> 0 <= i < 4 -> 0 <= j < 4 -> i <> j -> mbr_entry (set_entry mbr i e) j = mbr_entry mbr j.
Proof.
  intros Hl Hi Hj Hne. unfold mbr_entry, entry_at. by rewrite !set_entry_other by lia.
Qed.

Section mbr.
Context {M : Type} `{DiskHw M}.

(** A disk of 512-byte sectors that is not empty, whose driver serves transfers of one
    sector. *)
Definition sector_disk (st : storage M) (dev k : Z) (d : blockdev) : Prop :=
  dev <> 0 /\ bdevs st !! dev = Some d /\ is_disk d k /\ sector_size d = 512 /\ hw_sector_size k = 512 /\
  1 <= total_sectors d < 2 ^ 64 /\ forall lba, 0 <= lba < total_sectors d -> hw_serves k lba 1.

Lemma read_mbr_ok (st : storage M) (dev k : Z) (d : blockdev) (mbr : list Z) :
  sector_disk st dev k d -> hw_read (hw st) k 0 1 = Ret (Some mbr) ->
  read_mbr st dev = Ret (Some mbr, with_bdev st dev (count_read d)) /\ length mbr = 512%nat.
Proof.
  intros (Hd & Hl & Hk & Hs & Hhs & Ht & Hsv) E.
  pose proof (hw_read_length (hw st) k 0 1 mbr (Hsv 0 ltac:(lia)) E) as Hlen. rewrite Hhs in Hlen.
  unfold read_mbr, read_struct, DEPTH.
  rewrite (disk_read_ok st 1 dev k 0 1 d mbr) by (done || (change (u64 (0 + 1)) with 1; lia)). cbn [obind].
  replace (SIZEOF_MBR <? Z.of_nat (length mbr)) with false by (unfold SIZEOF_MBR; lia). split; [done | lia].
Qed.

(** A write of the boot sector changes that sector and no other. *)
Lemma write_mbr_ok (st st' : storage M) (dev k : Z) (d : blockdev) (mbr : list Z) :
  sector_disk st dev k d -> length mbr = 512%nat -> write_mbr st dev mbr = Ret (true, st') ->
  hw_read (hw st') k 0 1 = Ret (Some mbr) /\ sector_disk st' dev k (count_write d) /\
  forall k' a n, hw_serves k' a n -> k' <> k \/ 1 <= a \/ a + n <= 0 -> hw_read (hw st') k' a n = hw_read (hw st) k' a n.
Proof.
  intros (Hd & Hl & Hk & Hs & Hhs & Ht & Hsv) Hlen E. unfold write_mbr, write_struct, DEPTH in E. rewrite Hl in E.
  cbn [of_option obind] in E. rewrite Hs in E. replace (Z.of_nat (length mbr) <? 512) with false in E by lia.
  rewrite take_ge in E by lia. destruct (disk_write_ok _ _ _ _ _ _ _ _ _ Hd Hl Hk E) as (m & Em & _ & ->).
  assert (Hw : Z.of_nat (length mbr) = 1 * hw_sector_size k) by (rewrite Hhs; lia).
  pose proof (Hsv 0 ltac:(lia)) as Hs0.
  split; [cbn; by apply (hw_read_write _ _ _ _ _ _ Hs0 Hw Em) |]. split.
  - split; [done |]. split; [cbn; by rewrite lookup_insert_eq |]. done.
  - intros k' a n Hk' Ha. cbn. apply (hw_read_write_other _ _ _ _ _ _ _ _ _ _ Hs0 Hw Em); [done | lia].
Qed.

(** An operation that reads the boot sector, changes it and writes it back. *)
Lemma update_mbr_ok (st st' : storage M) (dev k : Z) (d : blockdev) (mbr : list Z) (f : list Z -> list Z) :
  sector_disk st dev k d -> hw_read (hw st) k 0 1 = Ret (Some mbr) -> (length mbr = 512%nat -> length (f mbr) = 512%nat) ->
  write_mbr (with_bdev st dev (count_read d)) dev (f mbr) = Ret (true, st') ->
  (exists st'', read_mbr st' dev = Ret (Some (f mbr), st'')) /\
  forall k' a n, hw_serves k' a n -> k' <> k \/ 1 <= a \/ a + n <= 0 -> hw_read (hw st') k' a n = hw_read (hw st) k' a n.
Proof.
  intros Hd Er Hf E. destruct (read_mbr_ok st dev k d mbr Hd Er) as [_ Hlen].
  assert (Hd' : sector_disk (with_bdev st dev (count_read d)) dev k (count_read d)).
  { destruct Hd as (? & ? & ? & ?). split; [done |]. split; [cbn; by rewrite lookup_insert_eq |]. done. }
  destruct (write_mbr_ok _ _ _ _ _ _ Hd' (Hf Hlen) E) as (E1 & Hd1 & Ho). split; [| done].
  eexists. exact (proj1 (read_mbr_ok _ _ _ _ _ Hd1 E1)).
Qed.

(** Creating a primary partition writes its entry: when [partition_create_mbr] reports
    success, the boot sector read back has the new entry at its place, the other three
    entries, the boot code and the signature as before, and no other sector of any disk
    has changed. *)
Theorem partition_create_mbr_spec (st st' : storage M) (dev k index ty start count : Z) (boot : bool)
    (d : blockdev) (mbr : list Z) :
  sector_disk st dev k d -> hw_read (hw st) k 0 1 = Ret (Some mbr) ->
  fits 8 ty -> fits 32 start -> fits 32 count ->
  partition_create_mbr st dev index ty start count boot = Ret (0, st') ->
  1 <= index <= 4 /\
  (exists mbr' st'', read_mbr st' dev = Ret (Some mbr', st'') /\
     mbr_entry mbr' (index - 1) = mk_entry (if boot then 0x80 else 0) 0 ty 0 start count /\
     (forall j, 0 <= j < 4 -> j <> index - 1 -> mbr_entry mbr' j = mbr_entry mbr j) /\
     signature mbr' = signature mbr /\ (forall i, 0 <= i < 446 -> field mbr' i 1 = field mbr i 1)) /\
  forall k' a n, hw_serves k' a n -> k' <> k \/ 1 <= a \/ a + n <= 0 -> hw_read (hw st') k' a n = hw_read (hw st) k' a n.
Proof.
  intros Hd Er Hty Hst Hct E. unfold partition_create_mbr in E.
  destruct ((dev =? 0) || (index <? 1) || (4 <? index)) eqn:Ei; [done |].
  destruct (read_mbr_ok st dev k d mbr Hd Er) as [Erd Hlen]. rewrite Erd in E. cbn [obind] in E.
  rewrite !wrap_small in E by done. cbn [PART_FLAG_BOOTABLE] in E.
  set (e := mk_entry (if boot then PART_FLAG_BOOTABLE else 0) 0 ty 0 start count) in *.
  assert (Heok : entry_ok e) by (unfold e, entry_ok; split_and!; cbn; first [done | by split | by destruct boot; split]).
  apply obind_ret in E as ([[] st1] & Ew & E2); cbn beta iota in E2; [| done].
  injection E2 as ->. split; [lia |].
  destruct (update_mbr_ok st st' dev k d mbr (fun m => set_entry m (index - 1) e) Hd Er) as [(st'' & E1) Ho];
    [intros; apply length_set_entry; (done || lia) | done |].
  split; [| done]. exists (set_entry mbr (index - 1) e), st''. split; [done |]. split; [apply set_entry_eq; (done || lia) |].
  split; [intros j Hj Hne; apply set_entry_ne; (done || lia) |].
  split; [unfold signature |]; [| intros i Hi]; rewrite set_entry_other; (done || lia).
Qed.

(** Deleting a primary partition clears its entry and nothing else; without a valid
    signature nothing is written. *)
Theorem partition_delete_spec (st : storage M) (dev k index : Z) (d : blockdev) (mbr : list Z) :
  sector_disk st dev k d -> hw_read (hw st) k 0 1 = Ret (Some mbr) -> 1 <= index <= 4 ->
  if signature mbr =? 0xAA55 then
    forall st', partition_delete st dev index = Ret (0, st') ->
      (exists mbr' st'', read_mbr st' dev = Ret (Some mbr', st'') /\
         mbr_entry mbr' (index - 1) = mk_entry 0 0 0 0 0 0 /\
         (forall j, 0 <= j < 4 -> j <> index - 1 -> mbr_entry mbr' j = mbr_entry mbr j) /\
         signature mbr' = signature mbr) /\
      forall k' a n, hw_serves k' a n -> k' <> k \/ 1 <= a \/ a + n <= 0 -> hw_read (hw st') k' a n = hw_read (hw st) k' a n
  else exists st', partition_delete st dev index = Ret (-1, st') /\ hw st' = hw st.
Proof.
  intros Hd Er Hi. destruct (read_mbr_ok st dev k d mbr Hd Er) as [Erd Hlen].
  unfold partition_delete. pose proof Hd as (Hd0 & _).
  replace ((dev =? 0) || (index <? 1) || (4 <? index)) with false by lia. rewrite Erd. cbn [obind].
  destruct (signature mbr =? 0xAA55); cbn [negb]; [| by eexists].
  intros st' E. apply obind_ret in E as ([[] st1] & Ew & E2); cbn beta iota in E2; [| done]. injection E2 as ->.
  assert (Hother : forall off n, 0 <= off -> off + Z.of_nat n <= 446 + 16 * (index - 1) \/ 446 + 16 * index <= off ->
    field (clear_entry mbr (index - 1)) off n = field mbr off n).
  { intros off n H0 Hdis. unfold field, clear_entry. by rewrite splice_other by (rewrite ?length_replicate; lia). }
  assert (Hzero : forall off n, 446 + 16 * (index - 1) <= off -> off + Z.of_nat n <= 446 + 16 * index ->
    field (clear_entry mbr (index - 1)) off n = 0).
  { intros off n H1 H2. unfold field, clear_entry, splice. rewrite drop_app_ge by (rewrite length_take; lia).
    rewrite length_take, drop_app_le by (rewrite length_replicate; lia). rewrite drop_replicate.
    rewrite take_app_le by (rewrite length_replicate; lia). rewrite take_replicate.
    generalize (n `min` (16 - (Z.to_nat off - Z.to_nat (446 + 16 * (index - 1)) `min` length mbr)))%nat. intros q.
    induction q as [|q IH]; [done |]. cbn [replicate le_val]. lia. }
  destruct (update_mbr_ok st st' dev k d mbr (fun m => clear_entry m (index - 1)) Hd Er) as [(st'' & E1) Ho];
    [intros _; unfold clear_entry; rewrite length_splice by (rewrite ?length_replicate; lia); done | done |].
  split; [| done]. exists (clear_entry mbr (index - 1)), st''. split; [done |]. split.
  - unfold mbr_entry, entry_at. by rewrite !Hzero by lia.
  - split; [intros j Hj Hne; unfold mbr_entry, entry_at; by rewrite !Hother by lia |].
    unfold signature. by rewrite Hother by lia.
Qed.
End mbr.

(** * CRC-32 *)

Definition crc_step (x : Z) : Z := Z.lxor (Z.shiftr x 1) (if Z.land x 1 =? 0 then 0 else 0xEDB88320).

Lemma land_1 (x : Z) : (Z.land x 1 =? 0) = negb (Z.testbit x 0).
Proof.
  change 1 with (Z.ones 1). rewrite Z.land_ones by lia. change (2 ^ 1) with 2.
  rewrite <- Z.bit0_mod. by destruct (Z.testbit x 0).
Qed.

Lemma crc_step_fits (x : Z) : fits 32 x -> fits 32 (crc_step x).
Proof.
  intros Hx. apply lxor_fits; [lia | by apply shiftr_fits |]. destruct (_ =? _); by split.
Qed.

(** The polynomial has its top bit set, so a step loses nothing: the bit that is shifted
    out is the top bit of the result. *)
Lemma crc_step_inj (x y : Z) : fits 32 x -> fits 32 y -> crc_step x = crc_step y -> x = y.
Proof.
  intros Hx Hy E. assert (Hb : Z.testbit x 0 = Z.testbit y 0).
  { apply (f_equal (fun z => Z.testbit z 31)) in E. unfold crc_step in E. rewrite !Z.lxor_spec, !Z.shiftr_spec in E by lia.
    rewrite !(fits_testbit 32 _ (31 + 1)) in E by (done || lia). rewrite !land_1 in E.
    destruct (Z.testbit x 0), (Z.testbit y 0); done. }
  unfold crc_step in E. rewrite !land_1, Hb in E. set (c := if negb (Z.testbit y 0) then 0 else 0xEDB88320) in E.
  assert (Es : Z.shiftr x 1 = Z.shiftr y 1).
  { apply (f_equal (Z.lxor c)) in E. by rewrite !(Z.lxor_comm c), !Z.lxor_assoc, Z.lxor_nilpotent, !Z.lxor_0_r in E. }
  apply Z.bits_inj'. intros i Hi. destruct (decide (i = 0)) as [-> | Hne]; [done |].
  apply (f_equal (fun z => Z.testbit z (i - 1))) in Es. rewrite !Z.shiftr_spec in Es by lia.
  by replace (i - 1 + 1) with i in Es by lia.
Qed.

Lemma crc_bits_fits (n : nat) (x : Z) : fits 32 x -> fits 32 (crc_bits n x).
Proof. revert x. induction n as [|n IH]; intros x Hx; [done |]. apply IH, (crc_step_fits x Hx). Qed.

Lemma crc_bits_inj (n : nat) (x y : Z) : fits 32 x -> fits 32 y -> crc_bits n x = crc_bits n y -> x = y.
Proof.
  revert x y. induction n as [|n IH]; intros x y Hx Hy E; [done |].
  apply crc_step_inj; [done | done |]. apply IH; [by apply crc_step_fits | by apply crc_step_fits | exact E].
Qed.

Lemma crc_bits_add (n k : nat) (x : Z) : crc_bits (n + k) x = crc_bits k (crc_bits n x).
Proof. revert x. induction n as [|n IH]; intros x; [done |]. apply IH. Qed.

(** Bits above the ones that are shifted out pass through. *)
Lemma crc_bits_high (n : nat) (x y : Z) :
  crc_bits n (Z.lxor x (Z.shiftl y (Z.of_nat n))) = Z.lxor (crc_bits n x) y.
Proof.
  revert x. induction n as [|n IH]; intros x; [by rewrite Z.shiftl_0_r |].
  change (crc_bits (S n) ?z) with (crc_bits n (crc_step z)). rewrite <- IH. f_equal. unfold crc_step.
  rewrite !land_1, Z.lxor_spec, Z.shiftl_spec_low, xorb_false_r by lia. rewrite Z.shiftr_lxor.
  replace (Z.shiftr (Z.shiftl y (Z.of_nat (S n))) 1) with (Z.shiftl y (Z.of_nat n)).
  - rewrite !Z.lxor_assoc. f_equal. apply Z.lxor_comm.
  - rewrite <- Z.shiftl_opp_r, Z.shiftl_shiftl by lia. f_equal. lia.
Qed.

Lemma byte_split (c : Z) : Z.lxor (u8 c) (Z.shiftl (Z.shiftr c 8) 8) = c.
Proof.
  apply Z.bits_inj'. intros i Hi. rewrite Z.lxor_spec, wrap_testbit by lia. destruct (Z.ltb_spec i 8).
  - rewrite Z.shiftl_spec_low by lia. apply xorb_false_r.
  - rewrite Z.shiftl_spec, Z.shiftr_spec by lia. cbn [andb]. rewrite xorb_false_l. f_equal. lia.
Qed.

Lemma crc_byte_eq (s b : Z) : crc_byte s b = crc_bits 8 (Z.lxor s b).
Proof. reflexivity. Qed.

Lemma fold_left_cons {A B} (f : A -> B -> A) (b : B) (bs : list B) (s : A) :
  fold_left f (b :: bs) s = fold_left f bs (f s b).
Proof. done. Qed.

(** Feeding the bytes of a number is feeding its bits. *)
Lemma crc_le_bytes (n : nat) (s c : Z) : 
  fits (8 * Z.of_nat n) c -> fold_left crc_byte (le_bytes n c) s = crc_bits (8 * n) (Z.lxor s c).
Proof.
  revert s c. induction n as [|n IH]; intros s c Hc.
  { destruct Hc. cbn in *. assert (c = 0) as -> by lia. by rewrite Z.lxor_0_r. }
  cbn [le_bytes]. rewrite fold_left_cons, IH.
  - rewrite crc_byte_eq, <- crc_bits_high, Z.lxor_assoc. change (Z.of_nat 8) with 8. rewrite byte_split.
    replace (8 * S n)%nat with (8 + 8 * n)%nat by lia. by rewrite crc_bits_add.
  - destruct Hc as [H1 H2]. split; [by apply Z.shiftr_nonneg |]. rewrite Z.shiftr_div_pow2 by lia.
    apply Z.div_lt_upper_bound; [lia |]. rewrite <- Z.pow_add_r by lia.
    by replace (8 + 8 * Z.of_nat n) with (8 * Z.of_nat (S n)) by lia.
Qed.

Lemma crc_byte_fits (s b : Z) : fits 8 b -> fits 32 s -> fits 32 (crc_byte s b).
Proof. intros Hb Hs. rewrite crc_byte_eq. apply crc_bits_fits, lxor_fits; [lia | done | by apply (fits_mono 8)]. Qed.

Lemma crc_byte_inj (s t b : Z) : fits 8 b -> fits 32 s -> fits 32 t -> crc_byte s b = crc_byte t b -> s = t.
Proof.
  intros Hb Hs Ht E.
  assert (Hx : forall z, fits 32 z -> fits 32 (Z.lxor z b)).
  { intros z Hz. apply lxor_fits; [lia | done | by apply (fits_mono 8)]. }
  rewrite !crc_byte_eq in E. apply crc_bits_inj in E; [| by apply Hx | by apply Hx].
  apply (f_equal (fun z => Z.lxor z b)) in E. by rewrite !Z.lxor_assoc, Z.lxor_nilpotent, !Z.lxor_0_r in E.
Qed.

Lemma crc_fold_fits (bs : list Z) (s : Z) : Forall (fits 8) bs -> fits 32 s -> fits 32 (fold_left crc_byte bs s).
Proof.
  intros HF. revert s. induction HF as [|b bs Hb _ IH]; intros s Hs; [done |]. rewrite fold_left_cons.
  by apply IH, crc_byte_fits.
Qed.

Lemma crc_fold_inj (bs : list Z) (s t : Z) :
  Forall (fits 8) bs -> fits 32 s -> fits 32 t -> fold_left crc_byte bs s = fold_left crc_byte bs t -> s = t.
Proof.
  intros HF. revert s t. induction HF as [|b bs Hb _ IH]; intros s t Hs Ht E; [done |]. rewrite !fold_left_cons in E.
  apply IH in E; [by apply (crc_byte_inj s t b) | by apply crc_byte_fits | by apply crc_byte_fits].
Qed.

Lemma wnot_inj (x y : Z) : fits 32 x -> fits 32 y -> wnot 32 x = wnot 32 y -> x = y.
Proof.
  intros [H1 H2] [H3 H4] E. unfold wnot, Z.lnot, wrap in E.
  rewrite <- (Z_mod_plus_full (Z.pred (- x)) 1), <- (Z_mod_plus_full (Z.pred (- y)) 1) in E.
  rewrite !Z.mod_small in E; lia.
Qed.

(** * GPT headers *)

(** Two blocks that differ in a 4-byte field only have the same CRC only if the fields
    agree. *)
Lemma crc_field_inj (pre post : list Z) (c c' : Z) :
  Forall (fits 8) pre -> Forall (fits 8) post -> fits 32 c -> fits 32 c' ->
  calculate_crc32 (pre ++ le_bytes 4 c ++ post) = calculate_crc32 (pre ++ le_bytes 4 c' ++ post) -> c = c'.
Proof.
  intros Hpre Hpost Hc Hc' E. unfold calculate_crc32 in E. rewrite !fold_left_app in E.
  assert (Hs : fits 32 (fold_left crc_byte pre 0xFFFFFFFF)) by (apply crc_fold_fits; [done | by split]).
  set (s := fold_left crc_byte pre 0xFFFFFFFF) in *.
  assert (Hm : forall z, fits 32 z -> fits 32 (fold_left crc_byte (le_bytes 4 z) s)).
  { intros z Hz. apply crc_fold_fits; [apply le_bytes_fits | done]. }
  apply wnot_inj, crc_fold_inj in E;
    [| done | by apply Hm | by apply Hm | apply crc_fold_fits; [done | by apply Hm] | apply crc_fold_fits; [done | by apply Hm]].
  rewrite !crc_le_bytes in E by done. apply crc_bits_inj in E; [| apply lxor_fits; done || lia | apply lxor_fits; done || lia].
  apply (f_equal (Z.lxor s)) in E. by rewrite <- !Z.lxor_assoc, Z.lxor_nilpotent, !Z.lxor_0_l in E.
Qed.

(** The header check computes the checksum over the stored checksum instead of 0, as it
    was when the header was sealed: a header that [write_gpt_header] sealed passes the
    check only if its checksum happens to be 0. *)
Theorem gpt_header_rejected (h : list Z) :
  Forall (fits 8) h -> 20 <= header_size h <= Z.of_nat (length h) ->
  check_gpt_header (seal_gpt_header h) = Ret true -> header_crc32 (seal_gpt_header h) = 0.
Proof.
  intros HF Hsz E. unfold seal_gpt_header in *. cbv zeta in *.
  set (h0 := set_field h 16 4 0) in *.
  assert (Hsz0 : header_size h0 = header_size h) by (unfold header_size, h0; by rewrite field_set_ne by lia).
  rewrite Hsz0 in *. set (n := Z.to_nat (header_size h)) in *.
  assert (Hn : Z.of_nat n = header_size h) by (unfold n; lia). set (c := calculate_crc32 (take n h0)) in *.
  assert (Hl0 : length h0 = length h) by (unfold h0; apply length_set_field; lia).
  assert (Hc : fits 32 c) by (unfold c, calculate_crc32, wnot; by apply wrap_fits).
  set (h1 := set_field h0 16 4 c) in *.
  assert (Hcrc : header_crc32 h1 = c) by (unfold header_crc32, h1; apply field_set_eq; (done || lia)).
  unfold check_gpt_header in E. rewrite Hcrc in *.
  assert (Hsz1 : header_size h1 = header_size h) by (rewrite <- Hsz0; unfold header_size, h1; by rewrite field_set_ne by lia).
  rewrite Hsz1 in E. fold n in E. destruct (negb _); [done |]. destruct (negb _); [done |].
  destruct (_ <? _); [done |]. injection E as E. apply Z.eqb_eq in E.
  assert (Hdec : forall z, take n (set_field h 16 4 z) = take 16 h ++ le_bytes 4 z ++ drop 20 (take n h)).
  { intros z. unfold set_field. rewrite splice_sub by (rewrite ?length_le_bytes; lia).
    by rewrite length_le_bytes. }
  assert (Hh1 : h1 = set_field h 16 4 c) by (apply splice_twice; rewrite ?length_le_bytes; lia).
  rewrite Hh1, Hdec in E. unfold c at 2 in E. unfold h0 in E. rewrite Hdec in E.
  apply crc_field_inj in E; [done | by apply Forall_take | by apply Forall_drop, Forall_take | done | by split].
Qed.

(** The header [disk_create_gpt] seals on a disk of 10^6 sectors. *)
Lemma gpt_header_rejected_witness :
  check_gpt_header (seal_gpt_header (new_gpt_header 1000000 1 999999)) = Ret false /\
  (check_gpt_header (seal_gpt_header (new_gpt_header 1000000 1 999999)) = Ret true ->
   header_crc32 (seal_gpt_header (new_gpt_header 1000000 1 999999)) = 0).
Proof.
  split; [vm_compute; reflexivity |].
  apply (gpt_header_rejected (new_gpt_header 1000000 1 999999)).
  - vm_compute. repeat constructor; discriminate.
  - vm_compute. split; discriminate.
Defined.

Section scan.
Context {M : Type} `{DiskHw M} {S : Type} `{BlockAlloc S}.

(** A header is read into a structure of 92 bytes a whole sector at a time: on a disk of
    512-byte sectors reading a GPT header overruns it whenever the read succeeds, and
    writing one reads past its end. *)
Theorem gpt_header_overrun (st : storage M) (dev k lba : Z) (d : blockdev) (bs h : list Z) :
  sector_disk st dev k d -> 0 <= lba < total_sectors d -> hw_read (hw st) k lba 1 = Ret (Some bs) ->
  length h = 92%nat ->
  read_gpt_header st dev lba = Crash /\ write_gpt_header st dev lba h = Crash.
Proof.
  intros (Hd & Hl & Hk & Hs & Hhs & Ht & Hsv) Hb E Hh.
  assert (Hbw : u64 (lba + 1) <= total_sectors d) by (rewrite wrap_small by (split; lia); lia). split.
  - pose proof (hw_read_length (hw st) k lba 1 bs (Hsv lba Hb) E) as Hlen. rewrite Hhs in Hlen.
    unfold read_gpt_header, read_struct, DEPTH. rewrite (disk_read_ok st 1 dev k lba 1 d bs) by (done || lia).
    cbn [obind]. by replace (SIZEOF_GPT_HEADER <? Z.of_nat (length bs)) with true by (unfold SIZEOF_GPT_HEADER; lia).
  - unfold write_gpt_header, write_struct. rewrite Hl. cbn [of_option obind]. rewrite Hs.
    unfold seal_gpt_header. cbv zeta. rewrite !length_set_field; [| lia | lia | lia | rewrite length_set_field; lia].
    by replace (Z.of_nat (length h) <? 512) with true by lia.
Qed.

(** A chain of extended boot records that comes back to itself keeps the scan of a disk
    running for ever: no number of steps is enough. *)
Theorem scan_ebr_cycle (fuel : nat) (s : S) (st : storage M) (dev k base lba idx : Z) (d : blockdev) (ebr : list Z) :
  sector_disk st dev k d -> 0 < lba < total_sectors d -> hw_read (hw st) k lba 1 = Ret (Some ebr) ->
  type (entry_at ebr 446) = PART_TYPE_EMPTY -> lba_first (entry_at ebr 462) <> 0 ->
  u32 (base + lba_first (entry_at ebr 462)) = lba ->
  scan_ebr fuel s st dev base lba idx = Crash.
Proof.
  intros Hd Hb E Hty Hn Hc. revert st d Hd Hb E. induction fuel as [|fuel IH]; intros st d Hd Hb E; [done |].
  pose proof Hd as (Hd0 & Hl & Hk & Hs & Hhs & Ht & Hsv).
  assert (Hbw : u64 (lba + 1) <= total_sectors d) by (rewrite wrap_small by (split; lia); lia).
  pose proof (hw_read_length (hw st) k lba 1 ebr (Hsv lba ltac:(lia)) E) as Hlen. rewrite Hhs in Hlen.
  cbn [scan_ebr]. replace (lba =? 0) with false by lia. unfold read_struct, DEPTH.
  rewrite (disk_read_ok st 1 dev k lba 1 d ebr) by (done || lia). cbn [obind].
  replace (512 <? Z.of_nat (length ebr)) with false by lia. cbn [obind]. rewrite Hty, Z.eqb_refl. cbn [negb obind].
  replace (lba_first (entry_at ebr 462) =? 0) with false by lia. rewrite Hc.
  apply (IH _ (count_read d)); [| done | done].
  split; [done |]. split; [cbn; by rewrite lookup_insert_eq |]. done.
Qed.
End scan.

(** * Instances *)

(** A disk with an empty, valid partition table. *)
Definition blank_disk : Z -> Z := fun a => if a =? ram_at 7 0 + 510 then 0x55 else if a =? ram_at 7 0 + 511 then 0xAA else 0.
Definition blank_storage : storage (Z -> Z) := mk_storage blank_disk {[ 4096 := demo_disk ]} [4096] 1 ∅ [] 0.

Lemma blank_sector_disk : sector_disk blank_storage 4096 7 demo_disk.
Proof.
  unfold sector_disk, is_disk. split_and!; try done; [by left |].
  intros lba Hl. change (in_ram lba 1 = true). change (total_sectors demo_disk) with 1000 in Hl. unfold in_ram. lia.
Qed.

Definition result_of (x : outcome (Z * storage (Z -> Z))) : Z := match x with Ret (r, _) => r | _ => -99 end.

Lemma result_ret (x : outcome (Z * storage (Z -> Z))) (r : Z) : result_of x = r -> r <> -99 -> exists st, x = Ret (r, st).
Proof. destruct x as [[r' st]| |]; cbn; intros <-; [by exists st | done | done]. Qed.

Lemma partition_create_mbr_spec_witness :
  exists st', partition_create_mbr blank_storage 4096 2 12 2048 500 true = Ret (0, st') /\
    exists mbr' st'', read_mbr st' 4096 = Ret (Some mbr', st'') /\ mbr_entry mbr' 1 = mk_entry 0x80 0 12 0 2048 500.
Proof.
  destruct (result_ret (partition_create_mbr blank_storage 4096 2 12 2048 500 true) 0) as (st' & E);
    [vm_compute; reflexivity | done |].
  exists st'. split; [exact E |].
  destruct (partition_create_mbr_spec blank_storage st' 4096 7 2 12 2048 500 true demo_disk
              (ram_read blank_disk (ram_at 7 0) (1 * 512))) as (_ & (mbr' & st'' & E1 & E2 & _) & _).
  - exact blank_sector_disk.
  - reflexivity.
  - by split.
  - by split.
  - by split.
  - exact E.
  - exists mbr', st''. split; [exact E1 | exact E2].
Defined.

Lemma partition_delete_spec_witness :
  exists st', partition_delete blank_storage 4096 2 = Ret (0, st') /\
    exists mbr' st'', read_mbr st' 4096 = Ret (Some mbr', st'') /\ mbr_entry mbr' 1 = mk_entry 0 0 0 0 0 0.
Proof.
  destruct (result_ret (partition_delete blank_storage 4096 2) 0) as (st' & E); [vm_compute; reflexivity | done |].
  exists st'. split; [exact E |].
  pose proof (partition_delete_spec blank_storage 4096 7 2 demo_disk (ram_read blank_disk (ram_at 7 0) (1 * 512))
                blank_sector_disk eq_refl ltac:(lia)) as H.
  replace (signature _ =? 0xAA55) with true in H by (vm_compute; reflexivity).
  destruct (H st' E) as [(mbr' & st'' & E1 & E2 & _) _].
  exists mbr', st''. split; [exact E1 | exact E2].
Defined.

Lemma gpt_header_overrun_witness : read_gpt_header blank_storage 4096 1 = Crash.
Proof.
  apply (gpt_header_overrun blank_storage 4096 7 1 demo_disk (ram_read blank_disk (ram_at 7 1) (1 * 512)) (replicate 92 0));
    [exact blank_sector_disk | done | reflexivity | reflexivity].
Defined.

(** An extended boot record at sector 20 of an extended partition from sector 10, whose link
    leads to itself. *)
Definition looping_disk : Z -> Z := fun a => if a =? ram_at 7 20 + 462 + 8 then 10 else 0.
Definition looping_storage : storage (Z -> Z) := mk_storage looping_disk {[ 4096 := demo_disk ]} [4096] 1 ∅ [] 0.

Lemma scan_ebr_cycle_witness : scan_ebr 1000 0 looping_storage 4096 10 20 5 = Crash.
Proof.
  apply (scan_ebr_cycle 1000 0 looping_storage 4096 7 10 20 5 demo_disk (ram_read looping_disk (ram_at 7 20) (1 * 512))).
  - unfold sector_disk, is_disk. split_and!; try done; [by left |].
    intros lba Hl. change (in_ram lba 1 = true). change (total_sectors demo_disk) with 1000 in Hl. unfold in_ram. lia.
  - change (0 < 20 < 1000). lia.
  - reflexivity.
  - vm_compute. reflexivity.
  - vm_compute. discriminate.
  - vm_compute. reflexivity.
Defined.
