(* ===== verification/Fb.v ===== *)
(** The framebuffer, src/drivers/fb/fbbase.c and src/drivers/fb/fbprim.c: pixels, clipping
    and the drawing primitives.  Video memory and back buffer are the bytes of their
    blocks; an access outside is [Crash].  Coordinates are i32: a sum that leaves the range
    wraps around. *)

From S2P Require Import Prelude Bytes Buffer LibMem NetBuf.

Inductive fb_pixel_format := FB_FORMAT_RGB888 | FB_FORMAT_BGR888 | FB_FORMAT_RGB565 | FB_FORMAT_UNKNOWN.

Record fb_color := mk_color { c_r : Z; c_g : Z; c_b : Z; c_a : Z }.

Definition FB_BLACK : fb_color := mk_color 0 0 0 255.

(** [framebuffer_t], as far as these files use it: [video] is the memory at [virt_addr],
    [back] the one at [back_buffer], [None] for NULL. *)
Record framebuffer := mk_fb {
  fb_addr : Z; video : list Z; back : option (list Z);
  fb_width : Z; fb_height : Z; fb_pitch : Z; fb_bpp : Z; bytes_per_pixel : Z;
  fb_format : fb_pixel_format;
  clip_enabled : bool; clip_x1 : Z; clip_y1 : Z; clip_x2 : Z; clip_y2 : Z;
  fb_initialized : bool
}.

Definition with_target (fb : framebuffer) (v : list Z) (b : option (list Z)) : framebuffer :=
  mk_fb (fb_addr fb) v b (fb_width fb) (fb_height fb) (fb_pitch fb) (fb_bpp fb) (bytes_per_pixel fb) (fb_format fb)
    (clip_enabled fb) (clip_x1 fb) (clip_y1 fb) (clip_x2 fb) (clip_y2 fb) (fb_initialized fb).

Definition with_clip (fb : framebuffer) (e : bool) (x1 y1 x2 y2 : Z) : framebuffer :=
  mk_fb (fb_addr fb) (video fb) (back fb) (fb_width fb) (fb_height fb) (fb_pitch fb) (fb_bpp fb) (bytes_per_pixel fb)
    (fb_format fb) e x1 y1 x2 y2 (fb_initialized fb).

(** The memory that drawing goes to. *)
Definition target (fb : framebuffer) : list Z := default (video fb) (back fb).

Definition with_drawn (fb : framebuffer) (l : list Z) : framebuffer :=
  match back fb with
  | Some _ => with_target fb (video fb) (Some l)
  | None => with_target fb l None
  end.

(** * Pixels *)

Definition fb_rgb (r g b : Z) : fb_color := mk_color r g b 255.

Definition fb_hex (hex : Z) : fb_color :=
  mk_color (Z.land (Z.shiftr hex 16) 0xFF) (Z.land (Z.shiftr hex 8) 0xFF) (Z.land hex 0xFF) 255.

Definition color_to_pixel (fb : framebuffer) (c : fb_color) : Z :=
  match fb_format fb with
  | FB_FORMAT_RGB888 => Z.lor (Z.lor (Z.shiftl (c_r c) 16) (Z.shiftl (c_g c) 8)) (c_b c)
  | FB_FORMAT_BGR888 => Z.lor (Z.lor (Z.shiftl (c_b c) 16) (Z.shiftl (c_g c) 8)) (c_r c)
  | FB_FORMAT_RGB565 =>
      Z.lor (Z.lor (Z.shiftl (Z.shiftr (c_r c) 3) 11) (Z.shiftl (Z.shiftr (c_g c) 2) 5)) (Z.shiftr (c_b c) 3)
  | FB_FORMAT_UNKNOWN => 0
  end.

Definition on_screen (fb : framebuffer) (x y : Z) : bool :=
  negb ((x <? 0) || (i32 (fb_width fb) <=? x) || (y <? 0) || (i32 (fb_height fb) <=? y)).

Definition clip_coord (fb : framebuffer) (x y : Z) : bool :=
  if clip_enabled fb
  then negb ((x <? clip_x1 fb) || (clip_x2 fb <=? x) || (y <? clip_y1 fb) || (clip_y2 fb <=? y))
  else on_screen fb x y.

(** The offset of a pixel: both products are computed in 32 bits. *)
Definition pixel_offset (fb : framebuffer) (x y : Z) : Z := u32 (y * fb_pitch fb) + u32 (x * bytes_per_pixel fb).

Definition pixel_bytes (fb : framebuffer) (pixel : Z) : list Z :=
  if bytes_per_pixel fb =? 4 then le_bytes 4 pixel
  else if bytes_per_pixel fb =? 3 then
    [Z.land pixel 0xFF; Z.land (Z.shiftr pixel 8) 0xFF; Z.land (Z.shiftr pixel 16) 0xFF]
  else if bytes_per_pixel fb =? 2 then le_bytes 2 pixel else [].

Definition put_pixel_raw (fb : framebuffer) (x y pixel : Z) : outcome framebuffer :=
  (if negb (on_screen fb x y) then Ret fb
   else do l <- poke (target fb) (pixel_offset fb x y) (pixel_bytes fb pixel); Ret (with_drawn fb l))%out.

Definition fb_put_pixel (fb : framebuffer) (x y : Z) (color : fb_color) : outcome framebuffer :=
  if negb (clip_coord fb x y) then Ret fb else put_pixel_raw fb x y (color_to_pixel fb color).

(** The bytes of a pixel as a number, in the order of the three cases. *)
Definition fb_get_pixel (fb : framebuffer) (x y : Z) : outcome fb_color :=
  (if negb (clip_coord fb x y) then Ret FB_BLACK
   else
     let o := pixel_offset fb x y in
     do pixel <- (if bytes_per_pixel fb =? 4 then fld (video fb) o 4
                  else if bytes_per_pixel fb =? 3 then fld (video fb) o 3
                  else if bytes_per_pixel fb =? 2 then fld (video fb) o 2 else Ret 0);
     match fb_format fb with
     | FB_FORMAT_RGB888 => Ret (fb_hex pixel)
     | _ => Ret FB_BLACK
     end)%out.

(** * Lines *)

Definition ABS (x : Z) : Z := if x <? 0 then i32 (- x) else x.

Fixpoint line_loop (fuel : nat) (fb : framebuffer) (x1 y1 x2 y2 dx dy sx sy err : Z) (color : fb_color)
    : outcome framebuffer :=
  match fuel with
  | O => Crash
  | S fuel' =>
      (do fb <- fb_put_pixel fb x1 y1 color;
       if (x1 =? x2) && (y1 =? y2) then Ret fb
       else
         let e2 := i32 (2 * err) in
         let '(err, x1) := if i32 (- dy) <? e2 then (i32 (err - dy), i32 (x1 + sx)) else (err, x1) in
         let '(err, y1) := if e2 <? dx then (i32 (err + dx), i32 (y1 + sy)) else (err, y1) in
         line_loop fuel' fb x1 y1 x2 y2 dx dy sx sy err color)%out
  end.

(** A line has as many pixels as its longer side. *)
Definition fb_draw_line (fb : framebuffer) (x1 y1 x2 y2 : Z) (color : fb_color) : outcome framebuffer :=
  let dx := ABS (i32 (x2 - x1)) in
  let dy := ABS (i32 (y2 - y1)) in
  let sx := if x1 <? x2 then 1 else -1 in
  let sy := if y1 <? y2 then 1 else -1 in
  line_loop (S (Z.to_nat (Z.max dx dy))) fb x1 y1 x2 y2 dx dy sx sy (i32 (dx - dy)) color.

Definition fb_draw_line_thick (fb : framebuffer) (x1 y1 x2 y2 thickness : Z) (color : fb_color) : outcome framebuffer :=
  if thickness <=? 1 then fb_draw_line fb x1 y1 x2 y2 color
  else
    let offset := i32 (thickness / 2) in
    if ABS (i32 (y2 - y1)) <? ABS (i32 (x2 - x1)) then
      ofor_from 0 (Z.to_nat thickness)
        (fun i fb => fb_draw_line fb x1 (i32 (y1 - offset + i)) x2 (i32 (y2 - offset + i)) color) fb
    else
      ofor_from 0 (Z.to_nat thickness)
        (fun i fb => fb_draw_line fb (i32 (x1 - offset + i)) y1 (i32 (x2 - offset + i)) y2 color) fb.

(** * Rectangles *)

Definition fb_draw_rect (fb : framebuffer) (x y w h : Z) (color : fb_color) : outcome framebuffer :=
  (let x' := i32 (x + w - 1) in
   let y' := i32 (y + h - 1) in
   do fb <- fb_draw_line fb x y x' y color;
   do fb <- fb_draw_line fb x' y x' y' color;
   do fb <- fb_draw_line fb x' y' x y' color;
   fb_draw_line fb x y' x y color)%out.

Definition fb_fill_rect (fb : framebuffer) (x y w h : Z) (color : fb_color) : outcome framebuffer :=
  ofor_from 0 (Z.to_nat h)
    (fun i fb => fb_draw_line fb x (i32 (y + i)) (i32 (x + w - 1)) (i32 (y + i)) color) fb.

(** The pixels of a list of points, in order. *)
Fixpoint put_all (fb : framebuffer) (ps : list (Z * Z)) (color : fb_color) : outcome framebuffer :=
  match ps with
  | [] => Ret fb
  | (x, y) :: ps' => (do fb <- fb_put_pixel fb (i32 x) (i32 y) color; put_all fb ps' color)%out
  end.

Fixpoint raw_all (fb : framebuffer) (ps : list (Z * Z)) (pixel : Z) : outcome framebuffer :=
  match ps with
  | [] => Ret fb
  | (x, y) :: ps' => (do fb <- put_pixel_raw fb (i32 x) (i32 y) pixel; raw_all fb ps' pixel)%out
  end.

(** The corners of a rounded rectangle. *)
Fixpoint corners (fuel : nat) (fb : framebuffer) (x y w h radius dx dy err : Z) (color : fb_color) : outcome framebuffer :=
  match fuel with
  | O => Crash
  | S fuel' =>
      (if dx <? dy then Ret fb
       else
         let l := x + radius in
         let r := x + w - radius - 1 in
         let t := y + radius in
         let b := y + h - radius - 1 in
         do fb <- put_all fb
           [(l - dx, t - dy); (l - dy, t - dx); (r + dx, t - dy); (r + dy, t - dx);
            (l - dx, b + dy); (l - dy, b + dx); (r + dx, b + dy); (r + dy, b + dx)] color;
         let dy := i32 (dy + 1) in
         let err := i32 (err + (2 * dy + 1)) in
         if i32 (2 * dx) <? err
         then corners fuel' fb x y w h radius (i32 (dx - 1)) dy (i32 (err - (2 * i32 (dx - 1) + 2))) color
         else corners fuel' fb x y w h radius dx dy err color)%out
  end.

Definition corner_radius (w h radius : Z) : Z :=
  let radius := if w / 2 <? radius then w / 2 else radius in
  if h / 2 <? radius then h / 2 else radius.

Definition fb_draw_rounded_rect (fb : framebuffer) (x y w h radius : Z) (color : fb_color) : outcome framebuffer :=
  (if radius =? 0 then fb_draw_rect fb x y w h color
   else
     let radius := corner_radius w h radius in
     do fb <- fb_draw_line fb (i32 (x + radius)) y (i32 (x + w - radius - 1)) y color;
     do fb <- fb_draw_line fb (i32 (x + radius)) (i32 (y + h - 1)) (i32 (x + w - radius - 1)) (i32 (y + h - 1)) color;
     do fb <- fb_draw_line fb x (i32 (y + radius)) x (i32 (y + h - radius - 1)) color;
     do fb <- fb_draw_line fb (i32 (x + w - 1)) (i32 (y + radius)) (i32 (x + w - 1)) (i32 (y + h - radius - 1)) color;
     corners (S (S (Z.to_nat radius))) fb x y w h radius (i32 radius) 0 0 color)%out.

(** The inner loop that shortens a row of a corner, in 32 bits. *)
Fixpoint shorten (fuel : nat) (dx dy radius : Z) : outcome Z :=
  match fuel with
  | O => Crash
  | S fuel' =>
      if u32 (radius * radius) <? u32 (dx * dx + dy * dy) then shorten fuel' (u32 (dx - 1)) dy radius else Ret dx
  end.

(** The two mirrored pixels of a step [ix] along a corner row. *)
Definition corner_row (dx : Z) (p : Z -> list (Z * Z)) : list (Z * Z) :=
  concat ((fun i => p (Z.of_nat i)) <$> seq 0 (Z.to_nat dx)).

Definition fb_fill_rounded_rect (fb : framebuffer) (x y w h radius : Z) (color : fb_color) : outcome framebuffer :=
  (if radius =? 0 then fb_fill_rect fb x y w h color
   else
     let radius := corner_radius w h radius in
     let pixel := color_to_pixel fb color in
     do fb <- fb_fill_rect fb (i32 (x + radius)) y (u32 (w - 2 * radius)) radius color;
     do fb <- fb_fill_rect fb (i32 (x + radius)) (i32 (y + h - radius)) (u32 (w - 2 * radius)) radius color;
     do fb <- fb_fill_rect fb x (i32 (y + radius)) w (u32 (h - 2 * radius)) color;
     ofor_from 0 (Z.to_nat radius) (fun dy fb =>
       do dx <- shorten (S (Z.to_nat radius)) (u32 (radius - 1)) dy radius;
       do fb <- raw_all fb (corner_row dx (fun ix =>
                  [(x + radius - 1 - ix, y + radius - 1 - dy); (x + radius - 1 - dy, y + radius - 1 - ix)])) pixel;
       do fb <- raw_all fb (corner_row dx (fun ix =>
                  [(x + w - radius + ix, y + radius - 1 - dy); (x + w - radius + dy, y + radius - 1 - ix)])) pixel;
       do fb <- raw_all fb (corner_row dx (fun ix =>
                  [(x + radius - 1 - ix, y + h - radius + dy); (x + radius - 1 - dy, y + h - radius + ix)])) pixel;
       raw_all fb (corner_row dx (fun ix =>
                  [(x + w - radius + ix, y + h - radius + dy); (x + w - radius + dy, y + h - radius + ix)])) pixel) fb)%out.

(** * Circles and ellipses *)

Fixpoint circle_loop (fuel : nat) (fb : framebuffer) (cx cy f ddx ddy x y : Z) (color : fb_color) : outcome framebuffer :=
  match fuel with
  | O => Crash
  | S fuel' =>
      (if y <=? x then Ret fb
       else
         let '(y, ddy, f) := if 0 <=? f then (i32 (y - 1), i32 (ddy + 2), i32 (f + i32 (ddy + 2))) else (y, ddy, f) in
         let x := i32 (x + 1) in
         let ddx := i32 (ddx + 2) in
         let f := i32 (f + (ddx + 1)) in
         do fb <- put_all fb
           [(cx + x, cy + y); (cx - x, cy + y); (cx + x, cy - y); (cx - x, cy - y);
            (cx + y, cy + x); (cx - y, cy + x); (cx + y, cy - x); (cx - y, cy - x)] color;
         circle_loop fuel' fb cx cy f ddx ddy x y color)%out
  end.

Definition fb_draw_circle (fb : framebuffer) (cx cy r : Z) (color : fb_color) : outcome framebuffer :=
  (do fb <- put_all fb [(cx, cy + r); (cx, cy - r); (cx + r, cy); (cx - r, cy)] color;
   circle_loop (S (Z.to_nat r)) fb cx cy (i32 (1 - r)) 0 (i32 (-2 * r)) 0 (i32 r) color)%out.

Definition fb_fill_circle (fb : framebuffer) (cx cy r : Z) (color : fb_color) : outcome framebuffer :=
  ofor_from 0 (S (Z.to_nat r)) (fun i fb => fb_draw_circle fb cx cy i color) fb.

Definition four (cx cy x y : Z) : list (Z * Z) := [(cx + x, cy + y); (cx - x, cy + y); (cx + x, cy - y); (cx - x, cy - y)].

Fixpoint region1 (fuel : nat) (fb : framebuffer) (cx cy x y p two_rx2 two_ry2 ry2 : Z) (color : fb_color)
    : outcome (Z * Z * framebuffer) :=
  match fuel with
  | O => Crash
  | S fuel' =>
      (if i32 (two_rx2 * y) <=? i32 (two_ry2 * x) then Ret (x, y, fb)
       else
         do fb <- put_all fb (four cx cy x y) color;
         let x := i32 (x + 1) in
         if p <? 0 then region1 fuel' fb cx cy x y (i32 (p + (two_ry2 * x + ry2))) two_rx2 two_ry2 ry2 color
         else
           let y := i32 (y - 1) in
           region1 fuel' fb cx cy x y (i32 (p + (two_ry2 * x - two_rx2 * y + ry2))) two_rx2 two_ry2 ry2 color)%out
  end.

Fixpoint region2 (fuel : nat) (fb : framebuffer) (cx cy x y p two_rx2 two_ry2 rx2 : Z) (color : fb_color)
    : outcome framebuffer :=
  match fuel with
  | O => Crash
  | S fuel' =>
      (if y <? 0 then Ret fb
       else
         do fb <- put_all fb (four cx cy x y) color;
         let y := i32 (y - 1) in
         if 0 <? p then region2 fuel' fb cx cy x y (i32 (p - (two_rx2 * y + rx2))) two_rx2 two_ry2 rx2 color
         else
           let x := i32 (x + 1) in
           region2 fuel' fb cx cy x y (i32 (p + (two_ry2 * x - two_rx2 * y + rx2))) two_rx2 two_ry2 rx2 color)%out
  end.

(** In the first region x stays below rx * rx, in the second y falls with every step. *)
Definition fb_draw_ellipse (fb : framebuffer) (cx cy rx ry : Z) (color : fb_color) : outcome framebuffer :=
  (if rx =? ry then fb_draw_circle fb cx cy rx color
   else
     let rx2 := i32 (rx * rx) in
     let ry2 := i32 (ry * ry) in
     let two_rx2 := i32 (2 * rx2) in
     let two_ry2 := i32 (2 * ry2) in
     let p := i32 (ry2 - rx2 * ry + Z.quot rx2 4) in
     do '(x, y, fb) <- region1 (Z.to_nat (rx * rx + 2)) fb cx cy 0 (i32 ry) p two_rx2 two_ry2 ry2 color;
     let p := i32 (ry2 * (x + 1) * (x + 1) + rx2 * (y - 1) * (y - 1) - rx2 * ry2) in
     region2 (Z.to_nat (y + 2)) fb cx cy x y p two_rx2 two_ry2 rx2 color)%out.

(** The first width that is outside. *)
Fixpoint widen (fuel : nat) (lw y2 rx ry : Z) : outcome Z :=
  match fuel with
  | O => Crash
  | S fuel' =>
      if u32 (i32 (lw * lw) * ry * ry + y2 * rx * rx) <=? u32 (rx * rx * ry * ry)
      then widen fuel' (i32 (lw + 1)) y2 rx ry else Ret lw
  end.

Definition fb_fill_ellipse (fb : framebuffer) (cx cy rx ry : Z) (color : fb_color) : outcome framebuffer :=
  (if (rx =? 0) || (ry =? 0) then Ret fb
   else if rx =? ry then fb_fill_circle fb cx cy rx color
   else
     let pixel := color_to_pixel fb color in
     ofor_from 0 (Z.to_nat (i32 ry + 1)) (fun y fb =>
       do lw <- widen (Z.to_nat (rx + 2)) 0 (i32 (y * y)) rx ry;
       let lw := i32 (lw - 1) in
       ofor_from (- lw) (Z.to_nat (2 * lw + 1)) (fun x fb =>
         let px := i32 (cx + x) in
         let py1 := i32 (cy - y) in
         let py2 := i32 (cy + y) in
         if (0 <=? px) && (px <? i32 (fb_width fb)) then
           do fb <- (if (0 <=? py1) && (py1 <? i32 (fb_height fb)) then put_pixel_raw fb px py1 pixel else Ret fb);
           if (0 <=? py2) && (py2 <? i32 (fb_height fb)) && negb (y =? 0) then put_pixel_raw fb px py2 pixel else Ret fb
         else Ret fb) fb) fb)%out.

(** * Triangles and polygons *)

Definition fb_draw_triangle (fb : framebuffer) (x1 y1 x2 y2 x3 y3 : Z) (color : fb_color) : outcome framebuffer :=
  (do fb <- fb_draw_line fb x1 y1 x2 y2 color;
   do fb <- fb_draw_line fb x2 y2 x3 y3 color;
   fb_draw_line fb x3 y3 x1 y1 color)%out.

Definition draw_horizontal_line (fb : framebuffer) (y x_start x_end pixel : Z) : outcome framebuffer :=
  let '(x_start, x_end) := if x_end <? x_start then (x_end, x_start) else (x_start, x_end) in
  ofor_from x_start (Z.to_nat (x_end - x_start + 1))
    (fun x fb => if clip_coord fb x y then put_pixel_raw fb x y pixel else Ret fb) fb.

(** [a + (b - a) * (y - y1) / (y2 - y1)] in 32 bits; the divisor is not 0. *)
Definition interp (a b y y1 y2 : Z) : Z := i32 (a + Z.quot (i32 (i32 (b - a) * i32 (y - y1))) (i32 (y2 - y1))).

(** The rows [y1] to [y2] between two edges. *)
Definition fill_rows (fb : framebuffer) (y1 y2 : Z) (left right : Z -> Z) (pixel : Z) : outcome framebuffer :=
  ofor_from y1 (Z.to_nat (y2 - y1 + 1)) (fun y fb => draw_horizontal_line fb y (left y) (right y) pixel) fb.

Definition fb_fill_triangle (fb : framebuffer) (x1 y1 x2 y2 x3 y3 : Z) (color : fb_color) : outcome framebuffer :=
  (let pixel := color_to_pixel fb color in
   let '(x1, y1, x2, y2) := if y2 <? y1 then (x2, y2, x1, y1) else (x1, y1, x2, y2) in
   let '(x1, y1, x3, y3) := if y3 <? y1 then (x3, y3, x1, y1) else (x1, y1, x3, y3) in
   let '(x2, y2, x3, y3) := if y3 <? y2 then (x3, y3, x2, y2) else (x2, y2, x3, y3) in
   if (y1 =? y2) && (y2 =? y3) then Ret fb
   else if y1 =? y2 then
     let '(xl, xr) := if x2 <? x1 then (x2, x1) else (x1, x2) in
     fill_rows fb y1 y3 (fun y => interp xl x3 y y1 y3) (fun y => interp xr x3 y y2 y3) pixel
   else if y2 =? y3 then
     let '(xl, xr) := if x3 <? x2 then (x3, x2) else (x2, x3) in
     fill_rows fb y1 y3 (fun y => interp x1 xl y y1 y2) (fun y => interp x1 xr y y1 y3) pixel
   else
     let x4 := i32 (x1 + i32 (Z.quot (i64 (i32 (x3 - x1) * i32 (y2 - y1))) (i32 (y3 - y1)))) in
     do fb <- fill_rows fb y1 y2 (fun y => interp x1 x2 y y1 y2) (fun y => interp x1 x4 y y1 y2) pixel;
     fill_rows fb y2 y3 (fun y => interp x2 x3 y y2 y3) (fun y => interp x4 x3 y y2 y3) pixel)%out.

(** The corners of a polygon; both arrays have [num_points] elements. *)
Definition corner (ps : list (Z * Z)) (i : nat) : Z * Z := nth i ps (0, 0).

Definition fb_draw_polygon (fb : framebuffer) (ps : list (Z * Z)) (color : fb_color) : outcome framebuffer :=
  (let n := length ps in
   let line i j fb := fb_draw_line fb (corner ps i).1 (corner ps i).2 (corner ps j).1 (corner ps j).2 color in
   if (n <? 3)%nat then Ret fb
   else
     do fb <- ofor_from 0 (n - 1) (fun i fb => line (Z.to_nat i) (Z.to_nat i + 1)%nat fb) fb;
     line (n - 1)%nat 0%nat fb)%out.

(** The crossings of the edges with row [y], stored into an array of 64 elements. *)
Fixpoint crossings (ps : list (Z * Z)) (y : Z) (idx : list nat) (acc : list Z) : outcome (list Z) :=
  match idx with
  | [] => Ret acc
  | i :: idx' =>
      let '(xi, yi) := corner ps i in
      let '(xj, yj) := corner ps ((i + 1) mod length ps)%nat in
      if ((yi <=? y) && (y <? yj)) || ((yj <=? y) && (y <? yi)) then
        if (64 <=? length acc)%nat then Crash
        else crossings ps y idx' (acc ++ [i32 (xi + Z.quot (i32 (i32 (y - yi) * i32 (xj - xi))) (i32 (yj - yi)))])
      else crossings ps y idx' acc
  end.

(** The exchanges of the nested loops. *)
Definition exchange (l : list Z) (i j : Z) : list Z :=
  if get l j <? get l i then set (set l i (get l j)) j (get l i) else l.

Definition sort_crossings (l : list Z) : list Z :=
  let n := length l in
  for_from 0 n (fun i l => for_from (i + 1) (n - Z.to_nat i - 1) (fun j l => exchange l i j) l) l.

(** Between the pairs of crossings. *)
Fixpoint fill_pairs (fb : framebuffer) (y : Z) (l : list Z) (color : fb_color) : outcome framebuffer :=
  match l with
  | a :: b :: l' =>
      (do fb <- ofor_from a (Z.to_nat (b - a + 1)) (fun x fb => fb_put_pixel fb x y color) fb;
       fill_pairs fb y l' color)%out
  | _ => Ret fb
  end.

Definition fb_fill_polygon (fb : framebuffer) (ps : list (Z * Z)) (color : fb_color) : outcome framebuffer :=
  (if (length ps <? 3)%nat then Ret fb
   else
     let min_y := foldl (fun m p => if p.2 <? m then p.2 else m) (corner ps 0).2 (drop 1 ps) in
     let max_y := foldl (fun m p => if m <? p.2 then p.2 else m) (corner ps 0).2 (drop 1 ps) in
     ofor_from min_y (Z.to_nat (max_y - min_y + 1)) (fun y fb =>
       do l <- crossings ps y (seq 0 (length ps)) [];
       fill_pairs fb y (sort_crossings l) color) fb)%out.

(** * Clipping *)

Definition fb_set_clip (fb : framebuffer) (x1 y1 x2 y2 : Z) : framebuffer :=
  with_clip fb true (if x1 <? 0 then 0 else x1) (if y1 <? 0 then 0 else y1)
    (if i32 (fb_width fb) <=? x2 then i32 (fb_width fb) else x2)
    (if i32 (fb_height fb) <=? y2 then i32 (fb_height fb) else y2).

Definition fb_reset_clip (fb : framebuffer) : framebuffer :=
  with_clip fb false 0 0 (i32 (fb_width fb)) (i32 (fb_height fb)).

Definition fb_disable_clip (fb : framebuffer) : framebuffer :=
  with_clip fb false (clip_x1 fb) (clip_y1 fb) (clip_x2 fb) (clip_y2 fb).

(** * The logo: 64 by 64 pixels of three bytes *)

Definition draw_os_logo (fb : framebuffer) (x y : Z) (bitmap : list Z) : outcome framebuffer :=
  ofor_from 0 64 (fun row fb =>
    ofor_from 0 64 (fun col fb =>
      let o := 3 * (64 * row + col) in
      let '(r, g, b) := (get bitmap o, get bitmap (o + 1), get bitmap (o + 2)) in
      if (r =? 0) && (g =? 0) && (b =? 0) then Ret fb
      else fb_put_pixel fb (i32 (x + col)) (i32 (y + row)) (fb_rgb r g b)) fb) fb.

(** * The whole buffer *)

(** [fb_clear] takes the back buffer for an array of 32-bit pixels. *)
Definition fb_clear (fb : framebuffer) (color : fb_color) : outcome framebuffer :=
  (match back fb with
   | Some l =>
       let pixel := color_to_pixel fb color in
       let total_pixels := u32 (fb_width fb * fb_height fb) in
       do l <- ofor_from 0 (Z.to_nat total_pixels) (fun i l => poke l (4 * i) (le_bytes 4 pixel)) l;
       Ret (with_target fb (video fb) (Some l))
   | None => fb_fill_rect fb 0 0 (fb_width fb) (fb_height fb) color
   end)%out.

Definition buffer_size (fb : framebuffer) : Z := u32 (fb_height fb * fb_pitch fb).

Definition fb_swap_buffers (fb : framebuffer) : outcome framebuffer :=
  (match back fb with
   | None => Ret fb
   | Some l =>
       if Z.of_nat (length l) <? buffer_size fb then Crash
       else do v <- poke (video fb) 0 (take (Z.to_nat (buffer_size fb)) l); Ret (with_target fb v (Some l))
   end)%out.

Definition fb_clear_back (fb : framebuffer) : outcome framebuffer :=
  (match back fb with
   | None => Ret fb
   | Some l => do l <- poke l 0 (replicate (Z.to_nat (buffer_size fb)) 0); Ret (with_target fb (video fb) (Some l))
   end)%out.

(** [framebuffer_init]; [v] is what is found at the address, [s] the kernel heap. *)
Definition framebuffer_init {S} `{BlockAlloc S} (s : S) (fb : framebuffer) (v : list Z) (phys_addr width height pitch bpp : Z)
    : outcome (bool * framebuffer * S) :=
  (if (phys_addr =? 0) || (width =? 0) || (height =? 0) then Ret (false, fb, s)
   else
     let size := u32 (height * pitch) in
     do '(p, _, s) <- ba_malloc s size;
     let fmt := if bpp =? 32 then FB_FORMAT_RGB888 else if bpp =? 16 then FB_FORMAT_RGB565 else FB_FORMAT_UNKNOWN in
     let fb := mk_fb phys_addr v (if p =? 0 then None else Some (replicate (Z.to_nat size) 0)) width height pitch bpp
                 ((bpp + 7) / 8) fmt false (clip_x1 fb) (clip_y1 fb) (clip_x2 fb) (clip_y2 fb) true in
     do fb <- fb_clear fb FB_BLACK;
     Ret (true, fb, s))%out.
