(* ===== verification/FbSpec.v ===== *)
(** Properties of the framebuffer (Fb.v): what one pixel changes, lines as the pixels
    nearest to the ideal line, rectangles, and the accesses that leave the buffer. *)

From S2P Require Import Prelude Bytes Buffer LibMem NetBuf Arp Fb.

Lemma i32_small (z : Z) : - 2 ^ 31 <= z < 2 ^ 31 -> i32 z = z.
Proof.
  intros Hz. change (2 ^ 31) with 2147483648 in Hz. unfold swrap, wrap. cbv zeta. change (2 ^ 32) with 4294967296.
  change (2 ^ (32 - 1)) with 2147483648. destruct (Z.ltb_spec (z mod 4294967296) 2147483648); dlia.
Qed.

(** * Lines *)

(** The number of steps along the short side after [i] steps along the long one: the
    nearest to [short * i / long], ties towards zero. *)
Definition nearest (long short i : Z) : Z := (2 * short * i + long - 1) / (2 * long).

Definition line_point (x1 y1 dx dy sx sy i : Z) : Z * Z :=
  if dy <=? dx then (x1 + sx * i, y1 + sy * nearest dx dy i) else (x1 + sx * nearest dy dx i, y1 + sy * i).

Definition line_points (x1 y1 x2 y2 : Z) : list (Z * Z) :=
  let dx := Z.abs (x2 - x1) in
  let dy := Z.abs (y2 - y1) in
  let sx := if x1 <? x2 then 1 else -1 in
  let sy := if y1 <? y2 then 1 else -1 in
  (fun i => line_point x1 y1 dx dy sx sy (Z.of_nat i)) <$> seq 0 (S (Z.to_nat (Z.max dx dy))).

(** The error term of the loop after [i] steps in x and [j] steps in y. *)
Definition line_err (dx dy i j : Z) : Z := dx * (j + 1) - dy * (i + 1).

(** [j] is the nearest row of column [i], for a line that is at most as high as wide. *)
Definition near (long short i j : Z) : Prop := - long <= 2 * (long * j - short * i) < long.

Lemma near_nearest (long short i j : Z) : 0 < long -> near long short i j -> j = nearest long short i.
Proof.
  intros Hl [H1 H2]. unfold nearest. apply Z.div_unique with (2 * short * i + long - 1 - 2 * long * j); [left; lia | lia].
Qed.

(** One step along the long side, with a step along the short side exactly when the error
    asks for it, leads to the nearest row of the next column. *)
Lemma near_step (long short i j : Z) :
  0 <= short <= long -> 0 < long -> near long short i j ->
  (2 * (long * (j + 1) - short * (i + 1)) < long -> near long short (i + 1) (j + 1)) /\
  (long <= 2 * (long * (j + 1) - short * (i + 1)) -> near long short (i + 1) j) /\
  - short < 2 * (long * (j + 1) - short * (i + 1)).
Proof.
  unfold near. intros H1 H2 [H3 H4]. split; [intros; split; lia |]. split; [intros; split; lia |].
  destruct (decide (short = long)) as [-> | Hne]; [| lia]. assert (j = i) as -> by nia. lia.
Qed.

(** One iteration of the loop, without the pixel. *)
Definition line_next (dx dy sx sy : Z) (p : Z * Z * Z) : Z * Z * Z :=
  let '(x, y, err) := p in
  let e2 := i32 (2 * err) in
  let '(err, x) := if i32 (- dy) <? e2 then (i32 (err - dy), i32 (x + sx)) else (err, x) in
  let '(err, y) := if e2 <? dx then (i32 (err + dx), i32 (y + sy)) else (err, y) in (x, y, err).

Lemma line_loop_S (n : nat) (fb : framebuffer) (x y x2 y2 dx dy sx sy err : Z) (color : fb_color) :
  line_loop (S n) fb x y x2 y2 dx dy sx sy err color =
  (do fb <- fb_put_pixel fb x y color;
   if (x =? x2) && (y =? y2) then Ret fb
   else let '(x, y, err) := line_next dx dy sx sy (x, y, err) in line_loop n fb x y x2 y2 dx dy sx sy err color)%out.
Proof.
  cbn [line_loop]. destruct (fb_put_pixel fb x y color) as [fb1| |]; [| done | done]. cbn [obind].
  destruct (_ && _); [done |]. unfold line_next. cbv zeta. by destruct (_ <? _), (_ <? dx).
Qed.

(** A loop that goes through [pos 0], ..., [pos n], the last of which is the end. *)
Lemma line_loop_path (fb : framebuffer) (x2 y2 dx dy sx sy : Z) (color : fb_color) (pos : nat -> Z * Z * Z) (n k m : nat) :
  (forall i, (i < n)%nat -> line_next dx dy sx sy (pos i) = pos (S i) /\ (pos i).1 <> (x2, y2)) ->
  (pos n).1 = (x2, y2) -> (forall i, (i <= n)%nat -> i32 (pos i).1.1 = (pos i).1.1 /\ i32 (pos i).1.2 = (pos i).1.2) ->
  (k + m = n)%nat ->
  line_loop (S m) fb (pos k).1.1 (pos k).1.2 x2 y2 dx dy sx sy (pos k).2 color =
  put_all fb ((fun i => (pos i).1) <$> seq k (S m)) color.
Proof.
  intros Hnext Hend Hsmall. revert fb k. induction m as [|m IH]; intros fb k Hk; rewrite line_loop_S.
  all: destruct (Hsmall k ltac:(lia)) as [S1 S2]; cbn [seq]; rewrite fmap_cons; cbn [put_all].
  all: destruct (pos k) as [[x y] err] eqn:Ep; cbn [fst snd] in *; rewrite S1, S2.
  all: destruct (fb_put_pixel fb x y color) as [fb1| |]; [| done | done]; cbn [obind].
  - replace k with n in Ep by lia. rewrite Ep in Hend. cbn [fst] in Hend. injection Hend as -> ->. by rewrite !Z.eqb_refl.
  - destruct (Hnext k ltac:(lia)) as [E Hne]. rewrite Ep in E, Hne. cbn [fst] in Hne.
    assert (Ht : (x =? x2) && (y =? y2) = false).
    { destruct (Z.eqb_spec x x2) as [-> |], (Z.eqb_spec y y2) as [-> |]; done. }
    rewrite Ht, E. specialize (IH fb1 (S k) ltac:(lia)). by destruct (pos (S k)) as [[x' y'] err'].
Qed.

Lemma nearest_near (long short i : Z) : 0 < long -> near long short i (nearest long short i).
Proof. intros Hl. unfold near, nearest. pose proof (Z.div_mod (2 * short * i + long - 1) (2 * long) ltac:(lia)).
  pose proof (Z.mod_pos_bound (2 * short * i + long - 1) (2 * long) ltac:(lia)). lia. Qed.

Lemma nearest_bounds (long short i : Z) : 0 < long -> 0 <= short -> 0 <= i <= long -> 0 <= nearest long short i <= short.
Proof. intros Hl Hs Hi. destruct (nearest_near long short i Hl). split; nia. Qed.

Lemma nearest_end (long short : Z) : 0 < long -> nearest long short long = short.
Proof. intros Hl. symmetry. apply near_nearest; [done |]. unfold near. lia. Qed.

(** The error while the loop follows the nearest pixels. *)
Lemma near_err (long short i : Z) :
  0 <= short <= long -> 0 < long -> let j := nearest long short i in let e := long * (j + 1) - short * (i + 1) in
  - short < 2 * e < 3 * long /\
  nearest long short (i + 1) = (if 2 * e <? long then j + 1 else j).
Proof.
  intros H1 H2 j e. pose proof (nearest_near long short i H2) as Hn. fold j in Hn.
  destruct (near_step long short i j H1 H2 Hn) as (N1 & N2 & N3). split; [unfold e; split; [done |]; destruct Hn; lia |].
  symmetry. apply near_nearest; [done |]. destruct (Z.ltb_spec (2 * e) long); auto.
Qed.

(** The positions along the longer axis. *)
Definition pos_x (x1 y1 dx dy sx sy i : Z) : Z * Z * Z :=
  let j := nearest dx dy i in (x1 + sx * i, y1 + sy * j, dx * (j + 1) - dy * (i + 1)).

Definition pos_y (x1 y1 dx dy sx sy i : Z) : Z * Z * Z :=
  let j := nearest dy dx i in (x1 + sx * j, y1 + sy * i, dx * (i + 1) - dy * (j + 1)).

Definition small (z : Z) : Prop := - 2 ^ 28 <= z < 2 ^ 28.

Lemma next_x (x1 y1 dx dy sx sy i : Z) :
  small x1 -> small y1 -> 0 <= dy <= dx -> 0 < dx < 2 ^ 29 -> sx = 1 \/ sx = -1 -> sy = 1 \/ sy = -1 -> 0 <= i < dx ->
  line_next dx dy sx sy (pos_x x1 y1 dx dy sx sy i) = pos_x x1 y1 dx dy sx sy (i + 1).
Proof.
  unfold small. change (2 ^ 28) with 268435456. change (2 ^ 29) with 536870912. intros Hx Hy Hd Hdx Hsx Hsy Hi.
  destruct (near_err dx dy i) as [He Hn]; [lia | lia |]. cbv zeta in *. unfold pos_x at 2. rewrite Hn. unfold line_next, pos_x.
  pose proof (nearest_bounds dx dy i ltac:(lia) ltac:(lia) ltac:(lia)).
  pose proof (nearest_bounds dx dy (i + 1) ltac:(lia) ltac:(lia) ltac:(lia)) as Hj. rewrite Hn in Hj.
  set (j := nearest dx dy i) in *. set (e := dx * (j + 1) - dy * (i + 1)) in *. cbv zeta.
  rewrite (i32_small (2 * e)), (i32_small (- dy)) by lia. replace (- dy <? 2 * e) with true by lia.
  rewrite (i32_small (x1 + sx * i + sx)), (i32_small (e - dy)) by (destruct Hsx; subst; lia).
  destruct (2 * e <? dx); [| f_equal; [f_equal |]; unfold e; lia].
  rewrite (i32_small (y1 + sy * j + sy)), (i32_small (e - dy + dx)) by (destruct Hsy; subst; lia).
  f_equal; [f_equal |]; unfold e; lia.
Qed.

Lemma next_y (x1 y1 dx dy sx sy i : Z) :
  small x1 -> small y1 -> 0 <= dx <= dy -> 0 < dy < 2 ^ 29 -> sx = 1 \/ sx = -1 -> sy = 1 \/ sy = -1 -> 0 <= i < dy ->
  line_next dx dy sx sy (pos_y x1 y1 dx dy sx sy i) = pos_y x1 y1 dx dy sx sy (i + 1).
Proof.
  unfold small. change (2 ^ 28) with 268435456. change (2 ^ 29) with 536870912. intros Hx Hy Hd Hdy Hsx Hsy Hi.
  destruct (near_err dy dx i) as [He Hn]; [lia | lia |]. cbv zeta in *. unfold pos_y at 2. rewrite Hn. unfold line_next, pos_y.
  pose proof (nearest_bounds dy dx i ltac:(lia) ltac:(lia) ltac:(lia)).
  pose proof (nearest_bounds dy dx (i + 1) ltac:(lia) ltac:(lia) ltac:(lia)) as Hj. rewrite Hn in Hj.
  set (j := nearest dy dx i) in *. set (e := dx * (i + 1) - dy * (j + 1)).
  replace (dy * (j + 1) - dx * (i + 1)) with (- e) in * by (unfold e; lia). cbv zeta.
  rewrite (i32_small (2 * e)), (i32_small (- dy)) by lia. replace (2 * e <? dx) with true by lia.
  destruct (Z.ltb_spec (2 * - e) dy); [replace (- dy <? 2 * e) with true by lia | replace (- dy <? 2 * e) with false by lia].
  - rewrite (i32_small (x1 + sx * j + sx)), (i32_small (e - dy)) by (destruct Hsx; subst; lia).
    rewrite (i32_small (y1 + sy * i + sy)), (i32_small (e - dy + dx)) by (destruct Hsy; subst; lia).
    f_equal; [f_equal |]; unfold e; lia.
  - rewrite (i32_small (y1 + sy * i + sy)), (i32_small (e + dx)) by (destruct Hsy; subst; lia).
    f_equal; [f_equal |]; unfold e; lia.
Qed.

Lemma ABS_eq (z : Z) : - 2 ^ 29 <= z <= 2 ^ 29 -> ABS (i32 z) = Z.abs z.
Proof.
  intros Hz. change (2 ^ 29) with 536870912 in Hz. rewrite i32_small by lia. unfold ABS.
  destruct (Z.ltb_spec z 0); [rewrite i32_small |]; lia.
Qed.

Lemma fmap_seq_ext {A} (f g : nat -> A) (k n : nat) :
  (forall i, (k <= i < k + n)%nat -> f i = g i) -> f <$> seq k n = g <$> seq k n.
Proof. intros H. apply list_fmap_ext. intros i x [-> Hi]%lookup_seq. apply H. lia. Qed.

(** The loop from its first iteration, in terms of the sides and directions of the line. *)
Section sides.
Context (x1 y1 dx dy sx sy : Z).
Hypothesis (Sx : small x1) (Sy : small y1) (Ex : small (x1 + sx * dx)) (Ey : small (y1 + sy * dy)).
Hypothesis (Hsx : sx = 1 \/ sx = -1) (Hsy : sy = 1 \/ sy = -1) (Hdx : 0 <= dx < 2 ^ 29) (Hdy : 0 <= dy < 2 ^ 29).
Implicit Types (fb : framebuffer) (color : fb_color).

Local Lemma between (a s d j : Z) : small a -> s = 1 \/ s = -1 -> small (a + s * d) -> 0 <= j <= d -> i32 (a + s * j) = a + s * j.
Proof. unfold small. intros Ha [-> | ->] Hb Hjd; apply i32_small; lia. Qed.

Local Lemma nearest_0 (long short : Z) : 0 < long -> nearest long short (Z.of_nat 0) = 0.
Proof. intros Hl. symmetry. apply near_nearest; [done |]. unfold near. lia. Qed.

Lemma loop_along_x fb color : 0 < dx -> dy <= dx ->
  line_loop (S (Z.to_nat dx)) fb x1 y1 (x1 + sx * dx) (y1 + sy * dy) dx dy sx sy (dx - dy) color =
  put_all fb ((fun i => line_point x1 y1 dx dy sx sy (Z.of_nat i)) <$> seq 0 (S (Z.to_nat dx))) color.
Proof.
  intros H0 Hle. set (pos i := pos_x x1 y1 dx dy sx sy (Z.of_nat i)).
  rewrite (fmap_seq_ext _ (fun i => (pos i).1)).
  2: { intros i _. unfold pos, pos_x, line_point. by replace (dy <=? dx) with true by lia. }
  rewrite <- (line_loop_path fb (x1 + sx * dx) (y1 + sy * dy) dx dy sx sy color pos (Z.to_nat dx) 0 (Z.to_nat dx)); [| | | | lia].
  - unfold pos, pos_x. cbn [fst snd]. rewrite nearest_0 by done. rewrite !Z.mul_0_r, !Z.add_0_r. f_equal. lia.
  - intros i Hi. split; [unfold pos; rewrite next_x by (done || lia); f_equal; lia |].
    unfold pos, pos_x. cbn [fst]. intros [= E _]. destruct Hsx; subst sx; lia.
  - unfold pos, pos_x. cbn [fst]. by rewrite Z2Nat.id, nearest_end by lia.
  - intros i Hi. unfold pos, pos_x. cbn [fst snd]. pose proof (nearest_bounds dx dy (Z.of_nat i) ltac:(lia) ltac:(lia) ltac:(lia)).
    split; [apply (between _ _ dx); (done || lia) | apply (between _ _ dy); (done || lia)].
Qed.

Lemma loop_along_y fb color : dx < dy ->
  line_loop (S (Z.to_nat dy)) fb x1 y1 (x1 + sx * dx) (y1 + sy * dy) dx dy sx sy (dx - dy) color =
  put_all fb ((fun i => line_point x1 y1 dx dy sx sy (Z.of_nat i)) <$> seq 0 (S (Z.to_nat dy))) color.
Proof.
  intros Hgt. set (pos i := pos_y x1 y1 dx dy sx sy (Z.of_nat i)).
  rewrite (fmap_seq_ext _ (fun i => (pos i).1)).
  2: { intros i _. unfold pos, pos_y, line_point. by replace (dy <=? dx) with false by lia. }
  rewrite <- (line_loop_path fb (x1 + sx * dx) (y1 + sy * dy) dx dy sx sy color pos (Z.to_nat dy) 0 (Z.to_nat dy)); [| | | | lia].
  - unfold pos, pos_y. cbn [fst snd]. rewrite nearest_0 by lia. rewrite !Z.mul_0_r, !Z.add_0_r. f_equal. lia.
  - intros i Hi. split; [unfold pos; rewrite next_y by (done || lia); f_equal; lia |].
    unfold pos, pos_y. cbn [fst]. intros [= _ E]. destruct Hsy; subst sy; lia.
  - unfold pos, pos_y. cbn [fst]. by rewrite Z2Nat.id, nearest_end by lia.
  - intros i Hi. unfold pos, pos_y. cbn [fst snd]. pose proof (nearest_bounds dy dx (Z.of_nat i) ltac:(lia) ltac:(lia) ltac:(lia)).
    split; [apply (between _ _ dx); (done || lia) | apply (between _ _ dy); (done || lia)].
Qed.
End sides.

Lemma draw_line_points (fb : framebuffer) (x1 y1 x2 y2 : Z) (color : fb_color) :
  small x1 -> small y1 -> small x2 -> small y2 ->
  fb_draw_line fb x1 y1 x2 y2 color = put_all fb (line_points x1 y1 x2 y2) color.
Proof.
  intros Hx1 Hy1 Hx2 Hy2. unfold fb_draw_line, line_points.
  rewrite !ABS_eq by (unfold small in *; lia). cbv zeta. set (dx := Z.abs (x2 - x1)). set (dy := Z.abs (y2 - y1)).
  set (sx := if x1 <? x2 then 1 else -1). set (sy := if y1 <? y2 then 1 else -1).
  assert (Hsx : sx = 1 \/ sx = -1) by (unfold sx; destruct (x1 <? x2); lia).
  assert (Hsy : sy = 1 \/ sy = -1) by (unfold sy; destruct (y1 <? y2); lia).
  assert (Ex : x2 = x1 + sx * dx) by (unfold sx, dx; destruct (Z.ltb_spec x1 x2); lia).
  assert (Ey : y2 = y1 + sy * dy) by (unfold sy, dy; destruct (Z.ltb_spec y1 y2); lia).
  assert (Hdx : 0 <= dx < 2 ^ 29) by (unfold small, dx in *; lia).
  assert (Hdy : 0 <= dy < 2 ^ 29) by (unfold small, dy in *; lia).
  clearbody dx dy sx sy. subst x2 y2. rewrite (i32_small (dx - dy)) by lia.
  destruct (Z.leb_spec dy dx) as [Hle | Hgt]; [destruct (decide (dx = 0)) as [-> | Hne] |].
  - assert (dy = 0) as -> by lia. unfold small in *. cbn. unfold nearest. cbn. rewrite !Z.mul_0_r, !Z.add_0_r in *.
    rewrite !i32_small by lia. by rewrite !Z.eqb_refl.
  - rewrite Z.max_l by lia. apply loop_along_x; (done || lia).
  - rewrite Z.max_r by lia. apply loop_along_y; (done || lia).
Qed.

(** C25: On coordinates below 2^28 Bresenham's loop ends and draws the reference line: one
    pixel for every step of the longer side, each the nearest to the ideal line, from the
    first end to the second. *)
Theorem fb_draw_line_reference (fb : framebuffer) (x1 y1 x2 y2 : Z) (color : fb_color) :
  small x1 -> small y1 -> small x2 -> small y2 ->
  fb_draw_line fb x1 y1 x2 y2 color = put_all fb (line_points x1 y1 x2 y2) color.
Proof. apply draw_line_points. Qed.

(** * What drawing changes *)

(** A screen whose rows fit their pitch and whose buffers have the size of the screen. *)
Record fb_ok (fb : framebuffer) : Prop := {
  ok_width : 0 < fb_width fb < 2 ^ 31;
  ok_height : 0 < fb_height fb < 2 ^ 31;
  ok_bpp : 2 <= bytes_per_pixel fb <= 4;
  ok_pitch : fb_width fb * bytes_per_pixel fb <= fb_pitch fb;
  ok_size : fb_height fb * fb_pitch fb < 2 ^ 32;
  ok_target : Z.of_nat (length (target fb)) = fb_height fb * fb_pitch fb
}.

(** The bytes of a pixel of the screen. *)
Definition pixel_at (fb : framebuffer) (x y : Z) : list Z :=
  take (Z.to_nat (bytes_per_pixel fb)) (drop (Z.to_nat (y * fb_pitch fb + x * bytes_per_pixel fb)) (target fb)).

(** Only the memory that is drawn to changes, there the pixels of [P] are [bs] and all
    other pixels are as before. *)
Record drawn (P : Z -> Z -> bool) (bs : list Z) (fb fb' : framebuffer) : Prop := {
  dr_same : exists l, fb' = with_drawn fb l /\ length l = length (target fb);
  dr_pixel : forall x y, on_screen fb x y = true -> pixel_at fb' x y = if P x y then bs else pixel_at fb x y
}.

Lemma target_drawn (fb : framebuffer) (l : list Z) : target (with_drawn fb l) = l.
Proof. unfold target, with_drawn. by destruct (back fb). Qed.

Lemma with_drawn_target (fb : framebuffer) : with_drawn fb (target fb) = fb.
Proof. destruct fb as [? ? [b|]]; done. Qed.

Lemma with_drawn_twice (fb : framebuffer) (l k : list Z) : with_drawn (with_drawn fb l) k = with_drawn fb k.
Proof. destruct fb as [? ? [b|]]; done. Qed.

(** Nothing else of the state is touched. *)
Lemma drawn_geometry (fb : framebuffer) (l : list Z) :
  let fb' := with_drawn fb l in
  fb_width fb' = fb_width fb /\ fb_height fb' = fb_height fb /\ fb_pitch fb' = fb_pitch fb /\
  bytes_per_pixel fb' = bytes_per_pixel fb /\ clip_coord fb' = clip_coord fb /\ on_screen fb' = on_screen fb /\
  color_to_pixel fb' = color_to_pixel fb /\ pixel_bytes fb' = pixel_bytes fb.
Proof. destruct fb as [? ? [b|]]; done. Qed.

Lemma drawn_ok (P : Z -> Z -> bool) (bs : list Z) (fb fb' : framebuffer) : drawn P bs fb fb' -> fb_ok fb -> fb_ok fb'.
Proof.
  intros [(l & -> & Hl) _] [H1 H2 H3 H4 H5 H6]. destruct (drawn_geometry fb l) as (G1 & G2 & G3 & G4 & _).
  split; rewrite ?target_drawn, ?G1, ?G2, ?G3, ?G4; (done || lia).
Qed.

Lemma drawn_none (bs : list Z) (fb : framebuffer) : drawn (fun _ _ => false) bs fb fb.
Proof. split; [exists (target fb); by rewrite with_drawn_target | done]. Qed.

Lemma drawn_ext (P Q : Z -> Z -> bool) (bs : list Z) (fb fb' : framebuffer) :
  drawn P bs fb fb' -> (forall x y, on_screen fb x y = true -> P x y = Q x y) -> drawn Q bs fb fb'.
Proof. intros [H1 H2] H. split; [done |]. intros x y Hs. rewrite (H2 x y Hs). by rewrite H. Qed.

Lemma drawn_seq (P Q : Z -> Z -> bool) (bs : list Z) (fb fb1 fb2 : framebuffer) :
  drawn P bs fb fb1 -> drawn Q bs fb1 fb2 -> drawn (fun x y => P x y || Q x y) bs fb fb2.
Proof.
  intros [(l & -> & Hl) H1] [(k & -> & Hk) H2]. destruct (drawn_geometry fb l) as (_ & _ & _ & _ & _ & G & _). split.
  - exists k. rewrite with_drawn_twice. split; [done |]. rewrite Hk, target_drawn. done.
  - intros x y Hs. rewrite (H2 x y) by (by rewrite G). rewrite (H1 x y Hs). by destruct (P x y), (Q x y).
Qed.

Lemma on_screen_spec (fb : framebuffer) (x y : Z) :
  fb_ok fb -> on_screen fb x y = true <-> 0 <= x < fb_width fb /\ 0 <= y < fb_height fb.
Proof.
  intros Hok. pose proof (ok_width fb Hok). pose proof (ok_height fb Hok). unfold on_screen. rewrite !i32_small by lia. lia.
Qed.

Lemma length_pixel_bytes (fb : framebuffer) (p : Z) : fb_ok fb -> Z.of_nat (length (pixel_bytes fb p)) = bytes_per_pixel fb.
Proof.
  intros Hok. pose proof (ok_bpp fb Hok). unfold pixel_bytes.
  destruct (Z.eqb_spec (bytes_per_pixel fb) 4) as [-> |]; [done |].
  destruct (Z.eqb_spec (bytes_per_pixel fb) 3) as [-> |]; [done |].
  destruct (Z.eqb_spec (bytes_per_pixel fb) 2) as [-> |]; [done | lia].
Qed.

(** The place of a pixel: inside the buffer, and apart from every other pixel. *)
Lemma pixel_place (fb : framebuffer) (x y : Z) :
  fb_ok fb -> 0 <= x < fb_width fb -> 0 <= y < fb_height fb ->
  let o := y * fb_pitch fb + x * bytes_per_pixel fb in
  pixel_offset fb x y = o /\ 0 <= o /\ o + bytes_per_pixel fb <= Z.of_nat (length (target fb)) /\
  forall x' y', 0 <= x' < fb_width fb -> 0 <= y' < fb_height fb -> (x', y') <> (x, y) ->
    let o' := y' * fb_pitch fb + x' * bytes_per_pixel fb in
    o' + bytes_per_pixel fb <= o \/ o + bytes_per_pixel fb <= o'.
Proof.
  intros [H1 H2 H3 H4 H5 H6] Hx Hy o. set (b := bytes_per_pixel fb) in *. set (p := fb_pitch fb) in *.
  assert (Hrow : forall z, 0 <= z < fb_width fb -> 0 <= z * b /\ z * b + b <= p) by (intros z Hz; nia).
  destruct (Hrow x Hx). assert (0 <= p) by lia. assert (Hcol : 0 <= y * p /\ y * p + p <= fb_height fb * p) by nia.
  unfold pixel_offset. fold b p. rewrite !wrap_small by (split; lia). split; [done |]. split; [unfold o; lia |].
  split; [unfold o; lia |]. intros x' y' Hx' Hy' Hne. destruct (Hrow x' Hx').
  destruct (Z.lt_total y y') as [Hlt | [<- | Hgt]].
  - right. unfold o. assert (y * p + p <= y' * p) by nia. lia.
  - destruct (Z.lt_total x x') as [Hlt | [<- | Hgt]]; [right | done | left]; unfold o; nia.
  - left. unfold o. assert (y' * p + p <= y * p) by nia. lia.
Qed.

Lemma put_raw_drawn (fb : framebuffer) (x y p : Z) :
  fb_ok fb -> exists fb', put_pixel_raw fb x y p = Ret fb' /\
    drawn (fun a b => (a =? x) && (b =? y)) (pixel_bytes fb p) fb fb'.
Proof.
  intros Hok. unfold put_pixel_raw. destruct (on_screen fb x y) eqn:Es; cbn [negb].
  - apply on_screen_spec in Es as [Hx Hy]; [| done].
    destruct (pixel_place fb x y Hok Hx Hy) as (Eo & Ho & Hend & Hsep). rewrite Eo.
    pose proof (length_pixel_bytes fb p Hok) as Hl. unfold poke. replace ((0 <=? _) && _) with true by lia. cbn [obind].
    eexists. split; [reflexivity |]. split; [eexists; split; [reflexivity |]; apply length_splice; lia |].
    intros a b [Ha Hb]%on_screen_spec; [| done]. unfold pixel_at. set (l := splice _ _ _).
    destruct (drawn_geometry fb l) as (_ & _ & -> & -> & _). rewrite target_drawn. unfold l.
    destruct (decide ((a, b) = (x, y))) as [[= -> ->] | Hne].
    + rewrite !Z.eqb_refl. cbn [andb]. rewrite <- Hl, Nat2Z.id. apply splice_read; lia.
    + assert (E : (a =? x) && (b =? y) = false).
      { destruct (Z.eqb_spec a x) as [-> |], (Z.eqb_spec b y) as [-> |]; done. }
      rewrite E. specialize (Hsep a b Ha Hb Hne). cbv zeta in Hsep. pose proof (ok_bpp fb Hok).
      destruct (pixel_place fb a b Hok Ha Hb) as (_ & Ho' & _). apply splice_other; lia.
  - exists fb. split; [done |]. apply drawn_ext with (fun _ _ => false); [apply drawn_none |].
    intros a b Hab. destruct (Z.eqb_spec a x) as [-> |]; [| done]. destruct (Z.eqb_spec b y) as [-> |]; [congruence | done].
Qed.

Lemma put_pixel_drawn (fb : framebuffer) (x y : Z) (color : fb_color) :
  fb_ok fb -> exists fb', fb_put_pixel fb x y color = Ret fb' /\
    drawn (fun a b => (a =? x) && (b =? y) && clip_coord fb a b) (pixel_bytes fb (color_to_pixel fb color)) fb fb'.
Proof.
  intros Hok. unfold fb_put_pixel. destruct (clip_coord fb x y) eqn:Ec; cbn [negb].
  - destruct (put_raw_drawn fb x y (color_to_pixel fb color) Hok) as (fb' & E & Hd). exists fb'. split; [done |].
    apply (drawn_ext _ _ _ _ _ Hd). intros a b _. destruct (Z.eqb_spec a x) as [-> |], (Z.eqb_spec b y) as [-> |]; done || by rewrite Ec.
  - exists fb. split; [done |]. apply drawn_ext with (fun _ _ => false); [apply drawn_none |]. intros a b _.
    destruct (Z.eqb_spec a x) as [-> |], (Z.eqb_spec b y) as [-> |]; done || by rewrite Ec.
Qed.

(** The colour of a drawing and the clipping are those of the start. *)
Lemma drawn_color (P : Z -> Z -> bool) (bs : list Z) (fb fb' : framebuffer) (color : fb_color) :
  drawn P bs fb fb' ->
  pixel_bytes fb' (color_to_pixel fb' color) = pixel_bytes fb (color_to_pixel fb color) /\ clip_coord fb' = clip_coord fb.
Proof.
  intros [(l & -> & _) _]. destruct (drawn_geometry fb l) as (_ & _ & _ & _ & Gc & _ & Gp & Gb). by rewrite Gc, Gp, Gb.
Qed.

Lemma put_all_drawn (fb : framebuffer) (ps : list (Z * Z)) (color : fb_color) :
  fb_ok fb -> Forall (fun p => small p.1 /\ small p.2) ps -> exists fb', put_all fb ps color = Ret fb' /\
    drawn (fun a b => bool_decide ((a, b) ∈ ps) && clip_coord fb a b) (pixel_bytes fb (color_to_pixel fb color)) fb fb'.
Proof.
  intros Hok HF. revert fb Hok. induction HF as [|[x y] ps [Hx Hy] _ IH]; intros fb Hok; cbn [put_all].
  - exists fb. split; [done |]. apply drawn_ext with (fun _ _ => false); [apply drawn_none |]. intros a b _.
    rewrite bool_decide_eq_false_2; [done |]. apply not_elem_of_nil.
  - cbn [fst snd] in *. unfold small in *. rewrite !i32_small by lia.
    destruct (put_pixel_drawn fb x y color Hok) as (fb1 & -> & H1). cbn [obind].
    destruct (IH fb1 (drawn_ok _ _ _ _ H1 Hok)) as (fb2 & E2 & H2). exists fb2. split; [done |].
    destruct (drawn_color _ _ _ _ color H1) as [Ec Ek]. rewrite Ec, Ek in H2.
    apply (drawn_ext _ _ _ _ _ (drawn_seq _ _ _ _ _ _ H1 H2)). intros a b _. rewrite <- andb_orb_distrib_l. f_equal.
    apply eq_bool_prop_intro. rewrite orb_True, andb_True, !bool_decide_spec, elem_of_cons, !Is_true_true, !Z.eqb_eq.
    naive_solver.
Qed.

Lemma line_points_small (x1 y1 x2 y2 : Z) :
  small x1 -> small y1 -> small x2 -> small y2 -> Forall (fun p => small p.1 /\ small p.2) (line_points x1 y1 x2 y2).
Proof.
  intros Hx1 Hy1 Hx2 Hy2. unfold line_points. cbv zeta. apply Forall_fmap, Forall_seq. intros i [_ Hi]. cbn [compose].
  unfold line_point, small in *. set (dx := Z.abs (x2 - x1)) in *. set (dy := Z.abs (y2 - y1)) in *.
  assert (Hb : forall long short, 0 < long -> 0 <= short -> Z.of_nat i <= long -> 0 <= nearest long short (Z.of_nat i) <= short)
    by (intros; apply nearest_bounds; lia).
  destruct (Z.leb_spec dy dx) as [Hle | Hgt]; cbn [fst snd].
  - destruct (decide (dx = 0)) as [E0 | Hne].
    + assert (i = 0%nat) as -> by lia. rewrite E0. unfold nearest. change (2 * 0) with 0. rewrite Z.div_0_r. lia.
    + specialize (Hb dx dy ltac:(lia) ltac:(lia) ltac:(lia)). destruct (Z.ltb_spec x1 x2), (Z.ltb_spec y1 y2); lia.
  - specialize (Hb dy dx ltac:(lia) ltac:(lia) ltac:(lia)). destruct (Z.ltb_spec x1 x2), (Z.ltb_spec y1 y2); lia.
Qed.

(** Drawing a line on a screen that is set up properly never leaves its buffer: it
    returns, the pixels of the reference line that are inside the clipping rectangle get the
    colour, and every other pixel of the screen and all other state is as before. *)
Theorem fb_draw_line_safe (fb : framebuffer) (x1 y1 x2 y2 : Z) (color : fb_color) :
  fb_ok fb -> small x1 -> small y1 -> small x2 -> small y2 ->
  exists fb', fb_draw_line fb x1 y1 x2 y2 color = Ret fb' /\ fb_ok fb' /\
    drawn (fun a b => bool_decide ((a, b) ∈ line_points x1 y1 x2 y2) && clip_coord fb a b)
      (pixel_bytes fb (color_to_pixel fb color)) fb fb'.
Proof.
  intros Hok Hx1 Hy1 Hx2 Hy2. rewrite draw_line_points by done.
  destruct (put_all_drawn fb (line_points x1 y1 x2 y2) color Hok) as (fb' & E & Hd); [by apply line_points_small |].
  exists fb'. split; [done |]. split; [by eapply drawn_ok | done].
Qed.

(** * Rectangles *)

Lemma row_points (x y w a b : Z) :
  1 <= w -> (a, b) ∈ line_points x y (x + w - 1) y <-> x <= a < x + w /\ b = y.
Proof.
  intros Hw. unfold line_points. cbv zeta. rewrite list_elem_of_fmap. replace (Z.abs (y - y)) with 0 by lia.
  replace (Z.abs (x + w - 1 - x)) with (w - 1) by lia. rewrite Z.max_l by lia. unfold line_point. replace (0 <=? w - 1) with true by lia.
  assert (Hn : forall i, nearest (w - 1) 0 i = 0).
  { intros i. unfold nearest. destruct (decide (w = 1)) as [-> | Hne]; [done |]. apply Z.div_small. lia. }
  setoid_rewrite Hn. setoid_rewrite elem_of_seq. destruct (Z.ltb_spec x (x + w - 1)).
  - split; [intros (i & [= -> ->] & Hi); lia | intros [Ha ->]; exists (Z.to_nat (a - x)); split; [f_equal; lia | lia]].
  - assert (w = 1) as -> by lia. split; [intros (i & [= -> ->] & Hi) | intros [Ha ->]; exists 0%nat; split; [f_equal; lia | lia]].
    lia.
Qed.

(** C26: Filling a rectangle of positive width and of a height of 0 or more gives the colour to exactly the pixels of the
    rectangle that are inside the clipping rectangle, and stays inside the buffer. *)
Theorem fb_fill_rect_spec (fb : framebuffer) (x y w h : Z) (color : fb_color) :
  fb_ok fb -> small x -> small y -> 1 <= w -> small (x + w - 1) -> 0 <= h -> small (y + h) ->
  exists fb', fb_fill_rect fb x y w h color = Ret fb' /\ fb_ok fb' /\
    drawn (fun a b => (x <=? a) && (a <? x + w) && (y <=? b) && (b <? y + h) && clip_coord fb a b)
      (pixel_bytes fb (color_to_pixel fb color)) fb fb'.
Proof.
  intros Hok Hx Hy Hw Hxw Hh Hyh. unfold fb_fill_rect.
  pose (P i fb' := drawn (fun a b => (x <=? a) && (a <? x + w) && (y <=? b) && (b <? y + i) && clip_coord fb a b)
                     (pixel_bytes fb (color_to_pixel fb color)) fb fb').
  edestruct (ofor_from_inv P 0 (Z.to_nat h)) as (fb' & E & HP); [| |exists fb'; split; [exact E |]].
  - unfold P. apply drawn_ext with (fun _ _ => false); [apply drawn_none |]. intros a b _.
    destruct (Z.leb_spec y b), (Z.ltb_spec b (y + 0)); try lia; by rewrite ?andb_false_r.
  - intros j fb1 Hj HP. pose proof (drawn_ok _ _ _ _ HP Hok) as Hok1. unfold small in *.
    rewrite (i32_small (y + j)), (i32_small (x + w - 1)) by lia. rewrite draw_line_points by (unfold small; lia).
    destruct (put_all_drawn fb1 (line_points x (y + j) (x + w - 1) (y + j)) color Hok1) as (fb2 & E2 & Hd);
      [apply line_points_small; unfold small; lia |].
    exists fb2. split; [done |]. destruct (drawn_color _ _ _ _ color HP) as [Ec Ek]. rewrite Ec, Ek in Hd.
    apply (drawn_ext _ _ _ _ _ (drawn_seq _ _ _ _ _ _ HP Hd)). intros a b _. rewrite <- andb_orb_distrib_l. f_equal.
    apply eq_bool_prop_intro. rewrite orb_True, !andb_True, bool_decide_spec, row_points, !Is_true_true by done. lia.
  - rewrite Z.add_0_l, Z2Nat.id in HP by done. split; [by eapply drawn_ok | done].
Qed.

Lemma back_points (x y : Z) : line_points x y (x - 1) y = [(x, y); (x - 1, y)].
Proof.
  unfold line_points. cbv zeta. replace (Z.abs (x - 1 - x)) with 1 by lia. replace (Z.abs (y - y)) with 0 by lia.
  replace (x <? x - 1) with false by lia. rewrite Z.ltb_irrefl.
  transitivity [(x + -1 * 0, y + -1 * 0); (x + -1 * 1, y + -1 * 0)]; [reflexivity |].
  replace (x + -1 * 0) with x by lia. replace (y + -1 * 0) with y by lia. by replace (x + -1 * 1) with (x - 1) by lia.
Qed.

(** A rectangle of width 0 is not empty: two columns of it are drawn. *)
Theorem fb_fill_rect_width_0 (fb : framebuffer) (x y : Z) (color : fb_color) :
  small x -> small (x - 1) -> small y ->
  fb_fill_rect fb x y 0 1 color = put_all fb [(x, y); (x - 1, y)] color.
Proof.
  intros Hx Hx1 Hy. unfold fb_fill_rect. change (Z.to_nat 1) with 1%nat. cbn [ofor_from].
  replace (x + 0 - 1) with (x - 1) by lia. replace (y + 0) with y by lia.
  rewrite (i32_small (x - 1)), (i32_small y) by (unfold small in *; lia). rewrite draw_line_points, back_points by done.
  by destruct (put_all _ _ _).
Qed.

(** * The back buffer *)

Lemma clear_crash (pixel : Z) (n : nat) (i : Z) (l : list Z) :
  0 <= i -> 4 * i <= Z.of_nat (length l) < 4 * (i + Z.of_nat n) ->
  ofor_from i n (fun i l => poke l (4 * i) (le_bytes 4 pixel)) l = Crash.
Proof.
  revert i l. induction n as [|n IH]; intros i l Hi Hl; [lia |]. cbn [ofor_from]. unfold poke at 1. rewrite length_le_bytes.
  destruct (Z.leb_spec (4 * i + Z.of_nat 4) (Z.of_nat (length l))); [| by rewrite andb_false_r].
  replace (0 <=? 4 * i) with true by lia. cbn [andb obind]. apply IH; [lia |].
  rewrite length_splice by (rewrite ?length_le_bytes; lia). lia.
Qed.

(** With less than 32 bits per pixel and no padding the first clearing of the screen
    writes 32-bit pixels past the end of the back buffer. *)
Theorem framebuffer_init_overflow {S} `{BlockAlloc S} (s s' : S) (fb : framebuffer) (v bs : list Z) (addr w h bpp p : Z) :
  addr <> 0 -> 0 < w -> 0 < h -> 0 < bpp <= 24 -> w * h < 2 ^ 32 -> h * (w * ((bpp + 7) / 8)) < 2 ^ 32 ->
  ba_malloc s (h * (w * ((bpp + 7) / 8))) = Ret (p, bs, s') -> p <> 0 ->
  framebuffer_init s fb v addr w h (w * ((bpp + 7) / 8)) bpp = Crash.
Proof.
  intros Ha Hw Hh Hb Hs Hs' E Hp. unfold framebuffer_init. set (B := (bpp + 7) / 8) in *.
  assert (HB : 1 <= B <= 3) by (unfold B; clear -Hb; dlia).
  assert (Hwh : 0 < w * h) by nia. assert (Hsz : h * (w * B) = B * (w * h)) by lia.
  assert (Hlo : 0 <= B * (w * h) <= 3 * (w * h)) by nia.
  replace ((addr =? 0) || (w =? 0) || (h =? 0)) with false by lia. rewrite (wrap_small 32 (h * (w * B))) by (split; lia).
  rewrite E. cbn [obind]. replace (p =? 0) with false by lia. cbv zeta. unfold fb_clear. cbn [back fb_width fb_height].
  rewrite (wrap_small 32) by (split; lia). rewrite clear_crash; [done | lia |]. rewrite length_replicate. lia.
Qed.

(** * Reading a pixel back *)

Lemma hex_color (fb : framebuffer) (c : fb_color) :
  fb_format fb = FB_FORMAT_RGB888 -> fits 8 (c_r c) -> fits 8 (c_g c) -> fits 8 (c_b c) ->
  fits 32 (color_to_pixel fb c) /\ fb_hex (color_to_pixel fb c) = fb_rgb (c_r c) (c_g c) (c_b c).
Proof.
  intros Hf Hr Hg Hb. unfold color_to_pixel. rewrite Hf.
  assert (E : Z.lor (Z.lor (Z.shiftl (c_r c) 16) (Z.shiftl (c_g c) 8)) (c_b c) = c_r c * 65536 + c_g c * 256 + c_b c).
  { rewrite (Z.lor_comm (Z.shiftl (c_r c) 16)). rewrite (lor_high_low 16).
    2: lia.
    2: { rewrite Z.shiftl_mul_pow2 by lia. destruct Hg. split; change (2 ^ 8) with 256 in *; lia. }
    rewrite Z.lor_comm. replace (c_r c * 2 ^ 16 + Z.shiftl (c_g c) 8) with (Z.shiftl (c_r c * 256 + c_g c) 8)
      by (rewrite !Z.shiftl_mul_pow2 by lia; lia).
    rewrite (lor_high_low 8) by (done || lia). lia. }
  rewrite E. destruct Hr, Hg, Hb. change (2 ^ 8) with 256 in *. split; [split; lia |].
  unfold fb_hex, fb_rgb. change 0xFF with (Z.ones 8). rewrite !Z.land_ones, !Z.shiftr_div_pow2 by lia.
  change (2 ^ 16) with 65536. change (2 ^ 8) with 256. f_equal; dlia.
Qed.

(** On a screen of 32-bit pixels with a back buffer a pixel that was put inside the
    clipping rectangle reads back as its colour once the buffers are swapped; before that
    [fb_get_pixel] still returns the old colour. *)
Theorem fb_pixel_roundtrip (fb : framebuffer) (x y : Z) (c : fb_color) (l : list Z) :
  fb_ok fb -> back fb = Some l -> length (video fb) = length l -> bytes_per_pixel fb = 4 -> fb_format fb = FB_FORMAT_RGB888 ->
  fits 8 (c_r c) -> fits 8 (c_g c) -> fits 8 (c_b c) -> clip_coord fb x y = true -> on_screen fb x y = true ->
  exists fb1 fb2, fb_put_pixel fb x y c = Ret fb1 /\ fb_get_pixel fb1 x y = fb_get_pixel fb x y /\
    fb_swap_buffers fb1 = Ret fb2 /\ fb_get_pixel fb2 x y = Ret (fb_rgb (c_r c) (c_g c) (c_b c)).
Proof.
  intros Hok Eb Hv H4 Hf Hr Hg Hb Hc Hs. destruct (put_pixel_drawn fb x y c Hok) as (fb1 & E & Hd).
  pose proof (drawn_ok _ _ _ _ Hd Hok) as Hok1. destruct Hd as [(k & -> & Hk) Hp]. exists (with_drawn fb k).
  specialize (Hp x y Hs). rewrite !Z.eqb_refl, Hc in Hp. cbn [andb] in Hp.
  destruct (hex_color fb c Hf Hr Hg Hb) as [Hpx Hhex]. apply on_screen_spec in Hs as [Hx Hy]; [| done].
  destruct (pixel_place fb x y Hok Hx Hy) as (Eo & Ho & Hend & _). pose proof (ok_target fb Hok) as Ht.
  assert (Ht' : target fb = l) by (unfold target; by rewrite Eb). rewrite Ht' in *.
  assert (Hsz : Z.of_nat (length k) = fb_height fb * fb_pitch fb) by lia.
  pose proof (ok_size fb Hok). unfold pixel_at in Hp. rewrite target_drawn in Hp.
  destruct fb as [fa fv fbk fw fh fp fbp fbb ff ce cx1 cy1 cx2 cy2 fi]. cbn in *. subst fbk fbb ff.
  unfold with_drawn in *. cbn in *. eexists. split; [exact E |]. split; [done |].
  unfold fb_swap_buffers, buffer_size. cbn. rewrite wrap_small by (split; lia). rewrite Hsz, Z.ltb_irrefl.
  rewrite take_ge by lia. unfold poke. rewrite Hv. replace ((0 <=? 0) && _) with true by lia. cbn [obind].
  split; [reflexivity |]. unfold fb_get_pixel.
  replace (clip_coord _ x y) with true by (symmetry; exact Hc). cbn [negb bytes_per_pixel Z.eqb Pos.eqb fb_format with_target video back].
  replace (pixel_offset _ x y) with (y * fp + x * 4) by (symmetry; exact Eo). rewrite splice_all by lia.
  unfold fld. rewrite Hk. replace ((0 <=? _) && _) with true by lia. cbn [obind]. f_equal.
  unfold field. change (Z.to_nat 4) with 4%nat in Hp. rewrite Hp, <- Hhex. f_equal. exact (le_val_bytes 4 _ Hpx).
Qed.

(** * Examples *)

(** A screen of 16-bit pixels without a back buffer, and one of 32-bit pixels with one. *)
Definition screen16 : framebuffer :=
  mk_fb 4096 (replicate 128 0) None 8 8 16 16 2 FB_FORMAT_RGB565 false 0 0 0 0 true.
Definition screen32 : framebuffer :=
  mk_fb 4096 (replicate 64 0) (Some (replicate 64 0)) 4 4 16 32 4 FB_FORMAT_RGB888 true 1 1 4 4 true.

Lemma screen16_ok : fb_ok screen16.
Proof. by split. Defined.

Lemma screen32_ok : fb_ok screen32.
Proof. by split. Defined.

(** A filled circle has holes: the pixel next to the centre on the diagonal stays as it
    was. *)
Theorem fb_fill_circle_holes :
  exists fb, fb_fill_circle screen16 4 4 3 (fb_rgb 255 255 255) = Ret fb /\
    pixel_at fb 4 4 = [255; 255] /\ pixel_at fb 6 4 = [255; 255] /\ pixel_at fb 5 5 = [0; 0].
Proof. eexists. split; [vm_compute; reflexivity |]. by vm_compute. Qed.

(** 66 corners that go up and down. *)
Definition zigzag : list (Z * Z) := (fun i => (Z.of_nat i, Z.of_nat (i mod 2))) <$> seq 0 66.

(** A polygon with more than 64 crossings of a row overruns the array of crossings. *)
Theorem fb_fill_polygon_overflow (fb : framebuffer) (color : fb_color) : fb_fill_polygon fb zigzag color = Crash.
Proof. reflexivity. Qed.

Lemma fb_draw_line_reference_witness :
  fb_draw_line screen16 0 0 6 3 FB_BLACK = put_all screen16 [(0, 0); (1, 0); (2, 1); (3, 1); (4, 2); (5, 2); (6, 3)] FB_BLACK.
Proof. exact (fb_draw_line_reference screen16 0 0 6 3 FB_BLACK ltac:(by split) ltac:(by split) ltac:(by split) ltac:(by split)). Defined.

Lemma fb_draw_line_safe_witness :
  exists fb, fb_draw_line screen32 (-2) (-3) 9 2 (fb_rgb 1 2 3) = Ret fb /\ pixel_at fb 2 0 = [0; 0; 0; 0].
Proof.
  destruct (fb_draw_line_safe screen32 (-2) (-3) 9 2 (fb_rgb 1 2 3) screen32_ok) as (fb & E & _ & Hd); [by split.. |].
  exists fb. split; [exact E |]. rewrite (dr_pixel _ _ _ _ Hd 2 0 eq_refl). by vm_compute.
Defined.

Lemma fb_fill_rect_spec_witness :
  exists fb, fb_fill_rect screen32 0 0 3 3 (fb_rgb 1 2 3) = Ret fb /\ pixel_at fb 2 1 = [3; 2; 1; 0] /\ pixel_at fb 0 1 = [0; 0; 0; 0].
Proof.
  destruct (fb_fill_rect_spec screen32 0 0 3 3 (fb_rgb 1 2 3) screen32_ok) as (fb & E & _ & Hd); [by split.. | lia | by split | lia | by split |].
  exists fb. split; [exact E |]. rewrite (dr_pixel _ _ _ _ Hd 2 1 eq_refl), (dr_pixel _ _ _ _ Hd 0 1 eq_refl). by vm_compute.
Defined.

Lemma fb_fill_rect_width_0_witness :
  fb_fill_rect screen16 3 2 0 1 FB_BLACK = put_all screen16 [(3, 2); (2, 2)] FB_BLACK.
Proof. exact (fb_fill_rect_width_0 screen16 3 2 FB_BLACK ltac:(by split) ltac:(by split) ltac:(by split)). Defined.

Lemma framebuffer_init_overflow_witness : framebuffer_init 65536 screen16 (replicate 128 0) 4096 8 8 16 16 = Crash.
Proof.
  exact (framebuffer_init_overflow 65536 (65536 + 128) screen16 (replicate 128 0) (replicate 128 0) 4096 8 8 16 65536
           ltac:(lia) ltac:(lia) ltac:(lia) ltac:(lia) ltac:(lia) ltac:(done) eq_refl ltac:(lia)).
Defined.

Lemma fb_pixel_roundtrip_witness :
  exists fb1 fb2, fb_put_pixel screen32 2 1 (fb_rgb 10 20 30) = Ret fb1 /\ fb_swap_buffers fb1 = Ret fb2 /\
    fb_get_pixel fb2 2 1 = Ret (fb_rgb 10 20 30).
Proof.
  destruct (fb_pixel_roundtrip screen32 2 1 (fb_rgb 10 20 30) (replicate 64 0) screen32_ok) as (fb1 & fb2 & E1 & _ & E2 & E3);
    [done | done | done | done | by split.. | done | done |].
  by exists fb1, fb2.
Defined.
