(* ===== verification/Fbfont.v ===== *)
(** The font of src/include/fbfont (eng.h, num.h, sym.h): for every glyph its twelve rows, a
    bit for each of the eight columns, and the tables of src/drivers/fb/fbtextrender.c that
    find the glyph of a character. *)

From S2P Require Import Prelude.

Definition glyph_A : list Z :=
  [0x18; 0x3C; 0x66; 0x66; 0xC3; 0xC3; 0xFF; 0xC3; 0xC3; 0xC3; 0xC3; 0xC3].
Definition glyph_B : list Z :=
  [0xFC; 0xC6; 0xC3; 0xC3; 0xC6; 0xFC; 0xC6; 0xC3; 0xC3; 0xC3; 0xC6; 0xFC].
Definition glyph_C : list Z :=
  [0x3C; 0x66; 0xC3; 0xC0; 0xC0; 0xC0; 0xC0; 0xC0; 0xC0; 0xC3; 0x66; 0x3C].
Definition glyph_D : list Z :=
  [0xF8; 0xCC; 0xC6; 0xC3; 0xC3; 0xC3; 0xC3; 0xC3; 0xC3; 0xC6; 0xCC; 0xF8].
Definition glyph_E : list Z :=
  [0xFF; 0xC0; 0xC0; 0xC0; 0xC0; 0xFC; 0xC0; 0xC0; 0xC0; 0xC0; 0xC0; 0xFF].
Definition glyph_F : list Z :=
  [0xFF; 0xC0; 0xC0; 0xC0; 0xC0; 0xFC; 0xC0; 0xC0; 0xC0; 0xC0; 0xC0; 0xC0].
Definition glyph_G : list Z :=
  [0x3C; 0x66; 0xC3; 0xC0; 0xC0; 0xC0; 0xCF; 0xC3; 0xC3; 0xC3; 0x67; 0x3D].
Definition glyph_H : list Z :=
  [0xC3; 0xC3; 0xC3; 0xC3; 0xC3; 0xFF; 0xC3; 0xC3; 0xC3; 0xC3; 0xC3; 0xC3].
Definition glyph_I : list Z :=
  [0xFF; 0x18; 0x18; 0x18; 0x18; 0x18; 0x18; 0x18; 0x18; 0x18; 0x18; 0xFF].
Definition glyph_J : list Z :=
  [0x3F; 0x06; 0x06; 0x06; 0x06; 0x06; 0x06; 0x06; 0xC6; 0xC6; 0xC6; 0x7C].
Definition glyph_K : list Z :=
  [0xC3; 0xC6; 0xCC; 0xD8; 0xF0; 0xF0; 0xD8; 0xCC; 0xC6; 0xC6; 0xC3; 0xC3].
Definition glyph_L : list Z :=
  [0xC0; 0xC0; 0xC0; 0xC0; 0xC0; 0xC0; 0xC0; 0xC0; 0xC0; 0xC0; 0xC0; 0xFF].
Definition glyph_M : list Z :=
  [0xC3; 0xE7; 0xFF; 0xDB; 0xC3; 0xC3; 0xC3; 0xC3; 0xC3; 0xC3; 0xC3; 0xC3].
Definition glyph_N : list Z :=
  [0xC3; 0xE3; 0xF3; 0xDB; 0xCF; 0xC7; 0xC3; 0xC3; 0xC3; 0xC3; 0xC3; 0xC3].
Definition glyph_O : list Z :=
  [0x3C; 0x66; 0xC3; 0xC3; 0xC3; 0xC3; 0xC3; 0xC3; 0xC3; 0xC3; 0x66; 0x3C].
Definition glyph_P : list Z :=
  [0xFC; 0xC6; 0xC3; 0xC3; 0xC3; 0xC6; 0xFC; 0xC0; 0xC0; 0xC0; 0xC0; 0xC0].
Definition glyph_Q : list Z :=
  [0x3C; 0x66; 0xC3; 0xC3; 0xC3; 0xC3; 0xC3; 0xC3; 0xDB; 0xCE; 0x66; 0x3B].
Definition glyph_R : list Z :=
  [0xFC; 0xC6; 0xC3; 0xC3; 0xC3; 0xC6; 0xFC; 0xD8; 0xCC; 0xC6; 0xC6; 0xC3].
Definition glyph_S : list Z :=
  [0x3C; 0x66; 0xC3; 0xC0; 0x60; 0x38; 0x0E; 0x03; 0x03; 0xC3; 0x66; 0x3C].
Definition glyph_T : list Z :=
  [0xFF; 0x18; 0x18; 0x18; 0x18; 0x18; 0x18; 0x18; 0x18; 0x18; 0x18; 0x18].
Definition glyph_U : list Z :=
  [0xC3; 0xC3; 0xC3; 0xC3; 0xC3; 0xC3; 0xC3; 0xC3; 0xC3; 0xC3; 0x66; 0x3C].
Definition glyph_V : list Z :=
  [0xC3; 0xC3; 0xC3; 0xC3; 0xC3; 0xC3; 0xC3; 0x66; 0x66; 0x3C; 0x3C; 0x18].
Definition glyph_W : list Z :=
  [0xC3; 0xC3; 0xC3; 0xC3; 0xC3; 0xDB; 0xDB; 0xDB; 0xFF; 0xE7; 0xE7; 0xC3].
Definition glyph_X : list Z :=
  [0xC3; 0xC3; 0xC3; 0x66; 0x66; 0x3C; 0x3C; 0x66; 0x66; 0xC3; 0xC3; 0xC3].
Definition glyph_Y : list Z :=
  [0xC3; 0xC3; 0xC3; 0x66; 0x66; 0x3C; 0x18; 0x18; 0x18; 0x18; 0x18; 0x18].
Definition glyph_Z : list Z :=
  [0xFF; 0x03; 0x06; 0x0C; 0x18; 0x30; 0x60; 0xC0; 0xC0; 0xC0; 0xC0; 0xFF].
Definition glyph_a : list Z :=
  [0x00; 0x00; 0x00; 0x3C; 0x46; 0x06; 0x3E; 0x66; 0xC6; 0xC6; 0xCE; 0x76].
Definition glyph_b : list Z :=
  [0xC0; 0xC0; 0xC0; 0xC0; 0xDC; 0xE6; 0xC3; 0xC3; 0xC3; 0xC3; 0xE6; 0xDC].
Definition glyph_c : list Z :=
  [0x00; 0x00; 0x00; 0x3C; 0x66; 0xC2; 0xC0; 0xC0; 0xC0; 0xC2; 0x66; 0x3C].
Definition glyph_d : list Z :=
  [0x03; 0x03; 0x03; 0x03; 0x3B; 0x67; 0xC3; 0xC3; 0xC3; 0xC3; 0x67; 0x3B].
Definition glyph_e : list Z :=
  [0x00; 0x00; 0x00; 0x3C; 0x66; 0xC3; 0xFF; 0xC0; 0xC0; 0xC3; 0x66; 0x3C].
Definition glyph_f : list Z :=
  [0x1E; 0x33; 0x30; 0x30; 0xFC; 0x30; 0x30; 0x30; 0x30; 0x30; 0x30; 0x30].
Definition glyph_g : list Z :=
  [0x00; 0x00; 0x00; 0x3B; 0x67; 0xC3; 0xC3; 0xC3; 0x67; 0x3B; 0x03; 0x7E].
Definition glyph_h : list Z :=
  [0xC0; 0xC0; 0xC0; 0xC0; 0xDC; 0xE6; 0xC6; 0xC6; 0xC6; 0xC6; 0xC6; 0xC6].
Definition glyph_i : list Z :=
  [0x18; 0x18; 0x00; 0x78; 0x18; 0x18; 0x18; 0x18; 0x18; 0x18; 0x18; 0x7E].
Definition glyph_j : list Z :=
  [0x06; 0x06; 0x00; 0x1E; 0x06; 0x06; 0x06; 0x06; 0x06; 0x06; 0x66; 0x3C].
Definition glyph_k : list Z :=
  [0xC0; 0xC0; 0xC0; 0xC0; 0xCC; 0xD8; 0xF0; 0xF0; 0xD8; 0xCC; 0xC6; 0xC6].
Definition glyph_l : list Z :=
  [0x78; 0x18; 0x18; 0x18; 0x18; 0x18; 0x18; 0x18; 0x18; 0x18; 0x18; 0x7E].
Definition glyph_m : list Z :=
  [0x00; 0x00; 0x00; 0xFE; 0xDB; 0xDB; 0xDB; 0xDB; 0xDB; 0xDB; 0xDB; 0xDB].
Definition glyph_n : list Z :=
  [0x00; 0x00; 0x00; 0xDC; 0xE6; 0xC6; 0xC6; 0xC6; 0xC6; 0xC6; 0xC6; 0xC6].
Definition glyph_o : list Z :=
  [0x00; 0x00; 0x00; 0x3C; 0x66; 0xC3; 0xC3; 0xC3; 0xC3; 0xC3; 0x66; 0x3C].
Definition glyph_p : list Z :=
  [0x00; 0x00; 0x00; 0xDC; 0xE6; 0xC3; 0xC3; 0xC3; 0xE6; 0xDC; 0xC0; 0xC0].
Definition glyph_q : list Z :=
  [0x00; 0x00; 0x00; 0x3B; 0x67; 0xC3; 0xC3; 0xC3; 0x67; 0x3B; 0x03; 0x03].
Definition glyph_r : list Z :=
  [0x00; 0x00; 0x00; 0xDE; 0xF0; 0xE0; 0xC0; 0xC0; 0xC0; 0xC0; 0xC0; 0xC0].
Definition glyph_s : list Z :=
  [0x00; 0x00; 0x00; 0x3E; 0x63; 0x60; 0x38; 0x0E; 0x03; 0x63; 0x63; 0x3E].
Definition glyph_t : list Z :=
  [0x30; 0x30; 0x30; 0xFC; 0x30; 0x30; 0x30; 0x30; 0x30; 0x30; 0x30; 0x1C].
Definition glyph_u : list Z :=
  [0x00; 0x00; 0x00; 0xC6; 0xC6; 0xC6; 0xC6; 0xC6; 0xC6; 0xC6; 0xEE; 0x76].
Definition glyph_v : list Z :=
  [0x00; 0x00; 0x00; 0xC3; 0xC3; 0xC3; 0x66; 0x66; 0x3C; 0x3C; 0x18; 0x18].
Definition glyph_w : list Z :=
  [0x00; 0x00; 0x00; 0xC3; 0xC3; 0xC3; 0xDB; 0xDB; 0xDB; 0xFF; 0x66; 0x66].
Definition glyph_x : list Z :=
  [0x00; 0x00; 0x00; 0xC3; 0xC3; 0x66; 0x3C; 0x18; 0x3C; 0x66; 0xC3; 0xC3].
Definition glyph_y : list Z :=
  [0x00; 0x00; 0x00; 0xC6; 0xC6; 0xC6; 0xC6; 0xC6; 0x7E; 0x06; 0x0C; 0x78].
Definition glyph_z : list Z :=
  [0x00; 0x00; 0x00; 0xFF; 0x06; 0x0C; 0x18; 0x30; 0x60; 0xC0; 0xC0; 0xFF].
Definition glyph_1 : list Z :=
  [0x18; 0x38; 0x78; 0xD8; 0x18; 0x18; 0x18; 0x18; 0x18; 0x18; 0x18; 0xFF].
Definition glyph_2 : list Z :=
  [0x3C; 0x66; 0xC3; 0x03; 0x06; 0x0C; 0x18; 0x30; 0x60; 0xC0; 0xC0; 0xFF].
Definition glyph_3 : list Z :=
  [0x3C; 0x66; 0xC3; 0x03; 0x03; 0x1E; 0x03; 0x03; 0x03; 0x03; 0xC3; 0x7E].
Definition glyph_4 : list Z :=
  [0x06; 0x0E; 0x1E; 0x36; 0x66; 0xC6; 0xFF; 0x06; 0x06; 0x06; 0x06; 0x06].
Definition glyph_5 : list Z :=
  [0xFF; 0xC0; 0xC0; 0xC0; 0xC0; 0xFC; 0x06; 0x03; 0x03; 0x03; 0xC6; 0x7C].
Definition glyph_6 : list Z :=
  [0x3C; 0x66; 0xC2; 0xC0; 0xC0; 0xFC; 0xC6; 0xC3; 0xC3; 0xC3; 0x66; 0x3C].
Definition glyph_7 : list Z :=
  [0xFF; 0x03; 0x06; 0x0C; 0x0C; 0x18; 0x18; 0x18; 0x30; 0x30; 0x30; 0x30].
Definition glyph_8 : list Z :=
  [0x3C; 0x66; 0xC3; 0xC3; 0xC3; 0x7E; 0xC3; 0xC3; 0xC3; 0xC3; 0x66; 0x3C].
Definition glyph_9 : list Z :=
  [0x3C; 0x66; 0xC3; 0xC3; 0xC3; 0x67; 0x3F; 0x03; 0x03; 0x43; 0x66; 0x3C].
Definition glyph_0 : list Z :=
  [0x3C; 0x66; 0xC3; 0xC3; 0xC3; 0xC3; 0xC3; 0xC3; 0xC3; 0xC3; 0x66; 0x3C].
Definition glyph_space : list Z :=
  [0x00; 0x00; 0x00; 0x00; 0x00; 0x00; 0x00; 0x00; 0x00; 0x00; 0x00; 0x00].
Definition glyph_exclamation_mark : list Z :=
  [0x18; 0x18; 0x18; 0x18; 0x18; 0x18; 0x18; 0x18; 0x18; 0x00; 0x18; 0x18].
Definition glyph_question_mark : list Z :=
  [0x3C; 0x7E; 0xE7; 0xC3; 0x03; 0x07; 0x0E; 0x1C; 0x18; 0x00; 0x18; 0x18].
Definition glyph_dollar : list Z :=
  [0x24; 0x24; 0x7E; 0xA5; 0xA4; 0xA4; 0x7E; 0x25; 0x25; 0xA5; 0x7E; 0x24].
Definition glyph_colon : list Z :=
  [0x00; 0x00; 0x00; 0x20; 0x00; 0x00; 0x00; 0x00; 0x00; 0x20; 0x00; 0x00].
Definition glyph_dot : list Z :=
  [0x00; 0x00; 0x00; 0x00; 0x00; 0x00; 0x00; 0x00; 0x00; 0x00; 0x18; 0x18].
Definition glyph_underscore : list Z :=
  [0x00; 0x00; 0x00; 0x00; 0x00; 0x00; 0x00; 0x00; 0x00; 0x00; 0xFF; 0xFF].
Definition glyph_tilde : list Z :=
  [0x00; 0x00; 0x00; 0x00; 0x60; 0x90; 0x09; 0x06; 0x00; 0x00; 0x00; 0x00].
Definition glyph_at : list Z :=
  [0xFF; 0x81; 0x85; 0xBD; 0xA5; 0xA5; 0xA5; 0xA5; 0xA5; 0xBF; 0x80; 0xFF].
Definition glyph_hash : list Z :=
  [0x42; 0x42; 0xFF; 0x42; 0x42; 0x42; 0x42; 0x42; 0x42; 0xFF; 0x42; 0x42].
Definition glyph_percent : list Z :=
  [0xE1; 0xA1; 0xA1; 0xE2; 0x04; 0x08; 0x10; 0x20; 0x47; 0x85; 0x85; 0x87].
Definition glyph_caret : list Z :=
  [0x18; 0x24; 0x42; 0x00; 0x00; 0x00; 0x00; 0x00; 0x00; 0x00; 0x00; 0x00].
Definition glyph_asterisk : list Z :=
  [0x00; 0x28; 0x10; 0x28; 0x00; 0x00; 0x00; 0x00; 0x00; 0x00; 0x00; 0x00].
Definition glyph_left_parenthesis : list Z :=
  [0x01; 0x02; 0x04; 0x08; 0x08; 0x08; 0x08; 0x08; 0x08; 0x04; 0x02; 0x01].
Definition glyph_right_parenthesis : list Z :=
  [0x80; 0x40; 0x20; 0x10; 0x10; 0x10; 0x10; 0x10; 0x10; 0x20; 0x40; 0x80].
Definition glyph_minus : list Z :=
  [0x00; 0x00; 0x00; 0x00; 0x00; 0x00; 0x3C; 0x00; 0x00; 0x00; 0x00; 0x00].
Definition glyph_equals : list Z :=
  [0x00; 0x00; 0x00; 0x00; 0x7E; 0x00; 0x00; 0x7E; 0x00; 0x00; 0x00; 0x00].
Definition glyph_plus : list Z :=
  [0x00; 0x00; 0x00; 0x00; 0x10; 0x10; 0x7C; 0x10; 0x10; 0x00; 0x00; 0x00].
Definition glyph_left_square_bracket : list Z :=
  [0xF0; 0x80; 0x80; 0x80; 0x80; 0x80; 0x80; 0x80; 0x80; 0x80; 0x80; 0xF0].
Definition glyph_right_square_bracket : list Z :=
  [0x0F; 0x01; 0x01; 0x01; 0x01; 0x01; 0x01; 0x01; 0x01; 0x01; 0x01; 0x0F].
Definition glyph_left_curly_brace : list Z :=
  [0x70; 0x40; 0x40; 0x40; 0x40; 0xC0; 0xC0; 0x40; 0x40; 0x40; 0x40; 0x70].
Definition glyph_right_curly_brace : list Z :=
  [0x0E; 0x02; 0x02; 0x02; 0x02; 0x03; 0x03; 0x02; 0x02; 0x02; 0x02; 0x0E].
Definition glyph_semicolon : list Z :=
  [0x00; 0x00; 0x00; 0x18; 0x18; 0x00; 0x00; 0x00; 0x18; 0x08; 0x10; 0x20].
Definition glyph_comma : list Z :=
  [0x00; 0x00; 0x00; 0x00; 0x00; 0x00; 0x00; 0x00; 0x18; 0x08; 0x10; 0x20].
Definition glyph_single_quote : list Z :=
  [0x00; 0x20; 0x20; 0x20; 0x00; 0x00; 0x00; 0x00; 0x00; 0x00; 0x00; 0x00].
Definition glyph_double_quote : list Z :=
  [0x00; 0x24; 0x24; 0x24; 0x00; 0x00; 0x00; 0x00; 0x00; 0x00; 0x00; 0x00].
Definition glyph_left_angle_bracket : list Z :=
  [0x00; 0x00; 0x04; 0x08; 0x10; 0x20; 0x40; 0x20; 0x10; 0x08; 0x04; 0x00].
Definition glyph_right_angle_bracket : list Z :=
  [0x00; 0x00; 0x20; 0x10; 0x08; 0x04; 0x02; 0x04; 0x08; 0x10; 0x20; 0x00].
Definition glyph_slash : list Z :=
  [0x02; 0x02; 0x04; 0x04; 0x08; 0x08; 0x10; 0x10; 0x20; 0x20; 0x40; 0x40].
Definition glyph_backslash : list Z :=
  [0x40; 0x40; 0x20; 0x20; 0x10; 0x10; 0x08; 0x08; 0x04; 0x04; 0x02; 0x02].
Definition glyph_pipe : list Z :=
  [0x10; 0x10; 0x10; 0x10; 0x10; 0x10; 0x10; 0x10; 0x10; 0x10; 0x10; 0x10].
Definition glyph_backtick : list Z :=
  [0x00; 0x20; 0x10; 0x08; 0x00; 0x00; 0x00; 0x00; 0x00; 0x00; 0x00; 0x00].
Definition glyph_ampersand : list Z :=
  [0x00; 0x3C; 0x42; 0x42; 0x42; 0x24; 0x18; 0x18; 0x24; 0x42; 0x42; 0x3D].

Definition font_uppercase : list (list Z) :=
  [glyph_A; glyph_B; glyph_C; glyph_D; glyph_E; glyph_F; glyph_G; glyph_H; glyph_I; glyph_J; glyph_K;
   glyph_L; glyph_M; glyph_N; glyph_O; glyph_P; glyph_Q; glyph_R; glyph_S; glyph_T; glyph_U; glyph_V;
   glyph_W; glyph_X; glyph_Y; glyph_Z].

Definition font_lowercase : list (list Z) :=
  [glyph_a; glyph_b; glyph_c; glyph_d; glyph_e; glyph_f; glyph_g; glyph_h; glyph_i; glyph_j; glyph_k;
   glyph_l; glyph_m; glyph_n; glyph_o; glyph_p; glyph_q; glyph_r; glyph_s; glyph_t; glyph_u; glyph_v;
   glyph_w; glyph_x; glyph_y; glyph_z].

Definition font_numbers : list (list Z) :=
  [glyph_0; glyph_1; glyph_2; glyph_3; glyph_4; glyph_5; glyph_6; glyph_7; glyph_8; glyph_9].

(** The cases of the switch. *)
Definition symbols : list (Z * list Z) :=
  [(32, glyph_space); (33, glyph_exclamation_mark); (63, glyph_question_mark); (36, glyph_dollar);
   (58, glyph_colon); (46, glyph_dot); (95, glyph_underscore); (126, glyph_tilde); (64, glyph_at);
   (35, glyph_hash); (37, glyph_percent); (94, glyph_caret); (42, glyph_asterisk);
   (40, glyph_left_parenthesis); (41, glyph_right_parenthesis); (45, glyph_minus); (61, glyph_equals);
   (43, glyph_plus); (91, glyph_left_square_bracket); (93, glyph_right_square_bracket);
   (123, glyph_left_curly_brace); (125, glyph_right_curly_brace); (59, glyph_semicolon);
   (44, glyph_comma); (39, glyph_single_quote); (34, glyph_double_quote);
   (60, glyph_left_angle_bracket); (62, glyph_right_angle_bracket); (47, glyph_slash);
   (92, glyph_backslash); (124, glyph_pipe); (96, glyph_backtick); (38, glyph_ampersand)].

Definition get_symbol_glyph (c : Z) : list Z :=
  default glyph_space (snd <$> find (fun p => p.1 =? c) symbols).

Definition font_get_glyph (c : Z) : list Z :=
  if (65 <=? c) && (c <=? 90) then nth (Z.to_nat (c - 65)) font_uppercase []
  else if (97 <=? c) && (c <=? 122) then nth (Z.to_nat (c - 97)) font_lowercase []
  else if (48 <=? c) && (c <=? 57) then nth (Z.to_nat (c - 48)) font_numbers []
  else get_symbol_glyph c.
