(* ===== verification/FbText.v ===== *)
(** Text on the framebuffer, src/drivers/fb/fbtextrender.c, with the font of Fbfont.v.  A
    string is the list of its characters before the terminating NUL.  Then what a character
    paints, and which characters can be told apart on the screen. *)

From S2P Require Import Prelude Bytes Buffer LibMem NetBuf Fb FbSpec Fbfont.

Definition FONT_HEIGHT : Z := 12.
Definition FONT_WIDTH : Z := 8.
Definition LETTER_SPACING : Z := 2.

(** A bit of a glyph. *)
Definition glyph_bit (g : list Z) (row col : Z) : bool := negb (Z.land (get g row) (Z.shiftr 0x80 col) =? 0).

Definition fb_draw_char (fb : framebuffer) (c x y : Z) (fg bg : fb_color) : outcome framebuffer :=
  let glyph := font_get_glyph c in
  let fg_pixel := color_to_pixel fb fg in
  let bg_pixel := color_to_pixel fb bg in
  ofor_from 0 12 (fun row fb =>
    ofor_from 0 8 (fun col fb =>
      put_pixel_raw fb (i32 (x + col)) (i32 (y + row)) (if glyph_bit glyph row col then fg_pixel else bg_pixel)) fb) fb.

Fixpoint string_from (fb : framebuffer) (str : list Z) (x cur_x cur_y : Z) (fg bg : fb_color) : outcome framebuffer :=
  match str with
  | [] => Ret fb
  | c :: str' =>
      if c =? 10 then string_from fb str' x x (i32 (cur_y + FONT_HEIGHT)) fg bg
      else (do fb <- fb_draw_char fb c cur_x cur_y fg bg;
            string_from fb str' x (i32 (cur_x + (FONT_WIDTH + LETTER_SPACING))) cur_y fg bg)%out
  end.

Definition fb_draw_string (fb : framebuffer) (str : list Z) (x y : Z) (fg bg : fb_color) : outcome framebuffer :=
  string_from fb str x x y fg bg.

(** Every pixel of the glyph as a square of [scale] by [scale]. *)
Definition enlarged (fb : framebuffer) (c x y scale : Z) (fg bg : fb_color) : outcome framebuffer :=
  let glyph := font_get_glyph c in
  let fg_pixel := color_to_pixel fb fg in
  let bg_pixel := color_to_pixel fb bg in
  ofor_from 0 12 (fun row fb =>
    ofor_from 0 8 (fun col fb =>
      let color := if glyph_bit glyph row col then fg_pixel else bg_pixel in
      ofor_from 0 (Z.to_nat scale) (fun sy fb =>
        ofor_from 0 (Z.to_nat scale) (fun sx fb =>
          let py := i32 (y + row * scale + sy) in
          let px := i32 (x + col * scale + sx) in
          if (0 <=? px) && (px <? i32 (fb_width fb)) && (0 <=? py) && (py <? i32 (fb_height fb))
          then put_pixel_raw fb px py color else Ret fb) fb) fb) fb) fb.

Definition fb_draw_char_large (fb : framebuffer) (c x y scale : Z) (fg bg : fb_color) : outcome framebuffer :=
  if scale =? 0 then Ret fb else if scale =? 1 then fb_draw_char fb c x y fg bg else enlarged fb c x y scale fg bg.

Fixpoint string_large_from (fb : framebuffer) (str : list Z) (x cur_x cur_y scale : Z) (fg bg : fb_color)
    : outcome framebuffer :=
  match str with
  | [] => Ret fb
  | c :: str' =>
      if c =? 10 then string_large_from fb str' x x (i32 (cur_y + FONT_HEIGHT * scale)) scale fg bg
      else (do fb <- fb_draw_char_large fb c cur_x cur_y scale fg bg;
            string_large_from fb str' x (i32 (cur_x + FONT_WIDTH * scale)) cur_y scale fg bg)%out
  end.

Definition fb_draw_string_large (fb : framebuffer) (str : list Z) (x y scale : Z) (fg bg : fb_color) : outcome framebuffer :=
  string_large_from fb str x x y scale fg bg.

Definition fb_text_width (str : list Z) : Z := u32 (Z.of_nat (length str) * FONT_WIDTH).
Definition fb_text_width_large (str : list Z) (scale : Z) : Z := u32 (Z.of_nat (length str) * FONT_WIDTH * scale).
Definition fb_char_width (c : Z) : Z := FONT_WIDTH.
Definition fb_char_width_large (c scale : Z) : Z := u32 (FONT_WIDTH * scale).

(** Set and all pixels of a block of [shrink] by [shrink] pixels. *)
Definition block_rows (shrink row : Z) : list Z := filter (fun r => r < FONT_HEIGHT) ((fun i => row + Z.of_nat i) <$> seq 0 (Z.to_nat (u8 shrink))).
Definition block_cols (shrink col : Z) : list Z := filter (fun c => c < FONT_WIDTH) ((fun i => col + Z.of_nat i) <$> seq 0 (Z.to_nat (u8 shrink))).
Definition block_pixels (glyph : list Z) (shrink row col : Z) : list bool :=
  concat ((fun r => (fun c => glyph_bit glyph r c) <$> block_cols shrink col) <$> block_rows shrink row).

(** The loop over the columns, and the one over the rows; their counters are bytes. *)
Fixpoint shrink_cols (fuel : nat) (fb : framebuffer) (glyph : list Z) (x py row col shrink fg_pixel bg_pixel : Z)
    : outcome framebuffer :=
  match fuel with
  | O => Crash
  | S fuel' =>
      if FONT_WIDTH <=? col then Ret fb
      else
        let px := i32 (x + Z.quot col shrink) in
        let next := u8 (col + shrink) in
        if (px <? 0) || (i32 (fb_width fb) <=? px) then shrink_cols fuel' fb glyph x py row next shrink fg_pixel bg_pixel
        else
          let block := block_pixels glyph shrink row col in
          let total := Z.of_nat (length (filter (fun b : bool => b = true) block)) in
          let count := Z.of_nat (length block) in
          (do fb <- put_pixel_raw fb px py (if count / 2 <? total then fg_pixel else bg_pixel);
           shrink_cols fuel' fb glyph x py row next shrink fg_pixel bg_pixel)%out
  end.

Fixpoint shrink_rows (fuel : nat) (fb : framebuffer) (glyph : list Z) (x y row shrink fg_pixel bg_pixel : Z)
    : outcome framebuffer :=
  match fuel with
  | O => Crash
  | S fuel' =>
      if FONT_HEIGHT <=? row then Ret fb
      else
        let py := i32 (y + Z.quot row shrink) in
        let next := u8 (row + shrink) in
        if (py <? 0) || (i32 (fb_height fb) <=? py) then shrink_rows fuel' fb glyph x y next shrink fg_pixel bg_pixel
        else (do fb <- shrink_cols 9 fb glyph x py row 0 shrink fg_pixel bg_pixel;
              shrink_rows fuel' fb glyph x y next shrink fg_pixel bg_pixel)%out
  end.

(** A counter that moves reaches the end within as many steps as the glyph has rows. *)
Definition fb_draw_char_scaled (fb : framebuffer) (c x y scale : Z) (fg bg : fb_color) : outcome framebuffer :=
  if 0 <? scale then enlarged fb c x y scale fg bg
  else if scale <? 0 then
    shrink_rows 13 fb (font_get_glyph c) x y 0 (i32 (- scale)) (color_to_pixel fb fg) (color_to_pixel fb bg)
  else Ret fb.

Definition fb_char_width_scaled (c scale : Z) : Z :=
  if 0 <? scale then u32 (FONT_WIDTH * scale)
  else if scale <? 0 then u32 (Z.quot FONT_WIDTH (i32 (- scale))) else 0.

Definition fb_text_width_scaled (str : list Z) (scale : Z) : Z :=
  u32 (Z.of_nat (length str) * fb_char_width_scaled 32 scale).

Fixpoint string_scaled_from (fb : framebuffer) (str : list Z) (x cur_x cur_y width height scale : Z) (fg bg : fb_color)
    : outcome framebuffer :=
  match str with
  | [] => Ret fb
  | c :: str' =>
      if c =? 10 then string_scaled_from fb str' x x (i32 (cur_y + (height + 2))) width height scale fg bg
      else (do fb <- fb_draw_char_scaled fb c cur_x cur_y scale fg bg;
            string_scaled_from fb str' x (i32 (cur_x + width)) cur_y width height scale fg bg)%out
  end.

(** The height of a line divides by the scale; dividing by zero is an exception. *)
Definition fb_draw_string_scaled (fb : framebuffer) (str : list Z) (x y scale : Z) (fg bg : fb_color) : outcome framebuffer :=
  let width := i32 (fb_char_width_scaled 32 scale) in
  if 0 <? scale then string_scaled_from fb str x x y width (i32 (FONT_HEIGHT * scale)) scale fg bg
  else if scale =? 0 then Crash
  else string_scaled_from fb str x x y width (Z.quot FONT_HEIGHT (i32 (- scale))) scale fg bg.

(** * Properties *)

(** Pixels that get the bytes [f] gives, all other state as before. *)
Record painted (f : Z -> Z -> option (list Z)) (fb fb' : framebuffer) : Prop := {
  pt_same : exists l, fb' = with_drawn fb l /\ length l = length (target fb);
  pt_pixel : forall x y, on_screen fb x y = true -> pixel_at fb' x y = default (pixel_at fb x y) (f x y)
}.

Lemma painted_none (fb : framebuffer) : painted (fun _ _ => None) fb fb.
Proof. split; [exists (target fb); by rewrite with_drawn_target | done]. Qed.

Lemma painted_ext (f g : Z -> Z -> option (list Z)) (fb fb' : framebuffer) :
  painted f fb fb' -> (forall x y, f x y = g x y) -> painted g fb fb'.
Proof. intros [H1 H2] H. split; [done |]. intros x y Hs. rewrite (H2 x y Hs). by rewrite H. Qed.

Lemma painted_seq (f g : Z -> Z -> option (list Z)) (fb fb1 fb2 : framebuffer) :
  painted f fb fb1 -> painted g fb1 fb2 -> painted (fun x y => match g x y with Some b => Some b | None => f x y end) fb fb2.
Proof.
  intros [(l & -> & Hl) H1] [(k & -> & Hk) H2]. destruct (drawn_geometry fb l) as (_ & _ & _ & _ & _ & G & _). split.
  - exists k. rewrite with_drawn_twice. split; [done |]. rewrite Hk, target_drawn. done.
  - intros x y Hs. rewrite (H2 x y) by (by rewrite G). rewrite (H1 x y Hs). by destruct (g x y).
Qed.

Lemma painted_ok (f : Z -> Z -> option (list Z)) (fb fb' : framebuffer) : painted f fb fb' -> fb_ok fb -> fb_ok fb'.
Proof.
  intros [(l & -> & Hl) _] [H1 H2 H3 H4 H5 H6]. destruct (drawn_geometry fb l) as (G1 & G2 & G3 & G4 & _).
  split; rewrite ?target_drawn, ?G1, ?G2, ?G3, ?G4; (done || lia).
Qed.

Lemma painted_bytes (f : Z -> Z -> option (list Z)) (fb fb' : framebuffer) : painted f fb fb' -> pixel_bytes fb' = pixel_bytes fb.
Proof. intros [(l & -> & _) _]. apply drawn_geometry. Qed.

Lemma put_raw_painted (fb : framebuffer) (x y p : Z) :
  fb_ok fb -> exists fb', put_pixel_raw fb x y p = Ret fb' /\
    painted (fun a b => if (a =? x) && (b =? y) then Some (pixel_bytes fb p) else None) fb fb'.
Proof.
  intros Hok. destruct (put_raw_drawn fb x y p Hok) as (fb' & E & [Hs Hp]). exists fb'. split; [done |].
  split; [done |]. intros a b Hab. rewrite (Hp a b Hab). by destruct (_ && _).
Qed.

(** A rectangle that is painted pixel by pixel, row by row. *)
Lemma rows_painted (fb : framebuffer) (x y : Z) (w h : nat) (c : Z -> Z -> Z) :
  fb_ok fb -> small x -> small y -> small (x + Z.of_nat w) -> small (y + Z.of_nat h) ->
  exists fb', ofor_from 0 h (fun row fb => ofor_from 0 w (fun col fb =>
      put_pixel_raw fb (i32 (x + col)) (i32 (y + row)) (c row col)) fb) fb = Ret fb' /\
    painted (fun a b => if (x <=? a) && (a <? x + Z.of_nat w) && (y <=? b) && (b <? y + Z.of_nat h)
                        then Some (pixel_bytes fb (c (b - y) (a - x))) else None) fb fb'.
Proof.
  intros Hok Hx Hy Hw Hh.
  pose (F i j a b := if ((x <=? a) && (a <? x + Z.of_nat w) && (y <=? b) && (b <? y + i)) ||
                        ((b =? y + i) && (x <=? a) && (a <? x + j))
                     then Some (pixel_bytes fb (c (b - y) (a - x))) else None).
  destruct (ofor_from_inv (fun i => painted (F i 0) fb) 0 h (fun row fb => ofor_from 0 w (fun col fb =>
      put_pixel_raw fb (i32 (x + col)) (i32 (y + row)) (c row col)) fb) fb) as (fb' & E & HP).
  - apply (painted_ext (fun _ _ => None)); [apply painted_none |]. intros a b. unfold F.
    destruct (Z.leb_spec x a), (Z.ltb_spec a (x + 0)), (Z.leb_spec y b), (Z.ltb_spec b (y + 0)), (Z.eqb_spec b (y + 0));
      rewrite ?andb_false_r; (done || lia).
  - intros i fb1 Hi HP1.
    destruct (ofor_from_inv (fun j => painted (F i j) fb) 0 w (fun col fb =>
      put_pixel_raw fb (i32 (x + col)) (i32 (y + i)) (c i col)) fb1 HP1) as (fb2 & E2 & HP2).
    + intros j fb2 Hj HP2. unfold small in *. rewrite (i32_small (x + j)), (i32_small (y + i)) by lia.
      destruct (put_raw_painted fb2 (x + j) (y + i) (c i j) (painted_ok _ _ _ HP2 Hok)) as (fb3 & E3 & HP3).
      exists fb3. split; [done |]. rewrite (painted_bytes _ _ _ HP2) in HP3.
      apply (painted_ext _ _ _ _ (painted_seq _ _ _ _ _ HP2 HP3)). intros a b. unfold F.
      destruct (Z.eqb_spec a (x + j)) as [-> |], (Z.eqb_spec b (y + i)) as [-> |]; cbn [andb].
      * replace (x <=? x + j) with true by lia. replace (x + j <? x + (j + 1)) with true by lia. cbn [andb]. rewrite orb_true_r.
        by replace (y + i - y) with i by lia; replace (x + j - x) with j by lia.
      * done.
      * f_equal. by replace (a <? x + (j + 1)) with (a <? x + j) by lia.
      * done.
    + exists fb2. split; [done |]. apply (painted_ext _ _ _ _ HP2). intros a b. unfold F.
      replace ((b =? y + (i + 1)) && (x <=? a) && (a <? x + 0)) with false by lia. rewrite orb_false_r.
      by replace ((x <=? a) && (a <? x + Z.of_nat w) && (y <=? b) && (b <? y + (i + 1)))
        with ((x <=? a) && (a <? x + Z.of_nat w) && (y <=? b) && (b <? y + i) || (b =? y + i) && (x <=? a) && (a <? x + (0 + Z.of_nat w))) by lia.
  - exists fb'. split; [exact E |]. apply (painted_ext _ _ _ _ HP). intros a b. unfold F.
    replace ((b =? y + (0 + Z.of_nat h)) && (x <=? a) && (a <? x + 0)) with false by lia. by rewrite orb_false_r.
Qed.

(** Inside the 8 by 12 pixels of a character. *)
Definition in_cell (x y a b : Z) : bool := (x <=? a) && (a <? x + FONT_WIDTH) && (y <=? b) && (b <? y + FONT_HEIGHT).

Lemma draw_char_painted (fb : framebuffer) (c x y : Z) (fg bg : fb_color) :
  fb_ok fb -> small x -> small y -> small (x + FONT_WIDTH) -> small (y + FONT_HEIGHT) ->
  exists fb', fb_draw_char fb c x y fg bg = Ret fb' /\
    painted (fun a b => if in_cell x y a b
                        then Some (pixel_bytes fb (color_to_pixel fb (if glyph_bit (font_get_glyph c) (b - y) (a - x) then fg else bg)))
                        else None) fb fb'.
Proof.
  intros Hok Hx Hy Hw Hh.
  destruct (rows_painted fb x y 8 12 (fun row col => if glyph_bit (font_get_glyph c) row col then color_to_pixel fb fg else color_to_pixel fb bg))
    as (fb' & E & HP); [done.. |]. exists fb'. split; [exact E |]. apply (painted_ext _ _ _ _ HP). intros a b. unfold in_cell.
  change (Z.of_nat 8) with FONT_WIDTH. change (Z.of_nat 12) with FONT_HEIGHT. by destruct (glyph_bit _ _ _).
Qed.

(** Drawing a character paints its cell: each of the 8 by 12 pixels that is on the screen
    has the foreground colour where the glyph has a bit and the background colour elsewhere,
    and every pixel outside the cell is as before. *)
Theorem fb_draw_char_spec (fb : framebuffer) (c x y : Z) (fg bg : fb_color) :
  fb_ok fb -> small x -> small y -> small (x + FONT_WIDTH) -> small (y + FONT_HEIGHT) ->
  exists fb', fb_draw_char fb c x y fg bg = Ret fb' /\ fb_ok fb' /\
    forall a b, on_screen fb a b = true ->
      pixel_at fb' a b =
      if in_cell x y a b
      then pixel_bytes fb (color_to_pixel fb (if glyph_bit (font_get_glyph c) (b - y) (a - x) then fg else bg))
      else pixel_at fb a b.
Proof.
  intros Hok Hx Hy Hw Hh. destruct (draw_char_painted fb c x y fg bg Hok Hx Hy Hw Hh) as (fb' & E & HP).
  exists fb'. split; [done |]. split; [by eapply painted_ok |]. intros a b Hab. rewrite (pt_pixel _ _ _ HP a b Hab).
  by destruct (in_cell x y a b).
Qed.

(** * Telling characters apart *)

Definition cells : list (Z * Z) := list_prod (Z.of_nat <$> seq 0 12) (Z.of_nat <$> seq 0 8).

Definition same_bits (g h : list Z) : bool := forallb (fun p => eqb (glyph_bit g p.1 p.2) (glyph_bit h p.1 p.2)) cells.

Definition printable : list Z := Z.of_nat <$> seq 32 95.

Definition alike (c d : Z) : bool := (c =? d) || ((c =? 48) && (d =? 79)) || ((c =? 79) && (d =? 48)).

Lemma font_distinct :
  forallb (fun p => implb (same_bits (font_get_glyph p.1) (font_get_glyph p.2)) (alike p.1 p.2)) (list_prod printable printable) = true.
Proof. vm_compute. reflexivity. Qed.

Lemma elem_of_cells (r c : Z) : (r, c) ∈ cells <-> 0 <= r < 12 /\ 0 <= c < 8.
Proof.
  unfold cells. rewrite list_elem_of_In, in_prod_iff, <- !list_elem_of_In, !list_elem_of_fmap. split.
  - intros [(i & -> & Hi%elem_of_seq) (j & -> & Hj%elem_of_seq)]. lia.
  - intros [Hr Hc]. split; [exists (Z.to_nat r) | exists (Z.to_nat c)]; (split; [lia |]); apply elem_of_seq; lia.
Qed.

(** Text is legible: two printable characters that give the same picture in the same
    place of the screen, in two colours that differ there, are the same character, except
    for the digit 0 and the capital O, whose glyphs are equal. *)
Theorem fb_text_legible (fb fb1 fb2 : framebuffer) (c d x y : Z) (fg bg : fb_color) :
  fb_ok fb -> 0 <= x -> x + FONT_WIDTH <= fb_width fb -> 0 <= y -> y + FONT_HEIGHT <= fb_height fb ->
  small (fb_width fb) -> small (fb_height fb) ->
  pixel_bytes fb (color_to_pixel fb fg) <> pixel_bytes fb (color_to_pixel fb bg) ->
  c ∈ printable -> d ∈ printable ->
  fb_draw_char fb c x y fg bg = Ret fb1 -> fb_draw_char fb d x y fg bg = Ret fb2 ->
  (forall a b, in_cell x y a b = true -> pixel_at fb1 a b = pixel_at fb2 a b) -> alike c d = true.
Proof.
  unfold FONT_WIDTH, FONT_HEIGHT. intros Hok Hx Hxw Hy Hyh Sw Sh Hne Hc Hd E1 E2 Heq.
  assert (S1 : small x /\ small y /\ small (x + FONT_WIDTH) /\ small (y + FONT_HEIGHT)) by (unfold small, FONT_WIDTH, FONT_HEIGHT in *; lia).
  destruct S1 as (S1 & S2 & S3 & S4).
  destruct (draw_char_painted fb c x y fg bg Hok S1 S2 S3 S4) as (fb1' & E1' & P1). rewrite E1 in E1'. injection E1' as <-.
  destruct (draw_char_painted fb d x y fg bg Hok S1 S2 S3 S4) as (fb2' & E2' & P2). rewrite E2 in E2'. injection E2' as <-.
  pose proof font_distinct as Hf. rewrite forallb_forall in Hf. specialize (Hf (c, d)). cbn [fst snd] in Hf.
  rewrite in_prod_iff, <- !list_elem_of_In in Hf. specialize (Hf (conj Hc Hd)).
  assert (Hb : same_bits (font_get_glyph c) (font_get_glyph d) = true); [| by rewrite Hb in Hf].
  unfold same_bits. apply forallb_forall. intros [r k] Hin. apply list_elem_of_In, elem_of_cells in Hin as [Hr Hk]. cbn [fst snd].
  assert (Hcell : in_cell x y (x + k) (y + r) = true) by (unfold in_cell, FONT_WIDTH, FONT_HEIGHT; lia).
  assert (Hs : on_screen fb (x + k) (y + r) = true) by (apply on_screen_spec; [done | lia]).
  specialize (Heq _ _ Hcell). rewrite (pt_pixel _ _ _ P1 _ _ Hs), (pt_pixel _ _ _ P2 _ _ Hs), Hcell in Heq. cbn [default] in Heq.
  replace (y + r - y) with r in Heq by lia. replace (x + k - x) with k in Heq by lia.
  destruct (glyph_bit (font_get_glyph c) r k), (glyph_bit (font_get_glyph d) r k); (done || by symmetry in Heq).
Qed.

(** Scale 0 divides by zero, also for the empty string. *)
Theorem fb_draw_string_scaled_0 (fb : framebuffer) (str : list Z) (x y : Z) (fg bg : fb_color) :
  fb_draw_string_scaled fb str x y 0 fg bg = Crash.
Proof. done. Qed.

(** * Examples *)

Definition page : framebuffer :=
  mk_fb 4096 (replicate 480 0) None 16 15 32 16 2 FB_FORMAT_RGB565 false 0 0 0 0 true.

Lemma page_ok : fb_ok page.
Proof. by split. Defined.

Lemma fb_draw_char_spec_witness :
  exists fb, fb_draw_char page 65 4 2 (fb_rgb 255 255 255) FB_BLACK = Ret fb /\ pixel_at fb 7 2 = [255; 255] /\ pixel_at fb 4 2 = [0; 0].
Proof.
  destruct (fb_draw_char_spec page 65 4 2 (fb_rgb 255 255 255) FB_BLACK page_ok) as (fb & E & _ & Hp); [by split.. |].
  exists fb. split; [exact E |]. rewrite (Hp 7 2 eq_refl), (Hp 4 2 eq_refl). split; vm_compute; reflexivity.
Defined.

(** The pair that cannot be told apart. *)
Lemma fb_text_legible_witness :
  exists fb, fb_draw_char page 48 4 2 (fb_rgb 255 255 255) FB_BLACK = Ret fb /\
    fb_draw_char page 79 4 2 (fb_rgb 255 255 255) FB_BLACK = Ret fb /\ alike 48 79 = true.
Proof.
  assert (E : exists fb, fb_draw_char page 48 4 2 (fb_rgb 255 255 255) FB_BLACK = Ret fb) by (eexists; vm_compute; reflexivity).
  destruct E as [fb E].
  assert (E' : fb_draw_char page 79 4 2 (fb_rgb 255 255 255) FB_BLACK = Ret fb) by (rewrite <- E; vm_compute; reflexivity).
  exists fb. split; [exact E |]. split; [exact E' |].
  apply (fb_text_legible page fb fb 48 79 4 2 (fb_rgb 255 255 255) FB_BLACK page_ok); [.. | exact E | exact E' | reflexivity].
  all: clear E E'; try first [vm_compute; discriminate | split; vm_compute; [discriminate | reflexivity]].
  - apply list_elem_of_fmap. exists 48%nat. split; [reflexivity | apply elem_of_seq; lia].
  - apply list_elem_of_fmap. exists 79%nat. split; [reflexivity | apply elem_of_seq; lia].
Defined.
