(* ===== verification/Ktime.v ===== *)
(** Time, src/kernel/time: calendar and Unix time (bcd2utime.c), the system clock (clock.c),
    the CMOS clock (rtc.c, rdcmos.c) and the tick of the timer (timer.c).  The registers of
    the CMOS clock are a function from register numbers to bytes; the wait for an update of
    the clock to end is left out. *)

From S2P Require Import Prelude.

(** * Calendar and Unix time *)

Record datetime := mk_dt { dt_year : Z; dt_month : Z; dt_day : Z; dt_hour : Z; dt_minute : Z; dt_second : Z }.

Definition bcd_to_bin (bcd : Z) : Z := u8 (Z.land bcd 0x0F + Z.shiftr bcd 4 * 10).
Definition bin_to_bcd (bin : Z) : Z := u8 (Z.lor (Z.shiftl (bin / 10) 4) (bin mod 10)).

Definition is_leap (year : Z) : bool := (year mod 400 =? 0) || ((year mod 4 =? 0) && negb (year mod 100 =? 0)).

Definition DAYS : list Z := [31; 28; 31; 30; 31; 30; 31; 31; 30; 31; 30; 31].

(** A month outside 1 to 12 reads outside the table. *)
Definition days_in_month (year month : Z) : outcome Z :=
  if (month =? 2) && is_leap year then Ret 29 else of_option (get_chk DAYS (month - 1)).

Definition year_days (year : Z) : Z := if is_leap year then 366 else 365.

Definition time_to_unix (t : datetime) : outcome Z :=
  (let days := for_from 1970 (Z.to_nat (dt_year t - 1970)) (fun y days => u64 (days + year_days y)) 0 in
   do days <- ofor_from 1 (Z.to_nat (dt_month t - 1))
                (fun m days => do d <- days_in_month (dt_year t) m; Ret (u64 (days + d))) days;
   let days := u64 (days + (dt_day t - 1)) in
   Ret (u64 (u64 (days * 86400) + dt_hour t * 3600 + dt_minute t * 60 + dt_second t)))%out.

(** The year in which a number of days falls, and the days left of it. *)
Fixpoint sub_years (fuel : nat) (year days : Z) : outcome (Z * Z) :=
  match fuel with
  | O => Crash
  | S fuel' => if year_days year <=? days then sub_years fuel' (u32 (year + 1)) (days - year_days year) else Ret (year, days)
  end.

(** The month; [None] when the loop ends behind December. *)
Fixpoint sub_months (n : nat) (year month days : Z) : outcome (option (Z * Z)) :=
  match n with
  | O => Ret None
  | S n' =>
      (do dim <- days_in_month year month;
       if days <? dim then Ret (Some (month, days + 1)) else sub_months n' year (month + 1) (u32 (days - dim)))%out
  end.

(** Every year takes at least 365 of the days.  [day] is what the field held before. *)
Definition unix_to_time (ut day : Z) : outcome datetime :=
  (let days := u32 (ut / 86400) in
   let rem := u32 (ut mod 86400) in
   do '(year, days) <- sub_years (S (Z.to_nat (days / 365))) 1970 days;
   do r <- sub_months 12 year 1 days;
   let '(month, day) := match r with Some (m, d) => (m, u8 d) | None => (13, day) end in
   Ret (mk_dt year month day (u8 (rem / 3600)) (u8 ((rem mod 3600) / 60)) (u8 (rem mod 60))))%out.

(** * The system clock *)

Record clock_time := mk_clock { hh : Z; mm : Z; ss : Z; epoch : Z }.

Definition is_leap_year (year : Z) : bool := (year mod 4 =? 0) && (negb (year mod 100 =? 0) || (year mod 400 =? 0)).

Definition rtc_to_epoch (year month day hour minute second : Z) : outcome Z :=
  (let days := for_from 1970 (Z.to_nat (year - 1970)) (fun y e => u32 (e + (if is_leap_year y then 366 else 365))) 0 in
   do days <- ofor_from 1 (Z.to_nat (month - 1))
                (fun m e =>
                   do d <- of_option (get_chk DAYS (m - 1));
                   let e := u32 (e + d) in
                   Ret (if (m =? 2) && is_leap_year year then u32 (e + 1) else e)) days;
   let days := u32 (days + (day - 1)) in
   Ret (u32 (days * 86400 + hour * 3600 + minute * 60 + second)))%out.

Definition clock_tick (c : clock_time) : clock_time :=
  let s := u8 (ss c + 1) in
  let e := u32 (epoch c + 1) in
  if 60 <=? s then
    let m := u8 (mm c + 1) in
    if 60 <=? m then
      let h := u8 (hh c + 1) in
      mk_clock (if 24 <=? h then 0 else h) 0 0 e
    else mk_clock (hh c) m 0 e
  else mk_clock (hh c) (mm c) s e.

Definition format_clock (c : clock_time) : list Z :=
  [u8 (48 + hh c / 10); u8 (48 + hh c mod 10); 58; u8 (48 + mm c / 10); u8 (48 + mm c mod 10); 58;
   u8 (48 + ss c / 10); u8 (48 + ss c mod 10); 0].

(** * The CMOS clock *)

Definition TIMEZONE_OFFSET : Z := 7.

(** [read_rtc_time] of rtc.c: hour, minute, second. *)
Definition read_rtc_time (cmos : Z -> Z) : Z * Z * Z :=
  let s := cmos 0x00 in
  let m := cmos 0x02 in
  let h := cmos 0x04 in
  let regB := cmos 0x0B in
  let is_pm := Z.land h 0x80 in
  let '(s, m, h) := if Z.land regB 0x04 =? 0 then (bcd_to_bin s, bcd_to_bin m, bcd_to_bin (Z.land h 0x7F))
                    else (s, m, Z.land h 0x7F) in
  let h := if (Z.land regB 0x02 =? 0) && negb (is_pm =? 0) then (h + 12) mod 24 else h in
  (u8 ((h + TIMEZONE_OFFSET + 24) mod 24), m, s).

(** [read_rtc_date] of rtc.c: year, month, day. *)
Definition read_rtc_date (cmos : Z -> Z) : Z * Z * Z :=
  let regB := cmos 0x0B in
  let conv r := if Z.land regB 0x04 =? 0 then bcd_to_bin (cmos r) else cmos r in
  let century := conv 0x32 in
  (if 19 <=? century then century * 100 + conv 0x09 else 2000 + conv 0x09, conv 0x08, conv 0x07).

Definition init_system_clock (cmos : Z -> Z) : outcome clock_time :=
  (let '(h, m, s) := read_rtc_time cmos in
   let '(year, month, day) := read_rtc_date cmos in
   do e <- rtc_to_epoch year month day h m s;
   Ret (mk_clock (u8 h) (u8 m) (u8 s) e))%out.

(** [rtc_read_time] of rdcmos.c *)
Definition rtc_read_time (cmos : Z -> Z) : datetime :=
  let bcd := Z.land (cmos 0x0B) 0x04 =? 0 in
  let conv r := if (bcd : bool) then bcd_to_bin (cmos r) else cmos r in
  let cent := conv 0x32 in
  mk_dt (u32 (conv 0x09 + (if negb (cent =? 0) then cent * 100 else 2000))) (conv 0x08) (conv 0x07)
    (conv 0x04) (conv 0x02) (conv 0x00).

(** * The timer *)

Definition APIC_DIVISOR : Z := 16.

(** [g_timer] with the counters of the handler: [seconds], [preempt_counter],
    [last_cursor] and the number of cursor updates. *)
Record timer := mk_timer {
  ticks : Z; period : Z; tsc_khz : Z; apic_bus_khz : Z; init_count : Z; calibrated : bool;
  seconds : Z; preempt_counter : Z; last_cursor : Z; cursor_updates : Z
}.

(** [timer_apic_handler]; the flag is [need_reschedule]. *)
Definition timer_apic_handler (t : timer) (c : clock_time) (need_reschedule : bool) : timer * clock_time * bool :=
  let tk := u64 (ticks t + 1) in
  let '(tk, secs, c) := if 1000 <=? tk then (0, u32 (seconds t + 1), clock_tick c) else (tk, seconds t, c) in
  let pc := u32 (preempt_counter t + 1) in
  let '(pc, need_reschedule) := if 10 <=? pc then (0, true) else (pc, need_reschedule) in
  let '(lc, cu) := if 500 <=? u64 (tk - last_cursor t) then (u32 tk, cursor_updates t + 1) else (last_cursor t, cursor_updates t) in
  (mk_timer tk (period t) (tsc_khz t) (apic_bus_khz t) (init_count t) (calibrated t) secs pc lc cu, c, need_reschedule).

(** The counter that [timer_apic_init] programs for the measured period. *)
Definition timer_init_count (period desired_freq : Z) : Z :=
  let desired_freq := if desired_freq =? 0 then 1000 else desired_freq in
  let temp := period / (desired_freq * APIC_DIVISOR) in
  let v := if 0xFFFFFFFF <? temp then 0xFFFFFFFF else temp in
  if v <? 2 then 2 else v.

Definition timer_apic_ticks (t : timer) : Z := ticks t.
Definition timer_apic_freq (t : timer) : Z := u32 (apic_bus_khz t * 1000).

Definition timer_apic_current_freq (t : timer) : Z :=
  if init_count t =? 0 then 0
  else let freq := period t / (init_count t * APIC_DIVISOR) in if 0xFFFFFFFF <? freq then 0xFFFFFFFF else freq.

Definition timer_apic_ms (t : timer) : Z :=
  let f := timer_apic_current_freq t in if f =? 0 then 0 else u32 (u64 (ticks t * 1000) / f).

Definition timer_apic_ticks_per_ms (t : timer) : Z := apic_bus_khz t.
Definition timer_tsc_freq (t : timer) : Z := tsc_khz t * 1000.

(** [timer_sleep]: every halt ends with one tick; the number of ticks until the loop
    ends. *)
Fixpoint sleep_loop (fuel : nat) (start need : Z) (t : timer) (c : clock_time) (n : Z) : outcome (Z * timer) :=
  match fuel with
  | O => Crash
  | S fuel' =>
      if u64 (timer_apic_ticks t - start) <? need then
        let '(t, c, _) := timer_apic_handler t c false in sleep_loop fuel' start need t c (n + 1)
      else Ret (n, t)
  end.

Definition timer_sleep (fuel : nat) (t : timer) (c : clock_time) (ms : Z) : outcome (Z * timer) :=
  sleep_loop fuel (timer_apic_ticks t) (u64 (ms * timer_apic_freq t) / 1000) t c 0.
