(* ===== verification/KtimeSpec.v ===== *)
(** Properties of Ktime.v: calendar and Unix time are inverse to each other, the two
    computations of the epoch agree, the clock shows the time of its epoch, and what the
    tick counter does to waiting. *)

From S2P Require Import Prelude Ktime.

(** * Sums of years and months *)

(** The days of [n] years from [y] on. *)
Fixpoint years_sum (y : Z) (n : nat) : Z :=
  match n with O => 0 | S n' => year_days y + years_sum (y + 1) n' end.

Lemma year_days_bounds (y : Z) : 365 <= year_days y <= 366.
Proof. unfold year_days. destruct (is_leap y); lia. Qed.

Lemma years_sum_bounds (y : Z) (n : nat) : 365 * Z.of_nat n <= years_sum y n <= 366 * Z.of_nat n.
Proof. revert y. induction n as [|n IH]; intros y; cbn [years_sum]; [lia |]. pose proof (year_days_bounds y). specialize (IH (y + 1)). lia. Qed.

Lemma years_loop (w : Z) (f : Z -> Z) (n : nat) (y acc : Z) :
  0 <= w -> (forall z, f z = year_days z) -> 0 <= acc -> acc + years_sum y n < 2 ^ w ->
  for_from y n (fun y days => wrap w (days + f y)) acc = acc + years_sum y n.
Proof.
  intros Hw Hf. revert y acc. induction n as [|n IH]; intros y acc Ha Hb; cbn [for_from years_sum] in *; [lia |].
  pose proof (year_days_bounds y). pose proof (years_sum_bounds (y + 1) n). rewrite Hf, wrap_small by (split; lia).
  rewrite IH by lia. lia.
Qed.

Lemma sub_years_ok (fuel n : nat) (y d : Z) :
  0 <= y -> y + Z.of_nat n < 2 ^ 32 -> 0 <= d < year_days (y + Z.of_nat n) -> (n < fuel)%nat ->
  sub_years fuel y (years_sum y n + d) = Ret (y + Z.of_nat n, d).
Proof.
  revert fuel y. induction n as [|n IH]; intros fuel y Hy Hb Hd Hf; (destruct fuel as [|fuel]; [lia |]); cbn [sub_years years_sum].
  - rewrite Z.add_0_r in *. rewrite Z.add_0_l. by replace (year_days y <=? d) with false by lia.
  - pose proof (years_sum_bounds (y + 1) n). replace (year_days y <=? _) with true by lia. rewrite wrap_small by (split; lia).
    replace (year_days y + years_sum (y + 1) n + d - year_days y) with (years_sum (y + 1) n + d) by lia.
    rewrite IH; [f_equal; f_equal; lia | lia | lia | | lia]. by replace (y + 1 + Z.of_nat n) with (y + Z.of_nat (S n)) by lia.
Qed.

(** Every number of days is in a year. *)
Lemma days_in_years (fuel : nat) (y d : Z) :
  0 <= d < 365 * Z.of_nat fuel -> exists n r, (n < fuel)%nat /\ d = years_sum y n + r /\ 0 <= r < year_days (y + Z.of_nat n).
Proof.
  revert y d. induction fuel as [|fuel IH]; intros y d Hd; [lia |]. pose proof (year_days_bounds y).
  destruct (Z.ltb_spec d (year_days y)).
  - exists 0%nat, d. rewrite Z.add_0_r. split; [lia |]. cbn [years_sum]. split; lia.
  - destruct (IH (y + 1) (d - year_days y)) as (n & r & Hn & E & Hr); [lia |]. exists (S n), r. cbn [years_sum].
    split; [lia |]. split; [lia |]. by replace (y + Z.of_nat (S n)) with (y + 1 + Z.of_nat n) by lia.
Qed.

(** The length of a month that exists, and the days before it. *)
Definition dim (leap : bool) (m : Z) : Z := if (m =? 2) && leap then 29 else get DAYS (m - 1).

Fixpoint months_sum (leap : bool) (m : Z) (n : nat) : Z :=
  match n with O => 0 | S n' => dim leap m + months_sum leap (m + 1) n' end.

Lemma days_in_month_eq (y m : Z) : 1 <= m <= 12 -> days_in_month y m = Ret (dim (is_leap y) m).
Proof.
  intros Hm. unfold days_in_month, dim. destruct ((m =? 2) && is_leap y); [done |].
  assert (Hc : m = 1 \/ m = 2 \/ m = 3 \/ m = 4 \/ m = 5 \/ m = 6 \/ m = 7 \/ m = 8 \/ m = 9 \/ m = 10 \/ m = 11 \/ m = 12) by lia.
  by repeat (destruct Hc as [-> | Hc]; [done |]); subst.
Qed.

Lemma dim_bounds (leap : bool) (m : Z) : 1 <= m <= 12 -> 28 <= dim leap m <= 31.
Proof.
  intros Hm. assert (Hc : m = 1 \/ m = 2 \/ m = 3 \/ m = 4 \/ m = 5 \/ m = 6 \/ m = 7 \/ m = 8 \/ m = 9 \/ m = 10 \/ m = 11 \/ m = 12) by lia.
  by destruct leap; repeat (destruct Hc as [-> | Hc]; [done |]); subst.
Qed.

Lemma months_sum_bounds (leap : bool) (n : nat) (m : Z) : 1 <= m -> m + Z.of_nat n <= 13 -> 0 <= months_sum leap m n <= 31 * Z.of_nat n.
Proof.
  revert m. induction n as [|n IH]; intros m H1 H2; cbn [months_sum]; [lia |]. pose proof (dim_bounds leap m ltac:(lia)).
  specialize (IH (m + 1)). lia.
Qed.

Lemma months_loop (w : Z) (y : Z) (n : nat) (m acc : Z) (body : Z -> Z -> outcome Z) :
  0 <= w -> (forall k a, 1 <= k <= 12 -> 0 <= a -> a + dim (is_leap y) k < 2 ^ w -> body k a = Ret (a + dim (is_leap y) k)) ->
  1 <= m -> m + Z.of_nat n <= 13 -> 0 <= acc -> acc + months_sum (is_leap y) m n < 2 ^ w ->
  ofor_from m n body acc = Ret (acc + months_sum (is_leap y) m n).
Proof.
  intros Hw Hb. revert m acc. induction n as [|n IH]; intros m acc H1 H2 Ha Hs; cbn [ofor_from months_sum] in *; [by rewrite Z.add_0_r |].
  pose proof (dim_bounds (is_leap y) m ltac:(lia)). pose proof (months_sum_bounds (is_leap y) n (m + 1) ltac:(lia) ltac:(lia)).
  rewrite Hb by lia. cbn [obind]. rewrite IH by lia. f_equal. lia.
Qed.

Lemma sub_months_ok (y : Z) (n k : nat) (m d : Z) :
  1 <= m -> m + Z.of_nat n <= 13 -> (k < n)%nat -> 0 <= d < dim (is_leap y) (m + Z.of_nat k) ->
  sub_months n y m (months_sum (is_leap y) m k + d) = Ret (Some (m + Z.of_nat k, d + 1)).
Proof.
  revert n m. induction k as [|k IH]; intros n m H1 H2 Hk Hd; (destruct n as [|n]; [lia |]);
    cbn [sub_months months_sum]; rewrite days_in_month_eq by lia; cbn [obind].
  - rewrite Z.add_0_r in *. by replace (0 + d <? dim (is_leap y) m) with true by lia.
  - pose proof (months_sum_bounds (is_leap y) k (m + 1) ltac:(lia) ltac:(lia)). pose proof (dim_bounds (is_leap y) m ltac:(lia)).
    pose proof (dim_bounds (is_leap y) (m + Z.of_nat (S k)) ltac:(lia)). replace (_ <? dim (is_leap y) m) with false by lia.
    replace (dim (is_leap y) m + months_sum (is_leap y) (m + 1) k + d - dim (is_leap y) m) with (months_sum (is_leap y) (m + 1) k + d) by lia.
    rewrite wrap_small by (split; lia). rewrite IH; [do 3 f_equal; lia | lia | lia | lia |].
    by replace (m + 1 + Z.of_nat k) with (m + Z.of_nat (S k)) by lia.
Qed.

Lemma days_in_months (leap : bool) (n : nat) (m d : Z) :
  1 <= m -> m + Z.of_nat n <= 13 -> 0 <= d < months_sum leap m n ->
  exists k r, (k < n)%nat /\ d = months_sum leap m k + r /\ 0 <= r < dim leap (m + Z.of_nat k).
Proof.
  revert m d. induction n as [|n IH]; intros m d H1 H2 Hd; cbn [months_sum] in Hd; [lia |].
  destruct (Z.ltb_spec d (dim leap m)).
  - exists 0%nat, d. rewrite Z.add_0_r. split; [lia |]. cbn [months_sum]. split; lia.
  - destruct (IH (m + 1) (d - dim leap m)) as (k & r & Hk & E & Hr); [lia | lia | lia |]. exists (S k), r. cbn [months_sum].
    split; [lia |]. split; [lia |]. by replace (m + Z.of_nat (S k)) with (m + 1 + Z.of_nat k) by lia.
Qed.

Lemma months_sum_year (y : Z) : months_sum (is_leap y) 1 12 = year_days y.
Proof. unfold year_days. by destruct (is_leap y). Qed.

(** * Calendar and Unix time *)

(** A date of the Gregorian calendar from 1970 on, with a time of day. *)
Record valid (t : datetime) : Prop := {
  v_year : 1970 <= dt_year t < 10000000;
  v_month : 1 <= dt_month t <= 12;
  v_day : 1 <= dt_day t <= dim (is_leap (dt_year t)) (dt_month t);
  v_hour : 0 <= dt_hour t < 24;
  v_minute : 0 <= dt_minute t < 60;
  v_second : 0 <= dt_second t < 60
}.

(** The days from the start of 1970 to a date. *)
Definition days_of (t : datetime) : Z :=
  years_sum 1970 (Z.to_nat (dt_year t - 1970)) + months_sum (is_leap (dt_year t)) 1 (Z.to_nat (dt_month t - 1)) + (dt_day t - 1).

Definition seconds_of (t : datetime) : Z := days_of t * 86400 + dt_hour t * 3600 + dt_minute t * 60 + dt_second t.

Lemma months_sum_app (leap : bool) (m : Z) (a b : nat) :
  months_sum leap m (a + b) = months_sum leap m a + months_sum leap (m + Z.of_nat a) b.
Proof.
  revert m. induction a as [|a IH]; intros m; cbn [Nat.add months_sum]; [by rewrite Z.add_0_r |].
  rewrite IH. replace (m + 1 + Z.of_nat a) with (m + Z.of_nat (S a)) by lia. lia.
Qed.

(** The day of the year is below the length of the year. *)
Lemma day_of_year (leap : bool) (m : Z) (d : Z) :
  1 <= m <= 12 -> 0 <= d < dim leap m -> 0 <= months_sum leap 1 (Z.to_nat (m - 1)) + d < months_sum leap 1 12.
Proof.
  intros Hm Hd. set (k := Z.to_nat (m - 1)). assert (Hk : m = 1 + Z.of_nat k) by lia. rewrite Hk in Hd.
  replace 12%nat with (k + S (11 - k))%nat by lia. rewrite months_sum_app. cbn [months_sum].
  pose proof (months_sum_bounds leap k 1 ltac:(lia) ltac:(lia)).
  pose proof (months_sum_bounds leap (11 - k) (1 + Z.of_nat k + 1) ltac:(lia) ltac:(lia)). lia.
Qed.

Lemma days_of_bounds (t : datetime) : valid t -> 0 <= days_of t < 366 * 10000000.
Proof.
  intros [Hy Hm Hd _ _ _]. unfold days_of. pose proof (years_sum_bounds 1970 (Z.to_nat (dt_year t - 1970))).
  pose proof (day_of_year (is_leap (dt_year t)) (dt_month t) (dt_day t - 1) Hm ltac:(lia)).
  rewrite months_sum_year in *. pose proof (year_days_bounds (dt_year t)). lia.
Qed.

Lemma time_to_unix_eq (t : datetime) : valid t -> time_to_unix t = Ret (seconds_of t).
Proof.
  intros Hv. pose proof (days_of_bounds t Hv) as Hb. destruct Hv as [Hy Hm Hd Hh Hmi Hs]. unfold time_to_unix, seconds_of.
  unfold days_of in *. pose proof (years_sum_bounds 1970 (Z.to_nat (dt_year t - 1970))).
  pose proof (months_sum_bounds (is_leap (dt_year t)) (Z.to_nat (dt_month t - 1)) 1 ltac:(lia) ltac:(lia)).
  rewrite (years_loop 64 year_days) by (done || lia). cbv zeta.
  rewrite (months_loop 64 (dt_year t)); [| lia | | lia | lia | lia | lia].
  - cbn [obind]. rewrite Z.add_0_l. set (D := years_sum _ _ + months_sum _ _ _ + (dt_day t - 1)) in *.
    rewrite (wrap_small 64 D) by (split; lia). rewrite (wrap_small 64 (D * 86400)) by (split; lia).
    by rewrite wrap_small by (split; lia).
  - intros k a Hk Ha Hlt. rewrite days_in_month_eq by done. cbn [obind]. rewrite wrap_small; [done |].
    pose proof (dim_bounds (is_leap (dt_year t)) k Hk). split; lia.
Qed.

Lemma unix_to_time_eq (t : datetime) (d0 : Z) : valid t -> unix_to_time (seconds_of t) d0 = Ret t.
Proof.
  intros Hv. pose proof (days_of_bounds t Hv) as Hb. destruct Hv as [Hy Hm Hd Hh Hmi Hs].
  unfold unix_to_time, seconds_of. set (r := dt_hour t * 3600 + dt_minute t * 60 + dt_second t).
  assert (Hr : 0 <= r < 86400) by (unfold r; lia).
  assert (E1 : (days_of t * 86400 + dt_hour t * 3600 + dt_minute t * 60 + dt_second t) / 86400 = days_of t).
  { symmetry. apply Z.div_unique with r; [lia | unfold r; lia]. }
  assert (E2 : (days_of t * 86400 + dt_hour t * 3600 + dt_minute t * 60 + dt_second t) mod 86400 = r).
  { symmetry. apply Z.mod_unique with (days_of t); [lia | unfold r; lia]. }
  rewrite E1, E2, !(wrap_small 32) by (split; lia). cbv zeta.
  assert (H60 : r / 3600 = dt_hour t /\ r mod 3600 / 60 = dt_minute t /\ r mod 60 = dt_second t) by (unfold r; dlia).
  destruct H60 as (-> & -> & ->). rewrite !(wrap_small 8) by (split; lia).
  set (n := Z.to_nat (dt_year t - 1970)). set (k := Z.to_nat (dt_month t - 1)).
  pose proof (years_sum_bounds 1970 n) as Hys. pose proof (day_of_year (is_leap (dt_year t)) (dt_month t) (dt_day t - 1) Hm ltac:(lia)) as Hdy.
  rewrite months_sum_year in Hdy. fold k in Hdy. unfold days_of in *. fold n k in Hb. fold n k.
  replace (years_sum 1970 n + months_sum (is_leap (dt_year t)) 1 k + (dt_day t - 1))
    with (years_sum 1970 n + (months_sum (is_leap (dt_year t)) 1 k + (dt_day t - 1))) in * by lia.
  assert (Ey : 1970 + Z.of_nat n = dt_year t) by lia. assert (Em : 1 + Z.of_nat k = dt_month t) by lia.
  rewrite sub_years_ok; [| lia | lia | by rewrite Ey | apply Nat2Z.inj_lt; rewrite Nat2Z.inj_succ, Z2Nat.id; dlia].
  cbn [obind]. rewrite Ey. rewrite sub_months_ok; [| lia | lia | lia | rewrite Em; lia]. cbn [obind]. rewrite Em.
  pose proof (dim_bounds (is_leap (dt_year t)) (dt_month t) Hm). replace (dt_day t - 1 + 1) with (dt_day t) by lia.
  rewrite wrap_small by (split; lia). by destruct t.
Qed.

(** Every number of seconds is the time of a date. *)
Lemma seconds_valid (ut : Z) : 0 <= ut < 2 ^ 48 -> exists t, valid t /\ seconds_of t = ut.
Proof.
  intros Hu. change (2 ^ 48) with 281474976710656 in Hu. set (d := ut / 86400). set (r := ut mod 86400).
  assert (Hd : ut = d * 86400 + r /\ 0 <= r < 86400) by (unfold d, r; dlia). clearbody d r. destruct Hd as [-> Hr].
  destruct (days_in_years (Z.to_nat 9998030) 1970 d) as (n & dy & Hn & -> & Hdy); [lia |].
  rewrite <- months_sum_year in Hdy.
  destruct (days_in_months (is_leap (1970 + Z.of_nat n)) 12 1 dy) as (k & e & Hk & -> & He); [lia | lia | done |].
  exists (mk_dt (1970 + Z.of_nat n) (1 + Z.of_nat k) (e + 1) (r / 3600) (r mod 3600 / 60) (r mod 60)). split.
  - split; cbn [dt_year dt_month dt_day dt_hour dt_minute dt_second]; try lia; dlia.
  - unfold seconds_of, days_of. cbn [dt_year dt_month dt_day dt_hour dt_minute dt_second].
    replace (Z.to_nat (1970 + Z.of_nat n - 1970)) with n by lia. replace (Z.to_nat (1 + Z.of_nat k - 1)) with k by lia. dlia.
Qed.

(** C27: Calendar time and Unix time are inverse to each other: a valid date from 1970 on is
    read back from its number of seconds, and every number of seconds below 2^48 is
    converted to a valid date with that number, in loops that end. *)
Theorem unix_time_roundtrip (t : datetime) (ut d0 : Z) :
  valid t -> 0 <= ut < 2 ^ 48 ->
  (exists s, time_to_unix t = Ret s /\ unix_to_time s d0 = Ret t) /\
  (exists t', unix_to_time ut d0 = Ret t' /\ valid t' /\ time_to_unix t' = Ret ut).
Proof.
  intros Hv Hu. split.
  - exists (seconds_of t). split; [by apply time_to_unix_eq | by apply unix_to_time_eq].
  - destruct (seconds_valid ut Hu) as (t' & Hv' & <-). exists t'. split; [by apply unix_to_time_eq |].
    split; [done | by apply time_to_unix_eq].
Qed.

Lemma unix_time_roundtrip_witness :
  time_to_unix (mk_dt 2024 2 29 12 30 15) = Ret 1709209815 /\ unix_to_time 1709209815 0 = Ret (mk_dt 2024 2 29 12 30 15).
Proof.
  assert (Hv : valid (mk_dt 2024 2 29 12 30 15)) by by split.
  destruct (unix_time_roundtrip (mk_dt 2024 2 29 12 30 15) 0 0 Hv) as [(s & E1 & E2) _]; [lia |].
  assert (Es : s = 1709209815) by (vm_compute in E1; congruence). subst s. split; [exact E1 | exact E2].
Defined.

(** * The epoch of the clock *)

Lemma leap_agree (y : Z) : is_leap_year y = is_leap y.
Proof.
  unfold is_leap_year, is_leap. destruct (Z.eqb_spec (y mod 400) 0) as [E |], (Z.eqb_spec (y mod 4) 0), (Z.eqb_spec (y mod 100) 0); try done.
  all: exfalso; dlia.
Qed.

(** The two computations of Unix time agree: for a valid date [rtc_to_epoch] is
    [time_to_unix] modulo 2^32. *)
Theorem rtc_to_epoch_agrees (t : datetime) (s : Z) :
  valid t -> time_to_unix t = Ret s ->
  rtc_to_epoch (dt_year t) (dt_month t) (dt_day t) (dt_hour t) (dt_minute t) (dt_second t) = Ret (u32 s).
Proof.
  intros Hv E. rewrite time_to_unix_eq in E by done. injection E as <-. pose proof (days_of_bounds t Hv) as Hb.
  destruct Hv as [Hy Hm Hd Hh Hmi Hs]. unfold rtc_to_epoch, seconds_of. unfold days_of in *.
  pose proof (years_sum_bounds 1970 (Z.to_nat (dt_year t - 1970))).
  pose proof (months_sum_bounds (is_leap (dt_year t)) (Z.to_nat (dt_month t - 1)) 1 ltac:(lia) ltac:(lia)).
  rewrite (years_loop 32 (fun y => if is_leap_year y then 366 else 365)) by (lia || intros z; rewrite leap_agree; done). cbv zeta.
  rewrite (months_loop 32 (dt_year t)); [| lia | | lia | lia | lia | lia].
  - cbn [obind]. rewrite Z.add_0_l. set (D := years_sum _ _ + months_sum _ _ _ + (dt_day t - 1)) in *.
    by rewrite (wrap_small 32 D) by (split; lia).
  - intros k a Hk Ha Hlt. unfold dim in *. rewrite leap_agree.
    assert (Eg : get_chk DAYS (k - 1) = Some (get DAYS (k - 1))) by (unfold get_chk; change (Z.of_nat (length DAYS)) with 12; by replace (_ && _) with true by lia). rewrite Eg.
    cbn [of_option obind]. pose proof (dim_bounds false k Hk) as Hdim. unfold dim in Hdim. rewrite andb_false_r in Hdim.
    destruct (Z.eqb_spec k 2) as [-> |]; cbn [andb] in *; [| by rewrite wrap_small by (split; lia)].
    change (get DAYS (2 - 1)) with 28 in *. destruct (is_leap (dt_year t)); rewrite !wrap_small by (rewrite ?wrap_small; split; lia); f_equal; lia.
Qed.

Lemma rtc_to_epoch_agrees_witness :
  time_to_unix (mk_dt 2024 2 29 12 30 15) = Ret 1709209815 /\ rtc_to_epoch 2024 2 29 12 30 15 = Ret 1709209815.
Proof.
  assert (E : time_to_unix (mk_dt 2024 2 29 12 30 15) = Ret 1709209815) by (vm_compute; reflexivity). split; [exact E |].
  exact (rtc_to_epoch_agrees (mk_dt 2024 2 29 12 30 15) 1709209815 ltac:(by split) E).
Defined.

(** * The clock *)

(** The clock is in range and shows the time of day of its epoch, shifted by [z] seconds. *)
Record clock_ok (z : Z) (c : clock_time) : Prop := {
  ck_hh : 0 <= hh c < 24; ck_mm : 0 <= mm c < 60; ck_ss : 0 <= ss c < 60; ck_epoch : 0 <= epoch c < 2 ^ 32;
  ck_shown : (hh c * 3600 + mm c * 60 + ss c) mod 86400 = (epoch c + z) mod 86400
}.

Lemma clock_tick_ok (z : Z) (c : clock_time) : clock_ok z c -> epoch c < 2 ^ 32 - 1 -> clock_ok z (clock_tick c).
Proof.
  intros [Hh Hm Hs He Hz] Hlt. unfold clock_tick. cbv zeta. rewrite !(wrap_small 8), (wrap_small 32) by (split; lia).
  destruct (Z.leb_spec 60 (ss c + 1)); [destruct (Z.leb_spec 60 (mm c + 1)); [destruct (Z.leb_spec 24 (hh c + 1)) |] |].
  all: split; cbn [hh mm ss epoch]; try lia; rewrite Z.mod_eq in * by lia; dlia.
Qed.

(** * Ticks *)

Lemma handler_ticks (t : timer) (c : clock_time) (f : bool) :
  0 <= ticks t < 1000 -> 0 <= preempt_counter t < 10 ->
  let '(t', c', f') := timer_apic_handler t c f in
  ticks t' = (ticks t + 1) mod 1000 /\ preempt_counter t' = (preempt_counter t + 1) mod 10 /\
  seconds t' = (if ticks t =? 999 then u32 (seconds t + 1) else seconds t) /\
  c' = (if ticks t =? 999 then clock_tick c else c) /\ f' = (if preempt_counter t =? 9 then true else f).
Proof.
  intros Ht Hp. unfold timer_apic_handler. cbv zeta. rewrite (wrap_small 64 (ticks t + 1)), (wrap_small 32 (preempt_counter t + 1)) by (split; lia).
  assert (Hm : forall a m, 0 <= a < m -> (a + 1) mod m = if a =? m - 1 then 0 else a + 1).
  { intros a m Ha. destruct (Z.eqb_spec a (m - 1)) as [-> |]; [replace (m - 1 + 1) with m by lia; apply Z_mod_same_full | apply Z.mod_small; lia]. }
  rewrite (Hm (ticks t) 1000), (Hm (preempt_counter t) 10) by lia. change (1000 - 1) with 999. change (10 - 1) with 9.
  destruct (Z.eqb_spec (ticks t) 999) as [E1 |], (Z.eqb_spec (preempt_counter t) 9) as [E2 |];
    [replace (1000 <=? ticks t + 1) with true by lia; replace (10 <=? preempt_counter t + 1) with true by lia
    |replace (1000 <=? ticks t + 1) with true by lia; replace (10 <=? preempt_counter t + 1) with false by lia
    |replace (1000 <=? ticks t + 1) with false by lia; replace (10 <=? preempt_counter t + 1) with true by lia
    |replace (1000 <=? ticks t + 1) with false by lia; replace (10 <=? preempt_counter t + 1) with false by lia].
  all: by destruct (500 <=? _).
Qed.

(** [n] ticks; the scheduler clears the flag in between. *)
Definition tick_run (n : nat) (t : timer) (c : clock_time) : timer * clock_time * bool :=
  Nat.iter n (fun s => timer_apic_handler s.1.1 s.1.2 false) (t, c, false).

(** After [n] ticks from a fresh timer the seconds and the clock have advanced by
    [n / 1000], the clock still shows the time of its epoch, and the last tick asked for a
    reschedule exactly when [n] is a positive multiple of 10. *)
Theorem timer_ticks_spec (n : nat) (t : timer) (c : clock_time) (z : Z) :
  ticks t = 0 -> preempt_counter t = 0 -> seconds t = 0 -> clock_ok z c -> epoch c + Z.of_nat n / 1000 < 2 ^ 32 ->
  let '(t', c', f') := tick_run n t c in
  ticks t' = Z.of_nat n mod 1000 /\ seconds t' = Z.of_nat n / 1000 /\ clock_ok z c' /\
  epoch c' = epoch c + Z.of_nat n / 1000 /\ f' = (negb (n =? 0)%nat && (Z.of_nat n mod 10 =? 0)).
Proof.
  intros H1 H2 H3 Hc. revert Hc.
  cut (clock_ok z c -> epoch c + Z.of_nat n / 1000 < 2 ^ 32 ->
    ticks (tick_run n t c).1.1 = Z.of_nat n mod 1000 /\ preempt_counter (tick_run n t c).1.1 = Z.of_nat n mod 10 /\
    seconds (tick_run n t c).1.1 = Z.of_nat n / 1000 /\ clock_ok z (tick_run n t c).1.2 /\
    epoch (tick_run n t c).1.2 = epoch c + Z.of_nat n / 1000 /\ (tick_run n t c).2 = (negb (n =? 0)%nat && (Z.of_nat n mod 10 =? 0))).
  { intros Hcut Hc He. specialize (Hcut Hc He). destruct (tick_run n t c) as [[t' c'] f']. cbn [fst snd] in Hcut. tauto. }
  intros Hc. induction n as [|n IH]; intros He; [cbn; rewrite Z.add_0_r; done |].
  destruct IH as (I1 & I2 & I3 & I4 & I5 & I6); [dlia |]. unfold tick_run in *. rewrite Nat.iter_succ.
  set (s := Nat.iter n _ _) in *. clearbody s. destruct s as [[t1 c1] f1]. cbn [fst snd] in *.
  pose proof (handler_ticks t1 c1 false ltac:(dlia) ltac:(dlia)) as Hh. pose proof (ck_epoch z c Hc).
  destruct (timer_apic_handler t1 c1 false) as [[t2 c2] f2]. cbn [fst snd]. destruct Hh as (-> & -> & -> & -> & ->).
  rewrite I1, I2, I3. split; [dlia |]. split; [dlia |].
  destruct (Z.eqb_spec (Z.of_nat n mod 1000) 999) as [E | E].
  - split; [rewrite wrap_small by (split; dlia); dlia |]. split; [apply clock_tick_ok; [done | rewrite I5; dlia] |].
    split; [unfold clock_tick; cbv zeta; rewrite (wrap_small 32) by (split; dlia); destruct (60 <=? _); [destruct (60 <=? _) |]; cbn [epoch]; dlia |].
    destruct (Z.eqb_spec (Z.of_nat n mod 10) 9), (Z.eqb_spec (Z.of_nat (S n) mod 10) 0); cbn; (done || dlia).
  - split; [dlia |]. split; [done |]. split; [dlia |].
    destruct (Z.eqb_spec (Z.of_nat n mod 10) 9), (Z.eqb_spec (Z.of_nat (S n) mod 10) 0); cbn; (done || dlia).
Qed.

Definition demo_timer (tk : Z) : timer := mk_timer tk 160000000 2000000 10000000 10000 true 0 0 0 0.
Definition demo_clock : clock_time := mk_clock 12 30 15 1709209815.

Lemma timer_ticks_spec_witness :
  let '(t', c', f') := tick_run 2500 (demo_timer 0) demo_clock in seconds t' = 2 /\ ss c' = 17 /\ f' = true.
Proof.
  assert (Hc : clock_ok 0 demo_clock) by by split.
  pose proof (timer_ticks_spec 2500 (demo_timer 0) demo_clock 0 eq_refl eq_refl eq_refl Hc ltac:(done)) as H.
  destruct (tick_run 2500 (demo_timer 0) demo_clock) as [[t' c'] f'] eqn:E. destruct H as (_ & Hs & _ & _ & Hf).
  split; [exact Hs |]. split; [vm_compute in E; by injection E as <- <- <- | exact Hf].
Defined.

(** * Waiting for ticks *)

Lemma sleep_loop_ends (m : nat) (start need : Z) (t : timer) (c : clock_time) (n : Z) (fuel : nat) :
  0 < start < 1000 -> 0 <= need <= 2 ^ 64 - 1000 -> 0 <= preempt_counter t < 10 ->
  ticks t = start + n -> 0 <= n -> start + n + Z.of_nat m = 999 -> n <= need -> (S m < fuel)%nat ->
  exists t', sleep_loop fuel start need t c n = Ret (Z.min need (1000 - start), t').
Proof.
  intros Hs Hn. revert t c n fuel. induction m as [|m IH]; intros t c n fuel Hp Ht Hn0 Hm Hle Hf; (destruct fuel as [|fuel]; [lia |]);
    cbn [sleep_loop]; unfold timer_apic_ticks; rewrite Ht; replace (start + n - start) with n by lia; rewrite (wrap_small 64 n) by (split; lia).
  all: destruct (Z.ltb_spec n need) as [Hlt | Hge]; [| exists t; do 2 f_equal; lia].
  all: pose proof (handler_ticks t c false ltac:(lia) Hp) as Hh; destruct (timer_apic_handler t c false) as [[t1 c1] f1];
    destruct Hh as (H1 & H2 & _).
  - rewrite Ht in H1. replace (start + n + 1) with 1000 in H1 by lia. destruct fuel as [|fuel]; [lia |]. cbn [sleep_loop].
    unfold timer_apic_ticks. rewrite H1. change (1000 mod 1000) with 0.
    assert (E : u64 (0 - start) = 2 ^ 64 - start).
    { unfold wrap. symmetry. apply Z.mod_unique with (-1); lia. }
    rewrite E. replace (2 ^ 64 - start <? need) with false by lia. exists t1. do 2 f_equal. lia.
  - rewrite Ht, Z.mod_small in H1 by lia. apply IH; try lia.
Qed.

(** [timer_sleep] does not wait for its time: started at a tick other than 0 it returns
    at the latest when the counter is reset after a second, whatever the time asked for;
    started at tick 0 with a need of 1000 or more it never returns. *)
Theorem timer_sleep_resets (t : timer) (c : clock_time) (ms : Z) :
  0 <= ms < 2 ^ 32 -> 0 <= ticks t < 1000 -> 0 <= preempt_counter t < 10 ->
  let need := u64 (ms * timer_apic_freq t) / 1000 in
  (0 < ticks t -> exists t', timer_sleep 1001 t c ms = Ret (Z.min need (1000 - ticks t), t')) /\
  (ticks t = 0 -> 1000 <= need -> forall fuel, timer_sleep fuel t c ms = Crash).
Proof.
  intros Hms Ht Hp need. assert (Hn : 0 <= need <= 2 ^ 64 - 1000).
  { unfold need. pose proof (wrap_fits 64 (ms * timer_apic_freq t) ltac:(lia)) as [? ?]. change (2 ^ 64) with 18446744073709551616 in *. dlia. }
  split.
  - intros H0. unfold timer_sleep. fold need.
    apply (sleep_loop_ends (Z.to_nat (999 - ticks t)) (ticks t) need t c 0 1001); unfold timer_apic_ticks; lia.
  - intros H0 Hneed fuel. unfold timer_sleep, timer_apic_ticks. fold need. rewrite H0. generalize 0 at 2 as n.
    assert (Ht' : 0 <= ticks t < 1000) by lia. clear Ht H0. clearbody need. revert t c Ht' Hp.
    induction fuel as [|fuel IH]; intros t c Ht Hp n; [done |]. cbn [sleep_loop]. unfold timer_apic_ticks.
    rewrite Z.sub_0_r, (wrap_small 64) by (split; lia). replace (ticks t <? need) with true by lia.
    pose proof (handler_ticks t c false Ht Hp) as Hh. destruct (timer_apic_handler t c false) as [[t1 c1] f1].
    destruct Hh as (H1 & H2 & _). apply IH; [rewrite H1; dlia | rewrite H2; dlia].
Qed.

Lemma timer_sleep_resets_witness :
  (exists t', timer_sleep 1001 (demo_timer 400) demo_clock 5000 = Ret (600, t')) /\
  timer_sleep 3000 (demo_timer 0) demo_clock 5000 = Crash.
Proof.
  destruct (timer_sleep_resets (demo_timer 400) demo_clock 5000 ltac:(lia) ltac:(by split) ltac:(by split)) as [H1 _].
  destruct (timer_sleep_resets (demo_timer 0) demo_clock 5000 ltac:(lia) ltac:(by split) ltac:(by split)) as [_ H2].
  split; [exact (H1 ltac:(done)) | apply H2; [reflexivity | vm_compute; discriminate]].
Defined.

(** * The CMOS clock *)

Lemma bcd_small (n : Z) : 0 <= n < 100 -> bin_to_bcd n = n / 10 * 16 + n mod 10.
Proof.
  intros Hn. unfold bin_to_bcd. rewrite Z.lor_comm, Z.shiftl_mul_pow2 by lia. change (2 ^ 4) with 16.
  assert (E : Z.lor (n mod 10) (n / 10 * 16) = n / 10 * 16 + n mod 10).
  { change 16 with (2 ^ 4). rewrite <- Z.shiftl_mul_pow2 by lia. cut (Z.land (n mod 10) (Z.shiftl (n / 10) 4) = 0).
    { pose proof (Z.add_lor_land (n mod 10) (Z.shiftl (n / 10) 4)). lia. }
    apply Z.bits_inj'. intros j Hj. rewrite Z.land_spec, Z.bits_0. destruct (Z.ltb_spec j 4).
    - rewrite Z.shiftl_spec_low by lia. apply andb_false_r.
    - rewrite (fits_testbit 4 (n mod 10)); [done | lia | split; change (2 ^ 4) with 16; dlia | lia]. }
  rewrite E. apply wrap_small. split; [dlia |]. change (2 ^ 8) with 256. dlia.
Qed.

(** A number below 100 is read back from its binary coded decimal. *)
Theorem bcd_roundtrip (n : Z) : 0 <= n < 100 -> bcd_to_bin (bin_to_bcd n) = n.
Proof.
  intros Hn. rewrite bcd_small by done. unfold bcd_to_bin. change 0x0F with (Z.ones 4).
  rewrite Z.land_ones, Z.shiftr_div_pow2 by lia. change (2 ^ 4) with 16. rewrite wrap_small; [dlia |].
  split; [dlia |]. change (2 ^ 8) with 256. dlia.
Qed.

(** The registers of a clock in 24-hour or 12-hour mode, in binary coded decimal. *)
Definition cmos_at (year month day hour minute second : Z) (twelve : bool) (r : Z) : Z :=
  if r =? 0x00 then bin_to_bcd second else if r =? 0x02 then bin_to_bcd minute
  else if r =? 0x04 then
    (if twelve then Z.lor (bin_to_bcd (if hour mod 12 =? 0 then 12 else hour mod 12)) (if 12 <=? hour then 0x80 else 0)
     else bin_to_bcd hour)
  else if r =? 0x07 then bin_to_bcd day else if r =? 0x08 then bin_to_bcd month
  else if r =? 0x09 then bin_to_bcd (year mod 100) else if r =? 0x32 then bin_to_bcd (year / 100)
  else if r =? 0x0B then (if twelve then 0 else 0x02) else 0.

(** In 12-hour mode the hour of noon is read as that of midnight, and the other way
    round. *)
Theorem read_rtc_time_noon :
  (read_rtc_time (cmos_at 2024 5 1 12 0 0 true)).1.1 = (read_rtc_time (cmos_at 2024 5 1 0 0 0 false)).1.1 /\
  (read_rtc_time (cmos_at 2024 5 1 0 0 0 true)).1.1 = (read_rtc_time (cmos_at 2024 5 1 12 0 0 false)).1.1.
Proof. split; vm_compute; reflexivity. Qed.

(** The time zone is added to the hour but not carried into the date: one second before
    17:00 and at 17:00 of the same day the epoch falls by nearly a day. *)
Theorem system_clock_timezone :
  exists c1 c2, init_system_clock (cmos_at 2024 5 1 16 59 59 false) = Ret c1 /\
    init_system_clock (cmos_at 2024 5 1 17 0 0 false) = Ret c2 /\ epoch c2 = epoch c1 + 1 - 86400.
Proof. eexists _, _. split; [vm_compute; reflexivity |]. split; vm_compute; reflexivity. Qed.

Lemma bcd_roundtrip_witness : bcd_to_bin (bin_to_bcd 59) = 59.
Proof. exact (bcd_roundtrip 59 ltac:(lia)). Defined.
