(* ===== verification/Kbd.v ===== *)
(** The keyboard: src/drivers/ps2kbd/ps2kbd.c with its ring buffer, and the translation of USB
    reports in src/drivers/usb/hid_keyboard.c.  The functions run with interrupts off, so
    each is one step.  Characters for the prompt of the terminal are collected in
    [to_terminal]. *)

From S2P Require Import Prelude.

(** * Scan codes *)

Definition KEY_A : Z := 0x1E.
Definition KEY_B : Z := 0x30.
Definition KEY_C : Z := 0x2E.
Definition KEY_D : Z := 0x20.
Definition KEY_E : Z := 0x12.
Definition KEY_F : Z := 0x21.
Definition KEY_G : Z := 0x22.
Definition KEY_H : Z := 0x23.
Definition KEY_I : Z := 0x17.
Definition KEY_J : Z := 0x24.
Definition KEY_K : Z := 0x25.
Definition KEY_L : Z := 0x26.
Definition KEY_M : Z := 0x32.
Definition KEY_N : Z := 0x31.
Definition KEY_O : Z := 0x18.
Definition KEY_P : Z := 0x19.
Definition KEY_Q : Z := 0x10.
Definition KEY_R : Z := 0x13.
Definition KEY_S : Z := 0x1F.
Definition KEY_T : Z := 0x14.
Definition KEY_U : Z := 0x16.
Definition KEY_V : Z := 0x2F.
Definition KEY_W : Z := 0x11.
Definition KEY_X : Z := 0x2D.
Definition KEY_Y : Z := 0x15.
Definition KEY_Z : Z := 0x2C.
Definition KEY_1 : Z := 0x02.
Definition KEY_2 : Z := 0x03.
Definition KEY_3 : Z := 0x04.
Definition KEY_4 : Z := 0x05.
Definition KEY_5 : Z := 0x06.
Definition KEY_6 : Z := 0x07.
Definition KEY_7 : Z := 0x08.
Definition KEY_8 : Z := 0x09.
Definition KEY_9 : Z := 0x0A.
Definition KEY_0 : Z := 0x0B.
Definition KEY_MINUS : Z := 0x0C.
Definition KEY_EQUAL : Z := 0x0D.
Definition KEY_SQUARE_OPEN_BRACKET : Z := 0x1A.
Definition KEY_SQUARE_CLOSE_BRACKET : Z := 0x1B.
Definition KEY_SEMICOLON : Z := 0x27.
Definition KEY_BACKSLASH : Z := 0x2B.
Definition KEY_COMMA : Z := 0x33.
Definition KEY_DOT : Z := 0x34.
Definition KEY_FORESLHASH : Z := 0x35.
Definition KEY_APOSTROPHE : Z := 0x28.
Definition KEY_GRAVE : Z := 0x29.
Definition KEY_SPACE : Z := 0x39.
Definition KEY_ENTER : Z := 0x1C.
Definition KEY_TAB : Z := 0x0F.
Definition KEY_BACKSPACE : Z := 0x0E.
Definition KEY_LSHIFT : Z := 0x2A.
Definition KEY_RSHIFT : Z := 0x36.
Definition KEY_CAPSLOCK : Z := 0x3A.
Definition KEY_LCONTROL : Z := 0x1D.
Definition KEY_RCONTROL : Z := 0xE01D.

Definition scancode_to_ascii : list (Z * Z) :=
  [(KEY_A, 97); (KEY_B, 98); (KEY_C, 99); (KEY_D, 100); (KEY_E, 101); (KEY_F, 102); (KEY_G, 103);
   (KEY_H, 104); (KEY_I, 105); (KEY_J, 106); (KEY_K, 107); (KEY_L, 108); (KEY_M, 109); (KEY_N, 110);
   (KEY_O, 111); (KEY_P, 112); (KEY_Q, 113); (KEY_R, 114); (KEY_S, 115); (KEY_T, 116); (KEY_U, 117);
   (KEY_V, 118); (KEY_W, 119); (KEY_X, 120); (KEY_Y, 121); (KEY_Z, 122); (KEY_1, 49); (KEY_2, 50);
   (KEY_3, 51); (KEY_4, 52); (KEY_5, 53); (KEY_6, 54); (KEY_7, 55); (KEY_8, 56); (KEY_9, 57);
   (KEY_0, 48); (KEY_MINUS, 45); (KEY_EQUAL, 61); (KEY_SQUARE_OPEN_BRACKET, 91);
   (KEY_SQUARE_CLOSE_BRACKET, 93); (KEY_SEMICOLON, 59); (KEY_BACKSLASH, 92); (KEY_COMMA, 44);
   (KEY_DOT, 46); (KEY_FORESLHASH, 47); (KEY_APOSTROPHE, 39); (KEY_GRAVE, 96); (KEY_SPACE, 32);
   (KEY_ENTER, 10); (KEY_TAB, 9); (KEY_BACKSPACE, 8)].

Definition scancode_to_ascii_shifted : list (Z * Z) :=
  [(KEY_A, 65); (KEY_B, 66); (KEY_C, 67); (KEY_D, 68); (KEY_E, 69); (KEY_F, 70); (KEY_G, 71);
   (KEY_H, 72); (KEY_I, 73); (KEY_J, 74); (KEY_K, 75); (KEY_L, 76); (KEY_M, 77); (KEY_N, 78);
   (KEY_O, 79); (KEY_P, 80); (KEY_Q, 81); (KEY_R, 82); (KEY_S, 83); (KEY_T, 84); (KEY_U, 85);
   (KEY_V, 86); (KEY_W, 87); (KEY_X, 88); (KEY_Y, 89); (KEY_Z, 90); (KEY_1, 33); (KEY_2, 64);
   (KEY_3, 35); (KEY_4, 36); (KEY_5, 37); (KEY_6, 94); (KEY_7, 38); (KEY_8, 42); (KEY_9, 40);
   (KEY_0, 41); (KEY_MINUS, 95); (KEY_EQUAL, 43); (KEY_SQUARE_OPEN_BRACKET, 123);
   (KEY_SQUARE_CLOSE_BRACKET, 125); (KEY_SEMICOLON, 58); (KEY_BACKSLASH, 124); (KEY_COMMA, 60);
   (KEY_DOT, 62); (KEY_FORESLHASH, 63); (KEY_APOSTROPHE, 34); (KEY_GRAVE, 126); (KEY_SPACE, 32);
   (KEY_ENTER, 10); (KEY_TAB, 9); (KEY_BACKSPACE, 8)].

Definition alpha_keys : list Z :=
  [KEY_A; KEY_B; KEY_C; KEY_D; KEY_E; KEY_F; KEY_G; KEY_H; KEY_I; KEY_J; KEY_K; KEY_L; KEY_M; KEY_N;
   KEY_O; KEY_P; KEY_Q; KEY_R; KEY_S; KEY_T; KEY_U; KEY_V; KEY_W; KEY_X; KEY_Y; KEY_Z].

Definition KBD_BUF_SIZE : Z := 256.

(** A table with designated elements; the others are 0. *)
Definition table_get (t : list (Z * Z)) (i : Z) : Z := default 0 (snd <$> find (fun p => p.1 =? i) t).

Definition my_toupper (c : Z) : Z := if (97 <=? c) && (c <=? 122) then c - 32 else c.

Definition is_alpha (scancode : Z) : bool := existsb (Z.eqb scancode) alpha_keys.

(** * State *)

Record kbd := mk_kbd {
  shift_down : bool; caps_lock : bool; ctrl_down : bool; can_type : bool;
  kbd_buf : list Z; kbd_head : Z; kbd_tail : Z;
  prompt_enabled : bool; to_terminal : list Z
}.

Definition with_mods (k : kbd) (s c t : bool) : kbd :=
  mk_kbd s c t (can_type k) (kbd_buf k) (kbd_head k) (kbd_tail k) (prompt_enabled k) (to_terminal k).

Definition with_ring (k : kbd) (b : list Z) (h t : Z) : kbd :=
  mk_kbd (shift_down k) (caps_lock k) (ctrl_down k) (can_type k) b h t (prompt_enabled k) (to_terminal k).

Definition kbd_boot : kbd := mk_kbd false false false true (replicate 256 0) 0 0 false [].

Definition get_ascii_char (k : kbd) (scancode : Z) : Z :=
  if is_alpha scancode then
    let upper := xorb (shift_down k) (caps_lock k) in
    let base := table_get scancode_to_ascii scancode in
    if upper then my_toupper base else base
  else if shift_down k then table_get scancode_to_ascii_shifted scancode
  else table_get scancode_to_ascii scancode.

(** * The ring buffer *)

Definition kbd_buffer_push (k : kbd) (c : Z) : kbd :=
  let next := (kbd_head k + 1) mod KBD_BUF_SIZE in
  if negb (next =? kbd_tail k) then with_ring k (set (kbd_buf k) (kbd_head k) c) next (kbd_tail k) else k.

Definition kbd_getchar (k : kbd) : Z * kbd :=
  if negb (can_type k) then (-1, k)
  else if kbd_head k =? kbd_tail k then (-1, k)
  else (get (kbd_buf k) (kbd_tail k), with_ring k (kbd_buf k) (kbd_head k) ((kbd_tail k + 1) mod KBD_BUF_SIZE)).

(** * Keys *)

Definition emit (k : kbd) (ch : Z) : kbd :=
  if ch =? 0 then k
  else if prompt_enabled k then
    mk_kbd (shift_down k) (caps_lock k) (ctrl_down k) (can_type k) (kbd_buf k) (kbd_head k) (kbd_tail k)
      (prompt_enabled k) (to_terminal k ++ [ch])
  else kbd_buffer_push k ch.

Definition is_shift (key : Z) : bool := (key =? KEY_LSHIFT) || (key =? KEY_RSHIFT).

Definition kbd_push_raw_scancode (k : kbd) (scancode : Z) : kbd :=
  let released := negb (Z.land scancode 0x80 =? 0) in
  let key := Z.land scancode 0x7F in
  if released then (if is_shift key then with_mods k false (caps_lock k) (ctrl_down k) else k)
  else
    let k := emit k (get_ascii_char k key) in
    if is_shift key then with_mods k true (caps_lock k) (ctrl_down k)
    else if key =? KEY_CAPSLOCK then with_mods k (shift_down k) (negb (caps_lock k)) (ctrl_down k)
    else k.

(** [keyboard_handler] for the byte read from the port. *)
Definition keyboard_handler (k : kbd) (code : Z) : kbd :=
  let released := negb (Z.land code 0x80 =? 0) in
  let key := Z.land code 0x7F in
  if (key =? KEY_LCONTROL) || (key =? KEY_RCONTROL) then with_mods k (shift_down k) (caps_lock k) (negb released)
  else if negb released && ctrl_down k && (key =? KEY_C) then kbd_buffer_push k 0x03
  else if is_shift key then with_mods k (negb released) (caps_lock k) (ctrl_down k)
  else if (key =? KEY_CAPSLOCK) && negb released then with_mods k (shift_down k) (negb (caps_lock k)) (ctrl_down k)
  else if released then k
  else emit k (get_ascii_char k key).

(** * USB reports *)

Definition usb_to_ps2_scancode : list Z :=
  [0x00; 0x29; 0x29; 0x29; 0x1E; 0x30; 0x2E; 0x20; 0x12; 0x21; 0x22; 0x23; 0x17; 0x24; 0x25; 0x26;
   0x32; 0x31; 0x18; 0x19; 0x10; 0x13; 0x1F; 0x14; 0x16; 0x2F; 0x11; 0x2D; 0x15; 0x2C; 0x02; 0x03;
   0x04; 0x05; 0x06; 0x07; 0x08; 0x09; 0x0A; 0x0B; 0x1C; 0x01; 0x0E; 0x0F; 0x39; 0x0C; 0x0D; 0x1A;
   0x1B; 0x2B; 0x27; 0x28; 0x29; 0x33; 0x34; 0x35; 0x3A; 0x3B; 0x3C; 0x3D; 0x3E; 0x3F; 0x40; 0x41;
   0x42; 0x43; 0x44; 0x57; 0x58; 0x46; 0x47; 0x45; 0x52; 0x47; 0x49; 0x53; 0x4F; 0x51; 0x4B; 0x50;
   0x48; 0x52; 0x37; 0x4A; 0x37; 0x4A; 0x4E; 0x1C; 0x4F; 0x50; 0x51; 0x4B; 0x4C; 0x4D; 0x47; 0x48;
   0x49; 0x52; 0x53] ++ replicate 13 0.

Definition usb_to_ps2 (usage : Z) : Z :=
  if usage <? 0x70 then get usb_to_ps2_scancode usage else 0x29.

(** The scan codes of the eight modifier bits, from the lowest. *)
Definition modifier_codes : list (Z * Z) :=
  [(0x01, 0x1D); (0x02, 0x2A); (0x04, 0x38); (0x08, 0x5B); (0x10, 0x1D); (0x20, 0x36); (0x40, 0x38); (0x80, 0x5C)].

(** The static variables of [hid_keyboard_input]. *)
Record hid_state := mk_hid { hid_kbd : kbd; last_modifiers : Z; last_keys : list Z }.

Fixpoint push_modifiers (k : kbd) (modifiers changed : Z) (codes : list (Z * Z)) : kbd :=
  match codes with
  | [] => k
  | (bit, code) :: codes' =>
      let k := if negb (Z.land changed bit =? 0)
               then kbd_push_raw_scancode k (if negb (Z.land modifiers bit =? 0) then code else Z.lor code 0x80) else k in
      push_modifiers k modifiers changed codes'
  end.

Fixpoint push_pressed (k : kbd) (keys old : list Z) : kbd :=
  match keys with
  | [] => k
  | key :: keys' =>
      let k := if (key =? 0) || existsb (Z.eqb key) old then k
               else let code := usb_to_ps2 key in if negb (code =? 0x29) then kbd_push_raw_scancode k code else k in
      push_pressed k keys' old
  end.

Fixpoint push_released (k : kbd) (old keys : list Z) : kbd :=
  match old with
  | [] => k
  | key :: old' =>
      let k := if (key =? 0) || existsb (Z.eqb key) keys then k
               else let code := usb_to_ps2 key in
                    if negb (code =? 0x29) then kbd_push_raw_scancode k (Z.lor code 0x80) else k in
      push_released k old' keys
  end.

Definition hid_keyboard_input (h : hid_state) (data : list Z) : hid_state :=
  if Z.of_nat (length data) <? 8 then h
  else
    let modifiers := get data 0 in
    let keys := take 6 (drop 2 data) in
    let k := if negb (modifiers =? last_modifiers h)
             then push_modifiers (hid_kbd h) modifiers (Z.lxor modifiers (last_modifiers h)) modifier_codes
             else hid_kbd h in
    let k := push_pressed k keys (last_keys h) in
    let k := push_released k (last_keys h) keys in
    mk_hid k modifiers keys.

(** * The ring as a queue *)

(** The characters from [tail] on, [n] of them. *)
Definition ring (buf : list Z) (tail : Z) (n : nat) : list Z :=
  (fun i => get buf ((tail + Z.of_nat i) mod KBD_BUF_SIZE)) <$> seq 0 n.

(** The state holds the queue [q]. *)
Record kbd_rep (k : kbd) (q : list Z) : Prop := {
  kr_buf : length (kbd_buf k) = 256%nat;
  kr_tail : 0 <= kbd_tail k < KBD_BUF_SIZE;
  kr_len : (length q < 256)%nat;
  kr_head : kbd_head k = (kbd_tail k + Z.of_nat (length q)) mod KBD_BUF_SIZE;
  kr_ring : ring (kbd_buf k) (kbd_tail k) (length q) = q
}.

(** Steps of producer and consumer, and of a queue of 255 places. *)
Inductive kbd_op := PushChar (c : Z) | GetChar.

Definition kbd_exec (k : kbd) (op : kbd_op) : option Z * kbd :=
  match op with
  | PushChar c => (None, kbd_buffer_push k c)
  | GetChar => let '(c, k) := kbd_getchar k in (Some c, k)
  end.

Definition queue_exec (q : list Z) (op : kbd_op) : option Z * list Z :=
  match op, q with
  | PushChar c, _ => (None, if (length q <? 255)%nat then q ++ [c] else q)
  | GetChar, [] => (Some (-1), [])
  | GetChar, c :: q' => (Some c, q')
  end.

Fixpoint exec_all {A} (f : A -> kbd_op -> option Z * A) (a : A) (ops : list kbd_op) : list (option Z) * A :=
  match ops with
  | [] => ([], a)
  | op :: ops' => let '(o, a) := f a op in let '(os, a) := exec_all f a ops' in (o :: os, a)
  end.

Lemma ring_S (buf : list Z) (tail : Z) (n : nat) : ring buf tail (S n) = get buf (tail mod KBD_BUF_SIZE) :: ring buf (tail + 1) n.
Proof.
  unfold ring. cbn [seq fmap list_fmap]. rewrite Z.add_0_r. f_equal. rewrite <- seq_shift, <- list_fmap_compose.
  apply list_fmap_ext. intros i x _. cbn. do 2 f_equal. lia.
Qed.

Lemma ring_mod (buf : list Z) (tail : Z) (n : nat) : ring buf (tail mod KBD_BUF_SIZE) n = ring buf tail n.
Proof. unfold ring. apply list_fmap_ext. intros i x _. f_equal. unfold KBD_BUF_SIZE. by rewrite Zplus_mod_idemp_l. Qed.

Lemma ring_snoc (buf : list Z) (tail : Z) (n : nat) :
  ring buf tail (S n) = ring buf tail n ++ [get buf ((tail + Z.of_nat n) mod KBD_BUF_SIZE)].
Proof. unfold ring. rewrite seq_S, fmap_app. done. Qed.

(** A store at the place behind the queue does not touch it. *)
Lemma ring_set (buf : list Z) (tail : Z) (n : nat) (c : Z) :
  length buf = 256%nat -> (n < 256)%nat ->
  ring (set buf ((tail + Z.of_nat n) mod KBD_BUF_SIZE) c) tail n = ring buf tail n.
Proof.
  intros Hb Hn. unfold ring. apply list_fmap_ext. intros i x [-> Hi]%lookup_seq. unfold KBD_BUF_SIZE.
  rewrite get_set_ne; [done | dlia..].
Qed.

Lemma push_rep (k : kbd) (q : list Z) (c : Z) :
  kbd_rep k q -> kbd_rep (kbd_buffer_push k c) (if (length q <? 255)%nat then q ++ [c] else q) /\
    can_type (kbd_buffer_push k c) = can_type k.
Proof.
  intros [Hb Ht Hl Hh Hr]. unfold kbd_buffer_push. cbv zeta. rewrite Hh. unfold KBD_BUF_SIZE in *.
  destruct (Nat.ltb_spec (length q) 255) as [Hlt | Hge].
  - replace (_ =? kbd_tail k) with false by (symmetry; apply Z.eqb_neq; dlia). cbn [negb]. split; [| done].
    split; cbn [with_ring kbd_buf kbd_head kbd_tail]; unfold KBD_BUF_SIZE; try done.
    + by rewrite length_set.
    + rewrite length_app. cbn [length]. lia.
    + rewrite length_app. cbn [length]. dlia.
    + rewrite length_app. cbn [length]. rewrite Nat.add_1_r, ring_snoc. change 256 with KBD_BUF_SIZE.
      rewrite ring_set, Hr by done. f_equal. f_equal. unfold KBD_BUF_SIZE. apply get_set_eq. rewrite Hb. dlia.
  - replace (_ =? kbd_tail k) with true by (symmetry; apply Z.eqb_eq; dlia). cbn [negb]. by split.
Qed.

Lemma getchar_rep (k : kbd) (q : list Z) :
  kbd_rep k q -> can_type k = true ->
  match q with
  | [] => kbd_getchar k = (-1, k)
  | c :: q' => exists k', kbd_getchar k = (c, k') /\ kbd_rep k' q' /\ can_type k' = true
  end.
Proof.
  intros [Hb Ht Hl Hh Hr] Hc. unfold kbd_getchar. rewrite Hc, Hh. cbn [negb]. unfold KBD_BUF_SIZE in *. destruct q as [|c q].
  - cbn [length] in *. replace (_ =? kbd_tail k) with true by (symmetry; apply Z.eqb_eq; dlia). done.
  - cbn [length] in *. replace (_ =? kbd_tail k) with false by (symmetry; apply Z.eqb_neq; dlia).
    rewrite ring_S in Hr. unfold KBD_BUF_SIZE in Hr. rewrite Z.mod_small in Hr by lia. injection Hr as <- Hr.
    eexists. split; [reflexivity |]. split; [| done].
    split; cbn [with_ring kbd_buf kbd_head kbd_tail]; unfold KBD_BUF_SIZE; [done | dlia | lia | dlia |].
    change 256 with KBD_BUF_SIZE. by rewrite ring_mod.
Qed.

(** C28: The ring buffer implements a queue of 255 characters: along every sequence of pushes
    and reads it delivers the characters in order, drops a character exactly when 255 are
    waiting, and returns -1 exactly when none is. *)
Theorem kbd_refines_queue (k : kbd) (q : list Z) (ops : list kbd_op) :
  kbd_rep k q -> can_type k = true ->
  (exec_all kbd_exec k ops).1 = (exec_all queue_exec q ops).1 /\
  kbd_rep (exec_all kbd_exec k ops).2 (exec_all queue_exec q ops).2.
Proof.
  revert k q. induction ops as [|op ops IH]; intros k q Hr Hc; [done |]. cbn [exec_all].
  assert (Hs : (kbd_exec k op).1 = (queue_exec q op).1 /\ kbd_rep (kbd_exec k op).2 (queue_exec q op).2 /\ can_type (kbd_exec k op).2 = true).
  { destruct op as [c|]; cbn [kbd_exec queue_exec fst snd].
    - destruct (push_rep k q c Hr) as [H1 H2]. by rewrite H2.
    - pose proof (getchar_rep k q Hr Hc) as Hg. destruct q as [|c q]; [by rewrite Hg |].
      destruct Hg as (k' & -> & H1 & H2). done. }
  destruct (kbd_exec k op) as [o1 k1], (queue_exec q op) as [o2 q1]. cbn [fst snd] in Hs. destruct Hs as (-> & H1 & H2).
  specialize (IH k1 q1 H1 H2). destruct (exec_all kbd_exec k1 ops), (exec_all queue_exec q1 ops). cbn [fst snd] in *.
  destruct IH as [-> ?]. done.
Qed.

Lemma boot_rep : kbd_rep kbd_boot [].
Proof. split; [reflexivity | split; [discriminate | reflexivity] | cbn; lia | reflexivity | reflexivity]. Defined.

Lemma kbd_refines_queue_witness :
  (exec_all kbd_exec kbd_boot [PushChar 104; PushChar 105; GetChar; GetChar; GetChar]).1 = [None; None; Some 104; Some 105; Some (-1)].
Proof.
  destruct (kbd_refines_queue kbd_boot [] [PushChar 104; PushChar 105; GetChar; GetChar; GetChar] boot_rep eq_refl) as [E _].
  exact E.
Defined.

(** * What can be typed *)

(** The make code of a character and whether shift is held. *)
Definition key_of (c : Z) : option (Z * bool) :=
  match find (fun p => p.2 =? c) scancode_to_ascii with
  | Some p => Some (p.1, false)
  | None => match find (fun p => p.2 =? c) scancode_to_ascii_shifted with Some p => Some (p.1, true) | None => None end
  end.

Definition press (k : kbd) (p : Z * bool) : kbd :=
  if p.2 then keyboard_handler (keyboard_handler (keyboard_handler k KEY_LSHIFT) p.1) (Z.lor KEY_LSHIFT 0x80)
  else keyboard_handler k p.1.

Definition plain_key (key : Z) : bool :=
  (Z.land key 0x80 =? 0) && (Z.land key 0x7F =? key) && negb (key =? KEY_LCONTROL) && negb (key =? KEY_RCONTROL) &&
  negb (key =? KEY_CAPSLOCK) && negb (is_shift key).

Lemma keys_ok :
  forallb (fun c => match key_of c with
                    | Some p => plain_key p.1 && (get_ascii_char (with_mods kbd_boot p.2 false false) p.1 =? c)
                    | None => false
                    end) (Z.of_nat <$> seq 32 95) = true.
Proof. vm_compute. reflexivity. Qed.

Lemma key_of_ok (c : Z) : 32 <= c < 127 ->
  exists key sh, key_of c = Some (key, sh) /\ plain_key key = true /\ get_ascii_char (with_mods kbd_boot sh false false) key = c.
Proof.
  intros Hc. pose proof keys_ok as Hf. rewrite forallb_forall in Hf. specialize (Hf c).
  assert (Hin : In c (Z.of_nat <$> seq 32 95)).
  { apply list_elem_of_In, list_elem_of_fmap. exists (Z.to_nat c). split; [lia | apply elem_of_seq; lia]. }
  specialize (Hf Hin). destruct (key_of c) as [[key sh]|]; [| done]. cbn [fst snd] in Hf.
  apply andb_true_iff in Hf as [H1 H2%Z.eqb_eq]. by exists key, sh.
Qed.

(** A key that is no modifier, pressed without control. *)
Lemma handler_plain (k : kbd) (q : list Z) (key c : Z) :
  kbd_rep k q -> (length q < 255)%nat -> caps_lock k = false -> ctrl_down k = false -> prompt_enabled k = false ->
  plain_key key = true -> get_ascii_char (with_mods kbd_boot (shift_down k) false false) key = c -> c <> 0 ->
  keyboard_handler k key = kbd_buffer_push k c /\ kbd_rep (kbd_buffer_push k c) (q ++ [c]).
Proof.
  intros Hr Hq Hcl Hct Hp Hk Hg Hc. split.
  - unfold plain_key in Hk. rewrite !andb_true_iff, !negb_true_iff, !Z.eqb_eq in Hk. destruct Hk as (((((H1 & H2) & H3) & H4) & H5) & H6).
    unfold keyboard_handler. rewrite H1, H2, H3, H4, H5, H6, Hct. cbn [Z.eqb negb orb andb].
    assert (Ea : get_ascii_char k key = c) by (rewrite <- Hg; unfold get_ascii_char; cbn [with_mods shift_down caps_lock]; by rewrite Hcl).
    unfold emit. rewrite Ea, Hp. by replace (c =? 0) with false by lia.
  - destruct (push_rep k q c Hr) as [H _]. by replace (length q <? 255)%nat with true in H by (symmetry; apply Nat.ltb_lt; lia).
Qed.

(** Pushing a character leaves the modifiers; changing those leaves the queue. *)
Lemma push_mods (k : kbd) (c : Z) :
  shift_down (kbd_buffer_push k c) = shift_down k /\ caps_lock (kbd_buffer_push k c) = caps_lock k /\
  ctrl_down (kbd_buffer_push k c) = ctrl_down k.
Proof. unfold kbd_buffer_push. by destruct (negb _). Qed.

Lemma mods_rep (k : kbd) (q : list Z) (s c t : bool) : kbd_rep k q -> kbd_rep (with_mods k s c t) q.
Proof. by intros []. Qed.

Lemma handler_shift (k : kbd) :
  keyboard_handler k KEY_LSHIFT = with_mods k true (caps_lock k) (ctrl_down k) /\
  keyboard_handler k (Z.lor KEY_LSHIFT 0x80) = with_mods k false (caps_lock k) (ctrl_down k).
Proof. unfold keyboard_handler. cbn. rewrite !andb_false_r. done. Qed.

(** Every printable character can be typed: its key, pressed with shift held where it is
    needed, puts exactly that character at the end of the queue and leaves the modifiers as
    they were. *)
Theorem keyboard_types (k : kbd) (q : list Z) (c : Z) :
  kbd_rep k q -> (length q < 255)%nat -> shift_down k = false -> caps_lock k = false -> ctrl_down k = false ->
  prompt_enabled k = false -> 32 <= c < 127 ->
  exists p, key_of c = Some p /\ kbd_rep (press k p) (q ++ [c]) /\
    shift_down (press k p) = false /\ caps_lock (press k p) = false /\ ctrl_down (press k p) = false.
Proof.
  intros Hr Hq Hs Hcl Hct Hp Hc. destruct (key_of_ok c Hc) as (key & sh & E & Hk & Hg). exists (key, sh). split; [done |].
  unfold press. cbn [fst snd]. destruct sh.
  - rewrite (proj1 (handler_shift k)), Hcl, Hct. set (k1 := with_mods k true false false).
    destruct (handler_plain k1 q key c (mods_rep k q _ _ _ Hr) Hq eq_refl eq_refl Hp Hk Hg ltac:(lia)) as [-> Hr1].
    rewrite (proj2 (handler_shift _)). split; [by apply mods_rep |]. destruct (push_mods k1 c) as (_ & H2 & H3). done.
  - destruct (handler_plain k q key c Hr Hq Hcl Hct Hp Hk ltac:(by rewrite Hs) ltac:(lia)) as [-> Hr1]. split; [done |].
    destruct (push_mods k c) as (-> & -> & ->). done.
Qed.

Lemma keyboard_types_witness :
  exists p, key_of 33 = Some p /\ kbd_rep (press kbd_boot p) [33].
Proof.
  destruct (keyboard_types kbd_boot [] 33 boot_rep) as (p & E & H & _); [cbn; lia | done | done | done | done | lia |].
  exists p. split; [exact E | exact H].
Defined.

(** Control is known to the PS/2 handler only: Ctrl+C on a USB keyboard types the letter. *)
Theorem usb_ctrl_c_types_c :
  (kbd_getchar (keyboard_handler (keyboard_handler kbd_boot KEY_LCONTROL) KEY_C)).1 = 3 /\
  (kbd_getchar (hid_kbd (hid_keyboard_input (mk_hid kbd_boot 0 (replicate 6 0)) [1; 0; 6; 0; 0; 0; 0; 0]))).1 = 99.
Proof. split; vm_compute; reflexivity. Qed.

(** The table has no entry for usage 0x32, so the entries behind it are one place too
    early: the keys for ; and ' give ' and nothing, those for comma and dot give dot and
    slash. *)
Theorem usb_table_shifted :
  usb_to_ps2 0x33 = 0x28 /\ usb_to_ps2 0x34 = 0x29 /\ usb_to_ps2 0x36 = KEY_DOT /\ usb_to_ps2 0x37 = KEY_FORESLHASH /\
  usb_to_ps2 0x38 = KEY_CAPSLOCK /\ usb_to_ps2 0x32 = KEY_SEMICOLON.
Proof. by vm_compute. Qed.
