(* ===== verification/Multiboot.v ===== *)
(** The boot information, src/boot/mb2p: the walk over the tags (mb2p_parse.c) and the queries
    on what it found (mb2p_fnc.c).  [blk] is the memory from [mb2_addr] on; a pointer into
    it is the address [mb] of the block plus an offset; an access outside is [Crash]. *)

From S2P Require Import Prelude Bytes Buffer.

Definition align_up (value alignment : Z) : Z := Z.land (u32 (value + alignment - 1)) (wnot 32 (alignment - 1)).

Record mb_mmap := mk_mmap { entry_count : Z; entry_size : Z; mm_entries : Z }.
Record mb_framebuffer := mk_mbfb {
  mf_addr : Z; mf_pitch : Z; mf_width : Z; mf_height : Z; mf_bpp : Z; mf_type : Z; mf_rgb : list Z
}.
Record mb_efi := mk_efi {
  system_table32 : Z; system_table64 : Z; efi_mmap : Z; efi_mmap_size : Z; mmap_desc_size : Z; mmap_desc_version : Z;
  image_handle32 : Z; image_handle64 : Z
}.

Record multiboot2_info := mk_info {
  cmdline : Z; boot_loader_name : Z; mem_lower : Z; mem_upper : Z;
  biosdev : Z; boot_partition : Z; sub_partition : Z;
  mmap : mb_mmap; framebuffer : mb_framebuffer; modules_count : Z;
  rsdpv1_addr : Z; rsdpv2_addr : Z; efi : mb_efi; load_base_addr : Z
}.

Definition empty_efi : mb_efi := mk_efi 0 0 0 0 0 0 0 0.

(** [multiboot2_init_info] *)
Definition multiboot2_init_info : multiboot2_info :=
  mk_info 0 0 0 0 0 0 0 (mk_mmap 0 0 0) (mk_mbfb 0 0 0 0 0 0 (replicate 6 0)) 0 0 0 empty_efi 0.

Definition with_texts (i : multiboot2_info) (c b : Z) : multiboot2_info :=
  mk_info c b (mem_lower i) (mem_upper i) (biosdev i) (boot_partition i) (sub_partition i) (mmap i) (framebuffer i)
    (modules_count i) (rsdpv1_addr i) (rsdpv2_addr i) (efi i) (load_base_addr i).
Definition with_meminfo (i : multiboot2_info) (l u : Z) : multiboot2_info :=
  mk_info (cmdline i) (boot_loader_name i) l u (biosdev i) (boot_partition i) (sub_partition i) (mmap i) (framebuffer i)
    (modules_count i) (rsdpv1_addr i) (rsdpv2_addr i) (efi i) (load_base_addr i).
Definition with_bootdev (i : multiboot2_info) (d p s : Z) : multiboot2_info :=
  mk_info (cmdline i) (boot_loader_name i) (mem_lower i) (mem_upper i) d p s (mmap i) (framebuffer i)
    (modules_count i) (rsdpv1_addr i) (rsdpv2_addr i) (efi i) (load_base_addr i).
Definition with_mmap (i : multiboot2_info) (m : mb_mmap) : multiboot2_info :=
  mk_info (cmdline i) (boot_loader_name i) (mem_lower i) (mem_upper i) (biosdev i) (boot_partition i) (sub_partition i) m
    (framebuffer i) (modules_count i) (rsdpv1_addr i) (rsdpv2_addr i) (efi i) (load_base_addr i).
Definition with_fb (i : multiboot2_info) (f : mb_framebuffer) : multiboot2_info :=
  mk_info (cmdline i) (boot_loader_name i) (mem_lower i) (mem_upper i) (biosdev i) (boot_partition i) (sub_partition i) (mmap i)
    f (modules_count i) (rsdpv1_addr i) (rsdpv2_addr i) (efi i) (load_base_addr i).
Definition with_modules (i : multiboot2_info) (n : Z) : multiboot2_info :=
  mk_info (cmdline i) (boot_loader_name i) (mem_lower i) (mem_upper i) (biosdev i) (boot_partition i) (sub_partition i) (mmap i)
    (framebuffer i) n (rsdpv1_addr i) (rsdpv2_addr i) (efi i) (load_base_addr i).
Definition with_acpi (i : multiboot2_info) (a b : Z) : multiboot2_info :=
  mk_info (cmdline i) (boot_loader_name i) (mem_lower i) (mem_upper i) (biosdev i) (boot_partition i) (sub_partition i) (mmap i)
    (framebuffer i) (modules_count i) a b (efi i) (load_base_addr i).
Definition with_efi (i : multiboot2_info) (e : mb_efi) : multiboot2_info :=
  mk_info (cmdline i) (boot_loader_name i) (mem_lower i) (mem_upper i) (biosdev i) (boot_partition i) (sub_partition i) (mmap i)
    (framebuffer i) (modules_count i) (rsdpv1_addr i) (rsdpv2_addr i) e (load_base_addr i).
Definition with_base (i : multiboot2_info) (b : Z) : multiboot2_info :=
  mk_info (cmdline i) (boot_loader_name i) (mem_lower i) (mem_upper i) (biosdev i) (boot_partition i) (sub_partition i) (mmap i)
    (framebuffer i) (modules_count i) (rsdpv1_addr i) (rsdpv2_addr i) (efi i) b.

(** The framebuffer tag at [o]. *)
Definition read_fb (blk : list Z) (o : Z) (old : mb_framebuffer) : outcome mb_framebuffer :=
  (do a <- fld blk (o + 8) 8; do p <- fld blk (o + 16) 4; do w <- fld blk (o + 20) 4; do h <- fld blk (o + 24) 4;
   do b <- fld blk (o + 28) 1; do ty <- fld blk (o + 29) 1;
   if ty =? 1 then
     do c0 <- fld blk (o + 31) 1; do c1 <- fld blk (o + 32) 1; do c2 <- fld blk (o + 33) 1;
     do c3 <- fld blk (o + 34) 1; do c4 <- fld blk (o + 35) 1; do c5 <- fld blk (o + 36) 1;
     Ret (mk_mbfb a p w h b ty [c0; c1; c2; c3; c4; c5])
   else Ret (mk_mbfb a p w h b ty (mf_rgb old)))%out.

(** The cases of the switch for a tag of type [ty] and size [size] at offset [o].
    Dividing by an entry size of 0 is an exception. *)
Definition tag_step (mb : Z) (blk : list Z) (o ty size : Z) (i : multiboot2_info) : outcome multiboot2_info :=
  (if ty =? 1 then Ret (with_texts i (mb + o + 8) (boot_loader_name i))
   else if ty =? 2 then Ret (with_texts i (cmdline i) (mb + o + 8))
   else if ty =? 3 then Ret (with_modules i (u32 (modules_count i + 1)))
   else if ty =? 4 then
     do l <- fld blk (o + 8) 4; do u <- fld blk (o + 12) 4; Ret (with_meminfo i l u)
   else if ty =? 5 then
     do d <- fld blk (o + 8) 4; do p <- fld blk (o + 12) 4; do s <- fld blk (o + 16) 4; Ret (with_bootdev i d p s)
   else if ty =? 6 then
     do es <- fld blk (o + 8) 4;
     if es =? 0 then Crash
     else Ret (with_mmap i (mk_mmap (u32 (size - 16 + 4) / es) es (mb + o + 16)))
   else if ty =? 8 then do f <- read_fb blk o (framebuffer i); Ret (with_fb i f)
   else if ty =? 14 then Ret (with_acpi i (u32 (mb + o + 8)) (rsdpv2_addr i))
   else if ty =? 15 then Ret (with_acpi i (rsdpv1_addr i) (u32 (mb + o + 8)))
   else if ty =? 11 then
     do p <- fld blk (o + 8) 4;
     Ret (with_efi i (mk_efi p (system_table64 (efi i)) (efi_mmap (efi i)) (efi_mmap_size (efi i)) (mmap_desc_size (efi i))
                        (mmap_desc_version (efi i)) (image_handle32 (efi i)) (image_handle64 (efi i))))
   else if ty =? 12 then
     do p <- fld blk (o + 8) 8;
     Ret (with_efi i (mk_efi (system_table32 (efi i)) p (efi_mmap (efi i)) (efi_mmap_size (efi i)) (mmap_desc_size (efi i))
                        (mmap_desc_version (efi i)) (image_handle32 (efi i)) (image_handle64 (efi i))))
   else if ty =? 17 then
     do ds <- fld blk (o + 8) 4; do dv <- fld blk (o + 12) 4;
     Ret (with_efi i (mk_efi (system_table32 (efi i)) (system_table64 (efi i)) (mb + o + 16) (u32 (size - 16)) ds dv
                        (image_handle32 (efi i)) (image_handle64 (efi i))))
   else if ty =? 19 then
     do p <- fld blk (o + 8) 4;
     Ret (with_efi i (mk_efi (system_table32 (efi i)) (system_table64 (efi i)) (efi_mmap (efi i)) (efi_mmap_size (efi i))
                        (mmap_desc_size (efi i)) (mmap_desc_version (efi i)) p (image_handle64 (efi i))))
   else if ty =? 20 then
     do p <- fld blk (o + 8) 8;
     Ret (with_efi i (mk_efi (system_table32 (efi i)) (system_table64 (efi i)) (efi_mmap (efi i)) (efi_mmap_size (efi i))
                        (mmap_desc_size (efi i)) (mmap_desc_version (efi i)) (image_handle32 (efi i)) p))
   else if ty =? 21 then do b <- fld blk (o + 8) 4; Ret (with_base i b)
   else Ret i)%out.

(** The loop that both walks have, with what they do at a tag. *)
Fixpoint tag_loop (fuel : nat) (blk : list Z) (total o : Z) (step : Z -> Z -> Z -> multiboot2_info -> outcome multiboot2_info)
    (i : multiboot2_info) : outcome multiboot2_info :=
  match fuel with
  | O => Crash
  | S fuel' =>
      (do ty <- fld blk o 4;
       if negb (ty =? 0) && (o <? total) then
         do size <- fld blk (o + 4) 4;
         do i <- step o ty size i;
         tag_loop fuel' blk total (o + align_up size 8) step i
       else Ret i)%out
  end.

(** A tag takes at least 8 of the bytes. *)
Definition multiboot2_parse (mb : Z) (blk : list Z) (i : multiboot2_info) : outcome multiboot2_info :=
  (do total <- fld blk 0 4;
   tag_loop (S (Z.to_nat (total / 8))) blk total 8 (tag_step mb blk) i)%out.

Definition multiboot2_collect_modules (blk : list Z) (i : multiboot2_info) : outcome (Z * multiboot2_info) :=
  (let i := with_modules i 0 in
   do total <- fld blk 0 4;
   do i <- tag_loop (S (Z.to_nat (total / 8))) blk total 8
             (fun _ ty _ i => Ret (if ty =? 3 then with_modules i (u32 (modules_count i + 1)) else i)) i;
   Ret (i32 (modules_count i), i))%out.

(** * Queries

    The entries of the memory map are read as structures of 24 bytes. *)

Definition MULTIBOOT2_MMAP_AVAILABLE : Z := 1.

Record memory_region := mk_region { base_addr : Z; rlength : Z; rtype : Z }.

Definition mmap_entry (mb : Z) (blk : list Z) (i : multiboot2_info) (n : Z) : outcome memory_region :=
  (let o := mm_entries (mmap i) - mb + 24 * n in
   do a <- fld blk o 8; do l <- fld blk (o + 8) 8; do t <- fld blk (o + 16) 4; Ret (mk_region a l t))%out.

Definition has_map (i : multiboot2_info) : bool := negb (mm_entries (mmap i) =? 0) && (0 <? entry_count (mmap i)).

(** The loop that adds up the available entries. *)
Definition sum_available (mb : Z) (blk : list Z) (i : multiboot2_info) : outcome Z :=
  ofor_from 0 (Z.to_nat (entry_count (mmap i))) (fun n total =>
    do e <- mmap_entry mb blk i n;
    Ret (if rtype e =? MULTIBOOT2_MMAP_AVAILABLE then u64 (total + rlength e) else total))%out 0.

Definition multiboot2_get_total_memory (mb : Z) (blk : list Z) (i : multiboot2_info) : outcome Z :=
  (let total := if 0 <? mem_upper i then 1024 * 1024 + mem_upper i * 1024 else 0 in
   if has_map i then
     do mmap_total <- sum_available mb blk i;
     Ret (if total <? mmap_total then mmap_total else total)
   else Ret total)%out.

Definition multiboot2_get_memory_regions (mb : Z) (blk : list Z) (i : multiboot2_info) (max_regions : Z)
    : outcome (list memory_region) :=
  if max_regions =? 0 then Ret []
  else if has_map i then
    ofor_from 0 (Z.to_nat (Z.min (entry_count (mmap i)) max_regions)) (fun n rs =>
      do e <- mmap_entry mb blk i n; Ret (rs ++ [e]))%out []
  else
    let low := if 0 <? mem_lower i then [mk_region 0 (mem_lower i * 1024) MULTIBOOT2_MMAP_AVAILABLE] else [] in
    let high := if (0 <? mem_upper i) && (Z.of_nat (length low) <? max_regions)
                then [mk_region (1024 * 1024) (mem_upper i * 1024) MULTIBOOT2_MMAP_AVAILABLE] else [] in
    Ret (low ++ high).

Definition multiboot2_get_usable_memory (mb : Z) (blk : list Z) (i : multiboot2_info) : outcome Z :=
  if has_map i then sum_available mb blk i
  else
    let total := if 0 <? mem_lower i then mem_lower i * 1024 else 0 in
    let total := if 0 <? mem_upper i then total + mem_upper i * 1024 else total in
    Ret (total + 1024 * 1024).

Definition multiboot2_get_boot_disk (i : multiboot2_info) : Z := u8 (Z.land (biosdev i) 0xFF).
Definition multiboot2_get_boot_partition (i : multiboot2_info) : Z := boot_partition i.

(** * The command line

    A string is the list of its characters; [None] is NULL. *)

Definition get_cmdline (line : option (list Z)) : option (list Z) :=
  match line with Some (c :: l) => Some (c :: l) | _ => None end.

Fixpoint is_prefix (p l : list Z) : bool :=
  match p, l with
  | [], _ => true
  | x :: p', y :: l' => (x =? y) && is_prefix p' l'
  | _, [] => false
  end.

(** What follows the leftmost occurrence of [p]: [strstr] and the step over it. *)
Fixpoint after (p l : list Z) : option (list Z) :=
  if is_prefix p l then Some (drop (length p) l)
  else match l with [] => None | _ :: l' => after p l' end.

(** The value up to a blank, at most 255 characters. *)
Fixpoint value_of (n : nat) (l : list Z) : list Z :=
  match n, l with
  | S n', c :: l' => if (c =? 32) || (c =? 9) || (c =? 10) then [] else c :: value_of n' l'
  | _, _ => []
  end.

Definition get_cmdline_param (line : option (list Z)) (param : list Z) : option (list Z) :=
  match get_cmdline line with
  | None => None
  | Some l => option_map (value_of 255) (after (take 63 (param ++ [61])) l)
  end.

(** "root" and "UUID=" *)
Definition ROOT : list Z := [114; 111; 111; 116].
Definition UUID : list Z := [85; 85; 73; 68; 61].

Definition get_root_uuid (line : option (list Z)) : option (list Z) :=
  match get_cmdline_param line ROOT with
  | None => None
  | Some root => Some (if is_prefix UUID root then drop 5 root else root)
  end.
