(* ===== verification/MultibootSpec.v ===== *)
(** Properties of the boot information (Multiboot.v): the walk visits every tag once, the
    memory map is read as it was written, parameters of the command line are found, and
    where the walk does not end. *)

From S2P Require Import Prelude Bytes Buffer Multiboot.

(** * Blocks of tags *)

(** A tag is its type and the bytes behind its header; it is padded to 8 bytes. *)
Definition tag_bytes (t : Z * list Z) : list Z :=
  let size := 8 + Z.of_nat (length t.2) in
  le_bytes 4 t.1 ++ le_bytes 4 size ++ t.2 ++ replicate (Z.to_nat ((- size) mod 8)) 0.

Definition end_tag : list Z := le_bytes 4 0 ++ le_bytes 4 8.

Definition tags_bytes (ts : list (Z * list Z)) : list Z := concat (tag_bytes <$> ts).

Definition boot_block (ts : list (Z * list Z)) (rest : list Z) : list Z :=
  le_bytes 4 (16 + Z.of_nat (length (tags_bytes ts))) ++ le_bytes 4 0 ++ tags_bytes ts ++ end_tag ++ rest.

Definition tag_ok (t : Z * list Z) : Prop := 0 < t.1 < 2 ^ 32 /\ Z.of_nat (length t.2) < 2 ^ 31.

(** The tags in their order, each at its offset. *)
Fixpoint visit (step : Z -> Z -> Z -> multiboot2_info -> outcome multiboot2_info) (o : Z) (ts : list (Z * list Z))
    (i : multiboot2_info) : outcome multiboot2_info :=
  match ts with
  | [] => Ret i
  | t :: ts' => (do i <- step o t.1 (8 + Z.of_nat (length t.2)) i; visit step (o + Z.of_nat (length (tag_bytes t))) ts' i)%out
  end.

Lemma align8 (v : Z) : 0 <= v < 2 ^ 32 - 7 -> align_up v 8 = v + (- v) mod 8.
Proof.
  intros Hv. unfold align_up. rewrite wrap_small by (split; lia). replace (v + 8 - 1) with (v + 7) by lia.
  assert (E : Z.land (v + 7) (wnot 32 (8 - 1)) = (v + 7) / 8 * 8).
  { change ((v + 7) / 8 * 8) with ((v + 7) / 2 ^ 3 * 2 ^ 3). rewrite <- Z.shiftr_div_pow2, <- Z.shiftl_mul_pow2 by lia.
    apply Z.bits_inj'. intros j Hj. rewrite Z.land_spec. change (wnot 32 (8 - 1)) with (Z.shiftl (Z.ones 29) 3).
    destruct (Z.ltb_spec j 3); [rewrite !Z.shiftl_spec_low by lia; apply andb_false_r |].
    rewrite !Z.shiftl_spec, Z.shiftr_spec by lia. replace (j - 3 + 3) with j by lia.
    destruct (Z.ltb_spec (j - 3) 29); [rewrite Z.ones_spec_low by lia; apply andb_true_r |].
    rewrite (fits_testbit 32 (v + 7)); [done | lia | split; lia | lia]. }
  rewrite E. dlia.
Qed.

Lemma length_tag (t : Z * list Z) : Z.of_nat (length (tag_bytes t)) = 8 + Z.of_nat (length t.2) + (- (8 + Z.of_nat (length t.2))) mod 8.
Proof.
  unfold tag_bytes. cbv zeta. rewrite !length_app, !length_le_bytes, length_replicate.
  pose proof (Z.mod_pos_bound (- (8 + Z.of_nat (length t.2))) 8 ltac:(lia)). lia.
Qed.

Lemma fld_app (pre l : list Z) (k : Z) (n : nat) : 0 <= k -> fld (pre ++ l) (Z.of_nat (length pre) + k) n = fld l k n.
Proof.
  intros Hk. unfold fld. rewrite length_app. replace ((0 <=? _) && (_ <=? Z.of_nat (length pre + length l)))
    with ((0 <=? k) && (k + Z.of_nat n <=? Z.of_nat (length l))) by lia.
  destruct (_ && _); [| done]. unfold field. rewrite drop_app_ge by lia. do 4 f_equal. lia.
Qed.

Lemma fld_0 (v : Z) (n : nat) (l : list Z) : fits (8 * Z.of_nat n) v -> fld (le_bytes n v ++ l) 0 n = Ret v.
Proof.
  intros Hv. unfold fld. rewrite length_app, length_le_bytes. replace ((0 <=? 0) && _) with true by lia.
  unfold field. change (Z.to_nat 0) with O. rewrite drop_0, take_app_le, take_ge by (rewrite length_le_bytes; lia).
  by rewrite le_val_bytes.
Qed.

Lemma fld_mid (pre l : list Z) (v : Z) (n : nat) (o : Z) :
  o = Z.of_nat (length pre) -> fits (8 * Z.of_nat n) v -> fld (pre ++ le_bytes n v ++ l) o n = Ret v.
Proof. intros -> Hv. rewrite <- (Z.add_0_r (Z.of_nat (length pre))). rewrite fld_app by lia. by apply fld_0. Qed.

(** The loop on a block whose remaining tags are known. *)
Lemma tag_loop_visits (step : Z -> Z -> Z -> multiboot2_info -> outcome multiboot2_info) (rest : list Z) (total : Z)
    (ts : list (Z * list Z)) (pre : list Z) (fuel : nat) (i : multiboot2_info) :
  Forall tag_ok ts -> total = Z.of_nat (length pre) + Z.of_nat (length (tags_bytes ts)) + 8 -> (length ts < fuel)%nat ->
  tag_loop fuel (pre ++ tags_bytes ts ++ end_tag ++ rest) total (Z.of_nat (length pre)) step i =
  visit step (Z.of_nat (length pre)) ts i.
Proof.
  intros HF. revert pre fuel i. induction HF as [|t ts [Ht Hl] _ IH]; intros pre fuel i Htot Hf; (destruct fuel as [|fuel]; [lia |]); cbn [tag_loop visit].
  - cbn [tags_bytes fmap list_fmap concat app]. unfold end_tag. rewrite <- app_assoc. rewrite fld_mid by (done || by split). done.
  - cbn [tags_bytes fmap list_fmap concat] in *. fold (tags_bytes ts) in *. rewrite length_app in Htot.
    set (blk := pre ++ _). assert (Eb : blk = (pre ++ tag_bytes t) ++ tags_bytes ts ++ end_tag ++ rest) by (unfold blk; by rewrite <- !app_assoc).
    set (size := 8 + Z.of_nat (length t.2)) in *.
    assert (E1 : fld blk (Z.of_nat (length pre)) 4 = Ret t.1).
    { unfold blk, tag_bytes. rewrite <- !app_assoc. apply fld_mid; [done | split; lia]. }
    assert (E2 : fld blk (Z.of_nat (length pre) + 4) 4 = Ret size).
    { unfold blk, tag_bytes. fold size. rewrite <- !app_assoc, (app_assoc pre). apply fld_mid; [rewrite length_app, length_le_bytes; lia |].
      unfold size. split; lia. }
    rewrite E1. cbn [obind]. replace (t.1 =? 0) with false by lia. replace (_ <? total) with true by lia. cbn [negb andb].
    rewrite E2. cbn [obind]. destruct (step _ _ _ i) as [i'| |]; [| done | done]. cbn [obind].
    rewrite align8 by (unfold size; lia). fold size in IH. pose proof (length_tag t) as Lt. fold size in Lt.
    replace (Z.of_nat (length pre) + (size + (- size) mod 8)) with (Z.of_nat (length (pre ++ tag_bytes t))) by (rewrite length_app; lia).
    rewrite Eb. rewrite IH; [| rewrite length_app; lia | cbn [length] in Hf; lia].
    by replace (Z.of_nat (length (pre ++ tag_bytes t))) with (Z.of_nat (length pre) + Z.of_nat (length (tag_bytes t))) by (rewrite length_app; lia).
Qed.

Lemma tags_length (ts : list (Z * list Z)) : 8 * Z.of_nat (length ts) <= Z.of_nat (length (tags_bytes ts)).
Proof.
  induction ts as [|t ts IH]; [done |]. unfold tags_bytes in *. cbn [fmap list_fmap concat length]. rewrite length_app.
  pose proof (length_tag t). pose proof (Z.mod_pos_bound (- (8 + Z.of_nat (length t.2))) 8 ltac:(lia)). lia.
Qed.

Lemma parse_visits (mb : Z) (ts : list (Z * list Z)) (rest : list Z) (i : multiboot2_info) :
  Forall tag_ok ts -> 16 + Z.of_nat (length (tags_bytes ts)) < 2 ^ 32 ->
  multiboot2_parse mb (boot_block ts rest) i = visit (tag_step mb (boot_block ts rest)) 8 ts i.
Proof.
  intros HF Hlen. unfold multiboot2_parse. set (total := 16 + Z.of_nat (length (tags_bytes ts))) in *.
  assert (E : fld (boot_block ts rest) 0 4 = Ret total) by (apply fld_0; split; lia). rewrite E. cbn [obind].
  set (step := tag_step mb (boot_block ts rest)). clearbody step. pose proof (tags_length ts).
  assert (Hfuel : Z.of_nat (length ts) <= total / 8) by (apply Z.div_le_lower_bound; unfold total; lia).
  unfold boot_block. fold total. rewrite app_assoc.
  exact (tag_loop_visits step rest total ts (le_bytes 4 total ++ le_bytes 4 0) (S (Z.to_nat (total / 8))) i HF ltac:(cbn; lia) ltac:(lia)).
Qed.

(** On a well-formed block the walk ends after the last tag and has taken every tag
    exactly once, in order, whatever the tags are; no byte behind the end tag is looked
    at. *)
Theorem multiboot2_parse_visits (mb : Z) (ts : list (Z * list Z)) (rest : list Z) (i : multiboot2_info) :
  Forall tag_ok ts -> 16 + Z.of_nat (length (tags_bytes ts)) < 2 ^ 32 ->
  multiboot2_parse mb (boot_block ts rest) i = visit (tag_step mb (boot_block ts rest)) 8 ts i.
Proof. apply parse_visits. Qed.

(** * A tag without a size *)

(** A module tag of size 0 makes both walks endless: the next tag is the same one,
    whatever the number of steps. *)
Theorem multiboot2_parse_endless (mb : Z) (blk : list Z) (total : Z) (fuel : nat) (i : multiboot2_info) :
  fld blk 8 4 = Ret 3 -> fld blk 12 4 = Ret 0 -> 8 < total ->
  tag_loop fuel blk total 8 (tag_step mb blk) i = Crash /\
  tag_loop fuel blk total 8 (fun _ ty _ i => Ret (if ty =? 3 then with_modules i (u32 (modules_count i + 1)) else i)) i = Crash.
Proof.
  intros E1 E2 Ht. revert i. induction fuel as [|fuel IH]; intros i; [done |]. cbn [tag_loop]. rewrite E1. cbn [obind].
  change (negb (3 =? 0)) with true. replace (8 <? total) with true by lia. cbn [andb]. change (8 + 4) with 12. rewrite E2. cbn [obind].
  change (8 + align_up 0 8) with 8. change (tag_step mb blk 8 3 0 i) with (Ret (with_modules i (u32 (modules_count i + 1)))). cbn [obind].
  split; apply IH.
Qed.

(** * The memory map *)

Definition entry_bytes (r : memory_region) : list Z := le_bytes 8 (base_addr r) ++ le_bytes 8 (rlength r) ++ le_bytes 4 (rtype r) ++ le_bytes 4 0.

(** A memory map tag with entries of 24 bytes. *)
Definition mmap_tag (rs : list memory_region) : Z * list Z := (6, le_bytes 4 24 ++ le_bytes 4 0 ++ concat (entry_bytes <$> rs)).

Definition region_ok (r : memory_region) : Prop := fits 64 (base_addr r) /\ fits 64 (rlength r) /\ fits 32 (rtype r).

Fixpoint available (rs : list memory_region) : Z :=
  match rs with
  | [] => 0
  | r :: rs' => (if rtype r =? MULTIBOOT2_MMAP_AVAILABLE then rlength r else 0) + available rs'
  end.

Lemma length_entries (rs : list memory_region) : length (concat (entry_bytes <$> rs)) = (24 * length rs)%nat.
Proof. induction rs as [|r rs IH]; [done |]. cbn [fmap list_fmap concat]. rewrite length_app. fold (entry_bytes <$> rs). cbn [length]. rewrite IH. cbn. lia. Qed.

(** The entries are read back at their places. *)
Lemma mmap_entry_ok (mb : Z) (pre rest : list Z) (rs1 rs2 : list memory_region) (r : memory_region) (i : multiboot2_info) :
  region_ok r -> mm_entries (mmap i) = mb + Z.of_nat (length pre) ->
  mmap_entry mb (pre ++ concat (entry_bytes <$> (rs1 ++ r :: rs2)) ++ rest) i (Z.of_nat (length rs1)) = Ret r.
Proof.
  intros (H1 & H2 & H3) Ei. unfold mmap_entry. rewrite Ei. replace (mb + Z.of_nat (length pre) - mb) with (Z.of_nat (length pre)) by lia.
  rewrite fmap_app, fmap_cons, concat_app. cbn [concat]. set (l1 := concat (entry_bytes <$> rs1)).
  set (l2 := concat (entry_bytes <$> rs2)). set (pre' := pre ++ l1).
  assert (Lp : Z.of_nat (length pre') = Z.of_nat (length pre) + 24 * Z.of_nat (length rs1)).
  { unfold pre', l1. rewrite length_app, length_entries. lia. }
  assert (Eb : pre ++ (l1 ++ entry_bytes r ++ l2) ++ rest = pre' ++ le_bytes 8 (base_addr r) ++ le_bytes 8 (rlength r) ++ le_bytes 4 (rtype r) ++ le_bytes 4 0 ++ l2 ++ rest).
  { unfold pre', entry_bytes. by rewrite <- !app_assoc. }
  rewrite Eb, <- Lp, fld_mid by done. cbn [obind]. rewrite (app_assoc pre'), fld_mid by (done || rewrite length_app, length_le_bytes; lia).
  cbn [obind]. rewrite (app_assoc (pre' ++ _)), fld_mid by (done || rewrite !length_app, !length_le_bytes; lia). cbn [obind]. by destruct r.
Qed.

Lemma sum_available_ok (mb : Z) (pre rest : list Z) (rs : list memory_region) (i : multiboot2_info) :
  Forall region_ok rs -> mm_entries (mmap i) = mb + Z.of_nat (length pre) -> entry_count (mmap i) = Z.of_nat (length rs) ->
  available rs < 2 ^ 64 ->
  sum_available mb (pre ++ concat (entry_bytes <$> rs) ++ rest) i = Ret (available rs).
Proof.
  intros HF Ei Ec Hs. unfold sum_available. rewrite Ec, Nat2Z.id. set (blk := pre ++ _).
  cut (forall rs2 rs1 acc, rs = rs1 ++ rs2 -> 0 <= acc -> acc + available rs2 < 2 ^ 64 ->
    ofor_from (Z.of_nat (length rs1)) (length rs2) (fun n total =>
      do e <- mmap_entry mb blk i n;
      Ret (if rtype e =? MULTIBOOT2_MMAP_AVAILABLE then u64 (total + rlength e) else total))%out acc = Ret (acc + available rs2)).
  { intros Hc. exact (Hc rs [] 0 eq_refl ltac:(lia) ltac:(lia)). }
  induction rs2 as [|r rs2 IH]; intros rs1 acc Er Ha Hb; [cbn; by rewrite Z.add_0_r |].
  assert (Hav : forall l, Forall region_ok l -> 0 <= available l).
  { induction 1 as [|x l (_ & [Hx _] & _) _ IHl]; [done |]. cbn [available]. destruct (_ =? _); lia. }
  assert (Hok : Forall region_ok (r :: rs2)) by (rewrite Er in HF; by apply Forall_app in HF as [_ ?]).
  apply Forall_cons in Hok as [Hr Hrs2]. specialize (Hav rs2 Hrs2). cbn [length ofor_from available] in *.
  assert (E : mmap_entry mb blk i (Z.of_nat (length rs1)) = Ret r) by (unfold blk; rewrite Er; by apply mmap_entry_ok).
  rewrite E. cbn [obind]. specialize (IH (rs1 ++ [r])). rewrite <- app_assoc, length_app in IH. cbn [app length] in IH.
  replace (Z.of_nat (length rs1) + 1) with (Z.of_nat (length rs1 + 1)) by lia. destruct Hr as (_ & [Hr0 _] & _).
  destruct (rtype r =? MULTIBOOT2_MMAP_AVAILABLE); [rewrite wrap_small by (split; lia) |]; rewrite IH by (done || lia); f_equal; lia.
Qed.

Lemma visit_app (step : Z -> Z -> Z -> multiboot2_info -> outcome multiboot2_info) (o : Z) (ts1 ts2 : list (Z * list Z)) (i : multiboot2_info) :
  visit step o (ts1 ++ ts2) i = (do i <- visit step o ts1 i; visit step (o + Z.of_nat (length (tags_bytes ts1))) ts2 i)%out.
Proof.
  revert o i. induction ts1 as [|t ts1 IH]; intros o i; cbn [app visit]; [unfold tags_bytes; cbn; by rewrite Z.add_0_r |].
  destruct (step _ _ _ i) as [i'| |]; [| done | done]. cbn [obind]. rewrite IH. unfold tags_bytes. rewrite fmap_cons. cbn [concat].
  by rewrite length_app, Nat2Z.inj_add, Z.add_assoc.
Qed.

(** Where the entries of the last tag are in the block. *)
Lemma mmap_block (ts : list (Z * list Z)) (rs : list memory_region) (rest : list Z) :
  exists pre post, boot_block (ts ++ [mmap_tag rs]) rest = pre ++ concat (entry_bytes <$> rs) ++ post /\
    Z.of_nat (length pre) = 8 + Z.of_nat (length (tags_bytes ts)) + 16 /\
    exists l, boot_block (ts ++ [mmap_tag rs]) rest = take (length pre - 8) pre ++ le_bytes 4 24 ++ l.
Proof.
  unfold boot_block, tags_bytes. rewrite fmap_app, concat_app. cbn [fmap list_fmap concat]. fold (tags_bytes ts).
  unfold mmap_tag, tag_bytes. cbn [fst snd]. cbv zeta.
  match goal with |- context [le_bytes 4 (16 + ?n)] => set (T := le_bytes 4 (16 + n)) end.
  match goal with |- context [replicate ?n 0] => set (P := replicate n 0) end.
  match goal with |- context [le_bytes 4 (8 + ?n)] => set (Q := le_bytes 4 (8 + n)) end.
  set (hd := T ++ le_bytes 4 0 ++ tags_bytes ts ++ le_bytes 4 6 ++ Q).
  assert (Lhd : Z.of_nat (length hd) = 16 + Z.of_nat (length (tags_bytes ts))).
  { unfold hd, T, Q. rewrite !length_app, !length_le_bytes. lia. }
  exists (hd ++ le_bytes 4 24 ++ le_bytes 4 0), (P ++ end_tag ++ rest).
  assert (E : T ++ le_bytes 4 0 ++ (tags_bytes ts ++ (le_bytes 4 6 ++ Q ++ (le_bytes 4 24 ++ le_bytes 4 0 ++ concat (entry_bytes <$> rs)) ++ P) ++ []) ++ end_tag ++ rest =
              hd ++ le_bytes 4 24 ++ le_bytes 4 0 ++ concat (entry_bytes <$> rs) ++ P ++ end_tag ++ rest).
  { unfold hd. rewrite app_nil_r. by rewrite <- !app_assoc. }
  split; [etransitivity; [exact E |]; by rewrite <- !app_assoc |]. rewrite !length_app, !length_le_bytes. split; [lia |].
  eexists. etransitivity; [exact E |]. replace (length hd + (4 + 4) - 8)%nat with (length hd) by lia. by rewrite take_app_length.
Qed.

(** C33: The memory of a map is what its available regions add up to: when the last tag of a
    well-formed block is a map of 24-byte entries, the parsed information has their number,
    and the usable memory is the sum of the lengths of the available ones. *)
Theorem multiboot2_usable_memory (mb : Z) (ts : list (Z * list Z)) (rs : list memory_region) (rest : list Z) (i i1 : multiboot2_info) :
  let blk := boot_block (ts ++ [mmap_tag rs]) rest in
  0 < mb -> Forall tag_ok ts -> rs <> [] -> Forall region_ok rs -> available rs < 2 ^ 64 ->
  16 + Z.of_nat (length (tags_bytes (ts ++ [mmap_tag rs]))) < 2 ^ 31 ->
  visit (tag_step mb blk) 8 ts i = Ret i1 ->
  exists i2, multiboot2_parse mb blk i = Ret i2 /\ entry_count (mmap i2) = Z.of_nat (length rs) /\
    multiboot2_get_usable_memory mb blk i2 = Ret (available rs).
Proof.
  intros blk Hmb HF Hne Hrs Hav Hlen Hv.
  assert (Hl2 : Z.of_nat (length (mmap_tag rs).2) = 8 + 24 * Z.of_nat (length rs)).
  { cbn [mmap_tag snd]. rewrite !length_app, !length_le_bytes, length_entries. lia. }
  assert (Hsz : Z.of_nat (length (tags_bytes (ts ++ [mmap_tag rs]))) = Z.of_nat (length (tags_bytes ts)) + Z.of_nat (length (tag_bytes (mmap_tag rs)))).
  { unfold tags_bytes. rewrite fmap_app, concat_app, length_app. cbn [fmap list_fmap concat]. rewrite app_nil_r. lia. }
  pose proof (length_tag (mmap_tag rs)) as Ht. rewrite Hl2 in Ht.
  pose proof (Z.mod_pos_bound (- (8 + (8 + 24 * Z.of_nat (length rs)))) 8 ltac:(lia)).
  destruct (mmap_block ts rs rest) as (pre & post & Eb & Lp & l & El). fold blk in Eb, El.
  set (o := 8 + Z.of_nat (length (tags_bytes ts))) in *.
  assert (Ees : fld blk (o + 8) 4 = Ret 24).
  { rewrite El. apply fld_mid; [rewrite length_take; lia | by split]. }
  assert (Ep : multiboot2_parse mb blk i = Ret (with_mmap i1 (mk_mmap (Z.of_nat (length rs)) 24 (mb + o + 16)))).
  { unfold blk at 1. rewrite parse_visits; [| apply Forall_app; split; [done |]; by repeat constructor; cbn [fst]; lia | lia].
    fold blk. rewrite visit_app, Hv. cbn [obind visit].
    fold o. cbn [mmap_tag fst]. unfold tag_step. cbn [Z.eqb Pos.eqb]. rewrite Ees. cbn [obind Z.eqb]. do 3 f_equal.
    rewrite Hl2, wrap_small by (split; lia). symmetry. apply Z.div_unique with 4; lia. }
  eexists. split; [exact Ep |]. split; [done |]. unfold multiboot2_get_usable_memory, has_map. cbn [with_mmap mmap mm_entries entry_count].
  destruct rs as [|r rs]; [done |]. replace (negb _ && _) with true by (cbn [length]; lia). rewrite Eb.
  apply sum_available_ok; [done | cbn [with_mmap mmap mm_entries]; lia | done | done].
Qed.

(** * The command line *)

Lemma is_prefix_app (p l : list Z) : is_prefix p (p ++ l) = true.
Proof. induction p as [|x p IH]; [done |]. cbn. by rewrite Z.eqb_refl. Qed.

(** [p] does not occur in [pre ++ p ++ l] before its end. *)
Definition first_at (pre p l : list Z) : Prop :=
  forall k, (k < length pre)%nat -> is_prefix p (drop k (pre ++ p ++ l)) = false.

Lemma after_first (pre p l : list Z) : first_at pre p l -> after p (pre ++ p ++ l) = Some l.
Proof.
  induction pre as [|x pre IH]; intros Hf; cbn [app].
  - destruct p as [|y p]; [by destruct l |]. cbn [after app]. change (y :: p ++ l) with ((y :: p) ++ l).
    rewrite is_prefix_app, drop_app_length. done.
  - pose proof (Hf 0%nat ltac:(cbn; lia)) as H0. cbn [drop app] in H0. cbn [after]. rewrite H0. apply IH.
    intros k Hk. apply (Hf (S k)). cbn. lia.
Qed.

Definition blank (c : Z) : Prop := c = 32 \/ c = 9 \/ c = 10.

Lemma value_of_ok (n : nat) (v l : list Z) :
  Forall (fun c => ~ blank c) v -> (length v <= n)%nat -> (match l with [] => True | c :: _ => blank c end) -> value_of n (v ++ l) = v.
Proof.
  intros HF. revert n. induction HF as [|c v Hc _ IH]; intros n Hn Hl; cbn [app length] in *.
  - destruct n, l as [|c l]; try done. cbn [value_of]. unfold blank in Hl. by replace ((c =? 32) || (c =? 9) || (c =? 10)) with true by lia.
  - destruct n as [|n]; [lia |]. cbn [value_of]. unfold blank in Hc. replace ((c =? 32) || (c =? 9) || (c =? 10)) with false by lia.
    f_equal. apply IH; [lia | done].
Qed.

(** A parameter of the command line is found: for "param=value" at its first occurrence
    the value up to the next blank or the end is returned, for values of up to 255
    characters and names below 63. *)
Theorem get_cmdline_param_spec (pre param v rest : list Z) :
  first_at pre (param ++ [61]) (v ++ rest) -> (length param < 63)%nat -> (length v <= 255)%nat ->
  Forall (fun c => ~ blank c) v -> (match rest with [] => True | c :: _ => blank c end) ->
  get_cmdline_param (Some (pre ++ (param ++ [61]) ++ v ++ rest)) param = Some v.
Proof.
  intros Hf Hp Hv HF Hr. unfold get_cmdline_param. rewrite take_ge by (rewrite length_app; cbn; lia).
  assert (E : get_cmdline (Some (pre ++ (param ++ [61]) ++ v ++ rest)) = Some (pre ++ (param ++ [61]) ++ v ++ rest)).
  { destruct pre; [destruct param |]; done. }
  rewrite E, after_first by done. cbn [option_map]. by rewrite value_of_ok.
Qed.

(** The occurrence need not be a word of its own: "xroot=a" is taken for "root=a". *)
Theorem get_cmdline_param_inside :
  get_cmdline_param (Some [120; 114; 111; 111; 116; 61; 97; 32; 114; 111; 111; 116; 61; 98]) ROOT = Some [97].
Proof. reflexivity. Qed.

(** * Examples *)

(** A command line, 640 KiB and 127 MiB of memory, and a map of two regions. *)
Definition demo_tags : list (Z * list Z) := [(1, [114; 111; 111; 116; 61; 97; 0]); (4, le_bytes 4 640 ++ le_bytes 4 130048)].
Definition demo_map : list memory_region := [mk_region 0 654336 1; mk_region 1048576 133169152 1; mk_region 4294705152 262144 2].

Lemma demo_tags_ok : Forall tag_ok demo_tags.
Proof. by repeat constructor. Defined.

Lemma multiboot2_parse_visits_witness :
  exists i, multiboot2_parse 65536 (boot_block demo_tags []) multiboot2_init_info = Ret i /\ cmdline i = 65552 /\ mem_upper i = 130048.
Proof.
  pose proof (multiboot2_parse_visits 65536 demo_tags [] multiboot2_init_info demo_tags_ok ltac:(done)) as E.
  eexists. split; [rewrite E; vm_compute; reflexivity |]. by split.
Defined.

Lemma multiboot2_parse_endless_witness :
  tag_loop 1000 (le_bytes 4 32 ++ le_bytes 4 0 ++ le_bytes 4 3 ++ replicate 20 0) 32 8 (tag_step 65536 (le_bytes 4 32 ++ le_bytes 4 0 ++ le_bytes 4 3 ++ replicate 20 0))
    multiboot2_init_info = Crash.
Proof.
  exact (proj1 (multiboot2_parse_endless 65536 (le_bytes 4 32 ++ le_bytes 4 0 ++ le_bytes 4 3 ++ replicate 20 0) 32 1000 multiboot2_init_info
                  eq_refl eq_refl ltac:(lia))).
Defined.

Lemma multiboot2_usable_memory_witness :
  exists i, multiboot2_parse 65536 (boot_block (demo_tags ++ [mmap_tag demo_map]) []) multiboot2_init_info = Ret i /\
    multiboot2_get_usable_memory 65536 (boot_block (demo_tags ++ [mmap_tag demo_map]) []) i = Ret 133823488.
Proof.
  assert (Hv : exists i1, visit (tag_step 65536 (boot_block (demo_tags ++ [mmap_tag demo_map]) [])) 8 demo_tags multiboot2_init_info = Ret i1)
    by (eexists; vm_compute; reflexivity).
  destruct Hv as [i1 Hv].
  destruct (multiboot2_usable_memory 65536 demo_tags demo_map [] multiboot2_init_info i1) as (i2 & E1 & _ & E2);
    [lia | exact demo_tags_ok | discriminate | by repeat constructor | reflexivity | reflexivity | exact Hv |].
  exists i2. split; [exact E1 | exact E2].
Defined.

Lemma get_cmdline_param_spec_witness :
  get_cmdline_param (Some [113; 32; 114; 111; 111; 116; 61; 97; 98; 32; 120]) ROOT = Some [97; 98].
Proof.
  apply (get_cmdline_param_spec [113; 32] ROOT [97; 98] [32; 120]); [| cbn; lia | cbn; lia | | by left].
  - intros k Hk. cbn in Hk. destruct k as [|[|k]]; [reflexivity | reflexivity | lia].
  - repeat constructor; unfold blank; lia.
Defined.
