(* ===== verification/Aml.v ===== *)
(** The AML parser and interpreter, src/drivers/acpi/aml.c: package lengths, integers and name
    strings in a table, the namespace, methods, regions and devices, the search for the
    power button, and the execution of byte code.

    A table is the list of its bytes; a read outside it is [Crash].  A C string in a buffer
    is the list of its characters.  Namespace nodes and objects are in stores keyed by
    address; memory comes from the class [BlockAlloc]. *)

From S2P Require Import Prelude Bytes LibMem NetBuf.

Definition AML_ZERO_OP : Z := 0x00.
Definition AML_ONE_OP : Z := 0x01.
Definition AML_NAME_OP : Z := 0x08.
Definition AML_BYTE_PREFIX : Z := 0x0A.
Definition AML_WORD_PREFIX : Z := 0x0B.
Definition AML_DWORD_PREFIX : Z := 0x0C.
Definition AML_QWORD_PREFIX : Z := 0x0E.
Definition AML_SCOPE_OP : Z := 0x10.
Definition AML_METHOD_OP : Z := 0x14.
Definition AML_DUAL_NAME_PREFIX : Z := 0x2E.
Definition AML_MULTI_NAME_PREFIX : Z := 0x2F.
Definition AML_EXT_OP_PREFIX : Z := 0x5B.
Definition AML_ADD_OP : Z := 0x72.
Definition AML_SUBTRACT_OP : Z := 0x74.
Definition AML_NOTIFY_OP : Z := 0x86.
Definition AML_NOOP_OP : Z := 0xA3.
Definition AML_RETURN_OP : Z := 0xA4.
Definition AML_ONES_OP : Z := 0xFF.
Definition AML_EXT_STALL_OP : Z := 0x21.
Definition AML_EXT_SLEEP_OP : Z := 0x22.
Definition AML_EXT_REGION_OP : Z := 0x80.
Definition AML_EXT_DEVICE_OP : Z := 0x82.
Definition AML_EXT_PROCESSOR_OP : Z := 0x83.

(** The characters '.', '\' and '^'. *)
Definition DOT : Z := 46.
Definition BACKSLASH : Z := 92.
Definition CARET : Z := 94.

(** * Reading a table *)

Definition byte_at (data : list Z) (pos : Z) : outcome Z := of_option (get_chk data pos).

(** [aml_get_pkg_length]: the length, and [*new_pos], which keeps its value when [pos] is
    not below [len]. *)
Definition aml_get_pkg_length (data : list Z) (len pos new_pos : Z) : outcome (Z * Z) :=
  (if len <=? pos then Ret (0, new_pos)
   else
     do lead <- byte_at data pos;
     if Z.land lead 0x80 =? 0 then Ret (Z.land lead 0x3F, pos + 1)
     else if negb (Z.land lead 0x40 =? 0) && (Z.land lead 0x1F =? 0) then
       if len <=? pos + 1 then Ret (0, pos + 1)
       else do b1 <- byte_at data (pos + 1); Ret (Z.lor (Z.shiftl (Z.land lead 0x3F) 8) b1, pos + 2)
     else if negb (Z.land lead 0x20 =? 0) && (Z.land lead 0x0F =? 0) then
       if len <=? pos + 2 then Ret (0, pos + 1)
       else
         do b1 <- byte_at data (pos + 1);
         do b2 <- byte_at data (pos + 2);
         Ret (Z.lor (Z.lor (Z.shiftl (Z.land lead 0x0F) 16) (Z.shiftl b1 8)) b2, pos + 3)
     else if negb (Z.land lead 0x10 =? 0) && (Z.land lead 0x07 =? 0) then
       if len <=? pos + 3 then Ret (0, pos + 1)
       else
         do b1 <- byte_at data (pos + 1);
         do b2 <- byte_at data (pos + 2);
         do b3 <- byte_at data (pos + 3);
         Ret (Z.lor (Z.lor (Z.lor (Z.shiftl (Z.land lead 0x07) 24) (Z.shiftl b1 16)) (Z.shiftl b2 8)) b3, pos + 4)
     else Ret (0, pos + 1))%out.

(** [aml_skip_pkg_length] is called inside the table only; [new_pos] is set there. *)
Definition aml_skip_pkg_length (data : list Z) (len pos : Z) : outcome Z :=
  (do '(_, new_pos) <- aml_get_pkg_length data len pos pos; Ret new_pos)%out.

(** The bytes of a number; those of a double word are combined as an int, whose sign is
    extended to 64 bits. *)
Definition aml_parse_integer (data : list Z) (len pos : Z) : outcome (Z * Z) :=
  (if len <=? pos then Ret (0, pos)
   else
     do op <- byte_at data pos;
     if op =? AML_ZERO_OP then Ret (0, pos + 1)
     else if op =? AML_ONE_OP then Ret (1, pos + 1)
     else if op =? AML_ONES_OP then Ret (2 ^ 64 - 1, pos + 1)
     else if op =? AML_BYTE_PREFIX then
       if pos + 2 <=? len then do b <- byte_at data (pos + 1); Ret (b, pos + 2) else Ret (0, pos)
     else if op =? AML_WORD_PREFIX then
       if pos + 3 <=? len then
         do b0 <- byte_at data (pos + 1);
         do b1 <- byte_at data (pos + 2);
         Ret (Z.lor b0 (Z.shiftl b1 8), pos + 3)
       else Ret (0, pos)
     else if op =? AML_DWORD_PREFIX then
       if pos + 5 <=? len then
         do b0 <- byte_at data (pos + 1);
         do b1 <- byte_at data (pos + 2);
         do b2 <- byte_at data (pos + 3);
         do b3 <- byte_at data (pos + 4);
         Ret (u64 (swrap 32 (Z.lor (Z.lor (Z.lor b0 (Z.shiftl b1 8)) (Z.shiftl b2 16)) (Z.shiftl b3 24))), pos + 5)
       else Ret (0, pos)
     else if op =? AML_QWORD_PREFIX then
       if pos + 9 <=? len then
         do b0 <- byte_at data (pos + 1);
         do b1 <- byte_at data (pos + 2);
         do b2 <- byte_at data (pos + 3);
         do b3 <- byte_at data (pos + 4);
         do b4 <- byte_at data (pos + 5);
         do b5 <- byte_at data (pos + 6);
         do b6 <- byte_at data (pos + 7);
         do b7 <- byte_at data (pos + 8);
         Ret (Z.lor (Z.lor (Z.lor (Z.lor (Z.lor (Z.lor (Z.lor b0 (Z.shiftl b1 8)) (Z.shiftl b2 16)) (Z.shiftl b3 24))
                (Z.shiftl b4 32)) (Z.shiftl b5 40)) (Z.shiftl b6 48)) (Z.shiftl b7 56), pos + 9)
       else Ret (0, pos)
     else Ret (0, pos))%out.

(** * Name strings *)

(** [if (idx < buf_len - 1) buf[idx++] = c] *)
Definition add_char (buf_len : Z) (name : list Z) (c : Z) : list Z :=
  if Z.of_nat (length name) <? buf_len - 1 then name ++ [c] else name.

(** The characters '^' at [pos]; there are no more of them than bytes. *)
Fixpoint carets (n : nat) (data : list Z) (len pos buf_len : Z) (name : list Z) : outcome (Z * list Z) :=
  match n with
  | O => Crash
  | S n' =>
      (if pos <? len then
         do c <- byte_at data pos;
         if c =? CARET then carets n' data len (pos + 1) buf_len (add_char buf_len name CARET) else Ret (pos, name)
       else Ret (pos, name))%out
  end.

(** The characters of one segment, at most [n]. *)
Fixpoint segment (n : nat) (data : list Z) (len pos buf_len : Z) (name : list Z) : outcome (Z * list Z) :=
  match n with
  | O => Ret (pos, name)
  | S n' =>
      (if pos <? len then
         do c <- byte_at data pos;
         if c =? 0 then Ret (pos, name) else segment n' data len (pos + 1) buf_len (add_char buf_len name c)
       else Ret (pos, name))%out
  end.

(** [n] segments with dots between them; [None] for the jump to [error]. *)
Fixpoint segments (n : nat) (first : bool) (data : list Z) (len pos buf_len : Z) (name : list Z) : outcome (option (Z * list Z)) :=
  match n with
  | O => Ret (Some (pos, name))
  | S n' =>
      (if len <? pos + 4 then Ret None
       else
         do '(pos, name) <- segment 4 data len pos buf_len (if first then name else add_char buf_len name DOT);
         segments n' false data len pos buf_len name)%out
  end.

(** [aml_parse_namestring]: the name, or [None] for -1, and [*pos]. *)
Definition aml_parse_namestring (data : list Z) (len pos buf_len : Z) : outcome (option (list Z) * Z) :=
  (if len <=? pos then Ret (None, pos)
   else
     let start := pos in
     do c <- byte_at data pos;
     let '(pos, name) := if c =? BACKSLASH then (pos + 1, add_char buf_len [] BACKSLASH) else (pos, []) in
     do '(pos, name) <- carets (S (length data)) data len pos buf_len name;
     if len <=? pos then Ret (None, start)
     else
       do lead <- byte_at data pos;
       if lead =? 0 then Ret (Some [], pos + 1)
       else
         do r <-
           (if lead =? AML_DUAL_NAME_PREFIX then segments 2 true data len (pos + 1) buf_len name
            else if lead =? AML_MULTI_NAME_PREFIX then
              if len <=? pos + 1 then Ret None
              else do count <- byte_at data (pos + 1); segments (Z.to_nat count) true data len (pos + 2) buf_len name
            else segments 1 true data len pos buf_len name);
         match r with
         | Some (pos, name) => Ret (Some name, pos)
         | None => Ret (None, start)
         end)%out.

(** * The context *)

Inductive aml_object_type :=
| AML_OBJECT_TYPE_UNKNOWN | AML_OBJECT_TYPE_INTEGER | AML_OBJECT_TYPE_DEVICE | AML_OBJECT_TYPE_METHOD | AML_OBJECT_TYPE_REGION.

(** The member of the union that was written last. *)
Inductive node_data :=
| no_data
| method_data (code : list Z) (code_len arg_count : Z)
| region_data (space base length : Z)
| device_data (has_power_button : bool).

Record aml_node := mk_node {
  nd_name : list Z; nd_simple : list Z; nd_type : aml_object_type; nd_data : node_data;
  nd_parent : Z; nd_children : Z; nd_next : Z
}.

Definition SIZEOF_NODE : Z := 320.
Definition SIZEOF_OBJECT : Z := 32.

Record aml_method := mk_method {
  m_name : list Z; m_code : list Z; m_code_len : Z; m_code_start : Z; m_arg_count : Z; m_serialized : bool
}.

Record aml_region := mk_region { r_name : list Z; r_space : Z; r_base : Z; r_length : Z }.

Record aml_gpe_info := mk_gpe {
  gpe_number : Z; gpe_type : Z; gpe_method : list Z; gpe_found : bool; is_power_button : bool
}.

Record power_button_info := mk_pwr {
  pw_found : bool; is_legacy : bool; pw_gpe : aml_gpe_info; has_pwrb_device : bool; pwrb_path : list Z; pwrb_node : Z
}.

Definition no_gpe : aml_gpe_info := mk_gpe 0 0 [] false false.
Definition no_pwr : power_button_info := mk_pwr false false no_gpe false [] 0.

(** The context, over a heap [S].  [stack] has the objects from the top, so [sp] is its
    length less one; [gpes] is the array of 32, [gpe_count] of them in use. *)
Record aml_context (S : Type) := mk_aml {
  a_heap : S;
  nodes : gmap Z aml_node; root_node : Z; current_scope : list Z;
  methods : list aml_method; regions : list aml_region;
  pwr_info : power_button_info; gpes : list aml_gpe_info; gpe_count : nat;
  objects : gmap Z Z; stack : list Z; initialized : bool
}.
Arguments mk_aml {S}.
Arguments a_heap {S}.
Arguments nodes {S}.
Arguments root_node {S}.
Arguments current_scope {S}.
Arguments methods {S}.
Arguments regions {S}.
Arguments pwr_info {S}.
Arguments gpes {S}.
Arguments gpe_count {S}.
Arguments objects {S}.
Arguments stack {S}.
Arguments initialized {S}.

Section aml.
Context {S : Type} `{BlockAlloc S}.

Definition with_nodes (x : aml_context S) (s : S) (ns : gmap Z aml_node) : aml_context S :=
  mk_aml s ns (root_node x) (current_scope x) (methods x) (regions x) (pwr_info x) (gpes x) (gpe_count x)
    (objects x) (stack x) (initialized x).

Definition with_scope (x : aml_context S) (sc : list Z) : aml_context S :=
  mk_aml (a_heap x) (nodes x) (root_node x) sc (methods x) (regions x) (pwr_info x) (gpes x) (gpe_count x)
    (objects x) (stack x) (initialized x).

Definition with_defs (x : aml_context S) (ms : list aml_method) (rs : list aml_region) : aml_context S :=
  mk_aml (a_heap x) (nodes x) (root_node x) (current_scope x) ms rs (pwr_info x) (gpes x) (gpe_count x)
    (objects x) (stack x) (initialized x).

Definition with_pwr (x : aml_context S) (p : power_button_info) (gs : list aml_gpe_info) (n : nat) : aml_context S :=
  mk_aml (a_heap x) (nodes x) (root_node x) (current_scope x) (methods x) (regions x) p gs n
    (objects x) (stack x) (initialized x).

Definition with_exec (x : aml_context S) (s : S) (os : gmap Z Z) (st : list Z) : aml_context S :=
  mk_aml s (nodes x) (root_node x) (current_scope x) (methods x) (regions x) (pwr_info x) (gpes x) (gpe_count x)
    os st (initialized x).

(** * The namespace *)

Definition node_of (x : aml_context S) (a : Z) : outcome aml_node := of_option (nodes x !! a).

(** The text up to the first dot, and what is behind it. *)
Fixpoint split_dot (s : list Z) : list Z * option (list Z) :=
  match s with
  | [] => ([], None)
  | c :: s' => if c =? DOT then ([], Some s') else let '(a, r) := split_dot s' in (c :: a, r)
  end.

(** The child with a name in the list that starts at [child]; 0 when there is none. *)
Fixpoint find_child (n : nat) (x : aml_context S) (child : Z) (component : list Z) : outcome Z :=
  match n with
  | O => Crash
  | Datatypes.S n' =>
      (if child =? 0 then Ret 0
       else
         do nd <- node_of x child;
         if bool_decide (nd_simple nd = component) then Ret child else find_child n' x (nd_next nd) component)%out
  end.

Definition fuel_nodes (x : aml_context S) : nat := Datatypes.S (size (nodes x)).

(** The components of a path one by one; [n] is more than the path has characters. *)
Fixpoint lookup_path (n : nat) (x : aml_context S) (node : Z) (component : list Z) : outcome Z :=
  match n with
  | O => Crash
  | Datatypes.S n' =>
      (match component with
       | [] => Ret node
       | _ =>
           let '(name, next) := split_dot component in
           do nd <- node_of x node;
           do child <- find_child (fuel_nodes x) x (nd_children nd) name;
           if child =? 0 then Ret 0
           else match next with
                | None => Ret child
                | Some next => lookup_path n' x child next
                end
       end)%out
  end.

(** A path that fills the copy has no terminator there. *)
Definition path_copy (path : list Z) : outcome (list Z) :=
  if (255 <=? length path)%nat then Crash else Ret path.

Definition aml_namespace_lookup (x : aml_context S) (path : list Z) : outcome Z :=
  (do p <- path_copy path;
   let component := match p with c :: p' => if c =? BACKSLASH then p' else p | [] => p end in
   lookup_path (Datatypes.S (length p)) x (root_node x) component)%out.

(** [strrchr(path, '.')]: the texts in front of and behind the last dot. *)
Fixpoint split_last (s : list Z) : option (list Z * list Z) :=
  match s with
  | [] => None
  | c :: s' =>
      match split_last s' with
      | Some (a, b) => Some (c :: a, b)
      | None => if c =? DOT then Some ([], s') else None
      end
  end.

Definition aml_namespace_create (x : aml_context S) (path : list Z) (type : aml_object_type) : outcome (Z * aml_context S) :=
  (do existing <- aml_namespace_lookup x path;
   if negb (existing =? 0) then Ret (existing, x)
   else
     do '(p, _, s) <- ba_malloc (a_heap x) SIZEOF_NODE;
     if p =? 0 then Ret (0, with_nodes x s (nodes x))
     else
       let simple := take 4 (match split_last path with Some (_, b) => b | None => path end) in
       do parent_path <- path_copy path;
       do parent <- (match split_last parent_path with
                     | Some (a, _) => aml_namespace_lookup x a
                     | None => Ret (root_node x)
                     end);
       if parent =? 0 then
         Ret (p, with_nodes x s (<[p := mk_node (take 255 path) simple type no_data 0 0 0]> (nodes x)))
       else
         do pn <- node_of x parent;
         let node := mk_node (take 255 path) simple type no_data parent 0 (nd_children pn) in
         let pn := mk_node (nd_name pn) (nd_simple pn) (nd_type pn) (nd_data pn) (nd_parent pn) p (nd_next pn) in
         Ret (p, with_nodes x s (<[parent := pn]> (<[p := node]> (nodes x)))))%out.

(** [node->data.... = ...], when the node is not NULL. *)
Definition set_data (x : aml_context S) (a : Z) (d : node_data) : outcome (aml_context S) :=
  (if a =? 0 then Ret x
   else
     do n <- node_of x a;
     Ret (with_nodes x (a_heap x)
            (<[a := mk_node (nd_name n) (nd_simple n) (nd_type n) d (nd_parent n) (nd_children n) (nd_next n)]> (nodes x))))%out.

(** A name in the current scope: [snprintf(full_name, 256, "%s.%s", ...)], or the name itself
    when it starts at the root. *)
Definition full_name (x : aml_context S) (name : list Z) : list Z :=
  match name with
  | c :: _ => if c =? BACKSLASH then name else take 255 (current_scope x ++ DOT :: name)
  | [] => take 255 (current_scope x ++ [DOT])
  end.

(** * Definitions in a table *)

Definition aml_parse_method (x : aml_context S) (data : list Z) (len pos : Z) : outcome (aml_context S * Z) :=
  (if len <=? pos then Ret (x, pos)
   else
     let start := pos in
     do '(pkg_len, pos) <- aml_get_pkg_length data len (pos + 1) (pos + 1);
     if pkg_len <? 5 then Ret (x, start + 1)
     else
       do '(name, pos) <- aml_parse_namestring data len pos 256;
       match name with
       | None => Ret (x, start + pkg_len)
       | Some name =>
           if len <=? pos then Ret (x, start + pkg_len)
           else
             do flags <- byte_at data pos;
             let pos := pos + 1 in
             let full := full_name x name in
             if (length (methods x) <? 256)%nat then
               let m := mk_method full (drop (Z.to_nat pos) data) (u64 (start + pkg_len - pos)) pos (Z.land flags 0x07)
                          (negb (Z.land flags 0x08 =? 0)) in
               let x := with_defs x (methods x ++ [m]) (regions x) in
               do '(a, x) <- aml_namespace_create x full AML_OBJECT_TYPE_METHOD;
               do x <- set_data x a (method_data (m_code m) (m_code_len m) (m_arg_count m));
               Ret (x, start + pkg_len)
             else Ret (x, start + pkg_len)
       end)%out.

Definition aml_parse_region (x : aml_context S) (data : list Z) (len pos : Z) : outcome (aml_context S * Z) :=
  (if len <=? pos then Ret (x, pos)
   else
     let start := pos in
     if len <=? pos + 1 then Ret (x, start)
     else
       do ext <- byte_at data (pos + 1);
       if negb (ext =? AML_EXT_REGION_OP) then Ret (x, start)
       else
         do '(pkg_len, pos) <- aml_get_pkg_length data len (pos + 2) (pos + 2);
         if pkg_len =? 0 then Ret (x, start)
         else
           do '(name, pos) <- aml_parse_namestring data len pos 128;
           match name with
           | None => Ret (x, start + pkg_len)
           | Some name =>
               if len <=? pos then Ret (x, start + pkg_len)
               else
                 do space <- byte_at data pos;
                 do '(offset, pos) <- aml_parse_integer data len (pos + 1);
                 do '(rlen, pos) <- aml_parse_integer data len pos;
                 let full := full_name x name in
                 let x := if (length (regions x) <? 64)%nat
                          then with_defs x (methods x) (regions x ++ [mk_region full space offset rlen]) else x in
                 do '(a, x) <- aml_namespace_create x full AML_OBJECT_TYPE_REGION;
                 do x <- set_data x a (region_data space offset rlen);
                 Ret (x, start + pkg_len)
           end)%out.

(** [strstr(s, pat)]: the rest of [s] from the first occurrence on. *)
Fixpoint find_sub (s pat : list Z) : option (list Z) :=
  if bool_decide (take (length pat) s = pat) then Some s
  else match s with [] => None | _ :: s' => find_sub s' pat end.

Definition occurs (s pat : list Z) : bool := match find_sub s pat with Some _ => true | None => false end.

(** The names of power buttons. *)
Definition PWRB : list Z := [80; 87; 82; 66].
Definition PWRN : list Z := [80; 87; 82; 78].
Definition PBTN : list Z := [80; 66; 84; 78].
Definition PWRF : list Z := [80; 87; 82; 70].

(** A device whose name tells of a power button. *)
Definition note_button (x : aml_context S) (full : list Z) (node : Z) : outcome (aml_context S) :=
  if occurs full PWRB || occurs full PWRN || occurs full PBTN || occurs full PWRF then
    let p := pwr_info x in
    set_data (with_pwr x (mk_pwr true (is_legacy p) (pw_gpe p) true (take 127 full) node) (gpes x) (gpe_count x)) node (device_data true)
  else Ret x.

(** The header of a device: [None] when parsing ends there, else the end of its package. *)
Definition device_header (x : aml_context S) (data : list Z) (len pos : Z) : outcome (aml_context S * Z * option Z) :=
  (if len <=? pos then Ret (x, pos, None)
   else
     let start := pos in
     if len <=? pos + 1 then Ret (x, start, None)
     else
       do ext <- byte_at data (pos + 1);
       if negb (ext =? AML_EXT_DEVICE_OP) then Ret (x, start, None)
       else
         do '(pkg_len, pos) <- aml_get_pkg_length data len (pos + 2) (pos + 2);
         if pkg_len =? 0 then Ret (x, start, None)
         else
           do '(name, pos) <- aml_parse_namestring data len pos 128;
           match name with
           | None => Ret (x, start + pkg_len, None)
           | Some name =>
               let full := full_name x name in
               do '(node, x) <- aml_namespace_create x full AML_OBJECT_TYPE_DEVICE;
               do x <- note_button x full node;
               Ret (with_scope x full, pos, Some (start + pkg_len))
           end)%out.

(** A definition inside a device that is neither a device nor a processor. *)
Definition device_member (x : aml_context S) (data : list Z) (len pos end_ op : Z) : outcome (aml_context S * Z) :=
  (if op =? AML_NAME_OP then
     do '(_, pos) <- aml_parse_namestring data len (pos + 1) 128;
     do '(_, pos) <- aml_parse_integer data len pos;
     Ret (x, pos)
   else if op =? AML_METHOD_OP then aml_parse_method x data len pos
   else if op =? AML_SCOPE_OP then
     do '(_, p) <- aml_get_pkg_length data len (pos + 1) (pos + 1);
     do _ <- aml_parse_namestring data len p 128;
     Ret (x, end_)
   else Ret (x, pos + 1))%out.

(** [aml_parse_device] and the loop over its body; each call takes a step. *)
Fixpoint aml_parse_device (fuel : nat) (x : aml_context S) (data : list Z) (len pos : Z) : outcome (aml_context S * Z) :=
  match fuel with
  | O => Crash
  | Datatypes.S fuel' =>
      (let old_scope := current_scope x in
       do '(x, pos, e) <- device_header x data len pos;
       match e with
       | None => Ret (x, pos)
       | Some end_ =>
           do x <- device_body fuel' x data len pos end_;
           Ret (with_scope x old_scope, end_)
       end)%out
  end
with device_body (fuel : nat) (x : aml_context S) (data : list Z) (len pos end_ : Z) : outcome (aml_context S) :=
  match fuel with
  | O => Crash
  | Datatypes.S fuel' =>
      (if end_ <=? pos then Ret x
       else
         do op <- byte_at data pos;
         do '(x, pos) <-
           (if op =? AML_EXT_OP_PREFIX then
              if pos + 1 <? len then
                do ext <- byte_at data (pos + 1);
                if ext =? AML_EXT_REGION_OP then aml_parse_region x data len pos
                else if ext =? AML_EXT_DEVICE_OP then aml_parse_device fuel' x data len pos
                else if ext =? AML_EXT_PROCESSOR_OP then do p <- aml_skip_pkg_length data len pos; Ret (x, p)
                else Ret (x, pos + 2)
              else Ret (x, pos + 1)
            else device_member x data len pos end_ op);
         device_body fuel' x data len pos end_)%out
  end.

(** * The tables *)

(** The loop over the DSDT. *)
Fixpoint dsdt_loop (fuel : nat) (x : aml_context S) (data : list Z) (len pos : Z) : outcome (aml_context S) :=
  match fuel with
  | O => Crash
  | Datatypes.S fuel' =>
      (if len <=? pos then Ret x
       else
         do op <- byte_at data pos;
         do '(x, pos) <-
           (if (op =? AML_EXT_OP_PREFIX) && (pos + 1 <? len) then
              do ext <- byte_at data (pos + 1);
              if ext =? AML_EXT_DEVICE_OP then aml_parse_device fuel' x data len pos
              else if ext =? AML_EXT_REGION_OP then aml_parse_region x data len pos
              else if ext =? AML_EXT_PROCESSOR_OP then do p <- aml_skip_pkg_length data len pos; Ret (x, p + 1)
              else Ret (x, pos + 1)
            else if op =? AML_SCOPE_OP then
              do '(pkg_len, pkg_end) <- aml_get_pkg_length data len (pos + 1) pos;
              Ret (x, pkg_end + pkg_len)
            else if op =? AML_METHOD_OP then aml_parse_method x data len pos
            else Ret (x, pos + 1));
         dsdt_loop fuel' x data len pos)%out
  end.

(** The loop over an SSDT, which takes devices only. *)
Fixpoint ssdt_loop (fuel : nat) (x : aml_context S) (data : list Z) (len pos : Z) : outcome (aml_context S) :=
  match fuel with
  | O => Crash
  | Datatypes.S fuel' =>
      (if len <=? pos then Ret x
       else
         do op <- byte_at data pos;
         do device <- (if (op =? AML_EXT_OP_PREFIX) && (pos + 1 <? len)
                       then do ext <- byte_at data (pos + 1); Ret (ext =? AML_EXT_DEVICE_OP) else Ret false);
         do '(x, pos) <- (if device : bool then aml_parse_device fuel' x data len pos else Ret (x, pos + 1));
         ssdt_loop fuel' x data len pos)%out
  end.

Definition TABLE_HEADER : Z := 36.

(** One table: its scope starts at the root. *)
Definition parse_table (loop : nat -> aml_context S -> list Z -> Z -> Z -> outcome (aml_context S)) (fuel : nat)
    (x : aml_context S) (data : option (list Z)) : outcome (aml_context S) :=
  match data with
  | Some data =>
      let len := Z.of_nat (length data) in
      if TABLE_HEADER <? len then loop fuel (with_scope x [BACKSLASH]) data len TABLE_HEADER else Ret x
  | None => Ret x
  end.

Fixpoint parse_ssdts (fuel : nat) (x : aml_context S) (tables : list (option (list Z))) : outcome (aml_context S) :=
  match tables with
  | [] => Ret x
  | t :: tables' => (do x <- parse_table ssdt_loop fuel x t; parse_ssdts fuel x tables')%out
  end.

Definition root_of : aml_node := mk_node [BACKSLASH] [BACKSLASH] AML_OBJECT_TYPE_UNKNOWN no_data 0 0 0.

Definition aml_parse_all_tables (fuel : nat) (x : aml_context S) (dsdt : option (list Z)) (ssdts : list (option (list Z)))
    : outcome (aml_context S) :=
  (do '(p, _, s) <- ba_malloc (a_heap x) SIZEOF_NODE;
   if p =? 0 then Crash
   else
     let x := mk_aml s (<[p := root_of]> (nodes x)) p (current_scope x) (methods x) (regions x) (pwr_info x) (gpes x) (gpe_count x)
                (objects x) (stack x) (initialized x) in
     do x <- parse_table dsdt_loop fuel x dsdt;
     parse_ssdts fuel x ssdts)%out.

(** * The power button *)

(** The texts "\_GPE._L", "\_GPE._E", "_L" and "_E". *)
Definition GPE_L : list Z := [92; 95; 71; 80; 69; 46; 95; 76].
Definition GPE_E : list Z := [92; 95; 71; 80; 69; 46; 95; 69].
Definition UNDER_L : list Z := [95; 76].
Definition UNDER_E : list Z := [95; 69].

Definition is_digit (c : Z) : bool := (48 <=? c) && (c <=? 57).

(** The number behind the first "_L" or "_E" of a name. *)
Definition gpe_number_of (name : list Z) : Z :=
  match (match find_sub name UNDER_L with Some r => Some r | None => find_sub name UNDER_E end) with
  | Some part =>
      if is_digit (get part 2) then
        let n := get part 2 - 48 in
        if is_digit (get part 3) then n * 10 + (get part 3 - 48) else n
      else 0
  | None => 0
  end.

(** The search for the first Notify: whether its target is a power button. *)
Fixpoint notify_scan (n : nat) (code : list Z) (code_len pos : Z) : outcome bool :=
  match n with
  | O => Crash
  | Datatypes.S n' =>
      (if pos <? code_len then
         do c <- byte_at code pos;
         if c =? AML_NOTIFY_OP then
           do '(target, _) <- aml_parse_namestring code code_len (pos + 1) 128;
           Ret (match target with Some t => occurs t PWRB || occurs t PWRN || occurs t PBTN | None => false end)
         else notify_scan n' code code_len (pos + 1)
       else Ret false)%out
  end.

(** One method of the table. *)
Definition gpe_method_step (x : aml_context S) (m : aml_method) : outcome (aml_context S) :=
  (if occurs (m_name m) GPE_L || occurs (m_name m) GPE_E then
     if (gpe_count x <? 32)%nat then
       do old <- of_option (gpes x !! gpe_count x);
       if (32 <=? length (m_name m))%nat then Crash
       else
         do button <- notify_scan (Datatypes.S (length (m_code m))) (m_code m) (m_code_len m) (m_code_start m);
         let g := mk_gpe (u8 (gpe_number_of (m_name m))) (if occurs (m_name m) UNDER_E then 1 else 0) (m_name m) true
                    (is_power_button old || button) in
         let p := pwr_info x in
         let p := if button then mk_pwr true (is_legacy p) g (has_pwrb_device p) (pwrb_path p) (pwrb_node p) else p in
         Ret (with_pwr x p (<[gpe_count x := g]> (gpes x)) (gpe_count x + 1))
     else Ret x
   else Ret x)%out.

Fixpoint gpe_methods (x : aml_context S) (ms : list aml_method) : outcome (aml_context S) :=
  match ms with
  | [] => Ret x
  | m :: ms' => (do x <- gpe_method_step x m; gpe_methods x ms')%out
  end.

Definition with_legacy (p : power_button_info) (found legacy : bool) : power_button_info :=
  mk_pwr found legacy (pw_gpe p) (has_pwrb_device p) (pwrb_path p) (pwrb_node p).

Definition aml_find_power_button (x : aml_context S) : outcome (bool * aml_context S) :=
  (if negb (initialized x) then Ret (false, x)
   else
     do x <- gpe_methods (with_pwr x no_pwr (gpes x) 0) (methods x);
     let p := pwr_info x in
     if gpe_found (pw_gpe p) || has_pwrb_device p
     then Ret (true, with_pwr x (with_legacy p (pw_found p) false) (gpes x) (gpe_count x))
     else Ret (false, with_pwr x (with_legacy p true true) (gpes x) (gpe_count x)))%out.

(** * Execution *)

(** What a method does to the outside: delays in microseconds and milliseconds. *)
Inductive delay := stall (us : Z) | sleep (ms : Z).

(** [aml_create_integer]; 0 when there is no memory. *)
Definition aml_create_integer (x : aml_context S) (v : Z) : outcome (Z * aml_context S) :=
  (do '(p, _, s) <- ba_malloc (a_heap x) SIZEOF_OBJECT;
   if p =? 0 then Ret (0, with_exec x s (objects x) (stack x))
   else Ret (p, with_exec x s (<[p := v]> (objects x)) (stack x)))%out.

(** [aml_free_object] of an integer. *)
Definition aml_free_object (x : aml_context S) (p : Z) : outcome (aml_context S) :=
  (if p =? 0 then Ret x
   else do s <- ba_free (a_heap x) p; Ret (with_exec x s (delete p (objects x)) (stack x)))%out.

Definition aml_stack_push (x : aml_context S) (p : Z) : outcome (aml_context S) :=
  if (64 <=? length (stack x))%nat then aml_free_object x p
  else Ret (with_exec x (a_heap x) (objects x) (p :: stack x)).

Definition aml_stack_pop (x : aml_context S) : Z * aml_context S :=
  match stack x with
  | [] => (0, x)
  | p :: st => (p, with_exec x (a_heap x) (objects x) st)
  end.

Definition push_integer (x : aml_context S) (v : Z) : outcome (aml_context S) :=
  (do '(p, x) <- aml_create_integer x v; aml_stack_push x p)%out.

(** Two operands and a result; every object is an integer. *)
Definition binary (x : aml_context S) (f : Z -> Z -> Z) : outcome (aml_context S) :=
  (let '(op2, x) := aml_stack_pop x in
   let '(op1, x) := aml_stack_pop x in
   do x <- (if negb (op1 =? 0) && negb (op2 =? 0) then
              do a <- of_option (objects x !! op1);
              do b <- of_option (objects x !! op2);
              push_integer x (u64 (f a b))
            else Ret x);
   do x <- aml_free_object x op1;
   aml_free_object x op2)%out.

Definition delay_op (x : aml_context S) (f : Z -> delay) : outcome (aml_context S * list delay) :=
  (let '(t, x) := aml_stack_pop x in
   do ds <- (if t =? 0 then Ret [] else do v <- of_option (objects x !! t); Ret [f (u32 v)]);
   do x <- aml_free_object x t;
   Ret (x, ds))%out.

(** One round of the loop: the context, the position, the delays, and whether it returns. *)
Definition exec_step (x : aml_context S) (code : list Z) (len pos : Z) : outcome (aml_context S * Z * list delay * bool) :=
  (do op <- byte_at code pos;
   if op =? AML_ZERO_OP then do x <- push_integer x 0; Ret (x, pos + 1, [], false)
   else if op =? AML_ONE_OP then do x <- push_integer x 1; Ret (x, pos + 1, [], false)
   else if op =? AML_ONES_OP then do x <- push_integer x (2 ^ 64 - 1); Ret (x, pos + 1, [], false)
   else if (op =? AML_BYTE_PREFIX) || (op =? AML_WORD_PREFIX) || (op =? AML_DWORD_PREFIX) || (op =? AML_QWORD_PREFIX) then
     do '(v, p) <- aml_parse_integer code len pos;
     do x <- push_integer x v;
     Ret (x, p, [], false)
   else if op =? AML_ADD_OP then do x <- binary x Z.add; Ret (x, pos + 1, [], false)
   else if op =? AML_SUBTRACT_OP then do x <- binary x Z.sub; Ret (x, pos + 1, [], false)
   else if op =? AML_RETURN_OP then Ret (x, pos + 1, [], true)
   else if op =? AML_NOOP_OP then Ret (x, pos + 1, [], false)
   else if op =? AML_EXT_OP_PREFIX then
     let pos := pos + 1 in
     if len <=? pos then Ret (x, pos, [], false)
     else
       do ext <- byte_at code pos;
       if ext =? AML_EXT_STALL_OP then do '(x, ds) <- delay_op x stall; Ret (x, pos + 1, ds, false)
       else if ext =? AML_EXT_SLEEP_OP then do '(x, ds) <- delay_op x sleep; Ret (x, pos + 1, ds, false)
       else Ret (x, pos + 1, [], false)
   else Ret (x, pos + 1, [], false))%out.

(** [aml_execute_bytecode]; it always returns 0. *)
Fixpoint aml_execute_bytecode (fuel : nat) (x : aml_context S) (code : list Z) (len pos : Z) : outcome (aml_context S * list delay) :=
  match fuel with
  | O => Crash
  | Datatypes.S fuel' =>
      (if len <=? pos then Ret (x, [])
       else
         do '(x, pos, ds, ret) <- exec_step x code len pos;
         if ret : bool then Ret (x, ds)
         else do '(x, ds') <- aml_execute_bytecode fuel' x code len pos; Ret (x, ds ++ ds'))%out
  end.

Fixpoint find_method (ms : list aml_method) (name : list Z) : option aml_method :=
  match ms with
  | [] => None
  | m :: ms' => if bool_decide (m_name m = name) then Some m else find_method ms' name
  end.

Fixpoint gpe_search (fuel : nat) (x : aml_context S) (gs : list aml_gpe_info) (n : Z) : outcome (Z * aml_context S * list delay) :=
  match gs with
  | [] => Ret (-1, x, [])
  | g :: gs' =>
      if (gpe_number g =? n) && (gpe_type g =? 0) then
        match find_method (methods x) (gpe_method g) with
        | Some m => (do '(x, ds) <- aml_execute_bytecode fuel x (m_code m) (m_code_len m) (m_code_start m); Ret (0, x, ds))%out
        | None => gpe_search fuel x gs' n
        end
      else gpe_search fuel x gs' n
  end.

Definition aml_execute_gpe (fuel : nat) (x : aml_context S) (gpe_number : Z) : outcome (Z * aml_context S * list delay) :=
  gpe_search fuel x (take (gpe_count x) (gpes x)) gpe_number.

(** * The start *)

(** The tables that are kept: the first 16, those that exist counted. *)
Definition kept_tables (ssdts : list (option (list Z))) : list (option (list Z)) :=
  let ts := take 16 ssdts in
  take (length (filter (fun t => is_Some t) ts)) ts.

(** [aml_init_context] on a heap and the tables of the firmware. *)
Definition aml_init_context (fuel : nat) (s : S) (dsdt : option (list Z)) (ssdts : list (option (list Z)))
    : outcome (bool * aml_context S) :=
  (let x := mk_aml s ∅ 0 [] [] [] no_pwr (replicate 32 no_gpe) 0 ∅ [0] false in
   match dsdt with
   | None => Ret (false, x)
   | Some _ =>
       do x <- aml_parse_all_tables fuel x dsdt (kept_tables ssdts);
       let x := mk_aml (a_heap x) (nodes x) (root_node x) (current_scope x) (methods x) (regions x) (pwr_info x) (gpes x)
                  (gpe_count x) (objects x) (stack x) true in
       do '(_, x) <- aml_find_power_button x;
       Ret (true, with_exec x (a_heap x) (objects x) [])
   end)%out.

Definition aml_get_power_button_info (x : aml_context S) : power_button_info * bool :=
  (pwr_info x, pw_found (pwr_info x) || is_legacy (pwr_info x)).
End aml.
