(* ===== verification/AmlSpec.v ===== *)
(** The AML parser and interpreter (Aml.v): package lengths and integers against their
    encoding in ACPI, the interpreter against the evaluation of expressions, the bounds of
    the context, and what the parser misses. *)

From S2P Require Import Prelude Bytes LibMem NetBuf Arp Aml.

(** * Bytes of a table *)

Lemma byte_at_app (pre l post : list Z) (i : nat) (c : Z) :
  l !! i = Some c -> byte_at (pre ++ l ++ post) (Z.of_nat (length pre + i)) = Ret c.
Proof.
  intros Hi. pose proof (lookup_lt_Some _ _ _ Hi). unfold byte_at, get_chk. rewrite !length_app.
  replace ((0 <=? _) && _) with true by lia. cbn. f_equal. unfold get. rewrite Nat2Z.id, app_nth2, app_nth1 by lia.
  replace (length pre + i - length pre)%nat with i by lia. by apply nth_lookup_Some.
Qed.

Lemma byte_at_mid (pre post : list Z) (l : list Z) (k : Z) (i : nat) (c : Z) :
  k = Z.of_nat i -> l !! i = Some c -> byte_at (pre ++ l ++ post) (Z.of_nat (length pre) + k) = Ret c.
Proof. intros -> Hi. rewrite <- Nat2Z.inj_add. by apply byte_at_app. Qed.

(** * Package lengths *)

(** A length below 4096 as ACPI encodes it: one byte below 64, else the low four bits in
    the first byte, whose upper bits count the bytes that follow. *)
Definition acpi_pkg (n : Z) : list Z := if n <? 64 then [n] else [0x40 + n mod 16; n / 16].

(** Lengths below 64 are decoded; of a longer one the code takes the low four bits and
    does not see the second byte. *)
Theorem aml_pkg_length_decodes (pre post : list Z) (n np : Z) :
  0 <= n < 4096 ->
  let data := pre ++ acpi_pkg n ++ post in
  let pos := Z.of_nat (length pre) in
  aml_get_pkg_length data (Z.of_nat (length data)) pos np = Ret (if n <? 64 then n else n mod 16, pos + 1).
Proof.
  intros Hn data pos. unfold aml_get_pkg_length. assert (Hl : Z.of_nat (length data) > pos).
  { unfold data, pos, acpi_pkg. rewrite !length_app. destruct (n <? 64); cbn [length]; lia. }
  replace (Z.of_nat (length data) <=? pos) with false by lia.
  assert (Hbits : forall v, 0 <= v < 128 -> Z.land v 0x80 = 0 /\ Z.land v 0x3F = v mod 64).
  { intros v Hv. split.
    - change 0x80 with (Z.shiftl (Z.ones 1) 7). apply Z.bits_inj'. intros i Hi. rewrite Z.land_spec, Z.bits_0, Z.shiftl_spec by done.
      destruct (Z.ltb_spec i 7); [rewrite (Z.testbit_neg_r _ (i - 7)) by lia; apply andb_false_r |].
      rewrite (fits_testbit 7 v i) by (done || lia). done.
    - change 0x3F with (Z.ones 6). by rewrite Z.land_ones. }
  destruct (Z.ltb_spec n 64).
  - assert (E : byte_at data pos = Ret n).
    { unfold data, pos, acpi_pkg. replace (n <? 64) with true by lia. rewrite <- (Z.add_0_r (Z.of_nat (length pre))). by apply (byte_at_mid pre post [n] 0 0%nat). }
    rewrite E. cbn [obind]. destruct (Hbits n ltac:(lia)) as [-> ->]. rewrite Z.mod_small by lia. done.
  - assert (E : byte_at data pos = Ret (0x40 + n mod 16)).
    { unfold data, pos, acpi_pkg. replace (n <? 64) with false by lia. rewrite <- (Z.add_0_r (Z.of_nat (length pre))). by apply (byte_at_mid pre post _ 0 0%nat). }
    rewrite E. cbn [obind]. destruct (Hbits (0x40 + n mod 16) ltac:(dlia)) as [-> ->]. replace ((0x40 + n mod 16) mod 64) with (n mod 16) by dlia. done.
Qed.

(** * Integers *)

(** The shortest encoding of a number. *)
Definition enc_int (v : Z) : list Z :=
  if v =? 0 then [AML_ZERO_OP]
  else if v =? 1 then [AML_ONE_OP]
  else if v =? 2 ^ 64 - 1 then [AML_ONES_OP]
  else if v <? 2 ^ 8 then AML_BYTE_PREFIX :: le_bytes 1 v
  else if v <? 2 ^ 16 then AML_WORD_PREFIX :: le_bytes 2 v
  else if v <? 2 ^ 32 then AML_DWORD_PREFIX :: le_bytes 4 v
  else AML_QWORD_PREFIX :: le_bytes 8 v.

(** What the code reads: a double word with its top bit set is taken as negative. *)
Definition int_read (v : Z) : Z := if (2 ^ 31 <=? v) && (v <? 2 ^ 32) then v + 2 ^ 64 - 2 ^ 32 else v.

(** One more byte on top of a number. *)
Lemma lor_byte (lo b k : Z) : 0 <= k -> fits k lo -> fits 8 b -> Z.lor lo (Z.shiftl b k) = lo + b * 2 ^ k /\ fits (k + 8) (lo + b * 2 ^ k).
Proof.
  intros Hk [L0 L1] [B0 B1]. rewrite lor_high_low by done. split; [lia |]. unfold fits. rewrite Z.pow_add_r by lia.
  change (2 ^ 8) with 256 in *. assert (0 < 2 ^ k) by (apply Z.pow_pos_nonneg; lia). nia.
Qed.

Lemma word_bytes (b0 b1 : Z) : fits 8 b0 -> fits 8 b1 -> Z.lor b0 (Z.shiftl b1 8) = le_val [b0; b1].
Proof. intros H0 H1. destruct (lor_byte b0 b1 8) as [-> _]; try done. change (2 ^ 8) with 256. cbn [le_val]. lia. Qed.

Lemma dword_bytes (b0 b1 b2 b3 : Z) : fits 8 b0 -> fits 8 b1 -> fits 8 b2 -> fits 8 b3 ->
  Z.lor (Z.lor (Z.lor b0 (Z.shiftl b1 8)) (Z.shiftl b2 16)) (Z.shiftl b3 24) = le_val [b0; b1; b2; b3].
Proof.
  intros H0 H1 H2 H3. destruct (lor_byte b0 b1 8) as [-> F1]; try done. destruct (lor_byte _ b2 16 ltac:(lia) F1 H2) as [-> F2].
  destruct (lor_byte _ b3 24 ltac:(lia) F2 H3) as [-> _]. change (2 ^ 8) with 256. change (2 ^ 16) with 65536. change (2 ^ 24) with 16777216.
  cbn [le_val]. lia.
Qed.

Lemma qword_bytes (b0 b1 b2 b3 b4 b5 b6 b7 : Z) :
  fits 8 b0 -> fits 8 b1 -> fits 8 b2 -> fits 8 b3 -> fits 8 b4 -> fits 8 b5 -> fits 8 b6 -> fits 8 b7 ->
  Z.lor (Z.lor (Z.lor (Z.lor (Z.lor (Z.lor (Z.lor b0 (Z.shiftl b1 8)) (Z.shiftl b2 16)) (Z.shiftl b3 24))
    (Z.shiftl b4 32)) (Z.shiftl b5 40)) (Z.shiftl b6 48)) (Z.shiftl b7 56) = le_val [b0; b1; b2; b3; b4; b5; b6; b7].
Proof.
  intros H0 H1 H2 H3 H4 H5 H6 H7. rewrite dword_bytes by done.
  assert (F3 : fits 32 (le_val [b0; b1; b2; b3])).
  { cbn [le_val]. destruct H0, H1, H2, H3. change (2 ^ 8) with 256 in *. split; [lia |]. change (2 ^ 32) with 4294967296. lia. }
  destruct (lor_byte _ b4 32 ltac:(lia) F3 H4) as [-> F4]. destruct (lor_byte _ b5 40 ltac:(lia) F4 H5) as [-> F5].
  destruct (lor_byte _ b6 48 ltac:(lia) F5 H6) as [-> F6]. destruct (lor_byte _ b7 56 ltac:(lia) F6 H7) as [-> _].
  change (2 ^ 32) with 4294967296. change (2 ^ 40) with 1099511627776. change (2 ^ 48) with 281474976710656. change (2 ^ 56) with 72057594037927936.
  cbn [le_val]. lia.
Qed.

(** Read the next byte of an encoding that lies at [pos]. *)
Ltac next_byte :=
  match goal with |- context [byte_at (?pre ++ ?l ++ ?post) (Z.of_nat (length ?pre) + ?k)] =>
    rewrite (byte_at_mid pre post l k (Z.to_nat k) _ eq_refl eq_refl); cbn [obind] end.

Ltac prefix := unfold AML_BYTE_PREFIX, AML_WORD_PREFIX, AML_DWORD_PREFIX, AML_QWORD_PREFIX, AML_ZERO_OP, AML_ONE_OP, AML_ONES_OP; cbn [Z.eqb Pos.eqb].

(** An integer that is encoded in the shortest way is read as [int_read]: exactly, but for
    the numbers between 2^31 and 2^32, which come out sign-extended. *)
Lemma parse_integer_ok (pre post : list Z) (v : Z) :
  fits 64 v ->
  aml_parse_integer (pre ++ enc_int v ++ post) (Z.of_nat (length (pre ++ enc_int v ++ post))) (Z.of_nat (length pre)) =
  Ret (int_read v, Z.of_nat (length pre + length (enc_int v))).
Proof.
  intros [V0 V1]. unfold aml_parse_integer. set (len := Z.of_nat (length (pre ++ enc_int v ++ post))).
  assert (Hlen : Z.of_nat (length pre) + Z.of_nat (length (enc_int v)) <= len) by (unfold len; rewrite !length_app; lia). clearbody len.
  assert (Hpos : (1 <= length (enc_int v))%nat) by (unfold enc_int; repeat case_match; cbn [length]; lia).
  replace (len <=? Z.of_nat (length pre)) with false by lia.
  replace (byte_at (pre ++ enc_int v ++ post) (Z.of_nat (length pre))) with (byte_at (pre ++ enc_int v ++ post) (Z.of_nat (length pre) + 0)) by (f_equal; lia).
  change (2 ^ 64) with 18446744073709551616 in *.
  unfold int_read, enc_int in *. change (2 ^ 64) with 18446744073709551616 in *. change (2 ^ 31) with 2147483648. change (2 ^ 32) with 4294967296 in *. change (2 ^ 16) with 65536 in *. change (2 ^ 8) with 256 in *.
  destruct (Z.eqb_spec v 0) as [-> | N0]; [next_byte; cbn [length]; do 2 f_equal; lia |].
  destruct (Z.eqb_spec v 1) as [-> | N1]; [next_byte; cbn [length]; do 2 f_equal; lia |].
  destruct (Z.eqb_spec v (18446744073709551616 - 1)) as [-> | N2]; [next_byte; cbn [length]; do 2 f_equal; lia |].
  assert (Hb : forall z, fits 8 (u8 z)) by (intros z; by apply wrap_fits).
  destruct (Z.ltb_spec v 256); [| destruct (Z.ltb_spec v 65536); [| destruct (Z.ltb_spec v 4294967296)]]; cbn [le_bytes length] in *; next_byte; prefix.
  - replace (Z.of_nat (length pre) + 2 <=? len) with true by lia. next_byte. rewrite wrap_small by (split; [lia | change (2 ^ 8) with 256; lia]).
    replace ((2147483648 <=? v) && _) with false by lia. do 2 f_equal. lia.
  - replace (Z.of_nat (length pre) + 3 <=? len) with true by lia. next_byte. next_byte. rewrite word_bytes by done.
    change [u8 v; u8 (Z.shiftr v 8)] with (le_bytes 2 v). rewrite le_val_bytes by (split; [lia | change (2 ^ _) with 65536; lia]).
    replace ((2147483648 <=? v) && _) with false by lia. do 2 f_equal. lia.
  - replace (Z.of_nat (length pre) + 5 <=? len) with true by lia. do 4 next_byte. rewrite dword_bytes by done.
    change [u8 v; u8 (Z.shiftr v 8); _; _] with (le_bytes 4 v). rewrite le_val_bytes by (split; [lia | change (2 ^ _) with 4294967296; lia]).
    unfold swrap. change (2 ^ 32) with 4294967296. change (2 ^ (32 - 1)) with 2147483648. rewrite Z.mod_small by lia. replace (v <? 4294967296) with true by lia.
    destruct (Z.ltb_spec v 2147483648).
    + replace (2147483648 <=? v) with false by lia. rewrite wrap_small by (split; [lia | change (2 ^ 64) with 18446744073709551616; lia]). cbn [andb]. do 2 f_equal. lia.
    + replace (2147483648 <=? v) with true by lia. cbn [andb]. unfold wrap. change (2 ^ 64) with 18446744073709551616.
      rewrite <- (Z_mod_plus_full _ 1), Z.mod_small by lia. f_equal. f_equal; lia.
  - replace (Z.of_nat (length pre) + 9 <=? len) with true by lia. do 8 next_byte. rewrite qword_bytes by done.
    change [u8 v; u8 (Z.shiftr v 8); _; _; _; _; _; _] with (le_bytes 8 v). rewrite le_val_bytes by (split; [lia | change (2 ^ _) with 18446744073709551616; lia]).
    replace ((2147483648 <=? v) && _) with false by lia. do 2 f_equal. lia.
Qed.

(** The integer reader inverts the shortest encoding, but for the numbers between 2^31 and
    2^32: those come out sign-extended to 64 bits. *)
Theorem aml_integer_roundtrip (pre post : list Z) (v : Z) :
  fits 64 v ->
  let data := pre ++ enc_int v ++ post in
  aml_parse_integer data (Z.of_nat (length data)) (Z.of_nat (length pre)) =
  Ret (if (2 ^ 31 <=? v) && (v <? 2 ^ 32) then v + (2 ^ 64 - 2 ^ 32) else v, Z.of_nat (length pre + length (enc_int v))).
Proof. intros Hv data. unfold data. rewrite parse_integer_ok by done. unfold int_read. do 2 f_equal. destruct (_ && _); lia. Qed.

Lemma aml_integer_roundtrip_witness :
  aml_parse_integer ([8] ++ enc_int 0xFED00000 ++ [0]) 7 1 = Ret (0xFFFFFFFFFED00000, 6).
Proof. apply (aml_integer_roundtrip [8] [0] 0xFED00000). split; [vm_compute; discriminate | reflexivity]. Defined.

Lemma aml_pkg_length_decodes_witness :
  aml_get_pkg_length ([0x10] ++ acpi_pkg 0x123 ++ [0]) 4 1 0 = Ret (3, 2).
Proof. apply (aml_pkg_length_decodes [0x10] [0] 0x123 0). lia. Defined.

(** * The interpreter *)

(** What the interpreter needs of the heap while the objects [os] are live: memory for one
    more, at an address of its own, and that a live object can be freed. *)
Class ObjAlloc (S : Type) `{BlockAlloc S} := {
  heap_has : S -> gmap Z Z -> Prop;
  obj_malloc s os : heap_has s os -> exists p bs s', ba_malloc s SIZEOF_OBJECT = Ret (p, bs, s') /\ p <> 0 /\ os !! p = None /\
    forall v, heap_has s' (<[p := v]> os);
  obj_free s os p v : heap_has s os -> os !! p = Some v -> exists s', ba_free s p = Ret s' /\ heap_has s' (delete p os)
}.

(** Expressions, their code with the operands in front of the operator (the order in which
    the interpreter takes them; ACPI tables put the operator first), their value in 64-bit
    arithmetic, and the places of the stack they need. *)
Inductive expr := Const (v : Z) | Plus (e1 e2 : expr) | Minus (e1 e2 : expr).

Fixpoint code_of (e : expr) : list Z :=
  match e with
  | Const v => enc_int v
  | Plus e1 e2 => code_of e1 ++ code_of e2 ++ [AML_ADD_OP]
  | Minus e1 e2 => code_of e1 ++ code_of e2 ++ [AML_SUBTRACT_OP]
  end.

Fixpoint expr_value (e : expr) : Z :=
  match e with
  | Const v => v
  | Plus e1 e2 => u64 (expr_value e1 + expr_value e2)
  | Minus e1 e2 => u64 (expr_value e1 - expr_value e2)
  end.

Fixpoint depth (e : expr) : nat :=
  match e with Const _ => 1 | Plus e1 e2 | Minus e1 e2 => Nat.max (depth e1) (1 + depth e2) end.

Fixpoint steps (e : expr) : nat :=
  match e with Const _ => 1 | Plus e1 e2 | Minus e1 e2 => steps e1 + steps e2 + 1 end.

(** The numbers that the interpreter reads as they are: below 2^31, or from 2^32 on. *)
Fixpoint consts_ok (e : expr) : Prop :=
  match e with Const v => fits 64 v /\ (v < 2 ^ 31 \/ 2 ^ 32 <= v) | Plus e1 e2 | Minus e1 e2 => consts_ok e1 /\ consts_ok e2 end.

Lemma int_read_exact (v : Z) : v < 2 ^ 31 \/ 2 ^ 32 <= v -> int_read v = v.
Proof. intros Hv. unfold int_read. by replace ((2 ^ 31 <=? v) && (v <? 2 ^ 32)) with false by lia. Qed.

Section interp.
Context {S : Type} `{ObjAlloc S}.

(** A context with other objects and another stack. *)
Definition moved (x x' : aml_context S) (os : gmap Z Z) (st : list Z) : Prop :=
  x' = with_exec x (a_heap x') os st /\ heap_has (a_heap x') os.

Lemma push_ok (x : aml_context S) (v : Z) : heap_has (a_heap x) (objects x) -> (length (stack x) < 64)%nat ->
  exists x' p, push_integer x v = Ret x' /\ objects x !! p = None /\ p <> 0 /\ moved x x' (<[p := v]> (objects x)) (p :: stack x).
Proof.
  intros Hh Hl. destruct (obj_malloc _ _ Hh) as (p & bs & s & E & Hp & Hn & Hk). unfold push_integer, aml_create_integer. rewrite E. cbn [obind].
  replace (p =? 0) with false by lia. cbn [obind]. unfold aml_stack_push. cbn [with_exec stack]. replace (64 <=? length (stack x))%nat with false by (symmetry; apply Nat.leb_gt; lia).
  eexists _, p. split; [reflexivity |]. split; [done |]. split; [done |]. split; [done |]. apply Hk.
Qed.

Lemma free_ok (x : aml_context S) (p v : Z) : heap_has (a_heap x) (objects x) -> p <> 0 -> objects x !! p = Some v ->
  exists x', aml_free_object x p = Ret x' /\ moved x x' (delete p (objects x)) (stack x).
Proof.
  intros Hh Hp Hl. destruct (obj_free _ _ _ _ Hh Hl) as (s & E & Hs). unfold aml_free_object. replace (p =? 0) with false by lia. rewrite E. cbn [obind].
  eexists. by split.
Qed.

Lemma moved_trans (x y z : aml_context S) (os os' : gmap Z Z) (st st' : list Z) : moved x y os st -> moved y z os' st' -> moved x z os' st'.
Proof. intros [E1 _] [E2 H2]. split; [| done]. rewrite E2, E1. done. Qed.

(** Two integers on the stack are replaced by the result. *)
Lemma binary_ok (x : aml_context S) (f : Z -> Z -> Z) (os : gmap Z Z) (p1 p2 v1 v2 : Z) (st : list Z) :
  heap_has (a_heap x) (objects x) -> stack x = p2 :: p1 :: st -> (length st < 64)%nat -> p1 <> 0 -> p2 <> 0 ->
  os !! p1 = None -> (<[p1 := v1]> os) !! p2 = None -> objects x = <[p2 := v2]> (<[p1 := v1]> os) ->
  exists x' p, binary x f = Ret x' /\ os !! p = None /\ p <> 0 /\ moved x x' (<[p := u64 (f v1 v2)]> os) (p :: st).
Proof.
  intros Hh Hst Hl Hp1 Hp2 H1 H2 Ho. unfold binary, aml_stack_pop. rewrite Hst. cbn [with_exec stack].
  set (y := with_exec _ _ _ st). replace (negb (p1 =? 0) && negb (p2 =? 0)) with true by lia.
  assert (Hy : a_heap y = a_heap x /\ objects y = objects x /\ stack y = st) by done. destruct Hy as (Y1 & Y2 & Y3).
  assert (Hxy : moved x y (objects x) st) by (split; [done | by rewrite Y1]).
  assert (p1 <> p2) as Hne by (intros ->; by rewrite lookup_insert_eq in H2).
  assert (L1 : objects y !! p1 = Some v1) by (rewrite Y2, Ho, lookup_insert_ne by done; by rewrite lookup_insert_eq).
  assert (L2 : objects y !! p2 = Some v2) by (rewrite Y2, Ho; by rewrite lookup_insert_eq).
  rewrite L1, L2. cbn [of_option obind]. destruct (push_ok y (u64 (f v1 v2))) as (y1 & p & -> & Hn & Hp & M1); [by rewrite Y1, Y2 | by rewrite Y3 |]. cbn [obind].
  pose proof M1 as [E1 K1]. rewrite Y2, Ho, Y3 in *. set (os3 := <[p := _]> _) in *.
  assert (p <> p1 /\ p <> p2) as [Np1 Np2] by (split; intros ->; congruence).
  assert (O1 : objects y1 = os3) by (by rewrite E1).
  destruct (free_ok y1 p1 v1) as (y2 & -> & M2); [by rewrite O1 | done | rewrite O1; unfold os3; rewrite lookup_insert_ne by done; congruence |].
  pose proof M2 as [E2 K2]. assert (O2 : objects y2 = delete p1 os3) by (rewrite E2, O1; done). cbn [obind].
  destruct (free_ok y2 p2 v2) as (y3 & -> & M3); [by rewrite O2, <- O1 | done | rewrite O2; unfold os3; rewrite lookup_delete_ne, lookup_insert_ne by done; congruence |].
  assert (Hos : os !! p = None). { rewrite !lookup_insert_ne in Hn by done. exact Hn. }
  exists y3, p. split; [done |]. split; [done |]. split; [done |].
  assert (Ed : delete p2 (objects y2) = <[p := u64 (f v1 v2)]> os).
  { rewrite O2. unfold os3. apply map_eq. intros q. destruct (decide (q = p2)) as [-> | Q2].
    - rewrite lookup_delete_eq, lookup_insert_ne by done. rewrite lookup_insert_ne in H2 by done. by rewrite H2.
    - rewrite lookup_delete_ne by done. destruct (decide (q = p1)) as [-> | Q1].
      + rewrite lookup_delete_eq, lookup_insert_ne by done. by rewrite H1.
      + rewrite lookup_delete_ne by done. destruct (decide (q = p)) as [-> | Q]; [by rewrite !lookup_insert_eq |].
        by rewrite !lookup_insert_ne by done. }
  rewrite Ed in M3. replace (stack y2) with (p :: st) in M3 by (rewrite E2; cbn; by rewrite E1).
  eapply moved_trans; [exact Hxy |]. eapply moved_trans; [exact M1 |]. eapply moved_trans; [exact M2 |]. exact M3.
Qed.

(** One round at a byte that is known. *)
Lemma exec_round (f : nat) (x x' : aml_context S) (code : list Z) (len pos pos' : Z) :
  pos < len -> exec_step x code len pos = Ret (x', pos', [], false) ->
  aml_execute_bytecode (Datatypes.S f) x code len pos = aml_execute_bytecode f x' code len pos'.
Proof.
  intros Hp E. cbn [aml_execute_bytecode]. replace (len <=? pos) with false by lia. rewrite E. cbn [obind].
  by destruct (aml_execute_bytecode f x' code len pos') as [[? ?] | |].
Qed.

Lemma enc_int_head (v : Z) : exists c l, enc_int v = c :: l /\ c ∈ [AML_ZERO_OP; AML_ONE_OP; AML_ONES_OP; AML_BYTE_PREFIX; AML_WORD_PREFIX; AML_DWORD_PREFIX; AML_QWORD_PREFIX] /\
  (c = AML_ZERO_OP -> int_read v = 0 /\ l = []) /\ (c = AML_ONE_OP -> int_read v = 1 /\ l = []) /\ (c = AML_ONES_OP -> int_read v = 2 ^ 64 - 1 /\ l = []).
Proof.
  unfold enc_int. destruct (Z.eqb_spec v 0) as [-> | N0]; [do 2 eexists; split; [done |]; split; [set_solver | done] |].
  destruct (Z.eqb_spec v 1) as [-> | N1]; [do 2 eexists; split; [done |]; split; [set_solver | done] |].
  destruct (Z.eqb_spec v (2 ^ 64 - 1)) as [-> | N2]; [do 2 eexists; split; [done |]; split; [set_solver | done] |].
  repeat case_match; (do 2 eexists; split; [done |]; split; [set_solver | done]).
Qed.

Lemma exec_const (pre post : list Z) (v : Z) (x : aml_context S) :
  fits 64 v -> heap_has (a_heap x) (objects x) -> (length (stack x) < 64)%nat ->
  exists x' p, exec_step x (pre ++ enc_int v ++ post) (Z.of_nat (length (pre ++ enc_int v ++ post))) (Z.of_nat (length pre)) =
    Ret (x', Z.of_nat (length pre + length (enc_int v)), [], false) /\
    objects x !! p = None /\ p <> 0 /\ moved x x' (<[p := int_read v]> (objects x)) (p :: stack x).
Proof.
  intros Hv Hh Hl. pose proof (parse_integer_ok pre post v Hv) as Ep. destruct (push_ok x (int_read v) Hh Hl) as (x' & p & E & Hn & Hp & M).
  exists x', p. split; [| done]. destruct (enc_int_head v) as (c & l & Ev & Hc & G0 & G1 & G2). unfold exec_step.
  assert (Eb : byte_at (pre ++ enc_int v ++ post) (Z.of_nat (length pre)) = Ret c).
  { replace (Z.of_nat (length pre)) with (Z.of_nat (length pre) + 0) by lia. apply (byte_at_mid _ _ _ 0 0%nat); [done | by rewrite Ev]. }
  rewrite Eb. cbn [obind]. rewrite !elem_of_cons in Hc.
  destruct Hc as [-> | [-> | [-> | Hc]]].
  - destruct (G0 eq_refl) as [V ->]. rewrite V in E. cbn [Z.eqb AML_ZERO_OP]. rewrite E, Ev. cbn [obind length]. do 4 f_equal. lia.
  - destruct (G1 eq_refl) as [V ->]. rewrite V in E. cbn [Z.eqb Pos.eqb AML_ZERO_OP AML_ONE_OP]. rewrite E, Ev. cbn [obind length]. do 4 f_equal. lia.
  - destruct (G2 eq_refl) as [V ->]. rewrite V in E. change (AML_ONES_OP =? AML_ZERO_OP) with false. change (AML_ONES_OP =? AML_ONE_OP) with false. change (AML_ONES_OP =? AML_ONES_OP) with true. cbn iota.
    rewrite E, Ev. cbn [obind length]. do 4 f_equal. lia.
  - assert (Hcase : (c =? AML_ZERO_OP) = false /\ (c =? AML_ONE_OP) = false /\ (c =? AML_ONES_OP) = false /\
      ((c =? AML_BYTE_PREFIX) || (c =? AML_WORD_PREFIX) || (c =? AML_DWORD_PREFIX) || (c =? AML_QWORD_PREFIX)) = true).
    { destruct Hc as [-> | [-> | [-> | [-> | Hc]]]]; [done.. | by apply elem_of_nil in Hc]. }
    destruct Hcase as (-> & -> & -> & ->). rewrite Ep. cbn [obind]. by rewrite E.
Qed.

(** An operator behind its operands. *)
Lemma exec_operator (op : Z) (f : Z -> Z -> Z) (pre post : list Z) (x x' : aml_context S) :
  op = AML_ADD_OP /\ f = Z.add \/ op = AML_SUBTRACT_OP /\ f = Z.sub -> binary x f = Ret x' ->
  exec_step x (pre ++ [op] ++ post) (Z.of_nat (length (pre ++ [op] ++ post))) (Z.of_nat (length pre)) =
  Ret (x', Z.of_nat (length (pre ++ [op])), [], false).
Proof.
  intros Hop E. unfold exec_step.
  assert (Eb : byte_at (pre ++ [op] ++ post) (Z.of_nat (length pre)) = Ret op).
  { replace (Z.of_nat (length pre)) with (Z.of_nat (length pre) + 0) by lia. by apply (byte_at_mid _ _ _ 0 0%nat). }
  assert (Hl : Z.of_nat (length (pre ++ [op])) = Z.of_nat (length pre) + 1) by (rewrite length_app; cbn [length]; lia).
  rewrite Eb, Hl. cbn [obind]. destruct Hop as [[-> ->] | [-> ->]].
  - change (AML_ADD_OP =? AML_ADD_OP) with true. cbn [Z.eqb Pos.eqb AML_ADD_OP AML_ZERO_OP AML_ONE_OP AML_ONES_OP AML_BYTE_PREFIX AML_WORD_PREFIX AML_DWORD_PREFIX AML_QWORD_PREFIX orb]. by rewrite E.
  - cbn [Z.eqb Pos.eqb AML_SUBTRACT_OP AML_ADD_OP AML_ZERO_OP AML_ONE_OP AML_ONES_OP AML_BYTE_PREFIX AML_WORD_PREFIX AML_DWORD_PREFIX AML_QWORD_PREFIX orb]. by rewrite E.
Qed.

Definition runs (e : expr) : Prop := forall (pre post : list Z) (x : aml_context S) (f : nat),
  heap_has (a_heap x) (objects x) -> (length (stack x) + depth e <= 64)%nat ->
  let full := pre ++ code_of e ++ post in
  exists x' p, aml_execute_bytecode (steps e + f) x full (Z.of_nat (length full)) (Z.of_nat (length pre)) =
      aml_execute_bytecode f x' full (Z.of_nat (length full)) (Z.of_nat (length (pre ++ code_of e))) /\
    objects x !! p = None /\ p <> 0 /\ moved x x' (<[p := expr_value e]> (objects x)) (p :: stack x).

Lemma code_of_nonempty (e : expr) : (1 <= length (code_of e))%nat.
Proof.
  induction e; cbn [code_of]; rewrite ?length_app; cbn [length]; try lia. destruct (enc_int_head v) as (c & l & -> & _). cbn [length]. lia.
Qed.

(** Two expressions and an operator. *)
Lemma runs_binary (e1 e2 e : expr) (op : Z) (f : Z -> Z -> Z) :
  runs e1 -> runs e2 -> op = AML_ADD_OP /\ f = Z.add \/ op = AML_SUBTRACT_OP /\ f = Z.sub ->
  code_of e = code_of e1 ++ code_of e2 ++ [op] -> expr_value e = u64 (f (expr_value e1) (expr_value e2)) ->
  depth e = Nat.max (depth e1) (1 + depth e2) -> steps e = (steps e1 + steps e2 + 1)%nat -> runs e.
Proof.
  intros R1 R2 Hop Ec Ev Ed Es pre post x n Hh Hl full. rewrite Ed in Hl.
  destruct (R1 pre (code_of e2 ++ [op] ++ post) x (steps e2 + (1 + n))%nat Hh ltac:(lia)) as (x1 & p1 & E1 & F1 & P1 & M1).
  pose proof M1 as [X1 K1].
  assert (S1 : stack x1 = p1 :: stack x) by (by rewrite X1). assert (O1 : objects x1 = <[p1 := expr_value e1]> (objects x)) by (by rewrite X1).
  destruct (R2 (pre ++ code_of e1) ([op] ++ post) x1 (1 + n)%nat) as (x2 & p2 & E2 & F2 & P2 & M2); [by rewrite O1 | rewrite S1; cbn [length]; lia |].
  pose proof M2 as [X2 K2].
  assert (S2 : stack x2 = p2 :: p1 :: stack x) by (rewrite X2; cbn; by rewrite S1).
  assert (O2 : objects x2 = <[p2 := expr_value e2]> (<[p1 := expr_value e1]> (objects x))) by (rewrite X2; cbn; by rewrite O1).
  rewrite O1 in F2. assert (depth e2 <> 0)%nat by (destruct e2; cbn; lia).
  destruct (binary_ok x2 f (objects x) p1 p2 (expr_value e1) (expr_value e2) (stack x)) as (x3 & p & E3 & F3 & P3 & M3); try done;
    [rewrite O2; rewrite O1 in K2; exact K2 | lia |].
  set (code := pre ++ code_of e1 ++ code_of e2 ++ [op] ++ post) in *.
  assert (Hf1 : full = code) by (unfold full, code; rewrite Ec, <- !app_assoc; done). rewrite Hf1.
  assert (Hf2 : (pre ++ code_of e1) ++ code_of e2 ++ [op] ++ post = code) by (unfold code; by rewrite <- !app_assoc). rewrite Hf2 in E2.
  assert (Hf3 : ((pre ++ code_of e1) ++ code_of e2) ++ [op] ++ post = code) by (unfold code; by rewrite <- !app_assoc).
  pose proof (exec_operator op f ((pre ++ code_of e1) ++ code_of e2) post x2 x3 Hop E3) as Eo. rewrite Hf3 in Eo.
  exists x3, p. split; [| split; [done |]; split; [done |]; rewrite Ev; eapply moved_trans; [exact M1 |]; eapply moved_trans; [exact M2 | exact M3]].
  rewrite Es. replace (steps e1 + steps e2 + 1 + n)%nat with (steps e1 + (steps e2 + (1 + n)))%nat by lia. rewrite E1, E2.
  change (1 + n)%nat with (Datatypes.S n). erewrite exec_round; [| | exact Eo].
  - do 2 f_equal. rewrite Ec, <- !app_assoc. done.
  - unfold code. rewrite !length_app. cbn [length]. lia.
Qed.

Lemma runs_expr (e : expr) : consts_ok e -> runs e.
Proof.
  induction e as [v | e1 IH1 e2 IH2 | e1 IH1 e2 IH2]; cbn [consts_ok]; intros Hc.
  - destruct Hc as [Hc Hr]. intros pre post x f Hh Hl full. cbn [depth] in Hl. destruct (exec_const pre post v x Hc Hh ltac:(lia)) as (x' & p & E & Hn & Hp & M).
    rewrite int_read_exact in M by done. exists x', p. split; [| done]. cbn [steps code_of] in *. change (1 + f)%nat with (Datatypes.S f). erewrite exec_round; [| | exact E].
    + by rewrite <- length_app.
    + unfold full. cbn [code_of]. rewrite !length_app. destruct (enc_int_head v) as (c & l & -> & _). cbn [length]. lia.
  - destruct Hc as [C1 C2]. eapply runs_binary; [by apply IH1 | by apply IH2 | by left | done..].
  - destruct Hc as [C1 C2]. eapply runs_binary; [by apply IH1 | by apply IH2 | by right | done..].
Qed.


(** In the order of ACPI tables the operator is met with an empty stack and does nothing:
    the two operands are left and no sum is computed. *)
Theorem aml_prefix_not_computed (a b : Z) (x : aml_context S) (fuel : nat) :
  fits 64 a -> fits 64 b -> heap_has (a_heap x) (objects x) -> stack x = [] -> (3 < fuel)%nat ->
  let code := [AML_ADD_OP] ++ enc_int a ++ enc_int b ++ [AML_RETURN_OP] in
  exists x' p q, aml_execute_bytecode fuel x code (Z.of_nat (length code)) 0 = Ret (x', []) /\
    stack x' = [q; p] /\ objects x' = <[q := int_read b]> (<[p := int_read a]> (objects x)).
Proof.
  intros Ha Hb Hh Hs Hf code. do 4 (destruct fuel as [|fuel]; [lia |]).
  destruct (exec_const [AML_ADD_OP] (enc_int b ++ [AML_RETURN_OP]) a x Ha Hh ltac:(rewrite Hs; cbn; lia)) as (x1 & p & E1 & _ & _ & [M1 K1]).
  assert (O1 : objects x1 = <[p := int_read a]> (objects x)) by (by rewrite M1). assert (S1 : stack x1 = [p]) by (rewrite M1; cbn; by rewrite Hs).
  destruct (exec_const ([AML_ADD_OP] ++ enc_int a) [AML_RETURN_OP] b x1 Hb ltac:(by rewrite O1) ltac:(rewrite S1; cbn; lia)) as (x2 & q & E2 & _ & _ & [M2 K2]).
  assert (Hc : ([AML_ADD_OP] ++ enc_int a) ++ enc_int b ++ [AML_RETURN_OP] = code) by (unfold code; by rewrite <- app_assoc). rewrite Hc in E2. fold code in E1.
  assert (Hn : forall v, (1 <= length (enc_int v))%nat) by (intros v; destruct (enc_int_head v) as (c & l & -> & _); cbn [length]; lia).
  assert (Hl : length code = (1 + length (enc_int a) + length (enc_int b) + 1)%nat) by (unfold code; rewrite !length_app; cbn [length]; lia).
  pose proof (Hn a). pose proof (Hn b). exists x2, p, q. split; [| split; [by rewrite M2; cbn; rewrite S1 | by rewrite M2; cbn; rewrite O1]].
  assert (E0 : exec_step x code (Z.of_nat (length code)) 0 = Ret (x, 1, [], false)).
  { apply (exec_operator AML_ADD_OP Z.add [] (enc_int a ++ enc_int b ++ [AML_RETURN_OP]) x x); [by left |].
    unfold binary, aml_stack_pop. rewrite Hs. cbn. destruct x; cbn in *; by subst. }
  change (Z.of_nat (length [AML_ADD_OP])) with 1 in E1. rewrite length_app in E2. cbn [length] in E1, E2.
  erewrite exec_round; [| | exact E0]; [| lia]. erewrite exec_round; [| | exact E1]; [| lia]. erewrite exec_round; [| | exact E2]; [| lia].
  cbn [aml_execute_bytecode]. replace (Z.of_nat (length code) <=? _) with false by lia. unfold exec_step.
  replace (byte_at code _) with (Ret AML_RETURN_OP); [done |].
  replace code with (([AML_ADD_OP] ++ enc_int a ++ enc_int b) ++ [AML_RETURN_OP] ++ []) by (unfold code; by rewrite <- !app_assoc).
  symmetry. replace (Z.of_nat (1 + length (enc_int a) + length (enc_int b))) with (Z.of_nat (length ([AML_ADD_OP] ++ enc_int a ++ enc_int b)) + 0) by (rewrite !length_app; cbn [length]; lia).
  by apply (byte_at_mid _ _ _ 0 0%nat).
Qed.
End interp.

(** * The bounds of the context *)

Lemma add_char_le (n : Z) (name : list Z) (c : Z) : 0 < n -> Z.of_nat (length name) < n -> Z.of_nat (length (add_char n name c)) < n.
Proof. intros Hn Hl. unfold add_char. destruct (Z.ltb_spec (Z.of_nat (length name)) (n - 1)); [rewrite length_app; cbn [length]; lia | done]. Qed.

Lemma carets_le (k : nat) (data : list Z) (len pos n pos' : Z) (name name' : list Z) :
  0 < n -> Z.of_nat (length name) < n -> carets k data len pos n name = Ret (pos', name') -> Z.of_nat (length name') < n.
Proof.
  intros Hn. revert pos name. induction k as [|k IH]; intros pos name Hl E; [done |]. cbn [carets] in E. destruct (pos <? len); [| by inv_ret].
  inv_ret. destruct (a =? CARET); [| by inv_ret]. eapply IH; [| exact E]. by apply add_char_le.
Qed.

Lemma name_segment_le (k : nat) (data : list Z) (len pos n pos' : Z) (name name' : list Z) :
  0 < n -> Z.of_nat (length name) < n -> segment k data len pos n name = Ret (pos', name') -> Z.of_nat (length name') < n.
Proof.
  intros Hn. revert pos name. induction k as [|k IH]; intros pos name Hl E; cbn [segment] in E; [by inv_ret |]. destruct (pos <? len); [| by inv_ret].
  inv_ret. destruct (a =? 0); [by inv_ret |]. eapply IH; [| exact E]. by apply add_char_le.
Qed.

Lemma segments_le (k : nat) (first : bool) (data : list Z) (len pos n pos' : Z) (name name' : list Z) :
  0 < n -> Z.of_nat (length name) < n -> segments k first data len pos n name = Ret (Some (pos', name')) -> Z.of_nat (length name') < n.
Proof.
  intros Hn. revert first pos name. induction k as [|k IH]; intros first pos name Hl E; cbn [segments] in E; [by simplify_eq |].
  destruct (len <? pos + 4); [by simplify_eq |]. inv_ret. destruct a as [p nm]. eapply IH; [| exact E]. eapply name_segment_le; [done | | exact E0].
  destruct first; [done | by apply add_char_le].
Qed.

(** A name fits its buffer. *)
Lemma namestring_le (data name : list Z) (len pos n pos' : Z) :
  0 < n -> aml_parse_namestring data len pos n = Ret (Some name, pos') -> Z.of_nat (length name) < n.
Proof.
  intros Hn E. unfold aml_parse_namestring in E. destruct (len <=? pos); [by simplify_eq |]. inv_ret. 
  set (st := if a =? BACKSLASH then (pos + 1, add_char n [] BACKSLASH) else (pos, [])) in E.
  assert (Hst : Z.of_nat (length st.2) < n) by (unfold st; destruct (a =? BACKSLASH); cbn [snd]; [apply add_char_le |]; cbn [length]; lia).
  destruct st as [p nm]. cbn [snd] in Hst. inv_ret. destruct a0 as [p1 nm1]. apply carets_le in E1; [| done | done].
  destruct (len <=? p1); [by simplify_eq |]. inv_ret. destruct (a0 =? 0); [simplify_eq; cbn; lia |]. inv_ret.
  destruct a1 as [[p2 nm2] |]; [| by simplify_eq]. simplify_eq.
  destruct (a0 =? AML_DUAL_NAME_PREFIX); [eapply segments_le; [done | | eassumption]; done |]. destruct (a0 =? AML_MULTI_NAME_PREFIX); [| eapply segments_le; [done | | eassumption]; done].
  destruct (len <=? p1 + 1); [by simplify_eq |]. inv_ret. eapply segments_le; [done | | eassumption]; done.
Qed.

Section bounds.
Context {S : Type} `{BlockAlloc S}.

Definition named (n : list Z) : Prop := (length n <= 255)%nat.

(** The arrays are not overrun and every name fits its buffer. *)
Record ctx_ok (x : aml_context S) : Prop := {
  ok_methods : (length (methods x) <= 256)%nat;
  ok_regions : (length (regions x) <= 64)%nat;
  ok_mnames : Forall (fun m => named (m_name m)) (methods x);
  ok_rnames : Forall (fun r => named (r_name r)) (regions x);
  ok_scope : named (current_scope x);
  ok_gpes : length (gpes x) = 32%nat;
  ok_gpe_count : (gpe_count x <= 32)%nat
}.

(** Changes of the namespace and of the power button leave the rest alone. *)
Definition aside (x x' : aml_context S) : Prop :=
  methods x' = methods x /\ regions x' = regions x /\ current_scope x' = current_scope x /\ gpes x' = gpes x /\ gpe_count x' = gpe_count x.

Lemma aside_ok (x x' : aml_context S) : aside x x' -> ctx_ok x -> ctx_ok x'.
Proof. intros (E1 & E2 & E3 & E4 & E5) []. by split; rewrite ?E1, ?E2, ?E3, ?E4, ?E5. Qed.

Lemma aside_trans (x y z : aml_context S) : aside x y -> aside y z -> aside x z.
Proof. intros (? & ? & ? & ? & ?) (? & ? & ? & ? & ?). unfold aside. split_and!; congruence. Qed.

Lemma create_aside (x x' : aml_context S) (path : list Z) (ty : aml_object_type) (p : Z) :
  aml_namespace_create x path ty = Ret (p, x') -> aside x x'.
Proof.
  unfold aml_namespace_create. intros E. inv_ret. destruct (negb _); [by simplify_eq |]. inv_ret. destruct a0 as [[q bs] s].
  destruct (q =? 0); [by simplify_eq |]. inv_ret. destruct (_ =? 0); inv_ret; by simplify_eq.
Qed.

Lemma set_data_aside (x x' : aml_context S) (a : Z) (d : node_data) : set_data x a d = Ret x' -> aside x x'.
Proof. unfold set_data. intros E. destruct (a =? 0); inv_ret; done. Qed.

Lemma button_aside (x x' : aml_context S) (full : list Z) (a : Z) : note_button x full a = Ret x' -> aside x x'.
Proof.
  unfold note_button. intros E. destruct (_ || _); [| by inv_ret]. apply set_data_aside in E. done.
Qed.

Lemma full_name_ok (x : aml_context S) (name : list Z) : named name -> named (full_name x name).
Proof.
  unfold named, full_name. intros Hn. destruct name as [|c name]; [rewrite length_take; lia |]. destruct (c =? BACKSLASH); [done |]. rewrite length_take. lia.
Qed.

Lemma method_ok (x x' : aml_context S) (data : list Z) (len pos pos' : Z) :
  ctx_ok x -> aml_parse_method x data len pos = Ret (x', pos') -> ctx_ok x'.
Proof.
  intros Hx E. unfold aml_parse_method in E. destruct (len <=? pos); [by simplify_eq |]. inv_ret. destruct a as [n p].
  destruct (n <? 5); [by simplify_eq |]. inv_ret. destruct a as [[name |] p1]; [| by simplify_eq]. apply namestring_le in E1; [| lia].
  destruct (len <=? p1); [by simplify_eq |]. inv_ret. destruct (_ <? 256)%nat eqn:Hm; [| by simplify_eq]. apply Nat.ltb_lt in Hm. inv_ret. destruct a0 as [q y]. inv_ret.
  apply create_aside in E3. apply set_data_aside in E4. simplify_eq. pose proof (aside_trans _ _ _ E3 E4) as A.
  eapply aside_ok; [exact A |]. destruct Hx. split; cbn [with_defs methods regions current_scope gpes gpe_count]; try done.
  - rewrite length_app. cbn [length]. lia.
  - apply Forall_app. split; [done |]. apply Forall_cons_2; [| by apply Forall_nil_2]. cbn. apply full_name_ok. unfold named. lia.
Qed.

Lemma region_ok (x x' : aml_context S) (data : list Z) (len pos pos' : Z) :
  ctx_ok x -> aml_parse_region x data len pos = Ret (x', pos') -> ctx_ok x'.
Proof.
  intros Hx E. unfold aml_parse_region in E. destruct (len <=? pos); [by simplify_eq |]. destruct (len <=? pos + 1); [by simplify_eq |]. inv_ret.
  destruct (negb _); [by simplify_eq |]. inv_ret. destruct a0 as [n p].
  destruct (n =? 0); [by simplify_eq |]. inv_ret. destruct a0 as [[name |] p1]; [| by simplify_eq]. apply namestring_le in E2; [| lia].
  destruct (len <=? p1); [by simplify_eq |]. inv_ret. destruct a1 as [off p2]. inv_ret. destruct a1 as [rl p3]. inv_ret. destruct a1 as [q y]. inv_ret. simplify_eq.
  apply create_aside in E6. apply set_data_aside in E7. pose proof (aside_trans _ _ _ E6 E7) as A.
  eapply aside_ok; [exact A |]. case_match eqn:Hm; [| done]. apply Nat.ltb_lt in Hm.
  destruct Hx. split; cbn [with_defs methods regions current_scope gpes gpe_count]; try done.
  - rewrite length_app. cbn [length]. lia.
  - apply Forall_app. split; [done |]. apply Forall_cons_2; [| by apply Forall_nil_2]. cbn. apply full_name_ok. unfold named. lia.
Qed.

Lemma scope_ok (x : aml_context S) (sc : list Z) : ctx_ok x -> named sc -> ctx_ok (with_scope x sc).
Proof. intros [] Hs. by split. Qed.

Lemma device_header_ok (x x' : aml_context S) (data : list Z) (len pos pos' : Z) (e : option Z) :
  ctx_ok x -> device_header x data len pos = Ret (x', pos', e) -> ctx_ok x'.
Proof.
  intros Hx E. unfold device_header in E. destruct (len <=? pos); [by simplify_eq |]. destruct (len <=? pos + 1); [by simplify_eq |]. inv_ret.
  destruct (negb _); [by simplify_eq |]. inv_ret. destruct a0 as [n p]. destruct (n =? 0); [by simplify_eq |]. inv_ret.
  destruct a0 as [[name |] p1]; [| by simplify_eq]. apply namestring_le in E2; [| lia]. inv_ret. destruct a0 as [q y]. inv_ret. simplify_eq.
  apply create_aside in E3. apply button_aside in E4. apply scope_ok; [| apply full_name_ok; unfold named; lia].
  eapply aside_ok; [eapply aside_trans; [exact E3 | exact E4] | done].
Qed.

Lemma device_ok (fuel : nat) :
  (forall (x x' : aml_context S) (data : list Z) (len pos pos' : Z), ctx_ok x -> aml_parse_device fuel x data len pos = Ret (x', pos') -> ctx_ok x') /\
  (forall (x x' : aml_context S) (data : list Z) (len pos end_ : Z), ctx_ok x -> device_body fuel x data len pos end_ = Ret x' -> ctx_ok x').
Proof.
  induction fuel as [|fuel [IH1 IH2]]; [by split |]. split; intros x x' data len pos p Hx E; cbn [aml_parse_device device_body] in E.
  - inv_ret. destruct a as [[y p1] e]. apply device_header_ok in E0; [| done]. destruct e as [end_ |]; [| by simplify_eq]. inv_ret. simplify_eq.
    apply scope_ok; [by eapply IH2 | apply Hx].
  - destruct (p <=? pos); [by simplify_eq |]. inv_ret. destruct a0 as [y p1]. eapply IH2; [| exact E]. clear E.
    destruct (a =? AML_EXT_OP_PREFIX).
    + destruct (pos + 1 <? len); [| by simplify_eq]. inv_ret. destruct (_ =? AML_EXT_REGION_OP); [by eapply region_ok |].
      destruct (_ =? AML_EXT_DEVICE_OP); [by eapply IH1 |]. destruct (_ =? AML_EXT_PROCESSOR_OP); inv_ret; by simplify_eq.
    + unfold device_member in *. destruct (a =? AML_NAME_OP); [inv_ret; destruct a0; inv_ret; destruct a0; inv_ret; by simplify_eq |].
      destruct (a =? AML_METHOD_OP); [by eapply method_ok |]. destruct (a =? AML_SCOPE_OP); [| by simplify_eq].
      inv_ret. destruct a0. inv_ret. by simplify_eq.
Qed.

Lemma dsdt_ok (fuel : nat) (x x' : aml_context S) (data : list Z) (len pos : Z) : ctx_ok x -> dsdt_loop fuel x data len pos = Ret x' -> ctx_ok x'.
Proof.
  revert x pos. induction fuel as [|fuel IH]; intros x pos Hx E; [done |]. cbn [dsdt_loop] in E. destruct (len <=? pos); [by simplify_eq |].
  inv_ret. destruct a0 as [y p]. eapply IH; [| exact E]. clear E. destruct (_ && _).
  - inv_ret. destruct (_ =? AML_EXT_DEVICE_OP); [by eapply (proj1 (device_ok _)) |]. destruct (_ =? AML_EXT_REGION_OP); [by eapply region_ok |].
    destruct (_ =? AML_EXT_PROCESSOR_OP); inv_ret; by simplify_eq.
  - destruct (a =? AML_SCOPE_OP); [inv_ret; destruct a0; by simplify_eq |]. destruct (a =? AML_METHOD_OP); [by eapply method_ok | by simplify_eq].
Qed.

Lemma ssdt_ok (fuel : nat) (x x' : aml_context S) (data : list Z) (len pos : Z) : ctx_ok x -> ssdt_loop fuel x data len pos = Ret x' -> ctx_ok x'.
Proof.
  revert x pos. induction fuel as [|fuel IH]; intros x pos Hx E; [done |]. cbn [ssdt_loop] in E. destruct (len <=? pos); [by simplify_eq |].
  inv_ret. destruct a1 as [y p]. eapply IH; [| exact E]. destruct a0; [by eapply (proj1 (device_ok _)) | by simplify_eq].
Qed.

Lemma table_ok loop (fuel : nat) (x x' : aml_context S) (t : option (list Z)) :
  (forall (x x' : aml_context S) data len pos, ctx_ok x -> loop fuel x data len pos = Ret x' -> ctx_ok x') ->
  ctx_ok x -> parse_table loop fuel x t = Ret x' -> ctx_ok x'.
Proof.
  intros Hloop Hx E. unfold parse_table in E. destruct t as [data |]; [| by simplify_eq]. destruct (_ <? _); [| by simplify_eq].
  eapply Hloop; [| exact E]. apply scope_ok; [done |]. unfold named. cbn. lia.
Qed.

Lemma ssdts_ok (fuel : nat) (x x' : aml_context S) (ts : list (option (list Z))) : ctx_ok x -> parse_ssdts fuel x ts = Ret x' -> ctx_ok x'.
Proof.
  revert x. induction ts as [|t ts IH]; intros x Hx E; cbn [parse_ssdts] in E; [by simplify_eq |]. inv_ret. eapply IH; [| exact E].
  eapply table_ok; [| exact Hx | done]. intros *. apply ssdt_ok.
Qed.

Lemma parse_all_ok (fuel : nat) (x x' : aml_context S) (dsdt : option (list Z)) (ssdts : list (option (list Z))) :
  ctx_ok x -> aml_parse_all_tables fuel x dsdt ssdts = Ret x' -> ctx_ok x'.
Proof.
  intros Hx E. unfold aml_parse_all_tables in E. inv_ret. destruct a as [[p bs] s]. destruct (p =? 0); [done |]. inv_ret.
  eapply ssdts_ok; [| exact E]. eapply table_ok; [| | done]; [intros *; apply dsdt_ok |]. by destruct Hx.
Qed.

(** What the search for the power button keeps of the context. *)
Lemma gpe_step_ok (x x' : aml_context S) (m : aml_method) : ctx_ok x -> gpe_method_step x m = Ret x' ->
  ctx_ok x' /\ has_pwrb_device (pwr_info x') = has_pwrb_device (pwr_info x) /\ initialized x' = initialized x.
Proof.
  intros Hx E. unfold gpe_method_step in E. destruct (_ || _); [| by simplify_eq]. destruct (_ <? 32)%nat eqn:Hc; [| by simplify_eq].
  apply Nat.ltb_lt in Hc. inv_ret. destruct (32 <=? _)%nat; [done |]. inv_ret. simplify_eq. split; [| split; [by destruct a0 | done]].
  destruct Hx. split; try done; cbn; [by rewrite length_insert | lia].
Qed.

Lemma gpe_methods_ok (ms : list aml_method) (x x' : aml_context S) : ctx_ok x -> gpe_methods x ms = Ret x' ->
  ctx_ok x' /\ has_pwrb_device (pwr_info x') = has_pwrb_device (pwr_info x) /\ initialized x' = initialized x.
Proof.
  revert x. induction ms as [|m ms IH]; intros x Hx E; cbn [gpe_methods] in E; [by simplify_eq |]. inv_ret.
  apply gpe_step_ok in E0 as (H1 & H2 & H3); [| done]. destruct (IH _ H1 E) as (G1 & G2 & G3). split; [done |]. split; congruence.
Qed.

(** When the start of the context returns (a method whose name does not fit its buffer is a
    crash, and some tables make the parser run for ever, as [aml_empty_device_endless] shows),
    the counts of the context are in bounds and its names fit.  The device of a power button that parsing found is forgotten: the
    search starts by clearing it, so only a method with a Notify can be found. *)
Theorem aml_init_context_ok (fuel : nat) (s : S) (dsdt : option (list Z)) (ssdts : list (option (list Z))) (r : bool) (x : aml_context S) :
  aml_init_context fuel s dsdt ssdts = Ret (r, x) ->
  ctx_ok x /\ has_pwrb_device (pwr_info x) = false /\ (r = true <-> is_Some dsdt) /\ (r = true -> stack x = [] /\ initialized x = true).
Proof.
  unfold aml_init_context. set (x0 := mk_aml s ∅ 0 [] [] [] no_pwr (replicate 32 no_gpe) 0 ∅ [0] false).
  assert (Hx0 : ctx_ok x0) by (split; unfold named; cbn; (lia || apply Forall_nil_2 || done)).
  intros E. destruct dsdt as [d |]; [| simplify_eq; split_and!; done].
  inv_ret. apply parse_all_ok in E0; [| done]. destruct a0 as [b y]. simplify_eq. unfold aml_find_power_button in E1. cbn [initialized negb] in E1. inv_ret.
  apply gpe_methods_ok in E as (G1 & G2 & G3); [| destruct E0; split; try done; cbn; lia]. cbn in G2, G3.
  destruct (_ || _); simplify_eq; (split; [by destruct G1 |]; split; [done |]; split; [by split |]; by split).
Qed.
End bounds.

(** * What the parser misses *)

Section misses.
Context {S : Type} `{BlockAlloc S}.

(** A device whose package length is 0 is never passed: the parser of the DSDT does not
    end, whatever the fuel. *)
Theorem aml_empty_device_endless (fuel : nat) (x : aml_context S) (header rest : list Z) (ssdts : list (option (list Z))) :
  length header = 36%nat ->
  forall y, aml_parse_all_tables fuel x (Some (header ++ [AML_EXT_OP_PREFIX; AML_EXT_DEVICE_OP; 0] ++ rest)) ssdts <> Ret y.
Proof.
  intros Hh y E. unfold aml_parse_all_tables in E. inv_ret. destruct a as [[p bs] s]. destruct (p =? 0); [done |]. inv_ret. clear E. rename E1 into E.
  unfold parse_table in E. set (data := header ++ [AML_EXT_OP_PREFIX; AML_EXT_DEVICE_OP; 0] ++ rest) in *. set (len := Z.of_nat (length data)) in *.
  assert (Hl : 39 <= len) by (unfold len, data; rewrite !length_app, Hh; cbn [length]; lia). replace (TABLE_HEADER <? len) with true in E by (unfold TABLE_HEADER; lia).
  assert (B : forall i c, [AML_EXT_OP_PREFIX; AML_EXT_DEVICE_OP; 0] !! i = Some c -> byte_at data (36 + Z.of_nat i) = Ret c).
  { intros i c Hi. replace 36 with (Z.of_nat (length header)) by lia. by apply (byte_at_mid _ _ _ _ i). }
  pose proof (B 0%nat _ eq_refl) as B0. pose proof (B 1%nat _ eq_refl) as B1. pose proof (B 2%nat _ eq_refl) as B2.
  change (36 + Z.of_nat 0) with 36 in B0. change (36 + Z.of_nat 1) with 37 in B1. change (36 + Z.of_nat 2) with 38 in B2. clearbody len data. clear B.
  assert (Hd : forall z, device_header z data len 36 = Ret (z, 36, None)).
  { intros z. unfold device_header. replace (len <=? 36) with false by lia. replace (len <=? 36 + 1) with false by lia. change (36 + 1) with 37. rewrite B1. cbn [obind].
    change (negb (AML_EXT_DEVICE_OP =? AML_EXT_DEVICE_OP)) with false. cbn iota. unfold aml_get_pkg_length. replace (len <=? 36 + 2) with false by lia.
    change (36 + 2) with 38. rewrite B2. done. }
  revert E. generalize (with_scope (mk_aml s (<[p := root_of]> (nodes x)) p (current_scope x) (methods x) (regions x) (pwr_info x) (gpes x) (gpe_count x) (objects x) (stack x) (initialized x)) [BACKSLASH]).
  change TABLE_HEADER with 36. induction fuel as [|fuel IH]; intros z E; [done |]. cbn [dsdt_loop] in E. replace (len <=? 36) with false in E by lia. rewrite B0 in E. cbn [obind] in E.
  replace ((AML_EXT_OP_PREFIX =? AML_EXT_OP_PREFIX) && (36 + 1 <? len)) with true in E by (symmetry; apply andb_true_iff; split; [done | lia]).
  change (36 + 1) with 37 in E. rewrite B1 in E. cbn [obind] in E. change (AML_EXT_DEVICE_OP =? AML_EXT_DEVICE_OP) with true in E. cbn iota in E.
  destruct fuel as [|fuel']; [done |]. cbn [aml_parse_device] in E. rewrite Hd in E. cbn [obind] in E. by apply (IH z).
Qed.

(** A number whose bytes are cut off at the end of a method is read again and again: the
    execution does not end. *)
Theorem aml_truncated_endless (fuel : nat) (pre : list Z) (x : aml_context S) r :
  aml_execute_bytecode fuel x (pre ++ [AML_BYTE_PREFIX]) (Z.of_nat (length (pre ++ [AML_BYTE_PREFIX]))) (Z.of_nat (length pre)) <> Ret r.
Proof.
  set (len := Z.of_nat (length (pre ++ [AML_BYTE_PREFIX]))). assert (Hl : len = Z.of_nat (length pre) + 1) by (unfold len; rewrite length_app; cbn [length]; lia).
  assert (B : byte_at (pre ++ [AML_BYTE_PREFIX]) (Z.of_nat (length pre)) = Ret AML_BYTE_PREFIX).
  { replace (Z.of_nat (length pre)) with (Z.of_nat (length pre) + 0) by lia. rewrite <- (app_nil_r [AML_BYTE_PREFIX]). by apply (byte_at_mid _ _ _ 0 0%nat). }
  revert x r. induction fuel as [|fuel IH]; intros x r E; [done |]. cbn [aml_execute_bytecode] in E. replace (len <=? Z.of_nat (length pre)) with false in E by lia.
  unfold exec_step in E. rewrite B in E. cbn [obind] in E.
  change ((AML_BYTE_PREFIX =? AML_BYTE_PREFIX) || (AML_BYTE_PREFIX =? AML_WORD_PREFIX) || (AML_BYTE_PREFIX =? AML_DWORD_PREFIX) || (AML_BYTE_PREFIX =? AML_QWORD_PREFIX)) with true in E.
  change (AML_BYTE_PREFIX =? AML_ZERO_OP) with false in E. change (AML_BYTE_PREFIX =? AML_ONE_OP) with false in E. change (AML_BYTE_PREFIX =? AML_ONES_OP) with false in E. cbn iota in E.
  assert (Ep : aml_parse_integer (pre ++ [AML_BYTE_PREFIX]) len (Z.of_nat (length pre)) = Ret (0, Z.of_nat (length pre))).
  { unfold aml_parse_integer. replace (len <=? Z.of_nat (length pre)) with false by lia. rewrite B. cbn [obind].
    change (AML_BYTE_PREFIX =? AML_ZERO_OP) with false. change (AML_BYTE_PREFIX =? AML_ONE_OP) with false. change (AML_BYTE_PREFIX =? AML_ONES_OP) with false.
    change (AML_BYTE_PREFIX =? AML_BYTE_PREFIX) with true. cbn iota. by replace (Z.of_nat (length pre) + 2 <=? len) with false by lia. }
  rewrite Ep in E. cbn [obind] in E. destruct (push_integer x 0) as [x' | |]; [| done | done]. cbn [obind] in E. inv_ret. by apply IH in E0.
Qed.

(** Every name in the scope of the root starts with a backslash and a dot, and the first
    component that is looked up is then empty: nothing is found under such a name, as long
    as no node has an empty name. *)
Theorem aml_scoped_lookup_fails (x : aml_context S) (rest : list Z) (r : Z) :
  (forall a n, nodes x !! a = Some n -> nd_simple n <> []) ->
  aml_namespace_lookup x (BACKSLASH :: DOT :: rest) = Ret r -> r = 0.
Proof.
  intros Hn E. unfold aml_namespace_lookup in E. inv_ret. unfold path_copy in E0. destruct (_ <=? _)%nat; [done |]. inv_ret.
  change (BACKSLASH =? BACKSLASH) with true in E. cbn iota in E. cbn [lookup_path split_dot] in E. change (DOT =? DOT) with true in E. cbn iota in E. inv_ret.
  assert (Hf : forall n c v, find_child n x c [] = Ret v -> v = 0).
  { clear -Hn. induction n as [|n IH]; intros c v E; [done |]. cbn [find_child] in E. destruct (c =? 0); [by simplify_eq |]. inv_ret.
    unfold node_of in E0. destruct (nodes x !! c) as [nd |] eqn:Ec; [| done]. cbn in E0. simplify_eq.
    rewrite bool_decide_eq_false_2 in E by (by eapply Hn). by eapply IH. }
  apply Hf in E1. subst. cbn [Z.eqb] in E. by simplify_eq.
Qed.
End misses.

(** * Concrete tables *)

#[export, refine] Instance bump_objects : ObjAlloc Z := {
  heap_has s os := 0 < s /\ forall p v, os !! p = Some v -> p < s
}.
Proof.
  - intros s os [Hs Ho]. exists s, (replicate (Z.to_nat SIZEOF_OBJECT) 0), (s + SIZEOF_OBJECT). unfold SIZEOF_OBJECT. split; [done |]. split; [lia |]. split.
    + destruct (os !! s) eqn:E; [| done]. apply Ho in E. lia.
    + intros v. split; [lia |]. intros p w Hp. destruct (decide (p = s)) as [-> | Hne]; [lia |]. rewrite lookup_insert_ne in Hp by done. apply Ho in Hp. lia.
  - intros s os p v [Hs Ho] Hp. exists s. split; [done |]. split; [done |]. intros q w Hq. apply lookup_delete_Some in Hq as [_ Hq]. by eapply Ho.
Defined.

Definition demo_ctx : aml_context Z := mk_aml 4096 ∅ 0 [] [] [] no_pwr (replicate 32 no_gpe) 0 ∅ [] true.

(** 1000 - (7 + 0xFF) *)
Definition demo_expr : expr := Minus (Const 1000) (Plus (Const 7) (Const 0xFF)).


Lemma aml_prefix_not_computed_witness :
  exists x' p q, aml_execute_bytecode 4 demo_ctx ([AML_ADD_OP] ++ enc_int 2 ++ enc_int 3 ++ [AML_RETURN_OP]) 6 0 = Ret (x', []) /\
    stack x' = [q; p].
Proof.
  destruct (aml_prefix_not_computed 2 3 demo_ctx 4) as (x' & p & q & E & Hs & _); [split; lia | split; lia | | reflexivity | lia |].
  - split; [reflexivity |]. intros p v Hp. change (objects demo_ctx) with (∅ : gmap Z Z) in Hp. by rewrite lookup_empty in Hp.
  - exists x', p, q. split; [exact E | exact Hs].
Defined.

(** A table with a power button device and the method \_GPE._L02. *)
Definition demo_dsdt : list Z :=
  replicate 36 0 ++ [0x5B; 0x82; 10] ++ PWRB ++ [0; 0; 0] ++ [0x14; 16] ++ [92; 0x2E; 95; 71; 80; 69; 95; 76; 48; 50] ++ [0; 0x86; 0; 0; 0].

Definition demo_started : bool * aml_context Z :=
  match aml_init_context 100 4096 (Some demo_dsdt) [] with Ret r => r | _ => (false, demo_ctx) end.

Lemma aml_init_context_ok_witness : ctx_ok demo_started.2 /\ has_pwrb_device (pwr_info demo_started.2) = false /\ length (methods demo_started.2) = 1%nat.
Proof.
  destruct (aml_init_context_ok 100 4096 (Some demo_dsdt) [] demo_started.1 demo_started.2) as (H1 & H2 & _).
  - vm_compute. reflexivity.
  - split; [exact H1 |]. split; [exact H2 |]. vm_compute. reflexivity.
Defined.

Lemma aml_empty_device_endless_witness :
  ~ exists y, aml_parse_all_tables 50 demo_ctx (Some (replicate 36 0 ++ [AML_EXT_OP_PREFIX; AML_EXT_DEVICE_OP; 0] ++ [1])) [] = Ret y.
Proof. intros [y E]. exact (aml_empty_device_endless 50 demo_ctx (replicate 36 0) [1] [] eq_refl y E). Defined.

Lemma aml_scoped_lookup_fails_witness : aml_namespace_lookup demo_started.2 (BACKSLASH :: DOT :: PWRB) = Ret 0.
Proof.
  assert (Hall : bool_decide (map_Forall (fun _ n => nd_simple n <> []) (nodes demo_started.2)) = true) by (vm_compute; reflexivity).
  apply bool_decide_eq_true in Hall.
  assert (E : exists r, aml_namespace_lookup demo_started.2 (BACKSLASH :: DOT :: PWRB) = Ret r) by (eexists; vm_compute; reflexivity).
  destruct E as [r E]. rewrite E. f_equal. exact (aml_scoped_lookup_fails demo_started.2 PWRB r Hall E).
Defined.
