(* ===== verification/Errlist.v ===== *)
(** The list of errors and warnings, src/kernel/errlist.c: its table of entries, the
    removal and the search of entries.  What is printed is in Terminal.v, which the list and the
    terminal call in turn.  A C string is the list of its characters. *)

From S2P Require Import Prelude Ktime Aml.

Definition ERRLIST_MAX_ENTRIES : Z := 4096.
Definition ERRLIST_MAX_SUBSYSTEM : Z := 4096.
Definition ERRLIST_MAX_MESSAGE : Z := 256.

Record errlist_entry := mk_entry {
  e_subsystem : list Z; e_message : list Z; e_code : Z; e_time : clock_time; e_is_error : bool;
  e_line : Z; e_file : list Z
}.

Record errlist := mk_errs { e_entries : list errlist_entry; e_count : Z; e_enabled : bool }.

Definition zero_entry : errlist_entry := mk_entry [] [] 0 (mk_clock 0 0 0 0) false 0 [].

(** [memset] of the whole structure. *)
Definition errlist_zero : errlist :=
  mk_errs (replicate (Z.to_nat ERRLIST_MAX_ENTRIES) zero_entry) 0 true.

(** What [strncpy(dst, s, n)] leaves in a field of [n + 1] bytes whose last byte is 0. *)
Definition field_text (n : Z) (s : list Z) : list Z := take (Z.to_nat n) s.

(** [errlist_add_ext] up to [count++]; [None] where it returns before. *)
Definition errlist_store (l : errlist) (now : clock_time) (subsystem message : option (list Z)) (code : Z)
    (is_error : bool) (file : option (list Z)) (line : Z) : outcome (option errlist) :=
  if negb (e_enabled l) then Ret None
  else if ERRLIST_MAX_ENTRIES <=? e_count l then Ret None
  else match subsystem, message with
       | Some sub, Some msg =>
           if Z.of_nat (length (e_entries l)) <=? e_count l then Crash
           else
             let '(fl, ln) := match file with Some f => (field_text 63 f, line) | None => ([], 0) end in
             let e := mk_entry (field_text (ERRLIST_MAX_SUBSYSTEM - 1) sub) (field_text (ERRLIST_MAX_MESSAGE - 1) msg)
                        code now is_error ln fl in
             Ret (Some (mk_errs (<[Z.to_nat (e_count l) := e]> (e_entries l)) (u32 (e_count l + 1)) (e_enabled l)))
       | _, _ => Ret None
       end.

(** * Removal *)

(** The loop of both removals, which moves the entries to keep to the front. *)
Definition errlist_compact (keep : errlist_entry -> bool) (l : errlist) : outcome errlist :=
  (do '(es, new_count) <-
     ofor_from 0 (Z.to_nat (e_count l))
       (fun i '(es, new_count) =>
          do e <- of_option (es !! Z.to_nat i);
          if keep e then
            Ret (if new_count =? i then es else <[Z.to_nat new_count := e]> es, u32 (new_count + 1))
          else Ret (es, new_count)) (e_entries l, 0);
   Ret (mk_errs es new_count (e_enabled l)))%out.

Definition in_subsystem (subsystem : list Z) (e : errlist_entry) : bool := bool_decide (e_subsystem e = subsystem).

Definition errlist_remove_subsystem (l : errlist) (subsystem : list Z) : outcome errlist :=
  errlist_compact (fun e => negb (in_subsystem subsystem e)) l.

Definition errlist_remove_code (l : errlist) (code : Z) : outcome errlist :=
  errlist_compact (fun e => negb (e_code e =? code)) l.

(** * Search *)

(** The loop of the three searches; the result is the filled part of the static array. *)
Definition errlist_search (test : errlist_entry -> bool) (l : errlist) : outcome (list errlist_entry) :=
  ofor_from 0 (Z.to_nat (e_count l))
    (fun i results =>
       if Z.of_nat (length results) <? ERRLIST_MAX_ENTRIES then
         (do e <- of_option (e_entries l !! Z.to_nat i);
          Ret (if test e then results ++ [e] else results))%out
       else Ret results) [].

Definition errlist_find_by_subsystem (l : errlist) (subsystem : list Z) : outcome (list errlist_entry) :=
  errlist_search (in_subsystem subsystem) l.

Definition errlist_find_by_code (l : errlist) (code : Z) : outcome (list errlist_entry) :=
  errlist_search (fun e => e_code e =? code) l.

Definition errlist_find_by_message (l : errlist) (substr : list Z) : outcome (list errlist_entry) :=
  errlist_search (fun e => occurs (e_message e) substr) l.

(** * Counts *)

Definition errlist_get_count (l : errlist) : Z := e_count l.

(** The loop of both counts. *)
Definition errlist_tally (test : errlist_entry -> bool) (l : errlist) : outcome Z :=
  ofor_from 0 (Z.to_nat (e_count l))
    (fun i n => (do e <- of_option (e_entries l !! Z.to_nat i); Ret (if test e then u32 (n + 1) else n))%out) 0.

Definition errlist_get_error_count (l : errlist) : outcome Z := errlist_tally e_is_error l.
Definition errlist_get_warning_count (l : errlist) : outcome Z := errlist_tally (fun e => negb (e_is_error e)) l.

(** * The entries in use *)

Definition live (l : errlist) : list errlist_entry := take (Z.to_nat (e_count l)) (e_entries l).

Definition errs_ok (l : errlist) : Prop :=
  length (e_entries l) = Z.to_nat ERRLIST_MAX_ENTRIES /\ 0 <= e_count l <= ERRLIST_MAX_ENTRIES.

Lemma errlist_zero_ok : errs_ok errlist_zero.
Proof. unfold errs_ok, errlist_zero, e_entries, e_count. rewrite length_replicate. unfold ERRLIST_MAX_ENTRIES. lia. Qed.

Lemma live_length (l : errlist) : errs_ok l -> Z.of_nat (length (live l)) = e_count l.
Proof. intros [L C]. unfold live. rewrite length_take. lia. Qed.

Lemma live_lookup (l : errlist) (i : nat) : errs_ok l -> (i < Z.to_nat (e_count l))%nat ->
  exists e, e_entries l !! i = Some e /\ live l !! i = Some e.
Proof.
  intros [L C] Hi. destruct (lookup_lt_is_Some_2 (e_entries l) i) as [e He]; [lia |].
  exists e. split; [done |]. unfold live. by rewrite lookup_take_lt.
Qed.

(** Adding an entry. *)
Lemma errlist_store_ok (l : errlist) (now : clock_time) (sub msg : list Z) (code : Z) (is_error : bool)
    (file : option (list Z)) (line : Z) :
  errs_ok l -> e_enabled l = true ->
  if e_count l <? ERRLIST_MAX_ENTRIES then
    exists l' e, errlist_store l now (Some sub) (Some msg) code is_error file line = Ret (Some l') /\ errs_ok l' /\
      e_enabled l' = true /\ live l' = live l ++ [e] /\ e_code e = code /\ e_is_error e = is_error /\ e_time e = now /\
      e_subsystem e = field_text (ERRLIST_MAX_SUBSYSTEM - 1) sub /\
      e_message e = field_text (ERRLIST_MAX_MESSAGE - 1) msg
  else errlist_store l now (Some sub) (Some msg) code is_error file line = Ret None.
Proof.
  intros [L C] En. unfold errlist_store. rewrite En. cbn [negb].
  destruct (Z.ltb_spec (e_count l) ERRLIST_MAX_ENTRIES) as [Hlt | Hge].
  - replace (ERRLIST_MAX_ENTRIES <=? e_count l) with false by lia.
    replace (Z.of_nat (length (e_entries l)) <=? e_count l) with false by lia.
    destruct (match file with Some f => _ | None => _ end) as [fl ln].
    do 2 eexists. split; [reflexivity |]. unfold errs_ok, live. cbn [e_entries e_count e_enabled].
    unfold ERRLIST_MAX_ENTRIES in *. rewrite wrap_small by (unfold fits; lia). rewrite length_insert.
    split; [lia |]. split; [done |].
    replace (Z.to_nat (e_count l + 1)) with (S (Z.to_nat (e_count l))) by lia.
    erewrite take_S_r by (apply list_lookup_insert_eq; lia). rewrite take_insert_ge by lia.
    split; [reflexivity |]. split_and!; reflexivity.
  - by replace (ERRLIST_MAX_ENTRIES <=? e_count l) with true by lia.
Qed.

(** The shape of all the loops over the entries. *)
Lemma over_live {A} (l : errlist) (P : list errlist_entry -> A -> Prop) (body : Z -> A -> outcome A) (a : A) :
  errs_ok l -> P [] a ->
  (forall i e x, live l !! i = Some e -> P (take i (live l)) x ->
     exists y, body (Z.of_nat i) x = Ret y /\ P (take (S i) (live l)) y) ->
  exists b, ofor_from 0 (Z.to_nat (e_count l)) body a = Ret b /\ P (live l) b.
Proof.
  intros Hok H0 Hs.
  destruct (ofor_from_inv (fun i x => P (take (Z.to_nat i) (live l)) x) 0 (Z.to_nat (e_count l)) body a) as (b & E & Hb).
  - done.
  - intros i x Hi Hx. destruct (live_lookup l (Z.to_nat i) Hok) as (e & _ & He); [lia |].
    destruct (Hs (Z.to_nat i) e x He Hx) as (y & Ey & Hy). rewrite Z2Nat.id in Ey by lia.
    exists y. split; [done |]. by replace (Z.to_nat (i + 1)) with (S (Z.to_nat i)) by lia.
  - exists b. split; [done |]. rewrite take_ge in Hb; [done |]. pose proof (live_length l Hok). lia.
Qed.

Lemma errlist_search_ok (test : errlist_entry -> bool) (l : errlist) :
  errs_ok l -> errlist_search test l = Ret (filter (fun e => test e) (live l)).
Proof.
  intros Hok. unfold errlist_search.
  destruct (over_live l (fun done r => r = filter (fun e => test e) done)
    (fun i results =>
       if Z.of_nat (length results) <? ERRLIST_MAX_ENTRIES then
         (do e <- of_option (e_entries l !! Z.to_nat i);
          Ret (if test e then results ++ [e] else results))%out
       else Ret results) []) as (b & -> & ->); [done | done | | done].
  intros i e x He ->. pose proof (lookup_lt_Some _ _ _ He) as Hi. pose proof (live_length l Hok) as HL.
  destruct Hok as [L C].
  assert (He' : e_entries l !! i = Some e) by (unfold live in He; rewrite lookup_take_lt in He by lia; done).
  pose proof (length_filter (fun e => test e) (take i (live l))) as Hf. rewrite length_take in Hf.
  eexists. split; [| reflexivity].
  replace (_ <? ERRLIST_MAX_ENTRIES) with true by lia. rewrite Nat2Z.id, He'. cbn [of_option obind].
  rewrite (take_S_r _ _ e) by done. rewrite filter_app, filter_cons, filter_nil.
  by destruct (test e); [| rewrite app_nil_r].
Qed.

Lemma errlist_tally_ok (test : errlist_entry -> bool) (l : errlist) :
  errs_ok l -> errlist_tally test l = Ret (Z.of_nat (length (filter (fun e => test e) (live l)))).
Proof.
  intros Hok. unfold errlist_tally.
  destruct (over_live l (fun done r => r = Z.of_nat (length (filter (fun e => test e) done)))
    (fun i n => (do e <- of_option (e_entries l !! Z.to_nat i); Ret (if test e then u32 (n + 1) else n))%out) 0)
    as (b & -> & ->); [done | done | | done].
  intros i e x He ->. pose proof (lookup_lt_Some _ _ _ He) as Hi. pose proof (live_length l Hok) as HL.
  destruct Hok as [L C].
  assert (He' : e_entries l !! i = Some e) by (unfold live in He; rewrite lookup_take_lt in He by lia; done).
  pose proof (length_filter (fun e => test e) (take i (live l))) as Hf. rewrite length_take in Hf.
  eexists. split; [| reflexivity]. rewrite Nat2Z.id, He'. cbn [of_option obind].
  rewrite (take_S_r _ _ e) by done. rewrite filter_app, filter_cons, filter_nil, length_app.
  unfold ERRLIST_MAX_ENTRIES in *. set (k := length (filter _ (take i (live l)))) in *.
  apply (f_equal Ret). rewrite Nat2Z.inj_add. case_decide as Ht; destruct (test e); try done; [rewrite wrap_small by (unfold fits; lia) |]; cbn [length]; lia.
Qed.

(** Removal in place is the filter of the entries in use. *)
Lemma errlist_compact_ok (keep : errlist_entry -> bool) (l : errlist) :
  errs_ok l -> exists l', errlist_compact keep l = Ret l' /\ errs_ok l' /\ e_enabled l' = e_enabled l /\
    live l' = filter (fun e => keep e) (live l).
Proof.
  intros Hok. unfold errlist_compact. pose proof (live_length l Hok) as HL.
  destruct (over_live l (fun seen '(es, n) =>
       let kept := filter (fun e => keep e) seen in
       length es = length (e_entries l) /\ n = Z.of_nat (length kept) /\ take (length kept) es = kept /\
       drop (length seen) es = drop (length seen) (e_entries l))
    (fun i '(es, new_count) =>
          (do e <- of_option (es !! Z.to_nat i);
          if keep e then
            Ret (if new_count =? i then es else <[Z.to_nat new_count := e]> es, u32 (new_count + 1))
          else Ret (es, new_count))%out) (e_entries l, 0)) as ([es n] & -> & L' & -> & T & _); [done | done | | ].
  - intros i e [es n] He (L & -> & T & D). pose proof (lookup_lt_Some _ _ _ He) as Hi. destruct Hok as [LL C].
    assert (He' : e_entries l !! i = Some e) by (unfold live in He; rewrite lookup_take_lt in He by lia; done).
    rewrite length_take, Nat.min_l in D by lia.
    assert (He2 : es !! i = Some e).
    { rewrite <- (Nat.add_0_r i), <- lookup_drop, D, lookup_drop, Nat.add_0_r. done. }
    rewrite Nat2Z.id, He2. cbn [of_option obind].
    set (kept := filter (fun e => keep e) (take i (live l))) in *.
    pose proof (length_filter (fun e => keep e) (take i (live l))) as Hf. fold kept in Hf. rewrite length_take in Hf.
    rewrite (take_S_r _ _ e) by done. rewrite filter_app, filter_cons, filter_nil, !length_app, length_take, Nat.min_l by lia.
    fold kept. unfold ERRLIST_MAX_ENTRIES in *.
    assert (D' : forall es', (forall j, (i < j)%nat -> es' !! j = es !! j) -> drop (i + 1) es' = drop (i + 1) (e_entries l)).
    { intros es' Hes. apply list_eq. intros j. rewrite !lookup_drop, Hes by lia.
      replace (i + 1 + j)%nat with (i + (1 + j))%nat by lia. by rewrite <- !lookup_drop, D. }
    case_decide as Hk; destruct (keep e); try done; eexists; (split; [reflexivity |]); cbn [length].
    + rewrite wrap_small by (unfold fits; lia).
      assert (G : forall es', es' !! length kept = Some e -> take (length kept) es' = kept -> take (length kept + 1) es' = kept ++ [e]).
      { intros es' E1 E2. rewrite Nat.add_1_r. erewrite take_S_r by done. by rewrite E2. }
      destruct (Z.eqb_spec (Z.of_nat (length kept)) (Z.of_nat i)) as [Eq | Ne].
      * split_and!; [done | lia | | by apply D']. apply G; [| done]. by replace (length kept) with i by lia.
      * rewrite Nat2Z.id. split_and!; [by rewrite length_insert | lia | |].
        -- apply G; [apply list_lookup_insert_eq; lia | by rewrite take_insert_ge].
        -- apply D'. intros j Hj. rewrite list_lookup_insert_ne by lia. done.
    + rewrite app_nil_r, Nat.add_0_r. split_and!; [done | done | done |]. by apply D'.
  - destruct Hok as [LL C]. pose proof (length_filter (fun e => keep e) (live l)) as Hf. 
    eexists. split; [reflexivity |]. unfold errs_ok. cbn [e_entries e_count e_enabled].
    split; [lia |]. split; [done |]. unfold live at 1. cbn [e_entries e_count]. by rewrite Nat2Z.id.
Qed.

(** * Theorems *)

(** Removal by code: the entries that are left are those with another code, in the old order,
    and none with the code is found any more; the table stays well-formed. *)
Theorem errlist_remove_code_spec (l : errlist) (code : Z) :
  errs_ok l -> exists l', errlist_remove_code l code = Ret l' /\ errs_ok l' /\
    live l' = filter (fun e => negb (e_code e =? code)) (live l) /\ errlist_find_by_code l' code = Ret [].
Proof.
  intros Hok. destruct (errlist_compact_ok (fun e => negb (e_code e =? code)) l Hok) as (l' & E & Hok' & _ & Hl).
  exists l'. split; [done |]. split; [done |]. split; [done |]. unfold errlist_find_by_code.
  rewrite errlist_search_ok, Hl by done. f_equal.
  rewrite list_filter_filter. clear.
  induction (live l) as [|e es IH]; [done |]. rewrite filter_cons, IH. case_decide as Hd; [| done]. destruct (e_code e =? code); naive_solver.
Qed.

(** Errors and warnings are all the entries there are. *)
Theorem errlist_counts (l : errlist) :
  errs_ok l -> exists n m, errlist_get_error_count l = Ret n /\ errlist_get_warning_count l = Ret m /\ n + m = errlist_get_count l.
Proof.
  intros Hok. unfold errlist_get_error_count, errlist_get_warning_count, errlist_get_count. rewrite !errlist_tally_ok by done.
  do 2 eexists. split; [reflexivity |]. split; [reflexivity |]. rewrite <- (live_length l Hok). clear.
  induction (live l) as [|e es IH]; [done |]. rewrite !filter_cons. repeat case_decide; destruct (e_is_error e); cbn [length]; naive_solver lia.
Qed.

Definition demo_entry (code : Z) (err : bool) : errlist_entry := mk_entry [70; 83] [101] code (mk_clock 1 2 3 4) err 0 [].
Definition demo_list : errlist := mk_errs (demo_entry 5 true :: demo_entry 7 false :: replicate 4094 zero_entry) 2 true.

Lemma demo_list_ok : errs_ok demo_list.
Proof. unfold errs_ok, demo_list. cbn [e_entries e_count length]. rewrite length_replicate. unfold ERRLIST_MAX_ENTRIES. split; [by vm_compute | lia]. Qed.

Lemma errlist_remove_code_spec_witness : exists l', errlist_remove_code demo_list 5 = Ret l' /\ errs_ok l' /\
  live l' = [demo_entry 7 false] /\ errlist_find_by_code l' 5 = Ret [].
Proof. apply (errlist_remove_code_spec demo_list 5), demo_list_ok. Defined.

Lemma errlist_counts_witness : exists n m, errlist_get_error_count demo_list = Ret n /\ errlist_get_warning_count demo_list = Ret m /\ n + m = 2.
Proof. apply (errlist_counts demo_list), demo_list_ok. Defined.
