(* ===== verification/Terminal.v ===== *)
(** The terminal, src/kernel/terminal.c, with the printing half of src/kernel/errlist.c.

    The scroll buffer is a doubly linked list of lines in a store keyed by address; a line
    that is not in the store has been freed, and reading it is [Crash].  The text of a line
    is kept with it, together with the address of its block.  What goes to the screen is the
    list of calls of the frame buffer, which [run_draws] carries out on the model of Fb.v.  A C string is the list of its characters;
    [printed n text] is what [snprintf] leaves in a buffer of [n] bytes for a format that expands
    to [text] (Printf.v). *)

From stdpp Require Import strings.
From S2P Require Import Prelude Bytes LibMem NetBuf Printf Fb FbText Ktime Kbd Aml Errlist.

(** The characters of a literal. *)
Definition txt (s : string) : list Z := (fun a => Z.of_N (Ascii.N_of_ascii a)) <$> String.list_ascii_of_string s.

Definition DEFAULT_MAX_LINES : Z := 1000.
Definition SCROLLBAR_WIDTH : Z := 2.
Definition LINE_BUFFER_SIZE : Z := 1024.
Definition INPUT_BUFFER_SIZE : Z := 256.
Definition TERM_PATH_MAX : Z := 4096.
Definition SIZEOF_TERM_LINE : Z := 32.

(** FONT_HEIGHT + 2 *)
Definition ROW : Z := FONT_HEIGHT + 2.

Definition FB_WHITE : fb_color := mk_color 255 255 255 255.
Definition FB_GREEN : fb_color := mk_color 0 255 0 255.
Definition FB_GRAY : fb_color := mk_color 128 128 128 255.
Definition FB_DARK_GRAY : fb_color := mk_color 64 64 64 255.

Inductive term_mode := TERM_MODE_NORMAL | TERM_MODE_PROMPT | TERM_MODE_DEBUG.

#[export] Instance term_mode_eq_dec : EqDecision term_mode.
Proof. solve_decision. Defined.

Record term_line := mk_line { l_text : list Z; l_block : Z; l_color : fb_color; l_next : Z; l_prev : Z }.

Record terminal := mk_term {
  mode : term_mode; prompt_on : bool; input_enabled : bool;
  cursor_x : Z; cursor_y : Z; cursor_pos : Z;
  scroll_offset : Z; total_lines : Z; visible_lines : Z;
  lines_head : Z; lines_tail : Z; current_line : Z;
  input_buffer : list Z; input_pos : Z;
  auto_scroll : bool; max_buffer_lines : Z;
  color_fg : fb_color; color_bg : fb_color; prompt_color : fb_color; scrollbar_color : fb_color;
  info_color : fb_color; warn_color : fb_color; error_color : fb_color; debug_color : fb_color
}.

(** * The calls of the frame buffer *)

Inductive draw :=
| ClearBack
| FillRect (x y w h : Z) (c : fb_color)
| DrawString (s : list Z) (x y : Z) (fg bg : fb_color)
| ClearAll (c : fb_color)
| Swap.

Definition run_draw (fb : framebuffer) (d : draw) : outcome framebuffer :=
  match d with
  | ClearBack => fb_clear_back fb
  | FillRect x y w h c => fb_fill_rect fb x y w h c
  | DrawString s x y fg bg => fb_draw_string fb s x y fg bg
  | ClearAll c => fb_clear fb c
  | Swap => fb_swap_buffers fb
  end.

Fixpoint run_draws (fb : framebuffer) (ds : list draw) : outcome framebuffer :=
  match ds with
  | [] => Ret fb
  | d :: ds' => (do fb <- run_draw fb d; run_draws fb ds')%out
  end.

(** * The state

    The globals of the two files and the kernel heap. *)
Record tstate (S : Type) := mk_tstate {
  term : terminal; t_lines : gmap Z term_line; t_heap : S;
  line_buffer : list Z; line_pos : Z;
  draws : list draw; cursor_visible : bool; answer : list Z; errs : errlist
}.
Arguments mk_tstate {S}.
Arguments term {S}.
Arguments t_lines {S}.
Arguments t_heap {S}.
Arguments line_buffer {S}.
Arguments line_pos {S}.
Arguments draws {S}.
Arguments cursor_visible {S}.
Arguments answer {S}.
Arguments errs {S}.

(** What the code asks other components: the frame buffer, the path of the current
    directory ([None] at the root, [Some None] when [vfs_build_path] fails), the clock. *)
Record surroundings := mk_sur {
  sur_width : Z; sur_height : Z; sur_ready : bool; sur_cwd : option (option (list Z)); sur_now : clock_time
}.

(** [%d] and [%u]. *)
Definition dec (z : Z) : list Z := signed_field (mk_spec false false 0 (-1) NoMod) z.
Definition udec (z : Z) : list Z := unsigned_field (mk_spec false false 0 (-1) NoMod) z 10 false.

Definition printed (n : Z) (text : list Z) : list Z := take (Z.to_nat (n - 1)) text.

(** Updates of groups of fields. *)
Definition with_mode (t : terminal) (m : term_mode) (p : bool) : terminal :=
  mk_term m p (input_enabled t) (cursor_x t) (cursor_y t) (cursor_pos t) (scroll_offset t) (total_lines t) (visible_lines t)
    (lines_head t) (lines_tail t) (current_line t) (input_buffer t) (input_pos t) (auto_scroll t) (max_buffer_lines t)
    (color_fg t) (color_bg t) (prompt_color t) (scrollbar_color t) (info_color t) (warn_color t) (error_color t) (debug_color t).

Definition with_cursor (t : terminal) (x y : Z) : terminal :=
  mk_term (mode t) (prompt_on t) (input_enabled t) x y (cursor_pos t) (scroll_offset t) (total_lines t) (visible_lines t)
    (lines_head t) (lines_tail t) (current_line t) (input_buffer t) (input_pos t) (auto_scroll t) (max_buffer_lines t)
    (color_fg t) (color_bg t) (prompt_color t) (scrollbar_color t) (info_color t) (warn_color t) (error_color t) (debug_color t).

Definition with_scroll (t : terminal) (o : Z) (a : bool) : terminal :=
  mk_term (mode t) (prompt_on t) (input_enabled t) (cursor_x t) (cursor_y t) (cursor_pos t) o (total_lines t) (visible_lines t)
    (lines_head t) (lines_tail t) (current_line t) (input_buffer t) (input_pos t) a (max_buffer_lines t)
    (color_fg t) (color_bg t) (prompt_color t) (scrollbar_color t) (info_color t) (warn_color t) (error_color t) (debug_color t).

Definition with_visible (t : terminal) (v : Z) : terminal :=
  mk_term (mode t) (prompt_on t) (input_enabled t) (cursor_x t) (cursor_y t) (cursor_pos t) (scroll_offset t) (total_lines t) v
    (lines_head t) (lines_tail t) (current_line t) (input_buffer t) (input_pos t) (auto_scroll t) (max_buffer_lines t)
    (color_fg t) (color_bg t) (prompt_color t) (scrollbar_color t) (info_color t) (warn_color t) (error_color t) (debug_color t).

Definition with_list (t : terminal) (n h l c : Z) : terminal :=
  mk_term (mode t) (prompt_on t) (input_enabled t) (cursor_x t) (cursor_y t) (cursor_pos t) (scroll_offset t) n (visible_lines t)
    h l c (input_buffer t) (input_pos t) (auto_scroll t) (max_buffer_lines t)
    (color_fg t) (color_bg t) (prompt_color t) (scrollbar_color t) (info_color t) (warn_color t) (error_color t) (debug_color t).

Definition with_input (t : terminal) (e : bool) (b : list Z) (p c : Z) : terminal :=
  mk_term (mode t) (prompt_on t) e (cursor_x t) (cursor_y t) c (scroll_offset t) (total_lines t) (visible_lines t)
    (lines_head t) (lines_tail t) (current_line t) b p (auto_scroll t) (max_buffer_lines t)
    (color_fg t) (color_bg t) (prompt_color t) (scrollbar_color t) (info_color t) (warn_color t) (error_color t) (debug_color t).

Definition with_colors (t : terminal) (fg bg : fb_color) : terminal :=
  mk_term (mode t) (prompt_on t) (input_enabled t) (cursor_x t) (cursor_y t) (cursor_pos t) (scroll_offset t) (total_lines t)
    (visible_lines t) (lines_head t) (lines_tail t) (current_line t) (input_buffer t) (input_pos t) (auto_scroll t)
    (max_buffer_lines t) fg bg (prompt_color t) (scrollbar_color t) (info_color t) (warn_color t) (error_color t) (debug_color t).

Section state.
Context {S : Type}.

Definition with_term (s : tstate S) (t : terminal) : tstate S :=
  mk_tstate t (t_lines s) (t_heap s) (line_buffer s) (line_pos s) (draws s) (cursor_visible s) (answer s) (errs s).

Definition with_store (s : tstate S) (m : gmap Z term_line) (h : S) : tstate S :=
  mk_tstate (term s) m h (line_buffer s) (line_pos s) (draws s) (cursor_visible s) (answer s) (errs s).

Definition with_pending (s : tstate S) (b : list Z) (n : Z) : tstate S :=
  mk_tstate (term s) (t_lines s) (t_heap s) b n (draws s) (cursor_visible s) (answer s) (errs s).

Definition with_answer (s : tstate S) (a : list Z) : tstate S :=
  mk_tstate (term s) (t_lines s) (t_heap s) (line_buffer s) (line_pos s) (draws s) (cursor_visible s) a (errs s).

Definition with_blink (s : tstate S) (b : bool) : tstate S :=
  mk_tstate (term s) (t_lines s) (t_heap s) (line_buffer s) (line_pos s) (draws s) b (answer s) (errs s).

Definition with_errs (s : tstate S) (l : errlist) : tstate S :=
  mk_tstate (term s) (t_lines s) (t_heap s) (line_buffer s) (line_pos s) (draws s) (cursor_visible s) (answer s) l.

Definition drawing (s : tstate S) (ds : list draw) : tstate S :=
  mk_tstate (term s) (t_lines s) (t_heap s) (line_buffer s) (line_pos s) (draws s ++ ds) (cursor_visible s) (answer s) (errs s).

End state.

(** The characters of a buffer up to the terminator. *)
Fixpoint cstring (l : list Z) : list Z :=
  match l with
  | [] => []
  | c :: l' => if c =? 0 then [] else c :: cstring l'
  end.

(** * Wrapping *)

Definition max_chars (env : surroundings) : Z :=
  let m := i32 (u32 (sur_width env - SCROLLBAR_WIDTH - 4) / FONT_WIDTH) in
  if m <=? 0 then 80 else m.

(** [None] is the result -1; [max_len] is the size of the buffer [out], which the code does not
    look at. *)
Definition term_get_wrapped_line (env : surroundings) (line : term_line) (part max_len : Z) : outcome (option (list Z)) :=
  let len := Z.of_nat (length (l_text line)) in
  let start := part * max_chars env in
  if len <=? start then Ret None
  else
    let chunk := if len - start <? max_chars env then len - start else max_chars env in
    if max_len <=? chunk then Crash
    else Ret (Some (take (Z.to_nat chunk) (drop (Z.to_nat start) (l_text line)))).

Definition term_line_parts (env : surroundings) (line : term_line) : Z :=
  (Z.of_nat (length (l_text line)) + max_chars env - 1) / max_chars env.

Definition terminal_generate_prompt (env : surroundings) (buf_size : Z) : list Z :=
  printed buf_size
    match sur_cwd env with
    | Some (Some path) => path ++ txt "> "
    | _ => txt "/> "
    end.

(** The prompt and the input, as three places draw them. *)
Definition prompt_line (env : surroundings) (t : terminal) : list Z :=
  printed (TERM_PATH_MAX + 256)
    (terminal_generate_prompt env (TERM_PATH_MAX + 32) ++ cstring (input_buffer t)).

Definition prompting (t : terminal) : bool := prompt_on t && bool_decide (mode t = TERM_MODE_PROMPT).

(** * Drawing *)

(** [term_calc_visible_lines] *)
Definition term_calc_visible_lines (env : surroundings) (t : terminal) : terminal :=
  let v := i32 (sur_height env / ROW) in
  with_visible t (if prompting t then i32 (v - 1) else v).

Definition term_draw_scrollbar (env : surroundings) (t : terminal) : outcome (list draw) :=
  if total_lines t <=? visible_lines t then Ret []
  else if total_lines t =? 0 then Crash
  else
    let screen_height := i32 (sur_height env) in
    let bar_height := Z.quot (i32 (screen_height * visible_lines t)) (total_lines t) in
    let bar_height := if bar_height <? 10 then 10 else bar_height in
    let scroll_pos := i32 (total_lines t - visible_lines t) in
    let current_scroll := i32 (scroll_pos - scroll_offset t) in
    let current_scroll := if current_scroll <? 0 then 0 else current_scroll in
    if scroll_pos =? 0 then Crash
    else
      let bar_y := Z.quot (i32 (i32 (screen_height - bar_height) * current_scroll)) scroll_pos in
      let bar_y := if bar_y <? 0 then 0 else bar_y in
      let bar_y := if screen_height <? i32 (bar_y + bar_height) then i32 (screen_height - bar_height) else bar_y in
      let x := i32 (sur_width env - SCROLLBAR_WIDTH) in
      Ret [FillRect x 0 SCROLLBAR_WIDTH screen_height FB_DARK_GRAY;
           FillRect x bar_y SCROLLBAR_WIDTH bar_height (scrollbar_color t)].

Definition term_draw_line (screen_line : Z) (text : list Z) (fg bg : fb_color) : draw :=
  DrawString text 2 (i32 (screen_line * ROW)) fg bg.

(** The row below the lines. *)
Definition prompt_y (t : terminal) : Z := i32 (visible_lines t * ROW).

Definition draw_prompt_text (env : surroundings) (t : terminal) : draw :=
  DrawString (prompt_line env t) 2 (prompt_y t) (prompt_color t) (color_bg t).

Definition term_draw_prompt (env : surroundings) (t : terminal) : list draw :=
  [FillRect 0 (prompt_y t) (sur_width env) (FONT_HEIGHT + 4) (color_bg t); draw_prompt_text env t].

(** [while (tmp) total_parts += ...]; the bound is one more than the lines there are. *)
Fixpoint count_parts (fuel : nat) (env : surroundings) (m : gmap Z term_line) (p n : Z) : outcome Z :=
  match fuel with
  | O => Crash
  | S fuel' =>
      (if p =? 0 then Ret n
       else
         do l <- of_option (m !! p);
         count_parts fuel' env m (l_next l) (i32 (n + term_line_parts env l)))%out
  end.

(** The inner loop of [terminal_refresh], over the parts of a line from part [p] on, of
    which [n] are left; [None] of the wrapped line would be an uninitialised buffer. *)
Fixpoint draw_parts (n : nat) (env : surroundings) (t : terminal) (l : term_line) (p start_part current_part drawn : Z)
    (ds : list draw) : outcome (Z * Z * list draw) :=
  match n with
  | O => Ret (current_part, drawn, ds)
  | S n' =>
      (if visible_lines t <=? drawn then Ret (current_part, drawn, ds)
       else if start_part <=? current_part then
         do w <- term_get_wrapped_line env l p 256;
         do buffer <- of_option w;
         draw_parts n' env t l (p + 1) start_part (current_part + 1) (drawn + 1)
           (ds ++ [term_draw_line drawn buffer (l_color l) (color_bg t)])
       else draw_parts n' env t l (p + 1) start_part (current_part + 1) drawn ds)%out
  end.

Fixpoint draw_lines (fuel : nat) (env : surroundings) (t : terminal) (m : gmap Z term_line) (a start_part current_part drawn : Z)
    (ds : list draw) : outcome (list draw) :=
  match fuel with
  | O => Crash
  | S fuel' =>
      (if (a =? 0) || (visible_lines t <=? drawn) then Ret ds
       else
         do l <- of_option (m !! a);
         do '(current_part, drawn, ds) <-
           draw_parts (Z.to_nat (term_line_parts env l)) env t l 0 start_part current_part drawn ds;
         draw_lines fuel' env t m (l_next l) start_part current_part drawn ds)%out
  end.

Definition walk_fuel (m : gmap Z term_line) : nat := S (size m).

(** Which part to start displaying from. *)
Definition start_part (t : terminal) (total_parts : Z) : Z :=
  if 0 <? scroll_offset t then scroll_offset t
  else let p := i32 (total_parts - visible_lines t) in if p <? 0 then 0 else p.

Section ops.
Context {S : Type} `{BlockAlloc S} (env : surroundings).

Definition terminal_refresh (s : tstate S) : outcome (tstate S) :=
  (if negb (sur_ready env) then Ret s
   else
     let t := term_calc_visible_lines env (term s) in
     let m := t_lines s in
     do total_parts <- count_parts (walk_fuel m) env m (lines_head t) 0;
     do ds <- draw_lines (walk_fuel m) env t m (lines_head t) (start_part t total_parts) 0 0 [];
     do bar <- term_draw_scrollbar env t;
     Ret (drawing (with_term s t)
            ([ClearBack; FillRect 0 0 (sur_width env) (i32 (visible_lines t * ROW)) (color_bg t)] ++ ds ++ bar ++
             (if prompting t then term_draw_prompt env t else []) ++
             (if (0 <? line_pos s) && prompting t then [draw_prompt_text env t] else []) ++ [Swap])))%out.

Definition terminal_update_prompt_line (s : tstate S) : tstate S :=
  if negb (sur_ready env) then s
  else if negb (prompting (term s)) then s
  else drawing s (term_draw_prompt env (term s) ++ [Swap]).

(** * The scroll buffer *)

Definition link_next (m : gmap Z term_line) (p v : Z) : outcome (gmap Z term_line) :=
  (do l <- of_option (m !! p); Ret (<[p := mk_line (l_text l) (l_block l) (l_color l) v (l_prev l)]> m))%out.

Definition link_prev (m : gmap Z term_line) (p v : Z) : outcome (gmap Z term_line) :=
  (do l <- of_option (m !! p); Ret (<[p := mk_line (l_text l) (l_block l) (l_color l) (l_next l) v]> m))%out.

(** [free(line->text); free(line)] *)
Definition free_line (s : tstate S) (p : Z) (l : term_line) : outcome (tstate S) :=
  (do h <- ba_free (t_heap s) (l_block l);
   do h <- ba_free h p;
   Ret (with_store s (delete p (t_lines s)) h))%out.

(** The loop that keeps the buffer within [max_buffer_lines]. *)
Fixpoint term_evict (fuel : nat) (s : tstate S) : outcome (tstate S) :=
  match fuel with
  | O => Crash
  | Datatypes.S fuel' =>
      let t := term s in
      (if max_buffer_lines t <? u32 (total_lines t) then
         do old <- of_option (t_lines s !! lines_head t);
         let head := l_next old in
         do m <- (if head =? 0 then Ret (t_lines s) else link_prev (t_lines s) head 0);
         do s <- free_line (with_store s m (t_heap s)) (lines_head t) old;
         term_evict fuel' (with_term s (with_list t (i32 (total_lines t - 1)) head (lines_tail t) (current_line t)))
       else Ret s)%out
  end.

Definition term_add_line (s : tstate S) (text : list Z) (color : fb_color) : outcome (tstate S) :=
  (do '(p, _, h) <- ba_malloc (t_heap s) SIZEOF_TERM_LINE;
   if p =? 0 then Ret (with_store s (t_lines s) h)
   else
     do '(q, _, h) <- ba_malloc h (Z.of_nat (length text) + 1);
     if q =? 0 then do h <- ba_free h p; Ret (with_store s (t_lines s) h)
     else
       let t := term s in
       let m := <[p := mk_line text q color 0 (lines_tail t)]> (t_lines s) in
       do m <- (if lines_tail t =? 0 then Ret m else link_next m (lines_tail t) p);
       let head := if lines_tail t =? 0 then p else lines_head t in
       let total := i32 (total_lines t + 1) in
       let s := with_term (with_store s m h) (with_list t total head p (current_line t)) in
       do s <- term_evict (Datatypes.S (Z.to_nat total)) s;
       let t := term s in
       Ret (if auto_scroll t && (scroll_offset t =? 0)
            then with_term s (with_list t (total_lines t) (lines_head t) (lines_tail t) (lines_tail t)) else s))%out.

(** [for (i = 0; i < index && line; i++) line = line->next] *)
Fixpoint walk_to (n : nat) (m : gmap Z term_line) (p : Z) : outcome Z :=
  match n with
  | O => Ret p
  | Datatypes.S n' => (if p =? 0 then Ret p else do l <- of_option (m !! p); walk_to n' m (l_next l))%out
  end.

Definition term_get_line_ptr (s : tstate S) (index : Z) : outcome Z :=
  if (index <? 0) || (total_lines (term s) <=? index) then Ret 0
  else walk_to (Z.to_nat index) (t_lines s) (lines_head (term s)).

(** [while (line) ...] of both clearing functions. *)
Fixpoint free_lines (fuel : nat) (s : tstate S) (p : Z) : outcome (tstate S) :=
  match fuel with
  | O => Crash
  | Datatypes.S fuel' =>
      (if p =? 0 then Ret s
       else
         do l <- of_option (t_lines s !! p);
         do s <- free_line s p l;
         free_lines fuel' s (l_next l))%out
  end.

Definition drop_lines (s : tstate S) : outcome (tstate S) :=
  (do s <- free_lines (walk_fuel (t_lines s)) s (lines_head (term s));
   Ret (with_term s (with_scroll (with_list (term s) 0 0 0 0) 0 (auto_scroll (term s)))))%out.

Definition terminal_clear_screen (s : tstate S) : outcome (tstate S) :=
  (do s <- drop_lines s;
   let t := term s in
   let s := drawing s [FillRect 0 0 (sur_width env) (i32 (visible_lines t * ROW)) (color_bg t)] in
   Ret (if prompting t then terminal_update_prompt_line s else s))%out.

Definition terminal_clear_buffer (s : tstate S) : outcome (tstate S) :=
  (do s <- drop_lines s; terminal_refresh s)%out.

(** * Start and modes *)

Definition term_boot : terminal :=
  mk_term TERM_MODE_NORMAL false true 0 0 0 0 0 0 0 0 0 (replicate 256 0) 0 true DEFAULT_MAX_LINES
    FB_WHITE FB_BLACK FB_GREEN FB_GRAY (mk_color 0 100 255 255) (mk_color 255 165 0 255) (mk_color 255 50 50 255)
    (mk_color 128 128 128 255).

Definition terminal_init (s : tstate S) : tstate S := with_term s (term_calc_visible_lines env term_boot).

Definition terminal_set_mode (s : tstate S) (m : term_mode) : outcome (tstate S) :=
  terminal_refresh (with_term s (with_mode (term s) m (prompt_on (term s)))).

Definition terminal_enable_prompt (s : tstate S) (enable : bool) : outcome (tstate S) :=
  let t := term s in
  terminal_refresh (with_term s
    (if enable then with_input (with_mode t TERM_MODE_PROMPT true) (input_enabled t) (replicate 256 0) 0 (cursor_pos t)
     else with_mode t TERM_MODE_NORMAL false)).

Definition terminal_prompt_toggle (s : tstate S) : outcome (tstate S) :=
  terminal_enable_prompt s (negb (prompt_on (term s))).

(** * Scrolling *)

Definition terminal_scroll_up (s : tstate S) (lines : Z) : outcome (tstate S) :=
  let t := term s in
  if total_lines t <=? visible_lines t then Ret s
  else
    let max_scroll := i32 (total_lines t - visible_lines t) in
    let o := i32 (scroll_offset t + lines) in
    let o := if max_scroll <? o then max_scroll else o in
    let t := with_scroll t o (o =? 0) in
    let t := if o =? 0 then
               let y := i32 (visible_lines t - 1) in
               with_cursor t (cursor_x t) (if prompting t then i32 (y - 1) else y)
             else t in
    terminal_refresh (with_term s t).

Definition terminal_scroll_down (s : tstate S) (lines : Z) : outcome (tstate S) :=
  let t := term s in
  let o := i32 (scroll_offset t - lines) in
  let o := if o <? 0 then 0 else o in
  terminal_refresh (with_term s (with_scroll t o (o =? 0))).

Definition terminal_scroll_to_top (s : tstate S) : outcome (tstate S) := terminal_scroll_up s (total_lines (term s)).

Definition terminal_scroll_to_bottom (s : tstate S) : outcome (tstate S) := terminal_scroll_down s (total_lines (term s)).

Definition terminal_set_auto_scroll (s : tstate S) (enable : bool) : outcome (tstate S) :=
  let s := with_term s (with_scroll (term s) (scroll_offset (term s)) enable) in
  if enable then terminal_scroll_to_bottom s else Ret s.

Definition terminal_get_scroll_position (s : tstate S) : Z := scroll_offset (term s).

Definition terminal_show_scrollbar (s : tstate S) (show : bool) : tstate S := s.

(** * Output *)

Definition is_newline (c : Z) : bool := (c =? 10) || (c =? 13).

(** The loop of [terminal_print]: [seg] is the text from [line_start] to [p].  A line that
    ends inside the string is copied to a buffer of 1024 bytes. *)
Fixpoint print_loop (s : tstate S) (seg str : list Z) : outcome (tstate S) :=
  match str with
  | [] => match seg with [] => Ret s | _ => term_add_line s seg (color_fg (term s)) end
  | c :: str' =>
      (if is_newline c then
         do s <- (match seg with
                  | [] => term_add_line s [] (color_fg (term s))
                  | _ => if LINE_BUFFER_SIZE <=? Z.of_nat (length seg) then Crash else term_add_line s seg (color_fg (term s))
                  end);
         print_loop s [] str'
       else print_loop s (seg ++ [c]) str')%out
  end.

Definition terminal_print (s : tstate S) (str : list Z) : outcome (tstate S) :=
  (do s <- print_loop s [] str; terminal_refresh s)%out.

Definition terminal_print_color (s : tstate S) (str : list Z) (fg bg : fb_color) : outcome (tstate S) :=
  let '(old_fg, old_bg) := (color_fg (term s), color_bg (term s)) in
  (do s <- terminal_print (with_term s (with_colors (term s) fg bg)) str;
   Ret (with_term s (with_colors (term s) old_fg old_bg)))%out.

(** [text] is what the format and its arguments expand to. *)
Definition terminal_printf (s : tstate S) (text : list Z) : outcome (tstate S) := terminal_print s (printed 1024 text).

Definition terminal_newline (s : tstate S) : outcome (tstate S) := terminal_print s [10].

(** The branch of the newline of [terminal_putchar]. *)
Definition putchar_newline (s : tstate S) : outcome (tstate S) :=
  (do s <- (if 0 <? line_pos s then
              do s <- term_add_line s (cstring (line_buffer s)) (color_fg (term s));
              Ret (with_pending s (set (line_buffer s) 0 0) 0)
            else Ret s);
   let t := with_cursor (term s) 0 (i32 (cursor_y (term s) + 1)) in
   let max_y := if prompting t then i32 (visible_lines t - 1) else visible_lines t in
   do s <- (if max_y <=? cursor_y t then
              terminal_scroll_up (with_term s (with_cursor t 0 (i32 (max_y - 1)))) 1
            else Ret (with_term s t));
   terminal_refresh s)%out.

Definition cursor_draw (t : terminal) (str : list Z) (fg : fb_color) : draw :=
  DrawString str (i32 (2 + cursor_x t * FONT_WIDTH)) (i32 (cursor_y t * ROW)) fg (color_bg t).

Definition terminal_putchar (s : tstate S) (c : Z) : outcome (tstate S) :=
  let t := term s in
  if c =? 10 then putchar_newline s
  else if c =? 8 then
    if 0 <? cursor_x t then
      let t := with_cursor t (cursor_x t - 1) (cursor_y t) in
      Ret (drawing (with_term s t) [cursor_draw t [32] (color_bg t)])
    else Ret s
  else if (32 <=? c) && (c <? 127) then
    let s := drawing s [cursor_draw t [c] (color_fg t)] in
    let t := with_cursor t (i32 (cursor_x t + 1)) (cursor_y t) in
    let s := with_term s t in
    let max_x := i32 (u32 (sur_width env - SCROLLBAR_WIDTH - 4) / FONT_WIDTH) in
    if max_x <=? cursor_x t then putchar_newline s else Ret s
  else Ret s.

Definition terminal_print_nn (s : tstate S) (str : list Z) : tstate S :=
  let len := Z.of_nat (length str) in
  let s := if line_pos s + len <? LINE_BUFFER_SIZE - 1
           then with_pending s (splice (line_buffer s) (line_pos s) (str ++ [0])) (u32 (line_pos s + len)) else s in
  let s := drawing s [cursor_draw (term s) str (color_fg (term s))] in
  with_term s (with_cursor (term s) (i32 (cursor_x (term s) + len)) (cursor_y (term s))).

Definition terminal_printf_nn (s : tstate S) (text : list Z) : tstate S := terminal_print_nn s (printed 256 text).

(** * Messages with a colour *)

(** [errlist_add] with code 0: nothing is printed. *)
Definition errlist_note (s : tstate S) (subsystem message : list Z) (is_error : bool) : outcome (tstate S) :=
  (do r <- errlist_store (errs s) (sur_now env) (Some subsystem) (Some message) 0 is_error None 0;
   Ret (match r with Some l => with_errs s l | None => s end))%out.

Definition TERMINAL_TEXT : list Z := txt "TERMINAL".

Definition terminal_info_printf (s : tstate S) (text : list Z) : outcome (tstate S) :=
  terminal_print_color s (printed 1100 (printed 1024 text)) (info_color (term s)) (color_bg (term s)).

Definition terminal_warn_printf (s : tstate S) (text : list Z) : outcome (tstate S) :=
  (do s <- errlist_note s TERMINAL_TEXT (printed 1024 text) false;
   terminal_print_color s (printed 1100 (printed 1024 text)) (warn_color (term s)) (color_bg (term s)))%out.

Definition terminal_error_printf (s : tstate S) (text : list Z) : outcome (tstate S) :=
  (do s <- errlist_note s TERMINAL_TEXT (printed 1024 text) true;
   terminal_print_color s (printed 1100 (printed 1024 text)) (error_color (term s)) (color_bg (term s)))%out.

Definition terminal_debug_printf (s : tstate S) (text : list Z) : outcome (tstate S) :=
  terminal_print_color s (printed 1100 (printed 1024 text)) (debug_color (term s)) (color_bg (term s)).

Definition terminal_success_printf (s : tstate S) (text : list Z) : outcome (tstate S) :=
  terminal_print_color s (printed 1100 (printed 1024 text)) FB_GREEN (color_bg (term s)).

(** * Input *)

(** [terminal_getline] before its loop, and the condition under which the loop goes on. *)
Definition getline_begin (s : tstate S) : tstate S :=
  with_term s (with_input (term s) true (replicate 256 0) 0 (cursor_pos (term s))).

Definition getline_waits (t : terminal) : outcome bool :=
  if input_pos t =? 0 then Ret true
  else (do c <- of_option (get_chk (input_buffer t) (u32 (input_pos t - 1)));
        Ret (negb (c =? 10) && negb (c =? 13)))%out.

Definition terminal_input_available (s : tstate S) : bool := 0 <? input_pos (term s).

Definition terminal_update_cursor (s : tstate S) : outcome (tstate S) :=
  if negb (sur_ready env) then Ret s
  else if negb (prompting (term s)) then Ret s
  else
    let t := term s in
    let s := with_blink s (negb (cursor_visible s)) in
    let prompt_len := Z.of_nat (length (terminal_generate_prompt env (TERM_PATH_MAX + 32))) in
    let x := i32 (2 + (prompt_len + cursor_pos t) * FONT_WIDTH) in
    let at_cursor str := DrawString str x (prompt_y t) (prompt_color t) (color_bg t) in
    (if cursor_visible s then Ret (drawing s [at_cursor [95]])
     else
       do c <- (if u32 (cursor_pos t) <? input_pos t then of_option (get_chk (input_buffer t) (cursor_pos t)) else Ret 32);
       Ret (drawing s [at_cursor [c]]))%out.

(** The loop of [terminal_input]; [keys] are the results of [kbd_getchar], -1 when no key
    is there.  [None]: it still waits when they are used up. *)
Fixpoint input_loop (keys : list Z) (s : tstate S) (pos : Z) : outcome (option (tstate S)) :=
  if INPUT_BUFFER_SIZE - 1 <=? pos then Ret (Some s)
  else match keys with
       | [] => Ret None
       | c :: keys' =>
           (if c =? -1 then input_loop keys' s pos
            else if is_newline c then
              do b <- of_option (set_chk (answer s) pos 0);
              do s <- terminal_printf (with_answer s b) [10];
              Ret (Some s)
            else if c =? 8 then
              if 0 <? pos then input_loop keys' (terminal_print_nn s [8; 32; 8]) (pos - 1)
              else input_loop keys' s pos
            else if (32 <=? c) && (c <? 127) then
              do b <- of_option (set_chk (answer s) pos c);
              input_loop keys' (terminal_print_nn (with_answer s b) [c]) (pos + 1)
            else input_loop keys' s pos)%out
       end.

Definition terminal_input (s : tstate S) (prompt : option (list Z)) (keys : list Z) : outcome (option (list Z * tstate S)) :=
  let '(old_prompt, old_mode) := (prompt_on (term s), mode (term s)) in
  let s := with_term s (with_mode (term s) TERM_MODE_NORMAL false) in
  (do s <- terminal_printf s [10];
   let s := with_term s (with_cursor (term s) 0 (i32 (visible_lines (term s) - 1))) in
   let s := match prompt with Some p => terminal_print_nn s p | None => s end in
   do r <- input_loop keys s 0;
   match r with
   | None => Ret None
   | Some s =>
       let s := with_term s (with_mode (term s) old_mode old_prompt) in
       let s := if old_prompt then terminal_update_prompt_line s else s in
       Ret (Some (cstring (answer s), s))
   end)%out.

(** * The error list on the terminal *)

Definition errlist_add_ext (s : tstate S) (subsystem message : option (list Z)) (code : Z) (is_error : bool)
    (file : option (list Z)) (line : Z) : outcome (tstate S) :=
  (do r <- errlist_store (errs s) (sur_now env) subsystem message code is_error file line;
   match r, subsystem, message with
   | Some l, Some sub, Some msg =>
       let s := with_errs s l in
       if is_error && negb (code =? 0)
       then terminal_error_printf s (txt "[" ++ sub ++ txt "] " ++ msg ++ txt " (code=" ++
                                     dec code ++ txt ")" ++ [10])
       else Ret s
   | _, _, _ => Ret s
   end)%out.

Definition errlist_add (s : tstate S) (subsystem message : option (list Z)) (code : Z) (is_error : bool) : outcome (tstate S) :=
  errlist_add_ext s subsystem message code is_error None 0.

Definition errlist_init (s : tstate S) : outcome (tstate S) :=
  terminal_printf (with_errs s errlist_zero) (txt "[ERRLIST] Initialized" ++ [10]).

Definition errlist_clear (s : tstate S) : outcome (tstate S) :=
  terminal_printf (with_errs s errlist_zero) (txt "[ERRLIST] Cleared" ++ [10]).

Definition errlist_clear_by_subsystem (s : tstate S) (subsystem : option (list Z)) : outcome (tstate S) :=
  match subsystem with
  | None => Ret s
  | Some sub =>
      (do l <- errlist_remove_subsystem (errs s) sub;
       terminal_printf (with_errs s l) (txt "[ERRLIST] Cleared entries for subsystem: " ++ sub ++ [10]))%out
  end.

Definition errlist_clear_by_code (s : tstate S) (code : Z) : outcome (tstate S) :=
  (do l <- errlist_remove_code (errs s) code;
   terminal_printf (with_errs s l) (txt "[ERRLIST] Cleared entries with code: " ++ dec code ++ [10]))%out.

(** [[hh:mm:ss] ] *)
Definition stamp (e : errlist_entry) : list Z := txt "[" ++ cstring (format_clock (e_time e)) ++ txt "] ".

(** Printing a list of entries, each with the given calls. *)
Fixpoint show_entries (show : tstate S -> errlist_entry -> outcome (tstate S)) (s : tstate S) (es : list errlist_entry)
    : outcome (tstate S) :=
  match es with
  | [] => Ret s
  | e :: es' => (do s <- show s e; show_entries show s es')%out
  end.

Definition show_code (s : tstate S) (e : errlist_entry) : outcome (tstate S) :=
  if e_code e =? 0 then Ret s else terminal_printf s (txt " (code=" ++ dec (e_code e) ++ txt ")").

Definition errlist_show_all (s : tstate S) : outcome (tstate S) :=
  (do s <- terminal_printf s (txt "Error List (" ++ dec (e_count (errs s)) ++ txt " entries)" ++ [10]);
   if e_count (errs s) =? 0 then terminal_printf s (txt "No errors or warnings" ++ [10])
   else show_entries (fun s e =>
          do s <- terminal_printf s (stamp e ++ e_subsystem e);
          do s <- terminal_info_printf s (if e_is_error e then txt " ERROR" else txt " WARN");
          do s <- terminal_printf s (txt ": " ++ e_message e);
          do s <- show_code s e;
          do s <- (match e_file e with
                   | [] => Ret s
                   | f => terminal_printf s (txt " [" ++ f ++ txt ":" ++ udec (e_line e) ++ txt "]")
                   end);
          terminal_printf s [10]) s (live (errs s)))%out.

Definition errlist_show_by_subsystem (s : tstate S) (subsystem : list Z) : outcome (tstate S) :=
  (do es <- errlist_find_by_subsystem (errs s) subsystem;
   do s <- terminal_printf s (txt "Errors in " ++ subsystem ++ txt " (" ++ dec (Z.of_nat (length es)) ++ txt " entries)" ++ [10]);
   show_entries (fun s e =>
     do s <- terminal_printf s (stamp e ++ e_message e);
     do s <- show_code s e;
     terminal_printf s [10]) s es)%out.

Definition errlist_show_by_code (s : tstate S) (code : Z) : outcome (tstate S) :=
  (do es <- errlist_find_by_code (errs s) code;
   do s <- terminal_printf s (txt "Errors with code " ++ dec code ++ txt " (" ++ dec (Z.of_nat (length es)) ++ txt " entries)" ++ [10]);
   show_entries (fun s e => terminal_printf s (stamp e ++ e_subsystem e ++ txt ": " ++ e_message e ++ [10])) s es)%out.

Definition errlist_show_errors_only (s : tstate S) : outcome (tstate S) :=
  let es := filter (fun e => e_is_error e) (live (errs s)) in
  (do s <- show_entries (fun s e =>
     terminal_info_printf s (stamp e ++ e_subsystem e ++ txt ": " ++ e_message e ++ txt " (code=" ++ dec (e_code e) ++ txt ")" ++ [10])) s es;
   match es with [] => terminal_printf s (txt "No errors" ++ [10]) | _ => Ret s end)%out.

Definition errlist_show_warnings_only (s : tstate S) : outcome (tstate S) :=
  let es := filter (fun e => negb (e_is_error e)) (live (errs s)) in
  (do s <- show_entries (fun s e =>
     terminal_info_printf s (stamp e ++ e_subsystem e ++ txt ": " ++ e_message e ++ [10])) s es;
   match es with [] => terminal_printf s (txt "No warnings" ++ [10]) | _ => Ret s end)%out.

Definition errlist_show_last (s : tstate S) (n : Z) : outcome (tstate S) :=
  let n := if e_count (errs s) <? n then e_count (errs s) else n in
  (do s <- terminal_printf s (txt "Last " ++ dec n ++ txt " errors" ++ [10]);
   show_entries (fun s e =>
     do s <- terminal_printf s (stamp e ++ e_subsystem e ++ txt ": " ++ e_message e);
     do s <- show_code s e;
     terminal_printf s [10]) s (drop (Z.to_nat (e_count (errs s) - n)) (live (errs s))))%out.

End ops.
