(* ===== verification/TerminalSpec.v ===== *)
(** What the scroll buffer of Terminal.v holds and what the screen shows: the linked list is
    a queue of at most [max_buffer_lines] rows, printing appends the lines of a text to it, and a
    refresh draws a window of the wrapped rows. *)

From stdpp Require Import strings.
From S2P Require Import Prelude Bytes LibMem NetBuf Arp Printf Fb FbSpec FbText Ktime Kbd Aml Errlist Terminal.

(** * The list *)

Definition row : Type := list Z * fb_color.

(** The lines at the addresses [ps], in this order, with the rows [rs]. *)
Fixpoint chain (m : gmap Z term_line) (prev : Z) (ps : list Z) (rs : list row) : Prop :=
  match ps, rs with
  | [], [] => True
  | p :: ps', r :: rs' =>
      p <> 0 /\ (exists b, m !! p = Some (mk_line r.1 b r.2 (hd 0 ps') prev)) /\ chain m p ps' rs'
  | _, _ => False
  end.

Definition rows_at (t : terminal) (m : gmap Z term_line) (ps : list Z) (rs : list row) : Prop :=
  NoDup ps /\ chain m 0 ps rs /\ dom m = list_to_set ps /\
  lines_head t = hd 0 ps /\ lines_tail t = List.last ps 0 /\ total_lines t = Z.of_nat (length rs).

(** What the terminal needs of the heap while lines are live: [bs] maps the address of a line to
    the block of its text. *)
Class LineAlloc (S : Type) `{BlockAlloc S} := {
  line_heap : S -> gmap Z Z -> Prop;
  line_malloc h bs n : line_heap h bs -> 0 < n ->
    exists p u h1 q v h2, ba_malloc h SIZEOF_TERM_LINE = Ret (p, u, h1) /\ ba_malloc h1 n = Ret (q, v, h2) /\
      p <> 0 /\ q <> 0 /\ bs !! p = None /\ line_heap h2 (<[p := q]> bs);
  line_free h bs p q : line_heap h bs -> bs !! p = Some q ->
    exists h1 h2, ba_free h q = Ret h1 /\ ba_free h1 p = Ret h2 /\ line_heap h2 (delete p bs)
}.

Definition blocks (m : gmap Z term_line) : gmap Z Z := l_block <$> m.

(** * Lemmas on chains *)

Lemma tl_chain_length m prev ps rs : chain m prev ps rs -> length ps = length rs.
Proof. revert prev rs. induction ps as [|p ps IH]; intros prev [|r rs]; cbn; try done. intros (_ & _ & C). f_equal. by eapply IH. Qed.

Lemma chain_nz m prev ps rs p : chain m prev ps rs -> p ∈ ps -> p <> 0.
Proof.
  revert prev rs. induction ps as [|a ps IH]; intros prev [|r rs]; cbn; try done; [by rewrite elem_of_nil |].
  intros (N & _ & C) Hp. apply elem_of_cons in Hp as [-> | Hp]; [done |]. by eapply IH.
Qed.

(** A store that agrees on the lines of a chain has the chain. *)
Lemma tl_chain_ext m m' prev ps rs : (forall p, p ∈ ps -> m' !! p = m !! p) -> chain m prev ps rs -> chain m' prev ps rs.
Proof.
  revert prev rs. induction ps as [|p ps IH]; intros prev [|r rs] E; cbn; try done. intros (N & (b & L) & C).
  split; [done |]. split; [exists b; rewrite E; [done | by apply elem_of_cons; left] |].
  apply IH; [| done]. intros q Hq. apply E. by apply elem_of_cons; right.
Qed.

Lemma tl_chain_insert_ne m prev ps rs p l : p ∉ ps -> chain m prev ps rs -> chain (<[p := l]> m) prev ps rs.
Proof. intros N. apply tl_chain_ext. intros q Hq. apply lookup_insert_ne. by intros ->. Qed.

Lemma tl_chain_delete_ne m prev ps rs p : p ∉ ps -> chain m prev ps rs -> chain (delete p m) prev ps rs.
Proof. intros N. apply tl_chain_ext. intros q Hq. apply lookup_delete_ne. by intros ->. Qed.

Lemma hd_nz m prev ps rs : chain m prev ps rs -> ps <> [] -> hd 0 ps <> 0.
Proof. destruct ps, rs; cbn; try done. by intros (N & _). Qed.

Lemma last_cons_default (p : Z) ps d : List.last (p :: ps) d = List.last ps p.
Proof. revert p. induction ps as [|q ps IH]; intros p; [done |]. cbn [List.last] in *. destruct ps; done. Qed.

Lemma last_in (ps : list Z) (d : Z) : ps <> [] -> List.last ps d ∈ ps.
Proof.
  revert d. induction ps as [|p ps IH]; [done |]. intros d _. rewrite last_cons_default.
  destruct ps as [|q ps]; [by apply elem_of_cons; left |]. apply elem_of_cons. right. apply IH. done.
Qed.

Lemma hd_app (ps qs : list Z) (d : Z) : ps <> [] -> hd d (ps ++ qs) = hd d ps.
Proof. by destruct ps. Qed.

(** Appending a line and linking it. *)
Lemma tl_chain_snoc m prev ps rs p text b c :
  NoDup ps -> p ∉ ps -> p <> 0 -> chain m prev ps rs -> ps <> [] ->
  exists l m', m !! List.last ps 0 = Some l /\
    m' = <[List.last ps 0 := mk_line (l_text l) (l_block l) (l_color l) p (l_prev l)]> (<[p := mk_line text b c 0 (List.last ps 0)]> m) /\
    chain m' prev (ps ++ [p]) (rs ++ [(text, c)]).
Proof.
  revert prev rs. induction ps as [|a ps IH]; [done |]. intros prev [|r rs] Nd Np Hp C _; [done |].
  cbn [chain] in C. destruct C as (Na & (ba & La) & C). apply NoDup_cons in Nd as [Na' Nd].
  apply not_elem_of_cons in Np as [Npa Np]. rewrite last_cons_default.
  destruct ps as [|a2 ps].
  - destruct rs; [| done]. cbn [List.last app hd chain] in *. do 2 eexists. split; [exact La |]. split; [reflexivity |].
    cbn. split; [done |]. split; [exists ba; by rewrite lookup_insert_eq |]. split; [done |]. split; [| done].
    exists b. rewrite lookup_insert_ne by done. by rewrite lookup_insert_eq.
  - destruct (IH a rs Nd Np Hp C ltac:(done)) as (l & m' & Ll & Em & C'). exists l, m'.
    rewrite last_cons_default in *. split; [done |]. split; [done |].
    cbn [app chain]. split; [done |]. split; [| exact C']. exists ba. rewrite Em.
    assert (Hl : a <> List.last ps a2).
    { intros ->. apply Na'. destruct ps as [|x ps]; [by apply elem_of_cons; left |]. apply elem_of_cons. right. by apply last_in. }
    rewrite !lookup_insert_ne by done. rewrite La. done.
Qed.

(** * The bounded queue *)

(** The last [n] elements. *)
Definition keep_last {A} (n : Z) (l : list A) : list A := drop (length l - Z.to_nat n) l.

Section rep.
Context {S : Type} `{LineAlloc S}.

Definition holds (s : tstate S) (rs : list row) : Prop :=
  exists ps, rows_at (term s) (t_lines s) ps rs /\ line_heap (t_heap s) (blocks (t_lines s)).

(** [s'] differs from [s] in the list of lines only. *)
Definition relisted (s s' : tstate S) : Prop :=
  exists n h l c m hp, s' = with_store (with_term s (with_list (term s) n h l c)) m hp.

Lemma relisted_refl s : relisted s s.
Proof. by exists (total_lines (term s)), (lines_head (term s)), (lines_tail (term s)), (current_line (term s)), (t_lines s), (t_heap s); destruct s as [[] ? ? ? ? ? ? ? ?]. Qed.

Lemma relisted_trans s1 s2 s3 : relisted s1 s2 -> relisted s2 s3 -> relisted s1 s3.
Proof. intros (? & ? & ? & ? & ? & ? & ->) (n & h & l & c & m & hp & ->). by exists n, h, l, c, m, hp. Qed.

Lemma blocks_insert m p l q : l_block l = q -> blocks (<[p := l]> m) = <[p := q]> (blocks m).
Proof. intros <-. unfold blocks. by rewrite fmap_insert. Qed.

(** Changing the links of a line leaves the blocks. *)
Lemma blocks_same m p l l' : m !! p = Some l -> l_block l' = l_block l -> blocks (<[p := l']> m) = blocks m.
Proof.
  intros L E. rewrite (blocks_insert m p l' (l_block l)) by done. apply insert_id. unfold blocks. by rewrite lookup_fmap, L.
Qed.

Lemma evict_one (s : tstate S) p ps r rs :
  rows_at (term s) (t_lines s) (p :: ps) (r :: rs) -> line_heap (t_heap s) (blocks (t_lines s)) ->
  Z.of_nat (length rs) < 2 ^ 31 - 1 ->
  exists old m s1, t_lines s !! lines_head (term s) = Some old /\ l_next old = hd 0 ps /\
    (if hd 0 ps =? 0 then Ret (t_lines s) else link_prev (t_lines s) (hd 0 ps) 0) = Ret m /\
    free_line (with_store s m (t_heap s)) (lines_head (term s)) old = Ret s1 /\
    let t := term s in
    let s2 := with_term s1 (with_list t (i32 (total_lines t - 1)) (hd 0 ps) (lines_tail t) (current_line t)) in
    relisted s s2 /\ line_heap (t_heap s2) (blocks (t_lines s2)) /\ (ps <> [] -> rows_at (term s2) (t_lines s2) ps rs).
Proof.
  intros (Nd & C & D & Hh & Ht & Hn) Hp Hlen. cbn [chain] in C. destruct C as (Np & (b & L) & C).
  apply NoDup_cons in Nd as [Np' Nd]. cbn [hd] in Hh. rewrite Hh. eexists. 
  assert (Hm : exists m, (if hd 0 ps =? 0 then Ret (t_lines s) else link_prev (t_lines s) (hd 0 ps) 0) = Ret m /\
    blocks m = blocks (t_lines s) /\ dom m = dom (t_lines s) /\ chain m 0 ps rs).
  { destruct ps as [|p2 ps]; destruct rs as [|r2 rs]; try done; [by exists (t_lines s) |].
    cbn [chain hd] in *. destruct C as (Np2 & (b2 & L2) & C). replace (p2 =? 0) with false by lia.
    unfold link_prev. rewrite L2. cbn. eexists. split; [reflexivity |].
    split; [by eapply blocks_same |]. split; [by apply dom_insert_lookup_L |].
    split; [done |]. split; [exists b2; by rewrite lookup_insert_eq |].
    apply tl_chain_insert_ne; [by apply NoDup_cons in Nd as [? _] | done]. }
  destruct Hm as (m & Em & Bm & Dm & Cm). exists m.
  destruct (line_free (t_heap s) (blocks m) p b) as (h1 & h2 & F1 & F2 & Hh2).
  { by rewrite Bm. } { by rewrite Bm; unfold blocks; rewrite lookup_fmap, L. }
  exists (with_store (with_store s m (t_heap s)) (delete p m) h2). split; [exact L |]. split; [done |]. split; [done |].
  split. { unfold free_line, with_store. cbn [l_block t_heap]. rewrite F1. cbn [obind]. rewrite F2. done. }
  cbn zeta. split; [by eexists _, _, _, _, _, _ |]. cbn [with_term with_store t_heap t_lines term].
  split; [unfold blocks in *; by rewrite fmap_delete |].
  intros Hne. split; [done |]. split; [by apply tl_chain_delete_ne |].
  split. { rewrite dom_delete_L, Dm, D. rewrite list_to_set_cons. set_solver. }
  cbn [with_list lines_head lines_tail total_lines]. split; [done |].
  rewrite last_cons_default in Ht. split.
  { rewrite Ht. destruct ps; [done |]. by rewrite !last_cons_default. }
  rewrite Hn. cbn [length]. rewrite i32_small by lia. lia.
Qed.

Lemma drop_over {A} (n : Z) (r : A) (rs : list A) :
  0 <= n -> n < Z.of_nat (length (r :: rs)) -> keep_last n (r :: rs) = keep_last n rs.
Proof.
  intros Hn Hl. unfold keep_last. cbn [length] in *.
  replace (Datatypes.S (length rs) - Z.to_nat n)%nat with (Datatypes.S (length rs - Z.to_nat n)) by lia. done.
Qed.

Lemma keep_last_all {A} (n : Z) (l : list A) : Z.of_nat (length l) <= n -> keep_last n l = l.
Proof. intros Hl. unfold keep_last. by replace (length l - Z.to_nat n)%nat with 0%nat by lia. Qed.

Lemma term_evict_ok (fuel : nat) (s : tstate S) (rs : list row) :
  holds s rs -> 0 < max_buffer_lines (term s) < 2 ^ 31 -> Z.of_nat (length rs) < 2 ^ 31 -> (length rs < fuel)%nat ->
  exists s', term_evict fuel s = Ret s' /\ holds s' (keep_last (max_buffer_lines (term s)) rs) /\ relisted s s'.
Proof.
  revert s rs. induction fuel as [|fuel IH]; [lia |]. intros s rs (ps & R & Hh) Hm Hl Hf. cbn [term_evict].
  pose proof R as (_ & C & _ & _ & _ & Hn). pose proof (tl_chain_length _ _ _ _ C) as Hlen.
  rewrite Hn, wrap_small by (unfold fits; lia).
  destruct (Z.ltb_spec (max_buffer_lines (term s)) (Z.of_nat (length rs))) as [Hlt | Hge].
  2: { exists s. split; [done |]. split; [| apply relisted_refl]. rewrite keep_last_all by done. by exists ps. }
  destruct ps as [|p ps], rs as [|r rs]; try done; [cbn [length] in Hlt; lia |].
  destruct (evict_one s p ps r rs R Hh) as (old & m & s1 & L & En & Em & Ef & Rl & Hh2 & R2); [cbn [length] in Hl; lia |].
  rewrite L. cbn [of_option obind]. rewrite En, Em. cbn [obind]. rewrite Ef. cbn [obind]. cbn zeta in *.
  rewrite Hn in *. cbn [length] in *. injection Hlen as Hlen.
  match goal with |- context [term_evict fuel ?x] => set (s2 := x) in * end.
  assert (Hmax : max_buffer_lines (term s2) = max_buffer_lines (term s)) by done.
  destruct (IH s2 rs) as (s' & E & Hs & Hr); [| lia | lia | lia |].
  - exists ps. split; [| done]. apply R2. destruct ps; [| done]. cbn [length] in *. lia.
  - exists s'. split; [done |]. split; [| by eapply relisted_trans]. rewrite Hmax in Hs. rewrite drop_over by (cbn [length]; lia). done.
Qed.

Lemma term_add_line_ok (s : tstate S) (rs : list row) (text : list Z) (c : fb_color) :
  holds s rs -> 0 < max_buffer_lines (term s) < 2 ^ 31 -> Z.of_nat (length rs) < 2 ^ 31 - 1 ->
  exists s', term_add_line s text c = Ret s' /\ relisted s s' /\
    holds s' (keep_last (max_buffer_lines (term s)) (rs ++ [(text, c)])).
Proof.
  intros (ps & R & Hh) Hm Hl. pose proof R as (Nd & C & D & Hhd & Htl & Hn).
  pose proof (tl_chain_length _ _ _ _ C) as Hlen. unfold term_add_line.
  destruct (line_malloc (t_heap s) (blocks (t_lines s)) (Z.of_nat (length text) + 1) Hh ltac:(lia))
    as (p & u & h1 & q & v & h2 & -> & E2 & Np & Nq & Fr & Hh2).
  cbn [obind]. replace (p =? 0) with false by lia. rewrite E2. cbn [obind]. replace (q =? 0) with false by lia.
  assert (Np' : p ∉ ps).
  { intros Hp. unfold blocks in Fr. rewrite lookup_fmap in Fr. apply fmap_None in Fr.
    apply not_elem_of_dom in Fr. apply Fr. rewrite D. by apply elem_of_list_to_set. }
  set (m1 := <[p := _]> (t_lines s)).
  assert (B1 : blocks m1 = <[p := q]> (blocks (t_lines s))) by by apply blocks_insert.
  assert (Hm2 : exists m2, (if lines_tail (term s) =? 0 then Ret m1 else link_next m1 (lines_tail (term s)) p) = Ret m2 /\
    blocks m2 = blocks m1 /\ dom m2 = list_to_set (ps ++ [p]) /\ chain m2 0 (ps ++ [p]) (rs ++ [(text, c)]) /\
    (if lines_tail (term s) =? 0 then p else lines_head (term s)) = hd 0 (ps ++ [p])).
  { assert (D1 : dom m1 = list_to_set (ps ++ [p])) by (unfold m1; rewrite dom_insert_L, D, list_to_set_app_L; set_solver).
    rewrite Htl. destruct (decide (ps = [])) as [-> | Hne].
    - destruct rs; [| done]. exists m1. cbn. split_and!; try done. exists q. unfold m1. by rewrite lookup_insert_eq, Htl.
    - destruct (tl_chain_snoc (t_lines s) 0 ps rs p text q c Nd Np' Np C Hne) as (l & m' & Ll & Em & Cm).
      assert (Nl : List.last ps 0 <> 0) by (apply (chain_nz _ _ _ _ _ C); by apply last_in).
      assert (Npl : List.last ps 0 <> p) by (intros E; apply Np'; rewrite <- E; by apply last_in).
      replace (List.last ps 0 =? 0) with false by lia. unfold link_next.
      assert (Ll1 : m1 !! List.last ps 0 = Some l) by (unfold m1; by rewrite lookup_insert_ne).
      rewrite Ll1. cbn [of_option obind]. eexists. split; [reflexivity |]. split; [by eapply blocks_same |].
      split. { rewrite dom_insert_lookup_L by done. done. }
      split; [| by rewrite hd_app]. rewrite Em in Cm. unfold m1. rewrite Htl. exact Cm. }
  destruct Hm2 as (m2 & -> & B2 & D2 & C2 & ->). cbn [obind].
  match goal with |- context [term_evict _ ?x] => set (s2 := x) end.
  assert (Hs2 : holds s2 (rs ++ [(text, c)])).
  { exists (ps ++ [p]). split; [| change (line_heap h2 (blocks m2)); by rewrite B2, B1].
    unfold rows_at. subst s2. cbn [term t_lines with_term with_store with_list lines_head lines_tail total_lines].
    split_and!; try done.
    - apply NoDup_app. split; [done |]. split; [| apply NoDup_singleton]. intros x Hx ->%list_elem_of_singleton. done.
    - by rewrite last_last.
    - rewrite Hn, length_app, i32_small by lia. cbn [length]. lia. }
  destruct (term_evict_ok (Datatypes.S (Z.to_nat (i32 (total_lines (term s) + 1)))) s2 (rs ++ [(text, c)]))
    as (s3 & -> & Hs3 & Rl); [done | done | rewrite length_app; cbn [length]; lia | rewrite length_app, Hn, i32_small by lia; cbn [length]; lia |].
  cbn [obind]. eexists. split; [reflexivity |].
  assert (Rs : relisted s s3) by (eapply relisted_trans; [| done]; by eexists _, _, _, _, _, _).
  destruct (_ && _).
  - split; [eapply relisted_trans; [done |]; by eexists _, _, _, _, (t_lines s3), (t_heap s3) |]. destruct Hs3 as (ps3 & R3 & Hh3). by exists ps3.
  - done.
Qed.
End rep.

(** * Wrapped rows *)

(** The parts of a text, of [max_chars] characters each; an empty text has none. *)
Definition parts_of (env : surroundings) (text : list Z) : list (list Z) :=
  let mc := Z.to_nat (max_chars env) in
  (fun i => take mc (drop (i * mc) text)) <$> seq 0 (Z.to_nat ((Z.of_nat (length text) + max_chars env - 1) / max_chars env)).

(** What there is to show of a buffer: each part with the colour of its line. *)
Definition shown (env : surroundings) (rs : list row) : list row :=
  flat_map (fun r => (fun x => (x, r.2)) <$> parts_of env r.1) rs.

Definition draw_rows (bg : fb_color) (k : Z) (rows : list row) : list draw :=
  imap (fun i r => term_draw_line (k + Z.of_nat i) r.1 r.2 bg) rows.

Lemma max_chars_pos env : 0 < max_chars env.
Proof. unfold max_chars. destruct (Z.leb_spec (i32 (u32 (sur_width env - SCROLLBAR_WIDTH - 4) / FONT_WIDTH)) 0); lia. Qed.

Lemma draw_rows_app bg k a b : draw_rows bg k (a ++ b) = draw_rows bg k a ++ draw_rows bg (k + Z.of_nat (length a)) b.
Proof.
  unfold draw_rows. rewrite imap_app. f_equal. apply imap_ext. intros i x _. unfold compose. by rewrite Nat2Z.inj_add, Z.add_assoc.
Qed.

Lemma draw_rows_cons bg k r rs : draw_rows bg k (r :: rs) = term_draw_line k r.1 r.2 bg :: draw_rows bg (k + 1) rs.
Proof. change (r :: rs) with ([r] ++ rs). rewrite draw_rows_app. unfold draw_rows at 1. cbn. by rewrite Z.add_0_r. Qed.

Lemma parts_length env text : length (parts_of env text) = Z.to_nat ((Z.of_nat (length text) + max_chars env - 1) / max_chars env).
Proof. unfold parts_of. by rewrite length_fmap, length_seq. Qed.

(** The chunks of a text make it up. *)
Lemma chunks_concat (n k : nat) (text : list Z) :
  concat ((fun i => take n (drop (i * n) text)) <$> seq 0 k) = take (k * n) text.
Proof.
  induction k as [|k IH]; [done |]. rewrite seq_S, fmap_app, concat_app, IH. cbn [fmap list_fmap concat plus].
  rewrite app_nil_r. replace (Datatypes.S k * n)%nat with (k * n + n)%nat by lia. by rewrite <- take_take_drop.
Qed.

Lemma parts_concat env text : concat (parts_of env text) = text.
Proof.
  pose proof (max_chars_pos env) as Hp. unfold parts_of. rewrite chunks_concat. apply take_ge.
  set (mc := max_chars env) in *. set (len := Z.of_nat (length text)).
  assert (len <= (len + mc - 1) / mc * mc).
  { pose proof (Z.div_mod (len + mc - 1) mc ltac:(lia)). pose proof (Z.mod_pos_bound (len + mc - 1) mc Hp). nia. }
  assert (0 <= (len + mc - 1) / mc) by (apply Z.div_pos; lia). lia.
Qed.

Lemma parts_nil env : parts_of env [] = [].
Proof.
  pose proof (max_chars_pos env). apply nil_length_inv. rewrite parts_length. cbn [length].
  rewrite Z.div_small by lia. done.
Qed.

(** A part inside the text is not empty. *)
Lemma part_start env (text : list Z) (p : nat) : (p < length (parts_of env text))%nat ->
  Z.of_nat p * max_chars env < Z.of_nat (length text).
Proof.
  pose proof (max_chars_pos env) as Hp. rewrite parts_length. set (mc := max_chars env) in *. set (len := Z.of_nat (length text)).
  intros Hlt. pose proof (Z.div_mod (len + mc - 1) mc ltac:(lia)). pose proof (Z.mod_pos_bound (len + mc - 1) mc Hp).
  assert (Z.of_nat p + 1 <= (len + mc - 1) / mc) by lia. nia.
Qed.

Lemma wrapped_line_ok env (l : term_line) (p : nat) (x : list Z) :
  max_chars env <= 255 -> parts_of env (l_text l) !! p = Some x ->
  term_get_wrapped_line env l (Z.of_nat p) 256 = Ret (Some x).
Proof.
  intros Hm Hx. pose proof (lookup_lt_Some _ _ _ Hx) as Hlt. pose proof (part_start env _ _ Hlt) as Hs.
  pose proof (max_chars_pos env) as Hp.
  assert (E : x = take (Z.to_nat (max_chars env)) (drop (p * Z.to_nat (max_chars env)) (l_text l))).
  { unfold parts_of in Hx. rewrite list_lookup_fmap in Hx. apply fmap_Some in Hx as (i & Hi & ->).
    apply lookup_seq in Hi as [-> _]. done. }
  unfold term_get_wrapped_line. replace (Z.of_nat (length (l_text l)) <=? _) with false by lia. 
  replace (Z.to_nat (Z.of_nat p * max_chars env)) with (p * Z.to_nat (max_chars env))%nat by lia.
  destruct (Z.ltb_spec (Z.of_nat (length (l_text l)) - Z.of_nat p * max_chars env) (max_chars env)).
  - replace (256 <=? _) with false by lia. rewrite E. do 2 f_equal. rewrite !take_ge; [done | |]; rewrite length_drop; lia.
  - replace (256 <=? _) with false by lia. by rewrite E.
Qed.

(** * The loops of a refresh *)

(** The rows that are drawn when [drawn] rows are on the screen and part [cur] is next. *)
Definition window {A} (vis start cur drawn : Z) (todo : list A) : list A :=
  take (Z.to_nat (vis - drawn)) (drop (Z.to_nat (start - cur)) todo).

Lemma tl_window_app {A} (vis start cur drawn : Z) (a b : list A) :
  window vis start cur drawn (a ++ b) = window vis start cur drawn a ++
    window vis start (cur + Z.of_nat (length a)) (drawn + Z.of_nat (length (window vis start cur drawn a))) b.
Proof.
  unfold window. rewrite drop_app, take_app, length_take. f_equal. f_equal; [lia |]. f_equal. lia.
Qed.

Lemma window_done {A} (vis start cur drawn : Z) (a : list A) : vis <= drawn -> window vis start cur drawn a = [].
Proof. intros Hd. unfold window. by replace (Z.to_nat (vis - drawn)) with 0%nat by lia. Qed.

Lemma draw_parts_ok env t l start (n p : nat) cur drawn ds :
  max_chars env <= 255 -> (p + n = length (parts_of env (l_text l)))%nat ->
  let w := window (visible_lines t) start cur drawn (drop p (parts_of env (l_text l))) in
  exists cur' drawn', draw_parts n env t l (Z.of_nat p) start cur drawn ds =
      Ret (cur', drawn', ds ++ draw_rows (color_bg t) drawn ((fun x => (x, l_color l)) <$> w)) /\
    drawn' = drawn + Z.of_nat (length w) /\ (cur' = cur + Z.of_nat n \/ visible_lines t <= drawn').
Proof.
  intros Hm. revert p cur drawn ds. induction n as [|n IH]; intros p cur drawn ds Hpn w; cbn [draw_parts].
  - assert (w = []) as ->. { unfold w, window. rewrite drop_drop, drop_ge by lia. by rewrite take_nil. }
    exists cur, drawn. cbn. rewrite app_nil_r. split; [done |]. split; [lia |]. left. lia.
  - destruct (Z.leb_spec (visible_lines t) drawn) as [Hv | Hv].
    { assert (w = []) as -> by (unfold w; by apply window_done). exists cur, drawn. cbn. rewrite app_nil_r. split; [done |]. split; [lia |]. right. lia. }
    destruct (lookup_lt_is_Some_2 (parts_of env (l_text l)) p) as [x Hx]; [lia |].
    assert (Ew : w = window (visible_lines t) start cur drawn [x] ++
      window (visible_lines t) start (cur + 1) (drawn + Z.of_nat (length (window (visible_lines t) start cur drawn [x])))
        (drop (Datatypes.S p) (parts_of env (l_text l)))).
    { unfold w. rewrite (drop_S _ _ _ Hx). apply (tl_window_app (visible_lines t) start cur drawn [x]). }
    replace (Z.of_nat p + 1) with (Z.of_nat (Datatypes.S p)) by lia.
    destruct (Z.leb_spec start cur) as [Hc | Hc].
    + rewrite (wrapped_line_ok env l p x Hm Hx). cbn [obind of_option].
      assert (E1 : window (visible_lines t) start cur drawn [x] = [x]).
      { unfold window. replace (Z.to_nat (start - cur)) with 0%nat by lia. rewrite take_ge; [done |]. cbn. lia. }
      rewrite E1 in Ew. cbn [length app] in Ew. change (Z.of_nat 1) with 1 in Ew.
      destruct (IH (Datatypes.S p) (cur + 1) (drawn + 1)
        (ds ++ [term_draw_line drawn x (l_color l) (color_bg t)]) ltac:(lia)) as (cur' & drawn' & -> & -> & Hor).
      exists cur', (drawn + Z.of_nat (length w)). rewrite Ew. cbn [fmap list_fmap length].
      rewrite draw_rows_cons, <- app_assoc. cbn [app fst snd].
      split; [do 3 f_equal; lia |]. split; [done |]. destruct Hor as [-> | Hor]; [left; lia | right; lia].
    + assert (E1 : window (visible_lines t) start cur drawn [x] = []).
      { unfold window. replace (Z.to_nat (start - cur)) with (Datatypes.S (Z.to_nat (start - cur - 1))) by lia. cbn. by rewrite drop_nil, take_nil. }
      rewrite E1 in Ew. cbn [length app] in Ew. change (Z.of_nat 0) with 0 in Ew. rewrite Z.add_0_r in Ew. 
      destruct (IH (Datatypes.S p) (cur + 1) drawn ds ltac:(lia)) as (cur' & drawn' & -> & -> & Hor).
      rewrite Ew. do 2 eexists. split; [reflexivity |]. split; [reflexivity |]. destruct Hor as [-> | Hor]; [left; lia | right; lia].
Qed.

Lemma shown_cons env r rs : shown env (r :: rs) = ((fun x => (x, r.2)) <$> parts_of env r.1) ++ shown env rs.
Proof. done. Qed.

Lemma window_fmap {A B} (f : A -> B) vis start cur drawn l :
  window vis start cur drawn (f <$> l) = f <$> window vis start cur drawn l.
Proof. unfold window. by rewrite <- fmap_drop, <- fmap_take. Qed.

Lemma line_parts_length env l : Z.to_nat (term_line_parts env l) = length (parts_of env (l_text l)).
Proof. by rewrite parts_length. Qed.

Lemma line_parts_pos env l : 0 <= term_line_parts env l.
Proof. pose proof (max_chars_pos env). unfold term_line_parts. apply Z.div_pos; lia. Qed.

Lemma draw_lines_ok env t m start (ps : list Z) (rs : list row) prev fuel cur drawn ds :
  max_chars env <= 255 -> chain m prev ps rs -> (length ps < fuel)%nat ->
  draw_lines fuel env t m (hd 0 ps) start cur drawn ds =
    Ret (ds ++ draw_rows (color_bg t) drawn (window (visible_lines t) start cur drawn (shown env rs))).
Proof.
  intros Hm. revert ps rs prev cur drawn ds. induction fuel as [|fuel IH]; [lia |]. intros ps rs prev cur drawn ds C Hf.
  cbn [draw_lines]. destruct ps as [|p ps], rs as [|r rs]; try done.
  { cbn. unfold window. by rewrite drop_nil, take_nil, app_nil_r. }
  cbn [chain hd] in *. destruct C as (Np & (b & L) & C). replace (p =? 0) with false by lia. cbn [orb].
  destruct (Z.leb_spec (visible_lines t) drawn) as [Hv | Hv]; [by rewrite window_done, app_nil_r |].
  rewrite L. cbn [of_option obind].
  set (l := mk_line _ _ _ _ _) in *. change (draw_parts ?n env t l 0) with (draw_parts n env t l (Z.of_nat 0)).
  destruct (draw_parts_ok env t l start (Z.to_nat (term_line_parts env l)) 0 cur drawn ds Hm) as (cur' & drawn' & -> & Hd & Hor);
    [by rewrite line_parts_length |].
  cbn [obind]. cbn [length] in Hf. change (l_next l) with (hd 0 ps). rewrite (IH ps rs p) by (done || lia).
  rewrite drop_0 in *. change (l_text l) with r.1 in *. change (l_color l) with r.2.
  rewrite <- app_assoc. do 2 f_equal. rewrite shown_cons, tl_window_app, window_fmap, draw_rows_app, !length_fmap, <- Hd.
  f_equal. destruct Hor as [-> | Hor].
  - rewrite line_parts_length, Hd. done.
  - rewrite !window_done by lia. done.
Qed.

Lemma count_parts_ok env m (ps : list Z) (rs : list row) prev fuel n :
  chain m prev ps rs -> (length ps < fuel)%nat -> 0 <= n -> n + Z.of_nat (length (shown env rs)) < 2 ^ 31 ->
  count_parts fuel env m (hd 0 ps) n = Ret (n + Z.of_nat (length (shown env rs))).
Proof.
  revert ps rs prev n. induction fuel as [|fuel IH]; [lia |]. intros ps rs prev n C Hf Hn Hb. cbn [count_parts].
  destruct ps as [|p ps], rs as [|r rs]; try done; [cbn; by rewrite Z.add_0_r |].
  cbn [chain hd] in *. destruct C as (Np & (b & L) & C). replace (p =? 0) with false by lia.
  rewrite L. cbn [of_option obind l_next]. set (l := mk_line _ _ _ _ _) in *.
  rewrite shown_cons, length_app, length_fmap in *. cbn [length] in Hf.
  pose proof (line_parts_length env l) as Hp. pose proof (line_parts_pos env l). change (l_text l) with r.1 in Hp.
  rewrite i32_small by lia. rewrite (IH ps rs p) by (done || lia). f_equal. lia.
Qed.

Lemma size_of_dom (m : gmap Z term_line) (ps : list Z) : NoDup ps -> dom m = list_to_set ps -> size m = length ps.
Proof. intros Nd D. by rewrite <- size_dom, D, size_list_to_set. Qed.

Lemma scrollbar_ok env t :
  0 <= visible_lines t -> 0 <= total_lines t < 2 ^ 31 -> exists bar, term_draw_scrollbar env t = Ret bar /\
    Forall (fun d => match d with FillRect _ _ _ _ _ => True | _ => False end) bar.
Proof.
  intros Hv Ht. unfold term_draw_scrollbar. destruct (Z.leb_spec (total_lines t) (visible_lines t)); [by exists [] |].
  replace (total_lines t =? 0) with false by lia. rewrite (i32_small (total_lines t - visible_lines t)) by lia.
  replace (total_lines t - visible_lines t =? 0) with false by lia. eexists. split; [reflexivity |]. by repeat constructor.
Qed.

Section refresh.
Context {S : Type} `{LineAlloc S} (env : surroundings).

(** The screen can be drawn: lines of less than 256 characters, room for the prompt, and a count of
    parts that fits. *)
Definition drawable (t : terminal) (rs : list row) : Prop :=
  max_chars env <= 255 /\ 0 <= visible_lines (term_calc_visible_lines env t) /\
  Z.of_nat (length (shown env rs)) < 2 ^ 31 /\ Z.of_nat (length rs) < 2 ^ 31.

(** The rows that a refresh draws. *)
Definition view (t : terminal) (rs : list row) : list row :=
  let t := term_calc_visible_lines env t in
  let rows := shown env rs in
  take (Z.to_nat (visible_lines t)) (drop (Z.to_nat (start_part t (Z.of_nat (length rows)))) rows).

Lemma refresh_ok (s : tstate S) (rs : list row) :
  sur_ready env = true -> holds s rs -> drawable (term s) rs ->
  let t := term_calc_visible_lines env (term s) in
  exists bar, Forall (fun d => match d with FillRect _ _ _ _ _ => True | _ => False end) bar /\
  terminal_refresh env s = Ret (drawing (with_term s t)
    ([ClearBack; FillRect 0 0 (sur_width env) (i32 (visible_lines t * ROW)) (color_bg t)] ++
     draw_rows (color_bg t) 0 (view (term s) rs) ++ bar ++
     (if prompting t then term_draw_prompt env t else []) ++
     (if (0 <? line_pos s) && prompting t then [draw_prompt_text env t] else []) ++ [Swap])).
Proof.
  intros Hr (ps & (Nd & C & D & Hh & Ht & Hn) & Hhp) (Hm & Hv & Hs & Hl) t. unfold terminal_refresh. rewrite Hr. cbn [negb]. fold t.
  change (lines_head t) with (lines_head (term s)). rewrite Hh. unfold walk_fuel.
  rewrite (count_parts_ok env _ ps rs 0) by (done || (rewrite (size_of_dom _ ps) by done; lia)). cbn [obind].
  rewrite (draw_lines_ok env t _ _ ps rs 0) by (done || (rewrite (size_of_dom _ ps) by done; lia)). cbn [obind app].
  destruct (scrollbar_ok env t) as (bar & -> & Hb); [done | change (total_lines t) with (total_lines (term s)); lia |].
  cbn [obind]. exists bar. split; [done |]. do 3 f_equal. unfold view, window. fold t. rewrite !Z.sub_0_r, Z.add_0_l. done.
Qed.
End refresh.

(** * Printing *)

(** The lines of a text; what follows the last line break is a line when it is not empty. *)
Fixpoint lines_of (seg str : list Z) : list (list Z) :=
  match str with
  | [] => match seg with [] => [] | _ => [seg] end
  | c :: str' => if is_newline c then seg :: lines_of [] str' else lines_of (seg ++ [c]) str'
  end.

Lemma keep_last_length {A} (n : Z) (l : list A) : 0 <= n -> Z.of_nat (length (keep_last n l)) <= n.
Proof. intros Hn. unfold keep_last. rewrite length_drop. lia. Qed.

Lemma keep_last_app {A} (n : Z) (l k : list A) : 0 <= n -> keep_last n (keep_last n l ++ k) = keep_last n (l ++ k).
Proof.
  intros Hn. unfold keep_last. rewrite !length_app, length_drop, !drop_app, drop_drop, length_drop.
  apply f_equal2; [apply (f_equal (fun i => drop i l)) | apply (f_equal (fun i => drop i k))]; lia.
Qed.

Section print.
Context {S : Type} `{LineAlloc S}.

Lemma relisted_term (s s' : tstate S) : relisted s s' ->
  exists n h l c, term s' = with_list (term s) n h l c /\ draws s' = draws s /\ line_pos s' = line_pos s.
Proof. intros (n & h & l & c & m & hp & ->). by exists n, h, l, c. Qed.

Lemma print_loop_ok (str seg : list Z) (s : tstate S) (rs : list row) :
  holds s rs -> 0 < max_buffer_lines (term s) < 2 ^ 31 - 1 -> Z.of_nat (length rs) <= max_buffer_lines (term s) ->
  Forall (fun l => Z.of_nat (length l) < LINE_BUFFER_SIZE) (lines_of seg str) ->
  exists s', print_loop s seg str = Ret s' /\ relisted s s' /\
    holds s' (keep_last (max_buffer_lines (term s)) (rs ++ ((fun l => (l, color_fg (term s))) <$> lines_of seg str))).
Proof.
  revert seg s rs. induction str as [|c str IH]; intros seg s rs Hs Hm Hl Hf; cbn [print_loop lines_of] in *.
  - destruct seg as [|x seg].
    + exists s. split; [done |]. split; [apply relisted_refl |]. cbn. rewrite app_nil_r, keep_last_all by done. done.
    + by apply term_add_line_ok; [| lia | lia].
  - destruct (is_newline c); [| by apply IH]. apply Forall_cons in Hf as [Hseg Hf].
    destruct (term_add_line_ok s rs seg (color_fg (term s)) Hs ltac:(lia) ltac:(lia)) as (s1 & E1 & R1 & Hs1).
    assert (E : (match seg with
                  | [] => term_add_line s [] (color_fg (term s))
                  | _ => if LINE_BUFFER_SIZE <=? Z.of_nat (length seg) then Crash else term_add_line s seg (color_fg (term s))
                  end) = Ret s1).
    { destruct seg; [done |]. replace (LINE_BUFFER_SIZE <=? _) with false by lia. done. }
    rewrite E. cbn [obind]. pose proof (relisted_term _ _ R1) as (n & h & l & cur & Et & _).
    assert (Em : max_buffer_lines (term s1) = max_buffer_lines (term s)) by by rewrite Et.
    assert (Ec : color_fg (term s1) = color_fg (term s)) by by rewrite Et.
    destruct (IH [] s1 _ Hs1) as (s' & E' & R' & Hs'); [by rewrite Em | rewrite Em; apply keep_last_length; lia | done |].
    exists s'. split; [done |]. split; [by eapply relisted_trans |].
    rewrite Em, Ec, keep_last_app in Hs' by lia. rewrite <- app_assoc in Hs'. exact Hs'.
Qed.

(** A screen at the bottom shows the last rows. *)
Lemma view_bottom env t rs :
  scroll_offset t <= 0 -> drawable env t rs -> view env t rs = keep_last (visible_lines (term_calc_visible_lines env t)) (shown env rs).
Proof.
  intros Ho (Hm & Hv & Hs & Hl). unfold view, keep_last, start_part.
  change (scroll_offset (term_calc_visible_lines env t)) with (scroll_offset t). replace (0 <? scroll_offset t) with false by lia.
  set (v := visible_lines _) in *. set (rows := shown env rs) in *.
  assert (Hvb : v < 2 ^ 31).
  { subst v. unfold term_calc_visible_lines. cbn [visible_lines with_visible].
    destruct (prompting t); match goal with |- i32 ?x < _ => pose proof (swrap_bound 32 x ltac:(lia)) end; lia. }
  rewrite i32_small by lia. destruct (Z.ltb_spec (Z.of_nat (length rows) - v) 0).
  - replace (length rows - Z.to_nat v)%nat with 0%nat by lia. change (Z.to_nat 0) with 0%nat. rewrite !drop_0. apply take_ge. lia.
  - replace (Z.to_nat (Z.of_nat (length rows) - v)) with (length rows - Z.to_nat v)%nat by lia. apply take_ge. rewrite length_drop. lia.
Qed.

End print.

(** * Clearing *)

Section clear.
Context {S : Type} `{LineAlloc S}.

Lemma free_lines_ok (fuel : nat) (ps : list Z) (rs : list row) (prev : Z) (s : tstate S) :
  NoDup ps -> chain (t_lines s) prev ps rs -> dom (t_lines s) = list_to_set ps -> line_heap (t_heap s) (blocks (t_lines s)) ->
  (length ps < fuel)%nat ->
  exists h, free_lines fuel s (hd 0 ps) = Ret (with_store s ∅ h) /\ line_heap h ∅.
Proof.
  revert ps rs prev s. induction fuel as [|fuel IH]; [lia |]. intros ps rs prev s Nd C D Hh Hf. cbn [free_lines].
  destruct ps as [|p ps], rs as [|r rs]; try done.
  { cbn. apply dom_empty_inv_L in D. exists (t_heap s). rewrite D in Hh. split; [| done]. rewrite <- D. by destruct s. }
  cbn [chain hd] in *. destruct C as (Np & (b & L) & C). replace (p =? 0) with false by lia. rewrite L. cbn [of_option obind].
  apply NoDup_cons in Nd as [Np' Nd].
  destruct (line_free (t_heap s) (blocks (t_lines s)) p b Hh) as (h1 & h2 & F1 & F2 & Hh2); [by unfold blocks; rewrite lookup_fmap, L |].
  unfold free_line. cbn [l_block]. rewrite F1. cbn [obind]. rewrite F2. cbn [obind l_next].
  destruct (IH ps rs p (with_store s (delete p (t_lines s)) h2)) as (h & E & Hh3); try done.
  - by apply tl_chain_delete_ne.
  - cbn. rewrite dom_delete_L, D, list_to_set_cons. set_solver.
  - cbn. unfold blocks in *. by rewrite fmap_delete.
  - cbn [length] in Hf. lia.
  - exists h. by rewrite E.
Qed.

Lemma drop_lines_ok (s : tstate S) (rs : list row) :
  holds s rs -> exists s', drop_lines s = Ret s' /\ holds s' [] /\ t_lines s' = ∅ /\ scroll_offset (term s') = 0 /\ draws s' = draws s.
Proof.
  intros (ps & (Nd & C & D & Hh & Ht & Hn) & Hp). unfold drop_lines. rewrite Hh.
  destruct (free_lines_ok (walk_fuel (t_lines s)) ps rs 0 s) as (h & -> & Hh2); try done.
  { unfold walk_fuel. rewrite (size_of_dom _ ps) by done. lia. }
  cbn [obind]. eexists. split; [reflexivity |]. split; [| done]. exists []. split; [| done].
  unfold rows_at. cbn. split_and!; try done. apply NoDup_nil_2.
Qed.
End clear.

(** * Theorems *)

Section theorems.
Context {S : Type} `{LineAlloc S} (env : surroundings).

(** [term_add_line] implements a bounded queue: with memory for the line it returns; the list
    then holds the old rows and the new one, the oldest removed and freed when there are more
    than [max_buffer_lines]; nothing else of the terminal changes. *)
Theorem term_add_line_queue (s : tstate S) (rs : list row) (text : list Z) (c : fb_color) :
  holds s rs -> 0 < max_buffer_lines (term s) < 2 ^ 31 -> Z.of_nat (length rs) < 2 ^ 31 - 1 ->
  exists s', term_add_line s text c = Ret s' /\ relisted s s' /\
    holds s' (keep_last (max_buffer_lines (term s)) (rs ++ [(text, c)])).
Proof. apply term_add_line_ok. Qed.

(** C31: [terminal_print] with the screen at the bottom, lines of less than 1024 characters
    (the pending line) and rows of at most 255 (the buffer of a row): it returns, the lines of
    the text are appended to the queue in the current colour, and the rows on the screen are the
    last ones of what the buffer then holds, wrapped to the width, one below the other.  Empty
    lines are in the queue, but have no row on the screen ([parts_of]). *)
Theorem terminal_print_shows (s : tstate S) (rs : list row) (str : list Z) :
  let rs' := keep_last (max_buffer_lines (term s)) (rs ++ ((fun l => (l, color_fg (term s))) <$> lines_of [] str)) in
  sur_ready env = true -> holds s rs -> 0 < max_buffer_lines (term s) < 2 ^ 31 - 1 ->
  Z.of_nat (length rs) <= max_buffer_lines (term s) ->
  Forall (fun l => Z.of_nat (length l) < LINE_BUFFER_SIZE) (lines_of [] str) ->
  scroll_offset (term s) = 0 -> drawable env (term s) rs' ->
  exists s' before after, terminal_print env s str = Ret s' /\ holds s' rs' /\
    draws s' = draws s ++ before ++
      draw_rows (color_bg (term s)) 0 (keep_last (visible_lines (term s')) (shown env rs')) ++ after /\
    Forall (fun d => match d with DrawString _ _ y _ _ => prompting (term s) = true /\ y = prompt_y (term s') | _ => True end) (before ++ after).
Proof.
  intros rs' Hr Hs Hm Hl Hf Ho Hd. unfold terminal_print.
  destruct (print_loop_ok str [] s rs Hs Hm Hl Hf) as (s1 & -> & R1 & Hs1). cbn [obind]. fold rs' in Hs1.
  pose proof (relisted_term _ _ R1) as (n & h & l & c & Et & Ed & _).
  assert (Hd1 : drawable env (term s1) rs') by (rewrite Et; exact Hd).
  destruct (refresh_ok env s1 rs' Hr Hs1 Hd1) as (bar & Hb & ->).
  rewrite view_bottom by (done || (rewrite Et; cbn; lia)).
  do 3 eexists. split; [reflexivity |]. split; [destruct Hs1 as (ps & R & Hh); by exists ps |].
  assert (Ep : prompting (term_calc_visible_lines env (term s1)) = prompting (term s)) by by rewrite Et.
  assert (Eb : color_bg (term_calc_visible_lines env (term s1)) = color_bg (term s)) by by rewrite Et.
  split.
  { cbn [draws drawing with_term term]. rewrite Ed, Eb. reflexivity. }
  rewrite Ep. apply Forall_app_2; [by repeat constructor |].
  apply Forall_app_2; [eapply Forall_impl; [exact Hb |]; by intros [] |].
  apply Forall_app_2; [destruct (prompting (term s)); by repeat constructor |].
  apply Forall_app_2; [| by repeat constructor].
  destruct (prompting (term s)); [| by rewrite andb_false_r]. destruct (0 <? _); by repeat constructor.
Qed.

(** Clearing frees every line: the store is empty and so is the list. *)
Theorem terminal_clear_frees (s : tstate S) (rs : list row) :
  holds s rs -> exists s', terminal_clear_screen env s = Ret s' /\ t_lines s' = ∅ /\ holds s' [] /\ scroll_offset (term s') = 0.
Proof.
  intros Hs. unfold terminal_clear_screen. destruct (drop_lines_ok s rs Hs) as (s1 & -> & (ps & R & Hh) & E & Ho & _).
  cbn [obind]. eexists. split; [reflexivity |].
  assert (G : forall s2 : tstate S, t_lines s2 = t_lines s1 -> term s2 = term s1 -> t_heap s2 = t_heap s1 ->
    t_lines s2 = ∅ /\ holds s2 [] /\ scroll_offset (term s2) = 0).
  { intros s2 E1 E2 E3. unfold holds. rewrite E1, E2, E3. split; [done |]. split; [by exists ps | done]. }
  destruct (prompting _); [| by apply G]. unfold terminal_update_prompt_line.
  destruct (negb _); [by apply G |]. destruct (negb _); by apply G.
Qed.

(** Scrolling up by [n] lines from the bottom shows the rows from row [n] on, counted from the
    oldest: one step up from the newest rows jumps to the oldest but one. *)
Theorem terminal_scroll_up_jumps (s : tstate S) (rs : list row) (n : Z) :
  sur_ready env = true -> holds s rs -> drawable env (term s) rs ->
  scroll_offset (term s) = 0 -> 0 <= visible_lines (term s) -> 0 < n <= total_lines (term s) - visible_lines (term s) ->
  exists s' before after, terminal_scroll_up env s n = Ret s' /\ scroll_offset (term s') = n /\
    draws s' = draws s ++ before ++
      draw_rows (color_bg (term s)) 0 (take (Z.to_nat (visible_lines (term s'))) (drop (Z.to_nat n) (shown env rs))) ++ after.
Proof.
  intros Hr Hs Hd Ho Hv Hn. pose proof Hs as (ps & (_ & _ & _ & _ & _ & Ht) & _). pose proof Hd as (Hd1 & Hd2 & Hd3 & Hd4). unfold terminal_scroll_up.
  replace (total_lines (term s) <=? visible_lines (term s)) with false by lia. rewrite Ho, Z.add_0_l.
  rewrite (i32_small n), (i32_small (total_lines (term s) - _)) by lia.
  replace (_ <? n) with false by lia. replace (n =? 0) with false by lia.
  set (s1 := with_term s _).
  assert (Hs1 : holds s1 rs) by (destruct Hs as (ps1 & R & Hh); by exists ps1).
  destruct (refresh_ok env s1 rs Hr Hs1 Hd) as (bar & Hb & ->). do 3 eexists.
  split; [reflexivity |]. split; [done |]. cbn [draws drawing with_term]. change (draws s1) with (draws s).
  unfold view, start_part. change (scroll_offset _) with n. replace (0 <? n) with true by lia. reflexivity.
Qed.

(** An empty line is kept in the buffer and never shown: [terminal_newline] leaves what is
    on the screen as it is. *)
Theorem terminal_newline_invisible (s : tstate S) (rs : list row) :
  sur_ready env = true -> holds s rs -> Z.of_nat (length rs) < max_buffer_lines (term s) < 2 ^ 31 - 1 -> drawable env (term s) rs ->
  exists s' bar, terminal_newline env s = Ret s' /\ holds s' (rs ++ [([], color_fg (term s))]) /\
    Forall (fun d => match d with FillRect _ _ _ _ _ => True | _ => False end) bar /\
    draws s' = draws s ++ [ClearBack; FillRect 0 0 (sur_width env) (i32 (visible_lines (term s') * ROW)) (color_bg (term s))] ++
      draw_rows (color_bg (term s)) 0 (view env (term s) rs) ++ bar ++
      (if prompting (term s') then term_draw_prompt env (term s') else []) ++
      (if (0 <? line_pos s) && prompting (term s') then [draw_prompt_text env (term s')] else []) ++ [Swap].
Proof.
  intros Hr Hs Hm Hd. unfold terminal_newline, terminal_print. cbn [print_loop is_newline orb].
  destruct (term_add_line_ok s rs [] (color_fg (term s)) Hs ltac:(lia) ltac:(lia)) as (s1 & E1 & R1 & Hs1).
  change (is_newline 10) with true. cbn [obind]. rewrite E1. cbn [obind].
  rewrite keep_last_all in Hs1 by (rewrite length_app; cbn [length]; lia).
  assert (Esh : shown env (rs ++ [([], color_fg (term s))]) = shown env rs).
  { unfold shown. rewrite flat_map_app. cbn [flat_map fst]. by rewrite parts_nil, !app_nil_r. }
  pose proof (relisted_term _ _ R1) as (n & h & l & c & Et & Ed & El).
  assert (Hd1 : drawable env (term s1) (rs ++ [([], color_fg (term s))])).
  { destruct Hd as (? & ? & ? & ?). unfold drawable. rewrite Esh, Et, length_app. cbn [length]. split_and!; try done. lia. }
  destruct (refresh_ok env s1 _ Hr Hs1 Hd1) as (bar & Hb & ->). do 2 eexists. split; [reflexivity |].
  split; [destruct Hs1 as (ps & R & Hh); by exists ps |]. split; [exact Hb |].
  cbn [draws drawing with_term term line_pos]. rewrite Ed, El.
  replace (view env (term s1) _) with (view env (term s) rs); [| unfold view; by rewrite Esh, Et].
  by replace (color_bg (term_calc_visible_lines env (term s1))) with (color_bg (term s)) by by rewrite Et.
Qed.

(** A line of 1024 characters or more that is ended by a line break overflows the buffer it is
    copied to. *)
Theorem terminal_print_overflow (s : tstate S) (l rest : list Z) :
  LINE_BUFFER_SIZE <= Z.of_nat (length l) -> Forall (fun c => is_newline c = false) l ->
  terminal_print env s (l ++ 10 :: rest) = Crash.
Proof.
  intros Hl Hf. unfold terminal_print.
  enough (G : forall seg, LINE_BUFFER_SIZE <= Z.of_nat (length (seg ++ l)) -> print_loop s seg (l ++ 10 :: rest) = Crash) by by rewrite G.
  clear Hl. induction Hf as [|c l Hc Hf IH]; intros seg Hl; cbn [app print_loop].
  - rewrite app_nil_r in Hl. change (is_newline 10) with true. cbn iota. destruct seg; [done |].
    replace (LINE_BUFFER_SIZE <=? _) with true by lia. done.
  - rewrite Hc. apply IH. rewrite <- app_assoc. exact Hl.
Qed.

(** On a screen that is wide enough for 256 characters in a row, a line of 256 characters
    overflows the buffer of its part. *)
Theorem terminal_wide_overflow (s : tstate S) (text : list Z) (c : fb_color) :
  sur_ready env = true -> holds s [(text, c)] -> scroll_offset (term s) = 0 ->
  1 <= visible_lines (term_calc_visible_lines env (term s)) < 2 ^ 31 ->
  256 <= max_chars env -> 256 <= Z.of_nat (length text) <= max_chars env ->
  terminal_refresh env s = Crash.
Proof.
  intros Hr (ps & (Nd & C & D & Hh & Ht & Hn) & Hp) Ho Hv Hm Hl. unfold terminal_refresh. rewrite Hr. cbn [negb].
  set (t := term_calc_visible_lines env (term s)) in *. change (lines_head t) with (lines_head (term s)). rewrite Hh.
  assert (Epl : forall l, l_text l = text -> term_line_parts env l = 1).
  { intros l <-. unfold term_line_parts. symmetry. apply (Z.div_unique _ _ 1 (Z.of_nat (length (l_text l)) - 1)); lia. }
  assert (Esh : length (shown env [(text, c)]) = 1%nat).
  { unfold shown. cbn [flat_map fst]. rewrite app_nil_r, length_fmap. 
    pose proof (line_parts_length env (mk_line text 0 c 0 0)) as E. rewrite Epl in E by done. cbn [l_text] in E. rewrite <- E. done. }
  assert (Hw : (length ps < walk_fuel (t_lines s))%nat) by (unfold walk_fuel; rewrite (size_of_dom _ ps) by done; lia).
  rewrite (count_parts_ok env _ ps [(text, c)] 0 _ 0 C Hw) by lia. rewrite Esh. cbn [obind]. pose proof (tl_chain_length _ _ _ _ C) as Hlen.
  destruct ps as [|p [|p2 ps]]; try done. cbn [chain hd] in *. destruct C as (Np & (b & L) & _).
  unfold walk_fuel. cbn [draw_lines]. replace (p =? 0) with false by lia. replace (visible_lines t <=? 0) with false by lia. cbn [orb].
  rewrite L. cbn [of_option obind]. rewrite Epl by done. change (Z.to_nat 1) with 1%nat. cbn [draw_parts].
  replace (visible_lines t <=? 0) with false by lia.
  assert (Est : start_part t (0 + Z.of_nat 1) = 0).
  { unfold start_part. change (scroll_offset t) with (scroll_offset (term s)). rewrite Ho. cbn [Z.ltb Z.compare].
    rewrite i32_small by lia. destruct (Z.ltb_spec (0 + Z.of_nat 1 - visible_lines t) 0); lia. }
  rewrite Est. cbn [Z.leb Z.compare]. unfold term_get_wrapped_line. cbn [l_text fst].
  replace (Z.of_nat (length text) <=? 0 * max_chars env) with false by lia.
  destruct (Z.ltb_spec (Z.of_nat (length text) - 0 * max_chars env) (max_chars env));
    [replace (256 <=? _) with true by lia | replace (256 <=? max_chars env) with true by lia]; done.
Qed.
End theorems.

(** Wrapping is lossless: the parts of a text make it up, and the ones before the last are as long
    as a row. *)
Theorem terminal_wrap_roundtrip (env : surroundings) (text : list Z) :
  concat (parts_of env text) = text /\
  Forall (fun x => 0 < Z.of_nat (length x) <= max_chars env) (parts_of env text).
Proof.
  split; [apply parts_concat |]. pose proof (max_chars_pos env). apply Forall_lookup_2. intros p x Hx.
  pose proof (part_start env text p (lookup_lt_Some _ _ _ Hx)) as Hs. unfold parts_of in Hx.
  rewrite list_lookup_fmap in Hx. apply fmap_Some in Hx as (i & Hi & ->). apply lookup_seq in Hi as [-> _].
  rewrite length_take, length_drop. lia.
Qed.

(** * Witnesses *)

(** Consecutive blocks serve the lines. *)
#[export, refine] Instance bump_lines : LineAlloc Z := {
  line_heap h bs := 0 < h /\ forall p, p ∈ dom bs -> p < h
}.
Proof.
  - intros h bs n [Hh Hd] Hn. do 6 eexists. split; [reflexivity |]. split; [reflexivity |].
    assert (Hf : bs !! h = None) by (apply not_elem_of_dom; intros Hx; apply Hd in Hx; lia).
    unfold SIZEOF_TERM_LINE. split_and!; try lia; try done. intros p Hp. rewrite dom_insert_L in Hp.
    apply elem_of_union in Hp as [->%elem_of_singleton | Hp]; [lia |]. apply Hd in Hp. lia.
  - intros h bs p q [Hh Hd] Hl. do 2 eexists. split; [reflexivity |]. split; [reflexivity |]. split; [done |].
    intros x Hx. rewrite dom_delete_L in Hx. apply Hd. set_solver.
Defined.

(** A screen of three rows of eleven characters. *)
Definition demo_sur : surroundings := mk_sur 94 42 true None (mk_clock 12 0 0 0).
Definition demo_errs : errlist := mk_errs [] 0 false.
Definition demo_boot : tstate Z :=
  terminal_init demo_sur (mk_tstate (term_boot) ∅ 4096 (replicate 1024 0) 0 [] true (replicate 256 0) demo_errs).

Definition demo_text : list Z := [97; 10; 98; 10; 99; 10; 100; 10; 101].
Definition demo_rows : list row := (fun c => ([c], FB_WHITE)) <$> [97; 98; 99; 100; 101].

Definition demo_full : tstate Z :=
  Eval vm_compute in match print_loop demo_boot [] demo_text with Ret s => s | _ => demo_boot end.

Lemma demo_boot_holds : holds demo_boot [].
Proof. exists []. split; [| split; [done |]; intros p Hp; apply elem_of_elements in Hp; vm_compute in Hp; by apply not_elem_of_nil in Hp]. unfold rows_at. cbn. split_and!; try done. apply NoDup_nil_2. Qed.

Lemma demo_full_holds : holds demo_full demo_rows.
Proof.
  exists [4096; 4130; 4164; 4198; 4232]. split.
  - unfold rows_at. split; [by apply (bool_decide_unpack _); vm_compute |]. split; [| by vm_compute].
    cbn [chain demo_rows fmap list_fmap]. repeat (split; [done | split; [by eexists; vm_compute |]]). done.
  - split; [done |]. intros p Hp. apply elem_of_elements in Hp. vm_compute in Hp.
    change (t_heap demo_full) with 4266. set_unfold in Hp. lia.
Qed.

Lemma demo_full_drawable : drawable demo_sur (term demo_full) demo_rows.
Proof. by vm_compute. Qed.

Lemma term_add_line_queue_witness :
  exists s', term_add_line demo_full [120] FB_GREEN = Ret s' /\ relisted demo_full s' /\ holds s' (keep_last 1000 (demo_rows ++ [([120], FB_GREEN)])).
Proof. apply (term_add_line_queue demo_full demo_rows [120] FB_GREEN); [apply demo_full_holds | by vm_compute | by vm_compute]. Defined.

Lemma terminal_print_shows_witness :
  let rs' := keep_last 1000 ([] ++ ((fun l => (l, FB_WHITE)) <$> lines_of [] demo_text)) in
  exists s' before after, terminal_print demo_sur demo_boot demo_text = Ret s' /\ holds s' rs' /\
    draws s' = [] ++ before ++ draw_rows FB_BLACK 0 (keep_last (visible_lines (term s')) (shown demo_sur rs')) ++ after /\
    Forall (fun d => match d with DrawString _ _ y _ _ => false = true /\ y = prompt_y (term s') | _ => True end) (before ++ after).
Proof.
  apply (terminal_print_shows demo_sur demo_boot [] demo_text);
    [done | apply demo_boot_holds | by vm_compute | by vm_compute | | done | by vm_compute].
  by repeat constructor.
Defined.

Lemma terminal_clear_frees_witness :
  exists s', terminal_clear_screen demo_sur demo_full = Ret s' /\ t_lines s' = ∅ /\ holds s' [] /\ scroll_offset (term s') = 0.
Proof. apply (terminal_clear_frees demo_sur demo_full demo_rows), demo_full_holds. Defined.

Lemma terminal_scroll_up_jumps_witness :
  exists s' before after, terminal_scroll_up demo_sur demo_full 1 = Ret s' /\ scroll_offset (term s') = 1 /\
    draws s' = draws demo_full ++ before ++
      draw_rows (color_bg (term demo_full)) 0 (take (Z.to_nat (visible_lines (term s'))) (drop (Z.to_nat 1) (shown demo_sur demo_rows))) ++ after.
Proof.
  apply (terminal_scroll_up_jumps demo_sur demo_full demo_rows 1);
    [done | apply demo_full_holds | apply demo_full_drawable | done | by vm_compute | by vm_compute].
Defined.

Lemma terminal_newline_invisible_witness :
  exists s' bar, terminal_newline demo_sur demo_full = Ret s' /\ holds s' (demo_rows ++ [([], color_fg (term demo_full))]) /\
    Forall (fun d => match d with FillRect _ _ _ _ _ => True | _ => False end) bar /\
    draws s' = draws demo_full ++ [ClearBack; FillRect 0 0 94 (i32 (visible_lines (term s') * ROW)) (color_bg (term demo_full))] ++
      draw_rows (color_bg (term demo_full)) 0 (view demo_sur (term demo_full) demo_rows) ++ bar ++
      (if prompting (term s') then term_draw_prompt demo_sur (term s') else []) ++
      (if (0 <? line_pos demo_full) && prompting (term s') then [draw_prompt_text demo_sur (term s')] else []) ++ [Swap].
Proof.
  apply (terminal_newline_invisible demo_sur demo_full demo_rows); [done | apply demo_full_holds | by vm_compute | apply demo_full_drawable].
Defined.

Lemma terminal_print_overflow_witness : terminal_print demo_sur demo_boot (replicate 1024 97 ++ [10]) = Crash.
Proof.
  apply (terminal_print_overflow demo_sur demo_boot (replicate 1024 97) []); [by vm_compute |]. by apply Forall_replicate.
Defined.

(** A screen of 2560 columns. *)
Definition wide_sur : surroundings := mk_sur 2560 1440 true None (mk_clock 12 0 0 0).
Definition wide_full : tstate Z :=
  Eval vm_compute in match term_add_line demo_boot (replicate 256 97) FB_WHITE with Ret s => s | _ => demo_boot end.

Lemma terminal_wide_overflow_witness : terminal_refresh wide_sur wide_full = Crash.
Proof.
  apply (terminal_wide_overflow wide_sur wide_full (replicate 256 97) FB_WHITE);
    [done | | done | by vm_compute | by vm_compute | by vm_compute].
  exists [4096]. split.
  - unfold rows_at. split; [apply NoDup_singleton |]. split; [| by vm_compute]. cbn [chain]. split; [done |].
    split; [| done]. eexists. by vm_compute.
  - split; [done |]. intros p Hp. apply elem_of_elements in Hp. vm_compute in Hp.
    change (t_heap wide_full) with 4385. set_unfold in Hp. lia.
Defined.
