(* ===== verification/Shell.v ===== *)
(** The prompt, src/kernel/cmd.c: the line editor, the split of a command line and the choice of
    the command; of src/kernel/cmd/builtin.c the commands that concern the terminal and the error
    list alone.  The other commands are the argument [run].
    Then the line editor against a text with a cursor, and the corner cases of the prompt. *)

From stdpp Require Import strings.
From S2P Require Import Prelude Bytes LibMem NetBuf Arp Printf Fb FbSpec FbText Ktime Kbd Aml Errlist Terminal TerminalSpec.

(** [KEY_DELETE] is a scan code, compared with a character. *)
Definition KEY_DELETE : Z := 0x53.

(** * Splitting *)

(** [tokenize_quoted], on the bytes of [str] with its terminator: the state is [p],
    [in_quote] (0 outside of quotes), [start] and the offsets in [argv]. *)
Fixpoint tokenize_from (fuel : nat) (str : list Z) (max_args p in_quote : Z) (start : option Z) (argv : list Z)
    : outcome (list Z * list Z) :=
  match fuel with
  | O => Crash
  | S fuel' =>
      (do c <- of_option (get_chk str p);
       if negb (c =? 0) && (Z.of_nat (length argv) <? max_args) then
         let blank := (c =? 32) || (c =? 9) in
         if (in_quote =? 0) && blank then tokenize_from fuel' str max_args (p + 1) in_quote start argv
         else
           let quote := match start with None => (c =? 39) || (c =? 34) | Some _ => false end in
           if quote then tokenize_from fuel' str max_args (p + 1) c (Some (p + 1)) argv
           else
             let start := match start with None => Some p | _ => start end in
             if (negb (in_quote =? 0) && (c =? in_quote)) || ((in_quote =? 0) && blank) then
               let p := if in_quote =? 0 then p else p + 1 in
               do str <- of_option (set_chk str p 0);
               tokenize_from fuel' str max_args (p + 1) 0 None (argv ++ [default 0 start])
             else tokenize_from fuel' str max_args (p + 1) in_quote start argv
       else Ret (match start with Some a => argv ++ [a] | None => argv end, str))%out
  end.

(** Every step moves on, so the bytes bound the steps. *)
Definition tokenize_quoted (str : list Z) (max_args : Z) : outcome (list Z * list Z) :=
  tokenize_from (S (length str)) str max_args 0 0 None [].

(** The command up to a space, at most [n] characters, and the rest. *)
Fixpoint command_word (n : nat) (line : list Z) : list Z * list Z :=
  match n, line with
  | S n', c :: line' => if c =? 32 then ([], line) else let '(w, rest) := command_word n' line' in (c :: w, rest)
  | _, _ => ([], line)
  end.

Fixpoint skip_blanks (line : list Z) : list Z :=
  match line with
  | c :: line' => if c =? 32 then skip_blanks line' else line
  | [] => []
  end.

Definition parse_command (cmdline : list Z) : list Z * option (list Z) :=
  let '(cmd, rest) := command_word 63 cmdline in
  (cmd, match skip_blanks rest with [] => None | args => Some args end).

(** The tokens of [strtok_r(s, " ", ...)]. *)
Fixpoint words_from (s word : list Z) : list (list Z) :=
  match s with
  | [] => match word with [] => [] | _ => [word] end
  | c :: s' =>
      if c =? 32 then match word with [] => words_from s' [] | _ => word :: words_from s' [] end
      else words_from s' (word ++ [c])
  end.

Definition words (s : list Z) : list (list Z) := words_from s [].

(** * The commands *)

Inductive part_command := PartList | PartScan | PartInfo | PartCreate | PartDelete | PartGpt | PartMount | PartUnknown (name : list Z).

Inductive command :=
| Help | Clear | Terminfo | Echo | Pwd | Disklist | Diskinfo | Mount | Format | Cat | Ls | Touch | Mkdir | Rm | Rmdir
| WriteCmd | Cd | Rootlist | Setroot | Chooseroot | Part (sub : option part_command) | PsDetailed | PsSimple
| Reboot | Shutdown | Meminfo | Kill | TimeCmd | Termcolor | ErrlistCmd | Unknown (name : list Z).

Definition plain_commands : list (list Z * command) :=
  [(txt "help", Help); (txt "clear", Clear); (txt "terminfo", Terminfo); (txt "echo", Echo); (txt "pwd", Pwd);
   (txt "disklist", Disklist); (txt "diskinfo", Diskinfo); (txt "mount", Mount); (txt "format", Format); (txt "cat", Cat);
   (txt "ls", Ls); (txt "touch", Touch); (txt "mkdir", Mkdir); (txt "rm", Rm); (txt "rmdir", Rmdir); (txt "write", WriteCmd);
   (txt "cd", Cd); (txt "rootlist", Rootlist); (txt "setroot", Setroot); (txt "chooseroot", Chooseroot);
   (txt "reboot", Reboot); (txt "shutdown", Shutdown); (txt "meminfo", Meminfo); (txt "kill", Kill); (txt "time", TimeCmd);
   (txt "termcolor", Termcolor); (txt "errlist", ErrlistCmd)].

Definition part_commands : list (list Z * part_command) :=
  [(txt "list", PartList); (txt "scan", PartScan); (txt "info", PartInfo); (txt "create", PartCreate); (txt "delete", PartDelete);
   (txt "gpt", PartGpt); (txt "mount", PartMount)].

Definition find_command {A} (table : list (list Z * A)) (name : list Z) : option A :=
  snd <$> List.find (fun p => bool_decide (p.1 = name)) table.

(** The first token of the arguments of [part]; [None] when there is none. *)
Definition decode_part (args : option (list Z)) : option part_command :=
  match words (default [] args) with
  | [] => None
  | sub :: _ => Some (default (PartUnknown sub) (find_command part_commands sub))
  end.

Definition decode (cmd : list Z) (args : option (list Z)) : command :=
  if bool_decide (cmd = txt "part") then Part (decode_part args)
  else if bool_decide (cmd = txt "ps") then (if bool_decide (args = Some (txt "-l")) then PsDetailed else PsSimple)
  else default (Unknown cmd) (find_command plain_commands cmd).

(** * The line editor *)

Definition move_byte (b : list Z) (src dst : Z) : outcome (list Z) :=
  (do c <- of_option (get_chk b src); of_option (set_chk b dst c))%out.

(** [for (i = cursor_pos; i < input_pos; i++) b[i - 1] = b[i]] *)
Definition shift_left (b : list Z) (from upto : Z) : outcome (list Z) :=
  ofor_from from (Z.to_nat (upto - from)) (fun i b => move_byte b i (i - 1)) b.

(** [for (i = input_pos; i > cursor_pos; i--) b[i] = b[i - 1]] *)
Definition shift_right (b : list Z) (from downto : Z) : outcome (list Z) :=
  ofor_from 0 (Z.to_nat (from - downto)) (fun k b => move_byte b (from - k - 1) (from - k)) b.

Section shell.
Context {S : Type} `{BlockAlloc S} (env : surroundings).
Context (run : command -> option (list Z) -> tstate S -> outcome (tstate S)).

Definition edit_backspace (t : terminal) : outcome (option terminal) :=
  if 0 <? cursor_pos t then
    (do b <- shift_left (input_buffer t) (cursor_pos t) (input_pos t);
     let pos := u32 (input_pos t - 1) in
     do b <- of_option (set_chk b pos 0);
     Ret (Some (with_input t (input_enabled t) b pos (cursor_pos t - 1))))%out
  else Ret None.

Definition edit_delete (t : terminal) : outcome (option terminal) :=
  if u32 (cursor_pos t) <? input_pos t then
    (do b <- shift_left (input_buffer t) (cursor_pos t + 1) (input_pos t);
     let pos := u32 (input_pos t - 1) in
     do b <- of_option (set_chk b pos 0);
     Ret (Some (with_input t (input_enabled t) b pos (cursor_pos t))))%out
  else Ret None.

Definition edit_insert (t : terminal) (c : Z) : outcome (option terminal) :=
  if input_pos t <? INPUT_BUFFER_SIZE - 1 then
    (do b <- shift_right (input_buffer t) (input_pos t) (cursor_pos t);
     do b <- of_option (set_chk b (cursor_pos t) c);
     let pos := u32 (input_pos t + 1) in
     do b <- of_option (set_chk b pos 0);
     Ret (Some (with_input t (input_enabled t) b pos (i32 (cursor_pos t + 1)))))%out
  else Ret None.

(** The three branches after the one of the newline; [None] where nothing changes. *)
Definition edit (t : terminal) (c : Z) : outcome (option terminal) :=
  if c =? 8 then edit_backspace t
  else if (c =? 127) || (c =? KEY_DELETE) then edit_delete t
  else if (32 <=? c) && (c <? 127) then edit_insert t c
  else Ret None.

Definition reset_input (t : terminal) : terminal := with_input t (input_enabled t) (replicate 256 0) 0 0.

(** The commands are run on the input; [part] without arguments returns at once. *)
Definition run_line (s : tstate S) : outcome (bool * tstate S) :=
  (let line := cstring (input_buffer (term s)) in
   let shown := printed (TERM_PATH_MAX + 300) (terminal_generate_prompt env (TERM_PATH_MAX + 32) ++ line) in
   do s <- term_add_line s shown (color_fg (term s));
   do s <- terminal_refresh env s;
   let '(cmd, args) := parse_command line in
   match decode cmd args with
   | Part None =>
       do s <- terminal_printf env s (txt "Usage: part <list|scan|info|create|delete|gpt|mount>" ++ [10]);
       Ret (true, s)
   | Part (Some (PartUnknown sub)) =>
       do s <- terminal_error_printf env s (txt "Unknown part command: " ++ sub ++ [10]);
       Ret (false, s)
   | Unknown name =>
       do s <- (match cstring (input_buffer (term s)) with
                | [] => Ret s
                | _ => terminal_printf env s (txt "Unknown command: " ++ name ++ [10])
                end);
       Ret (false, s)
   | c => do s <- run c args s; Ret (false, s)
   end)%out.

Definition terminal_handle_input (s : tstate S) (c : Z) : outcome (tstate S) :=
  if negb (prompting (term s)) then Ret s
  else if is_newline c then
    (do '(early, s) <- (if 0 <? input_pos (term s) then run_line s else Ret (false, s));
     if early then Ret s
     else Ret (terminal_update_prompt_line env (with_term s (reset_input (term s)))))%out
  else
    (do r <- edit (term s) c;
     Ret (match r with
          | Some t => terminal_update_prompt_line env (with_term s t)
          | None => s
          end))%out.

Fixpoint handle_keys (s : tstate S) (keys : list Z) : outcome (tstate S) :=
  match keys with
  | [] => Ret s
  | c :: keys' => (do s <- terminal_handle_input s c; handle_keys s keys')%out
  end.
End shell.

(** * Commands of the terminal itself *)

(** At most [n] hexadecimal digits. *)
Fixpoint hex_digits (n : nat) (color : Z) (p : list Z) : Z :=
  match n, p with
  | S n', c :: p' =>
      let color' := u32 (Z.shiftl color 4) in
      if (48 <=? c) && (c <=? 57) then hex_digits n' (Z.lor color' (c - 48)) p'
      else if (65 <=? c) && (c <=? 70) then hex_digits n' (Z.lor color' (c - 65 + 10)) p'
      else if (97 <=? c) && (c <=? 102) then hex_digits n' (Z.lor color' (c - 97 + 10)) p'
      else color'
  | _, _ => color
  end.

Definition parse_hex_color (str : list Z) : Z :=
  match str with
  | 48 :: 120 :: p => hex_digits 6 0 p
  | _ => 0xFFFFFF
  end.

Section commands.
Context {S : Type} `{BlockAlloc S} (env : surroundings).

Definition cmd_clear (s : tstate S) : outcome (tstate S) := terminal_clear_screen env s.

Definition cmd_time (s : tstate S) : outcome (tstate S) :=
  terminal_printf env s (txt "Current time: " ++ cstring (format_clock (sur_now env)) ++ [10]).

Definition cmd_terminfo (s : tstate S) : outcome (tstate S) :=
  (do s <- terminal_printf env s (txt "'64Shell' Info:" ++ [10]);
   do s <- terminal_printf env s (txt "  Total lines: " ++ dec (total_lines (term s)) ++ [10]);
   do s <- terminal_printf env s (txt "  Visible lines: " ++ dec (visible_lines (term s)) ++ [10]);
   terminal_printf env s (txt "  Mode: " ++ (if bool_decide (mode (term s) = TERM_MODE_NORMAL) then txt "Normal" else txt "Prompt") ++ [10]))%out.

(** A line of output for each text. *)
Fixpoint print_lines (s : tstate S) (ls : list (list Z)) : outcome (tstate S) :=
  match ls with
  | [] => Ret s
  | l :: ls' => (do s <- terminal_printf env s (l ++ [10]); print_lines s ls')%out
  end.

(** [%06X] of a colour. *)
Definition rgb (c : fb_color) : Z := Z.lor (Z.lor (Z.shiftl (c_r c) 16) (Z.shiftl (c_g c) 8)) (c_b c).
Definition hex_field (v : Z) : list Z := unsigned_field (mk_spec false true 6 (-1) NoMod) v 16 true.

Definition termcolor_usage (t : terminal) : list (list Z) :=
  [txt "Usage: termcolor fg=0xRRGGBB bg=0xRRGGBB"; txt "Example: termcolor fg=0xFFFFFF bg=0x000000";
   txt "         termcolor fg=0x00FF00 bg=0x000000"; txt "         termcolor bg=0x001133";
   [10] ++ txt "Current colors:"; txt "  Foreground: #" ++ hex_field (rgb (color_fg t));
   txt "  Background: #" ++ hex_field (rgb (color_bg t))].

Definition termcolor_help : list (list Z) :=
  [txt "termcolor - change terminal colors"; txt "Usage: termcolor fg=0xRRGGBB bg=0xRRGGBB"; txt "Examples:";
   txt "  termcolor fg=0xFFFFFF bg=0x000000  # White on black"; txt "  termcolor fg=0x00FF00 bg=0x000000  # Green on black";
   txt "  termcolor fg=0x000000 bg=0xFFFFFF  # Black on white"; txt "  termcolor bg=0x001133              # Navy background"].

(** The loop over the tokens: the colours that were given, [None] when help was asked for. *)
Fixpoint termcolor_tokens (fg bg : option Z) (tokens : list (list Z)) : option (option Z * option Z) :=
  match tokens with
  | [] => Some (fg, bg)
  | w :: tokens' =>
      if bool_decide (take 3 w = txt "fg=") then termcolor_tokens (Some (parse_hex_color (drop 3 w))) bg tokens'
      else if bool_decide (take 3 w = txt "bg=") then termcolor_tokens fg (Some (parse_hex_color (drop 3 w))) tokens'
      else if bool_decide (take 4 w = txt "help") then None
      else termcolor_tokens fg bg tokens'
  end.

Definition changed_line (name : list Z) (v : option Z) : list (list Z) :=
  match v with Some v => [txt "  " ++ name ++ txt ": #" ++ hex_field v ++ txt " -> #" ++ hex_field v] | None => [] end.

Definition cmd_termcolor (s : tstate S) (args : option (list Z)) : outcome (tstate S) :=
  match default [] args with
  | [] => print_lines s (termcolor_usage (term s))
  | a =>
      match termcolor_tokens None None (words a) with
      | None => print_lines s termcolor_help
      | Some (fg, bg) =>
          let color v old := match v with Some v => fb_hex v | None => old end in
          let s := with_term s (with_colors (term s) (color fg (color_fg (term s))) (color bg (color_bg (term s)))) in
          let s := match bg with Some _ => drawing s [ClearAll (color_bg (term s))] | None => s end in
          (do s <- print_lines s (txt "Colors changed:" :: changed_line (txt "Foreground") fg ++ changed_line (txt "Background") bg);
           terminal_refresh env s)%out
      end
  end.

(** [atoi] of a token, as an unsigned number. *)
Definition word_number (w : list Z) : outcome Z :=
  (do n <- LibString.atoi (Datatypes.S (length w)) (literal (0 :: w)) 1; Ret (u32 n))%out.

Definition errlist_usage : list (list Z) :=
  [txt "Usage: errlist <command> [options]"; txt "Commands:"; txt "  show                    - Show all errors/warnings";
   txt "  show -e                 - Show only errors"; txt "  show -w                 - Show only warnings";
   txt "  show -g <subsystem>     - Show by subsystem"; txt "  show -d <description>   - Show by description";
   txt "  show -c <code>          - Show by error code"; txt "  show -l <n>             - Show last n entries";
   txt "  clear                   - Clear all entries"; txt "  clear -g <subsystem>    - Clear by subsystem";
   txt "  clear -c <code>         - Clear by code"; txt "  stats                   - Show statistics"].

(** Counting by subsystem, in a table of 32 places. *)
Fixpoint tally_add (table : list (list Z * Z)) (sub : list Z) : option (list (list Z * Z)) :=
  match table with
  | [] => None
  | (x, n) :: table' => if bool_decide (x = sub) then Some ((x, u32 (n + 1)) :: table') else cons (x, n) <$> tally_add table' sub
  end.

Definition tally_step (table : list (list Z * Z)) (e : errlist_entry) : list (list Z * Z) :=
  match tally_add table (e_subsystem e) with
  | Some table' => table'
  | None => if (length table <? 32)%nat then table ++ [(e_subsystem e, 1)] else table
  end.

Definition errlist_stats (s : tstate S) : outcome (tstate S) :=
  (do s <- terminal_printf env s ([10] ++ txt "=== Error List Statistics ===" ++ [10]);
   do errors <- errlist_get_error_count (errs s);
   do warnings <- errlist_get_warning_count (errs s);
   do s <- print_lines s [txt "Total entries:  " ++ udec (errlist_get_count (errs s)); txt "Errors:         " ++ udec errors;
                          txt "Warnings:       " ++ udec warnings; [10] ++ txt "By subsystem:"];
   let table := fold_left tally_step (live (errs s)) [] in
   do s <- print_lines s ((fun p => txt "  " ++ text_field (mk_spec true false 20 (-1) NoMod) p.1 ++ txt ": " ++ udec p.2) <$> table);
   terminal_printf env s (txt "=============================" ++ [10; 10]))%out.

(** An option with an argument. *)
Definition with_word (s : tstate S) (rest : list (list Z)) (missing : list Z) (f : list Z -> outcome (tstate S)) : outcome (tstate S) :=
  match rest with
  | [] => terminal_error_printf env s (txt "Missing " ++ missing ++ [10])
  | w :: _ => f w
  end.

Definition errlist_show_option (s : tstate S) (opt : list Z) (rest : list (list Z)) : outcome (tstate S) :=
  if bool_decide (opt = txt "-e") then errlist_show_errors_only env s
  else if bool_decide (opt = txt "-w") then errlist_show_warnings_only env s
  else if bool_decide (opt = txt "-g") then with_word s rest (txt "subsystem name") (errlist_show_by_subsystem env s)
  else if bool_decide (opt = txt "-d") then
    with_word s rest (txt "description") (fun w =>
      do es <- errlist_find_by_message (errs s) w;
      terminal_printf env s (txt "Found " ++ dec (Z.of_nat (length es)) ++ txt " entries containing '" ++ w ++ txt "'" ++ [10]))%out
  else if bool_decide (opt = txt "-c") then
    with_word s rest (txt "code") (fun w => do code <- word_number w; errlist_show_by_code env s code)%out
  else if bool_decide (opt = txt "-l") then
    with_word s rest (txt "number") (fun w => do n <- word_number w; errlist_show_last env s n)%out
  else terminal_error_printf env s (txt "Unknown option: " ++ opt ++ [10]).

Definition errlist_clear_option (s : tstate S) (opt : list Z) (rest : list (list Z)) : outcome (tstate S) :=
  if bool_decide (opt = txt "-g") then with_word s rest (txt "subsystem name") (fun w => errlist_clear_by_subsystem env s (Some w))
  else if bool_decide (opt = txt "-c") then
    with_word s rest (txt "code") (fun w => do code <- word_number w; errlist_clear_by_code env s code)%out
  else terminal_error_printf env s (txt "Unknown option: " ++ opt ++ [10]).

Definition cmd_errlist (s : tstate S) (args : option (list Z)) : outcome (tstate S) :=
  match default [] args with
  | [] => print_lines s errlist_usage
  | a =>
      match words a with
      | [] => Crash
      | cmd :: rest =>
          if bool_decide (cmd = txt "show") then
            match rest with [] => errlist_show_all env s | opt :: rest' => errlist_show_option s opt rest' end
          else if bool_decide (cmd = txt "clear") then
            match rest with [] => errlist_clear env s | opt :: rest' => errlist_clear_option s opt rest' end
          else if bool_decide (cmd = txt "stats") then errlist_stats s
          else terminal_error_printf env s (txt "Unknown command: " ++ cmd ++ [10])
      end
  end.
End commands.

(** * Moving characters *)

Lemma get_chk_some (l : list Z) (i : Z) : 0 <= i < Z.of_nat (length l) -> get_chk l i = Some (get l i).
Proof. intros Hi. unfold get_chk. by replace ((0 <=? i) && _) with true by lia. Qed.

Lemma set_chk_some (l : list Z) (i v : Z) : 0 <= i < Z.of_nat (length l) -> set_chk l i v = Some (set l i v).
Proof. intros Hi. unfold set_chk. by replace ((0 <=? i) && _) with true by lia. Qed.

Lemma set_chk_none (l : list Z) (i v : Z) : Z.of_nat (length l) <= i -> set_chk l i v = None.
Proof. intros Hi. unfold set_chk. by replace ((0 <=? i) && _) with false by lia. Qed.

Lemma move_byte_ok (b : list Z) (src dst : Z) :
  0 <= src < Z.of_nat (length b) -> 0 <= dst < Z.of_nat (length b) -> move_byte b src dst = Ret (set b dst (get b src)).
Proof. intros Hs Hd. unfold move_byte. rewrite get_chk_some by done. cbn. by rewrite set_chk_some. Qed.

Lemma shift_left_ok (b : list Z) (from upto : Z) :
  1 <= from -> upto <= Z.of_nat (length b) ->
  exists b', shift_left b from upto = Ret b' /\ length b' = length b /\
    forall i, 0 <= i < Z.of_nat (length b) -> get b' i = if (from - 1 <=? i) && (i <? upto - 1) then get b (i + 1) else get b i.
Proof.
  intros Hf Hu. unfold shift_left.
  destruct (ofor_from_inv (fun j b' => length b' = length b /\ forall i, 0 <= i < Z.of_nat (length b) ->
      get b' i = if (from - 1 <=? i) && (i <? j - 1) then get b (i + 1) else get b i)
    from (Z.to_nat (upto - from)) (fun i b => move_byte b i (i - 1)) b) as (b' & -> & L & G).
  - split; [done |]. intros i Hi. by replace ((_ <=? i) && _) with false by lia.
  - intros j b1 Hj (L & G). eexists. split; [by rewrite move_byte_ok by lia |]. split; [by rewrite length_set |].
    intros i Hi. destruct (decide (i = j - 1)) as [-> | Hne].
    + rewrite get_set_eq, G by lia. replace ((from - 1 <=? j) && _) with false by lia.
      replace ((from - 1 <=? j - 1) && _) with true by lia. f_equal. lia.
    + rewrite get_set_ne, G by lia. destruct ((from - 1 <=? i) && (i <? j - 1)) eqn:E.
      * by replace ((from - 1 <=? i) && _) with true by lia.
      * by replace ((from - 1 <=? i) && _) with false by lia.
  - exists b'. split; [done |]. split; [done |]. intros i Hi. rewrite G by done.
    destruct (Z.le_gt_cases from upto).
    + replace (from + Z.of_nat (Z.to_nat (upto - from))) with upto by lia. done.
    + replace (Z.to_nat (upto - from)) with 0%nat by lia.
      replace ((from - 1 <=? i) && (i <? from + Z.of_nat 0 - 1)) with false by lia.
      by replace ((from - 1 <=? i) && (i <? upto - 1)) with false by lia.
Qed.

Lemma shift_right_ok (b : list Z) (from downto : Z) :
  0 <= downto <= from -> from < Z.of_nat (length b) ->
  exists b', shift_right b from downto = Ret b' /\ length b' = length b /\
    forall i, 0 <= i < Z.of_nat (length b) -> get b' i = if (downto <? i) && (i <=? from) then get b (i - 1) else get b i.
Proof.
  intros Hd Hf. unfold shift_right.
  destruct (ofor_from_inv (fun k b' => length b' = length b /\ forall i, 0 <= i < Z.of_nat (length b) ->
      get b' i = if (from - k <? i) && (i <=? from) then get b (i - 1) else get b i)
    0 (Z.to_nat (from - downto)) (fun k b => move_byte b (from - k - 1) (from - k)) b) as (b' & -> & L & G).
  - split; [done |]. intros i Hi. by replace ((_ <? i) && _) with false by lia.
  - intros k b1 Hk (L & G). eexists. split; [by rewrite move_byte_ok by lia |]. split; [by rewrite length_set |].
    intros i Hi. destruct (decide (i = from - k)) as [-> | Hne].
    + rewrite get_set_eq, G by lia. replace ((from - k <? from - k - 1) && _) with false by lia.
      by replace ((_ <? from - k) && _) with true by lia.
    + rewrite get_set_ne, G by lia. destruct ((from - k <? i) && (i <=? from)) eqn:E.
      * by replace ((_ <? i) && _) with true by lia.
      * by replace ((_ <? i) && _) with false by lia.
  - exists b'. split; [done |]. split; [done |]. intros i Hi. rewrite G by done.
    by replace (from - (0 + Z.of_nat (Z.to_nat (from - downto)))) with downto by lia.
Qed.

(** * The abstract editor *)

(** A text and the place of the cursor in it. *)
Definition editor : Type := list Z * nat.

Definition printable (c : Z) : bool := (32 <=? c) && (c <? 127).

(** Backspace removes in front of the cursor; 0x7F and the capital S, whose code 0x53 is the
    scan code KEY_DELETE, remove behind it; any other printable character is inserted. *)
Definition edit_text (e : editor) (c : Z) : editor :=
  let '(text, k) := e in
  if c =? 8 then (if (0 <? k)%nat then (take (k - 1) text ++ drop k text, (k - 1)%nat) else e)
  else if (c =? 127) || (c =? KEY_DELETE) then (take k text ++ drop (k + 1) text, k)
  else if printable c then (if (length text <? 255)%nat then (take k text ++ [c] ++ drop k text, (k + 1)%nat) else e)
  else e.

(** The text that is being typed. *)
Definition typed (t : terminal) : list Z := take (Z.to_nat (input_pos t)) (input_buffer t).

Definition editing (t : terminal) (e : editor) : Prop :=
  length (input_buffer t) = 256%nat /\ 0 <= cursor_pos t <= input_pos t /\ input_pos t <= 255 /\
  get (input_buffer t) (input_pos t) = 0 /\ typed t = e.1 /\ cursor_pos t = Z.of_nat e.2 /\ Forall (fun c => printable c = true) e.1.

Lemma get_take (l : list Z) (n i : Z) : 0 <= i < n -> get (take (Z.to_nat n) l) i = get l i.
Proof. intros Hi. unfold get. rewrite !nth_lookup, lookup_take_lt by lia. done. Qed.

(** The typed text from the buffer, character by character. *)
Lemma typed_eq (b text : list Z) (n : Z) :
  0 <= n <= Z.of_nat (length b) -> Z.of_nat (length text) = n -> (forall i, 0 <= i < n -> get b i = get text i) ->
  take (Z.to_nat n) b = text.
Proof.
  intros Hn Hl Hg. apply list_eq_get; [rewrite length_take; lia |]. intros i Hi. rewrite length_take in Hi.
  rewrite get_take by lia. apply Hg. lia.
Qed.

Lemma get_cut (l : list Z) (a b : nat) (i : Z) : (a <= length l)%nat -> 0 <= i ->
  get (take a l ++ drop b l) i = if i <? Z.of_nat a then get l i else get l (i - Z.of_nat a + Z.of_nat b).
Proof.
  intros Ha Hi. unfold get. rewrite !nth_lookup. destruct (Z.ltb_spec i (Z.of_nat a)).
  - rewrite lookup_app_l by (rewrite length_take; lia). by rewrite lookup_take_lt by lia.
  - rewrite lookup_app_r by (rewrite length_take; lia). rewrite length_take, lookup_drop. do 2 f_equal. lia.
Qed.

Lemma get_put (l : list Z) (k : nat) (c i : Z) : (k <= length l)%nat -> 0 <= i ->
  get (take k l ++ [c] ++ drop k l) i = if i <? Z.of_nat k then get l i else if i =? Z.of_nat k then c else get l (i - 1).
Proof.
  intros Ha Hi. unfold get. rewrite !nth_lookup. destruct (Z.ltb_spec i (Z.of_nat k)).
  - rewrite lookup_app_l by (rewrite length_take; lia). by rewrite lookup_take_lt by lia.
  - rewrite lookup_app_r by (rewrite length_take; lia). rewrite length_take, Nat.min_l by lia.
    destruct (Z.eqb_spec i (Z.of_nat k)) as [-> | Hne]; [by replace (Z.to_nat _ - k)%nat with 0%nat by lia |].
    replace (Z.to_nat i - k)%nat with (Datatypes.S (Z.to_nat i - k - 1)) by lia.
    change (([c] ++ drop k l) !! Datatypes.S ?n) with (drop k l !! n). rewrite lookup_drop. do 2 f_equal. lia.
Qed.

(** Cutting a character out of the buffer. *)
Lemma cut_ok (t : terminal) (text : list Z) (k j : nat) :
  editing t (text, k) -> (j < length text)%nat ->
  exists b, shift_left (input_buffer t) (Z.of_nat j + 1) (input_pos t) = Ret b /\ length b = 256%nat /\
    let b' := set b (input_pos t - 1) 0 in
    set_chk b (u32 (input_pos t - 1)) 0 = Some b' /\
    get b' (input_pos t - 1) = 0 /\ take (Z.to_nat (input_pos t - 1)) b' = take j text ++ drop (j + 1) text.
Proof.
  intros (L & Hc & Hp & Hz & Ht & Hk & Hf) Hj. cbn [fst snd] in *. unfold typed in Ht.
  assert (Lt : Z.of_nat (length text) = input_pos t) by (rewrite <- Ht, length_take; lia).
  destruct (shift_left_ok (input_buffer t) (Z.of_nat j + 1) (input_pos t)) as (b & E & Lb & G); [lia | lia |].
  exists b. split; [done |]. split; [lia |]. cbn zeta. rewrite wrap_small by (unfold fits; lia).
  split; [by rewrite set_chk_some by lia |]. split; [by rewrite get_set_eq by lia |].
  apply typed_eq; [rewrite length_set; lia | rewrite length_app, length_take, length_drop; lia |].
  intros i Hi. rewrite get_set_ne, G by lia. rewrite get_cut by lia. rewrite <- Ht. rewrite !get_take by lia.
  replace (Z.of_nat j + 1 - 1) with (Z.of_nat j) by lia. replace (i <? input_pos t - 1) with true by lia. rewrite andb_true_r.
  destruct (Z.leb_spec (Z.of_nat j) i).
  - replace (i <? Z.of_nat j) with false by lia. f_equal. lia.
  - by replace (i <? Z.of_nat j) with true by lia.
Qed.

Lemma edit_ok (t : terminal) (e : editor) (c : Z) :
  editing t e -> exists r, edit t c = Ret r /\
    match r with
    | Some t' => editing t' (edit_text e c) /\ mode t' = mode t /\ prompt_on t' = prompt_on t
    | None => edit_text e c = e
    end.
Proof.
  destruct e as [text k]. intros He. pose proof He as (L & Hc & Hp & Hz & Ht & Hk & Hf). cbn [fst snd] in *.
  assert (Lt : Z.of_nat (length text) = input_pos t) by (unfold typed in Ht; rewrite <- Ht, length_take; lia).
  unfold edit, edit_text. destruct (c =? 8).
  - unfold edit_backspace. destruct (Z.ltb_spec 0 (cursor_pos t)) as [H0 | H0].
    2: { exists None. split; [done |]. by replace (0 <? k)%nat with false by lia. }
    replace (0 <? k)%nat with true by lia.
    destruct (cut_ok t text k (k - 1) He ltac:(lia)) as (b & E & Lb & Es & Ez & Et).
    replace (Z.of_nat (k - 1) + 1) with (cursor_pos t) in E by lia. rewrite E. cbn [obind].
    eexists. split; [rewrite Es; reflexivity |]. split; [| done].
    unfold editing, typed. cbn [with_input input_buffer input_pos cursor_pos fst snd]. rewrite wrap_small by (unfold fits; lia).
    replace (k - 1 + 1)%nat with k in Et by lia. rewrite length_set. split_and!; try lia; try done.
    apply Forall_app_2; [by apply Forall_take | by apply Forall_drop].
  - destruct ((c =? 127) || (c =? KEY_DELETE)).
    + unfold edit_delete. rewrite wrap_small by (unfold fits; lia). destruct (Z.ltb_spec (cursor_pos t) (input_pos t)) as [H0 | H0].
      2: { exists None. split; [done |]. rewrite take_ge, drop_ge by lia. by rewrite app_nil_r. }
      destruct (cut_ok t text k k He ltac:(lia)) as (b & E & Lb & Es & Ez & Et).
      rewrite Hk, E. cbn [obind]. eexists. split; [rewrite Es; reflexivity |]. split; [| done].
      unfold editing, typed. cbn [with_input input_buffer input_pos cursor_pos fst snd]. rewrite wrap_small by (unfold fits; lia).
      rewrite length_set. split_and!; try lia; try done.
      apply Forall_app_2; [by apply Forall_take | by apply Forall_drop].
    + fold (printable c). destruct (printable c) eqn:Hpr; [| by exists None].
      unfold edit_insert, INPUT_BUFFER_SIZE. destruct (Z.ltb_spec (input_pos t) (256 - 1)) as [H0 | H0].
      2: { exists None. split; [done |]. by replace (length text <? 255)%nat with false by lia. }
      replace (length text <? 255)%nat with true by lia.
      destruct (shift_right_ok (input_buffer t) (input_pos t) (cursor_pos t)) as (b & -> & Lb & G); [lia | lia |]. cbn [obind].
      rewrite set_chk_some by lia. cbn [obind of_option]. rewrite wrap_small by (unfold fits; lia).
      rewrite set_chk_some by (rewrite length_set; lia). cbn [obind of_option]. eexists. split; [reflexivity |]. split; [| done].
      unfold editing, typed. cbn [with_input input_buffer input_pos cursor_pos fst snd]. rewrite i32_small by lia.
      rewrite !length_set. split_and!; try lia.
      * rewrite get_set_eq; [done |]. rewrite length_set. lia.
      * apply typed_eq; [rewrite !length_set; lia | rewrite !length_app, length_take, length_drop; cbn [length]; lia |].
        intros i Hi. rewrite get_set_ne by lia. rewrite get_put by lia. rewrite <- Ht. unfold typed. rewrite Hk in *.
        destruct (Z.eqb_spec i (Z.of_nat k)) as [-> | Hne].
        -- rewrite get_set_eq by lia. by replace (Z.of_nat k <? Z.of_nat k) with false by lia.
        -- rewrite get_set_ne, G by lia. destruct (Z.ltb_spec i (Z.of_nat k)).
           ++ replace (Z.of_nat k <? i) with false by lia. cbn [andb]. by rewrite get_take by lia.
           ++ replace ((Z.of_nat k <? i) && _) with true by lia. by rewrite get_take by lia.
      * apply Forall_app_2; [by apply Forall_take |]. apply Forall_app_2; [by repeat constructor | by apply Forall_drop].
Qed.

Lemma cstring_printable (text rest : list Z) : Forall (fun c => printable c = true) text -> cstring (text ++ 0 :: rest) = text.
Proof.
  induction 1 as [|c text Hc Hf IH]; [done |]. cbn [app cstring]. rewrite IH. unfold printable in Hc. by replace (c =? 0) with false by lia.
Qed.

(** The input buffer, as a C string, is the typed text. *)
Lemma editing_cstring (t : terminal) (e : editor) : editing t e -> cstring (input_buffer t) = e.1.
Proof.
  intros (L & Hc & Hp & Hz & Ht & Hk & Hf). rewrite <- (take_drop (Z.to_nat (input_pos t)) (input_buffer t)).
  destruct (lookup_lt_is_Some_2 (input_buffer t) (Z.to_nat (input_pos t))) as [x Hx]; [lia |].
  rewrite (drop_S _ x) by done. assert (x = 0) as -> by (unfold get in Hz; by rewrite (nth_lookup_Some _ _ _ _ Hx) in Hz).
  fold (typed t). rewrite Ht. by apply cstring_printable.
Qed.

Lemma getline_waits_ok (t : terminal) (e : editor) : editing t e -> getline_waits t = Ret true.
Proof.
  intros (L & Hc & Hp & Hz & Ht & Hk & Hf). unfold getline_waits. destruct (Z.eqb_spec (input_pos t) 0) as [_ | Hne]; [done |].
  rewrite wrap_small by (unfold fits; lia). rewrite get_chk_some by lia. cbn [of_option obind].
  assert (Hg : get (input_buffer t) (input_pos t - 1) = get e.1 (input_pos t - 1)) by (rewrite <- Ht; unfold typed; by rewrite get_take by lia).
  assert (Le : Z.of_nat (length e.1) = input_pos t) by (rewrite <- Ht; unfold typed; rewrite length_take; lia).
  destruct (lookup_lt_is_Some_2 e.1 (Z.to_nat (input_pos t - 1))) as [x Hx]; [lia |].
  pose proof (Forall_lookup_1 _ _ _ _ Hf Hx) as Hp2. cbn in Hp2. unfold printable in Hp2.
  rewrite Hg. unfold get. rewrite (nth_lookup_Some _ _ _ _ Hx). do 2 f_equal. lia.
Qed.

Section shell.
Context {S : Type} `{BlockAlloc S} (env : surroundings).
Context (run : command -> option (list Z) -> tstate S -> outcome (tstate S)).

Lemma update_prompt_term (s : tstate S) : term (terminal_update_prompt_line env s) = term s.
Proof. unfold terminal_update_prompt_line. destruct (negb _); [done |]. by destruct (negb _). Qed.

Lemma handle_input_ok (s : tstate S) (e : editor) (c : Z) :
  prompting (term s) = true -> is_newline c = false -> editing (term s) e ->
  exists s', terminal_handle_input env run s c = Ret s' /\ prompting (term s') = true /\ editing (term s') (edit_text e c).
Proof.
  intros Hp Hn He. unfold terminal_handle_input. rewrite Hp, Hn. cbn [negb].
  destruct (edit_ok (term s) e c He) as ([t' |] & -> & Hr); cbn [obind]; eexists; (split; [reflexivity |]).
  - destruct Hr as (He' & Hm & Hpo). rewrite update_prompt_term. cbn [term with_term]. split; [| done].
    unfold prompting. by rewrite Hm, Hpo.
  - by rewrite Hr.
Qed.

Lemma handle_keys_ok (keys : list Z) (s : tstate S) (e : editor) :
  prompting (term s) = true -> Forall (fun c => is_newline c = false) keys -> editing (term s) e ->
  exists s', handle_keys env run s keys = Ret s' /\ prompting (term s') = true /\ editing (term s') (fold_left edit_text keys e).
Proof.
  intros Hp Hf. revert s e Hp. induction Hf as [|c keys Hc Hf IH]; intros s e Hp He; cbn [handle_keys fold_left]; [by exists s |].
  destruct (handle_input_ok s e c Hp Hc He) as (s1 & -> & Hp1 & He1). cbn [obind]. by apply IH.
Qed.

(** C32: The prompt implements a line editor: for every sequence of keys without a line break the
    handler returns, never leaves the buffer, and the input is then the text that inserting and
    removing at the cursor gives. *)
Theorem shell_editor_refines (s : tstate S) (keys : list Z) (e : editor) :
  prompting (term s) = true -> Forall (fun c => is_newline c = false) keys -> editing (term s) e ->
  exists s', handle_keys env run s keys = Ret s' /\ cstring (input_buffer (term s')) = (fold_left edit_text keys e).1 /\
    cursor_pos (term s') = Z.of_nat (fold_left edit_text keys e).2 /\ editing (term s') (fold_left edit_text keys e).
Proof.
  intros Hp Hf He. destruct (handle_keys_ok keys s e Hp Hf He) as (s' & E & _ & He'). exists s'. split; [done |].
  split; [by apply editing_cstring |]. split; [| done]. by destruct He' as (_ & _ & _ & _ & _ & Hk & _).
Qed.

(** [terminal_getline] waits for a line break in the input buffer, where the handler of the
    keys never puts one: after every sequence of keys it still waits, and so it does after the
    Enter key, unless that one stopped at [part] without arguments. *)
Theorem terminal_getline_endless (s : tstate S) (keys : list Z) :
  prompting (term s) = true -> Forall (fun c => is_newline c = false) keys -> cursor_pos (term s) = 0 ->
  exists s', handle_keys env run (getline_begin s) keys = Ret s' /\ getline_waits (term s') = Ret true /\
    (forall s'', terminal_handle_input env run s' 10 = Ret s'' ->
       getline_waits (term s'') = Ret true \/ exists x, run_line env run s' = Ret (true, x)).
Proof.
  intros Hp Hf Hc.
  assert (He : editing (term (getline_begin s)) ([], 0%nat)).
  { unfold editing, typed. cbn [getline_begin with_term term with_input input_buffer input_pos cursor_pos fst snd].
    rewrite length_replicate, Hc. split_and!; try done; try lia. }
  destruct (handle_keys_ok keys (getline_begin s) ([], 0%nat) Hp Hf He) as (s' & E & Hp' & He'). exists s'. split; [done |].
  split; [by eapply getline_waits_ok |]. intros s'' Es. unfold terminal_handle_input in Es. rewrite Hp' in Es.
  change (is_newline 10) with true in Es. cbn [negb] in Es. apply obind_ret in Es as ([early s1] & E1 & E2).
  destruct early; [right | left; injection E2 as <-; by rewrite update_prompt_term].
  destruct (0 <? input_pos (term s')); [by exists s1 | done].
Qed.

(** The scan code of the Delete key is the character S: with the cursor at the end of the text,
    where every key leaves it, a capital S is not entered. *)
Theorem shell_capital_s_lost (s : tstate S) (text : list Z) :
  prompting (term s) = true -> editing (term s) (text, length text) -> terminal_handle_input env run s 83 = Ret s.
Proof.
  intros Hp (L & Hc & Hl & Hz & Ht & Hk & Hf). cbn [fst snd] in *. unfold terminal_handle_input. rewrite Hp. cbn [negb].
  change (is_newline 83) with false. cbn iota. unfold edit. change (83 =? 8) with false. change ((83 =? 127) || (83 =? KEY_DELETE)) with true.
  cbn iota. unfold edit_delete.
  assert (Lt : Z.of_nat (length text) = input_pos (term s)) by (rewrite <- Ht; unfold typed; rewrite length_take; lia).
  rewrite wrap_small by (unfold fits; lia). by replace (cursor_pos (term s) <? input_pos (term s)) with false by lia.
Qed.

Lemma refresh_term (s s' : tstate S) : terminal_refresh env s = Ret s' ->
  term s' = term s \/ term s' = term_calc_visible_lines env (term s).
Proof.
  unfold terminal_refresh. destruct (sur_ready env); cbn [negb]; [| intros [= <-]; by left].
  intros E. right. apply obind_ret in E as (n & _ & E). apply obind_ret in E as (ds & _ & E).
  apply obind_ret in E as (bar & _ & E). injection E as <-. done.
Qed.

(** Enabling the prompt empties the input and keeps the cursor: when something had been
    typed, the next Backspace writes below the buffer. *)
Theorem terminal_enable_prompt_stale_cursor (s s' : tstate S) (e : editor) :
  editing (term s) e -> (0 < e.2)%nat -> terminal_enable_prompt env s true = Ret s' -> terminal_handle_input env run s' 8 = Crash.
Proof.
  intros (L & Hc & Hl & Hz & Ht & Hk & Hf) H0 E. unfold terminal_enable_prompt in E. apply refresh_term in E.
  assert (G : forall t, prompting t = true -> input_pos t = 0 -> cursor_pos t = cursor_pos (term s) -> length (input_buffer t) = 256%nat ->
    edit t 8 = Crash).
  { intros t _ E1 E2 E3. unfold edit. change (8 =? 8) with true. cbn iota. unfold edit_backspace. rewrite E1, E2.
    replace (0 <? cursor_pos (term s)) with true by lia. unfold shift_left. replace (Z.to_nat (0 - cursor_pos (term s))) with 0%nat by lia.
    cbn [ofor_from obind]. rewrite set_chk_none; [done |]. rewrite E3. by vm_compute. }
  assert (G2 : prompting (term s') = true /\ edit (term s') 8 = Crash).
  { destruct E as [-> | ->]; (split; [done |]); apply G; try done; cbn [with_term term term_calc_visible_lines with_visible with_input input_buffer];
      by rewrite length_replicate. }
  destruct G2 as [Hp G2]. unfold terminal_handle_input. rewrite Hp. change (is_newline 8) with false. cbn [negb]. by rewrite G2.
Qed.
End shell.

(** * Colours *)

(** Six hexadecimal digits. *)
Definition hex6 (v : Z) : list Z :=
  (fun k => hex_digit true (v / 16 ^ k mod 16)) <$> [5; 4; 3; 2; 1; 0].

Lemma hex_digits_step (n : nat) (c d : Z) (p : list Z) :
  0 <= c < 2 ^ 28 -> 0 <= d < 16 -> hex_digits (S n) c (hex_digit true d :: p) = hex_digits n (16 * c + d) p.
Proof.
  intros Hc Hd. cbn [hex_digits]. rewrite Z.shiftl_mul_pow2 by lia. change (2 ^ 4) with 16. rewrite wrap_small by (unfold fits; lia).
  assert (E : Z.lor (c * 16) d = 16 * c + d).
  { pose proof (Z.add_lor_land (c * 16) d) as Ha. assert (Hl : Z.land (c * 16) d = 0); [| lia].
    apply Z.bits_inj'. intros i Hi. rewrite Z.land_spec, Z.bits_0. change 16 with (2 ^ 4).
    rewrite <- Z.shiftl_mul_pow2, Z.shiftl_spec by lia. destruct (Z.lt_ge_cases i 4).
    - by rewrite Z.testbit_neg_r by lia.
    - rewrite (fits_testbit 4 d i); [apply andb_false_r | lia | done | lia]. }
  unfold hex_digit. destruct (Z.ltb_spec d 10).
  - replace ((48 <=? 48 + d) && (48 + d <=? 57)) with true by lia. f_equal. rewrite <- E. f_equal. lia.
  - replace ((48 <=? _) && _) with false by lia. replace ((65 <=? _) && _) with true by lia. f_equal. rewrite <- E. f_equal. lia.
Qed.

(** Six hexadecimal digits are read as the number they stand for. *)
Lemma hex_color_ok (v : Z) : 0 <= v < 2 ^ 24 -> parse_hex_color (txt "0x" ++ hex6 v) = v.
Proof.
  intros Hv. change (txt "0x") with [48; 120]. unfold parse_hex_color, hex6. cbn [fmap list_fmap app].
  change (2 ^ 24) with 16777216 in Hv. change (16 ^ 5) with 1048576. change (16 ^ 4) with 65536. change (16 ^ 3) with 4096. change (16 ^ 2) with 256. change (16 ^ 1) with 16. change (16 ^ 0) with 1.
  do 6 (rewrite hex_digits_step; [| Z.to_euclidean_division_equations; lia | Z.to_euclidean_division_equations; lia]).
  cbn [hex_digits]. Z.to_euclidean_division_equations. lia.
Qed.

(** * What printing leaves alone *)

Section kept.
Context {S : Type} `{BlockAlloc S} (env : surroundings).

Definition kept (s s' : tstate S) : Prop :=
  errs s' = errs s /\ input_buffer (term s') = input_buffer (term s) /\ input_pos (term s') = input_pos (term s) /\
  cursor_pos (term s') = cursor_pos (term s) /\ mode (term s') = mode (term s) /\ prompt_on (term s') = prompt_on (term s) /\
  color_fg (term s') = color_fg (term s) /\ color_bg (term s') = color_bg (term s).

#[local] Instance kept_preorder : PreOrder kept.
Proof. split; [by intros s; split_and! |]. intros s1 s2 s3. unfold kept. intuition congruence. Qed.

Lemma evict_kept (fuel : nat) (s s' : tstate S) : term_evict fuel s = Ret s' -> kept s s'.
Proof.
  revert s. induction fuel as [|fuel IH]; [done |]. intros s. cbn [term_evict].
  destruct (_ <? _); [| intros [= <-]; reflexivity]. intros E.
  apply obind_ret in E as (old & _ & E). apply obind_ret in E as (m & _ & E). apply obind_ret in E as (s1 & E1 & E).
  unfold free_line in E1. apply obind_ret in E1 as (h1 & _ & E1). apply obind_ret in E1 as (h2 & _ & E1). injection E1 as <-.
  apply IH in E. etransitivity; [| exact E]. by split_and!.
Qed.

Lemma add_line_kept (s s' : tstate S) text c : term_add_line s text c = Ret s' -> kept s s'.
Proof.
  unfold term_add_line. intros E. apply obind_ret in E as ([[p u] h] & _ & E). destruct (p =? 0); [injection E as <-; by split_and! |].
  apply obind_ret in E as ([[q v] h'] & _ & E). destruct (q =? 0).
  { apply obind_ret in E as (h2 & _ & E). injection E as <-. by split_and!. }
  apply obind_ret in E as (m & _ & E). apply obind_ret in E as (s1 & E1 & E). apply evict_kept in E1.
  injection E as <-. transitivity s1; [| destruct (_ && _); [by split_and! | reflexivity]].
  etransitivity; [| exact E1]. by split_and!.
Qed.

Lemma refresh_kept (s s' : tstate S) : terminal_refresh env s = Ret s' -> kept s s'.
Proof.
  unfold terminal_refresh. destruct (negb _); [intros [= <-]; reflexivity |].
  intros E. apply obind_ret in E as (n & _ & E). apply obind_ret in E as (ds & _ & E).
  apply obind_ret in E as (bar & _ & E). injection E as <-. by split_and!.
Qed.

Lemma print_kept (s s' : tstate S) (str : list Z) : terminal_print env s str = Ret s' -> kept s s'.
Proof.
  unfold terminal_print. intros E. apply obind_ret in E as (s1 & E1 & E). apply refresh_kept in E. etransitivity; [| exact E]. clear E.
  revert s E1. generalize (@nil Z) as seg. induction str as [|c str IH]; intros seg s E1; cbn [print_loop] in E1.
  - destruct seg; [injection E1 as <-; reflexivity |]. by eapply add_line_kept.
  - destruct (is_newline c); [| by eapply IH]. apply obind_ret in E1 as (s2 & E2 & E1). etransitivity; [| by eapply IH].
    destruct seg; [by eapply add_line_kept |]. destruct (_ <=? _); [done |]. by eapply add_line_kept.
Qed.

Lemma print_color_kept (s s' : tstate S) (str : list Z) fg bg : terminal_print_color env s str fg bg = Ret s' -> kept s s'.
Proof.
  unfold terminal_print_color. intros E. apply obind_ret in E as (s1 & E1 & E). apply print_kept in E1. injection E as <-.
  destruct E1 as (E1 & E2 & E3 & E4 & E5 & E6 & _). by split_and!.
Qed.

(** An error with a code is recorded twice: [terminal_error_printf], which reports it, adds the
    line it prints as an entry of its own. *)
Theorem errlist_add_duplicates (s s' : tstate S) (sub msg : list Z) (code : Z) (file : option (list Z)) (line : Z) :
  errs_ok (errs s) -> e_enabled (errs s) = true -> e_count (errs s) < ERRLIST_MAX_ENTRIES - 1 -> code <> 0 ->
  errlist_add_ext env s (Some sub) (Some msg) code true file line = Ret s' ->
  exists e1 e2, live (errs s') = live (errs s) ++ [e1; e2] /\ e_code e1 = code /\ e_subsystem e1 = field_text (ERRLIST_MAX_SUBSYSTEM - 1) sub /\
    e_code e2 = 0 /\ e_subsystem e2 = field_text (ERRLIST_MAX_SUBSYSTEM - 1) TERMINAL_TEXT /\ e_is_error e2 = true.
Proof.
  intros Hok Hen Hc Hcode E. unfold errlist_add_ext in E.
  pose proof (errlist_store_ok (errs s) (sur_now env) sub msg code true file line Hok Hen) as H1.
  replace (e_count (errs s) <? ERRLIST_MAX_ENTRIES) with true in H1 by lia. destruct H1 as (l1 & e1 & E1 & Hok1 & Hen1 & Hl1 & Hc1 & _ & _ & Hs1 & _).
  rewrite E1 in E. cbn [obind] in E. replace (code =? 0) with false in E by lia. cbn [negb andb] in E.
  unfold terminal_error_printf, errlist_note in E. cbn [errs with_errs] in E.
  apply obind_ret in E as (s2 & E2 & E). apply print_color_kept in E as [Eerr _].
  pose proof (live_length _ Hok) as HL. pose proof (live_length _ Hok1) as HL1. rewrite Hl1, length_app in HL1. cbn [length] in HL1.
  match type of E2 with context [errlist_store l1 ?now (Some ?a) (Some ?b) 0 true None 0] =>
    pose proof (errlist_store_ok l1 now a b 0 true None 0 Hok1 Hen1) as H2 end.
  replace (e_count l1 <? ERRLIST_MAX_ENTRIES) with true in H2 by lia. destruct H2 as (l2 & e2 & E3 & _ & _ & Hl2 & Hc2 & Hi2 & _ & Hs2 & _).
  rewrite E3 in E2. cbn [obind] in E2. injection E2 as <-. cbn [errs with_errs] in Eerr.
  exists e1, e2. rewrite Eerr, Hl2, Hl1, <- app_assoc. done.
Qed.

(** The line "part" without arguments is not taken off the prompt: the handler returns before
    it empties the input, and the next key is added to it. *)
Theorem shell_part_keeps_line run (s s' : tstate S) (e : editor) :
  prompting (term s) = true -> editing (term s) e -> e.1 = txt "part" -> terminal_handle_input env run s 10 = Ret s' ->
  typed (term s') = txt "part" /\ cursor_pos (term s') = cursor_pos (term s).
Proof.
  intros Hp He Htx E. pose proof (editing_cstring _ _ He) as Hcs. rewrite Htx in Hcs. destruct He as (L & Hc & Hl & Hz & Ht & Hk & Hf).
  assert (Hpos : (0 <? input_pos (term s)) = true).
  { unfold typed in Ht. rewrite Htx in Ht. destruct (Z.ltb_spec 0 (input_pos (term s))); [done |].
    replace (Z.to_nat (input_pos (term s))) with 0%nat in Ht by lia. done. }
  unfold terminal_handle_input in E. rewrite Hp in E. change (is_newline 10) with true in E. cbn [negb] in E. rewrite Hpos in E.
  apply obind_ret in E as ([early s1] & E1 & E). unfold run_line in E1. rewrite Hcs in E1.
  apply obind_ret in E1 as (s2 & E2 & E1). apply obind_ret in E1 as (s3 & E3 & E1). apply add_line_kept in E2. apply refresh_kept in E3.
  change (parse_command (txt "part")) with (txt "part", @None (list Z)) in E1. cbn iota in E1.
  change (decode (txt "part") None) with (Part None) in E1. cbn iota in E1.
  apply obind_ret in E1 as (s4 & E4 & E1). apply print_kept in E4. injection E1 as <- <-. injection E as <-.
  assert (K : kept s s4) by (etransitivity; [exact E2 |]; etransitivity; [exact E3 | exact E4]).
  destruct K as (_ & K1 & K2 & K3 & _). unfold typed in *. rewrite K1, K2, Ht. done.
Qed.
Lemma print_lines_kept (ls : list (list Z)) (s s' : tstate S) : print_lines env s ls = Ret s' -> kept s s'.
Proof.
  revert s. induction ls as [|l ls IH]; intros s E; cbn [print_lines] in E; [injection E as <-; reflexivity |].
  apply obind_ret in E as (s1 & E1 & E). apply print_kept in E1. etransitivity; [exact E1 | by apply IH].
Qed.

Lemma words_from_single (s word : list Z) : Forall (fun c => (c =? 32) = false) s -> word ++ s <> [] -> words_from s word = [word ++ s].
Proof.
  intros Hf. revert word. induction Hf as [|c s Hc Hf IH]; intros word Hne; cbn [words_from].
  - rewrite app_nil_r in *. by destruct word.
  - rewrite Hc, IH; [by rewrite <- app_assoc |]. by destruct word.
Qed.

(** termcolor with a foreground sets that colour and no other: the six digits of the argument are
    the red, green and blue that text is drawn in from then on. *)
Theorem termcolor_sets_foreground (s s' : tstate S) (v : Z) :
  0 <= v < 2 ^ 24 -> cmd_termcolor env s (Some (txt "fg=0x" ++ hex6 v)) = Ret s' ->
  color_fg (term s') = mk_color (v / 2 ^ 16) (v / 2 ^ 8 mod 256) (v mod 256) 255 /\ color_bg (term s') = color_bg (term s).
Proof.
  intros Hv E. unfold cmd_termcolor in E.
  change (default [] (Some (txt "fg=0x" ++ hex6 v))) with (102 :: 103 :: 61 :: txt "0x" ++ hex6 v) in E. cbn iota in E.
  assert (W : words (102 :: 103 :: 61 :: txt "0x" ++ hex6 v) = [102 :: 103 :: 61 :: txt "0x" ++ hex6 v]).
  { apply (words_from_single (102 :: 103 :: 61 :: txt "0x" ++ hex6 v) []); [| done].
    do 5 (apply Forall_cons_2; [done |]). unfold hex6. apply Forall_fmap, Forall_forall. intros k _. unfold compose, hex_digit.
    pose proof (Z.mod_pos_bound (v / 16 ^ k) 16 ltac:(lia)). destruct (_ <? 10); lia. }
  rewrite W in E.
  change (termcolor_tokens None None [102 :: 103 :: 61 :: txt "0x" ++ hex6 v])
    with (Some (Some (parse_hex_color (txt "0x" ++ hex6 v)), @None Z)) in E.
  rewrite hex_color_ok in E by done. cbn iota in E. apply obind_ret in E as (s1 & E1 & E2).
  apply print_lines_kept in E1. apply refresh_kept in E2.
  destruct E1 as (_ & _ & _ & _ & _ & _ & F1 & B1), E2 as (_ & _ & _ & _ & _ & _ & F2 & B2). rewrite F2, F1, B2, B1.
  split; [| done]. cbn [term with_term with_colors color_fg]. unfold fb_hex. change 0xFF with (Z.ones 8).
  rewrite !Z.land_ones, !Z.shiftr_div_pow2 by lia. change (2 ^ 8) with 256. change (2 ^ 16) with 65536. change (2 ^ 24) with 16777216 in Hv.
  f_equal. apply Z.mod_small. Z.to_euclidean_division_equations. lia.
Qed.
End kept.

(** * The command line *)

Lemma command_word_ok (n : nat) (cmd rest : list Z) :
  (length cmd <= n)%nat -> Forall (fun c => (c =? 32) = false) cmd -> (rest = [] \/ exists r, rest = 32 :: r) ->
  command_word n (cmd ++ rest) = (cmd, rest).
Proof.
  revert n. induction cmd as [|c cmd IH]; intros n Hn Hf Hr.
  - destruct n; [done |]. by destruct Hr as [-> | (r & ->)].
  - destruct n as [|n]; [cbn in Hn; lia |]. apply Forall_cons in Hf as [Hc Hf]. cbn [app command_word]. rewrite Hc.
    rewrite IH by (done || (cbn [length] in Hn; lia)). done.
Qed.

Lemma skip_blanks_ok (n : nat) (args : list Z) : (forall c, head args = Some c -> (c =? 32) = false) ->
  skip_blanks (replicate n 32 ++ args) = args.
Proof. intros Ha. induction n as [|n IH]; [| done]. destruct args as [|c args]; [done |]. cbn. by rewrite (Ha c). Qed.

(** A line made of a command of at most 63 characters, spaces and arguments is split into the
    command and the arguments. *)
Theorem parse_command_roundtrip (cmd args : list Z) (n : nat) :
  (length cmd <= 63)%nat -> Forall (fun c => (c =? 32) = false) cmd -> (0 < n)%nat ->
  (exists c args', args = c :: args' /\ (c =? 32) = false) ->
  parse_command (cmd ++ replicate n 32 ++ args) = (cmd, Some args) /\ parse_command cmd = (cmd, None).
Proof.
  intros Hl Hf Hn (c & args' & -> & Hc). unfold parse_command. split.
  - rewrite command_word_ok; [| done | done |].
    + rewrite skip_blanks_ok; [done |]. by intros x [= <-].
    + right. destruct n as [|n]; [lia |]. by eexists.
  - rewrite <- (app_nil_r cmd) at 1. rewrite command_word_ok; [done | done | done |]. by left.
Qed.

(** * Arguments in quotes *)

Lemma get_chk_app (a : list Z) (c : Z) (b : list Z) : get_chk (a ++ c :: b) (Z.of_nat (length a)) = Some c.
Proof.
  rewrite get_chk_some by (rewrite length_app; cbn [length]; lia). unfold get. rewrite Nat2Z.id, nth_middle. done.
Qed.

(** A quoted argument at the end of the line: the terminator is written behind the quote, where it
    is already, and the scan goes on behind it, outside of the line. *)
Theorem tokenize_quoted_overread (word : list Z) (max_args : Z) :
  0 < max_args -> Forall (fun c => (c =? 0) = false /\ (c =? 34) = false) word ->
  tokenize_quoted ([34] ++ word ++ [34; 0]) max_args = Crash.
Proof.
  intros Hm Hf. unfold tokenize_quoted.
  assert (G : forall rest pre fuel, Forall (fun c => (c =? 0) = false /\ (c =? 34) = false) rest -> (length rest + 1 < fuel)%nat ->
    tokenize_from fuel (pre ++ rest ++ [34; 0]) max_args (Z.of_nat (length pre)) 34 (Some 1) [] = Crash).
  { induction rest as [|c rest IH]; intros pre fuel Hr Hfu; destruct fuel as [|fuel]; try (cbn in Hfu; lia); cbn [tokenize_from app].
    - rewrite get_chk_app. cbn [of_option obind]. change (34 =? 0) with false. replace (Z.of_nat (length (@nil Z)) <? max_args) with true by (cbn; lia).
      cbn. destruct fuel as [|fuel]; [cbn in Hfu; lia |].
      rewrite set_chk_some by (rewrite length_app; cbn [length]; lia). cbn [of_option obind tokenize_from].
      replace (get_chk _ _) with (@None Z); [done |]. unfold get_chk. rewrite length_set, length_app. cbn [length].
      by replace ((0 <=? _) && _) with false by lia.
    - apply Forall_cons in Hr as [[Hc0 Hcq] Hr]. rewrite get_chk_app. cbn [of_option obind]. rewrite Hc0.
      replace (Z.of_nat (length (@nil Z)) <? max_args) with true by (cbn; lia). change (34 =? 0) with false. cbn [andb negb orb]. rewrite Hcq.
      cbn iota.
      replace (pre ++ c :: rest ++ [34; 0]) with ((pre ++ [c]) ++ rest ++ [34; 0]) by (by rewrite <- app_assoc).
      replace (Z.of_nat (length pre) + 1) with (Z.of_nat (length (pre ++ [c]))) by (rewrite length_app; cbn [length]; lia).
      apply IH; [done |]. cbn [length] in Hfu. lia. }
  assert (Hfu : (length word + 1 < length ([34%Z] ++ word ++ [34%Z; 0%Z]))%nat) by (rewrite !length_app; cbn [length]; lia).
  revert Hfu. generalize (length ([34] ++ word ++ [34; 0])) as fuel. intros fuel Hfu.
  specialize (G word [34] fuel Hf Hfu). cbn [app length] in *. cbn [tokenize_from].
  change (get_chk (34 :: word ++ [34; 0]) 0) with (get_chk ([] ++ 34 :: word ++ [34; 0]) (Z.of_nat (length (@nil Z)))).
  rewrite get_chk_app. cbn [of_option obind length]. change (34 =? 0) with false. replace (Z.of_nat 0 <? max_args) with true by lia.
  exact G.
Qed.

(** * Witnesses *)

Definition no_command (c : command) (args : option (list Z)) (s : tstate Z) : outcome (tstate Z) := Ret s.

(** The demonstration screen with the prompt on. *)
Definition demo_prompt : tstate Z :=
  Eval vm_compute in match terminal_enable_prompt demo_sur demo_boot true with Ret s => s | _ => demo_boot end.

Lemma demo_prompt_editing : editing (term demo_prompt) ([], 0%nat).
Proof. unfold editing. split; [by vm_compute |]. split_and!; try (by vm_compute). Qed.

(** "lt", a step back, and "s". *)
Lemma shell_editor_refines_witness :
  exists s', handle_keys demo_sur no_command demo_prompt [108; 116; 8; 115] = Ret s' /\ cstring (input_buffer (term s')) = [108; 115] /\
    cursor_pos (term s') = 2 /\ editing (term s') ([108; 115], 2%nat).
Proof.
  apply (shell_editor_refines demo_sur no_command demo_prompt [108; 116; 8; 115] ([], 0%nat));
    [done | by repeat constructor | apply demo_prompt_editing].
Defined.

Lemma terminal_getline_endless_witness :
  exists s', handle_keys demo_sur no_command (getline_begin demo_prompt) [108; 115] = Ret s' /\ getline_waits (term s') = Ret true /\
    (forall s'', terminal_handle_input demo_sur no_command s' 10 = Ret s'' ->
       getline_waits (term s'') = Ret true \/ exists x, run_line demo_sur no_command s' = Ret (true, x)).
Proof. apply (terminal_getline_endless demo_sur no_command demo_prompt [108; 115]); [done | by repeat constructor | done]. Defined.

Lemma shell_capital_s_lost_witness : terminal_handle_input demo_sur no_command demo_prompt 83 = Ret demo_prompt.
Proof. apply (shell_capital_s_lost demo_sur no_command demo_prompt []); [done | apply demo_prompt_editing]. Defined.

(** The same after one key. *)
Definition demo_typed : tstate Z :=
  Eval vm_compute in match terminal_handle_input demo_sur no_command demo_prompt 108 with Ret s => s | _ => demo_prompt end.

Definition demo_again : tstate Z :=
  Eval vm_compute in match terminal_enable_prompt demo_sur demo_typed true with Ret s => s | _ => demo_prompt end.

Lemma terminal_enable_prompt_stale_cursor_witness : terminal_handle_input demo_sur no_command demo_again 8 = Crash.
Proof.
  apply (terminal_enable_prompt_stale_cursor demo_sur no_command demo_typed demo_again ([108], 1%nat)); [| by apply Nat.lt_0_1 | by vm_compute].
  unfold editing. split; [by vm_compute |]. split_and!; try (by vm_compute). by repeat constructor.
Defined.

Lemma parse_command_roundtrip_witness :
  parse_command (txt "cat" ++ replicate 2 32 ++ txt "notes") = (txt "cat", Some (txt "notes")) /\ parse_command (txt "cat") = (txt "cat", None).
Proof.
  apply (parse_command_roundtrip (txt "cat") (txt "notes") 2); [by apply Nat.leb_le | by repeat constructor | by apply Nat.lt_0_2 |].
  by exists 110, (txt "otes").
Defined.

Lemma tokenize_quoted_overread_witness : tokenize_quoted ([34] ++ txt "a b" ++ [34; 0]) 8 = Crash.
Proof. apply (tokenize_quoted_overread (txt "a b") 8); [lia | by repeat constructor]. Defined.

Definition demo_part : tstate Z :=
  Eval vm_compute in match handle_keys demo_sur no_command demo_prompt (txt "part") with Ret s => s | _ => demo_prompt end.

Definition demo_parted : tstate Z :=
  Eval vm_compute in match terminal_handle_input demo_sur no_command demo_part 10 with Ret s => s | _ => demo_prompt end.

Lemma shell_part_keeps_line_witness : typed (term demo_parted) = txt "part" /\ cursor_pos (term demo_parted) = 4.
Proof.
  apply (shell_part_keeps_line demo_sur no_command demo_part demo_parted (txt "part", 4%nat)); [done | | done | by vm_compute].
  unfold editing. split; [by vm_compute |]. split_and!; try (by vm_compute). by repeat constructor.
Defined.

Definition demo_recording : tstate Z := with_errs demo_boot errlist_zero.

Definition demo_recorded : tstate Z :=
  match errlist_add_ext demo_sur demo_recording (Some (txt "FS")) (Some (txt "bad")) 5 true None 0 with Ret s => s | _ => demo_recording end.

Lemma errlist_add_duplicates_witness :
  exists e1 e2, live (errs demo_recorded) = [e1; e2] /\ e_code e1 = 5 /\ e_subsystem e1 = field_text 4095 (txt "FS") /\
    e_code e2 = 0 /\ e_subsystem e2 = field_text 4095 TERMINAL_TEXT /\ e_is_error e2 = true.
Proof.
  apply (errlist_add_duplicates demo_sur demo_recording demo_recorded (txt "FS") (txt "bad") 5 None 0);
    [apply errlist_zero_ok | done | by vm_compute | done | by vm_compute].
Defined.

(** Navy text, on a screen of three rows. *)
Definition demo_navy : tstate Z :=
  Eval vm_compute in match cmd_termcolor demo_sur demo_boot (Some (txt "fg=0x" ++ hex6 0x001133)) with Ret s => s | _ => demo_boot end.

Lemma termcolor_sets_foreground_witness :
  color_fg (term demo_navy) = mk_color 0 0x11 0x33 255 /\ color_bg (term demo_navy) = FB_BLACK.
Proof. apply (termcolor_sets_foreground demo_sur demo_boot demo_navy 0x001133); [lia | by vm_compute]. Defined.
